(* ===== verification/_CoqProject ===== *)
-Q . S2P
Prelude.v
GoStrings.v
Paths.v
Json.v
Types.v
GoNet.v
MountSecret.v
Ipam.v
HostNet.v
Egress.v
PortForward.v
Manifest.v
Blob.v
SnapshotStore.v
StoreSpec.v
Storage.v
KernelArgs.v
VmConfig.v
Server.v
VmResources.v
VmCreate.v
VmLifecycle.v
Snapshots.v
LifecycleSpec.v
LifecycleOutcome.v
CreateSpec.v
DeleteSpec.v
SafetySpec.v
GoUrl.v
Spire.v
Svid.v
SvidManager.v
SvidSpec.v
Issuer.v
DaemonConfig.v
Auth.v
GoRunes.v
GoIp.v
CliMounts.v
Gondolin.v
GondolinSpec.v
HostFs.v
ImageValidate.v
CredIsolation.v
Images.v
Builder.v
BuilderSpec.v
FcExec.v
Firecracker.v
AppleContainer.v
Routes.v
Daemon.v
DaemonSpec.v
Client.v
Api.v
CliErrors.v
CliMain.v
ClientSpec.v
TrayApp.v
Tray.v
TraySpec.v
RootPage.v
FirecrackerSpec.v
LayerTypes.v
LayerManifest.v
LayerResolve.v
LayerEnv.v
LayerCache.v
LayerFetch.v
LayerFetchSpec.v
LayerCompose.v
LayerComposeSpec.v
Recording.v
RecordingStore.v
RecordingStoreSpec.v
Inspect.v
LayerPackage.v
LayerPackageSpec.v
RecordingRx.v
RecordingApi.v
