(* ===== verification/Prelude.v ===== *)
(** * A verification development for nanofuse

    nanofuse is a daemon (Go, under src/) that keeps microVMs: it creates,
    starts, pauses, snapshots and deletes them on request of an HTTP client,
    keeps their records in SQLite, gives them addresses on a bridge network and
    installs firewall rules and port forwards on the host.  Around it are the
    drivers of the hypervisors, the store of snapshots, the building of images from
    layers and from containers, the identities of VMs, the recording of sessions and
    a command-line client.  The development models the control plane, the code that
    decides what happens to a VM, and these parts with it.

    ** The program and the files

    - Types.v, Json.v, MountSecret.v: the data model (internal/types).  Go
      structs are records, the VM states an inductive type, [int] is [Z], a
      nil-able pointer an [option], a string its sequence of bytes.  Types.v also
      has the JSON form of the columns the database stores, as JSON trees, with
      decoders that invert it.  MountSecret.v is mount_secret.go.
    - GoStrings.v, Paths.v, GoNet.v: what the code uses of Go's standard library
      (strings, path, path/filepath, net.ParseIP and ParseCIDR, SHA-256).
    - Ipam.v: internal/network/ipam.go.  Every method runs under one mutex and is
      one step on the state (free list, map of held addresses).
    - HostNet.v, Egress.v, PortForward.v: the rest of internal/network.  A
      function is the sequence of host commands (ip, iptables, sysctl) it runs and
      its branches on their outcomes; the class [HostNet.Host] answers each
      command from the commands run before, so a theorem covers every host.  What
      a command does to the kernel is not modelled: the theorems speak of the
      commands and their reported success.
    - Storage.v: internal/storage.  A table is the list of its rows in insertion
      order; a method of [DB] is the effect of its SQL statement, under a fault of
      the driver that is an argument.  A failed statement has no effect.
    - KernelArgs.v, VmConfig.v: the pure parts of internal/api/vm_handlers.go,
      the kernel command line and the configuration of a new VM.
    - Server.v: the server of internal/api/server.go.  [World] is the state a
      handler works on (database, address manager, commands run, log of the other
      calls), [M] the state monad over it, and the class [Env] the interface to
      the outside: clock, database driver, file system, runtime (internal/vmm),
      identity service (SPIRE), random bytes.  Each is a function of a counter
      that every call advances; a theorem over all [Env] covers every sequence of
      answers and failures.  [with_lock] is the lock discipline of the handlers.
    - VmResources.v, VmCreate.v, VmLifecycle.v: vm_handlers.go, one definition
      per function: storage, root disk and network of a VM; creation with its
      roll-backs; get, list, start, stop, kill, pause, resume, resume from a
      snapshot, delete, logs, exec and the exit callback.  Snapshots.v is
      snapshot_handlers.go.
    - LifecycleSpec.v, LifecycleOutcome.v, CreateSpec.v, DeleteSpec.v,
      SafetySpec.v: what the handlers guarantee.
    - Images.v: image_handlers.go with the goroutine of a pull job, and the stubs
      of backup_handlers.go.
    - Manifest.v, Blob.v, SnapshotStore.v: internal/snapshotstore, the
      tier that keeps snapshots as objects: the manifest and its JSON text, the
      object interface ([Blob]) with the file system behind it, and the store's
      Put, Get and listing.  StoreSpec.v: what the store guarantees.
    - LayerTypes.v, LayerManifest.v, LayerEnv.v, LayerCache.v,
      LayerFetch.v, LayerCompose.v: internal/layerbuild, the composition of an
      image from layers: manifests and conditions, the dependency order, the cache
      of layers, the fetchers (local, container, registry) with retries and
      extraction, hooks and the build on a mounted image.  LayerResolve.v,
      LayerFetchSpec.v, LayerComposeSpec.v: what they guarantee.
      [LayerEnv.LEnv] is the interface to the host, answering by a counter as
      [Env] does; the files of the host are a map from cleaned paths.
    - Recording.v: events and their wire format (internal/recording/events.go).
      RecordingStore.v: the storage of sessions (local.go), on the host of
      LayerEnv.v.  RecordingRx.v: the receiver (receiver.go), a step relation of
      the goroutines of its connections, with its theorems.  RecordingApi.v:
      recording_handlers.go.  RecordingStoreSpec.v: what the storage guarantees.
    - Firecracker.v: the driver of internal/firecracker (vm.go, version.go,
      vsock_proxy.go) over a process and an API socket that answer as they like:
      start, load, stop, kill, pause, resume, the proxies.  FcExec.v: exec.go, guest
      commands over ssh, with its quoting and the report of the exit code.
      AppleContainer.v: internal/applecontainer, the driver over the answers of
      Apple's tool.  FirecrackerSpec.v: what the first guarantees.
    - GoUrl.v, GoRunes.v, GoIp.v: more of Go's standard library (net/url, UTF-8 and
      runes, net.IP's texts).
    - Spire.v, Svid.v, SvidManager.v, Issuer.v: internal/spire, the registration of
      workloads (service.go), the document of an identity and its checks (svid.go),
      the manager that rotates it, with its files (manager.go, credwrite_unix.go), and
      the authority for development (issuer.go).  SvidSpec.v: what the document and
      the manager guarantee.
    - DaemonConfig.v, Auth.v, Routes.v, Daemon.v: internal/config, auth_middleware.go
      with the TLS configuration, the table of routes with net/http's matching, and
      the start of the daemon from its command line on (cmd/nanofused, the
      construction in internal/api/server.go, the addresses of an earlier run).
      DaemonSpec.v: what a daemon that serves has done.
    - RootPage.v: internal/api/handlers.go, the status page as pieces of text that
      say whether they have been escaped, and that it is inert.
    - HostFs.v, ImageValidate.v: the file system of a host with symbolic links, and
      internal/validate, the checks of an image, over it.  LayerPackage.v:
      internal/layer, the scaffold and the validation of a layer.  Gondolin.v:
      internal/gondolin and its command, the conversion of sandbox files.
      CredIsolation.v: internal/credisolation and its command.
      LayerPackageSpec.v, GondolinSpec.v: what they guarantee.
    - Builder.v: internal/builder and the pull of internal/registry, as the trace of
      the calls to the host.  BuilderSpec.v has a small logic of such traces (what is
      taken is given back) and one of the reports of a pull.
    - Client.v: internal/client, an operation as the request it sends and what becomes
      of the answer.  CliErrors.v: internal/clierrors.  CliMounts.v, CliMain.v:
      cmd/nanofuse, the flags of mounts and secrets, the choice of the daemon, the
      creation of a VM, the console that is followed.  Api.v sets each operation of
      the client against the handler that answers it ([Api.serve]); ClientSpec.v puts
      client, routes and handlers together.
    - TrayApp.v, Tray.v: internal/trayapp and cmd/nanofuse-tray, what the tray asks of
      the API, and its menu as a step relation of clicks and goroutines under one lock.
      TraySpec.v: what the menu guarantees.
    - Inspect.v: internal/inspect, on the host the composer works on.

    A component whose file has no companion ...Spec.v has its theorems in the same file,
    after its definitions.

    Calls go downward in this list: a handler composes statements of Storage,
    steps of Ipam, command programs of HostNet, Egress and PortForward, and calls
    of the interfaces of [Env].  Every handler is executable; the scenarios at the
    end of DeleteSpec.v and SafetySpec.v run whole requests.

    ** What the theorems show

    - Refinement: every request on a VM moves its stored state along the edges of
      the machine [LifecycleSpec.lifecycle] and leaves its identity, its
      configuration and every other VM alone, whatever fails;
      [LifecycleOutcome.outcomes] lists status and final state of every request
      when the database works (the VM never stays in a state on the way).
    - Creation: a VM reported created is in the table once, within the limits,
      with an identity when one is required; any other answer leaves no row and
      no address behind.  Deletion: a VM reported deleted has no row, and the
      address the manager held for it is at the end of the free list; the list is
      otherwise as it was (that no other VM is configured with the same address does
      not follow: [DeleteSpec.two_running_vms_share_an_address]).
    - The lock: whoever takes it has it for five minutes, whatever other
      statements run in between; on a VM that is locked each of the six requests
      that take the lock has no effect, and is refused unless its answer does not
      need the lock ([SafetySpec.answered_unlocked]).  The lock theorem is about interleaved statements; the lifecycle
      theorems run one handler at a time, and the handlers are split into the part
      before and the part under the lock ([start_vm], [start_locked]) so that
      interleavings of handlers can be stated.
    - The database: keys stay unique and rows readable through any sequence of
      statements; what is created is what is read; updates touch what they name.
    - Addresses: free and held addresses are exactly the pool, through any
      sequence of requests and over a restart.
    - The host: set-up that fails undoes what it did (bridge, egress policy, port
      forwards); set-up that succeeds ran all its rules; an accepted egress policy
      lets through only what it names.
    - Paths: only files of the managed tree are loaded or removed; an archive is
      extracted below its directory.
    - The snapshot store: what is put is what is got back, in whatever order the
      uploads complete; the manifest is written last; a Get that fails touches no file that was
      there and leaves nothing behind when its removals succeed, and one that
      succeeds has verified every checksum.
    - Layers: the dependency order is the reference order, and its loop ends; a
      build that succeeds (not a dry run) has extracted the planned layers, each from
      the archive found for it, and the image is unmounted on every way out;
      the cache returns what was put and is bounded after an eviction.
    - Recordings: events are read back as they were written, however the bytes are
      cut; what is read is bounded; sessions stay in their directories; of
      sessions with plain ids, a batch that is written is in the files and counted in
      the sessions, which are open, and a finalized session holds what was recorded;
      the receiver neither loses nor reorders what it has accepted, accepts what it
      reads unless the channel is full, and never ends a connection by itself.
    - Pull jobs: the columns of a job fit its state, whatever fails.  The progress
      reported stays in its bounds and never falls; the building of a disk asks its
      container, directories and mount back in the opposite order (a failure of these
      calls is ignored, and what it leaves behind is accounted for), and a success has
      done every step.
    - The drivers: a process of which the start fails has been sent [SIGKILL] and
      waited for; Stop is graceful, for at least its time-out
      ([FirecrackerSpec.wait_gone_grace]), before it kills; proxies and processes are
      those of the VMs; the words of a guest command arrive as they are; the Apple
      driver reports started, stopped or deleted only on an answer of the tool that it
      reads so.
    - Identities: what is registered or accepted is within the trust domain; the
      manager never serves an identity that is expired or unchecked, and its document
      is read back; what the local authority issues passes every check.
    - The daemon: it serves only once its stores and network are ready and the
      addresses that could be listed are loaded, and TCP only with authentication when
      it is required.
    - Conversion and validation: what cannot be represented is refused, not dropped;
      the verdict on an image is that of its checks, which search texts and
      look at exit codes and files ([ImageValidate.sound_image]).
    - Client and daemon: every operation is answered with the document and the status
      the client expects ([Api.serve_typed]); a request finds its handler
      ([ClientSpec.request_reaches_its_handler]); what the daemon refuses is what the
      user is told, with the exit code of its status ([ClientSpec.user_is_told]); the
      last two for identifiers made of safe characters, since another one need not
      reach its handler: [Api.serve] goes from the operation to the handler directly.
      Mounts and secrets that were accepted can be declared again; a console that is
      followed is printed whole.  The status page has no markup of foreign texts.
    - The tray: nothing is killed or deleted without two clicks for the same VM in
      ten seconds, however clicks, answers and timers interleave; the menu shows the
      newest status; what it enables the daemon does not refuse.
    - The build manifest: what the composer records is what an inspection reports.
    - Where the code falls short of its purpose the theorem states what it does
      (two running VMs with one address, a start from a stale state, a lock freed
      by an earlier holder, snapshots that cannot be deleted or collide).

    ** Conventions and bounds

    Errors keep the structure the code builds ([error], [message]) instead of the
    text.  Times are instants in nanoseconds; SQLite compares them as text, which
    agrees as long as all are written with one zone offset.  A row is found by id
    or name in table order.  Integers are unbounded except where the code can
    reach the width (sizes added as [int64], lengths on the wire).  Fuel occurs in
    models of the standard library -- trimming and [strings.Fields] take the length
    of the string, which every step shortens ([trim_left_fuel_clean]) -- and in
    Kahn's algorithm, which takes one step per layer
    ([LayerResolve.ResolveDependencies_terminates]); an IPv6 address has at most
    eight groups; SHA-256 takes one step per block; the decoding of a chain of
    certificates takes the length of its text; symbolic links are followed forty
    times, as by Linux, and redirects ten times, as by net/http, after which both
    fail.  Loops that wait are bounded as in the code, by their deadline: the rounds of
    a wait are those the deadline and the interval allow.  Loops that last as long as
    the daemon (the manager of identities, a console that is followed) run for as
    many rounds as they are given, and the theorems hold for every number.  A panic
    is a value ([None], [PullPanic]) where the code can reach one.

    ** Not modelled

    Of the concurrency inside single functions: the moment in which
    [RecordingStore.Write] gives up its lock to start a session, and the hand-over
    of a channel without a buffer in RecordingRx.v.
    Libraries, which are parameters of the definitions that use them: the syntax of
    JSON outside the snapshot manifest, YAML, archives and compression, X.509 and
    TLS, the registry's library, templates, the transport of HTTP.  Migrations and
    pragmas of the database, whose text is SQL.  The shutdown of the daemon on a
    signal, logging and timeouts of single commands.  Of the command line the
    declarations of commands and flags, its tables and colours (internal/output) and the
    commands that only call a library and print.  The icon of the tray, drawn in floating
    point, and the build scripts. *)

From Stdlib Require Export Ascii.
From stdpp Require Export base option numbers strings list.

(** * Go values: errors and formatted messages

    A Go [error] is kept as the structure the code builds, not as rendered
    text: [errors.New msg], [fmt.Errorf format args], or a struct type that
    implements [error].  A formatted message is the same structure. *)

Inductive error : Type :=
  | ErrorsNew (msg : string)
  | Errorf (format : string) (args : list arg)
  | ErrStruct (type_name : string) (fields : list arg)
with arg : Type :=
  | AStr (s : string)
  | AInt (z : Z)
  | ABool (b : bool)
  | AShow (e : error)    (* %v of an error: text only *)
  | AWrap (e : error).   (* %w, or a field returned by Unwrap *)

(** [fmt.Sprintf] builds the same structure as [fmt.Errorf]. *)
Abbreviation message := error (only parsing).
Abbreviation Sprintf := Errorf (only parsing).

(** The message of a sentinel or of a plain string. *)
Abbreviation Text := ErrorsNew (only parsing).

(** [errors.Is err target] for a sentinel [target = errors.New msg]: walk the
    [%w] chain.  A sentinel is identified by its message; the sentinels of the
    program have distinct messages. *)
Fixpoint errors_Is (e : error) (msg : string) : bool :=
  let any := fix any (l : list arg) : bool :=
    match l with
    | [] => false
    | AWrap e' :: l' => errors_Is e' msg || any l'
    | _ :: l' => any l'
    end in
  match e with
  | ErrorsNew m => bool_decide (m = msg)
  | Errorf _ args => any args
  | ErrStruct _ fields => any fields
  end.

(** [errors.As err &target] for a struct error type, found by its name. *)
Fixpoint errors_As (e : error) (type_name : string) : bool :=
  let any := fix any (l : list arg) : bool :=
    match l with
    | [] => false
    | AWrap e' :: l' => errors_As e' type_name || any l'
    | _ :: l' => any l'
    end in
  match e with
  | ErrorsNew _ => false
  | Errorf _ args => any args
  | ErrStruct n fields => bool_decide (n = type_name) || any fields
  end.

(** [fs.ErrNotExist] and [os.IsNotExist]. *)
Definition ErrNotExist : string := "file does not exist".
Definition os_IsNotExist (e : error) : bool := errors_Is e ErrNotExist.

(** A Go function returning [(A, error)]. *)
Inductive result (A : Type) : Type :=
  | Ok (a : A)
  | Err (e : error).
Arguments Ok {A} a.
Arguments Err {A} e.

Definition is_Ok {A} (r : result A) : bool :=
  match r with Ok _ => true | Err _ => false end.

Definition result_bind {A B} (r : result A) (k : A → result B) : result B :=
  match r with Ok a => k a | Err e => Err e end.

(** [int64] addition wraps around. *)
Definition add64 (a b : Z) : Z := ((a + b + 2 ^ 63) mod 2 ^ 64 - 2 ^ 63)%Z.

(** * A state monad for the code that threads state *)

Definition State (S A : Type) : Type := S → A * S.

Definition ret {S A} (a : A) : State S A := λ s, (a, s).

Definition bind {S A B} (m : State S A) (k : A → State S B) : State S B :=
  λ s, let '(a, s') := m s in k a s'.

Definition get {S} : State S S := λ s, (s, s).

Declare Scope go_scope.
Delimit Scope go_scope with go.

Notation "'let*' x ':=' m 'in' k" := (bind m (λ x, k))
  (at level 10, x binder, m at level 100, k at level 200) : go_scope.
Notation "'let*' ' p ':=' m 'in' k" := (bind m (λ x, match x with p => k end))
  (at level 10, p pattern, m at level 100, k at level 200) : go_scope.
Notation "m ';;;' k" := (bind m (λ _, k))
  (at level 199, k at level 200, right associativity) : go_scope.
Notation "'let?' x ':=' r 'in' k" := (result_bind r (λ x, k))
  (at level 10, x binder, r at level 100, k at level 200) : go_scope.

Open Scope go_scope.

Lemma bind_ret_l {S A B} (a : A) (k : A → State S B) s : bind (ret a) k s = k a s.
Proof. reflexivity. Qed.

Lemma bind_unfold {S A B} (m : State S A) (k : A → State S B) s :
  bind m k s = let '(a, s') := m s in k a s'.
Proof. reflexivity. Qed.

Lemma bind_eq {S A B} (m : State S A) (k : A → State S B) s a s' :
  m s = (a, s') → bind m k s = k a s'.
Proof. intros H. unfold bind. by rewrite H. Qed.

(** [range] loops over a slice, threading state. *)
Fixpoint for_each {S A} (l : list A) (body : A → State S unit) : State S unit :=
  match l with
  | [] => ret tt
  | a :: l' => body a ;;; for_each l' body
  end.

(** [range] loop that returns early with the first error of its body. *)
Fixpoint for_each_err {S A} (l : list A) (body : A → State S (option error)) :
    State S (option error) :=
  match l with
  | [] => ret None
  | a :: l' =>
      let* e := body a in
      match e with
      | Some e => ret (Some e)
      | None => for_each_err l' body
      end
  end.

(** Go on only without an error. *)
Definition checked {S A} (m : State S (option error)) (fail : error → A) (k : State S A) : State S A :=
  let* e := m in
  match e with
  | Some err => ret (fail err)
  | None => k
  end.

Definition checked_result {S A B} (m : State S (result A)) (fail : error → B) (k : A → State S B) : State S B :=
  let* r := m in
  match r with
  | Err err => ret (fail err)
  | Ok a => k a
  end.

(** A deferred call. *)
Definition deferred {S A} (cleanup : State S unit) (m : State S A) : State S A :=
  let* a := m in
  cleanup ;;; ret a.

(** * Commands run on the host

    [exec.Command(name, args...).Run()]: the outcome of every command is
    decided by the host.  The model takes it from an arbitrary function of the
    commands run before, so a theorem holds for every behaviour of the host. *)

Record command : Type := Cmd { cmd_name : string; cmd_args : list string }.

Definition cmd_event : Type := command * option error.

Class Host : Type := {
  (** [None]: the command exits with status zero. *)
  host_run : list cmd_event → command → option error;
  (** What a command prints, for the callers that read it. *)
  host_output : list cmd_event → command → string
}.

#[global] Instance command_eq_dec : EqDecision command.
Proof. solve_decision. Defined.

(** A concrete host: the listed commands fail, the others succeed. *)
Definition scripted_host (fails : list command) (output : string) : Host := {|
  host_run _ c := if bool_decide (c ∈ fails) then Some (ErrorsNew "exit status 1") else None;
  host_output _ _ := output
|}.

Section Run.
Context `{Host}.

(** [exec.Command(name, args...).Run()], recorded in the trace. *)
Definition run (name : string) (args : list string) :
    State (list cmd_event) (option error) :=
  λ tr, let c := Cmd name args in
        let r := host_run tr c in (r, tr ++ [(c, r)]).

(** [exec.Command(...).Output()] and [.CombinedOutput()]. *)
Definition run_output (name : string) (args : list string) :
    State (list cmd_event) (string * option error) :=
  λ tr, let c := Cmd name args in
        let r := host_run tr c in ((host_output tr c, r), tr ++ [(c, r)]).
End Run.

(** A computation that only appends to the trace. *)
Definition appends {E A} (m : State (list E) A) : Prop :=
  ∀ tr, ∃ new, snd (m tr) = tr ++ new.

Create HintDb go discriminated.

Lemma appends_ret {E A} (a : A) : appends (E:=E) (ret a).
Proof. intros tr. exists []. by rewrite app_nil_r. Qed.

Lemma appends_bind {E A B} (m : State (list E) A) (k : A → State (list E) B) :
  appends m → (∀ a, appends (k a)) → appends (bind m k).
Proof.
  intros Hm Hk tr. destruct (Hm tr) as [n1 E1]. unfold bind.
  destruct (m tr) as [a tr'] eqn:Em. simpl in E1. subst tr'.
  destruct (Hk a (tr ++ n1)) as [n2 E2]. exists (n1 ++ n2). by rewrite E2, app_assoc.
Qed.

Lemma appends_run `{Host} name args : appends (run name args).
Proof. intros tr. eexists. reflexivity. Qed.

Lemma appends_run_output `{Host} name args : appends (run_output name args).
Proof. intros tr. eexists. reflexivity. Qed.

Lemma appends_for_each_err {E A} (l : list A) (body : A → State (list E) (option error)) :
  (∀ a, appends (body a)) → appends (for_each_err l body).
Proof.
  intros Hb. induction l as [|a l IH]; simpl; [apply appends_ret|].
  apply appends_bind; [done|]. intros [e|]; [apply appends_ret|done].
Qed.

Lemma appends_for_each {E A} (l : list A) (body : A → State (list E) unit) :
  (∀ a, appends (body a)) → appends (for_each l body).
Proof.
  intros Hb. induction l as [|a l IH]; simpl; [apply appends_ret|].
  by apply appends_bind.
Qed.

#[export] Hint Resolve appends_ret appends_bind appends_run appends_run_output
  appends_for_each_err appends_for_each : go.

(** * Tactics *)

(** One step of symbolic execution: split the innermost scrutinee. *)
Ltac split_match :=
  match goal with
  | |- context [match ?x with _ => _ end] =>
      lazymatch x with
      | context [match _ with _ => _ end] => fail
      | _ => let E := fresh "E" in destruct x eqn:E
      end
  end.

Ltac split_match_in H :=
  match type of H with
  | context [match ?x with _ => _ end] =>
      lazymatch x with
      | context [match _ with _ => _ end] => fail
      | _ => let E := fresh "E" in destruct x eqn:E
      end
  end.

(** Prove [appends] for a body built from the combinators above. *)
Ltac solve_appends :=
  repeat first
    [ progress intros
    | solve [auto with go]
    | apply appends_bind
    | apply appends_for_each_err
    | apply appends_for_each
    | match goal with
      | |- appends (match ?x with _ => _ end) => destruct x
      end ].

(** * Lemmas on lists shared by the components *)

Lemma find_none_iff {A} (f : A → bool) l :
  List.find f l = None ↔ ∀ x, x ∈ l → f x = false.
Proof.
  split.
  - intros H x Hx. apply list_elem_of_In in Hx. by apply (List.find_none f l).
  - intros H. destruct (List.find f l) as [x|] eqn:E; [|done].
    apply List.find_some in E as [Hin Hf].
    apply list_elem_of_In, H in Hin. congruence.
Qed.

Lemma find_some_elem {A} (f : A → bool) l x :
  List.find f l = Some x → x ∈ l ∧ f x = true.
Proof. intros [Hin Hf]%List.find_some. split; [by apply list_elem_of_In|done]. Qed.

Lemma existsb_false_iff {A} (f : A → bool) l :
  existsb f l = false ↔ ∀ x, x ∈ l → f x = false.
Proof.
  rewrite <- not_true_iff_false, existsb_exists. split.
  - intros H x Hx. apply not_true_iff_false. intros Hf. apply H.
    exists x. by rewrite <- list_elem_of_In.
  - intros H (x & Hin & Hf). apply list_elem_of_In, H in Hin. congruence.
Qed.

Lemma existsb_true_elem {A} (f : A → bool) l :
  existsb f l = true ↔ ∃ x, x ∈ l ∧ f x = true.
Proof.
  rewrite existsb_exists. split; intros (x & H1 & H2); exists x;
    (split; [by apply list_elem_of_In|done]).
Qed.

Lemma NoDup_fmap_inj_on {A B} (f : A → B) (l : list A) x y :
  NoDup (f <$> l) → x ∈ l → y ∈ l → f x = f y → x = y.
Proof.
  induction l as [|a l IH]; simpl; [by intros _ ?%elem_of_nil|].
  intros [Ha Hnd]%NoDup_cons Hx Hy Hf.
  apply elem_of_cons in Hx as [->|Hx], Hy as [->|Hy]; auto.
  - exfalso. apply Ha. rewrite Hf. by apply list_elem_of_fmap_2.
  - exfalso. apply Ha. rewrite <- Hf. by apply list_elem_of_fmap_2.
Qed.

Lemma fmap_map_ext_key {A B} (f : A → B) (g : A → A) (l : list A) :
  (∀ x, f (g x) = f x) → f <$> (g <$> l) = f <$> l.
Proof. intros H. rewrite <- list_fmap_compose. apply list_fmap_ext. intros; apply H. Qed.

Lemma filter_all {A} (P : A → Prop) `{∀ x, Decision (P x)} l : Forall P l → filter P l = l.
Proof. induction 1 as [|x l Hx _ IH]; [done|]. rewrite filter_cons_True by done. by rewrite IH. Qed.

Lemma filter_none {A} (P : A → Prop) `{∀ x, Decision (P x)} l : Forall (λ x, ¬ P x) l → filter P l = [].
Proof. induction 1 as [|x l Hx _ IH]; [done|]. by rewrite filter_cons_False by done. Qed.

Lemma NoDup_filter_fmap {A B} (f : A → B) (P : A → Prop) `{∀ x, Decision (P x)} l :
  NoDup (f <$> l) → NoDup (f <$> filter P l).
Proof.
  induction l as [|a l IH]; simpl; [done|].
  intros [Ha Hnd]%NoDup_cons. rewrite filter_cons. case_decide; simpl; [|auto].
  apply NoDup_cons; split; [|auto].
  intros (x & Hfx & [_ Hx]%list_elem_of_filter)%list_elem_of_fmap.
  apply Ha. rewrite Hfx. by apply list_elem_of_fmap_2.
Qed.
