(* ===== verification/GoStrings.v ===== *)
(** The part of Go's [strings], [path] and [path/filepath] packages that the
    program calls, on byte strings: prefix and substring tests, [TrimSpace],
    [ToLower], [Split]/[Join], [path.Clean], [filepath.Join] and
    [filepath.Rel] (Unix rules).  A Go string is its sequence of bytes. *)

From stdpp Require Export pretty.
From S2P Require Import Prelude.

Definition byte_of (n : nat) : ascii := ascii_of_nat n.

Fixpoint bytes (l : list nat) : string :=
  match l with [] => EmptyString | n :: l' => String (byte_of n) (bytes l') end.

(** [strings.HasPrefix]. *)
Definition has_prefix (p s : string) : bool := String.prefix p s.

Fixpoint string_rev_app (s acc : string) : string :=
  match s with
  | EmptyString => acc
  | String a s' => string_rev_app s' (String a acc)
  end.
Definition string_rev (s : string) : string := string_rev_app s EmptyString.

(** [strings.HasSuffix]. *)
Definition has_suffix (p s : string) : bool := has_prefix (string_rev p) (string_rev s).

(** [strings.Contains]: some suffix of [s] starts with [sub]. *)
Fixpoint contains (sub s : string) : bool :=
  has_prefix sub s ||
  match s with EmptyString => false | String _ s' => contains sub s' end.

(** [strings.ContainsAny]. *)
Fixpoint contains_any (chars : list ascii) (s : string) : bool :=
  match s with
  | EmptyString => false
  | String a s' => existsb (Ascii.eqb a) chars || contains_any chars s'
  end.

Fixpoint strip_prefix (p s : string) : option string :=
  match p, s with
  | EmptyString, _ => Some s
  | String a p', String b s' => if Ascii.eqb a b then strip_prefix p' s' else None
  | _, _ => None
  end.

(** [strings.TrimPrefix] *)
Definition trim_prefix (p s : string) : string := default s (strip_prefix p s).

(** [strings.TrimSuffix] *)
Definition trim_suffix (p s : string) : string :=
  string_rev (trim_prefix (string_rev p) (string_rev s)).

(** * TrimSpace

    The UTF-8 encodings of the runes for which [unicode.IsSpace] holds.  On
    both ends of a string a rune decodes to one of them exactly when the bytes
    there are its encoding. *)
Definition space_runes : list string :=
  bytes <$>
    [ [9]; [10]; [11]; [12]; [13]; [32];
      [194; 133]; [194; 160]; [225; 154; 128];
      [226; 128; 128]; [226; 128; 129]; [226; 128; 130]; [226; 128; 131];
      [226; 128; 132]; [226; 128; 133]; [226; 128; 134]; [226; 128; 135];
      [226; 128; 136]; [226; 128; 137]; [226; 128; 138];
      [226; 128; 168]; [226; 128; 169]; [226; 128; 175]; [226; 129; 159];
      [227; 128; 128] ]%nat.

(** The rest of [s] after the first of [seps] that is a prefix of it. *)
Fixpoint strip_any (seps : list string) (s : string) : option string :=
  match seps with
  | [] => None
  | p :: ps => match strip_prefix p s with Some r => Some r | None => strip_any ps s end
  end.

Fixpoint trim_left_fuel (seps : list string) (fuel : nat) (s : string) : string :=
  match fuel with
  | O => s
  | S n => match strip_any seps s with
           | Some r => trim_left_fuel seps n r
           | None => s
           end
  end.

Definition trim_left (seps : list string) (s : string) : string :=
  trim_left_fuel seps (String.length s) s.

Definition trim_space (s : string) : string :=
  string_rev (trim_left (string_rev <$> space_runes)
    (string_rev (trim_left space_runes s))).

(** * ToLower

    ASCII letters, and the two other runes whose lower case is ASCII: U+0130
    (to "i") and U+212A KELVIN SIGN (to "k").  The remaining non-ASCII letters,
    whose lower case is not ASCII either, are left as they are: the program
    only compares the result with ASCII keywords. *)
Definition lower_ascii (a : ascii) : ascii :=
  let n := nat_of_ascii a in
  if (65 <=? n)%nat && (n <=? 90)%nat then ascii_of_nat (n + 32) else a.

Fixpoint to_lower (s : string) : string :=
  match s with
  | EmptyString => EmptyString
  | String a s' =>
      match nat_of_ascii a, s' with
      | 196%nat, String b s'' =>
          if (nat_of_ascii b =? 176)%nat then String "i" (to_lower s'')
          else String (lower_ascii a) (to_lower s')
      | 226%nat, String b (String c s'') =>
          if (nat_of_ascii b =? 132)%nat && (nat_of_ascii c =? 170)%nat
          then String "k" (to_lower s'')
          else String (lower_ascii a) (to_lower s')
      | _, _ => String (lower_ascii a) (to_lower s')
      end
  end.

(** * Split and Join *)

Fixpoint split_on (c : ascii) (s : string) : list string :=
  match s with
  | EmptyString => [EmptyString]
  | String a s' =>
      if Ascii.eqb a c then EmptyString :: split_on c s'
      else match split_on c s' with
           | x :: xs => String a x :: xs
           | [] => [String a EmptyString]
           end
  end.

(** [strings.Join]. *)
Definition join (sep : string) (l : list string) : string := String.concat sep l.

(** * path.Clean, filepath.Join, filepath.Rel *)

Definition slash : ascii := "/".

(** One element of a path against the elements kept so far (last one first). *)
Definition clean_step (rooted : bool) (acc : list string) (seg : string) : list string :=
  if bool_decide (seg = "") || bool_decide (seg = ".") then acc
  else if bool_decide (seg = "..") then
    match acc with
    | top :: acc' => if bool_decide (top = "..") then ".." :: acc else acc'
    | [] => if rooted then [] else [".."]
    end
  else seg :: acc.

Definition clean_segments (rooted : bool) (segs : list string) : list string :=
  rev (foldl (clean_step rooted) [] segs).

Definition is_rooted (p : string) : bool := has_prefix "/" p.

(** The elements of the cleaned path. *)
Definition path_elements (p : string) : list string :=
  clean_segments (is_rooted p) (split_on slash p).

Definition path_render (rooted : bool) (els : list string) : string :=
  if rooted then "/" +:+ join "/" els
  else match els with [] => "." | _ => join "/" els end.

(** [path.Clean]; [filepath.Clean] is the same function on Unix. *)
Definition path_clean (p : string) : string := path_render (is_rooted p) (path_elements p).

(** [filepath.Join]: empty elements are dropped. *)
Definition filepath_join (elems : list string) : string :=
  match filter (λ e, e ≠ "") elems with
  | [] => ""
  | l => path_clean (join "/" l)
  end.

(** [filepath.Dir]: all but the last element, cleaned. *)
Fixpoint drop_last_element (segs : list string) : list string :=
  match segs with
  | [] | [_] => [""]
  | [x; _] => [x; ""]
  | x :: segs' => x :: drop_last_element segs'
  end.

Definition filepath_dir (p : string) : string :=
  path_clean (join "/" (drop_last_element (split_on slash p))).

Fixpoint strip_common (bs ts : list string) : list string * list string :=
  match bs, ts with
  | b :: bs', t :: ts' => if bool_decide (b = t) then strip_common bs' ts' else (bs, ts)
  | _, _ => (bs, ts)
  end.

(** [filepath.Rel basepath targpath]; [None] is its error. *)
Definition filepath_rel (base targ : string) : option string :=
  if negb (Bool.eqb (is_rooted base) (is_rooted targ)) then None
  else
    match strip_common (path_elements base) (path_elements targ) with
    | ([], []) => Some "."
    | (b :: bs, ts) =>
        if bool_decide (b = "..") then None
        else Some (join "/" (replicate (length (b :: bs)) ".." ++ ts))
    | ([], ts) => Some (join "/" ts)
    end.

(** [fmt.Sprintf("%d", z)]. *)
Definition fmt_d (z : Z) : string := pretty z.

(** * Lemmas *)

(** The first [n] bytes. *)
Definition limited (n : Z) (s : string) : string :=
  if (Z.of_nat (String.length s) <=? n)%Z then s else String.substring 0 (Z.to_nat n) s.

(** [io.Copy] from [io.LimitReader(dec, n)]: the bytes, and the error met before
    the limit. *)
Definition copy_limited (n : Z) (out : string * option error) : string * option error :=
  (limited n (fst out), if (n <=? Z.of_nat (String.length (fst out)))%Z then None else snd out).

(** [filepath.Ext]: from the last dot of the last element. *)
Fixpoint ext_loop (s : string) (cur : string) : string :=
  match s with
  | EmptyString => string_rev cur
  | String a s' =>
      if Ascii.eqb a "/" then ext_loop s' ""
      else if Ascii.eqb a "." then ext_loop s' "."
      else ext_loop s' (match cur with EmptyString => EmptyString | _ => String a cur end)
  end.
Definition filepath_ext (p : string) : string := ext_loop p "".

Example filepath_ext_examples :
  (filepath_ext <$> ["a/b.tar.gz"; "a.b/c"; "x.tar"; "x."; ".gz"]) = [".gz"; ""; ".tar"; "."; ".gz"].
Proof. vm_compute. reflexivity. Qed.

(** [strconv.Atoi]: an optional sign and decimal digits, within 64 bits. *)
Fixpoint digits_value (s : string) (acc : Z) : option Z :=
  match s with
  | EmptyString => Some acc
  | String a s' =>
      let d := (Z.of_nat (nat_of_ascii a) - 48)%Z in
      if (0 <=? d)%Z && (d <=? 9)%Z then digits_value s' (10 * acc + d)%Z else None
  end.

Definition atoi (s : string) : option Z :=
  let value neg s' :=
    if String.eqb s' "" then None
    else
      z ← digits_value s' 0%Z;
      let z := if neg : bool then (- z)%Z else z in
      if (-2 ^ 63 <=? z)%Z && (z <? 2 ^ 63)%Z then Some z else None in
  match s with
  | String a s' =>
      if Ascii.eqb a "-" then value true s' else if Ascii.eqb a "+" then value false s' else value false s
  | EmptyString => None
  end.

Example atoi_examples :
  (atoi <$> ["42"; "-7"; "+5"; ""; "-"; "1x"; "007"; "9223372036854775807"; "9223372036854775808"; "--1"])
  = [Some 42; Some (-7); Some 5; None; None; None; Some 7; Some 9223372036854775807; None; None]%Z.
Proof. vm_compute. reflexivity. Qed.

Lemma string_app_cons a (s1 s2 : string) : String a s1 +:+ s2 = String a (s1 +:+ s2).
Proof. reflexivity. Qed.

Lemma string_app_assoc (s1 s2 s3 : string) : (s1 +:+ s2) +:+ s3 = s1 +:+ (s2 +:+ s3).
Proof. induction s1 as [|a s1 IH]; [done|]. rewrite !string_app_cons. by rewrite IH. Qed.

Lemma string_app_length (s1 s2 : string) :
  String.length (s1 +:+ s2) = (String.length s1 + String.length s2)%nat.
Proof. induction s1 as [|a s1 IH]; [done|]. rewrite string_app_cons. simpl. by rewrite IH. Qed.

(** The first [n] bytes are a prefix of that length. *)
Lemma substring_split n (s : string) :
  (n ≤ String.length s)%nat →
  String.length (String.substring 0 n s) = n ∧ ∃ rest, s = String.substring 0 n s +:+ rest.
Proof.
  revert s. induction n as [|n IH]; intros s Hn.
  - split; [by destruct s|]. exists s. by destruct s.
  - destruct s as [|c s]; simpl in *; [lia|]. destruct (IH s ltac:(lia)) as (Hl & rest & Hr).
    split; [by rewrite Hl|]. exists rest. rewrite Hr at 1. done.
Qed.

Lemma string_rev_app_eq s acc : string_rev_app s acc = string_rev s +:+ acc.
Proof.
  unfold string_rev. revert acc. induction s as [|a s IH]; intros acc; simpl; [done|].
  rewrite IH, (IH (String a "")). by rewrite string_app_assoc.
Qed.

Lemma string_rev_cons a s : string_rev (String a s) = string_rev s +:+ String a "".
Proof. unfold string_rev at 1. simpl. by rewrite string_rev_app_eq. Qed.

Lemma string_app_nil_r (s : string) : s +:+ "" = s.
Proof. induction s as [|a s IH]; simpl; [done|]. by rewrite string_app_cons, IH. Qed.

Lemma string_rev_app_distr s1 s2 : string_rev (s1 +:+ s2) = string_rev s2 +:+ string_rev s1.
Proof.
  induction s1 as [|a s1 IH]; simpl.
  - change ("" +:+ s2) with s2. by rewrite string_app_nil_r.
  - rewrite string_app_cons.
    rewrite !string_rev_cons, IH. by rewrite string_app_assoc.
Qed.

Lemma string_rev_involutive s : string_rev (string_rev s) = s.
Proof.
  induction s as [|a s IH]; [done|].
  rewrite string_rev_cons, string_rev_app_distr, IH. done.
Qed.

Lemma strip_prefix_Some p s r : strip_prefix p s = Some r ↔ s = p +:+ r.
Proof.
  revert s. induction p as [|a p IH]; intros s; simpl.
  - split; [by intros [= ->]|]. intros ->. done.
  - destruct s as [|b s].
    + split; [done|]. rewrite string_app_cons. done.
    + rewrite string_app_cons.
      destruct (Ascii.eqb_spec a b) as [->|Hne].
      * rewrite IH. split; [by intros ->|by intros [= ->]].
      * split; [done|congruence].
Qed.

Lemma strip_prefix_has_prefix p s : has_prefix p s = true ↔ is_Some (strip_prefix p s).
Proof.
  unfold has_prefix. revert s. induction p as [|a p IH]; intros s; simpl.
  - destruct s; naive_solver.
  - destruct s as [|b s]; simpl.
    + split; [done|]. by intros [? ?].
    + destruct (ascii_dec a b) as [->|Hne].
      * rewrite Ascii.eqb_refl. apply IH.
      * apply Ascii.eqb_neq in Hne as ->. split; [done|]. by intros [? ?].
Qed.

Lemma has_prefix_iff p s : has_prefix p s = true ↔ ∃ r, s = p +:+ r.
Proof.
  rewrite strip_prefix_has_prefix. unfold is_Some.
  split; intros [r Hr]; exists r; by apply strip_prefix_Some.
Qed.

(** ** TrimSpace: idempotent *)

Definition starts_with_any (seps : list string) (s : string) : bool :=
  existsb (λ p, has_prefix p s) seps.

Lemma strip_any_None seps s : strip_any seps s = None ↔ starts_with_any seps s = false.
Proof.
  unfold starts_with_any. induction seps as [|p ps IH]; simpl; [done|].
  destruct (strip_prefix p s) as [r|] eqn:E.
  - assert (has_prefix p s = true) as -> by (apply strip_prefix_has_prefix; eauto). done.
  - destruct (has_prefix p s) eqn:Hp; [|done].
    apply strip_prefix_has_prefix in Hp as [? ?]. congruence.
Qed.

Lemma strip_any_shorter seps s r :
  (∀ p, p ∈ seps → p ≠ "") → strip_any seps s = Some r →
  (String.length r < String.length s)%nat.
Proof.
  intros Hne. induction seps as [|p ps IH]; simpl; [done|].
  destruct (strip_prefix p s) as [r'|] eqn:E.
  - intros [= ->]. apply strip_prefix_Some in E as ->.
    rewrite string_app_length. assert (p ≠ "") by (apply Hne; left).
    destruct p; simpl; [done|lia].
  - intros H. apply IH; [|done]. intros q Hq. apply Hne. by right.
Qed.

Lemma trim_left_fuel_clean seps fuel s :
  (∀ p, p ∈ seps → p ≠ "") → (String.length s ≤ fuel)%nat →
  starts_with_any seps (trim_left_fuel seps fuel s) = false.
Proof.
  intros Hne. revert s. induction fuel as [|n IH]; intros s Hs; simpl.
  - destruct s; simpl in Hs; [|lia]. apply existsb_false_iff. intros p Hp.
    destruct p; [by apply Hne in Hp|done].
  - destruct (strip_any seps s) as [r|] eqn:E.
    + apply IH. apply strip_any_shorter in E; [lia|done].
    + by apply strip_any_None.
Qed.

Lemma trim_left_fuel_id seps fuel s :
  starts_with_any seps s = false → trim_left_fuel seps fuel s = s.
Proof. intros H%strip_any_None. destruct fuel; simpl; [done|]. by rewrite H. Qed.

Lemma trim_left_fuel_suffix seps fuel s : ∃ p, s = p +:+ trim_left_fuel seps fuel s.
Proof.
  revert s. induction fuel as [|n IH]; intros s; simpl; [by exists ""|].
  destruct (strip_any seps s) as [r|] eqn:E; [|by exists ""].
  assert (∃ p, s = p +:+ r) as [p ->].
  { clear IH. induction seps as [|q qs IH]; simpl in E; [done|].
    destruct (strip_prefix q s) eqn:E'; [|auto].
    apply strip_prefix_Some in E'. simplify_eq. by exists q. }
  destruct (IH r) as [q Hq]. exists (p +:+ q). by rewrite string_app_assoc, <- Hq.
Qed.

(** Dropping bytes at the end cannot create a separator at the front. *)
Lemma starts_with_any_prefix seps s t :
  starts_with_any seps (s +:+ t) = false → starts_with_any seps s = false.
Proof.
  unfold starts_with_any. rewrite !existsb_false_iff. intros H p Hp.
  destruct (has_prefix p s) eqn:E; [|done].
  apply has_prefix_iff in E as [r ->].
  rewrite <- (H p Hp). symmetry. apply has_prefix_iff. exists (r +:+ t).
  by rewrite string_app_assoc.
Qed.

Lemma space_runes_nonempty p : p ∈ space_runes → p ≠ "".
Proof.
  intros Hp ->. apply list_elem_of_In in Hp.
  revert Hp. vm_compute. intuition discriminate.
Qed.

Lemma space_runes_rev_nonempty p : p ∈ (string_rev <$> space_runes) → p ≠ "".
Proof.
  intros Hp ->. apply list_elem_of_In in Hp.
  revert Hp. vm_compute. intuition discriminate.
Qed.

(** No space rune is left at either end. *)
Lemma trim_space_clean s :
  starts_with_any space_runes (trim_space s) = false ∧
  starts_with_any (string_rev <$> space_runes) (string_rev (trim_space s)) = false.
Proof.
  unfold trim_space. set (l := trim_left space_runes s).
  assert (Hl : starts_with_any space_runes l = false).
  { apply trim_left_fuel_clean; [apply space_runes_nonempty|done]. }
  split.
  - destruct (trim_left_fuel_suffix (string_rev <$> space_runes)
      (String.length (string_rev l)) (string_rev l)) as [q Hq].
    apply (f_equal string_rev) in Hq.
    rewrite string_rev_involutive, string_rev_app_distr in Hq.
    rewrite Hq in Hl. by eapply starts_with_any_prefix.
  - rewrite string_rev_involutive.
    apply trim_left_fuel_clean; [apply space_runes_rev_nonempty|done].
Qed.

Lemma trim_space_id s :
  starts_with_any space_runes s = false →
  starts_with_any (string_rev <$> space_runes) (string_rev s) = false →
  trim_space s = s.
Proof.
  intros H1 H2. unfold trim_space, trim_left.
  rewrite (trim_left_fuel_id space_runes) by done.
  rewrite trim_left_fuel_id by done. apply string_rev_involutive.
Qed.

Lemma trim_space_idem s : trim_space (trim_space s) = trim_space s.
Proof. apply trim_space_id; apply trim_space_clean. Qed.

Lemma to_lower_keyword s : s ∈ ["bind"; "volume"; "tmpfs"; "env"; "file"; "tcp"; "udp"] → to_lower s = s.
Proof. intros Hs. repeat (apply elem_of_cons in Hs as [->|Hs]; [reflexivity|]). by apply elem_of_nil in Hs. Qed.
