(* ===== verification/Paths.v ===== *)
(** Lemmas on cleaned paths: the elements of a rooted path are plain names,
    [path.Clean] is idempotent on rooted paths, and the [filepath.Rel]
    containment test of the daemon decides "is an extension of". *)

From S2P Require Import Prelude GoStrings.

Definition no_char (c : ascii) (s : string) : Prop := contains_any [c] s = false.

(** A plain path element: what remains in a cleaned rooted path. *)
Definition plain (e : string) : Prop :=
  e ≠ "" ∧ e ≠ "." ∧ e ≠ ".." ∧ no_char slash e.

Lemma split_on_nonempty c s : split_on c s ≠ [].
Proof. destruct s as [|a s]; simpl; [done|]. destruct (Ascii.eqb a c); [done|]. by destruct (split_on c s). Qed.

Lemma split_on_no_char c s : Forall (no_char c) (split_on c s).
Proof.
  induction s as [|a s IH]; simpl.
  - by repeat constructor.
  - destruct (Ascii.eqb a c) eqn:E; [by constructor|].
    destruct (split_on c s) as [|x xs]; constructor.
    + unfold no_char. simpl. by rewrite E.
    + constructor.
    + unfold no_char. simpl. rewrite E. by apply Forall_cons in IH as [? _].
    + by apply Forall_cons in IH as [_ ?].
Qed.

Lemma split_on_plain c x : no_char c x → split_on c x = [x].
Proof.
  unfold no_char. induction x as [|a x IH]; simpl; [done|].
  destruct (Ascii.eqb a c) eqn:E; simpl; [done|]. intros H. by rewrite IH.
Qed.

Lemma split_on_app c x s : no_char c x → split_on c (x +:+ String c s) = x :: split_on c s.
Proof.
  unfold no_char. induction x as [|a x IH]; intros H.
  - change ("" +:+ String c s) with (String c s). simpl. by rewrite Ascii.eqb_refl.
  - rewrite string_app_cons. simpl in H |- *.
    destruct (Ascii.eqb a c) eqn:E; simpl in H; [done|]. by rewrite IH.
Qed.

Lemma join_cons2 x y l : join "/" (x :: y :: l) = x +:+ String slash (join "/" (y :: l)).
Proof. reflexivity. Qed.

Lemma split_on_join l : l ≠ [] → Forall (no_char slash) l → split_on slash (join "/" l) = l.
Proof.
  induction l as [|x l IH]; [done|]. intros _ [Hx Hl]%Forall_cons.
  destruct l as [|y l]; [by apply split_on_plain|].
  rewrite join_cons2, split_on_app by done. by rewrite IH.
Qed.

Lemma clean_step_plain acc seg :
  Forall plain acc → no_char slash seg → Forall plain (clean_step true acc seg).
Proof.
  intros Hacc Hseg. unfold clean_step.
  repeat case_bool_decide; simpl; try done.
  - destruct acc as [|top acc]; [done|]. apply Forall_cons in Hacc as [[? [? [? ?]]] ?].
    by case_bool_decide.
  - constructor; [|done]. done.
Qed.

Lemma foldl_clean_plain acc segs :
  Forall plain acc → Forall (no_char slash) segs → Forall plain (foldl (clean_step true) acc segs).
Proof.
  revert acc. induction segs as [|s segs IH]; intros acc Ha Hs; simpl; [done|].
  apply Forall_cons in Hs as [Hs Hss]. apply IH; [|done]. by apply clean_step_plain.
Qed.

Lemma path_elements_plain p : is_rooted p = true → Forall plain (path_elements p).
Proof.
  intros Hr. unfold path_elements, clean_segments. rewrite Hr.
  apply Forall_rev, foldl_clean_plain; [constructor|apply split_on_no_char].
Qed.

(** Plain elements are kept as they are. *)
Lemma foldl_clean_id acc els :
  Forall plain els → foldl (clean_step true) acc els = rev els ++ acc.
Proof.
  revert acc. induction els as [|e els IH]; intros acc H; simpl; [done|].
  apply Forall_cons in H as [(?&?&?&?) Hels]. rewrite IH by done.
  unfold clean_step. rewrite !bool_decide_false by done. simpl.
  by rewrite <- app_assoc.
Qed.

Lemma split_on_render els :
  Forall plain els → els ≠ [] → split_on slash (path_render true els) = "" :: els.
Proof.
  intros H Hne. unfold path_render. change ("/" +:+ join "/" els) with (String slash (join "/" els)).
  simpl. rewrite split_on_join; [done..|].
  eapply Forall_impl; [done|]. by intros ? (?&?&?&?).
Qed.

Lemma is_rooted_render els : is_rooted (path_render true els) = true.
Proof. unfold is_rooted. apply has_prefix_iff. eexists. reflexivity. Qed.

Lemma path_elements_render els : Forall plain els → path_elements (path_render true els) = els.
Proof.
  intros H. unfold path_elements, clean_segments. rewrite is_rooted_render.
  destruct els as [|e els]; [reflexivity|].
  rewrite split_on_render by done.
  change (foldl (clean_step true) [] ("" :: e :: els)) with (foldl (clean_step true) [] (e :: els)).
  rewrite foldl_clean_id by done. by rewrite app_nil_r, rev_involutive.
Qed.

Lemma path_clean_rooted p : is_rooted p = true → is_rooted (path_clean p) = true.
Proof. intros H. unfold path_clean. rewrite H. apply is_rooted_render. Qed.

Lemma path_elements_clean p :
  is_rooted p = true → path_elements (path_clean p) = path_elements p.
Proof.
  intros H. unfold path_clean at 1. rewrite H. by apply path_elements_render, path_elements_plain.
Qed.

(** Two rooted paths have the same cleaned form exactly when they have the
    same elements. *)
Lemma path_clean_idem p : is_rooted p = true → path_clean (path_clean p) = path_clean p.
Proof.
  intros H. unfold path_clean at 1. rewrite path_clean_rooted, path_elements_clean by done.
  unfold path_clean. by rewrite H.
Qed.

(** ** Joining below a rooted path *)

Lemma split_on_app_slash (a b : string) :
  split_on slash (a +:+ String slash b) = split_on slash a ++ split_on slash b.
Proof.
  induction a as [|c a IH].
  - change ("" +:+ String slash b) with (String slash b). simpl. reflexivity.
  - rewrite string_app_cons. simpl. rewrite IH. destruct (Ascii.eqb c slash); [done|].
    pose proof (split_on_nonempty slash a). by destruct (split_on slash a).
Qed.

Lemma path_elements_app (root p : string) :
  is_rooted root = true → p ≠ "" → Forall plain (split_on slash p) →
  path_elements (root +:+ String slash p) = path_elements root ++ split_on slash p.
Proof.
  intros Hr Hp Hs. unfold path_elements, clean_segments.
  assert (is_rooted (root +:+ String slash p) = true) as ->.
  { apply has_prefix_iff in Hr as [r ->]. apply has_prefix_iff. exists (r +:+ String slash p). apply string_app_assoc. }
  rewrite Hr, split_on_app_slash, foldl_app, (foldl_clean_id _ _ Hs). by rewrite rev_app_distr, rev_involutive.
Qed.

(** [filepath.Join] below a rooted path. *)
Lemma filepath_join_below (root : string) (els : list string) :
  is_rooted root = true → Forall plain els →
  filepath_join [root; join "/" els] = path_render true (path_elements root ++ els).
Proof.
  intros Hr He. unfold filepath_join. assert (root ≠ "") by (by intros ->).
  rewrite filter_cons_True by done. destruct els as [|e els].
  - rewrite filter_cons_False by (by intros Hn; apply Hn). simpl. unfold path_clean. by rewrite Hr, app_nil_r.
  - assert (Hs : split_on slash (join "/" (e :: els)) = e :: els).
    { apply split_on_join; [done|]. eapply Forall_impl; [exact He|]. by intros ? (?&?&?&?). }
    assert (Hne : join "/" (e :: els) ≠ "").
    { intros E. rewrite E in Hs. apply Forall_cons in He as [[? _] _]. cbn in Hs. congruence. }
    rewrite filter_cons_True by done. cbn [filter list_filter].
    change (join "/" [root; join "/" (e :: els)]) with (root +:+ String slash (join "/" (e :: els))).
    unfold path_clean. rewrite path_elements_app by (rewrite ?Hs; done). rewrite Hs.
    assert (is_rooted (root +:+ String slash (join "/" (e :: els))) = true) as ->; [|done].
    apply has_prefix_iff in Hr as [r ->]. apply has_prefix_iff. eexists. apply string_app_assoc.
Qed.

(** * Containment by [filepath.Rel] *)

(** The test used before files are removed or loaded:
    [rel, err := filepath.Rel(base, target);
     err == nil && rel != ".." && !strings.HasPrefix(rel, "../")]. *)
Definition within_lexical (base target : string) : bool :=
  match filepath_rel base target with
  | None => false
  | Some rel => negb (bool_decide (rel = "..")) && negb (has_prefix "../" rel)
  end.

Lemma strip_common_spec bs ts bs' ts' :
  strip_common bs ts = (bs', ts') →
  ∃ c, bs = c ++ bs' ∧ ts = c ++ ts' ∧
       (bs' = [] ∨ ts' = [] ∨ head bs' ≠ head ts').
Proof.
  revert ts. induction bs as [|b bs IH]; intros ts; simpl.
  - intros [= <- <-]. exists []. naive_solver.
  - destruct ts as [|t ts]; [intros [= <- <-]; exists []; naive_solver|].
    case_bool_decide as Hbt; [|intros [= <- <-]; exists []; simpl; split_and!; [done..|];
      right; right; congruence].
    intros (c & -> & -> & Hd)%IH. subst. exists (t :: c). by repeat split.
Qed.

Lemma strip_common_prefix bs ts : fst (strip_common bs ts) = [] ↔ bs `prefix_of` ts.
Proof.
  destruct (strip_common bs ts) as [bs' ts'] eqn:E. simpl.
  apply strip_common_spec in E as (c & -> & -> & Hd). split.
  - intros ->. rewrite app_nil_r. by exists ts'.
  - intros [k Hk]. rewrite <- app_assoc in Hk. simplify_list_eq.
    destruct bs' as [|b bs']; [done|]. exfalso.
    destruct Hd as [Hd|[Hd|Hd]]; [done|by subst|by subst].
Qed.

Lemma join_dotdot_escapes n ts :
  bool_decide (join "/" (replicate (S n) ".." ++ ts) = "..") ||
  has_prefix "../" (join "/" (replicate (S n) ".." ++ ts)) = true.
Proof.
  change (replicate (S n) ".." ++ ts) with (".." :: (replicate n ".." ++ ts)).
  destruct (replicate n ".." ++ ts) as [|x l]; [done|].
  rewrite join_cons2. apply orb_true_iff. right. apply has_prefix_iff. by eexists.
Qed.

Lemma join_plain_inside t ts :
  Forall plain (t :: ts) →
  bool_decide (join "/" (t :: ts) = "..") = false ∧ has_prefix "../" (join "/" (t :: ts)) = false.
Proof.
  intros H. assert (Hs : split_on slash (join "/" (t :: ts)) = t :: ts).
  { apply split_on_join; [done|]. eapply Forall_impl; [done|]. by intros ? (?&?&?&?). }
  apply Forall_cons in H as [(?&?&?&?) _]. split.
  - apply bool_decide_eq_false. intros E. rewrite E in Hs. vm_compute in Hs. congruence.
  - destruct (has_prefix "../" _) eqn:E; [|done].
    apply has_prefix_iff in E as [r Hr]. rewrite Hr in Hs.
    change ("../" +:+ r) with (".." +:+ String slash r) in Hs.
    rewrite split_on_app in Hs by done. congruence.
Qed.

(** The containment test holds exactly for the extensions of [base]. *)
Lemma within_lexical_spec base target :
  is_rooted base = true → is_rooted target = true →
  within_lexical base target = true ↔ path_elements base `prefix_of` path_elements target.
Proof.
  intros Hb Ht. rewrite <- strip_common_prefix.
  unfold within_lexical, filepath_rel. rewrite Hb, Ht. simpl.
  destruct (strip_common _ _) as [[|b bs] ts] eqn:E; simpl.
  - split; [done|intros _].
    destruct ts as [|t ts]; [done|].
    pose proof (path_elements_plain _ Ht) as Hp.
    apply strip_common_spec in E as (c & _ & Hts & _). rewrite Hts in Hp.
    apply Forall_app in Hp as [_ Hp]. apply join_plain_inside in Hp as [H1 H2].
    rewrite H1, H2. done.
  - split; [|done]. case_bool_decide as Hdd; [done|].
    pose proof (join_dotdot_escapes (length bs) ts) as He.
    apply orb_true_iff in He as [He|He]; simpl in He |- *; rewrite He; simpl;
      [done|by rewrite andb_false_r].
Qed.

#[export] Hint Resolve path_clean_rooted path_elements_plain is_rooted_render : go.

(** * Joining two lists *)

Lemma join_cons_cons sep x y l : join sep (x :: y :: l) = x +:+ sep +:+ join sep (y :: l).
Proof. done. Qed.

Lemma join_append sep l l' : l ≠ [] → l' ≠ [] → join sep (l ++ l') = join sep l +:+ sep +:+ join sep l'.
Proof.
  intros Hl Hl'. induction l as [|x [|y l] IH]; [done| |].
  - destruct l' as [|z l']; [done|]. by rewrite <- join_cons_cons.
  - cbn [app]. rewrite join_cons_cons. cbn [app] in IH. rewrite IH by done. by rewrite join_cons_cons, !string_app_assoc.
Qed.

(** * Characters and suffixes of a concatenation *)

Lemma no_char_cons c a s : no_char c (String a s) ↔ Ascii.eqb a c = false ∧ no_char c s.
Proof. unfold no_char. cbn [contains_any existsb]. by rewrite orb_false_r, orb_false_iff. Qed.

Lemma no_char_app c (s t : string) : no_char c (s +:+ t) ↔ no_char c s ∧ no_char c t.
Proof.
  unfold no_char. induction s as [|a s IH]; [split; [by split|by intros [_ ?]]|].
  rewrite string_app_cons. simpl. rewrite !orb_false_r. destruct (Ascii.eqb a c); simpl; [naive_solver|exact IH].
Qed.

Lemma trim_suffix_app r p : trim_suffix p (r +:+ p) = r.
Proof.
  unfold trim_suffix, trim_prefix. rewrite string_rev_app_distr.
  assert (strip_prefix (string_rev p) (string_rev p +:+ string_rev r) = Some (string_rev r)) as -> by by apply strip_prefix_Some.
  simpl. apply string_rev_involutive.
Qed.
