(* ===== verification/Json.v ===== *)
(** JSON values as [encoding/json] builds and reads them for the program's
    struct types: field order, [omitempty], [null] for a nil slice or pointer,
    zero values for absent fields.  Values are JSON trees; the textual syntax
    is the standard library's.

    The text [json.MarshalIndent(v, "", "  ")] writes for a tree, byte by byte:
    the program bounds the size of the documents it stores. *)

From S2P Require Import Prelude GoStrings.

Inductive json : Type :=
  | JNull
  | JBool (b : bool)
  | JNum (z : Z)
  | JStr (s : string)
  | JArr (l : list json)
  | JObj (l : list (string * json)).

(** * Encoding: a struct is the list of its fields; [None] is an omitted one. *)

Definition field : Type := string * option json.

Fixpoint present (fs : list field) : list (string * json) :=
  match fs with
  | [] => []
  | (k, Some j) :: fs' => (k, j) :: present fs'
  | (_, None) :: fs' => present fs'
  end.

Definition enc_struct (fs : list field) : json := JObj (present fs).

Definition f_any (k : string) (j : json) : field := (k, Some j).
Definition f_str (k s : string) : field := (k, Some (JStr s)).
Definition f_int (k : string) (z : Z) : field := (k, Some (JNum z)).
Definition f_bool (k : string) (b : bool) : field := (k, Some (JBool b)).

(** [omitempty]: dropped when empty, false or nil. *)
Definition f_str_omit (k s : string) : field :=
  (k, if String.eqb s "" then None else Some (JStr s)).
Definition f_bool_omit (k : string) (b : bool) : field :=
  (k, if b then Some (JBool b) else None).
Definition f_ptr_omit {A} (enc : A → json) (k : string) (p : option A) : field :=
  (k, enc <$> p).
Definition f_list_omit {A} (enc : A → json) (k : string) (l : list A) : field :=
  (k, match l with [] => None | _ => Some (JArr (enc <$> l)) end).
(** A slice without [omitempty]: a nil slice is [null]. *)
Definition f_list {A} (enc : A → json) (k : string) (l : list A) : field :=
  (k, Some (match l with [] => JNull | _ => JArr (enc <$> l) end)).

(** * Decoding into a zero value; [None] is [json.Unmarshal]'s error *)

(** The last member with the key wins. *)
Fixpoint jlookup (k : string) (l : list (string * json)) : option json :=
  match l with
  | [] => None
  | (k', j) :: l' =>
      match jlookup k l' with
      | Some j' => Some j'
      | None => if String.eqb k k' then Some j else None
      end
  end.

Definition dec_str (j : json) : option string :=
  match j with JStr s => Some s | JNull => Some "" | _ => None end.
Definition dec_int (j : json) : option Z :=
  match j with JNum z => Some z | JNull => Some 0%Z | _ => None end.
(** [int] and [int64] members: a number out of range is an error. *)
Definition dec_int64 (j : json) : option Z :=
  z ← dec_int j; if (-2 ^ 63 <=? z)%Z && (z <? 2 ^ 63)%Z then Some z else None.

Definition dec_bool (j : json) : option bool :=
  match j with JBool b => Some b | JNull => Some false | _ => None end.
Definition dec_ptr {A} (dec : json → option A) (j : json) : option (option A) :=
  match j with JNull => Some None | _ => Some <$> dec j end.
Definition dec_list {A} (dec : json → option A) (j : json) : option (list A) :=
  match j with JNull => Some [] | JArr l => mapM dec l | _ => None end.

(** The members of an object; [null] leaves the struct at its zero value. *)
Definition members (j : json) : option (list (string * json)) :=
  match j with JObj l => Some l | JNull => Some [] | _ => None end.

(** Decode the member [k], or keep [zero]. *)
Definition getf {A} (l : list (string * json)) (k : string) (zero : A)
    (dec : json → option A) : option A :=
  match jlookup k l with None => Some zero | Some j => dec j end.

(** * Lemmas *)

Fixpoint flookup (k : string) (fs : list field) : option json :=
  match fs with
  | [] => None
  | (k', o) :: fs' => if String.eqb k k' then o else flookup k fs'
  end.

Fixpoint distinct (ks : list string) : bool :=
  match ks with
  | [] => true
  | k :: ks' => negb (existsb (String.eqb k) ks') && distinct ks'
  end.

Lemma jlookup_absent k fs :
  existsb (String.eqb k) (fst <$> fs) = false → jlookup k (present fs) = None.
Proof.
  induction fs as [|[k' [j|]] fs IH]; simpl; [done|..];
    intros [H1 H2]%orb_false_iff; rewrite ?IH; [|done..]. by rewrite H1.
Qed.

Lemma jlookup_present k fs :
  distinct (fst <$> fs) = true → jlookup k (present fs) = flookup k fs.
Proof.
  induction fs as [|[k' o] fs IH]; simpl; [done|].
  intros [Hk Hd]%andb_true_iff. apply negb_true_iff in Hk.
  destruct (String.eqb_spec k k') as [->|Hne].
  - destruct o as [j|]; simpl; rewrite (jlookup_absent k') by done; [|done].
    by rewrite String.eqb_refl.
  - apply String.eqb_neq in Hne. destruct o as [j|]; simpl; rewrite IH by done; [|done].
    rewrite Hne. by destruct (flookup k fs).
Qed.

Lemma getf_str_omit (s : string) :
  match (if String.eqb s "" then None else Some (JStr s)) with
  | None => Some "" | Some j => dec_str j end = Some s.
Proof. by destruct (String.eqb_spec s "") as [->|]. Qed.

Lemma getf_bool_omit (b : bool) :
  match (if b then Some (JBool b) else None) with
  | None => Some false | Some j => dec_bool j end = Some b.
Proof. by destruct b. Qed.

Lemma mapM_enc {A} (enc : A → json) (dec : json → option A) (l : list A) :
  (∀ a, dec (enc a) = Some a) → (mapM dec (enc <$> l) : option (list A)) = Some l.
Proof.
  intros H. apply mapM_fmap_Forall_Some. by apply Forall_true.
Qed.

Lemma getf_list_omit {A} (enc : A → json) dec (l : list A) :
  (∀ a, dec (enc a) = Some a) →
  match (match l with [] => None | _ => Some (JArr (enc <$> l)) end) with
  | None => Some ([] : list A) | Some j => dec_list dec j end = Some l.
Proof. intros H. destruct l; [done|]. by apply mapM_enc. Qed.

Lemma getf_list {A} (enc : A → json) dec (l : list A) :
  (∀ a, dec (enc a) = Some a) →
  dec_list dec (match l with [] => JNull | _ => JArr (enc <$> l) end) = Some l.
Proof. intros H. destruct l; [done|]. by apply mapM_enc. Qed.

Lemma getf_ptr_omit {A} (enc : A → json) dec (p : option A) :
  (∀ a, dec (enc a) = Some a) → (∀ a, enc a ≠ JNull) →
  match (enc <$> p : option json) with None => Some None | Some j => dec_ptr dec j end = Some p.
Proof.
  intros H Hn. destruct p as [a|]; simpl; [|done].
  specialize (H a). specialize (Hn a). destruct (enc a); simpl in *; by rewrite ?H.
Qed.

Definition int64_range (z : Z) : Prop := (-2 ^ 63 ≤ z < 2 ^ 63)%Z.

Lemma dec_int64_num z : int64_range z → dec_int64 (JNum z) = Some z.
Proof.
  intros [H1 H2]. unfold dec_int64. cbn [dec_int mbind option_bind].
  by rewrite (proj2 (Z.leb_le _ _) H1), (proj2 (Z.ltb_lt _ _) H2).
Qed.

Lemma enc_struct_not_null fs : enc_struct fs ≠ JNull.
Proof. done. Qed.

Create Rewrite HintDb codec.

(** Compute the lookups in a literal field list, and nothing else. *)
Ltac codec_cbn :=
  cbn [flookup f_any f_str f_int f_bool f_str_omit f_bool_omit f_ptr_omit f_list_omit f_list
       String.eqb Ascii.eqb Bool.eqb andb dec_int dec_bool mbind option_bind].

(** Round trip of a struct: turn every member lookup into the field. *)
Ltac solve_codec :=
  match goal with
  | |- _ = Some ?x => destruct x
  end;
  cbn [enc_struct members mbind option_bind];
  unfold getf; rewrite ?jlookup_present by reflexivity;
  codec_cbn; rewrite ?getf_str_omit, ?getf_bool_omit; codec_cbn;
  repeat first
    [ rewrite getf_list_omit by (auto with go; done)
    | rewrite getf_list by (auto with go; done)
    | rewrite getf_ptr_omit by (auto with go; done)
    | progress rewrite ?getf_str_omit, ?getf_bool_omit
    | progress autorewrite with codec
    | progress codec_cbn ];
  reflexivity.

Definition byte (a : ascii) : nat := nat_of_ascii a.

Definition in_range (lo hi : nat) (a : ascii) : bool := (lo <=? byte a)%nat && (byte a <=? hi)%nat.

(** The number of bytes of the UTF-8 encoded rune at the front ([None]: none is
    there): the ranges of the second byte exclude overlong forms and surrogates. *)
Definition utf8_rune (s : string) : option nat :=
  let tail := in_range 128 191 in
  match s with
  | EmptyString => None
  | String a s1 =>
      if in_range 0 127 a then Some 1%nat
      else match s1 with
      | EmptyString => None
      | String b s2 =>
          if in_range 194 223 a then (if tail b then Some 2%nat else None)
          else match s2 with
          | EmptyString => None
          | String c s3 =>
              let second := if (byte a =? 224)%nat then in_range 160 191 b
                            else if (byte a =? 237)%nat then in_range 128 159 b
                            else tail b in
              if in_range 224 239 a then (if second && tail c then Some 3%nat else None)
              else match s3 with
              | EmptyString => None
              | String d _ =>
                  let second := if (byte a =? 240)%nat then in_range 144 191 b
                                else if (byte a =? 244)%nat then in_range 128 143 b
                                else tail b in
                  if in_range 240 244 a && second && tail c && tail d then Some 4%nat else None
              end
          end
      end
  end.

Definition hex2 (n : nat) : string :=
  let digit k := ascii_of_nat (if (k <? 10)%nat then k + 48 else k + 87) in
  String (digit (n / 16)%nat) (String (digit (n mod 16)%nat) EmptyString).

(** One byte of ASCII inside a JSON string; HTML characters are escaped too. *)
Definition escape_ascii (a : ascii) : string :=
  match byte a with
  | 34%nat => String "\" (String (ascii_of_nat 34) EmptyString)
  | 92%nat => "\\"
  | 8%nat => "\b" | 9%nat => "\t" | 10%nat => "\n" | 12%nat => "\f" | 13%nat => "\r"
  | 60%nat | 62%nat | 38%nat => "\u00" +:+ hex2 (byte a)
  | n => if (n <? 32)%nat then "\u00" +:+ hex2 n else String a EmptyString
  end.

(** [skip]: the bytes of the rune begun that are still to be copied. *)
Fixpoint escape_loop (skip : nat) (s : string) : string :=
  match s with
  | EmptyString => EmptyString
  | String a s' =>
      match skip with
      | S n => String a (escape_loop n s')
      | O =>
          match utf8_rune s with
          | None => "\ufffd" +:+ escape_loop 0 s'
          | Some 1%nat => escape_ascii a +:+ escape_loop 0 s'
          | Some n => String a (escape_loop (n - 1) s')
          end
      end
  end.

(** U+2028 and U+2029 are escaped as well. *)
Fixpoint escape_separators (s : string) : string :=
  match s with
  | EmptyString => EmptyString
  | String a s' =>
      match strip_prefix (bytes [226; 128; 168]%nat) s, strip_prefix (bytes [226; 128; 169]%nat) s with
      | Some _, _ | _, Some _ =>
          match s' with
          | String _ (String c s'') => "\u20" +:+ hex2 (byte c - 128) +:+ escape_separators s''
          | _ => EmptyString
          end
      | None, None => String a (escape_separators s')
      end
  end.

Definition quote_mark : string := String (ascii_of_nat 34) EmptyString.
Definition json_quote (s : string) : string :=
  quote_mark +:+ escape_separators (escape_loop 0 s) +:+ quote_mark.

Definition newline (depth : nat) : string :=
  String (ascii_of_nat 10) (String.concat EmptyString (replicate depth "  ")).

Fixpoint marshal_indent (depth : nat) (v : json) : string :=
  match v with
  | JNull => "null"
  | JBool true => "true"
  | JBool false => "false"
  | JNum z => fmt_d z
  | JStr s => json_quote s
  | JArr [] => "[]"
  | JArr l =>
      "[" +:+ String.concat "," ((λ v, newline (S depth) +:+ marshal_indent (S depth) v) <$> l) +:+ newline depth +:+ "]"
  | JObj [] => "{}"
  | JObj l =>
      "{" +:+ String.concat ","
        ((λ kv, newline (S depth) +:+ json_quote (fst kv) +:+ ": " +:+ marshal_indent (S depth) (snd kv)) <$> l)
      +:+ newline depth +:+ "}"
  end.

Example marshal_example :
  String.length (marshal_indent 0 (JObj [("a", JNum (-12)); ("b", JArr [JStr "x<"; JNull]); ("c", JObj [])])) = 63%nat.
Proof. vm_compute. reflexivity. Qed.

(** * Strings that are not valid UTF-8

    The encoder writes U+FFFD for a byte that starts no rune, so a document reads
    back with that rune in its place. *)
Definition replacement : string := bytes [239; 191; 189]%nat.

Fixpoint coerce_loop (skip : nat) (s : string) : string :=
  match s with
  | EmptyString => EmptyString
  | String a s' =>
      match skip with
      | S n => String a (coerce_loop n s')
      | O => match utf8_rune s with
             | None => replacement +:+ coerce_loop 0 s'
             | Some n => String a (coerce_loop (n - 1) s')
             end
      end
  end.

(** The tree a marshalled document reads back as. *)
Fixpoint coerce_utf8 (v : json) : json :=
  match v with
  | JStr s => JStr (coerce_loop 0 s)
  | JArr l => JArr (coerce_utf8 <$> l)
  | JObj l => JObj ((λ kv, (coerce_loop 0 (fst kv), coerce_utf8 (snd kv))) <$> l)
  | _ => v
  end.

Example coerce_example :
  coerce_utf8 (JArr [JStr "ok"; JStr (bytes [195; 169; 195]%nat)]) =
  JArr [JStr "ok"; JStr (bytes [195; 169; 239; 191; 189]%nat)].
Proof. vm_compute. reflexivity. Qed.
