(* ===== verification/Types.v ===== *)
(** The data model (src/internal/types/vm.go, image.go, snapshot.go): VMs and
    their configuration, images, snapshots, requests, and the JSON form of the
    configuration and runtime records that the database stores. *)

From S2P Require Import Prelude Json.

(* @src internal/types/vm.go:6-18 VMState *)
Inductive VMState : Type :=
  | StateCreated | StateStarting | StateRunning | StateStopping | StateStopped
  | StatePausing | StatePaused | StateResuming | StateFailed.

#[global] Instance VMState_eq_dec : EqDecision VMState.
Proof. solve_decision. Defined.

(* @src internal/types/vm.go:8-18 VMState *)
Definition state_string (s : VMState) : string :=
  match s with
  | StateCreated => "created" | StateStarting => "starting" | StateRunning => "running"
  | StateStopping => "stopping" | StateStopped => "stopped" | StatePausing => "pausing"
  | StatePaused => "paused" | StateResuming => "resuming" | StateFailed => "failed"
  end.

(* @type internal/types/vm.go Mount *)
Record Mount : Type := mkMount {
  m_source : string; m_target : string; m_type : string; m_read_only : bool }.

(* @type internal/types/vm.go SecretRef *)
Record SecretRef : Type := mkSecret {
  s_name : string; s_source : string; s_type : string; s_target : string }.

(* @type internal/types/vm.go PortForward *)
Record PortForward : Type := mkPF { HostPort : Z; VMPort : Z; Protocol : string }.

(* @type internal/types/vm.go EgressProxy *)
Record EgressProxy : Type := mkProxy { px_ip : string; px_port : Z; px_protocol : string }.

(* @type internal/types/vm.go EgressRule *)
Record EgressRule : Type := mkRule {
  er_cidr : string; er_protocol : string; er_port : Z; er_description : string }.

(* @type internal/types/vm.go EgressPolicy *)
Record EgressPolicy : Type := mkEgress {
  ep_enabled : bool; ep_default_action : string; ep_allow_dns : bool; ep_proxy_only : bool;
  ep_proxy : option EgressProxy; ep_allow_rules : list EgressRule }.

(* @type internal/types/vm.go NetworkConfig *)
Record NetworkConfig : Type := mkNet {
  n_mode : string; n_tap : string; n_mac : string; n_bridge : option string;
  n_ip : string; n_gateway : string; n_netmask : string;
  n_forwards : list PortForward; n_egress : option EgressPolicy }.

(* @type internal/types/vm.go DiskConfig *)
Record DiskConfig : Type := mkDisk {
  d_id : string; d_path : string; d_read_only : bool; d_root : bool }.

(* @type internal/types/vm.go VMConfig *)
Record VMConfig : Type := mkConfig {
  c_vcpus : Z; c_memory : Z; c_kernel_args : string; c_ssh_key : string;
  c_network : NetworkConfig; c_disks : list DiskConfig;
  c_mounts : list Mount; c_secrets : list SecretRef }.

(* @type internal/types/vm.go NetworkRuntimeInfo *)
Record NetworkRuntimeInfo : Type := mkNetRt {
  nr_tap : string; nr_host_ip : string; nr_guest_ip : string; nr_gateway : string }.

(* @type internal/types/vm.go VMRuntime *)
Record VMRuntime : Type := mkRt {
  rt_pid : Z; rt_driver : string; rt_external_id : string; rt_socket : string;
  rt_console : string; rt_network : option NetworkRuntimeInfo }.

(** Times are nanoseconds. *)
(* @type internal/types/vm.go VM *)
Record VM : Type := mkVM {
  vm_id : string; vm_name : string; vm_state : VMState; vm_image : string;
  vm_digest : string; vm_arch : string; vm_config : VMConfig; vm_runtime : option VMRuntime;
  vm_created : Z; vm_updated : Z; vm_locked_by : option string; vm_locked_at : option Z;
  vm_owner : string; vm_group : string; vm_spiffe : string }.

(* @type internal/types/image.go Image *)
Record Image : Type := mkImage {
  img_digest : string; img_tags : list string; img_arch : string; img_size : Z;
  img_kernel_version : string; img_rootfs : string; img_kernel : string; img_pulled_at : Z }.

(* @type internal/types/snapshot.go Snapshot *)
Record Snapshot : Type := mkSnap {
  sn_id : string; sn_vm : string; sn_name : string; sn_mem : string; sn_state : string;
  sn_size : Z; sn_created : Z }.

(* @type internal/types/vm.go NetworkConfigRequest *)
Record NetworkConfigRequest : Type := mkNetReq {
  nq_mode : option string; nq_bridge : option string; nq_mac : option string;
  nq_forwards : option (list PortForward); nq_egress : option EgressPolicy }.

(* @type internal/types/vm.go VMConfigRequest *)
Record VMConfigRequest : Type := mkConfigReq {
  q_vcpus : option Z; q_memory : option Z; q_kernel_args : option string;
  q_ssh_key : option string; q_network : option NetworkConfigRequest;
  q_mounts : option (list Mount); q_secrets : option (list SecretRef) }.

(* @type internal/types/vm.go CreateVMRequest *)
Record CreateVMRequest : Type := mkCreateReq {
  cr_name : string; cr_image : string; cr_config : option VMConfigRequest;
  cr_owner : string; cr_group : string; cr_auto_spiffe : option bool }.

(** ** Field updates *)

Definition set_state (vm : VM) (s : VMState) : VM :=
  mkVM (vm_id vm) (vm_name vm) s (vm_image vm) (vm_digest vm) (vm_arch vm) (vm_config vm)
    (vm_runtime vm) (vm_created vm) (vm_updated vm) (vm_locked_by vm) (vm_locked_at vm)
    (vm_owner vm) (vm_group vm) (vm_spiffe vm).

Definition set_runtime (vm : VM) (r : option VMRuntime) : VM :=
  mkVM (vm_id vm) (vm_name vm) (vm_state vm) (vm_image vm) (vm_digest vm) (vm_arch vm) (vm_config vm)
    r (vm_created vm) (vm_updated vm) (vm_locked_by vm) (vm_locked_at vm)
    (vm_owner vm) (vm_group vm) (vm_spiffe vm).

Definition set_updated (vm : VM) (t : Z) : VM :=
  mkVM (vm_id vm) (vm_name vm) (vm_state vm) (vm_image vm) (vm_digest vm) (vm_arch vm) (vm_config vm)
    (vm_runtime vm) (vm_created vm) t (vm_locked_by vm) (vm_locked_at vm)
    (vm_owner vm) (vm_group vm) (vm_spiffe vm).

Definition set_network (c : VMConfig) (n : NetworkConfig) : VMConfig :=
  mkConfig (c_vcpus c) (c_memory c) (c_kernel_args c) (c_ssh_key c) n (c_disks c)
    (c_mounts c) (c_secrets c).

Definition set_kernel_args (c : VMConfig) (a : string) : VMConfig :=
  mkConfig (c_vcpus c) (c_memory c) a (c_ssh_key c) (c_network c) (c_disks c)
    (c_mounts c) (c_secrets c).

Definition set_disks (c : VMConfig) (d : list DiskConfig) : VMConfig :=
  mkConfig (c_vcpus c) (c_memory c) (c_kernel_args c) (c_ssh_key c) (c_network c) d
    (c_mounts c) (c_secrets c).

Definition set_mounts (c : VMConfig) (m : list Mount) : VMConfig :=
  mkConfig (c_vcpus c) (c_memory c) (c_kernel_args c) (c_ssh_key c) (c_network c) (c_disks c)
    m (c_secrets c).

Definition set_secrets (c : VMConfig) (s : list SecretRef) : VMConfig :=
  mkConfig (c_vcpus c) (c_memory c) (c_kernel_args c) (c_ssh_key c) (c_network c) (c_disks c)
    (c_mounts c) s.

Definition set_forwards (n : NetworkConfig) (l : list PortForward) : NetworkConfig :=
  mkNet (n_mode n) (n_tap n) (n_mac n) (n_bridge n) (n_ip n) (n_gateway n) (n_netmask n) l (n_egress n).

(** * JSON codecs: the struct tags of the types above *)

(* @type internal/types/vm.go Mount *)
Definition enc_mount (m : Mount) : json := enc_struct
  [ f_str_omit "source" (m_source m); f_str "target" (m_target m);
    f_str_omit "type" (m_type m); f_bool_omit "read_only" (m_read_only m) ].

Definition dec_mount (j : json) : option Mount :=
  l ← members j;
  source ← getf l "source" "" dec_str; target ← getf l "target" "" dec_str;
  type ← getf l "type" "" dec_str; ro ← getf l "read_only" false dec_bool;
  Some (mkMount source target type ro).

(* @type internal/types/vm.go SecretRef *)
Definition enc_secret (s : SecretRef) : json := enc_struct
  [ f_str "name" (s_name s); f_str "source" (s_source s);
    f_str_omit "type" (s_type s); f_str_omit "target" (s_target s) ].

Definition dec_secret (j : json) : option SecretRef :=
  l ← members j;
  name ← getf l "name" "" dec_str; source ← getf l "source" "" dec_str;
  type ← getf l "type" "" dec_str; target ← getf l "target" "" dec_str;
  Some (mkSecret name source type target).

(* @type internal/types/vm.go PortForward *)
Definition enc_forward (p : PortForward) : json := enc_struct
  [ f_int "host_port" (HostPort p); f_int "vm_port" (VMPort p); f_str "protocol" (Protocol p) ].

Definition dec_forward (j : json) : option PortForward :=
  l ← members j;
  h ← getf l "host_port" 0%Z dec_int; v ← getf l "vm_port" 0%Z dec_int;
  p ← getf l "protocol" "" dec_str;
  Some (mkPF h v p).

(* @type internal/types/vm.go EgressProxy *)
Definition enc_proxy (p : EgressProxy) : json := enc_struct
  [ f_str "ip" (px_ip p); f_int "port" (px_port p); f_str_omit "protocol" (px_protocol p) ].

Definition dec_proxy (j : json) : option EgressProxy :=
  l ← members j;
  ip ← getf l "ip" "" dec_str; port ← getf l "port" 0%Z dec_int;
  proto ← getf l "protocol" "" dec_str;
  Some (mkProxy ip port proto).

(* @type internal/types/vm.go EgressRule *)
Definition enc_rule (r : EgressRule) : json := enc_struct
  [ f_str "cidr" (er_cidr r); f_str "protocol" (er_protocol r); f_int "port" (er_port r);
    f_str_omit "description" (er_description r) ].

Definition dec_rule (j : json) : option EgressRule :=
  l ← members j;
  cidr ← getf l "cidr" "" dec_str; proto ← getf l "protocol" "" dec_str;
  port ← getf l "port" 0%Z dec_int; d ← getf l "description" "" dec_str;
  Some (mkRule cidr proto port d).

(* @type internal/types/vm.go EgressPolicy *)
Definition enc_egress (p : EgressPolicy) : json := enc_struct
  [ f_bool "enabled" (ep_enabled p); f_str_omit "default_action" (ep_default_action p);
    f_bool_omit "allow_dns" (ep_allow_dns p); f_bool_omit "proxy_only" (ep_proxy_only p);
    f_ptr_omit enc_proxy "proxy" (ep_proxy p); f_list_omit enc_rule "allow_rules" (ep_allow_rules p) ].

Definition dec_egress (j : json) : option EgressPolicy :=
  l ← members j;
  en ← getf l "enabled" false dec_bool; da ← getf l "default_action" "" dec_str;
  dns ← getf l "allow_dns" false dec_bool; po ← getf l "proxy_only" false dec_bool;
  px ← getf l "proxy" None (dec_ptr dec_proxy); ar ← getf l "allow_rules" [] (dec_list dec_rule);
  Some (mkEgress en da dns po px ar).

(* @type internal/types/vm.go NetworkConfig *)
Definition enc_network (n : NetworkConfig) : json := enc_struct
  [ f_str "mode" (n_mode n); f_str "tap_device" (n_tap n); f_str "mac_address" (n_mac n);
    f_ptr_omit JStr "bridge_name" (n_bridge n); f_str_omit "ip_address" (n_ip n);
    f_str_omit "gateway" (n_gateway n); f_str_omit "netmask" (n_netmask n);
    f_list_omit enc_forward "port_forwards" (n_forwards n);
    f_ptr_omit enc_egress "egress_policy" (n_egress n) ].

Definition dec_network (j : json) : option NetworkConfig :=
  l ← members j;
  mode ← getf l "mode" "" dec_str; tap ← getf l "tap_device" "" dec_str;
  mac ← getf l "mac_address" "" dec_str; br ← getf l "bridge_name" None (dec_ptr dec_str);
  ip ← getf l "ip_address" "" dec_str; gw ← getf l "gateway" "" dec_str;
  nm ← getf l "netmask" "" dec_str; pf ← getf l "port_forwards" [] (dec_list dec_forward);
  eg ← getf l "egress_policy" None (dec_ptr dec_egress);
  Some (mkNet mode tap mac br ip gw nm pf eg).

(* @type internal/types/vm.go DiskConfig *)
Definition enc_disk (d : DiskConfig) : json := enc_struct
  [ f_str "drive_id" (d_id d); f_str "path_on_host" (d_path d);
    f_bool "is_read_only" (d_read_only d); f_bool "is_root_device" (d_root d) ].

Definition dec_disk (j : json) : option DiskConfig :=
  l ← members j;
  i ← getf l "drive_id" "" dec_str; p ← getf l "path_on_host" "" dec_str;
  ro ← getf l "is_read_only" false dec_bool; rd ← getf l "is_root_device" false dec_bool;
  Some (mkDisk i p ro rd).

(* @type internal/types/vm.go VMConfig *)
Definition enc_config (c : VMConfig) : json := enc_struct
  [ f_int "vcpus" (c_vcpus c); f_int "memory_mib" (c_memory c);
    f_str "kernel_args" (c_kernel_args c); f_str_omit "ssh_public_key" (c_ssh_key c);
    f_any "network" (enc_network (c_network c)); f_list enc_disk "disks" (c_disks c);
    f_list_omit enc_mount "mounts" (c_mounts c); f_list_omit enc_secret "secrets" (c_secrets c) ].

Definition zero_network : NetworkConfig := mkNet "" "" "" None "" "" "" [] None.

Definition dec_config (j : json) : option VMConfig :=
  l ← members j;
  cpu ← getf l "vcpus" 0%Z dec_int; mem ← getf l "memory_mib" 0%Z dec_int;
  ka ← getf l "kernel_args" "" dec_str; ssh ← getf l "ssh_public_key" "" dec_str;
  net ← getf l "network" zero_network dec_network; ds ← getf l "disks" [] (dec_list dec_disk);
  ms ← getf l "mounts" [] (dec_list dec_mount); ss ← getf l "secrets" [] (dec_list dec_secret);
  Some (mkConfig cpu mem ka ssh net ds ms ss).

(* @type internal/types/vm.go NetworkRuntimeInfo *)
Definition enc_netrt (n : NetworkRuntimeInfo) : json := enc_struct
  [ f_str "tap_device" (nr_tap n); f_str "host_ip" (nr_host_ip n);
    f_str "guest_ip" (nr_guest_ip n); f_str "gateway" (nr_gateway n) ].

Definition dec_netrt (j : json) : option NetworkRuntimeInfo :=
  l ← members j;
  t ← getf l "tap_device" "" dec_str; h ← getf l "host_ip" "" dec_str;
  g ← getf l "guest_ip" "" dec_str; w ← getf l "gateway" "" dec_str;
  Some (mkNetRt t h g w).

(* @type internal/types/vm.go VMRuntime *)
Definition enc_runtime (r : VMRuntime) : json := enc_struct
  [ f_int "pid" (rt_pid r); f_str_omit "driver" (rt_driver r);
    f_str_omit "external_id" (rt_external_id r); f_str_omit "socket_path" (rt_socket r);
    f_str "console_path" (rt_console r); f_ptr_omit enc_netrt "network_info" (rt_network r) ].

Definition dec_runtime (j : json) : option VMRuntime :=
  l ← members j;
  pid ← getf l "pid" 0%Z dec_int; dr ← getf l "driver" "" dec_str;
  ext ← getf l "external_id" "" dec_str; so ← getf l "socket_path" "" dec_str;
  co ← getf l "console_path" "" dec_str; ni ← getf l "network_info" None (dec_ptr dec_netrt);
  Some (mkRt pid dr ext so co ni).

(** * Round trips, one per struct *)

Lemma dec_enc_mount m : dec_mount (enc_mount m) = Some m.
Proof. unfold dec_mount, enc_mount. solve_codec. Qed.
Lemma dec_enc_secret s : dec_secret (enc_secret s) = Some s.
Proof. unfold dec_secret, enc_secret. solve_codec. Qed.
Lemma dec_enc_forward p : dec_forward (enc_forward p) = Some p.
Proof. unfold dec_forward, enc_forward. solve_codec. Qed.
Lemma dec_enc_proxy p : dec_proxy (enc_proxy p) = Some p.
Proof. unfold dec_proxy, enc_proxy. solve_codec. Qed.
Lemma dec_enc_rule r : dec_rule (enc_rule r) = Some r.
Proof. unfold dec_rule, enc_rule. solve_codec. Qed.
Lemma dec_enc_disk d : dec_disk (enc_disk d) = Some d.
Proof. unfold dec_disk, enc_disk. solve_codec. Qed.
Lemma dec_enc_netrt n : dec_netrt (enc_netrt n) = Some n.
Proof. unfold dec_netrt, enc_netrt. solve_codec. Qed.

#[export] Hint Resolve dec_enc_mount dec_enc_secret dec_enc_forward dec_enc_proxy
  dec_enc_rule dec_enc_disk dec_enc_netrt : go.

Lemma dec_enc_egress p : dec_egress (enc_egress p) = Some p.
Proof. unfold dec_egress, enc_egress. solve_codec. Qed.
#[export] Hint Resolve dec_enc_egress : go.

Lemma dec_enc_network n : dec_network (enc_network n) = Some n.
Proof. unfold dec_network, enc_network. solve_codec. Qed.
#[export] Hint Rewrite dec_enc_network : codec.

Lemma dec_enc_config c : dec_config (enc_config c) = Some c.
Proof. unfold dec_config, enc_config. solve_codec. Qed.

Lemma dec_enc_runtime r : dec_runtime (enc_runtime r) = Some r.
Proof. unfold dec_runtime, enc_runtime. solve_codec. Qed.
#[export] Hint Resolve dec_enc_config dec_enc_runtime : go.
