(* ===== verification/GoNet.v ===== *)
(** The part of Go's standard library used on network data: [net.ParseIP] and
    [net.ParseCIDR] (acceptance), [strings.Fields], and SHA-256 with its hex
    form. *)

From S2P Require Import Prelude GoStrings.

(** * Addresses *)

Definition is_digit (a : ascii) : bool :=
  let n := nat_of_ascii a in (48 <=? n)%nat && (n <=? 57)%nat.

Definition is_hex (a : ascii) : bool :=
  let n := nat_of_ascii a in
  is_digit a || ((65 <=? n)%nat && (n <=? 70)%nat) || ((97 <=? n)%nat && (n <=? 102)%nat).

Fixpoint all_chars (f : ascii → bool) (s : string) : bool :=
  match s with EmptyString => true | String a s' => f a && all_chars f s' end.

Fixpoint decimal_acc (acc : Z) (s : string) : Z :=
  match s with
  | EmptyString => acc
  | String a s' => decimal_acc (10 * acc + (Z.of_nat (nat_of_ascii a) - 48)) s'
  end.
Definition decimal (s : string) : Z := decimal_acc 0 s.

(** One field of a dotted quad: digits, no leading zero, at most 255. *)
Definition ipv4_field (s : string) : bool :=
  negb (String.eqb s "") && all_chars is_digit s &&
  ((String.length s =? 1)%nat || negb (has_prefix "0" s)) && (decimal s <=? 255)%Z.

Definition parse_ipv4 (s : string) : bool :=
  let fields := split_on "." s in (length fields =? 4)%nat && forallb ipv4_field fields.

(** The longest prefix of hexadecimal digits, and the rest. *)
Fixpoint span_hex (s : string) : nat * string :=
  match s with
  | EmptyString => (0%nat, EmptyString)
  | String a s' => if is_hex a then let '(n, r) := span_hex s' in (S n, r) else (0%nat, s)
  end.

(** The groups of an IPv6 address: [i] bytes parsed, [ell] whether "::" was
    met, at most [fuel] more groups.  [Some (rest, i, ell)] when the loop ends
    without an error. *)
Fixpoint ipv6_groups (fuel : nat) (i : Z) (ell : bool) (s : string) : option (string * Z * bool) :=
  match fuel with
  | O => Some (s, i, ell)
  | S fuel' =>
      let '(off, r) := span_hex s in
      if (off =? 0)%nat || (4 <? off)%nat then None
      else if has_prefix "." r then
        if negb ell && negb (i =? 12)%Z then None
        else if (16 <? i + 4)%Z then None
        else if parse_ipv4 s then Some ("", i + 4, ell)%Z else None
      else
        let i := (i + 2)%Z in
        match r with
        | EmptyString => Some ("", i, ell)
        | String c r' =>
            if negb (Ascii.eqb c ":") then None
            else match r' with
                 | EmptyString => None
                 | String c' r'' =>
                     if Ascii.eqb c' ":" then
                       if ell then None
                       else if String.eqb r'' "" then Some ("", i, true)
                       else ipv6_groups fuel' i true r''
                     else ipv6_groups fuel' i ell r'
                 end
        end
  end.

Definition parse_ipv6 (s : string) : bool :=
  let '(ell, s) := match strip_prefix "::" s with Some r => (true, r) | None => (false, s) end in
  if ell && String.eqb s "" then true
  else match ipv6_groups 8 0 ell s with
       | None => false
       | Some (rest, i, ell) =>
           String.eqb rest "" && (if (i <? 16)%Z then ell else negb ell)
       end.

(** The first of '.', ':' and '%' decides the family.  An address with a zone
    is rejected by the callers, so '%' makes the parse fail. *)
Fixpoint address_family (s : string) : option bool :=
  match s with
  | EmptyString => None
  | String a s' =>
      if Ascii.eqb a "." then Some true
      else if Ascii.eqb a ":" then Some false
      else if Ascii.eqb a "%" then None
      else address_family s'
  end.

(** The bit length of the address [s] denotes, if it parses (no zone). *)
Definition parse_addr_bits (s : string) : option Z :=
  match address_family s with
  | Some true => if parse_ipv4 s then Some 32%Z else None
  | Some false =>
      if negb (contains "%" s) && parse_ipv6 s then Some 128%Z else None
  | None => None
  end.

(** [net.ParseIP(s) != nil]. *)
Definition ParseIP_ok (s : string) : bool :=
  match parse_addr_bits s with Some _ => true | None => false end.

(** [strings.Cut s "/"]. *)
Fixpoint cut_slash (s : string) : option (string * string) :=
  match s with
  | EmptyString => None
  | String a s' =>
      if Ascii.eqb a "/" then Some (EmptyString, s')
      else match cut_slash s' with
           | Some (x, y) => Some (String a x, y)
           | None => None
           end
  end.

(** [net.ParseCIDR]: [None] is success. *)
Definition ParseCIDR (s : string) : option error :=
  let fail := Some (ErrStruct "net.ParseError" [AStr "CIDR address"; AStr s]) in
  match cut_slash s with
  | None => fail
  | Some (addr, mask) =>
      match parse_addr_bits addr with
      | None => fail
      | Some bits =>
          if negb (String.eqb mask "") && all_chars is_digit mask && (decimal mask <=? bits)%Z
          then None else fail
      end
  end.

(** * strings.Fields *)

Fixpoint fields_fuel (fuel : nat) (cur : string) (s : string) : list string :=
  let flush := if String.eqb cur "" then [] else [string_rev cur] in
  match fuel with
  | O => flush
  | S n =>
      match s with
      | EmptyString => flush
      | String a s' =>
          match strip_any space_runes s with
          | Some r => flush ++ fields_fuel n "" r
          | None => fields_fuel n (String a cur) s'
          end
      end
  end.

Definition fields (s : string) : list string := fields_fuel (S (String.length s)) "" s.

(** * SHA-256 (FIPS 180-4) on byte strings, 32-bit words as [Z] *)

Definition w32 (x : Z) : Z := Z.land x (Z.ones 32).
Definition rotr (n x : Z) : Z := Z.lor (Z.shiftr x n) (w32 (Z.shiftl x (32 - n))).

(** The constants of the standard, from their definition: the first 32 bits of
    the fractional parts of the cube roots of the first 64 primes, and of the
    square roots of the first 8. *)
Definition prime_below_312 (n : Z) : bool :=
  (1 <? n)%Z && forallb (λ d, (n <=? d) || negb (n mod d =? 0))%Z [2; 3; 5; 7; 11; 13; 17]%Z.

Definition sha_primes : list Z := Eval vm_compute in List.filter prime_below_312 (Z.of_nat <$> seq 0 312).

(** The integer cube root of [z], bit by bit from [2 ^ n] down. *)
Fixpoint cbrt_below (n : nat) (acc z : Z) : Z :=
  match n with
  | O => acc
  | S n' => let c := (acc + 2 ^ Z.of_nat n')%Z in cbrt_below n' (if (c * c * c <=? z)%Z then c else acc) z
  end.

Definition sha_K : list Z := Eval vm_compute in (λ p, w32 (cbrt_below 40 0 (Z.shiftl p 96))) <$> sha_primes.

Definition sha_H0 : list Z := Eval vm_compute in (λ p, w32 (Z.sqrt (Z.shiftl p 64))) <$> take 8 sha_primes.

Fixpoint string_bytes (s : string) : list Z :=
  match s with EmptyString => [] | String a s' => Z.of_nat (nat_of_ascii a) :: string_bytes s' end.

Definition be_bytes (n : nat) (z : Z) : list Z :=
  (λ i, Z.land (Z.shiftr z (8 * Z.of_nat (n - 1 - i))) 255) <$> seq 0 n.

Definition sha_pad (m : list Z) : list Z :=
  let l := length m in
  m ++ [128]%Z ++ replicate (Z.to_nat ((55 - Z.of_nat l) mod 64)) 0%Z ++ be_bytes 8 (8 * Z.of_nat l).

Fixpoint be_words (l : list Z) : list Z :=
  match l with
  | a :: b :: c :: d :: l' =>
      Z.lor (Z.shiftl a 24) (Z.lor (Z.shiftl b 16) (Z.lor (Z.shiftl c 8) d)) :: be_words l'
  | _ => []
  end.

(** The message schedule, last word first. *)
Fixpoint sha_schedule (n : nat) (w : list Z) : list Z :=
  match n with
  | O => w
  | S n' =>
      let at_ i := nth i w 0%Z in
      let s0 := Z.lxor (rotr 7 (at_ 14%nat)) (Z.lxor (rotr 18 (at_ 14%nat)) (Z.shiftr (at_ 14%nat) 3)) in
      let s1 := Z.lxor (rotr 17 (at_ 1%nat)) (Z.lxor (rotr 19 (at_ 1%nat)) (Z.shiftr (at_ 1%nat) 10)) in
      sha_schedule n' (w32 (at_ 15%nat + s0 + at_ 6%nat + s1) :: w)
  end.

Definition sha_round (st : list Z) (kw : Z * Z) : list Z :=
  match st with
  | [a; b; c; d; e; f; g; h] =>
      let S1 := Z.lxor (rotr 6 e) (Z.lxor (rotr 11 e) (rotr 25 e)) in
      let ch := Z.lxor (Z.land e f) (Z.land (Z.lxor e (Z.ones 32)) g) in
      let t1 := w32 (h + S1 + ch + fst kw + snd kw) in
      let S0 := Z.lxor (rotr 2 a) (Z.lxor (rotr 13 a) (rotr 22 a)) in
      let maj := Z.lxor (Z.land a b) (Z.lxor (Z.land a c) (Z.land b c)) in
      [w32 (t1 + w32 (S0 + maj)); a; b; c; w32 (d + t1); e; f; g]
  | _ => st
  end.

Definition sha_block (h : list Z) (block : list Z) : list Z :=
  let w := rev (sha_schedule 48 (rev block)) in
  zip_with (λ x y, w32 (x + y)) h (foldl sha_round h (zip sha_K w)).

Fixpoint sha_blocks (fuel : nat) (h : list Z) (ws : list Z) : list Z :=
  match fuel, ws with
  | S n, _ :: _ => sha_blocks n (sha_block h (take 16 ws)) (drop 16 ws)
  | _, _ => h
  end.

Definition hex_digit (z : Z) : ascii :=
  ascii_of_nat (Z.to_nat (if (z <? 10)%Z then z + 48 else z + 87)).

Fixpoint hex_encode (l : list Z) : string :=
  match l with
  | [] => EmptyString
  | b :: l' => String (hex_digit (Z.shiftr b 4)) (String (hex_digit (Z.land b 15)) (hex_encode l'))
  end.

(** [hex.EncodeToString(sha256.Sum256(s))]. *)
Definition sha256_hex (s : string) : string :=
  let ws := be_words (sha_pad (string_bytes s)) in
  hex_encode (concat (be_bytes 4 <$> sha_blocks (length ws) sha_H0 ws)).

Example sha256_abc :
  sha256_hex "abc" = "ba7816bf8f01cfea414140de5dae2223b00361a396177a9cb410ff61f20015ad".
Proof. vm_compute. reflexivity. Qed.

Example sha256_empty :
  sha256_hex "" = "e3b0c44298fc1c149afbf4c8996fb92427ae41e4649b934ca495991b7852b855".
Proof. vm_compute. reflexivity. Qed.

Example parse_ip_examples :
  (ParseIP_ok <$> ["172.16.0.10"; "1.2.3"; "01.2.3.4"; "256.1.1.1"; "::1"; "fe80::1%eth0";
     "2001:db8::8:800:200c:417a"; "::ffff:1.2.3.4"; "1:2:3:4:5:6:7:8:9"; "1::2::3"; ":1"]) =
  [true; false; false; false; true; false; true; true; false; false; false].
Proof. vm_compute. reflexivity. Qed.

Example parse_cidr_examples :
  ((λ s, bool_decide (is_Some (ParseCIDR s))) <$>
     ["10.0.0.0/8"; "10.0.0.0/33"; "10.0.0.0"; "::/0"; "::/129"; "1.2.3.4/"]) =
  [false; true; true; false; true; true].
Proof. vm_compute. reflexivity. Qed.
