(* ===== verification/MountSecret.v ===== *)
(** Mount and secret lists of a create request
    (src/internal/types/mount_secret.go): defaults, normalisation and
    validation. *)

From stdpp Require Import gmap.
From S2P Require Import Prelude GoStrings Paths Types.

(* @src internal/types/vm.go:54-58 MountTypeBind *)
Definition MountTypeBind : string := "bind".
Definition MountTypeVolume : string := "volume".
Definition MountTypeTmpfs : string := "tmpfs".

(* @src internal/types/vm.go:72-75 SecretTypeEnv *)
Definition SecretTypeEnv : string := "env".
Definition SecretTypeFile : string := "file".

(** The field clean-up at the head of the loop body, with the default type. *)
(* @src internal/types/mount_secret.go:19-25 NormalizeAndValidateMounts *)
Definition clean_mount (m : Mount) : Mount :=
  let type := to_lower (trim_space (m_type m)) in
  mkMount (trim_space (m_source m)) (trim_space (m_target m))
    (if bool_decide (type = "") then MountTypeBind else type) (m_read_only m).

(** The body of the loop for entry [i]; [seen] are the targets met so far. *)
(* @src internal/types/mount_secret.go:19-53 NormalizeAndValidateMounts *)
Definition mount_step (i : Z) (seen : gset string) (m0 : Mount) : result Mount :=
  let m := clean_mount m0 in
  if negb (bool_decide (m_type m ∈ [MountTypeBind; MountTypeVolume; MountTypeTmpfs])) then
    Err (Errorf "mount[%d]: unsupported type %q (want bind|volume|tmpfs)" [AInt i; AStr (m_type m)])
  else if bool_decide (m_target m = "") then
    Err (Errorf "mount[%d]: target is required" [AInt i])
  else if negb (has_prefix "/" (m_target m)) then
    Err (Errorf "mount[%d]: target %q must be an absolute path" [AInt i; AStr (m_target m)])
  else
    let target := path_clean (m_target m) in
    let m := mkMount (m_source m) target (m_type m) (m_read_only m) in
    if bool_decide (target ∈ seen) then
      Err (Errorf "mount[%d]: duplicate target %q" [AInt i; AStr target])
    else if bool_decide (m_type m ∈ [MountTypeBind; MountTypeVolume]) then
      if bool_decide (m_source m = "") then
        Err (Errorf "mount[%d]: source is required for %s mount" [AInt i; AStr (m_type m)])
      else Ok m
    else
      if negb (bool_decide (m_source m = "")) then
        Err (Errorf "mount[%d]: tmpfs mount must not set a source" [AInt i])
      else Ok m.

Fixpoint mounts_loop (i : Z) (seen : gset string) (mounts : list Mount) : result (list Mount) :=
  match mounts with
  | [] => Ok []
  | m :: mounts' =>
      let? m' := mount_step i seen m in
      let? out := mounts_loop (i + 1) ({[m_target m']} ∪ seen) mounts' in
      Ok (m' :: out)
  end.

(* @func internal/types/mount_secret.go NormalizeAndValidateMounts *)
Definition NormalizeAndValidateMounts (mounts : list Mount) : result (list Mount) :=
  match mounts with [] => Ok [] | _ => mounts_loop 0 ∅ mounts end.

(* @src internal/types/mount_secret.go:68-75 NormalizeAndValidateSecrets *)
Definition clean_secret (s : SecretRef) : SecretRef :=
  let type := to_lower (trim_space (s_type s)) in
  mkSecret (trim_space (s_name s)) (trim_space (s_source s))
    (if bool_decide (type = "") then SecretTypeEnv else type) (trim_space (s_target s)).

(* @src internal/types/mount_secret.go:68-103 NormalizeAndValidateSecrets *)
Definition secret_step (i : Z) (seen : gset string) (s0 : SecretRef) : result SecretRef :=
  let s := clean_secret s0 in
  if bool_decide (s_name s = "") then
    Err (Errorf "secret[%d]: name is required" [AInt i])
  else if bool_decide (s_source s = "") then
    Err (Errorf "secret[%d]: source is required (a reference with no source is not actionable)" [AInt i])
  else if bool_decide (s_name s ∈ seen) then
    Err (Errorf "secret[%d]: duplicate name %q" [AInt i; AStr (s_name s)])
  else if bool_decide (s_type s = SecretTypeEnv) then
    if bool_decide (s_target s = "")
    then Ok (mkSecret (s_name s) (s_source s) (s_type s) (s_name s))
    else Ok s
  else if bool_decide (s_type s = SecretTypeFile) then
    if bool_decide (s_target s = "") then
      Err (Errorf "secret[%d]: file secret %q requires a target path" [AInt i; AStr (s_name s)])
    else if negb (has_prefix "/" (s_target s)) then
      Err (Errorf "secret[%d]: file secret target %q must be an absolute path" [AInt i; AStr (s_target s)])
    else Ok (mkSecret (s_name s) (s_source s) (s_type s) (path_clean (s_target s)))
  else
    Err (Errorf "secret[%d]: unsupported type %q (want env|file)" [AInt i; AStr (s_type s)]).

Fixpoint secrets_loop (i : Z) (seen : gset string) (secrets : list SecretRef) : result (list SecretRef) :=
  match secrets with
  | [] => Ok []
  | s :: secrets' =>
      let? s' := secret_step i seen s in
      let? out := secrets_loop (i + 1) ({[s_name s']} ∪ seen) secrets' in
      Ok (s' :: out)
  end.

(* @func internal/types/mount_secret.go NormalizeAndValidateSecrets *)
Definition NormalizeAndValidateSecrets (secrets : list SecretRef) : result (list SecretRef) :=
  match secrets with [] => Ok [] | _ => secrets_loop 0 ∅ secrets end.

(** * A generic validating loop

    Both functions are a loop whose body maps an entry to its normal form,
    rejects a key already seen, and otherwise does not look at the state. *)

Section Loop.
Context {A : Type} (key : A → string) (step : Z → gset string → A → result A).

Fixpoint vloop (i : Z) (seen : gset string) (l : list A) : result (list A) :=
  match l with
  | [] => Ok []
  | a :: l' =>
      let? a' := step i seen a in
      let? out := vloop (i + 1) ({[key a']} ∪ seen) l' in
      Ok (a' :: out)
  end.

(** What an accepted entry becomes, and when it is accepted. *)
Variable norm : A → A.
Variable valid : A → Prop.
Hypothesis step_spec : ∀ i seen a a',
  step i seen a = Ok a' ↔ a' = norm a ∧ valid a ∧ key (norm a) ∉ seen.

Lemma vloop_spec i seen l out :
  vloop i seen l = Ok out ↔
  out = norm <$> l ∧ Forall valid l ∧ NoDup (key <$> (norm <$> l)) ∧
  (∀ a, a ∈ l → key (norm a) ∉ seen).
Proof.
  revert i seen out. induction l as [|a l IH]; intros i seen out; simpl.
  - split; [intros [= <-]; split_and!; try constructor; by intros ? ?%elem_of_nil|].
    by intros (-> & _).
  - destruct (step i seen a) as [a'|e] eqn:E; simpl.
    + apply step_spec in E as (-> & Hv & Hn).
      destruct (vloop _ _ l) as [o|e] eqn:El; simpl.
      * apply IH in El as (-> & Hf & Hnd & Hns). split.
        -- intros [= <-]. rewrite Forall_cons, NoDup_cons. split_and!; try done.
           ++ intros (x & Hx & Hin)%list_elem_of_fmap.
              apply list_elem_of_fmap in Hin as (y & -> & Hy).
              apply (Hns y Hy). rewrite <- Hx. set_solver.
           ++ intros b [->|Hb]%elem_of_cons; [done|]. specialize (Hns b Hb). set_solver.
        -- by intros (-> & _).
      * split; [done|]. intros (-> & [_ Hf]%Forall_cons & Hnd & Hns). exfalso.
        apply NoDup_cons in Hnd as [Hni Hnd].
        enough (Err e = Ok (norm <$> l)) by done. rewrite <- El. apply IH. split_and!; try done.
        intros b Hb. apply not_elem_of_union; split; [|by apply Hns; right].
        apply not_elem_of_singleton. intros Hk. apply Hni.
        rewrite <- Hk. by apply list_elem_of_fmap_2, list_elem_of_fmap_2.
    + split; [done|]. intros (-> & [Hv _]%Forall_cons & _ & Hns). exfalso.
      enough (Err e = Ok (norm a)) by done. rewrite <- E. apply step_spec. split_and!; try done.
      apply Hns. left.
Qed.

End Loop.

Lemma mounts_loop_vloop i seen l : mounts_loop i seen l = vloop m_target mount_step i seen l.
Proof. revert i seen. induction l as [|m l IH]; intros i seen; simpl; [done|]. destruct (mount_step i seen m); simpl; [|done]. by rewrite IH. Qed.

Lemma secrets_loop_vloop i seen l : secrets_loop i seen l = vloop s_name secret_step i seen l.
Proof. revert i seen. induction l as [|m l IH]; intros i seen; simpl; [done|]. destruct (secret_step i seen m); simpl; [|done]. by rewrite IH. Qed.

(** ** Mounts *)

(** The specification of one accepted mount: what the documentation of
    [NormalizeAndValidateMounts] asks for. *)
Definition mount_valid (m0 : Mount) : Prop :=
  let m := clean_mount m0 in
  has_prefix "/" (m_target m) = true ∧
  ((m_type m ∈ ["bind"; "volume"] ∧ m_source m ≠ "") ∨ (m_type m = "tmpfs" ∧ m_source m = "")).

Definition mount_norm (m0 : Mount) : Mount :=
  let m := clean_mount m0 in
  mkMount (m_source m) (path_clean (m_target m)) (m_type m) (m_read_only m).

Lemma mount_step_spec i seen m m' :
  mount_step i seen m = Ok m' ↔
  m' = mount_norm m ∧ mount_valid m ∧ m_target (mount_norm m) ∉ seen.
Proof.
  unfold mount_step, mount_norm, mount_valid, MountTypeBind, MountTypeVolume, MountTypeTmpfs.
  cbv zeta. generalize (clean_mount m). intros [src tgt ty ro]; simpl.
  case_bool_decide as Ht; simpl; [|set_solver].
  assert (Htn : tgt = "" → has_prefix "/" tgt = false) by (by intros ->).
  case_bool_decide as He; [naive_solver|].
  destruct (has_prefix "/" tgt) eqn:Hp; simpl; [|naive_solver].
  case_bool_decide as Hs; [naive_solver|].
  case_bool_decide as Hb; case_bool_decide as Hsrc; simpl; set_solver.
Qed.

(** ** Secrets *)

(** The specification of one accepted secret reference. *)
Definition secret_valid (s0 : SecretRef) : Prop :=
  let s := clean_secret s0 in
  s_name s ≠ "" ∧ s_source s ≠ "" ∧
  (s_type s = "env" ∨ (s_type s = "file" ∧ has_prefix "/" (s_target s) = true)).

Definition secret_norm (s0 : SecretRef) : SecretRef :=
  let s := clean_secret s0 in
  mkSecret (s_name s) (s_source s) (s_type s)
    (if bool_decide (s_type s = "env")
     then (if bool_decide (s_target s = "") then s_name s else s_target s)
     else path_clean (s_target s)).

Lemma secret_step_spec i seen s s' :
  secret_step i seen s = Ok s' ↔
  s' = secret_norm s ∧ secret_valid s ∧ s_name (secret_norm s) ∉ seen.
Proof.
  unfold secret_step, secret_norm, secret_valid, SecretTypeEnv, SecretTypeFile.
  cbv zeta. generalize (clean_secret s). intros [name src ty tgt]; simpl.
  case_bool_decide as Hn; [naive_solver|].
  case_bool_decide as Hs; [naive_solver|].
  case_bool_decide as Hd; [naive_solver|].
  case_bool_decide as He; [subst; case_bool_decide; naive_solver|].
  case_bool_decide as Hf; [|naive_solver]. subst.
  assert (Htn : tgt = "" → has_prefix "/" tgt = false) by (by intros ->).
  case_bool_decide as Ht; [naive_solver|].
  destruct (has_prefix "/" tgt) eqn:Hp; simpl; naive_solver.
Qed.

(** * Properties *)

(** [NormalizeAndValidateMounts] accepts a list exactly when every entry
    has an absolute target, a source if it is a bind or volume mount and none
    if it is tmpfs, and no two entries have the same cleaned target; it then
    returns the entries, trimmed, lower-cased, defaulted and cleaned, in
    order. *)
Theorem NormalizeAndValidateMounts_spec (mounts out : list Mount) :
  NormalizeAndValidateMounts mounts = Ok out ↔
  out = mount_norm <$> mounts ∧ Forall mount_valid mounts ∧ NoDup (m_target <$> out).
Proof.
  assert (Hl : mounts_loop 0 ∅ mounts = Ok out ↔
    out = mount_norm <$> mounts ∧ Forall mount_valid mounts ∧ NoDup (m_target <$> out)).
  { rewrite mounts_loop_vloop, (vloop_spec _ _ mount_norm mount_valid) by apply mount_step_spec.
    split; [intros (-> & ? & ? & _)|intros (-> & ? & ?)]; by split_and!. }
  by destruct mounts.
Qed.

(** [NormalizeAndValidateSecrets] accepts a list exactly when every entry
    has a name and a source, is an env secret or a file secret with an absolute
    target, and no two entries have the same name; it then returns the
    normalised entries in order, an env secret without target getting its name
    as target. *)
Theorem NormalizeAndValidateSecrets_spec (secrets out : list SecretRef) :
  NormalizeAndValidateSecrets secrets = Ok out ↔
  out = secret_norm <$> secrets ∧ Forall secret_valid secrets ∧ NoDup (s_name <$> out).
Proof.
  assert (Hl : secrets_loop 0 ∅ secrets = Ok out ↔
    out = secret_norm <$> secrets ∧ Forall secret_valid secrets ∧ NoDup (s_name <$> out)).
  { rewrite secrets_loop_vloop, (vloop_spec _ _ secret_norm secret_valid) by apply secret_step_spec.
    split; [intros (-> & ? & ? & _)|intros (-> & ? & ?)]; by split_and!. }
  by destruct secrets.
Qed.

(** The cleaned target of an accepted mount is a rooted path of plain
    elements: it names one place of the guest, without "." or "..". *)
Lemma mount_norm_target m :
  mount_valid m →
  is_rooted (m_target (mount_norm m)) = true ∧
  path_clean (m_target (mount_norm m)) = m_target (mount_norm m) ∧
  Forall plain (path_elements (m_target (mount_norm m))).
Proof.
  intros [Hr _]. simpl. split_and!.
  - by apply path_clean_rooted.
  - by apply path_clean_idem.
  - apply path_elements_plain, path_clean_rooted. done.
Qed.

Example mounts_example :
  NormalizeAndValidateMounts
    [mkMount " /srv " "/data//x/" " BIND" true; mkMount "" "/tmp/../scratch" "tmpfs" false] =
  Ok [mkMount "/srv" "/data/x" "bind" true; mkMount "" "/scratch" "tmpfs" false].
Proof. vm_compute. reflexivity. Qed.

Example mounts_duplicate_example :
  NormalizeAndValidateMounts [mkMount "a" "/d" "" false; mkMount "b" "/d/." "volume" false] =
  Err (Errorf "mount[%d]: duplicate target %q" [AInt 1; AStr "/d"]).
Proof. vm_compute. reflexivity. Qed.
