(* ===== verification/Ipam.v ===== *)
(** The IP address manager (src/internal/network/ipam.go): a free list of the
    addresses of the bridge network and the map from VM ids to the addresses
    they hold.  Every method of the code runs under the mutex [ipam.mu], so a
    method is one atomic step on the state. *)

From stdpp Require Import gmap.
From S2P Require Import Prelude GoStrings.

(* @src internal/network/ipam.go:9-13 IPAM *)
Record IPAM : Type := mkIPAM {
  allocated : gmap string string;   (* vmID -> IP *)
  available : list string           (* free addresses, next one first *)
}.

(** The addresses of the loops [for i := 10; i <= 254; i++]. *)
(* @src internal/network/ipam.go:25-27 NewIPAM *)
Definition ip_pool : list string :=
  (λ i, "172.16.0." +:+ fmt_d i) <$> seqZ 10 245.

(* @func internal/network/ipam.go NewIPAM *)
Definition NewIPAM : IPAM := mkIPAM ∅ ip_pool.

(* @func internal/network/ipam.go AllocateIP *)
Definition AllocateIP (vmID : string) : State IPAM (result string) :=
  λ ipam,
    match allocated ipam !! vmID with
    | Some ip => (Ok ip, ipam)
    | None =>
        match available ipam with
        | [] => (Err (Errorf "IP address pool exhausted" []), ipam)
        | ip :: rest => (Ok ip, mkIPAM (<[vmID := ip]> (allocated ipam)) rest)
        end
    end.

(* @func internal/network/ipam.go ReleaseIP *)
Definition ReleaseIP (vmID : string) : State IPAM unit :=
  λ ipam,
    match allocated ipam !! vmID with
    | Some ip => (tt, mkIPAM (delete vmID (allocated ipam)) (available ipam ++ [ip]))
    | None => (tt, ipam)
    end.

(* @func internal/network/ipam.go GetAllocatedIP *)
Definition GetAllocatedIP (vmID : string) (ipam : IPAM) : option string :=
  allocated ipam !! vmID.

(* @func internal/network/ipam.go GetAvailableCount *)
Definition GetAvailableCount (ipam : IPAM) : nat := length (available ipam).

(* @func internal/network/ipam.go GetAllocatedCount *)
Definition GetAllocatedCount (ipam : IPAM) : nat := size (allocated ipam).

(* @func internal/network/ipam.go GetAllAllocations *)
Definition GetAllAllocations (ipam : IPAM) : gmap string string := allocated ipam.

(* @func internal/network/ipam.go LoadAllocations *)
Definition LoadAllocations (allocations : gmap string string) : State IPAM unit :=
  λ _,
    let taken := snd <$> map_to_list allocations in
    (tt, mkIPAM allocations (filter (λ ip, ip ∉ taken) ip_pool)).

(** * The invariant

    The free addresses and the held addresses together are exactly the pool:
    nothing is lost, nothing is handed out twice, nothing foreign appears. *)

Definition held (m : gmap string string) : list string := snd <$> map_to_list m.

Definition ipam_inv (ipam : IPAM) : Prop :=
  available ipam ++ held (allocated ipam) ≡ₚ ip_pool.

(** One request to the manager. *)
Inductive ipam_op : Type :=
  | OpAllocate (vmID : string)
  | OpRelease (vmID : string).

Definition ipam_exec (o : ipam_op) (ipam : IPAM) : IPAM :=
  match o with
  | OpAllocate id => snd (AllocateIP id ipam)
  | OpRelease id => snd (ReleaseIP id ipam)
  end.

Definition ipam_run (ops : list ipam_op) (ipam : IPAM) : IPAM :=
  foldl (λ s o, ipam_exec o s) ipam ops.

(** ** Lemmas *)

Lemma ip_pool_length : length ip_pool = 245%nat.
Proof. reflexivity. Qed.

Lemma ip_pool_NoDup : NoDup ip_pool.
Proof.
  apply NoDup_fmap_2; [|apply NoDup_seqZ].
  intros x y H. apply (inj (String.app "172.16.0.")) in H. by apply (inj pretty) in H.
Qed.

Lemma held_insert m id ip :
  m !! id = None → held (<[id := ip]> m) ≡ₚ ip :: held m.
Proof. intros H. unfold held. by rewrite map_to_list_insert by done. Qed.

Lemma held_delete m id ip :
  m !! id = Some ip → held m ≡ₚ ip :: held (delete id m).
Proof. intros H. unfold held. by rewrite <- (map_to_list_delete m id ip) by done. Qed.

Lemma held_length m : length (held m) = size m.
Proof. unfold held. by rewrite length_fmap, length_map_to_list. Qed.

Lemma elem_of_held m id ip : m !! id = Some ip → ip ∈ held m.
Proof. intros H. apply list_elem_of_fmap. exists (id, ip). split; [done|]. by apply elem_of_map_to_list. Qed.

Lemma held_inj m id1 id2 ip :
  NoDup (held m) → m !! id1 = Some ip → m !! id2 = Some ip → id1 = id2.
Proof.
  intros Hnd H1 H2. apply elem_of_map_to_list in H1, H2.
  assert ((id1, ip) = (id2, ip)) as [= ->]; [|done].
  by eapply (NoDup_fmap_inj_on snd).
Qed.

Lemma ipam_inv_NoDup ipam : ipam_inv ipam → NoDup (available ipam ++ held (allocated ipam)).
Proof. unfold ipam_inv. intros H. rewrite H. apply ip_pool_NoDup. Qed.

Lemma ipam_inv_count ipam :
  ipam_inv ipam → (GetAvailableCount ipam + GetAllocatedCount ipam = 245)%nat.
Proof.
  intros H. apply Permutation_length in H. rewrite length_app, held_length in H. apply H.
Qed.

Lemma ipam_inv_New : ipam_inv NewIPAM.
Proof.
  change (ip_pool ++ (snd <$> map_to_list (∅ : gmap string string)) ≡ₚ ip_pool).
  rewrite map_to_list_empty. change (ip_pool ++ [] ≡ₚ ip_pool). by rewrite app_nil_r.
Qed.

Lemma ipam_inv_Allocate id ipam : ipam_inv ipam → ipam_inv (snd (AllocateIP id ipam)).
Proof.
  unfold ipam_inv, AllocateIP. intros H.
  destruct (allocated ipam !! id) as [ip|] eqn:E; [done|].
  destruct (available ipam) as [|ip rest] eqn:Ea; simpl; [by rewrite Ea|].
  rewrite held_insert by done. rewrite <- H. symmetry. apply Permutation_middle.
Qed.

Lemma ipam_inv_Release id ipam : ipam_inv ipam → ipam_inv (snd (ReleaseIP id ipam)).
Proof.
  unfold ipam_inv, ReleaseIP. intros H.
  destruct (allocated ipam !! id) as [ip|] eqn:E; [|done]. simpl.
  rewrite <- H, (held_delete (allocated ipam) id ip) by done.
  by rewrite <- app_assoc.
Qed.

Lemma ipam_inv_run ops ipam : ipam_inv ipam → ipam_inv (ipam_run ops ipam).
Proof.
  unfold ipam_run. revert ipam. induction ops as [|[id|id] ops IH]; intros ipam H; simpl; [done|..];
    apply IH; [by apply ipam_inv_Allocate|by apply ipam_inv_Release].
Qed.

#[export] Hint Resolve ipam_inv_New ipam_inv_Allocate ipam_inv_Release ipam_inv_run : go.

Lemma ipam_inv_Load m ipam :
  NoDup (held m) → (∀ ip, ip ∈ held m → ip ∈ ip_pool) →
  ipam_inv (snd (LoadAllocations m ipam)).
Proof.
  intros Hnd Hin. unfold ipam_inv, LoadAllocations; simpl. fold (held m).
  apply NoDup_Permutation.
  - apply NoDup_app; split_and!; [by apply NoDup_filter, ip_pool_NoDup| |done].
    intros ip [Hni _]%list_elem_of_filter. done.
  - apply ip_pool_NoDup.
  - intros ip. rewrite elem_of_app, list_elem_of_filter. destruct (decide (ip ∈ held m)); naive_solver.
Qed.

Lemma Allocate_Release_other id id' ipam :
  id ≠ id' → allocated (snd (ReleaseIP id ipam)) !! id' = allocated ipam !! id'.
Proof.
  intros Hne. unfold ReleaseIP. destruct (allocated ipam !! id); simpl; [|done].
  by rewrite lookup_delete_ne.
Qed.

(** Releasing right after a fresh allocation gives back the same held map. *)
Lemma Release_Allocate_id id ipam :
  allocated ipam !! id = None →
  allocated (snd (ReleaseIP id (snd (AllocateIP id ipam)))) = allocated ipam.
Proof.
  intros Hn. unfold AllocateIP. rewrite Hn.
  destruct (available ipam) as [|ip rest]; simpl; unfold ReleaseIP.
  - by rewrite Hn.
  - simpl. rewrite lookup_insert_eq. simpl. by apply delete_insert_id.
Qed.

(** * Properties *)

(** C40: through any sequence of allocations and releases starting from a new
    manager, the free and the held addresses are together exactly the pool
    172.16.0.10 - 172.16.0.254; so no two VMs ever hold the same address, a
    held address is never free, and the gateway 172.16.0.1 is never handed
    out. *)
Theorem ipam_exclusive (ops : list ipam_op) :
  let ipam := ipam_run ops NewIPAM in
  (available ipam ++ held (allocated ipam) ≡ₚ ip_pool) ∧
  (∀ id1 id2 ip, GetAllocatedIP id1 ipam = Some ip → GetAllocatedIP id2 ipam = Some ip → id1 = id2) ∧
  (∀ id ip, GetAllocatedIP id ipam = Some ip → (ip ∉ available ipam) ∧ ip ≠ "172.16.0.1").
Proof.
  intros ipam. assert (Hi : ipam_inv ipam) by (apply ipam_inv_run, ipam_inv_New).
  pose proof (ipam_inv_NoDup _ Hi) as (_ & Hdisj & Hnd)%NoDup_app.
  split_and!; [done| |].
  - intros. by eapply held_inj.
  - intros id ip H%elem_of_held. split.
    + intros Ha. by apply (Hdisj ip).
    + intros ->. assert (Hp : "172.16.0.1" ∈ ip_pool).
      { unfold ipam_inv in Hi. rewrite <- Hi. apply elem_of_app. by right. }
      apply list_elem_of_In in Hp. revert Hp. vm_compute. intuition discriminate.
Qed.

(** [AllocateIP] on a well-formed manager: a VM that holds an address gets
    it back and nothing changes; otherwise the first free address is handed
    out; the call fails exactly when the VM holds none and all 245 addresses
    are held by others. *)
Theorem AllocateIP_spec (id : string) (ipam : IPAM) (Hinv : ipam_inv ipam) :
  match AllocateIP id ipam with
  | (Ok ip, ipam') =>
      GetAllocatedIP id ipam' = Some ip ∧ ip ∈ ip_pool ∧
      (∀ id', id' ≠ id → GetAllocatedIP id' ipam' = GetAllocatedIP id' ipam) ∧
      (is_Some (GetAllocatedIP id ipam) → ipam' = ipam) ∧
      ipam_inv ipam'
  | (Err _, ipam') =>
      ipam' = ipam ∧ GetAllocatedIP id ipam = None ∧ GetAllocatedCount ipam = 245%nat
  end.
Proof.
  pose proof (ipam_inv_Allocate id ipam Hinv) as Hinv'. pose proof (ipam_inv_count ipam Hinv) as Hc.
  unfold AllocateIP, GetAllocatedIP, GetAvailableCount in *.
  destruct (allocated ipam !! id) as [ip|] eqn:E; simpl in *.
  - split_and!; try done. unfold ipam_inv in Hinv. rewrite <- Hinv. apply elem_of_app. right. by eapply elem_of_held.
  - destruct (available ipam) as [|ip rest] eqn:Ea; simpl in *; [done|].
    split_and!; try done.
    + by rewrite lookup_insert_eq.
    + unfold ipam_inv in Hinv. rewrite <- Hinv, Ea. left.
    + intros id' Hne. by rewrite lookup_insert_ne.
Qed.

Lemma AllocateIP_spec_witness :
  ipam_inv NewIPAM ∧
  match AllocateIP "vm1" NewIPAM with
  | (Ok ip, ipam') =>
      GetAllocatedIP "vm1" ipam' = Some ip ∧ ip ∈ ip_pool ∧
      (∀ id', id' ≠ "vm1" → GetAllocatedIP id' ipam' = GetAllocatedIP id' NewIPAM) ∧
      (is_Some (GetAllocatedIP "vm1" NewIPAM) → ipam' = NewIPAM) ∧
      ipam_inv ipam'
  | (Err _, ipam') =>
      ipam' = NewIPAM ∧ GetAllocatedIP "vm1" NewIPAM = None ∧ GetAllocatedCount NewIPAM = 245%nat
  end.
Proof. split; [apply ipam_inv_New|]. apply (AllocateIP_spec "vm1" NewIPAM). apply ipam_inv_New. Defined.

(** a daemon restart: loading the allocations of a well-formed manager
    into any other manager restores every VM's address and rebuilds a free
    list that is well formed with them. *)
Theorem LoadAllocations_restores (ipam fresh : IPAM) (Hinv : ipam_inv ipam) :
  let ipam' := snd (LoadAllocations (GetAllAllocations ipam) fresh) in
  GetAllAllocations ipam' = GetAllAllocations ipam ∧
  ipam_inv ipam' ∧
  available ipam' ≡ₚ available ipam.
Proof.
  pose proof (ipam_inv_NoDup _ Hinv) as (_ & _ & Hnd)%NoDup_app.
  assert (Hi : ipam_inv (snd (LoadAllocations (allocated ipam) fresh))).
  { apply ipam_inv_Load; [done|]. intros ip Hip. unfold ipam_inv in Hinv. rewrite <- Hinv. apply elem_of_app. by right. }
  simpl. split_and!; [done|done|].
  unfold ipam_inv in Hi, Hinv. rewrite <- Hinv in Hi.
  change (allocated (snd (LoadAllocations (allocated ipam) fresh))) with (allocated ipam) in Hi.
  by apply Permutation_app_inv_r in Hi.
Qed.

Lemma LoadAllocations_restores_witness :
  let ipam := ipam_run [OpAllocate "a"; OpAllocate "b"; OpRelease "a"] NewIPAM in
  let ipam' := snd (LoadAllocations (GetAllAllocations ipam) NewIPAM) in
  GetAllAllocations ipam' = GetAllAllocations ipam ∧ ipam_inv ipam' ∧
  available ipam' ≡ₚ available ipam.
Proof. apply LoadAllocations_restores. apply ipam_inv_run, ipam_inv_New. Defined.
