(* ===== verification/HostNet.v ===== *)
(** The host network set-up (src/internal/network/bridge.go, tap.go, nat.go,
    helpers.go): the bridge, TAP devices, NAT rules and MAC addresses.  Every
    function is the exact sequence of host commands it runs, with its branches
    on their outcomes. *)

From S2P Require Import Prelude GoStrings GoNet.

(* @src internal/network/bridge.go:8-17 BridgeName *)
Definition BridgeName : string := "nanofuse0".
Definition BridgeIP : string := "172.16.0.1/24".
Definition BridgeGateway : string := "172.16.0.1".
Definition NetworkCIDR : string := "172.16.0.0/24".

Section Commands.
Context `{Host}.

Abbreviation Cmds := (State (list cmd_event)).

(** * Bridge *)

(* @func internal/network/bridge.go BridgeExists *)
Definition BridgeExists : Cmds bool :=
  let* e := run "ip" ["link"; "show"; BridgeName] in
  ret (bool_decide (e = None)).

(* @func internal/network/bridge.go ensureBridgeRoute *)
Definition ensureBridgeRoute : Cmds (option error) :=
  let* ' (output, _) := run_output "ip" ["route"; "show"; NetworkCIDR; "dev"; BridgeName] in
  if (0 <? String.length output)%nat then ret None
  else
    let* e := run "ip" ["route"; "add"; NetworkCIDR; "dev"; BridgeName] in
    match e with
    | None => ret None
    | Some err =>
        let* ' (output, _) := run_output "ip" ["route"; "show"; NetworkCIDR; "dev"; BridgeName] in
        if (0 <? String.length output)%nat then ret None
        else ret (Some (Errorf "failed to add route for %s: %w" [AStr NetworkCIDR; AWrap err]))
    end.

(* @func internal/network/bridge.go SetupBridge *)
Definition SetupBridge : Cmds (option error) :=
  let* exists_ := BridgeExists in
  if exists_ : bool then ret None
  else
    let* e := run "ip" ["link"; "add"; BridgeName; "type"; "bridge"] in
    match e with
    | Some err => ret (Some (Errorf "failed to create bridge %s: %w" [AStr BridgeName; AWrap err]))
    | None =>
        let* e := run "ip" ["addr"; "add"; BridgeIP; "dev"; BridgeName] in
        match e with
        | Some err =>
            run "ip" ["link"; "delete"; BridgeName] ;;;
            ret (Some (Errorf "failed to assign IP %s to bridge: %w" [AStr BridgeIP; AWrap err]))
        | None =>
            let* e := run "ip" ["link"; "set"; BridgeName; "up"] in
            match e with
            | Some err =>
                run "ip" ["link"; "delete"; BridgeName] ;;;
                ret (Some (Errorf "failed to bring up bridge %s: %w" [AStr BridgeName; AWrap err]))
            | None =>
                let* e := ensureBridgeRoute in
                match e with
                | Some err =>
                    run "ip" ["link"; "delete"; BridgeName] ;;;
                    ret (Some (Errorf "failed to setup bridge route: %w" [AWrap err]))
                | None => ret None
                end
            end
        end
    end.

(* @func internal/network/bridge.go DeleteBridge *)
Definition DeleteBridge : Cmds (option error) :=
  let* exists_ := BridgeExists in
  if negb exists_ then ret None
  else
    let* e := run "ip" ["link"; "delete"; BridgeName] in
    match e with
    | Some err => ret (Some (Errorf "failed to delete bridge %s: %w" [AStr BridgeName; AWrap err]))
    | None => ret None
    end.

(** * TAP devices *)

(* @func internal/network/tap.go CreateTAPDevice *)
Definition CreateTAPDevice (name : string) : Cmds (option error) :=
  let* e := run "ip" ["tuntap"; "add"; name; "mode"; "tap"] in
  match e with
  | Some err => ret (Some (Errorf "failed to create TAP device %s: %w" [AStr name; AWrap err]))
  | None =>
      let* e := run "ip" ["link"; "set"; name; "up"] in
      match e with
      | Some err =>
          run "ip" ["link"; "delete"; name] ;;;
          ret (Some (Errorf "failed to bring up TAP device %s: %w" [AStr name; AWrap err]))
      | None => ret None
      end
  end.

(* @func internal/network/tap.go AttachTAPToBridge *)
Definition AttachTAPToBridge (tapName bridgeName : string) : Cmds (option error) :=
  let* e := run "ip" ["link"; "set"; tapName; "master"; bridgeName] in
  match e with
  | Some err =>
      ret (Some (Errorf "failed to attach TAP %s to bridge %s: %w" [AStr tapName; AStr bridgeName; AWrap err]))
  | None => ret None
  end.

(* @func internal/network/tap.go DeleteTAPDevice *)
Definition DeleteTAPDevice (name : string) : Cmds (option error) :=
  let* e := run "ip" ["link"; "delete"; name] in
  match e with
  | Some err => ret (Some (Errorf "failed to delete TAP device %s: %w" [AStr name; AWrap err]))
  | None => ret None
  end.

(* @func internal/network/tap.go TAPDeviceExists *)
Definition TAPDeviceExists (name : string) : Cmds bool :=
  let* e := run "ip" ["link"; "show"; name] in
  ret (bool_decide (e = None)).

(** * NAT *)

(* @func internal/network/nat.go enableIPForwarding *)
Definition enableIPForwarding : Cmds (option error) :=
  run "sysctl" ["-w"; "net.ipv4.ip_forward=1"].

(** The tail shared by the two "add, or accept that it is there" functions:
    the error text of the failed [-A] is inspected, then [-C] is run again. *)
(* @src internal/network/nat.go:56-73 addNATRule *)
Definition after_add (stderr : string) (e : option error) (check_args : list string) : Cmds (option error) :=
  match e with
  | None => ret None
  | Some err =>
      let errMsg := trim_space stderr in
      if contains "already exists" errMsg || contains "duplicate" errMsg then ret None
      else
        let* e2 := run "iptables" check_args in
        match e2 with
        | None => ret None
        | Some _ =>
            if negb (String.eqb errMsg "") then ret (Some (Errorf "%s: %w" [AStr errMsg; AWrap err]))
            else ret (Some err)
        end
  end.

Definition nat_args (flag primaryInterface : string) : list string :=
  ["-t"; "nat"; flag; "POSTROUTING"; "-s"; NetworkCIDR; "-o"; primaryInterface; "-j"; "MASQUERADE"].

(* @func internal/network/nat.go addNATRule *)
Definition addNATRule (primaryInterface : string) : Cmds (option error) :=
  let* e := run "iptables" (nat_args "-C" primaryInterface) in
  match e with
  | None => ret None
  | Some _ =>
      let* ' (stderr, e) := run_output "iptables" (nat_args "-A" primaryInterface) in
      after_add stderr e (nat_args "-C" primaryInterface)
  end.

(* @src internal/network/nat.go:93-97 addForwardRuleIdempotent *)
Definition forward_args (flag inIface outIface state : string) : list string :=
  [flag; "FORWARD"; "-i"; inIface; "-o"; outIface] ++
  (if negb (String.eqb state "") then ["-m"; "state"; "--state"; state] else []) ++
  ["-j"; "ACCEPT"].

(* @func internal/network/nat.go addForwardRuleIdempotent *)
Definition addForwardRuleIdempotent (inIface outIface state : string) : Cmds (option error) :=
  let* e := run "iptables" (forward_args "-C" inIface outIface state) in
  match e with
  | None => ret None
  | Some _ =>
      let* ' (stderr, e) := run_output "iptables" (forward_args "-A" inIface outIface state) in
      after_add stderr e (forward_args "-C" inIface outIface state)
  end.

(* @func internal/network/nat.go addForwardRules *)
Definition addForwardRules (primaryInterface : string) : Cmds (option error) :=
  let* e := addForwardRuleIdempotent BridgeName primaryInterface "" in
  match e with
  | Some err => ret (Some (Errorf "failed to add forward rule (outbound): %w" [AWrap err]))
  | None =>
      let* e := addForwardRuleIdempotent primaryInterface BridgeName "RELATED,ESTABLISHED" in
      match e with
      | Some err => ret (Some (Errorf "failed to add forward rule (inbound): %w" [AWrap err]))
      | None => ret None
      end
  end.

(* @func internal/network/nat.go SetupNAT *)
Definition SetupNAT (primaryInterface : string) : Cmds (option error) :=
  let* e := enableIPForwarding in
  match e with
  | Some err => ret (Some (Errorf "failed to enable IP forwarding: %w" [AWrap err]))
  | None =>
      let* e := addNATRule primaryInterface in
      match e with
      | Some err => ret (Some (Errorf "failed to add NAT rule: %w" [AWrap err]))
      | None =>
          let* e := addForwardRules primaryInterface in
          match e with
          | Some err => ret (Some (Errorf "failed to add forward rules: %w" [AWrap err]))
          | None => ret None
          end
      end
  end.

(* @func internal/network/nat.go CleanupNAT *)
Definition CleanupNAT (primaryInterface : string) : Cmds (option error) :=
  run "iptables" (nat_args "-D" primaryInterface) ;;;
  run "iptables" (forward_args "-D" BridgeName primaryInterface "") ;;;
  run "iptables" (forward_args "-D" primaryInterface BridgeName "RELATED,ESTABLISHED") ;;;
  ret None.

(* @func internal/network/nat.go CheckIPForwardingEnabled *)
Definition CheckIPForwardingEnabled : Cmds bool :=
  let* ' (out, e) := run_output "sysctl" ["net.ipv4.ip_forward"] in
  match e with
  | Some _ => ret false
  | None => ret (contains "net.ipv4.ip_forward = 1" out)
  end.

(** The word after the first "dev" that has one. *)
Fixpoint dev_of (words : list string) : option string :=
  match words with
  | w :: ((next :: _) as rest) => if String.eqb w "dev" then Some next else dev_of rest
  | _ => None
  end.

Fixpoint first_existing (ifaces : list string) : Cmds (result string) :=
  match ifaces with
  | [] => ret (Err (Errorf "could not detect primary network interface" []))
  | i :: is_ =>
      let* e := run "ip" ["link"; "show"; i] in
      match e with None => ret (Ok i) | Some _ => first_existing is_ end
  end.

(* @func internal/network/nat.go GetPrimaryInterface *)
Definition GetPrimaryInterface : Cmds (result string) :=
  let* ' (output, e) := run_output "ip" ["route"; "show"; "default"] in
  match e with
  | Some err => ret (Err (Errorf "failed to get default route: %w" [AWrap err]))
  | None =>
      match dev_of (fields output) with
      | Some i => ret (Ok i)
      | None => first_existing ["eth0"; "ens3"; "enp0s3"; "ens33"; "wlan0"; "wlp2s0"]
      end
  end.
End Commands.

(** * MAC addresses *)

(** [fmt.Sprintf("%02X", b)] for a byte. *)
Definition hex_upper (z : Z) : ascii :=
  ascii_of_nat (Z.to_nat (if (z <? 10)%Z then z + 48 else z + 55)).
Definition fmt_02X (b : Z) : string :=
  String (hex_upper (b / 16)) (String (hex_upper (b mod 16)) EmptyString).

(** [GenerateMAC] on the three random bytes, or the error of [rand.Read]. *)
(* @func internal/network/helpers.go GenerateMAC *)
Definition GenerateMAC (random : result (Z * Z * Z)) : result string :=
  match random with
  | Err err => Err (Errorf "failed to generate random MAC: %w" [AWrap err])
  | Ok (b0, b1, b2) =>
      Ok ("AA:FC:00:" +:+ fmt_02X b0 +:+ ":" +:+ fmt_02X b1 +:+ ":" +:+ fmt_02X b2)
  end.

(** The loop over the characters: a non-ASCII character fails both tests at
    its first byte, so the loop can go byte by byte. *)
Fixpoint mac_chars (i : nat) (s : string) : bool :=
  match s with
  | EmptyString => true
  | String c s' =>
      (if (i mod 3 =? 2)%nat then Ascii.eqb c ":" else is_hex c) && mac_chars (S i) s'
  end.

(* @func internal/network/helpers.go ValidateMAC *)
Definition ValidateMAC (mac : string) : bool :=
  (String.length mac =? 17)%nat && mac_chars 0 mac.

(** * Properties *)

Lemma fmt_02X_hex b :
  (0 ≤ b < 256)%Z →
  ∃ c d, fmt_02X b = String c (String d "") ∧ is_hex c = true ∧ is_hex d = true.
Proof.
  intros Hb.
  assert (Hall : forallb (λ b, is_hex (hex_upper (b / 16)) && is_hex (hex_upper (b mod 16))) (seqZ 0 256) = true)
    by (vm_compute; reflexivity).
  rewrite forallb_forall in Hall.
  specialize (Hall b). rewrite <- list_elem_of_In, elem_of_seqZ in Hall.
  specialize (Hall ltac:(lia)). apply andb_true_iff in Hall as [H1 H2].
  eexists _, _. split; [reflexivity|done].
Qed.

(** every address [GenerateMAC] builds from three random bytes is accepted
    by [ValidateMAC] and carries the Firecracker prefix. *)
Theorem GenerateMAC_valid (b0 b1 b2 : Z)
    (H0 : (0 ≤ b0 < 256)%Z) (H1 : (0 ≤ b1 < 256)%Z) (H2 : (0 ≤ b2 < 256)%Z) :
  ∃ mac, GenerateMAC (Ok (b0, b1, b2)) = Ok mac ∧
    ValidateMAC mac = true ∧ has_prefix "AA:FC:00:" mac = true.
Proof.
  destruct (fmt_02X_hex b0 H0) as (c0 & d0 & E0 & ? & ?).
  destruct (fmt_02X_hex b1 H1) as (c1 & d1 & E1 & ? & ?).
  destruct (fmt_02X_hex b2 H2) as (c2 & d2 & E2 & ? & ?).
  eexists. split; [reflexivity|]. rewrite E0, E1, E2.
  split; [|apply has_prefix_iff; by eexists].
  unfold ValidateMAC. cbn -[is_hex]. repeat (apply andb_true_iff; split); done.
Qed.

Lemma GenerateMAC_valid_witness :
  ∃ mac, GenerateMAC (Ok (0, 171, 255)%Z) = Ok mac ∧
    ValidateMAC mac = true ∧ has_prefix "AA:FC:00:" mac = true.
Proof. apply (GenerateMAC_valid 0 171 255); lia. Defined.

(** The commands of a run, in order. *)
Definition create_bridge_cmd : command := Cmd "ip" ["link"; "add"; BridgeName; "type"; "bridge"].
Definition delete_bridge_cmd : command := Cmd "ip" ["link"; "delete"; BridgeName].

Lemma ensureBridgeRoute_new `{Host} tr :
  ∃ new, snd (ensureBridgeRoute tr) = tr ++ new ∧
    Forall (λ ev : cmd_event, fst ev ≠ create_bridge_cmd) new.
Proof.
  unfold ensureBridgeRoute, bind, run_output, run, ret; simpl.
  repeat (case_match; simplify_eq; simpl); rewrite <- ?app_assoc; eexists; (split; [reflexivity|]);
    repeat constructor; done.
Qed.

(** [SetupBridge] leaves nothing half-built: when it fails after the
    bridge was created, the last command it runs deletes the bridge. *)
Theorem SetupBridge_no_leak `{Host} (tr new : list cmd_event) (e : error)
    (Hfail : SetupBridge tr = (Some e, tr ++ new))
    (Hcreated : (create_bridge_cmd, None) ∈ new) :
  ∃ pre r, new = pre ++ [(delete_bridge_cmd, r)].
Proof.
  unfold SetupBridge, BridgeExists, bind, run, ret in Hfail.
  repeat split_match_in Hfail; simplify_eq.
  all: try (match goal with E : ensureBridgeRoute ?t = _ |- _ =>
      pose proof (ensureBridgeRoute_new t) as (n & Hn & _); rewrite E in Hn; simpl in Hn end).
  all: subst; rewrite <- ?app_assoc in *; simplify_list_eq.
  all: try (by rewrite !elem_of_cons, elem_of_nil in Hcreated; naive_solver).
  all: first [by eexists [_; _; _], _ | by eexists [_; _; _; _], _
    | by eexists (_ :: _ :: _ :: _ :: n), _].
Qed.

Definition failing_up_host : Host :=
  scripted_host [Cmd "ip" ["link"; "show"; BridgeName]; Cmd "ip" ["link"; "set"; BridgeName; "up"]] "".

Lemma SetupBridge_no_leak_witness :
  ∃ pre r, snd (SetupBridge (H:=failing_up_host) []) = pre ++ [(delete_bridge_cmd, r)].
Proof.
  apply (SetupBridge_no_leak (H:=failing_up_host) [] (snd (SetupBridge (H:=failing_up_host) []))
    (Errorf "failed to bring up bridge %s: %w" [AStr BridgeName; AWrap (ErrorsNew "exit status 1")])).
  - vm_compute. reflexivity.
  - vm_compute. right. left.
Defined.
