(* ===== verification/Egress.v ===== *)
(** Per-VM outbound firewall policy (src/internal/network/egress.go): the
    validation of a policy and the iptables program that installs and removes
    it. *)

From S2P Require Import Prelude GoStrings GoNet Types HostNet.

(* @func internal/network/egress.go normalizedProtocol *)
Definition normalizedProtocol (protocol : string) : string :=
  if String.eqb protocol "" then "tcp" else to_lower protocol.

(* @func internal/network/egress.go egressDefaultAction *)
Definition egressDefaultAction (policy : option EgressPolicy) : string :=
  match policy with
  | None => "deny"
  | Some p => if String.eqb (ep_default_action p) "" then "deny" else to_lower (ep_default_action p)
  end.

(* @func internal/network/egress.go egressChainName *)
Definition egressChainName (vmID : string) : string :=
  "NF-EG-" +:+ String.substring 0 16 (sha256_hex vmID).

(* @func internal/network/egress.go validateEgressDestination *)
Definition validateEgressDestination (destination : string) : option error :=
  if String.eqb destination "" then Some (Errorf "destination is required" [])
  else if ParseIP_ok destination then None
  else ParseCIDR destination.

(* @func internal/network/egress.go validateEgressPort *)
Definition validateEgressPort (port : Z) : option error :=
  if (port <? 1)%Z || (65535 <? port)%Z
  then Some (Errorf "port %d must be between 1 and 65535" [AInt port]) else None.

(* @func internal/network/egress.go validateEgressProtocol *)
Definition validateEgressProtocol (protocol : string) : option error :=
  if String.eqb protocol "tcp" || String.eqb protocol "udp" then None
  else Some (Errorf "protocol %q must be tcp or udp" [AStr protocol]).

(** The loop over [policy.AllowRules], from index [i]. *)
(* @src internal/network/egress.go:184-194 validateEgressPolicy *)
Fixpoint validateAllowRules (i : Z) (rules : list EgressRule) : option error :=
  match rules with
  | [] => None
  | rule :: rules' =>
      match validateEgressDestination (er_cidr rule) with
      | Some err => Some (Errorf "invalid egress allow rule %d CIDR: %w" [AInt i; AWrap err])
      | None =>
          match validateEgressPort (er_port rule) with
          | Some err => Some (Errorf "invalid egress allow rule %d port: %w" [AInt i; AWrap err])
          | None =>
              match validateEgressProtocol (er_protocol rule) with
              | Some err => Some (Errorf "invalid egress allow rule %d protocol: %w" [AInt i; AWrap err])
              | None => validateAllowRules (i + 1) rules'
              end
          end
      end
  end.

(* @src internal/network/egress.go:173-183 validateEgressPolicy *)
Definition validateProxy (proxy : option EgressProxy) : option error :=
  match proxy with
  | None => None
  | Some px =>
      match validateEgressDestination (px_ip px) with
      | Some err => Some (Errorf "invalid egress proxy IP: %w" [AWrap err])
      | None =>
          match validateEgressPort (px_port px) with
          | Some err => Some (Errorf "invalid egress proxy port: %w" [AWrap err])
          | None =>
              match validateEgressProtocol (normalizedProtocol (px_protocol px)) with
              | Some err => Some (Errorf "invalid egress proxy protocol: %w" [AWrap err])
              | None => None
              end
          end
      end
  end.

(* @func internal/network/egress.go validateEgressPolicy *)
Definition validateEgressPolicy (policy : EgressPolicy) : option error :=
  let action := egressDefaultAction (Some policy) in
  if negb (String.eqb action "deny") && negb (String.eqb action "allow") then
    Some (Errorf "egress default_action must be deny or allow" [])
  else if ep_proxy_only policy && match ep_proxy policy with None => true | Some _ => false end then
    Some (Errorf "egress proxy_only requires proxy" [])
  else
    match validateProxy (ep_proxy policy) with
    | Some err => Some err
    | None => validateAllowRules 0 (ep_allow_rules policy)
    end.

(* @func internal/network/egress.go egressJumpRuleArgs *)
Definition egressJumpRuleArgs (chain tapDevice vmIP : string) : list (list string) :=
  [["-i"; BridgeName; "-s"; vmIP; "-j"; chain]] ++
  (if negb (String.eqb tapDevice "")
   then [["-m"; "physdev"; "--physdev-in"; tapDevice; "-s"; vmIP; "-j"; chain]] else []).

(** The arguments of one allow rule. *)
(* @src internal/network/egress.go:155-159 appendAllowRule *)
Definition allow_args (chain protocol destination : string) (port : Z) : list string :=
  ["-A"; chain; "-p"; normalizedProtocol protocol; "-d"; destination; "--dport"; fmt_d port; "-j"; "ACCEPT"].

Section Commands.
Context `{Host}.

Abbreviation Cmds := (State (list cmd_event)).

(* @func internal/network/egress.go enableBridgeNetfilter *)
Definition enableBridgeNetfilter : Cmds (option error) :=
  run "modprobe" ["br_netfilter"] ;;;
  run "sysctl" ["-w"; "net.bridge.bridge-nf-call-iptables=1"].

(** The loop of [cleanupEgressPolicy] over the jump rules. *)
(* @src internal/network/egress.go:109-116 cleanupEgressPolicy *)
Fixpoint delete_jump_rules (rules : list (list string)) (lastErr : option error) : Cmds (option error) :=
  match rules with
  | [] => ret lastErr
  | args :: rules' =>
      let* e := run "iptables" (["-D"; "FORWARD"] ++ args) in
      delete_jump_rules rules' (match e with Some err => Some err | None => lastErr end)
  end.

(* @func internal/network/egress.go cleanupEgressPolicy *)
Definition cleanupEgressPolicy (vmID tapDevice vmIP : string) : Cmds (option error) :=
  if String.eqb vmID "" then ret None
  else
    let chain := egressChainName vmID in
    let* lastErr := delete_jump_rules (egressJumpRuleArgs chain tapDevice vmIP) None in
    let* e := run "iptables" ["-F"; chain] in
    let lastErr := match e with Some err => Some err | None => lastErr end in
    let* e := run "iptables" ["-X"; chain] in
    let lastErr := match e with Some err => Some err | None => lastErr end in
    ret lastErr.

(* @func internal/network/egress.go installEgressJumpRules *)
Definition installEgressJumpRules (chain tapDevice vmIP : string) : Cmds (option error) :=
  for_each_err (egressJumpRuleArgs chain tapDevice vmIP) (λ args,
    run "iptables" (["-D"; "FORWARD"] ++ args) ;;;
    let* e := run "iptables" (["-I"; "FORWARD"; "1"] ++ args) in
    match e with
    | Some err => ret (Some (Errorf "failed to install egress jump rule: %w" [AWrap err]))
    | None => ret None
    end).

(* @func internal/network/egress.go appendAllowRule *)
Definition appendAllowRule (chain protocol destination : string) (port : Z) : Cmds (option error) :=
  let* e := run "iptables" (allow_args chain protocol destination port) in
  match e with
  | Some err =>
      ret (Some (Errorf "failed to append egress allow rule for %s/%s:%d: %w"
        [AStr protocol; AStr destination; AInt port; AWrap err]))
  | None => ret None
  end.

(** The rules of the policy, in the order the code appends them: DNS, the
    proxy, then the allow rules unless the policy is proxy-only. *)
(* @src internal/network/egress.go:60-86 setupEgressPolicy *)
Definition policy_rules (gateway : string) (policy : EgressPolicy) : list (string * string * Z) :=
  (if ep_allow_dns policy then [("udp", gateway, 53%Z); ("tcp", gateway, 53%Z)] else []) ++
  (match ep_proxy policy with
   | Some px => [(normalizedProtocol (px_protocol px), px_ip px, px_port px)] | None => [] end) ++
  (if negb (ep_proxy_only policy)
   then (λ r, (er_protocol r, er_cidr r, er_port r)) <$> ep_allow_rules policy else []).

(** From the jump rules on, every failure removes what was installed. *)
(* @src internal/network/egress.go:55-100 setupEgressPolicy *)
Definition fill_egress_chain (vmID tapDevice vmIP gateway : string) (policy : EgressPolicy) :
    Cmds (option error) :=
  let chain := egressChainName vmID in
  let* e := installEgressJumpRules chain tapDevice vmIP in
  match e with
  | Some err => cleanupEgressPolicy vmID tapDevice vmIP ;;; ret (Some err)
  | None =>
      let* e := for_each_err (policy_rules gateway policy) (λ '(proto, dest, port),
        appendAllowRule chain proto dest port) in
      match e with
      | Some err => cleanupEgressPolicy vmID tapDevice vmIP ;;; ret (Some err)
      | None =>
          if String.eqb (egressDefaultAction (Some policy)) "allow" then
            let* e := run "iptables" ["-A"; chain; "-j"; "ACCEPT"] in
            match e with
            | Some err =>
                cleanupEgressPolicy vmID tapDevice vmIP ;;;
                ret (Some (Errorf "failed to append egress accept rule: %w" [AWrap err]))
            | None => ret None
            end
          else
            let* e := run "iptables" ["-A"; chain; "-j"; "DROP"] in
            match e with
            | Some err =>
                cleanupEgressPolicy vmID tapDevice vmIP ;;;
                ret (Some (Errorf "failed to append egress drop rule: %w" [AWrap err]))
            | None => ret None
            end
      end
  end.

(* @func internal/network/egress.go setupEgressPolicy *)
Definition setupEgressPolicy (vmID tapDevice vmIP gateway : string) (policy : option EgressPolicy) :
    Cmds (option error) :=
  match policy with
  | None => ret None
  | Some policy =>
      if negb (ep_enabled policy) then ret None
      else
        match validateEgressPolicy policy with
        | Some err => ret (Some err)
        | None =>
            if String.eqb vmID "" || String.eqb vmIP "" then
              ret (Some (Errorf "vmID and vmIP are required for egress policy" []))
            else
              let* e := enableBridgeNetfilter in
              match e with
              | Some err =>
                  ret (Some (Errorf "failed to enable bridge netfilter for egress policy: %w" [AWrap err]))
              | None =>
                  let chain := egressChainName vmID in
                  run "iptables" ["-N"; chain] ;;;
                  let* e := run "iptables" ["-F"; chain] in
                  match e with
                  | Some err => ret (Some (Errorf "failed to flush egress chain %s: %w" [AStr chain; AWrap err]))
                  | None => fill_egress_chain vmID tapDevice vmIP gateway policy
                  end
              end
        end
  end.
End Commands.

(** * The program a policy compiles to *)

Definition iptables (args : list string) : command := Cmd "iptables" args.

(** Install the jump rules: each is deleted (if there) and inserted on top. *)
Definition jump_program (chain tapDevice vmIP : string) : list command :=
  egressJumpRuleArgs chain tapDevice vmIP ≫= λ args,
    [iptables (["-D"; "FORWARD"] ++ args); iptables (["-I"; "FORWARD"; "1"] ++ args)].

Definition rules_program (chain gateway : string) (policy : EgressPolicy) : list command :=
  (λ '(proto, dest, port), iptables (allow_args chain proto dest port)) <$> policy_rules gateway policy.

Definition default_rule (chain : string) (policy : EgressPolicy) : command :=
  iptables ["-A"; chain; "-j";
    if String.eqb (egressDefaultAction (Some policy)) "allow" then "ACCEPT" else "DROP"].

(** The whole program: netfilter, an empty chain, the jumps to it, one ACCEPT
    per rule, and last the default verdict. *)
Definition egress_program (vmID tapDevice vmIP gateway : string) (policy : EgressPolicy) : list command :=
  let chain := egressChainName vmID in
  [Cmd "modprobe" ["br_netfilter"]; Cmd "sysctl" ["-w"; "net.bridge.bridge-nf-call-iptables=1"];
   iptables ["-N"; chain]; iptables ["-F"; chain]] ++
  jump_program chain tapDevice vmIP ++ rules_program chain gateway policy ++ [default_rule chain policy].

(** What a failed set-up must end with. *)
Definition cleanup_program (vmID tapDevice vmIP : string) : list command :=
  let chain := egressChainName vmID in
  ((λ args, iptables (["-D"; "FORWARD"] ++ args)) <$> egressJumpRuleArgs chain tapDevice vmIP) ++
  [iptables ["-F"; chain]; iptables ["-X"; chain]].

(** * Lemmas: the commands each part runs *)

(** The commands whose failure the code deliberately ignores: loading the
    module, creating a chain that may exist, deleting a rule that may not. *)
Definition best_effort (c : command) : bool :=
  String.eqb (cmd_name c) "modprobe" ||
  match cmd_args c with f :: _ => String.eqb f "-N" || String.eqb f "-D" | [] => false end.

Definition event_ok (ev : cmd_event) : Prop := best_effort (fst ev) = false → snd ev = None.

(** [m] either returns nil after running exactly [prog], every command that is
    not best effort having succeeded, or returns an error. *)
Definition installs (prog : list command) (m : State (list cmd_event) (option error)) : Prop :=
  ∀ tr, (∃ new, m tr = (None, tr ++ new) ∧ fst <$> new = prog ∧ Forall event_ok new) ∨
        (∃ e new, m tr = (Some e, tr ++ new)).

Section Lemmas.
Context `{Host}.

Lemma installs_run name args : installs [Cmd name args] (run name args).
Proof.
  intros tr. unfold run. destruct (host_run tr (Cmd name args)) as [e|] eqn:E.
  - right. by eexists _, _.
  - left. eexists. split_and!; [reflexivity..|]. by repeat constructor.
Qed.

Lemma installs_ignored name args k prog :
  best_effort (Cmd name args) = true → installs prog k →
  installs (Cmd name args :: prog) (run name args ;;; k).
Proof.
  intros Hb Hk tr. unfold bind, run.
  destruct (Hk (tr ++ [(Cmd name args, host_run tr (Cmd name args))])) as [(n & -> & <- & Ho)|(e & n & ->)].
  - left. eexists. rewrite <- app_assoc. split_and!; [reflexivity..|].
    constructor; [|done]. intros Hc. cbn [fst] in Hc. congruence.
  - right. eexists _, _. by rewrite <- app_assoc.
Qed.

(** [if err := m; err != nil { return ... }; k] *)
Lemma installs_then m k fail prog1 prog2 :
  installs prog1 m → installs prog2 k →
  (∀ e tr, ∃ e' new, fail e tr = (Some e', tr ++ new)) →
  installs (prog1 ++ prog2)
    (bind m (λ e, match e with Some err => fail err | None => k end)).
Proof.
  intros Hm Hk Hf tr. unfold bind.
  destruct (Hm tr) as [(n1 & -> & <- & Ho1)|(e & n1 & ->)].
  - destruct (Hk (tr ++ n1)) as [(n2 & -> & <- & Ho2)|(e & n2 & ->)].
    + left. exists (n1 ++ n2). rewrite app_assoc, fmap_app. by rewrite Forall_app.
    + right. eexists _, _. by rewrite <- app_assoc.
  - right. destruct (Hf e (tr ++ n1)) as (e' & n2 & ->). eexists _, _. by rewrite <- app_assoc.
Qed.

Lemma installs_nil : installs [] (ret None).
Proof. intros tr. left. exists []. by rewrite app_nil_r. Qed.

Lemma installs_for_each {A} (l : list A) body (prog : A → list command) :
  (∀ a, installs (prog a) (body a)) → installs (l ≫= prog) (for_each_err l body).
Proof.
  intros Hb. induction l as [|a l IH]; [apply installs_nil|].
  rewrite bind_cons.
  apply (installs_then (body a) (for_each_err l body) (λ e, ret (Some e)) (prog a) (l ≫= prog)); [done..|].
  intros e tr. exists e, []. by rewrite app_nil_r.
Qed.

Lemma fail_returns (f : error → error) (e : error) (tr : list cmd_event) :
  ∃ e' new, ret (Some (f e)) tr = (Some e', tr ++ new).
Proof. exists (f e), []. by rewrite app_nil_r. Qed.

Lemma installs_wrapped name args (f : error → error) :
  installs [Cmd name args]
    (bind (run name args) (λ e, match e with Some err => ret (Some (f err)) | None => ret None end)).
Proof.
  apply (installs_then _ _ _ [Cmd name args] []); [apply installs_run|apply installs_nil|].
  apply fail_returns.
Qed.

Lemma installs_jumps chain tapDevice vmIP :
  installs (jump_program chain tapDevice vmIP) (installEgressJumpRules chain tapDevice vmIP).
Proof.
  apply (installs_for_each _ _ (λ args, [iptables (["-D"; "FORWARD"] ++ args);
    iptables (["-I"; "FORWARD"; "1"] ++ args)])). intros args.
  apply installs_ignored; [done|]. apply installs_wrapped.
Qed.

Lemma installs_rules chain gateway policy :
  installs (rules_program chain gateway policy)
    (for_each_err (policy_rules gateway policy) (λ '(proto, dest, port), appendAllowRule chain proto dest port)).
Proof.
  replace (rules_program chain gateway policy) with
    (policy_rules gateway policy ≫= λ '(proto, dest, port), [iptables (allow_args chain proto dest port)]).
  - apply (installs_for_each _ _ (λ '(proto, dest, port), [iptables (allow_args chain proto dest port)])).
    intros [[proto dest] port]. apply installs_wrapped.
  - unfold rules_program. induction (policy_rules gateway policy) as [|[[p d] q] l IH]; [done|].
    rewrite bind_cons, fmap_cons, IH. done.
Qed.

(** Cleaning up runs all of its program, whatever fails. *)
Lemma delete_jump_rules_runs rules last tr :
  ∃ r new, delete_jump_rules rules last tr = (r, tr ++ new) ∧
    fst <$> new = (λ args, iptables (["-D"; "FORWARD"] ++ args)) <$> rules.
Proof.
  revert last tr. induction rules as [|args rules IH]; intros last tr; simpl.
  - exists last, []. by rewrite app_nil_r.
  - unfold bind, run. set (c := Cmd "iptables" ("-D" :: "FORWARD" :: args)).
    destruct (IH (match host_run tr c with Some err => Some err | None => last end)
      (tr ++ [(c, host_run tr c)])) as (r & new & E & Hn).
    exists r, ((c, host_run tr c) :: new). rewrite E, <- app_assoc. split; [done|].
    rewrite fmap_cons, Hn. done.
Qed.

Lemma cleanup_runs vmID tapDevice vmIP tr :
  vmID ≠ "" →
  ∃ r new, cleanupEgressPolicy vmID tapDevice vmIP tr = (r, tr ++ new) ∧
    fst <$> new = cleanup_program vmID tapDevice vmIP.
Proof.
  intros Hid. unfold cleanupEgressPolicy, cleanup_program. apply String.eqb_neq in Hid as ->.
  destruct (delete_jump_rules_runs (egressJumpRuleArgs (egressChainName vmID) tapDevice vmIP) None tr)
    as (r1 & n1 & E1 & Hn1).
  unfold bind, run, ret. rewrite E1. eexists _, (n1 ++ [_; _]).
  rewrite <- !app_assoc. split; [reflexivity|]. by rewrite fmap_app, Hn1.
Qed.

(** [m] returns nil, or returns an error with the clean-up as its last act. *)
Definition cleans_up (vmID tapDevice vmIP : string) (m : State (list cmd_event) (option error)) : Prop :=
  ∀ tr, ∃ r new, m tr = (r, tr ++ new) ∧
    (r = None ∨ ∃ pre, fst <$> new = pre ++ cleanup_program vmID tapDevice vmIP).

Lemma cleans_up_fail vmID tapDevice vmIP (e : error) tr :
  vmID ≠ "" →
  ∃ new, (cleanupEgressPolicy vmID tapDevice vmIP ;;; ret (Some e)) tr = (Some e, tr ++ new) ∧
    fst <$> new = cleanup_program vmID tapDevice vmIP.
Proof.
  intros Hid. destruct (cleanup_runs vmID tapDevice vmIP tr Hid) as (r & n & E & Hn).
  exists n. unfold bind. by rewrite E.
Qed.

Lemma cleans_up_then vmID tapDevice vmIP prog m k (f : error → error) :
  vmID ≠ "" → installs prog m → cleans_up vmID tapDevice vmIP k →
  cleans_up vmID tapDevice vmIP
    (bind m (λ e, match e with
       | Some err => cleanupEgressPolicy vmID tapDevice vmIP ;;; ret (Some (f err))
       | None => k end)).
Proof.
  intros Hid Hm Hk tr. unfold bind at 1.
  destruct (Hm tr) as [(n1 & -> & _ & _)|(e & n1 & ->)].
  - destruct (Hk (tr ++ n1)) as (r & n2 & -> & Hr). exists r, (n1 ++ n2). rewrite app_assoc.
    split; [done|]. destruct Hr as [?|[pre Hp]]; [by left|right].
    exists ((fst <$> n1) ++ pre). by rewrite fmap_app, Hp, app_assoc.
  - destruct (cleans_up_fail vmID tapDevice vmIP (f e) (tr ++ n1) Hid) as (n2 & -> & Hn).
    eexists _, (n1 ++ n2). rewrite app_assoc. split; [done|right].
    exists (fst <$> n1). by rewrite fmap_app, Hn.
Qed.

Lemma cleans_up_nil vmID tapDevice vmIP : cleans_up vmID tapDevice vmIP (ret None).
Proof. intros tr. exists None, []. rewrite app_nil_r. by split; [|left]. Qed.
End Lemmas.

#[export] Hint Resolve installs_run installs_nil installs_jumps installs_rules cleans_up_nil : go.

Section Setup.
Context `{Host}.

(** Everything [setupEgressPolicy] does once the policy has been accepted. *)
Lemma installs_fill vmID tapDevice vmIP gateway policy :
  vmID ≠ "" →
  installs (jump_program (egressChainName vmID) tapDevice vmIP ++
            rules_program (egressChainName vmID) gateway policy ++
            [default_rule (egressChainName vmID) policy])
    (fill_egress_chain vmID tapDevice vmIP gateway policy).
Proof.
  intros Hid. unfold fill_egress_chain.
  assert (Hf : ∀ (f : error → error) (e : error) (tr : list cmd_event), ∃ e' new,
    (cleanupEgressPolicy vmID tapDevice vmIP ;;; ret (Some (f e))) tr = (Some e', tr ++ new)).
  { intros f e tr. destruct (cleans_up_fail vmID tapDevice vmIP (f e) tr Hid) as (n & E & _).
    by exists (f e), n. }
  apply (installs_then _ _ (λ err, cleanupEgressPolicy vmID tapDevice vmIP ;;; ret (Some err)));
    [auto with go| |apply (Hf id)].
  apply (installs_then _ _ (λ err, cleanupEgressPolicy vmID tapDevice vmIP ;;; ret (Some err)));
    [auto with go| |apply (Hf id)].
  unfold default_rule.
  destruct (String.eqb (egressDefaultAction (Some policy)) "allow");
    apply (installs_then _ _ (λ err, cleanupEgressPolicy vmID tapDevice vmIP ;;; ret (Some (Errorf _ [AWrap err]))) [_] []);
    [apply installs_run|apply installs_nil|apply (Hf (λ e, Errorf _ [AWrap e]))
    |apply installs_run|apply installs_nil|apply (Hf (λ e, Errorf _ [AWrap e]))].
Qed.

Lemma cleans_up_fill vmID tapDevice vmIP gateway policy :
  vmID ≠ "" → cleans_up vmID tapDevice vmIP (fill_egress_chain vmID tapDevice vmIP gateway policy).
Proof.
  intros Hid. unfold fill_egress_chain.
  eapply (cleans_up_then _ _ _ _ _ _ id); [done|auto with go|].
  eapply (cleans_up_then _ _ _ _ _ _ id); [done|auto with go|].
  destruct (String.eqb (egressDefaultAction (Some policy)) "allow");
    eapply (cleans_up_then _ _ _ _ _ _ (λ e, Errorf _ [AWrap e])); auto using installs_run, cleans_up_nil.
Qed.

(** An accepted, enabled policy reaches the command sequence. *)
Lemma setup_accepted vmID tapDevice vmIP gateway policy :
  ep_enabled policy = true → validateEgressPolicy policy = None → vmID ≠ "" → vmIP ≠ "" →
  setupEgressPolicy vmID tapDevice vmIP gateway (Some policy) =
  (let* e := enableBridgeNetfilter in
   match e with
   | Some err => ret (Some (Errorf "failed to enable bridge netfilter for egress policy: %w" [AWrap err]))
   | None =>
       run "iptables" ["-N"; egressChainName vmID] ;;;
       let* e := run "iptables" ["-F"; egressChainName vmID] in
       match e with
       | Some err => ret (Some (Errorf "failed to flush egress chain %s: %w" [AStr (egressChainName vmID); AWrap err]))
       | None => fill_egress_chain vmID tapDevice vmIP gateway policy
       end
   end).
Proof.
  intros He Hv Hi Hp. unfold setupEgressPolicy. rewrite He, Hv. simpl.
  apply String.eqb_neq in Hi as ->, Hp as ->. done.
Qed.

Lemma installs_setup vmID tapDevice vmIP gateway policy :
  ep_enabled policy = true → validateEgressPolicy policy = None → vmID ≠ "" → vmIP ≠ "" →
  installs (egress_program vmID tapDevice vmIP gateway policy)
    (setupEgressPolicy vmID tapDevice vmIP gateway (Some policy)).
Proof.
  intros He Hv Hi Hp. rewrite setup_accepted by done.
  apply (installs_then _ _ (λ err, ret (Some (Errorf _ [AWrap err])))
    [Cmd "modprobe" ["br_netfilter"]; Cmd "sysctl" ["-w"; "net.bridge.bridge-nf-call-iptables=1"]]).
  - apply installs_ignored; [done|]. apply installs_run.
  - apply installs_ignored; [done|].
    apply (installs_then _ _ (λ err, ret (Some (Errorf _ [AStr _; AWrap err])))
      [iptables ["-F"; egressChainName vmID]]); [apply installs_run|by apply installs_fill|].
    apply (fail_returns (λ e, Errorf _ [_; AWrap e])).
  - apply (fail_returns (λ e, Errorf _ [AWrap e])).
Qed.
End Setup.

(** * Properties *)

(** when [setupEgressPolicy] returns nil for an enabled policy, the policy
    was valid and the commands run are exactly the program of the policy: an
    emptied chain, the jumps to it, one ACCEPT per rule in order, and last the
    default verdict (DROP unless the default action is allow); every command
    but the best-effort ones succeeded. *)
Theorem setupEgressPolicy_installs `{Host} (vmID tapDevice vmIP gateway : string)
    (policy : EgressPolicy) (tr tr' : list cmd_event)
    (Hen : ep_enabled policy = true)
    (Hok : setupEgressPolicy vmID tapDevice vmIP gateway (Some policy) tr = (None, tr')) :
  validateEgressPolicy policy = None ∧
  ∃ new, tr' = tr ++ new ∧ fst <$> new = egress_program vmID tapDevice vmIP gateway policy ∧
         Forall event_ok new.
Proof.
  destruct (validateEgressPolicy policy) as [e|] eqn:Hv.
  { exfalso. unfold setupEgressPolicy in Hok. rewrite Hen, Hv in Hok. done. }
  destruct (decide (vmID = "")) as [->|Hi].
  { exfalso. unfold setupEgressPolicy in Hok. by rewrite Hen, Hv in Hok. }
  destruct (decide (vmIP = "")) as [->|Hp].
  { exfalso. unfold setupEgressPolicy in Hok. rewrite Hen, Hv in Hok. simpl in Hok.
    by rewrite orb_true_r in Hok. }
  split; [done|].
  destruct (installs_setup vmID tapDevice vmIP gateway policy Hen Hv Hi Hp tr)
    as [(n & E & Hn & Ho)|(e & n & E)]; rewrite E in Hok; simplify_eq.
  by exists n.
Qed.

Definition example_policy : EgressPolicy :=
  mkEgress true "" true false (Some (mkProxy "172.16.0.1" 3128 "")) [mkRule "10.0.0.0/8" "tcp" 443 ""].

Lemma setupEgressPolicy_installs_witness :
  let h := scripted_host [iptables ["-N"; egressChainName "vm-1"]] "" in
  validateEgressPolicy example_policy = None ∧
  ∃ new, snd (setupEgressPolicy (H:=h) "vm-1" "tap-vm" "172.16.0.10" "172.16.0.1" (Some example_policy) []) = [] ++ new ∧
    fst <$> new = egress_program "vm-1" "tap-vm" "172.16.0.10" "172.16.0.1" example_policy ∧ Forall event_ok new.
Proof.
  apply (setupEgressPolicy_installs (H:=scripted_host [iptables ["-N"; egressChainName "vm-1"]] "")
    "vm-1" "tap-vm" "172.16.0.10" "172.16.0.1" example_policy []).
  - reflexivity.
  - vm_compute. reflexivity.
Defined.

(** when [setupEgressPolicy] fails for a VM with an id, either it stopped
    before touching the forwarding rules (no jump rule was installed), or its
    last commands are the whole clean-up program, which deletes every jump
    rule, flushes the chain and removes it. *)
Theorem setupEgressPolicy_cleans_up `{Host} (vmID tapDevice vmIP gateway : string)
    (policy : EgressPolicy) (tr tr' : list cmd_event) (e : error)
    (Hid : vmID ≠ "")
    (Hfail : setupEgressPolicy vmID tapDevice vmIP gateway (Some policy) tr = (Some e, tr')) :
  ∃ new, tr' = tr ++ new ∧
    ((fst <$> new) `prefix_of`
       [Cmd "modprobe" ["br_netfilter"]; Cmd "sysctl" ["-w"; "net.bridge.bridge-nf-call-iptables=1"];
        iptables ["-N"; egressChainName vmID]; iptables ["-F"; egressChainName vmID]] ∨
     ∃ pre, fst <$> new = pre ++ cleanup_program vmID tapDevice vmIP).
Proof.
  destruct (ep_enabled policy) eqn:Hen.
  2:{ unfold setupEgressPolicy in Hfail. rewrite Hen in Hfail. done. }
  destruct (validateEgressPolicy policy) as [ev|] eqn:Hv.
  { unfold setupEgressPolicy in Hfail. rewrite Hen, Hv in Hfail. simpl in Hfail. injection Hfail as <- <-.
    exists []. rewrite app_nil_r. split; [done|left]. apply prefix_nil. }
  destruct (decide (vmIP = "")) as [->|Hp].
  { unfold setupEgressPolicy in Hfail. rewrite Hen, Hv in Hfail. simpl in Hfail.
    rewrite orb_true_r in Hfail. injection Hfail as <- <-.
    exists []. rewrite app_nil_r. split; [done|left]. apply prefix_nil. }
  rewrite setup_accepted in Hfail by done. unfold enableBridgeNetfilter, bind, run in Hfail.
  split_match_in Hfail.
  { injection Hfail as <- <-. eexists. rewrite <- app_assoc. split; [reflexivity|left].
    by eexists [_; _]. }
  split_match_in Hfail.
  { injection Hfail as <- <-. eexists. rewrite <- !app_assoc. split; [reflexivity|left].
    by eexists []. }
  match type of Hfail with fill_egress_chain _ _ _ _ _ ?t = _ =>
    destruct (cleans_up_fill vmID tapDevice vmIP gateway policy Hid t) as (r & n & En & Hr) end.
  rewrite En in Hfail. injection Hfail as -> <-.
  eexists. rewrite <- !app_assoc. split; [reflexivity|right].
  destruct Hr as [?|[pre Hp']]; [done|]. rewrite !fmap_app, Hp'. by eexists ([_; _; _; _] ++ pre).
Qed.

Lemma setupEgressPolicy_cleans_up_witness :
  let h := scripted_host [iptables ["-A"; egressChainName "vm-1"; "-j"; "DROP"]] "" in
  ∃ new, snd (setupEgressPolicy (H:=h) "vm-1" "tap-vm" "172.16.0.10" "172.16.0.1" (Some example_policy) []) = [] ++ new ∧
    ((fst <$> new) `prefix_of`
       [Cmd "modprobe" ["br_netfilter"]; Cmd "sysctl" ["-w"; "net.bridge.bridge-nf-call-iptables=1"];
        iptables ["-N"; egressChainName "vm-1"]; iptables ["-F"; egressChainName "vm-1"]] ∨
     ∃ pre, fst <$> new = pre ++ cleanup_program "vm-1" "tap-vm" "172.16.0.10").
Proof.
  apply (setupEgressPolicy_cleans_up (H:=scripted_host [iptables ["-A"; egressChainName "vm-1"; "-j"; "DROP"]] "")
    "vm-1" "tap-vm" "172.16.0.10" "172.16.0.1" example_policy [] _
    (Errorf "failed to append egress drop rule: %w" [AWrap (ErrorsNew "exit status 1")])).
  - done.
  - vm_compute. reflexivity.
Defined.

(** an accepted policy only lets through what it names: each rule the
    program appends before the default verdict has protocol tcp or udp and a
    port in 1..65535, and it is the gateway's DNS, the proxy, or (unless the
    policy is proxy-only) one of the allow rules. *)
Theorem policy_rules_sound (gateway : string) (policy : EgressPolicy)
    (Hv : validateEgressPolicy policy = None) (proto dest : string) (port : Z)
    (Hr : (proto, dest, port) ∈ policy_rules gateway policy) :
  (proto = "tcp" ∨ proto = "udp") ∧ (1 ≤ port ≤ 65535)%Z ∧
  ((ep_allow_dns policy = true ∧ dest = gateway ∧ port = 53%Z) ∨
   (∃ px, ep_proxy policy = Some px ∧ dest = px_ip px ∧ port = px_port px) ∨
   (ep_proxy_only policy = false ∧
    ∃ r, r ∈ ep_allow_rules policy ∧ dest = er_cidr r ∧ port = er_port r ∧ proto = er_protocol r)).
Proof.
  assert (Hport : ∀ p, validateEgressPort p = None → (1 ≤ p ≤ 65535)%Z).
  { intros p. unfold validateEgressPort. destruct (p <? 1)%Z eqn:?, (65535 <? p)%Z eqn:?; simpl; try done. lia. }
  assert (Hproto : ∀ p, validateEgressProtocol p = None → p = "tcp" ∨ p = "udp").
  { intros p. unfold validateEgressProtocol.
    destruct (String.eqb_spec p "tcp"), (String.eqb_spec p "udp"); simpl; auto; done. }
  assert (Hpx : validateProxy (ep_proxy policy) = None ∧ validateAllowRules 0 (ep_allow_rules policy) = None).
  { unfold validateEgressPolicy in Hv. case_match; [done|]. case_match; [done|].
    by destruct (validateProxy _). }
  clear Hv. destruct Hpx as [Hpx Hv]. unfold policy_rules in Hr. rewrite !elem_of_app in Hr. destruct Hr as [Hr|[Hr|Hr]].
  - destruct (ep_allow_dns policy); [|by apply elem_of_nil in Hr].
    rewrite !elem_of_cons, elem_of_nil in Hr. naive_solver lia.
  - destruct (ep_proxy policy) as [px|]; [|by apply elem_of_nil in Hr].
    apply list_elem_of_singleton in Hr as [= -> -> ->]. unfold validateProxy in Hpx.
    repeat case_match; try done. naive_solver.
  - destruct (ep_proxy_only policy); simpl in Hr; [by apply elem_of_nil in Hr|].
    apply list_elem_of_fmap in Hr as (r & [= -> -> ->] & Hr).
    enough (Hgen : ∀ i, validateAllowRules i (ep_allow_rules policy) = None →
      (er_protocol r = "tcp" ∨ er_protocol r = "udp") ∧ (1 ≤ er_port r ≤ 65535)%Z) by naive_solver.
    clear Hv. induction (ep_allow_rules policy) as [|r' l IH]; [by apply elem_of_nil in Hr|].
    intros i. simpl. repeat case_match; try done.
    apply elem_of_cons in Hr as [->|Hr]; [split; auto|by apply IH].
Qed.

Lemma policy_rules_sound_witness :
  ("tcp" = "tcp" ∨ "tcp" = "udp") ∧ (1 ≤ 443 ≤ 65535)%Z ∧
  ((ep_allow_dns example_policy = true ∧ "10.0.0.0/8" = "172.16.0.1" ∧ 443%Z = 53%Z) ∨
   (∃ px, ep_proxy example_policy = Some px ∧ "10.0.0.0/8" = px_ip px ∧ 443%Z = px_port px) ∨
   (ep_proxy_only example_policy = false ∧
    ∃ r, r ∈ ep_allow_rules example_policy ∧ "10.0.0.0/8" = er_cidr r ∧ 443%Z = er_port r ∧ "tcp" = er_protocol r)).
Proof.
  apply (policy_rules_sound "172.16.0.1" example_policy).
  - vm_compute. reflexivity.
  - vm_compute. right. right. right. left.
Defined.
