(* ===== verification/PortForward.v ===== *)
(** Port forwards (src/internal/network/portforward.go): the five iptables
    rules of a forward, their installation with roll-back, and their removal. *)

From S2P Require Import Prelude GoStrings Types HostNet Egress.

(* @func internal/network/portforward.go ValidatePortForward *)
Definition ValidatePortForward (pf : PortForward) : option error :=
  if (HostPort pf <? 1)%Z || (65535 <? HostPort pf)%Z then
    Some (Errorf "invalid host port %d: must be between 1 and 65535" [AInt (HostPort pf)])
  else if (VMPort pf <? 1)%Z || (65535 <? VMPort pf)%Z then
    Some (Errorf "invalid VM port %d: must be between 1 and 65535" [AInt (VMPort pf)])
  else if negb (String.eqb (Protocol pf) "tcp") && negb (String.eqb (Protocol pf) "udp") then
    Some (Errorf "invalid protocol %q: must be 'tcp' or 'udp'" [AStr (Protocol pf)])
  else None.

(** An iptables rule: the table arguments, the chain and the rule
    specification; the flag decides whether it is checked, added or deleted. *)
Record ipt_rule : Type := mkIpt { ipt_table : list string; ipt_chain : string; ipt_spec : list string }.

Definition rule_check (r : ipt_rule) : list string := ipt_table r ++ ["-C"; ipt_chain r] ++ ipt_spec r.
Definition rule_insert (r : ipt_rule) : list string := ipt_table r ++ ["-I"; ipt_chain r; "1"] ++ ipt_spec r.
Definition rule_append (r : ipt_rule) : list string := ipt_table r ++ ["-A"; ipt_chain r] ++ ipt_spec r.
Definition rule_delete (r : ipt_rule) : list string := ipt_table r ++ ["-D"; ipt_chain r] ++ ipt_spec r.

(** The rules of one forward. *)

Definition pf_destination (vmIP : string) (pf : PortForward) : string := vmIP +:+ ":" +:+ fmt_d (VMPort pf).

(* @src internal/network/portforward.go:78-80 addPortForwardRule *)
Definition prerouting_rule (vmIP : string) (pf : PortForward) : ipt_rule :=
  mkIpt ["-t"; "nat"] "PREROUTING"
    ["-p"; Protocol pf; "--dport"; fmt_d (HostPort pf); "-j"; "DNAT"; "--to-destination"; pf_destination vmIP pf].

(* @src internal/network/portforward.go:98-101 addPortForwardRule *)
Definition output_rule (vmIP : string) (pf : PortForward) : ipt_rule :=
  mkIpt ["-t"; "nat"] "OUTPUT"
    ["-d"; "127.0.0.1"; "-p"; Protocol pf; "--dport"; fmt_d (HostPort pf);
     "-j"; "DNAT"; "--to-destination"; pf_destination vmIP pf].

(* @src internal/network/portforward.go:119-121 addPortForwardRule *)
Definition forward_rule (vmIP : string) (pf : PortForward) : ipt_rule :=
  mkIpt [] "FORWARD" ["-p"; Protocol pf; "-d"; vmIP; "--dport"; fmt_d (VMPort pf); "-j"; "ACCEPT"].

(* @src internal/network/portforward.go:143-145 addPortForwardRule *)
Definition masquerade_rule (vmIP : string) (pf : PortForward) : ipt_rule :=
  mkIpt ["-t"; "nat"] "POSTROUTING"
    ["-p"; Protocol pf; "-d"; vmIP; "--dport"; fmt_d (VMPort pf); "-j"; "MASQUERADE"].

(* @src internal/network/portforward.go:173-177 addPortForwardRule *)
Definition snat_rule (vmIP : string) (pf : PortForward) : ipt_rule :=
  mkIpt ["-t"; "nat"] "POSTROUTING"
    ["-o"; "nanofuse0"; "-p"; Protocol pf; "-d"; vmIP; "--dport"; fmt_d (VMPort pf);
     "-j"; "SNAT"; "--to-source"; "172.16.0.1"].

Section Commands.
Context `{Host}.

Abbreviation Cmds := (State (list cmd_event)).

Definition ipt (args : list string) : Cmds (option error) := run "iptables" args.

(** Delete rules, ignoring the outcomes. *)
Fixpoint delete_rules (rules : list ipt_rule) : Cmds unit :=
  match rules with
  | [] => ret tt
  | r :: rules' => ipt (rule_delete r) ;;; delete_rules rules'
  end.

(** [if check.Run() != nil { if err := add.Run(); err != nil { delete the
    rules added before; return err } }; k] *)
(* @src internal/network/portforward.go:90-110 addPortForwardRule *)
Definition ensure_rule (r : ipt_rule) (add : ipt_rule → list string) (undo : list ipt_rule)
    (msg : string) (k : Cmds (option error)) : Cmds (option error) :=
  let* c := ipt (rule_check r) in
  match c with
  | None => k
  | Some _ =>
      let* e := ipt (add r) in
      match e with
      | Some err => delete_rules undo ;;; ret (Some (Errorf msg [AWrap err]))
      | None => k
      end
  end.

(* @func internal/network/portforward.go addPortForwardRule *)
Definition addPortForwardRule (vmIP : string) (pf : PortForward) : Cmds (option error) :=
  let pre := prerouting_rule vmIP pf in
  let out := output_rule vmIP pf in
  let fwd := forward_rule vmIP pf in
  let masq := masquerade_rule vmIP pf in
  let snat := snat_rule vmIP pf in
  let* c := ipt (rule_check pre) in
  match c with
  | None => ret None
  | Some _ =>
      let* e := ipt (rule_insert pre) in
      match e with
      | Some err => ret (Some (Errorf "failed to add PREROUTING rule: %w" [AWrap err]))
      | None =>
          ensure_rule out rule_insert [pre] "failed to add OUTPUT rule for localhost: %w" (
          ensure_rule fwd rule_append [pre; out] "failed to add FORWARD rule: %w" (
          ensure_rule masq rule_append [pre; out; fwd] "failed to add MASQUERADE rule: %w" (
          ensure_rule snat rule_append [pre; out; fwd; masq] "failed to add SNAT rule for localhost: %w" (
          ret None))))
      end
  end.

(* @func internal/network/portforward.go removePortForwardRule *)
Definition removePortForwardRule (vmIP : string) (pf : PortForward) : Cmds (option error) :=
  ipt (rule_delete (prerouting_rule vmIP pf)) ;;;
  ipt (rule_delete (output_rule vmIP pf)) ;;;
  ipt (rule_delete (masquerade_rule vmIP pf)) ;;;
  ipt (rule_delete (snat_rule vmIP pf)) ;;;
  ret None.

Fixpoint cleanup_loop (vmIP : string) (lastErr : option error) (pfs : list PortForward) : Cmds (option error) :=
  match pfs with
  | [] => ret lastErr
  | pf :: pfs' =>
      let* e := removePortForwardRule vmIP pf in
      cleanup_loop vmIP (match e with Some err => Some err | None => lastErr end) pfs'
  end.

(* @func internal/network/portforward.go CleanupPortForwards *)
Definition CleanupPortForwards (vmIP : string) (portForwards : list PortForward) : Cmds (option error) :=
  cleanup_loop vmIP None portForwards.

(** The loop of [SetupPortForwards]; [all] is the whole list, which a failure
    cleans up. *)
Fixpoint setup_loop (vmIP : string) (all pfs : list PortForward) : Cmds (option error) :=
  match pfs with
  | [] => ret None
  | pf :: pfs' =>
      match ValidatePortForward pf with
      | Some err => ret (Some (Errorf "invalid port forward: %w" [AWrap err]))
      | None =>
          let* e := addPortForwardRule vmIP pf in
          match e with
          | Some err =>
              CleanupPortForwards vmIP all ;;;
              ret (Some (Errorf "failed to add port forward %d:%d: %w"
                [AInt (HostPort pf); AInt (VMPort pf); AWrap err]))
          | None => setup_loop vmIP all pfs'
          end
      end
  end.

(* @func internal/network/portforward.go SetupPortForwards *)
Definition SetupPortForwards (vmIP : string) (portForwards : list PortForward) : Cmds (option error) :=
  setup_loop vmIP portForwards portForwards.
End Commands.

(** * Lemmas *)

(** The rule [r] was added by the event. *)
Definition added (r : ipt_rule) (ev : cmd_event) : Prop :=
  ev = (iptables (rule_insert r), None) ∨ ev = (iptables (rule_append r), None).

(** The rule [r] is present after the event: it was found, or added. *)
Definition found_or_added (r : ipt_rule) (ev : cmd_event) : Prop :=
  ev = (iptables (rule_check r), None) ∨ added r ev.

Definition deletes (r : ipt_rule) (ev : cmd_event) : Prop := fst ev = iptables (rule_delete r).

(** The rules of a forward. *)
Definition pf_rules (vmIP : string) (pf : PortForward) : list ipt_rule :=
  [prerouting_rule vmIP pf; output_rule vmIP pf; forward_rule vmIP pf; masquerade_rule vmIP pf; snat_rule vmIP pf].

Definition removal_program (vmIP : string) (pf : PortForward) : list command :=
  (λ r, iptables (rule_delete r)) <$>
    [prerouting_rule vmIP pf; output_rule vmIP pf; masquerade_rule vmIP pf; snat_rule vmIP pf].

Section Lemmas.
Context `{Host}.

Lemma delete_rules_runs rules tr :
  ∃ new, delete_rules rules tr = (tt, tr ++ new) ∧ fst <$> new = (λ r, iptables (rule_delete r)) <$> rules.
Proof.
  revert tr. induction rules as [|r rules IH]; intros tr; simpl.
  - exists []. by rewrite app_nil_r.
  - unfold bind, ipt, run. set (c := Cmd "iptables" (rule_delete r)).
    destruct (IH (tr ++ [(c, host_run tr c)])) as (new & -> & Hn).
    exists ((c, host_run tr c) :: new). rewrite <- app_assoc. split; [done|].
    by rewrite fmap_cons, Hn.
Qed.

Lemma cleanup_loop_runs vmIP pfs tr :
  ∃ new, cleanup_loop vmIP None pfs tr = (None, tr ++ new) ∧
    fst <$> new = pfs ≫= removal_program vmIP.
Proof.
  revert tr. induction pfs as [|pf pfs IH]; intros tr; simpl.
  - exists []. by rewrite app_nil_r.
  - unfold removePortForwardRule, bind, ipt, run, ret.
    match goal with |- ∃ new, cleanup_loop _ _ _ ?t = _ ∧ _ => destruct (IH t) as (new & -> & Hn) end.
    eexists (_ :: _ :: _ :: _ :: new). rewrite <- !app_assoc. split; [reflexivity|].
    by rewrite !fmap_cons, Hn.
Qed.

End Lemmas.

(** The two tables in use; with it the arguments determine the rule. *)
Definition rule_wf (r : ipt_rule) : Prop := ipt_table r = [] ∨ ipt_table r = ["-t"; "nat"].

Lemma insert_inj r r' : rule_wf r → rule_wf r' → rule_insert r = rule_insert r' → r = r'.
Proof. destruct r, r'. unfold rule_wf, rule_insert; simpl. intros [-> | ->] [-> | ->]; simpl; congruence. Qed.

Lemma append_inj r r' : rule_wf r → rule_wf r' → rule_append r = rule_append r' → r = r'.
Proof. destruct r, r'. unfold rule_wf, rule_append; simpl. intros [-> | ->] [-> | ->]; simpl; congruence. Qed.

Lemma not_added_check r r' o : rule_wf r → rule_wf r' → ¬ added r' (iptables (rule_check r), o).
Proof.
  destruct r, r'. unfold rule_wf, added, rule_check, rule_insert, rule_append, iptables; simpl.
  intros [-> | ->] [-> | ->] [?|?]; simplify_eq.
Qed.

Lemma not_added_delete r r' o : rule_wf r → rule_wf r' → ¬ added r' (iptables (rule_delete r), o).
Proof.
  destruct r, r'. unfold rule_wf, added, rule_delete, rule_insert, rule_append, iptables; simpl.
  intros [-> | ->] [-> | ->] [?|?]; simplify_eq.
Qed.

Definition adds (add : ipt_rule → list string) : Prop := add = rule_insert ∨ add = rule_append.

Lemma added_add add r r' o :
  adds add → rule_wf r → rule_wf r' → added r' (iptables (add r), o) → r' = r ∧ o = None.
Proof.
  intros [-> | ->] Hr Hr' [[= E ->]|[= E ->]]; split; try done.
  - symmetry. by apply insert_inj.
  - destruct r, r'. unfold rule_wf, rule_insert, rule_append in *; simpl in *. destruct Hr as [-> | ->], Hr' as [-> | ->]; simplify_eq.
  - destruct r, r'. unfold rule_wf, rule_insert, rule_append in *; simpl in *. destruct Hr as [-> | ->], Hr' as [-> | ->]; simplify_eq.
  - symmetry. by apply append_inj.
Qed.

(** Every rule that is added is deleted later. *)
Fixpoint undone (l : list cmd_event) : Prop :=
  match l with
  | [] => True
  | ev :: l' => (∀ r, rule_wf r → added r ev → Exists (deletes r) l') ∧ undone l'
  end.

Definition deleted (r : ipt_rule) (l : list cmd_event) : Prop := Exists (deletes r) l.

(** [k] either succeeds with every rule of [rules] found or added, or fails
    having deleted all of [undo] and every rule it added itself. *)
Definition guarded (undo rules : list ipt_rule) (k : State (list cmd_event) (option error)) : Prop :=
  ∀ tr, ∃ res new, k tr = (res, tr ++ new) ∧
    match res with
    | None => ∀ r, r ∈ rules → Exists (found_or_added r) new
    | Some _ => (∀ r, r ∈ undo → deleted r new) ∧ undone new
    end.

Section Guarded.
Context `{Host}.

Lemma guarded_done undo : guarded undo [] (ret None).
Proof. intros tr. exists None, []. rewrite app_nil_r. split; [done|]. by intros r ?%elem_of_nil. Qed.

Lemma undone_deletes rules new :
  Forall rule_wf rules → fst <$> new = (λ r, iptables (rule_delete r)) <$> rules → undone new.
Proof.
  revert new. induction rules as [|r rules IH]; intros [|[c o] new] Hw Hn; simplify_eq/=; [done|].
  apply Forall_cons in Hw as [Hr Hw]. split; [|by apply IH].
  intros r' Hr' Ha. by apply not_added_delete in Ha.
Qed.

Lemma deletes_deleted rules new r :
  r ∈ rules → fst <$> new = (λ r, iptables (rule_delete r)) <$> rules → deleted r new.
Proof.
  intros Hr Hn. apply Exists_exists.
  assert (Hin : iptables (rule_delete r) ∈ (fst <$> new)).
  { rewrite Hn. apply list_elem_of_fmap. by exists r. }
  apply list_elem_of_fmap in Hin as (ev & Hev & Hin). exists ev. by split.
Qed.

(** The step of the roll-back argument: the continuation may rely on one more
    rule to undo. *)
Lemma guarded_ensure r add undo rules msg k :
  adds add → rule_wf r → Forall rule_wf undo →
  guarded (undo ++ [r]) rules k → guarded undo (r :: rules) (ensure_rule r add undo msg k).
Proof.
  intros Hadd Hr Hu Hk tr. unfold ensure_rule, bind, ipt, run, ret.
  set (cc := Cmd "iptables" (rule_check r)). set (ca := Cmd "iptables" (add r)).
  destruct (host_run tr cc) as [ec|] eqn:Ec.
  - set (tr1 := tr ++ [(cc, Some ec)]). destruct (host_run tr1 ca) as [ea|] eqn:Ea.
    + destruct (delete_rules_runs undo (tr1 ++ [(ca, Some ea)])) as (nd & -> & Hnd).
      eexists _, ([(cc, Some ec); (ca, Some ea)] ++ nd). unfold tr1. rewrite <- !app_assoc.
      split; [reflexivity|]. split.
      * intros r' Hr'. apply Exists_app. right. by eapply deletes_deleted.
      * simpl. split_and!; [intros r' ? Ha; by apply not_added_check in Ha| |by eapply undone_deletes].
        intros r' ? Ha. by apply added_add in Ha as [_ ?].
    + destruct (Hk (tr1 ++ [(ca, None)])) as (res & n & -> & Hres).
      exists res, ([(cc, Some ec); (ca, None)] ++ n). unfold tr1. rewrite <- !app_assoc.
      split; [reflexivity|]. destruct res as [e|].
      * destruct Hres as [Hdel Hund]. split.
        -- intros r' Hr'. apply Exists_app. right. apply Hdel, elem_of_app. by left.
        -- simpl. split_and!; [intros r' ? Ha; by apply not_added_check in Ha| |done].
           intros r' ? Ha. apply added_add in Ha as [-> _]; [|done..].
           apply Hdel, elem_of_app. right. left.
      * intros r' [->|Hr']%elem_of_cons; apply Exists_app; [left|right; auto].
        apply Exists_cons. right. apply Exists_cons. left. right. unfold added, ca, iptables.
        destruct Hadd as [-> | ->]; auto.
  - destruct (Hk (tr ++ [(cc, None)])) as (res & n & -> & Hres).
    exists res, ((cc, None) :: n). rewrite <- app_assoc. split; [reflexivity|]. destruct res as [e|].
    + destruct Hres as [Hdel Hund]. split.
      * intros r' Hr'. apply Exists_cons. right. apply Hdel, elem_of_app. by left.
      * simpl. split; [intros r' ? Ha; by apply not_added_check in Ha|done].
    + intros r' [->|Hr']%elem_of_cons; apply Exists_cons; [left; by left|right; auto].
Qed.
End Guarded.

Section AddRule.
Context `{Host}.

(** The rules after PREROUTING, with PREROUTING already added. *)
Lemma guarded_rest vmIP pf :
  let pre := prerouting_rule vmIP pf in
  let out := output_rule vmIP pf in
  let fwd := forward_rule vmIP pf in
  let masq := masquerade_rule vmIP pf in
  let snat := snat_rule vmIP pf in
  guarded [pre] [out; fwd; masq; snat]
    (ensure_rule out rule_insert [pre] "failed to add OUTPUT rule for localhost: %w" (
     ensure_rule fwd rule_append [pre; out] "failed to add FORWARD rule: %w" (
     ensure_rule masq rule_append [pre; out; fwd] "failed to add MASQUERADE rule: %w" (
     ensure_rule snat rule_append [pre; out; fwd; masq] "failed to add SNAT rule for localhost: %w" (
     ret None))))).
Proof.
  intros pre out fwd masq snat.
  assert (Hw : Forall rule_wf [pre; out; fwd; masq; snat]).
  { repeat (constructor; [first [by left|by right]|]). constructor. }
  rewrite !Forall_cons in Hw. destruct Hw as (?&?&?&?&?&_).
  repeat (apply guarded_ensure; [first [by left|by right]|done|by repeat constructor|]).
  apply guarded_done.
Qed.
End AddRule.

Lemma appends_delete_rules `{Host} rules : appends (delete_rules rules).
Proof. intros tr. destruct (delete_rules_runs rules tr) as (n & -> & _). by exists n. Qed.

Lemma appends_ipt `{Host} args : appends (ipt args).
Proof. apply appends_run. Qed.

#[export] Hint Resolve appends_delete_rules appends_ipt : go.

Lemma appends_addPortForwardRule `{Host} vmIP pf : appends (addPortForwardRule vmIP pf).
Proof.
  unfold addPortForwardRule, ensure_rule. solve_appends.
Qed.

(** * Properties *)

(** [addPortForwardRule] is all or nothing: when it fails, every rule of
    the forward that a command of this call added is deleted by a later
    command of the call. *)
Theorem addPortForwardRule_rolls_back `{Host} (vmIP : string) (pf : PortForward)
    (tr tr' : list cmd_event) (e : error)
    (Hfail : addPortForwardRule vmIP pf tr = (Some e, tr')) :
  ∃ new, tr' = tr ++ new ∧ undone new.
Proof.
  unfold addPortForwardRule in Hfail. unfold bind at 1 2 in Hfail. unfold ipt at 1 2, run in Hfail.
  assert (Hpw : rule_wf (prerouting_rule vmIP pf)) by (by right).
  split_match_in Hfail; [|done].
  split_match_in Hfail.
  - unfold ret in Hfail. simplify_eq. eexists. rewrite <- app_assoc. split; [reflexivity|].
    simpl. split_and!; [intros r ? Ha; by apply not_added_check in Ha| |done].
    intros r ? Ha. by apply (added_add rule_insert) in Ha as [_ ?]; [|left|..].
  - match type of Hfail with _ ?t = _ => destruct (guarded_rest vmIP pf t) as (res & n & En & Hres) end.
    rewrite En in Hfail. simplify_eq. destruct Hres as [Hdel Hund].
    eexists. rewrite <- !app_assoc. split; [reflexivity|].
    simpl. split_and!; [intros r ? Ha; by apply not_added_check in Ha| |done].
    intros r ? Ha. apply (added_add rule_insert) in Ha as [-> _]; [|by left|done..].
    apply Hdel. left.
Qed.

Definition example_forward : PortForward := mkPF 8080 80 "tcp".

(** No rule is there, and appending the MASQUERADE rule fails. *)
Definition failing_masquerade_host : Host :=
  scripted_host
    (iptables (rule_append (masquerade_rule "172.16.0.10" example_forward)) ::
     ((λ r, iptables (rule_check r)) <$> pf_rules "172.16.0.10" example_forward)) "".

Lemma addPortForwardRule_rolls_back_witness :
  ∃ new, snd (addPortForwardRule (H:=failing_masquerade_host) "172.16.0.10" example_forward []) = [] ++ new ∧
    undone new.
Proof.
  apply (addPortForwardRule_rolls_back (H:=failing_masquerade_host) "172.16.0.10" example_forward [] _
    (Errorf "failed to add MASQUERADE rule: %w" [AWrap (ErrorsNew "exit status 1")])).
  vm_compute. reflexivity.
Defined.

(** when [addPortForwardRule] returns nil, either the PREROUTING rule was
    already there and nothing else was done, or each of the five rules of the
    forward was found present or was added successfully. *)
Theorem addPortForwardRule_ensures `{Host} (vmIP : string) (pf : PortForward)
    (tr tr' : list cmd_event)
    (Hok : addPortForwardRule vmIP pf tr = (None, tr')) :
  ∃ new, tr' = tr ++ new ∧
    (new = [(iptables (rule_check (prerouting_rule vmIP pf)), None)] ∨
     ∀ r, r ∈ pf_rules vmIP pf → Exists (found_or_added r) new).
Proof.
  unfold addPortForwardRule in Hok. unfold bind at 1 2 in Hok. unfold ipt at 1 2, run in Hok.
  split_match_in Hok.
  - split_match_in Hok; [done|].
    match type of Hok with _ ?t = _ => destruct (guarded_rest vmIP pf t) as (res & n & En & Hres) end.
    rewrite En in Hok. simplify_eq. eexists. rewrite <- !app_assoc. split; [reflexivity|right].
    intros r [->|Hr]%elem_of_cons; simpl; rewrite !Exists_cons; [|right; right; by apply Hres].
    right. left. right. by left.
  - unfold ret in Hok. simplify_eq. eexists. split; [reflexivity|by left].
Qed.

Lemma addPortForwardRule_ensures_witness :
  let h := scripted_host ((λ r, iptables (rule_check r)) <$> pf_rules "172.16.0.10" example_forward) "" in
  ∃ new, snd (addPortForwardRule (H:=h) "172.16.0.10" example_forward []) = [] ++ new ∧
    (new = [(iptables (rule_check (prerouting_rule "172.16.0.10" example_forward)), None)] ∨
     ∀ r, r ∈ pf_rules "172.16.0.10" example_forward → Exists (found_or_added r) new).
Proof.
  apply (addPortForwardRule_ensures (H:=scripted_host ((λ r, iptables (rule_check r)) <$>
    pf_rules "172.16.0.10" example_forward) "") "172.16.0.10" example_forward []).
  vm_compute. reflexivity.
Defined.

(** [SetupPortForwards] on a list of valid forwards: when it fails, its
    last commands delete the NAT rules of every forward of the list. *)
Theorem SetupPortForwards_cleans_up `{Host} (vmIP : string) (pfs : list PortForward)
    (tr tr' : list cmd_event) (e : error)
    (Hvalid : Forall (λ pf, ValidatePortForward pf = None) pfs)
    (Hfail : SetupPortForwards vmIP pfs tr = (Some e, tr')) :
  ∃ new pre, tr' = tr ++ new ∧ fst <$> new = pre ++ (pfs ≫= removal_program vmIP).
Proof.
  unfold SetupPortForwards in Hfail. revert Hfail. generalize pfs at 1 3. intros all.
  revert tr. induction pfs as [|pf pfs IH]; intros tr; simpl; [done|].
  apply Forall_cons in Hvalid as [Hpf Hpfs]. rewrite Hpf. unfold bind at 1.
  destruct (appends_addPortForwardRule vmIP pf tr) as [n Hn'].
  destruct (addPortForwardRule vmIP pf tr) as [[e'|] t']; simpl in Hn'; subst t'.
  - unfold CleanupPortForwards, bind.
    destruct (cleanup_loop_runs vmIP all (tr ++ n)) as (nc & -> & Hn).
    intros Hf. unfold ret in Hf. simplify_eq. eexists (n ++ nc), (fst <$> n).
    by rewrite app_assoc, fmap_app, Hn.
  - intros Hf. destruct (IH Hpfs _ Hf) as (n' & pre & -> & Hn).
    exists (n ++ n'), ((fst <$> n) ++ pre). by rewrite !app_assoc, fmap_app, Hn, app_assoc.
Qed.

Lemma SetupPortForwards_cleans_up_witness :
  ∃ new pre, snd (SetupPortForwards (H:=failing_masquerade_host) "172.16.0.10" [example_forward] []) = [] ++ new ∧
    fst <$> new = pre ++ ([example_forward] ≫= removal_program "172.16.0.10").
Proof.
  apply (SetupPortForwards_cleans_up (H:=failing_masquerade_host) "172.16.0.10" [example_forward] [] _
    (Errorf "failed to add port forward %d:%d: %w" [AInt 8080; AInt 80;
      AWrap (Errorf "failed to add MASQUERADE rule: %w" [AWrap (ErrorsNew "exit status 1")])])).
  - repeat constructor.
  - vm_compute. reflexivity.
Defined.

(** The validity hypothesis of the clean-up property is needed: when a
    later forward of the list is invalid, [SetupPortForwards] returns the
    validation error and leaves the rules of the earlier forwards installed:
    here the five rules of the first forward are added and nothing is deleted
    afterwards. *)
Theorem SetupPortForwards_invalid_leaks :
  let h := scripted_host ((λ r, iptables (rule_check r)) <$> pf_rules "172.16.0.10" example_forward) "" in
  ∃ e new,
    SetupPortForwards (H:=h) "172.16.0.10" [example_forward; mkPF 0 80 "tcp"] [] = (Some e, new) ∧
    (∀ r, r ∈ pf_rules "172.16.0.10" example_forward → Exists (added r) new) ∧
    (∀ r ev, ev ∈ new → r ∈ pf_rules "172.16.0.10" example_forward → ¬ deletes r ev).
Proof.
  intros h. eexists _, _. split; [vm_compute; reflexivity|]. split.
  - intros r Hr. unfold pf_rules in Hr. rewrite !elem_of_cons, elem_of_nil in Hr.
    destruct Hr as [->|[->|[->|[->|[->|[]]]]]]; apply Exists_exists;
      first [ exists (iptables (rule_insert (prerouting_rule "172.16.0.10" example_forward)), None);
              split; [apply list_elem_of_In; vm_compute; tauto|left; reflexivity]
            | exists (iptables (rule_insert (output_rule "172.16.0.10" example_forward)), None);
              split; [apply list_elem_of_In; vm_compute; tauto|left; reflexivity]
            | eexists (iptables (rule_append _), None);
              split; [|right; reflexivity]; apply list_elem_of_In; vm_compute; tauto ].
  - assert (Hall : forallb (λ '(r, (c, _)), negb (bool_decide (c = iptables (rule_delete r))))
      (list_prod (pf_rules "172.16.0.10" example_forward)
        (snd (SetupPortForwards (H:=h) "172.16.0.10" [example_forward; mkPF 0 80 "tcp"] []))) = true)
      by (vm_compute; reflexivity).
    rewrite forallb_forall in Hall. intros r [c o] Hev Hr Hd.
    specialize (Hall (r, (c, o))). cbn beta iota in Hall.
    assert (Hin : In (r, (c, o)) (list_prod (pf_rules "172.16.0.10" example_forward)
      (snd (SetupPortForwards (H:=h) "172.16.0.10" [example_forward; mkPF 0 80 "tcp"] [])))).
    { apply in_prod; apply list_elem_of_In; [done|]. vm_compute. exact Hev. }
    specialize (Hall Hin). apply negb_true_iff, bool_decide_eq_false in Hall. by apply Hall.
Qed.
