(* ===== verification/Manifest.v ===== *)
(** The manifest of a tiered snapshot
    (src/internal/snapshotstore/manifest.go): its data, its JSON form, and the
    checks on names, ids and file lists. *)

From stdpp Require Import gmap.
From S2P Require Import Prelude GoStrings Paths Json.

(* @src internal/snapshotstore/manifest.go:16-33 ManifestSchemaVersion *)
Definition ManifestSchemaVersion : Z := 1.
Definition manifestObject : string := "manifest.json".
Definition CompressionZstd : string := "zstd".
Definition maxFileSize : Z := 2 ^ 40.

(* @src internal/snapshotstore/manifest.go:35-91 ErrManifestNotFound *)
Definition ErrManifestNotFound : string := "snapshotstore: snapshot manifest not found (absent or incomplete)".
Definition ErrUnsupportedManifestVersion : string := "snapshotstore: unsupported manifest schema version".
Definition ErrDigestMismatch : string := "snapshotstore: file digest mismatch".
Definition ErrSizeMismatch : string := "snapshotstore: file size mismatch".
Definition ErrUnsafeName : string := "snapshotstore: unsafe file name in manifest".
Definition ErrInvalidSnapshotID : string := "snapshotstore: invalid snapshot id".
Definition ErrManifestIDMismatch : string := "snapshotstore: manifest snapshot id mismatch".
Definition ErrDuplicateFileName : string := "snapshotstore: duplicate file name".
Definition ErrFileSizeTooLarge : string := "snapshotstore: file size in manifest exceeds the maximum".
Definition ErrEmptyManifest : string := "snapshotstore: manifest lists no files".
Definition ErrManifestTooLarge : string := "snapshotstore: manifest object exceeds the maximum size".
Definition ErrUnsupportedCompression : string := "snapshotstore: unsupported compression codec".
Definition ErrNegativeFileSize : string := "snapshotstore: negative file size in manifest".

(** [fmt.Errorf] with a sentinel as its first argument. *)
Definition wrapf (format sentinel : string) (args : list arg) : error :=
  Errorf format (AWrap (ErrorsNew sentinel) :: args).

(* @type internal/snapshotstore/manifest.go RuntimeVersions *)
Record RuntimeVersions : Type := mkVersions {
  rv_firecracker : string; rv_kernel : string; rv_nanofuse : string; rv_api : string }.

(* @type internal/snapshotstore/manifest.go FileEntry *)
Record FileEntry : Type := mkEntry {
  fe_name : string; fe_role : string; fe_key : string; fe_size : Z; fe_csize : Z; fe_digest : string }.

(** The creation time is kept as its JSON text. *)
(* @type internal/snapshotstore/manifest.go Manifest *)
Record Manifest : Type := mkManifest {
  mf_version : Z; mf_id : string; mf_created : string; mf_compression : string;
  mf_runtime : RuntimeVersions; mf_files : list FileEntry }.

(* @type internal/snapshotstore/manifest.go SourceFile *)
Record SourceFile : Type := mkSource { sf_name : string; sf_role : string; sf_path : string }.

#[global] Instance FileEntry_eq_dec : EqDecision FileEntry.
Proof. solve_decision. Defined.

(** * Checks *)

Definition backslash : ascii := "092".

(** The two checks share their tests. *)
(* @src internal/snapshotstore/manifest.go:146-154 validateName *)
Definition unsafe_segment (sentinel : string) (s : string) : option error :=
  if String.eqb s "" then Some (wrapf "%w: empty" sentinel [])
  else if String.eqb s "." || String.eqb s ".." then Some (wrapf "%w: %q" sentinel [AStr s])
  else if contains_any [slash; backslash] s then Some (wrapf "%w: %q contains a path separator" sentinel [AStr s])
  else if contains ".." s then Some (wrapf "%w: %q contains %q" sentinel [AStr s; AStr ".."])
  else None.

(* @func internal/snapshotstore/manifest.go validateName *)
Definition validateName (name : string) : option error :=
  match unsafe_segment ErrUnsafeName name with
  | Some e => Some e
  | None =>
      if String.eqb name manifestObject then Some (wrapf "%w: %q is reserved" ErrUnsafeName [AStr name]) else None
  end.

(* @func internal/snapshotstore/manifest.go validateSnapshotID *)
Definition validateSnapshotID (id : string) : option error := unsafe_segment ErrInvalidSnapshotID id.

(* @src internal/snapshotstore/manifest.go:185-203 validateManifestFiles *)
Fixpoint validate_entries (seen : gset string) (files : list FileEntry) : option error :=
  match files with
  | [] => None
  | fe :: files' =>
      match validateName (fe_name fe) with
      | Some e => Some e
      | None =>
          if (fe_size fe <? 0)%Z then
            Some (wrapf "%w: %q declares size %d" ErrNegativeFileSize [AStr (fe_name fe); AInt (fe_size fe)])
          else if (maxFileSize <? fe_size fe)%Z then
            Some (wrapf "%w: %q declares size %d (> %d)" ErrFileSizeTooLarge
              [AStr (fe_name fe); AInt (fe_size fe); AInt maxFileSize])
          else if bool_decide (fe_name fe ∈ seen) then
            Some (wrapf "%w: %q" ErrDuplicateFileName [AStr (fe_name fe)])
          else validate_entries ({[fe_name fe]} ∪ seen) files'
      end
  end.

(* @func internal/snapshotstore/manifest.go validateManifestFiles *)
Definition validateManifestFiles (files : list FileEntry) : option error :=
  match files with
  | [] => Some (ErrorsNew ErrEmptyManifest)
  | _ => validate_entries ∅ files
  end.

(** * JSON *)

Definition enc_versions (r : RuntimeVersions) : json := enc_struct
  [ f_str_omit "firecracker" (rv_firecracker r); f_str_omit "kernel" (rv_kernel r);
    f_str_omit "nanofuse" (rv_nanofuse r); f_str_omit "snapshot_api" (rv_api r) ].

Definition zero_versions : RuntimeVersions := mkVersions "" "" "" "".

Definition dec_versions (j : json) : option RuntimeVersions :=
  l ← members j;
  f ← getf l "firecracker" "" dec_str; k ← getf l "kernel" "" dec_str;
  n ← getf l "nanofuse" "" dec_str; a ← getf l "snapshot_api" "" dec_str;
  Some (mkVersions f k n a).

Definition enc_entry (e : FileEntry) : json := enc_struct
  [ f_str "name" (fe_name e); f_str "role" (fe_role e); f_str "key" (fe_key e);
    f_int "size" (fe_size e); f_int "compressed_size" (fe_csize e); f_str "digest" (fe_digest e) ].

Definition dec_entry (j : json) : option FileEntry :=
  l ← members j;
  n ← getf l "name" "" dec_str; r ← getf l "role" "" dec_str; k ← getf l "key" "" dec_str;
  s ← getf l "size" 0%Z dec_int64; c ← getf l "compressed_size" 0%Z dec_int64;
  d ← getf l "digest" "" dec_str;
  Some (mkEntry n r k s c d).

Definition enc_manifest (m : Manifest) : json := enc_struct
  [ f_int "schema_version" (mf_version m); f_str "snapshot_id" (mf_id m);
    f_str "created_at" (mf_created m); f_str "compression" (mf_compression m);
    f_any "runtime" (enc_versions (mf_runtime m)); f_list enc_entry "files" (mf_files m) ].

Definition zero_time : string := "0001-01-01T00:00:00Z".

(** The texts [time.Time.UnmarshalJSON] accepts: strict RFC 3339. *)
Definition digit_of (a : ascii) : option Z :=
  let n := Z.of_nat (nat_of_ascii a) in if (48 <=? n)%Z && (n <=? 57)%Z then Some (n - 48)%Z else None.

(** Two digits at the front, their value within the bounds, and the rest. *)
Definition two_digits (lo hi : Z) (s : string) : option (Z * string) :=
  match s with
  | String a (String b s') =>
      x ← digit_of a; y ← digit_of b;
      let v := (10 * x + y)%Z in if (lo <=? v)%Z && (v <=? hi)%Z then Some (v, s') else None
  | _ => None
  end.

Definition days_in (y m : Z) : Z :=
  match m with
  | 2%Z => if (y mod 4 =? 0)%Z && (negb (y mod 100 =? 0)%Z || (y mod 400 =? 0)%Z) then 29 else 28
  | 4%Z | 6%Z | 9%Z | 11%Z => 30
  | _ => 31
  end%Z.

Fixpoint skip_digits (s : string) : string :=
  match s with
  | String a s' => match digit_of a with Some _ => skip_digits s' | None => s end
  | EmptyString => s
  end.

Definition skip_fraction (s : string) : string :=
  match s with
  | String dot (String a s') =>
      if (dot =? ".")%char && bool_decide (is_Some (digit_of a)) then skip_digits s' else s
  | _ => s
  end.

Definition zone_ok (s : string) : bool :=
  match s with
  | "Z"%string => true
  | String sign s' =>
      ((sign =? "+")%char || (sign =? "-")%char) &&
      match (' (_, r) ← two_digits 0 23 s'; r ← strip_prefix ":" r; two_digits 0 59 r) with
      | Some (_, EmptyString) => true
      | _ => false
      end
  | EmptyString => false
  end.

Definition rfc3339 (s : string) : bool :=
  match (' (c, s) ← two_digits 0 99 s; ' (y, s) ← two_digits 0 99 s; s ← strip_prefix "-" s;
         ' (m, s) ← two_digits 1 12 s; s ← strip_prefix "-" s;
         ' (_, s) ← two_digits 1 (days_in (100 * c + y) m) s; s ← strip_prefix "T" s;
         ' (_, s) ← two_digits 0 23 s; s ← strip_prefix ":" s; ' (_, s) ← two_digits 0 59 s;
         s ← strip_prefix ":" s; ' (_, s) ← two_digits 0 59 s; Some s) with
  | Some s => zone_ok (skip_fraction s)
  | None => false
  end.

Example rfc3339_examples :
  (rfc3339 <$> ["2024-02-29T23:59:59Z"; "2023-02-29T00:00:00Z"; "2024-01-01T00:00:00.123+05:30";
     "2024-01-01T00:00:00"; "2024-01-01 00:00:00Z"; "0001-01-01T00:00:00Z"; "2024-01-01T00:00:00.Z"]) =
  [true; false; true; false; false; true; false].
Proof. vm_compute. reflexivity. Qed.

Definition dec_time (j : json) : option string :=
  match j with
  | JNull => Some zero_time
  | JStr s => if rfc3339 s then Some s else None
  | _ => None
  end.

Definition dec_manifest (j : json) : option Manifest :=
  l ← members j;
  v ← getf l "schema_version" 0%Z dec_int64; i ← getf l "snapshot_id" "" dec_str;
  t ← getf l "created_at" zero_time dec_time; c ← getf l "compression" "" dec_str;
  r ← getf l "runtime" zero_versions dec_versions; fs ← getf l "files" [] (dec_list dec_entry);
  Some (mkManifest v i t c r fs).

(** What [json] can carry: sizes within [int64] and a creation time. *)
Definition entry_wf (e : FileEntry) : Prop := int64_range (fe_size e) ∧ int64_range (fe_csize e).

Definition manifest_wf (m : Manifest) : Prop :=
  int64_range (mf_version m) ∧ rfc3339 (mf_created m) = true ∧ Forall entry_wf (mf_files m).

Lemma dec_enc_versions r : dec_versions (enc_versions r) = Some r.
Proof. unfold dec_versions, enc_versions. solve_codec. Qed.

Lemma dec_enc_entry e : entry_wf e → dec_entry (enc_entry e) = Some e.
Proof.
  intros [H1 H2]. unfold dec_entry, enc_entry. cbn [enc_struct members mbind option_bind].
  unfold getf. rewrite !jlookup_present by reflexivity. codec_cbn. cbn [dec_str mbind option_bind].
  rewrite !dec_int64_num by done. cbn [mbind option_bind]. by destruct e.
Qed.
#[export] Hint Rewrite dec_enc_versions : codec.

Lemma dec_enc_entries l : Forall entry_wf l → dec_list dec_entry (match l with [] => JNull | _ => JArr (enc_entry <$> l) end) = Some l.
Proof.
  intros Hl. assert (mapM dec_entry (enc_entry <$> l) = Some l) as Hm.
  { apply mapM_fmap_Forall_Some. eapply Forall_impl; [exact Hl|]. apply dec_enc_entry. }
  by destruct l.
Qed.

Lemma dec_enc_manifest m : manifest_wf m → dec_manifest (enc_manifest m) = Some m.
Proof.
  intros (Hv & Ht & Hf). unfold dec_manifest, enc_manifest. cbn [enc_struct members mbind option_bind].
  unfold getf. rewrite !jlookup_present by reflexivity. codec_cbn. unfold f_list. codec_cbn.
  cbn [dec_str dec_time mbind option_bind]. rewrite Ht, dec_int64_num, dec_enc_versions, dec_enc_entries by done.
  by destruct m.
Qed.

(** * What the checks accept *)

(** A safe segment: a plain path element without ".." or a backslash. *)
Definition safe_segment (s : string) : Prop :=
  plain s ∧ no_char backslash s ∧ contains ".." s = false.

Definition safe_name (s : string) : Prop := safe_segment s ∧ s ≠ manifestObject.

Lemma contains_any_two a b s : contains_any [a; b] s = contains_any [a] s || contains_any [b] s.
Proof.
  induction s as [|c s IH]; simpl; [done|]. rewrite IH, !orb_false_r.
  by destruct (Ascii.eqb c a), (Ascii.eqb c b), (contains_any [a] s), (contains_any [b] s).
Qed.

Lemma unsafe_segment_spec e s : unsafe_segment e s = None ↔ safe_segment s.
Proof.
  unfold unsafe_segment, safe_segment, plain, no_char.
  destruct (String.eqb_spec s "") as [->|]; [split; [done|]; naive_solver|].
  destruct (String.eqb_spec s ".") as [->|]; simpl; [split; [done|]; naive_solver|].
  destruct (String.eqb_spec s "..") as [->|]; simpl; [split; [done|]; naive_solver|].
  rewrite contains_any_two.
  destruct (contains_any [slash] s), (contains_any [backslash] s), (contains ".." s); simpl; naive_solver.
Qed.

Lemma validateSnapshotID_spec id : validateSnapshotID id = None ↔ safe_segment id.
Proof. apply unsafe_segment_spec. Qed.

Lemma validateName_spec n : validateName n = None ↔ safe_name n.
Proof.
  unfold validateName, safe_name. rewrite <- (unsafe_segment_spec ErrUnsafeName).
  destruct (unsafe_segment _ n); [split; [done|naive_solver]|].
  destruct (String.eqb_spec n manifestObject); naive_solver.
Qed.

(** What the rest of the store may rely on. *)
Definition entry_ok (e : FileEntry) : Prop := safe_name (fe_name e) ∧ (0 ≤ fe_size e ≤ maxFileSize)%Z.

Definition files_ok (l : list FileEntry) : Prop := l ≠ [] ∧ Forall entry_ok l ∧ NoDup (fe_name <$> l).

Lemma validate_entries_spec seen l :
  validate_entries seen l = None ↔
  Forall entry_ok l ∧ NoDup (fe_name <$> l) ∧ (∀ e, e ∈ l → fe_name e ∉ seen).
Proof.
  revert seen. induction l as [|e l IH]; intros seen; simpl.
  { split; [|done]. intros _. split_and!; [constructor|constructor|]. by intros ? ?%elem_of_nil. }
  rewrite Forall_cons, NoDup_cons. unfold entry_ok at 1. rewrite <- validateName_spec.
  destruct (validateName (fe_name e)) eqn:En; [split; [done|naive_solver]|].
  destruct (Z.ltb_spec (fe_size e) 0); [split; [done|naive_solver lia]|].
  destruct (Z.ltb_spec maxFileSize (fe_size e)); [split; [done|naive_solver lia]|].
  case_bool_decide as Hs.
  { split; [done|]. intros (_ & _ & Hn). by destruct (Hn e); [left|]. }
  rewrite IH. split.
  - intros (Hf & Hnd & Hn). split_and!; try done.
    + intros (x & Hx & Hin)%list_elem_of_fmap. specialize (Hn x Hin). rewrite <- Hx in Hn. set_solver.
    + intros x [->|Hx]%elem_of_cons; [done|]. specialize (Hn x Hx). set_solver.
  - intros ([_ Hf] & [Hni Hnd] & Hn). split_and!; try done.
    intros x Hx [Hk%elem_of_singleton|Hk]%elem_of_union.
    + apply Hni. rewrite <- Hk. by apply list_elem_of_fmap_2.
    + apply (Hn x); [by right|done].
Qed.

Lemma validateManifestFiles_spec l : validateManifestFiles l = None ↔ files_ok l.
Proof.
  unfold validateManifestFiles, files_ok. destruct l as [|e l]; [naive_solver|].
  rewrite validate_entries_spec. split; [intros (?&?&_)|intros (_&?&?)]; split_and!; try done.
Qed.
