(* ===== verification/Blob.v ===== *)
(** The object backend of the snapshot store
    (src/internal/snapshotstore/blob.go): the interface [Blob] with the laws its
    client relies on, and the file-system backend [FSBlob] that satisfies them.

    An object is raw bytes or a JSON document; a reader is an object and the
    error, if any, that breaks it off before its end.  Temporary files, which the
    backend never lists, are not part of the state. *)

From stdpp Require Import gmap sorting.
From S2P Require Import Prelude GoStrings Paths Json Manifest.

(** * Objects and readers *)

(** [Doc len v]: a document of [len] bytes whose value is [v]. *)
Inductive object : Type :=
  | Raw (s : string)
  | Doc (len : Z) (v : json).

Record reader : Type := mkReader { rd_object : object; rd_error : option error }.

(* @src internal/snapshotstore/blob.go:14-15 ErrObjectNotFound *)
Definition ErrObjectNotFound : string := "snapshotstore: object not found".

(* @func internal/snapshotstore/store.go objectKey *)
Definition objectKey (id name : string) : string := id +:+ "/" +:+ name.

(** The keys the store uses: a safe id and a safe name. *)
Definition store_key (k : string) : Prop :=
  ∃ id n, safe_segment id ∧ plain n ∧ k = objectKey id n.

(** * The interface *)

(* @type internal/snapshotstore/blob.go Blob *)
Class Blob (B : Type) : Type := {
  blob_Put : string → reader → State B (option error);
  blob_Get : string → State B (result reader);
  blob_List : string → State B (result (list string));
  blob_Exists : string → State B (result bool) }.

(** What the store may assume of a backend.  [blob_at] is the object under a
    key.  A failed [Put] may leave the key as it was, empty, or holding the whole
    new object, never a torn one. *)
Class BlobLaws (B : Type) `{Blob B} : Type := {
  blob_wf : B → Prop;
  blob_at : string → B → option object;
  Put_wf k r b : blob_wf b → store_key k → blob_wf (snd (blob_Put k r b));
  Put_ok k r b : blob_wf b → store_key k → fst (blob_Put k r b) = None →
    rd_error r = None ∧ blob_at k (snd (blob_Put k r b)) = Some (rd_object r);
  Put_err k r b : blob_wf b → store_key k →
    let o := blob_at k (snd (blob_Put k r b)) in
    o = blob_at k b ∨ o = None ∨ (rd_error r = None ∧ o = Some (rd_object r));
  Put_other k k' r b : blob_wf b → store_key k → store_key k' → k ≠ k' →
    blob_at k' (snd (blob_Put k r b)) = blob_at k' b;
  Get_same k b : blob_wf b → blob_wf (snd (blob_Get k b)) ∧ ∀ k', blob_at k' (snd (blob_Get k b)) = blob_at k' b;
  Get_ok k b r : blob_wf b → store_key k → fst (blob_Get k b) = Ok r → blob_at k b = Some (rd_object r);
  Get_missing k b e : blob_wf b → store_key k → fst (blob_Get k b) = Err e → errors_Is e ErrObjectNotFound = true →
    blob_at k b = None;
  List_same p b : blob_wf b → blob_wf (snd (blob_List p b)) ∧ ∀ k', blob_at k' (snd (blob_List p b)) = blob_at k' b;
  List_NoDup b l : blob_wf b → fst (blob_List "" b) = Ok l → NoDup l;
  List_manifests b l id : blob_wf b → safe_segment id → fst (blob_List "" b) = Ok l →
    objectKey id manifestObject ∈ l ↔ is_Some (blob_at (objectKey id manifestObject) b) }.

(** * The file-system backend *)

(** What the disk does: the error of the n-th call.  That a file is missing is
    seen in the state, so no other call reports it, nor the backend's own error. *)
Class Disk : Type := {
  disk_fault : nat → option error;
  disk_fault_other n e : disk_fault n = Some e →
    errors_Is e ErrNotExist = false ∧ errors_Is e ErrObjectNotFound = false }.

(** The regular files under the root, by their path. *)
(* @type internal/snapshotstore/blob.go FSBlob *)
Record FSBlob : Type := mkFS { fs_root : string; fs_files : gmap string object; fs_tick : nat }.

(* @src internal/snapshotstore/blob.go:58-70 NewFSBlob *)
Definition NewFSBlob (cwd dir : string) (mkdir : option error) : result string :=
  if String.eqb dir "" then Err (Errorf "snapshotstore: filesystem blob root is required" [])
  else
    let abs := if is_rooted dir then path_clean dir else filepath_join [cwd; dir] in
    match mkdir with
    | Some e => Err (Errorf "snapshotstore: create blob root: %w" [AWrap e])
    | None => Ok abs
    end.

(* @func internal/snapshotstore/blob.go keyPath *)
Definition keyPath (root key : string) : result string :=
  if String.eqb key "" then Err (Errorf "snapshotstore: empty object key" [])
  else
    let rooted := path_clean ("/" +:+ key) in
    let rel := trim_prefix "/" rooted in
    let full := filepath_join [root; rel] in
    match filepath_rel root full with
    | Some check =>
        if String.eqb check ".." || has_prefix "../" check
        then Err (Errorf "snapshotstore: object key %q escapes blob root" [AStr key])
        else Ok full
    | None => Err (Errorf "snapshotstore: object key %q escapes blob root" [AStr key])
    end.

Section FS.
Context `{Disk}.

(** One call on the disk. *)
Definition io : State FSBlob (option error) :=
  λ b, (disk_fault (fs_tick b), mkFS (fs_root b) (fs_files b) (S (fs_tick b))).

Definition files_do (f : gmap string object → gmap string object) : State FSBlob unit :=
  λ b, (tt, mkFS (fs_root b) (f (fs_files b)) (fs_tick b)).

(** [if err := call; err != nil { return fmt.Errorf(format, args, err) }]. *)
Definition checked {A} (fail : error → A) (format : string) (args : list arg) (k : State FSBlob A) : State FSBlob A :=
  let* e := io in
  match e with
  | Some err => ret (fail (Errorf format (args ++ [AWrap err])))
  | None => k
  end.

(* @func internal/snapshotstore/blob.go Put *)
Definition FSBlob_Put (key : string) (r : reader) : State FSBlob (option error) :=
  let* cancelled := io in
  match cancelled with
  | Some err => ret (Some err)
  | None =>
      let* b := get in
      match keyPath (fs_root b) key with
      | Err err => ret (Some err)
      | Ok path =>
          checked Some "snapshotstore: create object dir: %w" [] (
          checked Some "snapshotstore: create temp object: %w" [] (
          let* e := io in
          match (match rd_error r with Some err => Some err | None => e end) with
          | Some err => ret (Some (Errorf "snapshotstore: write object %q: %w" [AStr key; AWrap err]))
          | None =>
              checked Some "snapshotstore: sync object %q: %w" [AStr key] (
              checked Some "snapshotstore: close object %q: %w" [AStr key] (
              checked Some "snapshotstore: commit object %q: %w" [AStr key] (
              files_do (insert path (rd_object r)) ;;;
              let* e := io in
              match e with
              | Some err =>
                  let* e' := io in
                  match e' with Some _ => ret tt | None => files_do (delete path) end ;;;
                  ret (Some (Errorf "snapshotstore: sync object dir for %q: %w" [AStr key; AWrap err]))
              | None => ret None
              end)))
          end))
      end
  end.

(* @func internal/snapshotstore/blob.go Get *)
Definition FSBlob_Get (key : string) : State FSBlob (result reader) :=
  let* cancelled := io in
  match cancelled with
  | Some err => ret (Err err)
  | None =>
      let* b := get in
      match keyPath (fs_root b) key with
      | Err err => ret (Err err)
      | Ok path =>
          checked Err "snapshotstore: open object %q: %w" [AStr key] (
          match fs_files b !! path with
          | None => ret (Err (Errorf "%w: %s" [AWrap (ErrorsNew ErrObjectNotFound); AStr key]))
          | Some o => let* e := io in ret (Ok (mkReader o e))
          end)
      end
  end.

(** The walk visits the entries of a directory in the order of their names. *)
Fixpoint elements_leb (a b : list string) : bool :=
  match a, b with
  | [], _ => true
  | _ :: _, [] => false
  | x :: a', y :: b' => if String.eqb x y then elements_leb a' b' else String.leb x y
  end.

Definition walk_order (a b : string) : Prop := elements_leb (split_on slash a) (split_on slash b) = true.
#[global] Instance walk_order_dec a b : Decision (walk_order a b).
Proof. unfold walk_order. apply _. Defined.

Definition base_name (p : string) : string := default "" (last (split_on slash p)).

(** The keys of the files visited; an error of [filepath.Rel] ends the walk. *)
Fixpoint walk_keys (root prefix : string) (paths : list string) : result (list string) :=
  match paths with
  | [] => Ok []
  | p :: paths' =>
      if has_prefix ".tmp-" (base_name p) then walk_keys root prefix paths'
      else match filepath_rel root p with
      | None => Err (ErrorsNew "Rel: can't make path relative")
      | Some key =>
          let? keys := walk_keys root prefix paths' in
          Ok (if has_prefix prefix key then key :: keys else keys)
      end
  end.

(* @func internal/snapshotstore/blob.go List *)
Definition FSBlob_List (prefix : string) : State FSBlob (result (list string)) :=
  let* cancelled := io in
  match cancelled with
  | Some err => ret (Err err)
  | None =>
      let* b := get in
      let* e := io in
      match (match e with
             | Some err => Err err
             | None => walk_keys (fs_root b) prefix (merge_sort walk_order (map_to_list (fs_files b)).*1)
             end) with
      | Err err =>
          if os_IsNotExist err then ret (Ok [])
          else ret (Err (Errorf "snapshotstore: list objects: %w" [AWrap err]))
      | Ok keys => ret (Ok keys)
      end
  end.

(* @func internal/snapshotstore/blob.go Exists *)
Definition FSBlob_Exists (key : string) : State FSBlob (result bool) :=
  let* cancelled := io in
  match cancelled with
  | Some err => ret (Err err)
  | None =>
      let* b := get in
      match keyPath (fs_root b) key with
      | Err err => ret (Err err)
      | Ok path =>
          checked Err "snapshotstore: stat object %q: %w" [AStr key] (
          ret (Ok (bool_decide (is_Some (fs_files b !! path)))))
      end
  end.

#[export] Instance FSBlob_Blob : Blob FSBlob := {
  blob_Put := FSBlob_Put; blob_Get := FSBlob_Get; blob_List := FSBlob_List; blob_Exists := FSBlob_Exists }.
End FS.

(** * Keys and paths *)

Lemma trim_prefix_slash s : trim_prefix "/" (String slash s) = s.
Proof. unfold trim_prefix. by destruct s. Qed.

(** Every key names a place below the root, and the check never fails. *)
Lemma keyPath_ok root key :
  is_rooted root = true → key ≠ "" →
  keyPath root key = Ok (path_render true (path_elements root ++ path_elements ("/" +:+ key))).
Proof.
  intros Hr Hk. unfold keyPath. destruct (String.eqb_spec key "") as [|_]; [done|].
  assert (Hrk : is_rooted ("/" +:+ key) = true) by (apply has_prefix_iff; by eexists).
  pose proof (path_elements_plain _ Hrk) as Hp. pose proof (path_elements_plain _ Hr) as Hpr.
  unfold path_clean. rewrite Hrk. unfold path_render at 1 2.
  change ("/" +:+ join "/" (path_elements ("/" +:+ key))) with (String slash (join "/" (path_elements ("/" +:+ key)))).
  rewrite trim_prefix_slash, filepath_join_below by done.
  set (full := path_render true _). cbv zeta.
  assert (Hw : within_lexical root full = true).
  { apply within_lexical_spec; [done|apply is_rooted_render|]. unfold full.
    rewrite path_elements_render by by apply Forall_app. by eexists. }
  unfold within_lexical in Hw. destruct (filepath_rel root full) as [rel|]; [|done].
  apply andb_true_iff in Hw as [H1%negb_true_iff H2%negb_true_iff].
  apply bool_decide_eq_false in H1. rewrite H2, orb_false_r.
  by destruct (String.eqb_spec rel "..").
Qed.

Lemma Forall_two {A} (P : A → Prop) a b : P a → P b → Forall P [a; b].
Proof. intros Ha Hb. by constructor; [|constructor]. Qed.

Lemma store_key_elements id n :
  safe_segment id → plain n → path_elements ("/" +:+ objectKey id n) = [id; n].
Proof.
  intros (Hi & _) Hn. change ("/" +:+ objectKey id n) with (path_render true [id; n]).
  by apply path_elements_render, Forall_two.
Qed.

Lemma objectKey_inj id n id' n' :
  safe_segment id → plain n → safe_segment id' → plain n' →
  objectKey id n = objectKey id' n' → id = id' ∧ n = n'.
Proof.
  intros Hi Hn Hi' Hn' E. pose proof (store_key_elements id n Hi Hn) as H1. rewrite E in H1.
  rewrite store_key_elements in H1 by done. by simplify_eq.
Qed.

Lemma objectKey_nonempty id n : objectKey id n ≠ "".
Proof. unfold objectKey. by destruct id. Qed.

Lemma plain_manifest : plain manifestObject.
Proof. by repeat split. Qed.

Lemma store_key_manifest id : safe_segment id → store_key (objectKey id manifestObject).
Proof. intros Hi. exists id, manifestObject. split_and!; [done|apply plain_manifest|done]. Qed.

#[export] Hint Resolve store_key_manifest plain_manifest : go.

(** The path of a key of the store. *)
Definition path_of (root id n : string) : string := path_render true (path_elements root ++ [id; n]).

Lemma keyPath_store root id n :
  is_rooted root = true → safe_segment id → plain n → keyPath root (objectKey id n) = Ok (path_of root id n).
Proof.
  intros Hr Hi Hn. rewrite keyPath_ok by (by try apply objectKey_nonempty). by rewrite store_key_elements.
Qed.

Lemma path_of_inj root id n id' n' :
  is_rooted root = true → plain id → plain n → plain id' → plain n' →
  path_of root id n = path_of root id' n' → id = id' ∧ n = n'.
Proof.
  intros Hr Hi Hn Hi' Hn' E. apply (f_equal path_elements) in E. unfold path_of in E.
  pose proof (path_elements_plain _ Hr).
  rewrite !path_elements_render in E by (apply Forall_app; split; [done|by apply Forall_two]). by simplify_eq.
Qed.

(** * The file-system backend is a backend *)

Section FSLaws.
Context `{Disk}.

(** The root is absolute and every file lies below it. *)
Definition fs_wf (b : FSBlob) : Prop :=
  is_rooted (fs_root b) = true ∧
  ∀ p, is_Some (fs_files b !! p) →
    ∃ els, els ≠ [] ∧ Forall plain els ∧ p = path_render true (path_elements (fs_root b) ++ els).

Definition fs_at (k : string) (b : FSBlob) : option object :=
  match keyPath (fs_root b) k with Ok p => fs_files b !! p | Err _ => None end.

(** A run that keeps the root and the files. *)
Definition keeps {A} (m : State FSBlob A) : Prop :=
  ∀ b, fs_root (snd (m b)) = fs_root b ∧ fs_files (snd (m b)) = fs_files b.

Lemma keeps_ret {A} (a : A) : keeps (ret a).
Proof. done. Qed.
Lemma keeps_bind {A B} (m : State FSBlob A) (k : A → State FSBlob B) : keeps m → (∀ a, keeps (k a)) → keeps (bind m k).
Proof.
  intros Hm Hk b. unfold bind. specialize (Hm b). destruct (m b) as [a b1]. simpl in Hm.
  destruct Hm as [<- <-]. apply Hk.
Qed.
Lemma keeps_io : keeps io.
Proof. done. Qed.
Lemma keeps_get : keeps get.
Proof. done. Qed.
Lemma keeps_checked {A} (fail : error → A) f args k : keeps k → keeps (checked fail f args k).
Proof. intros Hk. apply keeps_bind; [apply keeps_io|]. intros [e|]; [apply keeps_ret|done]. Qed.

Lemma keeps_wf {A} (m : State FSBlob A) b : keeps m → fs_wf b → fs_wf (snd (m b)) ∧ ∀ k, fs_at k (snd (m b)) = fs_at k b.
Proof. intros Hm [Hr Hf]. destruct (Hm b) as [E1 E2]. unfold fs_wf, fs_at. rewrite E1, E2. done. Qed.

Lemma keeps_Get k : keeps (FSBlob_Get k).
Proof.
  apply keeps_bind; [apply keeps_io|]. intros [e|]; [apply keeps_ret|].
  apply keeps_bind; [apply keeps_get|]. intros b. destruct (keyPath _ k) as [p|e]; [|apply keeps_ret].
  apply keeps_checked. destruct (_ !! p); [|apply keeps_ret]. apply keeps_bind; [apply keeps_io|]. intros. apply keeps_ret.
Qed.

Lemma keeps_List p : keeps (FSBlob_List p).
Proof.
  apply keeps_bind; [apply keeps_io|]. intros [e|]; [apply keeps_ret|].
  apply keeps_bind; [apply keeps_get|]. intros b. apply keeps_bind; [apply keeps_io|]. intros e.
  destruct (match e with Some err => Err err | None => _ end); [apply keeps_ret|].
  destruct (os_IsNotExist _); apply keeps_ret.
Qed.

(** What [Put] does to the files. *)
Lemma FSBlob_Put_cases k r b path :
  keyPath (fs_root b) k = Ok path →
  let '(res, b') := FSBlob_Put k r b in
  let new := <[path := rd_object r]> (fs_files b) in
  fs_root b' = fs_root b ∧
  match res with
  | None => rd_error r = None ∧ fs_files b' = new
  | Some _ => fs_files b' = fs_files b ∨ (rd_error r = None ∧ (fs_files b' = new ∨ fs_files b' = delete path new))
  end.
Proof.
  intros Hk. unfold FSBlob_Put, checked, io, files_do, get, bind, ret.
  destruct b as [root files n]. cbn [fs_root fs_files fs_tick] in *.
  destruct (disk_fault n); [by split; [|left]|]. cbn [fs_root fs_files fs_tick]. rewrite Hk.
  do 2 (cbn [fs_root fs_files fs_tick]; destruct (disk_fault _); [by split; [|left]|]).
  destruct (rd_error r); [by split; [|left]|].
  do 4 (cbn [fs_root fs_files fs_tick]; destruct (disk_fault _); [by split; [|left]|]).
  cbn [fs_root fs_files fs_tick]. destruct (disk_fault _); [|by split].
  cbn [fs_root fs_files fs_tick]. destruct (disk_fault _); split; auto.
Qed.

Lemma fs_at_store id n b :
  is_rooted (fs_root b) = true → safe_segment id → plain n → fs_at (objectKey id n) b = fs_files b !! path_of (fs_root b) id n.
Proof. intros Hr Hi Hn. unfold fs_at. by rewrite keyPath_store. Qed.

Lemma FSBlob_Put_wf k r b : fs_wf b → store_key k → fs_wf (snd (FSBlob_Put k r b)).
Proof.
  intros [Hr Hf] (id & n & Hi & Hn & ->).
  pose proof (FSBlob_Put_cases _ r b _ (keyPath_store _ id n Hr Hi Hn)) as Hc.
  destruct (FSBlob_Put _ r b) as [res b']. destruct Hc as [E Hc]. simpl. split; [by rewrite E|]. rewrite E. intros p Hp.
  assert (p = path_of (fs_root b) id n ∨ is_Some (fs_files b !! p)) as [->|Hold]; [|exists [id; n]|by apply Hf].
  - destruct (decide (p = path_of (fs_root b) id n)) as [|Hne]; [by left|right].
    destruct res; [destruct Hc as [Hc|[_ [Hc|Hc]]]|destruct Hc as [_ Hc]]; rewrite Hc in Hp.
    + done.
    + by rewrite lookup_insert_ne in Hp.
    + by rewrite lookup_delete_ne, lookup_insert_ne in Hp.
    + by rewrite lookup_insert_ne in Hp.
  - split_and!; [done|apply Forall_two; [apply Hi|done]|done].
Qed.

Lemma FSBlob_Put_at id n r b :
  fs_wf b → safe_segment id → plain n →
  let '(res, b') := FSBlob_Put (objectKey id n) r b in
  match res with
  | None => rd_error r = None ∧ fs_at (objectKey id n) b' = Some (rd_object r)
  | Some _ => fs_at (objectKey id n) b' = fs_at (objectKey id n) b ∨ fs_at (objectKey id n) b' = None ∨
      (rd_error r = None ∧ fs_at (objectKey id n) b' = Some (rd_object r))
  end ∧
  ∀ id' n', safe_segment id' → plain n' → objectKey id n ≠ objectKey id' n' →
    fs_at (objectKey id' n') b' = fs_at (objectKey id' n') b.
Proof.
  intros [Hr _] Hi Hn. pose proof (FSBlob_Put_cases _ r b _ (keyPath_store _ id n Hr Hi Hn)) as Hc.
  destruct (FSBlob_Put _ r b) as [res b']. destruct Hc as [E Hc].
  assert (Hr' : is_rooted (fs_root b') = true) by by rewrite E.
  rewrite !fs_at_store, E by done. split.
  - destruct res; [destruct Hc as [Hc|[? [Hc|Hc]]]|destruct Hc as [? Hc]]; rewrite Hc, ?lookup_insert_eq, ?lookup_delete_eq; auto.
  - intros id' n' Hi' Hn' Hne. rewrite !fs_at_store, E by done.
    assert (path_of (fs_root b) id n ≠ path_of (fs_root b) id' n') as Hp.
    { intros Ep. apply path_of_inj in Ep as [-> ->]; [done|done|apply Hi|done|apply Hi'|done]. }
    destruct res; [destruct Hc as [Hc|[? [Hc|Hc]]]|destruct Hc as [? Hc]]; rewrite Hc;
      rewrite ?lookup_delete_ne, ?lookup_insert_ne by done; done.
Qed.

Lemma errors_Is_str_wrap f s e m : errors_Is (Errorf f [AStr s; AWrap e]) m = errors_Is e m.
Proof. apply orb_false_r. Qed.

Lemma FSBlob_Get_result id n b :
  fs_wf b → safe_segment id → plain n →
  match fst (FSBlob_Get (objectKey id n) b) with
  | Ok r => fs_at (objectKey id n) b = Some (rd_object r)
  | Err e => errors_Is e ErrObjectNotFound = true → fs_at (objectKey id n) b = None
  end.
Proof.
  intros [Hr _] Hi Hn. rewrite fs_at_store by done.
  unfold FSBlob_Get, checked, io, get, bind, ret. cbn [fs_root fs_files fs_tick].
  destruct (disk_fault (fs_tick b)) as [e|] eqn:E1; cbn [fst].
  { by rewrite (proj2 (disk_fault_other _ _ E1)). }
  cbn [fs_root fs_files fs_tick]. rewrite keyPath_store by done.
  cbn [fs_root fs_files fs_tick]. destruct (disk_fault (S (fs_tick b))) as [e|] eqn:E2; cbn [fst].
  { cbn [app]. rewrite errors_Is_str_wrap. by rewrite (proj2 (disk_fault_other _ _ E2)). }
  cbn [fs_root fs_files fs_tick]. by destruct (fs_files b !! path_of (fs_root b) id n).
Qed.

Lemma filepath_rel_below root els :
  is_rooted root = true → Forall plain els → els ≠ [] →
  filepath_rel root (path_render true (path_elements root ++ els)) = Some (join "/" els).
Proof.
  intros Hr He Hne. unfold filepath_rel. rewrite Hr, is_rooted_render. cbn [Bool.eqb negb].
  rewrite path_elements_render by (apply Forall_app; split; [by apply path_elements_plain|done]).
  assert (strip_common (path_elements root) (path_elements root ++ els) = ([], els)) as ->.
  { generalize (path_elements root) as l. induction l as [|x l IH]; simpl; [by destruct els|]. by rewrite bool_decide_true. }
  by destruct els.
Qed.

Lemma base_name_render els e : Forall plain (els ++ [e]) → base_name (path_render true (els ++ [e])) = e.
Proof.
  intros Hp. unfold base_name. rewrite split_on_render by (try done; by destruct els).
  change ("" :: els ++ [e]) with (("" :: els) ++ [e]). by rewrite last_snoc.
Qed.

(** The keys of files below the root. *)
Lemma walk_keys_spec root paths l :
  is_rooted root = true → NoDup paths →
  (∀ p, p ∈ paths → ∃ els, els ≠ [] ∧ Forall plain els ∧ p = path_render true (path_elements root ++ els)) →
  walk_keys root "" paths = Ok l →
  NoDup l ∧ ∀ els, els ≠ [] → Forall plain els →
    join "/" els ∈ l ↔ path_render true (path_elements root ++ els) ∈ paths ∧ has_prefix ".tmp-" (default "" (last els)) = false.
Proof.
  intros Hr. pose proof (path_elements_plain _ Hr) as Hrp.
  assert (Hinj : ∀ els els', els ≠ [] → els' ≠ [] → Forall plain els → Forall plain els' → join "/" els = join "/" els' → els = els').
  { intros els els' H1 H2 H3 H4 E. apply (f_equal (split_on slash)) in E.
    rewrite !split_on_join in E; try done; (eapply Forall_impl; [eassumption|by intros ? (?&?&?&?)]). }
  revert l. induction paths as [|p paths IH]; intros l Hnd Hb; simpl.
  { intros [= <-]. split; [constructor|]. intros els _ _. rewrite !elem_of_nil. naive_solver. }
  apply NoDup_cons in Hnd as [Hni Hnd]. destruct (Hb p ltac:(left)) as (els & Hne & Hpl & Hp).
  assert (Hall : Forall plain (path_elements root ++ els)) by by apply Forall_app.
  assert (Hbase : base_name p = default "" (last els)).
  { destruct (exists_last Hne) as (els0 & e & ->). rewrite Hp, app_assoc, base_name_render by by rewrite <- app_assoc.
    by rewrite last_snoc. }
  assert (Hsame : ∀ els', Forall plain els' → path_render true (path_elements root ++ els') = p → els' = els).
  { intros els' H' E. rewrite Hp in E. apply (f_equal path_elements) in E.
    rewrite !path_elements_render in E by (try done; by apply Forall_app). by simplify_list_eq. }
  specialize (λ l, IH l Hnd (λ q Hq, Hb q ltac:(by right))).
  rewrite Hbase. destruct (has_prefix ".tmp-" _) eqn:Ht.
  - intros Hw. destruct (IH l Hw) as [IH1 IH2]. split; [done|]. intros els' H1 H2. rewrite (IH2 _ H1 H2), elem_of_cons.
    split; [naive_solver|]. intros [[E|E] H3]; [|done]. apply Hsame in E as ->; [|done]. congruence.
  - assert (filepath_rel root p = Some (join "/" els)) as -> by (rewrite Hp; by apply filepath_rel_below).
    destruct (walk_keys root "" paths) as [l'|]; simpl; [|done].
    destruct (IH l' eq_refl) as [IH1 IH2].
    assert (has_prefix "" (join "/" els) = true) as -> by by destruct (join "/" els). intros [= <-]. split.
    + apply NoDup_cons. split; [|done]. rewrite (IH2 _ Hne Hpl), <- Hp. naive_solver.
    + intros els' H1 H2. rewrite !elem_of_cons, (IH2 _ H1 H2). split.
      * intros [E|[H3 H4]]; [|by split; [right|]]. apply Hinj in E as ->; try done. split; [left; by rewrite Hp|done].
      * intros [[E|E] H3]; [left|by right]. f_equal. by apply Hsame.
Qed.

Lemma FSBlob_List_result b l :
  fs_wf b → fst (FSBlob_List "" b) = Ok l →
  NoDup l ∧ ∀ id, safe_segment id → objectKey id manifestObject ∈ l ↔ is_Some (fs_at (objectKey id manifestObject) b).
Proof.
  intros [Hr Hf]. unfold FSBlob_List, io, get, bind, ret. cbn [fs_root fs_files fs_tick].
  destruct (disk_fault (fs_tick b)) as [e|] eqn:E1; cbn [fst]; [done|].
  cbn [fs_root fs_files fs_tick]. destruct (disk_fault (S (fs_tick b))) as [e|] eqn:E2.
  { unfold os_IsNotExist. by rewrite (proj1 (disk_fault_other _ _ E2)). }
  set (paths := merge_sort walk_order (map_to_list (fs_files b)).*1).
  assert (Hperm : paths ≡ₚ (map_to_list (fs_files b)).*1) by apply merge_sort_Permutation.
  destruct (walk_keys (fs_root b) "" paths) as [l'|e] eqn:Ew.
  2:{ destruct (os_IsNotExist e) eqn:Ee; [|done]. exfalso.
      assert (∀ ps, walk_keys (fs_root b) "" ps = Err e → False) as Hno; [|by apply (Hno paths)].
      intros ps. induction ps as [|q ps IH]; simpl; [done|]. destruct (has_prefix ".tmp-" _); [done|].
      destruct (filepath_rel _ q); [|intros [= <-]; done]. destruct (walk_keys _ "" ps); [done|]. intros [= ->]. auto. }
  assert (Hbelow : ∀ p, p ∈ paths → ∃ els, els ≠ [] ∧ Forall plain els ∧ p = path_render true (path_elements (fs_root b) ++ els)).
  { intros p. rewrite Hperm, list_elem_of_fmap. intros ([q o] & -> & Hq). apply Hf. apply elem_of_map_to_list in Hq. by exists o. }
  assert (Hnd : NoDup paths) by (rewrite Hperm; apply NoDup_fst_map_to_list).
  destruct (walk_keys_spec _ _ _ Hr Hnd Hbelow Ew) as [Hl Hin]. cbn [fst]. intros [= <-].
  split; [done|]. intros id Hi. rewrite fs_at_store by by try apply plain_manifest.
  change (objectKey id manifestObject) with (join "/" [id; manifestObject]).
  rewrite Hin; [|done|apply Forall_two; [apply Hi|apply plain_manifest]].
  unfold path_of. rewrite Hperm, list_elem_of_fmap. split.
  - intros [([p o] & -> & Hp) _]. apply elem_of_map_to_list in Hp. by exists o.
  - intros [o Ho]. split; [|done]. exists (path_render true (path_elements (fs_root b) ++ [id; manifestObject]), o).
    split; [done|]. by apply elem_of_map_to_list.
Qed.

#[export] Instance FSBlob_laws : BlobLaws FSBlob.
Proof.
  refine {| blob_wf := fs_wf; blob_at := fs_at |}.
  - apply FSBlob_Put_wf.
  - intros k r b Hb (id & n & Hi & Hn & ->). pose proof (FSBlob_Put_at id n r b Hb Hi Hn) as Hp.
    cbn [blob_Put FSBlob_Blob]. destruct (FSBlob_Put _ r b) as [[e|] b']; cbn [fst snd]; [done|]. intros _. apply Hp.
  - intros k r b Hb (id & n & Hi & Hn & ->). pose proof (FSBlob_Put_at id n r b Hb Hi Hn) as Hp.
    cbn [blob_Put FSBlob_Blob]. destruct (FSBlob_Put _ r b) as [[e|] b']; destruct Hp as [Hp _]; cbn [fst snd]; cbv zeta; [exact Hp|auto].
  - intros k k' r b Hb (id & n & Hi & Hn & ->) (id' & n' & Hi' & Hn' & ->) Hne.
    pose proof (FSBlob_Put_at id n r b Hb Hi Hn) as Hp. cbn [blob_Put FSBlob_Blob].
    destruct (FSBlob_Put _ r b) as [res b']. by apply (proj2 Hp).
  - intros k b Hb. apply keeps_wf; [apply keeps_Get|done].
  - intros k b r Hb (id & n & Hi & Hn & ->) E. pose proof (FSBlob_Get_result id n b Hb Hi Hn) as Hg.
    cbn [blob_Get FSBlob_Blob] in E. by rewrite E in Hg.
  - intros k b e Hb (id & n & Hi & Hn & ->) E. pose proof (FSBlob_Get_result id n b Hb Hi Hn) as Hg.
    cbn [blob_Get FSBlob_Blob] in E. by rewrite E in Hg.
  - intros p b Hb. apply keeps_wf; [apply keeps_List|done].
  - intros b l Hb E. apply (FSBlob_List_result b l Hb E).
  - intros b l id Hb Hi E. by apply (proj2 (FSBlob_List_result b l Hb E)).
Defined.
End FSLaws.

(** A key never leaves the root: whatever it contains, ".." elements
    included, it names a place below the root, the one of its own elements; the
    check against escapes never refuses. *)
Theorem keyPath_confined (root key : string) (Hroot : is_rooted root = true) (Hkey : key ≠ "") :
  ∃ p, keyPath root key = Ok p ∧ within_lexical root p = true ∧
    path_elements p = path_elements root ++ path_elements ("/" +:+ key).
Proof.
  eexists. split; [by apply keyPath_ok|].
  assert (Hall : Forall plain (path_elements root ++ path_elements ("/" +:+ key))).
  { apply Forall_app. split; [by apply path_elements_plain|]. apply path_elements_plain. apply has_prefix_iff. by eexists. }
  rewrite path_elements_render by done. split; [|done].
  apply within_lexical_spec; [done|apply is_rooted_render|]. rewrite path_elements_render by done. by eexists.
Qed.

Lemma keyPath_confined_witness : ∃ p, keyPath "/store" "../../etc/passwd" = Ok p ∧ within_lexical "/store" p = true.
Proof.
  destruct (keyPath_confined "/store" "../../etc/passwd" eq_refl ltac:(discriminate)) as (p & Hp & Hw & _).
  by exists p.
Defined.
