(* ===== verification/SnapshotStore.v ===== *)
(** The tiered snapshot store (src/internal/snapshotstore/store.go) over any
    backend [Blob]: put, manifest, list and get.

    The transfers of one call run concurrently; each writes one object or file of
    its own, committed at once, so a run is determined by the order in which they
    complete, which is an argument ([schedule]).  All of them run: the first to
    fail cancels the others' context, which is a fault they may report. *)

From stdpp Require Import gmap sorting.
From S2P Require Import Prelude GoStrings Paths GoNet Json Manifest Blob.

(* @src internal/snapshotstore/store.go:22-24 maxManifestBytes *)
Definition maxManifestBytes : Z := 8 * 2 ^ 20.

(** The compression library: what a reader decompresses to, and the error that
    ends it, if any.  What was compressed is decompressed, and an error of the
    reader is passed on. *)
Class Codec : Type := {
  zstd_encode : string → string;
  zstd_decode : reader → string * option error;
  zstd_new_writer : option error;
  zstd_new_reader : option error;
  decode_encode s : zstd_decode (mkReader (Raw (zstd_encode s)) None) = (s, None);
  decode_broken r : is_Some (rd_error r) → is_Some (snd (zstd_decode r)) }.

(** The local side: source files with the error that breaks their reading, the
    order of completion, the time, the outcome of local calls, and the name the
    system gives the staging directory. *)
Class Local : Type := {
  source : string → result (string * option error);
  schedule : ∀ {A : Type}, list A → list A;
  schedule_perm {A : Type} (l : list A) : schedule l ≡ₚ l;
  created_at : string;
  local_fault : nat → option error;
  remove_fault : nat → option error;
  staging_name : string }.

Section Put.
Context {B : Type} `{HB : Blob B} `{HCodec : Codec} `{HLocal : Local}.

Definition zst (name : string) : string := name +:+ ".zst".

(* @func internal/snapshotstore/store.go putFile *)
Definition putFile (id : string) (sf : SourceFile) : State B (result FileEntry) :=
  match source (sf_path sf) with
  | Err err => ret (Err (Errorf "open source %q: %w" [AStr (sf_path sf); AWrap err]))
  | Ok (content, broken) =>
      match zstd_new_writer with
      | Some err => ret (Err (Errorf "create zstd encoder: %w" [AWrap err]))
      | None =>
          let key := objectKey id (zst (sf_name sf)) in
          let data := zstd_encode content in
          let* e := blob_Put key (mkReader (Raw data) broken) in
          match e with
          | Some err => ret (Err (Errorf "upload %q: %w" [AStr key; AWrap err]))
          | None =>
              match broken with
              | Some err => ret (Err (Errorf "compress %q: %w" [AStr (sf_name sf); AWrap err]))
              | None =>
                  ret (Ok (mkEntry (sf_name sf) (sf_role sf) key (Z.of_nat (String.length content))
                    (Z.of_nat (String.length data)) (sha256_hex content)))
              end
          end
      end
  end.

(* @src internal/snapshotstore/store.go:89-100 Put *)
Fixpoint check_sources (id : string) (seen : gset string) (files : list SourceFile) : option error :=
  match files with
  | [] => None
  | f :: files' =>
      match validateName (sf_name f) with
      | Some e => Some e
      | None =>
          if bool_decide (sf_name f ∈ seen)
          then Some (wrapf "%w: %q in snapshot %q" ErrDuplicateFileName [AStr (sf_name f); AStr id])
          else check_sources id ({[sf_name f]} ∪ seen) files'
      end
  end.

(** Run a transfer for each element, in the given order, and keep the outcomes. *)
Fixpoint run_all {S A C} (f : A → State S C) (l : list A) : State S (list (A * C)) :=
  match l with
  | [] => ret []
  | a :: l' =>
      let* c := f a in
      let* rest := run_all f l' in
      ret ((a, c) :: rest)
  end.

(** [g.Wait()]: the error of the transfer that failed first. *)
Definition first_error {A C} (err : C → option error) (outcomes : list (A * C)) : option error :=
  head (omap (λ p, err (snd p)) outcomes).

Definition result_err {A} (r : result A) : option error := match r with Ok _ => None | Err e => Some e end.

Definition zero_entry : FileEntry := mkEntry "" "" "" 0 0 "".

(** [entries[i]]: what the transfer of the i-th file returned. *)
Definition entry_of (outcomes : list (SourceFile * result FileEntry)) (f : SourceFile) : FileEntry :=
  match List.find (λ p, String.eqb (sf_name (fst p)) (sf_name f)) outcomes with
  | Some (_, Ok fe) => fe
  | _ => zero_entry
  end.

(** The manifest as an object of the backend. *)
Definition manifest_object (m : Manifest) : object :=
  Doc (Z.of_nat (String.length (marshal_indent 0 (enc_manifest m)))) (coerce_utf8 (enc_manifest m)).

Definition object_length (o : object) : Z :=
  match o with Raw s => Z.of_nat (String.length s) | Doc len _ => len end.

(* @func internal/snapshotstore/store.go Put *)
Definition Put (id : string) (files : list SourceFile) (rt : RuntimeVersions) : State B (result Manifest) :=
  match validateSnapshotID id with
  | Some e => ret (Err e)
  | None =>
      match files with
      | [] => ret (Err (Errorf "snapshotstore: no files to store for snapshot %q" [AStr id]))
      | _ =>
          match check_sources id ∅ files with
          | Some e => ret (Err e)
          | None =>
              let* outcomes := run_all (putFile id) (schedule files) in
              match first_error result_err outcomes with
              | Some err => ret (Err (Errorf "snapshotstore: tier snapshot %q: %w" [AStr id; AWrap err]))
              | None =>
                  let manifest := mkManifest ManifestSchemaVersion id created_at CompressionZstd rt (entry_of outcomes <$> files) in
                  let data := manifest_object manifest in
                  if (maxManifestBytes <? object_length data)%Z then
                    ret (Err (wrapf "%w: manifest %q is %d bytes (> %d)" ErrManifestTooLarge
                      [AStr id; AInt (object_length data); AInt maxManifestBytes]))
                  else
                    let* e := blob_Put (objectKey id manifestObject) (mkReader data None) in
                    match e with
                    | Some err => ret (Err (Errorf "snapshotstore: write manifest for %q: %w" [AStr id; AWrap err]))
                    | None => ret (Ok manifest)
                    end
              end
          end
      end
  end.

(** * Manifest and list *)

(** [json.Unmarshal] of what was read, which is no longer than the limit. *)
Definition parse_manifest (o : object) : option Manifest :=
  match o with Raw _ => None | Doc _ v => dec_manifest v end.

(** The checks on an untrusted manifest, and its keys derived anew. *)
(* @src internal/snapshotstore/store.go:252-286 Manifest *)
Definition accept_manifest (id : string) (m : Manifest) : result Manifest :=
  if (mf_version m <? 1)%Z || (ManifestSchemaVersion <? mf_version m)%Z then
    Err (wrapf "%w: manifest %q is v%d, this build supports v1..v%d" ErrUnsupportedManifestVersion
      [AStr id; AInt (mf_version m); AInt ManifestSchemaVersion])
  else if negb (String.eqb (mf_compression m) CompressionZstd) then
    Err (wrapf "%w: manifest %q declares compression %q" ErrUnsupportedCompression [AStr id; AStr (mf_compression m)])
  else if negb (String.eqb (mf_id m) id) then
    Err (wrapf "%w: requested %q but manifest reports %q" ErrManifestIDMismatch [AStr id; AStr (mf_id m)])
  else match validateManifestFiles (mf_files m) with
  | Some e => Err e
  | None =>
      let rekey fe := mkEntry (fe_name fe) (fe_role fe) (objectKey id (zst (fe_name fe))) (fe_size fe) (fe_csize fe) (fe_digest fe) in
      Ok (mkManifest (mf_version m) (mf_id m) (mf_created m) (mf_compression m) (mf_runtime m) (rekey <$> mf_files m))
  end.

(* @func internal/snapshotstore/store.go Manifest *)
Definition get_manifest (id : string) : State B (result Manifest) :=
  match validateSnapshotID id with
  | Some e => ret (Err e)
  | None =>
      let* r := blob_Get (objectKey id manifestObject) in
      ret match r with
      | Err err =>
          if errors_Is err ErrObjectNotFound then Err (wrapf "%w: %s" ErrManifestNotFound [AStr id])
          else Err (Errorf "snapshotstore: read manifest for %q: %w" [AStr id; AWrap err])
      | Ok rc =>
          match rd_error rc with
          | Some err => Err (Errorf "snapshotstore: read manifest for %q: %w" [AStr id; AWrap err])
          | None =>
              if (maxManifestBytes <? object_length (rd_object rc))%Z then
                Err (wrapf "%w: manifest %q exceeds %d bytes" ErrManifestTooLarge [AStr id; AInt maxManifestBytes])
              else match parse_manifest (rd_object rc) with
              | None => Err (Errorf "snapshotstore: parse manifest for %q: %w" [AStr id; AWrap (ErrorsNew "json: cannot unmarshal")])
              | Some m => accept_manifest id m
              end
          end
      end
  end.

(* @src internal/snapshotstore/store.go:295-310 List *)
Definition manifest_id (key : string) : option string :=
  let suffix := "/" +:+ manifestObject in
  if has_suffix suffix key then
    let id := trim_suffix suffix key in
    match validateSnapshotID id with Some _ => None | None => Some id end
  else None.

(* @func internal/snapshotstore/store.go List *)
Definition list_ids : State B (result (list string)) :=
  let* keys := blob_List "" in
  ret match keys with
  | Err err => Err err
  | Ok keys => Ok (merge_sort String.le (omap manifest_id keys))
  end.
End Put.

(** * Restore *)

(** The backend, the local files by their path, and a count of local calls.
    A directory in the way of a file is a fault of the calls that meet it. *)
Record Restore (B : Type) : Type := mkRestore { rs_blob : B; rs_files : gmap string string; rs_tick : nat }.
Arguments mkRestore {B}.
Arguments rs_blob {B}.
Arguments rs_files {B}.
Arguments rs_tick {B}.

(** The file lies in the directory. *)
Definition under (dir p : string) : Prop := path_elements dir `prefix_of` path_elements p.

#[export] Instance under_dec dir p : Decision (under dir p).
Proof. unfold under. apply _. Defined.

Definition remove_all (dir : string) (m : gmap string string) : gmap string string :=
  filter (λ kv, ¬ under dir (fst kv)) m.

Section Get.
Context {B : Type} `{HB : Blob B} `{HCodec : Codec} `{HLocal : Local}.

Abbreviation R := (State (Restore B)).

Definition with_blob {A} (m : State B A) : R A :=
  λ w, let '(a, b) := m (rs_blob w) in (a, mkRestore b (rs_files w) (rs_tick w)).

Definition local_call : R (option error) :=
  λ w, (local_fault (rs_tick w), mkRestore (rs_blob w) (rs_files w) (S (rs_tick w))).

Definition set_files (f : gmap string string → gmap string string) : R unit :=
  λ w, (tt, mkRestore (rs_blob w) (f (rs_files w)) (rs_tick w)).

(** A removal whose failure is ignored. *)
Definition try_remove (f : gmap string string → gmap string string) : R unit :=
  λ w, (tt, mkRestore (rs_blob w) (match remove_fault (rs_tick w) with None => f (rs_files w) | Some _ => rs_files w end)
              (S (rs_tick w))).

Definition local_checked {A} (fail : error → A) (format : string) (args : list arg) (k : R A) : R A :=
  let* e := local_call in
  match e with
  | Some err => ret (fail (Errorf format (args ++ [AWrap err])))
  | None => k
  end.

(* @func internal/snapshotstore/store.go getFile *)
Definition getFile (id dir : string) (fe : FileEntry) : R (option error) :=
  match validateName (fe_name fe) with
  | Some e => ret (Some e)
  | None =>
      let key := objectKey id (zst (fe_name fe)) in
      let* r := with_blob (blob_Get key) in
      match r with
      | Err err => ret (Some (Errorf "download %q: %w" [AStr key; AWrap err]))
      | Ok rc =>
          match zstd_new_reader with
          | Some err => ret (Some (Errorf "create zstd reader for %q: %w" [AStr key; AWrap err]))
          | None =>
              local_checked Some "create temp restore file: %w" [] (
              let '(data, end_error) := copy_limited (fe_size fe + 1) (zstd_decode rc) in
              let* write_error := local_call in
              let n := Z.of_nat (String.length data) in
              match (match end_error with Some err => Some err | None => write_error end) with
              | Some err => ret (Some (Errorf "decompress %q: %w" [AStr key; AWrap err]))
              | None =>
                  if negb (n =? fe_size fe)%Z then
                    ret (Some (wrapf "%w: %q expected %d bytes, got %d" ErrSizeMismatch [AStr (fe_name fe); AInt (fe_size fe); AInt n]))
                  else if negb (String.eqb (sha256_hex data) (fe_digest fe)) then
                    ret (Some (wrapf "%w: %q expected %s, got %s" ErrDigestMismatch
                      [AStr (fe_name fe); AStr (fe_digest fe); AStr (sha256_hex data)]))
                  else
                    local_checked Some "sync restore file %q: %w" [AStr (fe_name fe)] (
                    local_checked Some "close restore file %q: %w" [AStr (fe_name fe)] (
                    local_checked Some "commit restore file %q: %w" [AStr (fe_name fe)] (
                    set_files (insert (filepath_join [dir; fe_name fe]) data) ;;;
                    ret None)))
              end)
          end
      end
  end.

(* @src internal/snapshotstore/store.go:379-381 promoteRestored *)
Definition roll_back (destDir : string) (done : list FileEntry) : R unit :=
  for_each done (λ fe, try_remove (delete (filepath_join [destDir; fe_name fe]))).

Definition abandon (destDir : string) (done : list FileEntry) (e : error) : R (option error) :=
  roll_back destDir done ;;; ret (Some e).

(** [done]: the files before the current one. *)
(* @func internal/snapshotstore/store.go promoteRestored *)
Fixpoint promoteRestored (staging destDir : string) (done files : list FileEntry) : R (option error) :=
  match files with
  | [] => ret None
  | fe :: files' =>
      let from := filepath_join [staging; fe_name fe] in
      let to := filepath_join [destDir; fe_name fe] in
      let* statErr := local_call in
      let* w := get in
      match statErr with
      | None =>
          if bool_decide (is_Some (rs_files w !! to)) || String.eqb to (path_clean staging) then
            abandon destDir done (Errorf "commit restored file %q: destination already exists" [AStr (fe_name fe)])
          else
            let* renameErr := local_call in
            match renameErr, rs_files w !! from with
            | None, Some data =>
                set_files (λ m, <[to := data]> (delete from m)) ;;;
                promoteRestored staging destDir (done ++ [fe]) files'
            | e, _ =>
                abandon destDir done (Errorf "commit restored file %q: %w" [AStr (fe_name fe); AWrap (default (ErrorsNew ErrNotExist) e)])
            end
      | Some err =>
          abandon destDir done (Errorf "commit restored file %q: %w" [AStr (fe_name fe); AWrap err])
      end
  end.

(** The staging directory [os.MkdirTemp] makes in [destDir]. *)
Definition staging_dir (destDir : string) : string := filepath_join [destDir; staging_name].

(* @func internal/snapshotstore/store.go Get *)
Definition Get (id destDir : string) : R (result Manifest) :=
  match validateSnapshotID id with
  | Some e => ret (Err e)
  | None =>
      if String.eqb destDir "" then ret (Err (Errorf "snapshotstore: destination directory is required" []))
      else
        let* r := with_blob (get_manifest id) in
        match r with
        | Err err => ret (Err err)
        | Ok manifest =>
            local_checked Err "snapshotstore: create restore dir: %w" [] (
            local_checked Err "snapshotstore: create restore staging dir: %w" [] (
            let staging := staging_dir destDir in
            let* outcomes := run_all (getFile id staging) (schedule (mf_files manifest)) in
            let* r :=
              match first_error (λ e, e) outcomes with
              | Some err => ret (Err (Errorf "snapshotstore: restore snapshot %q: %w" [AStr id; AWrap err]))
              | None =>
                  let* e := promoteRestored staging destDir [] (mf_files manifest) in
                  match e with
                  | Some err => ret (Err (Errorf "snapshotstore: commit restored snapshot %q: %w" [AStr id; AWrap err]))
                  | None => ret (Ok manifest)
                  end
              end in
            try_remove (remove_all staging) ;;;
            ret r))
        end
  end.
End Get.
