(* ===== verification/StoreSpec.v ===== *)
(** What the tiered snapshot store guarantees over any lawful backend: a
    snapshot becomes visible only when it is complete, what was put is what is
    restored, and a restore verifies everything it writes or leaves nothing. *)

From stdpp Require Import gmap sorting.
From S2P Require Import Prelude GoStrings Paths GoNet Json Manifest Blob SnapshotStore.

(** * Names and keys *)

Lemma string_app_inj_r (s t u : string) : s +:+ u = t +:+ u → s = t.
Proof.
  revert t. induction s as [|a s IH]; intros [|b t] E; [done| | |].
  - apply (f_equal String.length) in E. rewrite !string_app_length in E. simpl in E. lia.
  - apply (f_equal String.length) in E. rewrite !string_app_length in E. simpl in E. lia.
  - rewrite !string_app_cons in E. injection E as -> E. by rewrite (IH t).
Qed.

Lemma zst_inj n n' : zst n = zst n' → n = n'.
Proof. apply string_app_inj_r. Qed.

Lemma plain_zst n : plain n → plain (zst n).
Proof.
  intros (_ & _ & _ & Hn). unfold zst. split_and!.
  - by destruct n.
  - intros E%(f_equal String.length). rewrite string_app_length in E. simpl in E. lia.
  - intros E%(f_equal String.length). rewrite string_app_length in E. simpl in E. lia.
  - by apply no_char_app.
Qed.

Lemma zst_not_manifest n : zst n ≠ manifestObject.
Proof. intros E%(f_equal string_rev). unfold zst in E. by rewrite string_rev_app_distr in E. Qed.

Lemma safe_name_plain n : safe_name n → plain n.
Proof. by intros [[? _] _]. Qed.
#[export] Hint Resolve safe_name_plain plain_zst : go.

Lemma store_key_zst id n : safe_segment id → safe_name n → store_key (objectKey id (zst n)).
Proof. intros Hi Hn. exists id, (zst n). split_and!; auto with go. Qed.
#[export] Hint Resolve store_key_zst : go.

Lemma data_key_inj id n id' n' :
  safe_segment id → safe_name n → safe_segment id' → safe_name n' →
  objectKey id (zst n) = objectKey id' (zst n') → id = id' ∧ n = n'.
Proof.
  intros Hi Hn Hi' Hn' E. apply objectKey_inj in E as [-> E%zst_inj]; auto with go.
Qed.

Lemma data_key_not_manifest id n id' :
  safe_segment id → safe_name n → safe_segment id' → objectKey id (zst n) ≠ objectKey id' manifestObject.
Proof. intros Hi Hn Hi' E. apply objectKey_inj in E as [_ E%zst_not_manifest]; auto with go. Qed.

Lemma NoDup_perm_run {A C} (f : A → C) (l l' : list A) : l ≡ₚ l' → NoDup (f <$> l) → NoDup (f <$> l').
Proof. intros Hp. by rewrite Hp. Qed.

(** * Putting *)

Section PutSpec.
Context {B : Type} `{HB : Blob B, !BlobLaws B} `{HCodec : Codec} `{HLocal : Local}.

Definition data_key (id : string) (sf : SourceFile) : string := objectKey id (zst (sf_name sf)).

(** The entry of a source file with the given content. *)
Definition entry_for (id : string) (sf : SourceFile) (content : string) : FileEntry :=
  mkEntry (sf_name sf) (sf_role sf) (data_key id sf) (Z.of_nat (String.length content))
    (Z.of_nat (String.length (zstd_encode content))) (sha256_hex content).

(** The file was read completely, has the entry [fe] and is stored. *)
Definition stored (id : string) (sf : SourceFile) (fe : FileEntry) (b : B) : Prop :=
  ∃ content, source (sf_path sf) = Ok (content, None) ∧ fe = entry_for id sf content ∧
    blob_at (data_key id sf) b = Some (Raw (zstd_encode content)).

(** Only the listed keys changed. *)
Definition changed_only (ks : list string) (b b' : B) : Prop :=
  ∀ k, store_key k → k ∉ ks → blob_at k b' = blob_at k b.

Lemma changed_only_trans ks b b1 b2 : changed_only ks b b1 → changed_only ks b1 b2 → changed_only ks b b2.
Proof. intros H1 H2 k Hk Hn. rewrite H2, H1; done. Qed.

Lemma putFile_spec id sf b :
  blob_wf b → safe_segment id → safe_name (sf_name sf) →
  let '(r, b') := putFile id sf b in
  blob_wf b' ∧ changed_only [data_key id sf] b b' ∧ ∀ fe, r = Ok fe → stored id sf fe b'.
Proof.
  intros Hb Hi Hn. unfold putFile. destruct (source _) as [[content broken]|e] eqn:Es; [|by split_and!].
  destruct zstd_new_writer; [by split_and!|]. fold (data_key id sf). unfold bind.
  assert (Hk : store_key (data_key id sf)) by by apply store_key_zst.
  set (rd := mkReader _ _).
  pose proof (Put_wf _ rd b Hb Hk) as Hwf.
  assert (Hch : changed_only [data_key id sf] b (snd (blob_Put (data_key id sf) rd b))).
  { intros k Hk' Hne. apply Put_other; [done..|]. intros <-. apply Hne. left. }
  pose proof (Put_ok _ rd b Hb Hk) as Hok.
  destruct (blob_Put _ rd b) as [[e|] b']; cbn [fst snd] in *; [by split_and!|].
  destruct (Hok eq_refl) as [Hbr Hat]. cbn [rd_error rd_object rd] in *. rewrite Hbr. split_and!; [done..|].
  intros fe [= <-]. exists content. split_and!; [by rewrite Es, Hbr|done|done].
Qed.

Lemma stored_changed id sf fe ks b b' :
  safe_segment id → safe_name (sf_name sf) →
  changed_only ks b b' → data_key id sf ∉ ks → stored id sf fe b → stored id sf fe b'.
Proof.
  intros Hi Hn Hch Hni (c & H1 & H2 & H3). exists c. split_and!; [done..|]. rewrite Hch; [done|by apply store_key_zst|done].
Qed.

Lemma upload_spec id l b :
  blob_wf b → safe_segment id → Forall (λ sf, safe_name (sf_name sf)) l → NoDup (sf_name <$> l) →
  let '(outs, b') := run_all (putFile id) l b in
  blob_wf b' ∧ outs.*1 = l ∧ changed_only (data_key id <$> l) b b' ∧
  ∀ sf fe, (sf, Ok fe) ∈ outs → stored id sf fe b'.
Proof.
  revert b. induction l as [|sf l IH]; intros b Hb Hi Hs Hnd; simpl.
  { split_and!; [done..|]. by intros ? ? ?%elem_of_nil. }
  apply Forall_cons in Hs as [Hn Hs]. apply NoDup_cons in Hnd as [Hni Hnd].
  unfold bind. pose proof (putFile_spec id sf b Hb Hi Hn) as Hp. destruct (putFile id sf b) as [r b1].
  destruct Hp as (Hb1 & Hc1 & Hst). specialize (IH b1 Hb1 Hi Hs Hnd).
  destruct (run_all (putFile id) l b1) as [outs b2]. destruct IH as (Hb2 & Hf & Hc2 & Hall). cbn [ret].
  split_and!; [done|change (sf :: outs.*1 = sf :: l); by rewrite Hf| |].
  - intros k Hk Hne. rewrite not_elem_of_cons in Hne. rewrite Hc2, Hc1; [done|done|set_solver|done|set_solver].
  - intros sf' fe [E|Hin]%elem_of_cons; [injection E as -> Er|by apply Hall].
    eapply stored_changed; [done|done|exact Hc2| |by apply Hst].
    intros (sf' & E & Hin)%list_elem_of_fmap. apply data_key_inj in E as [_ E]; [|done|done|done|].
    + apply Hni. rewrite E. by apply list_elem_of_fmap_2.
    + rewrite Forall_forall in Hs. by apply Hs.
Qed.

Lemma check_sources_spec id seen l :
  check_sources id seen l = None →
  Forall (λ sf, safe_name (sf_name sf)) l ∧ NoDup (sf_name <$> l) ∧ ∀ sf, sf ∈ l → sf_name sf ∉ seen.
Proof.
  revert seen. induction l as [|f l IH]; intros seen; simpl.
  { intros _. split_and!; [constructor|constructor|]. by intros ? ?%elem_of_nil. }
  destruct (validateName (sf_name f)) eqn:En; [done|]. apply validateName_spec in En.
  case_bool_decide as Hs; [done|]. intros (Hf & Hnd & Hns)%IH. split_and!.
  - by constructor.
  - apply NoDup_cons. split; [|done]. intros (x & Hx & Hin)%list_elem_of_fmap. specialize (Hns x Hin). rewrite <- Hx in Hns. set_solver.
  - intros x [->|Hx]%elem_of_cons; [done|]. specialize (Hns x Hx). set_solver.
Qed.

Lemma first_error_None {A C} (err : C → option error) (outs : list (A * C)) :
  first_error err outs = None → ∀ a c, (a, c) ∈ outs → err c = None.
Proof.
  unfold first_error. induction outs as [|[a c] outs IH]; simpl; [by intros _ ? ? ?%elem_of_nil|].
  destruct (err c) eqn:E; simpl; [done|]. intros Hh a' c' [[= -> ->]|Hin]%elem_of_cons; [done|by apply (IH Hh a')].
Qed.

Lemma entry_of_spec id (outs : list (SourceFile * result FileEntry)) sf b :
  NoDup (sf_name <$> outs.*1) → sf ∈ outs.*1 → first_error result_err outs = None →
  (∀ sf fe, (sf, Ok fe) ∈ outs → stored id sf fe b) → stored id sf (entry_of outs sf) b.
Proof.
  intros Hnd Hin Hfe Hall. apply list_elem_of_fmap in Hin as ([sf' r] & -> & Hin). simpl.
  unfold entry_of. assert (List.find (λ p, String.eqb (sf_name p.1) (sf_name sf')) outs = Some (sf', r)) as ->.
  { clear Hfe Hall. induction outs as [|[f c] outs IH]; [by apply elem_of_nil in Hin|].
    cbn [List.find fst]. apply NoDup_cons in Hnd as [Hni Hnd]. apply elem_of_cons in Hin as [[= -> ->]|Hin]; [by rewrite String.eqb_refl|].
    destruct (String.eqb_spec (sf_name f) (sf_name sf')) as [E|]; [|by apply IH].
    exfalso. apply Hni. change (sf_name f ∈ sf_name <$> outs.*1). rewrite E. apply list_elem_of_fmap. exists sf'. split; [done|]. apply list_elem_of_fmap. by exists (sf', r). }
  destruct r as [fe|e]; [by apply Hall|]. by apply (first_error_None _ _ Hfe) in Hin.
Qed.

(** The data objects of a manifest are all stored, each with the size and the
    digest of its entry. *)
Definition complete (id : string) (m : Manifest) (b : B) : Prop :=
  Forall (λ fe, ∃ content, blob_at (objectKey id (zst (fe_name fe))) b = Some (Raw (zstd_encode content)) ∧
    fe_size fe = Z.of_nat (String.length content) ∧ fe_digest fe = sha256_hex content) (mf_files m).

(** The manifest [Put] builds from the entries. *)
Definition put_manifest (id : string) (rt : RuntimeVersions) (fes : list FileEntry) : Manifest :=
  mkManifest ManifestSchemaVersion id created_at CompressionZstd rt fes.

Definition manifest_key (id : string) : string := objectKey id manifestObject.

(** All files are uploaded and [fes] are their entries. *)
Definition uploaded (id : string) (files : list SourceFile) (fes : list FileEntry) (b : B) : Prop :=
  safe_segment id ∧ files ≠ [] ∧ Forall (λ sf, safe_name (sf_name sf)) files ∧ NoDup (sf_name <$> files) ∧
  Forall2 (λ sf fe, stored id sf fe b) files fes.

(** [Put] either stops before the manifest, which is then as it was, or has
    uploaded everything and tried to write it. *)
Lemma Put_cases id files rt b :
  blob_wf b →
  let '(r, b') := Put id files rt b in
  let now := blob_at (manifest_key id) b' in
  blob_wf b' ∧ (changed_only (manifest_key id :: (data_key id <$> files)) b b' ∧ (¬ safe_segment id → b' = b)) ∧
  ((is_Ok r = false ∧ now = blob_at (manifest_key id) b) ∨
   ∃ fes, let m := put_manifest id rt fes in
     uploaded id files fes b' ∧ (object_length (manifest_object m) ≤ maxManifestBytes)%Z ∧
     ((r = Ok m ∧ now = Some (manifest_object m)) ∨
      (is_Ok r = false ∧ (now = blob_at (manifest_key id) b ∨ now = None ∨ now = Some (manifest_object m))))).
Proof.
  intros Hb. unfold Put. destruct (validateSnapshotID id) eqn:Hi; [split_and!; [done..|by left]|].
  apply validateSnapshotID_spec in Hi.
  destruct files as [|f0 fs0]; [split_and!; [done..|by left]|]. set (files := f0 :: fs0).
  destruct (check_sources id ∅ files) eqn:Hc; [split_and!; [done..|by left]|].
  apply check_sources_spec in Hc as (Hs & Hnd & _).
  assert (Hs' : Forall (λ sf, safe_name (sf_name sf)) (schedule files)) by by rewrite schedule_perm.
  assert (Hnd' : NoDup (sf_name <$> schedule files)) by by rewrite schedule_perm.
  unfold bind. pose proof (upload_spec id _ b Hb Hi Hs' Hnd') as Hu.
  destruct (run_all (putFile id) (schedule files) b) as [outs b1]. destruct Hu as (Hb1 & Hf & Hch & Hall).
  assert (Hch' : changed_only (data_key id <$> files) b b1).
  { intros k Hk Hn. apply Hch; [done|]. by rewrite schedule_perm. }
  assert (Hmk : manifest_key id ∉ data_key id <$> files).
  { intros (sf & E & Hin)%list_elem_of_fmap. symmetry in E. rewrite Forall_forall in Hs.
    by apply (data_key_not_manifest id (sf_name sf) id) in E; [|done|apply Hs|done]. }
  assert (Hkeep : blob_at (manifest_key id) b1 = blob_at (manifest_key id) b) by (apply Hch'; [by apply store_key_manifest|done]).
  assert (Hch1 : ∀ b2, changed_only [manifest_key id] b1 b2 → changed_only (manifest_key id :: (data_key id <$> files)) b b2).
  { intros b2 H2 k Hk Hn. apply not_elem_of_cons in Hn as [? ?]. rewrite H2, Hch'; [done|done|done|done|set_solver]. }
  destruct (first_error result_err outs) as [err|] eqn:Hfe.
  { split_and!; [done|by apply Hch1|done|by left]. }
  set (m := mkManifest _ _ _ _ _ _).
  destruct (Z.ltb_spec maxManifestBytes (object_length (manifest_object m))) as [|Hlen].
  { split_and!; [done|by apply Hch1|done|by left]. }
  set (rd := mkReader (manifest_object m) None). fold (manifest_key id).
  assert (Hk : store_key (manifest_key id)) by by apply store_key_manifest.
  pose proof (Put_wf _ rd b1 Hb1 Hk) as Hwf. pose proof (Put_ok _ rd b1 Hb1 Hk) as Hok.
  pose proof (Put_err _ rd b1 Hb1 Hk) as Herr. cbv zeta in Herr.
  assert (Hch2 : changed_only [manifest_key id] b1 (snd (blob_Put (manifest_key id) rd b1))).
  { intros k Hk' Hne. apply Put_other; [done..|]. intros <-. apply Hne. left. }
  assert (Hup : ∀ b2, changed_only [manifest_key id] b1 b2 → uploaded id files (entry_of outs <$> files) b2).
  { intros b2 H2. split_and!; [done..|]. apply Forall2_fmap_r, Forall_Forall2_diag, Forall_forall. intros sf Hin.
    rewrite Forall_forall in Hs. eapply stored_changed; [done|by apply Hs|exact H2| |].
    - intros E%list_elem_of_singleton. by apply data_key_not_manifest in E; [|done|apply Hs|].
    - apply entry_of_spec; [by rewrite Hf| |done|done]. by rewrite Hf, schedule_perm. }
  destruct (blob_Put (manifest_key id) rd b1) as [[e|] b2]; cbn [fst snd] in *.
  - split_and!; [done|auto|done|]. right. exists (entry_of outs <$> files). split_and!; [by apply Hup|done|].
    right. split; [done|]. rewrite Hkeep in Herr. destruct Herr as [?|[?|[_ ?]]]; auto.
  - split_and!; [done|auto|done|]. right. exists (entry_of outs <$> files). split_and!; [by apply Hup|done|].
    left. split; [done|]. by apply Hok.
Qed.

Lemma uploaded_complete id files fes rt b : uploaded id files fes b → complete id (put_manifest id rt fes) b.
Proof.
  intros (_ & _ & _ & _ & Hs). unfold complete. cbn [mf_files put_manifest].
  induction Hs as [|sf fe files fes (c & _ & -> & Hat) _ IH]; constructor; [|done]. by exists c.
Qed.
End PutSpec.

(** * Reading a manifest *)

(** What the manifest returned for [id] satisfies, whatever the backend holds. *)
Definition manifest_ok (id : string) (m : Manifest) : Prop :=
  safe_segment id ∧ mf_id m = id ∧ mf_version m = ManifestSchemaVersion ∧ mf_compression m = CompressionZstd ∧
  files_ok (mf_files m) ∧ Forall (λ fe, fe_key fe = objectKey id (zst (fe_name fe))) (mf_files m).

Lemma accept_manifest_ok id m0 m :
  safe_segment id → accept_manifest id m0 = Ok m → manifest_ok id m.
Proof.
  intros Hi. unfold accept_manifest, ManifestSchemaVersion.
  destruct (Z.ltb_spec (mf_version m0) 1); [done|]. destruct (Z.ltb_spec 1 (mf_version m0)); [done|]. cbn [orb].
  destruct (String.eqb_spec (mf_compression m0) CompressionZstd); [|done].
  destruct (String.eqb_spec (mf_id m0) id); [|done]. cbn [negb].
  destruct (validateManifestFiles (mf_files m0)) eqn:Hv; [done|]. apply validateManifestFiles_spec in Hv as (Hne & Hf & Hnd).
  intros [= <-]. unfold manifest_ok, files_ok. cbn [mf_id mf_version mf_compression mf_files]. split_and!; try done.
  - unfold ManifestSchemaVersion. lia.
  - by destruct (mf_files m0).
  - by rewrite Forall_fmap.
  - by rewrite <- list_fmap_compose.
  - rewrite Forall_fmap. by apply Forall_true.
Qed.

(** A manifest whose keys are derived already is accepted as it is. *)
Lemma accept_manifest_id id m :
  mf_version m = ManifestSchemaVersion → mf_compression m = CompressionZstd → mf_id m = id → files_ok (mf_files m) →
  Forall (λ fe, fe_key fe = objectKey id (zst (fe_name fe))) (mf_files m) →
  accept_manifest id m = Ok m.
Proof.
  intros Hv Hc Hid Hf Hk. unfold accept_manifest. rewrite Hv, Hc, Hid. cbn [Z.ltb orb].
  rewrite !String.eqb_refl. cbn [negb ManifestSchemaVersion]. rewrite (proj2 (validateManifestFiles_spec _) Hf). simpl.
  assert ((λ fe, mkEntry (fe_name fe) (fe_role fe) (objectKey id (zst (fe_name fe))) (fe_size fe) (fe_csize fe) (fe_digest fe)) <$> mf_files m = mf_files m) as ->.
  { clear Hf. induction Hk as [|fe l E _ IH]; [done|]. cbn [fmap list_fmap]. f_equal; [|exact IH]. rewrite <- E. by destruct fe. }
  destruct m. simpl in *. by subst.
Qed.

Section ReadSpec.
Context {B : Type} `{HB : Blob B, !BlobLaws B} `{HCodec : Codec} `{HLocal : Local}.

Lemma get_manifest_same id b :
  blob_wf b → blob_wf (snd (get_manifest id b)) ∧ ∀ k, blob_at k (snd (get_manifest id b)) = blob_at k b.
Proof.
  intros Hb. unfold get_manifest. destruct (validateSnapshotID id); [done|]. unfold bind.
  pose proof (Get_same (objectKey id manifestObject) b Hb) as Hg. by destruct (blob_Get _ b).
Qed.

Lemma get_manifest_result id b m :
  blob_wf b → fst (get_manifest id b) = Ok m →
  safe_segment id ∧ ∃ o m0, blob_at (manifest_key id) b = Some o ∧ parse_manifest o = Some m0 ∧ accept_manifest id m0 = Ok m.
Proof.
  intros Hb. unfold get_manifest. destruct (validateSnapshotID id) eqn:Hi; [done|]. apply validateSnapshotID_spec in Hi.
  unfold bind. pose proof (Get_ok (objectKey id manifestObject) b) as Hg.
  destruct (blob_Get _ b) as [[rc|e] b']; cbn [fst ret] in *; [|by destruct (errors_Is _ _)].
  destruct (rd_error rc); [done|]. destruct (_ <? _)%Z; [done|].
  destruct (parse_manifest (rd_object rc)) as [m0|] eqn:Hp; [|done]. intros Ha. split; [done|].
  exists (rd_object rc), m0. split_and!; [|done|done]. apply Hg; [done|by apply store_key_manifest|done].
Qed.

(** The manifest that [Put] wrote is the one read. *)
Lemma get_put_manifest id rt fes b m' :
  let m := put_manifest id rt fes in
  blob_wf b → manifest_wf m → coerce_utf8 (enc_manifest m) = enc_manifest m →
  Forall (λ fe, fe_key fe = objectKey id (zst (fe_name fe))) fes →
  blob_at (manifest_key id) b = Some (manifest_object m) → fst (get_manifest id b) = Ok m' → m' = m.
Proof.
  intros m Hb Hwf Hu Hk Hat Hg. apply get_manifest_result in Hg as (Hi & o & m0 & Ho & Hp & Ha); [|done].
  rewrite Hat in Ho. injection Ho as <-. cbn [parse_manifest manifest_object] in Hp.
  rewrite Hu, dec_enc_manifest in Hp by done. injection Hp as <-.
  pose proof (accept_manifest_ok _ _ _ Hi Ha) as (_ & _ & _ & _ & _ & _).
  assert (Hf : files_ok (mf_files m)).
  { revert Ha. unfold accept_manifest. repeat (destruct (_ : bool); [done|]). destruct (validateManifestFiles (mf_files m)) eqn:Hv; [done|].
    intros _. by apply validateManifestFiles_spec. }
  rewrite accept_manifest_id in Ha by done. by injection Ha as <-.
Qed.
End ReadSpec.

(** * Restoring *)

(** The place of a file in a directory. *)
Definition place (dir n : string) : string := path_render true (path_elements dir ++ [n]).

Lemma join_one_below dir n : is_rooted dir = true → plain n → filepath_join [dir; n] = place dir n.
Proof. intros Hd Hn. change n with (join "/" [n]) at 1. rewrite filepath_join_below; [done|done|by apply Forall_singleton]. Qed.

Lemma place_elements dir n : is_rooted dir = true → plain n → path_elements (place dir n) = path_elements dir ++ [n].
Proof.
  intros Hd Hn. unfold place. rewrite path_elements_render; [done|]. apply Forall_app. split; [by apply path_elements_plain|by apply Forall_singleton].
Qed.

Lemma place_rooted dir n : is_rooted (place dir n) = true.
Proof. apply is_rooted_render. Qed.

Lemma place_inj dir n n' : is_rooted dir = true → plain n → plain n' → place dir n = place dir n' → n = n'.
Proof.
  intros Hd Hn Hn' E. apply (f_equal path_elements) in E. rewrite !place_elements in E by done. by simplify_list_eq.
Qed.

Section RestoreSpec.
Context {B : Type} `{HB : Blob B} `{HCodec : Codec} `{HLocal : Local}.

(** What is known of the backend ([Inv]) and of the data that decompress from the
    object of an entry ([good]). *)
Variable id : string.
Variable Inv : B → Prop.
Variable good : FileEntry → string → Prop.
Hypothesis Inv_Get : ∀ k b, Inv b → Inv (snd (blob_Get k b)).
Hypothesis good_Get : ∀ fe b rc data, Inv b → safe_name (fe_name fe) →
  fst (blob_Get (objectKey id (zst (fe_name fe))) b) = Ok rc → zstd_decode rc = (data, None) → good fe data.

Definition verified (fe : FileEntry) (data : string) : Prop :=
  Z.of_nat (String.length data) = fe_size fe ∧ sha256_hex data = fe_digest fe ∧ good fe data.

(** A limited copy of the declared size is the whole stream. *)
Lemma copy_limited_whole n out data :
  copy_limited (n + 1) out = (data, None) → Z.of_nat (String.length data) = n → out = (data, None).
Proof.
  unfold copy_limited, limited. destruct out as [s e]. cbn [fst snd]. intros [= Hd He] Hn.
  destruct (Z.leb_spec (Z.of_nat (String.length s)) (n + 1)) as [Hl|Hl].
  - subst data. destruct (Z.leb_spec (n + 1) (Z.of_nat (String.length s))); [lia|]. by subst.
  - destruct (substring_split (Z.to_nat (n + 1)) s ltac:(lia)) as [Hs _]. rewrite Hd in Hs. lia.
Qed.

Lemma getFile_spec dir fe (w : Restore B) :
  Inv (rs_blob w) →
  let '(r, w') := getFile id dir fe w in
  Inv (rs_blob w') ∧
  match r with
  | Some _ => rs_files w' = rs_files w
  | None => safe_name (fe_name fe) ∧ ∃ data, verified fe data ∧
      rs_files w' = <[filepath_join [dir; fe_name fe] := data]> (rs_files w)
  end.
Proof.
  intros Hi. unfold getFile. destruct (validateName (fe_name fe)) eqn:Hn; [done|]. apply validateName_spec in Hn.
  unfold bind, with_blob, local_checked, local_call, set_files, bind, ret.
  pose proof (Inv_Get (objectKey id (zst (fe_name fe))) (rs_blob w) Hi) as Hi'.
  pose proof (good_Get fe (rs_blob w)) as Hg.
  destruct (blob_Get _ (rs_blob w)) as [[rc|e] b']; cbn [fst snd] in *; [|done].
  destruct zstd_new_reader; [done|]. cbn [rs_tick rs_blob rs_files].
  destruct (local_fault _); [done|]. cbn [rs_tick rs_blob rs_files].
  destruct (copy_limited (fe_size fe + 1) (zstd_decode rc)) as [data end_error] eqn:Hc. cbn [rs_tick rs_blob rs_files].
  destruct end_error; [done|]. destruct (local_fault _); [done|]. cbn [rs_tick rs_blob rs_files].
  destruct (Z.eqb_spec (Z.of_nat (String.length data)) (fe_size fe)) as [Hlen|]; [|done]. cbn [negb].
  destruct (String.eqb_spec (sha256_hex data) (fe_digest fe)) as [Hsha|]; [|done]. cbn [negb].
  do 3 (cbn [rs_tick rs_blob rs_files]; destruct (local_fault _); [done|]).
  cbn [rs_tick rs_blob rs_files]. split; [done|]. split; [done|]. exists data. split; [|done].
  split_and!; [done|done|]. apply Hg with rc; [done|done|done|]. by apply copy_limited_whole with (fe_size fe).
Qed.

(** The file is in the directory, verified. *)
Definition in_dir (dir : string) (fe : FileEntry) (m : gmap string string) : Prop :=
  ∃ data, m !! place dir (fe_name fe) = Some data ∧ verified fe data.

Definition places (dir : string) (fes : list FileEntry) : list string := place dir ∘ fe_name <$> fes.

Lemma elem_of_places dir n fes : place dir n ∈ places dir fes → is_rooted dir = true → plain n →
  Forall (λ fe, plain (fe_name fe)) fes → n ∈ fe_name <$> fes.
Proof.
  intros (fe & E & Hin)%list_elem_of_fmap Hd Hn Hp. rewrite Forall_forall in Hp.
  apply place_inj in E; [|done|done|by apply Hp]. rewrite E. by apply list_elem_of_fmap_2.
Qed.

Lemma download_spec dir fes (w : Restore B) :
  is_rooted dir = true → Inv (rs_blob w) → Forall (λ fe, plain (fe_name fe)) fes → NoDup (fe_name <$> fes) →
  let '(outs, w') := run_all (getFile id dir) fes w in
  Inv (rs_blob w') ∧ (∀ p, p ∉ places dir fes → rs_files w' !! p = rs_files w !! p) ∧
  (first_error (λ e, e) outs = None → Forall (λ fe, in_dir dir fe (rs_files w')) fes).
Proof.
  intros Hd. revert w. induction fes as [|fe fes IH]; intros w Hi Hpl Hnd; simpl; [by split_and!|].
  apply NoDup_cons in Hnd as [Hni Hnd]. apply Forall_cons in Hpl as [Hn Hpl].
  unfold bind. pose proof (getFile_spec dir fe w Hi) as Hg. destruct (getFile id dir fe w) as [r w1]. destruct Hg as [Hi1 Hg].
  rewrite join_one_below in Hg by done.
  specialize (IH w1 Hi1 Hpl Hnd). destruct (run_all (getFile id dir) fes w1) as [outs w2]. destruct IH as (Hi2 & Hsame & Hall).
  cbn [ret]. split_and!; [done| |].
  - intros p Hp. cbn [places fmap list_fmap] in Hp. apply not_elem_of_cons in Hp as [Hp1 Hp2]. rewrite Hsame by done.
    destruct r; [by rewrite Hg|]. destruct Hg as (_ & data & _ & ->). by rewrite lookup_insert_ne by done.
  - unfold first_error. simpl. destruct r as [e|]; [done|]. simpl. intros Hf. specialize (Hall Hf).
    destruct Hg as (_ & data & Hv & Hw1). constructor; [|done]. exists data. split; [|done].
    rewrite Hsame, Hw1; [apply lookup_insert_eq|]. intros Hin. apply Hni. by apply elem_of_places in Hin.
Qed.

(** ** Moving the files into place *)

(** Removals do not fail. *)
Definition removals_work : Prop := ∀ n, remove_fault n = None.

Lemma roll_back_spec dest done (w : Restore B) p :
  removals_work →
  rs_files (snd (roll_back dest done w)) !! p =
    (if bool_decide (p ∈ (λ fe, filepath_join [dest; fe_name fe]) <$> done) then None else rs_files w !! p) ∧
  rs_blob (snd (roll_back dest done w)) = rs_blob w.
Proof.
  intros Hrm. revert w. induction done as [|fe done IH]; intros w; [done|].
  assert (roll_back dest (fe :: done) w =
    roll_back dest done (mkRestore (rs_blob w) (delete (filepath_join [dest; fe_name fe]) (rs_files w)) (S (rs_tick w)))) as ->.
  { unfold roll_back. cbn [for_each]. unfold bind at 1, try_remove at 1. by rewrite Hrm. }
  destruct (IH (mkRestore (rs_blob w) (delete (filepath_join [dest; fe_name fe]) (rs_files w)) (S (rs_tick w)))) as [IH1 IH2].
  rewrite IH1, IH2. cbn [rs_files rs_blob fmap list_fmap]. split; [|done].
  destruct (decide (p = filepath_join [dest; fe_name fe])) as [->|Hne].
  - rewrite lookup_delete_eq. rewrite (bool_decide_true (_ ∈ _ :: _)) by left. by case_bool_decide.
  - rewrite lookup_delete_ne by done. erewrite (bool_decide_ext (p ∈ _ :: _)); [reflexivity|]. rewrite elem_of_cons. naive_solver.
Qed.

Lemma path_clean_place dir n : is_rooted dir = true → plain n → path_clean (place dir n) = place dir n.
Proof. intros Hd Hn. unfold path_clean. by rewrite place_rooted, place_elements. Qed.

Section Promote.
Context (dest : string) (Hd : is_rooted dest = true) (Hstg : plain staging_name).

Definition stage : string := place dest staging_name.

Lemma under_stage_dest n : plain n → under stage (place dest n) ↔ n = staging_name.
Proof.
  intros Hn. unfold under, stage. rewrite !place_elements by done. split; [|by intros ->].
  intros [k Hk]. rewrite <- app_assoc in Hk. by simplify_list_eq.
Qed.

Lemma under_stage n : plain n → under stage (place stage n).
Proof. intros Hn. unfold under. rewrite (place_elements stage) by (done || apply place_rooted). by eexists. Qed.

Lemma in_dir_lookup dir fe m m' :
  m' !! place dir (fe_name fe) = m !! place dir (fe_name fe) → in_dir dir fe m → in_dir dir fe m'.
Proof. intros E (data & H1 & H2). exists data. by rewrite E. Qed.

Lemma places_app dir l l' : places dir (l ++ l') = places dir l ++ places dir l'.
Proof. apply fmap_app. Qed.

(** Nothing changed outside the staging directory but the given files, which were
    not there. *)
Definition adds_only (fes : list FileEntry) (m0 m : gmap string string) : Prop :=
  (∀ p, ¬ under stage p → p ∉ places dest fes → m !! p = m0 !! p) ∧
  Forall (λ fe, fe_name fe ≠ staging_name ∧ m0 !! place dest (fe_name fe) = None) fes.

Lemma roll_back_adds done m0 (w : Restore B) :
  removals_work → Forall (λ fe, plain (fe_name fe)) done → adds_only done m0 (rs_files w) →
  rs_blob (snd (roll_back dest done w)) = rs_blob w ∧
  ∀ p, ¬ under stage p → rs_files (snd (roll_back dest done w)) !! p = m0 !! p.
Proof.
  intros Hrm Hpl [Hsame Hnone]. split; [by apply (roll_back_spec dest done w "" Hrm)|]. intros p Hp.
  rewrite (proj1 (roll_back_spec dest done w p Hrm)).
  assert ((λ fe, filepath_join [dest; fe_name fe]) <$> done = places dest done) as ->.
  { apply list_fmap_ext. intros i fe Hi. apply join_one_below; [done|]. by eapply Forall_lookup_1 in Hi; [|exact Hpl]. }
  case_bool_decide as Hin; [|by apply Hsame].
  apply list_elem_of_fmap in Hin as (fe & -> & Hin). rewrite Forall_forall in Hnone. symmetry. by apply (Hnone fe).
Qed.

(** Whatever removal fails, the roll-back touches the given files only. *)
Lemma roll_back_other done (w : Restore B) p :
  Forall (λ fe, plain (fe_name fe)) done → p ∉ places dest done → rs_files (snd (roll_back dest done w)) !! p = rs_files w !! p.
Proof.
  unfold roll_back. revert w. induction done as [|fe done IH]; intros w Hpl Hp; [done|]. cbn [for_each]. unfold bind, try_remove.
  apply Forall_cons in Hpl as [Hn Hpl]. apply not_elem_of_cons in Hp as [Hne Hp].
  rewrite IH by done. cbn [rs_files]. destruct (remove_fault _); [done|]. rewrite join_one_below by done.
  apply lookup_delete_ne. intros E. by apply Hne.
Qed.

Lemma roll_back_blob done (w : Restore B) : rs_blob (snd (roll_back dest done w)) = rs_blob w.
Proof.
  unfold roll_back. revert w. induction done as [|fe done IH]; intros w; [done|]. cbn [for_each]. unfold bind, try_remove. by rewrite IH.
Qed.

(** Outside the staging directory no file of before has changed, and when the
    removals work nothing has. *)
Definition undone (m0 m : gmap string string) : Prop :=
  ∀ p, ¬ under stage p → (is_Some (m0 !! p) ∨ removals_work) → m !! p = m0 !! p.

(** What holds after an attempt to move [fes] into place. *)
Definition promoted (fes : list FileEntry) (m0 : gmap string string) (b : B) (rw : option error * Restore B) : Prop :=
  rs_blob (snd rw) = b ∧
  match fst rw with
  | None => adds_only fes m0 (rs_files (snd rw)) ∧ Forall (λ fe, in_dir dest fe (rs_files (snd rw))) fes
  | Some _ => undone m0 (rs_files (snd rw))
  end.

Lemma abandon_promoted done fes m0 e (w : Restore B) :
  Forall (λ fe, plain (fe_name fe)) done → adds_only done m0 (rs_files w) →
  promoted fes m0 (rs_blob w) (abandon dest done e w).
Proof.
  intros Hpd Hadd. unfold abandon, bind. pose proof (roll_back_blob done w) as Hb.
  pose proof (λ Hrm, roll_back_adds done m0 w Hrm Hpd Hadd) as Hr.
  pose proof (λ p, roll_back_other done w p Hpd) as Ho.
  destruct (roll_back dest done w) as [u w2]. split; [done|]. cbn [ret fst snd] in *. intros p Hp [[x Hx]|Hrm]; [|by apply Hr].
  destruct Hadd as [Hsame Hnone]. assert (Hin : p ∉ places dest done); [|by rewrite Ho, Hsame].
  intros (fe & -> & Hin)%list_elem_of_fmap. rewrite Forall_forall in Hnone. destruct (Hnone fe Hin) as [_ E]. discriminate (eq_trans (eq_sym Hx) E).
Qed.

Lemma stage_dest_ne n n' : plain n → plain n' → place stage n ≠ place dest n'.
Proof.
  intros Hn Hn' E%(f_equal path_elements). rewrite (place_elements stage), (place_elements dest) in E by (done || apply place_rooted).
  unfold stage in E. rewrite (place_elements dest) in E by done. apply (f_equal length) in E. rewrite !length_app in E. simpl in E. lia.
Qed.

(** One file moves from the staging directory to its place. *)
Lemma move_adds m0 m done fe data :
  Forall (λ fe, plain (fe_name fe)) done → plain (fe_name fe) → fe_name fe ∉ fe_name <$> done → fe_name fe ≠ staging_name →
  m !! place dest (fe_name fe) = None → adds_only done m0 m →
  adds_only (done ++ [fe]) m0 (<[place dest (fe_name fe) := data]> (delete (place stage (fe_name fe)) m)).
Proof.
  intros Hpd Hn Hni Hns Hnone [Hsame Hold]. split.
  - intros p Hp. rewrite places_app, not_elem_of_app. intros [Hp1 Hp2].
    assert (p ≠ place dest (fe_name fe)) by (intros ->; apply Hp2; left).
    assert (p ≠ place stage (fe_name fe)) by (intros ->; by apply Hp, under_stage).
    rewrite lookup_insert_ne, lookup_delete_ne by done. by apply Hsame.
  - apply Forall_app. split; [done|]. apply Forall_singleton. split; [done|]. rewrite <- Hsame; [done|by rewrite under_stage_dest|].
    intros Hin. apply Hni. by apply elem_of_places in Hin.
Qed.

Lemma promote_spec m0 done todo (w : Restore B) :
  Forall (λ fe, plain (fe_name fe)) (done ++ todo) → NoDup (fe_name <$> done ++ todo) →
  adds_only done m0 (rs_files w) → Forall (λ fe, in_dir dest fe (rs_files w)) done →
  Forall (λ fe, in_dir stage fe (rs_files w)) todo →
  promoted (done ++ todo) m0 (rs_blob w) (promoteRestored stage dest done todo w).
Proof.
  revert done w. induction todo as [|fe todo IH]; intros done w Hpl Hnd Hadd Hdone Htodo; cbn [promoteRestored].
  { by rewrite app_nil_r in *. }
  assert (Hpd : Forall (λ fe, plain (fe_name fe)) done) by by apply Forall_app in Hpl as [??].
  assert (Hn : plain (fe_name fe)) by (apply Forall_app in Hpl as [_ Hp']; by apply Forall_cons in Hp' as [??]).
  unfold bind at 1, local_call at 1. destruct (local_fault _); unfold bind at 1, get.
  { by apply (abandon_promoted done _ m0 _ (mkRestore (rs_blob w) (rs_files w) (S (rs_tick w)))). }
  cbn [rs_files]. rewrite !join_one_below by (done || apply place_rooted).
  unfold stage at 1. rewrite path_clean_place by done.
  destruct (bool_decide _ || _) eqn:Hex.
  { by apply (abandon_promoted done _ m0 _ (mkRestore (rs_blob w) (rs_files w) (S (rs_tick w)))). }
  apply orb_false_iff in Hex as [Hnone%bool_decide_eq_false Hns%String.eqb_neq].
  apply eq_None_not_Some in Hnone. assert (Hns' : fe_name fe ≠ staging_name) by (intros E; apply Hns; by rewrite E).
  unfold bind at 1, local_call at 1. cbn [rs_blob rs_files rs_tick].
  set (w1 := mkRestore _ _ (S (S _))).
  apply Forall_cons in Htodo as [(data & Hdata & Hv) Htodo].
  destruct (local_fault _); [by apply (abandon_promoted done _ m0 _ w1)|]. rewrite Hdata.
  unfold bind, set_files. cbn [rs_blob rs_files rs_tick w1].
  rewrite fmap_app in Hnd. pose proof Hnd as Hnd'. apply NoDup_app in Hnd' as (_ & Hdisj & Hnt).
  apply NoDup_cons in Hnt as [Hnt _].
  assert (Hni : fe_name fe ∉ fe_name <$> done) by (intros Hin; by apply (Hdisj _ Hin); left).
  change (promoted (done ++ fe :: todo) m0 (rs_blob w)) with
    (promoted (done ++ [fe] ++ todo) m0 (rs_blob (mkRestore (rs_blob w)
       (<[place dest (fe_name fe) := data]> (delete (place stage (fe_name fe)) (rs_files w))) (S (S (rs_tick w)))))).
  rewrite app_assoc. apply IH.
  - by rewrite <- app_assoc.
  - by rewrite <- app_assoc, fmap_app.
  - by apply move_adds.
  - cbn [rs_files]. apply Forall_app. split.
    + rewrite Forall_forall in Hdone, Hpd |- *. intros x Hx. eapply in_dir_lookup; [|by apply Hdone].
      rewrite lookup_insert_ne, lookup_delete_ne; [done|apply stage_dest_ne; [done|by apply Hpd]|].
      intros E%place_inj; [|done|done|by apply Hpd]. apply Hni. rewrite E. by apply list_elem_of_fmap_2.
    + apply Forall_singleton. exists data. split; [apply lookup_insert_eq|done].
  - cbn [rs_files]. assert (Hpt : Forall (λ fe, plain (fe_name fe)) todo).
    { apply Forall_app in Hpl as [_ Hp']. by apply Forall_cons in Hp' as [??]. }
    rewrite Forall_forall in Htodo, Hpt |- *. intros x Hx. eapply in_dir_lookup; [|by apply Htodo].
    rewrite lookup_insert_ne, lookup_delete_ne; [done| |].
    + intros E%place_inj; [|apply place_rooted|done|by apply Hpt]. apply Hnt. rewrite E. by apply list_elem_of_fmap_2.
    + intros E. symmetry in E. revert E. apply stage_dest_ne; [by apply Hpt|done].
Qed.

Lemma in_dir_places fes m0 m : adds_only fes m0 m → Forall (λ fe, fe_name fe ≠ staging_name) fes.
Proof. intros [_ Hf]. eapply Forall_impl; [exact Hf|]. by intros fe [? _]. Qed.

Lemma remove_all_lookup m p : ¬ under stage p → remove_all stage m !! p = m !! p.
Proof.
  intros Hp. unfold remove_all. destruct (m !! p) as [x|] eqn:E.
  - by apply map_lookup_filter_Some.
  - apply map_lookup_filter_None. by left.
Qed.

Lemma get_manifest_ok b m : fst (get_manifest id b) = Ok m → manifest_ok id m.
Proof.
  unfold get_manifest. destruct (validateSnapshotID id) eqn:Hi; [done|]. apply validateSnapshotID_spec in Hi.
  unfold bind. destruct (blob_Get _ b) as [[rc|e] b']; cbn [fst ret]; [|by destruct (errors_Is _ _)].
  destruct (rd_error rc); [done|]. destruct (_ <? _)%Z; [done|]. destruct (parse_manifest _); [|done]. by apply accept_manifest_ok.
Qed.

Lemma get_manifest_Inv b : Inv b → Inv (snd (get_manifest id b)).
Proof.
  intros Hb. unfold get_manifest. destruct (validateSnapshotID id); [done|]. unfold bind.
  pose proof (Inv_Get (objectKey id manifestObject) b Hb) as Hg. by destruct (blob_Get _ b).
Qed.

(** The removal of the staging directory at the end. *)
Lemma cleanup_spec {A} (r : A) (w : Restore B) :
  let '(r', w') := (try_remove (remove_all stage) ;;; ret r) w in
  r' = r ∧ (removals_work → ∀ p, under stage p → rs_files w' !! p = None) ∧ ∀ p, ¬ under stage p → rs_files w' !! p = rs_files w !! p.
Proof.
  unfold bind, try_remove. split_and!; [done| |]; cbn [ret rs_files].
  - intros Hrm p Hp. rewrite Hrm. apply map_lookup_filter_None. right. intros x _. by intros [].
  - intros p Hp. destruct (remove_fault _); [done|]. by apply remove_all_lookup.
Qed.

Lemma Get_cases (w : Restore B) :
  Inv (rs_blob w) →
  let '(r, w') := Get id dest w in
  match r with
  | Ok m => fst (get_manifest id (rs_blob w)) = Ok m ∧ manifest_ok id m ∧
      adds_only (mf_files m) (rs_files w) (rs_files w') ∧ Forall (λ fe, in_dir dest fe (rs_files w')) (mf_files m)
  | Err _ => undone (rs_files w) (rs_files w') ∧
      (removals_work → rs_files w' = rs_files w ∨ ∀ p, under stage p → rs_files w' !! p = None)
  end.
Proof.
  intros Hw. unfold Get. assert (Hquiet : undone (rs_files w) (rs_files w) ∧ (removals_work → rs_files w = rs_files w ∨ ∀ p, under stage p → rs_files w !! p = None))
    by (split; [by intros ?|by left]).
  destruct (validateSnapshotID id) eqn:Hid; [exact Hquiet|]. destruct (String.eqb dest ""); [exact Hquiet|].
  unfold bind at 1, with_blob. pose proof (get_manifest_ok (rs_blob w)) as Hok. pose proof (get_manifest_Inv _ Hw) as Hi.
  destruct (get_manifest id (rs_blob w)) as [[m|e] b1]; cbn [fst snd] in *; [|exact Hquiet].
  specialize (Hok m eq_refl). pose proof Hok as (_ & _ & _ & _ & (_ & Hf & Hnd) & _).
  unfold local_checked, bind at 1, local_call at 1. cbn [rs_tick rs_blob rs_files]. destruct (local_fault _); [exact Hquiet|].
  unfold bind at 1, local_call at 1. cbn [rs_tick rs_blob rs_files]. destruct (local_fault _); [exact Hquiet|].
  assert (staging_dir dest = stage) as -> by by apply join_one_below.
  set (w1 := mkRestore b1 (rs_files w) _). unfold bind at 1.
  assert (Hpl : Forall (λ fe, plain (fe_name fe)) (mf_files m)).
  { eapply Forall_impl; [exact Hf|]. intros fe [? _]. by apply safe_name_plain. }
  pose proof (download_spec stage (schedule (mf_files m)) w1 (place_rooted _ _) Hi) as Hdl.
  assert (Hpl' : Forall (λ fe, plain (fe_name fe)) (schedule (mf_files m))) by by rewrite schedule_perm.
  assert (Hnd' : NoDup (fe_name <$> schedule (mf_files m))) by by rewrite schedule_perm.
  specialize (Hdl Hpl' Hnd').
  destruct (run_all (getFile id stage) (schedule (mf_files m)) w1) as [outs w2]. destruct Hdl as (_ & Hsame & Hall).
  rewrite schedule_perm in Hall.
  assert (Hsame' : ∀ p, ¬ under stage p → rs_files w2 !! p = rs_files w !! p).
  { intros p Hp. rewrite Hsame; [done|]. unfold places. rewrite schedule_perm. intros (fe & -> & Hin)%list_elem_of_fmap.
    rewrite Forall_forall in Hpl. by apply Hp, under_stage, Hpl. }
  unfold bind at 1. destruct (first_error (λ e, e) outs) as [err|] eqn:Hfe.
  { pose proof (cleanup_spec (A:=result Manifest) (Err (Errorf "snapshotstore: restore snapshot %q: %w" [AStr id; AWrap err])) w2) as Hc.
    cbn [ret]. destruct ((try_remove (remove_all stage) ;;; _) w2) as [r w3]. destruct Hc as (-> & Hst & Hc).
    split; [intros p Hp _; by rewrite Hc, Hsame'|auto]. }
  assert (Hp : promoted (mf_files m) (rs_files w) (rs_blob w2) (promoteRestored stage dest [] (mf_files m) w2)).
  { apply (promote_spec (rs_files w) [] (mf_files m) w2); [done|done| |done|by apply Hall].
    split; [|constructor]. intros p Hp _. by apply Hsame'. }
  unfold bind at 1. destruct (promoteRestored stage dest [] (mf_files m) w2) as [[err|] w3]; destruct Hp as [_ Hp]; cbn [fst snd ret] in *.
  - pose proof (cleanup_spec (A:=result Manifest) (Err (Errorf "snapshotstore: commit restored snapshot %q: %w" [AStr id; AWrap err])) w3) as Hc.
    destruct ((try_remove (remove_all stage) ;;; _) w3) as [r w4]. destruct Hc as (-> & Hst & Hc).
    split; [intros p Hn Hor; rewrite Hc by done; by apply Hp|auto].
  - pose proof (cleanup_spec (A:=result Manifest) (Ok m) w3) as Hc.
    destruct ((try_remove (remove_all stage) ;;; _) w3) as [r w4]. destruct Hc as (-> & _ & Hc).
    destruct Hp as [Hadd Hin]. split_and!; [done|done| |].
    + destruct Hadd as [Ha1 Ha2]. split; [|done]. intros p Hn Hni. by rewrite Hc, Ha1.
    + pose proof (in_dir_places _ _ _ Hadd) as Hns. rewrite Forall_forall in Hin, Hns, Hpl |- *. intros fe Hfe'.
      eapply in_dir_lookup; [|by apply Hin]. apply Hc. rewrite under_stage_dest by by apply Hpl. by apply Hns.
Qed.
End Promote.
End RestoreSpec.

(** * The guarantees *)

Section Guarantees.
Context {B : Type} `{HB : Blob B, !BlobLaws B} `{HCodec : Codec} `{HLocal : Local}.

Lemma other_id_kept id id' n files b b' :
  safe_segment id → safe_segment id' → plain n → id' ≠ id → Forall (λ sf, safe_name (sf_name sf)) files →
  changed_only (manifest_key id :: (data_key id <$> files)) b b' → blob_at (objectKey id' n) b' = blob_at (objectKey id' n) b.
Proof.
  intros Hi Hi' Hn Hne Hs Hch. apply Hch; [by exists id', n|]. apply not_elem_of_cons. split.
  - intros [E _]%objectKey_inj; auto with go.
  - intros (sf & E & Hin)%list_elem_of_fmap. rewrite Forall_forall in Hs.
    apply objectKey_inj in E as [E _]; [done|done|done|done|]. by apply plain_zst, safe_name_plain, Hs.
Qed.

(** C10: A snapshot id becomes visible only complete: after putting under a fresh
    id, whatever fails, either no manifest is there and the put reported an error,
    or the manifest is there and every file it lists is stored with its size and
    digest; the put never reports success without it. *)
Theorem Put_commits_last (id : string) (files : list SourceFile) (rt : RuntimeVersions) (b : B)
    (Hb : blob_wf b) (Hfresh : blob_at (manifest_key id) b = None) :
  let '(r, b') := Put id files rt b in
  (blob_at (manifest_key id) b' = None ∧ is_Ok r = false) ∨
  ∃ m, blob_at (manifest_key id) b' = Some (manifest_object m) ∧ complete id m b' ∧ ∀ m', r = Ok m' → m' = m.
Proof.
  pose proof (Put_cases id files rt b Hb) as Hp. destruct (Put id files rt b) as [r b'].
  destruct Hp as (_ & _ & [[Hr Hn]|(fes & Hu & _ & Hc)]); [left; by rewrite Hn|]. rewrite Hfresh in Hc.
  apply (uploaded_complete _ _ _ rt) in Hu.
  destruct Hc as [[-> Hn]|[Hr [Hn|[Hn|Hn]]]]; [right|by left|by left|right]; eexists; (split_and!; [exact Hn|done|]).
  - by intros m' [= ->].
  - intros m' ->. done.
Qed.

(** C9: What was put is what is restored: when a restore of a snapshot that was
    put succeeds, it returns the manifest the put returned and every source file
    is in the destination with the content it had. *)
Theorem Get_restores_what_was_put (id dest : string) (files : list SourceFile) (rt : RuntimeVersions) (b : B)
    (m : Manifest) (w : Restore B)
    (Hb : blob_wf b) (Hput : Put id files rt b = (Ok m, rs_blob w)) (Hwf : manifest_wf m)
    (Hutf8 : coerce_utf8 (enc_manifest m) = enc_manifest m)
    (Hdest : is_rooted dest = true) (Hstg : plain staging_name) :
  let '(r, w') := Get id dest w in
  ∀ m', r = Ok m' → m' = m ∧
    ∀ sf, sf ∈ files → ∃ content, source (sf_path sf) = Ok (content, None) ∧
      rs_files w' !! place dest (sf_name sf) = Some content.
Proof.
  pose proof (Put_cases id files rt b Hb) as Hp. rewrite Hput in Hp.
  destruct Hp as (Hb1 & _ & [[? _]|(fes & (Hi & _ & Hs & Hnd & Hst) & _ & Hc)]); [done|].
  destruct Hc as [[[= ->] Hat]|[? _]]; [|done].
  pose proof (Get_cases id (λ b', blob_wf b' ∧ ∀ k, blob_at k b' = blob_at k (rs_blob w))
    (λ fe data, ∀ content, blob_at (objectKey id (zst (fe_name fe))) (rs_blob w) = Some (Raw (zstd_encode content)) → data = content)) as HG.
  specialize (λ H1 H2, HG H1 H2 dest Hdest Hstg w).
  destruct (Get id dest w) as [r w']. intros m' ->. destruct HG as (Hm & _ & _ & Hin).
  - intros k b' [H1 H2]. destruct (Get_same k b' H1) as [H3 H4]. split; [done|]. intros k'. by rewrite H4.
  - intros fe b' rc data [H1 H2] Hn Hg Hdec content Hc. rewrite <- H2 in Hc.
    pose proof (Get_ok _ _ _ H1 (store_key_zst _ _ Hi Hn) Hg) as Ho. rewrite Hc in Ho. injection Ho as Ho.
    destruct rc as [o [e|]]; cbn [rd_object] in Ho; subst o.
    + destruct (decode_broken (mkReader (Raw (zstd_encode content)) (Some e))) as [? E]; [by eexists|]. by rewrite Hdec in E.
    + rewrite decode_encode in Hdec. by injection Hdec as <-.
  - done.
  - apply (get_put_manifest id rt fes) in Hm; [|done..| |done].
    2:{ clear -Hst. induction Hst as [|sf fe l l' (c & _ & -> & _) _ IH]; by constructor. }
    split; [done|]. subst m'. intros sf Hsf. apply list_elem_of_lookup in Hsf as [i Hsf].
    destruct (Forall2_lookup_l _ _ _ _ _ Hst Hsf) as (fe & Hfe & content & Hsrc & -> & Hat').
    exists content. split; [done|]. eapply Forall_lookup_1 in Hin as (data & Hdata & _ & _ & Hgood); [|exact Hfe].
    by rewrite <- (Hgood content Hat').
Qed.
End Guarantees.

(** * Listing *)

Lemma has_suffix_iff p s : has_suffix p s = true ↔ ∃ r, s = r +:+ p.
Proof.
  unfold has_suffix. rewrite has_prefix_iff. split.
  - intros [r Hr]. exists (string_rev r). by rewrite <- (string_rev_involutive s), Hr, string_rev_app_distr, string_rev_involutive.
  - intros [r ->]. exists (string_rev r). apply string_rev_app_distr.
Qed.

Lemma manifest_id_spec k id : manifest_id k = Some id ↔ safe_segment id ∧ k = manifest_key id.
Proof.
  unfold manifest_id. destruct (has_suffix _ k) eqn:Hs.
  - apply has_suffix_iff in Hs as [r ->]. rewrite trim_suffix_app. destruct (validateSnapshotID r) eqn:Hv.
    + split; [done|]. intros [Hi E]. assert (r = id) as ->.
      { unfold manifest_key, objectKey in E. by apply string_app_inj_r in E. }
      by rewrite (proj2 (validateSnapshotID_spec _) Hi) in Hv.
    + apply validateSnapshotID_spec in Hv. split; [by intros [= ->]|]. intros [_ E].
      unfold manifest_key, objectKey in E. apply string_app_inj_r in E. by subst.
  - split; [done|]. intros [_ ->]. assert (has_suffix ("/" +:+ manifestObject) (manifest_key id) = true) as E; [|by rewrite E in Hs].
    apply has_suffix_iff. by exists id.
Qed.

Section ListSpec.
Context {B : Type} `{HB : Blob B, !BlobLaws B}.

(** Listing gives exactly the ids of the committed snapshots, each once and
    in order: those that have a manifest. *)
Theorem list_ids_spec (b : B) (ids : list string) (Hb : blob_wf b) (Hlist : fst (list_ids b) = Ok ids) :
  StronglySorted String.le ids ∧ NoDup ids ∧
  ∀ id, id ∈ ids ↔ safe_segment id ∧ is_Some (blob_at (manifest_key id) b).
Proof.
  unfold list_ids, bind in Hlist. pose proof (List_NoDup b) as Hnd. pose proof (List_manifests b) as Hm.
  destruct (blob_List "" b) as [[keys|e] b']; [|done]. cbn [fst ret] in *. injection Hlist as <-.
  specialize (Hnd keys Hb eq_refl). split; [apply StronglySorted_merge_sort; apply _|]. rewrite merge_sort_Permutation. split.
  - clear Hm. induction Hnd as [|k keys Hni _ IH]; simpl; [constructor|].
    destruct (manifest_id k) as [i|] eqn:E; [|done]. apply NoDup_cons. split; [|done].
    intros (k' & Hk' & E')%list_elem_of_omap. apply manifest_id_spec in E as [_ ->], E' as [_ ->]. done.
  - intros id. rewrite merge_sort_Permutation, list_elem_of_omap. split.
    + intros (k & Hk & [Hi ->]%manifest_id_spec). split; [done|]. by apply (Hm keys).
    + intros [Hi Hat]. exists (manifest_key id). split; [|by apply manifest_id_spec]. by apply (Hm keys).
Qed.
End ListSpec.

(** * A restore that meets no fault succeeds *)

Section Progress.
Context {B : Type} `{HB : Blob B, !BlobLaws B} `{HCodec : Codec} `{HLocal : Local}.
Context (Hcalls : ∀ n, local_fault n = None) (Hreader : zstd_new_reader = None).
(** The backend can be read. *)
Context (Hreads : ∀ k b o, blob_wf b → store_key k → blob_at k b = Some o → fst (blob_Get k b) = Ok (mkReader o None)).
Context (id dest : string) (Hi : safe_segment id) (Hdest : is_rooted dest = true) (Hstg : plain staging_name).

(** The object of the entry is there, as the entry says. *)
Definition available (b : B) (fe : FileEntry) : Prop :=
  safe_name (fe_name fe) ∧ ∃ content, blob_at (objectKey id (zst (fe_name fe))) b = Some (Raw (zstd_encode content)) ∧
    fe_size fe = Z.of_nat (String.length content) ∧ fe_digest fe = sha256_hex content.

Lemma getFile_ok dir fe (w : Restore B) :
  blob_wf (rs_blob w) → available (rs_blob w) fe → fst (getFile id dir fe w) = None.
Proof.
  intros Hb (Hn & c & Hat & Hsz & Hd). unfold getFile. rewrite (proj2 (validateName_spec _) Hn).
  unfold bind, with_blob, local_checked, local_call, set_files, bind, ret.
  pose proof (Hreads _ _ _ Hb (store_key_zst _ _ Hi Hn) Hat) as Hr.
  destruct (blob_Get _ (rs_blob w)) as [r b']. cbn [fst] in Hr. subst r. rewrite Hreader. cbn [rs_tick rs_blob rs_files].
  rewrite Hcalls, decode_encode. unfold copy_limited, limited. cbn [fst snd].
  destruct (Z.leb_spec (Z.of_nat (String.length c)) (fe_size fe + 1)); [|lia].
  destruct (Z.leb_spec (fe_size fe + 1) (Z.of_nat (String.length c))); [lia|].
  cbn [rs_tick rs_blob rs_files]. rewrite Hcalls. rewrite (proj2 (Z.eqb_eq _ _) (eq_sym Hsz)). cbn [negb].
  rewrite Hd, String.eqb_refl. cbn [negb]. repeat (cbn [rs_tick rs_blob rs_files]; rewrite Hcalls). done.
Qed.

Lemma getFile_keeps dir fe (w : Restore B) :
  blob_wf (rs_blob w) → blob_wf (rs_blob (snd (getFile id dir fe w))) ∧
  ∀ k, blob_at k (rs_blob (snd (getFile id dir fe w))) = blob_at k (rs_blob w).
Proof.
  intros Hb. pose proof (getFile_spec id (λ b', blob_wf b' ∧ ∀ k, blob_at k b' = blob_at k (rs_blob w)) (λ _ _, True)) as Hg.
  specialize (λ H1 H2, Hg H1 H2 dir fe w). destruct (getFile id dir fe w) as [r w']. apply Hg; [|done|done].
  intros k b' [H1 H2]. destruct (Get_same k b' H1) as [H3 H4]. split; [done|]. intros k'. by rewrite H4.
Qed.

Lemma download_ok dir fes (w : Restore B) :
  blob_wf (rs_blob w) → Forall (available (rs_blob w)) fes → first_error (λ e, e) (fst (run_all (getFile id dir) fes w)) = None.
Proof.
  revert w. induction fes as [|fe fes IH]; intros w Hb Hf; [done|]. apply Forall_cons in Hf as [Hfe Hf]. cbn [run_all]. unfold bind.
  pose proof (getFile_ok dir fe w Hb Hfe) as Hok. pose proof (getFile_keeps dir fe w Hb) as [Hb1 Hk].
  destruct (getFile id dir fe w) as [r w1]. cbn [fst snd] in *. subst r.
  assert (Hf1 : Forall (available (rs_blob w1)) fes).
  { eapply Forall_impl; [exact Hf|]. intros x (Hn & c & Hat & ?). split; [done|]. exists c. by rewrite Hk. }
  specialize (IH w1 Hb1 Hf1). destruct (run_all (getFile id dir) fes w1) as [outs w2]. exact IH.
Qed.

Lemma promote_ok moved todo (w : Restore B) :
  Forall (λ fe, plain (fe_name fe) ∧ fe_name fe ≠ staging_name ∧ rs_files w !! place dest (fe_name fe) = None ∧
    is_Some (rs_files w !! place (stage dest) (fe_name fe))) todo →
  NoDup (fe_name <$> todo) → fst (promoteRestored (stage dest) dest moved todo w) = None.
Proof.
  revert moved w. induction todo as [|fe todo IH]; intros moved w Hf Hnd; [done|].
  apply Forall_cons in Hf as [(Hn & Hns & Hnone & data & Hdata) Hf]. apply NoDup_cons in Hnd as [Hni Hnd]. cbn [promoteRestored].
  unfold bind at 1, local_call at 1. rewrite Hcalls. unfold bind at 1, get. cbn [rs_files].
  rewrite !join_one_below by (done || apply place_rooted). rewrite Hnone. unfold stage at 1. rewrite path_clean_place by done.
  rewrite bool_decide_false by by intros [? ?].
  destruct (String.eqb_spec (place dest (fe_name fe)) (place dest staging_name)) as [E|_]; [by apply place_inj in E|]. cbn [orb].
  unfold bind at 1, local_call at 1. rewrite Hcalls, Hdata. unfold bind, set_files. cbn [rs_files rs_blob rs_tick].
  apply IH; [|done]. cbn [rs_files]. rewrite Forall_forall in Hf |- *. intros x Hx. destruct (Hf x Hx) as (Hxn & Hxs & Hx1 & Hx2).
  assert (fe_name fe ≠ fe_name x) by (intros E; apply Hni; rewrite E; by apply list_elem_of_fmap_2).
  split_and!; [done|done| |].
  - rewrite lookup_insert_ne, lookup_delete_ne; [done|by apply stage_dest_ne|]. by intros E%place_inj.
  - rewrite lookup_insert_ne, lookup_delete_ne; [done| |].
    + by intros E%place_inj; [|apply place_rooted| |].
    + intros E. symmetry in E. revert E. by apply stage_dest_ne.
Qed.

Lemma get_manifest_succeeds rt fes b :
  let m := put_manifest id rt fes in
  blob_wf b → manifest_wf m → coerce_utf8 (enc_manifest m) = enc_manifest m → files_ok fes →
  (object_length (manifest_object m) ≤ maxManifestBytes)%Z →
  Forall (λ fe, fe_key fe = objectKey id (zst (fe_name fe))) fes →
  blob_at (manifest_key id) b = Some (manifest_object m) → fst (get_manifest id b) = Ok m.
Proof.
  intros m Hb Hwf Hu Hf Hlen Hk Hat. unfold get_manifest. rewrite (proj2 (validateSnapshotID_spec _) Hi). unfold bind.
  pose proof (Hreads _ _ _ Hb (store_key_manifest _ Hi) Hat) as Hr. destruct (blob_Get _ b) as [r b']. cbn [fst ret] in *. subst r.
  cbn [rd_error rd_object]. rewrite (proj2 (Z.ltb_ge _ _) Hlen). cbn [parse_manifest manifest_object].
  rewrite Hu, dec_enc_manifest by done. by apply accept_manifest_id.
Qed.

(** The whole restore, from a readable manifest whose objects are there. *)
Lemma Get_ok_lemma m (w : Restore B) :
  blob_wf (rs_blob w) → fst (get_manifest id (rs_blob w)) = Ok m → files_ok (mf_files m) →
  Forall (available (rs_blob w)) (mf_files m) →
  Forall (λ fe, fe_name fe ≠ staging_name ∧ rs_files w !! place dest (fe_name fe) = None) (mf_files m) →
  dest ≠ "" → fst (Get id dest w) = Ok m.
Proof.
  intros Hb Hm (_ & Hf & Hnd) Hav Hfree Hne. unfold Get. rewrite (proj2 (validateSnapshotID_spec _) Hi).
  destruct (String.eqb_spec dest "") as [|_]; [done|]. unfold bind at 1, with_blob.
  destruct (get_manifest_same id (rs_blob w) Hb) as [Hb1 Hk]. destruct (get_manifest id (rs_blob w)) as [r b1]. cbn [fst snd] in *. subst r.
  unfold local_checked, bind at 1, local_call at 1. cbn [rs_tick rs_blob rs_files]. rewrite Hcalls.
  unfold bind at 1, local_call at 1. cbn [rs_tick rs_blob rs_files]. rewrite Hcalls.
  assert (staging_dir dest = stage dest) as -> by by apply join_one_below.
  set (w1 := mkRestore b1 (rs_files w) _). unfold bind at 1.
  assert (Hpl : Forall (λ fe, plain (fe_name fe)) (mf_files m)).
  { eapply Forall_impl; [exact Hf|]. intros fe [? _]. by apply safe_name_plain. }
  assert (Hpl' : Forall (λ fe, plain (fe_name fe)) (schedule (mf_files m))) by by rewrite schedule_perm.
  assert (Hnd' : NoDup (fe_name <$> schedule (mf_files m))) by by rewrite schedule_perm.
  assert (Hav' : Forall (available b1) (schedule (mf_files m))).
  { rewrite schedule_perm. eapply Forall_impl; [exact Hav|]. intros x (Hn & c & Hat & ?). split; [done|]. exists c. by rewrite Hk. }
  pose proof (download_spec id (λ _, True) (λ _ _, True) (λ _ _ _, I) (λ _ _ _ _ _ _ _ _, I) (stage dest) _ w1 (place_rooted _ _) I Hpl' Hnd') as Hdl.
  pose proof (download_ok (stage dest) _ w1 Hb1 Hav') as Hok.
  destruct (run_all (getFile id (stage dest)) (schedule (mf_files m)) w1) as [outs w2]. cbn [fst] in Hok. rewrite Hok.
  destruct Hdl as (_ & Hsame & Hall). specialize (Hall Hok). rewrite schedule_perm in Hall.
  assert (Hpr : fst (promoteRestored (stage dest) dest [] (mf_files m) w2) = None).
  { apply promote_ok; [|done]. rewrite Forall_forall in Hpl, Hfree, Hall |- *. intros fe Hin.
    destruct (Hfree fe Hin) as [Hns Hnone]. destruct (Hall fe Hin) as (data & Hdata & _). split_and!; [by apply Hpl|done| |by eexists].
    rewrite Hsame; [done|]. unfold places. rewrite schedule_perm. intros (x & E & Hx)%list_elem_of_fmap. symmetry in E.
    by apply stage_dest_ne in E; [| | |apply Hpl|apply Hpl]. }
  unfold bind at 1, bind at 1. destruct (promoteRestored (stage dest) dest [] (mf_files m) w2) as [e w3]. cbn [fst] in Hpr. by subst e.
Qed.

(** A restore that meets no fault succeeds: right after a put that
    succeeded, with a backend that can be read, local calls that work and the
    names free in the destination, the restore returns the manifest of the put,
    provided no file is larger than a manifest may say. *)
Theorem Get_after_Put_succeeds (files : list SourceFile) (rt : RuntimeVersions) (b : B) (m : Manifest) (w : Restore B)
    (Hb : blob_wf b) (Hput : Put id files rt b = (Ok m, rs_blob w)) (Hwf : manifest_wf m)
    (Hutf8 : coerce_utf8 (enc_manifest m) = enc_manifest m)
    (Hsize : Forall (λ fe, fe_size fe ≤ maxFileSize)%Z (mf_files m))
    (Hfree : ∀ sf, sf ∈ files → sf_name sf ≠ staging_name ∧ rs_files w !! place dest (sf_name sf) = None) :
  fst (Get id dest w) = Ok m.
Proof.
  pose proof (Put_cases id files rt b Hb) as Hp. rewrite Hput in Hp.
  destruct Hp as (Hb1 & _ & [[? _]|(fes & (_ & Hne & Hs & Hnd & Hst) & Hlen & Hc)]); [done|].
  destruct Hc as [[[= ->] Hat]|[? _]]; [|done]. cbn [mf_files put_manifest] in Hsize.
  assert (Hall : Forall (λ fe, safe_name (fe_name fe) ∧ fe_key fe = objectKey id (zst (fe_name fe)) ∧ (0 ≤ fe_size fe)%Z ∧ available (rs_blob w) fe ∧
      fe_name fe ≠ staging_name ∧ rs_files w !! place dest (fe_name fe) = None) fes ∧ fe_name <$> fes = sf_name <$> files).
  { clear -Hst Hs Hfree. induction Hst as [|sf fe l l' (c & _ & -> & Hat) _ IH]; [by split|]. apply Forall_cons in Hs as [Hn Hs].
    destruct IH as [IH1 IH2]; [intros x Hx; apply Hfree; by right|done|]. split; [|cbn [fmap list_fmap]; f_equal; exact IH2]. constructor; [|done].
    destruct (Hfree sf ltac:(left)). split_and!; try done; [simpl; lia|]. split; [done|]. by exists c. }
  destruct Hall as [Hall Hnames].
  assert (Hfok : files_ok fes).
  { split; [by intros ->; inversion Hst; subst|]. rewrite Hnames. split; [|done]. apply Forall_forall. intros fe Hin.
    rewrite Forall_forall in Hall, Hsize. destruct (Hall fe Hin) as (?&?&?&?&?). split; [done|]. split; [done|by apply Hsize]. }
  apply Get_ok_lemma; [done| |done| | |by intros ->].
  - apply get_manifest_succeeds; try done. eapply Forall_impl; [exact Hall|naive_solver].
  - eapply Forall_impl; [exact Hall|naive_solver].
  - eapply Forall_impl; [exact Hall|naive_solver].
Qed.
End Progress.

Section Untrusted.
Context {B : Type} `{HB : Blob B} `{HCodec : Codec} `{HLocal : Local}.

(** C11: Whatever the backend answers, lawful or not, a restore that succeeds
    returns a manifest for the id asked for, with safe distinct names; every file
    it lists is in the destination with the declared size and digest, was not
    there before, and no other file outside the staging directory changed. *)
Theorem Get_verifies (id dest : string) (w : Restore B)
    (Hdest : is_rooted dest = true) (Hstg : plain staging_name) :
  let '(r, w') := Get id dest w in
  ∀ m, r = Ok m → manifest_ok id m ∧
    (∀ fe, fe ∈ mf_files m → rs_files w !! place dest (fe_name fe) = None ∧
       ∃ data, rs_files w' !! place dest (fe_name fe) = Some data ∧
         Z.of_nat (String.length data) = fe_size fe ∧ sha256_hex data = fe_digest fe) ∧
    ∀ p, ¬ under (place dest staging_name) p → p ∉ places dest (mf_files m) → rs_files w' !! p = rs_files w !! p.
Proof.
  pose proof (Get_cases id (λ _, True) (λ _ _, True) (λ _ _ _, I) (λ _ _ _ _ _ _ _ _, I) dest Hdest Hstg w I) as HG.
  destruct (Get id dest w) as [r w']. intros m ->. destruct HG as (_ & Hok & [Hsame Hold] & Hin).
  split; [done|]. split; [|exact Hsame]. intros fe Hfe. rewrite Forall_forall in Hold, Hin.
  split; [by apply Hold|]. destruct (Hin fe Hfe) as (data & H1 & H2 & H3 & _). by exists data.
Qed.

(** C12: A restore to an absolute path that fails leaves every file that was
    there as it was, whatever fails.  When the removals succeed (the code ignores
    their failures: of the files already moved into place, and of the staging
    directory), the files are exactly those there were before: no restored file
    stays behind, in place or in the staging directory, which is assumed new, as
    [os.MkdirTemp] makes it.  (The destination directory itself, made if missing,
    may stay: only files are counted.) *)
Theorem Get_failure_changes_nothing (id dest : string) (w : Restore B)
    (Hdest : is_rooted dest = true) (Hstg : plain staging_name)
    (Hnew : ∀ p, under (place dest staging_name) p → rs_files w !! p = None) :
  let '(r, w') := Get id dest w in
  is_Ok r = false →
    (∀ p data, rs_files w !! p = Some data → rs_files w' !! p = Some data) ∧
    ((∀ n, remove_fault n = None) → rs_files w' = rs_files w).
Proof.
  pose proof (Get_cases id (λ _, True) (λ _ _, True) (λ _ _ _, I) (λ _ _ _ _ _ _ _ _, I) dest Hdest Hstg w I) as HG.
  destruct (Get id dest w) as [[m|e] w']; [done|]. destruct HG as [Hu Hs]. intros _. split.
  - intros p data Hp. rewrite (Hu p); [done| |left; by eexists]. intros Hin. by rewrite (Hnew p Hin) in Hp.
  - intros Hrm. destruct (Hs Hrm) as [|Hgone]; [done|]. apply map_eq. intros p.
    destruct (decide (under (place dest staging_name) p)) as [Hin|Hout]; [by rewrite Hgone, Hnew|].
    apply (Hu p Hout). by right.
Qed.
End Untrusted.

(** * Examples: the file-system backend *)

(** The n-th calls fail. *)
Definition io_error : error := ErrorsNew "input/output error".

Definition disk_failing (calls : list nat) : Disk.
Proof.
  refine {| disk_fault n := if bool_decide (n ∈ calls) then Some io_error else None |}.
  intros n e. case_bool_decide; [|done]. by intros [= <-].
Defined.

(** No compression. *)
Definition plain_codec : Codec.
Proof.
  refine {| zstd_encode s := s;
    zstd_decode r := match rd_object r with Raw s => (s, rd_error r) | Doc _ _ => ("", Some (ErrorsNew "magic number mismatch")) end;
    zstd_new_writer := None; zstd_new_reader := None |}; [done|].
  intros [[s|len v] e]; cbn; [done|]. by eexists.
Defined.

(** Sources from a table; the transfers complete in reverse order. *)
Definition example_local (sources : list (string * string)) : Local.
Proof.
  refine {| source p := match List.find (λ kv, String.eqb (fst kv) p) sources with
      | Some (_, c) => Ok (c, None) | None => Err (ErrorsNew ErrNotExist) end;
    schedule := λ A l, reverse l; created_at := "2024-05-01T12:00:00Z";
    local_fault _ := None; remove_fault _ := None; staging_name := ".restore-1" |}.
  intros A l. apply reverse_Permutation.
Defined.

Definition example_sources : list (string * string) := [("/run/vm.snap", "cpu state"); ("/run/mem.snap", "guest memory")].
Definition example_files : list SourceFile := [mkSource "vm.snap" "vmstate" "/run/vm.snap"; mkSource "mem.snap" "memory" "/run/mem.snap"].
Definition example_versions : RuntimeVersions := mkVersions "1.7.0" "6.1" "" "".
Definition empty_store : FSBlob := mkFS "/store" ∅ 0.

Lemma empty_store_wf `{Disk} : fs_wf empty_store.
Proof. split; [done|]. intros p [o Ho]. cbn [fs_files empty_store] in Ho. by rewrite lookup_empty in Ho. Qed.

(** Put, then restore on the same store. *)
Definition example_put (d : Disk) (sources : list (string * string)) (b : FSBlob) : result Manifest * FSBlob :=
  @Put FSBlob (@FSBlob_Blob d) plain_codec (example_local sources) "vm1__s1" example_files example_versions b.
Definition example_get (d : Disk) (b : FSBlob) : result Manifest * Restore FSBlob :=
  @Get FSBlob (@FSBlob_Blob d) plain_codec (example_local []) "vm1__s1" "/restore" (mkRestore b ∅ 0).

Example put_get_example :
  let d := disk_failing [] in
  let '(r, b) := example_put d example_sources empty_store in
  let '(r', w) := example_get d b in
  is_Ok r = true ∧ r' = r ∧ map_to_list (rs_files w) = [("/restore/mem.snap", "guest memory"); ("/restore/vm.snap", "cpu state")].
Proof. vm_compute. repeat split; reflexivity. Qed.

(** Putting again under an id that is committed is not atomic: when the
    second put fails on its manifest, the data objects are the new ones and the
    manifest is the old one; the snapshot is still listed, but can no longer be
    restored. *)
Theorem Put_again_can_corrupt :
  let d := disk_failing [40%nat] in
  let '(r1, b1) := example_put d example_sources empty_store in
  let '(r2, b2) := example_put d [("/run/vm.snap", "cpu state'"); ("/run/mem.snap", "guest memory'")] b1 in
  let '(r3, w) := example_get d b2 in
  is_Ok r1 = true ∧ is_Ok r2 = false ∧ fst (@list_ids FSBlob (@FSBlob_Blob d) b2) = Ok ["vm1__s1"] ∧
  match r3 with Err e => errors_Is e ErrSizeMismatch | Ok _ => false end = true.
Proof. vm_compute. repeat split; reflexivity. Qed.

Definition example_manifest : Manifest :=
  put_manifest (HLocal := example_local example_sources) "vm1__s1" example_versions
    [entry_for (HCodec := plain_codec) "vm1__s1" (mkSource "vm.snap" "vmstate" "/run/vm.snap") "cpu state";
     entry_for (HCodec := plain_codec) "vm1__s1" (mkSource "mem.snap" "memory" "/run/mem.snap") "guest memory"].

Definition stored_world (d : Disk) : Restore FSBlob := mkRestore (snd (example_put d example_sources empty_store)) ∅ 0.

Lemma Put_commits_last_witness :
  let '(r, b') := example_put (disk_failing [20%nat]) example_sources empty_store in
  (fs_at (manifest_key "vm1__s1") b' = None ∧ is_Ok r = false) ∨
  ∃ m, fs_at (manifest_key "vm1__s1") b' = Some (manifest_object m) ∧
    @complete FSBlob _ (@FSBlob_laws (disk_failing [20%nat])) plain_codec "vm1__s1" m b' ∧ ∀ m', r = Ok m' → m' = m.
Proof.
  exact (@Put_commits_last FSBlob _ (@FSBlob_laws (disk_failing [20%nat])) plain_codec
    (example_local example_sources) "vm1__s1" example_files example_versions empty_store
    (@empty_store_wf (disk_failing [20%nat])) ltac:(vm_compute; reflexivity)).
Defined.

Abbreviation calm := (disk_failing []).
Abbreviation local0 := (example_local example_sources).

Lemma example_put_ok : example_put calm example_sources empty_store = (Ok example_manifest, rs_blob (stored_world calm)).
Proof. vm_compute. reflexivity. Qed.

Lemma example_manifest_wf : manifest_wf example_manifest.
Proof. split; [done|]. split; [vm_compute; reflexivity|]. repeat constructor; vm_compute; congruence. Qed.

Lemma Get_restores_what_was_put_witness :
  let '(r, w') := @Get FSBlob (@FSBlob_Blob calm) plain_codec local0 "vm1__s1" "/restore" (stored_world calm) in
  is_Ok r = true ∧ ∀ m', r = Ok m' → m' = example_manifest ∧
    ∀ sf, sf ∈ example_files → ∃ content, @source local0 (sf_path sf) = Ok (content, None) ∧
      rs_files w' !! place "/restore" (sf_name sf) = Some content.
Proof.
  pose proof (@Get_restores_what_was_put FSBlob _ (@FSBlob_laws calm) plain_codec local0 "vm1__s1" "/restore" example_files
    example_versions empty_store example_manifest (stored_world calm) (@empty_store_wf calm) example_put_ok example_manifest_wf
    ltac:(vm_compute; reflexivity) eq_refl ltac:(by repeat split)) as Ht.
  assert (Hr : is_Ok (fst (@Get FSBlob (@FSBlob_Blob calm) plain_codec local0 "vm1__s1" "/restore" (stored_world calm))) = true)
    by (vm_compute; reflexivity).
  destruct (@Get FSBlob _ plain_codec local0 "vm1__s1" "/restore" (stored_world calm)) as [r w']. split; [exact Hr|exact Ht].
Defined.

Lemma Get_verifies_witness :
  let '(r, w') := @Get FSBlob (@FSBlob_Blob calm) plain_codec local0 "vm1__s1" "/restore" (stored_world calm) in
  ∀ m, r = Ok m → manifest_ok "vm1__s1" m.
Proof.
  pose proof (@Get_verifies FSBlob (@FSBlob_Blob calm) plain_codec local0 "vm1__s1" "/restore" (stored_world calm) eq_refl ltac:(by repeat split)) as Ht.
  destruct (@Get FSBlob _ plain_codec local0 "vm1__s1" "/restore" (stored_world calm)) as [r w']. intros m Hm. exact (proj1 (Ht m Hm)).
Defined.

(** A file is in the way of the second file. *)
Definition blocked_world : Restore FSBlob := mkRestore (rs_blob (stored_world calm)) {[ "/restore/mem.snap" := "mine" ]} 0.

Lemma Get_failure_changes_nothing_witness :
  let '(r, w') := @Get FSBlob (@FSBlob_Blob calm) plain_codec local0 "vm1__s1" "/restore" blocked_world in
  is_Ok r = false ∧ rs_files w' = {[ "/restore/mem.snap" := "mine" ]}.
Proof.
  assert (Hnew : ∀ p, under (place "/restore" (@staging_name local0)) p → rs_files blocked_world !! p = None).
  { intros p Hp. apply lookup_singleton_None. intros <-. revert Hp.
    apply (bool_decide_unpack (¬ under _ _)). vm_compute. exact I. }
  pose proof (@Get_failure_changes_nothing FSBlob (@FSBlob_Blob calm) plain_codec local0 "vm1__s1" "/restore" blocked_world eq_refl
    ltac:(by repeat split) Hnew) as Ht.
  assert (Hr : is_Ok (fst (@Get FSBlob (@FSBlob_Blob calm) plain_codec local0 "vm1__s1" "/restore" blocked_world)) = false)
    by (vm_compute; reflexivity).
  destruct (@Get FSBlob _ plain_codec local0 "vm1__s1" "/restore" blocked_world) as [r w']. split; [exact Hr|].
  exact (proj2 (Ht Hr) (λ _, eq_refl)).
Defined.

Lemma stored_world_wf : fs_wf (rs_blob (stored_world calm)).
Proof.
  unfold stored_world, example_put. cbn [rs_blob].
  pose proof (@Put_cases FSBlob _ (@FSBlob_laws calm) plain_codec local0 "vm1__s1" example_files example_versions empty_store (@empty_store_wf calm)) as Hp.
  destruct (@Put FSBlob _ plain_codec local0 "vm1__s1" example_files example_versions empty_store) as [r b']. exact (proj1 Hp).
Qed.

Lemma stored_world_list : fst (@list_ids FSBlob (@FSBlob_Blob calm) (rs_blob (stored_world calm))) = Ok ["vm1__s1"].
Proof. vm_compute. reflexivity. Qed.

Lemma list_ids_spec_witness :
  ∀ id, id ∈ ["vm1__s1"] ↔ safe_segment id ∧ is_Some (fs_at (manifest_key id) (rs_blob (stored_world calm))).
Proof.
  exact (proj2 (proj2 (@list_ids_spec FSBlob _ (@FSBlob_laws calm) _ _ stored_world_wf stored_world_list))).
Defined.

Lemma calm_reads k b o :
  fs_wf b → store_key k → fs_at k b = Some o → fst (@FSBlob_Get calm k b) = Ok (mkReader o None).
Proof.
  intros [Hr _] (id & n & Hi & Hn & ->) Hat. rewrite fs_at_store in Hat by done.
  assert (Hn0 : ∀ n, @disk_fault calm n = None) by reflexivity.
  unfold FSBlob_Get, checked, io, get, bind, ret. cbn [fs_root fs_files fs_tick]. rewrite Hn0. cbn [fs_root fs_files fs_tick].
  rewrite keyPath_store by done. cbn [fs_root fs_files fs_tick]. rewrite Hn0, Hat. cbn [fs_root fs_files fs_tick]. by rewrite Hn0.
Qed.

Lemma Get_after_Put_succeeds_witness :
  fst (@Get FSBlob (@FSBlob_Blob calm) plain_codec local0 "vm1__s1" "/restore" (stored_world calm)) = Ok example_manifest.
Proof.
  apply (@Get_after_Put_succeeds FSBlob _ (@FSBlob_laws calm) plain_codec local0 (λ _, eq_refl) eq_refl calm_reads "vm1__s1" "/restore"
    ltac:(by repeat split) eq_refl ltac:(by repeat split) example_files example_versions empty_store example_manifest (stored_world calm)
    (@empty_store_wf calm) example_put_ok example_manifest_wf).
  - vm_compute. reflexivity.
  - repeat constructor; vm_compute; congruence.
  - intros sf Hsf. repeat (apply elem_of_cons in Hsf as [->|Hsf]; [split; [discriminate|vm_compute; reflexivity]|]). by apply elem_of_nil in Hsf.
Defined.
