(* ===== verification/Storage.v ===== *)
(** The database (src/internal/storage/db.go, schema.go): the tables as lists
    of rows in insertion order, and one definition per method of [DB], each
    the effect of its SQL statement.

    The outcome of the driver is an argument of every method: [fault] is the
    error the driver reports (I/O error, busy database); a statement that
    fails has no effect.  A query may also break off after some rows
    ([rows.Next] returns false); the code does not look at [rows.Err].
    [fk] tells whether the connection that runs the statement enforces
    foreign keys (the pragma is set on one connection of the pool). *)

From stdpp Require Import sorting.
From S2P Require Import Prelude GoStrings Json Types.

(** * Rows *)

(* @src internal/storage/schema.go:4-17 schema *)
Record VMRow : Type := mkVMRow {
  r_id : string; r_name : string; r_state : VMState; r_image_ref : string; r_digest : string;
  r_arch : string; r_config_json : json; r_runtime_json : option json;
  r_created : Z; r_updated : Z; r_locked_by : option string; r_locked_at : option Z }.

(* @src internal/storage/schema.go:37-46 schema *)
Record ImageRow : Type := mkImageRow {
  i_digest : string; i_tags_json : json; i_arch : string; i_size : Z; i_kernel_version : string;
  i_rootfs : string; i_kernel : string; i_pulled_at : Z }.

(* @src internal/types/image.go:31-38 PullJobState *)
Inductive PullJobState : Type := PullJobPending | PullJobInProgress | PullJobCompleted | PullJobFailed.

(* @type internal/types/image.go PullProgress *)
Record PullProgress : Type := mkProgress { pp_current : Z; pp_total : Z; pp_percentage : Z }.

(* @type internal/types/image.go ImagePullJob *)
Record ImagePullJob : Type := mkJob {
  j_id : string; j_ref : string; j_state : PullJobState; j_progress : option PullProgress;
  j_error : option string; j_created : Z; j_completed : option Z; j_result : option string }.

(* @type internal/types/image.go PullProgress *)
Definition enc_progress (p : PullProgress) : json := enc_struct
  [ f_int "current_bytes" (pp_current p); f_int "total_bytes" (pp_total p); f_int "percentage" (pp_percentage p) ].

Definition dec_progress (j : json) : option PullProgress :=
  l ← members j;
  c ← getf l "current_bytes" 0%Z dec_int; t ← getf l "total_bytes" 0%Z dec_int;
  p ← getf l "percentage" 0%Z dec_int;
  Some (mkProgress c t p).

(* @src internal/storage/schema.go:50-59 schema *)
Record JobRow : Type := mkJobRow {
  jr_id : string; jr_ref : string; jr_state : PullJobState; jr_progress_json : option json;
  jr_error : option string; jr_result : option string; jr_created : Z; jr_completed : option Z }.

(* @src internal/storage/schema.go:64-75 schema *)
Record LayerRow : Type := mkLayer {
  l_digest : string; l_name : string; l_version : string; l_type : string; l_source_url : string;
  l_local_path : string; l_size : Z; l_fetched_at : Z; l_last_used : Z; l_metadata : string }.

(** The tables. *)
(* @type internal/storage/db.go DB *)
Record DB : Type := mkDB {
  t_vms : list VMRow; t_snapshots : list Snapshot; t_images : list ImageRow;
  t_jobs : list JobRow; t_layers : list LayerRow }.

Definition empty_db : DB := mkDB [] [] [] [] [].

Definition with_vms (db : DB) (l : list VMRow) : DB := mkDB l (t_snapshots db) (t_images db) (t_jobs db) (t_layers db).
Definition with_snapshots (db : DB) (l : list Snapshot) : DB := mkDB (t_vms db) l (t_images db) (t_jobs db) (t_layers db).
Definition with_images (db : DB) (l : list ImageRow) : DB := mkDB (t_vms db) (t_snapshots db) l (t_jobs db) (t_layers db).
Definition with_jobs (db : DB) (l : list JobRow) : DB := mkDB (t_vms db) (t_snapshots db) (t_images db) l (t_layers db).
Definition with_layers (db : DB) (l : list LayerRow) : DB := mkDB (t_vms db) (t_snapshots db) (t_images db) (t_jobs db) l.

(** * SQL statements on a table *)

Definition unique_violation (column : string) : error := Errorf "UNIQUE constraint failed: %s" [AStr column].
Definition fk_violation : error := ErrorsNew "FOREIGN KEY constraint failed".

(** [UPDATE t SET ... WHERE p]. *)
Definition sql_update {A} (p : A → bool) (set : A → A) (t : list A) : list A :=
  (λ r, if p r then set r else r) <$> t.

(** [DELETE FROM t WHERE p]. *)
Definition sql_delete {A} (p : A → bool) (t : list A) : list A := filter (λ r, p r = false) t.

(** [INSERT ... ON CONFLICT(key) DO UPDATE]: replace in place, or append. *)
Definition sql_upsert {A} (p : A → bool) (set : A → A) (new : A) (t : list A) : list A :=
  if existsb p t then sql_update p set t else t ++ [new].

(** The rows a query delivers. *)
Inductive query_outcome : Type :=
  | QueryOk
  | QueryError (e : error)
  | QueryBreaks (n : nat).

Definition delivered {A} (q : query_outcome) (rows : list A) : result (list A) :=
  match q with
  | QueryOk => Ok rows
  | QueryError e => Err e
  | QueryBreaks n => Ok (take n rows)
  end.

Fixpoint collect {A B} (f : A → result B) (rows : list A) : result (list B) :=
  match rows with
  | [] => Ok []
  | r :: rows' => let? b := f r in let? bs := collect f rows' in Ok (b :: bs)
  end.

Definition wrap (msg : string) (e : error) : error := Errorf msg [AWrap e].

(** * VMs *)

(* @src internal/storage/db.go:85-101 CreateVM *)
Definition vm_row (vm : VM) : VMRow :=
  mkVMRow (vm_id vm) (vm_name vm) (vm_state vm) (vm_image vm) (vm_digest vm) (vm_arch vm)
    (enc_config (vm_config vm)) (enc_runtime <$> vm_runtime vm) (vm_created vm) (vm_updated vm) None None.

(* @func internal/storage/db.go CreateVM *)
Definition CreateVM (fault : option error) (vm : VM) : State DB (option error) :=
  λ db,
    match fault with
    | Some e => (Some (wrap "failed to create VM: %w" e), db)
    | None =>
        if existsb (λ r, String.eqb (r_id r) (vm_id vm)) (t_vms db) then
          (Some (wrap "failed to create VM: %w" (unique_violation "vms.id")), db)
        else if existsb (λ r, String.eqb (r_name r) (vm_name vm)) (t_vms db) then
          (Some (wrap "failed to create VM: %w" (unique_violation "vms.name")), db)
        else (None, with_vms db (t_vms db ++ [vm_row vm]))
    end.

(** Scan of one row: the columns the table has; the owner, group and SPIFFE id
    of the struct have no column and keep their zero values. *)
(* @src internal/storage/db.go:135-154 GetVM *)
Definition scan_vm (r : VMRow) : result VM :=
  match dec_config (r_config_json r) with
  | None => Err (wrap "failed to unmarshal config: %w" (ErrorsNew "json"))
  | Some config =>
      let vm rt := mkVM (r_id r) (r_name r) (r_state r) (r_image_ref r) (r_digest r) (r_arch r)
        config rt (r_created r) (r_updated r) (r_locked_by r) (r_locked_at r) "" "" "" in
      match r_runtime_json r with
      | None => Ok (vm None)
      | Some j =>
          match dec_runtime j with
          | None => Err (wrap "failed to unmarshal runtime: %w" (ErrorsNew "json"))
          | Some rt => Ok (vm (Some rt))
          end
      end
  end.

(** The row of [QueryRow]: the first match.  When one VM's name is another
    VM's id there are two matches, and the order of the table decides here. *)
(* @func internal/storage/db.go GetVM *)
Definition GetVM (fault : option error) (idOrName : string) (db : DB) : result (option VM) :=
  match fault with
  | Some e => Err (wrap "failed to get VM: %w" e)
  | None =>
      match List.find (λ r, String.eqb (r_id r) idOrName || String.eqb (r_name r) idOrName) (t_vms db) with
      | None => Ok None
      | Some r => let? vm := scan_vm r in Ok (Some vm)
      end
  end.

(** [ORDER BY created_at DESC]. *)
Definition newest_first (a b : VMRow) : Prop := (r_created b ≤ r_created a)%Z.
#[global] Instance newest_first_dec a b : Decision (newest_first a b) := decide (r_created b ≤ r_created a)%Z.

(* @func internal/storage/db.go ListVMs *)
Definition ListVMs (q : query_outcome) (stateFilter : string) (db : DB) : result (list VM) :=
  let rows := if negb (String.eqb stateFilter "")
    then List.filter (λ r, String.eqb (state_string (r_state r)) stateFilter) (t_vms db) else t_vms db in
  match delivered q (merge_sort newest_first rows) with
  | Err e => Err (wrap "failed to list VMs: %w" e)
  | Ok rows => collect scan_vm rows
  end.

(** [UpdateVM] stamps [vm.UpdatedAt] even when the statement fails. *)
(* @func internal/storage/db.go UpdateVM *)
Definition UpdateVM (fault : option error) (now : Z) (vm : VM) : State DB (option error * VM) :=
  λ db,
    let vm := set_updated vm now in
    match fault with
    | Some e => ((Some (wrap "failed to update VM: %w" e), vm), db)
    | None =>
        ((None, vm), with_vms db (sql_update (λ r, String.eqb (r_id r) (vm_id vm))
          (λ r, mkVMRow (r_id r) (r_name r) (vm_state vm) (r_image_ref r) (r_digest r) (r_arch r)
            (enc_config (vm_config vm)) (enc_runtime <$> vm_runtime vm) (r_created r) (vm_updated vm)
            (r_locked_by r) (r_locked_at r)) (t_vms db)))
    end.

(* @func internal/storage/db.go DeleteVM *)
Definition DeleteVM (fault : option error) (fk : bool) (id : string) : State DB (option error) :=
  λ db,
    match fault with
    | Some e => (Some (wrap "failed to delete VM: %w" e), db)
    | None =>
        let db' := with_vms db (sql_delete (λ r, String.eqb (r_id r) id) (t_vms db)) in
        (None, if fk then with_snapshots db' (sql_delete (λ s, String.eqb (sn_vm s) id) (t_snapshots db)) else db')
    end.

(** The columns [locked_by] and [locked_at]. *)
Definition set_lock (r : VMRow) (locked_by : option string) (locked_at : option Z) : VMRow :=
  mkVMRow (r_id r) (r_name r) (r_state r) (r_image_ref r) (r_digest r) (r_arch r)
    (r_config_json r) (r_runtime_json r) (r_created r) (r_updated r) locked_by locked_at.

(** Five minutes, in nanoseconds. *)
(* @src internal/storage/db.go:270-270 AcquireLock *)
Definition lock_ttl : Z := 5 * 60 * 1000000000.

(** [now1] and [now2] are the two calls of [time.Now]. *)
Definition lockable (now2 : Z) (vmID : string) (r : VMRow) : bool :=
  String.eqb (r_id r) vmID &&
  match r_locked_by r with
  | None => true
  | Some _ => match r_locked_at r with None => false | Some t => (t <? now2 - lock_ttl)%Z end
  end.

(* @func internal/storage/db.go AcquireLock *)
Definition AcquireLock (fault rows_fault : option error) (now1 now2 : Z) (vmID operation : string) :
    State DB (option error) :=
  λ db,
    match fault with
    | Some e => (Some (wrap "failed to acquire lock: %w" e), db)
    | None =>
        let affected := existsb (lockable now2 vmID) (t_vms db) in
        let db' := with_vms db (sql_update (lockable now2 vmID)
          (λ r, set_lock r (Some operation) (Some now1))
          (t_vms db)) in
        match rows_fault with
        | Some e => (Some (wrap "failed to check lock result: %w" e), db')
        | None =>
            if negb affected then (Some (Errorf "VM is locked by another operation" []), db')
            else (None, db')
        end
    end.

(* @func internal/storage/db.go ReleaseLock *)
Definition ReleaseLock (fault : option error) (vmID : string) : State DB (option error) :=
  λ db,
    match fault with
    | Some e => (Some (wrap "failed to release lock: %w" e), db)
    | None =>
        (None, with_vms db (sql_update (λ r, String.eqb (r_id r) vmID)
          (λ r, set_lock r None None) (t_vms db)))
    end.

(** * Snapshots *)

(* @func internal/storage/db.go CreateSnapshot *)
Definition CreateSnapshot (fault : option error) (fk : bool) (s : Snapshot) : State DB (option error) :=
  λ db,
    match fault with
    | Some e => (Some (wrap "failed to create snapshot: %w" e), db)
    | None =>
        if existsb (λ s', String.eqb (sn_id s') (sn_id s)) (t_snapshots db) then
          (Some (wrap "failed to create snapshot: %w" (unique_violation "snapshots.id")), db)
        else if fk && negb (existsb (λ r, String.eqb (r_id r) (sn_vm s)) (t_vms db)) then
          (Some (wrap "failed to create snapshot: %w" fk_violation), db)
        else (None, with_snapshots db (t_snapshots db ++ [s]))
    end.

(* @func internal/storage/db.go GetSnapshot *)
Definition GetSnapshot (fault : option error) (id : string) (db : DB) : result (option Snapshot) :=
  match fault with
  | Some e => Err (wrap "failed to get snapshot: %w" e)
  | None => Ok (List.find (λ s, String.eqb (sn_id s) id) (t_snapshots db))
  end.

Definition newest_snapshot_first (a b : Snapshot) : Prop := (sn_created b ≤ sn_created a)%Z.
#[global] Instance newest_snapshot_first_dec a b : Decision (newest_snapshot_first a b) :=
  decide (sn_created b ≤ sn_created a)%Z.

(* @func internal/storage/db.go ListSnapshots *)
Definition ListSnapshots (q : query_outcome) (vmID : string) (db : DB) : result (list Snapshot) :=
  match delivered q (merge_sort newest_snapshot_first
          (List.filter (λ s, String.eqb (sn_vm s) vmID) (t_snapshots db))) with
  | Err e => Err (wrap "failed to list snapshots: %w" e)
  | Ok rows => Ok rows
  end.

(* @func internal/storage/db.go DeleteSnapshot *)
Definition DeleteSnapshot (fault : option error) (id : string) : State DB (option error) :=
  λ db,
    match fault with
    | Some e => (Some (wrap "failed to delete snapshot: %w" e), db)
    | None => (None, with_snapshots db (sql_delete (λ s, String.eqb (sn_id s) id) (t_snapshots db)))
    end.

(** * Images *)

(** [json.Marshal(image.Tags)]. *)
Definition enc_tags (tags : list string) : json :=
  match tags with [] => JNull | _ => JArr (JStr <$> tags) end.

(* @src internal/storage/db.go:389-399 CreateImage *)
Definition image_row (i : Image) : ImageRow :=
  mkImageRow (img_digest i) (enc_tags (img_tags i)) (img_arch i) (img_size i) (img_kernel_version i)
    (img_rootfs i) (img_kernel i) (img_pulled_at i).

(* @src internal/storage/db.go:455-463 GetImage *)
Definition scan_image (r : ImageRow) : result Image :=
  match dec_list dec_str (i_tags_json r) with
  | None => Err (wrap "failed to unmarshal tags: %w" (ErrorsNew "json"))
  | Some tags =>
      Ok (mkImage (i_digest r) tags (i_arch r) (i_size r) (i_kernel_version r) (i_rootfs r) (i_kernel r) (i_pulled_at r))
  end.

(* @func internal/storage/db.go CreateImage *)
Definition CreateImage (fault : option error) (image : Image) : State DB (option error) :=
  λ db,
    match fault with
    | Some e => (Some (wrap "failed to create image: %w" e), db)
    | None =>
        if existsb (λ r, String.eqb (i_digest r) (img_digest image)) (t_images db) then
          (Some (wrap "failed to create image: %w" (unique_violation "images.digest")), db)
        else (None, with_images db (t_images db ++ [image_row image]))
    end.

(* @func internal/storage/db.go UpsertImage *)
Definition UpsertImage (fault : option error) (image : Image) : State DB (option error) :=
  λ db,
    match fault with
    | Some e => (Some (wrap "failed to upsert image: %w" e), db)
    | None =>
        (None, with_images db (sql_upsert (λ r, String.eqb (i_digest r) (img_digest image))
          (λ _, image_row image) (image_row image) (t_images db)))
    end.

(* @func internal/storage/db.go GetImage *)
Definition GetImage (fault : option error) (digest : string) (db : DB) : result (option Image) :=
  match fault with
  | Some e => Err (wrap "failed to get image: %w" e)
  | None =>
      match List.find (λ r, String.eqb (i_digest r) digest) (t_images db) with
      | None => Ok None
      | Some r => let? i := scan_image r in Ok (Some i)
      end
  end.

(** The loop of [GetImageByTag]: the first image, in table order, that carries
    the tag. *)
(* @src internal/storage/db.go:480-507 GetImageByTag *)
Fixpoint find_tag (tag : string) (rows : list ImageRow) : result (option Image) :=
  match rows with
  | [] => Ok None
  | r :: rows' =>
      let? image := scan_image r in
      if existsb (λ t, String.eqb t tag) (img_tags image) then Ok (Some image) else find_tag tag rows'
  end.

(* @func internal/storage/db.go GetImageByTag *)
Definition GetImageByTag (q : query_outcome) (tag : string) (db : DB) : result (option Image) :=
  match delivered q (t_images db) with
  | Err e => Err (wrap "failed to query images: %w" e)
  | Ok rows => find_tag tag rows
  end.

Definition newest_image_first (a b : ImageRow) : Prop := (i_pulled_at b ≤ i_pulled_at a)%Z.
#[global] Instance newest_image_first_dec a b : Decision (newest_image_first a b) :=
  decide (i_pulled_at b ≤ i_pulled_at a)%Z.

(* @func internal/storage/db.go ListImages *)
Definition ListImages (q : query_outcome) (db : DB) : result (list Image) :=
  match delivered q (merge_sort newest_image_first (t_images db)) with
  | Err e => Err (wrap "failed to list images: %w" e)
  | Ok rows => collect scan_image rows
  end.

(* @func internal/storage/db.go DeleteImage *)
Definition DeleteImage (fault : option error) (digest : string) : State DB (option error) :=
  λ db,
    match fault with
    | Some e => (Some (wrap "failed to delete image: %w" e), db)
    | None => (None, with_images db (sql_delete (λ r, String.eqb (i_digest r) digest) (t_images db)))
    end.

(** * Pull jobs *)

(* @func internal/storage/db.go CreatePullJob *)
Definition CreatePullJob (fault : option error) (job : ImagePullJob) : State DB (option error) :=
  λ db,
    match fault with
    | Some e => (Some (wrap "failed to create pull job: %w" e), db)
    | None =>
        if existsb (λ r, String.eqb (jr_id r) (j_id job)) (t_jobs db) then
          (Some (wrap "failed to create pull job: %w" (unique_violation "image_pull_jobs.id")), db)
        else
          (None, with_jobs db (t_jobs db ++
            [mkJobRow (j_id job) (j_ref job) (j_state job) (enc_progress <$> j_progress job)
               (j_error job) (j_result job) (j_created job) (j_completed job)]))
    end.

(* @func internal/storage/db.go GetPullJob *)
Definition GetPullJob (fault : option error) (id : string) (db : DB) : result (option ImagePullJob) :=
  match fault with
  | Some e => Err (wrap "failed to get pull job: %w" e)
  | None =>
      match List.find (λ r, String.eqb (jr_id r) id) (t_jobs db) with
      | None => Ok None
      | Some r =>
          let job p := mkJob (jr_id r) (jr_ref r) (jr_state r) p (jr_error r) (jr_created r) (jr_completed r) (jr_result r) in
          match jr_progress_json r with
          | None => Ok (Some (job None))
          | Some j =>
              match dec_progress j with
              | None => Err (wrap "failed to unmarshal progress: %w" (ErrorsNew "json"))
              | Some p => Ok (Some (job (Some p)))
              end
          end
      end
  end.

(* @func internal/storage/db.go UpdatePullJob *)
Definition UpdatePullJob (fault : option error) (job : ImagePullJob) : State DB (option error) :=
  λ db,
    match fault with
    | Some e => (Some (wrap "failed to update pull job: %w" e), db)
    | None =>
        (None, with_jobs db (sql_update (λ r, String.eqb (jr_id r) (j_id job))
          (λ r, mkJobRow (jr_id r) (jr_ref r) (j_state job) (enc_progress <$> j_progress job)
             (j_error job) (j_result job) (jr_created r) (j_completed job)) (t_jobs db)))
    end.

(** * The layer cache *)

(* @func internal/storage/db.go PutCachedLayer *)
Definition PutCachedLayer (fault : option error) (l : LayerRow) : State DB (option error) :=
  λ db,
    match fault with
    | Some e => (Some (wrap "failed to put cached layer: %w" e), db)
    | None =>
        (None, with_layers db (sql_upsert (λ r, String.eqb (l_digest r) (l_digest l)) (λ _, l) l (t_layers db)))
    end.

(* @func internal/storage/db.go GetCachedLayer *)
Definition GetCachedLayer (fault : option error) (digest : string) (db : DB) : result (option LayerRow) :=
  match fault with
  | Some e => Err (wrap "failed to get cached layer: %w" e)
  | None => Ok (List.find (λ r, String.eqb (l_digest r) digest) (t_layers db))
  end.

(* @func internal/storage/db.go CachedLayerExists *)
Definition CachedLayerExists (fault : option error) (digest : string) (db : DB) : result bool :=
  match fault with
  | Some e => Err (wrap "failed to check cached layer existence: %w" e)
  | None => Ok (0 <? length (List.filter (λ r, String.eqb (l_digest r) digest) (t_layers db)))%nat
  end.

(* @func internal/storage/db.go TouchCachedLayer *)
Definition TouchCachedLayer (fault : option error) (digest : string) (lastUsedAt : Z) : State DB (option error) :=
  λ db,
    match fault with
    | Some e => (Some (wrap "failed to touch cached layer: %w" e), db)
    | None =>
        (None, with_layers db (sql_update (λ r, String.eqb (l_digest r) digest)
          (λ r, mkLayer (l_digest r) (l_name r) (l_version r) (l_type r) (l_source_url r) (l_local_path r)
             (l_size r) (l_fetched_at r) lastUsedAt (l_metadata r)) (t_layers db)))
    end.

Definition older_first (a b : LayerRow) : Prop := (l_last_used a ≤ l_last_used b)%Z.
#[global] Instance older_first_dec a b : Decision (older_first a b) := decide (l_last_used a ≤ l_last_used b)%Z.

(** The columns [digest, local_path, size_bytes]. *)
(* @func internal/storage/db.go GetOldestCachedLayers *)
Definition GetOldestCachedLayers (q : query_outcome) (limit : Z) (db : DB) : result (list (string * string * Z)) :=
  let sorted := merge_sort older_first (t_layers db) in
  let rows := if (0 <? limit)%Z then take (Z.to_nat limit) sorted else sorted in
  match delivered q rows with
  | Err e => Err (wrap "failed to get oldest cached layers: %w" e)
  | Ok rows => Ok ((λ r, (l_digest r, l_local_path r, l_size r)) <$> rows)
  end.

(** [SUM] of an INTEGER column fails when it leaves the 64-bit range; [now]
    stands for the time of the oldest access when there is no layer. *)
(* @func internal/storage/db.go GetCachedLayerStats *)
Definition GetCachedLayerStats (fault : option error) (now : Z) (db : DB) : result (Z * Z * Z) :=
  match fault with
  | Some e => Err (wrap "failed to get cache stats: %w" e)
  | None =>
      let total := foldr Z.add 0%Z (l_size <$> t_layers db) in
      if (total <? - 2 ^ 63)%Z || (2 ^ 63 - 1 <? total)%Z then
        Err (wrap "failed to get cache stats: %w" (ErrorsNew "integer overflow"))
      else
        Ok (Z.of_nat (length (t_layers db)), total,
            match merge_sort older_first (t_layers db) with
            | r :: _ => l_last_used r
            | [] => now
            end)
  end.

(* @func internal/storage/db.go DeleteCachedLayer *)
Definition DeleteCachedLayer (fault : option error) (digest : string) : State DB (option error) :=
  λ db,
    match fault with
    | Some e => (Some (wrap "failed to delete cached layer: %w" e), db)
    | None => (None, with_layers db (sql_delete (λ r, String.eqb (l_digest r) digest) (t_layers db)))
    end.

(** * Statements as one type, for the claims about sequences of statements *)

Inductive db_op : Type :=
  | OpCreateVM (vm : VM)
  | OpUpdateVM (now : Z) (vm : VM)
  | OpDeleteVM (fk : bool) (id : string)
  | OpAcquireLock (rows_fault : option error) (now1 now2 : Z) (id operation : string)
  | OpReleaseLock (id : string)
  | OpCreateSnapshot (fk : bool) (s : Snapshot)
  | OpDeleteSnapshot (id : string)
  | OpCreateImage (i : Image)
  | OpUpsertImage (i : Image)
  | OpDeleteImage (digest : string)
  | OpCreatePullJob (j : ImagePullJob)
  | OpUpdatePullJob (j : ImagePullJob)
  | OpPutCachedLayer (l : LayerRow)
  | OpTouchCachedLayer (digest : string) (t : Z)
  | OpDeleteCachedLayer (digest : string).

Definition db_step (db : DB) (fo : option error * db_op) : DB :=
  let '(fault, op) := fo in
  match op with
  | OpCreateVM vm => snd (CreateVM fault vm db)
  | OpUpdateVM now vm => snd (UpdateVM fault now vm db)
  | OpDeleteVM fk id => snd (DeleteVM fault fk id db)
  | OpAcquireLock rf n1 n2 id o => snd (AcquireLock fault rf n1 n2 id o db)
  | OpReleaseLock id => snd (ReleaseLock fault id db)
  | OpCreateSnapshot fk s => snd (CreateSnapshot fault fk s db)
  | OpDeleteSnapshot id => snd (DeleteSnapshot fault id db)
  | OpCreateImage i => snd (CreateImage fault i db)
  | OpUpsertImage i => snd (UpsertImage fault i db)
  | OpDeleteImage d => snd (DeleteImage fault d db)
  | OpCreatePullJob j => snd (CreatePullJob fault j db)
  | OpUpdatePullJob j => snd (UpdatePullJob fault j db)
  | OpPutCachedLayer l => snd (PutCachedLayer fault l db)
  | OpTouchCachedLayer d t => snd (TouchCachedLayer fault d t db)
  | OpDeleteCachedLayer d => snd (DeleteCachedLayer fault d db)
  end.

Definition run_ops (ops : list (option error * db_op)) (db : DB) : DB := foldl db_step db ops.

(** What a well-formed database promises: keys are unique and every stored
    document decodes. *)
Definition scans (r : VMRow) : Prop := ∃ vm, scan_vm r = Ok vm.
Definition image_scans (r : ImageRow) : Prop := ∃ i, scan_image r = Ok i.
Definition job_scans (r : JobRow) : Prop := ∀ j, jr_progress_json r = Some j → ∃ p, dec_progress j = Some p.

Record db_wf (db : DB) : Prop := mkWf {
  wf_ids : NoDup (r_id <$> t_vms db);
  wf_names : NoDup (r_name <$> t_vms db);
  wf_scans : Forall scans (t_vms db);
  wf_snapshots : NoDup (sn_id <$> t_snapshots db);
  wf_images : NoDup (i_digest <$> t_images db);
  wf_image_scans : Forall image_scans (t_images db);
  wf_jobs : NoDup (jr_id <$> t_jobs db);
  wf_job_scans : Forall job_scans (t_jobs db);
  wf_layers : NoDup (l_digest <$> t_layers db) }.

(** What [GetVM] gives back of a VM that was stored. *)
Definition persisted (vm : VM) (locked_by : option string) (locked_at : option Z) : VM :=
  mkVM (vm_id vm) (vm_name vm) (vm_state vm) (vm_image vm) (vm_digest vm) (vm_arch vm) (vm_config vm)
    (vm_runtime vm) (vm_created vm) (vm_updated vm) locked_by locked_at "" "" "".

Definition matches (k : string) (r : VMRow) : bool := String.eqb (r_id r) k || String.eqb (r_name r) k.

(** The row of [id] is locked since [t]. *)
Definition held_since (id : string) (t : Z) (db : DB) : Prop :=
  (∃ r, r ∈ t_vms db ∧ r_id r = id) ∧
  ∀ r, r ∈ t_vms db → r_id r = id → r_locked_by r ≠ None ∧ r_locked_at r = Some t.

(** A statement that can run while somebody else holds the lock of [id] taken
    at [t]: it neither releases the lock nor deletes the VM, and it is no
    attempt to take the lock after it expired. *)
Definition respects_lock (id : string) (t : Z) (op : db_op) : Prop :=
  match op with
  | OpReleaseLock i => i ≠ id
  | OpDeleteVM _ i => i ≠ id
  | OpAcquireLock _ _ now2 i _ => i = id → (now2 ≤ t + lock_ttl)%Z
  | _ => True
  end.

(** * Lemmas on tables *)

Section Tables.
Context {A K : Type} (key : A → K).

Lemma sql_update_key p set (t : list A) :
  (∀ r, key (set r) = key r) → key <$> sql_update p set t = key <$> t.
Proof. intros H. apply fmap_map_ext_key. intros r. by destruct (p r). Qed.

Lemma Forall_sql_update (P : A → Prop) p set t :
  Forall P t → (∀ r, P r → P (set r)) → Forall P (sql_update p set t).
Proof.
  intros Ht Hs. apply Forall_fmap. eapply Forall_impl; [done|].
  intros r Hr. simpl. destruct (p r); auto.
Qed.

Lemma NoDup_sql_delete p (t : list A) : NoDup (key <$> t) → NoDup (key <$> sql_delete p t).
Proof. apply NoDup_filter_fmap. Qed.

Lemma Forall_sql_delete (P : A → Prop) p t : Forall P t → Forall P (sql_delete p t).
Proof.
  rewrite !Forall_forall. intros H x Hx. apply H. unfold sql_delete in Hx.
  by apply list_elem_of_filter in Hx as [_ Hx].
Qed.

Lemma NoDup_insert (p : A → bool) (t : list A) new :
  existsb p t = false → (∀ r, key r = key new → p r = true) →
  NoDup (key <$> t) → NoDup (key <$> (t ++ [new])).
Proof.
  intros He Hp Hnd. rewrite fmap_app. apply NoDup_app. split; [done|]. split; [|apply NoDup_singleton].
  intros x (r & -> & Hr)%list_elem_of_fmap Hx. apply list_elem_of_singleton in Hx.
  rewrite existsb_false_iff in He. specialize (He r Hr). rewrite Hp in He; done.
Qed.

Lemma NoDup_sql_upsert (p : A → bool) set new (t : list A) :
  (∀ r, p r = true → key (set r) = key r) → (∀ r, key r = key new → p r = true) →
  NoDup (key <$> t) → NoDup (key <$> sql_upsert p set new t).
Proof.
  intros Hs Hp Hnd. unfold sql_upsert. destruct (existsb p t) eqn:E.
  - unfold sql_update. rewrite <- list_fmap_compose.
    erewrite (list_fmap_ext _ key); [done|]. intros i r _. simpl. destruct (p r) eqn:Er; auto.
  - by eapply NoDup_insert.
Qed.

Lemma Forall_sql_upsert (P : A → Prop) p set new t :
  Forall P t → (∀ r, P r → P (set r)) → P new → Forall P (sql_upsert p set new t).
Proof.
  intros Ht Hs Hn. unfold sql_upsert. destruct (existsb p t); [by apply Forall_sql_update|].
  apply Forall_app; auto.
Qed.

Lemma Forall_insert (P : A → Prop) t new : Forall P t → P new → Forall P (t ++ [new]).
Proof. intros. apply Forall_app; auto. Qed.

(** The first match of a predicate the update does not change. *)
Lemma find_sql_update (q p : A → bool) set t :
  (∀ r, q (set r) = q r) →
  List.find q (sql_update p set t) = (λ r, if p r then set r else r) <$> List.find q t.
Proof.
  intros H. induction t as [|r t IH]; [done|]. simpl.
  assert (q (if p r then set r else r) = q r) as -> by (destruct (p r); auto).
  destruct (q r); [done|]. apply IH.
Qed.

Lemma find_app_none (q : A → bool) t u : List.find q t = None → List.find q (t ++ u) = List.find q u.
Proof. induction t as [|r t IH]; simpl; [done|]. destruct (q r); [done|auto]. Qed.

Lemma find_upsert_same (p : A → bool) new t :
  p new = true → List.find p (sql_upsert p (λ _, new) new t) = Some new.
Proof.
  intros Hn. unfold sql_upsert. destruct (existsb p t) eqn:E.
  - clear -Hn E. induction t as [|r t IH]; simpl in *; [done|]. destruct (p r) eqn:Er; simpl; [by rewrite Hn|].
    rewrite Er. auto.
  - rewrite find_app_none; [simpl; by rewrite Hn|].
    apply find_none_iff. by rewrite existsb_false_iff in E.
Qed.

Lemma find_upsert_other (p q : A → bool) new t :
  (∀ r, p r = true → q r = false) → q new = false →
  List.find q (sql_upsert p (λ _, new) new t) = List.find q t.
Proof.
  intros Hpq Hn. unfold sql_upsert. destruct (existsb p t).
  - induction t as [|r t IH]; simpl; [done|]. destruct (p r) eqn:Er.
    + by rewrite Hn, (Hpq r).
    + by rewrite IH.
  - induction t as [|r t IH]; simpl; [by rewrite Hn|]. by rewrite IH.
Qed.

Lemma sql_upsert_idem (p : A → bool) new t :
  p new = true →
  sql_upsert p (λ _, new) new (sql_upsert p (λ _, new) new t) = sql_upsert p (λ _, new) new t.
Proof.
  intros Hn.
  assert (Hu : ∀ u, sql_update p (λ _, new) (sql_update p (λ _, new) u) = sql_update p (λ _, new) u).
  { intros u. unfold sql_update. rewrite <- list_fmap_compose. apply list_fmap_ext. intros i r _. simpl.
    destruct (p r) eqn:Er; [by rewrite Hn|by rewrite Er]. }
  assert (He : existsb p (sql_upsert p (λ _, new) new t) = true).
  { apply existsb_true_elem. pose proof (find_upsert_same p new t Hn) as H.
    apply find_some_elem in H as [H _]. by exists new. }
  unfold sql_upsert at 1. rewrite He. unfold sql_upsert. destruct (existsb p t) eqn:E; [apply Hu|].
  unfold sql_update. rewrite fmap_app. simpl. rewrite Hn. f_equal.
  rewrite existsb_false_iff in E. clear -E. induction t as [|r t IH]; simpl; [done|].
  rewrite (E r) by apply elem_of_cons, or_introl, eq_refl. f_equal. apply IH.
  intros x Hx. apply E. apply elem_of_cons. by right.
Qed.

Lemma find_app_some (q : A → bool) t u r : List.find q t = Some r → List.find q (t ++ u) = Some r.
Proof. induction t as [|x t IH]; simpl; [done|]. destruct (q x); auto. Qed.
End Tables.

#[export] Hint Resolve NoDup_sql_delete Forall_sql_delete Forall_insert : go.

(** * Every stored document decodes *)

Lemma scan_vm_row vm : scan_vm (vm_row vm) = Ok (persisted vm None None).
Proof.
  unfold scan_vm, vm_row; simpl. rewrite dec_enc_config.
  unfold persisted. destruct (vm_runtime vm) as [rt|]; simpl; [by rewrite dec_enc_runtime|done].
Qed.

Lemma scans_vm_row vm : scans (vm_row vm).
Proof. eexists. apply scan_vm_row. Qed.

Lemma dec_enc_progress p : dec_progress (enc_progress p) = Some p.
Proof. unfold dec_progress, enc_progress. solve_codec. Qed.

Lemma dec_enc_tags tags : dec_list dec_str (enc_tags tags) = Some tags.
Proof. destruct tags; [done|]. by apply (mapM_enc JStr dec_str). Qed.

Lemma scan_image_row i : scan_image (image_row i) = Ok i.
Proof. unfold scan_image, image_row; simpl. rewrite dec_enc_tags. by destruct i. Qed.

Lemma image_scans_row i : image_scans (image_row i).
Proof. eexists. apply scan_image_row. Qed.

(** The scan of an updated row. *)
Lemma scan_updated r vm rt u l t :
  scan_vm (mkVMRow (r_id r) (r_name r) (vm_state vm) (r_image_ref r) (r_digest r) (r_arch r)
    (enc_config (vm_config vm)) (enc_runtime <$> rt) (r_created r) u l t) =
  Ok (mkVM (r_id r) (r_name r) (vm_state vm) (r_image_ref r) (r_digest r) (r_arch r)
        (vm_config vm) rt (r_created r) u l t "" "" "").
Proof.
  unfold scan_vm; simpl. rewrite dec_enc_config.
  destruct rt as [rt|]; simpl; [by rewrite dec_enc_runtime|done].
Qed.

Lemma scan_vm_fields r vm :
  scan_vm r = Ok vm →
  vm_id vm = r_id r ∧ vm_name vm = r_name r ∧ vm_state vm = r_state r ∧
  vm_image vm = r_image_ref r ∧ vm_digest vm = r_digest r ∧ vm_arch vm = r_arch r ∧
  vm_created vm = r_created r ∧ vm_updated vm = r_updated r ∧
  vm_locked_by vm = r_locked_by r ∧ vm_locked_at vm = r_locked_at r ∧
  vm_owner vm = "" ∧ vm_group vm = "" ∧ vm_spiffe vm = "".
Proof.
  unfold scan_vm. intros H. repeat (split_match_in H; try discriminate); simplify_eq; by repeat split.
Qed.

Lemma scans_lock r by' at' : scans r →
  scans (set_lock r by' at').
Proof.
  intros [vm H]. unfold scans, scan_vm in *. simpl.
  destruct (dec_config (r_config_json r)); [|done].
  destruct (r_runtime_json r) as [j|]; [destruct (dec_runtime j); [|done]|]; eauto.
Qed.

Lemma scans_update r vm now : scans r →
  scans (mkVMRow (r_id r) (r_name r) (vm_state vm) (r_image_ref r) (r_digest r) (r_arch r)
    (enc_config (vm_config vm)) (enc_runtime <$> vm_runtime vm) (r_created r) now
    (r_locked_by r) (r_locked_at r)).
Proof. intros _. eexists. apply scan_updated. Qed.

Lemma job_scans_fresh id ref st (p : option PullProgress) e r c d :
  job_scans (mkJobRow id ref st (enc_progress <$> p) e r c d).
Proof.
  intros j; simpl. destruct p as [p|]; simpl; [|done]. intros [= <-]. exists p. apply dec_enc_progress.
Qed.

#[export] Hint Resolve scans_vm_row image_scans_row scans_lock scans_update job_scans_fresh : go.

(** * The invariant *)

Lemma eqb_neq_existsb {A} (key : A → string) (k : string) l :
  existsb (λ r, String.eqb (key r) k) l = false → k ∉ (key <$> l).
Proof.
  rewrite existsb_false_iff. intros H (r & -> & Hr)%list_elem_of_fmap.
  specialize (H r Hr). by rewrite String.eqb_refl in H.
Qed.

Lemma NoDup_insert_eqb {A} (key : A → string) (l : list A) new :
  existsb (λ r, String.eqb (key r) (key new)) l = false →
  NoDup (key <$> l) → NoDup (key <$> (l ++ [new])).
Proof. intros H. eapply NoDup_insert; [done|]. intros r Hr. by apply String.eqb_eq. Qed.

Lemma NoDup_upsert_eqb {A} (key : A → string) (l : list A) set new :
  (∀ r, key (set r) = key new) →
  NoDup (key <$> l) → NoDup (key <$> sql_upsert (λ r, String.eqb (key r) (key new)) set new l).
Proof.
  intros Hs. apply NoDup_sql_upsert.
  - intros r Hr%String.eqb_eq. by rewrite Hs.
  - intros r Hr. by apply String.eqb_eq.
Qed.

Ltac wf_field :=
  simpl in *; try assumption;
  first
    [ solve [auto with go]
    | erewrite sql_update_key; [assumption | done]
    | eapply Forall_sql_update; [assumption | solve [auto with go]]
    | eapply Forall_sql_upsert; solve [auto with go]
    | eapply NoDup_insert_eqb; assumption
    | eapply NoDup_upsert_eqb; [done | assumption]
    | apply (NoDup_upsert_eqb i_digest _ _ (image_row _)); [done | assumption] ].

Lemma db_step_wf db fo : db_wf db → db_wf (db_step db fo).
Proof.
  intros Hwf. destruct fo as [[e|] op]; [by destruct op|].
  destruct Hwf. destruct op; simpl; unfold CreateVM, UpdateVM, DeleteVM, AcquireLock, ReleaseLock,
    CreateSnapshot, DeleteSnapshot, CreateImage, UpsertImage, DeleteImage, CreatePullJob,
    UpdatePullJob, PutCachedLayer, TouchCachedLayer, DeleteCachedLayer;
    repeat split_match; try (split; assumption); split; wf_field.
Qed.

Lemma run_ops_wf ops db : db_wf db → db_wf (run_ops ops db).
Proof. revert db. induction ops as [|fo ops IH]; simpl; [done|]. intros db H. by apply IH, db_step_wf. Qed.

Lemma empty_db_wf : db_wf empty_db.
Proof. split; simpl; auto using NoDup_nil_2. Qed.

(** ** Queries on a well-formed database *)

Lemma collect_ok {A B} (f : A → result B) l :
  Forall (λ r, ∃ b, f r = Ok b) l → ∃ bs, collect f l = Ok bs ∧ Forall2 (λ r b, f r = Ok b) l bs.
Proof.
  induction 1 as [|r l [b Hb] _ (bs & Hbs & H2)]; simpl; [by exists []|].
  exists (b :: bs). rewrite Hb; simpl. rewrite Hbs. auto.
Qed.

Lemma Forall2_fmap_eq {A B C} (f : A → C) (g : B → C) (R : A → B → Prop) l k :
  (∀ a b, R a b → f a = g b) → Forall2 R l k → f <$> l = g <$> k.
Proof. intros H. induction 1; simpl; [done|]. f_equal; auto. Qed.

Lemma GetVM_ok db k : db_wf db → ∃ o, GetVM None k db = Ok o.
Proof.
  intros Hwf. unfold GetVM. destruct (List.find _ _) as [r|] eqn:E; [|by eexists].
  apply find_some_elem in E as [Hin _]. destruct Hwf.
  rewrite Forall_forall in wf_scans0. destruct (wf_scans0 r Hin) as [vm ->]. by eexists.
Qed.

Lemma find_tag_ok tag rows : Forall image_scans rows → ∃ o, find_tag tag rows = Ok o.
Proof.
  induction 1 as [|r rows [i Hi] _ IH]; simpl; [by eexists|]. rewrite Hi; simpl.
  destruct (existsb _ _); [by eexists|done].
Qed.

Lemma StronglySorted_key {A} (key : A → Z) (R : Z → Z → Prop) l :
  StronglySorted (λ a b, R (key a) (key b)) l → StronglySorted R (key <$> l).
Proof. induction 1 as [|a l _ IH Ha]; simpl; constructor; [done|]. by apply Forall_fmap. Qed.

Lemma newest_first_sorted l : StronglySorted newest_first (merge_sort newest_first l).
Proof.
  apply StronglySorted_merge_sort.
  - intros a b c H1 H2. unfold newest_first in *. lia.
  - intros a b. unfold newest_first. lia.
Qed.

Definition rows_of (stateFilter : string) (db : DB) : list VMRow :=
  List.filter (λ r, String.eqb stateFilter "" || String.eqb (state_string (r_state r)) stateFilter) (t_vms db).

Lemma rows_of_spec f db :
  rows_of f db = (if negb (String.eqb f "")
    then List.filter (λ r, String.eqb (state_string (r_state r)) f) (t_vms db) else t_vms db).
Proof.
  unfold rows_of. destruct (String.eqb f ""); simpl; [|done].
  induction (t_vms db) as [|r l IH]; simpl; [done|by f_equal].
Qed.

Lemma ListVMs_ok f db :
  db_wf db → ∃ vms, ListVMs QueryOk f db = Ok vms ∧ ((vm_id <$> vms) ≡ₚ (r_id <$> rows_of f db)) ∧
    StronglySorted (λ a b, (b ≤ a)%Z) (vm_created <$> vms).
Proof.
  intros Hwf. destruct (collect_ok scan_vm (merge_sort newest_first (rows_of f db))) as (vms & Hc & H2).
  { rewrite Forall_forall. intros r Hr. rewrite merge_sort_Permutation in Hr.
    apply list_elem_of_In, List.filter_In in Hr as [Hr%list_elem_of_In _].
    destruct Hwf as [_ _ Hs _ _ _ _ _ _]. rewrite Forall_forall in Hs. by apply Hs. }
  exists vms. unfold ListVMs. rewrite <- rows_of_spec. simpl. split; [done|]. split.
  - rewrite <- (Forall2_fmap_eq r_id vm_id _ _ _ (λ a b H, eq_sym (proj1 (scan_vm_fields a b H))) H2).
    by rewrite merge_sort_Permutation.
  - assert (Hk : r_created <$> merge_sort newest_first (rows_of f db) = vm_created <$> vms).
    { eapply Forall2_fmap_eq; [|done]. intros r vm H. apply scan_vm_fields in H. symmetry. tauto. }
    rewrite <- Hk. apply (StronglySorted_key r_created (λ a b, (b ≤ a)%Z)), newest_first_sorted.
Qed.

(** ** Claims *)


Lemma matches_id r : matches (r_id r) r = true.
Proof. unfold matches. by rewrite String.eqb_refl. Qed.
Lemma matches_name r : matches (r_name r) r = true.
Proof. unfold matches. by rewrite String.eqb_refl, orb_true_r. Qed.

Lemma GetVM_find db k : GetVM None k db =
  match List.find (matches k) (t_vms db) with
  | None => Ok None
  | Some r => let? vm := scan_vm r in Ok (Some vm)
  end.
Proof. reflexivity. Qed.

(** A created VM is what [GetVM] returns, by id and by name, with all its
    fields except the owner, group and SPIFFE id, which the table has no column
    for, and the lock, which starts free; every VM that was there before is
    still returned unchanged. *)
Theorem CreateVM_GetVM (vm : VM) (db : DB)
    (Hid : GetVM None (vm_id vm) db = Ok None) (Hname : GetVM None (vm_name vm) db = Ok None) :
  let '(err, db') := CreateVM None vm db in
  err = None ∧
  GetVM None (vm_id vm) db' = Ok (Some (persisted vm None None)) ∧
  GetVM None (vm_name vm) db' = Ok (Some (persisted vm None None)) ∧
  (∀ k old, GetVM None k db = Ok (Some old) → GetVM None k db' = Ok (Some old)).
Proof.
  rewrite GetVM_find in Hid, Hname.
  destruct (List.find (matches (vm_id vm)) _) as [r|] eqn:E1; [by destruct (scan_vm r)|].
  destruct (List.find (matches (vm_name vm)) _) as [r|] eqn:E2; [by destruct (scan_vm r)|].
  assert (H1 : existsb (λ r, String.eqb (r_id r) (vm_id vm)) (t_vms db) = false).
  { apply existsb_false_iff. intros r Hr. rewrite find_none_iff in E1. by apply E1, orb_false_elim in Hr as [??]. }
  assert (H2 : existsb (λ r, String.eqb (r_name r) (vm_name vm)) (t_vms db) = false).
  { apply existsb_false_iff. intros r Hr. rewrite find_none_iff in E2. by apply E2, orb_false_elim in Hr as [??]. }
  unfold CreateVM. rewrite H1, H2. split; [done|].
  setoid_rewrite GetVM_find. cbn [t_vms with_vms]. rewrite !find_app_none by done. simpl List.find.
  change (vm_id vm) with (r_id (vm_row vm)). change (vm_name vm) with (r_name (vm_row vm)).
  rewrite matches_id, matches_name, scan_vm_row. do 2 (split; [done|]).
  intros k old.
  destruct (List.find (matches k) (t_vms db)) as [r|] eqn:E; [|done].
  by rewrite (find_app_some (matches k) (t_vms db) _ r).
Qed.

(** The row that [GetVM] finds after an [UpdateVM]. *)
Lemma GetVM_UpdateVM db k now vm old :
  GetVM None k db = Ok (Some old) → vm_id vm = vm_id old →
  GetVM None k (snd (UpdateVM None now vm db)) =
    Ok (Some (mkVM (vm_id old) (vm_name old) (vm_state vm) (vm_image old) (vm_digest old) (vm_arch old)
      (vm_config vm) (vm_runtime vm) (vm_created old) now (vm_locked_by old) (vm_locked_at old) "" "" "")).
Proof.
  rewrite !GetVM_find. intros H Hid. unfold UpdateVM; simpl.
  rewrite find_sql_update by (intros r; done).
  destruct (List.find (matches k) (t_vms db)) as [r|] eqn:E; [|done]. simpl in *.
  destruct (scan_vm r) as [o|] eqn:Es; simpl in H; [|done]. simplify_eq.
  apply scan_vm_fields in Es as (Hi & Hn & _ & Him & Hd & Ha & Hc & _ & Hb & Ht & _).
  rewrite Hid, Hi, String.eqb_refl. rewrite scan_updated. simpl. congruence.
Qed.

Lemma UpdateVM_others db now vm r :
  r ∈ t_vms db → r_id r ≠ vm_id vm → r ∈ t_vms (snd (UpdateVM None now vm db)).
Proof.
  intros Hr Hne. unfold UpdateVM; simpl. unfold sql_update. apply list_elem_of_fmap. exists r.
  apply String.eqb_neq in Hne. by rewrite Hne.
Qed.

(** [UpdateVM] stores exactly the state, the configuration, the runtime
    and the new update time: the identity, the creation time and the lock of
    the row stay what the table has, whatever the struct says about the lock,
    and the rows of all other VMs and all other tables are untouched.  A failed
    statement changes nothing. *)
Theorem UpdateVM_spec (fault : option error) (now : Z) (k : string) (vm old : VM) (db : DB)
    (Hold : GetVM None k db = Ok (Some old)) (Hid : vm_id vm = vm_id old) :
  let '((err, vm'), db') := UpdateVM fault now vm db in
  vm' = set_updated vm now ∧
  (∀ r, r_id r ≠ vm_id vm → r ∈ t_vms db → r ∈ t_vms db') ∧
  t_snapshots db' = t_snapshots db ∧ t_images db' = t_images db ∧
  match fault with
  | Some e => err = Some (wrap "failed to update VM: %w" e) ∧ db' = db
  | None =>
      err = None ∧
      GetVM None k db' = Ok (Some
        (mkVM (vm_id old) (vm_name old) (vm_state vm) (vm_image old) (vm_digest old) (vm_arch old)
          (vm_config vm) (vm_runtime vm) (vm_created old) now (vm_locked_by old) (vm_locked_at old) "" "" ""))
  end.
Proof.
  destruct fault as [e|]; [by repeat split|].
  pose proof (GetVM_UpdateVM db k now vm old Hold Hid) as Hg.
  pose proof (λ r, UpdateVM_others db now vm r) as Ho.
  destruct (UpdateVM None now vm db) as [[err vm'] db'] eqn:E. unfold UpdateVM in E. simplify_eq.
  repeat split; auto.
Qed.

(** The lock columns of the VM that [GetVM] finds. *)
Definition set_vm_lock (vm : VM) (locked_by : option string) (locked_at : option Z) : VM :=
  mkVM (vm_id vm) (vm_name vm) (vm_state vm) (vm_image vm) (vm_digest vm) (vm_arch vm) (vm_config vm)
    (vm_runtime vm) (vm_created vm) (vm_updated vm) locked_by locked_at (vm_owner vm) (vm_group vm) (vm_spiffe vm).

Lemma scan_set_lock r vm b a : scan_vm r = Ok vm → scan_vm (set_lock r b a) = Ok (set_vm_lock vm b a).
Proof.
  unfold scan_vm. simpl. destruct (dec_config (r_config_json r)); [|done].
  destruct (r_runtime_json r) as [j|]; [destruct (dec_runtime j); [|done]|]; by intros [= <-].
Qed.

Lemma GetVM_lock_update db k vm (p : VMRow → bool) b a :
  GetVM None k db = Ok (Some vm) →
  let db' := with_vms db (sql_update p (λ r, set_lock r b a) (t_vms db)) in
  GetVM None k db' = Ok (Some vm) ∨ GetVM None k db' = Ok (Some (set_vm_lock vm b a)).
Proof.
  intros H db'. rewrite GetVM_find in H |- *. unfold db'. cbn [t_vms with_vms].
  rewrite find_sql_update by (intros r; done).
  destruct (List.find (matches k) (t_vms db)) as [r|]; [|done]. simpl in *.
  destruct (scan_vm r) as [o|] eqn:Es; [|done]. simpl in H. simplify_eq.
  destruct (p r); [right|left]; [rewrite (scan_set_lock r vm) by done|rewrite Es]; done.
Qed.

Lemma GetVM_AcquireLock db k vm fault rf n1 n2 id op :
  GetVM None k db = Ok (Some vm) →
  ∃ b a, GetVM None k (snd (AcquireLock fault rf n1 n2 id op db)) = Ok (Some (set_vm_lock vm b a)).
Proof.
  intros H. assert (Hself : set_vm_lock vm (vm_locked_by vm) (vm_locked_at vm) = vm) by by destruct vm.
  unfold AcquireLock. destruct fault; [exists (vm_locked_by vm), (vm_locked_at vm); by rewrite Hself|].
  destruct (GetVM_lock_update db k vm (lockable n2 id) (Some op) (Some n1) H) as [E|E].
  - exists (vm_locked_by vm), (vm_locked_at vm). rewrite Hself. destruct rf; [done|]. by destruct (negb _).
  - exists (Some op), (Some n1). destruct rf; [done|]. by destruct (negb _).
Qed.

Lemma GetVM_ReleaseLock db k vm :
  GetVM None k db = Ok (Some vm) →
  GetVM None k (snd (ReleaseLock None (vm_id vm) db)) = Ok (Some (set_vm_lock vm None None)).
Proof.
  intros H. rewrite GetVM_find in H |- *. unfold ReleaseLock. cbn [snd t_vms with_vms].
  rewrite find_sql_update by (intros r; done).
  destruct (List.find (matches k) (t_vms db)) as [r|]; [|done]. simpl in *.
  destruct (scan_vm r) as [o|] eqn:Es; [|done]. simpl in H. simplify_eq.
  apply scan_vm_fields in Es as Hf. destruct Hf as [Hi _]. rewrite Hi, String.eqb_refl.
  by rewrite (scan_set_lock r vm).
Qed.

Lemma AcquireLock_free db k vm n1 n2 op :
  GetVM None k db = Ok (Some vm) → vm_locked_by vm = None →
  fst (AcquireLock None None n1 n2 (vm_id vm) op db) = None ∧
  GetVM None k (snd (AcquireLock None None n1 n2 (vm_id vm) op db)) = Ok (Some (set_vm_lock vm (Some op) (Some n1))).
Proof.
  intros H Hl. rewrite GetVM_find in H.
  destruct (List.find (matches k) (t_vms db)) as [r|] eqn:Ef; [|done]. simpl in H.
  destruct (scan_vm r) as [o|] eqn:Es; [|done]. simpl in H. simplify_eq.
  pose proof (scan_vm_fields _ _ Es) as (Hi & _ & _ & _ & _ & _ & _ & _ & Hb & _).
  assert (Hlk : lockable n2 (vm_id vm) r = true).
  { unfold lockable. rewrite Hi, String.eqb_refl. simpl. by rewrite <- Hb, Hl. }
  unfold AcquireLock.
  assert (existsb (lockable n2 (vm_id vm)) (t_vms db) = true) as ->.
  { apply existsb_true_elem. exists r. split; [|done]. by apply find_some_elem in Ef as [Hin _]. }
  simpl negb. cbn iota. split; [done|]. rewrite GetVM_find. cbn [snd t_vms with_vms].
  rewrite find_sql_update by (intros r'; done). rewrite Ef. simpl. rewrite Hlk.
  by rewrite (scan_set_lock r vm).
Qed.

(** ** What a statement on one VM leaves alone *)

(** Every VM with another id is found as before, and the other tables are the
    same. *)
Record others_kept (id : string) (db db' : DB) : Prop := mkKept {
  kept_vms : ∀ k vm, vm_id vm ≠ id → GetVM None k db = Ok (Some vm) → GetVM None k db' = Ok (Some vm);
  kept_snapshots : t_snapshots db' = t_snapshots db;
  kept_images : t_images db' = t_images db;
  kept_jobs : t_jobs db' = t_jobs db;
  kept_layers : t_layers db' = t_layers db }.

Lemma others_kept_refl id db : others_kept id db db.
Proof. by split. Qed.

Lemma others_kept_trans id db1 db2 db3 : others_kept id db1 db2 → others_kept id db2 db3 → others_kept id db1 db3.
Proof. intros [H1 ????] [H2 ????]. split; [auto|congruence..]. Qed.

Lemma others_kept_update id db (p : VMRow → bool) set :
  (∀ r, p r = true → r_id r = id) →
  (∀ r, r_id (set r) = r_id r ∧ r_name (set r) = r_name r) →
  others_kept id db (with_vms db (sql_update p set (t_vms db))).
Proof.
  intros Hp Hs. split; try done. intros k vm Hne Hg. rewrite GetVM_find in Hg |- *. cbn [t_vms with_vms].
  rewrite find_sql_update by (intros r; destruct (Hs r) as [Hi Hn]; unfold matches; by rewrite Hi, Hn).
  destruct (List.find (matches k) (t_vms db)) as [r|]; [|done]. simpl in *.
  destruct (p r) eqn:E; [|done]. exfalso. apply Hp in E.
  destruct (scan_vm r) as [o|] eqn:Es; [|done]. simpl in Hg. simplify_eq.
  apply scan_vm_fields in Es as [Hi _]. congruence.
Qed.

Lemma others_kept_UpdateVM fault now vm db : others_kept (vm_id vm) db (snd (UpdateVM fault now vm db)).
Proof.
  destruct fault; [apply others_kept_refl|]. apply others_kept_update; [|done].
  intros r H. by apply String.eqb_eq.
Qed.

Lemma others_kept_AcquireLock fault rf n1 n2 id op db : others_kept id db (snd (AcquireLock fault rf n1 n2 id op db)).
Proof.
  assert (others_kept id db (with_vms db (sql_update (lockable n2 id) (λ r, set_lock r (Some op) (Some n1)) (t_vms db)))).
  { apply others_kept_update; [|done]. intros r H. unfold lockable in H. apply andb_prop in H as [H _]. by apply String.eqb_eq. }
  unfold AcquireLock. destruct fault; [apply others_kept_refl|]. destruct rf; [done|]. by destruct (negb _).
Qed.

Lemma others_kept_ReleaseLock fault id db : others_kept id db (snd (ReleaseLock fault id db)).
Proof.
  destruct fault; [apply others_kept_refl|]. apply others_kept_update; [|done].
  intros r H. by apply String.eqb_eq.
Qed.

(** ** Locks *)

Lemma lockable_id n id r : lockable n id r = true → r_id r = id.
Proof. intros [H _]%andb_true_iff. by apply String.eqb_eq. Qed.

Lemma held_since_AcquireLock id n1 n2 o db db' :
  NoDup (r_id <$> t_vms db) →
  AcquireLock None None n1 n2 id o db = (None, db') → held_since id n1 db'.
Proof.
  unfold AcquireLock. intros Hnd. destruct (existsb _ _) eqn:E; simpl; [|done]. intros [= <-].
  apply existsb_true_elem in E as (r & Hr & Hl).
  pose proof (lockable_id _ _ _ Hl) as Hi. split; simpl.
  - eexists. split; [apply list_elem_of_fmap; exists r; split; [reflexivity|done]|]. by rewrite Hl.
  - intros r' (r0 & -> & Hr0)%list_elem_of_fmap H0.
    assert (r_id r0 = id) as H1 by (destruct (lockable n2 id r0); done).
    assert (r0 = r) as -> by (eapply (NoDup_fmap_inj_on r_id); eauto; congruence).
    by rewrite Hl.
Qed.

Lemma held_since_rows id t (f : VMRow → VMRow) db db' :
  t_vms db' = f <$> t_vms db →
  (∀ r, r_id (f r) = r_id r) →
  (∀ r, r_id r = id → r_locked_by r ≠ None → r_locked_at r = Some t →
     r_locked_by (f r) ≠ None ∧ r_locked_at (f r) = Some t) →
  held_since id t db → held_since id t db'.
Proof.
  intros E Hf Hk [(r & Hr & Hi) Hall]. split; rewrite E.
  - exists (f r). split; [by apply list_elem_of_fmap_2|by rewrite Hf].
  - intros r' (r0 & -> & Hr0)%list_elem_of_fmap H0. rewrite Hf in H0.
    destruct (Hall r0 Hr0 H0). by apply Hk.
Qed.

Lemma not_lockable n id t r :
  r_locked_by r ≠ None → r_locked_at r = Some t → (n ≤ t + lock_ttl)%Z → lockable n id r = false.
Proof.
  intros Hb Ht Hn. unfold lockable. rewrite Ht. destruct (r_locked_by r); [|done].
  apply andb_false_iff. right. apply Z.ltb_ge. lia.
Qed.

Lemma held_since_existing id t db : held_since id t db → id ∈ (r_id <$> t_vms db).
Proof. intros [(r & Hr & <-) _]. by apply list_elem_of_fmap_2. Qed.

Lemma held_since_delete id t i db db' :
  t_vms db' = sql_delete (λ r, String.eqb (r_id r) i) (t_vms db) → i ≠ id →
  held_since id t db → held_since id t db'.
Proof.
  intros E Hne [(r & Hr & Hi) Hall]. split; rewrite E; unfold sql_delete.
  - exists r. split; [|done]. apply list_elem_of_filter. split; [|done].
    apply String.eqb_neq. congruence.
  - intros r' [_ H]%list_elem_of_filter. by apply Hall.
Qed.

Lemma held_since_acquire id t n2 i (set : VMRow → VMRow) db db' :
  t_vms db' = sql_update (lockable n2 i) set (t_vms db) → (∀ r, r_id (set r) = r_id r) →
  (i = id → (n2 ≤ t + lock_ttl)%Z) →
  held_since id t db → held_since id t db'.
Proof.
  intros E Hs Hr. apply (held_since_rows _ _ _ _ _ E); intros r; [by destruct (lockable _ _ _)|].
  intros Hi Hb Ht. destruct (lockable n2 i r) eqn:El; [|done].
  assert (i = id) as -> by (apply lockable_id in El; congruence).
  rewrite (not_lockable n2 id t r) in El; auto. done.
Qed.

Lemma held_since_step id t db fo :
  respects_lock id t (snd fo) → held_since id t db → held_since id t (db_step db fo).
Proof.
  destruct fo as [[e|] op]; [by destruct op|]. simpl. intros Hr Hh.
  destruct op; simpl in *; try exact Hh;
    unfold CreateVM, UpdateVM, DeleteVM, AcquireLock, ReleaseLock, CreateSnapshot, DeleteSnapshot,
      CreateImage, UpsertImage, DeleteImage, CreatePullJob, UpdatePullJob, PutCachedLayer,
      TouchCachedLayer, DeleteCachedLayer; repeat split_match; try exact Hh.
  - destruct Hh as [(r & Hin & Hi) Hall]. split; simpl.
    + exists r. split; [by apply elem_of_app; left|done].
    + intros r' [H|H%list_elem_of_singleton]%elem_of_app; [by apply Hall|].
      intros Hid. subst r'. simpl in Hid. exfalso. eapply eqb_neq_existsb; [exact E|].
      rewrite Hid. eapply held_since_existing. split; [by exists r|exact Hall].
  - eapply held_since_rows; [reflexivity| | |exact Hh]; intros r; simpl; destruct (String.eqb (r_id r) (vm_id vm)); simpl; auto.
  - by eapply held_since_delete.
  - by eapply held_since_delete.
  - by eapply held_since_acquire.
  - by eapply held_since_acquire.
  - by eapply held_since_acquire.
  - eapply held_since_rows; [reflexivity| | |exact Hh]; intros r; simpl; [by destruct (String.eqb (r_id r) id0)|].
    intros Hi Hb Ht. destruct (String.eqb (r_id r) id0) eqn:El; [|done].
    apply String.eqb_eq in El. congruence.
Qed.

Lemma held_since_run id t ops db :
  Forall (λ fo, respects_lock id t (snd fo)) ops → held_since id t db → held_since id t (run_ops ops db).
Proof.
  intros H. revert db. induction H as [|fo ops Hfo _ IH]; simpl; [done|].
  intros db Hh. by apply IH, held_since_step.
Qed.

(** A refused attempt changes nothing. *)
Lemma sql_update_none {A} (p : A → bool) set t : (∀ r, r ∈ t → p r = false) → sql_update p set t = t.
Proof.
  induction t as [|r t IH]; intros H; [done|]. unfold sql_update in *. simpl.
  rewrite (H r) by apply elem_of_cons, or_introl, eq_refl. f_equal. apply IH.
  intros x Hx. apply H. apply elem_of_cons. by right.
Qed.

Lemma AcquireLock_none_lockable fault rf n1 n2 id op db :
  (∀ r, r ∈ t_vms db → lockable n2 id r = false) → ∃ e, AcquireLock fault rf n1 n2 id op db = (Some e, db).
Proof.
  intros H. unfold AcquireLock. destruct fault as [e|]; [by eexists|].
  rewrite sql_update_none by done.
  assert (existsb (lockable n2 id) (t_vms db) = false) as -> by by apply existsb_false_iff.
  assert (with_vms db (t_vms db) = db) as -> by by destruct db. destruct rf; by eexists.
Qed.

Lemma held_not_lockable id t db n2 r :
  held_since id t db → (n2 ≤ t + lock_ttl)%Z → r ∈ t_vms db → lockable n2 id r = false.
Proof.
  intros [_ Hall] Hn Hr. destruct (decide (r_id r = id)) as [Hi|Hi].
  - destruct (Hall r Hr Hi). by eapply not_lockable.
  - unfold lockable. apply String.eqb_neq in Hi. by rewrite Hi.
Qed.

Lemma AcquireLock_held id t db fault rf n1 n2 o :
  held_since id t db → (n2 ≤ t + lock_ttl)%Z → ∃ e, AcquireLock fault rf n1 n2 id o db = (Some e, db).
Proof. intros Hh Hn. apply AcquireLock_none_lockable. intros r. by eapply held_not_lockable. Qed.

(** C5: The lock is exclusive for five minutes: once an operation took the
    lock of a VM at [now1], then whatever statements run on the database in
    between, updates of the same VM with a stale struct included, every other
    attempt to take the lock before it expires is refused, unless the VM's lock
    was released or the VM deleted. *)
Theorem lock_mutual_exclusion (ops0 ops : list (option error * db_op))
    (now1 now2 : Z) (id op : string) (db : DB)
    (Hacq : AcquireLock None None now1 now2 id op (run_ops ops0 empty_db) = (None, db))
    (Hops : Forall (λ fo, respects_lock id now1 (snd fo)) ops) :
  ∀ fault rf now3 now4 op', (now4 ≤ now1 + lock_ttl)%Z →
    ∃ e, fst (AcquireLock fault rf now3 now4 id op' (run_ops ops db)) = Some e.
Proof.
  intros fault rf now3 now4 op' Hn. edestruct AcquireLock_held as [e He]; [|exact Hn|exists e; by rewrite He].
  apply held_since_run; [done|]. eapply held_since_AcquireLock; [|done].
  eapply wf_ids, run_ops_wf, empty_db_wf.
Qed.

Lemma elem_of_sql_update {A} p (set : A → A) t x :
  x ∈ sql_update p set t ↔ ∃ r, r ∈ t ∧ x = (if p r then set r else r).
Proof.
  unfold sql_update. rewrite list_elem_of_fmap. split; intros (r & H1 & H2); by exists r.
Qed.

Lemma lockable_released n id db r :
  r ∈ t_vms (snd (ReleaseLock None id db)) → r_id r = id → lockable n id r = true.
Proof.
  intros (r0 & Hr & ->)%elem_of_sql_update. simpl. unfold lockable.
  destruct (String.eqb (r_id r0) id) eqn:E; simpl; [by rewrite E|].
  intros H%String.eqb_eq. congruence.
Qed.

(** [ReleaseLock] frees the lock whoever holds it: after it the next
    attempt on an existing VM succeeds at once.  So when a second operation
    took over an expired lock, the first operation's deferred release lets a
    third one in while the second still runs. *)
Theorem ReleaseLock_frees_any_holder (id op : string) (db : DB) (now1 now2 : Z)
    (Hvm : id ∈ (r_id <$> t_vms db)) :
  let '(err, db') := ReleaseLock None id db in
  err = None ∧ ∃ db'', AcquireLock None None now1 now2 id op db' = (None, db'') ∧
    ∀ r, r ∈ t_vms db'' → r_id r = id → r_locked_by r = Some op ∧ r_locked_at r = Some now1.
Proof.
  pose proof (λ r, lockable_released now2 id db r) as Hl.
  unfold ReleaseLock in *; simpl in Hl. split; [done|].
  apply list_elem_of_fmap in Hvm as (r & -> & Hr).
  unfold AcquireLock; simpl. replace (existsb _ _) with true.
  - eexists. split; [reflexivity|]. simpl.
    intros x (y & Hy & ->)%elem_of_sql_update.
    destruct (lockable now2 (r_id r) y) eqn:El; [done|].
    intros Hi. rewrite Hl in El by done. discriminate El.
  - symmetry. apply existsb_true_elem. eexists.
    split; [apply elem_of_sql_update; exists r; split; [done|reflexivity]|].
    apply Hl; [apply elem_of_sql_update; exists r; split; [done|reflexivity]|].
    by rewrite String.eqb_refl.
Qed.

(** ** Snapshots of a deleted VM *)

(** [DeleteVM] removes exactly the VM.  Its snapshots go with it only when
    the connection that runs the statement enforces foreign keys; otherwise the
    rows stay behind and are still listed. *)
Theorem DeleteVM_cascade (fk : bool) (id : string) (db : DB) :
  let '(err, db') := DeleteVM None fk id db in
  err = None ∧
  (∀ r, r ∈ t_vms db' ↔ r ∈ t_vms db ∧ r_id r ≠ id) ∧
  (∀ s, s ∈ t_snapshots db' ↔ s ∈ t_snapshots db ∧ (fk = true → sn_vm s ≠ id)) ∧
  (if fk then ListSnapshots QueryOk id db' = Ok []
   else ListSnapshots QueryOk id db' = ListSnapshots QueryOk id db).
Proof.
  unfold DeleteVM. split; [done|].
  assert (Hd : ∀ {A} (key : A → string) (l : list A) x,
    x ∈ sql_delete (λ r, String.eqb (key r) id) l ↔ x ∈ l ∧ key x ≠ id).
  { intros A key l x. unfold sql_delete. rewrite list_elem_of_filter, <- String.eqb_neq. tauto. }
  split; [|split].
  - intros r. rewrite <- (Hd _ r_id). by destruct fk.
  - intros s. destruct fk; simpl; [rewrite Hd|]; naive_solver.
  - destruct fk; [|done]. unfold ListSnapshots; simpl.
    replace (List.filter _ _) with (@nil Snapshot); [done|].
    symmetry. apply elem_of_nil_inv. intros s Hs. apply list_elem_of_In, List.filter_In in Hs as [Hs Hv].
    apply list_elem_of_In, Hd in Hs as [_ Hs]. by apply String.eqb_eq in Hv.
Qed.
(** ** Images and the layer cache *)

(** Upserting an image makes it what [GetImage] returns for its digest,
    whether the digest was known or not; other digests are unaffected; and
    repeating the call changes nothing. *)
Theorem UpsertImage_GetImage (image : Image) (db : DB) :
  let '(err, db') := UpsertImage None image db in
  err = None ∧
  GetImage None (img_digest image) db' = Ok (Some image) ∧
  (∀ d, d ≠ img_digest image → GetImage None d db' = GetImage None d db) ∧
  UpsertImage None image db' = (None, db').
Proof.
  unfold UpsertImage. split; [done|]. cbn [t_images with_images].
  set (p := λ r, String.eqb (i_digest r) (img_digest image)).
  assert (Hp : p (image_row image) = true) by apply String.eqb_refl.
  split; [|split].
  - unfold GetImage. cbn [t_images with_images].
    rewrite find_upsert_same by done. by rewrite scan_image_row.
  - intros d Hd. unfold GetImage. cbn [t_images with_images].
    rewrite (find_upsert_other p); [done| |]; unfold p.
    + intros r Hr%String.eqb_eq. apply String.eqb_neq. congruence.
    + apply String.eqb_neq. simpl. congruence.
  - unfold with_images; simpl. by rewrite sql_upsert_idem.
Qed.

(** [GetOldestCachedLayers] returns, oldest access first, the layers that
    were used least recently: [limit] of them (all when the limit is not
    positive or larger than the cache), each reported once, and every layer it
    leaves out was used no earlier than any it returns. *)
Theorem GetOldestCachedLayers_lru (limit : Z) (db : DB) :
  ∃ chosen rest,
    GetOldestCachedLayers QueryOk limit db = Ok ((λ r, (l_digest r, l_local_path r, l_size r)) <$> chosen) ∧
    ((chosen ++ rest) ≡ₚ t_layers db) ∧
    StronglySorted Z.le (l_last_used <$> chosen) ∧
    (∀ c r, c ∈ chosen → r ∈ rest → (l_last_used c ≤ l_last_used r)%Z) ∧
    Z.of_nat (length chosen) =
      (if (0 <? limit)%Z then Z.min limit (Z.of_nat (length (t_layers db))) else Z.of_nat (length (t_layers db))).
Proof.
  set (s := merge_sort older_first (t_layers db)).
  set (n := if (0 <? limit)%Z then Z.to_nat limit else length s).
  exists (take n s), (drop n s).
  assert (Hp : s ≡ₚ t_layers db) by apply merge_sort_Permutation.
  assert (Hs : StronglySorted older_first s).
  { apply StronglySorted_merge_sort.
    - intros a b c H1 H2. unfold older_first in *. lia.
    - intros a b. unfold older_first. lia. }
  assert (Hl : length s = length (t_layers db)) by (by rewrite Hp).
  rewrite <- (take_drop n s) in Hs. apply StronglySorted_app in Hs as (Hlt & Hs1 & _).
  split; [|split; [by rewrite take_drop|split; [|split]]].
  - unfold GetOldestCachedLayers. fold s. unfold n. destruct (0 <? limit)%Z; [done|].
    by rewrite firstn_all.
  - by apply (StronglySorted_key l_last_used Z.le).
  - intros c r Hc Hr. exact (Hlt c r Hc Hr).
  - rewrite length_take. unfold n. destruct (0 <? limit)%Z eqn:E; lia.
Qed.

(** ** Witnesses *)

Definition example_vm (id name : string) : VM :=
  mkVM id name StateCreated "img:latest" "sha256:1" "x86_64"
    (mkConfig 2 512 "console=ttyS0" "" zero_network [] [] []) None 10 10 None None "alice" "eng" "spiffe://t/vm".

Lemma CreateVM_GetVM_witness :
  let db := snd (CreateVM None (example_vm "id1" "web") empty_db) in
  GetVM None "id1" db = Ok (Some (persisted (example_vm "id1" "web") None None)).
Proof.
  destruct (CreateVM_GetVM (example_vm "id1" "web") empty_db ltac:(reflexivity) ltac:(reflexivity)) as (_ & H & _).
  exact H.
Defined.

Lemma UpdateVM_spec_witness :
  let db := snd (CreateVM None (example_vm "id1" "web") empty_db) in
  snd (fst (UpdateVM None 20 (set_state (example_vm "id1" "web") StateRunning) db)) =
  set_updated (set_state (example_vm "id1" "web") StateRunning) 20.
Proof.
  exact (proj1 (UpdateVM_spec None 20 "web" (set_state (example_vm "id1" "web") StateRunning)
    (persisted (example_vm "id1" "web") None None) (snd (CreateVM None (example_vm "id1" "web") empty_db))
    ltac:(vm_compute; reflexivity) ltac:(reflexivity))).
Defined.

Lemma lock_mutual_exclusion_witness :
  let ops0 := [(None, OpCreateVM (example_vm "id1" "web"))] in
  let db := snd (AcquireLock None None 100 100 "id1" "start" (run_ops ops0 empty_db)) in
  let ops := [(None, OpUpdateVM 150 (set_state (example_vm "id1" "web") StateStarting))] in
  ∃ e, fst (AcquireLock None None 200 200 "id1" "stop" (run_ops ops db)) = Some e.
Proof.
  intros ops0 db ops.
  apply (lock_mutual_exclusion ops0 ops 100 100 "id1" "start" db ltac:(vm_compute; reflexivity)
    ltac:(repeat constructor)). vm_compute. discriminate.
Defined.

Lemma ReleaseLock_frees_any_holder_witness :
  let db := run_ops [(None, OpCreateVM (example_vm "id1" "web"));
    (None, OpAcquireLock None 0 0 "id1" "start");
    (None, OpAcquireLock None (2 * lock_ttl) (2 * lock_ttl) "id1" "stop")] empty_db in
  fst (ReleaseLock None "id1" db) = None.
Proof.
  exact (proj1 (ReleaseLock_frees_any_holder "id1" "delete"
    (run_ops [(None, OpCreateVM (example_vm "id1" "web"));
      (None, OpAcquireLock None 0 0 "id1" "start");
      (None, OpAcquireLock None (2 * lock_ttl) (2 * lock_ttl) "id1" "stop")] empty_db) 700 700
    ltac:(vm_compute; left))).
Defined.
