(* ===== verification/KernelArgs.v ===== *)
(** The kernel command line (src/internal/api/vm_handlers.go): splitting it
    into parameters and merging the managed network parameters into it.

    Strings are byte sequences.  The source ranges over runes; the characters it
    looks at are ASCII, so on valid UTF-8, which is what the JSON decoder
    delivers, the two readings agree. *)

From S2P Require Import Prelude GoStrings.

Definition quote : ascii := "034".
Definition is_blank (c : ascii) : bool :=
  (c =? " ")%char || (c =? "009")%char || (c =? "010")%char || (c =? "013")%char.

Definition push (cur : string) (c : ascii) : string := cur +:+ String c EmptyString.

(* @src internal/api/vm_handlers.go:476-496 splitKernelArgs *)
Fixpoint split_loop (s : string) (cur : string) (inQuote started : bool) : list string :=
  match s with
  | EmptyString => if started then [cur] else []
  | String r s' =>
      if (r =? quote)%char then split_loop s' (push cur r) (negb inQuote) true
      else if negb inQuote && is_blank r then
        if started then cur :: split_loop s' EmptyString inQuote false
        else split_loop s' cur inQuote started
      else split_loop s' (push cur r) inQuote true
  end.

(* @func internal/api/vm_handlers.go splitKernelArgs *)
Definition splitKernelArgs (s : string) : list string := split_loop s EmptyString false false.

(* @src internal/api/vm_handlers.go:461-465 managedNetworkKernelArgKeys *)
Definition managedNetworkKernelArgKeys : list string := ["ip"; "net.ifnames"; "biosdevname"].

(** [tok[:i]] for the first ['='], or the whole token. *)
Definition arg_key (tok : string) : string := default tok (head (split_on "=" tok)).

Definition managed (tok : string) : bool := bool_decide (arg_key tok ∈ managedNetworkKernelArgKeys).

(* @src internal/api/vm_handlers.go:517-517 composeNetworkKernelArgs *)
Definition netArgs (ip gateway : string) : string :=
  "ip=" +:+ ip +:+ "::" +:+ gateway +:+ ":255.255.255.0::eth0:off net.ifnames=0 biosdevname=0".

(* @func internal/api/vm_handlers.go composeNetworkKernelArgs *)
Definition composeNetworkKernelArgs (existing ip gateway : string) : string :=
  let kept := List.filter (λ tok, negb (managed tok)) (splitKernelArgs existing) in
  if Nat.eqb (length kept) 0 then netArgs ip gateway
  else join " " kept +:+ " " +:+ netArgs ip gateway.

(** * Quotes and parameters *)

(** Whether a reader that starts outside ([q = false]) or inside quotes is
    inside quotes at the end. *)
Fixpoint quoted_after (q : bool) (s : string) : bool :=
  match s with
  | EmptyString => q
  | String c s' => quoted_after (if (c =? quote)%char then negb q else q) s'
  end.

Definition balanced (s : string) : Prop := quoted_after false s = false.

(** No blank outside quotes. *)
Fixpoint no_blank (q : bool) (s : string) : bool :=
  match s with
  | EmptyString => true
  | String c s' =>
      if (c =? quote)%char then no_blank (negb q) s'
      else (q || negb (is_blank c)) && no_blank q s'
  end.

(** A whole parameter: not empty, no blank outside its quotes. *)
Definition parameter (tok : string) : Prop := tok ≠ EmptyString ∧ no_blank false tok = true.

(** A value that can stand in a parameter: neither blanks nor quotes. *)
Fixpoint bare (s : string) : bool :=
  match s with
  | EmptyString => true
  | String c s' => negb (c =? quote)%char && negb (is_blank c) && bare s'
  end.

(** The parameters that [composeNetworkKernelArgs] adds. *)
Definition net_params (ip gateway : string) : list string :=
  ["ip=" +:+ ip +:+ "::" +:+ gateway +:+ ":255.255.255.0::eth0:off"; "net.ifnames=0"; "biosdevname=0"].

(** * Lemmas *)

Lemma quoted_after_app q s t : quoted_after q (s +:+ t) = quoted_after (quoted_after q s) t.
Proof. revert q. induction s as [|c s IH]; intros q; [done|]. rewrite string_app_cons. simpl. apply IH. Qed.

Lemma no_blank_app q s t : no_blank q (s +:+ t) = no_blank q s && no_blank (quoted_after q s) t.
Proof.
  revert q. induction s as [|c s IH]; intros q; [done|]. rewrite string_app_cons. simpl.
  destruct (c =? quote)%char; rewrite IH; [done|]. by rewrite andb_assoc.
Qed.

Lemma bare_no_blank s : bare s = true → no_blank false s = true ∧ quoted_after false s = false.
Proof.
  induction s as [|c s IH]; simpl; [done|].
  destruct (c =? quote)%char; simpl; [done|]. destruct (is_blank c); simpl; [done|]. apply IH.
Qed.

Lemma push_app cur c s : push cur c +:+ s = cur +:+ String c s.
Proof. unfold push. rewrite string_app_assoc. by rewrite string_app_cons. Qed.

Lemma push_nonempty cur c : push cur c ≠ EmptyString.
Proof. unfold push. destruct cur; [done|]. rewrite string_app_cons. done. Qed.

(** Reading over a stretch without an unquoted blank extends the current token. *)
Lemma split_loop_over t s cur q started :
  no_blank q t = true →
  split_loop (t +:+ s) cur q started =
    split_loop s (cur +:+ t) (quoted_after q t) (started || negb (String.eqb t EmptyString)).
Proof.
  revert cur q started. induction t as [|c t IH]; intros cur q started H.
  - change (EmptyString +:+ s) with s. rewrite string_app_nil_r. simpl. by rewrite orb_false_r.
  - rewrite string_app_cons. simpl in *. rewrite orb_true_r. destruct (c =? quote)%char.
    + rewrite IH by done. by rewrite push_app.
    + apply andb_prop in H as [Hc H].
      replace (negb q && is_blank c) with false by (destruct q, (is_blank c); done).
      rewrite IH by done. by rewrite push_app.
Qed.

Lemma split_loop_blank c s cur : is_blank c = true →
  split_loop (String c s) cur false true = cur :: split_loop s EmptyString false false.
Proof.
  intros H. simpl. destruct (c =? quote)%char eqn:E; [|by rewrite H].
  apply Ascii.eqb_eq in E as ->. discriminate H.
Qed.

Lemma split_loop_token t s : parameter t → balanced t →
  split_loop (t +:+ s) EmptyString false false = split_loop s t false true.
Proof.
  intros [Hne Hb] Hq. rewrite split_loop_over by done. unfold balanced in Hq. rewrite Hq.
  replace (String.eqb t EmptyString) with false by (symmetry; by apply String.eqb_neq). done.
Qed.

Lemma join_args_cons2 sep a b l : join sep (a :: b :: l) = a +:+ sep +:+ join sep (b :: l).
Proof. reflexivity. Qed.

Lemma split_join toks :
  Forall parameter toks → Forall balanced toks → splitKernelArgs (join " " toks) = toks.
Proof.
  unfold splitKernelArgs. induction toks as [|a toks IH]; [done|].
  intros [Ha Hp]%Forall_cons [Hb Hq]%Forall_cons. destruct toks as [|b toks].
  - change (join " " [a]) with a. rewrite <- (string_app_nil_r a) at 1. by rewrite split_loop_token.
  - rewrite join_args_cons2, split_loop_token by done.
    change (" " +:+ join " " (b :: toks)) with (String " " (join " " (b :: toks))).
    rewrite split_loop_blank by done. by rewrite IH.
Qed.

(** What the splitter returns. *)
Lemma split_loop_sound s cur q started :
  no_blank false cur = true → quoted_after false cur = q → (started = true ↔ cur ≠ EmptyString) →
  Forall parameter (split_loop s cur q started) ∧
  (quoted_after q s = false → Forall balanced (split_loop s cur q started)).
Proof.
  revert cur q started. induction s as [|c s IH]; intros cur q started Hn Hq Hs; simpl.
  - destruct started; [|done]. split; [|intros ->]; apply Forall_singleton; [|done].
    split; [by apply Hs|done].
  - destruct (c =? quote)%char eqn:Ec.
    + apply IH.
      * unfold push. rewrite no_blank_app, Hn. simpl. by rewrite Ec.
      * unfold push. rewrite quoted_after_app, Hq. simpl. by rewrite Ec.
      * split; [intros _; apply push_nonempty|done].
    + destruct (negb q && is_blank c) eqn:Eb.
      * apply andb_prop in Eb as [Eq Eb]. apply negb_true_iff in Eq. destruct started.
        -- destruct (IH EmptyString q false) as [H1 H2]; [done|by rewrite Eq|done|].
           split; [apply Forall_cons; split; [|done]; split; [by apply Hs|done]|].
           intros H. apply Forall_cons. split; [unfold balanced; congruence|auto].
        -- by apply IH.
      * apply IH.
        -- unfold push. rewrite no_blank_app, Hn, Hq. simpl. rewrite Ec.
           destruct q, (is_blank c); done.
        -- unfold push. rewrite quoted_after_app, Hq. simpl. by rewrite Ec.
        -- split; [intros _; apply push_nonempty|done].
Qed.

Lemma split_sound s : Forall parameter (splitKernelArgs s) ∧ (balanced s → Forall balanced (splitKernelArgs s)).
Proof. apply (split_loop_sound s EmptyString false false); done. Qed.

Lemma join_app sep l k : l ≠ [] → k ≠ [] → join sep (l ++ k) = join sep l +:+ sep +:+ join sep k.
Proof.
  intros Hl Hk. induction l as [|a l IH]; [done|]. destruct l as [|b l].
  - destruct k as [|b k]; [done|]. apply join_args_cons2.
  - change ((a :: b :: l) ++ k) with (a :: b :: (l ++ k)). rewrite !join_args_cons2.
    change (b :: l ++ k) with ((b :: l) ++ k). rewrite IH by done. by rewrite !string_app_assoc.
Qed.

Lemma netArgs_join ip gateway : netArgs ip gateway = join " " (net_params ip gateway).
Proof. unfold netArgs, net_params. rewrite !join_args_cons2. change (join " " ["biosdevname=0"]) with "biosdevname=0". by rewrite !string_app_assoc. Qed.

Lemma compose_join existing ip gateway :
  composeNetworkKernelArgs existing ip gateway =
    join " " (List.filter (λ tok, negb (managed tok)) (splitKernelArgs existing) ++ net_params ip gateway).
Proof.
  unfold composeNetworkKernelArgs. destruct (List.filter _ _) as [|a l].
  - apply netArgs_join.
  - rewrite join_app by done. by rewrite netArgs_join.
Qed.

Lemma no_blank_bare_app s t : bare s = true → no_blank false t = true → no_blank false (s +:+ t) = true.
Proof. intros [Hs Hq]%bare_no_blank Ht. by rewrite no_blank_app, Hs, Hq, Ht. Qed.

Lemma quoted_bare_app s t : bare s = true → quoted_after false (s +:+ t) = quoted_after false t.
Proof. intros [Hs Hq]%bare_no_blank. by rewrite quoted_after_app, Hq. Qed.

Lemma net_params_ok ip gateway : bare ip = true → bare gateway = true →
  Forall parameter (net_params ip gateway) ∧ Forall balanced (net_params ip gateway).
Proof.
  intros Hi Hg. unfold net_params. repeat rewrite Forall_cons. repeat split; try done; unfold balanced.
  - apply (no_blank_bare_app "ip="); [done|]. apply no_blank_bare_app; [done|].
    apply (no_blank_bare_app "::"); [done|]. by apply no_blank_bare_app.
  - rewrite (quoted_bare_app "ip=") by done. rewrite quoted_bare_app by done.
    rewrite (quoted_bare_app "::") by done. by rewrite quoted_bare_app.
Qed.

Lemma Forall_filter_sub {A} (P : A → Prop) f l : Forall P l → Forall P (List.filter f l).
Proof. induction 1 as [|a l Ha _ IH]; simpl; [done|]. destruct (f a); auto. Qed.

Lemma split_compose existing ip gateway :
  balanced existing → bare ip = true → bare gateway = true →
  splitKernelArgs (composeNetworkKernelArgs existing ip gateway) =
    List.filter (λ tok, negb (managed tok)) (splitKernelArgs existing) ++ net_params ip gateway.
Proof.
  intros He Hi Hg. rewrite compose_join. destruct (split_sound existing) as [Hp Hb].
  destruct (net_params_ok ip gateway Hi Hg). apply split_join; apply Forall_app; split; auto using Forall_filter_sub.
Qed.

Lemma managed_ip s : managed ("ip=" +:+ s) = true.
Proof. reflexivity. Qed.

Lemma filter_unmanaged_idem l ip gateway :
  List.filter (λ tok, negb (managed tok)) (List.filter (λ tok, negb (managed tok)) l ++ net_params ip gateway) =
  List.filter (λ tok, negb (managed tok)) l.
Proof.
  rewrite List.filter_app. unfold net_params.
  change (List.filter _ ["ip=" +:+ _; "net.ifnames=0"; "biosdevname=0"]) with (@nil string). rewrite app_nil_r.
  induction l as [|a l IH]; simpl; [done|]. destruct (managed a) eqn:E; simpl; [done|]. by rewrite E, IH.
Qed.

(** For a command line with matched quotes, merging the network parameters
    keeps every other parameter verbatim and in order, quoted values with blanks
    included, drops every caller-supplied occurrence of a managed key, and adds
    exactly one [ip=], [net.ifnames=] and [biosdevname=], so a later occurrence
    cannot override them; doing it again for another address replaces the
    parameters instead of piling them up. *)
Theorem composeNetworkKernelArgs_spec (existing ip gateway ip' gateway' : string)
    (Hquotes : balanced existing) (Hip : bare ip = true) (Hgw : bare gateway = true) :
  splitKernelArgs (composeNetworkKernelArgs existing ip gateway) =
    List.filter (λ tok, negb (managed tok)) (splitKernelArgs existing) ++ net_params ip gateway ∧
  List.filter managed (splitKernelArgs (composeNetworkKernelArgs existing ip gateway)) = net_params ip gateway ∧
  composeNetworkKernelArgs (composeNetworkKernelArgs existing ip gateway) ip' gateway' =
    composeNetworkKernelArgs existing ip' gateway'.
Proof.
  pose proof (split_compose existing ip gateway Hquotes Hip Hgw) as Hs.
  split; [done|]. split.
  - rewrite Hs, List.filter_app. replace (List.filter managed (List.filter _ _)) with (@nil string); [reflexivity|].
    clear. induction (splitKernelArgs existing) as [|a l IH]; simpl; [done|].
    destruct (managed a) eqn:E; simpl; [done|]. by rewrite E.
  - rewrite (compose_join (composeNetworkKernelArgs existing ip gateway)), Hs, filter_unmanaged_idem.
    by rewrite <- compose_join.
Qed.

(** The splitter's parameters are never empty and have no blank outside
    quotes, and joining parameters with matched quotes by single spaces and
    splitting again gives them back. *)
Theorem splitKernelArgs_roundtrip (s : string) :
  Forall parameter (splitKernelArgs s) ∧
  (balanced s → splitKernelArgs (join " " (splitKernelArgs s)) = splitKernelArgs s) ∧
  ∀ toks, Forall parameter toks → Forall balanced toks → splitKernelArgs (join " " toks) = toks.
Proof.
  destruct (split_sound s) as [Hp Hb].
  split; [done|]. split; [intros H; apply split_join; auto|]. intros. by apply split_join.
Qed.

(** With an unmatched quote the merged network parameters end up inside
    the quoted value: read back, the command line has no [ip] parameter. *)
Theorem compose_unmatched_quote_swallows_network :
  let args := composeNetworkKernelArgs ("console=ttyS0 x=" +:+ String quote "abc") "172.16.0.2" "172.16.0.1" in
  List.filter managed (splitKernelArgs args) = [] ∧ length (splitKernelArgs args) = 2.
Proof. split; vm_compute; reflexivity. Qed.

Lemma composeNetworkKernelArgs_spec_witness :
  splitKernelArgs (composeNetworkKernelArgs "console=ttyS0 ip=dhcp root=/dev/vda rw" "172.16.0.2" "172.16.0.1") =
  ["console=ttyS0"; "root=/dev/vda"; "rw"; "ip=172.16.0.2::172.16.0.1:255.255.255.0::eth0:off"; "net.ifnames=0"; "biosdevname=0"].
Proof.
  exact (proj1 (composeNetworkKernelArgs_spec "console=ttyS0 ip=dhcp root=/dev/vda rw" "172.16.0.2" "172.16.0.1" "" ""
    ltac:(reflexivity) ltac:(reflexivity) ltac:(reflexivity))).
Defined.
