(* ===== verification/VmConfig.v ===== *)
(** The configuration of a new VM (src/internal/api/vm_handlers.go): defaults
    and overrides, preparation of the port forwards, resource limits, and the
    identity inputs that SPIRE needs. *)

From stdpp Require Import gmap.
From S2P Require Import Prelude GoStrings Types PortForward MountSecret.

(** ** Defaults and overrides *)

Definition DefaultKernelArgs : string := "console=ttyS0 root=/dev/vda rw".

(** [if p != nil { x = *p }] *)
Definition override {A} (x : A) (p : option A) : A := default x p.

(* @src internal/api/vm_handlers.go:186-202 buildVMConfig *)
Definition apply_network (n : NetworkConfig) (q : NetworkConfigRequest) : NetworkConfig :=
  mkNet (override (n_mode n) (nq_mode q)) (n_tap n) (override (n_mac n) (nq_mac q))
    (match nq_bridge q with Some b => Some b | None => n_bridge n end)
    (n_ip n) (n_gateway n) (n_netmask n)
    (override (n_forwards n) (nq_forwards q))
    (match nq_egress q with Some p => Some p | None => n_egress n end).

(* @func internal/api/vm_handlers.go buildVMConfig *)
Definition buildVMConfig (image : Image) (req : CreateVMRequest) : VMConfig :=
  let config := mkConfig 2 512 DefaultKernelArgs ""
    (mkNet "nat" "" "" None "" "" "" [] None)
    (if negb (String.eqb (img_rootfs image) "")
     then [mkDisk "rootfs" (img_rootfs image) false true] else []) [] [] in
  match cr_config req with
  | None => config
  | Some q =>
      mkConfig (override (c_vcpus config) (q_vcpus q)) (override (c_memory config) (q_memory q))
        (match q_kernel_args q with
         | Some a => if negb (String.eqb (trim_space a) "") then a else c_kernel_args config
         | None => c_kernel_args config
         end)
        (override (c_ssh_key config) (q_ssh_key q))
        (match q_network q with Some n => apply_network (c_network config) n | None => c_network config end)
        (c_disks config)
        (override (c_mounts config) (q_mounts q)) (override (c_secrets config) (q_secrets q))
  end.

(** ** Port forwards *)

(** What the kernel answers to the listen calls that ask for a free port, one
    answer per call: the address of the listener, or an error. *)
Definition listen_answers : Type := list (result (option (string * Z))).

(** The text of the address and back ([SplitHostPort], [Atoi]) is the
    standard library's round trip. *)
(* @func internal/api/vm_handlers.go portFromAddr *)
Definition portFromAddr (addr : option (string * Z)) : result Z :=
  match addr with
  | None => Err (Errorf "listener address is nil" [])
  | Some (_, port) => Ok port
  end.

Definition no_answer : error := ErrorsNew "listen: no answer".

(** [net.Listen] and [net.ListenPacket] on port 0 of the loopback address. *)
Definition listen : State listen_answers (result (option (string * Z))) :=
  λ answers, match answers with [] => (Err no_answer, []) | a :: rest => (a, rest) end.

(* @func internal/api/vm_handlers.go availableDaemonHostPort *)
Definition availableDaemonHostPort (protocol : string) : State listen_answers (result Z) :=
  if String.eqb protocol "tcp" then
    let* l := listen in
    match l with Err err => ret (Err err) | Ok addr => ret (portFromAddr addr) end
  else if String.eqb protocol "udp" then
    let* l := listen in
    match l with Err err => ret (Err err) | Ok addr => ret (portFromAddr addr) end
  else ret (Err (Errorf "unsupported protocol %q" [AStr protocol])).

(* @type internal/api/vm_handlers.go hostPortAllocationError *)
Definition hostPortAllocationError (protocol : string) (cause : error) : error :=
  ErrStruct "hostPortAllocationError" [AStr protocol; AWrap cause].

(* @src internal/api/vm_handlers.go:222-225 prepareVMPortForwards *)
Definition clean_protocol (p : string) : string :=
  let p := to_lower (trim_space p) in if String.eqb p "" then "tcp" else p.

(* @src internal/api/vm_handlers.go:237-237 prepareVMPortForwards *)
Definition forward_key (pf : PortForward) : string := Protocol pf +:+ "/" +:+ fmt_d (HostPort pf).

(** The body of the loop for one forward. *)
(* @src internal/api/vm_handlers.go:220-242 prepareVMPortForwards *)
Definition forward_step (seen : gset string) (pf : PortForward) : State listen_answers (result PortForward) :=
  let protocol := clean_protocol (Protocol pf) in
  let* port :=
    if (HostPort pf =? 0)%Z then
      let* p := availableDaemonHostPort protocol in
      match p with
      | Err err => ret (Err (hostPortAllocationError protocol err))
      | Ok port => ret (Ok port)
      end
    else ret (Ok (HostPort pf)) in
  match port with
  | Err err => ret (Err err)
  | Ok port =>
      let pf := mkPF port (VMPort pf) protocol in
      match ValidatePortForward pf with
      | Some err => ret (Err err)
      | None =>
          if bool_decide (forward_key pf ∈ seen) then
            ret (Err (Errorf "duplicate host port %d/%s" [AInt (HostPort pf); AStr (Protocol pf)]))
          else ret (Ok pf)
      end
  end.

Fixpoint forwards_loop (seen : gset string) (pfs : list PortForward) :
    State listen_answers (result (list PortForward)) :=
  match pfs with
  | [] => ret (Ok [])
  | pf :: pfs' =>
      let* r := forward_step seen pf in
      match r with
      | Err err => ret (Err err)
      | Ok pf' =>
          let* rest := forwards_loop ({[forward_key pf']} ∪ seen) pfs' in
          match rest with
          | Err err => ret (Err err)
          | Ok out => ret (Ok (pf' :: out))
          end
      end
  end.

(** The caller drops the configuration when an error is returned. *)
(* @func internal/api/vm_handlers.go prepareVMPortForwards *)
Definition prepareVMPortForwards (config : VMConfig) : State listen_answers (result VMConfig) :=
  match n_forwards (c_network config) with
  | [] => ret (Ok config)
  | pfs =>
      let* r := forwards_loop ∅ pfs in
      match r with
      | Err err => ret (Err err)
      | Ok out => ret (Ok (set_network config (set_forwards (c_network config) out)))
      end
  end.

(** ** Limits *)

(* @src internal/config/config.go:134-140 LimitsConfig *)
Record LimitsConfig : Type := mkLimits {
  MaxVMs : Z; MaxVCPUsPerVM : Z; MaxMemoryPerVMMiB : Z }.

(** [allVMs] is the answer of [db.ListVMs]. *)
(* @func internal/api/vm_handlers.go validateVMResourceLimits *)
Definition validateVMResourceLimits (limits : LimitsConfig) (config : VMConfig) (allVMs : result (list VM)) :
    option error :=
  if (MaxVCPUsPerVM limits <? c_vcpus config)%Z then
    Some (Errorf "vCPUs exceed limit: %d > %d" [AInt (c_vcpus config); AInt (MaxVCPUsPerVM limits)])
  else if (MaxMemoryPerVMMiB limits <? c_memory config)%Z then
    Some (Errorf "memory exceeds limit: %d > %d" [AInt (c_memory config); AInt (MaxMemoryPerVMMiB limits)])
  else
    match allVMs with
    | Err err => Some (Errorf "failed to check VM count: %w" [AWrap err])
    | Ok vms =>
        if (MaxVMs limits <=? Z.of_nat (length vms))%Z then
          Some (Errorf "maximum VM count exceeded: %d >= %d" [AInt (Z.of_nat (length vms)); AInt (MaxVMs limits)])
        else None
    end.

(** ** Identity inputs *)

(* @func internal/api/vm_handlers.go spireIdentityInputsMissing *)
Definition spireIdentityInputsMissing (req : CreateVMRequest) : bool :=
  if String.eqb (cr_owner req) "" || String.eqb (cr_group req) "" then true
  else match cr_auto_spiffe req with Some b => negb b | None => false end.

(** The gate of [registerSPIREWorkload]. *)
(* @src internal/api/vm_handlers.go:731-734 registerSPIREWorkload *)
Definition shouldRegister (req : CreateVMRequest) : bool :=
  let should := negb (String.eqb (cr_owner req) "") && negb (String.eqb (cr_group req) "") in
  match cr_auto_spiffe req with Some b => b && should | None => should end.

(** * Lemmas *)

Lemma forward_key_inj p1 p2 :
  Protocol p1 ∈ ["tcp"; "udp"] → Protocol p2 ∈ ["tcp"; "udp"] →
  forward_key p1 = forward_key p2 → Protocol p1 = Protocol p2 ∧ HostPort p1 = HostPort p2.
Proof.
  unfold forward_key, fmt_d. intros H1 H2 H.
  assert (∀ p, p ∈ ["tcp"; "udp"] → p = "tcp" ∨ p = "udp") as Hp.
  { intros p Hp. rewrite !elem_of_cons in Hp. set_solver. }
  apply Hp in H1 as [E1|E1], H2 as [E2|E2]; rewrite E1, E2 in *; try discriminate H;
    (split; [done|]); by simplify_eq.
Qed.

Lemma ValidatePortForward_ok pf :
  ValidatePortForward pf = None ↔
  (1 ≤ HostPort pf ≤ 65535)%Z ∧ (1 ≤ VMPort pf ≤ 65535)%Z ∧ Protocol pf ∈ ["tcp"; "udp"].
Proof.
  unfold ValidatePortForward. rewrite !elem_of_cons.
  destruct (String.eqb_spec (Protocol pf) "tcp"), (String.eqb_spec (Protocol pf) "udp"); simpl;
    repeat case_match; rewrite ?orb_true_iff, ?orb_false_iff in *; set_solver by lia.
Qed.

(** What preparation does to one forward: the guest port stays, the protocol is
    normalised, an explicit host port stays. *)
Definition prepared (pf pf' : PortForward) : Prop :=
  VMPort pf' = VMPort pf ∧ Protocol pf' = clean_protocol (Protocol pf) ∧
  (HostPort pf ≠ 0%Z → HostPort pf' = HostPort pf).

Definition clean_forward (pf : PortForward) : PortForward :=
  mkPF (HostPort pf) (VMPort pf) (clean_protocol (Protocol pf)).

Definition endpoint (pf : PortForward) : string * Z := (Protocol pf, HostPort pf).

Lemma forward_step_ok seen pf ans pf' ans' :
  forward_step seen pf ans = (Ok pf', ans') →
  prepared pf pf' ∧ ValidatePortForward pf' = None ∧ forward_key pf' ∉ seen.
Proof.
  unfold forward_step, bind, ret.
  destruct (HostPort pf =? 0)%Z eqn:Ez.
  - destruct (availableDaemonHostPort _ ans) as [[port|err] ans1]; [|done].
    repeat case_match; intros [= <- <-]; simplify_eq. case_bool_decide; [done|].
    apply Z.eqb_eq in Ez. by repeat split.
  - repeat case_match; intros [= <- <-]; simplify_eq. case_bool_decide; [done|]. by repeat split.
Qed.

Lemma forwards_loop_ok seen pfs ans out ans' :
  forwards_loop seen pfs ans = (Ok out, ans') →
  Forall2 prepared pfs out ∧ Forall (λ p, ValidatePortForward p = None) out ∧
  NoDup (forward_key <$> out) ∧ (∀ p, p ∈ out → forward_key p ∉ seen).
Proof.
  revert seen ans out ans'. induction pfs as [|pf pfs IH]; intros seen ans out ans'; simpl.
  { intros [= <- <-]. repeat split; auto using NoDup_nil_2. by intros p ?%elem_of_nil. }
  unfold bind, ret. destruct (forward_step seen pf ans) as [[pf'|err] ans1] eqn:Es; [|done].
  destruct (forwards_loop _ pfs ans1) as [[rest|err] ans2] eqn:El; [|done]. intros [= <- <-].
  apply forward_step_ok in Es as (Hp & Hv & Hs). apply IH in El as (H2 & Hvs & Hnd & Hseen).
  split; [by constructor|]. split; [by constructor|]. split.
  - simpl. apply NoDup_cons. split; [|done].
    intros (q & Hq & Hin)%list_elem_of_fmap. apply (Hseen q Hin). set_solver.
  - intros p [->|Hin]%elem_of_cons; [done|]. specialize (Hseen p Hin). set_solver.
Qed.

Lemma forwards_loop_complete seen pfs ans :
  Forall (λ pf, HostPort pf ≠ 0%Z ∧ ValidatePortForward (clean_forward pf) = None) pfs →
  NoDup (forward_key <$> (clean_forward <$> pfs)) →
  (∀ p, p ∈ (clean_forward <$> pfs) → forward_key p ∉ seen) →
  forwards_loop seen pfs ans = (Ok (clean_forward <$> pfs), ans).
Proof.
  intros Hv. revert seen. induction Hv as [|pf pfs [Hz Hv] _ IH]; intros seen Hnd Hs; [done|].
  simpl in Hnd. apply NoDup_cons in Hnd as [Hk Hnd]. simpl. unfold bind, ret at 1.
  assert (forward_step seen pf ans = (Ok (clean_forward pf), ans)) as ->.
  { unfold forward_step, bind. apply Z.eqb_neq in Hz. rewrite Hz. unfold ret.
    change (mkPF (HostPort pf) (VMPort pf) (clean_protocol (Protocol pf))) with (clean_forward pf).
    rewrite Hv. rewrite bool_decide_false; [done|]. apply Hs. by left. }
  rewrite IH; [done|done|]. intros p Hp.
  assert (forward_key p ∉ seen) by (apply Hs; by right).
  assert (forward_key p ≠ forward_key (clean_forward pf)); [|set_solver].
  intros Heq. apply Hk. rewrite <- Heq. by apply list_elem_of_fmap_2.
Qed.

Lemma fmap_key_iff {A B C} (f : A → B) (g : A → C) l :
  (∀ x y, x ∈ l → y ∈ l → f x = f y ↔ g x = g y) → NoDup (f <$> l) → NoDup (g <$> l).
Proof.
  induction l as [|a l IH]; intros H Hnd; [apply NoDup_nil_2|]. simpl in *.
  apply NoDup_cons in Hnd as [Ha Hnd]. apply NoDup_cons. split.
  - intros (b & Hb & Hin)%list_elem_of_fmap. apply Ha, list_elem_of_fmap. exists b. split; [|done].
    apply H; [by left|by right|done].
  - apply IH; [|done]. intros x y Hx Hy. apply H; by right.
Qed.

Lemma key_endpoint x y :
  ValidatePortForward x = None → ValidatePortForward y = None →
  forward_key x = forward_key y ↔ endpoint x = endpoint y.
Proof.
  rewrite !ValidatePortForward_ok. intros (_ & _ & Hx) (_ & _ & Hy). split.
  - intros H. apply forward_key_inj in H as [H1 H2]; [|done|done]. unfold endpoint. by rewrite H1, H2.
  - unfold endpoint, forward_key. by intros [= -> ->].
Qed.

Lemma NoDup_endpoint l :
  Forall (λ p, ValidatePortForward p = None) l → NoDup (forward_key <$> l) ↔ NoDup (endpoint <$> l).
Proof.
  intros Hv. rewrite Forall_forall in Hv. split; apply fmap_key_iff; intros x y Hx Hy.
  - apply key_endpoint; auto.
  - symmetry. apply key_endpoint; auto.
Qed.

(** Preparation changes the list of forwards only. *)
Lemma prepare_forwards_only config answers config' :
  fst (prepareVMPortForwards config answers) = Ok config' →
  ∃ out, config' = set_network config (set_forwards (c_network config) out).
Proof.
  unfold prepareVMPortForwards. destruct (n_forwards (c_network config)) as [|pf pfs] eqn:E.
  - intros [= <-]. exists []. rewrite <- E. destruct config as [???? net ???]. by destruct net.
  - unfold bind. destruct (forwards_loop _ _ _) as [[out|err] a]; [|done].
    intros [= <-]. by exists out.
Qed.

Lemma buildVMConfig_no_ip image req : n_ip (c_network (buildVMConfig image req)) = "".
Proof. unfold buildVMConfig. destruct (cr_config req) as [q|]; [|done]. by destruct (q_network q). Qed.

(** Preparing the port forwards of a new VM either rejects the
    configuration or returns it with every forward valid and normalised, guest
    ports and explicit host ports as requested, and no two forwards on the same
    protocol and host port; nothing else of the configuration changes.  A list
    with explicit, valid, distinct host ports is never rejected. *)
Theorem prepareVMPortForwards_spec (config : VMConfig) (answers : listen_answers) :
  (∀ config' answers', prepareVMPortForwards config answers = (Ok config', answers') →
     ∃ out, config' = set_network config (set_forwards (c_network config) out) ∧
       Forall2 prepared (n_forwards (c_network config)) out ∧
       Forall (λ p, ValidatePortForward p = None) out ∧
       NoDup (endpoint <$> out)) ∧
  (Forall (λ pf, HostPort pf ≠ 0%Z ∧ ValidatePortForward (clean_forward pf) = None) (n_forwards (c_network config)) →
   NoDup (endpoint <$> (clean_forward <$> n_forwards (c_network config))) →
   ∃ config', prepareVMPortForwards config answers = (Ok config', answers)).
Proof.
  unfold prepareVMPortForwards. destruct config as [cpu mem ka ssh net ds ms ss]. destruct net; cbn [c_network Types.n_forwards].
  destruct n_forwards as [|pf pfs]; unfold ret, bind.
  - split; [intros config' answers' [= <- <-]; exists []; repeat split; auto using NoDup_nil_2|by eexists].
  - split.
    + intros config' answers'. destruct (forwards_loop ∅ (pf :: pfs) answers) as [[out|err] a] eqn:El; [|done].
      intros [= <- <-]. exists out. apply forwards_loop_ok in El as (H2 & Hv & Hnd & _).
      repeat split; [done|done|]. by apply NoDup_endpoint.
    + intros Hv Hnd. rewrite forwards_loop_complete; [by eexists|done| |set_solver].
      apply NoDup_endpoint; [|done]. apply Forall_fmap. eapply Forall_impl; [exact Hv|]. by intros ? [_ ?].
Qed.

(** Whatever the request says, the configuration of a new VM has a
    non-blank kernel command line, its only disk is the image's root file
    system, and its TAP device, address, gateway and netmask are left for the
    network set-up: the request cannot name host devices or files.  Each other
    field is the request's when present and the default otherwise. *)
Theorem buildVMConfig_safe (image : Image) (req : CreateVMRequest) :
  let c := buildVMConfig image req in
  let q := cr_config req in
  trim_space (c_kernel_args c) ≠ "" ∧
  c_disks c = (if String.eqb (img_rootfs image) "" then [] else [mkDisk "rootfs" (img_rootfs image) false true]) ∧
  n_tap (c_network c) = "" ∧ n_ip (c_network c) = "" ∧
  n_gateway (c_network c) = "" ∧ n_netmask (c_network c) = "" ∧
  c_vcpus c = default 2%Z (q ≫= q_vcpus) ∧ c_memory c = default 512%Z (q ≫= q_memory) ∧
  n_mode (c_network c) = default "nat" (n ← q ≫= q_network; nq_mode n) ∧
  n_forwards (c_network c) = default [] (n ← q ≫= q_network; nq_forwards n) ∧
  n_egress (c_network c) = (n ← q ≫= q_network; nq_egress n) ∧
  c_mounts c = default [] (q ≫= q_mounts) ∧ c_secrets c = default [] (q ≫= q_secrets).
Proof.
  unfold buildVMConfig, override. destruct (cr_config req) as [q|]; simpl; split.
  - destruct (q_kernel_args q) as [a|]; [|vm_compute; discriminate].
    destruct (String.eqb_spec (trim_space a) ""); [vm_compute; discriminate|done].
  - destruct (img_rootfs image =? "")%string, (q_network q) as [n|]; simpl;
      try destruct (nq_egress n); by repeat split.
  - vm_compute; discriminate.
  - by destruct (img_rootfs image =? "")%string; repeat split.
Qed.
