(* ===== verification/Server.v ===== *)
(** The server a request handler runs in (src/internal/api/server.go): the
    state it keeps, the interfaces it calls, responses, and the per-VM lock.

    The state [World] holds the database, the IP address manager, the commands
    run on the host and a log of the other calls made.  What the outside
    answers (clock, driver, runtime, file system, identity service, random
    bytes) comes from [Env]: functions of a counter that every call advances,
    so that a theorem quantified over [Env] covers every sequence of answers. *)

From S2P Require Import Prelude GoStrings Json Types HostNet Ipam Storage VmConfig.

(** * Configuration *)

(* @src internal/api/server.go:178-186 selectedRuntimeDriver *)
Record Config : Type := mkCfg {
  cfg_driver : string; cfg_darwin : bool;
  cfg_data_dir : string; cfg_network_setup : bool; cfg_limits : LimitsConfig;
  cfg_spire_enabled : bool; cfg_spire_required : bool }.

(* @func internal/api/server.go selectedRuntimeDriver *)
Definition selectedRuntimeDriver (cfg : Config) : string :=
  if String.eqb (cfg_driver cfg) "auto" || String.eqb (cfg_driver cfg) "" then
    if cfg_darwin cfg then "apple_container" else "firecracker"
  else cfg_driver cfg.

Definition firecracker (cfg : Config) : bool := String.eqb (selectedRuntimeDriver cfg) "firecracker".

(** * Interfaces *)

(** The methods of the runtime that take a VM. *)
(* @src internal/vmm/manager.go:14-37 Manager *)
Inductive rt_op : Type :=
  | RtStart (image : Image)
  | RtStop (timeoutSeconds : Z)
  | RtKill
  | RtDelete
  | RtPause
  | RtResume
  | RtCreateSnapshot (snapshotPath memPath : string)
  | RtLoadSnapshot (snapshotPath memPath : string)
  | RtGetConsoleLogs (tailLines : Z)
  | RtCleanupNetwork
  | RtExec (command : list string).

Definition ErrUnsupportedOperation : string := "unsupported runtime operation".

(** What [Start] and [LoadSnapshot] leave in the VM they are given: the runtime
    handle, the TAP device and the MAC address. *)
Record launch : Type := mkLaunch { la_runtime : option VMRuntime; la_tap : string; la_mac : string }.

(** The calls on the file system. *)
Inductive fs_op : Type :=
  | FsRemoveAll (path : string)
  | FsMkdirAll (path : string)
  | FsStat (path : string)
  | FsLstat (path : string)
  | FsEvalSymlinks (path : string)
  | FsOpen (path : string)
  | FsCreateTemp (dir : string)
  | FsCopy (src dst : string)
  | FsChmod (path : string)
  | FsSync (path : string)
  | FsClose (path : string)
  | FsRename (src dst : string)
  | FsRemove (path : string)
  | FsGetwd.

(** An answer of the file system: a path ([EvalSymlinks], [CreateTemp],
    [Getwd]), a size and whether the file is a regular one. *)
Record fs_info : Type := mkInfo { fi_path : string; fi_size : Z; fi_regular : bool }.


(** The SPIRE registrar. *)
(* @type internal/api/server.go spireRegistrar *)
Record spireRegistrar : Type := mkSpire {
  IsEnabled : bool;
  ValidateIdentityParams : string → string → option error;
  CreateVMWorkloadEntry : nat → string → string → string → result string;
  DeleteVMWorkloadEntry : nat → string → option error }.

(* @type internal/types/vm.go VMExecResult *)
Record VMExecResult : Type := mkExec {
  x_command : list string; x_exit : Z; x_stdout : string; x_stderr : string; x_runtime_id : string }.

Class Env : Type := {
  env_cfg : Config;
  env_host :: Host;
  env_db : nat → option error;            (* fault of a statement *)
  env_rows : nat → option error;          (* fault of RowsAffected *)
  env_query : nat → query_outcome;        (* outcome of a query over rows *)
  env_fk : nat → bool;                    (* foreign keys enforced *)
  env_now : nat → Z;
  env_uuid : nat → string;
  env_listen : nat → listen_answers;
  env_random : nat → result (Z * Z * Z);
  env_fs : nat → fs_op → result fs_info;
  env_rt : nat → rt_op → VM → option error;
  env_launch : nat → VM → launch;
  env_image_provider : option (nat → string → result (option Image));
  env_exec : option (nat → VM → list string → option VMExecResult * option error);
  env_logs : nat → VM → string;
  env_spire : option spireRegistrar;
  env_zone : Z → Z;                       (* offset of the local time zone, in seconds *)
  env_tiering : bool }.                   (* a snapshot store is configured *)

(** * State *)

Inductive event : Type :=
  | EvRuntime (op : rt_op) (vmID : string) (r : option error)
  | EvFs (op : fs_op) (r : option error)
  | EvSpireCreate (vmID : string) (r : result string)
  | EvSpireDelete (spiffeID : string) (r : option error)
  (* a background upload: the id in the store, and name, role and path of each file *)
  | EvTier (storeID : string) (files : list (string * string * string)).

(* @type internal/api/server.go Server *)
Record World : Type := mkWorld {
  w_db : DB; w_ipam : IPAM; w_cmds : list cmd_event; w_log : list event; w_tick : nat }.

Definition M (A : Type) : Type := State World A.

Definition result_error {A} (r : result A) : option error := match r with Ok _ => None | Err e => Some e end.

Section Primitives.
Context `{Env}.

(** One statement of the database. *)
Definition db_exec {A} (f : option error → State DB A) : M A :=
  λ w, let '(a, db) := f (env_db (w_tick w)) (w_db w) in
       (a, mkWorld db (w_ipam w) (w_cmds w) (w_log w) (S (w_tick w))).

(** One query. *)
Definition db_query {A} (f : option error → DB → A) : M A :=
  λ w, (f (env_db (w_tick w)) (w_db w),
        mkWorld (w_db w) (w_ipam w) (w_cmds w) (w_log w) (S (w_tick w))).

Definition db_rows {A} (f : query_outcome → DB → A) : M A :=
  λ w, (f (env_query (w_tick w)) (w_db w),
        mkWorld (w_db w) (w_ipam w) (w_cmds w) (w_log w) (S (w_tick w))).

(** An answer of the outside that changes no state. *)
Definition ask {A} (f : nat → A) : M A :=
  λ w, (f (w_tick w), mkWorld (w_db w) (w_ipam w) (w_cmds w) (w_log w) (S (w_tick w))).

Definition now : M Z := ask env_now.

Definition ipam_do {A} (m : State IPAM A) : M A :=
  λ w, let '(a, i) := m (w_ipam w) in (a, mkWorld (w_db w) i (w_cmds w) (w_log w) (w_tick w)).

Definition host_do {A} (m : State (list cmd_event) A) : M A :=
  λ w, let '(a, tr) := m (w_cmds w) in (a, mkWorld (w_db w) (w_ipam w) tr (w_log w) (w_tick w)).

Definition record (ev : event) : M unit :=
  λ w, (tt, mkWorld (w_db w) (w_ipam w) (w_cmds w) (w_log w ++ [ev]) (S (w_tick w))).

Definition fs (op : fs_op) : M (result fs_info) :=
  λ w, let r := env_fs (w_tick w) op in
       (r, snd (record (EvFs op (result_error r)) w)).

(** [fs] for the callers that only look at the error. *)
Definition fs_do (op : fs_op) : M (option error) := let* r := fs op in ret (result_error r).

Definition runtime (op : rt_op) (vm : VM) : M (option error) :=
  λ w, let r := env_rt (w_tick w) op vm in (r, snd (record (EvRuntime op (vm_id vm) r) w)).

(** [Start] and [LoadSnapshot] also write to the VM they are given, possibly
    before they fail. *)
Definition runtime_launch (op : rt_op) (vm : VM) : M (option error * VM) :=
  λ w, let r := env_rt (w_tick w) op vm in
       let la := env_launch (w_tick w) vm in
       let n := c_network (vm_config vm) in
       let vm' := mkVM (vm_id vm) (vm_name vm) (vm_state vm) (vm_image vm) (vm_digest vm) (vm_arch vm)
         (set_network (vm_config vm) (mkNet (n_mode n) (la_tap la) (la_mac la) (n_bridge n) (n_ip n)
            (n_gateway n) (n_netmask n) (n_forwards n) (n_egress n)))
         (la_runtime la) (vm_created vm) (vm_updated vm) (vm_locked_by vm) (vm_locked_at vm)
         (vm_owner vm) (vm_group vm) (vm_spiffe vm) in
       ((r, vm'),
        snd (record (EvRuntime op (vm_id vm) r) w)).

(** The database operations of the handlers. *)

Definition get_vm (idOrName : string) : M (result (option VM)) := db_query (λ f, GetVM f idOrName).

(** [vm.UpdatedAt] is stamped by the call. *)
Definition update_vm (vm : VM) : M (option error * VM) :=
  let* t := now in db_exec (λ f, UpdateVM f t vm).

Definition acquire_lock (vmID operation : string) : M (option error) :=
  let* now1 := now in
  let* now2 := now in
  let* rows := ask env_rows in
  db_exec (λ f, AcquireLock f rows now1 now2 vmID operation).

Definition release_lock (vmID : string) : M (option error) := db_exec (λ f, ReleaseLock f vmID).

Definition when (b : bool) (m : M unit) : M unit := if b then m else ret tt.

(** * Responses *)

(* @src internal/types/errors.go:9-31 ErrorCode *)
Inductive ErrorCode : Type :=
  | ErrInvalidRequest | ErrUnauthorized | ErrInvalidConfig | ErrRegistryAuthFailed | ErrVMNotFound | ErrImageNotFound
  | ErrSnapshotNotFound | ErrRecordingNotFound | ErrInvalidStateTransition | ErrVMLocked | ErrResourceInUse
  | ErrValidationError | ErrResourceLimitExceeded | ErrSnapshotIncompatible | ErrInternalError
  | ErrServiceUnavailable | ErrUnsupportedOperation' | ErrInsufficientStorage | ErrNotFound.

Inductive body : Type :=
  | BNone
  | BVM (vm : VM)
  | BVMs (vms : list (VM * option Z))
  | BSnapshot (s : Snapshot)
  | BSnapshots (l : list Snapshot)
  | BText (s : string)
  | BExec (r : option VMExecResult)
  | BImage (i : Image)
  | BImages (l : list Image)
  | BJob (j : ImagePullJob)
  | BJson (j : json)
  | BError (code : ErrorCode) (msg : message) (details : list (string * arg)).

Record response : Type := mkResp { rs_status : Z; rs_body : body }.

(* @func internal/types/errors.go WriteError *)
Definition WriteError (statusCode : Z) (code : ErrorCode) (msg : message) (details : list (string * arg)) : response :=
  mkResp statusCode (BError code msg details).

(* @func internal/api/handlers.go writeJSON *)
Definition writeJSON (statusCode : Z) (b : body) : response := mkResp statusCode b.

Definition vm_not_found (vmID : string) : response :=
  WriteError 404 ErrVMNotFound (Sprintf "Virtual machine with ID '%s' does not exist" [AStr vmID])
    [("vm_id", AStr vmID)].

Definition internal_error (msg : message) : response := WriteError 500 ErrInternalError msg [].

(** [types.WriteError(w, code, ..., err.Error(), nil)]. *)
Definition error_text (e : error) : message := Sprintf "%v" [AShow e].

(* @func internal/api/runtime_errors.go writeRuntimeUnsupportedError *)
Definition writeRuntimeUnsupportedError (operation : string) (err : error) (details : list (string * arg)) :
    option response :=
  if negb (errors_Is err ErrUnsupportedOperation) then None
  else Some (WriteError 501 ErrUnsupportedOperation' (Sprintf "Runtime does not support %s" [AStr operation])
    (details ++ [("operation", AStr operation); ("runtime_error", AShow err)])).

(** The lock discipline of the handlers: take the lock or answer 409, run the
    body, release the lock when it returns ([defer]). *)
(* @src internal/api/vm_handlers.go:1179-1188 handleVMStartByPath *)
Definition with_lock (vmID operation : string) (k : M response) : M response :=
  let* e := acquire_lock vmID operation in
  match e with
  | Some _ => ret (WriteError 409 ErrVMLocked (Text "VM is locked by another operation") [])
  | None =>
      let* r := k in
      release_lock vmID ;;;
      ret r
  end.

(** The head shared by the handlers of one VM: look it up or answer. *)
(* @src internal/api/vm_handlers.go:1150-1163 handleVMStartByPath *)
Definition with_vm (vmID : string) (k : VM → M response) : M response :=
  let* r := get_vm vmID in
  match r with
  | Err _ => ret (internal_error (Text "Failed to get VM"))
  | Ok None => ret (vm_not_found vmID)
  | Ok (Some vm) => k vm
  end.

(** The path wrappers reject an empty id. *)
(* @src internal/api/vm_handlers.go:1124-1128 handleGetVMByPath *)
Definition by_path (what : string) (id : string) (k : M response) : M response :=
  if String.eqb id "" then ret (WriteError 400 ErrInvalidRequest (Sprintf "%s ID is required" [AStr what]) []) else k.

Definition invalid_transition (format : string) (s : VMState) : response :=
  WriteError 409 ErrInvalidStateTransition (Sprintf format [AStr (state_string s)])
    [("current_state", AStr (state_string s))].
End Primitives.

(** * Reasoning about a part of the world through a handler

    [pwp π m Q x]: started on any world whose part [π] is [x], [m] ends in a
    result and a part that satisfy [Q], whatever the rest of the world is and
    whatever the outside answers.  The parts of interest are the database and
    the address manager. *)

Definition pwp {X A} (π : World → X) (m : M A) (Q : A → X → Prop) (x : X) : Prop :=
  ∀ w, π w = x → Q (fst (m w)) (π (snd (m w))).

(** A computation that leaves the part alone. *)
Definition stable {X A} (π : World → X) (m : M A) : Prop := ∀ w, π (snd (m w)) = π w.

Abbreviation dwp := (pwp w_db).
Abbreviation db_stable := (stable w_db).
Abbreviation iwp := (pwp w_ipam).
Abbreviation ipam_stable := (stable w_ipam).

(** What a part may depend on. *)
Class View {X} (π : World → X) : Prop :=
  view_rest : ∀ w cmds log tick, π (mkWorld (w_db w) (w_ipam w) cmds log tick) = π w.
Class IgnoresIpam {X} (π : World → X) : Prop :=
  view_ipam : ∀ w i, π (mkWorld (w_db w) i (w_cmds w) (w_log w) (w_tick w)) = π w.
Class IgnoresDb {X} (π : World → X) : Prop :=
  view_db : ∀ w db tick, π (mkWorld db (w_ipam w) (w_cmds w) (w_log w) tick) = π w.

#[export] Instance view_w_db : View w_db. Proof. done. Qed.
#[export] Instance view_w_ipam : View w_ipam. Proof. done. Qed.
#[export] Instance ignores_ipam_w_db : IgnoresIpam w_db. Proof. done. Qed.
#[export] Instance ignores_db_w_ipam : IgnoresDb w_ipam. Proof. done. Qed.

Section Rules.
Context {X} (π : World → X).

Lemma pwp_ret {A} (a : A) Q x : Q a x → pwp π (ret a) Q x.
Proof. intros HQ w <-. exact HQ. Qed.

Lemma pwp_bind {A B} (m : M A) (k : A → M B) Q x :
  pwp π m (λ a x', pwp π (k a) Q x') x → pwp π (bind m k) Q x.
Proof.
  intros Hm w Hw. specialize (Hm w Hw). unfold bind. destruct (m w) as [a w'].
  by apply (Hm w').
Qed.

Lemma pwp_stable {A} (m : M A) (Q : A → X → Prop) x : stable π m → (∀ a, Q a x) → pwp π m Q x.
Proof. intros Hs HQ w <-. rewrite Hs. apply HQ. Qed.

Lemma pwp_mono {A} (m : M A) (Q Q' : A → X → Prop) x :
  pwp π m Q x → (∀ a x', Q a x' → Q' a x') → pwp π m Q' x.
Proof. intros Hm HQ w Hw. by apply HQ, Hm. Qed.

Lemma stable_ret {A} (a : A) : stable π (ret a).
Proof. done. Qed.
Lemma stable_bind {A B} (m : M A) (k : A → M B) :
  stable π m → (∀ a, stable π (k a)) → stable π (bind m k).
Proof.
  intros Hm Hk w. unfold bind. specialize (Hm w). destruct (m w) as [a w']. simpl in Hm.
  rewrite Hk. exact Hm.
Qed.
Lemma stable_when b m : stable π m → stable π (when b m).
Proof. intros Hm. destruct b; [done|apply stable_ret]. Qed.
Lemma stable_for_each {A} (l : list A) (f : A → M unit) :
  (∀ a, stable π (f a)) → stable π (for_each l f).
Proof. intros Hf. induction l as [|a l IH]; simpl; [apply stable_ret|]. by apply stable_bind. Qed.
End Rules.

(** Stability of the primitives. *)
Section Stable.
Context `{Env} {X} (π : World → X) `{!View π}.

Lemma stable_ask {A} (f : nat → A) : stable π (ask f).
Proof. intros w. apply view_rest. Qed.
Lemma stable_query {A} (f : option error → DB → A) : stable π (db_query f).
Proof. intros w. apply view_rest. Qed.
Lemma stable_rows {A} (f : query_outcome → DB → A) : stable π (db_rows f).
Proof. intros w. apply view_rest. Qed.
Lemma stable_host {A} (m : State (list cmd_event) A) : stable π (host_do m).
Proof. intros w. unfold host_do. destruct (m _). apply view_rest. Qed.
Lemma stable_record ev : stable π (record ev).
Proof. intros w. apply view_rest. Qed.
Lemma stable_fs op : stable π (fs op).
Proof. intros w. apply view_rest. Qed.
Lemma stable_runtime op vm : stable π (runtime op vm).
Proof. intros w. apply view_rest. Qed.
Lemma stable_launch op vm : stable π (runtime_launch op vm).
Proof. intros w. apply view_rest. Qed.
Lemma pwp_ask {A} (f : nat → A) (Q : A → X → Prop) x : (∀ n, Q (f n) x) → pwp π (ask f) Q x.
Proof. intros HQ w <-. unfold ask; cbn [fst snd]. rewrite view_rest. apply HQ. Qed.
Lemma pwp_rows {A} (f : query_outcome → DB → A) (Q : A → X → Prop) x :
  (∀ n w, π w = x → Q (f (env_query n) (w_db w)) x) → pwp π (db_rows f) Q x.
Proof. intros HQ w Hw. unfold db_rows; cbn [fst snd]. rewrite view_rest, Hw. by apply HQ. Qed.
Lemma stable_ipam {A} (m : State IPAM A) : IgnoresIpam π → stable π (ipam_do m).
Proof. intros Hi w. unfold ipam_do. destruct (m _). apply Hi. Qed.
Lemma stable_exec {A} (f : option error → State DB A) : IgnoresDb π → stable π (db_exec f).
Proof. intros Hi w. unfold db_exec. destruct (f _ _). apply Hi. Qed.
End Stable.

#[export] Hint Resolve stable_ret stable_ask stable_query stable_rows stable_host stable_record
  stable_fs stable_runtime stable_launch stable_ipam stable_exec : go.
#[export] Hint Extern 1 (View _) => apply _ : go.
#[export] Hint Extern 1 (IgnoresIpam _) => apply _ : go.
#[export] Hint Extern 1 (IgnoresDb _) => apply _ : go.

(** Prove [stable] for a body built from the primitives. *)
Ltac solve_stable :=
  repeat first
    [ progress intros
    | solve [auto with go nocore]
    | apply stable_bind
    | apply stable_for_each
    | apply stable_when
    | match goal with
      | |- stable _ (match ?x with _ => _ end) => destruct x
      | |- stable _ (let '(_, _) := ?x in _) => destruct x
      end ].

Section Logic.
Context `{Env}.

(** The rules for statements leave the index of the fault and of the clock
    open: any of the answers of [Env] may come. *)
Lemma dwp_db_exec {A} (f : option error → State DB A) Q db :
  (∀ n, Q (fst (f (env_db n) db)) (snd (f (env_db n) db))) → dwp (db_exec f) Q db.
Proof.
  intros HQ w <-. unfold db_exec. specialize (HQ (w_tick w)).
  destruct (f _ (w_db w)) as [a db']. exact HQ.
Qed.

Lemma dwp_update_vm vm Q db :
  (∀ n t, Q (fst (UpdateVM (env_db n) t vm db)) (snd (UpdateVM (env_db n) t vm db))) → dwp (update_vm vm) Q db.
Proof.
  intros HQ. unfold update_vm, now. apply pwp_bind, pwp_stable; [apply stable_ask; apply _|]. intros t.
  apply dwp_db_exec. intros n. apply HQ.
Qed.

Lemma dwp_release_lock id Q db :
  (∀ n, Q (fst (ReleaseLock (env_db n) id db)) (snd (ReleaseLock (env_db n) id db))) → dwp (release_lock id) Q db.
Proof. intros HQ. by apply dwp_db_exec. Qed.

Lemma dwp_acquire_lock id op Q db :
  (∀ n m p q, Q (fst (AcquireLock (env_db n) (env_rows m) (env_now p) (env_now q) id op db))
               (snd (AcquireLock (env_db n) (env_rows m) (env_now p) (env_now q) id op db))) →
  dwp (acquire_lock id op) Q db.
Proof.
  intros HQ w <-. unfold acquire_lock, now, ask, db_exec, bind. cbn [w_tick w_db].
  match goal with |- context [AcquireLock (env_db ?n) (env_rows ?m) (env_now ?p) (env_now ?q) _ _ _] =>
    specialize (HQ n m p q); destruct (AcquireLock (env_db n) (env_rows m) (env_now p) (env_now q) id op (w_db w)) end.
  exact HQ.
Qed.

Lemma dwp_db_query {A} (f : option error → DB → A) Q db : (∀ n, Q (f (env_db n) db) db) → dwp (db_query f) Q db.
Proof. intros HQ w <-. apply HQ. Qed.

End Logic.

(** * A concrete environment, for examples

    Nothing fails except what [rt], [files] and [host] say; the clock ticks in
    seconds and every id is the given one followed by the count of the call. *)
Definition calm_env (cfg : Config) (host : Host) (rt : rt_op → option error) (files : fs_op → result fs_info)
    (spire : option spireRegistrar) : Env := {|
  env_cfg := cfg; env_host := host;
  env_db _ := None; env_rows _ := None; env_query _ := QueryOk; env_fk _ := true;
  env_now n := (Z.of_nat n * 1000000000)%Z;
  env_uuid n := "0000000" +:+ fmt_d (Z.of_nat n) +:+ "-vm";
  env_listen _ := [Ok (Some ("127.0.0.1", 40000%Z))];
  env_random _ := Ok (1%Z, 2%Z, 3%Z);
  env_fs _ := files; env_rt _ op _ := rt op;
  env_launch _ _ := mkLaunch (Some (mkRt 4242 "firecracker" "" "/run/vm.sock" "/run/vm.log" None)) "tap-x" "AA:FC:00:01:02:03";
  env_image_provider := None; env_exec := None; env_logs _ _ := "";
  env_spire := spire; env_zone _ := 0%Z; env_tiering := false |}.

Definition example_cfg : Config := mkCfg "firecracker" false "/var/lib/nanofuse" true (mkLimits 10 8 16384) false false.

Definition no_files (op : fs_op) : result fs_info :=
  match op with FsStat _ | FsLstat _ => Err (ErrorsNew ErrNotExist) | _ => Ok (mkInfo "/tmp/x" 0 true) end.

Definition example_env : Env := calm_env example_cfg (scripted_host [] "") (λ _, None) no_files None.

Definition example_image : Image := mkImage "sha256:1" ["img:latest"] "x86_64" 100 "6.1" "/img/rootfs.ext4" "/img/vmlinux" 5.

(** A world with one VM in state [s]. *)
Definition example_world (s : VMState) : World :=
  mkWorld (mkDB [vm_row (set_state (example_vm "id1" "web") s)] [] [image_row example_image] [] []) NewIPAM [] [] 0.
