(* ===== verification/VmResources.v ===== *)
(** The host resources of a VM (src/internal/api/vm_handlers.go): its storage
    directory and writable root disk, its address, TAP device, egress policy and
    port forwards; how they are set up and how they are given back. *)

From S2P Require Import Prelude GoStrings Types HostNet Egress PortForward Ipam Storage KernelArgs VmConfig Server.

(** * Storage *)

(* @func internal/api/vm_handlers.go vmStorageDir *)
Definition vmStorageDir (dataDir vmID : string) : string := filepath_join [dataDir; "vms"; vmID].

(* @func internal/api/vm_handlers.go vmRootfsPath *)
Definition vmRootfsPath (dataDir vmID : string) : string := filepath_join [vmStorageDir dataDir vmID; "rootfs.ext4"].

Section Resources.
Context `{Env}.

(** [filepath.Abs]. *)
Definition filepath_Abs (path : string) : M (result string) :=
  if has_prefix "/" path then ret (Ok (path_clean path))
  else
    let* wd := fs FsGetwd in
    match wd with
    | Err err => ret (Err err)
    | Ok wd => ret (Ok (filepath_join [fi_path wd; path]))
    end.

(** Run the steps until one fails; a failure is reported with its message. *)
Fixpoint fs_steps (steps : list (fs_op * list fs_op * string)) : M (option error) :=
  match steps with
  | [] => ret None
  | (op, undo, msg) :: steps' =>
      let* e := fs_do op in
      match e with
      | Some err =>
          for_each undo (λ u, fs_do u ;;; ret tt) ;;;
          ret (Some (Errorf msg [AWrap err]))
      | None => fs_steps steps'
      end
  end.

(* @func internal/api/vm_handlers.go copyFileAtomic *)
Definition copyFileAtomic (src dst : string) : M (option error) :=
  let* e := fs_do (FsOpen src) in
  match e with
  | Some err => ret (Some (Errorf "failed to open source rootfs: %w" [AWrap err]))
  | None =>
      let* e := fs_do (FsMkdirAll (filepath_dir dst)) in
      match e with
      | Some err =>
          fs_do (FsClose src) ;;;
          ret (Some (Errorf "failed to create VM storage directory: %w" [AWrap err]))
      | None =>
          let* tmp := fs (FsCreateTemp (filepath_dir dst)) in
          match tmp with
          | Err err =>
              fs_do (FsClose src) ;;;
              ret (Some (Errorf "failed to create temporary rootfs: %w" [AWrap err]))
          | Ok tmp =>
              let tmpPath := fi_path tmp in
              let* e := fs_steps
                [ (FsCopy src tmpPath, [FsClose tmpPath], "failed to copy rootfs: %w");
                  (FsChmod tmpPath, [FsClose tmpPath], "failed to chmod temporary rootfs: %w");
                  (FsSync tmpPath, [FsClose tmpPath], "failed to sync temporary rootfs: %w");
                  (FsClose tmpPath, [], "failed to close temporary rootfs: %w");
                  (FsRename tmpPath dst, [], "failed to install VM rootfs: %w") ] in
              match e with
              | Some err => fs_do (FsRemove tmpPath) ;;; fs_do (FsClose src) ;;; ret (Some err)
              | None => fs_do (FsClose src) ;;; ret None
              end
          end
      end
  end.

(** One disk of the loop: the new value of the disk, or the error. *)
(* @src internal/api/vm_handlers.go:340-371 materializeWritableRootDisks *)
Definition materialize_disk (dataDir vmID : string) (disk : DiskConfig) : M (result DiskConfig) :=
  if negb (d_root disk) || d_read_only disk then ret (Ok disk)
  else
    let dest := vmRootfsPath dataDir vmID in
    let at_dest := mkDisk (d_id disk) dest (d_read_only disk) (d_root disk) in
    let* srcAbs := filepath_Abs (d_path disk) in
    match srcAbs with
    | Err err => ret (Err (Errorf "failed to resolve source rootfs path: %w" [AWrap err]))
    | Ok srcAbs =>
        let* destAbs := filepath_Abs dest in
        match destAbs with
        | Err err => ret (Err (Errorf "failed to resolve VM rootfs path: %w" [AWrap err]))
        | Ok destAbs =>
            if String.eqb srcAbs destAbs then ret (Ok disk)
            else
              let* e := fs_do (FsStat dest) in
              match e with
              | None => ret (Ok at_dest)
              | Some err =>
                  if negb (os_IsNotExist err) then ret (Err (Errorf "failed to inspect VM rootfs: %w" [AWrap err]))
                  else
                    let* e := copyFileAtomic (d_path disk) dest in
                    match e with
                    | Some err => ret (Err err)
                    | None => ret (Ok at_dest)
                    end
              end
        end
    end.

Fixpoint materialize_disks (dataDir vmID : string) (disks : list DiskConfig) : M (result (list DiskConfig)) :=
  match disks with
  | [] => ret (Ok [])
  | d :: disks' =>
      let* r := materialize_disk dataDir vmID d in
      match r with
      | Err err => ret (Err err)
      | Ok d' =>
          let* rest := materialize_disks dataDir vmID disks' in
          match rest with Err err => ret (Err err) | Ok ds => ret (Ok (d' :: ds)) end
      end
  end.

(* @func internal/api/vm_handlers.go materializeWritableRootDisks *)
Definition materializeWritableRootDisks (dataDir vmID : string) (config : VMConfig) : M (result VMConfig) :=
  let* r := materialize_disks dataDir vmID (c_disks config) in
  match r with
  | Err err => ret (Err err)
  | Ok ds => ret (Ok (set_disks config ds))
  end.

(* @func internal/api/vm_handlers.go cleanupVMStorage *)
Definition cleanupVMStorage (dataDir vmID : string) : M (option error) :=
  let* e := fs_do (FsRemoveAll (vmStorageDir dataDir vmID)) in
  match e with
  | Some err => ret (Some (Errorf "failed to remove VM storage: %w" [AWrap err]))
  | None => ret None
  end.

Definition dataDir : string := cfg_data_dir env_cfg.

(** * Network *)

Definition egress_enabled (n : NetworkConfig) : bool :=
  match n_egress n with Some p => ep_enabled p | None => false end.

(** [vmID[:8]]; VM ids are UUIDs. *)
Definition tap_name (vmID : string) : string := "tap-" +:+ String.substring 0 8 vmID.

(* @src internal/api/vm_handlers.go:24-26 errNetworkSetupDisabled *)
Definition errNetworkSetupDisabled : string := "network setup disabled; use network mode none or enable network.setup".
Definition errRuntimeEgressPolicyUnsupported : string := "runtime-managed networking does not support nanofuse egress_policy".
Definition errRuntimeNetworkModeUnsupported : string := "runtime-managed networking does not support network mode none".

(** The roll-back of a failed set-up once the TAP device exists. *)
Definition undo_tap (vmID tapName : string) : M unit :=
  host_do (DeleteTAPDevice tapName) ;;; ipam_do (ReleaseIP vmID).

(* @func internal/api/vm_handlers.go setupVMNetworking *)
Definition setupVMNetworking (vmID : string) (config : VMConfig) : M (option error * VMConfig) :=
  let net := c_network config in
  if negb (firecracker env_cfg) then
    if String.eqb (n_mode net) "none" then ret (Some (ErrorsNew errRuntimeNetworkModeUnsupported), config)
    else if egress_enabled net then ret (Some (ErrorsNew errRuntimeEgressPolicyUnsupported), config)
    else ret (None, config)
  else if String.eqb (n_mode net) "none" then ret (None, config)
  else if negb (cfg_network_setup env_cfg) then ret (Some (ErrorsNew errNetworkSetupDisabled), config)
  else
    let* ip := ipam_do (AllocateIP vmID) in
    match ip with
    | Err err => ret (Some (Errorf "failed to allocate IP: %w" [AWrap err]), config)
    | Ok ip =>
        let tapName := tap_name vmID in
        let* e := host_do (CreateTAPDevice tapName) in
        match e with
        | Some err =>
            ipam_do (ReleaseIP vmID) ;;;
            ret (Some (Errorf "failed to create TAP device: %w" [AWrap err]), config)
        | None =>
            let* e := host_do (AttachTAPToBridge tapName BridgeName) in
            match e with
            | Some err =>
                undo_tap vmID tapName ;;;
                ret (Some (Errorf "failed to attach TAP to bridge: %w" [AWrap err]), config)
            | None =>
                let* mac :=
                  if String.eqb (n_mac net) "" then ask (λ n, GenerateMAC (env_random n))
                  else ret (Ok (n_mac net)) in
                match mac with
                | Err err =>
                    undo_tap vmID tapName ;;;
                    ret (Some (Errorf "failed to generate MAC: %w" [AWrap err]), config)
                | Ok mac =>
                    let net := mkNet (n_mode net) tapName mac (n_bridge net) ip BridgeGateway
                      "255.255.255.0" (n_forwards net) (n_egress net) in
                    let config := set_kernel_args (set_network config net)
                      (composeNetworkKernelArgs (c_kernel_args config) ip BridgeGateway) in
                    let* e := host_do (setupEgressPolicy vmID tapName ip BridgeGateway (n_egress net)) in
                    match e with
                    | Some err =>
                        undo_tap vmID tapName ;;;
                        ret (Some (Errorf "failed to setup egress policy: %w" [AWrap err]), config)
                    | None => ret (None, config)
                    end
                end
            end
        end
    end.

(* @func internal/api/vm_handlers.go writeNetworkSetupError *)
Definition writeNetworkSetupError (err : error) (networkMode : string) : option response :=
  if negb (errors_Is err errNetworkSetupDisabled) then
    if errors_Is err errRuntimeNetworkModeUnsupported then
      Some (WriteError 400 ErrInvalidConfig (Text errRuntimeNetworkModeUnsupported)
        [("network_mode", AStr networkMode); ("allowed_network_mode", AStr "nat")])
    else if errors_Is err errRuntimeEgressPolicyUnsupported then
      Some (WriteError 400 ErrInvalidConfig (Text errRuntimeEgressPolicyUnsupported)
        [("network_mode", AStr networkMode)])
    else None
  else
    Some (WriteError 400 ErrInvalidConfig (Text errNetworkSetupDisabled)
      [("network_mode", AStr networkMode); ("network_setup", ABool false); ("allowed_network_mode", AStr "none")]).

(** * Giving resources back *)

Definition release_ip_if_any (vmID : string) (n : NetworkConfig) : M unit :=
  when (negb (String.eqb (n_ip n) "")) (ipam_do (ReleaseIP vmID)).

Definition cleanup_egress_if_any (vmID : string) (n : NetworkConfig) : M unit :=
  when (egress_enabled n) (host_do (cleanupEgressPolicy vmID (n_tap n) (n_ip n)) ;;; ret tt).

Definition delete_tap_if_any (n : NetworkConfig) : M unit :=
  when (negb (String.eqb (n_tap n) "")) (host_do (DeleteTAPDevice (n_tap n)) ;;; ret tt).

(* @func internal/api/vm_handlers.go cleanupCreatedVMResources *)
Definition cleanupCreatedVMResources (vmID : string) (config : VMConfig) : M unit :=
  cleanupVMStorage dataDir vmID ;;;
  cleanup_egress_if_any vmID (c_network config) ;;;
  delete_tap_if_any (c_network config) ;;;
  release_ip_if_any vmID (c_network config).

(* @func internal/api/vm_handlers.go cleanupDeletedVMResources *)
Definition cleanupDeletedVMResources (vm : VM) : M unit :=
  let n := c_network (vm_config vm) in
  when (negb (Nat.eqb (length (n_forwards n)) 0) && negb (String.eqb (n_ip n) ""))
    (host_do (CleanupPortForwards (n_ip n) (n_forwards n)) ;;; ret tt) ;;;
  cleanup_egress_if_any (vm_id vm) n ;;;
  delete_tap_if_any n ;;;
  release_ip_if_any (vm_id vm) n ;;;
  cleanupVMStorage dataDir (vm_id vm) ;;;
  ret tt.

(* @func internal/api/vm_handlers.go cleanupVMNetwork *)
Definition cleanupVMNetwork (vm : VM) : M unit :=
  let n := c_network (vm_config vm) in
  runtime RtCleanupNetwork vm ;;;
  release_ip_if_any (vm_id vm) n ;;;
  when (negb (Nat.eqb (length (n_forwards n)) 0))
    (host_do (CleanupPortForwards (n_ip n) (n_forwards n)) ;;; ret tt) ;;;
  cleanup_egress_if_any (vm_id vm) n.

(** * The TAP device of a VM resumed from a snapshot *)

(* @func internal/api/vm_handlers.go ensureVMTapForResume *)
Definition ensureVMTapForResume (vm : VM) : M (option error) :=
  let n := c_network (vm_config vm) in
  if negb (firecracker env_cfg) then ret None
  else if String.eqb (n_mode n) "" || String.eqb (n_mode n) "none" then ret None
  else
    let tap := n_tap n in
    if String.eqb tap "" then ret None
    else
      let* exists_ := host_do (TAPDeviceExists tap) in
      if exists_ : bool then ret None
      else
        let* e := host_do (CreateTAPDevice tap) in
        match e with
        | Some err => ret (Some (Errorf "failed to recreate TAP device %s: %w" [AStr tap; AWrap err]))
        | None =>
            let* e := host_do (AttachTAPToBridge tap BridgeName) in
            match e with
            | Some err =>
                host_do (DeleteTAPDevice tap) ;;;
                ret (Some (Errorf "failed to attach TAP %s to bridge %s: %w" [AStr tap; AStr BridgeName; AWrap err]))
            | None => ret None
            end
        end.
End Resources.

(** * What these operations leave alone *)

Section Stability.
Context `{Env} {X} (π : World → X) `{!View π}.

Lemma stable_fs_do op : stable π (fs_do op).
Proof. unfold fs_do. solve_stable. Qed.
Hint Resolve stable_fs_do : go.

Lemma stable_fs_steps l : stable π (fs_steps l).
Proof. induction l as [|[[op undo] msg] l IH]; simpl; solve_stable. Qed.
Hint Resolve stable_fs_steps : go.

Lemma stable_copyFileAtomic src dst : stable π (copyFileAtomic src dst).
Proof. unfold copyFileAtomic. solve_stable. Qed.
Hint Resolve stable_copyFileAtomic : go.

Lemma stable_materialize dir vmID config : stable π (materializeWritableRootDisks dir vmID config).
Proof.
  unfold materializeWritableRootDisks. apply stable_bind; [|solve_stable].
  induction (c_disks config) as [|d l IH]; simpl; [solve_stable|].
  unfold materialize_disk, filepath_Abs. solve_stable.
Qed.

Lemma stable_cleanupVMStorage dir vmID : stable π (cleanupVMStorage dir vmID).
Proof. unfold cleanupVMStorage. solve_stable. Qed.
Hint Resolve stable_cleanupVMStorage : go.

Lemma stable_setupVMNetworking `{!IgnoresIpam π} vmID config : stable π (setupVMNetworking vmID config).
Proof. unfold setupVMNetworking, undo_tap. solve_stable. Qed.

Lemma stable_cleanups `{!IgnoresIpam π} vmID n :
  stable π (release_ip_if_any vmID n) ∧ stable π (cleanup_egress_if_any vmID n) ∧ stable π (delete_tap_if_any n).
Proof.
  unfold release_ip_if_any, cleanup_egress_if_any, delete_tap_if_any.
  split; [|split]; solve_stable.
Qed.

Lemma stable_cleanupCreated `{!IgnoresIpam π} vmID config : stable π (cleanupCreatedVMResources vmID config).
Proof.
  unfold cleanupCreatedVMResources. destruct (stable_cleanups vmID (c_network config)) as (?&?&?). solve_stable.
Qed.

Lemma stable_cleanupDeleted `{!IgnoresIpam π} vm : stable π (cleanupDeletedVMResources vm).
Proof.
  unfold cleanupDeletedVMResources. destruct (stable_cleanups (vm_id vm) (c_network (vm_config vm))) as (?&?&?).
  solve_stable.
Qed.

Lemma stable_cleanupVMNetwork `{!IgnoresIpam π} vm : stable π (cleanupVMNetwork vm).
Proof.
  unfold cleanupVMNetwork. destruct (stable_cleanups (vm_id vm) (c_network (vm_config vm))) as (?&?&?).
  solve_stable.
Qed.

Lemma stable_ensureTap vm : stable π (ensureVMTapForResume vm).
Proof. unfold ensureVMTapForResume. solve_stable. Qed.
End Stability.

#[export] Hint Resolve stable_fs_do stable_fs_steps stable_copyFileAtomic
  stable_materialize stable_cleanupVMStorage stable_setupVMNetworking
  stable_cleanupCreated stable_cleanupDeleted stable_cleanupVMNetwork stable_ensureTap : go.
