(* ===== verification/VmCreate.v ===== *)
(** Creation of a VM (src/internal/api/vm_handlers.go, [handleCreateVM]):
    image resolution, configuration, resources, workload identity, the database
    row, and the roll-back of each step. *)

From S2P Require Import Prelude GoStrings Types MountSecret Ipam Storage VmConfig Server VmResources.

Section Create.
Context `{Env}.

(** * Image resolution *)

(* @type internal/api/vm_handlers.go imageNotFoundError *)
Definition imageNotFoundError (imageRef : string) : error := ErrStruct "imageNotFoundError" [AStr imageRef].

(* @src internal/api/vm_handlers.go:107-119 validateAndResolveImage *)
Definition lookup_image (imageRef : string) : M (result (option Image)) :=
  if has_prefix "sha256:" imageRef then db_query (λ f, GetImage f imageRef)
  else db_rows (λ q, GetImageByTag q imageRef).

(* @func internal/api/vm_handlers.go validateAndResolveImage *)
Definition validateAndResolveImage (imageRef : string) : M (result (Image * string)) :=
  let* image := lookup_image imageRef in
  match image with
  | Err err => ret (Err (Errorf "database error: %w" [AWrap err]))
  | Ok (Some image) => ret (Ok (image, img_digest image))
  | Ok None =>
      match env_image_provider with
      | None => ret (Err (imageNotFoundError imageRef))
      | Some provider =>
          let* image := ask (λ n, provider n imageRef) in
          match image with
          | Err err => ret (Err (Errorf "runtime image resolution failed: %w" [AWrap err]))
          | Ok None => ret (Err (imageNotFoundError imageRef))
          | Ok (Some image) =>
              let* e := db_exec (λ f, UpsertImage f image) in
              match e with
              | Some err => ret (Err (Errorf "database error: %w" [AWrap err]))
              | None => ret (Ok (image, img_digest image))
              end
          end
      end
  end.

(* @func internal/api/vm_handlers.go resolveImageForCreate *)
Definition resolveImageForCreate (imageRef : string) : M (sum response (Image * string)) :=
  let* r := validateAndResolveImage imageRef in
  match r with
  | Ok p => ret (inr p)
  | Err err =>
      if errors_As err "imageNotFoundError" then
        ret (inl (WriteError 404 ErrImageNotFound
          (Sprintf "Image '%s' not found locally. Pull it first." [AStr imageRef]) [("image", AStr imageRef)]))
      else ret (inl (internal_error (Text "Failed to get image")))
  end.

(** * Configuration *)

(* @func internal/api/vm_handlers.go writePortForwardPreparationError *)
Definition writePortForwardPreparationError (err : error) : response :=
  if errors_As err "hostPortAllocationError" then internal_error (Text "Failed to allocate host port")
  else WriteError 400 ErrInvalidConfig (error_text err) [].

(* @func internal/api/vm_handlers.go prepareCreateVMConfig *)
Definition prepareCreateVMConfig (image : Image) (req : CreateVMRequest) : M (sum response VMConfig) :=
  let config := buildVMConfig image req in
  let* r := ask (λ n, fst (prepareVMPortForwards config (env_listen n))) in
  match r with
  | Err err => ret (inl (writePortForwardPreparationError err))
  | Ok config =>
      match NormalizeAndValidateMounts (c_mounts config) with
      | Err err => ret (inl (WriteError 400 ErrInvalidConfig (error_text err) []))
      | Ok mounts =>
          let config := set_mounts config mounts in
          match NormalizeAndValidateSecrets (c_secrets config) with
          | Err err => ret (inl (WriteError 400 ErrInvalidConfig (error_text err) []))
          | Ok secrets =>
              let config := set_secrets config secrets in
              let* allVMs := db_rows (λ q, ListVMs q "") in
              match validateVMResourceLimits (cfg_limits env_cfg) config allVMs with
              | Some err => ret (inl (WriteError 422 ErrResourceLimitExceeded (error_text err) []))
              | None => ret (inr config)
              end
          end
      end
  end.

(** * Workload identity *)

(* @func internal/api/vm_handlers.go spireRequired *)
Definition spireRequired : bool := cfg_spire_enabled env_cfg && cfg_spire_required env_cfg.

Definition spire_required_detail : list (string * arg) := [("spire_required", ABool true)].

Definition spire_unavailable : response :=
  WriteError 503 ErrServiceUnavailable
    (Text "SPIRE is required but unavailable or misconfigured; refusing to create VM without a workload identity")
    spire_required_detail.

(* @func internal/api/vm_handlers.go rejectInvalidSPIRECreateInputs *)
Definition rejectInvalidSPIRECreateInputs (req : CreateVMRequest) : option response :=
  if negb spireRequired then None
  else match env_spire with
  | None => Some spire_unavailable
  | Some service =>
      if spireIdentityInputsMissing req then
        Some (WriteError 400 ErrInvalidRequest
          (Text "SPIRE identity is required: supply owner_user_id and group_id and do not disable auto_register_spiffe")
          spire_required_detail)
      else match ValidateIdentityParams service (cr_group req) (cr_owner req) with
      | Some _ =>
          Some (WriteError 400 ErrInvalidRequest
            (Text "Invalid SPIRE identity inputs: owner_user_id and group_id must be non-empty and contain only letters, digits, hyphens, and underscores")
            spire_required_detail)
      | None => None
      end
  end.

Definition spire_create (service : spireRegistrar) (vmID group owner : string) : M (result string) :=
  λ w, let r := CreateVMWorkloadEntry service (w_tick w) vmID group owner in
       (r, snd (record (EvSpireCreate vmID r) w)).

Definition spire_delete (service : spireRegistrar) (spiffeID : string) : M (option error) :=
  λ w, let r := DeleteVMWorkloadEntry service (w_tick w) spiffeID in
       (r, snd (record (EvSpireDelete spiffeID r) w)).

(* @func internal/api/vm_handlers.go registerSPIREWorkload *)
Definition registerSPIREWorkload (vmID : string) (req : CreateVMRequest) : M (result string) :=
  match env_spire with
  | None => ret (Ok "")
  | Some service =>
      if negb (shouldRegister req) || negb (IsEnabled service) then ret (Ok "")
      else
        let* r := spire_create service vmID (cr_group req) (cr_owner req) in
        match r with
        | Err err => ret (Err (Errorf "SPIRE registration failed: %w" [AWrap err]))
        | Ok spiffeID => ret (Ok spiffeID)
        end
  end.

(** [inl r]: the request was rejected with [r]. *)
(* @func internal/api/vm_handlers.go registerSPIREForCreate *)
Definition registerSPIREForCreate (vmID : string) (req : CreateVMRequest) (config : VMConfig) :
    M (sum response string) :=
  let* r := registerSPIREWorkload vmID req in
  match r with
  | Ok spiffeID =>
      if negb spireRequired || negb (String.eqb spiffeID "") then ret (inr spiffeID)
      else cleanupCreatedVMResources vmID config ;;; ret (inl spire_unavailable)
  | Err _ =>
      if negb spireRequired then ret (inr "")
      else cleanupCreatedVMResources vmID config ;;; ret (inl spire_unavailable)
  end.

(** * The handler *)

(** The insertion of the row, and the roll-back when it fails. *)
(* @src internal/api/vm_handlers.go:913-928 handleCreateVM *)
Definition insert_vm (vm : VM) : M response :=
  let* e := db_exec (λ f, CreateVM f vm) in
  match e with
  | Some _ =>
      cleanupCreatedVMResources (vm_id vm) (vm_config vm) ;;;
      match env_spire with
      | Some service =>
          when (negb (String.eqb (vm_spiffe vm) "")) (spire_delete service (vm_spiffe vm) ;;; ret tt)
      | None => ret tt
      end ;;;
      ret (internal_error (Text "Failed to create VM"))
  | None => ret (writeJSON 201 (BVM vm))
  end.

(** The part that acquires resources: from the root disk to the row. *)
(* @src internal/api/vm_handlers.go:870-928 handleCreateVM *)
Definition provision_vm (req : CreateVMRequest) (image : Image) (vmID vmName : string) (config : VMConfig) : M response :=
  let* r := materializeWritableRootDisks dataDir vmID config in
  match r with
  | Err err => ret (internal_error (error_text err))
  | Ok config =>
      let* ' (e, config) := setupVMNetworking vmID config in
      match e with
      | Some err =>
          cleanupVMStorage dataDir vmID ;;;
          match writeNetworkSetupError err (n_mode (c_network config)) with
          | Some r => ret r
          | None => ret (internal_error (error_text err))
          end
      | None =>
          let* t := now in
          let* r := registerSPIREForCreate vmID req config in
          match r with
          | inl r => ret r
          | inr spiffeID =>
              insert_vm (mkVM vmID vmName StateCreated (cr_image req) (img_digest image) (img_arch image)
                config None t t None None (cr_owner req) (cr_group req) spiffeID)
          end
      end
  end.

(* @src internal/api/vm_handlers.go:844-868 handleCreateVM *)
Definition create_new_vm (req : CreateVMRequest) : M response :=
  match rejectInvalidSPIRECreateInputs req with
  | Some r => ret r
  | None =>
      let* r := resolveImageForCreate (cr_image req) in
      match r with
      | inl r => ret r
      | inr (image, _) =>
          let* vmID := ask env_uuid in
          let vmName := if String.eqb (cr_name req) "" then vmID else cr_name req in
          let* r := prepareCreateVMConfig image req in
          match r with
          | inl r => ret r
          | inr config => provision_vm req image vmID vmName config
          end
      end
  end.

(** [body] is the decoded request, [None] when it does not decode. *)
(* @func internal/api/vm_handlers.go handleCreateVM *)
Definition handleCreateVM (request : option CreateVMRequest) : M response :=
  match request with
  | None => ret (WriteError 400 ErrInvalidRequest (Text "Invalid request body") [])
  | Some req =>
      if String.eqb (cr_image req) "" then
        ret (WriteError 400 ErrInvalidRequest (Text "Image is required") [])
      else if String.eqb (cr_name req) "" then create_new_vm req
      else
        let* existing := get_vm (cr_name req) in
        match existing with
        | Err _ => ret (internal_error (Text "Failed to check existing VM"))
        | Ok (Some vm) => ret (writeJSON 200 (BVM vm))
        | Ok None => create_new_vm req
        end
  end.
End Create.
