(* ===== verification/VmLifecycle.v ===== *)
(** The life of a VM (src/internal/api/vm_handlers.go): the handlers of get,
    list, start, stop, kill, pause, resume, delete, logs and exec, and the
    callback for the exit of the VM process. *)

From S2P Require Import Prelude GoStrings Paths Types PortForward Ipam Storage Server VmResources VmCreate.

Section Lifecycle.
Context `{Env}.

(* @func internal/api/vm_handlers.go vmHasRuntimeHandle *)
Definition vmHasRuntimeHandle (vm : VM) : bool :=
  match vm_runtime vm with
  | Some rt => negb (rt_pid rt =? 0)%Z || negb (String.eqb (rt_external_id rt) "")
  | None => false
  end.

(** [_ = s.db.UpdateVM(vm)] after setting the state. *)
Definition store_state (vm : VM) (s : VMState) : M (option error * VM) := update_vm (set_state vm s).

(** * Get and list *)

(* @func internal/api/vm_handlers.go handleGetVM *)
Definition handleGetVM (vmID : string) : M response :=
  with_vm vmID (λ vm, ret (writeJSON 200 (BVM vm))).

(* @func internal/api/vm_handlers.go handleGetVMByPath *)
Definition handleGetVMByPath (vmID : string) : M response := by_path "VM" vmID (handleGetVM vmID).

(** The uptime in seconds of a running VM at time [t]: [int] of a float
    truncates toward zero. *)
(* @src internal/api/vm_handlers.go:85-89 handleListVMs *)
Definition uptime (t : Z) (vm : VM) : option Z :=
  match vm_state vm, vm_runtime vm with
  | StateRunning, Some _ => Some (Z.quot (t - vm_updated vm) 1000000000)
  | _, _ => None
  end.

(* @func internal/api/vm_handlers.go handleListVMs *)
Definition handleListVMs (stateFilter : string) : M response :=
  let* vms := db_rows (λ q, ListVMs q stateFilter) in
  match vms with
  | Err _ => ret (internal_error (Text "Failed to list VMs"))
  | Ok vms =>
      let* t := now in
      ret (writeJSON 200 (BVMs ((λ vm, (vm, uptime t vm)) <$> vms)))
  end.

(** * Start *)

(* @func internal/api/vm_handlers.go startRuntimeAndSetupNetwork *)
Definition startRuntimeAndSetupNetwork (vm : VM) (image : Image) : M (option error * VM) :=
  let* ' (e, vm) := runtime_launch (RtStart image) vm in
  match e with
  | Some err => ret (Some (Errorf "failed to start runtime: %w" [AWrap err]), vm)
  | None =>
      let n := c_network (vm_config vm) in
      if firecracker env_cfg && negb (Nat.eqb (length (n_forwards n)) 0) then
        let* e := host_do (SetupPortForwards (n_ip n) (n_forwards n)) in
        match e with
        | Some err =>
            runtime RtKill vm ;;;
            ret (Some (Errorf "failed to setup port forwards: %w" [AWrap err]), vm)
        | None => ret (None, vm)
        end
      else ret (None, vm)
  end.

(* @func internal/api/vm_handlers.go performVMStart *)
Definition performVMStart (vm : VM) : M (option error * VM) :=
  let* ' (e, vm) := store_state vm StateStarting in
  match e with
  | Some _ => ret (Some (Errorf "failed to update VM state" []), vm)
  | None =>
      let* image := db_query (λ f, GetImage f (vm_digest vm)) in
      match image with
      | Err _ | Ok None =>
          let* ' (_, vm) := store_state vm StateFailed in
          ret (Some (Errorf "failed to get image" []), vm)
      | Ok (Some image) =>
          let* ' (e, vm) := startRuntimeAndSetupNetwork vm image in
          match e with
          | Some err =>
              let* ' (_, vm) := store_state vm StateFailed in
              ret (Some err, vm)
          | None =>
              let* ' (_, vm) := store_state vm StateRunning in
              ret (None, vm)
          end
      end
  end.

(** The part of the handler that follows the check of the state, on the VM as
    it was read before the lock was taken. *)
(* @src internal/api/vm_handlers.go:1179-1197 handleVMStartByPath *)
Definition start_locked (vm : VM) : M response :=
  with_lock (vm_id vm) "start" (
    let* ' (e, vm) := performVMStart vm in
    match e with
    | Some err => ret (internal_error (error_text err))
    | None => ret (writeJSON 200 (BVM vm))
    end).

(* @src internal/api/vm_handlers.go:1165-1177 handleVMStartByPath *)
Definition start_vm (vm : VM) : M response :=
  if bool_decide (vm_state vm = StateRunning) then ret (writeJSON 200 (BVM vm))
  else if negb (bool_decide (vm_state vm = StateCreated)) && negb (bool_decide (vm_state vm = StateStopped)) then
    ret (invalid_transition "Cannot start VM in state '%s'" (vm_state vm))
  else start_locked vm.

(* @func internal/api/vm_handlers.go handleVMStartByPath *)
Definition handleVMStartByPath (vmID : string) : M response := by_path "VM" vmID (with_vm vmID start_vm).

(** * Stop *)

(* @func internal/api/vm_handlers.go stopVMAndCleanup *)
Definition stopVMAndCleanup (vm : VM) (timeout : Z) : M (option error) :=
  let* e := runtime (RtStop timeout) vm in
  match e with
  | Some err => ret (Some (Errorf "failed to stop VM: %w" [AWrap err]))
  | None =>
      let n := c_network (vm_config vm) in
      when (firecracker env_cfg && negb (Nat.eqb (length (n_forwards n)) 0))
        (host_do (CleanupPortForwards (n_ip n) (n_forwards n)) ;;; ret tt) ;;;
      ret None
  end.

(* @func internal/api/vm_handlers.go performVMStop *)
Definition performVMStop (vm : VM) (timeout : Z) : M (option error * VM) :=
  let* ' (_, vm) := store_state vm StateStopping in
  let* e := stopVMAndCleanup vm timeout in
  match e with
  | Some err =>
      let* ' (_, vm) := store_state vm StateFailed in
      ret (Some err, vm)
  | None =>
      let* ' (_, vm) := store_state (set_runtime vm None) StateStopped in
      ret (None, vm)
  end.

(* @src internal/api/vm_handlers.go:1251-1269 handleVMStopByPath *)
Definition stop_locked (timeout : Z) (vm : VM) : M response :=
  with_lock (vm_id vm) "stop" (
    let* ' (e, vm) := performVMStop vm timeout in
    match e with
    | Some err => ret (internal_error (error_text err))
    | None => ret (writeJSON 200 (BVM vm))
    end).

(* @src internal/api/vm_handlers.go:1237-1249 handleVMStopByPath *)
Definition stop_vm (timeout : Z) (vm : VM) : M response :=
  if bool_decide (vm_state vm = StateStopped) then ret (writeJSON 200 (BVM vm))
  else if negb (bool_decide (vm_state vm = StateRunning)) && negb (bool_decide (vm_state vm = StatePaused)) then
    ret (invalid_transition "Cannot stop VM in state '%s'" (vm_state vm))
  else stop_locked timeout vm.

(** The body of a stop request: absent, undecodable, or its timeout. *)
Inductive optional_body (A : Type) : Type := NoBody | BadBody | Body (a : A).

(* @func internal/api/vm_handlers.go handleVMStopByPath *)
Definition handleVMStopByPath (vmID : string) (request : optional_body (option Z)) : M response :=
  by_path "VM" vmID
    match request with
    | BadBody _ => ret (WriteError 400 ErrInvalidRequest (Text "Invalid request body") [])
    | NoBody _ => with_vm vmID (stop_vm 30)
    | Body _ t => with_vm vmID (stop_vm (default 30%Z t))
    end.

(** * Kill *)

(* @src internal/api/vm_handlers.go:1295-1312 handleVMKillByPath *)
Definition kill_vm (vm : VM) : M response :=
  when (vmHasRuntimeHandle vm) (runtime RtKill vm ;;; ret tt) ;;;
  let* ' (_, vm) := store_state (set_runtime vm None) StateStopped in
  ret (writeJSON 200 (BVM vm)).

(* @func internal/api/vm_handlers.go handleVMKillByPath *)
Definition handleVMKillByPath (vmID : string) : M response := by_path "VM" vmID (with_vm vmID kill_vm).

(** * Pause and resume *)

(** Both in-place transitions: mark the VM as on its way, call the runtime,
    and either go back to the old state or on to the new one. *)
(* @src internal/api/vm_handlers.go:1365-1394 handleVMPauseByPath *)
Definition transition_vm (via back to : VMState) (op : rt_op) (what : string) (fail_format : string) (vm : VM) : M response :=
  let* ' (e, vm) := store_state vm via in
  match e with
  | Some _ => ret (internal_error (Text "Failed to update VM state"))
  | None =>
      let* e := runtime op vm in
      match e with
      | Some err =>
          let* ' (_, vm) := store_state vm back in
          match writeRuntimeUnsupportedError what err [("vm_id", AStr (vm_id vm))] with
          | Some r => ret r
          | None => ret (internal_error (Sprintf fail_format [AShow err]))
          end
      | None =>
          let* ' (e, vm) := store_state vm to in
          match e with
          | Some _ => ret (internal_error (Text "Failed to update VM state"))
          | None => ret (writeJSON 200 (BVM vm))
          end
      end
  end.

(* @src internal/api/vm_handlers.go:1347-1395 handleVMPauseByPath *)
Definition pause_vm (vm : VM) : M response :=
  if negb (bool_decide (vm_state vm = StateRunning)) then
    ret (invalid_transition "Cannot pause VM in state '%s'" (vm_state vm))
  else with_lock (vm_id vm) "pause"
    (transition_vm StatePausing StateRunning StatePaused RtPause "VM pause" "Failed to pause VM: %v" vm).

(* @func internal/api/vm_handlers.go handleVMPauseByPath *)
Definition handleVMPauseByPath (vmID : string) : M response := by_path "VM" vmID (with_vm vmID pause_vm).

(* @src internal/api/vm_handlers.go:1445-1494 handleVMResumeByPath *)
Definition resume_in_place (vm : VM) : M response :=
  if negb (bool_decide (vm_state vm = StatePaused)) then
    ret (invalid_transition "Cannot resume VM in state '%s'" (vm_state vm))
  else with_lock (vm_id vm) "resume"
    (transition_vm StateResuming StatePaused StateRunning RtResume "VM resume" "Failed to resume VM: %v" vm).

(** * Resume from a snapshot *)

(** [filepath.EvalSymlinks]. *)
Definition eval_symlinks (path : string) : M (result string) :=
  let* r := fs (FsEvalSymlinks path) in
  match r with Err err => ret (Err err) | Ok i => ret (Ok (fi_path i)) end.

(* @func internal/api/vm_handlers.go snapshotFileWithinManagedRoot *)
Definition snapshotFileWithinManagedRoot (p : string) : M bool :=
  let root := path_clean (filepath_join [dataDir; "snapshots"]) in
  let cleaned := path_clean p in
  if negb (within_lexical root cleaned) then ret false
  else
    let* realRoot := eval_symlinks root in
    match realRoot with
    | Err err => ret (os_IsNotExist err)
    | Ok realRoot =>
        let* realDir := eval_symlinks (filepath_dir cleaned) in
        match realDir with
        | Err err => ret (os_IsNotExist err)
        | Ok realDir => ret (String.eqb realDir realRoot || within_lexical realRoot realDir)
        end
    end.

(** [None]: the file is there; otherwise the answer written. *)
(* @func internal/api/vm_handlers.go checkSnapshotFilePresent *)
Definition checkSnapshotFilePresent (snapshotID kind path : string) : M (option response) :=
  let details := [("snapshot_id", AStr snapshotID); ("path", AStr path)] in
  let* r := fs (FsLstat path) in
  match r with
  | Err err =>
      if os_IsNotExist err then
        ret (Some (WriteError 404 ErrSnapshotNotFound (Sprintf "Snapshot %s file missing at '%s'" [AStr kind; AStr path]) details))
      else
        ret (Some (WriteError 500 ErrInternalError (Sprintf "Snapshot %s file not accessible at '%s'" [AStr kind; AStr path]) details))
  | Ok info =>
      if negb (fi_regular info) then
        ret (Some (WriteError 500 ErrInternalError (Sprintf "Snapshot %s path is not a regular file: '%s'" [AStr kind; AStr path]) details))
      else ret None
  end.

(* @func internal/api/vm_handlers.go resolveResumableSnapshot *)
Definition resolveResumableSnapshot (vm : VM) (snapshotID : string) : M (sum response Snapshot) :=
  let* r := db_query (λ f, GetSnapshot f snapshotID) in
  match r with
  | Err _ => ret (inl (internal_error (Text "Failed to get snapshot")))
  | Ok None =>
      ret (inl (WriteError 404 ErrSnapshotNotFound (Sprintf "Snapshot '%s' not found" [AStr snapshotID])
        [("snapshot_id", AStr snapshotID)]))
  | Ok (Some snapshot) =>
      if negb (String.eqb (sn_vm snapshot) (vm_id vm)) then
        ret (inl (WriteError 400 ErrInvalidRequest
          (Sprintf "Snapshot '%s' does not belong to VM '%s'" [AStr snapshotID; AStr (vm_id vm)])
          [("snapshot_id", AStr snapshotID); ("vm_id", AStr (vm_id vm)); ("snapshot_vm_id", AStr (sn_vm snapshot))]))
      else
        let* state_ok := snapshotFileWithinManagedRoot (sn_state snapshot) in
        let* mem_ok := if state_ok : bool then snapshotFileWithinManagedRoot (sn_mem snapshot) else ret false in
        if negb mem_ok then
          ret (inl (WriteError 500 ErrInternalError (Text "Snapshot has an invalid storage path")
            [("snapshot_id", AStr snapshotID)]))
        else
          let* e := checkSnapshotFilePresent snapshotID "state" (sn_state snapshot) in
          match e with
          | Some r => ret (inl r)
          | None =>
              let* e := checkSnapshotFilePresent snapshotID "memory" (sn_mem snapshot) in
              match e with
              | Some r => ret (inl r)
              | None => ret (inr snapshot)
              end
          end
  end.

(** Go back to [s]; if that cannot be stored, mark the VM failed. *)
(* @src internal/api/vm_handlers.go:1633-1640 resumeVMFromSnapshot *)
Definition restore_state (vm : VM) (s : VMState) : M VM :=
  let* ' (e, vm) := store_state vm s in
  match e with
  | None => ret vm
  | Some _ => let* ' (_, vm) := store_state vm StateFailed in ret vm
  end.

(* @src internal/api/vm_handlers.go:1622-1684 resumeVMFromSnapshot *)
Definition load_snapshot (vm : VM) (snapshot : Snapshot) : M response :=
  let prevState := vm_state vm in
  let* ' (e, vm) := store_state vm StateResuming in
  match e with
  | Some _ => ret (internal_error (Text "Failed to update VM state"))
  | None =>
      let* ' (e, vm) := runtime_launch (RtLoadSnapshot (sn_state snapshot) (sn_mem snapshot)) vm in
      match e with
      | Some err =>
          let* vm := restore_state vm prevState in
          match writeRuntimeUnsupportedError "VM snapshot resume" err [("vm_id", AStr (vm_id vm))] with
          | Some r => ret r
          | None => ret (internal_error (Sprintf "Failed to resume VM from snapshot: %v" [AShow err]))
          end
      | None =>
          let* ' (e, vm) := store_state vm StateRunning in
          match e with
          | Some _ =>
              runtime (RtStop 5) vm ;;;
              restore_state (set_runtime vm None) prevState ;;;
              ret (internal_error (Text "Failed to update VM state"))
          | None => ret (writeJSON 200 (BVM vm))
          end
      end
  end.

(* @func internal/api/vm_handlers.go resumeVMFromSnapshot *)
Definition resumeVMFromSnapshot (vm : VM) (snapshotID : string) : M response :=
  match vm_state vm with
  | StateStopped | StateCreated | StateFailed =>
      with_lock (vm_id vm) "resume" (
        let* r := resolveResumableSnapshot vm snapshotID in
        match r with
        | inl r => ret r
        | inr snapshot =>
            let* e := ensureVMTapForResume vm in
            match e with
            | Some err => ret (internal_error (Sprintf "Failed to re-establish network for snapshot resume: %v" [AShow err]))
            | None => load_snapshot vm snapshot
            end
        end)
  | s =>
      ret (invalid_transition
        "Cannot resume VM from snapshot while in state '%s'; stop the VM first (resume-from-snapshot requires no live runtime)" s)
  end.

(** The body of a resume request: its optional snapshot id.  An empty body
    counts as absent. *)
(* @func internal/api/vm_handlers.go handleVMResumeByPath *)
Definition handleVMResumeByPath (vmID : string) (request : optional_body (option string)) : M response :=
  by_path "VM" vmID (with_vm vmID (λ vm,
    match request with
    | BadBody _ => ret (WriteError 400 ErrInvalidRequest (Text "Invalid request body") [])
    | Body _ (Some snapshotID) =>
        if String.eqb snapshotID "" then
          ret (WriteError 400 ErrInvalidRequest (Text "snapshot_id must be a non-empty snapshot id when provided") [])
        else resumeVMFromSnapshot vm snapshotID
    | NoBody _ | Body _ None => resume_in_place vm
    end)).

(** * Delete *)

(* @src internal/api/vm_handlers.go:977-1012 handleDeleteVM *)
Definition delete_locked (vm : VM) : M response :=
  let* e :=
    if (bool_decide (vm_state vm = StateRunning) || bool_decide (vm_state vm = StatePaused)) && vmHasRuntimeHandle vm
    then runtime RtKill vm else ret None in
  match e with
  | Some _ => ret (WriteError 500 ErrInternalError (Text "Failed to stop VM runtime before delete") [("vm_id", AStr (vm_id vm))])
  | None =>
      let* e := runtime RtDelete vm in
      match e with
      | Some _ => ret (WriteError 500 ErrInternalError (Text "Failed to delete VM runtime resources") [("vm_id", AStr (vm_id vm))])
      | None =>
          match env_spire with
          | Some service =>
              when (negb (String.eqb (vm_spiffe vm) "") && IsEnabled service) (spire_delete service (vm_spiffe vm) ;;; ret tt)
          | None => ret tt
          end ;;;
          cleanupDeletedVMResources vm ;;;
          let* fk := ask env_fk in
          let* e := db_exec (λ f, DeleteVM f fk (vm_id vm)) in
          match e with
          | Some _ => ret (internal_error (Text "Failed to delete VM"))
          | None => ret (mkResp 204 BNone)
          end
      end
  end.

(* @func internal/api/vm_handlers.go handleDeleteVM *)
Definition handleDeleteVM (vmID : string) : M response :=
  with_vm vmID (λ vm, with_lock (vm_id vm) "delete" (delete_locked vm)).

(* @func internal/api/vm_handlers.go handleDeleteVMByPath *)
Definition handleDeleteVMByPath (vmID : string) : M response := by_path "VM" vmID (handleDeleteVM vmID).

(** * Exit of the VM process *)

(** [exitCode] and [err] as the runtime reports them. *)
(* @src internal/api/vm_handlers.go:1968-1981 handleVMProcessExit *)
Definition exit_state (exitCode : option Z) (err : option error) : VMState :=
  match err with
  | Some _ => match exitCode with
              | Some c => if (c =? 0)%Z then StateStopped else StateFailed
              | None => StateFailed
              end
  | None => StateStopped
  end.

(* @func internal/api/vm_handlers.go handleVMProcessExit *)
Definition handleVMProcessExit (vmID : string) (exitCode : option Z) (err : option error) : M unit :=
  let* r := get_vm vmID in
  match r with
  | Err _ | Ok None => ret tt
  | Ok (Some vm) =>
      if bool_decide (vm_state vm = StateRunning) || bool_decide (vm_state vm = StateStarting) then
        let* t := now in
        let* ' (_, vm) := update_vm (set_updated (set_state vm (exit_state exitCode err)) t) in
        when (negb (String.eqb (n_mode (c_network (vm_config vm))) "none")) (cleanupVMNetwork vm)
      else ret tt
  end.

(** * Logs and exec *)

(** [tail]: the raw query parameter, parsed by [atoi] ([strconv.Atoi]). *)
(* @func internal/api/vm_handlers.go handleVMLogsByPath *)
Definition handleVMLogsByPath (atoi : string → result Z) (vmID tail : string) : M response :=
  by_path "VM" vmID (
    let with_tail tailLines :=
      with_vm vmID (λ vm,
        let* text := ask (λ n, env_logs n vm) in
        let* e := runtime (RtGetConsoleLogs tailLines) vm in
        match e with
        | Some _ => ret (internal_error (Text "Failed to get console logs"))
        | None => ret (mkResp 200 (BText text))
        end) in
    if String.eqb tail "" then with_tail 0%Z
    else match atoi tail with
    | Err _ => ret (WriteError 400 ErrInvalidRequest (Sprintf "Invalid tail parameter: %s" [AStr tail]) [])
    | Ok parsed =>
        if (parsed <? 0)%Z then ret (WriteError 400 ErrInvalidRequest (Text "tail parameter must be non-negative") [])
        else with_tail parsed
    end).

(* @func internal/api/vm_handlers.go normalizeExecCommand *)
Definition normalizeExecCommand (command : list string) : list string :=
  match command with
  | [] => []
  | c :: _ => if String.eqb (trim_space c) "" then [] else command
  end.

(** ["… (truncated)"]: the ellipsis is three bytes. *)
Definition truncated_suffix : string := bytes [226; 128; 166] +:+ " (truncated)".

(** [None]: a slice out of range, for a negative bound. *)
(* @func internal/api/vm_handlers.go capString *)
Definition capString (s : string) (max : Z) : option string :=
  let len := Z.of_nat (String.length s) in
  let slen := Z.of_nat (String.length truncated_suffix) in
  if (len <=? max)%Z then Some s
  else if (max <=? slen)%Z then
    if (max <? 0)%Z then None else Some (String.substring 0 (Z.to_nat max) s)
  else Some (String.substring 0 (Z.to_nat (max - slen)) s +:+ truncated_suffix).

(* @func internal/api/vm_handlers.go truncateForError *)
Definition truncateForError (s : string) : string := default "" (capString s 4096).

(* @func internal/api/vm_handlers.go capExecOutput *)
Definition capExecOutput (s : string) : string := default "" (capString s (2 ^ 20)).

Definition DeadlineExceeded : string := "context deadline exceeded".

(* @src internal/api/vm_handlers.go:1886-1914 handleVMExecByPath *)
Definition exec_failed (vm : VM) (timeoutSeconds : Z) (result : option VMExecResult) (err : error) : response :=
  if errors_Is err DeadlineExceeded then
    WriteError 504 ErrServiceUnavailable (Text "VM exec timed out")
      [("vm_id", AStr (vm_id vm)); ("timeout_seconds", AInt timeoutSeconds)]
  else match writeRuntimeUnsupportedError "VM exec" err [("vm_id", AStr (vm_id vm))] with
  | Some r => r
  | None =>
      WriteError 500 ErrInternalError (Text "Failed to exec in VM")
        ([("vm_id", AStr (vm_id vm)); ("error", AShow err)] ++
         match result with
         | Some x =>
             (if String.eqb (x_stderr x) "" then [] else [("stderr", AStr (truncateForError (x_stderr x)))]) ++
             (if String.eqb (x_stdout x) "" then [] else [("stdout", AStr (truncateForError (x_stdout x)))])
         | None => []
         end)
  end.

(* @src internal/api/vm_handlers.go:53-56 defaultExecTimeoutSeconds *)
Definition defaultExecTimeoutSeconds : Z := 30.
Definition maxExecTimeoutSeconds : Z := 600.

(** [request]: the decoded command and timeout. *)
(* @func internal/api/vm_handlers.go handleVMExecByPath *)
Definition handleVMExecByPath (vmID : string) (request : option (list string * option Z)) : M response :=
  by_path "VM" vmID
    match request with
    | None => ret (WriteError 400 ErrInvalidRequest (Text "Invalid request body") [])
    | Some (command, timeout) =>
        let command := normalizeExecCommand command in
        if Nat.eqb (length command) 0 then ret (WriteError 400 ErrInvalidRequest (Text "command is required") [])
        else
          let timeoutSeconds := default defaultExecTimeoutSeconds timeout in
          if (timeoutSeconds <=? 0)%Z || (maxExecTimeoutSeconds <? timeoutSeconds)%Z then
            ret (WriteError 400 ErrInvalidRequest
              (Sprintf "timeout_seconds must be between 1 and %d" [AInt maxExecTimeoutSeconds]) [])
          else with_vm vmID (λ vm,
            if negb (bool_decide (vm_state vm = StateRunning)) then
              ret (invalid_transition "Cannot exec in VM in state '%s'" (vm_state vm))
            else if negb (vmHasRuntimeHandle vm) then
              ret (WriteError 409 ErrInvalidStateTransition
                (Text "Cannot exec because VM runtime handle is unavailable") [("vm_id", AStr (vm_id vm))])
            else match env_exec with
            | None =>
                ret (WriteError 501 ErrUnsupportedOperation' (Text "Runtime does not support VM exec") [("vm_id", AStr (vm_id vm))])
            | Some exec =>
                let* ' (result, e) := ask (λ n, exec n vm command) in
                record (EvRuntime (RtExec command) (vm_id vm) e) ;;;
                match e with
                | Some err => ret (exec_failed vm timeoutSeconds result err)
                | None =>
                    ret (writeJSON 200 (BExec ((λ x, mkExec (x_command x) (x_exit x)
                      (capExecOutput (x_stdout x)) (capExecOutput (x_stderr x)) (x_runtime_id x)) <$> result)))
                end
            end)
    end.
End Lifecycle.
Arguments NoBody {A}.
Arguments BadBody {A}.
Arguments Body {A} a.
