(* ===== verification/Snapshots.v ===== *)
(** Snapshots of a VM (src/internal/api/snapshot_handlers.go): create, list,
    get and delete. *)

From S2P Require Import Prelude GoStrings Paths Types Ipam Storage Server VmResources VmLifecycle.

(** * Snapshot ids *)

(** The civil date of a day counted from 1970-01-01 (proleptic Gregorian). *)
Definition civil (day : Z) : Z * Z * Z :=
  let z := (day + 719468)%Z in
  let era := (z / 146097)%Z in
  let doe := (z mod 146097)%Z in
  let yoe := ((doe - doe / 1460 + doe / 36524 - doe / 146096) / 365)%Z in
  let doy := (doe - (365 * yoe + yoe / 4 - yoe / 100))%Z in
  let mp := ((5 * doy + 2) / 153)%Z in
  let d := (doy - (153 * mp + 2) / 5 + 1)%Z in
  let m := (if mp <? 10 then mp + 3 else mp - 9)%Z in
  let y := (yoe + era * 400 + (if m <=? 2 then 1 else 0))%Z in
  (y, m, d).

Fixpoint zeros (n : nat) : string := match n with O => EmptyString | S n' => String "0" (zeros n') end.

(** A number in at least [width] digits. *)
Definition pad (width : nat) (z : Z) : string := zeros (width - String.length (fmt_d z)) +:+ fmt_d z.

(** [t.Format("20060102-150405")] of the instant [t] (nanoseconds) in a zone
    [offset] seconds east of UTC. *)
Definition format_stamp (offset t : Z) : string :=
  let secs := (t / 1000000000 + offset)%Z in
  let '(y, m, d) := civil (secs / 86400) in
  let r := (secs mod 86400)%Z in
  pad 4 y +:+ pad 2 m +:+ pad 2 d +:+ "-" +:+ pad 2 (r / 3600) +:+ pad 2 (r / 60 mod 60) +:+ pad 2 (r mod 60).

Example stamp_example : format_stamp 0 1700000000123456789 = "20231114-221320".
Proof. vm_compute. reflexivity. Qed.
Example stamp_leap : format_stamp 3600 1709247600000000000 = "20240301-000000".
Proof. vm_compute. reflexivity. Qed.

Section Snapshots.
Context `{Env}.

(* @src internal/api/snapshot_handlers.go:110-110 handleCreateSnapshot *)
Definition snapshot_id (t : Z) : string := "snapshot-" +:+ format_stamp (env_zone t) t.

(* @src internal/api/snapshot_handlers.go:116-116 handleCreateSnapshot *)
Definition snapshot_dir (vmID snapshotID : string) : string :=
  filepath_join [dataDir; "snapshots"; vmID; snapshotID].

Definition stat_size (path : string) : M Z :=
  let* r := fs (FsStat path) in
  match r with Ok info => ret (fi_size info) | Err _ => ret 0%Z end.

(* @func internal/api/snapshot_handlers.go tierSnapshot *)
Definition tierSnapshot (vmID snapshotID snapPath memPath : string) : M unit :=
  record (EvTier (vmID +:+ "__" +:+ snapshotID)
    [("vm.snap", "vmstate", snapPath); ("mem.snap", "memory", memPath)]).

(* @src internal/api/snapshot_handlers.go:109-188 handleCreateSnapshot *)
Definition create_snapshot_locked (vm : VM) (name : string) : M response :=
  let* t := now in
  let snapshotID := snapshot_id t in
  let name := if String.eqb name "" then snapshotID else name in
  let dir := snapshot_dir (vm_id vm) snapshotID in
  let* e := fs_do (FsMkdirAll dir) in
  match e with
  | Some _ => ret (internal_error (Text "Failed to create snapshot directory"))
  | None =>
      let memPath := filepath_join [dir; "mem.snap"] in
      let snapPath := filepath_join [dir; "vm.snap"] in
      let* e := runtime (RtCreateSnapshot snapPath memPath) vm in
      match e with
      | Some err =>
          fs_do (FsRemoveAll dir) ;;;
          match writeRuntimeUnsupportedError "VM snapshots" err [("vm_id", AStr (vm_id vm))] with
          | Some r => ret r
          | None => ret (internal_error (Sprintf "Failed to create snapshot: %v" [AShow err]))
          end
      | None =>
          let* memSize := stat_size memPath in
          let* snapSize := stat_size snapPath in
          let* created := now in
          let* fk := ask env_fk in
          let snapshot := mkSnap snapshotID (vm_id vm) name memPath snapPath (add64 memSize snapSize) created in
          let* e := db_exec (λ f, CreateSnapshot f fk snapshot) in
          match e with
          | Some _ => ret (internal_error (Text "Failed to save snapshot"))
          | None =>
              when env_tiering (tierSnapshot (vm_id vm) snapshotID snapPath memPath) ;;;
              ret (writeJSON 201 (BSnapshot snapshot))
          end
      end
  end.

(* @src internal/api/snapshot_handlers.go:90-108 handleCreateSnapshot *)
Definition create_snapshot (name : string) (vm : VM) : M response :=
  if negb (bool_decide (vm_state vm = StatePaused)) then
    ret (invalid_transition "Cannot snapshot VM in state '%s'; pause the VM first" (vm_state vm))
  else with_lock (vm_id vm) "snapshot" (create_snapshot_locked vm name).

(* @func internal/api/snapshot_handlers.go handleCreateSnapshot *)
Definition handleCreateSnapshot (vmID : string) (request : optional_body string) : M response :=
  match request with
  | BadBody => ret (WriteError 400 ErrInvalidRequest (Text "Invalid request body") [])
  | NoBody => with_vm vmID (create_snapshot "")
  | Body name => with_vm vmID (create_snapshot name)
  end.

(** The list is asked for the id of the path, not the id of the VM found. *)
(* @func internal/api/snapshot_handlers.go handleListSnapshots *)
Definition handleListSnapshots (vmID : string) : M response :=
  with_vm vmID (λ _,
    let* l := db_rows (λ q, ListSnapshots q vmID) in
    match l with
    | Err _ => ret (internal_error (Text "Failed to list snapshots"))
    | Ok l => ret (writeJSON 200 (BSnapshots l))
    end).

Definition with_snapshot (snapshotID : string) (k : Snapshot → M response) : M response :=
  let* r := db_query (λ f, GetSnapshot f snapshotID) in
  match r with
  | Err _ => ret (internal_error (Text "Failed to get snapshot"))
  | Ok None =>
      ret (WriteError 404 ErrSnapshotNotFound (Sprintf "Snapshot '%s' not found" [AStr snapshotID])
        [("snapshot_id", AStr snapshotID)])
  | Ok (Some snapshot) => k snapshot
  end.

(* @func internal/api/snapshot_handlers.go handleGetSnapshot *)
Definition handleGetSnapshot (snapshotID : string) : M response :=
  with_snapshot snapshotID (λ s, ret (writeJSON 200 (BSnapshot s))).

(** The directory to remove, when it lies in the managed tree. *)
(* @src internal/api/snapshot_handlers.go:285-293 handleDeleteSnapshot *)
Definition removable_dir (snapshot : Snapshot) : option string :=
  let snapshotsRoot := path_clean (filepath_join [dataDir; "snapshots"]) in
  let snapshotDir := path_clean (filepath_dir (sn_mem snapshot)) in
  if within_lexical snapshotsRoot snapshotDir then Some snapshotDir else None.

(* @func internal/api/snapshot_handlers.go handleDeleteSnapshot *)
Definition handleDeleteSnapshot (snapshotID : string) : M response :=
  with_snapshot snapshotID (λ snapshot,
    with_lock (sn_vm snapshot) "snapshot-delete" (
      match removable_dir snapshot with
      | None => ret tt
      | Some dir => fs_do (FsRemoveAll dir) ;;; ret tt
      end ;;;
      let* e := db_exec (λ f, DeleteSnapshot f snapshotID) in
      match e with
      | Some _ => ret (internal_error (Text "Failed to delete snapshot"))
      | None => ret (mkResp 204 BNone)
      end)).

(* @func internal/api/snapshot_handlers.go handleListSnapshotsByPath *)
Definition handleListSnapshotsByPath (vmID : string) : M response := by_path "VM" vmID (handleListSnapshots vmID).
(* @func internal/api/snapshot_handlers.go handleCreateSnapshotByPath *)
Definition handleCreateSnapshotByPath (vmID : string) (request : optional_body string) : M response :=
  by_path "VM" vmID (handleCreateSnapshot vmID request).
(* @func internal/api/snapshot_handlers.go handleGetSnapshotByPath *)
Definition handleGetSnapshotByPath (snapshotID : string) : M response :=
  by_path "Snapshot" snapshotID (handleGetSnapshot snapshotID).
(* @func internal/api/snapshot_handlers.go handleDeleteSnapshotByPath *)
Definition handleDeleteSnapshotByPath (snapshotID : string) : M response :=
  by_path "Snapshot" snapshotID (handleDeleteSnapshot snapshotID).
End Snapshots.
