(* ===== verification/LifecycleSpec.v ===== *)
(** The life of a VM as a state machine, and the refinement: whatever the
    runtime, the file system, the host and the database answer, a request moves
    the stored state of its VM only along the edges of the machine and changes
    nothing else of the VM's identity and configuration. *)

From stdpp Require Import sets.
From S2P Require Import Prelude GoStrings Types Storage Server VmResources VmLifecycle.

(** * The abstract machine *)

Inductive request : Type :=
  | ReqStart
  | ReqStop (timeout : optional_body (option Z))
  | ReqKill
  | ReqPause
  | ReqResume (snapshot : optional_body (option string))
  | ReqExit (exitCode : option Z) (err : option error).

(** The state before and after a request.  The states on the way ([starting],
    [stopping], [pausing], [resuming]) remain only when a later statement of the
    database fails. *)
Inductive lifecycle : request → VMState → VMState → Prop :=
  | lc_same r s : lifecycle r s s
  | lc_start s s' :
      s ∈ [StateCreated; StateStopped] → s' ∈ [StateStarting; StateRunning; StateFailed] →
      lifecycle ReqStart s s'
  | lc_stop t s s' :
      s ∈ [StateRunning; StatePaused] → s' ∈ [StateStopping; StateStopped; StateFailed] →
      lifecycle (ReqStop t) s s'
  | lc_kill s : lifecycle ReqKill s StateStopped
  | lc_pause s' : s' ∈ [StatePausing; StatePaused] → lifecycle ReqPause StateRunning s'
  | lc_resume b s' : s' ∈ [StateResuming; StateRunning] → lifecycle (ReqResume b) StatePaused s'
  | lc_load id s s' :
      s ∈ [StateStopped; StateCreated; StateFailed] → s' ∈ [StateResuming; StateRunning; StateFailed] →
      lifecycle (ReqResume (Body (Some id))) s s'
  | lc_exit c e s : s ∈ [StateRunning; StateStarting] → lifecycle (ReqExit c e) s (exit_state c e).

Section Spec.
Context `{Env}.

Definition handle (r : request) (vmID : string) : M (option response) :=
  match r with
  | ReqStart => let* a := handleVMStartByPath vmID in ret (Some a)
  | ReqStop b => let* a := handleVMStopByPath vmID b in ret (Some a)
  | ReqKill => let* a := handleVMKillByPath vmID in ret (Some a)
  | ReqPause => let* a := handleVMPauseByPath vmID in ret (Some a)
  | ReqResume b => let* a := handleVMResumeByPath vmID b in ret (Some a)
  | ReqExit c e => handleVMProcessExit vmID c e ;;; ret None
  end.

(** What a request must leave alone: everything but the state, the runtime
    handle, the device names the runtime may choose, the update time and the
    lock. *)
Definition without_devices (n : NetworkConfig) : NetworkConfig :=
  mkNet (n_mode n) "" "" (n_bridge n) (n_ip n) (n_gateway n) (n_netmask n) (n_forwards n) (n_egress n).

Definition identity_of (vm : VM) : VM :=
  mkVM (vm_id vm) (vm_name vm) StateCreated (vm_image vm) (vm_digest vm) (vm_arch vm)
    (set_network (vm_config vm) (without_devices (c_network (vm_config vm)))) None (vm_created vm) 0 None None "" "" "".

(** [d0]: the database when the request arrived. *)
Context (d0 : DB).

(** [k] finds a VM with the identity of [v0] in state [s], and everything else
    is as it was. *)
Definition tracked (v0 : VM) (k : string) (s : VMState) (db : DB) : Prop :=
  others_kept (vm_id v0) d0 db ∧
  ∃ vm, GetVM None k db = Ok (Some vm) ∧ identity_of vm = identity_of v0 ∧ vm_state vm = s.

Lemma identity_id vm v0 : identity_of vm = identity_of v0 → vm_id vm = vm_id v0.
Proof. by intros [= ->]. Qed.

Lemma identity_state vm s : identity_of (set_state vm s) = identity_of vm.
Proof. reflexivity. Qed.
Lemma identity_runtime vm r : identity_of (set_runtime vm r) = identity_of vm.
Proof. reflexivity. Qed.
Lemma identity_updated vm t : identity_of (set_updated vm t) = identity_of vm.
Proof. reflexivity. Qed.

Lemma tracked_update v0 k s db t vm :
  tracked v0 k s db → identity_of vm = identity_of v0 →
  tracked v0 k (vm_state vm) (snd (UpdateVM None t vm db)).
Proof.
  intros (Ho & old & Hg & Hid & _) Hvm. split.
  { eapply others_kept_trans; [exact Ho|]. rewrite <- (identity_id _ _ Hvm). apply others_kept_UpdateVM. }
  eexists. split; [apply GetVM_UpdateVM; [exact Hg|by rewrite (identity_id _ _ Hvm), (identity_id _ _ Hid)]|].
  split; [|done]. rewrite <- Hid. pose proof (f_equal vm_config Hvm) as H1. pose proof (f_equal vm_config Hid) as H2.
  unfold identity_of. cbn [vm_id vm_name vm_image vm_digest vm_arch vm_created vm_config identity_of] in *.
  rewrite H1, H2. done.
Qed.

Lemma tracked_acquire v0 k s db fault rf n1 n2 id op :
  id = vm_id v0 → tracked v0 k s db → tracked v0 k s (snd (AcquireLock fault rf n1 n2 id op db)).
Proof.
  intros -> (Ho & vm & Hg & Hid & Hs). split; [eapply others_kept_trans; [exact Ho|apply others_kept_AcquireLock]|].
  destruct (GetVM_AcquireLock db k vm fault rf n1 n2 (vm_id v0) op Hg) as (b & a & E).
  eexists. split; [exact E|]. done.
Qed.

Lemma tracked_release v0 k s db fault :
  tracked v0 k s db → tracked v0 k s (snd (ReleaseLock fault (vm_id v0) db)).
Proof.
  intros (Ho & vm & Hg & Hid & Hs). split; [eapply others_kept_trans; [exact Ho|apply others_kept_ReleaseLock]|].
  destruct fault; [by exists vm|].
  rewrite <- (identity_id _ _ Hid). eexists. split; [by apply GetVM_ReleaseLock|]. done.
Qed.

(** ** Rules *)

Lemma dwp_store v0 k s s' vm db (Q : option error * VM → DB → Prop) :
  tracked v0 k s db → identity_of vm = identity_of v0 →
  (∀ e vm', identity_of vm' = identity_of v0 → vm_state vm' = s' → Q (Some e, vm') db) →
  (∀ db' vm', identity_of vm' = identity_of v0 → vm_state vm' = s' → tracked v0 k s' db' → Q (None, vm') db') →
  dwp (store_state vm s') Q db.
Proof.
  intros Ht Hi He Ho. apply dwp_update_vm. intros n t.
  destruct (env_db n) as [e|].
  - by apply He.
  - pose proof (tracked_update v0 k s db t (set_state vm s') Ht Hi) as Hu.
    apply (Ho (snd (UpdateVM None t (set_state vm s') db)) (set_updated (set_state vm s') t)); done.
Qed.

(** The outcome of a request [req] on a VM that was in state [s]. *)
Definition moves (v0 : VM) (k : string) (req : request) (s : VMState) {A} (_ : A) (db : DB) : Prop :=
  ∃ s', tracked v0 k s' db ∧ lifecycle req s s'.

Lemma moves_same v0 k req s db A (a : A) : tracked v0 k s db → moves v0 k req s a db.
Proof. intros Ht. exists s. split; [done|constructor]. Qed.

Lemma dwp_with_lock v0 k req s vm op body db :
  tracked v0 k s db → vm_id vm = vm_id v0 →
  (∀ db', tracked v0 k s db' → dwp body (moves v0 k req s) db') →
  dwp (with_lock (vm_id vm) op body) (moves v0 k req s) db.
Proof.
  intros Ht Hid Hb. unfold with_lock. apply pwp_bind, dwp_acquire_lock. intros n m p q.
  pose proof (tracked_acquire v0 k s db (env_db n) (env_rows m) (env_now p) (env_now q) (vm_id vm) op Hid Ht) as Ha.
  destruct (AcquireLock _ _ _ _ _ _ _) as [[e|] db']; simpl in *.
  - apply pwp_ret. by apply moves_same.
  - apply pwp_bind. eapply pwp_mono; [by apply Hb|]. intros r db'' (s' & Ht' & Hl).
    apply pwp_bind, dwp_release_lock. intros n'. apply pwp_ret. exists s'. split; [|done].
    rewrite Hid. by apply tracked_release.
Qed.

Lemma dwp_launch v0 op vm (Q : option error * VM → DB → Prop) db :
  identity_of vm = identity_of v0 →
  (∀ e vm', identity_of vm' = identity_of v0 → vm_state vm' = vm_state vm → Q (e, vm') db) →
  dwp (runtime_launch op vm) Q db.
Proof. intros Hi HQ w <-. apply HQ; [by rewrite <- Hi|done]. Qed.

Lemma dwp_start_runtime v0 vm image (Q : option error * VM → DB → Prop) db :
  identity_of vm = identity_of v0 →
  (∀ e vm', identity_of vm' = identity_of v0 → Q (e, vm') db) →
  dwp (startRuntimeAndSetupNetwork vm image) Q db.
Proof.
  intros Hi HQ. unfold startRuntimeAndSetupNetwork. apply pwp_bind, (dwp_launch v0); [done|].
  intros [e|] vm' Hi' _; [apply pwp_ret; auto|]. destruct (firecracker _ && _); [|apply pwp_ret; auto].
  apply pwp_bind, pwp_stable; [auto with go|]. intros [e|]; [|apply pwp_ret; auto].
  apply pwp_bind, pwp_stable; [auto with go|]. intros _. apply pwp_ret; auto.
Qed.

(** ** The handlers *)

Section Handler.
Context (v0 : VM) (k : string) (s : VMState).

(** A state was stored; whatever follows keeps the VM tracked. *)
Ltac stored := (eapply dwp_store; [eassumption | eassumption | intros | intros]).

Lemma dwp_performVMStart vm db :
  s ∈ [StateCreated; StateStopped] → tracked v0 k s db → identity_of vm = identity_of v0 →
  dwp (performVMStart vm) (moves v0 k ReqStart s) db.
Proof.
  intros Hs Ht Hi. unfold performVMStart.
  assert (Hm : ∀ s' db' {A} (a : A), s' ∈ [StateStarting; StateRunning; StateFailed] →
    tracked v0 k s' db' → moves v0 k ReqStart s a db').
  { intros s' db' A a Hs' Ht'. exists s'. split; [done|by apply lc_start]. }
  apply pwp_bind. stored; [by apply pwp_ret, moves_same|].
  apply pwp_bind, dwp_db_query. intros n.
  assert (Hfail : ∀ vm db, tracked v0 k StateStarting db → identity_of vm = identity_of v0 → ∀ e : option error,
    dwp (let* ' (_, vm) := store_state vm StateFailed in ret (e, vm)) (moves v0 k ReqStart s) db).
  { intros vm1 db1 Ht1 Hi1 e. apply pwp_bind. stored; apply pwp_ret; (eapply Hm; [|eassumption]; set_solver). }
  destruct (GetImage _ _ _) as [[image|]|err]; [|by apply Hfail..].
  apply pwp_bind. eapply dwp_start_runtime; [eassumption|]. intros [e|] vm2 Hi2; [by apply Hfail|].
  apply pwp_bind. stored; apply pwp_ret; (eapply Hm; [|eassumption]; set_solver).
Qed.

Lemma dwp_start vm db :
  tracked v0 k s db → identity_of vm = identity_of v0 → vm_state vm = s →
  dwp (start_vm vm) (moves v0 k ReqStart s) db.
Proof.
  intros Ht Hi Hs. unfold start_vm.
  case_bool_decide; [by apply pwp_ret, moves_same|].
  destruct (negb _ && negb _) eqn:E; [by apply pwp_ret, moves_same|].
  apply dwp_with_lock; [done|by apply identity_id|]. intros db' Ht'. apply pwp_bind.
  eapply pwp_mono; [apply dwp_performVMStart; [|done|done]|].
  - subst s. destruct (vm_state vm); try discriminate; set_solver.
  - intros [[e|] vm'] db'' Hm; by apply pwp_ret.
Qed.

Lemma dwp_stop t timeout vm db :
  tracked v0 k s db → identity_of vm = identity_of v0 → vm_state vm = s →
  dwp (stop_vm timeout vm) (moves v0 k (ReqStop t) s) db.
Proof.
  intros Ht Hi Hs. unfold stop_vm.
  case_bool_decide; [by apply pwp_ret, moves_same|].
  destruct (negb _ && negb _) eqn:E; [by apply pwp_ret, moves_same|].
  assert (Hm : ∀ s' db' {A} (a : A), s' ∈ [StateStopping; StateStopped; StateFailed] →
    tracked v0 k s' db' → moves v0 k (ReqStop t) s a db').
  { intros s' db' A a Hs' Ht'. exists s'. split; [done|]. apply lc_stop; [|done].
    subst s. destruct (vm_state vm); try discriminate; set_solver. }
  apply dwp_with_lock; [done|by apply identity_id|]. intros db' Ht'. unfold performVMStop.
  assert (Htail : ∀ s1 vm db (Q : option error * VM → DB → Prop), tracked v0 k s1 db → identity_of vm = identity_of v0 →
     (∀ e vm' s2 db', s2 = s1 ∨ s2 ∈ [StateStopping; StateStopped; StateFailed] → tracked v0 k s2 db' → Q (e, vm') db') →
     dwp (let* e := stopVMAndCleanup vm timeout in
       match e with
       | Some err => let* ' (_, vm) := store_state vm StateFailed in ret (Some err, vm)
       | None => let* ' (_, vm) := store_state (set_runtime vm None) StateStopped in ret (None, vm)
       end) Q db).
  { intros s1 vm1 db1 Q Ht1 Hi1 HQ. apply pwp_bind, pwp_stable.
    { unfold stopVMAndCleanup. solve_stable. }
    intros [e|]; apply pwp_bind; stored; apply pwp_ret; (eapply HQ; [|eassumption]; set_solver). }
  apply pwp_bind, pwp_bind. stored; (eapply Htail; [eassumption|eassumption|]).
  - intros [e'|] vm2 s2 db2 Hs2 Ht2; apply pwp_ret; (destruct Hs2 as [->|Hs2]; [by apply moves_same|by eapply Hm]).
  - intros [e'|] vm2 s2 db2 Hs2 Ht2; apply pwp_ret; (eapply Hm; [|eassumption]; set_solver).
Qed.

Lemma dwp_kill vm db :
  tracked v0 k s db → identity_of vm = identity_of v0 → vm_state vm = s →
  dwp (kill_vm vm) (moves v0 k ReqKill s) db.
Proof.
  intros Ht Hi Hs. unfold kill_vm. apply pwp_bind, pwp_stable; [solve_stable|]. intros _.
  apply pwp_bind. stored; apply pwp_ret; [by apply moves_same|].
  exists StateStopped. split; [done|constructor].
Qed.

(** Pause and resume share their shape. *)
Lemma dwp_transition req via back to op what fmt vm db :
  tracked v0 k back db → identity_of vm = identity_of v0 →
  lifecycle req back via → lifecycle req back to →
  dwp (transition_vm via back to op what fmt vm) (moves v0 k req back) db.
Proof.
  intros Ht Hi Hvia Hto. unfold transition_vm.
  assert (Hm : ∀ s' db' {A} (a : A), s' = via ∨ s' = to → tracked v0 k s' db' → moves v0 k req back a db').
  { intros s' db' A a Hs' Ht'. exists s'. split; [done|]. by destruct Hs' as [->| ->]. }
  apply pwp_bind. stored; [by apply pwp_ret, moves_same|].
  apply pwp_bind, pwp_stable; [auto with go|]. intros [err|]; apply pwp_bind; stored.
  - destruct (writeRuntimeUnsupportedError _ _ _); apply pwp_ret; (eapply Hm; [|eassumption]; auto).
  - destruct (writeRuntimeUnsupportedError _ _ _); apply pwp_ret; by apply moves_same.
  - apply pwp_ret. eapply Hm; [|eassumption]; auto.
  - apply pwp_ret. eapply Hm; [|eassumption]; auto.
Qed.

Lemma dwp_pause vm db :
  tracked v0 k s db → identity_of vm = identity_of v0 → vm_state vm = s →
  dwp (pause_vm vm) (moves v0 k ReqPause s) db.
Proof.
  intros Ht Hi Hs. unfold pause_vm. case_bool_decide as E; [|by apply pwp_ret, moves_same].
  assert (s = StateRunning) as -> by congruence.
  apply dwp_with_lock; [done|by apply identity_id|]. intros db' Ht'.
  apply dwp_transition; [done|done| |]; apply lc_pause; set_solver.
Qed.

Lemma dwp_resume_in_place b vm db :
  tracked v0 k s db → identity_of vm = identity_of v0 → vm_state vm = s →
  dwp (resume_in_place vm) (moves v0 k (ReqResume b) s) db.
Proof.
  intros Ht Hi Hs. unfold resume_in_place. case_bool_decide as E; [|by apply pwp_ret, moves_same].
  assert (s = StatePaused) as -> by congruence.
  apply dwp_with_lock; [done|by apply identity_id|]. intros db' Ht'.
  apply dwp_transition; [done|done| |]; apply lc_resume; set_solver.
Qed.

Lemma dwp_restore s1 s2 vm (Q : VM → DB → Prop) db :
  tracked v0 k s1 db → identity_of vm = identity_of v0 →
  (∀ s' vm' db', s' ∈ [s1; s2; StateFailed] → identity_of vm' = identity_of v0 → tracked v0 k s' db' → Q vm' db') →
  dwp (restore_state vm s2) Q db.
Proof.
  intros Ht Hi HQ. unfold restore_state. apply pwp_bind. stored.
  - apply pwp_bind. stored; apply pwp_ret; (eapply HQ; [|eassumption|eassumption]; set_solver).
  - apply pwp_ret. eapply HQ; [|eassumption|eassumption]; set_solver.
Qed.

Lemma dwp_load_snapshot id vm snapshot db :
  s ∈ [StateStopped; StateCreated; StateFailed] →
  tracked v0 k s db → identity_of vm = identity_of v0 → vm_state vm = s →
  dwp (load_snapshot vm snapshot) (moves v0 k (ReqResume (Body (Some id))) s) db.
Proof.
  intros Hs Ht Hi Hst. unfold load_snapshot. rewrite Hst.
  assert (Hm : ∀ s' db' {A} (a : A), s' = s ∨ s' ∈ [StateResuming; StateRunning; StateFailed] → tracked v0 k s' db' →
    moves v0 k (ReqResume (Body (Some id))) s a db').
  { intros s' db' A a [->|Hs'] Ht'; [by apply moves_same|]. exists s'. split; [done|by apply lc_load]. }
  assert (Hin : ∀ s', s' ∈ [StateResuming; s; StateFailed] → s' = s ∨ s' ∈ [StateResuming; StateRunning; StateFailed])
    by set_solver.
  apply pwp_bind. stored; [by apply pwp_ret, moves_same|].
  apply pwp_bind, (dwp_launch v0); [done|]. intros [err|] vm2 Hi2 _.
  - apply pwp_bind. eapply dwp_restore; [eassumption|eassumption|]. intros s' vm3 db3 Hs' Hi3 Ht3.
    destruct (writeRuntimeUnsupportedError _ _ _); apply pwp_ret; eauto.
  - apply pwp_bind. stored.
    + apply pwp_bind, pwp_stable; [auto with go|]. intros _. apply pwp_bind.
      eapply dwp_restore; [eassumption|by rewrite identity_runtime|]. intros s' vm3 db3 Hs' Hi3 Ht3.
      apply pwp_ret. eauto.
    + apply pwp_ret. eapply Hm; [|eassumption]. set_solver.
Qed.

Lemma stable_resolve vm snapshotID : db_stable (resolveResumableSnapshot vm snapshotID).
Proof.
  unfold resolveResumableSnapshot, checkSnapshotFilePresent, snapshotFileWithinManagedRoot, eval_symlinks.
  solve_stable.
Qed.

Lemma dwp_resume_snapshot id vm db :
  tracked v0 k s db → identity_of vm = identity_of v0 → vm_state vm = s →
  dwp (resumeVMFromSnapshot vm id) (moves v0 k (ReqResume (Body (Some id))) s) db.
Proof.
  intros Ht Hi Hst. unfold resumeVMFromSnapshot. rewrite Hst.
  destruct (decide (s ∈ [StateStopped; StateCreated; StateFailed])) as [Hs|Hs].
  2: { destruct s; try (by apply pwp_ret, moves_same); set_solver. }
  assert (Hb : dwp (with_lock (vm_id vm) "resume" (
        let* r := resolveResumableSnapshot vm id in
        match r with
        | inl r => ret r
        | inr snapshot =>
            let* e := ensureVMTapForResume vm in
            match e with
            | Some err => ret (internal_error (Sprintf "Failed to re-establish network for snapshot resume: %v" [AShow err]))
            | None => load_snapshot vm snapshot
            end
        end)) (moves v0 k (ReqResume (Body (Some id))) s) db); [|by destruct s; try set_solver].
  apply dwp_with_lock; [done|by apply identity_id|]. intros db' Ht'.
  apply pwp_bind, pwp_stable; [apply stable_resolve|]. intros [r|snapshot]; [by apply pwp_ret, moves_same|].
  apply pwp_bind, pwp_stable; [auto with go|]. intros [e|]; [by apply pwp_ret, moves_same|].
  by apply dwp_load_snapshot.
Qed.

Lemma dwp_exit c e vm db :
  tracked v0 k s db → identity_of vm = identity_of v0 → vm_state vm = s →
  dwp (if bool_decide (vm_state vm = StateRunning) || bool_decide (vm_state vm = StateStarting) then
         let* t := now in
         let* ' (_, vm) := update_vm (set_updated (set_state vm (exit_state c e)) t) in
         when (negb (String.eqb (n_mode (c_network (vm_config vm))) "none")) (cleanupVMNetwork vm)
       else ret tt) (moves v0 k (ReqExit c e) s) db.
Proof.
  intros Ht Hi Hst.
  destruct (bool_decide (vm_state vm = StateRunning) || bool_decide (vm_state vm = StateStarting)) eqn:E;
    [|by apply pwp_ret, moves_same].
  assert (Hs : s ∈ [StateRunning; StateStarting]).
  { subst s. apply orb_true_iff in E as [E|E]; apply bool_decide_eq_true in E; rewrite E; set_solver. }
  apply pwp_bind, pwp_stable; [apply stable_ask; apply _|]. intros t.
  apply pwp_bind. apply (dwp_store v0 k s (exit_state c e) (set_updated (set_state vm (exit_state c e)) t)); [done|done| |].
  - intros. apply pwp_stable; [apply stable_when; auto with go|]. intros a. by apply moves_same.
  - intros. apply pwp_stable; [apply stable_when; auto with go|]. intros a.
    exists (exit_state c e). split; [done|by apply lc_exit].
Qed.
End Handler.

(** The head of a handler: a fault of the lookup changes nothing; otherwise the
    body runs on the VM stored. *)
Lemma dwp_with_vm k vm req s (body : VM → M response) db :
  GetVM None k db = Ok (Some vm) → tracked vm k s db →
  dwp (body vm) (moves vm k req s) db → dwp (with_vm k body) (moves vm k req s) db.
Proof.
  intros Hg Ht Hb. unfold with_vm, get_vm. apply pwp_bind, dwp_db_query. intros n.
  destruct (env_db n); [by apply pwp_ret, moves_same|]. by rewrite Hg.
Qed.

Lemma dwp_by_path k vm req s what (m : M response) db :
  tracked vm k s db → dwp m (moves vm k req s) db → dwp (by_path what k m) (moves vm k req s) db.
Proof. intros Ht Hm. unfold by_path. destruct (String.eqb k ""); [by apply pwp_ret, moves_same|done]. Qed.

Lemma dwp_option k vm req s (m : M response) db :
  dwp m (moves vm k req s) db → dwp (let* a := m in ret (Some a)) (moves vm k req s) db.
Proof. intros Hm. apply pwp_bind. eapply pwp_mono; [exact Hm|]. intros a db' Ha. by apply pwp_ret. Qed.

Lemma dwp_handle req k vm db :
  GetVM None k db = Ok (Some vm) → tracked vm k (vm_state vm) db →
  dwp (handle req k) (moves vm k req (vm_state vm)) db.
Proof.
  intros Hg Ht.
  assert (Hw : ∀ (body : VM → M response), dwp (body vm) (moves vm k req (vm_state vm)) db →
    dwp (by_path "VM" k (with_vm k body)) (moves vm k req (vm_state vm)) db).
  { intros body Hb. apply dwp_by_path; [done|]. by apply dwp_with_vm. }
  destruct req as [|t| | |b|c e]; simpl; [apply dwp_option..|].
  - by apply Hw, dwp_start.
  - unfold handleVMStopByPath. destruct t; [by apply Hw, dwp_stop| |by apply Hw, dwp_stop].
    apply dwp_by_path; [done|by apply pwp_ret, moves_same].
  - by apply Hw, dwp_kill.
  - by apply Hw, dwp_pause.
  - apply Hw. destruct b as [| |[id|]]; [by apply dwp_resume_in_place|by apply pwp_ret, moves_same| |by apply dwp_resume_in_place].
    destruct (String.eqb id ""); [by apply pwp_ret, moves_same|by apply dwp_resume_snapshot].
  - apply pwp_bind. unfold handleVMProcessExit, get_vm. apply pwp_bind, dwp_db_query. intros n.
    destruct (env_db n); [by apply pwp_ret, pwp_ret, moves_same|]. rewrite Hg.
    eapply pwp_mono; [by apply dwp_exit|]. intros a db' Ha. by apply pwp_ret.
Qed.
End Spec.

(** ** Claims *)

(** C1: Every request on a VM, and the exit of its process, refines the
    lifecycle machine: whatever the database, the runtime, the file system and
    the host answer, the stored state moves along one of the machine's edges
    (start only from created or stopped, stop only from running or paused, pause
    only from running, resume only from paused or, with a snapshot, from a state
    without a live runtime), the VM keeps its identity, configuration and
    address, and no other VM, snapshot, image or job of the database is
    touched. *)
Theorem handle_refines_lifecycle `{Env} (req : request) (k : string) (w : World) (vm : VM)
    (Hvm : GetVM None k (w_db w) = Ok (Some vm)) :
  ∃ vm', GetVM None k (w_db (snd (handle req k w))) = Ok (Some vm') ∧
    lifecycle req (vm_state vm) (vm_state vm') ∧
    identity_of vm' = identity_of vm ∧
    others_kept (vm_id vm) (w_db w) (w_db (snd (handle req k w))).
Proof.
  assert (Ht : tracked (w_db w) vm k (vm_state vm) (w_db w)) by (split; [apply others_kept_refl|by exists vm]).
  destruct (dwp_handle (w_db w) req k vm (w_db w) Hvm Ht w eq_refl) as (s' & (Ho & vm' & Hg & Hi & Hs) & Hl).
  exists vm'. by rewrite Hs.
Qed.

Lemma handle_refines_lifecycle_witness :
  ∃ vm', GetVM None "web" (w_db (snd (@handle example_env ReqStart "web" (example_world StateStopped)))) = Ok (Some vm') ∧
    lifecycle ReqStart StateStopped (vm_state vm').
Proof.
  destruct (@handle_refines_lifecycle example_env ReqStart "web" (example_world StateStopped)
    (persisted (set_state (example_vm "id1" "web") StateStopped) None None) ltac:(vm_compute; reflexivity))
    as (vm' & Hg & Hl & _). exists vm'. split; [exact Hg|exact Hl].
Defined.
