(* ===== verification/LifecycleOutcome.v ===== *)
(** What a request on an unlocked VM comes to when the database works: the
    status answered and the state stored.  The runtime, the file system and the
    host may still fail in every way. *)

From stdpp Require Import sets.
From S2P Require Import Prelude GoStrings Types Storage Server VmResources VmLifecycle LifecycleSpec.

(** The pairs of status and stored state that a request on a VM in state [s] can
    end with. *)
Definition outcomes (req : request) (s : VMState) : list (Z * VMState) :=
  match req with
  | ReqStart =>
      match s with
      | StateRunning => [(200%Z, s)]
      | StateCreated | StateStopped => [(200%Z, StateRunning); (500%Z, StateFailed)]
      | _ => [(409%Z, s)]
      end
  | ReqStop BadBody => [(400%Z, s)]
  | ReqStop _ =>
      match s with
      | StateStopped => [(200%Z, s)]
      | StateRunning | StatePaused => [(200%Z, StateStopped); (500%Z, StateFailed)]
      | _ => [(409%Z, s)]
      end
  | ReqKill => [(200%Z, StateStopped)]
  | ReqPause =>
      match s with
      | StateRunning => [(200%Z, StatePaused); (500%Z, s); (501%Z, s)]
      | _ => [(409%Z, s)]
      end
  | ReqResume BadBody => [(400%Z, s)]
  | ReqResume (Body (Some id)) =>
      if String.eqb id "" then [(400%Z, s)]
      else match s with
      | StateStopped | StateCreated | StateFailed =>
          [(200%Z, StateRunning); (400%Z, s); (404%Z, s); (500%Z, s); (501%Z, s)]
      | _ => [(409%Z, s)]
      end
  | ReqResume _ =>
      match s with
      | StatePaused => [(200%Z, StateRunning); (500%Z, s); (501%Z, s)]
      | _ => [(409%Z, s)]
      end
  | ReqExit _ _ => []
  end.

Section Outcome.
Context `{Env}.
Hypothesis (Hdb : ∀ n, env_db n = None).
Hypothesis (Hrows : ∀ n, env_rows n = None).
Context (id k : string).

(** [k] finds the VM [id] in state [s], its lock held by [l]. *)
Definition stands (s : VMState) (l : option string) (db : DB) : Prop :=
  ∃ vm, GetVM None k db = Ok (Some vm) ∧ vm_id vm = id ∧ vm_state vm = s ∧ vm_locked_by vm = l.

(** A body answers with a status and leaves a state as the table says. *)
Definition ends (table : list (Z * VMState)) (l : option string) (r : response) (db : DB) : Prop :=
  ∃ s', stands s' l db ∧ (rs_status r, s') ∈ table.

Lemma dwp_store' s s' l vm db (Q : option error * VM → DB → Prop) :
  stands s l db → vm_id vm = id →
  (∀ db' vm', vm_id vm' = id → vm_state vm' = s' → stands s' l db' → Q (None, vm') db') →
  dwp (store_state vm s') Q db.
Proof.
  intros (old & Hg & Hi & _ & Hl) Hid HQ. apply dwp_update_vm. intros n t. rewrite Hdb.
  apply (HQ (snd (UpdateVM None t (set_state vm s') db)) (set_updated (set_state vm s') t)); [done|done|].
  eexists. split; [apply GetVM_UpdateVM; [exact Hg|simpl; congruence]|]. done.
Qed.

Lemma dwp_lock' s op vm body table db :
  stands s None db → vm_id vm = id →
  (∀ db', stands s (Some op) db' → dwp body (ends table (Some op)) db') →
  dwp (with_lock (vm_id vm) op body) (ends table None) db.
Proof.
  intros (old & Hg & Hi & Hs & Hl) Hid Hb. unfold with_lock.
  apply pwp_bind, dwp_acquire_lock. intros n m p q. rewrite Hdb, Hrows.
  destruct (AcquireLock_free db k old (env_now p) (env_now q) op Hg Hl) as [Ho Ha].
  rewrite Hid, <- Hi. destruct (AcquireLock _ _ _ _ _ _ _) as [e db']. simpl in Ho, Ha. subst e.
  apply pwp_bind. eapply pwp_mono; [apply Hb; by exists (set_vm_lock old (Some op) (Some (env_now p)))|].
  intros r db'' (s' & (vm' & Hg' & Hi' & Hs' & _) & Hin).
  apply pwp_bind, dwp_release_lock. intros n'. rewrite Hdb. apply pwp_ret.
  exists s'. split; [|done]. rewrite Hi, <- Hi'. eexists. split; [by apply GetVM_ReleaseLock|]. done.
Qed.

Ltac stored' := (eapply dwp_store'; [eassumption | try eassumption; done | intros ? ? ? ? ?]).
Ltac finish := (apply pwp_ret; eexists; split; [eassumption|]; simpl; set_solver).

Lemma dwp_launch' op vm (Q : option error * VM → DB → Prop) db :
  vm_id vm = id → (∀ e vm', vm_id vm' = id → Q (e, vm') db) → dwp (runtime_launch op vm) Q db.
Proof. intros Hi HQ w <-. by apply HQ. Qed.

Lemma dwp_start_runtime' vm image (Q : option error * VM → DB → Prop) db :
  vm_id vm = id → (∀ e vm', vm_id vm' = id → Q (e, vm') db) →
  dwp (startRuntimeAndSetupNetwork vm image) Q db.
Proof.
  intros Hi HQ. unfold startRuntimeAndSetupNetwork. apply pwp_bind, dwp_launch'; [done|].
  intros [e|] vm' Hi'; [apply pwp_ret; auto|]. destruct (firecracker _ && _); [|apply pwp_ret; auto].
  apply pwp_bind, pwp_stable; [auto with go|]. intros [e|]; [|apply pwp_ret; auto].
  apply pwp_bind, pwp_stable; [auto with go|]. intros _. apply pwp_ret; auto.
Qed.

Lemma start_settles vm db :
  stands (vm_state vm) None db → vm_id vm = id →
  dwp (start_vm vm) (ends (outcomes ReqStart (vm_state vm)) None) db.
Proof.
  intros Ht Hi. unfold start_vm.
  destruct (vm_state vm) eqn:Es; simpl; try finish;
    (unfold start_locked; apply (dwp_lock' _ _ _ _ _ _ Ht Hi); intros db' Ht';
     unfold performVMStart; apply pwp_bind, pwp_bind; stored';
     apply pwp_bind, dwp_db_query; intros n; rewrite Hdb;
     destruct (GetImage _ _ _) as [[image|]|err];
     [apply pwp_bind; apply dwp_start_runtime'; [done|]; intros [e|] vm2 Hi2|..];
     apply pwp_bind; stored'; apply pwp_ret; finish).
Qed.

Lemma stop_settles timeout vm db :
  stands (vm_state vm) None db → vm_id vm = id →
  dwp (stop_vm timeout vm) (ends (outcomes (ReqStop NoBody) (vm_state vm)) None) db.
Proof.
  intros Ht Hi. unfold stop_vm.
  destruct (vm_state vm) eqn:Es; simpl; try finish;
    (unfold stop_locked; apply (dwp_lock' _ _ _ _ _ _ Ht Hi); intros db' Ht';
     unfold performVMStop; apply pwp_bind, pwp_bind; stored';
     apply pwp_bind, pwp_stable; [unfold stopVMAndCleanup; solve_stable|]; intros [e|];
     apply pwp_bind; stored'; apply pwp_ret; finish).
Qed.

Lemma kill_settles vm db :
  stands (vm_state vm) None db → vm_id vm = id →
  dwp (kill_vm vm) (ends (outcomes ReqKill (vm_state vm)) None) db.
Proof.
  intros Ht Hi. unfold kill_vm. apply pwp_bind, pwp_stable; [solve_stable|]. intros _.
  apply pwp_bind. stored'. finish.
Qed.

Lemma unsupported_status op err d r : writeRuntimeUnsupportedError op err d = Some r → rs_status r = 501%Z.
Proof. unfold writeRuntimeUnsupportedError. destruct (negb _); [done|]. by intros [= <-]. Qed.

Lemma transition_settles via back to op what fmt lk vm db :
  stands back (Some lk) db → vm_id vm = id →
  dwp (transition_vm via back to op what fmt vm)
    (ends [(200%Z, to); (500%Z, back); (501%Z, back)] (Some lk)) db.
Proof.
  intros Ht Hi. unfold transition_vm. apply pwp_bind. stored'.
  apply pwp_bind, pwp_stable; [auto with go|]. intros [err|]; apply pwp_bind; stored'; [|finish].
  destruct (writeRuntimeUnsupportedError _ _ _) as [r|] eqn:E; [|finish].
  apply pwp_ret. eexists. split; [eassumption|]. rewrite (unsupported_status _ _ _ _ E). set_solver.
Qed.

Lemma pause_settles vm db :
  stands (vm_state vm) None db → vm_id vm = id →
  dwp (pause_vm vm) (ends (outcomes ReqPause (vm_state vm)) None) db.
Proof.
  intros Ht Hi. unfold pause_vm. destruct (vm_state vm) eqn:Es; simpl; try finish.
  apply (dwp_lock' _ _ _ _ _ _ Ht Hi). intros db' Ht'. by apply transition_settles.
Qed.

Lemma resume_settles vm db :
  stands (vm_state vm) None db → vm_id vm = id →
  dwp (resume_in_place vm) (ends (outcomes (ReqResume NoBody) (vm_state vm)) None) db.
Proof.
  intros Ht Hi. unfold resume_in_place. destruct (vm_state vm) eqn:Es; simpl; try finish.
  apply (dwp_lock' _ _ _ _ _ _ Ht Hi). intros db' Ht'. by apply transition_settles.
Qed.

Definition load_table (s : VMState) : list (Z * VMState) :=
  [(200%Z, StateRunning); (400%Z, s); (404%Z, s); (500%Z, s); (501%Z, s)].

Lemma dwp_restore' s1 s2 l vm (Q : VM → DB → Prop) db :
  stands s1 l db → vm_id vm = id →
  (∀ vm' db', vm_id vm' = id → stands s2 l db' → Q vm' db') → dwp (restore_state vm s2) Q db.
Proof. intros Ht Hi HQ. unfold restore_state. apply pwp_bind. stored'. apply pwp_ret. by apply HQ. Qed.

Lemma load_settles lk vm snapshot db :
  stands (vm_state vm) (Some lk) db → vm_id vm = id →
  dwp (load_snapshot vm snapshot) (ends (load_table (vm_state vm)) (Some lk)) db.
Proof.
  intros Ht Hi. unfold load_snapshot. apply pwp_bind. stored'.
  apply pwp_bind, dwp_launch'; [done|]. intros [err|] vm2 Hi2.
  - apply pwp_bind. eapply dwp_restore'; [eassumption|done|]. intros vm3 db3 Hi3 Ht3.
    destruct (writeRuntimeUnsupportedError _ _ _) as [r|] eqn:E; [|finish].
    apply pwp_ret. eexists. split; [eassumption|]. rewrite (unsupported_status _ _ _ _ E). set_solver.
  - apply pwp_bind. stored'. finish.
Qed.

(** A refused snapshot is answered with 400, 404 or 500, and the database is
    as it was. *)
Definition refused (db : DB) {A} (r : sum response A) (db' : DB) : Prop :=
  db' = db ∧ match r with inl r => rs_status r ∈ [400%Z; 404%Z; 500%Z] | inr _ => True end.

Lemma check_status sid kind path (Q : option response → DB → Prop) db :
  (∀ r, match r with Some r => rs_status r ∈ [404%Z; 500%Z] | None => True end → Q r db) →
  dwp (checkSnapshotFilePresent sid kind path) Q db.
Proof.
  intros HQ. unfold checkSnapshotFilePresent. apply pwp_bind, pwp_stable; [auto with go|].
  intros [info|err]; [destruct (negb _)|destruct (os_IsNotExist err)]; apply pwp_ret, HQ; simpl; done || set_solver.
Qed.

Lemma resolve_refused vm snapshotID db : dwp (resolveResumableSnapshot vm snapshotID) (refused db) db.
Proof.
  unfold resolveResumableSnapshot. apply pwp_bind, dwp_db_query. intros n. rewrite Hdb.
  assert (Hinl : ∀ r : response, rs_status r ∈ [400%Z; 404%Z; 500%Z] →
    dwp (ret (inl r) : M (sum response Snapshot)) (refused db) db).
  { intros r Hr. apply pwp_ret. by split. }
  destruct (GetSnapshot _ _ _) as [[sn|]|err]; [|apply Hinl; simpl; set_solver..].
  destruct (negb _); [apply Hinl; simpl; set_solver|].
  assert (Hs : ∀ p, db_stable (snapshotFileWithinManagedRoot p)).
  { intros p. unfold snapshotFileWithinManagedRoot, eval_symlinks. solve_stable. }
  apply pwp_bind, pwp_stable; [apply Hs|]. intros b1.
  apply pwp_bind, pwp_stable; [destruct b1; [apply Hs|apply stable_ret]|]. intros b2.
  destruct (negb b2); [apply Hinl; simpl; set_solver|].
  assert (H45 : ∀ z : Z, z ∈ [404%Z; 500%Z] → z ∈ [400%Z; 404%Z; 500%Z]) by set_solver.
  apply pwp_bind, check_status. intros [r|] Hr; [by apply Hinl, H45|].
  apply pwp_bind, check_status. intros [r2|] Hr2; [by apply Hinl, H45|].
  apply pwp_ret. by split.
Qed.

Lemma load_table_refused z s : z ∈ [400%Z; 404%Z; 500%Z] → (z, s) ∈ load_table s.
Proof.
  unfold load_table. rewrite !elem_of_cons. intros [->|[->|[->|[]%elem_of_nil]]]; tauto.
Qed.

Lemma resume_snapshot_settles snapshotID vm db :
  stands (vm_state vm) None db → vm_id vm = id → snapshotID ≠ "" →
  dwp (resumeVMFromSnapshot vm snapshotID)
    (ends (outcomes (ReqResume (Body (Some snapshotID))) (vm_state vm)) None) db.
Proof.
  intros Ht Hi Hne. apply String.eqb_neq in Hne. unfold resumeVMFromSnapshot, outcomes. rewrite Hne.
  assert (Hb : dwp (with_lock (vm_id vm) "resume" (
        let* r := resolveResumableSnapshot vm snapshotID in
        match r with
        | inl r => ret r
        | inr snapshot =>
            let* e := ensureVMTapForResume vm in
            match e with
            | Some err => ret (internal_error (Sprintf "Failed to re-establish network for snapshot resume: %v" [AShow err]))
            | None => load_snapshot vm snapshot
            end
        end)) (ends (load_table (vm_state vm)) None) db).
  { apply (dwp_lock' _ _ _ _ _ _ Ht Hi). intros db' Ht'. apply pwp_bind.
    eapply pwp_mono; [apply resolve_refused|]. intros [r|sn] db'' [-> Hr].
    - apply pwp_ret. exists (vm_state vm). split; [done|]. by apply load_table_refused.
    - apply pwp_bind, pwp_stable; [auto with go|]. intros [e|]; [|by apply load_settles].
      apply pwp_ret. exists (vm_state vm). split; [done|]. unfold load_table. set_solver. }
  unfold load_table in Hb. destruct (vm_state vm) eqn:Es; try exact Hb; finish.
Qed.

Lemma handle_settles req vm db :
  k ≠ "" → (∀ c e, req ≠ ReqExit c e) →
  GetVM None k db = Ok (Some vm) → vm_id vm = id → vm_locked_by vm = None →
  dwp (handle req k) (λ r db', match r with Some r => ends (outcomes req (vm_state vm)) None r db' | None => False end) db.
Proof.
  intros Hk Hreq Hg Hi Hl. apply String.eqb_neq in Hk.
  assert (Ht : stands (vm_state vm) None db) by (by exists vm).
  assert (Hw : ∀ (body : VM → M response) table, dwp (body vm) (ends table None) db →
    dwp (let* a := by_path "VM" k (with_vm k body) in ret (Some a))
      (λ r db', match r with Some r => ends table None r db' | None => False end) db).
  { intros body table Hb. apply pwp_bind. unfold by_path. rewrite Hk. unfold with_vm, get_vm.
    apply pwp_bind, dwp_db_query. intros n. rewrite Hdb, Hg. eapply pwp_mono; [exact Hb|].
    intros a db' Ha. by apply pwp_ret. }
  destruct req as [|t| | |b|c e]; cbn [handle].
  - by apply Hw, start_settles.
  - unfold handleVMStopByPath. destruct t; [by apply (Hw (stop_vm 30)), stop_settles| |by apply (Hw (stop_vm _)), stop_settles].
    apply pwp_bind. unfold by_path. rewrite Hk. do 2 apply pwp_ret. eexists. split; [done|]. simpl. set_solver.
  - by apply Hw, kill_settles.
  - by apply Hw, pause_settles.
  - apply Hw. destruct b as [| |[sid|]]; [by apply resume_settles| |simpl|by apply resume_settles].
    + finish.
    + destruct (String.eqb_spec sid ""); [finish|].
      pose proof (resume_snapshot_settles sid vm db Ht Hi n) as Hr. simpl in Hr.
      apply String.eqb_neq in n. by rewrite n in Hr.
  - by destruct (Hreq c e).
Qed.
End Outcome.

(** C2: When the database works, every request on an unlocked VM settles: it
    ends with the lock free and with one of the pairs of status and state of the
    table [outcomes], however the runtime, the file system and the host fail.  So
    200 is answered exactly with the state that was asked for, a failed start or
    stop marks the VM failed, a failed pause, resume or snapshot load puts the
    previous state back, a refused request changes nothing, and no VM is left on
    the way. *)
Theorem requests_settle `{Env} (req : request) (k : string) (w : World) (vm : VM)
    (Hdb : ∀ n, env_db n = None) (Hrows : ∀ n, env_rows n = None)
    (Hk : k ≠ "") (Hreq : ∀ c e, req ≠ ReqExit c e)
    (Hvm : GetVM None k (w_db w) = Ok (Some vm)) (Hfree : vm_locked_by vm = None) :
  ∃ r vm', fst (handle req k w) = Some r ∧
    GetVM None k (w_db (snd (handle req k w))) = Ok (Some vm') ∧
    vm_locked_by vm' = None ∧ (rs_status r, vm_state vm') ∈ outcomes req (vm_state vm).
Proof.
  pose proof (handle_settles Hdb Hrows (vm_id vm) k req vm (w_db w) Hk Hreq Hvm eq_refl Hfree w eq_refl) as Hs.
  simpl in Hs. destruct (fst (handle req k w)) as [r|]; [|done].
  destruct Hs as (s' & (vm' & Hg & _ & Hst & Hl) & Hin). exists r, vm'. by rewrite Hst.
Qed.

Lemma requests_settle_witness :
  ∃ r vm', fst (@handle example_env ReqPause "id1" (example_world StateRunning)) = Some r ∧
    GetVM None "id1" (w_db (snd (@handle example_env ReqPause "id1" (example_world StateRunning)))) = Ok (Some vm') ∧
    vm_locked_by vm' = None ∧ (rs_status r, vm_state vm') ∈ outcomes ReqPause StateRunning.
Proof.
  apply (@requests_settle example_env ReqPause "id1" (example_world StateRunning)
    (persisted (set_state (example_vm "id1" "web") StateRunning) None None));
    [intros n; reflexivity|intros n; reflexivity|discriminate|discriminate|vm_compute; reflexivity|reflexivity].
Defined.
