(* ===== verification/CreateSpec.v ===== *)
(** What creating a VM guarantees: a VM that is reported created is in the
    table, within the limits and with an identity when one is required; a request
    that is not leaves no VM and no address behind. *)

From stdpp Require Import gmap sets sorting.
From S2P Require Import Prelude GoStrings Types MountSecret HostNet Egress Ipam Storage VmConfig Server VmResources VmCreate.

(** * The address manager through the network set-up *)

(** The same VMs hold the same addresses; the free list may be reordered. *)
Definition ipam_same (i i' : IPAM) : Prop :=
  allocated i' = allocated i ∧ (available i' ≡ₚ available i).

(** [vmID] holds the address [ip], which was free. *)
Definition ipam_takes (vmID ip : string) (i i' : IPAM) : Prop :=
  allocated i' = <[vmID := ip]> (allocated i) ∧ ((ip :: available i') ≡ₚ available i).

(** What a set-up that succeeded leaves: no address in the configuration, or
    the address the VM now holds. *)
Definition net_ready (vmID : string) (i : IPAM) (n : NetworkConfig) (i' : IPAM) : Prop :=
  (n_ip n = "" ∧ ipam_same i i') ∨ (n_ip n ≠ "" ∧ ipam_takes vmID (n_ip n) i i').

Lemma ipam_same_refl i : ipam_same i i.
Proof. done. Qed.

Lemma ipam_release_taken vmID ip i i' :
  allocated i !! vmID = None → ipam_takes vmID ip i i' → ipam_same i (snd (ReleaseIP vmID i')).
Proof.
  intros Hn [Ha Hv]. unfold ReleaseIP. rewrite Ha, lookup_insert_eq. split; simpl.
  - by apply delete_insert_id.
  - rewrite <- Hv. symmetry. apply Permutation_cons_append.
Qed.

Lemma ipam_allocate_fresh vmID i :
  allocated i !! vmID = None →
  match AllocateIP vmID i with
  | (Ok ip, i') => ipam_takes vmID ip i i'
  | (Err _, i') => i' = i
  end.
Proof.
  intros Hn. unfold AllocateIP. rewrite Hn. destruct (available i) as [|ip rest] eqn:E; [done|].
  split; simpl; [done|]. by rewrite E.
Qed.

Section Addresses.
Context `{Env}.

Lemma iwp_ipam_do {A} (m : State IPAM A) (Q : A → IPAM → Prop) i :
  Q (fst (m i)) (snd (m i)) → iwp (ipam_do m) Q i.
Proof. intros HQ w <-. unfold ipam_do. by destruct (m (w_ipam w)). Qed.

Lemma iwp_undo_tap vmID ip tap (Q : unit → IPAM → Prop) i0 i :
  allocated i0 !! vmID = None → ipam_takes vmID ip i0 i → (∀ i', ipam_same i0 i' → Q tt i') →
  iwp (undo_tap vmID tap) Q i.
Proof.
  intros Hn Ht HQ. unfold undo_tap. apply pwp_bind, pwp_stable; [auto with go|]. intros _.
  apply iwp_ipam_do. destruct (fst _). apply HQ. by eapply ipam_release_taken.
Qed.

(** The outcome of the set-up for a VM that holds no address yet. *)
Definition setup_outcome (vmID : string) (i : IPAM) (r : option error * VMConfig) (i' : IPAM) : Prop :=
  match fst r with
  | Some _ => ipam_same i i'
  | None => net_ready vmID i (c_network (snd r)) i'
  end.

Lemma ip_pool_nonempty ip : ip ∈ ip_pool → ip ≠ "".
Proof. intros (z & -> & _)%list_elem_of_fmap. done. Qed.

Lemma iwp_setupVMNetworking vmID config i :
  ipam_inv i → allocated i !! vmID = None → n_ip (c_network config) = "" →
  iwp (setupVMNetworking vmID config) (setup_outcome vmID i) i.
Proof.
  intros Hinv Hn Hip. unfold setupVMNetworking.
  assert (Hskip : ∀ e, iwp (ret (e, config)) (setup_outcome vmID i) i).
  { intros e. apply pwp_ret. unfold setup_outcome. destruct e; simpl; [done|by left]. }
  destruct (negb (firecracker env_cfg)); [repeat case_match; apply Hskip|].
  destruct (_ =? _)%string; [apply Hskip|]. destruct (negb _); [apply Hskip|].
  apply pwp_bind, iwp_ipam_do. pose proof (ipam_allocate_fresh vmID i Hn) as Ha.
  destruct (AllocateIP vmID i) as [[ip|err] i1] eqn:Ea; cbn [fst snd]; [|subst i1; apply Hskip].
  assert (Hne : ip ≠ "").
  { apply ip_pool_nonempty. unfold ipam_inv in Hinv. rewrite <- Hinv. apply elem_of_app. left.
    destruct Ha as [_ Hv]. rewrite <- Hv. left. }
  assert (Hundo : ∀ tap e c, iwp (undo_tap vmID tap ;;; ret (Some e, c)) (setup_outcome vmID i) i1).
  { intros tap e c. apply pwp_bind. eapply iwp_undo_tap; [done|exact Ha|]. intros i' Hs. by apply pwp_ret. }
  apply pwp_bind, pwp_stable; [auto with go|]. intros [err|].
  { apply pwp_bind, iwp_ipam_do, pwp_ret. by eapply ipam_release_taken. }
  apply pwp_bind, pwp_stable; [auto with go|]. intros [err|]; [apply Hundo|].
  apply pwp_bind, pwp_stable; [destruct (_ =? _)%string; auto with go|]. intros [mac|err]; [|apply Hundo].
  apply pwp_bind, pwp_stable; [auto with go|]. intros [err|]; [apply Hundo|].
  apply pwp_ret. right. done.
Qed.

Lemma iwp_cleanupCreated vmID config i0 i (Q : unit → IPAM → Prop) :
  allocated i0 !! vmID = None → net_ready vmID i0 (c_network config) i →
  (∀ i', ipam_same i0 i' → Q tt i') →
  iwp (cleanupCreatedVMResources vmID config) Q i.
Proof.
  intros Hn Hr HQ. unfold cleanupCreatedVMResources, cleanup_egress_if_any, delete_tap_if_any, release_ip_if_any.
  do 3 (apply pwp_bind, pwp_stable; [solve_stable|]; intros _).
  destruct Hr as [[Hip Hs]|[Hip Ht]].
  - rewrite Hip. simpl. apply pwp_ret. by apply HQ.
  - apply String.eqb_neq in Hip. rewrite Hip. simpl. apply iwp_ipam_do.
    destruct (fst _). apply HQ. by eapply ipam_release_taken.
Qed.

(** The outcome of the whole request. *)
Definition create_addresses (i : IPAM) (r : response) (i' : IPAM) : Prop :=
  if (rs_status r =? 201)%Z then
    ∃ vm, rs_body r = BVM vm ∧ net_ready (vm_id vm) i (c_network (vm_config vm)) i'
  else ipam_same i i'.

Lemma iwp_registerSPIRE vmID req config i0 i (Q : sum response string → IPAM → Prop) :
  allocated i0 !! vmID = None → net_ready vmID i0 (c_network config) i →
  (∀ i', ipam_same i0 i' → Q (inl spire_unavailable) i') → (∀ id, Q (inr id) i) →
  iwp (registerSPIREForCreate vmID req config) Q i.
Proof.
  intros Hn Hr Hl Hq. unfold registerSPIREForCreate. apply pwp_bind.
  apply pwp_stable.
  { unfold registerSPIREWorkload. destruct env_spire as [service|]; [|apply stable_ret].
    destruct (negb _ || negb _); [apply stable_ret|]. apply stable_bind; [done|]. solve_stable. }
  intros [id|e]; [destruct (negb _ || negb _)|destruct (negb _)]; try (by apply pwp_ret);
    (apply pwp_bind; eapply iwp_cleanupCreated; [done|exact Hr|]; intros i' Hs; apply pwp_ret; auto).
Qed.

Lemma iwp_insert_vm vm i0 i :
  allocated i0 !! vm_id vm = None → net_ready (vm_id vm) i0 (c_network (vm_config vm)) i →
  iwp (insert_vm vm) (create_addresses i0) i.
Proof.
  intros Hn Hr. unfold insert_vm. apply pwp_bind, pwp_stable; [auto with go|].
  intros [e|]; [|apply pwp_ret; by exists vm].
  apply pwp_bind. eapply iwp_cleanupCreated; [done|exact Hr|]. intros i' Hs.
  apply pwp_bind, pwp_stable.
  { destruct env_spire; [|apply stable_ret]. apply stable_when, stable_bind; [done|]. solve_stable. }
  intros _. by apply pwp_ret.
Qed.

Lemma network_error_status e mode r : writeNetworkSetupError e mode = Some r → rs_status r = 400%Z.
Proof. unfold writeNetworkSetupError. repeat case_match; by intros [= <-]. Qed.

Lemma materialize_network dir vmID config (Q : result VMConfig → IPAM → Prop) i :
  (∀ e, Q (Err e) i) → (∀ ds, Q (Ok (set_disks config ds)) i) →
  iwp (materializeWritableRootDisks dir vmID config) Q i.
Proof.
  intros He Ho. unfold materializeWritableRootDisks. apply pwp_bind, pwp_stable.
  { induction (c_disks config) as [|d l IH]; simpl; [solve_stable|].
    unfold materialize_disk, filepath_Abs. solve_stable. }
  intros [ds|e]; apply pwp_ret; auto.
Qed.

Lemma iwp_provision req image vmID vmName config i :
  ipam_inv i → allocated i !! vmID = None → n_ip (c_network config) = "" →
  iwp (provision_vm req image vmID vmName config) (create_addresses i) i.
Proof.
  intros Hinv Hn Hip. unfold provision_vm. apply pwp_bind, materialize_network; [intros e; by apply pwp_ret|].
  intros ds. apply pwp_bind. eapply pwp_mono; [by apply iwp_setupVMNetworking|].
  intros [[e|] config'] i' Hs; unfold setup_outcome in Hs; simpl in Hs.
  - apply pwp_bind, pwp_stable; [auto with go|]. intros _.
    destruct (writeNetworkSetupError _ _) as [r|] eqn:E; apply pwp_ret; [|done].
    unfold create_addresses. by rewrite (network_error_status _ _ _ E).
  - apply pwp_bind, pwp_stable; [unfold now; auto with go|]. intros t.
    apply pwp_bind. eapply iwp_registerSPIRE; [done|exact Hs| |].
    + intros i2 Hs2. by apply pwp_ret.
    + intros id. by apply iwp_insert_vm.
Qed.

(** ** Up to the resources, the address manager is not used *)

Lemma stable_resolve_ipam imageRef : ipam_stable (resolveImageForCreate imageRef).
Proof. unfold resolveImageForCreate, validateAndResolveImage, lookup_image. solve_stable. Qed.

(** Any part: preparation ends with a refusal or with a configuration that is
    the built one but for forwards, mounts and secrets. *)
Definition prepared_config (image : Image) (req : CreateVMRequest) (config : VMConfig) : Prop :=
  ∃ out mounts secrets, config =
    set_secrets (set_mounts (set_network (buildVMConfig image req)
      (set_forwards (c_network (buildVMConfig image req)) out)) mounts) secrets.

Lemma prepared_config_no_ip image req config :
  prepared_config image req config → n_ip (c_network config) = "".
Proof. intros (out & m & s & ->). simpl. apply buildVMConfig_no_ip. Qed.

Lemma pwp_prepare {X} (π : World → X) `{!View π} image req (Q : sum response VMConfig → X → Prop) x :
  (∀ r, rs_status r ∈ [400%Z; 422%Z; 500%Z] → Q (inl r) x) →
  (∀ config n w, π w = x → prepared_config image req config →
     validateVMResourceLimits (cfg_limits env_cfg) config (ListVMs (env_query n) "" (w_db w)) = None →
     Q (inr config) x) →
  pwp π (prepareCreateVMConfig image req) Q x.
Proof.
  intros Hl Hr. unfold prepareCreateVMConfig.
  assert (Hbad : ∀ e, Q (inl (WriteError 400 ErrInvalidConfig (error_text e) [])) x).
  { intros e. apply Hl. simpl. set_solver. }
  apply pwp_bind, pwp_ask; [done|]. intros n0.
  destruct (fst (prepareVMPortForwards _ _)) as [config|e] eqn:Ep.
  2: { apply pwp_ret, Hl. unfold writePortForwardPreparationError. destruct (errors_As _ _); simpl; set_solver. }
  apply prepare_forwards_only in Ep as [out ->].
  destruct (NormalizeAndValidateMounts _) as [mounts|e]; [|by apply pwp_ret].
  destruct (NormalizeAndValidateSecrets _) as [secrets|e]; [|by apply pwp_ret].
  apply pwp_bind, pwp_rows; [done|]. intros n w Hw.
  destruct (validateVMResourceLimits _ _ _) eqn:Ev; apply pwp_ret.
  - apply Hl. simpl. set_solver.
  - eapply Hr; [exact Hw|by exists out, mounts, secrets|exact Ev].
Qed.

Lemma create_addresses_refused i r : rs_status r ≠ 201%Z → create_addresses i r i.
Proof. intros Hr. unfold create_addresses. apply Z.eqb_neq in Hr. by rewrite Hr. Qed.

Lemma not_created z : z ∈ [400%Z; 422%Z; 500%Z] → z ≠ 201%Z.
Proof. rewrite !elem_of_cons. intros [->|[->|[->|[]%elem_of_nil]]]; done. Qed.

Lemma reject_status req r : rejectInvalidSPIRECreateInputs req = Some r → rs_status r ≠ 201%Z.
Proof. unfold rejectInvalidSPIRECreateInputs. repeat case_match; by intros [= <-]. Qed.

(** A refused image is not a created VM. *)
Lemma pwp_resolve_status {X} (π : World → X) imageRef (Q : sum response (Image * string) → X → Prop) x :
  (pwp π (validateAndResolveImage imageRef) (λ r x', match r with
    | Ok p => Q (inr p) x'
    | Err _ => ∀ r, rs_status r ≠ 201%Z → Q (inl r) x'
    end) x) →
  pwp π (resolveImageForCreate imageRef) Q x.
Proof.
  intros Hv. unfold resolveImageForCreate. apply pwp_bind. eapply pwp_mono; [exact Hv|].
  intros [p|e] x' HQ; [by apply pwp_ret|]. destruct (errors_As _ _); by apply pwp_ret, HQ.
Qed.

Lemma iwp_create_new req i :
  ipam_inv i → (∀ n, allocated i !! env_uuid n = None) →
  iwp (create_new_vm req) (create_addresses i) i.
Proof.
  intros Hinv Hfresh. unfold create_new_vm.
  destruct (rejectInvalidSPIRECreateInputs req) as [r|] eqn:E.
  { apply pwp_ret, create_addresses_refused. by eapply reject_status. }
  apply pwp_bind, pwp_resolve_status, pwp_stable.
  { unfold validateAndResolveImage, lookup_image. solve_stable. }
  intros [[image digest]|e]; [|intros r Hr; by apply pwp_ret, create_addresses_refused].
  apply pwp_bind, pwp_ask; [apply _|]. intros n.
  apply pwp_bind, pwp_prepare; [apply _| |].
  - intros r Hr. by apply pwp_ret, create_addresses_refused, not_created.
  - intros config m w _ Hp _. apply iwp_provision; [done|apply Hfresh|by eapply prepared_config_no_ip].
Qed.

Lemma iwp_handleCreateVM request i :
  ipam_inv i → (∀ n, allocated i !! env_uuid n = None) →
  iwp (handleCreateVM request) (create_addresses i) i.
Proof.
  intros Hinv Hfresh. unfold handleCreateVM.
  destruct request as [req|]; [|by apply pwp_ret, create_addresses_refused].
  destruct (String.eqb (cr_image req) ""); [by apply pwp_ret, create_addresses_refused|].
  destruct (String.eqb (cr_name req) ""); [by apply iwp_create_new|].
  apply pwp_bind, pwp_stable; [unfold get_vm; auto with go|].
  intros [[vm|]|e]; [by apply pwp_ret, create_addresses_refused|by apply iwp_create_new|by apply pwp_ret, create_addresses_refused].
Qed.
End Addresses.

(** * The database *)

Section Rows.
Context `{Env}.

(** The limits of the server on one VM. *)
Definition fits (config : VMConfig) : Prop :=
  (c_vcpus config ≤ MaxVCPUsPerVM (cfg_limits env_cfg))%Z ∧ (c_memory config ≤ MaxMemoryPerVMMiB (cfg_limits env_cfg))%Z.

(** The row a created VM adds. *)
Definition created_row (db : DB) (vm : VM) (db' : DB) : Prop :=
  t_vms db' = t_vms db ++ [vm_row vm] ∧
  (vm_id vm ∉ (r_id <$> t_vms db)) ∧ (vm_name vm ∉ (r_name <$> t_vms db)) ∧
  vm_state vm = StateCreated ∧ fits (vm_config vm) ∧
  ((∀ n, env_query n = QueryOk) → (Z.of_nat (length (t_vms db)) < MaxVMs (cfg_limits env_cfg))%Z) ∧
  (spireRequired = true → vm_spiffe vm ≠ "").

Definition create_rows (db : DB) (r : response) (db' : DB) : Prop :=
  t_snapshots db' = t_snapshots db ∧
  if (rs_status r =? 201)%Z then ∃ vm, rs_body r = BVM vm ∧ created_row db vm db'
  else t_vms db' = t_vms db.

Lemma create_rows_refused db r db' :
  rs_status r ≠ 201%Z → t_vms db' = t_vms db → t_snapshots db' = t_snapshots db → create_rows db r db'.
Proof. intros Hr. unfold create_rows. apply Z.eqb_neq in Hr. by rewrite Hr. Qed.

Lemma CreateVM_cases fault vm db :
  match CreateVM fault vm db with
  | (Some _, db') => db' = db
  | (None, db') => t_vms db' = t_vms db ++ [vm_row vm] ∧ t_snapshots db' = t_snapshots db ∧
      (vm_id vm ∉ (r_id <$> t_vms db)) ∧ (vm_name vm ∉ (r_name <$> t_vms db))
  end.
Proof.
  unfold CreateVM. destruct fault; [done|].
  destruct (existsb _ (t_vms db)) eqn:E1; [done|].
  destruct (existsb (λ r, String.eqb (r_name r) (vm_name vm)) (t_vms db)) eqn:E2; [done|].
  apply eqb_neq_existsb in E1, E2. done.
Qed.

Lemma collect_length {A B} (f : A → result B) l bs : collect f l = Ok bs → length bs = length l.
Proof.
  revert bs. induction l as [|a l IH]; simpl; intros bs; [by intros [= <-]|].
  destruct (f a); simpl; [|done]. destruct (collect f l); simpl; [|done].
  intros [= <-]. simpl. by rewrite (IH _ eq_refl).
Qed.

Lemma ListVMs_length db vms : ListVMs QueryOk "" db = Ok vms → length vms = length (t_vms db).
Proof.
  unfold ListVMs. simpl. intros Hc%collect_length. rewrite Hc. apply Permutation_length, merge_sort_Permutation.
Qed.

Lemma limits_ok config q db :
  validateVMResourceLimits (cfg_limits env_cfg) config (ListVMs q "" db) = None →
  fits config ∧ (q = QueryOk → (Z.of_nat (length (t_vms db)) < MaxVMs (cfg_limits env_cfg))%Z).
Proof.
  unfold validateVMResourceLimits.
  destruct (_ <? c_vcpus config)%Z eqn:E1; [done|]. destruct (_ <? c_memory config)%Z eqn:E2; [done|].
  destruct (ListVMs q "" db) as [vms|] eqn:El; [|done]. destruct (_ <=? _)%Z eqn:E3; [done|]. intros _.
  apply Z.ltb_ge in E1, E2. apply Z.leb_gt in E3. split; [by split|]. intros ->.
  by rewrite <- (ListVMs_length db vms).
Qed.

Lemma materialize_fits dir vmID config (Q : result VMConfig → DB → Prop) db :
  (∀ e, Q (Err e) db) → (∀ ds, Q (Ok (set_disks config ds)) db) →
  dwp (materializeWritableRootDisks dir vmID config) Q db.
Proof.
  intros He Ho. unfold materializeWritableRootDisks. apply pwp_bind, pwp_stable.
  { induction (c_disks config) as [|d l IH]; simpl; [solve_stable|].
    unfold materialize_disk, filepath_Abs. solve_stable. }
  intros [ds|e]; apply pwp_ret; auto.
Qed.

(** The network set-up touches neither the database nor the sizes. *)
Lemma dwp_setupVMNetworking vmID config (Q : option error * VMConfig → DB → Prop) db :
  (∀ e c, c_vcpus c = c_vcpus config → c_memory c = c_memory config → Q (e, c) db) →
  dwp (setupVMNetworking vmID config) Q db.
Proof.
  intros HQ. unfold setupVMNetworking, undo_tap.
  destruct (negb _); [repeat case_match; apply pwp_ret; by apply HQ|].
  destruct (_ =? _)%string; [apply pwp_ret; by apply HQ|]. destruct (negb _); [apply pwp_ret; by apply HQ|].
  apply pwp_bind, pwp_stable; [auto with go|]. intros [ip|e]; [|apply pwp_ret; by apply HQ].
  apply pwp_bind, pwp_stable; [auto with go|]. intros [e|].
  { apply pwp_bind, pwp_stable; [auto with go|]. intros _. apply pwp_ret; by apply HQ. }
  assert (Hu : ∀ e c, c_vcpus c = c_vcpus config → c_memory c = c_memory config →
    dwp ((host_do (DeleteTAPDevice (tap_name vmID)) ;;; ipam_do (ReleaseIP vmID)) ;;; ret (Some e, c)) Q db).
  { intros e c H1 H2. apply pwp_bind, pwp_stable; [solve_stable|]. intros _. apply pwp_ret; by apply HQ. }
  apply pwp_bind, pwp_stable; [auto with go|]. intros [e|]; [by apply Hu|].
  apply pwp_bind, pwp_stable; [destruct (_ =? _)%string; auto with go|]. intros [mac|e]; [|by apply Hu].
  apply pwp_bind, pwp_stable; [auto with go|]. intros [e|]; [by apply Hu|]. apply pwp_ret; by apply HQ.
Qed.

Lemma dwp_registerSPIRE vmID req config (Q : sum response string → DB → Prop) db :
  Q (inl spire_unavailable) db → (∀ id, (spireRequired = true → id ≠ "") → Q (inr id) db) →
  dwp (registerSPIREForCreate vmID req config) Q db.
Proof.
  intros Hl Hr. unfold registerSPIREForCreate. apply pwp_bind, pwp_stable.
  { unfold registerSPIREWorkload. destruct env_spire as [service|]; [|apply stable_ret].
    destruct (negb _ || negb _); [apply stable_ret|]. apply stable_bind; [done|]. solve_stable. }
  assert (Hc : dwp (cleanupCreatedVMResources vmID config ;;; ret (inl spire_unavailable)) Q db).
  { apply pwp_bind, pwp_stable; [auto with go|]. intros _. by apply pwp_ret. }
  intros [id|e]; destruct spireRequired eqn:Es; simpl; try exact Hc.
  - destruct (String.eqb_spec id ""); simpl; [exact Hc|]. apply pwp_ret, Hr. by intros _.
  - apply pwp_ret, Hr. done.
  - apply pwp_ret, Hr. done.
Qed.

Lemma dwp_insert_vm db0 vm db :
  t_vms db = t_vms db0 → t_snapshots db = t_snapshots db0 →
  vm_state vm = StateCreated → fits (vm_config vm) →
  ((∀ n, env_query n = QueryOk) → (Z.of_nat (length (t_vms db0)) < MaxVMs (cfg_limits env_cfg))%Z) →
  (spireRequired = true → vm_spiffe vm ≠ "") →
  dwp (insert_vm vm) (create_rows db0) db.
Proof.
  intros Hv Hsn Hst Hf Hc Hsp. unfold insert_vm. apply pwp_bind, dwp_db_exec. intros n.
  pose proof (CreateVM_cases (env_db n) vm db) as Hcase.
  destruct (CreateVM (env_db n) vm db) as [[e|] db1]; cbn [fst snd].
  - subst db1. apply pwp_bind, pwp_stable; [auto with go|]. intros _. apply pwp_bind, pwp_stable.
    { destruct env_spire; [|apply stable_ret]. apply stable_when, stable_bind; [done|]. solve_stable. }
    intros _. by apply pwp_ret, create_rows_refused.
  - destruct Hcase as (Hv1 & Hs1 & Hi & Hn). apply pwp_ret. split; [congruence|]. simpl.
    exists vm. split; [done|]. rewrite Hv in *. by split.
Qed.

Lemma dwp_provision db0 req image vmID vmName config db :
  t_vms db = t_vms db0 → t_snapshots db = t_snapshots db0 → fits config →
  ((∀ n, env_query n = QueryOk) → (Z.of_nat (length (t_vms db0)) < MaxVMs (cfg_limits env_cfg))%Z) →
  dwp (provision_vm req image vmID vmName config) (create_rows db0) db.
Proof.
  intros Hv Hsn [Hf1 Hf2] Hc. unfold provision_vm.
  apply pwp_bind, materialize_fits; [intros e; by apply pwp_ret, create_rows_refused|]. intros ds.
  apply pwp_bind, dwp_setupVMNetworking. intros [e|] c H1 H2; simpl in H1, H2.
  - apply pwp_bind, pwp_stable; [auto with go|]. intros _.
    destruct (writeNetworkSetupError _ _) as [r|] eqn:E; apply pwp_ret, create_rows_refused; try done.
    by rewrite (network_error_status _ _ _ E).
  - apply pwp_bind, pwp_stable; [unfold now; auto with go|]. intros t.
    apply pwp_bind, dwp_registerSPIRE; [by apply pwp_ret, create_rows_refused|].
    intros id Hid. apply dwp_insert_vm; try done. split; simpl; congruence.
Qed.

Lemma dwp_create_new req db : dwp (create_new_vm req) (create_rows db) db.
Proof.
  unfold create_new_vm. destruct (rejectInvalidSPIRECreateInputs req) as [r|] eqn:E.
  { apply pwp_ret, create_rows_refused; [by eapply reject_status|done|done]. }
  apply pwp_bind, pwp_resolve_status.
  assert (Hok : ∀ image digest db', t_vms db' = t_vms db → t_snapshots db' = t_snapshots db →
    dwp match @inr response (Image * string) (image, digest) with
        | inl r => ret r
        | inr (image, _) =>
            let* vmID := ask env_uuid in
            let vmName := if (cr_name req =? "")%string then vmID else cr_name req in
            let* r := prepareCreateVMConfig image req in
            match r with
            | inl r => ret r
            | inr config => provision_vm req image vmID vmName config
            end
        end (create_rows db) db').
  { intros image digest db' Hv Hs. apply pwp_bind, pwp_ask; [apply _|]. intros n.
    apply pwp_bind, pwp_prepare; [apply _| |].
    - intros r Hr. apply pwp_ret, create_rows_refused; [by apply not_created|done|done].
    - intros config m w <- _ Hlim. apply limits_ok in Hlim as [Hf Hc]. apply dwp_provision; try done.
      intros Hq. rewrite <- Hv. auto. }
  assert (Hbad : ∀ r db', t_vms db' = t_vms db → t_snapshots db' = t_snapshots db → rs_status r ≠ 201%Z →
    dwp (ret r) (create_rows db) db') by (intros; by apply pwp_ret, create_rows_refused).
  unfold validateAndResolveImage. apply pwp_bind.
  apply pwp_stable; [unfold lookup_image; solve_stable|].
  intros [[image|]|e]; [apply pwp_ret; by apply (Hok image (img_digest image))| |apply pwp_ret; intros r Hr; by apply Hbad].
  destruct env_image_provider as [provider|]; [|apply pwp_ret; intros r Hr; by apply Hbad].
  apply pwp_bind, pwp_ask; [apply _|]. intros n.
  destruct (provider n (cr_image req)) as [[image|]|e]; try (apply pwp_ret; intros r Hr; by apply Hbad).
  apply pwp_bind, dwp_db_exec. intros n2. unfold UpsertImage.
  destruct (env_db n2) as [e|]; apply pwp_ret; [intros r Hr; by apply Hbad|by apply (Hok image (img_digest image))].
Qed.

Lemma dwp_handleCreateVM request db : dwp (handleCreateVM request) (create_rows db) db.
Proof.
  unfold handleCreateVM. destruct request as [req|]; [|by apply pwp_ret, create_rows_refused].
  destruct (String.eqb (cr_image req) ""); [by apply pwp_ret, create_rows_refused|].
  destruct (String.eqb (cr_name req) ""); [by apply dwp_create_new|].
  apply pwp_bind, pwp_stable; [unfold get_vm; auto with go|].
  intros [[vm|]|e]; [by apply pwp_ret, create_rows_refused|by apply dwp_create_new|by apply pwp_ret, create_rows_refused].
Qed.
End Rows.

(** * Claims *)

(** C3: A request answered with 201 has created exactly one VM: its row is
    added to the table under an id and a name nobody had, in state created,
    within the vCPU and memory limits and (when the count of VMs could be read)
    within the number of VMs; when SPIRE is required it has an identity; and the
    address in its configuration, if any, was free before and is now held by
    it. *)
Theorem handleCreateVM_created `{Env} (request : option CreateVMRequest) (w : World)
    (Hinv : ipam_inv (w_ipam w)) (Hfresh : ∀ n, allocated (w_ipam w) !! env_uuid n = None)
    (Hstatus : rs_status (fst (handleCreateVM request w)) = 201%Z) :
  let w' := snd (handleCreateVM request w) in
  ∃ vm, rs_body (fst (handleCreateVM request w)) = BVM vm ∧
    t_vms (w_db w') = t_vms (w_db w) ++ [vm_row vm] ∧
    (vm_id vm ∉ (r_id <$> t_vms (w_db w))) ∧ (vm_name vm ∉ (r_name <$> t_vms (w_db w))) ∧
    vm_state vm = StateCreated ∧ fits (vm_config vm) ∧
    ((∀ n, env_query n = QueryOk) → (Z.of_nat (length (t_vms (w_db w))) < MaxVMs (cfg_limits env_cfg))%Z) ∧
    (spireRequired = true → vm_spiffe vm ≠ "") ∧
    net_ready (vm_id vm) (w_ipam w) (c_network (vm_config vm)) (w_ipam w').
Proof.
  destruct (dwp_handleCreateVM request (w_db w) w eq_refl) as [_ Hr].
  pose proof (iwp_handleCreateVM request (w_ipam w) Hinv Hfresh w eq_refl) as Ha.
  unfold create_addresses in Ha. rewrite Hstatus in Hr, Ha. simpl in Hr, Ha.
  destruct Hr as (vm & Hb & Hv & Hi & Hn & Hs & Hf & Hc & Hsp).
  destruct Ha as (vm' & Hb' & Hnet). rewrite Hb in Hb'. injection Hb' as <-.
  exists vm. do 8 (split; [assumption|]). assumption.
Qed.

(** C4: A create request that is not answered with 201, for whatever reason
    and at whatever step it failed, leaves no VM and no address behind: the
    table of VMs is as before, every VM holds the address it held, and the free
    addresses are the same (their order may differ). *)
Theorem handleCreateVM_leaves_nothing `{Env} (request : option CreateVMRequest) (w : World)
    (Hinv : ipam_inv (w_ipam w)) (Hfresh : ∀ n, allocated (w_ipam w) !! env_uuid n = None)
    (Hstatus : rs_status (fst (handleCreateVM request w)) ≠ 201%Z) :
  let w' := snd (handleCreateVM request w) in
  t_vms (w_db w') = t_vms (w_db w) ∧ t_snapshots (w_db w') = t_snapshots (w_db w) ∧
  allocated (w_ipam w') = allocated (w_ipam w) ∧ (available (w_ipam w') ≡ₚ available (w_ipam w)).
Proof.
  destruct (dwp_handleCreateVM request (w_db w) w eq_refl) as [Hs Hr].
  pose proof (iwp_handleCreateVM request (w_ipam w) Hinv Hfresh w eq_refl) as Ha.
  unfold create_addresses in Ha. apply Z.eqb_neq in Hstatus. rewrite Hstatus in Hr, Ha.
  destruct Ha. by repeat split.
Qed.

Definition example_request : option CreateVMRequest := Some (mkCreateReq "db" "img:latest" None "" "" None).

Lemma handleCreateVM_created_witness :
  ∃ vm, rs_body (fst (@handleCreateVM example_env example_request (example_world StateStopped))) = BVM vm ∧
    vm_state vm = StateCreated.
Proof.
  destruct (@handleCreateVM_created example_env example_request (example_world StateStopped)
    ipam_inv_New (λ n, lookup_empty _) ltac:(vm_compute; reflexivity)) as (vm & Hb & _ & _ & _ & Hs & _).
  exists vm. split; [exact Hb|exact Hs].
Defined.

(** The TAP device of the new VM cannot be created. *)
Definition no_tap_env : Env :=
  calm_env example_cfg (scripted_host [Cmd "ip" ["tuntap"; "add"; "tap-00000002"; "mode"; "tap"]] "") (λ _, None) no_files None.

Lemma handleCreateVM_leaves_nothing_witness :
  rs_status (fst (@handleCreateVM no_tap_env example_request (example_world StateStopped))) = 500%Z ∧
  allocated (w_ipam (snd (@handleCreateVM no_tap_env example_request (example_world StateStopped)))) = ∅.
Proof.
  split; [vm_compute; reflexivity|].
  exact (proj1 (proj2 (proj2 (@handleCreateVM_leaves_nothing no_tap_env example_request (example_world StateStopped)
    ipam_inv_New (λ n, lookup_empty _) ltac:(vm_compute; discriminate))))).
Defined.
