(* ===== verification/DeleteSpec.v ===== *)
(** Deleting a VM, and the exit of its process: what becomes of the row and of
    the address. *)

From stdpp Require Import gmap sets.
From S2P Require Import Prelude GoStrings Types PortForward Ipam Storage Server VmResources VmCreate VmLifecycle LifecycleSpec.

Lemma find_sql_delete {A} (q p : A → bool) (t : list A) r :
  List.find q t = Some r → p r = false → List.find q (sql_delete p t) = Some r.
Proof.
  unfold sql_delete. induction t as [|x t IH]; simpl; [done|]. rewrite filter_cons.
  destruct (q x) eqn:Eq.
  - intros [= ->] Hp. rewrite decide_True by done. simpl. by rewrite Eq.
  - intros Hf Hp. case_decide; simpl; [rewrite Eq|]; auto.
Qed.

(** What [DeleteVM] leaves of the table. *)
Lemma DeleteVM_rows fk id db :
  (∀ r, r ∈ t_vms (snd (DeleteVM None fk id db)) → r_id r ≠ id) ∧
  (∀ k vm, vm_id vm ≠ id → GetVM None k db = Ok (Some vm) → GetVM None k (snd (DeleteVM None fk id db)) = Ok (Some vm)).
Proof.
  assert (Hv : t_vms (snd (DeleteVM None fk id db)) = sql_delete (λ r, String.eqb (r_id r) id) (t_vms db)) by by destruct fk.
  rewrite Hv. split.
  - intros r [Hr _]%list_elem_of_filter. by apply String.eqb_neq.
  - intros k vm Hne. rewrite !GetVM_find, Hv.
    destruct (List.find (matches k) (t_vms db)) as [r|] eqn:E; [|done]. simpl. intros Hs.
    destruct (scan_vm r) as [o|] eqn:Es; [|done]. simpl in Hs. simplify_eq.
    rewrite (find_sql_delete _ _ _ r E); [by rewrite Es|].
    apply scan_vm_fields in Es as [Hi _]. apply String.eqb_neq. congruence.
Qed.

Section Delete.
Context `{Env}.

(** The database after an attempt to delete [vm]. *)
Definition delete_rows (vm : VM) (k : string) (db : DB) (r : response) (db' : DB) : Prop :=
  (∀ k2 vm2, vm_id vm2 ≠ vm_id vm → GetVM None k2 db = Ok (Some vm2) → GetVM None k2 db' = Ok (Some vm2)) ∧
  if (rs_status r =? 204)%Z then ∀ row, row ∈ t_vms db' → r_id row ≠ vm_id vm
  else tracked db vm k (vm_state vm) db'.

Lemma delete_kept vm k db r db' :
  rs_status r ≠ 204%Z → tracked db vm k (vm_state vm) db' → delete_rows vm k db r db'.
Proof.
  intros Hr Ht. split; [by destruct Ht as [[Hk _ _ _ _] _]|].
  apply Z.eqb_neq in Hr. by rewrite Hr.
Qed.

Lemma dwp_delete_locked vm k db db1 :
  tracked db vm k (vm_state vm) db1 →
  dwp (delete_locked vm) (λ r db', if (rs_status r =? 204)%Z
    then (∀ row, row ∈ t_vms db' → r_id row ≠ vm_id vm) ∧
         (∀ k2 vm2, vm_id vm2 ≠ vm_id vm → GetVM None k2 db = Ok (Some vm2) → GetVM None k2 db' = Ok (Some vm2))
    else tracked db vm k (vm_state vm) db') db1.
Proof.
  intros Ht. unfold delete_locked.
  apply pwp_bind, pwp_stable; [destruct (_ && _); auto with go|]. intros [e|]; [by apply pwp_ret|].
  apply pwp_bind, pwp_stable; [auto with go|]. intros [e|]; [by apply pwp_ret|].
  apply pwp_bind, pwp_stable.
  { destruct env_spire; [|apply stable_ret]. apply stable_when, stable_bind; [done|]. solve_stable. }
  intros _. apply pwp_bind, pwp_stable; [auto with go|]. intros _.
  apply pwp_bind, pwp_ask; [apply _|]. intros n. apply pwp_bind, dwp_db_exec. intros n2.
  destruct (env_db n2) as [e|]; [by apply pwp_ret|].
  destruct (DeleteVM_rows (env_fk n) (vm_id vm) db1) as [H1 H2].
  destruct (DeleteVM None (env_fk n) (vm_id vm) db1) as [[e|] db2] eqn:Ed; [by unfold DeleteVM in Ed|].
  apply pwp_ret. simpl in *. split; [done|]. intros k2 vm2 Hne Hg. apply H2; [done|].
  destruct Ht as [[Hk _ _ _ _] _]. by apply Hk.
Qed.

Lemma dwp_delete vm k db :
  GetVM None k db = Ok (Some vm) →
  dwp (with_lock (vm_id vm) "delete" (delete_locked vm)) (delete_rows vm k db) db.
Proof.
  intros Hg. assert (Ht : tracked db vm k (vm_state vm) db) by (split; [apply others_kept_refl|by exists vm]).
  unfold with_lock. apply pwp_bind, dwp_acquire_lock. intros n m p q.
  pose proof (tracked_acquire db vm k (vm_state vm) db (env_db n) (env_rows m) (env_now p) (env_now q) (vm_id vm) "delete" eq_refl Ht) as Ha.
  destruct (AcquireLock _ _ _ _ _ _ _) as [[e|] db1]; cbn [fst snd] in *; [by apply pwp_ret, delete_kept|].
  apply pwp_bind. eapply pwp_mono; [by apply dwp_delete_locked|]. intros r db2 Hr. cbn beta in Hr.
  apply pwp_bind, dwp_release_lock. intros n'. apply pwp_ret. unfold delete_rows.
  destruct (rs_status r =? 204)%Z eqn:Es.
  - destruct Hr as [H1 H2]. destruct (others_kept_ReleaseLock (env_db n') (vm_id vm) db2) as [Hk _ _ _ _].
    split; [intros k2 vm2 Hne Hg2; apply Hk; auto|].
    destruct (env_db n') as [e|]; [done|]. simpl.
    intros row (r0 & Hr0 & ->)%elem_of_sql_update. specialize (H1 r0 Hr0).
    by destruct (String.eqb (r_id r0) (vm_id vm)).
  - pose proof (tracked_release db vm k (vm_state vm) db2 (env_db n') Hr) as Ht2.
    split; [by destruct Ht2 as [[Hk _ _ _ _] _]|done].
Qed.

(** The manager after the address of [id] went back to the end of the free
    list; nothing changes when [id] held none. *)
Definition released (id : string) (i : IPAM) : IPAM :=
  mkIPAM (delete id (allocated i)) (available i ++ option_list (allocated i !! id)).

Lemma ReleaseIP_released id i : snd (ReleaseIP id i) = released id i.
Proof.
  unfold ReleaseIP, released. destruct (allocated i !! id) eqn:E; simpl; [done|].
  rewrite delete_id by done. rewrite app_nil_r. by destruct i.
Qed.

(** The addresses: given back, or not touched (an attempt that ends early). *)
Definition delete_addresses (vm : VM) (i : IPAM) (r : response) (i' : IPAM) : Prop :=
  (i' = i ∨ i' = released (vm_id vm) i) ∧
  (rs_status r = 204%Z →
     i' = if String.eqb (n_ip (c_network (vm_config vm))) "" then i else released (vm_id vm) i).

Lemma ReleaseIP_lookup id i : allocated (snd (ReleaseIP id i)) !! id = None.
Proof. rewrite ReleaseIP_released. apply lookup_delete_eq. Qed.

Lemma iwp_release_if_any vm i (Q : unit → IPAM → Prop) :
  Q tt (if String.eqb (n_ip (c_network (vm_config vm))) "" then i else released (vm_id vm) i) →
  iwp (release_ip_if_any (vm_id vm) (c_network (vm_config vm))) Q i.
Proof.
  intros HQ. unfold release_ip_if_any. destruct (String.eqb (n_ip (c_network (vm_config vm))) "") eqn:E; simpl.
  - by apply pwp_ret.
  - intros w <-. unfold ipam_do. rewrite <- ReleaseIP_released in HQ.
    by destruct (ReleaseIP (vm_id vm) (w_ipam w)) as [[] i'].
Qed.

Lemma iwp_delete_locked vm i : iwp (delete_locked vm) (delete_addresses vm i) i.
Proof.
  unfold delete_locked.
  apply pwp_bind, pwp_stable; [destruct (_ && _); auto with go|]. intros [e|]; [by apply pwp_ret; split; [left|]|].
  apply pwp_bind, pwp_stable; [auto with go|]. intros [e|]; [by apply pwp_ret; split; [left|]|].
  apply pwp_bind, pwp_stable.
  { destruct env_spire; [|apply stable_ret]. apply stable_when, stable_bind; [done|]. solve_stable. }
  intros _. apply pwp_bind. unfold cleanupDeletedVMResources.
  do 3 (apply pwp_bind, pwp_stable; [unfold cleanup_egress_if_any, delete_tap_if_any; solve_stable|]; intros _).
  apply pwp_bind, iwp_release_if_any.
  apply pwp_bind, pwp_stable; [auto with go|]. intros _. apply pwp_ret.
  apply pwp_bind, pwp_stable; [auto with go|]. intros fk.
  apply pwp_bind, pwp_stable; [auto with go|]. intros [e|]; apply pwp_ret;
    (split; [case_match; [by left|by right]|done]).
Qed.

Lemma iwp_delete vm i : iwp (with_lock (vm_id vm) "delete" (delete_locked vm)) (delete_addresses vm i) i.
Proof.
  unfold with_lock. apply pwp_bind, pwp_stable; [unfold acquire_lock, now; solve_stable|].
  intros [e|]; [by apply pwp_ret; split; [left|]|]. apply pwp_bind. eapply pwp_mono; [apply iwp_delete_locked|]. intros r i' Hr.
  apply pwp_bind, pwp_stable; [unfold release_lock; auto with go|]. intros _. by apply pwp_ret.
Qed.

(** A handler on an existing VM: the lookup fails and nothing happens, or the
    body runs. *)
Lemma with_vm_run k vm (body : VM → M response) w :
  GetVM None k (w_db w) = Ok (Some vm) →
  let w1 := mkWorld (w_db w) (w_ipam w) (w_cmds w) (w_log w) (S (w_tick w)) in
  with_vm k body w = (internal_error (Text "Failed to get VM"), w1) ∨ with_vm k body w = body vm w1.
Proof.
  intros Hg. unfold with_vm, get_vm, db_query, bind. destruct (env_db (w_tick w)); [by left|].
  right. by rewrite Hg.
Qed.
End Delete.

(** * Exit of the process *)

Section Exit.
Context `{Env}.
Hypothesis (Hdb : ∀ n, env_db n = None).

Definition runs (vm : VM) : Prop := vm_state vm = StateRunning ∨ vm_state vm = StateStarting.

Lemma dwp_process_exit k vm c e db :
  GetVM None k db = Ok (Some vm) → runs vm →
  dwp (handleVMProcessExit k c e) (λ _ db', ∃ vm', GetVM None k db' = Ok (Some vm') ∧
    vm_state vm' = exit_state c e ∧ vm_config vm' = vm_config vm ∧ vm_id vm' = vm_id vm) db.
Proof.
  intros Hg Hr. unfold handleVMProcessExit, get_vm. apply pwp_bind, dwp_db_query. intros n. rewrite Hdb, Hg.
  assert (bool_decide (vm_state vm = StateRunning) || bool_decide (vm_state vm = StateStarting) = true) as ->
    by (destruct Hr as [-> | ->]; done).
  apply pwp_bind, pwp_ask; [apply _|]. intros m. apply pwp_bind, dwp_update_vm. intros n2 t. rewrite Hdb.
  destruct (UpdateVM None t _ db) as [[e' vm'] db'] eqn:Eu.
  apply pwp_stable; [apply stable_when; auto with go|]. intros a.
  pose proof (GetVM_UpdateVM db k t (set_updated (set_state vm (exit_state c e)) (env_now m)) vm Hg eq_refl) as Hu.
  rewrite Eu in Hu. eexists. split; [exact Hu|]. done.
Qed.

Lemma ReleaseIP_available id ip i :
  allocated i !! id = Some ip → ip ∈ available (snd (ReleaseIP id i)).
Proof. intros E. unfold ReleaseIP. rewrite E. simpl. apply elem_of_app. right. by left. Qed.

Lemma iwp_cleanupVMNetwork vm ip i :
  n_ip (c_network (vm_config vm)) = ip → ip ≠ "" → allocated i !! vm_id vm = Some ip →
  iwp (cleanupVMNetwork vm) (λ _ i', ip ∈ available i' ∧ allocated i' !! vm_id vm = None) i.
Proof.
  intros Hip Hne Ha. unfold cleanupVMNetwork, release_ip_if_any. rewrite Hip.
  apply String.eqb_neq in Hne. rewrite Hne. simpl when.
  apply pwp_bind, pwp_stable; [auto with go|]. intros _.
  apply pwp_bind. intros w <-. unfold ipam_do.
  pose proof (ReleaseIP_available (vm_id vm) ip (w_ipam w) Ha) as H1. pose proof (ReleaseIP_lookup (vm_id vm) (w_ipam w)) as H2.
  destruct (ReleaseIP (vm_id vm) (w_ipam w)) as [[] i']. cbn [fst snd w_ipam] in *.
  apply pwp_bind, pwp_stable; [solve_stable|]. intros _.
  apply pwp_stable; [unfold cleanup_egress_if_any; solve_stable|]. by intros _.
Qed.

Lemma iwp_update_vm vm (Q : option error * VM → IPAM → Prop) i :
  (∀ e t, Q (e, set_updated vm t) i) → iwp (update_vm vm) Q i.
Proof.
  intros HQ w <-. unfold update_vm, now, ask, db_exec, bind. cbn [w_db w_tick w_ipam]. unfold UpdateVM.
  destruct (env_db _); apply HQ.
Qed.

Lemma process_exit_address k vm c e ip w :
  GetVM None k (w_db w) = Ok (Some vm) → runs vm → n_mode (c_network (vm_config vm)) ≠ "none" →
  n_ip (c_network (vm_config vm)) = ip → ip ≠ "" → allocated (w_ipam w) !! vm_id vm = Some ip →
  let i' := w_ipam (snd (handleVMProcessExit k c e w)) in
  ip ∈ available i' ∧ allocated i' !! vm_id vm = None.
Proof.
  intros Hg Hr Hm Hip Hne Ha. unfold handleVMProcessExit, get_vm, db_query. rewrite bind_unfold, Hdb, Hg.
  assert (bool_decide (vm_state vm = StateRunning) || bool_decide (vm_state vm = StateStarting) = true) as ->
    by (destruct Hr as [-> | ->]; done).
  set (w1 := mkWorld _ _ _ _ _).
  assert (Hw : iwp (let* t := now in
    let* ' (_, vm0) := update_vm (set_updated (set_state vm (exit_state c e)) t) in
    when (negb (String.eqb (n_mode (c_network (vm_config vm0))) "none")) (cleanupVMNetwork vm0))
    (λ _ i', ip ∈ available i' ∧ allocated i' !! vm_id vm = None) (w_ipam w)); [|by apply (Hw w1)].
  apply pwp_bind, pwp_ask; [apply _|]. intros n. apply pwp_bind, iwp_update_vm. intros e' t.
  apply String.eqb_neq in Hm. simpl vm_config. rewrite Hm. simpl.
  by apply (iwp_cleanupVMNetwork (set_updated (set_updated (set_state vm (exit_state c e)) (env_now n)) t)).
Qed.
End Exit.

(** * Claims *)

(** C7: Deleting a VM.  Answered with 204, no row with its id is left, and if
    it is stored with an address, the manager holds none for it any more: the one
    it held for it, if any, is free again, at the end of the free list, and the
    list is otherwise as it was.  Answered otherwise, the VM is still stored with
    its state, configuration and identity; its address may have been given back.
    Either way every other VM is found as before and holds the address it held. *)
Theorem handleDeleteVM_spec `{Env} (k : string) (w : World) (vm : VM)
    (Hvm : GetVM None k (w_db w) = Ok (Some vm)) :
  let '(r, w') := handleDeleteVM k w in
  (rs_status r = 204%Z →
     (∀ row, row ∈ t_vms (w_db w') → r_id row ≠ vm_id vm) ∧
     if String.eqb (n_ip (c_network (vm_config vm))) "" then w_ipam w' = w_ipam w
     else allocated (w_ipam w') = delete (vm_id vm) (allocated (w_ipam w)) ∧
          available (w_ipam w') = available (w_ipam w) ++ option_list (allocated (w_ipam w) !! vm_id vm)) ∧
  (rs_status r ≠ 204%Z →
     (∃ vm', GetVM None k (w_db w') = Ok (Some vm') ∧ identity_of vm' = identity_of vm ∧ vm_state vm' = vm_state vm) ∧
     (w_ipam w' = w_ipam w ∨ w_ipam w' = released (vm_id vm) (w_ipam w))) ∧
  (∀ k2 vm2, vm_id vm2 ≠ vm_id vm → GetVM None k2 (w_db w) = Ok (Some vm2) → GetVM None k2 (w_db w') = Ok (Some vm2)) ∧
  (∀ id, id ≠ vm_id vm → allocated (w_ipam w') !! id = allocated (w_ipam w) !! id).
Proof.
  unfold handleDeleteVM.
  destruct (with_vm_run k vm (λ vm, with_lock (vm_id vm) "delete" (delete_locked vm)) w Hvm) as [E|E]; rewrite E.
  { split; [done|]. split; [intros _; split; [by exists vm|by left]|]. done. }
  set (w1 := mkWorld _ _ _ _ _).
  pose proof (dwp_delete vm k (w_db w) Hvm w1 eq_refl) as [Hk Hr].
  pose proof (iwp_delete vm (w_ipam w) w1 eq_refl) as [Ho Ha].
  destruct (with_lock _ _ _ w1) as [r w']. cbn [fst snd] in *.
  assert (Hothers : ∀ id, id ≠ vm_id vm → allocated (w_ipam w') !! id = allocated (w_ipam w) !! id).
  { intros id Hne. destruct Ho as [-> | ->]; [done|]. apply lookup_delete_ne. congruence. }
  destruct (rs_status r =? 204)%Z eqn:Es.
  - apply Z.eqb_eq in Es. split; [|split; [congruence|done]].
    intros _. split; [done|]. rewrite (Ha Es). by destruct (String.eqb _ _).
  - apply Z.eqb_neq in Es. destruct Hr as (_ & vm' & Hg & Hi & Hs).
    split; [congruence|]. split; [intros _; split; [by exists vm'|done]|]. done.
Qed.

(** When the process of a networked VM exits, its address goes back to the
    free list although the stored configuration keeps it and the VM can be
    started again with it: from then on the address manager may give the address
    to another VM. *)
Theorem exit_frees_address_still_configured `{Env} (k : string) (c : option Z) (e : option error) (w : World)
    (vm : VM) (ip : string)
    (Hdb : ∀ n, env_db n = None) (Hvm : GetVM None k (w_db w) = Ok (Some vm)) (Hrun : runs vm)
    (Hmode : n_mode (c_network (vm_config vm)) ≠ "none")
    (Hip : n_ip (c_network (vm_config vm)) = ip) (Hne : ip ≠ "")
    (Hheld : allocated (w_ipam w) !! vm_id vm = Some ip) :
  let w' := snd (handleVMProcessExit k c e w) in
  ip ∈ available (w_ipam w') ∧ allocated (w_ipam w') !! vm_id vm = None ∧
  ∃ vm', GetVM None k (w_db w') = Ok (Some vm') ∧ vm_state vm' = exit_state c e ∧
    n_ip (c_network (vm_config vm')) = ip.
Proof.
  destruct (process_exit_address Hdb k vm c e ip w Hvm Hrun Hmode Hip Hne Hheld) as [H1 H2].
  destruct (dwp_process_exit Hdb k vm c e (w_db w) Hvm Hrun w eq_refl) as (vm' & Hg & Hs & Hc & _).
  split; [done|]. split; [done|]. exists vm'. by rewrite Hc.
Qed.

(** * Scenarios *)

(** A running VM with the address [ip]. *)
Definition networked_vm (id name ip : string) (s : VMState) : VM :=
  mkVM id name s "img:latest" "sha256:1" "x86_64"
    (mkConfig 2 512 "console=ttyS0" "" (mkNet "nat" ("tap-" +:+ id) "AA:FC:00:00:00:01" None ip "172.16.0.1" "255.255.255.0" [] None) [] [] [])
    (Some (mkRt 4242 "firecracker" "" "/run/vm.sock" "" None)) 10 10 None None "" "" "".

(** The VM [id1] runs with the first address; the 244 others are held. *)
Definition full_ipam : IPAM :=
  ipam_run (OpAllocate "id1" :: ((λ n, OpAllocate ("other" +:+ fmt_d n)) <$> seqZ 0 244)) NewIPAM.

Definition full_world : World :=
  mkWorld (mkDB [vm_row (networked_vm "id1" "web" "172.16.0.10" StateRunning)] [] [image_row example_image] [] [])
    full_ipam [] [] 0.

Lemma handleDeleteVM_spec_witness :
  rs_status (fst (@handleDeleteVM example_env "web" full_world)) = 204%Z ∧
  available (w_ipam (snd (@handleDeleteVM example_env "web" full_world))) = ["172.16.0.10"].
Proof.
  pose proof (@handleDeleteVM_spec example_env "web" full_world
    (persisted (networked_vm "id1" "web" "172.16.0.10" StateRunning) None None) ltac:(vm_compute; reflexivity)) as Hs.
  assert (H204 : rs_status (fst (@handleDeleteVM example_env "web" full_world)) = 204%Z) by (vm_compute; reflexivity).
  assert (Hfree : available (w_ipam full_world) ++ option_list (allocated (w_ipam full_world) !! "id1") = ["172.16.0.10"])
    by (vm_compute; reflexivity).
  destruct (@handleDeleteVM example_env "web" full_world) as [r w']. cbn [fst snd] in *.
  split; [exact H204|]. destruct Hs as [Hs _]. destruct (Hs H204) as [_ [_ Hav]]. rewrite Hav. exact Hfree.
Defined.

Lemma exit_frees_address_still_configured_witness :
  let w' := snd (@handleVMProcessExit example_env "web" (Some 0%Z) None full_world) in
  "172.16.0.10" ∈ available (w_ipam w') ∧ allocated (w_ipam w') !! "id1" = None.
Proof.
  destruct (@exit_frees_address_still_configured example_env "web" (Some 0%Z) None full_world
    (persisted (networked_vm "id1" "web" "172.16.0.10" StateRunning) None None) "172.16.0.10"
    (λ _, eq_refl) ltac:(vm_compute; reflexivity) (or_introl eq_refl) ltac:(discriminate) eq_refl ltac:(discriminate)
    ltac:(vm_compute; reflexivity)) as (H1 & H2 & _).
  split; [exact H1|exact H2].
Defined.

(** The state and the address of the VM [k]. *)
Definition state_and_address (k : string) (w : World) : option (VMState * string) :=
  match GetVM None k (w_db w) with
  | Ok (Some vm) => Some (vm_state vm, n_ip (c_network (vm_config vm)))
  | _ => None
  end.

Definition clash_world : World :=
  let w := snd (@handleVMProcessExit example_env "web" (Some 0%Z) None full_world) in
  let w := snd (@handleCreateVM example_env (Some (mkCreateReq "db" "img:latest" None "" "" None)) w) in
  let w := snd (@handleVMStartByPath example_env "web" w) in
  snd (@handleVMStartByPath example_env "db" w).

(** The consequence, on a run: the process of a VM exits, another VM is
    created, and both are started; every step succeeds and two running VMs have
    the address 172.16.0.10. *)
Theorem two_running_vms_share_an_address :
  state_and_address "web" clash_world = Some (StateRunning, "172.16.0.10") ∧
  state_and_address "db" clash_world = Some (StateRunning, "172.16.0.10").
Proof. split; vm_compute; reflexivity. Qed.
