(* ===== verification/SafetySpec.v ===== *)
(** Safety of the handlers: a locked VM is left alone, only managed files are
    loaded or removed, deletion is complete, output is bounded; and the
    behaviours where the code falls short of that. *)

From stdpp Require Import gmap sets.
From S2P Require Import Prelude GoStrings Paths Types HostNet Egress PortForward Ipam Storage Server VmResources VmCreate VmLifecycle Snapshots LifecycleSpec.

(** * What a computation logs

    [logs P m R]: [m] only adds events that satisfy [P] to the log, and its
    result satisfies [R]. *)

Section Logs.
Context `{Env}.

Definition logs {A} (P : event → Prop) (m : M A) (R : A → Prop) : Prop :=
  ∀ w, R (fst (m w)) ∧ ∃ new, w_log (snd (m w)) = w_log w ++ new ∧ Forall P new.

Implicit Types (P : event → Prop).

Lemma logs_ret {A} P (a : A) (R : A → Prop) : R a → logs P (ret a) R.
Proof. intros HR w. split; [done|]. exists []. by rewrite app_nil_r. Qed.

Lemma logs_bind {A B} P (m : M A) (k : A → M B) (R : A → Prop) (R' : B → Prop) :
  logs P m R → (∀ a, R a → logs P (k a) R') → logs P (bind m k) R'.
Proof.
  intros Hm Hk w. unfold bind. destruct (Hm w) as (HR & n1 & E1 & F1). destruct (m w) as [a w1]. simpl in *.
  destruct (Hk a HR w1) as (HR' & n2 & E2 & F2). split; [done|]. exists (n1 ++ n2).
  rewrite E2, E1, app_assoc. split; [done|]. by apply Forall_app.
Qed.

Lemma logs_mono {A} P (m : M A) (R R' : A → Prop) : logs P m R → (∀ a, R a → R' a) → logs P m R'.
Proof. intros Hm HR w. destruct (Hm w) as [H1 H2]. auto. Qed.

Lemma logs_quiet {A} P (m : M A) : (∀ w, w_log (snd (m w)) = w_log w) → logs P m (λ _, True).
Proof. intros Hq w. split; [done|]. exists []. by rewrite app_nil_r. Qed.

Lemma logs_quiet_any {A} P (m : M A) R : (∀ w, w_log (snd (m w)) = w_log w) → (∀ a, R a) → logs P m R.
Proof. intros Hq HR. eapply logs_mono; [by apply logs_quiet|auto]. Qed.

Lemma logs_event P ev : P ev → logs P (record ev) (λ _, True).
Proof. intros HP w. split; [done|]. exists [ev]. split; [done|]. by apply Forall_singleton. Qed.

Lemma logs_runtime P op vm : (∀ r, P (EvRuntime op (vm_id vm) r)) → logs P (runtime op vm) (λ _, True).
Proof. intros HP w. split; [done|]. eexists [_]. split; [done|]. by apply Forall_singleton. Qed.

Lemma logs_launch P op vm :
  (∀ r, P (EvRuntime op (vm_id vm) r)) → logs P (runtime_launch op vm) (λ r, vm_id (snd r) = vm_id vm).
Proof. intros HP w. split; [done|]. eexists [_]. split; [done|]. by apply Forall_singleton. Qed.

Lemma logs_fs P op : (∀ r, P (EvFs op r)) → logs P (fs op) (λ _, True).
Proof. intros HP w. split; [done|]. eexists [_]. split; [done|]. by apply Forall_singleton. Qed.

Lemma logs_fs_do P op : (∀ r, P (EvFs op r)) → logs P (fs_do op) (λ _, True).
Proof. intros HP. eapply logs_bind; [by apply logs_fs|]. intros. by apply logs_ret. Qed.

Lemma quiet_update vm w : w_log (snd (update_vm vm w)) = w_log w.
Proof.
  unfold update_vm, now, ask, db_exec, bind. cbn [w_log w_db w_tick].
  by destruct (UpdateVM _ _ _ _) as [[??]?].
Qed.
Lemma logs_update P vm : logs P (update_vm vm) (λ r, vm_id (snd r) = vm_id vm).
Proof.
  intros w. split; [|exists []; rewrite app_nil_r; split; [apply quiet_update|done]].
  unfold update_vm, now, ask, db_exec, bind. cbn [w_log w_db w_tick]. unfold UpdateVM. by destruct (env_db _).
Qed.
Lemma logs_store P vm s : logs P (store_state vm s) (λ r, vm_id (snd r) = vm_id vm).
Proof. exact (logs_update P (set_state vm s)). Qed.

Lemma quiet_host {A} (m : State (list cmd_event) A) w : w_log (snd (host_do m w)) = w_log w.
Proof. unfold host_do. by destruct (m _). Qed.
Lemma quiet_ipam {A} (m : State IPAM A) w : w_log (snd (ipam_do m w)) = w_log w.
Proof. unfold ipam_do. by destruct (m _). Qed.
Lemma quiet_exec {A} (f : option error → State DB A) w : w_log (snd (db_exec f w)) = w_log w.
Proof. unfold db_exec. by destruct (f _ _). Qed.
Lemma quiet_acquire id op w : w_log (snd (acquire_lock id op w)) = w_log w.
Proof. unfold acquire_lock, now, ask, db_exec, bind. cbn [w_log w_db w_tick]. by destruct (AcquireLock _ _ _ _ _ _ _). Qed.

Lemma logs_with_lock P id op body R :
  logs P body (λ _, True) → (∀ r, R r) → logs P (with_lock id op body) R.
Proof.
  intros Hb HR. unfold with_lock. eapply logs_bind; [apply logs_quiet, quiet_acquire|].
  intros [e|] _; [by apply logs_ret|]. eapply logs_bind; [exact Hb|]. intros r _.
  eapply logs_bind; [apply logs_quiet, quiet_exec|]. intros _ _. by apply logs_ret.
Qed.

Lemma logs_with_vm P k body :
  (∀ vm, logs P (body vm) (λ _, True)) → logs P (with_vm k body) (λ _, True).
Proof.
  intros Hb. unfold with_vm, get_vm. eapply logs_bind; [by apply logs_quiet|].
  intros [[vm|]|e] _; [apply Hb|by apply logs_ret..].
Qed.

Lemma logs_by_path P what k m : logs P m (λ _, True) → logs P (by_path what k m) (λ _, True).
Proof. intros Hm. unfold by_path. destruct (String.eqb k ""); [by apply logs_ret|done]. Qed.
End Logs.

(** * Snapshot files *)

Section Files.
Context `{Env}.

Definition snapshots_root : string := path_clean (filepath_join [dataDir; "snapshots"]).

(** The path lies in the managed tree, symbolic links aside. *)
Definition managed_path (p : string) : Prop := within_lexical snapshots_root (path_clean p) = true.

(** A runtime call that loads a snapshot loads managed files. *)
Definition loads_managed (ev : event) : Prop :=
  match ev with
  | EvRuntime (RtLoadSnapshot snap mem) _ _ => managed_path snap ∧ managed_path mem
  | _ => True
  end.

(** What is removed from the file system lies in the managed tree. *)
Definition removes_managed (ev : event) : Prop :=
  match ev with
  | EvFs (FsRemoveAll p) _ => within_lexical snapshots_root p = true
  | _ => True
  end.

Lemma logs_fs_info P op (R : result fs_info → Prop) : (∀ r, P (EvFs op r)) → (∀ r, R r) → logs P (fs op) R.
Proof. intros HP HR. eapply logs_mono; [by apply logs_fs|auto]. Qed.

Lemma logs_within P p :
  (∀ q r, P (EvFs (FsEvalSymlinks q) r)) →
  logs P (snapshotFileWithinManagedRoot p) (λ b, b = true → managed_path p).
Proof.
  intros HP. unfold snapshotFileWithinManagedRoot, eval_symlinks. fold snapshots_root.
  destruct (within_lexical snapshots_root (path_clean p)) eqn:E; simpl; [|by apply logs_ret].
  assert (Hany : ∀ b : bool, logs P (ret b) (λ b, b = true → managed_path p)) by (intros b; by apply logs_ret).
  assert (He : ∀ q, logs P (let* r := fs (FsEvalSymlinks q) in
      match r with Err err => ret (Err err) | Ok i => ret (Ok (fi_path i)) end) (λ _ : result string, True)).
  { intros q. eapply logs_bind; [by apply logs_fs|]. intros [i|e] _; by apply logs_ret. }
  eapply logs_bind; [apply He|]. intros [rr|e] _; [|apply Hany].
  eapply logs_bind; [apply He|]. intros [rd|e] _; apply Hany.
Qed.

Lemma logs_check P sid kind path :
  (∀ r, P (EvFs (FsLstat path) r)) → logs P (checkSnapshotFilePresent sid kind path) (λ _, True).
Proof.
  intros HP. unfold checkSnapshotFilePresent. eapply logs_bind; [by apply logs_fs|].
  intros [i|e] _; [destruct (negb _)|destruct (os_IsNotExist e)]; by apply logs_ret.
Qed.

(** A snapshot that may be loaded: it belongs to the VM and its files are
    managed. *)
Definition loadable (vm : VM) (r : sum response Snapshot) : Prop :=
  match r with
  | inl _ => True
  | inr sn => sn_vm sn = vm_id vm ∧ managed_path (sn_state sn) ∧ managed_path (sn_mem sn)
  end.

Lemma logs_resolve vm sid : logs loads_managed (resolveResumableSnapshot vm sid) (loadable vm).
Proof.
  unfold resolveResumableSnapshot. eapply logs_bind; [by apply logs_quiet|].
  intros [[sn|]|e] _; [|by apply logs_ret..].
  destruct (String.eqb_spec (sn_vm sn) (vm_id vm)) as [Hv|]; simpl; [|by apply logs_ret].
  eapply logs_bind; [by apply logs_within|]. intros b1 H1.
  eapply (logs_bind _ _ _ (λ b2 : bool, b2 = true → managed_path (sn_state sn) ∧ managed_path (sn_mem sn))).
  { destruct b1; [|by apply logs_ret]. eapply logs_mono; [by apply logs_within|]. naive_solver. }
  intros b2 H2. destruct b2; simpl; [|by apply logs_ret].
  eapply logs_bind; [by apply logs_check|]. intros [r|] _; [by apply logs_ret|].
  eapply logs_bind; [by apply logs_check|]. intros [r|] _; [by apply logs_ret|].
  apply logs_ret. split; [done|auto].
Qed.

Lemma logs_restore P vm s : logs P (restore_state vm s) (λ _, True).
Proof.
  unfold restore_state. eapply logs_bind; [apply logs_store|]. intros [[e|] vm'] _; [|by apply logs_ret].
  eapply logs_bind; [apply logs_store|]. intros [e' vm''] _. by apply logs_ret.
Qed.

Lemma logs_load vm sn :
  managed_path (sn_state sn) → managed_path (sn_mem sn) →
  logs loads_managed (load_snapshot vm sn) (λ _, True).
Proof.
  intros H1 H2. unfold load_snapshot. eapply logs_bind; [apply logs_store|]. intros [[e|] vm1] _; [by apply logs_ret|].
  eapply logs_bind; [by apply logs_launch|]. intros [[e|] vm2] _.
  - eapply logs_bind; [apply logs_restore|]. intros vm3 _. destruct (writeRuntimeUnsupportedError _ _ _); by apply logs_ret.
  - eapply logs_bind; [apply logs_store|]. intros [[e|] vm3] _; [|by apply logs_ret].
    eapply logs_bind; [by apply logs_runtime|]. intros _ _.
    eapply logs_bind; [apply logs_restore|]. intros vm4 _. by apply logs_ret.
Qed.

Lemma logs_transition P via back to op what fmt vm :
  (∀ i r, P (EvRuntime op i r)) → logs P (transition_vm via back to op what fmt vm) (λ _, True).
Proof.
  intros HP. unfold transition_vm. eapply logs_bind; [apply logs_store|]. intros [[e|] vm1] _; [by apply logs_ret|].
  eapply logs_bind; [by apply logs_runtime|]. intros [e|] _.
  - eapply logs_bind; [apply logs_store|]. intros [e' vm2] _.
    destruct (writeRuntimeUnsupportedError _ _ _); by apply logs_ret.
  - eapply logs_bind; [apply logs_store|]. intros [[e'|] vm2] _; by apply logs_ret.
Qed.

Lemma logs_resume k request : logs loads_managed (handleVMResumeByPath k request) (λ _, True).
Proof.
  unfold handleVMResumeByPath. apply logs_by_path, logs_with_vm. intros vm.
  assert (Hin : logs loads_managed (resume_in_place vm) (λ _, True)).
  { unfold resume_in_place. destruct (negb _); [by apply logs_ret|].
    apply logs_with_lock; [|done]. by apply logs_transition. }
  destruct request as [| |[sid|]]; [exact Hin|by apply logs_ret| |exact Hin].
  destruct (String.eqb sid ""); [by apply logs_ret|]. unfold resumeVMFromSnapshot.
  assert (Hb : logs loads_managed (with_lock (vm_id vm) "resume" (
        let* r := resolveResumableSnapshot vm sid in
        match r with
        | inl r => ret r
        | inr snapshot =>
            let* e := ensureVMTapForResume vm in
            match e with
            | Some err => ret (internal_error (Sprintf "Failed to re-establish network for snapshot resume: %v" [AShow err]))
            | None => load_snapshot vm snapshot
            end
        end)) (λ _, True)); [|destruct (vm_state vm); try exact Hb; by apply logs_ret].
  apply logs_with_lock; [|done]. eapply logs_bind; [apply logs_resolve|]. intros [r|sn] Hl; [by apply logs_ret|].
  destruct Hl as (_ & H1 & H2). eapply logs_bind.
  - apply logs_quiet. intros w. unfold ensureVMTapForResume. repeat (case_match; [reflexivity|]).
    unfold bind, host_do, ret. repeat case_match; by simplify_eq.
  - intros [e|] _; [by apply logs_ret|]. by apply logs_load.
Qed.

Lemma logs_delete_snapshot sid : logs removes_managed (handleDeleteSnapshot sid) (λ _, True).
Proof.
  unfold handleDeleteSnapshot, with_snapshot. eapply logs_bind; [by apply logs_quiet|].
  intros [[sn|]|e] _; [|by apply logs_ret..].
  apply logs_with_lock; [|done]. eapply (logs_bind _ _ _ (λ _, True)).
  - unfold removable_dir. fold snapshots_root.
    destruct (within_lexical snapshots_root _) eqn:E; [|by apply logs_ret].
    eapply logs_bind; [by apply logs_fs_do|]. intros _ _. by apply (logs_ret _ tt (λ _, True)).
  - intros _ _. eapply logs_bind; [apply logs_quiet, quiet_exec|]. intros [e|] _; by apply logs_ret.
Qed.
End Files.

(** * Claims *)

(** The requests on a VM that take its lock ([kill] takes none). *)
Inductive locked_request : Type :=
  | LStart
  | LStop (timeout : optional_body (option Z))
  | LPause
  | LResume (snapshot : optional_body (option string))
  | LDelete
  | LSnapshot (name : optional_body string).

Section Locked.
Context `{Env}.

Definition locked_handle (r : locked_request) (vmID : string) : M response :=
  match r with
  | LStart => handleVMStartByPath vmID
  | LStop b => handleVMStopByPath vmID b
  | LPause => handleVMPauseByPath vmID
  | LResume b => handleVMResumeByPath vmID b
  | LDelete => handleDeleteVMByPath vmID
  | LSnapshot b => handleCreateSnapshotByPath vmID b
  end.

(** A body the handler cannot decode is refused before the VM is looked up by
    stop and snapshot, and after it by resume. *)
Definition refused_unread (r : locked_request) : bool :=
  match r with LStop BadBody | LSnapshot BadBody => true | _ => false end.

(** The answers a request gets without asking for the lock, in the state in
    which the VM is stored: it is there already, it cannot go there from here, or
    its body is wrong.  [None]: the lock is needed. *)
Definition answered_unlocked (r : locked_request) (vm : VM) : option response :=
  let s := vm_state vm in
  let refused (format : string) := Some (invalid_transition format s) in
  match r with
  | LStart =>
      match s with
      | StateRunning => Some (writeJSON 200 (BVM vm))
      | StateCreated | StateStopped => None
      | _ => refused "Cannot start VM in state '%s'"
      end
  | LStop _ =>
      match s with
      | StateStopped => Some (writeJSON 200 (BVM vm))
      | StateRunning | StatePaused => None
      | _ => refused "Cannot stop VM in state '%s'"
      end
  | LPause => match s with StateRunning => None | _ => refused "Cannot pause VM in state '%s'" end
  | LResume BadBody => Some (WriteError 400 ErrInvalidRequest (Text "Invalid request body") [])
  | LResume (Body (Some snapshotID)) =>
      if String.eqb snapshotID "" then
        Some (WriteError 400 ErrInvalidRequest (Text "snapshot_id must be a non-empty snapshot id when provided") [])
      else match s with
      | StateStopped | StateCreated | StateFailed => None
      | _ => refused "Cannot resume VM from snapshot while in state '%s'; stop the VM first (resume-from-snapshot requires no live runtime)"
      end
  | LResume _ => match s with StatePaused => None | _ => refused "Cannot resume VM in state '%s'" end
  | LDelete => None
  | LSnapshot _ => match s with StatePaused => None | _ => refused "Cannot snapshot VM in state '%s'; pause the VM first" end
  end.

Definition vm_locked : response := WriteError 409 ErrVMLocked (Text "VM is locked by another operation") [].

(** Nothing but the tick of the world differs. *)
Definition untouched (w w' : World) : Prop :=
  w_db w' = w_db w ∧ w_ipam w' = w_ipam w ∧ w_cmds w' = w_cmds w ∧ w_log w' = w_log w.

Lemma with_lock_held id operation t body w :
  held_since id t (w_db w) → (∀ n, (env_now n ≤ t + lock_ttl)%Z) →
  fst (with_lock id operation body w) = vm_locked ∧ untouched w (snd (with_lock id operation body w)).
Proof.
  intros Hheld Hclock. unfold with_lock, acquire_lock, now, ask, db_exec, bind. cbn [w_db w_tick w_ipam w_cmds w_log].
  match goal with |- context [AcquireLock ?f ?rf ?n1 ?n2 id operation _] =>
    destruct (AcquireLock_held id t (w_db w) f rf n1 n2 operation Hheld (Hclock _)) as [e ->] end.
  done.
Qed.

(** The body of a request on a VM whose lock is held. *)
Definition locked_body (r : locked_request) (vm : VM) (body : M response) (w : World) : Prop :=
  fst (body w) = default vm_locked (answered_unlocked r vm) ∧ untouched w (snd (body w)).

Lemma locked_with_vm r k vm (body : VM → M response) w :
  GetVM None k (w_db w) = Ok (Some vm) →
  (∀ w1, w_db w1 = w_db w → locked_body r vm (body vm) w1) →
  fst (with_vm k body w) =
    (if env_db (w_tick w) is Some _ then internal_error (Text "Failed to get VM") else default vm_locked (answered_unlocked r vm)) ∧
  untouched w (snd (with_vm k body w)).
Proof.
  intros Hg Hb. unfold with_vm, get_vm, db_query, bind. destruct (env_db (w_tick w)); [done|].
  rewrite Hg. exact (Hb (mkWorld (w_db w) (w_ipam w) (w_cmds w) (w_log w) (S (w_tick w))) eq_refl).
Qed.

Lemma locked_handle_held r k vm t w :
  String.eqb k "" = false → GetVM None k (w_db w) = Ok (Some vm) → held_since (vm_id vm) t (w_db w) →
  (∀ n, (env_now n ≤ t + lock_ttl)%Z) → refused_unread r = false →
  fst (locked_handle r k w) =
    (if env_db (w_tick w) is Some _ then internal_error (Text "Failed to get VM") else default vm_locked (answered_unlocked r vm)) ∧
  untouched w (snd (locked_handle r k w)).
Proof.
  intros Hk Hg Hheld Hclock Hr.
  assert (Hl : ∀ op body w1, w_db w1 = w_db w →
    fst (with_lock (vm_id vm) op body w1) = vm_locked ∧ untouched w1 (snd (with_lock (vm_id vm) op body w1))).
  { intros op body w1 E. apply (with_lock_held _ _ t); [by rewrite E|done]. }
  destruct r as [|b| |b| |b]; unfold locked_handle, handleVMStartByPath, handleVMStopByPath, handleVMPauseByPath,
    handleVMResumeByPath, handleDeleteVMByPath, handleCreateSnapshotByPath, handleDeleteVM, handleCreateSnapshot,
    by_path; rewrite Hk; try (destruct b; try discriminate Hr);
    (eapply locked_with_vm; [exact Hg|]; intros w1 Ew; unfold locked_body, start_vm, start_locked, stop_vm, stop_locked,
      pause_vm, resume_in_place, resumeVMFromSnapshot, create_snapshot, answered_unlocked);
    repeat case_match; simplify_eq; try done; by apply Hl.
Qed.
End Locked.

(** C6: While an operation holds the lock of a VM (for up to five minutes),
    start, stop, pause, resume, delete and snapshot leave the database, the
    addresses, the host and the runtime alone, whatever their bodies are and
    however the database answers.  Each is answered by the table
    [answered_unlocked] where the stored state or the body settles it before the
    lock is asked for (a start of a running VM is answered 200), by 500 when the
    VM cannot be looked up, and by 409 [VM_LOCKED] in every other case.  Kill
    takes no lock and is not among them. *)
Theorem locked_vm_is_left_alone `{Env} (r : locked_request) (k : string) (vm : VM) (t : Z) (w : World)
    (Hk : k ≠ "") (Hvm : GetVM None k (w_db w) = Ok (Some vm))
    (Hheld : held_since (vm_id vm) t (w_db w)) (Hclock : ∀ n, (env_now n ≤ t + lock_ttl)%Z) :
  let '(a, w') := locked_handle r k w in
  untouched w w' ∧
  a = if refused_unread r then WriteError 400 ErrInvalidRequest (Text "Invalid request body") []
      else if env_db (w_tick w) is Some _ then internal_error (Text "Failed to get VM")
      else default vm_locked (answered_unlocked r vm).
Proof.
  apply String.eqb_neq in Hk.
  destruct (refused_unread r) eqn:Hr.
  { destruct r as [|[]| |[]| |[]]; try discriminate Hr; cbn;
      unfold handleVMStopByPath, handleCreateSnapshotByPath, by_path; by rewrite Hk. }
  pose proof (locked_handle_held r k vm t w Hk Hvm Hheld Hclock Hr) as [H1 H2].
  destruct (locked_handle r k w). done.
Qed.

(** Resuming a VM only ever makes the runtime load snapshot files whose
    stored paths lie in the managed snapshots tree. *)
Theorem resume_loads_managed_files `{Env} (k : string) (request : optional_body (option string)) (w : World) :
  ∃ new, w_log (snd (handleVMResumeByPath k request w)) = w_log w ++ new ∧ Forall loads_managed new.
Proof. apply logs_resume. Qed.

(** Deleting a snapshot removes nothing outside the managed snapshots
    tree, whatever path the database row has. *)
Theorem delete_snapshot_stays_inside `{Env} (sid : string) (w : World) :
  ∃ new, w_log (snd (handleDeleteSnapshot sid w)) = w_log w ++ new ∧ Forall removes_managed new.
Proof. apply logs_delete_snapshot. Qed.

(** A snapshot whose VM is gone (the row stays behind when foreign keys
    are not enforced) can never be deleted: taking the VM's lock updates no row,
    which is reported as the VM being locked. *)
Theorem orphan_snapshot_undeletable `{Env} (sid : string) (w : World) (s : Snapshot)
    (Hs : GetSnapshot None sid (w_db w) = Ok (Some s))
    (Horphan : sn_vm s ∉ (r_id <$> t_vms (w_db w))) :
  let '(r, w') := handleDeleteSnapshot sid w in
  (rs_status r = 409%Z ∨ rs_status r = 500%Z) ∧ w_db w' = w_db w.
Proof.
  assert (Hn : ∀ n2 r, r ∈ t_vms (w_db w) → lockable n2 (sn_vm s) r = false).
  { intros n2 r Hr. unfold lockable. destruct (String.eqb_spec (r_id r) (sn_vm s)) as [E|]; [|done].
    exfalso. apply Horphan. rewrite <- E. by apply list_elem_of_fmap_2. }
  unfold handleDeleteSnapshot, with_snapshot, db_query, bind. cbn [w_db w_tick].
  destruct (env_db (w_tick w)) as [e|]; [by split; [right|]|]. rewrite Hs.
  unfold with_lock, acquire_lock, now, ask, db_exec, bind. cbn [w_db w_tick].
  match goal with |- context [AcquireLock ?f ?rf ?n1 ?n2 _ ?op _] =>
    destruct (AcquireLock_none_lockable f rf n1 n2 (sn_vm s) op (w_db w) (Hn n2)) as [e ->] end.
  by split; [left|].
Qed.

(** A bounded stream keeps its bound, suffix included: a text that fits is
    unchanged, and a longer one becomes a prefix of it followed by the truncation
    mark, exactly [max] bytes long, when the mark fits at all. *)
Theorem capString_spec (s : string) (max : Z) (Hmax : (0 ≤ max)%Z) :
  ∃ t, capString s max = Some t ∧ (Z.of_nat (String.length t) ≤ max)%Z ∧
    ((Z.of_nat (String.length s) ≤ max)%Z → t = s) ∧
    ((max < Z.of_nat (String.length s))%Z →
       Z.of_nat (String.length t) = max ∧
       ∃ p rest, s = p +:+ rest ∧ (t = p ∨ t = p +:+ truncated_suffix)).
Proof.
  unfold capString. assert (Hcut : ∀ n, (n ≤ String.length s)%nat →
      String.length (String.substring 0 n s) = n ∧ ∃ rest, s = String.substring 0 n s +:+ rest).
  { exact (λ n, substring_split n s). }
  destruct (Z.leb_spec (Z.of_nat (String.length s)) max) as [Hl|Hl].
  - exists s. split; [done|]. split; [lia|]. split; [done|lia].
  - destruct (Z.leb_spec max (Z.of_nat (String.length truncated_suffix))) as [Hs|Hs].
    + destruct (Z.ltb_spec max 0) as [|_]; [lia|]. destruct (Hcut (Z.to_nat max) ltac:(lia)) as [Hn [rest Hr]].
      eexists. split; [done|]. rewrite Hn. split; [lia|]. split; [lia|]. split; [lia|]. eauto.
    + destruct (Hcut (Z.to_nat (max - Z.of_nat (String.length truncated_suffix))) ltac:(lia)) as [Hn [rest Hr]].
      eexists. split; [done|]. rewrite string_app_length, Hn. split; [lia|]. split; [lia|]. split; [lia|]. eauto.
Qed.

Lemma no_events (P : event → Prop) (w w' : World) :
  w_log w' = w_log w → ∃ new, w_log w' = w_log w ++ new ∧ Forall P new.
Proof. intros ->. exists []. by rewrite app_nil_r. Qed.

(** A command reaches the runtime only for a running VM with a runtime
    handle, and is not empty. *)
Theorem exec_needs_running_vm `{Env} (vmID : string) (request : option (list string * option Z)) (w : World) :
  ∃ new, w_log (snd (handleVMExecByPath vmID request w)) = w_log w ++ new ∧
    Forall (λ ev, match ev with
      | EvRuntime (RtExec command) i _ =>
          command ≠ [] ∧ ∃ vm, GetVM (env_db (w_tick w)) vmID (w_db w) = Ok (Some vm) ∧ vm_id vm = i ∧
            vm_state vm = StateRunning ∧ vmHasRuntimeHandle vm = true
      | _ => False
      end) new.
Proof.
  unfold handleVMExecByPath, by_path. destruct (String.eqb vmID ""); [by apply no_events|].
  destruct request as [[command timeout]|]; [|by apply no_events].
  destruct (normalizeExecCommand command) as [|c cs] eqn:Hc; [by apply no_events|].
  cbn [length Nat.eqb]. cbv zeta. destruct (_ || _); [by apply no_events|].
  unfold with_vm, get_vm, db_query, bind at 1. cbn beta iota.
  destruct (GetVM _ vmID (w_db w)) as [[vm|]|e] eqn:Hg; [|by apply no_events..].
  case_bool_decide as Hs; simpl negb; cbv iota; [|by apply no_events].
  destruct (vmHasRuntimeHandle vm) eqn:Hh; simpl negb; cbv iota; [|by apply no_events].
  destruct env_exec as [exec|]; [|by apply no_events].
  cbn [negb]. match goal with |- ∃ new, w_log (snd (?m ?w1)) = _ ∧ Forall ?P new =>
    assert (Hl : logs P m (λ _, True)); [|destruct (Hl w1) as [_ Hnew]; exact Hnew] end.
  eapply (logs_bind _ _ _ (λ _, True)); [by apply logs_quiet|]. intros [result e] _.
  eapply logs_bind; [apply logs_event|intros _ _; destruct e; by apply logs_ret].
  split; [done|]. by exists vm.
Qed.

(** * Scenarios *)

(** A snapshot of the VM [id] with its files in [dir]. *)
Definition snapshot_in (dir : string) (sid vmID : string) : Snapshot :=
  mkSnap sid vmID sid (dir +:+ "/mem.snap") (dir +:+ "/vm.snap") 7 5.

(** One VM, [id1] named [web], in state [s], with the snapshots [sns]. *)
Definition snapshot_world (s : VMState) (sns : list Snapshot) : World :=
  mkWorld (mkDB [vm_row (set_state (example_vm "id1" "web") s)] sns [image_row example_image] [] []) NewIPAM [] [] 0.

(** The world with the lock of [id1] taken at time 7, in seconds. *)
Definition locked_world : World :=
  let w := example_world StateRunning in
  mkWorld (snd (AcquireLock None None 7000000000 7000000000 "id1" "stop" (w_db w))) (w_ipam w) [] [] 0.

(** [example_env] with a clock that stands still at eight seconds. *)
Definition still_env : Env :=
  let e := example_env in
  {| env_cfg := @env_cfg e; env_host := @env_host e; env_db := @env_db e; env_rows := @env_rows e;
     env_query := @env_query e; env_fk := @env_fk e; env_now _ := 8000000000%Z; env_uuid := @env_uuid e;
     env_listen := @env_listen e; env_random := @env_random e; env_fs := @env_fs e; env_rt := @env_rt e;
     env_launch := @env_launch e; env_image_provider := None; env_exec := None; env_logs := @env_logs e;
     env_spire := None; env_zone := @env_zone e; env_tiering := false |}.

Lemma locked_world_held : held_since "id1" 7000000000 (w_db locked_world).
Proof. split; [eexists; split; [left|reflexivity]|]. intros r Hr _. apply list_elem_of_singleton in Hr. by subst. Qed.

Lemma locked_vm_is_left_alone_witness :
  fst (@locked_handle still_env LDelete "web" locked_world) = vm_locked ∧
  untouched locked_world (snd (@locked_handle still_env LDelete "web" locked_world)).
Proof.
  destruct (GetVM None "web" (w_db locked_world)) as [[vm|]|e] eqn:Hg; [|exfalso; vm_compute in Hg; discriminate Hg..].
  assert (Hi : vm_id vm = "id1") by (vm_compute in Hg; by injection Hg as <-).
  pose proof (@locked_vm_is_left_alone still_env LDelete "web" vm 7000000000 locked_world ltac:(discriminate) Hg
    ltac:(rewrite Hi; exact locked_world_held) ltac:(intros n; vm_compute; discriminate)) as Ht.
  destruct (@locked_handle still_env LDelete "web" locked_world) as [a w']. destruct Ht as [H1 H2].
  split; [exact H2|exact H1].
Defined.

(** Not every answer is 409: the same world answers a start of the running VM. *)
Example locked_running_vm_start :
  rs_status (fst (@locked_handle still_env LStart "web" locked_world)) = 200%Z.
Proof. vm_compute. reflexivity. Qed.

Definition orphan_world : World :=
  snapshot_world StateStopped [snapshot_in "/var/lib/nanofuse/snapshots/gone/s1" "s1" "gone"].

Lemma orphan_snapshot_undeletable_witness :
  w_db (snd (@handleDeleteSnapshot example_env "s1" orphan_world)) = w_db orphan_world.
Proof.
  pose proof (@orphan_snapshot_undeletable example_env "s1" orphan_world
    (snapshot_in "/var/lib/nanofuse/snapshots/gone/s1" "s1" "gone") ltac:(vm_compute; reflexivity)
    ltac:(intros Hin; apply list_elem_of_singleton in Hin; discriminate Hin)) as Ht.
  destruct (@handleDeleteSnapshot example_env "s1" orphan_world) as [r w']. exact (proj2 Ht).
Defined.

Lemma capString_spec_witness : ∃ t, capString "hello world, how are you" 20 = Some t ∧ (Z.of_nat (String.length t) ≤ 20)%Z.
Proof.
  destruct (capString_spec "hello world, how are you" 20 ltac:(lia)) as (t & H1 & H2 & _). exists t. by split.
Defined.

(** The calls of the runtime in a log that succeeded and satisfy [f]. *)
Definition successful (f : rt_op → bool) (log : list event) : nat :=
  length (List.filter (λ ev, match ev with EvRuntime op _ None => f op | _ => false end) log).

Definition is_start (op : rt_op) : bool := match op with RtStart _ => true | _ => false end.
Definition snapshots_to (snap mem : string) (op : rt_op) : bool :=
  match op with RtCreateSnapshot s m => String.eqb s snap && String.eqb m mem | _ => false end.

(** The state of the VM is read before its lock is taken and not again:
    two start requests that both read the VM as stopped each start the runtime
    when they get the lock in turn, and the second finds nothing wrong. *)
Theorem start_reads_stale_state :
  let vm := persisted (set_state (example_vm "id1" "web") StateStopped) None None in
  let w0 := example_world StateStopped in
  let '(r1, w1) := @start_locked example_env vm w0 in
  let '(r2, w2) := @start_locked example_env vm w1 in
  GetVM None "web" (w_db w0) = Ok (Some vm) ∧
  rs_status r1 = 200%Z ∧ rs_status r2 = 200%Z ∧ successful is_start (w_log w2) = 2%nat.
Proof. vm_compute. repeat split; reflexivity. Qed.

(** Listing the snapshots of a VM by its name gives the empty list, while
    listing them by its id gives its snapshot. *)
Theorem list_snapshots_by_name_is_empty :
  let s := snapshot_in "/var/lib/nanofuse/snapshots/id1/s1" "s1" "id1" in
  let w := snapshot_world StateStopped [s] in
  fst (@handleListSnapshotsByPath example_env "id1" w) = mkResp 200 (BSnapshots [s]) ∧
  fst (@handleListSnapshotsByPath example_env "web" w) = mkResp 200 (BSnapshots []).
Proof. vm_compute. split; reflexivity. Qed.

(** The guard on the directory to remove accepts the snapshots root
    itself: deleting a snapshot whose memory file lies directly in the root
    removes the files of all snapshots, while their rows stay. *)
Theorem delete_snapshot_can_empty_the_root :
  let stray := snapshot_in "/var/lib/nanofuse/snapshots" "s1" "id1" in
  let other := snapshot_in "/var/lib/nanofuse/snapshots/id1/s2" "s2" "id1" in
  let '(r, w) := @handleDeleteSnapshotByPath example_env "s1" (snapshot_world StateStopped [stray; other]) in
  rs_status r = 204%Z ∧ EvFs (FsRemoveAll "/var/lib/nanofuse/snapshots") None ∈ w_log w ∧
  t_snapshots (w_db w) = [other].
Proof. vm_compute. split; [reflexivity|]. split; [repeat constructor|reflexivity]. Qed.

(** Two snapshots of one VM in the same second get the same id: the
    second overwrites the files of the first and then fails, and leaves one row
    whose files are those of the failed request. *)
Theorem snapshots_in_one_second_collide :
  let w0 := snapshot_world StatePaused [] in
  let '(r1, w1) := @handleCreateSnapshotByPath still_env "web" (Body "first") w0 in
  let '(r2, w2) := @handleCreateSnapshotByPath still_env "web" (Body "second") w1 in
  let f := snapshots_to "/var/lib/nanofuse/snapshots/id1/snapshot-19700101-000008/vm.snap"
    "/var/lib/nanofuse/snapshots/id1/snapshot-19700101-000008/mem.snap" in
  rs_status r1 = 201%Z ∧ rs_status r2 = 500%Z ∧
  successful f (w_log w2) = 2%nat ∧
  (sn_name <$> t_snapshots (w_db w2)) = ["first"].
Proof. vm_compute. repeat split; reflexivity. Qed.
