(* ===== verification/GoUrl.v ===== *)
(** [url.Parse] of Go's net/url, as far as the program looks at its result.

    Versions of the library differ in what they accept between brackets in a host;
    [ip_literal] says what is accepted. *)

From S2P Require Import Prelude GoStrings Paths.

(** [strings.Cut] at a byte. *)
Fixpoint cut (c : ascii) (s : string) : string * option string :=
  match s with
  | EmptyString => ("", None)
  | String a s' => if Ascii.eqb a c then ("", Some s') else let '(b, r) := cut c s' in (String a b, r)
  end.

(** The text before and after the last [c]. *)
Fixpoint cut_last (c : ascii) (s : string) : option (string * string) :=
  match s with
  | EmptyString => None
  | String a s' =>
      match cut_last c s' with
      | Some (b, r) => Some (String a b, r)
      | None => if Ascii.eqb a c then Some ("", s') else None
      end
  end.

Definition has_char (c : ascii) (s : string) : bool := contains_any [c] s.

Definition in_class (lo hi : nat) (a : ascii) : bool := ((lo <=? nat_of_ascii a) && (nat_of_ascii a <=? hi))%nat.
Definition is_lower (a : ascii) : bool := in_class 97 122 a.
Definition is_upper (a : ascii) : bool := in_class 65 90 a.
Definition is_num (a : ascii) : bool := in_class 48 57 a.
Definition is_alnum (a : ascii) : bool := is_lower a || is_upper a || is_num a.
Fixpoint one_of (l : string) (a : ascii) : bool :=
  match l with EmptyString => false | String b l' => Ascii.eqb a b || one_of l' a end.

Fixpoint all_ascii (f : ascii → bool) (s : string) : bool :=
  match s with EmptyString => true | String a s' => f a && all_ascii f s' end.

(** [getScheme]. *)
Inductive scheme_scan : Type := NoScheme | MissingScheme | Scheme (scheme rest : string).

Fixpoint scheme_loop (first : bool) (s : string) : scheme_scan :=
  match s with
  | EmptyString => NoScheme
  | String a s' =>
      let more := match scheme_loop false s' with Scheme sc rest => Scheme (String a sc) rest | r => r end in
      if is_lower a || is_upper a then more
      else if is_num a || one_of "+-." a then if first then NoScheme else more
      else if Ascii.eqb a ":" then if first then MissingScheme else Scheme "" s'
      else NoScheme
  end.

Definition unhex (a : ascii) : option nat :=
  let n := nat_of_ascii a in
  if is_num a then Some (n - 48)%nat
  else if in_class 97 102 a then Some (n - 87)%nat
  else if in_class 65 70 a then Some (n - 55)%nat
  else None.

(** [unescape] of a path, a fragment or user information: an escape is two
    hexadecimal digits. *)
Fixpoint unescape (s : string) : option string :=
  match s with
  | EmptyString => Some ""
  | String a s' =>
      if Ascii.eqb a "%" then
        match s' with
        | String h (String l s'') =>
            match unhex h, unhex l with
            | Some x, Some y => String (ascii_of_nat (16 * x + y)) <$> unescape s''
            | _, _ => None
            end
        | _ => None
        end
      else String a <$> unescape s'
  end.

(** The bytes of a host that need no escape. *)
Definition host_char (a : ascii) : bool :=
  (127 <? nat_of_ascii a)%nat || is_alnum a || one_of "!$&'()*+,;=:[]<>-_.~" a || (nat_of_ascii a =? 34)%nat.

(** [unescape] of a host: an escape below 0x80 is refused, but for %25. *)
Fixpoint unescape_host (s : string) : option string :=
  match s with
  | EmptyString => Some ""
  | String a s' =>
      if Ascii.eqb a "%" then
        match s' with
        | String h (String l s'') =>
            match unhex h, unhex l with
            | Some x, Some y =>
                if (x <? 8)%nat && negb ((x =? 2)%nat && (y =? 5)%nat) then None
                else String (ascii_of_nat (16 * x + y)) <$> unescape_host s''
            | _, _ => None
            end
        | _ => None
        end
      else if host_char a then String a <$> unescape_host s' else None
  end.

(** [validOptionalPort], of what follows the host: nothing, or a colon and digits. *)
Definition valid_optional_port (port : string) : bool :=
  match port with EmptyString => true | String a p => Ascii.eqb a ":" && all_ascii is_num p end.

Definition valid_userinfo (s : string) : bool := all_ascii (λ a, is_alnum a || one_of "-._:~!$&'()*+,;=%@" a) s.

Record URL : Type := mkURL {
  u_scheme : string; u_opaque : string; u_user : option string; u_host : string;
  u_path : string; u_raw_path : string; u_query : string; u_fragment : string }.

Section Parse.
Variable ip_literal : string → bool.

(** [parseHost]. *)
Definition parse_host (host : string) : option string :=
  if has_prefix "[" host then
    match cut_last "]" host with
    | None => None
    | Some (inner, port) => if valid_optional_port port && ip_literal inner then unescape_host host else None
    end
  else
    match cut_last ":" host with
    | Some (_, port) => if all_ascii is_num port then unescape_host host else None
    | None => unescape_host host
    end.

(** [parseAuthority]. *)
Definition parse_authority (authority : string) : option (option string * string) :=
  match cut_last "@" authority with
  | None => (λ host, (None, host)) <$> parse_host authority
  | Some (userinfo, rest) =>
      match parse_host rest with
      | None => None
      | Some host => if valid_userinfo userinfo && negb (bool_decide (unescape userinfo = None)) then Some (Some userinfo, host) else None
      end
  end.

(** A single question mark at the end is dropped, otherwise the query is cut off. *)
Definition cut_query (rest : string) : string * string :=
  let '(b, q) := cut "?" rest in (b, default "" q).

Definition is_ctl (a : ascii) : bool := (nat_of_ascii a <? 32)%nat || (nat_of_ascii a =? 127)%nat.

Definition with_path (u : URL) (raw : string) : option URL :=
  (λ p, mkURL (u_scheme u) (u_opaque u) (u_user u) (u_host u) p raw (u_query u) (u_fragment u)) <$> unescape raw.

(** [Parse]; [None] is an error. *)
Definition parse_no_fragment (s fragment : string) : option URL :=
  if negb (all_ascii (λ a, negb (is_ctl a)) s) then None
  else if String.eqb s "*" then Some (mkURL "" "" None "" "*" "*" "" fragment)
  else
    let scheme := match scheme_loop true s with
      | Scheme sc rest => Some (to_lower sc, rest)
      | NoScheme => Some ("", s)
      | MissingScheme => None
      end in
    match scheme with
    | None => None
    | Some (scheme, rest) =>
        let '(rest, query) := cut_query rest in
        if negb (has_prefix "/" rest) && negb (String.eqb scheme "") then
          Some (mkURL scheme rest None "" "" "" query fragment)
        else if negb (has_prefix "/" rest) && has_char ":" (fst (cut "/" rest)) then None
        else if (negb (String.eqb scheme "") || negb (has_prefix "///" rest)) && has_prefix "//" rest then
          let '(authority, path) := cut "/" (trim_prefix "//" rest) in
          match parse_authority authority with
          | None => None
          | Some (user, host) =>
              with_path (mkURL scheme "" user host "" "" query fragment) (match path with Some p => String "/" p | None => "" end)
          end
        else with_path (mkURL scheme "" None "" "" "" query fragment) rest
    end.

Definition url_parse (s : string) : option URL :=
  let '(s, fragment) := cut "#" s in
  match unescape (default "" fragment) with
  | Some f => parse_no_fragment s f
  | None => None
  end.

End Parse.

(** [splitHostPort]. *)
Definition split_host_port (hostport : string) : string * string :=
  let '(host, port) := match cut_last ":" hostport with
    | Some (host, port) => if all_ascii is_num port then (host, port) else (hostport, "")
    | None => (hostport, "")
    end in
  (if has_prefix "[" host && has_suffix "]" host then String.substring 1 (String.length host - 2) host else host, port).

Definition u_Hostname (u : URL) : string := fst (split_host_port (u_host u)).
Definition u_Port (u : URL) : string := snd (split_host_port (u_host u)).

Example url_ex :
  url_parse (λ _, true) "SPIFFE://user@[td]:80/a%20b?x#y" = Some (mkURL "spiffe" "" (Some "user") "[td]:80" "/a b" "/a%20b" "x" "y") ∧
  (u_Hostname <$> url_parse (λ _, true) "spiffe://[td]:80/a") = Some "td" ∧
  url_parse (λ _, true) "spiffe://td:8a/a" = None ∧ url_parse (λ _, true) "a b:c" = None ∧
  (u_opaque <$> url_parse (λ _, true) "spiffe:td/a") = Some "td/a".
Proof. vm_compute. done. Qed.

(** * Cutting at a byte that is not there, or once *)

Lemma cut_no_char c s : no_char c s → cut c s = (s, None).
Proof. induction s as [|a s IH]; [done|]. rewrite no_char_cons. intros [Ha Hs]. cbn [cut]. by rewrite Ha, IH. Qed.

Lemma cut_at c s r : no_char c s → cut c (s +:+ String c r) = (s, Some r).
Proof.
  induction s as [|a s IH]; [intros _; change ("" +:+ ?x) with x; cbn [cut]; by rewrite Ascii.eqb_refl|].
  rewrite string_app_cons, no_char_cons. intros [Ha Hs]. cbn [cut]. by rewrite Ha, IH.
Qed.

Lemma cut_last_no_char c s : no_char c s → cut_last c s = None.
Proof. induction s as [|a s IH]; [done|]. rewrite no_char_cons. intros [Ha Hs]. cbn [cut_last]. by rewrite IH, Ha. Qed.
