(* ===== verification/Spire.v ===== *)
(** SPIFFE identities (src/internal/spire): the registration of a VM's identity
    (service.go), the grammar of identities and the checks of an issued document
    (svid.go).

    Certificates are records of the fields the checks read; verifying a chain,
    parsing a certificate and the PEM and PKCS#8 encodings are the interface
    [Crypto].

    What the identity of a VM is: the grammar that is accepted, and that a
    registered identity names its VM. *)

From S2P Require Import Prelude GoStrings GoUrl Json Paths.

(* @src internal/config/config.go:82-94 SPIREConfig *)
Record SPIREConfig : Type := mkSPIRE {
  sc_enabled : bool; sc_required : bool; sc_socket : string; sc_trust_domain : string; sc_parent : string;
  sc_workload_type : string; sc_ttl : Z; sc_cid : Z; sc_port : Z; sc_agent : string; sc_container : string }.

(** * The grammar *)

(** [^[a-z0-9]([a-z0-9-]*[a-z0-9])?$]. *)
(* @src internal/spire/svid.go:370-370 trustLabelPattern *)
Definition label_end (a : ascii) : bool := is_lower a || is_num a.
Definition label_char (a : ascii) : bool := label_end a || Ascii.eqb a "-".
Definition trust_label (s : string) : bool :=
  match s with EmptyString => false | String a _ => label_end a end &&
  match string_rev s with EmptyString => false | String a _ => label_end a end && all_ascii label_char s.

(* @func internal/spire/svid.go isValidTrustDomain *)
Definition isValidTrustDomain (host : string) : bool :=
  if String.eqb host "" || (253 <? String.length host)%nat then false
  else forallb (λ label, negb ((63 <? String.length label)%nat || negb (trust_label label))) (split_on "." host).

(** [^[a-zA-Z0-9._-]+$]. *)
(* @src internal/spire/svid.go:391-391 pathSegmentPattern *)
Definition path_segment (s : string) : bool := negb (String.eqb s "") && all_ascii (λ a, is_alnum a || one_of "._-" a) s.

(** [^[a-zA-Z0-9_-]+$]. *)
(* @src internal/spire/service.go:86-86 safeIDPattern *)
Definition safe_id (s : string) : bool := negb (String.eqb s "") && all_ascii (λ a, is_alnum a || one_of "_-" a) s.

Definition check_segment (seg : string) : option error :=
  if String.eqb seg "" then Some (ErrorsNew "svid: SPIFFE ID has an empty path segment (no trailing or doubled slashes)")
  else if String.eqb seg "." || String.eqb seg ".." then
    Some (Errorf "svid: SPIFFE ID path segment %q is not permitted" [AStr seg])
  else if negb (path_segment seg) then
    Some (Errorf "svid: SPIFFE ID path segment %q is invalid (letters, digits, .-_ only)" [AStr seg])
  else None.

Fixpoint check_segments (segs : list string) : option error :=
  match segs with
  | [] => None
  | seg :: segs => match check_segment seg with Some err => Some err | None => check_segments segs end
  end.

Section Grammar.
Variable ip_literal : string → bool.

(* @func internal/spire/svid.go validateSPIFFEID *)
Definition validateSPIFFEID (id : string) : option error :=
  if String.eqb id "" then Some (ErrorsNew "svid: SPIFFE ID is required")
  else if (2048 <? String.length id)%nat then Some (ErrorsNew "svid: SPIFFE ID exceeds 2048 bytes")
  else if contains "%" id then Some (ErrorsNew "svid: SPIFFE ID must not contain percent-encoding")
  else match url_parse ip_literal id with
  | None => Some (ErrorsNew "svid: SPIFFE ID is not a valid URI")
  | Some u =>
      if negb (String.eqb (u_scheme u) "spiffe") then
        Some (Errorf "svid: SPIFFE ID scheme must be spiffe, got %q" [AStr (u_scheme u)])
      else if negb (bool_decide (u_user u = None)) || negb (String.eqb (u_query u) "") || negb (String.eqb (u_fragment u) "") then
        Some (ErrorsNew "svid: SPIFFE ID must not contain userinfo, query, or fragment")
      else if negb (String.eqb (u_Port u) "") then Some (ErrorsNew "svid: SPIFFE ID trust domain must not contain a port")
      else
        let host := u_Hostname u in
        if String.eqb host "" then Some (ErrorsNew "svid: SPIFFE ID is missing a trust domain")
        else if negb (isValidTrustDomain host) then
          Some (Errorf "svid: SPIFFE ID trust domain %q is invalid" [AStr host])
        else
          let path := trim_prefix "/" (u_path u) in
          if String.eqb path "" then Some (ErrorsNew "svid: SPIFFE ID is missing a workload path")
          else check_segments (split_on slash path)
  end.

End Grammar.

(** * Registration *)

(* @func internal/spire/service.go normalizeTrustDomain *)
Definition normalizeTrustDomain (td : string) : string := to_lower (trim_space td).

(* @func internal/spire/service.go validateTrustDomain *)
Definition validateTrustDomain (cfg : SPIREConfig) : option error :=
  let td := normalizeTrustDomain (sc_trust_domain cfg) in
  if String.eqb td "" then Some (ErrorsNew "trust_domain is required for SPIFFE identity")
  else if negb (isValidTrustDomain td) then
    Some (Errorf "trust_domain %q is not a valid RFC 1123 DNS name (lowercase letters, digits, and interior hyphens)" [AStr (sc_trust_domain cfg)])
  else None.

(* @func internal/spire/service.go BuildSPIFFEID *)
Definition BuildSPIFFEID (cfg : SPIREConfig) (groupID ownerUserID vmID : string) : string :=
  let workloadType := if String.eqb (sc_workload_type cfg) "" then "microvm" else sc_workload_type cfg in
  "spiffe://" +:+ normalizeTrustDomain (sc_trust_domain cfg) +:+ "/g/" +:+ groupID +:+ "/u/" +:+ ownerUserID +:+ "/w/" +:+
    workloadType +:+ "/" +:+ vmID.

(* @func internal/spire/service.go ValidateIdentityParams *)
Definition ValidateIdentityParams (groupID ownerUserID : string) : option error :=
  if String.eqb groupID "" then Some (ErrorsNew "group_id is required for SPIFFE identity")
  else if negb (safe_id groupID) then Some (Errorf "group_id contains invalid characters: %s" [AStr groupID])
  else if String.eqb ownerUserID "" then Some (ErrorsNew "owner_user_id is required for SPIFFE identity")
  else if negb (safe_id ownerUserID) then Some (Errorf "owner_user_id contains invalid characters: %s" [AStr ownerUserID])
  else None.

(* @func internal/spire/service.go validateVMID *)
Definition validateVMID (vmID : string) : option error :=
  if String.eqb vmID "" then Some (ErrorsNew "vm_id is required")
  else if negb (safe_id vmID) then Some (Errorf "vm_id contains invalid characters: %s" [AStr vmID])
  else None.

(* @type internal/spire/service.go WorkloadEntry *)
Record WorkloadEntry : Type := mkEntry {
  we_spiffe : string; we_parent : string; we_selectors : list string; we_ttl : Z;
  we_owner : string; we_group : string; we_workload : string }.

Definition container (cfg : SPIREConfig) : string :=
  if String.eqb (sc_container cfg) "" then "spire-server" else sc_container cfg.

Fixpoint drop_while (f : ascii → bool) (s : string) : string :=
  match s with String a s' => if f a then drop_while f s' else s | EmptyString => "" end.
Fixpoint take_while (f : ascii → bool) (s : string) : string :=
  match s with String a s' => if f a then String a (take_while f s') else "" | EmptyString => "" end.

Definition re_space (a : ascii) : bool := let n := nat_of_ascii a in ((n =? 9) || (n =? 10) || (n =? 12) || (n =? 13) || (n =? 32))%nat.

(** The group of the leftmost match of [Entry ID\s*:\s*([a-f0-9-]+)]. *)
Fixpoint find_entry_id (s : string) : option string :=
  let here := match strip_prefix "Entry ID" s with
    | Some rest =>
        match strip_prefix ":" (drop_while re_space rest) with
        | Some rest =>
            let id := take_while (λ a, in_class 97 102 a || is_num a || Ascii.eqb a "-") (drop_while re_space rest) in
            if String.eqb id "" then None else Some id
        | None => None
        end
    | None => None
    end in
  match here with
  | Some id => Some id
  | None => match s with String _ s' => find_entry_id s' | EmptyString => None end
  end.

Section Service.
Context `{HH : Host}.

(* @func internal/spire/service.go RegisterWorkload *)
Definition RegisterWorkload (cfg : SPIREConfig) (entry : WorkloadEntry) : State (list cmd_event) (option error) :=
  if negb (sc_enabled cfg) then ret None
  else
    let cmdArgs := ["exec"; container cfg; "/opt/spire/bin/spire-server"; "entry"; "create";
      "-spiffeID"; we_spiffe entry; "-parentID"; we_parent entry; "-ttl"; fmt_d (we_ttl entry)]
      ++ concat ((λ sel, ["-selector"; sel]) <$> we_selectors entry) in
    let* ' (output, err) := run_output "docker" cmdArgs in
    match err with
    | Some err =>
        if contains "already exists" output then ret None
        else ret (Some (Errorf "failed to create SPIRE entry: %w: %s" [AWrap err; AStr output]))
    | None => ret None
    end.

(* @func internal/spire/service.go UnregisterWorkload *)
Definition UnregisterWorkload (cfg : SPIREConfig) (spiffeID : string) : State (list cmd_event) (option error) :=
  if negb (sc_enabled cfg) then ret None
  else
    let* ' (output, err) := run_output "docker"
      ["exec"; container cfg; "/opt/spire/bin/spire-server"; "entry"; "show"; "-spiffeID"; spiffeID] in
    match err with
    | Some _ => ret None
    | None =>
        match find_entry_id output with
        | None => ret None
        | Some entryID =>
            let* ' (_, err) := run_output "docker"
              ["exec"; container cfg; "/opt/spire/bin/spire-server"; "entry"; "delete"; "-entryID"; entryID] in
            match err with
            | Some err => ret (Some (Errorf "failed to delete SPIRE entry: %w" [AWrap err]))
            | None => ret None
            end
        end
    end.

(** The empty identity when identities are not enabled. *)
(* @func internal/spire/service.go CreateVMWorkloadEntry *)
Definition CreateVMWorkloadEntry (cfg : SPIREConfig) (vmID groupID ownerUserID : string) : State (list cmd_event) (result string) :=
  if negb (sc_enabled cfg) then ret (Ok "")
  else match ValidateIdentityParams groupID ownerUserID with
  | Some err => ret (Err err)
  | None =>
      match validateVMID vmID with
      | Some err => ret (Err err)
      | None =>
          match validateTrustDomain cfg with
          | Some err => ret (Err err)
          | None =>
              let spiffeID := BuildSPIFFEID cfg groupID ownerUserID vmID in
              checked (RegisterWorkload cfg (mkEntry spiffeID (sc_parent cfg) ["docker:label:vm_id:" +:+ vmID] (sc_ttl cfg)
                         ownerUserID groupID vmID))
                Err (ret (Ok spiffeID))
          end
      end
  end.

(* @func internal/spire/service.go DeleteVMWorkloadEntry *)
Definition DeleteVMWorkloadEntry (cfg : SPIREConfig) (spiffeID : string) : State (list cmd_event) (option error) :=
  if negb (sc_enabled cfg) || String.eqb spiffeID "" then ret None else UnregisterWorkload cfg spiffeID.

End Service.

(** * Classes of characters *)

Lemma all_ascii_app f s t : all_ascii f (s +:+ t) = all_ascii f s && all_ascii f t.
Proof. induction s as [|a s IH]; [done|]. rewrite string_app_cons. cbn. by rewrite IH, andb_assoc. Qed.

Lemma all_ascii_impl (f g : ascii → bool) s : (∀ a, f a = true → g a = true) → all_ascii f s = true → all_ascii g s = true.
Proof. intros Hfg. induction s as [|a s IH]; [done|]. cbn. rewrite !andb_true_iff. intros [? ?]. auto. Qed.

Lemma all_ascii_no_char f c s : f c = false → all_ascii f s = true → no_char c s.
Proof.
  intros Hc. unfold no_char. induction s as [|a s IH]; [done|]. cbn. rewrite andb_true_iff. intros [Ha Hs].
  rewrite IH by done. destruct (Ascii.eqb_spec a c) as [->|]; [congruence|done].
Qed.

Lemma contains_char c s : contains (String c "") s = has_char c s.
Proof.
  unfold has_char. induction s as [|a s IH]; [done|]. cbn [contains contains_any existsb]. rewrite IH, orb_false_r. f_equal.
  unfold has_prefix. cbn [String.prefix]. destruct (ascii_dec c a) as [->|Hne]; [rewrite Ascii.eqb_refl; by destruct s|].
  symmetry. apply Ascii.eqb_neq. congruence.
Qed.

Lemma unescape_plain s : no_char "%" s → unescape s = Some s.
Proof.
  unfold no_char. induction s as [|a s IH]; [done|]. cbn [contains_any existsb unescape]. rewrite orb_false_r, orb_false_iff.
  intros [-> Hs]. by rewrite IH.
Qed.

Lemma unescape_host_plain s : no_char "%" s → all_ascii host_char s = true → unescape_host s = Some s.
Proof.
  unfold no_char. induction s as [|a s IH]; [done|]. cbn [contains_any existsb unescape_host all_ascii].
  rewrite orb_false_r, orb_false_iff, andb_true_iff. intros [-> Hs] [-> Ha]. by rewrite IH.
Qed.

(** The characters of a canonical identity after the scheme. *)
Definition id_char (a : ascii) : bool := is_alnum a || one_of "._-/" a.
Definition domain_char (a : ascii) : bool := label_char a || Ascii.eqb a ".".

Ltac class_cases a := destruct a as [[] [] [] [] [] [] [] []]; first [discriminate | reflexivity].

Lemma domain_char_id a : domain_char a = true → id_char a = true.
Proof. by class_cases a. Qed.
Lemma domain_char_host a : domain_char a = true → host_char a = true.
Proof. by class_cases a. Qed.
Lemma segment_char_id a : is_alnum a || one_of "._-" a = true → id_char a = true.
Proof. by class_cases a. Qed.
Lemma id_char_not_ctl a : id_char a = true → negb (is_ctl a) = true.
Proof. by class_cases a. Qed.
Lemma label_char_domain a : label_char a = true → domain_char a = true.
Proof. unfold domain_char. by intros ->. Qed.

Lemma all_ascii_join (f : ascii → bool) c l :
  f c = true → Forall (λ s, all_ascii f s = true) l → all_ascii f (join (String c "") l) = true.
Proof.
  intros Hc. induction 1 as [|x [|y l] Hx Hl IH]; [done|done|].
  rewrite join_cons_cons, !all_ascii_app, Hx, IH. cbn. by rewrite Hc.
Qed.

Lemma join_split_on c s : join (String c "") (split_on c s) = s.
Proof.
  induction s as [|a s IH]; [done|]. cbn [split_on]. pose proof (split_on_nonempty c s) as Hne.
  destruct (Ascii.eqb_spec a c) as [->|_]; destruct (split_on c s) as [|x l]; [done| |done|].
  - by rewrite join_cons_cons, IH.
  - destruct l as [|y l]; [cbn in *; by subst|]. rewrite join_cons_cons in *. by rewrite string_app_cons, IH.
Qed.

Lemma valid_domain_chars td : isValidTrustDomain td = true → all_ascii domain_char td = true ∧ td ≠ "".
Proof.
  unfold isValidTrustDomain. destruct (String.eqb_spec td "") as [|Hne]; [done|]. destruct (_ <? _)%nat; [done|]. cbn [orb].
  intros H. split; [|done]. rewrite <- (join_split_on "." td) at 1. apply (all_ascii_join domain_char "."); [done|].
  apply Forall_forall. intros label Hin. apply forallb_forall with (x := label) in H; [|by apply list_elem_of_In].
  apply negb_true_iff, orb_false_iff in H as [_ H]. apply negb_false_iff in H. unfold trust_label in H.
  apply andb_true_iff in H as [_ H]. by apply all_ascii_impl with (f := label_char); [apply label_char_domain|].
Qed.

(** * A canonical identity is accepted *)

Definition good_segment (seg : string) : Prop := path_segment seg = true ∧ seg ≠ "." ∧ seg ≠ "..".

Definition canonical_id (td : string) (segs : list string) : string := "spiffe://" +:+ td +:+ "/" +:+ join "/" segs.

Lemma good_segment_chars seg : good_segment seg → all_ascii id_char seg = true ∧ seg ≠ "" ∧ no_char slash seg.
Proof.
  intros (H & _ & _). apply andb_true_iff in H as [Hne H]. apply negb_true_iff, String.eqb_neq in Hne. split_and!; [|done|].
  - eapply all_ascii_impl; [apply segment_char_id|exact H].
  - by eapply all_ascii_no_char; [|exact H].
Qed.

Lemma check_segments_good segs : Forall good_segment segs → check_segments segs = None.
Proof.
  induction 1 as [|seg segs (H & H1 & H2) Hs IH]; [done|]. cbn [check_segments]. unfold check_segment. rewrite H.
  apply String.eqb_neq in H1, H2. rewrite H1, H2. unfold path_segment in H. destruct (String.eqb seg ""); [done|]. exact IH.
Qed.

Section Accepted.
Variable ip_literal : string → bool.

Lemma url_parse_canonical td segs :
  isValidTrustDomain td = true → Forall good_segment segs →
  url_parse ip_literal (canonical_id td segs)
  = Some (mkURL "spiffe" "" None td ("/" +:+ join "/" segs) ("/" +:+ join "/" segs) "" "").
Proof.
  intros Htd Hsegs. destruct (valid_domain_chars td Htd) as [Hd Hne].
  assert (all_ascii id_char ("/" +:+ join "/" segs) = true) as Hp.
  { rewrite all_ascii_app. cbn [andb]. apply (all_ascii_join id_char slash); [done|]. eapply Forall_impl; [exact Hsegs|].
    intros seg Hseg. by apply good_segment_chars. }
  assert (all_ascii id_char td = true) as Hdi by (eapply all_ascii_impl; [apply domain_char_id|exact Hd]).
  set (tail := td +:+ "/" +:+ join "/" segs).
  assert (all_ascii id_char tail = true) as Ht by (unfold tail; by rewrite all_ascii_app, Hdi).
  change (canonical_id td segs) with ("spiffe://" +:+ tail).
  assert (∀ c, id_char c = false → no_char c tail) as Hno by (intros c Hc; by eapply all_ascii_no_char).
  assert (∀ c, domain_char c = false → no_char c td) as Hnd by (intros c Hc; by eapply all_ascii_no_char).
  unfold url_parse. rewrite cut_no_char by (apply no_char_app; split; [done|by apply Hno]). cbn [default unescape].
  unfold parse_no_fragment. rewrite (all_ascii_app _ "spiffe://").
  rewrite (all_ascii_impl id_char _ tail id_char_not_ctl Ht). cbn [negb andb all_ascii].
  change (scheme_loop true ("spiffe://" +:+ tail)) with (Scheme "spiffe" ("//" +:+ tail)).
  change (String.eqb ("spiffe://" +:+ tail) "*") with false. change (to_lower "spiffe") with "spiffe". cbn iota beta.
  unfold cut_query. rewrite cut_no_char by (apply no_char_app; split; [done|by apply Hno]).
  change (has_prefix "/" ("//" +:+ tail)) with true. change (has_prefix "//" ("//" +:+ tail)) with (has_prefix "" tail).
  assert (has_prefix "" tail = true) as -> by (by destruct tail).
  change (String.eqb "spiffe" "") with false. cbn [negb orb andb].
  change (trim_prefix "//" ("//" +:+ tail)) with tail. unfold tail. change ("/" +:+ ?x) with (String slash x).
  rewrite cut_at by (by apply Hnd).
  assert (parse_authority ip_literal td = Some (None, td)) as ->.
  { unfold parse_authority. rewrite cut_last_no_char by (by apply Hnd). unfold parse_host.
    assert (has_prefix "[" td = false) as ->.
    { destruct (has_prefix "[" td) eqn:E; [|done]. apply has_prefix_iff in E as [r ->]. by apply andb_true_iff in Hd as [? _]. }
    rewrite cut_last_no_char by (by apply Hnd). rewrite unescape_host_plain; [done|by apply Hnd|].
    by eapply all_ascii_impl; [apply domain_char_host|]. }
  unfold with_path. cbn [u_scheme u_opaque u_user u_host u_query u_fragment default].
  rewrite unescape_plain; [done|]. by eapply all_ascii_no_char; [|exact Hp].
Qed.

Lemma canonical_accepted td segs :
  isValidTrustDomain td = true → segs ≠ [] → Forall good_segment segs → (String.length (canonical_id td segs) <= 2048)%nat →
  validateSPIFFEID ip_literal (canonical_id td segs) = None.
Proof.
  intros Htd Hne Hsegs Hlen. destruct (valid_domain_chars td Htd) as [Hd Htdne].
  assert (∀ c, domain_char c = false → no_char c td) as Hnd by (intros c Hc; by eapply all_ascii_no_char).
  unfold validateSPIFFEID. change (String.eqb (canonical_id td segs) "") with false.
  rewrite (proj2 (Nat.ltb_ge _ _)) by done. rewrite contains_char, url_parse_canonical by done.
  assert (has_char "%" (canonical_id td segs) = false) as ->.
  { apply no_char_app. split; [done|]. apply no_char_app. split; [by apply Hnd|]. apply no_char_app. split; [done|].
    eapply all_ascii_no_char with (f := id_char); [done|]. apply (all_ascii_join id_char slash); [done|].
    eapply Forall_impl; [exact Hsegs|]. intros seg Hseg. by apply good_segment_chars. }
  cbn [u_scheme u_user u_query u_fragment u_path]. unfold u_Port, u_Hostname, split_host_port. cbn [u_host].
  rewrite cut_last_no_char by (by apply Hnd).
  assert (has_prefix "[" td = false) as ->.
  { destruct (has_prefix "[" td) eqn:E; [|done]. apply has_prefix_iff in E as [r ->]. by apply andb_true_iff in Hd as [? _]. }
  cbn [andb fst snd]. change (String.eqb "spiffe" "spiffe") with true. change (String.eqb "" "") with true. cbn [negb].
  rewrite bool_decide_true by done. cbn [negb orb]. apply String.eqb_neq in Htdne. rewrite Htdne, Htd. cbn [negb].
  change (trim_prefix "/" ("/" +:+ join "/" segs)) with (join "/" segs).
  assert (split_on slash (join "/" segs) = segs) as Hsplit.
  { apply split_on_join; [done|]. eapply Forall_impl; [exact Hsegs|]. intros seg Hseg. by apply good_segment_chars. }
  rewrite Hsplit. destruct (String.eqb_spec (join "/" segs) "") as [He|_]; [|by apply check_segments_good].
  rewrite He in Hsplit. cbn in Hsplit. subst segs. apply Forall_cons in Hsegs as [Hseg _]. by apply good_segment_chars in Hseg as (_ & ? & _).
Qed.

End Accepted.

(** * The identity of a VM *)

Definition workload_type (cfg : SPIREConfig) : string :=
  if String.eqb (sc_workload_type cfg) "" then "microvm" else sc_workload_type cfg.

Lemma safe_id_good s : safe_id s = true → good_segment s.
Proof.
  intros [Hne Hs]%andb_true_iff. unfold good_segment, path_segment. rewrite Hne. split_and!.
  - eapply all_ascii_impl; [|exact Hs]. intros a. by class_cases a.
  - by intros ->.
  - by intros ->.
Qed.

Lemma good_segment_split seg : good_segment seg → split_on slash seg = [seg].
Proof. intros Hseg. apply split_on_plain. by apply good_segment_chars in Hseg as (_ & _ & ?). Qed.

(** The pieces of a built identity; a workload type may hold several. *)
Lemma BuildSPIFFEID_split cfg g u vm : safe_id g = true → safe_id u = true → safe_id vm = true →
  split_on slash (BuildSPIFFEID cfg g u vm)
  = split_on slash ("spiffe://" +:+ normalizeTrustDomain (sc_trust_domain cfg)) ++
    ["g"; g; "u"; u; "w"] ++ split_on slash (workload_type cfg) ++ [vm].
Proof.
  intros Hg Hu Hvm. unfold BuildSPIFFEID. fold (workload_type cfg).
  rewrite <- string_app_assoc.
  change (?a +:+ "/g/" +:+ g +:+ "/u/" +:+ u +:+ "/w/" +:+ workload_type cfg +:+ "/" +:+ vm) with
    (a +:+ String slash ("g" +:+ String slash (g +:+ String slash ("u" +:+ String slash (u +:+ String slash ("w" +:+ String slash
      (workload_type cfg +:+ String slash vm))))))).
  rewrite !split_on_app_slash, (good_segment_split g), (good_segment_split u), (good_segment_split vm) by (by apply safe_id_good). done.
Qed.

Lemma BuildSPIFFEID_canonical cfg g u vm :
  BuildSPIFFEID cfg g u vm = canonical_id (normalizeTrustDomain (sc_trust_domain cfg)) ["g"; g; "u"; u; "w"; workload_type cfg; vm].
Proof. done. Qed.

Section Identity.
Context `{HH : Host}.

Lemma CreateVMWorkloadEntry_ok cfg vm g u tr id : sc_enabled cfg = true →
  fst (CreateVMWorkloadEntry cfg vm g u tr) = Ok id →
  id = BuildSPIFFEID cfg g u vm ∧ safe_id vm = true ∧ safe_id g = true ∧ safe_id u = true ∧
  isValidTrustDomain (normalizeTrustDomain (sc_trust_domain cfg)) = true.
Proof.
  intros He. unfold CreateVMWorkloadEntry. rewrite He. cbn [negb].
  unfold ValidateIdentityParams, validateVMID, validateTrustDomain.
  destruct (String.eqb g ""); [done|]. destruct (safe_id g); [|done]. destruct (String.eqb u ""); [done|]. destruct (safe_id u); [|done].
  destruct (String.eqb vm ""); [done|]. destruct (safe_id vm); [|done]. cbn [negb].
  destruct (String.eqb _ ""); [done|]. destruct (isValidTrustDomain _); [|done]. cbn [negb].
  unfold checked. rewrite bind_unfold. destruct (RegisterWorkload _ _ tr) as [[err|] tr']; [done|]. by intros [= <-].
Qed.

(** C26: an identity that was registered names one VM of one owner and group: no
    other VM, owner or group of the configuration is ever given it.  If the
    configured workload type is a path segment and the identity is not too long, it
    is accepted wherever identities are checked. *)
Theorem registered_identity cfg vm g u tr id
    (He : sc_enabled cfg = true) (Hok : fst (CreateVMWorkloadEntry cfg vm g u tr) = Ok id) :
  (∀ vm' g' u' tr', fst (CreateVMWorkloadEntry cfg vm' g' u' tr') = Ok id → vm' = vm ∧ g' = g ∧ u' = u) ∧
  (good_segment (workload_type cfg) → (String.length id <= 2048)%nat → ∀ ip_literal, validateSPIFFEID ip_literal id = None).
Proof.
  destruct (CreateVMWorkloadEntry_ok cfg vm g u tr id He Hok) as (-> & Hvm & Hg & Hu & Htd). split.
  - intros vm' g' u' tr' Hok'. destruct (CreateVMWorkloadEntry_ok cfg vm' g' u' tr' _ He Hok') as (Heq & Hvm' & Hg' & Hu' & _).
    apply (f_equal (split_on slash)) in Heq. rewrite !BuildSPIFFEID_split in Heq by done.
    apply app_inv_head in Heq. cbn in Heq. injection Heq as Eg Eu Erest. apply app_inj_tail in Erest as [_ Evm]. done.
  - intros Hw Hlen ip_literal. rewrite BuildSPIFFEID_canonical in *. apply canonical_accepted; [done|done| |done].
    repeat (apply Forall_cons; split); try (by apply safe_id_good); try done; apply Forall_nil.
Qed.

End Identity.

Definition spire_ex : SPIREConfig := mkSPIRE true true "/run/spire.sock" " Poley.DEV" "spiffe://poley.dev/agent" "" 3600 3 8307 "" "".

Lemma registered_identity_witness :
  let H := scripted_host [] "" in let id := "spiffe://poley.dev/g/dev/u/ann/w/microvm/id1" in
  (∀ vm' g' u' tr', fst (CreateVMWorkloadEntry spire_ex vm' g' u' tr') = Ok id → vm' = "id1" ∧ g' = "dev" ∧ u' = "ann") ∧
  (good_segment (workload_type spire_ex) → (String.length id <= 2048)%nat → ∀ ip_literal, validateSPIFFEID ip_literal id = None).
Proof. apply (registered_identity (HH := scripted_host [] "") spire_ex "id1" "dev" "ann" []); reflexivity. Defined.

(** Only the trust domain is checked when an identity is built: a workload type with
    a blank, or long names, give an identity that is registered and then refused. *)
Example bad_workload_type_is_registered :
  let cfg := mkSPIRE true true "" "td" "p" "a b" 60 3 0 "" "" in
  match fst (@CreateVMWorkloadEntry (scripted_host [] "") cfg "id1" "g" "u" []) with
  | Ok id => validateSPIFFEID (λ _, true) id ≠ None
  | Err _ => False
  end.
Proof. vm_compute. done. Qed.

(** One identity has several accepted spellings: an upper-case scheme, an empty
    port, query or fragment. *)
Example accepted_spellings :
  Forall (λ id, validateSPIFFEID (λ _, true) id = None)
    ["spiffe://td/vm"; "SPIFFE://td/vm"; "spiffe://td:/vm"; "spiffe://td/vm?"; "spiffe://td/vm#"].
Proof. repeat constructor. Qed.

(** A query of an identity whose entry is not found, or whose listing has no entry
    number, counts as deleted. *)
Example entry_id_ex : find_entry_id ("Found 1 entry" +:+ bytes [10] +:+ "Entry ID         : 1a2b-3c" +:+ bytes [10]) = Some "1a2b-3c".
Proof. vm_compute. reflexivity. Qed.
