(* ===== verification/Svid.v ===== *)
(** Issued identities (src/internal/spire: svid.go, manager.go, credwrite_unix.go):
    the checks of an X.509 SVID, its document, the file that holds it, and the
    manager that renews it before it expires and removes it once it has.

    Time passes with every call; a context is its deadline, and the environment says
    when it is cancelled.  The file system is the one directory of the document, which
    holds it and its temporary file. *)

From S2P Require Import Prelude GoStrings GoUrl Json Spire.

(* @type internal/spire/svid.go SVID *)
Record Cert : Type := mkCert {
  ct_raw : string; ct_uris : list string; ct_not_before : Z; ct_not_after : Z; ct_ca : bool; ct_basic : bool;
  ct_key_usage : Z; ct_extensions : list (list Z * bool); ct_eku : list Z; ct_unknown_eku : list (list Z); ct_public : string }.

(** A private key: its public half, and whether that can be compared. *)
Record Key : Type := mkKey { k_public : string; k_comparable : bool; k_secret : string }.

(* @type internal/spire/svid.go SVID *)
Record SVID : Type := mkSVID {
  sv_id : string; sv_certs : list (option Cert); sv_key : option Key; sv_bundle : list (option Cert);
  sv_issued : Z; sv_expires : Z }.

(** Cryptography and encodings of the standard library. *)
Class Crypto : Type := {
  cr_verify : list Cert → list Cert → Cert → Z → Z → option error;  (* roots, intermediates, leaf, time, usage *)
  cr_pem_encode : string → string → string;                         (* type, bytes *)
  cr_pem_decode : string → option (string * string) * string;       (* the first block, and what follows it *)
  cr_parse_cert : string → result Cert;
  cr_marshal_key : Key → result string;
  cr_parse_key : string → result (option Key);                      (* [None]: not a signer *)
  cr_format_time : Z → string;
  cr_parse_time : string → result Z;
  cr_ip_literal : string → bool }.

Definition oidKeyUsage : list Z := [2; 5; 29; 15]%Z.
Definition KeyUsageDigitalSignature : Z := 1.
Definition KeyUsageSigning : Z := 96.  (* certSign, crlSign *)
Definition ExtKeyUsageServerAuth : Z := 1.
Definition ExtKeyUsageClientAuth : Z := 2.

(* @src internal/spire/svid.go:20-26 svidDocPath *)
Definition svidDocPath : string := "/var/run/secrets/spiffe/svid.json".
Definition SVIDDocPath : string := svidDocPath.

(** * The checks *)

(* @func internal/spire/svid.go firstNilCert *)
Fixpoint firstNilCert (i : Z) (certs : list (option Cert)) : Z :=
  match certs with
  | [] => -1
  | None :: _ => i
  | Some _ :: certs => firstNilCert (i + 1) certs
  end.

(* @func internal/spire/svid.go leaf *)
Definition leaf (s : SVID) : option Cert := match sv_certs s with c :: _ => c | [] => None end.

Definition present_certs (l : list (option Cert)) : list Cert := omap id l.

(* @func internal/spire/svid.go validateWindow *)
Definition validateWindow (s : SVID) (leaf : Cert) : option error :=
  if negb (sv_issued s <? sv_expires s)%Z then
    Some (Errorf "svid: expires_at %s is not after issued_at %s" [AInt (sv_expires s); AInt (sv_issued s)])
  else
    let effExpiry := foldl (λ e c, if (ct_not_after c <? e)%Z then ct_not_after c else e) (ct_not_after leaf)
      (present_certs (sv_certs s) ++ present_certs (sv_bundle s)) in
    if (effExpiry <? sv_expires s)%Z then
      Some (Errorf "svid: expires_at %s is after the earliest chain/bundle NotAfter %s" [AInt (sv_expires s); AInt effExpiry])
    else if (sv_issued s <? ct_not_before leaf)%Z then
      Some (Errorf "svid: issued_at %s is before leaf NotBefore %s" [AInt (sv_issued s); AInt (ct_not_before leaf)])
    else None.

Fixpoint bundle_loop (i : Z) (certs : list Cert) : option error :=
  match certs with
  | [] => None
  | c :: certs => if ct_ca c then bundle_loop (i + 1) certs
      else Some (Errorf "svid: trust bundle entry %d is not a CA certificate" [AInt i])
  end.

(* @func internal/spire/svid.go validateBundle *)
Definition validateBundle (s : SVID) : option error := bundle_loop 0 (present_certs (sv_bundle s)).

(* @func internal/spire/svid.go hasExtKeyUsage *)
Definition hasExtKeyUsage (c : Cert) (want : Z) : bool := existsb (Z.eqb want) (ct_eku c).

(** The first extension with the number decides. *)
(* @func internal/spire/svid.go hasCriticalExtension *)
Definition hasCriticalExtension (c : Cert) (oid : list Z) : bool :=
  match List.find (λ e, bool_decide (fst e = oid)) (ct_extensions c) with Some (_, critical) => critical | None => false end.

(* @func internal/spire/svid.go validateLeafConstraints *)
Definition validateLeafConstraints (leaf : Cert) (id : string) : option error :=
  if negb (bool_decide (ct_uris leaf = [id])) then Some (Errorf "svid: leaf URI SAN %v does not match SPIFFE ID %q" [AStr id])
  else if negb (ct_basic leaf) then
    Some (ErrorsNew "svid: leaf certificate is missing the Basic Constraints extension (cA=false required)")
  else if ct_ca leaf then Some (ErrorsNew "svid: leaf certificate must not be a CA")
  else if negb (hasCriticalExtension leaf oidKeyUsage) then
    Some (ErrorsNew "svid: leaf certificate must carry a critical Key Usage extension")
  else if (Z.land (ct_key_usage leaf) KeyUsageDigitalSignature =? 0)%Z then
    Some (ErrorsNew "svid: leaf certificate lacks digitalSignature key usage")
  else if negb (Z.land (ct_key_usage leaf) KeyUsageSigning =? 0)%Z then
    Some (ErrorsNew "svid: leaf certificate must not assert certSign/crlSign key usage")
  else if negb (bool_decide (ct_eku leaf = []) && bool_decide (ct_unknown_eku leaf = [])) &&
          (negb (hasExtKeyUsage leaf ExtKeyUsageClientAuth) || negb (hasExtKeyUsage leaf ExtKeyUsageServerAuth)) then
    Some (ErrorsNew "svid: leaf certificate has an EKU extension but does not assert both clientAuth and serverAuth")
  else None.

(* @func internal/spire/svid.go keyMatchesLeaf *)
Definition keyMatchesLeaf (key : option Key) (leaf : Cert) : option error :=
  match key with
  | None => Some (ErrorsNew "svid: private key is missing")
  | Some k =>
      if negb (k_comparable k) then Some (ErrorsNew "svid: private key type does not support public-key comparison")
      else if negb (String.eqb (k_public k) (ct_public leaf)) then
        Some (ErrorsNew "svid: private key does not match the leaf certificate")
      else None
  end.

(** The first error of some checks. *)
Fixpoint first_of (checks : list (option error)) : option error :=
  match checks with
  | [] => None
  | Some err :: _ => Some err
  | None :: checks => first_of checks
  end.

Section Checks.
Context `{CR : Crypto}.

(* @func internal/spire/svid.go Validate *)
Definition Validate (s : SVID) : option error :=
  match validateSPIFFEID cr_ip_literal (sv_id s) with
  | Some err => Some err
  | None =>
      let nil_cert := firstNilCert 0 (sv_certs s) in
      let nil_bundle := firstNilCert 0 (sv_bundle s) in
      if bool_decide (sv_certs s = []) then Some (ErrorsNew "svid: certificate chain is empty")
      else if (0 <=? nil_cert)%Z then Some (Errorf "svid: certificate chain entry %d is nil" [AInt nil_cert])
      else if bool_decide (sv_bundle s = []) then Some (ErrorsNew "svid: trust bundle is empty")
      else match sv_key s, leaf s with
      | None, _ => Some (ErrorsNew "svid: private key is missing")
      | Some key, Some leaf =>
          if (0 <=? nil_bundle)%Z then Some (Errorf "svid: trust bundle entry %d is nil" [AInt nil_bundle])
          else first_of [validateWindow s leaf; validateBundle s; validateLeafConstraints leaf (sv_id s); keyMatchesLeaf (Some key) leaf]
      | Some _, None => Some (ErrorsNew "svid: certificate chain is empty")
      end
  end.

Fixpoint verify_usages (usages : list Z) (roots intermediates : list Cert) (leaf : Cert) (now : Z) : option error :=
  match usages with
  | [] => None
  | eku :: usages =>
      match cr_verify roots intermediates leaf now eku with
      | Some err => Some (Errorf "svid: chain verification failed for EKU %d: %w" [AInt eku; AWrap err])
      | None => verify_usages usages roots intermediates leaf now
      end
  end.

(* @func internal/spire/svid.go Verify *)
Definition Verify (s : SVID) (now : Z) : option error :=
  match Validate s with
  | Some err => Some err
  | None =>
      match leaf s with
      | None => Some (ErrorsNew "svid: certificate chain is empty")
      | Some leaf =>
          if (now <? sv_issued s)%Z then Some (Errorf "svid: not yet valid (issued_at %s is in the future)" [AInt (sv_issued s)])
          else if (sv_expires s <=? now)%Z then Some (Errorf "svid: expired (expires_at %s)" [AInt (sv_expires s)])
          else verify_usages [ExtKeyUsageClientAuth; ExtKeyUsageServerAuth] (present_certs (sv_bundle s))
                 (present_certs (tail (sv_certs s))) leaf now
      end
  end.

(** * The document *)

(* @func internal/spire/svid.go encodeCertsPEM *)
Definition encodeCertsPEM (certs : list Cert) : string :=
  foldl (λ b c, b +:+ cr_pem_encode "CERTIFICATE" (ct_raw c)) "" certs.

(** Every block shortens the text. *)
Fixpoint decode_certs (fuel : nat) (rest : string) : result (list Cert) :=
  match fuel with
  | O => Ok []
  | S fuel =>
      let '(block, rest) := cr_pem_decode rest in
      match block with
      | None => Ok []
      | Some (type, raw) =>
          if negb (String.eqb type "CERTIFICATE") then decode_certs fuel rest
          else match cr_parse_cert raw with
          | Err err => Err (Errorf "parse certificate: %w" [AWrap err])
          | Ok c => let? certs := decode_certs fuel rest in Ok (c :: certs)
          end
      end
  end.

(* @func internal/spire/svid.go decodeCertsPEM *)
Definition decodeCertsPEM (data : string) : result (list Cert) :=
  match decode_certs (S (String.length data)) data with
  | Err err => Err err
  | Ok [] => Err (ErrorsNew "no certificates found in PEM block")
  | Ok certs => Ok certs
  end.

(* @func internal/spire/svid.go decodeKeyPEM *)
Definition decodeKeyPEM (data : string) : result Key :=
  let '(block, rest) := cr_pem_decode data in
  match block with
  | None => Err (ErrorsNew "no PEM block found")
  | Some (type, der) =>
      let trailing := trim_space rest in
      if negb (String.eqb trailing "") then
        Err (Errorf "unexpected trailing data after PEM block (%d bytes); a persisted key must contain exactly one block"
          [AInt (Z.of_nat (String.length trailing))])
      else if negb (String.eqb type "PRIVATE KEY") then
        Err (Errorf "unexpected PEM block type %q, want %q" [AStr type; AStr "PRIVATE KEY"])
      else match cr_parse_key der with
      | Err err => Err (Errorf "parse PKCS8 key: %w" [AWrap err])
      | Ok None => Err (ErrorsNew "key does not implement crypto.Signer")
      | Ok (Some key) => Ok key
      end
  end.

(** [json.Marshal] of a [Document], as a tree. *)
(* @src internal/spire/svid.go:51-58 Document *)
Definition document_json (id certs key bundle issued expires : string) : json := enc_struct
  [f_str "spiffe_id" id; f_str "x509_svid" certs; f_str "x509_svid_key" key; f_str "bundle" bundle;
   f_str "issued_at" issued; f_str "expires_at" expires].

(* @src internal/spire/svid.go:298-323 MarshalDocument *)
Definition MarshalDocument (s : SVID) : result json :=
  match Validate s with
  | Some err => Err err
  | None =>
      match sv_key s with
      | None => Err (ErrorsNew "svid: private key is missing")
      | Some key =>
          match cr_marshal_key key with
          | Err err => Err (Errorf "svid: marshal private key: %w" [AWrap err])
          | Ok keyDER => Ok (document_json (sv_id s) (encodeCertsPEM (present_certs (sv_certs s)))
              (cr_pem_encode "PRIVATE KEY" keyDER) (encodeCertsPEM (present_certs (sv_bundle s)))
              (cr_format_time (sv_issued s)) (cr_format_time (sv_expires s)))
          end
      end
  end.

Definition wrap_err {A} (what : string) (r : result A) : result A :=
  match r with Ok a => Ok a | Err err => Err (Errorf what [AWrap err]) end.

(* @func internal/spire/svid.go ParseDocument *)
Definition ParseDocument (data : json) : result SVID :=
  match members data with
  | None => Err (Errorf "svid: decode document: %w" [])
  | Some l =>
      let field k := getf l k "" dec_str in
      match field "spiffe_id", field "x509_svid", field "x509_svid_key", field "bundle", field "issued_at", field "expires_at" with
      | Some id, Some x509_svid, Some x509_svid_key, Some bundle_pem, Some issued_at, Some expires_at =>
          let? certs := wrap_err "svid: decode x509_svid: %w" (decodeCertsPEM x509_svid) in
          let? bundle := wrap_err "svid: decode bundle: %w" (decodeCertsPEM bundle_pem) in
          let? key := wrap_err "svid: decode key: %w" (decodeKeyPEM x509_svid_key) in
          let? issuedAt := wrap_err "svid: parse issued_at: %w" (cr_parse_time issued_at) in
          let? expiresAt := wrap_err "svid: parse expires_at: %w" (cr_parse_time expires_at) in
          let s := mkSVID id (Some <$> certs) (Some key) (Some <$> bundle) issuedAt expiresAt in
          match Validate s with Some err => Err err | None => Ok s end
      | _, _, _, _, _, _ => Err (Errorf "svid: decode document: %w" [])
      end
  end.

End Checks.
