(* ===== verification/SvidManager.v ===== *)
(** The manager of an issued identity (src/internal/spire: manager.go,
    credwrite_unix.go): the file that holds the document, and the loop that renews
    the identity before it expires and removes it once it has.

    Time passes with every call; a context is its deadline, and the environment says
    when it is cancelled.  The file system is the one directory of the document: the
    document and its temporary file, each with a mode and a content. *)

From S2P Require Import Prelude GoStrings GoUrl Json Spire Svid.

Definition minute : Z := 60 * 1000000000.

(* @src internal/spire/manager.go:18-23 DefaultSVIDTTL *)
Definition DefaultSVIDTTL : Z := 60 * minute.
Definition DefaultRefreshBefore : Z := 15 * minute.
Definition svidFileMode : Z := 256.  (* 0400 *)
Definition svidDirMode : Z := 448.   (* 0700 *)

(** [None] for what is not given. *)
(* @type internal/spire/manager.go ManagerConfig *)
Record ManagerConfig : Type := mkManagerConfig { mc_source : bool; mc_path : string; mc_refresh : Z; mc_retry : Z }.

Record Manager : Type := mkManager { mg_path : string; mg_refresh : Z; mg_retry : Z }.

Definition last_char (s : string) : option ascii := match string_rev s with String a _ => Some a | EmptyString => None end.

(* @func internal/spire/manager.go NewManager *)
Definition NewManager (cfg : ManagerConfig) : result Manager :=
  if negb (mc_source cfg) then Err (ErrorsNew "svid manager: source is required")
  else
    let path := if String.eqb (mc_path cfg) "" then svidDocPath else mc_path cfg in
    if negb (is_rooted path) then Err (Errorf "svid manager: path must be absolute, got %q" [AStr path])
    else if bool_decide (last_char path = Some slash) then
      Err (Errorf "svid manager: path must include a filename, got a trailing separator: %q" [AStr path])
    else
      let last := match cut_last slash path with Some (_, name) => name | None => path end in
      if String.eqb last "" || String.eqb last "." || String.eqb last ".." then
        Err (Errorf "svid manager: path must end in a filename, got %q" [AStr path])
      else
        let refreshBefore := if (mc_refresh cfg <=? 0)%Z then DefaultRefreshBefore else mc_refresh cfg in
        let retryInterval := if (mc_retry cfg <=? 0)%Z then (refreshBefore / 3)%Z else mc_retry cfg in
        let retryInterval := if (retryInterval <=? 0)%Z then minute else retryInterval in
        Ok (mkManager path refreshBefore retryInterval).

(** * The host *)

Record file : Type := mkFile { f_mode : Z; f_data : json }.
(** [unix.Fstat] of the directory. *)
Record dir_stat : Type := mkStat { ds_is_dir : bool; ds_mode : Z; ds_uid : Z }.

Record SWorld : Type := mkS {
  sw_clock : Z; sw_doc : option file; sw_tmp : option file; sw_current : option SVID; sw_started : bool; sw_tick : nat }.

Class SvidEnv : Type := {
  se_crypto :: Crypto;
  se_elapsed : nat → N;
  se_fault : nat → option error;
  se_stat : nat → result dir_stat;
  se_euid : Z;
  se_cancelled : nat → option error;                 (* the context of the owner *)
  se_fetch : nat → Z → result (option SVID) }.

Definition SM (A : Type) : Type := State SWorld A.

Definition ErrNoEntry : string := "no such file or directory".
Definition ErrDeadline : string := "context deadline exceeded".
Definition ErrSPIREUnavailable : string := "SPIRE agent unreachable".

Section Host.
Context `{SE : SvidEnv}.

Definition pass (d : Z) (w : SWorld) : SWorld :=
  mkS (sw_clock w + d + Z.of_N (se_elapsed (sw_tick w)))%Z (sw_doc w) (sw_tmp w) (sw_current w) (sw_started w) (S (sw_tick w)).

Definition ask {A} (f : nat → A) : SM A := λ w, (f (sw_tick w), pass 0 w).
Definition wait (d : Z) : SM unit := λ w, (tt, pass d w).
Definition clock : SM Z := λ w, (sw_clock w, w).
Definition set_doc (f : option file) (w : SWorld) : SWorld :=
  mkS (sw_clock w) f (sw_tmp w) (sw_current w) (sw_started w) (sw_tick w).
Definition set_tmp (f : option file) (w : SWorld) : SWorld :=
  mkS (sw_clock w) (sw_doc w) f (sw_current w) (sw_started w) (sw_tick w).
Definition set_current (s : option SVID) (w : SWorld) : SWorld :=
  mkS (sw_clock w) (sw_doc w) (sw_tmp w) s (sw_started w) (sw_tick w).
Definition set_started (w : SWorld) : SWorld := mkS (sw_clock w) (sw_doc w) (sw_tmp w) (sw_current w) true (sw_tick w).
Definition change (f : SWorld → SWorld) : SM unit := λ w, (tt, f w).
(* @func internal/spire/manager.go Current *)
Definition current : SM (option SVID) := λ w, (sw_current w, w).

(** A call with an effect if it succeeds. *)
Definition attempt (f : SWorld → SWorld) : SM (option error) :=
  let* e := ask se_fault in
  match e with Some err => ret (Some err) | None => change f ;;; ret None end.

(** * The file *)

(** [checked] with a message around the error. *)
Definition must (m : SM (option error)) (what : string) (k : SM (option error)) : SM (option error) :=
  checked m (λ err, Some (Errorf what [AWrap err])) k.

(* @func internal/spire/credwrite_unix.go validateSVIDDirFD *)
Definition validateSVIDDirFD (dir : string) : SM (option error) :=
  let* st := ask se_stat in
  ret match st with
  | Err err => Some (Errorf "fstat SVID directory %q: %w" [AStr dir; AWrap err])
  | Ok st =>
      if negb (ds_is_dir st) then Some (Errorf "SVID directory path %q is not a directory" [AStr dir])
      else if negb (Z.land (ds_mode st) 63 =? 0)%Z then
        Some (Errorf "SVID directory %q has insecure permissions %#o (must be group/other-inaccessible)" [AStr dir; AInt (Z.land (ds_mode st) 511)])
      else if (0 <=? se_euid)%Z && negb (ds_uid st =? se_euid)%Z && negb (ds_uid st =? 0)%Z then
        Some (Errorf "SVID directory %q is owned by uid %d, not the current user (%d) or root" [AStr dir; AInt (ds_uid st); AInt se_euid])
      else None
  end.

(** The temporary file is removed on the way out, if that works. *)
Definition cleaning (m : SM (option error)) (what : string) (k : SM (option error)) : SM (option error) :=
  let* e := m in
  match e with
  | Some err => attempt (set_tmp None) ;;; ret (Some (Errorf what [AWrap err]))
  | None => k
  end.

(** [O_CREAT|O_EXCL]. *)
Definition create_tmp : SM (option error) := λ w,
  match sw_tmp w with
  | Some _ => (Some (ErrorsNew "file exists"), pass 0 w)
  | None => attempt (set_tmp (Some (mkFile svidFileMode JNull))) w
  end.

(** The file is created with the mode, chmod'ed, filled, synced, closed, renamed;
    what a failed write leaves is not told apart from an empty file. *)
(* @func internal/spire/credwrite_unix.go writeCredentialAtomic *)
Definition writeCredentialAtomic (dir : string) (data : json) : SM (option error) :=
  checked (ask se_fault) (λ err, Some (Errorf "open SVID directory %q (no-follow): %w" [AStr dir; AWrap err])) (
  checked (validateSVIDDirFD dir) Some (
  attempt (set_tmp None) ;;;
  must create_tmp "create temp SVID file: %w" (
  cleaning (ask se_fault) "chmod temp SVID file: %w" (
  cleaning (attempt (set_tmp (Some (mkFile svidFileMode data)))) "write temp SVID file: %w" (
  cleaning (ask se_fault) "sync temp SVID file: %w" (
  cleaning (ask se_fault) "close temp SVID file: %w" (
  cleaning (attempt (λ w, set_tmp None (set_doc (sw_tmp w) w))) "rename SVID file into place: %w" (
  must (ask se_fault) "fsync SVID directory after rename: %w" (ret None))))))))).

Definition is_no_entry (e : error) : bool := errors_Is e ErrNoEntry.

(* @func internal/spire/credwrite_unix.go removeCredential *)
Definition removeCredential (dir : string) : SM (option error) :=
  let* e := ask se_fault in
  match e with
  | Some err =>
      (* The directory, and with it the document, is not there. *)
      if is_no_entry err then change (set_doc None) ;;; ret None
      else ret (Some (Errorf "open SVID directory %q (no-follow): %w" [AStr dir; AWrap err]))
  | None =>
      checked (validateSVIDDirFD dir) Some (
      let* e := attempt (set_doc None) in
      match e with
      | Some err =>
          if is_no_entry err then change (set_doc None) ;;; must (ask se_fault) "fsync SVID directory after removal: %w" (ret None)
          else ret (Some (Errorf "unlink SVID document: %w" [AWrap err]))
      | None => must (ask se_fault) "fsync SVID directory after removal: %w" (ret None)
      end)
  end.

(* @func internal/spire/manager.go writeDocument *)
Definition writeDocument (m : Manager) (data : json) : SM (option error) :=
  let dir := filepath_dir (mg_path m) in
  checked (ask se_fault) (λ err, Some (Errorf "create SVID directory %q: %w" [AStr dir; AWrap err])) (
  writeCredentialAtomic dir data).

(** * Issuing *)

(** [ctx.Err()] of a context with a deadline. *)
Definition ctx_err (deadline : option Z) : SM (option error) :=
  let* e := ask se_cancelled in
  let* t := clock in
  ret match e with
  | Some err => Some err
  | None => match deadline with Some d => if (d <=? t)%Z then Some (ErrorsNew ErrDeadline) else None | None => None end
  end.

(* @func internal/spire/manager.go issueAndPersist *)
Definition issueAndPersist (m : Manager) (deadline : option Z) : SM (option error) :=
  checked (ctx_err deadline) Some (
  let* t := clock in
  let* r := ask (λ n, se_fetch n t) in
  match r with
  | Err err => ret (Some err)
  | Ok svid =>
      checked (ctx_err deadline) Some (
      match svid with
      | None => ret (Some (ErrorsNew "source returned a nil SVID without an error"))
      | Some svid =>
          let* now := clock in
          match Verify svid now with
          | Some err => ret (Some (Errorf "issued SVID failed verification: %w" [AWrap err]))
          | None =>
              let remaining := (sv_expires svid - now)%Z in
              if (remaining <=? mg_refresh m)%Z then
                ret (Some (Errorf "issued SVID remaining lifetime %s does not exceed refresh lead time %s; refusing"
                  [AInt remaining; AInt (mg_refresh m)]))
              else match MarshalDocument svid with
              | Err err => ret (Some (Errorf "render SVID document: %w" [AWrap err]))
              | Ok data =>
                  checked (ctx_err deadline) Some (
                  checked (writeDocument m data) Some (
                  change (set_current (Some svid)) ;;; ret None))
              end
          end
      end)
  end).

(** Whether the loop is launched, or the error.  A nil context is not
    represented. *)
(* @func internal/spire/manager.go Start *)
Definition Start (m : Manager) : SM (option error) := λ w,
  if sw_started w then (Some (ErrorsNew "svid manager: already started"), w)
  else
    (let* e := issueAndPersist m None in
     ret match e with
     | Some err =>
         Some (if errors_Is err ErrSPIREUnavailable then
             Errorf "svid issuance failed at startup, SPIRE agent unreachable, refusing to start workload without a cryptographic identity: %w" [AWrap err]
           else Errorf "svid issuance failed at startup, refusing to start workload without a valid cryptographic identity: %w" [AWrap err])
     | None => None
     end) (set_started w).

(** * The loop *)

(* @func internal/spire/manager.go rotateOnce *)
Definition rotateOnce (m : Manager) : SM (option error) :=
  let* cur := current in
  match cur with
  | Some cur =>
      let* now := clock in
      if (sv_expires cur - now <=? 0)%Z then
        ret (Some (Errorf "current SVID expired before it could be rotated (expires_at %s)" [AInt (sv_expires cur)]))
      else issueAndPersist m (Some (sv_expires cur))
  | None => issueAndPersist m None
  end.

(* @func internal/spire/manager.go currentExpired *)
Definition currentExpired : SM bool :=
  let* cur := current in
  let* now := clock in
  ret match cur with Some cur => negb (now <? sv_expires cur)%Z | None => true end.

(* @func internal/spire/manager.go invalidate *)
Definition invalidate (m : Manager) : SM (option error) :=
  checked (removeCredential (filepath_dir (mg_path m)))
    (λ err, Some (Errorf "remove expired SVID document %q: %w" [AStr (mg_path m); AWrap err]))
    (change (set_current None) ;;; ret None).

(* @func internal/spire/manager.go refreshDelay *)
Definition refreshDelay (m : Manager) : SM Z :=
  let* cur := current in
  let* now := clock in
  ret match cur with
  | None => 0%Z
  | Some cur => Z.max 0 (sv_expires cur - mg_refresh m - now)
  end.

(* @func internal/spire/manager.go failureDelay *)
Definition failureDelay (m : Manager) : SM Z :=
  let* cur := current in
  let* now := clock in
  let d := match cur with
    | Some cur =>
        let untilExpiry := (sv_expires cur - now)%Z in
        if (0 <? untilExpiry)%Z && (untilExpiry <? mg_retry m)%Z then untilExpiry else mg_retry m
    | None => mg_retry m
    end in
  ret (Z.max 0 d).

(** What one round of the loop did. *)
Inductive round_outcome : Type :=
  | Stopped
  | Rotated
  | Retained (err : error)
  | Removed (err : error)
  | RemovalFailed (err rmErr : error).

(** One round: the wait, unless the context is done, and a rotation. *)
(* @src internal/spire/manager.go:286-322 run *)
Definition round (m : Manager) (failing : bool) : SM round_outcome :=
  let* delay := refreshDelay m in
  let* delay := if failing then failureDelay m else ret delay in
  let* cancelled := ask se_cancelled in
  match cancelled with
  | Some _ => ret Stopped
  | None =>
      wait delay ;;;
      let* e := rotateOnce m in
      match e with
      | None => ret Rotated
      | Some err =>
          let* expired := currentExpired in
          if expired : bool then
            let* e := invalidate m in
            ret match e with Some rmErr => RemovalFailed err rmErr | None => Removed err end
          else ret (Retained err)
      end
  end.

(** At most [n] rounds, until it is stopped; [last] is what the round before did. *)
(* @func internal/spire/manager.go run *)
Fixpoint run (n : nat) (m : Manager) (failing : bool) (last : option round_outcome) : SM (option round_outcome) :=
  match n with
  | O => ret last
  | S n =>
      let* o := round m failing in
      match o with
      | Stopped => ret (Some Stopped)
      | Rotated => run n m false (Some o)
      | _ => run n m true (Some o)
      end
  end.

End Host.
