(* ===== verification/SvidSpec.v ===== *)
(** What the manager of identities guarantees: only a verified identity with time to
    spare is written, whole and readable by its owner alone; it is renewed or retried
    in time, and once it has expired it is gone from disk and memory, or its removal is
    retried. *)

From S2P Require Import Prelude GoStrings GoUrl Json Spire Svid SvidManager.

Section Manager.
Context `{SE : SvidEnv} (m : Manager).

(** * A logic for the manager *)

Definition swp {A} (c : SM A) (Q : A → SWorld → Prop) (w : SWorld) : Prop := Q (fst (c w)) (snd (c w)).

Lemma swp_ret {A} (a : A) Q w : Q a w → swp (ret a) Q w.
Proof. done. Qed.
Lemma swp_bind {A B} (c : SM A) (k : A → SM B) Q w : swp c (λ a w1, swp (k a) Q w1) w → swp (bind c k) Q w.
Proof. unfold swp. rewrite bind_unfold. by destruct (c w). Qed.
Lemma swp_mono {A} (c : SM A) (Q R : A → SWorld → Prop) w : swp c Q w → (∀ a w1, Q a w1 → R a w1) → swp c R w.
Proof. unfold swp. auto. Qed.
Lemma swp_checked {A} (c : SM (option error)) (fail : error → A) (k : SM A) Q w :
  swp c (λ e w1, match e with Some err => Q (fail err) w1 | None => swp k Q w1 end) w → swp (checked c fail k) Q w.
Proof. intros H. apply swp_bind. eapply swp_mono; [exact H|]. by intros [err|] w1. Qed.

(** * The invariant *)

(** It was verified at some moment, with more than the lead time left. *)
Definition issued (s : SVID) (w : SWorld) : Prop :=
  ∃ t, (t ≤ sw_clock w)%Z ∧ Verify s t = None ∧ (mg_refresh m < sv_expires s - t)%Z.

Definition doc_of (s : SVID) (f : file) : Prop := f_mode f = svidFileMode ∧ MarshalDocument s = Ok (f_data f).

Definition inv (w : SWorld) : Prop :=
  (∀ s, sw_current w = Some s → issued s w) ∧ (∀ f, sw_doc w = Some f → ∃ s, doc_of s f ∧ issued s w).

(** Time and the temporary file do not matter. *)
Definition later (w w1 : SWorld) : Prop :=
  (sw_clock w ≤ sw_clock w1)%Z ∧ sw_doc w1 = sw_doc w ∧ sw_current w1 = sw_current w.

Lemma later_refl w : later w w.
Proof. done. Qed.
Lemma later_trans w w1 w2 : later w w1 → later w1 w2 → later w w2.
Proof. intros (? & ? & ?) (? & ? & ?). split_and!; [lia|congruence|congruence]. Qed.
Lemma issued_later s w w1 : (sw_clock w ≤ sw_clock w1)%Z → issued s w → issued s w1.
Proof. intros H (t & ? & ? & ?). exists t. split_and!; [lia|done|done]. Qed.
Lemma inv_later w w1 : later w w1 → inv w → inv w1.
Proof.
  intros (Hc & Hd & Hcur) [H1 H2]. split.
  - intros s. rewrite Hcur. intros Hs. eapply issued_later; [exact Hc|auto].
  - intros f. rewrite Hd. intros Hf. destruct (H2 f Hf) as (s & ? & ?). exists s. split; [done|]. by eapply issued_later.
Qed.

Lemma later_pass w : later w (pass 0 w).
Proof. split_and!; [cbn; lia|done|done]. Qed.

(** Computations that only let time pass. *)
Definition idle {A} (c : SM A) : Prop := ∀ w, later w (snd (c w)).

Lemma swp_idle {A} (c : SM A) Q w : idle c → (∀ a w1, later w w1 → Q a w1) → swp c Q w.
Proof. intros Hc HQ. apply HQ, Hc. Qed.
Lemma idle_ask {A} (f : nat → A) : idle (ask f).
Proof. intros w. apply later_pass. Qed.
Lemma idle_ret {A} (a : A) : idle (ret a).
Proof. by intros w. Qed.
Lemma idle_bind {A B} (c : SM A) (k : A → SM B) : idle c → (∀ a, idle (k a)) → idle (bind c k).
Proof. intros Hc Hk w. rewrite bind_unfold. specialize (Hc w). destruct (c w) as [a w1]. eapply later_trans; [exact Hc|apply Hk]. Qed.
Lemma idle_ctx_err d : idle (ctx_err d).
Proof. apply idle_bind; [apply idle_ask|]. intros e. by apply idle_bind. Qed.
Lemma idle_stat dir : idle (validateSVIDDirFD dir).
Proof. apply idle_bind; [apply idle_ask|]. intros st. apply idle_ret. Qed.
Lemma idle_attempt f : (∀ w, later w (f w)) → idle (attempt f).
Proof. intros Hf. apply idle_bind; [apply idle_ask|]. intros [e|]; [apply idle_ret|]. intros w. apply Hf. Qed.
Lemma idle_tmp f : idle (attempt (set_tmp f)).
Proof. by apply idle_attempt. Qed.
Lemma idle_create : idle create_tmp.
Proof. intros w. unfold create_tmp. destruct (sw_tmp w); [apply later_pass|apply idle_tmp]. Qed.

(** * The file is written whole or not at all *)

(** What a step on the temporary file leaves there when it succeeds. *)
Lemma swp_attempt f Q w :
  (∀ e w1, later w w1 → sw_tmp w1 = sw_tmp w → Q (Some e) w1) →
  (∀ w1, later w w1 → sw_tmp w1 = sw_tmp w → Q None (f w1)) → swp (attempt f) Q w.
Proof. intros He Hn. apply swp_bind. unfold swp at 1. cbn. destruct (se_fault _); [apply He|apply Hn]; first [apply later_pass|done]. Qed.

Lemma swp_fault Q w : (∀ e w1, later w w1 → sw_tmp w1 = sw_tmp w → Q e w1) → swp (ask se_fault) Q w.
Proof. intros H. apply H; [apply later_pass|done]. Qed.

Lemma swp_must c what k Q w :
  swp c (λ e w1, match e with Some err => Q (Some (Errorf what [AWrap err])) w1 | None => swp k Q w1 end) w → swp (must c what k) Q w.
Proof. apply swp_checked. Qed.

Lemma swp_cleaning c what k Q w :
  swp c (λ e w1, match e with
                 | Some err => ∀ w2, later w1 w2 → Q (Some (Errorf what [AWrap err])) w2
                 | None => swp k Q w1 end) w → swp (cleaning c what k) Q w.
Proof.
  intros H. apply swp_bind. eapply swp_mono; [exact H|]. intros [err|] w1 H1; [|done].
  apply swp_bind, swp_idle; [apply idle_tmp|]. intros e w2 Hw. by apply H1.
Qed.

(** The document is the one before, or the new one. *)
Definition written (data : json) (w : SWorld) (e : option error) (w1 : SWorld) : Prop :=
  (sw_clock w ≤ sw_clock w1)%Z ∧ sw_current w1 = sw_current w ∧
  (sw_doc w1 = Some (mkFile svidFileMode data) ∨ e ≠ None ∧ sw_doc w1 = sw_doc w).

Lemma written_failed data w err w1 : later w w1 → written data w (Some err) w1.
Proof. intros (? & ? & ?). split_and!; [done|done|by right]. Qed.

Lemma writeCredentialAtomic_spec dir data w : swp (writeCredentialAtomic dir data) (written data w) w.
Proof.
  unfold writeCredentialAtomic.
  apply swp_checked, swp_idle; [apply idle_ask|]. intros [e|] w1 H1; [by apply written_failed|].
  apply swp_checked, swp_idle; [apply idle_stat|]. intros [e|] w2 H2; [by eapply written_failed, later_trans|].
  assert (later w w2) as H02 by (by eapply later_trans). clear H1 H2.
  apply swp_bind, swp_idle; [apply idle_tmp|]. intros e3 w3 H3. assert (later w w3) as H03 by (by eapply later_trans). clear H02 H3.
  apply swp_must, swp_idle; [apply idle_create|]. intros [e|] w4 H4; [by eapply written_failed, later_trans|].
  assert (later w w4) as H04 by (by eapply later_trans). clear H03 H4.
  apply swp_cleaning, swp_fault. intros [e|] w5 H5 T5; [intros w6 H6; eapply written_failed, later_trans; [|exact H6]; by eapply later_trans|].
  assert (later w w5) as H05 by (by eapply later_trans). clear H04 H5.
  apply swp_cleaning, swp_attempt.
  { intros e w6 H6 T6 w7 H7. eapply written_failed, later_trans; [|exact H7]. by eapply later_trans. }
  intros w6 H6 T6. assert (later w (set_tmp (Some (mkFile svidFileMode data)) w6)) as H07 by (by eapply later_trans). 
  revert H07. generalize (set_tmp (Some (mkFile svidFileMode data)) w6) (eq_refl : sw_tmp (set_tmp (Some (mkFile svidFileMode data)) w6) = Some (mkFile svidFileMode data)).
  intros w7 T7 H07. clear H6 T6 H05 T5.
  apply swp_cleaning, swp_fault. intros [e|] w8 H8 T8; [intros w9 H9; eapply written_failed, later_trans; [|exact H9]; by eapply later_trans|].
  apply swp_cleaning, swp_fault. intros [e|] w9 H9 T9; [intros w10 H10; eapply written_failed, later_trans; [|exact H10]; eapply later_trans; [|exact H9]; by eapply later_trans|].
  assert (later w w9) as H09 by (eapply later_trans; [|exact H9]; by eapply later_trans).
  apply swp_cleaning, swp_attempt.
  { intros e w10 H10 T10 w11 H11. eapply written_failed, later_trans; [|exact H11]. by eapply later_trans. }
  intros w10 H10 T10. assert (later w w10) as (Hc & Hd & Hcur) by (by eapply later_trans).
  apply swp_must, swp_fault. intros e w11 (Hc11 & Hd11 & Hcur11) T11.
  assert (written data w e w11) as Hw.
  { split_and!; [cbn in Hc11; lia|by rewrite Hcur11|]. left. rewrite Hd11. cbn. rewrite T10, T9, T8. exact T7. }
  destruct e as [e|]; [|exact Hw]. destruct Hw as (? & ? & [?|[_ ?]]); (split_and!; [done|done|]); [by left|by right].
Qed.

Lemma issued_now s now w : (now ≤ sw_clock w)%Z → Verify s now = None → (mg_refresh m < sv_expires s - now)%Z → issued s w.
Proof. intros. by exists now. Qed.

(** The last identity that was written is held, and it is the document. *)
Definition held (w : SWorld) : Prop := ∃ s f, sw_current w = Some s ∧ sw_doc w = Some f ∧ doc_of s f.

Definition issue_post (w : SWorld) (e : option error) (w1 : SWorld) : Prop :=
  inv w1 ∧ match e with None => held w1 | Some _ => sw_current w1 = sw_current w end.

Lemma issue_failed w w1 err : inv w → later w w1 → issue_post w (Some err) w1.
Proof. intros Hi Hl. split; [by eapply inv_later|]. apply Hl. Qed.

Lemma inv_written svid data now w e w1 :
  inv w → written data w e w1 → MarshalDocument svid = Ok data → (now ≤ sw_clock w)%Z → Verify svid now = None →
  (mg_refresh m < sv_expires svid - now)%Z → inv w1.
Proof.
  intros [Hc Hd] (Ht & Hcur & Hdoc) Hm Hn Hv Hr. split.
  - intros s. rewrite Hcur. intros Hs. eapply issued_later; [exact Ht|auto].
  - intros f Hf. destruct Hdoc as [Hdoc|[_ Hdoc]]; rewrite Hdoc in Hf.
    + injection Hf as <-. exists svid. split; [done|]. eapply issued_now with (now := now); [lia|done|done].
    + destruct (Hd f Hf) as (s & ? & ?). exists s. split; [done|]. by eapply issued_later.
Qed.

Lemma issueAndPersist_spec d w : inv w → swp (issueAndPersist m d) (issue_post w) w.
Proof.
  intros Hi. unfold issueAndPersist.
  apply swp_checked, swp_idle; [apply idle_ctx_err|]. intros [e|] w1 H1; [by apply issue_failed|].
  apply swp_bind, swp_idle; [by intros ?|]. intros t w2 H2. apply swp_bind, swp_idle; [apply idle_ask|]. intros r w3 H3.
  assert (later w w3) as H03 by (eapply later_trans, later_trans; [exact H1|exact H2|exact H3]).
  destruct r as [svid|err]; [|by apply issue_failed].
  apply swp_checked, swp_idle; [apply idle_ctx_err|]. intros [e|] w4 H4; (assert (later w w4) as H04 by (by eapply later_trans)); [by apply issue_failed|].
  destruct svid as [svid|]; [|by apply issue_failed]. apply swp_bind. unfold swp at 1. cbn [clock fst snd].
  set (now := sw_clock w4). destruct (Verify svid now) eqn:Hv; [by apply issue_failed|]. cbn zeta.
  destruct (Z.leb_spec (sv_expires svid - now) (mg_refresh m)) as [?|Hr]; [by apply issue_failed|].
  destruct (MarshalDocument svid) as [data|err] eqn:Hm; [|by apply issue_failed].
  apply swp_checked, swp_idle; [apply idle_ctx_err|]. intros [e|] w5 H5; (assert (later w w5) as H05 by (by eapply later_trans)); [by apply issue_failed|].
  apply swp_checked. unfold writeDocument. cbn zeta.
  apply swp_checked, swp_idle; [apply idle_ask|]. intros [e|] w6 H6; (assert (later w w6) as H06 by (by eapply later_trans)); [by apply issue_failed|].
  eapply swp_mono; [apply writeCredentialAtomic_spec|]. intros e w7 Hw.
  assert (inv w6) as Hi6 by (by eapply inv_later). assert (now ≤ sw_clock w6)%Z as Hnow by (destruct H5, H6; subst now; lia).
  pose proof (inv_written svid data now w6 e w7 Hi6 Hw Hm Hnow Hv Hr) as Hi7. destruct e as [err|].
  - split; [done|]. destruct Hw as (_ & -> & _). apply H06.
  - destruct Hw as (Ht & _ & [Hd|[? _]]); [|done]. split.
    + split; [|apply Hi7]. intros s [= <-]. eapply issued_now with (now := now); [cbn; lia|done|done].
    + exists svid, (mkFile svidFileMode data). done.
Qed.

Definition remove_post (w : SWorld) (e : option error) (w1 : SWorld) : Prop :=
  (sw_clock w ≤ sw_clock w1)%Z ∧ sw_current w1 = sw_current w ∧ (sw_doc w1 = None ∨ e ≠ None ∧ sw_doc w1 = sw_doc w).

Lemma remove_later w w1 w2 e : remove_post w e w1 → later w1 w2 → remove_post w e w2.
Proof. intros (? & ? & ?) (? & Hd & ?). split_and!; [lia|congruence|]. by rewrite Hd. Qed.

Lemma removeCredential_spec dir w : swp (removeCredential dir) (remove_post w) w.
Proof.
  assert (∀ err w1, later w w1 → remove_post w (Some err) w1) as Hfail by (intros err w1 (? & ? & ?); split_and!; [done|done|by right]).
  assert (∀ w1 w2, later w w1 → later (set_doc None w1) w2 → ∀ e, remove_post w e w2) as Hgone.
  { intros w1 w2 (? & ? & ?) (? & Hd & ?) e. split_and!; [cbn in *; lia|cbn in *; congruence|left; by rewrite Hd]. }
  unfold removeCredential. apply swp_bind, swp_idle; [apply idle_ask|]. intros [err|] w1 H1.
  { destruct (is_no_entry err); [|by apply Hfail]. by apply (Hgone w1 _ H1). }
  apply swp_checked, swp_idle; [apply idle_stat|]. intros [err|] w2 H2; (assert (later w w2) as H02 by (by eapply later_trans)); [by apply Hfail|].
  apply swp_bind, swp_attempt.
  - intros err w3 H3 _. assert (later w w3) as H03 by (by eapply later_trans).
    destruct (is_no_entry err); [|by apply Hfail]. apply swp_bind. unfold swp at 1. cbn [change fst snd].
    apply swp_must, swp_fault. intros [e|] w4 H4 _; by apply (Hgone w3).
  - intros w3 H3 _. assert (later w w3) as H03 by (by eapply later_trans).
    apply swp_must, swp_fault. intros [e|] w4 H4 _; by apply (Hgone w3).
Qed.

Lemma invalidate_spec w : inv w → swp (invalidate m) (λ e w1, inv w1 ∧
  match e with None => sw_current w1 = None ∧ sw_doc w1 = None | Some _ => sw_current w1 = sw_current w end) w.
Proof.
  intros [Hc Hd]. unfold invalidate. apply swp_checked. eapply swp_mono; [apply removeCredential_spec|].
  intros e w1 (Ht & Hcur & Hdoc).
  assert (∀ f, sw_doc w1 = Some f → ∃ s, doc_of s f ∧ issued s w1) as Hdocs.
  { intros f Hf. destruct Hdoc as [Hn|[_ Hs]]; [congruence|]. rewrite Hs in Hf. destruct (Hd f Hf) as (s & ? & ?).
    exists s. split; [done|]. by eapply issued_later. }
  destruct e as [err|].
  - split; [split; [|done]|done]. intros s. rewrite Hcur. intros Hs. eapply issued_later; [exact Ht|auto].
  - destruct Hdoc as [Hn|[? _]]; [|done]. split; [split; [done|exact Hdocs]|done].
Qed.

(** * Rounds *)

(** What holds after a round. *)
Definition round_post (o : round_outcome) (w : SWorld) : Prop :=
  inv w ∧
  match o with
  | Rotated => held w
  | Retained _ => ∃ s, sw_current w = Some s ∧ (sw_clock w < sv_expires s)%Z
  | Removed _ => sw_current w = None ∧ sw_doc w = None
  | Stopped | RemovalFailed _ _ => True
  end.

Lemma inv_pass d w : (0 ≤ d)%Z → inv w → inv (pass d w).
Proof. intros Hd. apply inv_later. split_and!; [cbn; lia|done|done]. Qed.

Lemma rotateOnce_spec w : inv w → swp (rotateOnce m) (issue_post w) w.
Proof.
  intros Hi. unfold rotateOnce. apply swp_bind. unfold swp at 1. cbn [current fst snd].
  destruct (sw_current w) as [cur|]; [|by apply issueAndPersist_spec].
  apply swp_bind. unfold swp at 1. cbn [clock fst snd]. destruct (_ <=? 0)%Z; [by apply issue_failed|]. by apply issueAndPersist_spec.
Qed.

Lemma delays_nonneg failing w :
  swp (let* delay := refreshDelay m in if failing : bool then failureDelay m else ret delay) (λ d w1, (0 ≤ d)%Z ∧ w1 = w) w.
Proof. unfold swp, refreshDelay, failureDelay, bind, current, clock, ret. cbn. destruct failing, (sw_current w); cbn; (split; [lia|done]). Qed.

Lemma round_spec failing w : inv w → swp (round m failing) round_post w.
Proof.
  intros Hi. unfold round.
  assert (∀ (k : Z → SM round_outcome), (∀ d, (0 ≤ d)%Z → swp (k d) round_post w) →
    swp (let* delay := refreshDelay m in let* delay := if failing then failureDelay m else ret delay in k delay) round_post w) as Hdelay.
  { intros k Hk. pose proof (delays_nonneg failing w) as Hd. unfold swp in *. rewrite !bind_unfold in *.
    destruct (refreshDelay m w) as [d0 w0]. rewrite bind_unfold. destruct failing.
    - destruct (failureDelay m w0) as [d w1]. destruct Hd as [Hd Hw]. cbn in Hw. subst w1. by apply Hk.
    - destruct Hd as [Hd Hw]. cbn in Hd, Hw. subst w0. by apply Hk. }
  apply Hdelay. intros d Hd. apply swp_bind, swp_idle; [apply idle_ask|]. intros [c|] w1 H1; [split; [by eapply inv_later|done]|].
  assert (inv w1) as Hi1 by (by eapply inv_later).
  apply swp_bind. unfold swp at 1. cbn [wait fst snd]. apply swp_bind.
  eapply swp_mono; [by apply rotateOnce_spec, inv_pass|]. intros [err|] w2 [Hi2 H2]; [|by split].
  apply swp_bind. unfold swp at 1, currentExpired, bind, current, clock, ret. cbn [fst snd].
  destruct (sw_current w2) as [cur|] eqn:Hcur.
  - destruct (Z.ltb_spec (sw_clock w2) (sv_expires cur)) as [Hlt|_]; cbn [negb]; [by split; [|exists cur]|].
    apply swp_bind. eapply swp_mono; [by apply invalidate_spec|]. intros [e|] w3 [Hi3 H3]; by split.
  - apply swp_bind. eapply swp_mono; [by apply invalidate_spec|]. intros [e|] w3 [Hi3 H3]; by split.
Qed.

Definition last_post (o : option round_outcome) (w : SWorld) : Prop :=
  inv w ∧ match o with Some o => round_post o w | None => True end.

Lemma run_spec n failing last w : last_post last w → swp (run n m failing last) last_post w.
Proof.
  revert failing last w. induction n as [|n IH]; intros failing last w Hl; [exact Hl|]. cbn [run].
  apply swp_bind. eapply swp_mono; [apply round_spec, Hl|]. intros o w1 Ho.
  assert (last_post (Some o) w1) as Hlo by (split; [apply Ho|exact Ho]). destruct o; [exact Hlo|apply IH, Hlo..].
Qed.

(** The manager's life: a start, and if it succeeds some rounds. *)
Definition life (n : nat) : SM (option error * option round_outcome) :=
  let* e := Start m in
  match e with
  | Some err => ret (Some err, None)
  | None => let* o := run n m false None in ret (None, o)
  end.

Definition first_world (clock : Z) : SWorld := mkS clock None None None false 0.

(** C27: the manager fails closed.  Whatever the source, the clock and the file system
    do, an identity that is held or written was verified with more than the lead time
    left, and the document is complete and of mode 0400.  After a round that renewed,
    what is written is what is held; after one that failed, the identity has not
    expired, or it is gone from memory and disk, or its removal failed. *)
Theorem manager_fails_closed n t : swp (life n) (λ out, last_post (snd out)) (first_world t).
Proof.
  assert (inv (first_world t)) as H0 by (split; done). unfold life. apply swp_bind. unfold swp at 1, Start. cbn [sw_started first_world].
  set (w := set_started (first_world t)). assert (inv w) as Hw by (split; done). clearbody w.
  pose proof (issueAndPersist_spec None w Hw) as Hs. unfold swp in Hs. rewrite bind_unfold.
  destruct (issueAndPersist m None w) as [[err|] w1]; cbn [fst snd ret] in *; destruct Hs as [Hi Hs].
  - apply swp_ret. by split.
  - apply swp_bind. eapply swp_mono; [apply run_spec; by split|]. intros o w2 Ho. by apply swp_ret.
Qed.

(** While an identity is valid, no delay goes past its expiry, and a manager that is
    not failing wakes the lead time before it. *)
Lemma delays_in_time s w : sw_current w = Some s → (sw_clock w < sv_expires s)%Z → (0 ≤ mg_refresh m)%Z → (0 ≤ mg_retry m)%Z →
  (sw_clock w + fst (failureDelay m w) ≤ sv_expires s)%Z ∧
  (fst (refreshDelay m w) = Z.max 0 (sv_expires s - mg_refresh m - sw_clock w))%Z.
Proof.
  intros Hs Hc Hr Hy. unfold failureDelay, refreshDelay, bind, current, clock, ret. cbn. rewrite Hs. cbn. split; [|done].
  destruct (Z.ltb_spec 0 (sv_expires s - sw_clock w)); [|lia]. destruct (Z.ltb_spec (sv_expires s - sw_clock w) (mg_retry m)); cbn; lia.
Qed.

End Manager.

(** * The document is read back *)

(** What is known of PEM: decoding gives the first block and the rest, and a block
    is not empty. *)
Class PemLaws `{CR : Crypto} : Prop := {
  pem_decode_encode type raw rest : type = "CERTIFICATE" ∨ type = "PRIVATE KEY" →
    cr_pem_decode (cr_pem_encode type raw +:+ rest) = (Some (type, raw), rest);
  pem_decode_nothing : fst (cr_pem_decode "") = None;
  pem_encode_nonempty type raw : cr_pem_encode type raw ≠ "" }.

Section Document.
Context `{CR : Crypto} {PL : PemLaws}.

Lemma encodeCertsPEM_acc acc certs :
  foldl (λ b c, b +:+ cr_pem_encode "CERTIFICATE" (ct_raw c)) acc certs = acc +:+ encodeCertsPEM certs.
Proof.
  unfold encodeCertsPEM. revert acc. induction certs as [|c certs IH]; intros acc; cbn [foldl]; [by rewrite string_app_nil_r|].
  rewrite IH, (IH ("" +:+ _)). change ("" +:+ ?s) with s. by rewrite string_app_assoc.
Qed.

Lemma encodeCertsPEM_cons c certs : encodeCertsPEM (c :: certs) = cr_pem_encode "CERTIFICATE" (ct_raw c) +:+ encodeCertsPEM certs.
Proof. unfold encodeCertsPEM at 1. cbn [foldl]. by rewrite encodeCertsPEM_acc. Qed.

Lemma encodeCertsPEM_length certs : (length certs <= String.length (encodeCertsPEM certs))%nat.
Proof.
  induction certs as [|c certs IH]; [cbn; lia|]. rewrite encodeCertsPEM_cons, string_app_length. cbn [length].
  pose proof (pem_encode_nonempty "CERTIFICATE" (ct_raw c)). destruct (cr_pem_encode _ _); [done|]. cbn. lia.
Qed.

Lemma decode_certs_encode fuel certs :
  (length certs < fuel)%nat → Forall (λ c, cr_parse_cert (ct_raw c) = Ok c) certs → decode_certs fuel (encodeCertsPEM certs) = Ok certs.
Proof.
  revert fuel. induction certs as [|c certs IH]; intros [|fuel] Hf Hc; [cbn in Hf; lia| |cbn in Hf; lia|].
  - cbn [decode_certs]. change (encodeCertsPEM []) with "". pose proof pem_decode_nothing. by destruct (cr_pem_decode "") as [[[]|] ?].
  - apply Forall_cons in Hc as [Hc Hcs]. cbn [decode_certs]. rewrite encodeCertsPEM_cons, pem_decode_encode, Hc by auto.
    cbn in Hf. rewrite IH by (done || lia). done.
Qed.

Lemma decodeCertsPEM_encode certs : certs ≠ [] → Forall (λ c, cr_parse_cert (ct_raw c) = Ok c) certs →
  decodeCertsPEM (encodeCertsPEM certs) = Ok certs.
Proof.
  intros Hne Hc. unfold decodeCertsPEM. rewrite decode_certs_encode; [by destruct certs| |done].
  pose proof (encodeCertsPEM_length certs). lia.
Qed.

Lemma firstNilCert_none i certs : (0 <= i)%Z → (firstNilCert i certs < 0)%Z → certs = Some <$> present_certs certs.
Proof.
  revert i. induction certs as [|[c|] certs IH]; intros i Hi H; cbn in *; [done| |lia]. f_equal. apply (IH (i + 1)%Z); [lia|done].
Qed.

Lemma Validate_present s : Validate s = None →
  sv_certs s = Some <$> present_certs (sv_certs s) ∧ sv_certs s ≠ [] ∧
  sv_bundle s = Some <$> present_certs (sv_bundle s) ∧ sv_bundle s ≠ [] ∧ is_Some (sv_key s).
Proof.
  unfold Validate. destruct (validateSPIFFEID _ _); [done|]. cbn zeta. destruct (bool_decide_reflect (sv_certs s = [])); [done|].
  destruct (Z.leb_spec 0 (firstNilCert 0 (sv_certs s))); [done|]. destruct (bool_decide_reflect (sv_bundle s = [])); [done|].
  destruct (sv_key s), (leaf s); try done. destruct (Z.leb_spec 0 (firstNilCert 0 (sv_bundle s))); [done|]. intros _.
  split_and!; [by apply (firstNilCert_none 0)|done|by apply (firstNilCert_none 0)|done|by eexists].
Qed.

(** What survives being written: certificates whose bytes parse to them, a key that
    is encoded to something that decodes to it, times of whole seconds. *)
Definition storable (s : SVID) : Prop :=
  Forall (λ c, cr_parse_cert (ct_raw c) = Ok c) (present_certs (sv_certs s) ++ present_certs (sv_bundle s)) ∧
  (∀ k der, sv_key s = Some k → cr_marshal_key k = Ok der → cr_parse_key der = Ok (Some k)) ∧
  cr_parse_time (cr_format_time (sv_issued s)) = Ok (sv_issued s) ∧ cr_parse_time (cr_format_time (sv_expires s)) = Ok (sv_expires s).

(** the document that is written is read back as the identity it was written
    from. *)
Theorem MarshalDocument_ParseDocument s d (Hs : storable s) (Hd : MarshalDocument s = Ok d) : ParseDocument d = Ok s.
Proof.
  destruct Hs as ([Hc Hb]%Forall_app & Hk & Hi & He). unfold MarshalDocument in Hd. destruct (Validate s) eqn:Hv; [done|].
  destruct (Validate_present s Hv) as (Ec & Nc & Eb & Nb & [key Ek]). rewrite Ek in Hd.
  destruct (cr_marshal_key key) as [der|] eqn:Em; [|done]. injection Hd as <-.
  unfold ParseDocument, document_json, enc_struct. cbn [members present f_str]. cbn -[decodeCertsPEM encodeCertsPEM decodeKeyPEM Validate].
  rewrite !decodeCertsPEM_encode; [|intros H0; rewrite H0 in Eb; done|done|intros H0; rewrite H0 in Ec; done|done].
  cbn -[decodeKeyPEM Validate encodeCertsPEM]. unfold decodeKeyPEM.
  rewrite <- (string_app_nil_r (cr_pem_encode _ _)), pem_decode_encode by auto. cbn -[Validate]. rewrite (Hk key der Ek Em). cbn -[Validate].
  rewrite Hi. cbn -[Validate]. rewrite He. cbn -[Validate].
  assert (mkSVID (sv_id s) (Some <$> present_certs (sv_certs s)) (Some key) (Some <$> present_certs (sv_bundle s)) (sv_issued s) (sv_expires s) = s) as ->.
  { rewrite <- Ec, <- Eb, <- Ek. by destruct s. }
  by rewrite Hv.
Qed.

End Document.

(** A small encoding that satisfies the laws: a letter for the type, then the bytes,
    each one announced. *)
Module Example_document.

Fixpoint announce (raw : string) : string :=
  match raw with EmptyString => "0" | String c raw => String "1" (String c (announce raw)) end.

Fixpoint announced (s : string) : string * string :=
  match s with
  | String "1" (String c s) => let '(raw, rest) := announced s in (String c raw, rest)
  | String _ rest => ("", rest)
  | EmptyString => ("", "")
  end.

Lemma announced_announce raw rest : announced (announce raw +:+ rest) = (raw, rest).
Proof.
  induction raw as [|c raw IH]; [done|]. cbn [announce]. change (String "1" (String c ?s) +:+ ?t) with (String "1" (String c (s +:+ t))).
  cbn [announced]. by rewrite IH.
Qed.

Definition the_id : string := "spiffe://nanofuse.io/vm/vm-1/workload/web".

Definition cert (raw : string) (uris : list string) (ca : bool) : Cert :=
  mkCert raw uris 0 100 ca true KeyUsageDigitalSignature [(oidKeyUsage, true)] [] [] "pub".

Definition the_leaf : Cert := cert "leaf" [the_id] false.
Definition the_ca : Cert := cert "ca" [] true.
Definition the_key : Key := mkKey "pub" true "secret".
Definition the_svid : SVID := mkSVID the_id [Some the_leaf; Some the_ca] (Some the_key) [Some the_ca] 0 100.

Definition crypto : Crypto := {|
  cr_verify _ _ _ _ _ := None;
  cr_pem_encode type raw := String (if String.eqb type "CERTIFICATE" then "C" else "K") (announce raw);
  cr_pem_decode s := match s with
    | String c s => let '(raw, rest) := announced s in (Some (if Ascii.eqb c "C" then "CERTIFICATE" else "PRIVATE KEY", raw), rest)
    | EmptyString => (None, "")
    end;
  cr_parse_cert raw := if String.eqb raw "leaf" then Ok the_leaf else if String.eqb raw "ca" then Ok the_ca else Err (ErrorsNew "x509");
  cr_marshal_key k := Ok (k_secret k);
  cr_parse_key der := Ok (if String.eqb der "secret" then Some the_key else None);
  cr_format_time t := if (t =? 0)%Z then "start" else "end";
  cr_parse_time s := if String.eqb s "start" then Ok 0%Z else if String.eqb s "end" then Ok 100%Z else Err (ErrorsNew "time");
  cr_ip_literal _ := false |}.

Lemma laws : @PemLaws crypto.
Proof.
  split; [|done|done]. intros type raw rest [-> | ->]; cbn [cr_pem_decode cr_pem_encode crypto String.eqb Ascii.eqb Bool.eqb];
    change (String ?c ?s +:+ rest) with (String c (s +:+ rest)); cbn match; by rewrite announced_announce.
Qed.

End Example_document.

Lemma MarshalDocument_ParseDocument_witness : ∃ d,
  @MarshalDocument Example_document.crypto Example_document.the_svid = Ok d ∧
  @ParseDocument Example_document.crypto d = Ok Example_document.the_svid.
Proof.
  destruct (@MarshalDocument Example_document.crypto Example_document.the_svid) as [d|err] eqn:Hd; [|by vm_compute in Hd].
  exists d. split; [done|].
  apply (@MarshalDocument_ParseDocument Example_document.crypto Example_document.laws Example_document.the_svid d); [|done].
  split_and!; [by repeat constructor| |done|done]. intros k der [= <-] [= <-]. done.
Defined.
