(* ===== verification/Issuer.v ===== *)
(** The certificate authority of development and tests (src/internal/spire/issuer.go):
    a source of identities for one workload.  That what it issues passes the checks of
    Svid.v, provided its lifetimes are whole seconds.

    Keys are generated and certificates are made by the standard library; a template is
    what the program asks for. *)

From S2P Require Import Prelude GoStrings GoUrl Spire Svid.
From S2P Require SvidSpec.

Definition second : Z := 1000000000.
(** [t.Truncate(time.Second)]; also what a certificate keeps of a time. *)
Definition truncate (t : Z) : Z := (t - t mod second)%Z.

Record template : Type := mkTemplate {
  tp_serial : Z; tp_uris : list string; tp_not_before : Z; tp_not_after : Z; tp_key_usage : Z; tp_eku : list Z;
  tp_basic : bool; tp_ca : bool }.

Class Issuing : Type := {
  is_crypto :: Crypto;
  is_generate : nat → result Key;
  is_create : template → option Cert → string → result Cert }.       (* the template, the issuer, the public key *)

(** What a certificate has of its template. *)
Definition made_of (t : template) (public : string) (c : Cert) : Prop :=
  ct_uris c = tp_uris t ∧ ct_not_before c = truncate (tp_not_before t) ∧ ct_not_after c = truncate (tp_not_after t) ∧
  ct_ca c = tp_ca t ∧ ct_basic c = tp_basic t ∧ ct_key_usage c = tp_key_usage t ∧
  (tp_key_usage t ≠ 0%Z → hasCriticalExtension c oidKeyUsage = true) ∧ ct_eku c = tp_eku t ∧ ct_public c = public.

(* @type internal/spire/issuer.go LocalCASource *)
Record LocalCASource : Type := mkCA { ca_id : string; ca_ttl : Z; ca_cert : Cert; ca_key : Key; ca_serial : Z }.

Section Issuer.
Context `{IS : Issuing}.

Definition KeyUsageCA : Z := 96.                                     (* certSign, crlSign *)
Definition KeyUsageLeaf : Z := 5.                                    (* digitalSignature, keyEncipherment *)

(** [now]: the clock; [n]: the count of generated keys. *)
(* @func internal/spire/issuer.go NewLocalCASource *)
Definition NewLocalCASource (spiffeID : string) (ttl now : Z) (n : nat) : result LocalCASource :=
  match validateSPIFFEID cr_ip_literal spiffeID with
  | Some err => Err err
  | None =>
      if (ttl <=? 0)%Z then Err (Errorf "local CA: ttl must be positive, got %s" [AInt ttl])
      else match url_parse cr_ip_literal spiffeID with
      | None => Err (Errorf "local CA: parse SPIFFE ID: %w" [])
      | Some u =>
          match is_generate n with
          | Err err => Err (Errorf "local CA: generate key: %w" [AWrap err])
          | Ok caKey =>
              let caValidity := (ttl + 24 * 3600 * second)%Z in
              let caTmpl := mkTemplate 1 ["spiffe://" +:+ u_host u] (now - 60 * second) (now + caValidity) KeyUsageCA [] true true in
              match is_create caTmpl None (k_public caKey) with
              | Err err => Err (Errorf "local CA: create CA certificate: %w" [AWrap err])
              | Ok caCert => Ok (mkCA spiffeID ttl caCert caKey 1)
              end
          end
      end
  end.

(** [cancelled]: the error of the context. *)
(* @func internal/spire/issuer.go FetchSVID *)
Definition FetchSVID (cancelled : option error) (clock : Z) (n : nat) (l : LocalCASource) : result SVID * LocalCASource :=
  match cancelled with
  | Some err => (Err err, l)
  | None =>
      let serial := (ca_serial l + 1)%Z in
      let l := mkCA (ca_id l) (ca_ttl l) (ca_cert l) (ca_key l) serial in
      match url_parse cr_ip_literal (ca_id l) with
      | None => (Err (Errorf "local CA: parse SPIFFE ID: %w" []), l)
      | Some _ =>
          match is_generate n with
          | Err err => (Err (Errorf "local CA: generate leaf key: %w" [AWrap err]), l)
          | Ok leafKey =>
              let now := truncate clock in
              let notAfter := (now + ca_ttl l)%Z in
              let notAfter := if (ct_not_after (ca_cert l) <? notAfter)%Z then ct_not_after (ca_cert l) else notAfter in
              let leafTmpl := mkTemplate serial [ca_id l] (now - second) notAfter KeyUsageLeaf [ExtKeyUsageClientAuth; ExtKeyUsageServerAuth] true false in
              match is_create leafTmpl (Some (ca_cert l)) (k_public leafKey) with
              | Err err => (Err (Errorf "local CA: create leaf certificate: %w" [AWrap err]), l)
              | Ok leaf => (Ok (mkSVID (ca_id l) [Some leaf] (Some leafKey) [Some (ca_cert l)] now notAfter), l)
              end
          end
      end
  end.

(** * What it issues *)

(** The library makes what it is asked for, with keys that can be compared. *)
Definition makes_templates : Prop :=
  (∀ t issuer public c, is_create t issuer public = Ok c → made_of t public c) ∧ (∀ n k, is_generate n = Ok k → k_comparable k = true).

Lemma truncate_idem t : truncate (truncate t) = truncate t.
Proof. unfold truncate, second. Z.to_euclidean_division_equations; lia. Qed.

Lemma truncate_whole t d : (d mod second = 0)%Z → truncate (truncate t + d) = (truncate t + d)%Z.
Proof. unfold truncate, second. intros Hd. Z.to_euclidean_division_equations; lia. Qed.

Lemma truncate_le t : (truncate t ≤ t)%Z.
Proof. unfold truncate, second. Z.to_euclidean_division_equations; lia. Qed.

(** The state of a source between two fetches. *)
Definition source_ok (l : LocalCASource) : Prop :=
  validateSPIFFEID cr_ip_literal (ca_id l) = None ∧ (0 < ca_ttl l)%Z ∧ ct_ca (ca_cert l) = true ∧
  truncate (ct_not_after (ca_cert l)) = ct_not_after (ca_cert l).

Lemma NewLocalCASource_ok id ttl now n l : makes_templates → NewLocalCASource id ttl now n = Ok l → source_ok l ∧ ca_ttl l = ttl ∧
  ct_not_after (ca_cert l) = truncate (now + ttl + 24 * 3600 * second).
Proof.
  intros [Hc _]. unfold NewLocalCASource. destruct (validateSPIFFEID _ _) eqn:Ev; [done|]. destruct (ttl <=? 0)%Z eqn:Et; [done|].
  destruct (url_parse _ _); [|done]. destruct (is_generate n); [|done]. destruct (is_create _ _ _) as [c|] eqn:Ec; [|done].
  intros [= <-]. apply Hc in Ec as (_ & _ & Hna & Hca & _). cbn [tp_not_after tp_ca] in *. unfold source_ok. cbn [ca_id ca_ttl ca_cert].
  rewrite Hna. split_and!; try done; [lia|apply truncate_idem|f_equal; lia].
Qed.

(** What is fetched: a leaf made for it under the authority's certificate. *)
Lemma FetchSVID_leaf l cancelled clock n s l1 : makes_templates → FetchSVID cancelled clock n l = (Ok s, l1) →
  ∃ leaf key serial, let now := truncate clock in let notAfter := Z.min (now + ca_ttl l) (ct_not_after (ca_cert l)) in
  s = mkSVID (ca_id l) [Some leaf] (Some key) [Some (ca_cert l)] now notAfter ∧ k_comparable key = true ∧
  made_of (mkTemplate serial [ca_id l] (now - second) notAfter KeyUsageLeaf [ExtKeyUsageClientAuth; ExtKeyUsageServerAuth] true false)
    (k_public key) leaf ∧
  serial = (ca_serial l + 1)%Z ∧ l1 = mkCA (ca_id l) (ca_ttl l) (ca_cert l) (ca_key l) serial.
Proof.
  intros [Hc Hk]. unfold FetchSVID. cbn [ca_id ca_ttl ca_cert ca_serial]. destruct cancelled; [done|].
  destruct (url_parse _ _); [|done]. destruct (is_generate n) as [key|] eqn:Eg; [|done]. apply Hk in Eg.
  set (notAfter := if (_ <? _)%Z then _ else _).
  assert (notAfter = Z.min (truncate clock + ca_ttl l) (ct_not_after (ca_cert l))) as <-
    by (unfold notAfter; destruct (Z.ltb_spec (ct_not_after (ca_cert l)) (truncate clock + ca_ttl l)); lia).
  destruct (is_create _ _ _) as [leaf|] eqn:Ec; [|done]. apply Hc in Ec. intros [= <- <-]. exists leaf, key, (ca_serial l + 1)%Z. by split_and!.
Qed.

(** Of the checks only those of the window can fail. *)
Lemma Validate_leaf id leaf key ca now notAfter t :
  validateSPIFFEID cr_ip_literal id = None → ct_ca ca = true → k_comparable key = true →
  made_of t (k_public key) leaf → tp_uris t = [id] → tp_key_usage t = KeyUsageLeaf →
  tp_eku t = [ExtKeyUsageClientAuth; ExtKeyUsageServerAuth] → tp_basic t = true → tp_ca t = false →
  let s := mkSVID id [Some leaf] (Some key) [Some ca] now notAfter in Validate s = validateWindow s leaf.
Proof.
  intros Hv Hca Hk (Hu & _ & _ & Hlca & Hb & Hku & Hcrit & Heku & Hpub) Htu Htk Hte Htb Htc s.
  unfold Validate, s. cbn [sv_id sv_certs sv_bundle sv_key firstNilCert Svid.leaf]. rewrite Hv, !bool_decide_false by done.
  change (0 <=? -1)%Z with false. cbn iota. fold s.
  assert (validateBundle s = None) as -> by (unfold validateBundle, s; cbn; by rewrite Hca).
  assert (validateLeafConstraints leaf id = None) as ->.
  { unfold validateLeafConstraints, hasExtKeyUsage. rewrite Hu, Htu, bool_decide_true by done. rewrite Hb, Htb, Hlca, Htc, Hcrit by (by rewrite Htk).
    rewrite Hku, Htk, Heku, Hte. change (negb (bool_decide _ && bool_decide _) && _) with (negb (false && bool_decide (ct_unknown_eku leaf = [])) && false).
    by rewrite andb_false_r. }
  assert (keyMatchesLeaf (Some key) leaf = None) as ->; [unfold keyMatchesLeaf; by rewrite Hk, Hpub, String.eqb_refl|].
  cbn [first_of]. by destruct (validateWindow s leaf).
Qed.

Lemma window_iff s leaf ca : sv_certs s = [Some leaf] → sv_bundle s = [Some ca] →
  validateWindow s leaf = None ↔
  (sv_issued s < sv_expires s ∧ sv_expires s ≤ ct_not_after leaf ∧ sv_expires s ≤ ct_not_after ca ∧ ct_not_before leaf ≤ sv_issued s)%Z.
Proof.
  intros Hc Hb. unfold validateWindow. rewrite Hc, Hb. change (present_certs [Some leaf] ++ present_certs [Some ca]) with [leaf; ca]. cbn [foldl].
  repeat case_match; split; try done; try lia.
Qed.

(** the authority of development and tests issues identities that pass every check,
    as long as it is asked before its own certificate ends and its lifetime is in whole
    seconds: each is for the workload of the source, with a new serial number, begins
    now, ends after the lifetime or with the authority, and is never outlived by it. *)
Theorem local_ca_issues_valid id ttl t0 n0 l cancelled clock n s l1 : makes_templates →
  NewLocalCASource id ttl t0 n0 = Ok l → (ttl mod second = 0)%Z → (truncate clock < ct_not_after (ca_cert l))%Z →
  FetchSVID cancelled clock n l = (Ok s, l1) →
  Validate s = None ∧ sv_id s = id ∧ sv_issued s = truncate clock ∧
  sv_expires s = Z.min (truncate clock + ttl) (ct_not_after (ca_cert l)) ∧
  ca_serial l1 = (ca_serial l + 1)%Z ∧ ca_cert l1 = ca_cert l.
Proof.
  intros Hm Hn Hs Hlt Hf. assert (ca_id l = id) as <-.
  { revert Hn. unfold NewLocalCASource. repeat case_match; try done. by intros [= <-]. }
  apply NewLocalCASource_ok in Hn as ((Hv & Hpos & Hca & Hwhole) & <- & _); [|done].
  apply FetchSVID_leaf in Hf as (leaf & key & serial & -> & Hk & Hmade & -> & ->); [|done]. split_and!; try done.
  erewrite Validate_leaf; [|done..]. apply (window_iff _ leaf (ca_cert l)); [done..|]. cbn [sv_issued sv_expires].
  destruct Hmade as (_ & Hnb & Hna & _). cbn [tp_not_before tp_not_after] in *. rewrite Hna, Hnb. split_and!.
  - lia.
  - destruct (Z.min_spec (truncate clock + ca_ttl l) (ct_not_after (ca_cert l))) as [[_ ->]|[_ ->]]; [by rewrite truncate_whole|lia].
  - lia.
  - pose proof (truncate_le (truncate clock - second)). unfold second in *. lia.
Qed.

(** With any other lifetime nothing that is issued passes the checks: the identity
    claims to be valid for a part of a second longer than its certificate. *)
Lemma fraction_of_a_second id ttl t0 n0 l cancelled clock n s l1 : makes_templates →
  NewLocalCASource id ttl t0 n0 = Ok l → (ttl mod second ≠ 0)%Z → (truncate clock + ttl ≤ ct_not_after (ca_cert l))%Z →
  FetchSVID cancelled clock n l = (Ok s, l1) → Validate s ≠ None.
Proof.
  intros Hm Hn Hs Hle Hf. assert (ca_id l = id) as <-.
  { revert Hn. unfold NewLocalCASource. repeat case_match; try done. by intros [= <-]. }
  apply NewLocalCASource_ok in Hn as ((Hv & Hpos & Hca & Hwhole) & <- & _); [|done].
  apply FetchSVID_leaf in Hf as (leaf & key & serial & -> & Hk & Hmade & -> & ->); [|done].
  erewrite Validate_leaf; [|done..]. rewrite (window_iff _ leaf (ca_cert l)) by done. cbn [sv_issued sv_expires].
  destruct Hmade as (_ & Hnb & Hna & _). cbn [tp_not_before tp_not_after] in *. rewrite Hna, Z.min_l by done.
  intros (_ & Hle' & _). unfold truncate, second in *. Z.to_euclidean_division_equations; lia.
Qed.
End Issuer.

(** * A source *)

Definition maker : Issuing := {|
  is_crypto := SvidSpec.Example_document.crypto;
  is_generate n := Ok (mkKey ("pub" +:+ fmt_d (Z.of_nat n)) true "secret");
  is_create t _ public := Ok (mkCert "der" (tp_uris t) (truncate (tp_not_before t)) (truncate (tp_not_after t)) (tp_ca t) (tp_basic t)
    (tp_key_usage t) [(oidKeyUsage, true)] (tp_eku t) [] public) |}.

Definition source_id : string := "spiffe://nanofuse.io/vm/vm-1/workload/web".

Definition source (ttl : Z) : LocalCASource :=
  match NewLocalCASource (IS := maker) source_id ttl 5500000000 0 with Ok l => l | Err _ => mkCA "" 0 (mkCert "" [] 0 0 false false 0 [] [] [] "") (mkKey "" false "") 0 end.

Lemma local_ca_issues_valid_witness :
  match FetchSVID (IS := maker) None 9700000000 1 (source (3600 * second)) with
  | (Ok s, l1) => Validate (CR := SvidSpec.Example_document.crypto) s = None ∧ sv_issued s = (9 * second)%Z ∧ sv_expires s = (3609 * second)%Z ∧ ca_serial l1 = 2%Z
  | _ => False
  end.
Proof.
  destruct (FetchSVID (IS := maker) None 9700000000 1 (source (3600 * second))) as [[s|] l1] eqn:E; [|discriminate E].
  destruct (local_ca_issues_valid (IS := maker) source_id (3600 * second) 5500000000 0 (source (3600 * second)) None 9700000000 1 s l1)
    as (Hv & _ & Hi & He & Hs & _).
  - split; [|by intros n k [= <-]]. intros t issuer public c [= <-]. by split_and!.
  - vm_compute. reflexivity.
  - reflexivity.
  - vm_compute. reflexivity.
  - exact E.
  - rewrite Hi, He, Hs. split_and!; [exact Hv|reflexivity..].
Defined.
