(* ===== verification/DaemonConfig.v ===== *)
(** The configuration of the daemon (src/internal/config/config.go): its defaults,
    how a file is laid over them, and what is accepted.

    Decoding YAML onto a value is the library's ([yaml]); the operating system is an
    argument, as in [runtimeDriverForHost].  The fields the YAML tags name are the
    fields of the records. *)

From stdpp Require Import gmap.
From S2P Require Import Prelude Spire.

(* @type internal/config/config.go SnapshotStoreConfig *)
Record SnapshotStoreConfig : Type := mkSnapStore { ss_backend : string; ss_path : string; ss_compression : string; ss_parallelism : Z }.

(* @src internal/config/config.go:44-47 SnapshotBackendFilesystem *)
Definition SnapshotBackendDisabled : string := "".
Definition SnapshotBackendFilesystem : string := "filesystem".

(* @type internal/config/config.go AppleContainerRuntimeConfig *)
Record AppleContainerRuntimeConfig : Type := mkApple { ac_binary : string; ac_auto_start : bool; ac_command : string }.

(* @type internal/config/config.go RuntimeConfig *)
Record RuntimeConfig : Type := mkRuntime { rc_driver : string; rc_apple : AppleContainerRuntimeConfig }.

(* @type internal/config/config.go AuthConfig *)
Record AuthConfig : Type := mkAuth { au_enabled : bool; au_cert : string; au_key : string; au_client_ca : string }.

(* @type internal/config/config.go APIConfig *)
Record APIConfig : Type := mkApi { api_socket : string; api_mode : string; api_group : string; api_tcp : string }.

(* @type internal/config/config.go StorageConfig *)
Record StorageConfig : Type := mkStorage { st_data_dir : string; st_database : string }.

(* @type internal/config/config.go FirecrackerConfig *)
Record FirecrackerConfig : Type := mkFc {
  fc_binary : string; fc_jailer : string; fc_kernel : string; fc_ssh_key : string; fc_ssh_user : string; fc_ssh_verify : bool }.

(* @type internal/config/config.go LimitsConfig *)
Record LimitsConfig : Type := mkLimits {
  lm_vms : Z; lm_total_memory : Z; lm_vcpus : Z; lm_memory : Z; lm_snapshots : Z }.

(* @type internal/config/config.go RegistryConfig *)
Record RegistryConfig : Type := mkRegistry {
  rg_auth_path : string; rg_auth : gmap string (string * string); rg_pull : Z; rg_layer : Z }.

(* @type internal/config/config.go LoggingConfig *)
Record LoggingConfig : Type := mkLogging { lg_level : string; lg_format : string; lg_file : string; lg_size : Z; lg_backups : Z }.

(* @type internal/config/config.go Config *)
Record Config : Type := mkConfig {
  c_api : APIConfig; c_storage : StorageConfig; c_runtime : RuntimeConfig; c_firecracker : FirecrackerConfig;
  c_limits : LimitsConfig; c_registry : RegistryConfig; c_logging : LoggingConfig; c_network_setup : bool;
  c_spire : SPIREConfig; c_auth : AuthConfig; c_snapshot_store : SnapshotStoreConfig }.

(* @func internal/config/config.go DefaultConfig *)
Definition DefaultConfig : Config := {|
  c_api := mkApi "/var/run/nanofused.sock" "0660" "nanofuse" "";
  c_storage := mkStorage "/var/lib/nanofuse" "/var/lib/nanofuse/nanofuse.db";
  c_runtime := mkRuntime "auto" (mkApple "/usr/local/bin/container" true "sleep infinity");
  c_firecracker := mkFc "/usr/local/bin/firecracker" "" "" "" "" false;
  c_limits := mkLimits 50 32768 8 8192 100;
  c_registry := mkRegistry "/root/.docker/config.json" ∅ 600 300;
  c_logging := mkLogging "debug" "text" "/var/log/nanofuse/nanofused.log" 10 3;
  c_network_setup := true;
  c_spire := mkSPIRE false false "/tmp/spire-server/private/api.sock" "poley.dev" "spiffe://poley.dev/agent/local"
    "microvm" 3600 0 8307 "/run/spire/sockets/agent.sock" "spire-server";
  c_auth := mkAuth false "" "" "";
  c_snapshot_store := mkSnapStore "" "" "" 0 |}.

(** [read] answers [os.ReadFile]; [yaml] decodes onto a value. *)
(* @func internal/config/config.go Load *)
Definition Load (read : string → result string) (yaml : string → Config → result Config) (path : string) : result Config :=
  let cfg := DefaultConfig in
  if String.eqb path "" then Ok cfg
  else match read path with
  | Err err => if os_IsNotExist err then Ok cfg else Err (Errorf "failed to read config file: %w" [AWrap err])
  | Ok data =>
      match yaml data cfg with
      | Err err => Err (Errorf "failed to parse config file: %w" [AWrap err])
      | Ok cfg => Ok cfg
      end
  end.

(** * Validation *)

(* @func internal/config/config.go validateSPIRE *)
Definition validateSPIRE (c : Config) : option error :=
  if sc_required (c_spire c) && negb (sc_enabled (c_spire c)) then
    Some (Errorf "spire.required is true but spire.enabled is false: enable SPIRE or clear the required flag" [])
  else None.

(* @func internal/config/config.go validateSnapshotStore *)
Definition validateSnapshotStore (c : Config) : option error :=
  let s := c_snapshot_store c in
  let compression :=
    if negb (String.eqb (ss_compression s) "") && negb (String.eqb (ss_compression s) "zstd") then
      Some (Errorf "snapshot_store.compression %q is not supported (only 'zstd')" [AStr (ss_compression s)])
    else None in
  if String.eqb (ss_backend s) SnapshotBackendDisabled then None
  else if String.eqb (ss_backend s) SnapshotBackendFilesystem then
    if String.eqb (ss_path s) "" then
      Some (Errorf "snapshot_store.path is required when snapshot_store.backend is %q" [AStr SnapshotBackendFilesystem])
    else compression
  else Some (Errorf "snapshot_store.backend %q is not supported (use %q or leave empty to disable)"
    [AStr (ss_backend s); AStr SnapshotBackendFilesystem]).

(* @func internal/config/config.go runtimeDriverForHost *)
Definition runtimeDriverForHost (driver goos : string) : result string :=
  let driver := if String.eqb driver "" then "auto" else driver in
  if String.eqb driver "auto" then
    if String.eqb goos "darwin" then Ok "apple_container"
    else if String.eqb goos "linux" then Ok "firecracker"
    else Err (Errorf "runtime.driver auto does not support host OS %q; use linux with firecracker or darwin with apple_container" [AStr goos])
  else if String.eqb driver "firecracker" then
    if negb (String.eqb goos "linux") then Err (Errorf "runtime.driver firecracker requires linux host, got %q" [AStr goos])
    else Ok "firecracker"
  else if String.eqb driver "apple_container" then
    if negb (String.eqb goos "darwin") then Err (Errorf "runtime.driver apple_container requires darwin host, got %q" [AStr goos])
    else Ok "apple_container"
  else Err (Errorf "runtime.driver must be one of auto, firecracker, apple_container" []).

Definition set_runtime (c : Config) (r : RuntimeConfig) : Config :=
  mkConfig (c_api c) (c_storage c) r (c_firecracker c) (c_limits c) (c_registry c) (c_logging c) (c_network_setup c)
    (c_spire c) (c_auth c) (c_snapshot_store c).

(** The error, and the configuration with what is left open filled in. *)
(* @func internal/config/config.go validateRuntime *)
Definition validateRuntime (goos : string) (c : Config) : option error * Config :=
  let r := c_runtime c in
  let r := mkRuntime (if String.eqb (rc_driver r) "" then "auto" else rc_driver r) (rc_apple r) in
  let c := set_runtime c r in
  match runtimeDriverForHost (rc_driver r) goos with
  | Err err => (Some err, c)
  | Ok driver =>
      if String.eqb driver "firecracker" && String.eqb (fc_binary (c_firecracker c)) "" then
        (Some (Errorf "firecracker.binary_path is required" []), c)
      else if String.eqb driver "apple_container" then
        let a := rc_apple r in
        let binary := if String.eqb (ac_binary a) "" then "/usr/local/bin/container" else ac_binary a in
        let command := if String.eqb (ac_command a) "" then "sleep infinity" else ac_command a in
        (None, set_runtime c (mkRuntime (rc_driver r) (mkApple binary (ac_auto_start a) command)))
      else (None, c)
  end.

(* @func internal/config/config.go validateAuth *)
Definition validateAuth (c : Config) : option error :=
  let a := c_auth c in
  if negb (au_enabled a) || String.eqb (api_tcp (c_api c)) "" then None
  else if String.eqb (au_cert a) "" then
    Some (Errorf "auth.tls_cert_file is required when auth.enabled is true for TCP listeners" [])
  else if String.eqb (au_key a) "" then
    Some (Errorf "auth.tls_key_file is required when auth.enabled is true for TCP listeners" [])
  else if String.eqb (au_client_ca a) "" then
    Some (Errorf "auth.client_ca_file is required when auth.enabled is true for TCP listeners" [])
  else None.

(* @func internal/config/config.go Validate *)
Definition Validate (goos : string) (c : Config) : option error * Config :=
  if String.eqb (st_data_dir (c_storage c)) "" then (Some (Errorf "storage.data_dir is required" []), c)
  else if String.eqb (st_database (c_storage c)) "" then (Some (Errorf "storage.database is required" []), c)
  else
    let '(e, c) := validateRuntime goos c in
    match e with
    | Some err => (Some err, c)
    | None =>
        if (lm_vms (c_limits c) <=? 0)%Z then (Some (Errorf "limits.max_vms must be positive" []), c)
        else if (lm_total_memory (c_limits c) <=? 0)%Z then (Some (Errorf "limits.max_total_memory_mib must be positive" []), c)
        else match validateSPIRE c with
        | Some err => (Some err, c)
        | None => match validateSnapshotStore c with Some err => (Some err, c) | None => (validateAuth c, c) end
        end
    end.

(** The defaults are accepted where there is a driver, and nowhere else. *)
Example defaults_accepted :
  ((λ goos, bool_decide (fst (Validate goos DefaultConfig) = None)) <$> ["linux"; "darwin"; "freebsd"]) = [true; true; false].
Proof. vm_compute. reflexivity. Qed.

(** The limits of a single VM may be zero or negative. *)
Example limits_of_a_vm_are_not_checked :
  fst (Validate "linux" (mkConfig (c_api DefaultConfig) (c_storage DefaultConfig) (c_runtime DefaultConfig)
    (c_firecracker DefaultConfig) (mkLimits 1 1 0 (-5) (-1)) (c_registry DefaultConfig) (c_logging DefaultConfig) true
    (c_spire DefaultConfig) (c_auth DefaultConfig) (c_snapshot_store DefaultConfig))) = None.
Proof. vm_compute. reflexivity. Qed.
