(* ===== verification/Auth.v ===== *)
(** Authentication of the API (src/internal/api/auth_middleware.go): the identity in
    a verified client certificate, and the middleware that lets a request pass only
    with one.

    A URI of a certificate is its scheme and what its String method gives.  Whether
    a certificate is verified is the library's decision ([crypto/tls]), and so is
    what lies between brackets in a host. *)

From S2P Require Import Prelude GoStrings Paths GoNet GoUrl Spire Server.

(* @type internal/api/auth_middleware.go Credential *)
Record Credential : Type := mkCred { cr_spiffe : string; cr_kind : string }.

Record SanURI : Type := mkSan { su_scheme : string; su_string : string }.

(** [http.Request.TLS]: the URIs of each certificate of the peer, leaf first, and
    the number of verified chains. *)
Record TLSState : Type := mkTLS { ts_peer : list (list (option SanURI)); ts_chains : nat }.

(* @src internal/api/auth_middleware.go:28-28 mtlsUnauthorizedMessage *)
Definition mtlsUnauthorizedMessage : string := "mTLS client certificate with SPIFFE identity is required".

Section Identity.
Variable ip_literal : string → bool.

(** [EscapedPath] is empty or a slash exactly if the path it was parsed from is. *)
Definition no_workload_path (u : URL) : bool := String.eqb (u_raw_path u) "" || String.eqb (u_raw_path u) "/".

(* @func internal/api/auth_middleware.go validateSPIFFEID *)
Definition validateSPIFFEID (raw : string) : option error :=
  match url_parse ip_literal raw with
  | None => Some (Errorf "invalid SPIFFE URI: %w" [])
  | Some parsed =>
      if negb (String.eqb (u_scheme parsed) "spiffe") then Some (Errorf "SPIFFE URI must use spiffe scheme" [])
      else if negb (bool_decide (u_user parsed = None)) || negb (String.eqb (u_query parsed) "") || negb (String.eqb (u_fragment parsed) "") then
        Some (Errorf "SPIFFE URI must not include userinfo, query, or fragment" [])
      else if String.eqb (u_host parsed) "" then Some (Errorf "SPIFFE URI must include a trust domain" [])
      else if contains ":" (u_host parsed) then Some (Errorf "SPIFFE URI trust domain must not include a port" [])
      else if ParseIP_ok (u_host parsed) then Some (Errorf "SPIFFE URI trust domain must be a DNS name, not an IP address" [])
      else if no_workload_path parsed then Some (Errorf "SPIFFE URI must include a workload path" [])
      else None
  end.

(** The first URI with the scheme decides. *)
Fixpoint first_spiffe (uris : list (option SanURI)) : result Credential :=
  match uris with
  | [] => Err (Errorf "client certificate does not contain a SPIFFE URI SAN" [])
  | None :: uris => first_spiffe uris
  | Some uri :: uris =>
      if negb (String.eqb (su_scheme uri) "spiffe") then first_spiffe uris
      else match validateSPIFFEID (su_string uri) with
      | Some err => Err err
      | None => Ok (mkCred (su_string uri) "mtls_spiffe")
      end
  end.

(* @func internal/api/auth_middleware.go credentialFromTLS *)
Definition credentialFromTLS (tls : option TLSState) : result Credential :=
  match tls with
  | None => Err (Errorf "mTLS is required" [])
  | Some t =>
      match ts_peer t with
      | [] => Err (Errorf "client certificate is required" [])
      | leaf :: _ =>
          if (ts_chains t =? 0)%nat then Err (Errorf "verified client certificate chain is required" [])
          else first_spiffe leaf
      end
  end.

(* @func internal/api/auth_middleware.go writeMTLSUnauthorized *)
Definition writeMTLSUnauthorized : response := WriteError 401 ErrUnauthorized (Text mtlsUnauthorizedMessage) [].

(** [next] is given the credential of the request's context; the audit line is not
    represented. *)
(* @func internal/api/auth_middleware.go MTLSIdentityMiddleware *)
Definition MTLSIdentityMiddleware {S} (next : option Credential → State S response) (tls : option TLSState) : State S response :=
  match credentialFromTLS tls with
  | Err _ => ret writeMTLSUnauthorized
  | Ok cred => next (Some cred)
  end.

End Identity.

(** * Who is let in *)

Definition spiffe_san (san : option SanURI) : Prop := ∃ uri, san = Some uri ∧ su_scheme uri = "spiffe".

Section Spec.
Variable ip_literal : string → bool.

Lemma first_spiffe_ok uris c : first_spiffe ip_literal uris = Ok c ↔
  ∃ before uri after, uris = before ++ Some uri :: after ∧ Forall (λ s, ¬ spiffe_san s) before ∧ su_scheme uri = "spiffe" ∧
    validateSPIFFEID ip_literal (su_string uri) = None ∧ c = mkCred (su_string uri) "mtls_spiffe".
Proof.
  induction uris as [|san uris IH].
  { split; [done|]. by intros ([] & ? & ? & ? & _). }
  assert (¬ spiffe_san san → (first_spiffe ip_literal uris = Ok c ↔ ∃ before uri after, san :: uris = before ++ Some uri :: after ∧
    Forall (λ s, ¬ spiffe_san s) before ∧ su_scheme uri = "spiffe" ∧ validateSPIFFEID ip_literal (su_string uri) = None ∧
    c = mkCred (su_string uri) "mtls_spiffe")) as Hskip.
  { intros Hn. rewrite IH. split.
    - intros (before & uri & after & -> & Hb & H). exists (san :: before), uri, after. split; [done|]. by split; [apply Forall_cons|].
    - intros ([|s before] & uri & after & [= -> ->] & Hb & Hu & H); [by destruct Hn; exists uri|].
      exists before, uri, after. apply Forall_cons in Hb as [_ Hb]. done. }
  destruct san as [uri|]; cbn [first_spiffe]; [|apply Hskip; by intros (? & ? & _)].
  destruct (String.eqb_spec (su_scheme uri) "spiffe") as [Hs|Hs]; cbn [negb]; [|apply Hskip; by intros (? & [= <-] & ?)].
  assert (spiffe_san (Some uri)) as Hsan by (by exists uri). split.
  - destruct (validateSPIFFEID _ _) eqn:E; [done|]. intros [= <-]. by exists [], uri, uris.
  - intros ([|s before] & u & after & Heq & Hb & _ & Hv & ->); injection Heq as <- _; [by rewrite Hv|]. by apply Forall_cons in Hb as [? _].
Qed.

(** What a certificate must hold to be let in as [c]. *)
Definition lets_in (tls : option TLSState) (c : Credential) : Prop :=
  ∃ t leaf rest before uri after, tls = Some t ∧ ts_peer t = leaf :: rest ∧ ts_chains t ≠ 0%nat ∧
    leaf = before ++ Some uri :: after ∧ Forall (λ s, ¬ spiffe_san s) before ∧ su_scheme uri = "spiffe" ∧
    validateSPIFFEID ip_literal (su_string uri) = None ∧ c = mkCred (su_string uri) "mtls_spiffe".

Lemma credentialFromTLS_ok tls c : credentialFromTLS ip_literal tls = Ok c ↔ lets_in tls c.
Proof.
  unfold credentialFromTLS, lets_in. destruct tls as [t|]; [|by split; [|intros (? & ? & ? & ? & ? & ? & ? & _)]].
  destruct (ts_peer t) as [|leaf rest] eqn:Hp.
  { split; [done|]. intros (t' & ? & ? & ? & ? & ? & [= <-] & H & _). congruence. }
  destruct (Nat.eqb_spec (ts_chains t) 0) as [H0|H0].
  { split; [done|]. by intros (t' & ? & ? & ? & ? & ? & [= <-] & _ & H & _). }
  rewrite first_spiffe_ok. split.
  - intros (before & uri & after & -> & H). by exists t, (before ++ Some uri :: after), rest, before, uri, after.
  - intros (t' & l' & r' & before & uri & after & [= <-] & H & _ & -> & H'). rewrite Hp in H. injection H as -> _. by exists before, uri, after.
Qed.

Lemma MTLSIdentityMiddleware_denies {S} (next : option Credential → State S response) tls :
  (¬ ∃ c, lets_in tls c) → MTLSIdentityMiddleware ip_literal next tls = ret writeMTLSUnauthorized.
Proof.
  intros Hn. unfold MTLSIdentityMiddleware. destruct (credentialFromTLS ip_literal tls) as [c|] eqn:E; [|done].
  destruct Hn. exists c. by apply credentialFromTLS_ok.
Qed.

(** behind the middleware a handler runs exactly for a request over TLS whose
    client certificate is verified and whose first SPIFFE URI is a proper identity,
    and it is given that identity.  Every other request is answered 401 without any
    effect. *)
Theorem MTLSIdentityMiddleware_spec {S} (next : option Credential → State S response) tls :
  (∀ c, lets_in tls c → MTLSIdentityMiddleware ip_literal next tls = next (Some c)) ∧
  ((¬ ∃ c, lets_in tls c) → MTLSIdentityMiddleware ip_literal next tls = ret writeMTLSUnauthorized).
Proof.
  split; [|apply MTLSIdentityMiddleware_denies]. intros c Hc. unfold MTLSIdentityMiddleware. apply credentialFromTLS_ok in Hc. by rewrite Hc.
Qed.

(** * The identities of VMs are proper *)

Lemma canonical_validated td segs :
  isValidTrustDomain td = true → ParseIP_ok td = false → segs ≠ [] → Forall good_segment segs →
  validateSPIFFEID ip_literal (canonical_id td segs) = None.
Proof.
  intros Htd Hip Hne Hsegs. unfold validateSPIFFEID. rewrite url_parse_canonical by done.
  cbn [u_scheme u_user u_query u_fragment u_host]. destruct (valid_domain_chars td Htd) as [Hd Hn]. apply String.eqb_neq in Hn.
  rewrite Hn, contains_char, Hip, (all_ascii_no_char domain_char ":" td eq_refl Hd). unfold no_workload_path. cbn [u_raw_path].
  destruct segs as [|seg segs]; [done|]. apply Forall_cons in Hsegs as [(_ & Hs & _)%good_segment_chars _].
  assert (∃ a s, join "/" (seg :: segs) = String a s) as (a & s & ->); [|done].
  destruct seg as [|a seg]; [done|]. destruct segs; [by eexists _, _|]. rewrite join_cons_cons. by eexists _, _.
Qed.

End Spec.

(** The identity a VM was registered under is let in when it is presented in a
    verified certificate, if the trust domain is a name and the configured workload
    type a path segment. *)
Theorem registered_identity_is_let_in `{HH : Host} ip_literal cfg vm g u tr id chains
    (He : sc_enabled cfg = true) (Hok : fst (Spire.CreateVMWorkloadEntry cfg vm g u tr) = Ok id)
    (Hw : good_segment (workload_type cfg)) (Hip : ParseIP_ok (normalizeTrustDomain (sc_trust_domain cfg)) = false) :
  credentialFromTLS ip_literal (Some (mkTLS [[Some (mkSan "spiffe" id)]] (S chains))) = Ok (mkCred id "mtls_spiffe").
Proof.
  destruct (CreateVMWorkloadEntry_ok cfg vm g u tr id He Hok) as (-> & Hvm & Hg & Hu & Htd).
  unfold credentialFromTLS. cbn [ts_peer ts_chains Nat.eqb first_spiffe su_scheme su_string]. change (negb (String.eqb "spiffe" "spiffe")) with false.
  cbn iota. rewrite BuildSPIFFEID_canonical, canonical_validated; [done|done|done|done|].
  repeat (apply Forall_cons; split); try (by apply safe_id_good); try done; apply Forall_nil.
Qed.

Lemma registered_identity_is_let_in_witness :
  let id := "spiffe://poley.dev/g/dev/u/ann/w/microvm/id1" in
  credentialFromTLS (λ _, false) (Some (mkTLS [[Some (mkSan "spiffe" id)]] 1)) = Ok (mkCred id "mtls_spiffe").
Proof.
  apply (registered_identity_is_let_in (HH := scripted_host [] "") (λ _, false) spire_ex "id1" "dev" "ann" [] _ 0); [done|done|done|by vm_compute].
Defined.

(** The two checks of identities disagree: the API refuses an address as a trust
    domain and an empty port, and accepts escapes, capitals in the trust domain and
    doubled slashes, all the other way round in svid.go. *)
Example checks_disagree :
  ((λ id, (bool_decide (validateSPIFFEID (λ _, true) id = None), bool_decide (Spire.validateSPIFFEID (λ _, true) id = None))) <$>
     ["spiffe://td/vm"; "spiffe://10.0.0.1/vm"; "spiffe://td:/vm"; "spiffe://td/%76m"; "spiffe://TD/vm"; "spiffe://td//vm"]) =
  [(true, true); (false, true); (false, true); (true, false); (true, false); (true, false)].
Proof. vm_compute. reflexivity. Qed.
