(* ===== verification/GoRunes.v ===== *)
(** Runes: strings as the code points that [range] and [strings.Map] see, their
    encoding, and the classes of [unicode] the program asks for. *)

From S2P Require Import Prelude GoStrings Json.

Definition code (a : ascii) : Z := Z.of_N (N_of_ascii a).
Definition char (z : Z) : ascii := ascii_of_N (Z.to_N z).

(** The value of the rune of width [w] at the front. *)
Definition rune_value (w : nat) (s : string) : Z :=
  match w, s with
  | 1%nat, String a _ => code a
  | 2%nat, String a (String b _) => (code a - 192) * 64 + (code b - 128)
  | 3%nat, String a (String b (String c _)) => (code a - 224) * 4096 + (code b - 128) * 64 + (code c - 128)
  | 4%nat, String a (String b (String c (String d _))) =>
      (code a - 240) * 262144 + (code b - 128) * 4096 + (code c - 128) * 64 + (code d - 128)
  | _, _ => 65533
  end%Z.

(** A byte that starts no rune counts as U+FFFD; [skip]: the bytes of the rune begun. *)
Fixpoint runes_loop (skip : nat) (s : string) : list Z :=
  match s with
  | EmptyString => []
  | String _ s' =>
      match skip with
      | S k => runes_loop k s'
      | O =>
          match utf8_rune s with
          | Some w => rune_value w s :: runes_loop (pred w) s'
          | None => 65533%Z :: runes_loop 0 s'
          end
      end
  end.
Definition runes (s : string) : list Z := runes_loop 0 s.

Definition valid_rune (r : Z) : bool := ((0 <=? r) && (r <? 55296) || (57344 <=? r) && (r <? 1114112))%Z.

Definition cont (z : Z) : ascii := char (128 + z mod 64).

Definition encode_rune (r : Z) : string :=
  let r := if valid_rune r then r else 65533%Z in
  (if r <? 128 then String (char r) ""
   else if r <? 2048 then String (char (192 + r / 64)) (String (cont r) "")
   else if r <? 65536 then String (char (224 + r / 4096)) (String (cont (r / 64)) (String (cont r) ""))
   else String (char (240 + r / 262144)) (String (cont (r / 4096)) (String (cont (r / 64)) (String (cont r) ""))))%Z.

Definition encode_runes (l : list Z) : string := String.concat "" (encode_rune <$> l).

(** [strings.Map], with [None] for a rune that is dropped. *)
Definition strings_Map (f : Z → option Z) (s : string) : string := encode_runes (omap f (runes s)).

(** * unicode *)

Definition in_ranges (l : list (Z * Z)) (r : Z) : bool := existsb (λ lh, (fst lh <=? r) && (r <=? snd lh))%Z l.

Definition IsControl : Z → bool := in_ranges [(0, 31); (127, 159)]%Z.

Definition IsSpace : Z → bool :=
  in_ranges [(9, 13); (32, 32); (133, 133); (160, 160); (5760, 5760); (8192, 8202); (8232, 8233); (8239, 8239); (8287, 8287); (12288, 12288)]%Z.

(** The category Cf of Unicode 15. *)
Definition Cf : Z → bool :=
  in_ranges [(173, 173); (1536, 1541); (1564, 1564); (1757, 1757); (1807, 1807); (2192, 2193); (2274, 2274); (6158, 6158);
    (8203, 8207); (8234, 8238); (8288, 8292); (8294, 8303); (65279, 65279); (65529, 65531); (69821, 69821); (69837, 69837);
    (78896, 78911); (113824, 113827); (119155, 119162); (917505, 917505); (917536, 917631)]%Z.

(** * Decoding what was encoded *)

Lemma code_char z : (0 ≤ z < 256)%Z → code (char z) = z.
Proof. intros H. unfold code, char. rewrite N_ascii_embedding by lia. lia. Qed.

Lemma byte_char z : (0 ≤ z < 256)%Z → byte (char z) = Z.to_nat z.
Proof. intros H. unfold byte, nat_of_ascii, char. rewrite N_ascii_embedding by lia. lia. Qed.

Lemma in_range_char lo hi z : (0 ≤ z < 256)%Z → in_range lo hi (char z) = (Z.of_nat lo <=? z)%Z && (z <=? Z.of_nat hi)%Z.
Proof.
  intros H. unfold in_range. rewrite byte_char by done. apply eq_true_iff_eq. rewrite !andb_true_iff, !Nat.leb_le, !Z.leb_le. lia.
Qed.

Lemma tail_cont z : in_range 128 191 (cont z) = true.
Proof. unfold cont. pose proof (Z.mod_pos_bound z 64). rewrite in_range_char by lia. apply andb_true_iff. rewrite !Z.leb_le. lia. Qed.

Lemma runes_loop_skip w s1 s2 : String.length s1 = w → runes_loop w (s1 +:+ s2) = runes_loop 0 s2.
Proof. revert w. induction s1 as [|a s1 IH]; intros w <-; [done|]. rewrite string_app_cons. cbn [runes_loop String.length]. by apply IH. Qed.

Lemma runes_cons a s1 s2 :
  utf8_rune (String a s1 +:+ s2) = Some (S (String.length s1)) →
  runes (String a s1 +:+ s2) = rune_value (S (String.length s1)) (String a s1 +:+ s2) :: runes s2.
Proof.
  intros H. unfold runes. rewrite string_app_cons in *. cbn [runes_loop]. rewrite H. cbn [pred]. f_equal. by apply runes_loop_skip.
Qed.

Lemma cont_range lo hi z :
  in_range lo hi (cont z) = (Z.of_nat lo <=? 128 + z mod 64)%Z && (128 + z mod 64 <=? Z.of_nat hi)%Z.
Proof. unfold cont. pose proof (Z.mod_pos_bound z 64). apply in_range_char. lia. Qed.

Lemma code_cont z : code (cont z) = (128 + z mod 64)%Z.
Proof. unfold cont. pose proof (Z.mod_pos_bound z 64). apply code_char. lia. Qed.

(** The width of the encoding is recognised. *)
Lemma utf8_two z w s : (194 ≤ z ≤ 223)%Z → utf8_rune (String (char z) (String (cont w) s)) = Some 2%nat.
Proof.
  intros H. unfold utf8_rune. rewrite tail_cont, !in_range_char by lia.
  destruct (Z.leb_spec z (Z.of_nat 127)); [lia|]. rewrite andb_false_r.
  destruct (Z.leb_spec (Z.of_nat 194) z); [|lia]. destruct (Z.leb_spec z (Z.of_nat 223)); [|lia]. done.
Qed.

Lemma off_range lo hi z : (0 ≤ z < 256)%Z → (z < Z.of_nat lo ∨ Z.of_nat hi < z)%Z → in_range lo hi (char z) = false.
Proof. intros H1 H2. rewrite in_range_char by done. apply andb_false_iff. rewrite !Z.leb_gt. lia. Qed.

Lemma on_range lo hi z : (0 ≤ z < 256)%Z → (Z.of_nat lo ≤ z ≤ Z.of_nat hi)%Z → in_range lo hi (char z) = true.
Proof. intros H1 H2. rewrite in_range_char by done. apply andb_true_iff. rewrite !Z.leb_le. lia. Qed.

Lemma byte_eqb z n : (0 ≤ z < 256)%Z → (byte (char z) =? n)%nat = (z =? Z.of_nat n)%Z.
Proof.
  intros H. rewrite byte_char by done. apply eq_true_iff_eq. rewrite Nat.eqb_eq, Z.eqb_eq. lia.
Qed.

Lemma utf8_three z v w s :
  (224 ≤ z ≤ 239)%Z → (z = 224 → 32 ≤ v mod 64)%Z → (z = 237 → v mod 64 < 32)%Z →
  utf8_rune (String (char z) (String (cont v) (String (cont w) s))) = Some 3%nat.
Proof.
  intros H H1 H2. pose proof (Z.mod_pos_bound v 64). unfold utf8_rune. rewrite !tail_cont, !cont_range, !byte_eqb by lia.
  rewrite (off_range 0 127), (off_range 194 223), (on_range 224 239) by lia.
  destruct (Z.eqb_spec z (Z.of_nat 224)) as [E|_]; [|destruct (Z.eqb_spec z (Z.of_nat 237)) as [E|_]; [|done]].
  - destruct (Z.leb_spec (Z.of_nat 160) (128 + v mod 64)); [|lia]. destruct (Z.leb_spec (128 + v mod 64) (Z.of_nat 191)); [done|lia].
  - destruct (Z.leb_spec (Z.of_nat 128) (128 + v mod 64)); [|lia]. destruct (Z.leb_spec (128 + v mod 64) (Z.of_nat 159)); [done|lia].
Qed.

Lemma utf8_four z u v w s :
  (240 ≤ z ≤ 244)%Z → (z = 240 → 16 ≤ u mod 64)%Z → (z = 244 → u mod 64 < 16)%Z →
  utf8_rune (String (char z) (String (cont u) (String (cont v) (String (cont w) s)))) = Some 4%nat.
Proof.
  intros H H1 H2. pose proof (Z.mod_pos_bound u 64). unfold utf8_rune. rewrite !tail_cont, !cont_range, !byte_eqb by lia.
  rewrite (off_range 0 127), (off_range 194 223), (off_range 224 239), (on_range 240 244) by lia.
  destruct (Z.eqb_spec z (Z.of_nat 240)) as [E|_]; [|destruct (Z.eqb_spec z (Z.of_nat 244)) as [E|_]; [|done]].
  - destruct (Z.leb_spec (Z.of_nat 144) (128 + u mod 64)); [|lia]. destruct (Z.leb_spec (128 + u mod 64) (Z.of_nat 191)); [done|lia].
  - destruct (Z.leb_spec (Z.of_nat 128) (128 + u mod 64)); [|lia]. destruct (Z.leb_spec (128 + u mod 64) (Z.of_nat 143)); [done|lia].
Qed.

(** Division and remainder by constants. *)
Ltac lia_div := Z.to_euclidean_division_equations; lia.

Lemma runes_encode_rune r s : valid_rune r = true → runes (encode_rune r +:+ s) = r :: runes s.
Proof.
  intros Hv. unfold encode_rune. rewrite Hv. unfold valid_rune in Hv.
  assert ((0 ≤ r < 55296) ∨ (57344 ≤ r < 1114112))%Z as Hr by lia. clear Hv.
  destruct (Z.ltb_spec r 128).
  { rewrite runes_cons; cbn [String.length rune_value]; rewrite string_app_cons; [by rewrite code_char by lia|].
    unfold utf8_rune. by rewrite on_range by lia. }
  destruct (Z.ltb_spec r 2048).
  { rewrite runes_cons; cbn [String.length]; rewrite !string_app_cons.
    - unfold rune_value. rewrite code_cont, code_char by lia_div. f_equal. lia_div.
    - apply utf8_two. lia_div. }
  destruct (Z.ltb_spec r 65536).
  { rewrite runes_cons; cbn [String.length]; rewrite !string_app_cons.
    - unfold rune_value. rewrite !code_cont, code_char by lia_div. f_equal. lia_div.
    - apply utf8_three; lia_div. }
  rewrite runes_cons; cbn [String.length]; rewrite !string_app_cons.
  - unfold rune_value. rewrite !code_cont, code_char by lia_div. f_equal. lia_div.
  - apply utf8_four; lia_div.
Qed.

Lemma runes_encode l : Forall (λ r, valid_rune r = true) l → runes (encode_runes l) = l.
Proof.
  intros H. induction H as [|r l Hr H IH]; [done|].
  assert (encode_runes (r :: l) = encode_rune r +:+ encode_runes l) as ->.
  { unfold encode_runes. cbn [fmap list_fmap]. destruct (encode_rune <$> l); cbn; [by rewrite string_app_nil_r|done]. }
  by rewrite runes_encode_rune, IH.
Qed.

(** * What is decoded is a rune *)

Lemma in_range_code lo hi a : in_range lo hi a = true ↔ (Z.of_nat lo ≤ code a ≤ Z.of_nat hi)%Z.
Proof.
  unfold in_range, byte, nat_of_ascii, code. rewrite andb_true_iff, !Nat.leb_le. lia.
Qed.

Lemma byte_code a n : (byte a =? n)%nat = (code a =? Z.of_nat n)%Z.
Proof. unfold byte, nat_of_ascii, code. apply eq_true_iff_eq. rewrite Nat.eqb_eq, Z.eqb_eq. lia. Qed.

Lemma valid_rune_range r : valid_rune r = true ↔ (0 ≤ r < 55296 ∨ 57344 ≤ r < 1114112)%Z.
Proof. unfold valid_rune. lia. Qed.

Lemma rune_value_valid s w : utf8_rune s = Some w → valid_rune (rune_value w s) = true.
Proof.
  intros H. apply valid_rune_range. destruct s as [|a s]; [done|]. cbn [utf8_rune] in H.
  destruct (in_range 0 127 a) eqn:Ha; [injection H as <-; apply in_range_code in Ha; cbn; lia|].
  destruct s as [|b s]; [done|].
  destruct (in_range 194 223 a) eqn:Ha2.
  { destruct (in_range 128 191 b) eqn:Hb; [injection H as <-|done]. apply in_range_code in Ha2, Hb. cbn. lia. }
  destruct s as [|c s]; [done|].
  destruct (in_range 224 239 a) eqn:Ha3.
  { destruct (_ && _) eqn:Hbc; [injection H as <-|done]. apply andb_true_iff in Hbc as [Hb Hc].
    rewrite !byte_code in Hb. apply in_range_code in Ha3, Hc. cbn [rune_value].
    destruct (Z.eqb_spec (code a) (Z.of_nat 224)); [|destruct (Z.eqb_spec (code a) (Z.of_nat 237))]; apply in_range_code in Hb; lia. }
  destruct s as [|d s]; [done|].
  destruct (_ && _) eqn:Hbc; [injection H as <-|done]. rewrite !andb_true_iff in Hbc. destruct Hbc as [[[Ha4 Hb] Hc] Hd].
  rewrite !byte_code in Hb. apply in_range_code in Ha4, Hc, Hd. cbn [rune_value].
  destruct (Z.eqb_spec (code a) (Z.of_nat 240)); [|destruct (Z.eqb_spec (code a) (Z.of_nat 244))]; apply in_range_code in Hb; lia.
Qed.

Lemma runes_valid s : Forall (λ r, valid_rune r = true) (runes s).
Proof.
  unfold runes. generalize 0%nat as skip. induction s as [|a s IH]; intros skip; [by apply Forall_nil|].
  cbn [runes_loop]. destruct skip as [|k]; [|apply IH].
  destruct (utf8_rune (String a s)) as [w|] eqn:Hw; (apply Forall_cons; split; [|apply IH]); [by apply rune_value_valid|done].
Qed.

(** The runes of a mapped string are the mapped runes. *)
Lemma runes_strings_Map f s :
  (∀ r r', f r = Some r' → valid_rune r = true → valid_rune r' = true) → runes (strings_Map f s) = omap f (runes s).
Proof.
  intros Hf. unfold strings_Map. apply runes_encode. pose proof (runes_valid s) as H. rewrite Forall_forall in *.
  intros r' (r & Hr & Hfr)%list_elem_of_omap. by apply (Hf r); [|apply H].
Qed.
