(* ===== verification/GoIp.v ===== *)
(** Addresses with their value: [net.ParseIP] with the bytes it gives, [IP.To4] and
    [IP.String]; what is printed is read again. *)

From S2P Require Import Prelude GoStrings GoNet.

Definition hex_value (a : ascii) : Z :=
  let n := Z.of_nat (nat_of_ascii a) in
  if is_digit a then (n - 48)%Z else if (97 <=? n)%Z then (n - 87)%Z else (n - 55)%Z.

(** The value of the first [n] hexadecimal digits. *)
Fixpoint hex_prefix (n : nat) (acc : Z) (s : string) : Z :=
  match n, s with
  | S n', String a s' => hex_prefix n' (16 * acc + hex_value a) s'
  | _, _ => acc
  end.

Definition quad (s : string) : list Z := decimal <$> split_on "." s.

(** The loop of [ipv6_groups] with the bytes it collects; [ell] is where "::" was. *)
Fixpoint ipv6_bytes (fuel : nat) (acc : list Z) (ell : option nat) (s : string) : option (string * list Z * option nat) :=
  match fuel with
  | O => Some (s, acc, ell)
  | S fuel' =>
      let '(off, r) := span_hex s in
      if (off =? 0)%nat || (4 <? off)%nat then None
      else if has_prefix "." r then
        if negb (bool_decide (is_Some ell)) && negb (length acc =? 12)%nat then None
        else if (16 <? length acc + 4)%nat then None
        else if parse_ipv4 s then Some ("", acc ++ quad s, ell) else None
      else
        let g := hex_prefix off 0 s in
        let acc := acc ++ [g / 256; g mod 256]%Z in
        match r with
        | EmptyString => Some ("", acc, ell)
        | String c r' =>
            if negb (Ascii.eqb c ":") then None
            else match r' with
                 | EmptyString => None
                 | String c' r'' =>
                     if Ascii.eqb c' ":" then
                       if bool_decide (is_Some ell) then None
                       else if String.eqb r'' "" then Some ("", acc, Some (length acc))
                       else ipv6_bytes fuel' acc (Some (length acc)) r''
                     else ipv6_bytes fuel' acc ell r'
                 end
        end
  end.

Definition parse_ipv6_bytes (s : string) : option (list Z) :=
  let '(ell, s) := match strip_prefix "::" s with Some r => (Some 0%nat, r) | None => (None, s) end in
  if bool_decide (is_Some ell) && String.eqb s "" then Some (replicate 16 0%Z)
  else match ipv6_bytes 8 [] ell s with
       | None => None
       | Some (rest, acc, ell) =>
           if negb (String.eqb rest "") then None
           else if (length acc <? 16)%nat then
             match ell with
             | Some e => Some (take e acc ++ replicate (16 - length acc) 0%Z ++ drop e acc)
             | None => None
             end
           else match ell with Some _ => None | None => Some acc end
       end.

Definition v4_prefix : list Z := replicate 10 0%Z ++ [255; 255]%Z.

(** [net.ParseIP]: sixteen bytes. *)
Definition ParseIP (s : string) : option (list Z) :=
  match address_family s with
  | Some true => if parse_ipv4 s then Some (v4_prefix ++ quad s) else None
  | Some false => if contains "%" s then None else parse_ipv6_bytes s
  | None => None
  end.

(** [IP.To4]. *)
Definition To4 (ip : list Z) : option (list Z) := if bool_decide (take 12 ip = v4_prefix) then Some (drop 12 ip) else None.

Definition ipv4_string (l : list Z) : string := join "." (fmt_d <$> l).

(** The eight groups of an IPv6 address. *)
Fixpoint be_groups (l : list Z) : list Z :=
  match l with a :: b :: l' => (256 * a + b)%Z :: be_groups l' | _ => [] end.

(** A group without leading zeros. *)
Definition hex_group (g : Z) : string :=
  let d k := String (hex_digit ((g / 16 ^ k) mod 16)) "" in
  (if g <? 16 then d 0 else if g <? 256 then d 1 +:+ d 0 else if g <? 4096 then d 2 +:+ d 1 +:+ d 0 else d 3 +:+ d 2 +:+ d 1 +:+ d 0)%Z.

Fixpoint zero_run (l : list Z) : nat := match l with z :: l' => if (z =? 0)%Z then S (zero_run l') else 0 | [] => 0 end.

(** The longest run of at least two zero groups, the first of that length: where it
    begins and how long it is. *)
Fixpoint longest_run (i : nat) (best : nat * nat) (l : list Z) : nat * nat :=
  match l with
  | [] => best
  | _ :: l' =>
      let n := zero_run l in
      longest_run (S i) (if (2 <=? n)%nat && (snd best <? n)%nat then (i, n) else best) l'
  end.

Definition ipv6_string (ip : list Z) : string :=
  let groups := be_groups ip in
  let '(start, n) := longest_run 0 (0, 0)%nat groups in
  let text l := join ":" (hex_group <$> l) in
  if (n =? 0)%nat then text groups else text (take start groups) +:+ "::" +:+ text (drop (start + n) groups).

(** [IP.String] of an address that [ParseIP] gives. *)
Definition ip_string (ip : list Z) : string := match To4 ip with Some v4 => ipv4_string v4 | None => ipv6_string ip end.

Example print_addresses :
  (ip_string <$> ParseIP "::ffff:10.0.0.1", ip_string <$> ParseIP "2001:DB8:0:0:1:0:0:0", ip_string <$> ParseIP "::", ip_string <$> ParseIP "1:0:2::")
  = (Some "10.0.0.1", Some "2001:db8:0:0:1::", Some "::", Some "1:0:2::").
Proof. vm_compute. reflexivity. Qed.

(** * The same addresses are accepted *)

Lemma ipv6_bytes_groups fuel acc ell s :
  ipv6_groups fuel (Z.of_nat (length acc)) (bool_decide (is_Some ell)) s =
  (λ '(rest, acc', ell'), (rest, Z.of_nat (length acc'), bool_decide (is_Some ell'))) <$> ipv6_bytes fuel acc ell s.
Proof.
  revert acc ell s. induction fuel as [|fuel IH]; intros acc ell s; [done|]. cbn [ipv6_groups ipv6_bytes].
  destruct (span_hex s) as [off r]. destruct (_ || _); [done|].
  assert ((Z.of_nat (length acc) =? 12)%Z = (length acc =? 12)%nat) as ->.
  { apply eq_true_iff_eq. rewrite Z.eqb_eq, Nat.eqb_eq. lia. }
  assert ((16 <? Z.of_nat (length acc) + 4)%Z = (16 <? length acc + 4)%nat) as ->.
  { apply eq_true_iff_eq. rewrite Z.ltb_lt, Nat.ltb_lt. lia. }
  destruct (has_prefix "." r).
  { destruct (_ && _); [done|]. destruct (_ <? _)%nat; [done|]. destruct (parse_ipv4 s) eqn:H4; [|done]. cbn.
    unfold parse_ipv4 in H4. apply andb_true_iff in H4 as [H4 _]. apply Nat.eqb_eq in H4.
    unfold quad. rewrite length_app, length_fmap, H4. do 3 f_equal. lia. }
  assert (∀ g, Z.of_nat (length acc) + 2 = Z.of_nat (length (acc ++ [g / 256; g mod 256])))%Z as Hl.
  { intros g. rewrite length_app. cbn. lia. }
  rewrite (Hl (hex_prefix off 0 s)).
  destruct r as [|c r]; [done|]. destruct (negb (Ascii.eqb c ":")); [done|]. destruct r as [|c' r]; [done|].
  destruct (Ascii.eqb c' ":"); [|apply IH]. destruct (bool_decide (is_Some ell)); [done|]. destruct (String.eqb r ""); [done|]. apply (IH _ (Some _)).
Qed.

(** How both loops end. *)
Definition finish_bytes (o : option (string * list Z * option nat)) : option (list Z) :=
  match o with
  | None => None
  | Some (rest, acc, ell) =>
      if negb (String.eqb rest "") then None
      else if (length acc <? 16)%nat then
        match ell with Some e => Some (take e acc ++ replicate (16 - length acc) 0%Z ++ drop e acc) | None => None end
      else match ell with Some _ => None | None => Some acc end
  end.

Lemma finish_accepts o :
  is_Some (finish_bytes o) ↔
  match (λ '(rest, acc, ell), (rest, Z.of_nat (length acc), bool_decide (is_Some ell))) <$> o with
  | None => false
  | Some (rest, i, ell) => String.eqb rest "" && (if (i <? 16)%Z then ell else negb ell)
  end = true.
Proof.
  destruct o as [[[rest acc] ell]|]; [|split; [by intros [? ?]|done]]. unfold finish_bytes. cbn [fmap option_fmap option_map].
  destruct (String.eqb rest ""); [|split; [by intros [? ?]|done]]. cbn [negb andb].
  assert ((Z.of_nat (length acc) <? 16)%Z = (length acc <? 16)%nat) as ->.
  { apply eq_true_iff_eq. rewrite Z.ltb_lt, Nat.ltb_lt. lia. }
  destruct ell; [rewrite bool_decide_true by by eexists|rewrite bool_decide_false by by intros [? ?]];
    destruct (length acc <? 16)%nat; split; first [by intros [? ?] | intros ?; first [done | by eexists]].
Qed.

Lemma ParseIP_accepts s : is_Some (ParseIP s) ↔ ParseIP_ok s = true.
Proof.
  unfold ParseIP, ParseIP_ok, parse_addr_bits. destruct (address_family s) as [[]|].
  - destruct (parse_ipv4 s); split; (done || by eexists).
  - destruct (contains "%" s); [split; [by intros [? ?]|done]|]. cbn [negb andb].
    assert (is_Some (parse_ipv6_bytes s) ↔ parse_ipv6 s = true) as ->; [|by destruct (parse_ipv6 s)].
    unfold parse_ipv6_bytes, parse_ipv6. destruct (strip_prefix "::" s) as [r|].
    + pose proof (ipv6_bytes_groups 8 [] (Some 0%nat) r) as Hg. change (Z.of_nat (length [])) with 0%Z in Hg.
      rewrite bool_decide_true in Hg |- * by by eexists. cbn [andb]. destruct (String.eqb r ""); [split; [done|by eexists]|].
      rewrite Hg. apply (finish_accepts (ipv6_bytes 8 [] (Some 0%nat) r)).
    + pose proof (ipv6_bytes_groups 8 [] None s) as Hg. change (Z.of_nat (length [])) with 0%Z in Hg.
      rewrite bool_decide_false in Hg |- * by by intros [? ?]. cbn [andb]. rewrite Hg. apply (finish_accepts (ipv6_bytes 8 [] None s)).
  - split; [by intros [? ?]|done].
Qed.

(** * What is printed is read again *)

(** ** Digits and groups *)

Lemma small_cases (P : Z → Prop) n : Forall P (Z.of_nat <$> seq 0 n) → ∀ z, (0 ≤ z < Z.of_nat n)%Z → P z.
Proof.
  intros H z Hz. rewrite Forall_forall in H. apply H. apply list_elem_of_fmap. exists (Z.to_nat z). split; [lia|]. apply elem_of_seq. lia.
Qed.

Lemma hex_digit_facts d : (0 ≤ d < 16)%Z → is_hex (hex_digit d) = true ∧ hex_value (hex_digit d) = d ∧ Ascii.eqb (hex_digit d) ":" = false.
Proof. revert d. apply (small_cases _ 16). repeat (apply Forall_cons; split; [by split_and!|]). by apply Forall_nil. Qed.

Lemma mod16 z : (0 ≤ z mod 16 < 16)%Z.
Proof. apply Z.mod_pos_bound. lia. Qed.

Lemma pow16 : (16 ^ 0 = 1 ∧ 16 ^ 1 = 16 ∧ 16 ^ 2 = 256 ∧ 16 ^ 3 = 4096)%Z.
Proof. done. Qed.

Lemma string_app_empty s : "" +:+ s = s.
Proof. done. Qed.

Lemma hex_group_text g :
  (0 ≤ g < 65536)%Z →
  all_chars is_hex (hex_group g) = true ∧ (1 ≤ String.length (hex_group g) ≤ 4)%nat ∧ hex_prefix (String.length (hex_group g)) 0 (hex_group g) = g.
Proof.
  intros Hg. destruct pow16 as (P0 & P1 & P2 & P3).
  assert (∀ k, is_hex (hex_digit ((g / 16 ^ k) mod 16)) = true) as Hx by (intros k; apply hex_digit_facts, mod16).
  assert (∀ k, hex_value (hex_digit ((g / 16 ^ k) mod 16)) = (g / 16 ^ k) mod 16)%Z as Hv by (intros k; apply hex_digit_facts, mod16).
  unfold hex_group.
  destruct (Z.ltb_spec g 16); [|destruct (Z.ltb_spec g 256); [|destruct (Z.ltb_spec g 4096)]]; rewrite ?string_app_cons, ?string_app_empty;
    (split; [cbn [all_chars]; by rewrite !Hx|]); (split; [cbn; lia|]);
    cbn [String.length hex_prefix]; rewrite !Hv, ?P0, ?P1, ?P2, ?P3; Z.to_euclidean_division_equations; lia.
Qed.

(** A string that does not go on with a digit. *)
Definition stops (r : string) : Prop := match r with String a _ => is_hex a = false | EmptyString => True end.

Lemma span_hex_app s r : all_chars is_hex s = true → stops r → span_hex (s +:+ r) = (String.length s, r).
Proof.
  intros Hs Hr. induction s as [|a s IH].
  - change ("" +:+ r) with r. destruct r as [|b r]; [done|]. cbn. cbn in Hr. by rewrite Hr.
  - cbn in Hs. apply andb_true_iff in Hs as [Ha Hs]. rewrite string_app_cons. cbn [span_hex String.length]. by rewrite Ha, IH.
Qed.

Lemma hex_prefix_app s r acc : hex_prefix (String.length s) acc (s +:+ r) = hex_prefix (String.length s) acc s.
Proof. revert acc. induction s as [|a s IH]; intros acc; [by destruct r|]. rewrite string_app_cons. cbn [String.length hex_prefix]. apply IH. Qed.

Definition group_bytes (g : Z) : list Z := [g / 256; g mod 256]%Z.
Definition groups_text (l : list Z) : string := join ":" (hex_group <$> l).
Definition group_ok (g : Z) : Prop := (0 ≤ g < 65536)%Z.

Lemma groups_text_cons g gs : gs ≠ [] → groups_text (g :: gs) = hex_group g +:+ String ":" (groups_text gs).
Proof. by destruct gs. Qed.

Lemma groups_text_nonempty g gs : group_ok g → ∃ a s, groups_text (g :: gs) = String a s ∧ is_hex a = true.
Proof.
  intros Hg. destruct (hex_group_text g Hg) as (Hx & Hl & _).
  assert (∃ t, groups_text (g :: gs) = hex_group g +:+ t) as [t ->].
  { destruct gs as [|g' gs]; [exists ""; by rewrite string_app_nil_r|]. eexists. by apply groups_text_cons. }
  destruct (hex_group g) as [|a s]; [cbn in Hl; lia|]. exists a, (s +:+ t). cbn in Hx. apply andb_true_iff in Hx as [Ha _].
  by rewrite string_app_cons.
Qed.

Lemma hex_not_colon a : is_hex a = true → Ascii.eqb a ":" = false.
Proof. destruct (Ascii.eqb_spec a ":") as [->|]; [|done]. vm_compute. discriminate. Qed.

(** One group of the loop. *)
Lemma ipv6_bytes_group fuel acc ell g r :
  group_ok g → stops r → has_prefix "." r = false →
  ipv6_bytes (S fuel) acc ell (hex_group g +:+ r) =
    match r with
    | EmptyString => Some ("", acc ++ group_bytes g, ell)
    | String c r' =>
        if negb (Ascii.eqb c ":") then None
        else match r' with
             | EmptyString => None
             | String c' r'' =>
                 if Ascii.eqb c' ":" then
                   if bool_decide (is_Some ell) then None
                   else if String.eqb r'' "" then Some ("", acc ++ group_bytes g, Some (length (acc ++ group_bytes g)))
                   else ipv6_bytes fuel (acc ++ group_bytes g) (Some (length (acc ++ group_bytes g))) r''
                 else ipv6_bytes fuel (acc ++ group_bytes g) ell r'
             end
    end.
Proof.
  intros Hg Hr Hd. destruct (hex_group_text g Hg) as (Hx & Hl & Hv). cbn [ipv6_bytes]. rewrite span_hex_app by done.
  destruct (Nat.eqb_spec (String.length (hex_group g)) 0); [lia|]. destruct (Nat.ltb_spec 4 (String.length (hex_group g))); [lia|].
  cbn [orb]. by rewrite Hd, hex_prefix_app, Hv.
Qed.

Lemma bytes_app (gs : list Z) g : mbind group_bytes (g :: gs) = group_bytes g ++ mbind group_bytes gs.
Proof. done. Qed.

Lemma ipv6_bytes_end fuel acc ell gs :
  gs ≠ [] → Forall group_ok gs → (length gs ≤ fuel)%nat →
  ipv6_bytes fuel acc ell (groups_text gs) = Some ("", acc ++ mbind group_bytes gs, ell).
Proof.
  intros Hne Hgs. revert fuel acc. induction Hgs as [|g gs Hg Hgs IH]; intros [|fuel] acc Hf; [done|done|cbn in Hf; lia|]. cbn in Hf.
  destruct gs as [|g' gs].
  - change (groups_text [g]) with (hex_group g). rewrite <- (string_app_nil_r (hex_group g)), ipv6_bytes_group by done. done.
  - rewrite groups_text_cons, ipv6_bytes_group by done. inversion Hgs as [|?? Hg' _]; subst.
    destruct (groups_text_nonempty g' gs Hg') as (a & s & Ht & Ha). rewrite Ht. cbn [negb Ascii.eqb]. rewrite (hex_not_colon a Ha).
    cbn. rewrite <- Ht, IH by (done || (cbn in *; lia)). by rewrite <- (assoc_L (++)).
Qed.

Lemma ipv6_bytes_gap fuel acc gs bs :
  gs ≠ [] → Forall group_ok gs → Forall group_ok bs → (length gs + length bs ≤ fuel)%nat →
  ipv6_bytes fuel acc None (groups_text gs +:+ "::" +:+ groups_text bs) =
    Some ("", acc ++ mbind group_bytes gs ++ mbind group_bytes bs, Some (length (acc ++ mbind group_bytes gs))).
Proof.
  intros Hne Hgs Hbs. revert fuel acc. induction Hgs as [|g gs Hg Hgs IH]; intros [|fuel] acc Hf; [done|done|cbn in Hf; lia|]. cbn in Hf.
  destruct gs as [|g' gs].
  - change (groups_text [g]) with (hex_group g). change ("::" +:+ groups_text bs) with (String ":" (String ":" (groups_text bs))).
    rewrite ipv6_bytes_group by done. cbn [negb Ascii.eqb Bool.eqb]. rewrite bool_decide_false by by intros [? ?].
    destruct bs as [|b bs].
    + done.
    + inversion Hbs as [|?? Hb _]; subst. destruct (groups_text_nonempty b bs Hb) as (a & s & Ht & Ha).
      destruct (String.eqb_spec (groups_text (b :: bs)) "") as [E|_]; [congruence|].
      change (negb (Ascii.eqb ":" ":")) with false. change (Ascii.eqb ":" ":") with true. cbn iota.
      rewrite ipv6_bytes_end by (done || cbn in *; lia). by rewrite !bytes_app, app_nil_r, <- (assoc_L (++)).
  - rewrite groups_text_cons, string_app_assoc, string_app_cons, ipv6_bytes_group by done. inversion Hgs as [|?? Hg' _]; subst.
    destruct (groups_text_nonempty g' gs Hg') as (a & s & Ht & Ha).
    specialize (IH ltac:(done) fuel (acc ++ group_bytes g) ltac:(cbn in *; lia)). rewrite Ht, string_app_cons in *.
    change (negb (Ascii.eqb ":" ":")) with false. cbn iota. rewrite (hex_not_colon a Ha), IH, (bytes_app (g' :: gs)).
    by rewrite <- !(assoc_L (++)).
Qed.

(** ** The run of zero groups *)

Lemma zero_run_spec l : (zero_run l ≤ length l)%nat ∧ take (zero_run l) l = replicate (zero_run l) 0%Z.
Proof.
  induction l as [|z l [IH1 IH2]]; [done|]. cbn [zero_run]. destruct (Z.eqb_spec z 0) as [->|_]; [|split; [cbn; lia|done]].
  split; [cbn; lia|]. cbn. by rewrite IH2.
Qed.

(** A run of zeros in a list. *)
Definition run_in (l : list Z) (r : nat * nat) : Prop :=
  snd r = 0%nat ∨ (2 ≤ snd r ∧ fst r + snd r ≤ length l)%nat ∧ l = take (fst r) l ++ replicate (snd r) 0%Z ++ drop (fst r + snd r) l.

Lemma longest_run_spec l1 l2 best : run_in (l1 ++ l2) best → run_in (l1 ++ l2) (longest_run (length l1) best l2).
Proof.
  revert l1 best. induction l2 as [|z l2 IH]; intros l1 best Hb; [done|]. cbn [longest_run].
  replace (S (length l1)) with (length (l1 ++ [z])) by (rewrite length_app; cbn; lia).
  replace (l1 ++ z :: l2) with ((l1 ++ [z]) ++ l2) by by rewrite <- (assoc_L (++)).
  apply IH. rewrite <- (assoc_L (++)). cbn [app].
  destruct ((2 <=? zero_run (z :: l2)) && (snd best <? zero_run (z :: l2)))%nat eqn:Hn; [|done].
  apply andb_true_iff in Hn as [H2%Nat.leb_le _]. destruct (zero_run_spec (z :: l2)) as [Hl Ht].
  right. cbn [fst snd]. split; [rewrite length_app; lia|].
  rewrite take_app_length, <- Ht, <- drop_drop, drop_app_length. by rewrite take_drop.
Qed.

(** ** Bytes and groups *)

Definition byte_ok (b : Z) : Prop := (0 ≤ b < 256)%Z.

Lemma be_groups_bytes n l :
  length l = (2 * n)%nat → Forall byte_ok l → mbind group_bytes (be_groups l) = l ∧ Forall group_ok (be_groups l) ∧ length (be_groups l) = n.
Proof.
  revert l. induction n as [|n IH]; intros l Hl Hb; [by destruct l|].
  destruct l as [|a [|b l]]; [cbn in Hl; lia..|]. apply Forall_cons in Hb as [Ha Hb]. apply Forall_cons in Hb as [Hb Hr].
  destruct (IH l ltac:(cbn in Hl; lia) Hr) as (H1 & H2 & H3). unfold byte_ok in *. cbn [be_groups]. split_and!.
  - rewrite bytes_app, H1. unfold group_bytes. cbn [app]. f_equal; [|f_equal]; Z.to_euclidean_division_equations; lia.
  - apply Forall_cons. split; [unfold group_ok; lia|done].
  - cbn. by rewrite H3.
Qed.

Lemma zero_bytes n : mbind group_bytes (replicate n 0%Z) = replicate (2 * n) 0%Z.
Proof. induction n as [|n IH]; [done|]. replace (2 * S n)%nat with (S (S (2 * n))) by lia. cbn [replicate]. by rewrite bytes_app, IH. Qed.

Lemma length_bytes gs : length (mbind group_bytes gs) = (2 * length gs)%nat.
Proof. induction gs as [|g gs IH]; [done|]. rewrite bytes_app, length_app, IH. cbn. lia. Qed.

Lemma strip_gap a s : is_hex a = true → strip_prefix "::" (String a s) = None.
Proof.
  intros Ha. destruct (strip_prefix "::" (String a s)) as [r|] eqn:E; [|done]. apply strip_prefix_Some in E.
  change ("::" +:+ r) with (String ":" (String ":" r)) in E. injection E as -> _. by vm_compute in Ha.
Qed.

Lemma groups_head gs t : Forall group_ok gs → gs ≠ [] → ∃ a s, groups_text gs +:+ t = String a s ∧ is_hex a = true.
Proof.
  intros Hg Hne. destruct gs as [|g gs]; [done|]. apply Forall_cons in Hg as [Hg _].
  destruct (groups_text_nonempty g gs Hg) as (a & s & -> & Ha). exists a, (s +:+ t). by rewrite string_app_cons.
Qed.

Lemma parse_ipv6_string ip :
  length ip = 16%nat → Forall byte_ok ip → parse_ipv6_bytes (ipv6_string ip) = Some ip.
Proof.
  intros Hl Hb. destruct (be_groups_bytes 8 ip Hl Hb) as (Hbytes & Hok & Hlen). unfold ipv6_string.
  pose proof (longest_run_spec [] (be_groups ip) (0, 0)%nat ltac:(by left)) as Hr. cbn [app length] in Hr.
  destruct (longest_run 0 (0, 0)%nat (be_groups ip)) as [start n]. cbn [fst snd] in Hr. fold (groups_text (be_groups ip)).
  set (groups := be_groups ip) in *.
  assert (groups ≠ []) as Hne by by intros E; rewrite E in Hlen.
  destruct (Nat.eqb_spec n 0) as [->|Hn].
  { destruct (groups_head groups "" Hok Hne) as (a & s & Hs & Ha). rewrite string_app_nil_r in Hs.
    change (join ":" (hex_group <$> groups)) with (groups_text groups).
    unfold parse_ipv6_bytes. rewrite Hs, strip_gap, <- Hs by done. rewrite ipv6_bytes_end by (done || lia).
    cbn [app]. by rewrite Hbytes, Hl. }
  unfold run_in in Hr. cbn [fst snd] in Hr. destruct Hr as [?|[[H2 Hle] Hsplit]]; [done|].
  set (A := take start groups) in *. set (B := drop (start + n) groups) in *.
  change (join ":" (hex_group <$> A) +:+ "::" +:+ join ":" (hex_group <$> B)) with (groups_text A +:+ "::" +:+ groups_text B).
  assert (length A = start) as HA by (unfold A; rewrite length_take; lia).
  assert (length B = 8 - (start + n))%nat as HB by (unfold B; rewrite length_drop; lia).
  assert (Forall group_ok A ∧ Forall group_ok B) as [HoA HoB] by (split; [by apply Forall_take|by apply Forall_drop]).
  assert (ip = mbind group_bytes A ++ replicate (2 * n) 0%Z ++ mbind group_bytes B) as Hip.
  { rewrite <- Hbytes. rewrite (f_equal (mbind group_bytes) Hsplit). by rewrite !bind_app, zero_bytes. }
  unfold parse_ipv6_bytes. destruct A as [|g A].
  - change (groups_text [] +:+ "::" +:+ groups_text B) with ("::" +:+ groups_text B).
    assert (strip_prefix "::" ("::" +:+ groups_text B) = Some (groups_text B)) as -> by by apply strip_prefix_Some.
    rewrite bool_decide_true by by eexists. cbn in HA. subst start. destruct B as [|b B].
    + cbn [andb groups_text fmap list_fmap]. cbn in HB. replace n with 8%nat in Hip by lia. by rewrite Hip.
    + destruct (proj1 (Forall_cons _ _ _) HoB) as [Hb' _]. destruct (groups_text_nonempty b B Hb') as (a & s & Ht & _).
      destruct (String.eqb_spec (groups_text (b :: B)) "") as [E|_]; [congruence|]. cbn [andb].
      rewrite ipv6_bytes_end by (done || lia). cbn [app negb]. change (String.eqb "" "") with true. cbn [negb].
      rewrite length_bytes, HB. destruct (Nat.ltb_spec (2 * (8 - (0 + n))) 16); [|lia].
      rewrite take_0, drop_0. cbn [app]. rewrite Hip. cbn [mbind list_bind app]. do 3 f_equal. lia.
  - destruct (groups_head (g :: A) ("::" +:+ groups_text B) HoA ltac:(done)) as (a & s & Hs & Ha).
    rewrite Hs, strip_gap, <- Hs by done. rewrite bool_decide_false by by intros [? ?]. cbn [andb].
    rewrite ipv6_bytes_gap by (done || lia). cbn [app]. change (String.eqb "" "") with true. cbn [negb].
    rewrite length_app, !length_bytes, HA, HB. destruct (Nat.ltb_spec (2 * start + 2 * (8 - (start + n))) 16); [|lia].
    rewrite take_app_length' by (by rewrite length_bytes, HA). rewrite drop_app_length' by (by rewrite length_bytes, HA).
    rewrite Hip. do 4 f_equal. lia.
Qed.

(** ** The family of a printed address *)

Lemma hex_family a : is_hex a = true → Ascii.eqb a "." = false ∧ Ascii.eqb a ":" = false ∧ Ascii.eqb a "%" = false.
Proof.
  intros Ha. split_and!; [..|]; (match goal with |- Ascii.eqb _ ?c = false => destruct (Ascii.eqb_spec a c) as [->|]; [by vm_compute in Ha|done] end).
Qed.

Lemma address_family_hex s t : all_chars is_hex s = true → address_family (s +:+ String ":" t) = Some false.
Proof.
  induction s as [|a s IH]; [done|]. cbn [all_chars]. intros [Ha Hs]%andb_true_iff. rewrite string_app_cons. cbn [address_family].
  destruct (hex_family a Ha) as (-> & -> & ->). by apply IH.
Qed.

Definition address_char (a : ascii) : bool := is_hex a || Ascii.eqb a ":".

Lemma all_chars_app f s t : all_chars f (s +:+ t) = all_chars f s && all_chars f t.
Proof. induction s as [|a s IH]; [done|]. rewrite string_app_cons. cbn [all_chars]. by rewrite IH, andb_assoc. Qed.

Lemma all_chars_impl (f g : ascii → bool) s : (∀ a, f a = true → g a = true) → all_chars f s = true → all_chars g s = true.
Proof. intros H. induction s as [|a s IH]; [done|]. cbn [all_chars]. rewrite !andb_true_iff. intros [Ha Hs]. split; [by apply H|by apply IH]. Qed.

Lemma groups_chars gs : Forall group_ok gs → all_chars address_char (groups_text gs) = true.
Proof.
  intros H. induction H as [|g gs Hg H IH]; [done|]. destruct (hex_group_text g Hg) as (Hx & _ & _).
  assert (all_chars address_char (hex_group g) = true) as Hc.
  { eapply all_chars_impl, Hx. intros a Ha. unfold address_char. by rewrite Ha. }
  destruct gs as [|g' gs]; [done|]. rewrite groups_text_cons, all_chars_app, Hc by done. cbn [all_chars andb]. by rewrite IH.
Qed.

Lemma no_percent s : all_chars address_char s = true → contains "%" s = false.
Proof.
  induction s as [|a s IH]; [done|]. cbn [all_chars]. intros [Ha Hs]%andb_true_iff.
  change (contains "%" (String a s)) with (has_prefix "%" (String a s) || contains "%" s). rewrite IH by done. rewrite orb_false_r.
  destruct (has_prefix "%" (String a s)) eqn:E; [|done]. apply has_prefix_iff in E as [r E].
  change ("%" +:+ r) with (String "%" r) in E. injection E as -> _. by vm_compute in Ha.
Qed.

Lemma ipv6_string_family ip :
  length ip = 16%nat → Forall byte_ok ip → address_family (ipv6_string ip) = Some false ∧ contains "%" (ipv6_string ip) = false.
Proof.
  intros Hl Hb. destruct (be_groups_bytes 8 ip Hl Hb) as (_ & Hok & Hlen). unfold ipv6_string.
  destruct (longest_run 0 (0, 0)%nat (be_groups ip)) as [start n].
  change (join ":" (hex_group <$> ?l)) with (groups_text l).
  destruct (n =? 0)%nat.
  - split; [|by apply no_percent, groups_chars]. destruct (be_groups ip) as [|g [|g' gs]]; [done..|].
    apply Forall_cons in Hok as [Hg _]. rewrite groups_text_cons by done. apply address_family_hex. by apply hex_group_text.
  - set (A := take start (be_groups ip)). set (B := drop (start + n) (be_groups ip)).
    assert (Forall group_ok A ∧ Forall group_ok B) as [HA HB] by (split; [by apply Forall_take|by apply Forall_drop]). split.
    + destruct A as [|g [|g' A]]; [done|by apply address_family_hex, hex_group_text; apply Forall_cons in HA as [? _]|].
      rewrite groups_text_cons, string_app_assoc, string_app_cons by done. apply Forall_cons in HA as [Hg _]. by apply address_family_hex, hex_group_text.
    + apply no_percent. rewrite !all_chars_app, !groups_chars by done. done.
Qed.

(** ** Dotted quads *)

Lemma fmt_byte b : byte_ok b → ipv4_field (fmt_d b) = true ∧ decimal (fmt_d b) = b ∧ all_chars is_digit (fmt_d b) = true.
Proof.
  revert b. apply (small_cases _ 256). apply Forall_forall. intros z Hz.
  assert (forallb (λ z, ipv4_field (fmt_d z) && (decimal (fmt_d z) =? z)%Z && all_chars is_digit (fmt_d z)) (Z.of_nat <$> seq 0 256) = true) as H by by vm_compute.
  rewrite forallb_forall in H. specialize (H z (proj1 (list_elem_of_In _ _) Hz)). rewrite !andb_true_iff, Z.eqb_eq in H. tauto.
Qed.

Lemma split_on_char c (a b : string) : split_on c (a +:+ String c b) = split_on c a ++ split_on c b.
Proof.
  induction a as [|d a IH].
  - change ("" +:+ String c b) with (String c b). cbn [split_on]. by rewrite Ascii.eqb_refl.
  - rewrite string_app_cons. cbn [split_on]. rewrite IH. destruct (Ascii.eqb d c); [done|].
    assert (split_on c a ≠ []) as Hne.
    { clear. destruct a as [|e a]; [done|]. cbn. destruct (Ascii.eqb e c); [done|]. by destruct (split_on c a). }
    by destruct (split_on c a).
Qed.

Lemma digits_not_dot s : all_chars is_digit s = true → split_on "." s = [s].
Proof.
  induction s as [|a s IH]; [done|]. cbn [all_chars]. intros [Ha Hs]%andb_true_iff. cbn [split_on]. rewrite IH by done.
  destruct (Ascii.eqb_spec a ".") as [->|]; [by vm_compute in Ha|done].
Qed.

Lemma ipv4_string_fields l : Forall byte_ok l → l ≠ [] → split_on "." (ipv4_string l) = fmt_d <$> l.
Proof.
  intros H. induction H as [|b l Hb H IH]; [done|]. intros _. destruct (fmt_byte b Hb) as (_ & _ & Hd).
  destruct l as [|b' l]; [by apply digits_not_dot|].
  change (ipv4_string (b :: b' :: l)) with (fmt_d b +:+ String "." (ipv4_string (b' :: l))).
  rewrite split_on_char, digits_not_dot, IH by done. done.
Qed.

Lemma ipv4_string_parse l : Forall byte_ok l → length l = 4%nat → parse_ipv4 (ipv4_string l) = true ∧ quad (ipv4_string l) = l.
Proof.
  intros Hb Hl. assert (l ≠ []) as Hne by by intros ->. unfold parse_ipv4, quad. rewrite ipv4_string_fields by done. split.
  - rewrite length_fmap, Hl. cbn [Nat.eqb andb]. apply forallb_forall. intros s Hs%list_elem_of_In. apply list_elem_of_fmap in Hs as (b & -> & Hin).
    rewrite Forall_forall in Hb. by apply fmt_byte, Hb.
  - clear Hl Hne. induction Hb as [|b l H Hb IH]; [done|]. cbn. f_equal; [by apply fmt_byte|done].
Qed.

Lemma digit_family a : is_digit a = true → Ascii.eqb a "." = false ∧ Ascii.eqb a ":" = false ∧ Ascii.eqb a "%" = false.
Proof. intros Ha. apply hex_family. unfold is_hex. by rewrite Ha. Qed.

Lemma address_family_digits s t : all_chars is_digit s = true → address_family (s +:+ String "." t) = Some true.
Proof.
  induction s as [|a s IH]; [done|]. cbn [all_chars]. intros [Ha Hs]%andb_true_iff. rewrite string_app_cons. cbn [address_family].
  destruct (digit_family a Ha) as (-> & -> & ->). by apply IH.
Qed.

(** ** What ParseIP gives *)

Definition ip_ok (ip : list Z) : Prop := length ip = 16%nat ∧ Forall byte_ok ip.

Lemma ParseIP_string ip : ip_ok ip → ParseIP (ip_string ip) = Some ip.
Proof.
  intros [Hl Hb]. unfold ip_string, To4. case_bool_decide as Hp.
  - assert (Forall byte_ok (drop 12 ip) ∧ length (drop 12 ip) = 4%nat) as [Hd Hd4] by (split; [by apply Forall_drop|rewrite length_drop; lia]).
    destruct (ipv4_string_parse _ Hd Hd4) as [H1 H2]. unfold ParseIP.
    assert (address_family (ipv4_string (drop 12 ip)) = Some true) as ->.
    { destruct (drop 12 ip) as [|b [|b' l]]; [done..|]. apply Forall_cons in Hd as [Hb' _].
      change (ipv4_string (b :: b' :: l)) with (fmt_d b +:+ String "." (ipv4_string (b' :: l))). by apply address_family_digits, fmt_byte. }
    by rewrite H1, H2, <- Hp, take_drop.
  - unfold ParseIP. destruct (ipv6_string_family ip Hl Hb) as [-> ->]. by apply parse_ipv6_string.
Qed.

Lemma decimal_acc_nonneg acc s : (0 ≤ acc)%Z → all_chars is_digit s = true → (0 ≤ decimal_acc acc s)%Z.
Proof.
  revert acc. induction s as [|a s IH]; intros acc Ha; [done|]. cbn [all_chars decimal_acc]. intros [Hd Hs]%andb_true_iff. apply IH; [|done].
  unfold is_digit in Hd. apply andb_true_iff in Hd as [Hd%Nat.leb_le _]. lia.
Qed.

Lemma quad_ok s : parse_ipv4 s = true → Forall byte_ok (quad s) ∧ length (quad s) = 4%nat.
Proof.
  unfold parse_ipv4, quad. intros [Hl Hf]%andb_true_iff. rewrite length_fmap. apply Nat.eqb_eq in Hl. split; [|done].
  apply Forall_fmap, Forall_forall. intros f Hin%list_elem_of_In. rewrite forallb_forall in Hf. specialize (Hf f Hin).
  unfold ipv4_field in Hf. rewrite !andb_true_iff, Z.leb_le in Hf. destruct Hf as [[[_ Hd] _] Hle]. unfold byte_ok, compose, decimal in *.
  pose proof (decimal_acc_nonneg 0 f ltac:(lia) Hd). lia.
Qed.

Lemma hex_value_range a : is_hex a = true → (0 ≤ hex_value a < 16)%Z.
Proof.
  intros H. unfold is_hex, is_digit in H. unfold hex_value, is_digit.
  destruct (Nat.leb_spec 48 (nat_of_ascii a)), (Nat.leb_spec (nat_of_ascii a) 57), (Nat.leb_spec 65 (nat_of_ascii a)), (Nat.leb_spec (nat_of_ascii a) 70),
    (Nat.leb_spec 97 (nat_of_ascii a)), (Nat.leb_spec (nat_of_ascii a) 102), (Z.leb_spec 97 (Z.of_nat (nat_of_ascii a))); cbn in *; lia || discriminate.
Qed.

Lemma hex_prefix_range n s acc r k :
  span_hex s = (n, r) → (0 ≤ acc < 16 ^ k)%Z → (0 ≤ k)%Z → (0 ≤ hex_prefix n acc s < 16 ^ (k + Z.of_nat n))%Z.
Proof.
  revert n acc k. induction s as [|a s IH]; intros n acc k; cbn [span_hex].
  { intros [= <- <-] H _. cbn [hex_prefix]. by rewrite Z.add_0_r. }
  destruct (is_hex a) eqn:Ha; [|intros [= <- <-] H _; cbn [hex_prefix]; by rewrite Z.add_0_r].
  destruct (span_hex s) as [m r'] eqn:Hs. intros [= <- <-] H Hk. cbn [hex_prefix].
  pose proof (hex_value_range a Ha). replace (k + Z.of_nat (S m))%Z with (Z.succ k + Z.of_nat m)%Z by lia.
  apply (IH m); [done|rewrite Z.pow_succ_r by lia; lia|lia].
Qed.

Lemma ipv6_bytes_ok fuel acc ell s rest acc' ell' :
  ipv6_bytes fuel acc ell s = Some (rest, acc', ell') → Forall byte_ok acc → (length acc + 2 * fuel ≤ 16)%nat →
  Forall byte_ok acc' ∧ (length acc' ≤ 16)%nat.
Proof.
  revert acc ell s. induction fuel as [|fuel IH]; intros acc ell s; cbn [ipv6_bytes]; [intros [= <- <- <-] H1 H2; split; [done|lia]|].
  destruct (span_hex s) as [off r] eqn:Hs. destruct ((off =? 0)%nat || (4 <? off)%nat) eqn:Hoff; [done|].
  apply orb_false_iff in Hoff as [_ Hoff%Nat.ltb_ge]. intros H Ha Hl.
  destruct (has_prefix "." r).
  { destruct (_ && _); [done|]. destruct (Nat.ltb_spec 16 (length acc + 4)); [done|]. destruct (parse_ipv4 s) eqn:H4; [|done].
    injection H as <- <- <-. destruct (quad_ok s H4) as [Hq Hq4]. split; [by apply Forall_app|rewrite length_app; lia]. }
  pose proof (hex_prefix_range off s 0 r 0 Hs ltac:(done) ltac:(done)) as Hg.
  assert (16 ^ (0 + Z.of_nat off) ≤ 65536)%Z as Hp by (change 65536%Z with (16 ^ 4)%Z; apply Z.pow_le_mono_r; lia).
  set (g := hex_prefix off 0 s) in *. assert (Forall byte_ok (acc ++ [g / 256; g mod 256]%Z)) as Ha'.
  { apply Forall_app. split; [done|]. repeat (apply Forall_cons; split; [unfold byte_ok; Z.to_euclidean_division_equations; lia|]). by apply Forall_nil. }
  assert (length (acc ++ [g / 256; g mod 256]%Z) + 2 * fuel ≤ 16)%nat as Hl' by (rewrite length_app; cbn [length]; lia).
  assert (Forall byte_ok (acc ++ [g / 256; g mod 256]%Z) ∧ (length (acc ++ [g / 256; g mod 256]%Z) ≤ 16)%nat) as Hdone by (split; [done|lia]).
  destruct r as [|c r]; [by injection H as <- <- <-|]. destruct (negb (Ascii.eqb c ":")); [done|]. destruct r as [|c' r]; [done|].
  destruct (Ascii.eqb c' ":"); [|by apply IH in H]. destruct (bool_decide (is_Some ell)); [done|].
  destruct (String.eqb r ""); [by injection H as <- <- <-|by apply IH in H].
Qed.

Lemma ParseIP_ok_bytes s ip : ParseIP s = Some ip → ip_ok ip.
Proof.
  unfold ParseIP. destruct (address_family s) as [[]|]; [..|done].
  - destruct (parse_ipv4 s) eqn:H4; [|done]. intros [= <-]. destruct (quad_ok s H4) as [Hq Hq4]. split.
    + cbn [length]. by rewrite Hq4.
    + do 12 (apply Forall_cons; split; [unfold byte_ok; lia|]). done.
  - destruct (contains "%" s); [done|]. unfold parse_ipv6_bytes.
    assert (∀ n, Forall byte_ok (replicate n 0%Z)) as Hz by (intros n; apply Forall_replicate; unfold byte_ok; lia).
    assert (∀ ell s', finish_bytes (ipv6_bytes 8 [] ell s') = Some ip → ip_ok ip) as Hfin.
    { intros ell s' H. destruct (ipv6_bytes 8 [] ell s') as [[[rest acc] ell']|] eqn:E; [|done]. cbn [finish_bytes] in H.
      destruct (ipv6_bytes_ok 8 [] ell s' _ _ _ E ltac:(by apply Forall_nil) ltac:(cbn; lia)) as [Ha Hl].
      destruct (negb _); [done|]. destruct (Nat.ltb_spec (length acc) 16).
      - destruct ell' as [e|]; [|done]. injection H as <-. split; [rewrite !length_app, length_take, length_drop, length_replicate; lia|].
        rewrite !Forall_app. split_and!; [by apply Forall_take|done|by apply Forall_drop].
      - destruct ell'; [done|]. injection H as <-. split; [lia|done]. }
    destruct (strip_prefix "::" s) as [r|].
    + destruct (_ && _); [intros [= <-]; split; [done|apply (Hz 16%nat)]|]. apply Hfin.
    + destruct (_ && _); [intros [= <-]; split; [done|apply (Hz 16%nat)]|]. apply Hfin.
Qed.

(** An address that was read is printed as one that reads back as the same. *)
Theorem ParseIP_ip_string s ip : ParseIP s = Some ip → ParseIP (ip_string ip) = Some ip.
Proof. intros H. by apply ParseIP_string, (ParseIP_ok_bytes s). Qed.
