(* ===== verification/CliMounts.v ===== *)
(** The --mount and --secret flags of the command line
    (src/cmd/nanofuse/mounts_secrets.go), and how what they declare reaches the daemon.

    The listing commands of the file are not modelled. *)

From stdpp Require Import gmap.
From S2P Require Import Prelude GoStrings Paths GoUrl GoIp Types MountSecret.

(** * Flags *)

(** A field of a list: key, value, and whether a value was given.  [to_lower]
    changes ASCII letters only, [strings.ToLower] others as well; the keys the result
    is compared with are ASCII. *)
Definition key_value (field : string) : string * string * bool :=
  let '(key, value) := cut "=" field in
  (to_lower (trim_space key), trim_space (default "" value), match value with Some _ => true | None => false end).

(* @func cmd/nanofuse/mounts_secrets.go parseMountRO *)
Definition parseMountRO (spec value : string) (hasValue : bool) : result bool :=
  if negb hasValue then Ok true
  else
    let v := to_lower value in
    if bool_decide (v ∈ ["true"; "1"; "yes"; "on"]) then Ok true
    else if bool_decide (v ∈ ["false"; "0"; "no"; "off"]) then Ok false
    else Err (Errorf "invalid --mount %q: ro must be a boolean (true/false/1/0/yes/no/on/off)" [AStr spec]).

(** One field of a mount, on the mount so far. *)
(* @src cmd/nanofuse/mounts_secrets.go:80-112 parseMountKV *)
Definition mount_field (spec : string) (m : Mount) (field : string) : result Mount :=
  let '(key, value, hasValue) := key_value field in
  let required (r : Mount) :=
    if String.eqb value "" then Err (Errorf "invalid --mount %q: %q requires a value" [AStr spec; AStr key]) else Ok r in
  if bool_decide (key ∈ ["src"; "source"]) then required (mkMount value (m_target m) (m_type m) (m_read_only m))
  else if bool_decide (key ∈ ["dst"; "target"; "destination"]) then required (mkMount (m_source m) value (m_type m) (m_read_only m))
  else if String.eqb key "type" then required (mkMount (m_source m) (m_target m) (to_lower value) (m_read_only m))
  else if bool_decide (key ∈ ["ro"; "readonly"; "read_only"]) then
    let? ro := parseMountRO spec value hasValue in Ok (mkMount (m_source m) (m_target m) (m_type m) ro)
  else Err (Errorf "invalid --mount %q: unknown key %q" [AStr spec; AStr key]).

(** The fields of a list, in order; an empty one is passed over. *)
Fixpoint fold_fields {A} (step : A → string → result A) (acc : A) (fields : list string) : result A :=
  match fields with
  | [] => Ok acc
  | field :: fields =>
      let field := trim_space field in
      if String.eqb field "" then fold_fields step acc fields
      else let? acc := step acc field in fold_fields step acc fields
  end.

(* @func cmd/nanofuse/mounts_secrets.go parseMountKV *)
Definition parseMountKV (spec : string) : result Mount :=
  fold_fields (mount_field spec) (mkMount "" "" "" false) (split_on "," spec).

(* @func cmd/nanofuse/mounts_secrets.go parseMountShorthand *)
Definition parseMountShorthand (spec : string) : result Mount :=
  let ro := has_suffix ":ro" spec in
  let body := if ro then trim_suffix ":ro" spec else if has_suffix ":rw" spec then trim_suffix ":rw" spec else spec in
  match cut_last ":" body with
  | Some (source, target) =>
      if String.eqb source "" || String.eqb target "" then
        Err (Errorf "invalid --mount %q: expected src:dst[:ro] or key=value list" [AStr spec])
      else Ok (mkMount source target "bind" ro)
  | None => Err (Errorf "invalid --mount %q: expected src:dst[:ro] or key=value list" [AStr spec])
  end.

(** The loop over the flags. *)
Fixpoint each_spec {A} (parse : string → result A) (empty : error) (specs : list string) : result (list A) :=
  match specs with
  | [] => Ok []
  | spec :: specs =>
      let spec := trim_space spec in
      if String.eqb spec "" then Err empty
      else let? a := parse spec in let? l := each_spec parse empty specs in Ok (a :: l)
  end.

(* @func cmd/nanofuse/mounts_secrets.go parseMountSpecs *)
Definition parseMountSpecs (specs : list string) : result (list Mount) :=
  each_spec (λ spec, if contains "=" spec then parseMountKV spec else parseMountShorthand spec)
    (ErrorsNew "invalid --mount: empty value") specs.

(* @src cmd/nanofuse/mounts_secrets.go:153-190 parseSecretSpecs *)
Definition secret_field (spec : string) (s : SecretRef) (field : string) : result SecretRef :=
  let '(key, value, _) := key_value field in
  let required (r : SecretRef) :=
    if String.eqb value "" then Err (Errorf "invalid --secret %q: %q requires a value" [AStr spec; AStr key]) else Ok r in
  if String.eqb key "name" then required (mkSecret value (s_source s) (s_type s) (s_target s))
  else if bool_decide (key ∈ ["source"; "src"; "ref"]) then required (mkSecret (s_name s) value (s_type s) (s_target s))
  else if String.eqb key "type" then required (mkSecret (s_name s) (s_source s) (to_lower value) (s_target s))
  else if bool_decide (key ∈ ["target"; "dst"; "as"]) then required (mkSecret (s_name s) (s_source s) (s_type s) value)
  else if bool_decide (key ∈ ["value"; "secret"]) then
    Err (Errorf "invalid --secret %q: secret values are not accepted; pass a reference via source=" [AStr spec])
  else Err (Errorf "invalid --secret %q: unknown key %q" [AStr spec; AStr key]).

Definition parse_secret (spec : string) : result SecretRef :=
  let? s := fold_fields (secret_field spec) (mkSecret "" "" "" "") (split_on "," spec) in
  if String.eqb (s_name s) "" then Err (Errorf "invalid --secret %q: name is required" [AStr spec])
  else if String.eqb (s_source s) "" then Err (Errorf "invalid --secret %q: source is required (e.g. source=vault://kv/token)" [AStr spec])
  else Ok s.

(* @func cmd/nanofuse/mounts_secrets.go parseSecretSpecs *)
Definition parseSecretSpecs (specs : list string) : result (list SecretRef) :=
  each_spec parse_secret (ErrorsNew "invalid --secret: empty value") specs.

Example mount_flags :
  parseMountSpecs ["src=/host/data,dst=/data,type=bind,ro"; "type=tmpfs,dst=/scratch"; "/host/data:/data:ro"; "C:\data:/data"]
  = Ok [mkMount "/host/data" "/data" "bind" true; mkMount "" "/scratch" "tmpfs" false; mkMount "/host/data" "/data" "bind" true;
        mkMount "C:\data" "/data" "bind" false].
Proof. vm_compute. reflexivity. Qed.

(** The short form of a path with an equals sign is taken for a list of keys. *)
Example equals_sign_in_a_path : is_Ok (parseMountSpecs ["/data/run=3:/data"]) = false.
Proof. vm_compute. reflexivity. Qed.

(** * Flags for a declaration *)

(** The key=value form of a mount and of a secret reference. *)
Definition mount_flag (m : Mount) : string :=
  join "," ((if String.eqb (m_source m) "" then [] else ["src=" +:+ m_source m]) ++ ["dst=" +:+ m_target m]
            ++ (if m_read_only m then ["ro"] else []) ++ ["type=" +:+ m_type m]).

Definition secret_flag (s : SecretRef) : string :=
  join "," (["name=" +:+ s_name s; "source=" +:+ s_source s; "target=" +:+ s_target s; "type=" +:+ s_type s]).

(** A value that a field of a list can hold: no comma, no space at the ends. *)
Definition flaggable (s : string) : Prop := no_char "," s ∧ trim_space s = s.

Definition mount_flaggable (m : Mount) : Prop :=
  flaggable (m_source m) ∧ flaggable (m_target m) ∧ m_target m ≠ "" ∧ m_type m ∈ ["bind"; "volume"; "tmpfs"].
Definition secret_flaggable (s : SecretRef) : Prop :=
  flaggable (s_name s) ∧ flaggable (s_source s) ∧ flaggable (s_target s) ∧ s_name s ≠ "" ∧ s_source s ≠ "" ∧ s_target s ≠ "" ∧
  s_type s ∈ ["env"; "file"].

(** ** Splitting *)

Lemma split_on_joined c l : l ≠ [] → Forall (no_char c) l → split_on c (join (String c "") l) = l.
Proof.
  intros Hne H. induction H as [|s l Hs H IH]; [done|]. destruct l as [|s' l]; [by apply split_on_plain|].
  change (join (String c "") (s :: s' :: l)) with (s +:+ String c (join (String c "") (s' :: l))).
  by rewrite split_on_char, split_on_plain, IH.
Qed.

(** ** Trimming a field *)

Lemma prefix_before q a c t : no_char c q → has_prefix q (a +:+ String c t) = has_prefix q a.
Proof.
  revert a. induction q as [|b q IH]; intros a Hq; [by destruct a|]. apply no_char_cons in Hq as [Hb Hq].
  destruct a as [|d a].
  - change ("" +:+ String c t) with (String c t). unfold has_prefix. cbn [String.prefix].
    destruct (ascii_dec b c) as [->|]; [by rewrite Ascii.eqb_refl in Hb|done].
  - rewrite string_app_cons. unfold has_prefix in *. cbn [String.prefix]. destruct (ascii_dec b d); [by apply IH|done].
Qed.

Lemma starts_before seps a c t : Forall (no_char c) seps → starts_with_any seps (a +:+ String c t) = starts_with_any seps a.
Proof.
  intros H. unfold starts_with_any. induction H as [|q seps Hq H IH]; [done|]. cbn [existsb]. by rewrite IH, prefix_before.
Qed.

(** Behind a key that starts with a letter, a trimmed value leaves nothing to trim. *)
Lemma trim_key_value k v :
  starts_with_any space_runes (k +:+ String "=" v) = false → trim_space v = v → v ≠ "" → trim_space (k +:+ String "=" v) = k +:+ String "=" v.
Proof.
  intros Hk Hv Hne. apply trim_space_id; [done|].
  rewrite string_rev_app_distr, string_rev_cons, string_app_assoc. change (String "=" "" +:+ string_rev k) with (String "=" (string_rev k)).
  rewrite starts_before.
  - pose proof (trim_space_clean v) as [_ Hc]. by rewrite Hv in Hc.
  - apply Forall_forall. intros q Hq. unfold no_char.
    assert (forallb (λ q, negb (contains_any ["="%char] q)) (string_rev <$> space_runes) = true) as Hall by by vm_compute.
    rewrite forallb_forall in Hall. specialize (Hall q (proj1 (list_elem_of_In _ _) Hq)). by apply negb_true_iff.
Qed.

Lemma key_value_text k v :
  no_char "=" k → to_lower (trim_space k) = k → trim_space v = v → key_value (k +:+ String "=" v) = (k, v, true).
Proof. intros Hk Hl Hv. unfold key_value. rewrite cut_at by done. change (default "" (Some v)) with v. by rewrite Hl, Hv. Qed.

(** One field with a value is read by the step. *)
Lemma fold_field {A} (step : A → string → result A) acc k v fields :
  starts_with_any space_runes (k +:+ String "=" v) = false → trim_space v = v → v ≠ "" →
  fold_fields step acc ((k +:+ String "=" v) :: fields) = let? acc := step acc (k +:+ String "=" v) in fold_fields step acc fields.
Proof.
  intros Hk Hv Hne. cbn [fold_fields]. rewrite trim_key_value by done.
  destruct (String.eqb_spec (k +:+ String "=" v) "") as [E|]; [by destruct k|done].
Qed.

Lemma mount_type_text ty : ty ∈ ["bind"; "volume"; "tmpfs"] → no_char "," ty ∧ trim_space ty = ty ∧ ty ≠ "" ∧ to_lower ty = ty ∧ starts_with_any (string_rev <$> space_runes) (string_rev ty) = false.
Proof. intros H. repeat (apply elem_of_cons in H as [->|H]; [by split_and!|]). by apply elem_of_nil in H. Qed.
Lemma secret_type_text ty : ty ∈ ["env"; "file"] → no_char "," ty ∧ trim_space ty = ty ∧ ty ≠ "" ∧ to_lower ty = ty ∧ starts_with_any (string_rev <$> space_runes) (string_rev ty) = false.
Proof. intros H. repeat (apply elem_of_cons in H as [->|H]; [by split_and!|]). by apply elem_of_nil in H. Qed.

(** ** A list of fields as a flag *)

(** A flag that begins with a letter and ends with its type is not trimmed. *)
Lemma trim_flag s ty :
  starts_with_any space_runes (s +:+ ",type=" +:+ ty) = false → starts_with_any (string_rev <$> space_runes) (string_rev ty) = false →
  trim_space (s +:+ ",type=" +:+ ty) = s +:+ ",type=" +:+ ty.
Proof.
  intros H1 H2. apply trim_space_id; [done|]. rewrite !string_rev_app_distr.
  change (string_rev ",type=") with (String "=" "epyt,"). rewrite string_app_assoc, string_app_cons.
  rewrite starts_before; [done|]. apply Forall_forall. intros q Hq. unfold no_char.
  assert (forallb (λ q, negb (contains_any ["="%char] q)) (string_rev <$> space_runes) = true) as Hall by by vm_compute.
  rewrite forallb_forall in Hall. specialize (Hall q (proj1 (list_elem_of_In _ _) Hq)). by apply negb_true_iff.
Qed.

Lemma each_spec_texts {A} (parse : string → result A) (text : A → string) empty l :
  Forall (λ a, trim_space (text a) = text a ∧ text a ≠ "" ∧ parse (text a) = Ok a) l → each_spec parse empty (text <$> l) = Ok l.
Proof.
  intros H. induction H as [|a l (Ht & Hn & Hp) H IH]; [done|]. rewrite fmap_cons. cbn [each_spec]. rewrite Ht, Hp.
  destruct (String.eqb_spec (text a) ""); [done|]. cbn [result_bind]. by rewrite IH.
Qed.

Lemma kv_text k v : no_char "," (k +:+ String "=" v) ↔ no_char "," k ∧ no_char "," v.
Proof. rewrite no_char_app, no_char_cons. naive_solver. Qed.

Lemma string_dst x : String "d" ("st=" +:+ x) = "dst=" +:+ x.
Proof. done. Qed.
Lemma string_src x : String "s" ("rc=" +:+ x) = "src=" +:+ x.
Proof. done. Qed.

Lemma mount_flag_parsed m : mount_flaggable m → trim_space (mount_flag m) = mount_flag m ∧ mount_flag m ≠ "" ∧
  (if contains "=" (mount_flag m) then parseMountKV (mount_flag m) else parseMountShorthand (mount_flag m)) = Ok m.
Proof.
  destruct m as [src dst ty ro]. intros ([Hsc Hst] & [Hdc Hdt] & Hd & Hty). cbn [m_source m_target m_type] in *.
  destruct (mount_type_text ty Hty) as (Htc & Htt & Htn & Htl & Htr).
  set (flag := mount_flag (mkMount src dst ty ro)).
  assert (∃ a s, (a = "s" ∨ a = "d")%char ∧ flag = String a s +:+ ",type=" +:+ ty) as (a & s & Ha & Hflag).
  { unfold flag, mount_flag. cbn [m_source m_target m_type m_read_only].
    destruct (String.eqb src ""), ro; cbn [app]; [exists "d"%char, ("st=" +:+ dst +:+ ",ro")|exists "d"%char, ("st=" +:+ dst)|exists "s"%char, ("rc=" +:+ src +:+ ",dst=" +:+ dst +:+ ",ro")|exists "s"%char, ("rc=" +:+ src +:+ ",dst=" +:+ dst)];
      (split; [tauto|]); rewrite ?string_dst, ?string_src; unfold join; cbn [String.concat]; by rewrite !string_app_assoc. }
  split_and!.
  - rewrite Hflag. apply trim_flag; [|done]. rewrite string_app_cons. by destruct Ha as [-> | ->].
  - rewrite Hflag. by rewrite string_app_cons.
  - assert (contains "=" flag = true) as ->.
    { rewrite Hflag. clear. induction (String a s) as [|b t IH]; [by vm_compute; destruct ty|]. rewrite string_app_cons.
      change (contains "=" (String b ?u)) with (has_prefix "=" (String b u) || contains "=" u). rewrite IH. apply orb_true_r. }
    unfold parseMountKV. unfold flag at 2, mount_flag. cbn [m_source m_target m_type m_read_only].
    change "," with (String "," ""). rewrite split_on_joined; [|by destruct (String.eqb src "")|].
    2: { apply Forall_app. split; [destruct (String.eqb src ""); [by apply Forall_nil|apply Forall_singleton; by apply (kv_text "src")]|].
      apply Forall_cons. split; [by apply (kv_text "dst")|]. apply Forall_app. split; [destruct ro; [by apply Forall_singleton|by apply Forall_nil]|].
      apply Forall_singleton. by apply (kv_text "type"). }
    assert (∀ acc, fold_fields (mount_field flag) acc (["dst=" +:+ dst] ++ (if ro then ["ro"] else []) ++ ["type=" +:+ ty])
      = Ok (mkMount (m_source acc) dst ty (ro || m_read_only acc))) as Hrest.
    { intros acc. cbn [app]. change ("dst=" +:+ dst) with ("dst" +:+ String "=" dst). rewrite fold_field by done.
      unfold mount_field at 1. rewrite key_value_text by done. rewrite (proj2 (String.eqb_neq dst "") Hd).
      change (bool_decide ("dst" ∈ ["src"; "source"])) with false. change (bool_decide ("dst" ∈ ["dst"; "target"; "destination"])) with true. cbn iota.
      cbn [result_bind m_source m_type m_read_only].
      assert (∀ acc', fold_fields (mount_field flag) acc' ["type=" +:+ ty] = Ok (mkMount (m_source acc') (m_target acc') ty (m_read_only acc'))) as Hlast.
      { intros acc'. change ("type=" +:+ ty) with ("type" +:+ String "=" ty). rewrite fold_field by done.
        unfold mount_field at 1. rewrite key_value_text by done. rewrite (proj2 (String.eqb_neq ty "") Htn), Htl. done. }
      destruct ro; cbn [app]; [|by rewrite Hlast].
      cbn [fold_fields]. change (trim_space "ro") with "ro". change (String.eqb "ro" "") with false. cbn iota.
      change (mount_field flag ?m "ro") with (Ok (mkMount (m_source m) (m_target m) (m_type m) true)). etrans; [apply Hlast|done]. }
    destruct (String.eqb_spec src "") as [->|Hs]; cbn [app].
    + rewrite Hrest. cbn. by rewrite orb_false_r.
    + change ("src=" +:+ src) with ("src" +:+ String "=" src). rewrite fold_field by done.
      unfold mount_field at 1. rewrite key_value_text by done. rewrite (proj2 (String.eqb_neq src "") Hs).
      change (bool_decide ("src" ∈ ["src"; "source"])) with true. cbn iota.
      cbn [result_bind]. etrans; [apply Hrest|]. cbn. by rewrite orb_false_r.
Qed.

Lemma secret_flag_parsed s : secret_flaggable s →
  trim_space (secret_flag s) = secret_flag s ∧ secret_flag s ≠ "" ∧ parse_secret (secret_flag s) = Ok s.
Proof.
  destruct s as [name src ty tgt]. intros ([Hnc Hnt] & [Hsc Hst] & [Htc Htt] & Hn & Hs & Ht & Hty). cbn [s_name s_source s_type s_target] in *.
  destruct (secret_type_text ty Hty) as (Hyc & Hyt & Hyn & Hyl & Hyr). set (flag := secret_flag (mkSecret name src ty tgt)).
  assert (flag = ("name=" +:+ name +:+ ",source=" +:+ src +:+ ",target=" +:+ tgt) +:+ ",type=" +:+ ty) as Hflag.
  { unfold flag, secret_flag, join. cbn [String.concat s_name s_source s_type s_target]. by rewrite !string_app_assoc. }
  split_and!; [by rewrite Hflag; apply trim_flag|by rewrite Hflag|].
  unfold parse_secret. unfold flag at 2, secret_flag. cbn [s_name s_source s_type s_target]. change "," with (String "," "").
  rewrite split_on_joined; [|done|].
  2: { apply Forall_cons. split; [by apply (kv_text "name")|]. apply Forall_cons. split; [by apply (kv_text "source")|].
    apply Forall_cons. split; [by apply (kv_text "target")|]. apply Forall_singleton. by apply (kv_text "type"). }
  change ("name=" +:+ name) with ("name" +:+ String "=" name). change ("source=" +:+ src) with ("source" +:+ String "=" src).
  change ("target=" +:+ tgt) with ("target" +:+ String "=" tgt). change ("type=" +:+ ty) with ("type" +:+ String "=" ty).
  assert (∀ acc, secret_field flag acc ("name" +:+ String "=" name) = Ok (mkSecret name (s_source acc) (s_type acc) (s_target acc))) as H1.
  { intros acc. unfold secret_field. rewrite key_value_text by done. by rewrite (proj2 (String.eqb_neq name "") Hn). }
  assert (∀ acc, secret_field flag acc ("source" +:+ String "=" src) = Ok (mkSecret (s_name acc) src (s_type acc) (s_target acc))) as H2.
  { intros acc. unfold secret_field. rewrite key_value_text by done. by rewrite (proj2 (String.eqb_neq src "") Hs). }
  assert (∀ acc, secret_field flag acc ("target" +:+ String "=" tgt) = Ok (mkSecret (s_name acc) (s_source acc) (s_type acc) tgt)) as H3.
  { intros acc. unfold secret_field. rewrite key_value_text by done. by rewrite (proj2 (String.eqb_neq tgt "") Ht). }
  assert (∀ acc, secret_field flag acc ("type" +:+ String "=" ty) = Ok (mkSecret (s_name acc) (s_source acc) ty (s_target acc))) as H4.
  { intros acc. unfold secret_field. rewrite key_value_text by done. by rewrite (proj2 (String.eqb_neq ty "") Hyn), Hyl. }
  rewrite fold_field, H1 by done. cbn [result_bind]. rewrite fold_field, H2 by done. cbn [result_bind].
  rewrite fold_field, H3 by done. cbn [result_bind]. rewrite fold_field, H4 by done. cbn [result_bind fold_fields s_name s_source s_type s_target].
  by rewrite (proj2 (String.eqb_neq name "") Hn), (proj2 (String.eqb_neq src "") Hs).
Qed.

(** * What the daemon keeps can be declared again *)

Lemma mount_norm_again m : flaggable (m_source (mount_norm m)) → flaggable (m_target (mount_norm m)) → mount_valid m →
  mount_flaggable (mount_norm m) ∧ mount_norm (mount_norm m) = mount_norm m ∧ mount_valid (mount_norm m).
Proof.
  intros Hs Ht Hv. pose proof (mount_norm_target m Hv) as (Hr & Hc & _). destruct Hv as [_ Hv].
  assert (m_type (mount_norm m) ∈ ["bind"; "volume"; "tmpfs"]) as Hty.
  { unfold mount_norm. cbn [m_type]. set_solver. }
  assert (clean_mount (mount_norm m) = mount_norm m) as Hclean.
  { destruct (mount_type_text _ Hty) as (_ & Htt & Htn & Htl & _). unfold clean_mount. rewrite Htt, Htl, bool_decide_false by done.
    destruct Hs as [_ ->], Ht as [_ ->]. by destruct (mount_norm m). }
  split_and!.
  - split_and!; [done|done| |done]. intros E. by rewrite E in Hr.
  - unfold mount_norm at 1. rewrite Hclean, Hc. by destruct (mount_norm m).
  - unfold mount_valid. rewrite Hclean. split; [done|]. exact Hv.
Qed.

Lemma secret_norm_again s :
  flaggable (s_name (secret_norm s)) → flaggable (s_source (secret_norm s)) → flaggable (s_target (secret_norm s)) → secret_valid s →
  secret_flaggable (secret_norm s) ∧ secret_norm (secret_norm s) = secret_norm s ∧ secret_valid (secret_norm s).
Proof.
  intros Hn Hs Ht (Hv1 & Hv2 & Hv3).
  assert (s_type (secret_norm s) ∈ ["env"; "file"]) as Hty by (unfold secret_norm; cbn [s_type]; set_solver).
  assert (s_target (secret_norm s) ≠ "" ∧ (s_type (secret_norm s) = "env" ∨ s_type (secret_norm s) = "file" ∧ has_prefix "/" (s_target (secret_norm s)) = true ∧
    path_clean (s_target (secret_norm s)) = s_target (secret_norm s))) as [Htn Hkind].
  { unfold secret_norm. cbn [s_target s_type s_name]. destruct Hv3 as [E|[E Hp]].
    - rewrite bool_decide_true by done. split; [by case_bool_decide|by left].
    - rewrite bool_decide_false by (rewrite E; done). split; [intros E'; pose proof (path_clean_rooted _ Hp) as Hr; by rewrite E' in Hr|].
      right. split_and!; [done|by apply path_clean_rooted|by apply path_clean_idem]. }
  assert (clean_secret (secret_norm s) = secret_norm s) as Hclean.
  { destruct (secret_type_text _ Hty) as (_ & Htt & Hyn & Htl & _). unfold clean_secret. rewrite Htt, Htl, bool_decide_false by done.
    destruct Hn as [_ ->], Hs as [_ ->], Ht as [_ ->]. by destruct (secret_norm s). }
  split_and!.
  - by split_and!.
  - unfold secret_norm at 1. rewrite Hclean. destruct (secret_norm s) as [n sr ty tg]. cbn [s_type s_target s_name s_source] in *.
    destruct Hkind as [->|(-> & _ & Hcl)].
    + rewrite bool_decide_true by done. by rewrite bool_decide_false.
    + by rewrite bool_decide_false, Hcl.
  - unfold secret_valid. rewrite Hclean. split_and!; [exact Hv1|exact Hv2|]. destruct Hkind as [|(? & ? & _)]; [by left|by right].
Qed.

(** C37: mounts and secrets that the daemon accepted and keeps can be declared again on
    the command line: as long as no field has a comma or a space at its ends, their
    flags are parsed to the very same declarations, and the daemon accepts these
    unchanged. *)
Theorem declared_again mounts secrets ms ss :
  NormalizeAndValidateMounts mounts = Ok ms → NormalizeAndValidateSecrets secrets = Ok ss →
  Forall (λ m, flaggable (m_source m) ∧ flaggable (m_target m)) ms →
  Forall (λ s, flaggable (s_name s) ∧ flaggable (s_source s) ∧ flaggable (s_target s)) ss →
  parseMountSpecs (mount_flag <$> ms) = Ok ms ∧ NormalizeAndValidateMounts ms = Ok ms ∧
  parseSecretSpecs (secret_flag <$> ss) = Ok ss ∧ NormalizeAndValidateSecrets ss = Ok ss.
Proof.
  rewrite !NormalizeAndValidateMounts_spec, !NormalizeAndValidateSecrets_spec. intros (-> & Hmv & Hmn) (-> & Hsv & Hsn) Hm Hs.
  assert (∀ m, m ∈ mounts → mount_flaggable (mount_norm m) ∧ mount_norm (mount_norm m) = mount_norm m ∧ mount_valid (mount_norm m)) as HM.
  { rewrite Forall_fmap in Hm. rewrite Forall_forall in Hm, Hmv. intros m Hin. destruct (Hm m Hin). by apply mount_norm_again; [..|apply Hmv]. }
  assert (∀ s, s ∈ secrets → secret_flaggable (secret_norm s) ∧ secret_norm (secret_norm s) = secret_norm s ∧ secret_valid (secret_norm s)) as HS.
  { rewrite Forall_fmap in Hs. rewrite Forall_forall in Hs, Hsv. intros s Hin. destruct (Hs s Hin) as (? & ? & ?). by apply secret_norm_again; [..|apply Hsv]. }
  split_and!.
  - apply each_spec_texts, Forall_fmap, Forall_forall. intros m Hin. by apply mount_flag_parsed, HM.
  - rewrite <- list_fmap_compose. apply list_fmap_ext. intros i m Hi%list_elem_of_lookup_2. symmetry. by apply HM.
  - apply Forall_fmap, Forall_forall. intros m Hin. by apply HM.
  - done.
  - apply each_spec_texts, Forall_fmap, Forall_forall. intros s Hin. by apply secret_flag_parsed, HS.
  - rewrite <- list_fmap_compose. apply list_fmap_ext. intros i s Hi%list_elem_of_lookup_2. symmetry. by apply HS.
  - apply Forall_fmap, Forall_forall. intros s Hin. by apply HS.
  - done.
Qed.

Lemma declared_again_witness :
  parseMountSpecs (mount_flag <$> [mkMount "/srv" "/data/x" "bind" true; mkMount "" "/scratch" "tmpfs" false])
    = Ok [mkMount "/srv" "/data/x" "bind" true; mkMount "" "/scratch" "tmpfs" false] ∧
  parseSecretSpecs (secret_flag <$> [mkSecret "T" "vault://kv" "env" "T"]) = Ok [mkSecret "T" "vault://kv" "env" "T"].
Proof.
  destruct (declared_again [mkMount " /srv " "/data//x/" " BIND" true; mkMount "" "/tmp/../scratch" "tmpfs" false] [mkSecret "T" " vault://kv" "" ""]
    [mkMount "/srv" "/data/x" "bind" true; mkMount "" "/scratch" "tmpfs" false] [mkSecret "T" "vault://kv" "env" "T"]) as (H1 & _ & H2 & _).
  - vm_compute. reflexivity.
  - vm_compute. reflexivity.
  - repeat (apply Forall_cons; split; [by split_and!|]). by apply Forall_nil.
  - repeat (apply Forall_cons; split; [by split_and!|]). by apply Forall_nil.
  - by split.
Defined.

(** Values are refused: what is parsed has a name and a source, and no field of a flag
    was a value. *)
Theorem secret_values_refused specs ss :
  parseSecretSpecs specs = Ok ss →
  length ss = length specs ∧ Forall (λ s, s_name s ≠ "" ∧ s_source s ≠ "") ss ∧
  ∀ spec field, spec ∈ specs → field ∈ split_on "," (trim_space spec) → trim_space field ≠ "" →
    fst (fst (key_value (trim_space field))) ∉ ["value"; "secret"].
Proof.
  assert (∀ spec fields acc s, fold_fields (secret_field spec) acc fields = Ok s → ∀ field, field ∈ fields → trim_space field ≠ "" →
    fst (fst (key_value (trim_space field))) ∉ ["value"; "secret"]) as Hfields.
  { intros spec fields. induction fields as [|f fields IH]; intros acc s H field; [by intros ?%elem_of_nil|]. cbn [fold_fields] in H.
    destruct (String.eqb_spec (trim_space f) "") as [E|E].
    - intros [->|Hin]%elem_of_cons; [done|by eapply IH].
    - destruct (secret_field spec acc (trim_space f)) as [acc'|] eqn:Ef; [|done]. intros [->|Hin]%elem_of_cons Hne; [|by eapply IH].
      unfold secret_field in Ef. destruct (key_value (trim_space f)) as [[key value] has]. cbn [fst]. intros Hk.
      rewrite (bool_decide_true (key ∈ ["value"; "secret"])) in Ef by done.
      repeat (apply elem_of_cons in Hk as [->|Hk]; [by vm_compute in Ef|]). by apply elem_of_nil in Hk. }
  unfold parseSecretSpecs. revert ss. induction specs as [|spec specs IH]; intros ss; cbn [each_spec].
  { intros [= <-]. split_and!; [done|by apply Forall_nil|by intros ? ? ?%elem_of_nil]. }
  destruct (String.eqb (trim_space spec) ""); [done|].
  destruct (parse_secret (trim_space spec)) as [s|] eqn:Ep; [|done]. destruct (each_spec _ _ specs) as [l|]; [|done].
  intros [= <-]. destruct (IH l eq_refl) as (H1 & H2 & H3). unfold parse_secret in Ep.
  destruct (fold_fields _ _ _) as [s'|] eqn:Ef; [|done]. cbn [result_bind] in Ep.
  destruct (String.eqb_spec (s_name s') ""), (String.eqb_spec (s_source s') ""); try done. injection Ep as ->. split_and!.
  - cbn. by rewrite H1.
  - by apply Forall_cons.
  - intros sp field [->|Hin]%elem_of_cons Hf Hne; [by eapply Hfields|by eapply H3].
Qed.
