(* ===== verification/Gondolin.v ===== *)
(** Conversion of gondolin sandboxes (src/internal/gondolin: gondolin.go, convert.go;
    src/cmd/nanofuse/convert.go): a mirrored sandbox becomes a request for a VM and a
    report of everything that has no equivalent, and the command that prints both.

    Decoding YAML is the library's.  A detail of the report is the format and its
    arguments, as an error is; its text is asked for only to sort by it.  The resolver
    is asked once for every host it may resolve and answers by the place of the host
    in the list, so that two questions may have two answers. *)

From stdpp Require Import gmap strings sorting.
From S2P Require Import Prelude GoStrings GoRunes GoIp Types.

(* @type internal/gondolin/gondolin.go Resources *)
Record Resources : Type := mkResources { rs_vcpus : option Z; rs_memory : option Z }.

(* @type internal/gondolin/gondolin.go Sandbox *)
Record Sandbox : Type := mkSandbox {
  sb_image : string; sb_vmm : string; sb_cwd : string; sb_env : gmap string string; sb_allow_host : list string;
  sb_host_secret : list string; sb_mount_hostfs : list string; sb_mount_memfs : list string; sb_ssh_allow_host : list string;
  sb_tcp_map : list string; sb_dns : string; sb_rootfs_size : string; sb_resources : option Resources }.

(* @src internal/gondolin/convert.go:16-19 DefaultVCPUs *)
Definition DefaultVCPUs : Z := 2.
Definition DefaultMemoryMiB : Z := 512.

(* @src internal/gondolin/convert.go:22-37 Severity *)
Inductive Severity : Type := SeverityInfo | SeverityWarn | SeverityBlocking.
#[global] Instance severity_eq_dec : EqDecision Severity.
Proof. solve_decision. Defined.

(* @type internal/gondolin/convert.go Divergence *)
Record Divergence : Type := mkDiv { dv_feature : string; dv_severity : Severity; dv_detail : message }.

(* @type internal/gondolin/convert.go Options *)
Record Options : Type := mkOptions {
  op_lossy : bool; op_resolve : bool; op_resolver : option (nat → string → result (list string)) }.

(** The client's own types of a VM have the fields of Types.v. *)
(* @type internal/client/types.go CreateVMRequest *)
Record CreateVMRequest : Type := mkRequest { rq_name : string; rq_image : string; rq_config : VMConfig }.

(* @type internal/gondolin/convert.go renderRule *)
Record renderRule : Type := mkRenderRule { rr_cidr : string; rr_protocol : string; rr_port : Z; rr_description : string }.
(* @type internal/gondolin/convert.go renderEgress *)
Record renderEgress : Type := mkRenderEgress { re_enabled : bool; re_default : string; re_dns : bool; re_rules : list renderRule }.
(* @src internal/gondolin/convert.go:467-482 renderSpec *)
Record renderSpec : Type := mkRenderSpec {
  rn_name : string; rn_image : string; rn_vcpus : Z; rn_memory : Z; rn_mode : string; rn_egress : option renderEgress }.

Class GondolinEnv : Type := {
  gd_text : error → string;                        (* the text of a message *)
  gd_docs : string → list (result Sandbox);        (* what decoding one document after the other gives *)
  gd_yaml : renderSpec → result string;             (* [yaml.Marshal] *)
  gd_read : string → result string;                (* [os.ReadFile] *)
  gd_write : string → string → option error;       (* [os.WriteFile] with mode 0600 *)
  gd_resolve : nat → string → result (list string);  (* the lookup of a host *)
  gd_colour : Severity → string → string }.        (* a line in the colour of a severity *)

Section Gondolin.
Context `{GD : GondolinEnv}.

(** * Reading the document *)

(* @func internal/gondolin/gondolin.go Parse *)
Definition Parse (data : string) : result Sandbox :=
  if String.eqb (trim_space data) "" then Err (ErrorsNew "empty gondolin mirror document")
  else
    match gd_docs data with
    | [] => Err (ErrorsNew "empty gondolin mirror document")
    | Err err :: _ => Err (Errorf "parse gondolin mirror: %w" [AWrap err])
    | [Ok sb] => Ok sb
    | Ok sb :: Ok _ :: _ => Err (ErrorsNew "multiple YAML documents in gondolin mirror: only one sandbox per file is supported")
    | Ok sb :: Err err :: _ => Err (Errorf "parse gondolin mirror: %w" [AWrap err])
    end.

(** * Checks and lists *)

(* @func internal/gondolin/convert.go trimmedNonEmpty *)
Definition trimmedNonEmpty (items : list string) : list string := filter (λ t, t ≠ "") (trim_space <$> items).

Definition unsafe_rune (r : Z) : bool := IsControl r || IsSpace r || Cf r.

(* @func internal/gondolin/convert.go hasUnsafeRunes *)
Definition hasUnsafeRunes (s : string) : bool := existsb unsafe_rune (runes s).

(* @func internal/gondolin/convert.go isLiteralHost *)
Definition isLiteralHost (host : string) : bool :=
  if String.eqb host "" then false
  else if contains_any ["*"; "?"; "/"; " "]%char host then false
  else if contains "://" host then false
  else negb (hasUnsafeRunes host).

(* @func internal/gondolin/convert.go hostCIDR *)
Definition hostCIDR (ip : string) : option string :=
  match ParseIP ip with
  | None => None
  | Some parsed =>
      match To4 parsed with
      | Some v4 => Some (ipv4_string v4 +:+ "/32")
      | None => Some (ip_string parsed +:+ "/128")
      end
  end.

(** The items of [quotedList], each quoted, with commas between. *)
(* @func internal/gondolin/convert.go quotedList *)
Definition quotedList (items : list string) : arg := AShow (Errorf "%q" (AStr <$> items)).

(** The order of [sort.Strings]. *)
Definition string_le (a b : string) : Prop := String.leb a b = true.
#[global] Instance string_le_dec : RelDecision string_le.
Proof. intros a b. unfold string_le. apply _. Defined.

(* @func internal/gondolin/convert.go sortedKeys *)
Definition sortedKeys (m : gmap string string) : list string := merge_sort string_le (map_to_list m).*1.

(* @func internal/gondolin/convert.go blockingFeatures *)
Definition blockingFeatures (divs : list Divergence) : list string :=
  dv_feature <$> filter (λ d, dv_severity d = SeverityBlocking) divs.

Definition div_le (a b : Divergence) : Prop :=
  (if String.eqb (dv_feature a) (dv_feature b) then String.leb (gd_text (dv_detail a)) (gd_text (dv_detail b))
   else String.leb (dv_feature a) (dv_feature b)) = true.
#[global] Instance div_le_dec : RelDecision div_le.
Proof. intros a b. unfold div_le. apply _. Defined.

(* @func internal/gondolin/convert.go sortDivergences *)
Definition sortDivergences (divs : list Divergence) : list Divergence := merge_sort div_le divs.

(** * Egress *)

Definition rule_for (host cidr : string) : EgressRule :=
  mkRule cidr "tcp" 443 ("resolved from gondolin allow-host " +:+ host +:+ " (point-in-time; HTTPS/443 only)").

(** The addresses of a host, one after the other: whether one was an address, the
    rules, and the CIDRs they have. *)
(* @src internal/gondolin/convert.go:338-356 resolveHostToRules *)
Fixpoint add_addresses (host : string) (ips : list string) (st : bool * list EgressRule * gset string) : bool * list EgressRule * gset string :=
  match ips with
  | [] => st
  | ip :: ips =>
      let '(added, rules, seen) := st in
      add_addresses host ips
        match hostCIDR ip with
        | None => (added, rules, seen)
        | Some cidr =>
            if bool_decide (cidr ∈ seen) then (true, rules, seen) else (true, rules ++ [rule_for host cidr], {[cidr]} ∪ seen)
        end
  end.

(* @func internal/gondolin/convert.go resolveHostToRules *)
Definition resolveHostToRules (i : nat) (host : string) (opts : Options) (rules : list EgressRule) (seen : gset string)
    : bool * list EgressRule * gset string :=
  match op_resolver opts with
  | Some resolver =>
      if negb (op_resolve opts) || negb (isLiteralHost host) then (false, rules, seen)
      else
        match resolver i host with
        | Ok (ip :: ips) => add_addresses host (ip :: ips) (false, rules, seen)
        | _ => (false, rules, seen)
        end
  | None => (false, rules, seen)
  end.

(** The loop over the hosts: rules, and the hosts that gave none. *)
Fixpoint resolve_hosts (i : nat) (hosts : list string) (opts : Options) (rules : list EgressRule) (seen : gset string)
    : list EgressRule * list string :=
  match hosts with
  | [] => (rules, [])
  | host :: hosts =>
      let '(handled, rules, seen) := resolveHostToRules i host opts rules seen in
      let '(rules, dropped) := resolve_hosts (S i) hosts opts rules seen in
      (rules, if handled then dropped else host :: dropped)
  end.

Definition rule_le (a b : EgressRule) : Prop :=
  (if String.eqb (er_cidr a) (er_cidr b) then (er_port a <=? er_port b)%Z else String.leb (er_cidr a) (er_cidr b)) = true.
#[global] Instance rule_le_dec : RelDecision rule_le.
Proof. intros a b. unfold rule_le. apply _. Defined.

(** What is said of the hosts. *)
(* @src internal/gondolin/convert.go:272-309 buildEgressPolicy *)
Definition host_divergences (hosts dropped : list string) (rules : list EgressRule) (opts : Options) : list Divergence :=
  match op_resolve opts, op_resolver opts with
  | true, Some _ =>
      match dropped with
      | [] => []
      | _ => [mkDiv "--allow-host" SeverityWarn (Sprintf "L7 HTTP allowlist resolved to point-in-time /32 CIDR rules where possible; %d entr(y/ies) dropped under default-deny (wildcards/paths, or literal hosts that failed DNS resolution): %s. Resolved rules are a snapshot and do not track DNS changes." [AInt (Z.of_nat (length dropped)); quotedList dropped])]
      end ++
      match rules with
      | [] => []
      | _ => [mkDiv "--allow-host (resolved)" SeverityWarn (Text "allow-host hostnames resolved to /32 rules restricted to TCP/443; L7 path/method filtering is not enforced.")]
      end
  | true, None =>
      [mkDiv "--allow-host" SeverityWarn (Sprintf "--resolve-egress was requested but no resolver is configured; gondolin L7 HTTP allowlist (%s) left under default-deny (no outbound allowed)." [quotedList hosts])]
  | false, _ =>
      [mkDiv "--allow-host" SeverityWarn (Sprintf "gondolin L7 HTTP allowlist (%s) cannot be expressed as nanofuse L3/L4 CIDR rules; egress locked to default-deny (safe degrade, no outbound allowed). Use --resolve-egress to opt in to point-in-time hostname->CIDR resolution." [quotedList hosts])]
  end.

(* @func internal/gondolin/convert.go buildEgressPolicy *)
Definition buildEgressPolicy (sb : Sandbox) (hosts : list string) (opts : Options) : list Divergence * EgressPolicy :=
  let mode := trim_space (sb_dns sb) in
  let dns := negb (String.eqb mode "") in
  let divs := if dns then
      [mkDiv "--dns" SeverityBlocking (Sprintf "nanofuse egress has only a coarse allow-DNS toggle; gondolin dns mode %q (synthetic/trusted/open resolver semantics) cannot be represented. AllowDNS set true as best effort." [AStr mode])]
    else [] in
  let policy rules := mkEgress true "deny" dns false None rules in
  match hosts with
  | [] => (divs, policy [])
  | _ =>
      let '(rules, dropped) := resolve_hosts 0 hosts opts [] ∅ in
      (divs ++ host_divergences hosts dropped rules opts, policy (merge_sort rule_le rules))
  end.

(** * Conversion *)

(** One resource: its value and what is disclosed, or the error. *)
(* @src internal/gondolin/convert.go:114-125 Convert *)
Definition resource (field : string) (given : option Z) (dflt : Z) : result (Z * list Divergence) :=
  match given with
  | None => Ok (dflt, [mkDiv ("resources." +:+ field) SeverityInfo (Sprintf (field +:+ " unset; nanofuse default assumed: %d") [AInt dflt])])
  | Some n => if (n <=? 0)%Z then Err (Errorf ("invalid resources: " +:+ field +:+ "=%d must be > 0") [AInt n]) else Ok (n, [])
  end.

(** What [Convert] gives: the request, the report, the error. *)
Record Conversion : Type := mkConversion { cv_request : option CreateVMRequest; cv_report : list Divergence; cv_error : option error }.

Definition blocking (feature : string) (present : bool) (detail : message) : list Divergence :=
  if present then [mkDiv feature SeverityBlocking detail] else [].

Definition count_of {A} (l : list A) : arg := AInt (Z.of_nat (length l)).
Definition given (s : string) : bool := negb (String.eqb (trim_space s) "").
Definition some_of {A} (l : list A) : bool := match l with [] => false | _ => true end.

(* @src internal/gondolin/convert.go:172-203 Convert *)
Definition unrepresentable (sb : Sandbox) : list Divergence :=
  let env := sortedKeys (sb_env sb) in
  blocking "--vmm" (given (sb_vmm sb)) (Sprintf "gondolin vmm %q is qemu/krun; nanofuse runs only firecracker. Hypervisor cannot be honoured." [AStr (trim_space (sb_vmm sb))]) ++
  blocking "--cwd" (given (sb_cwd sb)) (Text "nanofuse CreateVMRequest has no guest working-directory field; cwd cannot be set at create time.") ++
  blocking "--env" (some_of env) (Sprintf "nanofuse has no guest environment injection; %d env var(s) (%s) cannot be delivered to the guest." [count_of env; quotedList env]) ++
  blocking "--host-secret" (some_of (sb_host_secret sb)) (Sprintf "nanofuse has no host-secret injection; %d host-secret entr(y/ies) cannot be delivered (entries omitted from this report in case they contain secret values)." [count_of (sb_host_secret sb)]) ++
  blocking "--mount-hostfs" (some_of (sb_mount_hostfs sb)) (Sprintf "nanofuse CreateVMRequest exposes no host-directory bind mounts; %d mount(s) (%s) cannot be represented." [count_of (sb_mount_hostfs sb); quotedList (sb_mount_hostfs sb)]) ++
  blocking "--mount-memfs" (some_of (sb_mount_memfs sb)) (Sprintf "nanofuse has no in-memory mount primitive; %d memfs mount(s) (%s) cannot be represented." [count_of (sb_mount_memfs sb); quotedList (sb_mount_memfs sb)]) ++
  blocking "--ssh-allow-host" (some_of (sb_ssh_allow_host sb)) (Sprintf "nanofuse has no SSH egress broker; %d ssh-allow-host rule(s) (%s) cannot be represented." [count_of (sb_ssh_allow_host sb); quotedList (sb_ssh_allow_host sb)]) ++
  blocking "--tcp-map" (some_of (sb_tcp_map sb)) (Sprintf "nanofuse egress is CIDR-based and has no guest->upstream TCP remapping; %d tcp-map rule(s) (%s) cannot be represented." [count_of (sb_tcp_map sb); quotedList (sb_tcp_map sb)]) ++
  blocking "--rootfs-size" (given (sb_rootfs_size sb)) (Sprintf "nanofuse CreateVMRequest has no rootfs-size control; requested size %q cannot be applied." [AStr (trim_space (sb_rootfs_size sb))]).

(* @src internal/gondolin/convert.go:208-217 Convert *)
Definition downgrade (d : Divergence) : Divergence :=
  if bool_decide (dv_severity d = SeverityBlocking) then
    mkDiv (dv_feature d) SeverityWarn (Sprintf "LOSSY (--allow-lossy): %s" [AShow (dv_detail d)])
  else d.

(** The resources, their divergences, or the error with the divergences so far. *)
(* @src internal/gondolin/convert.go:103-137 Convert *)
Definition resources_of (sb : Sandbox) : result (Z * Z * list Divergence) * list Divergence :=
  match sb_resources sb with
  | None =>
      (Ok (DefaultVCPUs, DefaultMemoryMiB,
           [mkDiv "resources" SeverityInfo (Sprintf "gondolin has no CPU/memory model; nanofuse defaults assumed: vcpus=%d, memory_mib=%d" [AInt DefaultVCPUs; AInt DefaultMemoryMiB])]), [])
  | Some r =>
      match resource "vcpus" (rs_vcpus r) DefaultVCPUs with
      | Err err => (Err err, [])
      | Ok (vcpus, d1) =>
          match resource "memory_mib" (rs_memory r) DefaultMemoryMiB with
          | Err err => (Err err, d1)
          | Ok (memory, d2) => (Ok (vcpus, memory, d1 ++ d2), [])
          end
      end
  end.

Definition known_mode (mode : string) : bool := String.eqb mode "synthetic" || String.eqb mode "trusted" || String.eqb mode "open".

(** The request: what the conversion does not set is left at its zero value. *)
Definition request_for (image : string) (vcpus memory : Z) (policy : option EgressPolicy) : CreateVMRequest :=
  mkRequest "" image (mkConfig vcpus memory "" "" (mkNet "nat" "" "" None "" "" "" [] policy) [] [] []).

(* @func internal/gondolin/convert.go Convert *)
Definition Convert (sandbox : option Sandbox) (opts : Options) : Conversion :=
  match sandbox with
  | None => mkConversion None [] (Some (ErrorsNew "nil sandbox"))
  | Some sb =>
      let image := trim_space (sb_image sb) in
      let mode := trim_space (sb_dns sb) in
      if String.eqb image "" then mkConversion None [] (Some (ErrorsNew "image is required (gondolin --image)"))
      else if hasUnsafeRunes image then
        mkConversion None [] (Some (Errorf "image %q contains invalid whitespace, control, or format characters" [AStr image]))
      else if negb (String.eqb mode "") && negb (known_mode mode) then
        mkConversion None [] (Some (Errorf "unknown gondolin dns mode %q (expected synthetic, trusted, or open)" [AStr mode]))
      else
        match resources_of sb with
        | (Err err, divs) => mkConversion None divs (Some err)
        | (Ok (vcpus, memory, divs), _) =>
            let allowHosts := trimmedNonEmpty (sb_allow_host sb) in
            let '(divs, policy) :=
              if some_of allowHosts || negb (String.eqb mode "") then
                let '(egressDivs, policy) := buildEgressPolicy sb allowHosts opts in (divs ++ egressDivs, Some policy)
              else (divs, None) in
            let req := request_for image vcpus memory policy in
            let divs := sortDivergences (divs ++ unrepresentable sb) in
            if op_lossy opts then mkConversion (Some req) (downgrade <$> divs) None
            else
              match blockingFeatures divs with
              | [] => mkConversion (Some req) divs None
              | features =>
                  mkConversion (Some req) divs
                    (Some (Errorf "fail-closed: %d gondolin feature(s) have no faithful nanofuse equivalent: %s. Re-run with --allow-lossy to drop them and proceed"
                       [count_of features; AStr (join ", " features)]))
              end
        end
  end.

Definition render_egress (p : EgressPolicy) : renderEgress :=
  mkRenderEgress (ep_enabled p) (ep_default_action p) (ep_allow_dns p)
    ((λ r, mkRenderRule (er_cidr r) (er_protocol r) (er_port r) (er_description r)) <$> ep_allow_rules p).

(* @func internal/gondolin/convert.go RenderSpecYAML *)
Definition RenderSpecYAML (req : option CreateVMRequest) : result string :=
  match req with
  | None => Err (ErrorsNew "nil request")
  | Some req =>
      let cfg := rq_config req in
      gd_yaml (mkRenderSpec (rq_name req) (rq_image req) (c_vcpus cfg) (c_memory cfg) (n_mode (c_network cfg))
        (render_egress <$> n_egress (c_network cfg)))
  end.

(** * The command *)

Definition keep_inline (r : Z) : option Z := if (r =? 32)%Z then Some r else if unsafe_rune r then None else Some r.
Definition keep_block (r : Z) : option Z := if (r =? 10)%Z || (r =? 32)%Z then Some r else if unsafe_rune r then None else Some r.

(* @func cmd/nanofuse/convert.go sanitizeInline *)
Definition sanitizeInline (s : string) : string := strings_Map keep_inline s.
(* @func cmd/nanofuse/convert.go sanitizeBlock *)
Definition sanitizeBlock (s : string) : string := strings_Map keep_block s.

Definition severity_text (s : Severity) : string :=
  match s with SeverityInfo => "info" | SeverityWarn => "warn" | SeverityBlocking => "blocking" end.
Definition count_severity (s : Severity) (divs : list Divergence) : string := fmt_d (Z.of_nat (length (filter (λ d, dv_severity d = s) divs))).
Definition nl : string := bytes [10].

(** What is printed, piece by piece. *)
(* @func cmd/nanofuse/convert.go printDivergences *)
Definition printDivergences (divs : list Divergence) : list string :=
  match divs with
  | [] => ["Divergence report: no divergences (all fields map cleanly)." +:+ nl]
  | _ =>
      ("Divergence report (" +:+ count_severity SeverityBlocking divs +:+ " blocking, " +:+ count_severity SeverityWarn divs +:+ " warning, "
        +:+ count_severity SeverityInfo divs +:+ " info):" +:+ nl +:+ nl) ::
      mbind (λ d, [gd_colour (dv_severity d) ("  [" +:+ severity_text (dv_severity d) +:+ "] " +:+ sanitizeInline (dv_feature d) +:+ nl);
                   "      " +:+ sanitizeInline (gd_text (dv_detail d)) +:+ nl]) divs
  end.

(** The flags, and how the command ends: what it printed, the file it wrote, the error. *)
Record ConvertFlags : Type := mkFlags { fl_lossy : bool; fl_resolve : bool; fl_output : string }.
Record Outcome : Type := mkEnd { en_stdout : list string; en_file : option (string * string); en_error : option error }.

(* @src cmd/nanofuse/convert.go:98-161 convertGondolinCmd *)
Definition convertGondolin (flags : ConvertFlags) (file : string) : Outcome :=
  match gd_read file with
  | Err err => mkEnd [] None (Some (Errorf "read gondolin mirror: %s" [AStr (sanitizeInline (gd_text err))]))
  | Ok data =>
      match Parse data with
      | Err err => mkEnd [] None (Some (Errorf "%s" [AStr (sanitizeInline (gd_text err))]))
      | Ok sb =>
          let opts := mkOptions (fl_lossy flags) (fl_resolve flags) (if fl_resolve flags then Some gd_resolve else None) in
          let cv := Convert (Some sb) opts in
          let report := match cv_error cv, cv_report cv with Some _, [] => [] | _, divs => printDivergences divs end in
          match cv_error cv with
          | Some err => mkEnd report None (Some (Errorf "%s" [AStr (sanitizeInline (gd_text err))]))
          | None =>
              match RenderSpecYAML (cv_request cv) with
              | Err err => mkEnd report None (Some (Errorf "render nanofuse spec: %w" [AWrap err]))
              | Ok specYAML =>
                  if negb (String.eqb (fl_output flags) "") then
                    match gd_write (fl_output flags) specYAML with
                    | Some err => mkEnd report None (Some (Errorf "write nanofuse spec: %s" [AStr (sanitizeInline (gd_text err))]))
                    | None => mkEnd (report ++ ["Wrote nanofuse spec to " +:+ sanitizeInline (fl_output flags) +:+ nl]) (Some (fl_output flags, specYAML)) None
                    end
                  else mkEnd (report ++ [nl +:+ "# nanofuse spec" +:+ nl; sanitizeBlock specYAML]) None None
              end
          end
      end
  end.

End Gondolin.
