(* ===== verification/GondolinSpec.v ===== *)
(** What the conversion of a gondolin sandbox guarantees: nothing without an equivalent
    is dropped in silence, the egress policy allows no more than the addresses of the
    hosts that were allowed, and no secret is reported. *)

From stdpp Require Import gmap strings sorting.
From S2P Require Import Prelude GoStrings GoNet GoRunes GoIp Types Egress Gondolin.

Section Spec.
Context `{GD : GondolinEnv}.

(** * Features without an equivalent *)

Definition used (feature : string) (present : bool) : list string := if present then [feature] else [].

Definition features_used (sb : Sandbox) : list string :=
  used "--dns" (given (sb_dns sb)) ++ used "--vmm" (given (sb_vmm sb)) ++ used "--cwd" (given (sb_cwd sb))
  ++ used "--env" (bool_decide (sb_env sb ≠ ∅)) ++ used "--host-secret" (some_of (sb_host_secret sb))
  ++ used "--mount-hostfs" (some_of (sb_mount_hostfs sb)) ++ used "--mount-memfs" (some_of (sb_mount_memfs sb))
  ++ used "--ssh-allow-host" (some_of (sb_ssh_allow_host sb)) ++ used "--tcp-map" (some_of (sb_tcp_map sb))
  ++ used "--rootfs-size" (given (sb_rootfs_size sb)).

(** A sandbox that can be converted at all. *)
Definition positive (n : option Z) : Prop := match n with Some n => (0 < n)%Z | None => True end.
Definition valid (sb : Sandbox) : Prop :=
  trim_space (sb_image sb) ≠ "" ∧ hasUnsafeRunes (trim_space (sb_image sb)) = false ∧
  trim_space (sb_dns sb) ∈ [""; "synthetic"; "trusted"; "open"] ∧
  match sb_resources sb with None => True | Some r => positive (rs_vcpus r) ∧ positive (rs_memory r) end.

Definition vcpus_of (sb : Sandbox) : Z := default DefaultVCPUs (r ← sb_resources sb; rs_vcpus r).
Definition memory_of (sb : Sandbox) : Z := default DefaultMemoryMiB (r ← sb_resources sb; rs_memory r).

(** The policy of a sandbox, and what is said on the way. *)
Definition egress_of (sb : Sandbox) (opts : Options) : list Divergence * option EgressPolicy :=
  let hosts := trimmedNonEmpty (sb_allow_host sb) in
  if some_of hosts || given (sb_dns sb) then
    let '(divs, policy) := buildEgressPolicy sb hosts opts in (divs, Some policy)
  else ([], None).

Definition resource_divs (sb : Sandbox) : list Divergence :=
  match fst (resources_of sb) with Ok (_, divs) => divs | Err _ => [] end.

Definition all_divs (sb : Sandbox) (opts : Options) : list Divergence :=
  sortDivergences ((resource_divs sb ++ fst (egress_of sb opts)) ++ unrepresentable sb).

Lemma resources_valid sb :
  match sb_resources sb with None => True | Some r => positive (rs_vcpus r) ∧ positive (rs_memory r) end →
  resources_of sb = (Ok (vcpus_of sb, memory_of sb, resource_divs sb), []).
Proof.
  unfold resource_divs, resources_of, vcpus_of, memory_of. destruct (sb_resources sb) as [[v m]|]; [|done]. cbn. unfold positive, resource. intros [Hv Hm].
  destruct v as [v|], m as [m|]; cbn [fst]; repeat match goal with |- context [(?n <=? 0)%Z] => destruct (Z.leb_spec n 0); [lia|] end; done.
Qed.

Lemma resources_invalid sb :
  ¬ match sb_resources sb with None => True | Some r => positive (rs_vcpus r) ∧ positive (rs_memory r) end →
  ∃ err divs, resources_of sb = (Err err, divs).
Proof.
  unfold resources_of. destruct (sb_resources sb) as [[v m]|]; [|by intros []]. cbn. unfold positive, resource. intros H.
  destruct v as [v|]; [destruct (Z.leb_spec v 0); [by do 2 eexists|]|]; (destruct m as [m|]; [destruct (Z.leb_spec m 0); [by do 2 eexists|]|]);
    exfalso; apply H; split; lia || done.
Qed.

Lemma known_mode_spec mode : mode ∈ [""; "synthetic"; "trusted"; "open"] ↔ negb (String.eqb mode "") && negb (known_mode mode) = false.
Proof.
  unfold known_mode. rewrite !elem_of_cons, elem_of_nil.
  destruct (String.eqb_spec mode ""), (String.eqb_spec mode "synthetic"), (String.eqb_spec mode "trusted"), (String.eqb_spec mode "open"); cbn; naive_solver.
Qed.

(** The conversion of a valid sandbox, without its branches. *)
Lemma Convert_valid sb opts :
  valid sb →
  Convert (Some sb) opts =
    let req := request_for (trim_space (sb_image sb)) (vcpus_of sb) (memory_of sb) (snd (egress_of sb opts)) in
    if op_lossy opts then mkConversion (Some req) (downgrade <$> all_divs sb opts) None
    else
      match blockingFeatures (all_divs sb opts) with
      | [] => mkConversion (Some req) (all_divs sb opts) None
      | features => mkConversion (Some req) (all_divs sb opts)
          (Some (Errorf "fail-closed: %d gondolin feature(s) have no faithful nanofuse equivalent: %s. Re-run with --allow-lossy to drop them and proceed"
             [count_of features; AStr (join ", " features)]))
      end.
Proof.
  intros (Hi & Hu & Hd & Hr). unfold Convert. destruct (String.eqb_spec (trim_space (sb_image sb)) ""); [done|]. rewrite Hu.
  apply known_mode_spec in Hd. rewrite Hd, (resources_valid sb Hr). unfold all_divs, egress_of, given.
  destruct (some_of _ || _); [|by rewrite app_nil_r]. by destruct (buildEgressPolicy _ _ _).
Qed.

Lemma Convert_invalid sb opts : ¬ valid sb → cv_request (Convert (Some sb) opts) = None ∧ is_Some (cv_error (Convert (Some sb) opts)).
Proof.
  intros H. unfold Convert. destruct (String.eqb_spec (trim_space (sb_image sb)) ""); [split; [done|by eexists]|].
  destruct (hasUnsafeRunes _) eqn:Hu; [split; [done|by eexists]|].
  destruct (negb _ && _) eqn:Hm; [split; [done|by eexists]|].
  destruct (resources_invalid sb) as (err & divs & ->); [|split; [done|by eexists]].
  intros Hr. apply H. split_and!; [done..|by apply known_mode_spec|done].
Qed.

(** ** The blocking ones are those used *)

Lemma blockingFeatures_app a b : blockingFeatures (a ++ b) = blockingFeatures a ++ blockingFeatures b.
Proof. unfold blockingFeatures. by rewrite filter_app, fmap_app. Qed.

Lemma blockingFeatures_perm a b : a ≡ₚ b → blockingFeatures a ≡ₚ blockingFeatures b.
Proof. unfold blockingFeatures. by intros ->. Qed.

Lemma blockingFeatures_none l : Forall (λ d, dv_severity d ≠ SeverityBlocking) l → blockingFeatures l = [].
Proof.
  intros H. unfold blockingFeatures. induction H as [|d l Hd H IH]; [done|]. by rewrite filter_cons_False.
Qed.

Lemma blocking_used feature present detail : blockingFeatures (blocking feature present detail) = used feature present.
Proof. by destruct present. Qed.

Lemma sortedKeys_some m : some_of (sortedKeys m) = bool_decide (m ≠ ∅).
Proof.
  assert (sortedKeys m ≡ₚ (map_to_list m).*1) as Hp by apply merge_sort_Permutation.
  case_bool_decide as Hm.
  - destruct (sortedKeys m) as [|k ks]; [|done]. apply Permutation_nil_l, eq_sym, fmap_nil_inv, map_to_list_empty_iff in Hp. done.
  - subst m. rewrite map_to_list_empty in Hp. change (([] : list (string * string)).*1) with ([] : list string) in Hp. apply Permutation_nil_r in Hp. by rewrite Hp.
Qed.

Lemma resource_divs_info sb : Forall (λ d, dv_severity d ≠ SeverityBlocking) (resource_divs sb).
Proof.
  unfold resource_divs, resources_of, resource. destruct (sb_resources sb) as [[[v|] [m|]]|]; cbn;
    repeat match goal with |- context [(?n <=? 0)%Z] => destruct (Z.leb_spec n 0); cbn end;
    repeat (apply Forall_cons; split; [done|]); by apply Forall_nil.
Qed.

Lemma host_divergences_warn hosts dropped rules opts :
  Forall (λ d, dv_severity d ≠ SeverityBlocking) (host_divergences hosts dropped rules opts).
Proof.
  unfold host_divergences. destruct (op_resolve opts), (op_resolver opts), dropped, rules;
    repeat (apply Forall_cons; split; [done|]); by apply Forall_nil.
Qed.

Lemma egress_blocking sb opts : blockingFeatures (fst (egress_of sb opts)) = used "--dns" (given (sb_dns sb)).
Proof.
  unfold egress_of. destruct (some_of _ || given _) eqn:Hs.
  2: { apply orb_false_iff in Hs as [_ Hs]. by rewrite Hs. }
  unfold buildEgressPolicy. fold (given (sb_dns sb)).
  destruct (trimmedNonEmpty _) as [|h hs]; [by destruct (given (sb_dns sb))|].
  destruct (resolve_hosts _ _ _ _ _) as [rules dropped]. cbn [fst].
  rewrite blockingFeatures_app, (blockingFeatures_none (host_divergences _ _ _ _)), app_nil_r by apply host_divergences_warn.
  by destruct (given (sb_dns sb)).
Qed.

Lemma all_blocking sb opts : blockingFeatures (all_divs sb opts) ≡ₚ features_used sb.
Proof.
  unfold all_divs, sortDivergences. etrans; [apply blockingFeatures_perm, merge_sort_Permutation|].
  rewrite !blockingFeatures_app, (blockingFeatures_none (resource_divs sb)), egress_blocking by apply resource_divs_info.
  unfold unrepresentable. rewrite !blockingFeatures_app, !blocking_used, sortedKeys_some. done.
Qed.

Lemma blocking_in feature divs : feature ∈ blockingFeatures divs → ∃ d, d ∈ divs ∧ dv_feature d = feature ∧ dv_severity d = SeverityBlocking.
Proof. unfold blockingFeatures. intros (d & -> & Hd)%list_elem_of_fmap. apply list_elem_of_filter in Hd as [? ?]. by exists d. Qed.

Lemma downgraded divs : blockingFeatures (downgrade <$> divs) = [].
Proof.
  apply blockingFeatures_none, Forall_fmap, Forall_forall. intros d _. unfold compose, downgrade. by case_bool_decide.
Qed.

Lemma permutation_empty {A} (a b : list A) : a ≡ₚ b → (a = [] ↔ b = []).
Proof. intros H. split; intros ->; [by apply Permutation_nil_l in H|by apply Permutation_nil_r in H]. Qed.

End Spec.

(** C31: a sandbox that is not valid gives an error and no request.  A valid one gives
    the request; without --allow-lossy there is an error exactly if a feature without
    an equivalent is used, and the report marks precisely those as blocking; with it
    there is no error, and each of them is in the report, marked as lossy. *)
Theorem Convert_fails_closed `{GD : GondolinEnv} sb opts :
  let cv := Convert (Some sb) opts in
  (¬ valid sb ∧ cv_request cv = None ∧ is_Some (cv_error cv)) ∨
  (valid sb ∧
   cv_request cv = Some (request_for (trim_space (sb_image sb)) (vcpus_of sb) (memory_of sb) (snd (egress_of sb opts))) ∧
   if op_lossy opts then
     cv_error cv = None ∧ blockingFeatures (cv_report cv) = [] ∧
     ∀ feature, feature ∈ features_used sb →
       ∃ detail, mkDiv feature SeverityWarn (Sprintf "LOSSY (--allow-lossy): %s" [AShow detail]) ∈ cv_report cv
   else (cv_error cv = None ↔ features_used sb = []) ∧ blockingFeatures (cv_report cv) ≡ₚ features_used sb).
Proof.
  cbn zeta. assert (Decision (valid sb)) as [Hv|Hv].
  { unfold valid. assert (∀ n, Decision (positive n)) by (intros [n|]; unfold positive; apply _). destruct (sb_resources sb); apply _. }
  2: { left. split; [done|]. by apply Convert_invalid. }
  right. split; [done|]. rewrite (Convert_valid _ _ Hv). cbn zeta. pose proof (all_blocking sb opts) as Hp.
  destruct (op_lossy opts); cbn [cv_request cv_report cv_error].
  - split; [done|]. split; [done|]. split; [apply downgraded|]. intros feature Hf. rewrite <- Hp in Hf. apply blocking_in in Hf as (d & Hd & <- & Hs).
    exists (dv_detail d). apply list_elem_of_fmap. exists d. split; [|done]. unfold downgrade. by rewrite bool_decide_true.
  - pose proof (permutation_empty _ _ Hp) as He. destruct (blockingFeatures (all_divs sb opts)) as [|f fs] eqn:E; cbn [cv_request cv_report cv_error].
    + rewrite E. split; [done|]. split; [|done]. split; [intros _; by apply He|done].
    + rewrite E. split; [done|]. split; [|done]. split; [done|]. intros H. by apply He in H.
Qed.

(** * The egress policy *)

(** Rules and the CIDRs met so far. *)
Definition tracked (rules : list EgressRule) (seen : gset string) : Prop :=
  NoDup (er_cidr <$> rules) ∧ ∀ cidr, cidr ∈ seen ↔ cidr ∈ er_cidr <$> rules.

Lemma add_addresses_spec host ips added rules seen :
  tracked rules seen →
  let '(added', rules', seen') := add_addresses host ips (added, rules, seen) in
  tracked rules' seen' ∧ rules `prefix_of` rules' ∧
  (∀ r, r ∈ rules' → r ∈ rules ∨ ∃ ip cidr, ip ∈ ips ∧ hostCIDR ip = Some cidr ∧ r = rule_for host cidr) ∧
  (∀ ip cidr, ip ∈ ips → hostCIDR ip = Some cidr → cidr ∈ er_cidr <$> rules').
Proof.
  revert added rules seen. induction ips as [|ip ips IH]; intros added rules seen Ht; cbn [add_addresses].
  { split_and!; [done..|by intros r; left|by intros ip cidr ?%elem_of_nil]. }
  destruct (hostCIDR ip) as [cidr|] eqn:Hc.
  2: { specialize (IH added rules seen Ht). destruct (add_addresses _ _ _) as [[added' rules'] seen']. destruct IH as (H1 & H2 & H3 & H4).
    split_and!; [done..| |].
    - intros r Hr. destruct (H3 r Hr) as [|(ip' & c & ? & ? & ?)]; [by left|right]. exists ip', c. by split_and!; [right| |].
    - intros ip' c [->|Hin]%elem_of_cons Hc'; [congruence|by eapply H4]. }
  case_bool_decide as Hs.
  - specialize (IH true rules seen Ht). destruct (add_addresses _ _ _) as [[added' rules'] seen']. destruct IH as (H1 & H2 & H3 & H4).
    split_and!; [done..| |].
    + intros r Hr. destruct (H3 r Hr) as [|(ip' & c & ? & ? & ?)]; [by left|right]. exists ip', c. by split_and!; [right| |].
    + intros ip' c [->|Hin]%elem_of_cons Hc'; [|by eapply H4]. assert (c = cidr) as -> by congruence. apply Ht in Hs.
      destruct H2 as [k ->]. rewrite fmap_app. apply elem_of_app. by left.
  - assert (tracked (rules ++ [rule_for host cidr]) ({[cidr]} ∪ seen)) as Ht'.
    { destruct Ht as [Hn Hi]. split.
      - rewrite fmap_app. apply NoDup_app. split_and!; [done| |apply NoDup_singleton]. intros c Hin Hc'%elem_of_cons. apply Hs, Hi.
        destruct Hc' as [->|?%elem_of_nil]; done.
      - intros c. rewrite elem_of_union, elem_of_singleton, fmap_app, elem_of_app, Hi. cbn [fmap list_fmap]. rewrite elem_of_cons, elem_of_nil. cbn. tauto. }
    specialize (IH true _ _ Ht'). destruct (add_addresses _ _ _) as [[added' rules'] seen']. destruct IH as (H1 & H2 & H3 & H4).
    split_and!; [done|by eapply prefix_app_l| |].
    + intros r Hr. destruct (H3 r Hr) as [[Hin|Heq%list_elem_of_singleton]%elem_of_app|(ip' & c & ? & ? & ?)]; [by left|right..].
      * exists ip, cidr. by split_and!; [left| |].
      * exists ip', c. by split_and!; [right| |].
    + intros ip' c [->|Hin]%elem_of_cons Hc'; [|by eapply H4]. assert (c = cidr) as -> by congruence.
      destruct H2 as [k ->]. rewrite !fmap_app, !elem_of_app. left. right. by left.
Qed.

(** The addresses the resolver gives for the hosts it may resolve: with the host. *)
Definition resolved (opts : Options) (i : nat) (hosts : list string) (host cidr : string) : Prop :=
  ∃ j resolver ips ip, op_resolve opts = true ∧ op_resolver opts = Some resolver ∧ hosts !! j = Some host ∧ isLiteralHost host = true ∧
    resolver (i + j)%nat host = Ok ips ∧ ip ∈ ips ∧ hostCIDR ip = Some cidr.

Lemma resolved_later opts i hosts h host cidr : resolved opts (S i) hosts host cidr → resolved opts i (h :: hosts) host cidr.
Proof. intros (j & r & ips & ip & H1 & H2 & H3 & H4 & H5 & H6 & H7). exists (S j), r, ips, ip. rewrite Nat.add_succ_r. by split_and!. Qed.

Lemma resolve_hosts_spec i hosts opts rules seen :
  tracked rules seen →
  let rules' := fst (resolve_hosts i hosts opts rules seen) in
  NoDup (er_cidr <$> rules') ∧ rules `prefix_of` rules' ∧
  (∀ r, r ∈ rules' → r ∈ rules ∨ ∃ host cidr, resolved opts i hosts host cidr ∧ r = rule_for host cidr) ∧
  (∀ host cidr, resolved opts i hosts host cidr → cidr ∈ er_cidr <$> rules').
Proof.
  revert i rules seen. induction hosts as [|h hosts IH]; intros i rules seen Ht; cbn [resolve_hosts].
  { cbn zeta. cbn [fst]. split_and!; [apply Ht|done|by intros r; left|]. intros host cidr (j & r & ips & ip & _ & _ & Hj & _). by rewrite lookup_nil in Hj. }
  assert (∃ added rules1 seen1, resolveHostToRules i h opts rules seen = (added, rules1, seen1) ∧ tracked rules1 seen1 ∧ rules `prefix_of` rules1 ∧
    (∀ r, r ∈ rules1 → r ∈ rules ∨ ∃ cidr, resolved opts i (h :: hosts) h cidr ∧ r = rule_for h cidr) ∧
    (∀ resolver ips ip cidr, op_resolve opts = true → op_resolver opts = Some resolver → isLiteralHost h = true → resolver i h = Ok ips →
       ip ∈ ips → hostCIDR ip = Some cidr → cidr ∈ er_cidr <$> rules1)) as (added & rules1 & seen1 & -> & Ht1 & Hp1 & Hg1 & Hc1).
  { unfold resolveHostToRules. destruct (op_resolver opts) as [resolver|] eqn:Er.
    2: { exists false, rules, seen. by split_and!; [..|intros r; left|]. }
    destruct (op_resolve opts) eqn:Eo; cbn [negb orb]; [|exists false, rules, seen; by split_and!; [..|intros r; left|]].
    destruct (isLiteralHost h) eqn:Eh; cbn [negb]; [|exists false, rules, seen; by split_and!; [..|intros r; left|]].
    destruct (resolver i h) as [[|ip ips]|] eqn:Ei;
      [exists false, rules, seen; split_and!; [done..|by intros r; left|]; intros r' ips' ip' c _ [= <-] _ He Hin; rewrite Ei in He; injection He as <-; by apply elem_of_nil in Hin| |
       exists false, rules, seen; split_and!; [done..|by intros r; left|]; intros r' ips' ip' c _ [= <-] _ He; by rewrite Ei in He].
    pose proof (add_addresses_spec h (ip :: ips) false rules seen Ht) as Ha.
    destruct (add_addresses h (ip :: ips) (false, rules, seen)) as [[added rules1] seen1]. destruct Ha as (H1 & H2 & H3 & H4).
    exists added, rules1, seen1. split_and!; [done..| |].
    - intros r Hr. destruct (H3 r Hr) as [|(ip' & c & Hin & Hc & ->)]; [by left|right]. exists c. split; [|done].
      exists 0%nat, resolver, (ip :: ips), ip'. rewrite Nat.add_0_r. by split_and!.
    - intros r' ips' ip' c _ [= <-] _ He Hin Hc. rewrite Ei in He. injection He as <-. by eapply H4. }
  specialize (IH (S i) rules1 seen1 Ht1). destruct (resolve_hosts (S i) hosts opts rules1 seen1) as [rules2 dropped]. cbn zeta in IH |- *. cbn [fst] in IH |- *.
  destruct IH as (H1 & H2 & H3 & H4). split_and!; [done|by etrans| |].
  - intros r Hr. destruct (H3 r Hr) as [Hin|(host & cidr & Hres & ->)].
    + destruct (Hg1 r Hin) as [|(cidr & Hres & ->)]; [by left|right]. by exists h, cidr.
    + right. exists host, cidr. split; [by apply resolved_later|done].
  - intros host cidr (j & resolver & ips & ip & Ho & Er & Hj & Hl & Hres & Hin & Hc). destruct j as [|j].
    + injection Hj as ->. rewrite Nat.add_0_r in Hres. pose proof (Hc1 _ _ _ _ Ho Er Hl Hres Hin Hc) as Hcc.
      destruct H2 as [k ->]. rewrite fmap_app. apply elem_of_app. by left.
    + apply (H4 host). exists j, resolver, ips, ip. rewrite Nat.add_succ_r in Hres. by split_and!.
Qed.

(** ** The daemon accepts the rules *)

Lemma cut_slash_app s t : all_chars (λ a, negb (Ascii.eqb a "/")) s = true → cut_slash (s +:+ String "/" t) = Some (s, t).
Proof.
  induction s as [|a s IH]; [done|]. cbn [all_chars]. intros [Ha Hs]%andb_true_iff. apply negb_true_iff in Ha.
  rewrite string_app_cons. cbn [cut_slash]. by rewrite Ha, IH.
Qed.

Lemma family_no_slash s : all_chars address_char s = true → all_chars (λ a, negb (Ascii.eqb a "/")) s = true.
Proof.
  apply all_chars_impl. intros a Ha. destruct (Ascii.eqb_spec a "/") as [->|]; [by vm_compute in Ha|done].
Qed.

Lemma ipv4_no_slash l : Forall byte_ok l → all_chars (λ a, negb (Ascii.eqb a "/")) (ipv4_string l) = true.
Proof.
  assert (∀ s, all_chars is_digit s = true → all_chars (λ a, negb (Ascii.eqb a "/")) s = true) as Hd.
  { intros s. apply all_chars_impl. intros a Ha. destruct (Ascii.eqb_spec a "/") as [->|]; [by vm_compute in Ha|done]. }
  intros H. induction H as [|b l Hb H IH]; [done|]. destruct (fmt_byte b Hb) as (_ & _ & Hf). destruct l as [|b' l]; [by apply Hd|].
  change (ipv4_string (b :: b' :: l)) with (fmt_d b +:+ String "." (ipv4_string (b' :: l))).
  rewrite all_chars_app, Hd by done. cbn [all_chars andb]. by rewrite IH.
Qed.

Lemma ipv6_no_slash ip : ip_ok ip → all_chars (λ a, negb (Ascii.eqb a "/")) (ipv6_string ip) = true.
Proof.
  intros [Hl Hb]. destruct (be_groups_bytes 8 ip Hl Hb) as (_ & Hok & _). unfold ipv6_string.
  destruct (longest_run 0 (0, 0)%nat (be_groups ip)) as [start n].
  change (join ":" (hex_group <$> ?l)) with (groups_text l).
  destruct (n =? 0)%nat; [by apply family_no_slash, groups_chars|].
  rewrite !all_chars_app, !(family_no_slash (groups_text _)); [done|..]; apply groups_chars; [by apply Forall_drop|by apply Forall_take].
Qed.

Lemma parse_addr_bits_string ip : ip_ok ip → parse_addr_bits (ip_string ip) = Some (if bool_decide (take 12 ip = v4_prefix) then 32 else 128)%Z.
Proof.
  intros Hip. assert (ParseIP_ok (ip_string ip) = true) as Hok by (apply ParseIP_accepts; rewrite ParseIP_string by done; by eexists).
  assert (ParseIP (ip_string ip) = Some ip) as Hp by by apply ParseIP_string.
  unfold ParseIP_ok in Hok. destruct (parse_addr_bits (ip_string ip)) as [bits|] eqn:E; [|done]. f_equal.
  unfold parse_addr_bits in E. unfold ParseIP in Hp.
  assert (address_family (ip_string ip) = Some (bool_decide (take 12 ip = v4_prefix))) as Hf.
  { unfold ip_string, To4 in *. case_bool_decide as Ht.
    - destruct (address_family (ipv4_string (drop 12 ip))) as [[]|] eqn:Ef; [done|exfalso|done].
      destruct Hip as [Hl Hb]. destruct (ipv4_string_parse (drop 12 ip)) as [H4 _]; [by apply Forall_drop|rewrite length_drop; lia|].
      destruct (drop 12 ip) as [|b [|b' l]] eqn:Ed; [done|by assert (length (drop 12 ip) = 4)%nat by (rewrite length_drop; lia); rewrite Ed in *|].
      assert (byte_ok b) as Hb'. { assert (Forall byte_ok (drop 12 ip)) as Hd by by apply Forall_drop. rewrite Ed in Hd. by apply Forall_cons in Hd as [? _]. }
      change (ipv4_string (b :: b' :: l)) with (fmt_d b +:+ String "." (ipv4_string (b' :: l))) in Ef.
      rewrite address_family_digits in Ef; [done|]. by apply fmt_byte.
    - by destruct (ipv6_string_family ip (proj1 Hip) (proj2 Hip)) as [-> _]. }
  rewrite Hf in E. case_bool_decide; [destruct (parse_ipv4 _)|destruct (_ && _)]; congruence.
Qed.

Lemma hostCIDR_accepted ip cidr : hostCIDR ip = Some cidr → validateEgressDestination cidr = None.
Proof.
  unfold hostCIDR. destruct (ParseIP ip) as [parsed|] eqn:Hp; [|done]. apply ParseIP_ok_bytes in Hp.
  pose proof (parse_addr_bits_string parsed Hp) as Hbits. intros Hc.
  assert (∃ mask, cidr = ip_string parsed +:+ String "/" mask ∧ all_chars (λ a, negb (Ascii.eqb a "/")) (ip_string parsed) = true ∧
    ParseCIDR (ip_string parsed +:+ String "/" mask) = None) as (mask & -> & _ & Hcidr).
  { unfold ip_string, To4 in *. case_bool_decide as Ht; injection Hc as <-.
    - assert (all_chars (λ a, negb (Ascii.eqb a "/")) (ipv4_string (drop 12 parsed)) = true) as Hs by apply ipv4_no_slash, Forall_drop, Hp.
      exists "32". split_and!; [done..|]. unfold ParseCIDR. rewrite cut_slash_app, Hbits by done. done.
    - pose proof (ipv6_no_slash parsed Hp) as Hs.
      exists "128". split_and!; [done..|]. unfold ParseCIDR. rewrite cut_slash_app, Hbits by done. done. }
  unfold validateEgressDestination. rewrite Hcidr.
  destruct (String.eqb_spec (ip_string parsed +:+ String "/" mask) "") as [E|_]; [by destruct (ip_string parsed)|by destruct (ParseIP_ok _)].
Qed.

Lemma allow_rules_accepted i rules :
  Forall (λ r, validateEgressDestination (er_cidr r) = None ∧ er_port r = 443%Z ∧ er_protocol r = "tcp") rules → validateAllowRules i rules = None.
Proof.
  intros H. revert i. induction H as [|r rules (Hd & Hp & Ht) H IH]; intros i; [done|]. cbn [validateAllowRules]. rewrite Hd, Hp, Ht. apply IH.
Qed.

Lemma policy_accepted dns rules :
  Forall (λ r, validateEgressDestination (er_cidr r) = None ∧ er_port r = 443%Z ∧ er_protocol r = "tcp") rules →
  validateEgressPolicy (mkEgress true "deny" dns false None rules) = None.
Proof. intros H. change (validateAllowRules 0 rules = None). by apply allow_rules_accepted. Qed.

#[local] Instance rule_le_total : Total rule_le.
Proof.
  intros a b. unfold rule_le. rewrite (String.eqb_sym (er_cidr b)). destruct (String.eqb (er_cidr a) (er_cidr b)).
  - rewrite !Z.leb_le. lia.
  - destruct (String.leb_total (er_cidr a) (er_cidr b)); [by left|by right].
Qed.

(** the request has an egress policy exactly if hosts are allowed or a DNS mode is
    given.  The policy denies by default, names no proxy, and opens DNS only for a DNS
    mode; its rules are, once each and in order, TCP port 443 of the single addresses
    that the resolver gave for the allowed hosts that are literal names, all of them;
    and the daemon accepts it. *)
Theorem Convert_egress `{GD : GondolinEnv} sb opts req :
  cv_request (Convert (Some sb) opts) = Some req →
  let hosts := trimmedNonEmpty (sb_allow_host sb) in
  match n_egress (c_network (rq_config req)) with
  | None => hosts = [] ∧ trim_space (sb_dns sb) = ""
  | Some p =>
      (hosts ≠ [] ∨ trim_space (sb_dns sb) ≠ "") ∧
      ep_enabled p = true ∧ ep_default_action p = "deny" ∧ ep_proxy p = None ∧ (ep_allow_dns p = true ↔ trim_space (sb_dns sb) ≠ "") ∧
      NoDup (er_cidr <$> ep_allow_rules p) ∧ Sorted rule_le (ep_allow_rules p) ∧
      (∀ r, r ∈ ep_allow_rules p → ∃ host cidr, resolved opts 0 hosts host cidr ∧ r = rule_for host cidr) ∧
      (∀ host cidr, resolved opts 0 hosts host cidr → cidr ∈ er_cidr <$> ep_allow_rules p) ∧
      validateEgressPolicy p = None
  end.
Proof.
  intros Hc. cbn zeta. assert (n_egress (c_network (rq_config req)) = snd (egress_of sb opts)) as ->.
  { destruct (Convert_fails_closed sb opts) as [(_ & Hn & _)|(_ & Hr & _)]; [congruence|]. rewrite Hr in Hc. by injection Hc as <-. }
  set (hosts := trimmedNonEmpty (sb_allow_host sb)).
  assert (given (sb_dns sb) = true ↔ trim_space (sb_dns sb) ≠ "") as Hdns.
  { unfold given. by destruct (String.eqb_spec (trim_space (sb_dns sb)) ""). }
  assert (∀ rules, rules = merge_sort rule_le (fst (resolve_hosts 0 hosts opts [] ∅)) →
    NoDup (er_cidr <$> rules) ∧ Sorted rule_le rules ∧
    (∀ r, r ∈ rules → ∃ host cidr, resolved opts 0 hosts host cidr ∧ r = rule_for host cidr) ∧
    (∀ host cidr, resolved opts 0 hosts host cidr → cidr ∈ er_cidr <$> rules) ∧
    validateEgressPolicy (mkEgress true "deny" (given (sb_dns sb)) false None rules) = None) as Hrules.
  { intros rules ->. destruct (resolve_hosts_spec 0 hosts opts [] ∅) as (H1 & _ & H3 & H4).
    { split; [by apply NoDup_nil|]. intros c. by rewrite elem_of_nil, elem_of_empty. }
    pose proof (merge_sort_Permutation rule_le (fst (resolve_hosts 0 hosts opts [] ∅))) as Hp.
    assert (∀ r, r ∈ merge_sort rule_le (fst (resolve_hosts 0 hosts opts [] ∅)) → ∃ host cidr, resolved opts 0 hosts host cidr ∧ r = rule_for host cidr) as Hg.
    { intros r. rewrite Hp. intros Hr. destruct (H3 r Hr) as [?%elem_of_nil|?]; done. }
    split_and!.
    - by rewrite Hp.
    - apply Sorted_merge_sort, _.
    - exact Hg.
    - intros host cidr Hres. rewrite Hp. by eapply H4.
    - apply policy_accepted, Forall_forall. intros r Hr. destruct (Hg r Hr) as (host & cidr & Hres & ->).
      destruct Hres as (j & resolver & ips & ip & _ & _ & _ & _ & _ & _ & Hcidr). split_and!; [by eapply hostCIDR_accepted|done..]. }
  unfold egress_of. fold hosts. destruct (some_of hosts || given (sb_dns sb)) eqn:Hs; cbn [snd].
  2: { apply orb_false_iff in Hs as [Hh Hd]. split; [by destruct hosts|]. apply dec_stable. intros Hn. apply Hdns in Hn. congruence. }
  assert (hosts ≠ [] ∨ trim_space (sb_dns sb) ≠ "") as Hor.
  { apply orb_true_iff in Hs as [Hh|Hd]; [left; by destruct hosts|right; by apply Hdns]. }
  unfold buildEgressPolicy. fold (given (sb_dns sb)). destruct hosts as [|h hs] eqn:Eh; cbn [snd].
  - do 4 (split; [done|]). split; [exact Hdns|]. by apply (Hrules []).
  - destruct (resolve_hosts 0 (h :: hs) opts [] ∅) as [rules dropped] eqn:Er. cbn [snd fst] in *. do 4 (split; [done|]). split; [exact Hdns|]. by apply Hrules.
Qed.

(** * What is not said *)

Definition with_secrets (l : list string) (sb : Sandbox) : Sandbox :=
  mkSandbox (sb_image sb) (sb_vmm sb) (sb_cwd sb) (sb_env sb) (sb_allow_host sb) l (sb_mount_hostfs sb) (sb_mount_memfs sb)
    (sb_ssh_allow_host sb) (sb_tcp_map sb) (sb_dns sb) (sb_rootfs_size sb) (sb_resources sb).

(** The host secrets of a sandbox change neither request, report nor error: only their
    number does. *)
Theorem secrets_not_reported `{GD : GondolinEnv} sb opts l1 l2 :
  length l1 = length l2 → Convert (Some (with_secrets l1 sb)) opts = Convert (Some (with_secrets l2 sb)) opts.
Proof.
  intros Hl. assert (unrepresentable (with_secrets l1 sb) = unrepresentable (with_secrets l2 sb)) as Hu.
  { unfold unrepresentable, count_of. cbn. rewrite Hl. by destruct l1, l2. }
  assert (∀ l, resources_of (with_secrets l sb) = resources_of sb) as Hres by done.
  assert (∀ l hosts, buildEgressPolicy (with_secrets l sb) hosts opts = buildEgressPolicy sb hosts opts) as Heg by done.
  unfold Convert. cbn [with_secrets sb_image sb_dns sb_allow_host]. by rewrite !Hres, !Heg, Hu.
Qed.

(** What is printed of a text on one line has no rune that moves the cursor or cannot
    be seen: no control, no format character, no space but the plain one. *)
Theorem sanitizeInline_clean s : Forall (λ r, r = 32%Z ∨ unsafe_rune r = false) (runes (sanitizeInline s)).
Proof.
  unfold sanitizeInline. rewrite runes_strings_Map.
  - apply Forall_forall. intros r (r' & _ & Hk)%list_elem_of_omap. unfold keep_inline in Hk.
    destruct (Z.eqb_spec r' 32) as [Hr|_]; [injection Hk as <-; by left|]. destruct (unsafe_rune r') eqn:Hu; [done|]. injection Hk as <-. by right.
  - intros r r'. unfold keep_inline. destruct (_ =? _)%Z; [by intros [= <-]|]. destruct (unsafe_rune r); [done|by intros [= <-]].
Qed.

(** The command fails closed: it writes or prints a specification only if the sandbox
    was valid and nothing of it was without an equivalent, or --allow-lossy was given;
    and a report comes first. *)
Theorem convertGondolin_fails_closed `{GD : GondolinEnv} flags file :
  en_error (convertGondolin flags file) = None →
  ∃ data sb spec, gd_read file = Ok data ∧ Parse data = Ok sb ∧ valid sb ∧ (fl_lossy flags = true ∨ features_used sb = []) ∧
    let cv := Convert (Some sb) (mkOptions (fl_lossy flags) (fl_resolve flags) (if fl_resolve flags then Some gd_resolve else None)) in
    RenderSpecYAML (cv_request cv) = Ok spec ∧
    printDivergences (cv_report cv) `prefix_of` en_stdout (convertGondolin flags file) ∧
    (en_file (convertGondolin flags file) = if String.eqb (fl_output flags) "" then None else Some (fl_output flags, spec)).
Proof.
  unfold convertGondolin. destruct (gd_read file) as [data|]; [|done]. destruct (Parse data) as [sb|] eqn:Ep; [|done]. cbn zeta.
  set (opts := mkOptions _ _ _). destruct (Convert_fails_closed sb opts) as [(Hv & Hn & [e He])|(Hv & Hr & Hl)]; [by rewrite He|].
  destruct (cv_error (Convert (Some sb) opts)) as [e|] eqn:Ee; [done|].
  destruct (RenderSpecYAML _) as [spec|] eqn:Es; [|done].
  assert (fl_lossy flags = true ∨ features_used sb = []) as Hf.
  { change (op_lossy opts) with (fl_lossy flags) in Hl. destruct (fl_lossy flags); [by left|right]. by apply Hl. }
  intros H. exists data, sb, spec. split_and!; [done..| |].
  - destruct (negb (String.eqb (fl_output flags) "")); [destruct (gd_write _ _); [done|]|]; cbn [en_stdout]; by apply prefix_app_r.
  - destruct (String.eqb (fl_output flags) ""); [done|]. cbn [negb] in *. by destruct (gd_write _ _).
Qed.

(** * A concrete sandbox *)

Definition sample_gondolin : GondolinEnv :=
  {| gd_text := λ _, ""; gd_docs := λ _, []; gd_yaml := λ _, Ok "spec"; gd_read := λ _, Ok "data"; gd_write := λ _ _, None;
     gd_resolve := λ _ _, Err (ErrorsNew "no such host"); gd_colour := λ _ s, s |}.

Definition sandbox (hosts env : list string) (dns : string) : Sandbox :=
  mkSandbox " base:1 " "" "" (list_to_map ((λ k, (k, "1")) <$> env)) hosts [] [] [] [] [] dns "" (Some (mkResources (Some 4%Z) None)).

Definition resolving : Options := mkOptions false true (Some (λ i _, if (i =? 0)%nat then Ok ["10.0.0.7"; "2001:DB8:0::1"; "::ffff:10.0.0.7"] else Ok ["10.0.0.7"; "fe80::1%eth0"])).

Definition sample_rules : list EgressRule := [rule_for "api.example" "10.0.0.7/32"; rule_for "api.example" "2001:db8::1/128"].

Example sample_converts :
  let cv := @Convert sample_gondolin (Some (sandbox ["api.example "; "www.example"; "*.example"; " "] [] "")) resolving in
  cv_request cv = Some (request_for "base:1" 4 512 (Some (mkEgress true "deny" false false None sample_rules))) ∧
  dv_feature <$> cv_report cv = ["--allow-host"; "--allow-host (resolved)"; "resources.memory_mib"] ∧ cv_error cv = None.
Proof. vm_compute. by split_and!. Qed.

(** Without allowed hosts there is no policy at all. *)
Example no_hosts_no_policy :
  (c ← cv_request (@Convert sample_gondolin (Some (sandbox [" "] [] "")) resolving); n_egress (c_network (rq_config c))) = None.
Proof. vm_compute. reflexivity. Qed.

(** The environment of a sandbox stops the conversion, and --allow-lossy drops it. *)
Example environment_is_lossy :
  let cv lossy := @Convert sample_gondolin (Some (sandbox [] ["B"; "A"] "open")) (mkOptions lossy false None) in
  (is_Ok (match cv_error (cv false) with Some e => Err e | None => Ok tt end), blockingFeatures (cv_report (cv false)), cv_error (cv true), blockingFeatures (cv_report (cv true)))
  = (false, ["--dns"; "--env"], None, []).
Proof. vm_compute. reflexivity. Qed.

(** A rule for an IPv6 address: the daemon accepts it and hands it to iptables, which
    takes IPv4 addresses only. *)
Example ipv6_rules : hostCIDR "2001:db8::1" = Some "2001:db8::1/128" ∧ validateEgressDestination "2001:db8::1/128" = None.
Proof. vm_compute. by split. Qed.

Lemma Convert_egress_witness :
  NoDup (er_cidr <$> sample_rules) ∧ validateEgressPolicy (mkEgress true "deny" false false None sample_rules) = None.
Proof.
  pose proof (@Convert_egress sample_gondolin (sandbox ["api.example "; "www.example"; "*.example"; " "] [] "") resolving
    (request_for "base:1" 4 512 (Some (mkEgress true "deny" false false None sample_rules))) ltac:(vm_compute; reflexivity)) as H.
  cbn [request_for rq_config c_network n_egress ep_allow_rules] in H. destruct H as (_ & _ & _ & _ & _ & Hn & _ & _ & _ & Hv). by split.
Defined.
