(* ===== verification/HostFs.v ===== *)
(** The files of a host as the kernel finds them: directories, regular files, symbolic
    links and other nodes, and the walk that resolves a path.

    A path is walked element by element: a link in the way is replaced by its target,
    from the root if the target is absolute, and at most [max_links] links are
    followed.  A directory may refuse to be searched, a file to be read. *)

From stdpp Require Import gmap.
From S2P Require Import Prelude GoStrings Paths.

Inductive inode : Type :=
  | IFile (content : string)
  | IDir
  | ILink (target : string)
  | IOther.

#[global] Instance inode_eq_dec : EqDecision inode.
Proof. solve_decision. Defined.

Record Machine : Type := mkMachine {
  h_tree : gmap (list string) inode;
  h_denied : list string → bool;
  h_cwd : list string }.

Definition ENOTDIR : error := ErrorsNew "not a directory".
Definition ENOENT : error := ErrorsNew ErrNotExist.
Definition ELOOP : error := ErrorsNew "too many levels of symbolic links".
Definition EACCES : error := ErrorsNew "permission denied".
Definition EISDIR : error := ErrorsNew "is a directory".
Definition EINVAL : error := ErrorsNew "invalid argument".

Definition max_links : nat := 40.

Section Calls.
Variable h : Machine.

(** From the directory [at_dir], with the elements still to be walked; a link at the
    end is followed if [follow]. *)
Fixpoint walk (follow : bool) (links : nat) : list string → list string → result (list string * inode) :=
  fix go (at_dir rest : list string) : result (list string * inode) :=
    match rest with
    | [] => Ok (at_dir, IDir)
    | c :: rest' =>
        if h_denied h at_dir then Err EACCES
        else if String.eqb c "" || String.eqb c "." then go at_dir rest'
        else if String.eqb c ".." then go (removelast at_dir) rest'
        else
          match h_tree h !! (at_dir ++ [c]) with
          | None => Err ENOENT
          | Some IDir => go (at_dir ++ [c]) rest'
          | Some (ILink target) =>
              if negb follow && bool_decide (rest' = []) then Ok (at_dir ++ [c], ILink target)
              else
                match links with
                | O => Err ELOOP
                | S links' => walk follow links' (if is_rooted target then [] else at_dir) (split_on slash target ++ rest')
                end
          | Some n => match rest' with [] => Ok (at_dir ++ [c], n) | _ => Err ENOTDIR end
          end
    end.

Definition lookup_path (follow : bool) (p : string) : result (list string * inode) :=
  if String.eqb p "" then Err ENOENT
  else walk follow max_links (if is_rooted p then [] else h_cwd h) (split_on slash p).

Definition node_of (r : result (list string * inode)) : result inode :=
  match r with Ok (_, n) => Ok n | Err e => Err e end.

(** [os.Stat], [os.Lstat] and [os.Readlink]. *)
Definition os_Stat (p : string) : result inode := node_of (lookup_path true p).
Definition os_Lstat (p : string) : result inode := node_of (lookup_path false p).
Definition os_Readlink (p : string) : result string :=
  match os_Lstat p with Ok (ILink target) => Ok target | Ok _ => Err EINVAL | Err e => Err e end.

(** [os.ReadFile]; a node that is neither a file nor a directory gives [other]. *)
Definition os_ReadFile (other : result string) (p : string) : result string :=
  match lookup_path true p with
  | Ok (at_dir, IFile content) => if h_denied h at_dir then Err EACCES else Ok content
  | Ok (_, IDir) => Err EISDIR
  | Ok _ => other
  | Err e => Err e
  end.

End Calls.

(** * Paths below a directory *)

(** The way to the directory [E] is made of directories that may be searched. *)
Definition reaches (h : Machine) (E : list string) : Prop :=
  Forall plain E ∧
  ∀ n, (n ≤ length E)%nat → (0 < n → h_tree h !! take n E = Some IDir)%nat ∧ ((n < length E)%nat → h_denied h (take n E) = false).

(** Two hosts with the same files below [E], none of which is a link. *)
Definition same_below (E : list string) (h1 h2 : Machine) : Prop :=
  ∀ rest, h_tree h1 !! (E ++ rest) = h_tree h2 !! (E ++ rest) ∧ h_denied h1 (E ++ rest) = h_denied h2 (E ++ rest) ∧
    (∀ target, h_tree h1 !! (E ++ rest) ≠ Some (ILink target)).

Lemma walk_cons h follow links at_dir c rest :
  walk h follow links at_dir (c :: rest) =
    if h_denied h at_dir then Err EACCES
    else if String.eqb c "" || String.eqb c "." then walk h follow links at_dir rest
    else if String.eqb c ".." then walk h follow links (removelast at_dir) rest
    else
      match h_tree h !! (at_dir ++ [c]) with
      | None => Err ENOENT
      | Some IDir => walk h follow links (at_dir ++ [c]) rest
      | Some (ILink target) =>
          if negb follow && bool_decide (rest = []) then Ok (at_dir ++ [c], ILink target)
          else
            match links with
            | O => Err ELOOP
            | S links' => walk h follow links' (if is_rooted target then [] else at_dir) (split_on slash target ++ rest)
            end
      | Some n => match rest with [] => Ok (at_dir ++ [c], n) | _ => Err ENOTDIR end
      end.
Proof. by destruct links. Qed.

Lemma walk_nil h follow links at_dir : walk h follow links at_dir [] = Ok (at_dir, IDir).
Proof. by destruct links. Qed.

Lemma eqb_off (a b : string) : a ≠ b → String.eqb a b = false.
Proof. by destruct (String.eqb_spec a b). Qed.

(** The walk goes down to [E] without meeting a link. *)
Lemma walk_reaches h follow links E rest :
  reaches h E → walk h follow links [] (E ++ rest) = walk h follow links E rest.
Proof.
  intros [Hp Hd].
  cut (∀ E1 E2, E = E1 ++ E2 → walk h follow links E1 (E2 ++ rest) = walk h follow links E rest); [intros H; by apply (H [])|].
  intros E1 E2. revert E1. induction E2 as [|c E2 IH]; intros E1 ->; [by rewrite app_nil_r|].
  cbn [app]. rewrite walk_cons.
  destruct (Hd (length E1)) as [_ Hs]; [rewrite length_app; lia|].
  rewrite take_app_length in Hs. rewrite Hs by (rewrite length_app; cbn; lia).
  apply Forall_app in Hp as [_ Hp]. apply Forall_cons in Hp as [(Hc1 & Hc2 & Hc3 & _) _].
  rewrite !eqb_off by done. cbn [orb].
  destruct (Hd (S (length E1))) as [Hn _]; [rewrite length_app; cbn; lia|].
  assert (take (S (length E1)) (E1 ++ c :: E2) = E1 ++ [c]) as Ht.
  { rewrite (cons_middle c E1 E2), (assoc_L (++)). replace (S (length E1)) with (length (E1 ++ [c])) by (rewrite length_app; cbn; lia). apply take_app_length. }
  rewrite Ht in Hn. rewrite Hn by lia. apply IH. by rewrite <- (assoc_L (++)).
Qed.

(** Below [E] the walk depends on the files there only, as long as no element leads up. *)
Lemma walk_same h1 h2 follow links E rest :
  same_below E h1 h2 → Forall (λ c, c ≠ "..") rest → walk h1 follow links E rest = walk h2 follow links E rest.
Proof.
  intros H. cut (∀ R, Forall (λ c, c ≠ "..") rest → walk h1 follow links (E ++ R) rest = walk h2 follow links (E ++ R) rest).
  { intros Hw Hr. specialize (Hw [] Hr). by rewrite app_nil_r in Hw. }
  induction rest as [|c rest IH]; intros R Hr; [by rewrite !walk_nil|].
  apply Forall_cons in Hr as [Hc Hr]. rewrite !walk_cons.
  destruct (H R) as (_ & -> & _). destruct (H (R ++ [c])) as (Ht & _ & Hl). rewrite (assoc_L (++)) in Ht, Hl.
  destruct (h_denied h2 (E ++ R)); [done|].
  destruct (String.eqb c "" || String.eqb c "."); [by apply IH|].
  rewrite (eqb_off c "..") by done. rewrite <- Ht.
  destruct (h_tree h1 !! ((E ++ R) ++ [c])) as [[content| |target|]|] eqn:Hn; [done| |by edestruct Hl|done|done].
  rewrite <- (assoc_L (++)). by apply IH.
Qed.

Lemma walk_below h follow links E E' rest at_dir n :
  (∀ r target, h_tree h !! (E ++ r) ≠ Some (ILink target)) → E `prefix_of` E' → Forall (λ c, c ≠ "..") rest →
  walk h follow links E' rest = Ok (at_dir, n) → E `prefix_of` at_dir.
Proof.
  intros Hl HE Hr. revert E' HE. induction rest as [|c rest IH]; intros E' HE; [rewrite walk_nil; by intros [= <- _]|].
  apply Forall_cons in Hr as [Hc Hr]. specialize (IH Hr). rewrite walk_cons.
  assert (E `prefix_of` E' ++ [c]) as HEc by (by apply prefix_app_r).
  destruct (h_denied h E'); [done|]. destruct (String.eqb c "" || String.eqb c "."); [by apply IH|].
  rewrite (eqb_off c "..") by done.
  destruct (h_tree h !! (E' ++ [c])) as [[content| |target|]|] eqn:Hn; [..|done].
  - destruct rest; [by intros [= <- _]|done].
  - by apply IH.
  - destruct HEc as [r Hr']. rewrite Hr' in Hn. by apply Hl in Hn.
  - destruct rest; [by intros [= <- _]|done].
Qed.

(** * Cleaned paths below a rooted one *)

Definition inside (root p : string) : Prop :=
  ∃ rest, rest ≠ [] ∧ Forall plain rest ∧ p = path_render true (path_elements root ++ rest).

Lemma foldl_clean_skips acc segs :
  Forall (λ s, s = "" ∨ plain s) segs → foldl (clean_step true) acc segs = rev (filter (λ s, s ≠ "") segs) ++ acc.
Proof.
  intros H. revert acc. induction H as [|s segs Hs H IH]; intros acc; [done|]. cbn [foldl]. rewrite IH.
  destruct Hs as [->|Hp].
  - rewrite filter_cons_False by (intros Hn; by apply Hn). done.
  - rewrite filter_cons_True by apply Hp. cbn [rev]. rewrite <- app_assoc. f_equal.
    pose proof (foldl_clean_id acc [s]) as Hc. cbn in Hc. apply Hc. by apply Forall_singleton.
Qed.

(** Elements that lead neither nowhere nor up. *)
Definition tame (segs : list string) : bool := forallb (λ s, negb (String.eqb s ".") && negb (String.eqb s "..")) segs.

Lemma inside_join root l :
  is_rooted root = true → forallb (λ s, negb (String.eqb s "")) l = true →
  tame (split_on slash (join "/" l)) = true → filter (λ s, s ≠ "") (split_on slash (join "/" l)) ≠ [] →
  inside root (filepath_join (root :: l)).
Proof.
  intros Hr Hl Ht Hne. set (segs := split_on slash (join "/" l)) in *.
  assert (Forall (λ s, s = "" ∨ plain s) segs) as Hs.
  { apply Forall_forall. intros s Hin. destruct (decide (s = "")) as [|Hs]; [by left|right].
    unfold tame in Ht. rewrite forallb_forall in Ht. specialize (Ht s (proj1 (list_elem_of_In _ _) Hin)).
    apply andb_true_iff in Ht as [H1 H2]. rewrite negb_true_iff in H1, H2. apply String.eqb_neq in H1, H2.
    split_and!; [done..|]. pose proof (split_on_no_char slash (join "/" l)) as Hc. rewrite Forall_forall in Hc. by apply Hc. }
  exists (filter (λ s, s ≠ "") segs). split; [done|]. split.
  { apply Forall_forall. intros s [Hn Hin]%list_elem_of_filter. rewrite Forall_forall in Hs. by destruct (Hs s Hin). }
  unfold filepath_join. rewrite filter_cons_True by (by intros ->).
  assert (filter (λ e, e ≠ "") l = l) as ->.
  { clear -Hl. induction l as [|s l IH]; [done|]. cbn in Hl. apply andb_true_iff in Hl as [H1 H2].
    rewrite filter_cons_True; [by rewrite IH|]. rewrite negb_true_iff in H1. by apply String.eqb_neq. }
  destruct l as [|x l]; [done|].
  change (join "/" (root :: x :: l)) with (root +:+ String slash (join "/" (x :: l))).
  assert (is_rooted (root +:+ String slash (join "/" (x :: l))) = true) as Hr'.
  { apply has_prefix_iff in Hr as [r ->]. apply has_prefix_iff. eexists. apply string_app_assoc. }
  unfold path_clean, path_elements, clean_segments. rewrite Hr', Hr. f_equal.
  rewrite split_on_app_slash, foldl_app. fold segs. rewrite foldl_clean_skips by done. by rewrite rev_app_distr, rev_involutive.
Qed.

Lemma inside_rooted root p : inside root p → is_rooted p = true.
Proof. intros (rest & _ & _ & ->). apply is_rooted_render. Qed.

Lemma inside_trans root p q : is_rooted root = true → inside root p → inside p q → inside root q.
Proof.
  intros Hr (r1 & H1 & P1 & ->) (r2 & H2 & P2 & ->). exists (r1 ++ r2). split; [by intros [? ?]%app_nil|]. split; [by apply Forall_app|].
  rewrite path_elements_render, app_assoc; [done|]. apply Forall_app. split; [by apply path_elements_plain|done].
Qed.

Lemma walk_root h follow links rest : rest ≠ [] → walk h follow links [] ("" :: rest) = walk h follow links [] rest.
Proof. destruct rest as [|c rest]; [done|]. intros _. rewrite !walk_cons. by destruct (h_denied h []). Qed.

Lemma lookup_inside h follow root rest :
  is_rooted root = true → rest ≠ [] → Forall plain rest → reaches h (path_elements root) →
  lookup_path h follow (path_render true (path_elements root ++ rest)) = walk h follow max_links (path_elements root) rest.
Proof.
  intros Hr Hne Hp Hh. unfold lookup_path. rewrite is_rooted_render.
  assert (path_elements root ++ rest ≠ []) as Hn by (by intros [? ?]%app_nil).
  rewrite split_on_render, walk_root, walk_reaches; [|done..|by apply Forall_app; split; [apply path_elements_plain|]|done].
  by rewrite (eqb_off _ "") by done.
Qed.

(** What is inside a root without links is found from the files below the root. *)
Section SameBelow.
Context (h1 h2 : Machine) (root : string) (Hr : is_rooted root = true).
Context (H1 : reaches h1 (path_elements root)) (H2 : reaches h2 (path_elements root)).
Context (Hsame : same_below (path_elements root) h1 h2).

Lemma plain_not_up rest : Forall plain rest → Forall (λ c, c ≠ "..") rest.
Proof. intros H. eapply Forall_impl; [exact H|]. by intros c (_ & _ & Hc & _). Qed.

Lemma lookup_same follow p : inside root p → lookup_path h1 follow p = lookup_path h2 follow p.
Proof.
  intros (rest & Hne & Hp & ->). rewrite !lookup_inside by done. apply walk_same; [done|by apply plain_not_up].
Qed.

Lemma os_Stat_same p : inside root p → os_Stat h1 p = os_Stat h2 p.
Proof. intros H. unfold os_Stat. by rewrite lookup_same. Qed.

Lemma os_Lstat_same p : inside root p → os_Lstat h1 p = os_Lstat h2 p.
Proof. intros H. unfold os_Lstat. by rewrite lookup_same. Qed.

Lemma os_Readlink_same p : inside root p → os_Readlink h1 p = os_Readlink h2 p.
Proof. intros H. unfold os_Readlink. by rewrite os_Lstat_same. Qed.

Lemma os_ReadFile_same other p : inside root p → os_ReadFile h1 other p = os_ReadFile h2 other p.
Proof.
  intros Hp. unfold os_ReadFile. rewrite <- (lookup_same true p Hp). destruct (lookup_path h1 true p) as [[at_dir [content| | |]]|] eqn:Hl; [|done..].
  destruct Hp as (rest & Hne & Hp & ->). rewrite lookup_inside in Hl by done.
  assert (path_elements root `prefix_of` at_dir) as [r ->].
  { eapply walk_below, Hl; [intros r target; by destruct (Hsame r) as (_ & _ & ?)|done|by apply plain_not_up]. }
  by destruct (Hsame r) as (_ & -> & _).
Qed.
End SameBelow.
