(* ===== verification/ImageValidate.v ===== *)
(** Validation of an image (src/internal/validate/validator.go): the checks of an image
    file and of the tree it is mounted at, their counts, the verdict and the report.

    The host is that of HostFs.v and does not change while it is looked at.  The run
    of e2fsck, the decoding of JSON and the texts of errors and times are an
    interface.

    What the validation of an image decides: the verdict against a description of a
    sound image, the counts, the report, and what the verdict depends on. *)

From stdpp Require Import gmap.
From S2P Require Import Prelude GoStrings Paths Json HostFs.

(** * Checks and results *)

(* @src internal/validate/validator.go:18-28 ValidationSeverity *)
Definition SeverityError : string := "error".
Definition SeverityWarning : string := "warning".
Definition SeverityInfo : string := "info".

(* @type internal/validate/validator.go ValidationCheck *)
Record ValidationCheck : Type := mkCheck {
  ck_name : string; ck_category : string; ck_status : string; ck_severity : string; ck_message : string; ck_details : string }.

(* @type internal/validate/validator.go LayerInfo *)
Record LayerInfo : Type := mkLayer { ly_name : string; ly_version : string; ly_type : string; ly_sha256 : string }.

(* @type internal/validate/validator.go KernelInfo *)
Record KernelInfo : Type := mkKernel { kn_version : string; kn_cmdline : string }.

(* @type internal/validate/validator.go BuildManifest *)
Record BuildManifest : Type := mkManifest {
  bm_version : string; bm_name : string; bm_description : string; bm_build_date : string;
  bm_layers : list LayerInfo; bm_kernel : KernelInfo; bm_labels : list (string * string) }.

(* @type internal/validate/validator.go ValidationResult *)
Record ValidationResult : Type := mkResult {
  vr_image : string; vr_at : Z; vr_passed : bool; vr_total : nat; vr_passed_checks : nat; vr_failed : nat;
  vr_warnings : nat; vr_skipped : nat; vr_checks : list ValidationCheck; vr_manifest : option BuildManifest }.

(* @type internal/validate/validator.go Validator *)
Record Validator : Type := mkValidator { v_image : string; v_strict : bool }.

(** ** The manifest out of its JSON form *)

Definition dec_layer (j : json) : option LayerInfo :=
  l ← members j; name ← getf l "name" "" dec_str; version ← getf l "version" "" dec_str;
  type ← getf l "type" "" dec_str; sha ← getf l "sha256" "" dec_str; Some (mkLayer name version type sha).
Definition dec_kernel (j : json) : option KernelInfo :=
  l ← members j; version ← getf l "version" "" dec_str; cmdline ← getf l "cmdline" "" dec_str; Some (mkKernel version cmdline).
Definition dec_label (kv : string * json) : option (string * string) := s ← dec_str (snd kv); Some (fst kv, s).
Definition dec_labels (j : json) : option (list (string * string)) := l ← members j; mapM dec_label l.

Definition dec_manifest (j : json) : option BuildManifest :=
  l ← members j; version ← getf l "version" "" dec_str; name ← getf l "name" "" dec_str;
  description ← getf l "description" "" dec_str; date ← getf l "build_date" "" dec_str;
  layers ← getf l "layers" [] (dec_list dec_layer); kernel ← getf l "kernel" (mkKernel "" "") dec_kernel;
  labels ← getf l "labels" [] dec_labels; Some (mkManifest version name description date layers kernel labels).

(** * The host *)

(** How e2fsck ends: with an exit code (-1 if a signal ended it) and its output, or
    without having been run. *)
Inductive fsck_outcome : Type :=
  | FsckExits (code : Z) (output : string)
  | FsckNotRun (e : error).

Class ValidateEnv : Type := {
  ve_host : Machine;
  ve_fsck : string → fsck_outcome;
  ve_json : string → option json;
  ve_json_error : string → error;
  ve_device : string → result string;           (* reading what is not a file *)
  ve_text : error → string;                     (* [err.Error()] *)
  ve_mode : inode → string;                     (* a [fs.FileMode] in text *)
  ve_now : Z;
  ve_time : Z → string }.

Section Validate.
Context `{VE : ValidateEnv}.

Definition stat (p : string) : result inode := os_Stat ve_host p.
Definition read_file (p : string) : result string := os_ReadFile ve_host (ve_device p) p.

Definition is_regular (n : inode) : bool := match n with IFile _ => true | _ => false end.

(* @func internal/validate/validator.go fileExists *)
Definition fileExists (p : string) : bool := match stat p with Ok n => is_regular n | Err _ => false end.

(* @func internal/validate/validator.go symlinkExists *)
Definition symlinkExists (p : string) : bool :=
  match os_Lstat ve_host p with Ok (ILink _) => true | _ => false end.

Definition Unmarshal (data : string) : result BuildManifest :=
  match j ← ve_json data; dec_manifest j with Some m => Ok m | None => Err (ve_json_error data) end.

(** * The checks *)

Definition passed (name category message details : string) : ValidationCheck := mkCheck name category "passed" "" message details.
Definition failed (severity name category message details : string) : ValidationCheck :=
  mkCheck name category "failed" severity message details.
Definition skipped (severity name category message details : string) : ValidationCheck :=
  mkCheck name category "skipped" severity message details.

Definition file_size (n : inode) : nat := match n with IFile content => String.length content | _ => 0 end.

(* @func internal/validate/validator.go checkFilesystemIntegrity *)
Definition checkFilesystemIntegrity (v : Validator) : list ValidationCheck :=
  match stat (v_image v) with
  | Err err => [failed SeverityError "filesystem_exists" "filesystem" "Image file does not exist" (ve_text err)]
  | Ok info =>
      if negb (is_regular info) then
        [failed SeverityError "filesystem_regular" "filesystem" "Image path is not a regular file" ("Mode: " +:+ ve_mode info)]
      else
        passed "filesystem_exists" "filesystem" "Image file exists" ("Size: " +:+ fmt_d (Z.of_nat (file_size info)) +:+ " bytes") ::
        match ve_fsck (v_image v) with
        | FsckExits code output =>
            if (code =? 0)%Z then [passed "filesystem_integrity" "filesystem" "Filesystem integrity verified" "e2fsck reports no errors"]
            else if (4 <=? code)%Z then
              [failed SeverityError "filesystem_integrity" "filesystem" "Filesystem has uncorrectable errors" output]
            else
              [mkCheck "filesystem_integrity" "filesystem" "passed" SeverityWarning "Filesystem has minor issues that could be corrected" output]
        | FsckNotRun err =>
            [skipped SeverityWarning "filesystem_integrity" "filesystem" "Could not run filesystem check" (ve_text err)]
        end
  end.

(* @src internal/validate/validator.go:208-219 checkRequiredDirectories *)
Definition requiredDirs : list string := ["/etc"; "/usr"; "/var"; "/home"; "/root"; "/tmp"; "/dev"; "/proc"; "/sys"; "/run"].

(** What is said of a directory that is missing. *)
Definition missing_dir (mount dir : string) : list string :=
  match stat (filepath_join [mount; dir]) with
  | Err _ => [dir]
  | Ok IDir => []
  | Ok _ => [dir +:+ " (not a directory)"]
  end.

(* @src internal/validate/validator.go:207-245 checkRequiredDirectories *)
Definition checkRequiredDirectories (mount : string) : list ValidationCheck :=
  match mjoin (missing_dir mount <$> requiredDirs) with
  | [] => [passed "required_directories" "structure" "All required directories present" (join ", " requiredDirs)]
  | missingDirs => [failed SeverityError "required_directories" "structure" "Missing required directories" (join ", " missingDirs)]
  end.

Definition manifest_path (mount : string) : string := filepath_join [mount; "etc"; "nanofuse"; "build-manifest.json"].

(** The required fields that are empty. *)
Definition manifest_issues (m : BuildManifest) : list string :=
  (if String.eqb (bm_version m) "" then ["missing version"] else []) ++
  (if String.eqb (bm_name m) "" then ["missing name"] else []) ++
  (if String.eqb (bm_build_date m) "" then ["missing build_date"] else []).

(* @func internal/validate/validator.go checkLayerMetadata *)
Definition checkLayerMetadata (mount : string) : list ValidationCheck :=
  match read_file (manifest_path mount) with
  | Err err =>
      if os_IsNotExist err then
        [failed SeverityError "layer_metadata" "metadata" "Build manifest not found" ("Expected: " +:+ manifest_path mount)]
      else [failed SeverityError "layer_metadata" "metadata" "Cannot read build manifest" (ve_text err)]
  | Ok data =>
      match Unmarshal data with
      | Err err => [failed SeverityError "layer_metadata" "metadata" "Invalid JSON in build manifest" (ve_text err)]
      | Ok m =>
          match manifest_issues m with
          | [] =>
              let details := "Name: " +:+ bm_name m +:+ ", Version: " +:+ bm_version m +:+ ", Built: " +:+ bm_build_date m in
              let details := match bm_layers m with [] => details | l => details +:+ ", Layers: " +:+ fmt_d (Z.of_nat (length l)) end in
              [passed "layer_metadata" "metadata" "Build manifest is valid" details]
          | issues => [failed SeverityWarning "layer_metadata" "metadata" "Build manifest has missing fields" (join ", " issues)]
          end
      end
  end.

Definition systemd_path (mount : string) : string := filepath_join [mount; "etc"; "systemd"; "system"].
Definition default_target (mount : string) : string := filepath_join [mount; "etc"; "systemd"; "system"; "default.target"].
Definition multi_user_target (mount : string) : string := filepath_join [mount; "lib"; "systemd"; "system"; "multi-user.target"].

(* @src internal/validate/validator.go:334-337 checkSystemdConfiguration *)
Definition serialGettys (mount : string) : list string :=
  [filepath_join [mount; "etc"; "systemd"; "system"; "getty.target.wants"; "serial-getty@ttyS0.service"];
   filepath_join [mount; "lib"; "systemd"; "system"; "serial-getty@.service"]].

(* @src internal/validate/validator.go:313-331 checkSystemdConfiguration *)
Definition check_target (mount : string) : ValidationCheck :=
  let hasDefault := fileExists (default_target mount) in
  let hasMultiUser := fileExists (multi_user_target mount) in
  if hasDefault || hasMultiUser then
    passed "systemd_target" "systemd" "Boot target is configured"
      (if hasDefault then "default.target -> " +:+ match os_Readlink ve_host (default_target mount) with Ok target => target | Err _ => "" end
       else "multi-user.target present")
  else failed SeverityWarning "systemd_target" "systemd" "No default boot target found" "Expected default.target or multi-user.target".

(* @src internal/validate/validator.go:333-357 checkSystemdConfiguration *)
Definition check_serial (mount : string) : ValidationCheck :=
  if existsb (λ p, fileExists p || symlinkExists p) (serialGettys mount) then
    passed "systemd_serial_console" "systemd" "Serial console getty is configured" "Required for Firecracker console access"
  else failed SeverityWarning "systemd_serial_console" "systemd" "Serial console getty not found" "Console access may not work in Firecracker".

(* @src internal/validate/validator.go:298-358 checkSystemdConfiguration *)
Definition checkSystemdConfiguration (mount : string) : list ValidationCheck :=
  match stat (systemd_path mount) with
  | Err err =>
      if os_IsNotExist err then
        [skipped SeverityInfo "systemd_directory" "systemd" "Systemd system directory not found" "Image may not use systemd"]
      else [failed SeverityError "systemd_directory" "systemd" "Cannot access systemd directory" (ve_text err)]
  | Ok _ =>
      [passed "systemd_directory" "systemd" "Systemd directory exists" (systemd_path mount); check_target mount; check_serial mount]
  end.

Definition sshd_config (mount : string) : string := filepath_join [mount; "etc"; "ssh"; "sshd_config"].
Definition sshd_binary (mount : string) : string := filepath_join [mount; "usr"; "sbin"; "sshd"].

(** What is made of the text of sshd_config: issues and what is worth saying. *)
(* @src internal/validate/validator.go:385-418 checkSSHConfiguration *)
Definition ssh_findings (strict : bool) (content : string) : list string * list string :=
  let '(issues1, info1) :=
    if contains "PermitRootLogin yes" content then ([], ["PermitRootLogin=yes"])
    else if contains "PermitRootLogin prohibit-password" content then ([], ["PermitRootLogin=prohibit-password (keys only)"])
    else if contains "PermitRootLogin no" content then (["root login disabled"], []) else ([], []) in
  let '(issues2, info2) :=
    if contains "PasswordAuthentication no" content then ([], ["password auth disabled (key-only)"])
    else if contains "PasswordAuthentication yes" content then
      if strict then (["password authentication enabled (security risk)"], []) else ([], ["password auth enabled"])
    else ([], []) in
  let info3 := if contains "AuthorizedKeysFile" content then ["custom authorized_keys path configured"] else [] in
  let info4 := if contains "Port " content then ["custom port configured"] else [] in
  (issues1 ++ issues2, info1 ++ info2 ++ info3 ++ info4).

(* @src internal/validate/validator.go:437-441 checkSSHConfiguration *)
Definition hostKeys : list string := ["ssh_host_rsa_key"; "ssh_host_ecdsa_key"; "ssh_host_ed25519_key"].

(* @src internal/validate/validator.go:435-457 checkSSHConfiguration *)
Definition check_host_keys (mount : string) : ValidationCheck :=
  if existsb (λ key, fileExists (filepath_join [filepath_join [mount; "etc"; "ssh"]; key])) hostKeys then
    passed "ssh_host_keys" "ssh" "SSH host keys are present" "Required for SSH connections"
  else failed SeverityWarning "ssh_host_keys" "ssh" "No SSH host keys found" "Keys may be generated on first boot".

(* @src internal/validate/validator.go:361-458 checkSSHConfiguration *)
Definition checkSSHConfiguration (strict : bool) (mount : string) : list ValidationCheck :=
  match read_file (sshd_config mount) with
  | Err err =>
      if os_IsNotExist err then
        if negb (fileExists (sshd_binary mount)) then
          [skipped SeverityInfo "ssh_installed" "ssh" "SSH is not installed" "Image may not require SSH access"]
        else [failed SeverityWarning "ssh_config" "ssh" "SSHD config file not found" "SSH is installed but not configured"]
      else [failed SeverityError "ssh_config" "ssh" "Cannot read sshd_config" (ve_text err)]
  | Ok content =>
      let '(issues, info) := ssh_findings strict content in
      match issues with
      | [] =>
          [passed "ssh_config" "ssh" "SSH configuration is valid" (match info with [] => "sshd_config is valid" | _ => join ", " info end);
           check_host_keys mount]
      | _ => [failed (if strict then SeverityError else SeverityWarning) "ssh_config" "ssh" "SSH configuration issues" (join "; " issues)]
      end
  end.

(* @func internal/validate/validator.go loadManifest *)
Definition loadManifest (mount : string) : option BuildManifest :=
  match read_file (manifest_path mount) with
  | Ok data => match Unmarshal data with Ok m => Some m | Err _ => None end
  | Err _ => None
  end.

(** * The verdict *)

Definition with_status (s : string) (checks : list ValidationCheck) : nat := length (filter (λ c, ck_status c = s) checks).
Definition with_severity (s : string) (checks : list ValidationCheck) : nat := length (filter (λ c, ck_severity c = s) checks).

Definition run_checks (v : Validator) (mount : string) : list ValidationCheck :=
  checkFilesystemIntegrity v ++ checkRequiredDirectories mount ++ checkLayerMetadata mount
  ++ checkSystemdConfiguration mount ++ checkSSHConfiguration (v_strict v) mount.

(* @func internal/validate/validator.go Validate *)
Definition Validate (v : Validator) (mount : string) : ValidationResult :=
  let checks := run_checks v mount in
  let failures := with_status "failed" checks in
  let warnings := with_severity SeverityWarning checks in
  mkResult (v_image v) ve_now
    (if v_strict v then (failures =? 0)%nat && (warnings =? 0)%nat else (failures =? 0)%nat)
    (length checks) (with_status "passed" checks) failures warnings (with_status "skipped" checks) checks (loadManifest mount).

(** * The report *)

Definition newline : string := bytes [10].
Definition esc (colour : string) : string := bytes [27] +:+ "[" +:+ colour.

(** [strings.ToUpper] of a category. *)
Definition upper_ascii (a : ascii) : ascii :=
  let n := nat_of_ascii a in if (97 <=? n)%nat && (n <=? 122)%nat then ascii_of_nat (n - 32) else a.
Fixpoint to_upper (s : string) : string := match s with EmptyString => EmptyString | String a s' => String (upper_ascii a) (to_upper s') end.

(* @src internal/validate/validator.go:525-550 GenerateTextReport *)
Definition report_line (useColor : bool) (c : ValidationCheck) : string :=
  let coloured colour s := if useColor then esc colour +:+ s +:+ esc "0m" else s in
  let symbol :=
    if String.eqb (ck_status c) "passed" then coloured "32m" "[OK]"
    else if String.eqb (ck_status c) "failed" then coloured "31m" "[FAIL]"
    else if String.eqb (ck_status c) "skipped" then coloured "33m" "[SKIP]" else "" in
  "  " +:+ symbol +:+ " " +:+ ck_message c +:+ newline
  +:+ (if String.eqb (ck_details c) "" then "" else "       " +:+ ck_details c +:+ newline).

Definition report_categories : list string := ["filesystem"; "structure"; "metadata"; "systemd"; "ssh"].

(** The checks of a category, in the order they were made. *)
Definition of_category (category : string) (checks : list ValidationCheck) : list ValidationCheck :=
  filter (λ c, ck_category c = category) checks.

(* @src internal/validate/validator.go:517-560 GenerateTextReport *)
Definition report_category (useColor : bool) (checks : list ValidationCheck) (category : string) : string :=
  match of_category category checks with
  | [] => ""
  | l => "[" +:+ to_upper category +:+ "]" +:+ newline +:+ String.concat "" (report_line useColor <$> l) +:+ newline
  end.

(* @src internal/validate/validator.go:495-563 GenerateTextReport *)
Definition GenerateTextReport (r : ValidationResult) (useColor : bool) : string :=
  let count label n := label +:+ ": " +:+ fmt_d (Z.of_nat n) in
  "NanoFuse Image Validation Report" +:+ newline +:+ "================================" +:+ newline +:+ newline
  +:+ "Image:      " +:+ vr_image r +:+ newline
  +:+ "Validated:  " +:+ ve_time (vr_at r) +:+ newline
  +:+ match vr_manifest r with
      | Some m => "Name:       " +:+ bm_name m +:+ newline +:+ "Version:    " +:+ bm_version m +:+ newline
      | None => ""
      end
  +:+ newline +:+ "Status: " +:+ (if vr_passed r then "PASSED" else "FAILED") +:+ newline
  +:+ join " | " [count "Total Checks" (vr_total r); count "Passed" (vr_passed_checks r); count "Failed" (vr_failed r);
                  count "Warnings" (vr_warnings r); count "Skipped" (vr_skipped r)] +:+ newline +:+ newline
  +:+ String.concat "" (report_category useColor (vr_checks r) <$> report_categories).

End Validate.

(** * A sound image *)

Section Sound.
Context `{VE : ValidateEnv}.

Definition image_sound (strict : bool) (image : string) : Prop :=
  (∃ content, stat image = Ok (IFile content)) ∧
  match ve_fsck image with
  | FsckExits code _ => if strict then code = 0%Z else (code < 4)%Z
  | FsckNotRun _ => strict = false
  end.

Definition directories_present (mount : string) : Prop := ∀ dir, dir ∈ requiredDirs → stat (filepath_join [mount; dir]) = Ok IDir.

Definition manifest_valid (mount : string) : Prop :=
  ∃ m, loadManifest mount = Some m ∧ bm_version m ≠ "" ∧ bm_name m ≠ "" ∧ bm_build_date m ≠ "".

Definition absent {A} (r : result A) : Prop := ∃ e, r = Err e ∧ os_IsNotExist e = true.

Definition systemd_boots (mount : string) : Prop :=
  absent (stat (systemd_path mount)) ∨
  (∃ n, stat (systemd_path mount) = Ok n) ∧
  (fileExists (default_target mount) = true ∨ fileExists (multi_user_target mount) = true) ∧
  ∃ p, p ∈ serialGettys mount ∧ (fileExists p = true ∨ symlinkExists p = true).

(** What the text of sshd_config must not say: that root may not log in, and in strict
    mode that passwords are accepted. *)
Definition login_possible (content : string) : Prop :=
  contains "PermitRootLogin no" content = true →
  contains "PermitRootLogin yes" content = true ∨ contains "PermitRootLogin prohibit-password" content = true.
Definition keys_only (content : string) : Prop :=
  contains "PasswordAuthentication yes" content = true → contains "PasswordAuthentication no" content = true.

Definition ssh_usable (strict : bool) (mount : string) : Prop :=
  absent (read_file (sshd_config mount)) ∧ fileExists (sshd_binary mount) = false ∨
  ∃ content, read_file (sshd_config mount) = Ok content ∧ login_possible content ∧ (strict = true → keys_only content) ∧
    ∃ key, key ∈ hostKeys ∧ fileExists (filepath_join [filepath_join [mount; "etc"; "ssh"]; key]) = true.

Definition sound_image (v : Validator) (mount : string) : Prop :=
  image_sound (v_strict v) (v_image v) ∧ directories_present mount ∧ manifest_valid mount ∧
  systemd_boots mount ∧ ssh_usable (v_strict v) mount.

(** * The verdict *)

(** A check that does not stand in the way. *)
Definition good (strict : bool) (c : ValidationCheck) : Prop :=
  ck_status c ≠ "failed" ∧ (strict = true → ck_severity c ≠ SeverityWarning).

Lemma none_filtered {A} (P : A → Prop) `{!∀ x, Decision (P x)} (l : list A) :
  (length (filter P l) =? 0)%nat = true ↔ Forall (λ x, ¬ P x) l.
Proof.
  rewrite Nat.eqb_eq. induction l as [|x l IH]; [by rewrite Forall_nil|].
  rewrite Forall_cons, <- IH. destruct (decide (P x)) as [Hx|Hx].
  - rewrite filter_cons_True by done. cbn. split; [lia|tauto].
  - rewrite filter_cons_False by done. tauto.
Qed.

Lemma Validate_good v mount : vr_passed (Validate v mount) = true ↔ Forall (good (v_strict v)) (run_checks v mount).
Proof.
  cbn [Validate vr_passed]. unfold with_status, with_severity, good. destruct (v_strict v).
  - rewrite andb_true_iff, !none_filtered, <- Forall_and. apply Forall_iff. naive_solver.
  - rewrite none_filtered. apply Forall_iff. naive_solver.
Qed.

Lemma good_passed strict name category message details : good strict (passed name category message details).
Proof. by split. Qed.
Lemma good_failed strict severity name category message details : ¬ good strict (failed severity name category message details).
Proof. intros [H _]. by apply H. Qed.
Lemma good_skipped_info strict name category message details : good strict (skipped SeverityInfo name category message details).
Proof. by split. Qed.

Lemma good_warning strict name category status message details :
  status ≠ "failed" → good strict (mkCheck name category status SeverityWarning message details) ↔ strict = false.
Proof.
  intros Hs. split; [intros [_ H1]; destruct strict; [by destruct H1|done]|]. by intros ->.
Qed.

Lemma Forall_one {A} (P : A → Prop) x : Forall P [x] ↔ P x.
Proof. rewrite Forall_cons, Forall_nil. tauto. Qed.


Lemma filesystem_good v : Forall (good (v_strict v)) (checkFilesystemIntegrity v) ↔ image_sound (v_strict v) (v_image v).
Proof.
  unfold checkFilesystemIntegrity, image_sound. destruct (stat (v_image v)) as [[content| |t|]|e]; cbn [negb is_regular].
  2-5: rewrite Forall_one; split; [by intros ?%good_failed|intros [[? Hn] _]; discriminate Hn].
  rewrite Forall_cons. destruct (ve_fsck (v_image v)) as [code output|e].
  - destruct (Z.eqb_spec code 0) as [->|Hc].
    + rewrite Forall_one. split; [intros _; split; [by eexists|by destruct (v_strict v)]|split; apply good_passed].
    + destruct (Z.leb_spec 4 code).
      * rewrite Forall_one. split; [intros [_ H1]; by apply good_failed in H1|]. intros [_ H1]. destruct (v_strict v); lia.
      * rewrite Forall_one, good_warning by done. split.
        -- intros [_ Hs]. rewrite Hs. split; [by eexists|done].
        -- intros [_ H1]. split; [apply good_passed|]. destruct (v_strict v); [lia|done].
  - unfold skipped. rewrite Forall_one, good_warning by done. split; [intros [_ Hs]; split; [by eexists|done]|].
    intros [_ Hs]. split; [apply good_passed|done].
Qed.

Lemma missing_dir_none mount dir : missing_dir mount dir = [] ↔ stat (filepath_join [mount; dir]) = Ok IDir.
Proof. unfold missing_dir. by destruct (stat _) as [[]|]. Qed.

Lemma mjoin_nil {A} (ls : list (list A)) : mjoin ls = [] ↔ ∀ l, l ∈ ls → l = [].
Proof.
  induction ls as [|l ls IH]; [split; [by intros _ l ?%elem_of_nil|done]|].
  cbn. rewrite app_nil, IH. setoid_rewrite elem_of_cons. naive_solver.
Qed.

Lemma directories_good strict mount : Forall (good strict) (checkRequiredDirectories mount) ↔ directories_present mount.
Proof.
  assert (mjoin (missing_dir mount <$> requiredDirs) = [] ↔ directories_present mount) as Hm.
  { rewrite mjoin_nil. unfold directories_present. setoid_rewrite <- missing_dir_none. setoid_rewrite list_elem_of_fmap. naive_solver. }
  rewrite <- Hm. unfold checkRequiredDirectories. destruct (mjoin _) as [|d ds].
  - rewrite Forall_one. split; [done|intros _; apply good_passed].
  - rewrite Forall_one. split; [by intros ?%good_failed|done].
Qed.

Lemma manifest_issues_none m : manifest_issues m = [] ↔ bm_version m ≠ "" ∧ bm_name m ≠ "" ∧ bm_build_date m ≠ "".
Proof.
  unfold manifest_issues. destruct (String.eqb_spec (bm_version m) ""), (String.eqb_spec (bm_name m) ""), (String.eqb_spec (bm_build_date m) "");
    cbn; split; (discriminate || tauto).
Qed.

Lemma metadata_good strict mount : Forall (good strict) (checkLayerMetadata mount) ↔ manifest_valid mount.
Proof.
  unfold checkLayerMetadata, manifest_valid, loadManifest. destruct (read_file (manifest_path mount)) as [data|e].
  2: { destruct (os_IsNotExist e); rewrite Forall_one; (split; [by intros ?%good_failed|by intros (? & ? & _)]). }
  destruct (Unmarshal data) as [m|e].
  2: { rewrite Forall_one. split; [by intros ?%good_failed|by intros (? & ? & _)]. }
  pose proof (manifest_issues_none m) as Hi. destruct (manifest_issues m) as [|i issues].
  - rewrite Forall_one. split; [intros _; exists m; tauto|intros _; apply good_passed].
  - rewrite Forall_one. split; [by intros ?%good_failed|]. intros (? & [= <-] & H). by apply Hi in H.
Qed.

Lemma existsb_elem {A} (f : A → bool) l : existsb f l = true ↔ ∃ x, x ∈ l ∧ f x = true.
Proof. rewrite existsb_exists. by setoid_rewrite list_elem_of_In. Qed.

Lemma systemd_good strict mount : Forall (good strict) (checkSystemdConfiguration mount) ↔ systemd_boots mount.
Proof.
  unfold checkSystemdConfiguration, systemd_boots, absent. destruct (stat (systemd_path mount)) as [n|e].
  2: { destruct (os_IsNotExist e) eqn:He; rewrite Forall_one.
    - split; [intros _; left; by eexists|intros _; apply good_skipped_info].
    - split; [by intros ?%good_failed|]. intros [(e' & [= <-] & He')|[[? Hn] _]]; [congruence|discriminate Hn]. }
  assert (good strict (check_target mount) ↔ fileExists (default_target mount) = true ∨ fileExists (multi_user_target mount) = true) as Ht.
  { unfold check_target. rewrite <- orb_true_iff. destruct (_ || _).
    - split; [done|intros _; apply good_passed].
    - split; [by intros ?%good_failed|done]. }
  assert (good strict (check_serial mount) ↔ ∃ p, p ∈ serialGettys mount ∧ (fileExists p = true ∨ symlinkExists p = true)) as Hs.
  { unfold check_serial. setoid_rewrite <- orb_true_iff. rewrite <- existsb_elem. destruct (existsb _ _).
    - split; [done|intros _; apply good_passed].
    - split; [by intros ?%good_failed|done]. }
  rewrite !Forall_cons, Ht, Hs. split.
  - intros (_ & H1 & H2 & _). right. by split; [eexists|].
  - intros [(e & Hn & _)|(_ & H1 & H2)]; [discriminate Hn|]. split; [apply good_passed|]. split_and!; [done|done|by apply Forall_nil].
Qed.

Lemma ssh_issues_none strict content :
  fst (ssh_findings strict content) = [] ↔ login_possible content ∧ (strict = true → keys_only content).
Proof.
  unfold ssh_findings, login_possible, keys_only.
  destruct (contains "PermitRootLogin yes" content), (contains "PermitRootLogin prohibit-password" content), (contains "PermitRootLogin no" content),
    (contains "PasswordAuthentication no" content), (contains "PasswordAuthentication yes" content), strict; cbn; naive_solver.
Qed.

Lemma ssh_good strict mount : Forall (good strict) (checkSSHConfiguration strict mount) ↔ ssh_usable strict mount.
Proof.
  unfold checkSSHConfiguration, ssh_usable, absent. destruct (read_file (sshd_config mount)) as [content|e].
  2: { destruct (os_IsNotExist e) eqn:He; [destruct (fileExists (sshd_binary mount)) eqn:Hf|]; cbn [negb]; rewrite Forall_one.
    - split; [by intros ?%good_failed|]. by intros [[_ ?]|(? & ? & _)].
    - split; [intros _; left; split; [by eexists|done]|intros _; apply good_skipped_info].
    - split; [by intros ?%good_failed|]. intros [[(? & [= <-] & ?) _]|(? & ? & _)]; congruence. }
  pose proof (ssh_issues_none strict content) as Hi. destruct (ssh_findings strict content) as [[|i issues] info]; cbn [fst] in Hi.
  - assert (good strict (check_host_keys mount) ↔ ∃ key, key ∈ hostKeys ∧ fileExists (filepath_join [filepath_join [mount; "etc"; "ssh"]; key]) = true) as Hk.
    { unfold check_host_keys. rewrite <- existsb_elem. destruct (existsb _ _).
      - split; [done|intros _; apply good_passed].
      - split; [by intros ?%good_failed|done]. }
    rewrite Forall_cons, Forall_one, Hk. destruct (proj1 Hi eq_refl) as [Hl Hp]. split.
    + intros [_ H]. right. by exists content.
    + intros [[(? & ? & _) _]|(? & _ & _ & _ & H)]; [done|]. split; [apply good_passed|done].
  - rewrite Forall_one. split; [by intros ?%good_failed|]. intros [[(? & ? & _) _]|(? & [= <-] & Hl & Hp & _)]; [done|].
    by pose proof (proj2 Hi (conj Hl Hp)).
Qed.

End Sound.

(** C30: An image passes exactly if none of its checks failed, of whatever
    severity (a check that failed as a warning counts in either mode), and in strict
    mode none has the severity of a warning; and that is so exactly if all of this
    holds.  The image path is a regular file, and e2fsck exited with a code below 4
    (-1 when it was killed) or could not be run; in strict mode it exited with 0.  Each of the ten directories of [requiredDirs] is a directory.  The build
    manifest is read and gives a version, a name and a date.  Either there is no
    systemd directory, or default.target or multi-user.target is a file and one of
    two serial gettys is a file or a symbolic link.  Either there is neither
    sshd_config nor the binary of sshd, or sshd_config can be read, its text does
    not have "PermitRootLogin no" in it without "PermitRootLogin yes" or
    "PermitRootLogin prohibit-password", in strict mode not "PasswordAuthentication
    yes" without "PasswordAuthentication no" (comments of the file count as well),
    and one of three host keys is a file. *)
Theorem Validate_verdict `{VE : ValidateEnv} v mount :
  (vr_passed (Validate v mount) = true ↔
     Forall (λ c, ck_status c ≠ "failed" ∧ (v_strict v = true → ck_severity c ≠ SeverityWarning)) (run_checks v mount)) ∧
  (vr_passed (Validate v mount) = true ↔ sound_image v mount).
Proof.
  split; [apply Validate_good|]. rewrite Validate_good. unfold run_checks, sound_image.
  by rewrite !Forall_app, filesystem_good, directories_good, metadata_good, systemd_good, ssh_good.
Qed.

(** Strictness only takes away. *)
Theorem strict_is_stricter `{VE : ValidateEnv} image mount :
  vr_passed (Validate (mkValidator image true) mount) = true → vr_passed (Validate (mkValidator image false) mount) = true.
Proof.
  rewrite !Validate_good, !Forall_forall. cbn [v_strict]. unfold run_checks, sound_image. cbn [v_strict].
  intros H. cut (sound_image (mkValidator image false) mount).
  { unfold sound_image. cbn [v_strict v_image]. intros (A & B & C & D & F). rewrite <- Forall_forall, !Forall_app.
    pose proof (proj2 (filesystem_good (mkValidator image false)) A). cbn [v_strict] in *.
    by rewrite directories_good, metadata_good, systemd_good, ssh_good. }
  rewrite <- Forall_forall, !Forall_app in H.
  pose proof (filesystem_good (mkValidator image true)) as Hf. cbn [v_strict v_image] in Hf.
  rewrite Hf, directories_good, metadata_good, systemd_good, ssh_good in H. destruct H as ([Hc Hk] & B & C & D & F).
  split_and!; [|done..|].
  - split; [done|]. cbn [v_image v_strict] in *. destruct (ve_fsck image); [subst; lia|done].
  - cbn [v_strict]. destruct F as [F|(content & F1 & F2 & F3 & F4)]; [by left|]. right. exists content. by split_and!.
Qed.

(** * Counts and report *)

Definition statuses : list string := ["passed"; "failed"; "skipped"].
Definition tidy (c : ValidationCheck) : Prop := ck_status c ∈ statuses ∧ ck_category c ∈ report_categories.

Ltac solve_tidy :=
  rewrite ?Forall_cons, ?Forall_nil; unfold tidy, statuses, report_categories, passed, failed, skipped; cbn [ck_status ck_category];
  split_and?; first [done | apply (bool_decide_unpack _); exact I].

Section Report.
Context `{VE : ValidateEnv}.

Lemma filesystem_tidy v : Forall tidy (checkFilesystemIntegrity v).
Proof.
  unfold checkFilesystemIntegrity. destruct (stat _) as [n|]; [|solve_tidy]. destruct (is_regular n); [|solve_tidy].
  destruct (ve_fsck _) as [code output|]; [destruct (_ =? _)%Z; [|destruct (_ <=? _)%Z]|]; solve_tidy.
Qed.

Lemma directories_tidy mount : Forall tidy (checkRequiredDirectories mount).
Proof. unfold checkRequiredDirectories. destruct (mjoin _); solve_tidy. Qed.

Lemma metadata_tidy mount : Forall tidy (checkLayerMetadata mount).
Proof.
  unfold checkLayerMetadata. destruct (read_file _) as [data|e]; [|destruct (os_IsNotExist e); solve_tidy].
  destruct (Unmarshal data) as [m|]; [|solve_tidy]. destruct (manifest_issues m); solve_tidy.
Qed.

Lemma systemd_tidy mount : Forall tidy (checkSystemdConfiguration mount).
Proof.
  unfold checkSystemdConfiguration. destruct (stat _) as [n|e]; [|destruct (os_IsNotExist e); solve_tidy].
  unfold check_target, check_serial. destruct (_ || _), (existsb _ _); solve_tidy.
Qed.

Lemma ssh_tidy strict mount : Forall tidy (checkSSHConfiguration strict mount).
Proof.
  unfold checkSSHConfiguration. destruct (read_file _) as [content|e].
  - destruct (ssh_findings strict content) as [[|i issues] info]; [|solve_tidy].
    unfold check_host_keys. destruct (existsb _ _); solve_tidy.
  - destruct (os_IsNotExist e); [destruct (negb _)|]; solve_tidy.
Qed.

Lemma checks_tidy v mount : Forall tidy (run_checks v mount).
Proof.
  unfold run_checks. rewrite !Forall_app.
  split_and!; [apply filesystem_tidy|apply directories_tidy|apply metadata_tidy|apply systemd_tidy|apply ssh_tidy].
Qed.
End Report.

(** Sorting a list by a key out of [keys] keeps every element, once. *)
Lemma grouped_permutation {A} (key : A → string) (keys : list string) (l : list A) :
  NoDup keys → Forall (λ x, key x ∈ keys) l → mjoin ((λ k, filter (λ x, key x = k) l) <$> keys) ≡ₚ l.
Proof.
  revert l. induction keys as [|k keys IH]; intros l Hnd Hl.
  { destruct l as [|x l]; [done|]. apply Forall_cons in Hl as [Hx _]. by apply elem_of_nil in Hx. }
  apply NoDup_cons in Hnd as [Hk Hnd]. cbn [fmap list_fmap mjoin list_join].
  assert ((λ k', filter (λ x, key x = k') l) <$> keys = (λ k', filter (λ x, key x = k') (filter (λ x, key x ≠ k) l)) <$> keys) as ->.
  { apply list_fmap_ext. intros i k' Hi. rewrite list_filter_filter. apply list_filter_iff. intros x.
    split; [|by intros [? _]]. intros Hx. split; [done|]. intros Hk2. apply list_elem_of_lookup_2 in Hi. congruence. }
  rewrite IH; [|done|].
  - rewrite Permutation_app_comm. induction l as [|x l IHl]; [done|]. apply Forall_cons in Hl as [_ Hl]. specialize (IHl Hl).
    destruct (decide (key x = k)) as [Hx|Hx].
    + rewrite (filter_cons_False (λ x, key x ≠ k)), (filter_cons_True (λ x, key x = k)) by (done || by intros ?).
      by rewrite <- Permutation_middle, IHl.
    + rewrite (filter_cons_True (λ x, key x ≠ k)), (filter_cons_False (λ x, key x = k)) by done. cbn. by rewrite IHl.
  - apply Forall_forall. intros x [Hx Hin]%list_elem_of_filter. rewrite Forall_forall in Hl.
    apply Hl in Hin. apply elem_of_cons in Hin as [|]; done.
Qed.

Lemma statuses_partition checks :
  Forall tidy checks → length checks = (with_status "passed" checks + with_status "failed" checks + with_status "skipped" checks)%nat.
Proof.
  intros H. pose proof (grouped_permutation ck_status statuses checks ltac:(apply (bool_decide_unpack _); exact I)) as Hp.
  rewrite <- Hp at 1 by (eapply Forall_impl; [exact H|by intros c [? _]]).
  cbn [fmap list_fmap mjoin list_join statuses]. rewrite !length_app. cbn. unfold with_status. lia.
Qed.

(** Every check is counted under one status, and the report holds every check of the
    result, once, under its category. *)
Theorem Validate_accounts `{VE : ValidateEnv} v mount :
  let r := Validate v mount in
  vr_total r = (vr_passed_checks r + vr_failed r + vr_skipped r)%nat ∧
  mjoin ((λ category, of_category category (vr_checks r)) <$> report_categories) ≡ₚ vr_checks r ∧
  (vr_passed r = true → vr_failed r = 0%nat).
Proof.
  cbn zeta. pose proof (checks_tidy v mount) as Ht. split_and!.
  - by apply statuses_partition.
  - apply grouped_permutation; [by apply (bool_decide_unpack _)|]. eapply Forall_impl; [exact Ht|by intros c [_ ?]].
  - cbn. destruct (v_strict v); [intros [H _]%andb_true_iff|intros H]; by apply Nat.eqb_eq.
Qed.

(** * What the verdict depends on *)

Definition on_host (VE : ValidateEnv) (h : Machine) : ValidateEnv :=
  {| ve_host := h; ve_fsck := @ve_fsck VE; ve_json := @ve_json VE; ve_json_error := @ve_json_error VE;
     ve_device := @ve_device VE; ve_text := @ve_text VE; ve_mode := @ve_mode VE; ve_now := @ve_now VE; ve_time := @ve_time VE |}.

Section OtherHost.
Context (VE : ValidateEnv) (h : Machine) (mount : string) (Hr : is_rooted mount = true).
Context (H1 : reaches (@ve_host VE) (path_elements mount)) (H2 : reaches h (path_elements mount)).
Context (Hsame : same_below (path_elements mount) (@ve_host VE) h).

Ltac below := apply inside_join; [done|done|done|by vm_compute].

Lemma stat_same p : inside mount p → @stat (on_host VE h) p = @stat VE p.
Proof. intros Hp. symmetry. by eapply os_Stat_same. Qed.
Lemma exists_same p : inside mount p → @fileExists (on_host VE h) p = @fileExists VE p.
Proof. intros Hp. unfold fileExists. by rewrite stat_same. Qed.
Lemma symlink_same p : inside mount p → @symlinkExists (on_host VE h) p = @symlinkExists VE p.
Proof. intros Hp. unfold symlinkExists. cbn [ve_host on_host]. by rewrite <- (os_Lstat_same _ _ mount Hr H1 H2 Hsame p Hp). Qed.
Lemma read_same p : inside mount p → @read_file (on_host VE h) p = @read_file VE p.
Proof. intros Hp. symmetry. by eapply os_ReadFile_same. Qed.

Lemma required_inside dir : dir ∈ requiredDirs → inside mount (filepath_join [mount; dir]).
Proof.
  intros Hd. unfold requiredDirs in Hd. rewrite !elem_of_cons, elem_of_nil in Hd.
  destruct Hd as [->|[->|[->|[->|[->|[->|[->|[->|[->|[->|[]]]]]]]]]]]; below.
Qed.

Lemma getty_inside p : p ∈ serialGettys mount → inside mount p.
Proof. unfold serialGettys. rewrite !elem_of_cons, elem_of_nil. intros [->|[->|[]]]; below. Qed.

Lemma key_inside key : key ∈ hostKeys → inside mount (filepath_join [filepath_join [mount; "etc"; "ssh"]; key]).
Proof.
  assert (inside mount (filepath_join [mount; "etc"; "ssh"])) as Hi by below. intros Hk.
  apply (inside_trans _ _ _ Hr Hi). apply inside_rooted in Hi. unfold hostKeys in Hk. rewrite !elem_of_cons, elem_of_nil in Hk.
  destruct Hk as [->|[->|[->|[]]]]; (apply inside_join; [done|done|done|by vm_compute]).
Qed.

Lemma existsb_same {A} (f g : A → bool) l : (∀ x, x ∈ l → f x = g x) → existsb f l = existsb g l.
Proof.
  intros H. induction l as [|x l IH]; [done|]. cbn. rewrite H, IH; [done| |by left].
  intros y Hy. apply H. by right.
Qed.

Lemma directories_same : @checkRequiredDirectories (on_host VE h) mount = @checkRequiredDirectories VE mount.
Proof.
  unfold checkRequiredDirectories. assert (@missing_dir (on_host VE h) mount <$> requiredDirs = @missing_dir VE mount <$> requiredDirs) as ->; [|done].
  apply list_fmap_ext. intros i dir Hd%list_elem_of_lookup_2. unfold missing_dir. by rewrite stat_same by by apply required_inside.
Qed.

Lemma manifest_inside : inside mount (manifest_path mount).
Proof. below. Qed.

Lemma metadata_same : @checkLayerMetadata (on_host VE h) mount = @checkLayerMetadata VE mount.
Proof. unfold checkLayerMetadata. by rewrite read_same by apply manifest_inside. Qed.

Lemma systemd_same : @checkSystemdConfiguration (on_host VE h) mount = @checkSystemdConfiguration VE mount.
Proof.
  assert (inside mount (default_target mount)) as Hd by below.
  unfold checkSystemdConfiguration, check_target, check_serial. rewrite stat_same by below. rewrite !exists_same by below.
  cbn [ve_host on_host]. rewrite <- (os_Readlink_same _ _ mount Hr H1 H2 Hsame _ Hd).
  rewrite (existsb_same (λ p, @fileExists (on_host VE h) p || @symlinkExists (on_host VE h) p) (λ p, @fileExists VE p || @symlinkExists VE p)); [done|].
  intros p Hp%getty_inside. by rewrite exists_same, symlink_same.
Qed.

Lemma ssh_same strict : @checkSSHConfiguration (on_host VE h) strict mount = @checkSSHConfiguration VE strict mount.
Proof.
  unfold checkSSHConfiguration, check_host_keys. rewrite read_same, exists_same by below.
  rewrite (existsb_same (λ key, @fileExists (on_host VE h) (filepath_join [filepath_join [mount; "etc"; "ssh"]; key])) (λ key, @fileExists VE (filepath_join [filepath_join [mount; "etc"; "ssh"]; key]))); [done|].
  intros key Hk%key_inside. by apply exists_same.
Qed.
End OtherHost.

(** the result for an image whose mounted tree has no symbolic link is a function of
    that tree and of the image file: it is the same on every host that has the tree at
    the mount point, whatever else is on the host. *)
Theorem Validate_is_of_the_image (VE : ValidateEnv) h v mount :
  is_rooted mount = true → reaches (@ve_host VE) (path_elements mount) → reaches h (path_elements mount) →
  same_below (path_elements mount) (@ve_host VE) h → os_Stat (@ve_host VE) (v_image v) = os_Stat h (v_image v) →
  @Validate (on_host VE h) v mount = @Validate VE v mount.
Proof.
  intros Hr H1 H2 Hs Hi. unfold Validate, run_checks, loadManifest, checkFilesystemIntegrity.
  rewrite (read_same VE h mount Hr H1 H2 Hs) by by apply manifest_inside.
  rewrite directories_same, metadata_same, systemd_same, ssh_same by done.
  unfold stat. cbn [ve_host on_host]. by rewrite Hi.
Qed.

(** * A concrete image *)

Definition image_dirs : list (list string) :=
  [["mnt"]; ["mnt"; "etc"]; ["mnt"; "usr"]; ["mnt"; "var"]; ["mnt"; "home"]; ["mnt"; "root"]; ["mnt"; "tmp"]; ["mnt"; "dev"]; ["mnt"; "proc"];
   ["mnt"; "sys"]; ["mnt"; "run"]; ["mnt"; "lib"]; ["mnt"; "lib"; "systemd"]; ["mnt"; "lib"; "systemd"; "system"]; ["mnt"; "etc"; "nanofuse"];
   ["mnt"; "etc"; "systemd"]; ["mnt"; "etc"; "systemd"; "system"]; ["mnt"; "etc"; "ssh"]; ["images"]].

Definition image_files : list (list string * inode) :=
  [(["images"; "a.ext4"], IFile "data"); (["mnt"; "etc"; "nanofuse"; "build-manifest.json"], IFile "manifest");
   (["mnt"; "lib"; "systemd"; "system"; "multi-user.target"], IFile ""); (["mnt"; "lib"; "systemd"; "system"; "serial-getty@.service"], IFile "");
   (["mnt"; "etc"; "ssh"; "sshd_config"], IFile "PermitRootLogin yes"); (["mnt"; "etc"; "ssh"; "ssh_host_rsa_key"], IFile "key")].

Definition image_tree : gmap (list string) inode := list_to_map (((λ p, (p, IDir)) <$> image_dirs) ++ image_files).

Definition manifest_json : json := JObj [("version", JStr "1"); ("name", JStr "base"); ("build_date", JStr "2026-01-01")].

Definition sample_env (fsck : fsck_outcome) (changes : list (list string * inode)) : ValidateEnv :=
  {| ve_host := mkMachine (list_to_map changes ∪ image_tree) (λ _, false) []; ve_fsck := λ _, fsck;
     ve_json := λ s, if String.eqb s "manifest" then Some manifest_json else None; ve_json_error := λ _, ErrorsNew "json";
     ve_device := λ _, Ok ""; ve_text := λ _, "text"; ve_mode := λ _, "mode"; ve_now := 0; ve_time := λ _, "" |}.

Definition verdict (strict : bool) (fsck : fsck_outcome) (changes : list (list string * inode)) : bool :=
  vr_passed (@Validate (sample_env fsck changes) (mkValidator "/images/a.ext4" strict) "/mnt").

Definition clean_run : fsck_outcome := FsckExits 0 "".

Example sample_passes : verdict true clean_run [] = true.
Proof. vm_compute. reflexivity. Qed.

(** An e2fsck that a signal ended has the exit code -1, and passes. *)
Example killed_fsck_passes : verdict false (FsckExits (-1) "") [] = true ∧ verdict true (FsckExits (-1) "") [] = false.
Proof. by vm_compute. Qed.

(** An absolute link of the image is followed on the host: a directory of the host
    stands for the image's own, and a boot target of the image is not found. *)
Example links_lead_to_the_host :
  verdict true clean_run [(["mnt"; "usr"], ILink "/opt"); (["opt"], IDir)] = true ∧
  verdict true clean_run [(["mnt"; "usr"], ILink "/opt"); (["mnt"; "opt"], IDir)] = false.
Proof. by vm_compute. Qed.

(** The settings are searched for in the text, comments included. *)
Example comments_are_settings :
  verdict false clean_run [(["mnt"; "etc"; "ssh"; "sshd_config"], IFile "#PermitRootLogin no")] = false ∧
  verdict false clean_run [(["mnt"; "etc"; "ssh"; "sshd_config"], IFile ("#PermitRootLogin yes" +:+ newline +:+ "PermitRootLogin no"))] = true.
Proof. by vm_compute. Qed.

(** A failed check of severity warning fails the image when not strict as well. *)
Example warnings_fail : verdict false clean_run [(["mnt"; "etc"; "ssh"; "ssh_host_rsa_key"], IDir)] = false.
Proof. vm_compute. reflexivity. Qed.

Definition no_link (n : inode) : bool := match n with ILink _ => false | _ => true end.

Lemma Validate_is_of_the_image_witness :
  let h := mkMachine (<[["other"] := IFile ""]> (list_to_map [] ∪ image_tree)) (λ _, false) ["home"] in
  @Validate (on_host (sample_env clean_run []) h) (mkValidator "/images/a.ext4" true) "/mnt"
  = @Validate (sample_env clean_run []) (mkValidator "/images/a.ext4" true) "/mnt".
Proof.
  cbn zeta. apply Validate_is_of_the_image; [done|..].
  - split; [apply Forall_singleton; by split_and!|]. change (path_elements "/mnt") with ["mnt"]. intros [|[|n]] Hn; [split; [lia|done]|split; [intros _; by vm_compute|by vm_compute]|cbn in Hn; lia].
  - split; [apply Forall_singleton; by split_and!|]. change (path_elements "/mnt") with ["mnt"]. intros [|[|n]] Hn; [split; [lia|done]|split; [intros _; by vm_compute|by vm_compute]|cbn in Hn; lia].
  - intros rest. cbn [ve_host sample_env h_tree h_denied]. split_and!; [|done|].
    + by rewrite lookup_insert_ne.
    + intros target Hl.
      assert (map_Forall (λ _ n, no_link n = true) (list_to_map [] ∪ image_tree)) as Hn by (apply (bool_decide_unpack _); vm_compute; exact I).
      by apply Hn in Hl.
  - by vm_compute.
Defined.
