(* ===== verification/CredIsolation.v ===== *)
(** Isolation of the credentials of microVMs (src/internal/credisolation:
    isolation.go, monitor.go, owner_unix.go) and the command that verifies it
    (src/cmd/nanofuse/isolation.go).

    Details and log records keep the structure the code formats.

    What the credential guard guarantees: an accepted mount reaches the store only
    as a private in-memory file system, access is to a VM's own store, and a report
    passes exactly when everything that was to be checked holds. *)

From S2P Require Import Prelude GoStrings Paths Types MountSecret.

(* @src internal/credisolation/isolation.go:38-59 GuestSecretsDir *)
Definition GuestSecretsDir : string := "/var/run/secrets/daax".
Definition RequiredDirMode : Z := 448.  (* 0700 *)
Definition RequiredOwnerUID : Z := 0.
Definition RequiredOwnerGID : Z := 0.
Definition maxVMIDLen : Z := 128.
Definition statusPassLine : string := "credential isolation: PASS".
Definition statusFailLine : string := "credential isolation: FAIL".
Definition statusNotVerifiedLine : string := "credential isolation: NOT VERIFIED".

(* @src internal/credisolation/isolation.go:62-78 ErrCrossVMAccess *)
Definition ErrCrossVMAccess : string := "cross-VM credential access denied".
Definition ErrSharedSecretsMount : string := "shared/host mount targeting credential store is forbidden".
Definition ErrInvalidMountTarget : string := "mount target must be an absolute path without embedded NUL bytes".
Definition ErrInvalidVMID : string := "invalid VM identifier".

(** The character class of the identifiers. *)
(* @src internal/credisolation/isolation.go:85-85 safeIDPattern *)
Definition safe_id_char (a : ascii) : bool :=
  let n := nat_of_ascii a in
  ((97 <=? n) && (n <=? 122) || (65 <=? n) && (n <=? 90) || (48 <=? n) && (n <=? 57) || (n =? 95) || (n =? 45))%nat.

Fixpoint all_chars (f : ascii → bool) (s : string) : bool :=
  match s with EmptyString => true | String a s' => f a && all_chars f s' end.

(* @func internal/credisolation/isolation.go ValidateVMID *)
Definition ValidateVMID (vmID : string) : option error :=
  if String.eqb vmID "" then Some (Errorf "%w: empty" [AWrap (ErrorsNew ErrInvalidVMID)])
  else if (maxVMIDLen <? Z.of_nat (String.length vmID))%Z then
    Some (Errorf "%w: length %d exceeds %d" [AWrap (ErrorsNew ErrInvalidVMID); AInt (Z.of_nat (String.length vmID)); AInt maxVMIDLen])
  else if negb (all_chars safe_id_char vmID) then
    Some (Errorf "%w: %q contains characters outside [a-zA-Z0-9_-]" [AWrap (ErrorsNew ErrInvalidVMID); AStr vmID])
  else None.

(* @type internal/credisolation/isolation.go VerifyResult *)
Record VerifyResult : Type := mkVerify { vr_name : string; vr_pass : bool; vr_detail : message }.

(* @type internal/credisolation/isolation.go Report *)
Record Report : Type := mkReport { rp_results : list VerifyResult; rp_subjects : Z }.

(* @func internal/credisolation/isolation.go allPass *)
Definition allPass (r : Report) : bool :=
  match rp_results r with [] => false | l => forallb vr_pass l end.

(* @func internal/credisolation/isolation.go Pass *)
Definition Pass (r : Report) : bool := (0 <? rp_subjects r)%Z && allPass r.

(* @func internal/credisolation/isolation.go HasFailure *)
Definition HasFailure (r : Report) : bool := existsb (λ v, negb (vr_pass v)) (rp_results r).

(* @func internal/credisolation/isolation.go StatusLine *)
Definition StatusLine (r : Report) : string :=
  if negb (allPass r) then statusFailLine
  else if (rp_subjects r =? 0)%Z then statusNotVerifiedLine
  else statusPassLine.

(* @func internal/credisolation/isolation.go Authorize *)
Definition Authorize (requestingVMID targetVMID : string) : option error :=
  match ValidateVMID requestingVMID with
  | Some err => Some (Errorf "%w: requesting vm: %w" [AWrap (ErrorsNew ErrCrossVMAccess); AWrap err])
  | None =>
      match ValidateVMID targetVMID with
      | Some err => Some (Errorf "%w: target vm: %w" [AWrap (ErrorsNew ErrCrossVMAccess); AWrap err])
      | None =>
          if negb (String.eqb requestingVMID targetVMID) then
            Some (Errorf "%w: VM %q may not access VM %q credentials"
              [AWrap (ErrorsNew ErrCrossVMAccess); AStr requestingVMID; AStr targetVMID])
          else None
      end
  end.

(** * The guard of mounts *)

(* @type internal/credisolation/isolation.go MountSpec *)
Record MountSpec : Type := mkSpec { ms_target : string; ms_source : string; ms_type : string }.

(* @func internal/credisolation/isolation.go isAncestorOrSame *)
Definition isAncestorOrSame (ancestor descendant : string) : bool :=
  if String.eqb ancestor descendant then true
  else if String.eqb ancestor "/" then has_prefix "/" descendant
  else has_prefix (ancestor +:+ "/") descendant.

(* @func internal/credisolation/isolation.go pathOverlapsSecrets *)
Definition pathOverlapsSecrets (p : string) : bool :=
  let secrets := GuestSecretsDir in
  let alt := "/run/secrets/daax" in
  isAncestorOrSame p secrets || isAncestorOrSame secrets p || isAncestorOrSame p alt || isAncestorOrSame alt p.

Definition nul : ascii := "000".

(* @func internal/credisolation/isolation.go guardOne *)
Definition guardOne (m : MountSpec) : option error :=
  let target := ms_target m in
  if String.eqb target "" then None
  else if contains_any [nul] target then Some (Errorf "%w: %q" [AWrap (ErrorsNew ErrInvalidMountTarget); AStr target])
  else if negb (has_prefix "/" target) then Some (Errorf "%w: %q" [AWrap (ErrorsNew ErrInvalidMountTarget); AStr target])
  else
    let clean := path_clean target in
    if negb (pathOverlapsSecrets clean) then None
    else
      let mtype := to_lower (ms_type m) in
      if String.eqb mtype "tmpfs" && String.eqb (ms_source m) "" then None
      else Some (Errorf "%w: target %q (type=%q, source=%q) overlaps %s"
        [AWrap (ErrorsNew ErrSharedSecretsMount); AStr clean; AStr mtype; AStr (ms_source m); AStr GuestSecretsDir]).

Fixpoint guard_loop (i : Z) (specs : list MountSpec) : option error :=
  match specs with
  | [] => None
  | m :: specs =>
      match guardOne m with
      | Some err => Some (Errorf "mount[%d]: %w" [AInt i; AWrap err])
      | None => guard_loop (i + 1) specs
      end
  end.

(* @func internal/credisolation/isolation.go GuardMounts *)
Definition GuardMounts (specs : list MountSpec) : option error := guard_loop 0 specs.

(** * Identities *)

(* @type internal/credisolation/isolation.go VMIdentity *)
Record VMIdentity : Type := mkIdentity { id_vm : string; id_spiffe : string }.

(** [seenVM], [seenSpiffe] (with the VM of each) and [withSpiffe] as the loop has
    them. *)
Fixpoint identities_loop (ids : list VMIdentity) (seenVM : list string) (seenSpiffe : list (string * string))
    (withSpiffe : Z) : result (option message * Z) :=
  match ids with
  | [] => Ok (None, withSpiffe)
  | id :: ids =>
      match ValidateVMID (id_vm id) with
      | Some err => Err err
      | None =>
          if existsb (String.eqb (id_vm id)) seenVM then
            Ok (Some (Sprintf "duplicate VM identifier %q" [AStr (id_vm id)]), withSpiffe)
          else
            let seenVM := id_vm id :: seenVM in
            if String.eqb (id_spiffe id) "" then identities_loop ids seenVM seenSpiffe withSpiffe
            else match List.find (λ p, String.eqb (fst p) (id_spiffe id)) seenSpiffe with
            | Some (_, other) =>
                Ok (Some (Sprintf "VMs %q and %q share SPIFFE ID %q" [AStr other; AStr (id_vm id); AStr (id_spiffe id)]), withSpiffe)
            | None => identities_loop ids seenVM ((id_spiffe id, id_vm id) :: seenSpiffe) (withSpiffe + 1)
            end
      end
  end.

(* @func internal/credisolation/isolation.go VerifyDistinctIdentities *)
Definition VerifyDistinctIdentities (ids : list VMIdentity) : VerifyResult * option error :=
  let n := Z.of_nat (length ids) in
  match identities_loop ids [] [] 0 with
  | Err err => (mkVerify "identity-distinctness" false (Text ""), Some err)
  | Ok (Some detail, _) => (mkVerify "identity-distinctness" false detail, None)
  | Ok (None, withSpiffe) =>
      (mkVerify "identity-distinctness" true
        (Sprintf "%d VMs, identifiers unique; %d carry a distinct SPIFFE ID (%d without)"
          [AInt n; AInt withSpiffe; AInt (n - withSpiffe)]), None)
  end.

(** * The directory of the store *)

(** What [os.Lstat] gives: the bits of [fs.FileMode] and the owner, where the
    platform has one. *)
Record file_info : Type := mkFileInfo { fi_mode : Z; fi_owner : option (Z * Z) }.

Definition ModeDir : Z := Z.shiftl 1 31.
Definition ModeSymlink : Z := Z.shiftl 1 27.
Definition ModeSetuid : Z := Z.shiftl 1 23.
Definition ModeSetgid : Z := Z.shiftl 1 22.
Definition ModeSticky : Z := Z.shiftl 1 20.

(* @func internal/credisolation/owner_unix.go statOwner *)
Definition statOwner (info : file_info) : Z * Z * bool :=
  match fi_owner info with Some (uid, gid) => (uid, gid, true) | None => (0, 0, false)%Z end.

(* @func internal/credisolation/isolation.go requiredRootOwnerFailure *)
Definition requiredRootOwnerFailure (p : string) (uid gid : Z) (ok : bool) : option message :=
  if negb ok then Some (Sprintf "%s ownership could not be determined; cannot verify required root:root" [AStr p])
  else if negb (uid =? RequiredOwnerUID)%Z || negb (gid =? RequiredOwnerGID)%Z then
    Some (Sprintf "%s owner %d:%d != required 0:0" [AStr p; AInt uid; AInt gid])
  else None.

(* @func internal/credisolation/isolation.go VerifyDirPerms *)
Definition VerifyDirPerms (p : string) (lstat : result file_info) (requireRoot : bool) : VerifyResult * option error :=
  let fail detail := (mkVerify "store-perms" false detail, None) in
  match lstat with
  | Err err => (mkVerify "store-perms" false (Text ""), Some (Errorf "lstat credential store %q: %w" [AStr p; AWrap err]))
  | Ok info =>
      let special := Z.land (fi_mode info) (Z.lor ModeSetuid (Z.lor ModeSetgid ModeSticky)) in
      let mode := Z.land (fi_mode info) 511 in
      if negb (Z.land (fi_mode info) ModeSymlink =? 0)%Z then
        fail (Sprintf "%s is a symlink; the credential store must be a real directory" [AStr p])
      else if (Z.land (fi_mode info) ModeDir =? 0)%Z then fail (Sprintf "%s is not a directory" [AStr p])
      else if negb (special =? 0)%Z then
        fail (Sprintf "%s has special mode bits %v set (require plain 0700)" [AStr p; AInt special])
      else if negb (Z.land mode 63 =? 0)%Z then
        fail (Sprintf "%s mode %#o grants group/world access (require 0700)" [AStr p; AInt mode])
      else if negb (mode =? RequiredDirMode)%Z then fail (Sprintf "%s mode %#o != required 0700" [AStr p; AInt mode])
      else
        let pass ownerDetail := (mkVerify "store-perms" true (Sprintf "%s mode 0700%s" [AStr p; AStr ownerDetail]), None) in
        if requireRoot then
          let '(uid, gid, ok) := statOwner info in
          match requiredRootOwnerFailure p uid gid ok with
          | Some detail => fail detail
          | None => pass " owner 0:0"
          end
        else pass ""
  end.

(** * The sweep *)

(* @type internal/credisolation/isolation.go HostCheckOptions *)
Record HostCheckOptions : Type := mkOptions {
  ho_dir : string; ho_check_dir : bool; ho_require_root : bool; ho_mounts : list MountSpec; ho_identities : list VMIdentity }.

(* @func internal/credisolation/isolation.go policySelfCheck *)
Definition policySelfCheck : VerifyResult :=
  let res pass detail := mkVerify "policy-contract" pass detail in
  match GuardMounts [mkSpec GuestSecretsDir "/host/leak" "bind"] with
  | None => res false (Text "guard admitted a host-backed mount over the credential store")
  | Some _ =>
      match GuardMounts [mkSpec GuestSecretsDir "" "tmpfs"] with
      | Some err => res false (Sprintf "guard rejected a private tmpfs store: %v" [AShow err])
      | None => res true (Text "guard denies host-backed store mounts and admits private tmpfs")
      end
  end.

(** A check that could not run is a failed one. *)
Definition settled (name : string) (r : VerifyResult * option error) : VerifyResult :=
  match snd r with Some err => mkVerify name false err | None => fst r end.

Definition store_dir (opts : HostCheckOptions) : string :=
  if String.eqb (ho_dir opts) "" then GuestSecretsDir else ho_dir opts.

(* @func internal/credisolation/isolation.go VerifyHost *)
Definition VerifyHost (lstat : string → result file_info) (opts : HostCheckOptions) : Report :=
  let r := mkReport [policySelfCheck] 0 in
  let add res r := mkReport (rp_results r ++ [res]) (rp_subjects r + 1) in
  let r := if ho_check_dir opts then
      let dir := store_dir opts in
      add (settled "store-perms" (VerifyDirPerms dir (lstat dir) (ho_require_root opts))) r
    else r in
  let r := match ho_mounts opts with
    | [] => r
    | mounts =>
        add (match GuardMounts mounts with
             | Some err => mkVerify "mount-guard" false err
             | None => mkVerify "mount-guard" true
                 (Sprintf "%d proposed mounts respect the credential store" [AInt (Z.of_nat (length mounts))])
             end) r
    end in
  match ho_identities opts with
  | [] => r
  | ids => add (settled "identity-distinctness" (VerifyDistinctIdentities ids)) r
  end.

(** * The response to an access *)

(* @type internal/credisolation/monitor.go AccessAttempt *)
Record AccessAttempt : Type := mkAttempt { at_requesting : string; at_target : string; at_path : string; at_when : option Z }.

(** An audit record: the event, the VMs and whether their identifiers are valid,
    the path, the time, and in the second one what came of the termination. *)
Record audit : Type := mkAudit {
  au_event : string; au_requesting : string; au_requesting_valid : bool; au_target : string; au_target_valid : bool;
  au_path : string; au_time : Z; au_outcome : option (bool * option error) }.

(** The records and the terminations, in order. *)
Inductive response : Type := Audit (a : audit) | Terminate (vmID : string).

Definition is_none {A} (o : option A) : bool := match o with None => true | Some _ => false end.

(** [terminate]: [None] without a terminator; [now]: [time.Now].  A zero time is
    [None]. *)
(* @func internal/credisolation/monitor.go HandleCrossVMAttempt *)
Definition HandleCrossVMAttempt (terminate : option (string → option error)) (now : Z) (a : AccessAttempt) :
    list response * error :=
  let when := default now (at_when a) in
  let reqValid := is_none (ValidateVMID (at_requesting a)) in
  let targetValid := is_none (ValidateVMID (at_target a)) in
  let entry event outcome := Audit (mkAudit event (at_requesting a) reqValid (at_target a) targetValid (at_path a) when outcome) in
  let termErr := match terminate with Some t => t (at_requesting a) | None => None end in
  let terminated := match terminate with Some _ => is_none termErr | None => false end in
  ([entry "cred_isolation.cross_vm_access_attempt" None]
   ++ (match terminate with Some _ => [Terminate (at_requesting a)] | None => [] end)
   ++ [entry "cred_isolation.failsafe_response" (Some (terminated, termErr))],
   match termErr, terminate with
   | Some err, _ => Errorf "%w: terminate offending VM %q: %w" [AWrap (ErrorsNew ErrCrossVMAccess); AStr (at_requesting a); AWrap err]
   | None, None => Errorf "%w: VM %q attempted to access VM %q credentials (no terminator configured)"
       [AWrap (ErrorsNew ErrCrossVMAccess); AStr (at_requesting a); AStr (at_target a)]
   | None, Some _ => Errorf "%w: VM %q terminated after attempting to access VM %q credentials"
       [AWrap (ErrorsNew ErrCrossVMAccess); AStr (at_requesting a); AStr (at_target a)]
   end).

(** * The command *)

(** The report that is printed, whether the check of the directory was skipped, and
    the error that makes the exit status non-zero. *)
(* @func cmd/nanofuse/isolation.go runIsolationVerify *)
Definition runIsolationVerify (dir : string) (requireRoot strict : bool) (lstat : string → result file_info) :
    option (Report * bool) * option error :=
  if String.eqb (trim_space dir) "" then (None, Some (ErrorsNew "--secrets-dir must not be empty"))
  else if negb (String.eqb dir (trim_space dir)) then
    (None, Some (Errorf "--secrets-dir %q has leading or trailing whitespace; pass the exact path" [AStr dir]))
  else if negb (has_prefix "/" dir) then (None, Some (Errorf "--secrets-dir %q must be an absolute path" [AStr dir]))
  else
    let check_dir := match lstat dir with
      | Ok _ => true
      | Err err => if os_IsNotExist err then strict else true
      end in
    let report := VerifyHost lstat (mkOptions dir check_dir requireRoot [] []) in
    (Some (report, negb check_dir),
     if HasFailure report then Some (Errorf "credential isolation verification failed: %s" [AStr (StatusLine report)]) else None).

(** * Paths that reach the store *)

(** The names of the store: /var/run is a link to /run in a guest. *)
Definition store_names : list (list string) := [["var"; "run"; "secrets"; "daax"]; ["run"; "secrets"; "daax"]].

(** A path reaches the store if one of them is the other or lies above it. *)
Definition reaches_store (p : string) : Prop :=
  ∃ names, names ∈ store_names ∧ (path_elements p `prefix_of` names ∨ names `prefix_of` path_elements p).

Lemma isAncestorOrSame_render ea ed : Forall plain ea → Forall plain ed →
  isAncestorOrSame (path_render true ea) (path_render true ed) = true ↔ ea `prefix_of` ed.
Proof.
  intros Ha Hd. unfold isAncestorOrSame.
  destruct (String.eqb_spec (path_render true ea) (path_render true ed)) as [Heq|Hne].
  { split; [|done]. intros _. apply (f_equal path_elements) in Heq. rewrite !path_elements_render in Heq by done. by subst. }
  destruct ea as [|e ea].
  { change (path_render true []) with "/". cbn [String.eqb]. split; [intros _; apply prefix_nil|]. intros _. apply is_rooted_render. }
  destruct (String.eqb_spec (path_render true (e :: ea)) "/") as [Hs|_].
  { apply (f_equal path_elements) in Hs. by rewrite path_elements_render in Hs. }
  rewrite has_prefix_iff. split.
  - intros [r Hr]. rewrite string_app_assoc in Hr. change ("/" +:+ r) with (String slash r) in Hr.
    apply (f_equal (split_on slash)) in Hr. rewrite split_on_app_slash, (split_on_render (e :: ea)) in Hr by done.
    destruct ed as [|d ed]; [|rewrite split_on_render in Hr by done].
    + change (split_on slash (path_render true [])) with [""; ""] in Hr. cbn in Hr. injection Hr as He Hn.
      symmetry in Hn. apply app_eq_nil in Hn as [_ Hn]. by apply split_on_nonempty in Hn.
    + injection Hr as -> ->. by exists (split_on slash r).
  - intros [[|x l] ->]; [by rewrite app_nil_r in Hne|]. unfold path_render. rewrite join_append by done.
    exists (join "/" (x :: l)). by rewrite !string_app_assoc.
Qed.

Lemma pathOverlapsSecrets_spec p : is_rooted p = true →
  pathOverlapsSecrets (path_clean p) = true ↔ reaches_store p.
Proof.
  intros Hr. unfold pathOverlapsSecrets, path_clean. rewrite Hr.
  change GuestSecretsDir with (path_render true ["var"; "run"; "secrets"; "daax"]).
  change "/run/secrets/daax" with (path_render true ["run"; "secrets"; "daax"]).
  pose proof (path_elements_plain p Hr) as Hp.
  assert (Forall plain ["var"; "run"; "secrets"; "daax"] ∧ Forall plain ["run"; "secrets"; "daax"]) as [H1 H2]
    by (split; repeat constructor; done).
  rewrite !orb_true_iff, !isAncestorOrSame_render by done. unfold reaches_store, store_names. split.
  - assert (["var"; "run"; "secrets"; "daax"] ∈ store_names ∧ ["run"; "secrets"; "daax"] ∈ store_names) as [Hin1 Hin2].
    { unfold store_names. rewrite !elem_of_cons. tauto. }
    intros [[[H|H]|H]|H]; (eexists; split; [exact Hin1|tauto]) || (eexists; split; [exact Hin2|tauto]).
  - intros (names & Hn & H). rewrite !elem_of_cons, elem_of_nil in Hn.
    destruct Hn as [->|[->|[]]]; tauto.
Qed.

(** * The guard *)

(** What the guard lets through: no mount at all, or an absolute path without NUL
    that does not reach the store, unless it is a file system in memory of its own. *)
Definition admissible (m : MountSpec) : Prop :=
  ms_target m = "" ∨
  contains_any [nul] (ms_target m) = false ∧ is_rooted (ms_target m) = true ∧
  (reaches_store (ms_target m) → to_lower (ms_type m) = "tmpfs" ∧ ms_source m = "").

Lemma guardOne_spec m : guardOne m = None ↔ admissible m.
Proof.
  unfold guardOne, admissible. destruct (String.eqb_spec (ms_target m) "") as [Ht|Ht]; [tauto|].
  destruct (contains_any [nul] (ms_target m)); [split; [done|intros [?|[? _]]; done]|].
  fold (is_rooted (ms_target m)). destruct (is_rooted (ms_target m)) eqn:Hr; cbn [negb]; [|split; [done|intros [?|(_ & ? & _)]; done]].
  pose proof (pathOverlapsSecrets_spec _ Hr) as Ho. destruct (pathOverlapsSecrets _); cbn [negb].
  - destruct (String.eqb_spec (to_lower (ms_type m)) "tmpfs"), (String.eqb_spec (ms_source m) ""); cbn [andb];
      (split; [intros; right; tauto || done|]); try done; intros [?|(_ & _ & H)]; try done; destruct H; try done; by apply Ho.
  - split; [|done]. intros _. right. split_and!; [done|done|]. intros H. apply Ho in H. done.
Qed.

Lemma guard_loop_spec i specs : guard_loop i specs = None ↔ Forall admissible specs.
Proof.
  revert i. induction specs as [|m specs IH]; intros i; cbn [guard_loop]; [by split|].
  rewrite Forall_cons, <- guardOne_spec, <- (IH (i + 1)%Z). destruct (guardOne m); [split; [done|by intros [? _]]|tauto].
Qed.

(** * Identities *)

(** Identifiers are valid and differ, and so do the SPIFFE ids that are set. *)
Definition distinct_identities (ids : list VMIdentity) : Prop :=
  Forall (λ id, ValidateVMID (id_vm id) = None) ids ∧ NoDup (id_vm <$> ids) ∧
  NoDup (filter (λ s, s ≠ "") (id_spiffe <$> ids)).

Lemma find_fst_None (s : string) (l : list (string * string)) :
  List.find (λ p, String.eqb (fst p) s) l = None ↔ s ∉ (fst <$> l).
Proof.
  induction l as [|[k v] l IH]; cbn; [split; [intros _; apply not_elem_of_nil|done]|].
  rewrite not_elem_of_cons. destruct (String.eqb_spec k s) as [->|]; [split; [done|intros []; done]|].
  rewrite IH. naive_solver.
Qed.

Lemma existsb_eqb_false (s : string) l : existsb (String.eqb s) l = false ↔ s ∉ l.
Proof.
  induction l as [|x l IH]; cbn; [split; [intros _; apply not_elem_of_nil|done]|].
  rewrite not_elem_of_cons, orb_false_iff, IH. by rewrite String.eqb_neq.
Qed.

Definition fresh_for (ids : list VMIdentity) (vms : list string) (spiffe : list (string * string)) : Prop :=
  (∀ id, id ∈ ids → (id_vm id ∉ vms) ∧ (id_spiffe id ≠ "" → id_spiffe id ∉ fst <$> spiffe)) ∧ distinct_identities ids.

Lemma fresh_for_cons id ids vms spiffe :
  fresh_for (id :: ids) vms spiffe ↔
  ValidateVMID (id_vm id) = None ∧ (id_vm id ∉ vms) ∧
  (if String.eqb (id_spiffe id) "" then fresh_for ids (id_vm id :: vms) spiffe
   else (id_spiffe id ∉ fst <$> spiffe) ∧ fresh_for ids (id_vm id :: vms) ((id_spiffe id, id_vm id) :: spiffe)).
Proof.
  unfold fresh_for, distinct_identities. rewrite !fmap_cons, Forall_cons, NoDup_cons.
  destruct (String.eqb_spec (id_spiffe id) "") as [He|He].
  - rewrite filter_cons_False by (intros H; by apply H). setoid_rewrite elem_of_cons.
    generalize (fst <$> spiffe). intros known. setoid_rewrite list_elem_of_fmap. naive_solver.
  - rewrite filter_cons_True by done. rewrite NoDup_cons, list_elem_of_filter. setoid_rewrite elem_of_cons.
    cbn [fst]. generalize (fst <$> spiffe). intros known. setoid_rewrite list_elem_of_fmap. split.
    + intros (H1 & [H2 H3] & [H4 H5] & H6 & H7).
      destruct (H1 id (or_introl eq_refl)) as [Hv0 Hs0]. split_and!; [done|done|by apply Hs0| |done|done|done].
      intros id0 Hin. destruct (H1 id0) as [Hv Hs]; [by right|]. split; [intros [?|?]; [apply H4; eauto|done]|].
      intros Hne [?|?]; [apply H6; eauto|by apply Hs].
    + intros (H1 & H2 & H3 & H4 & H5 & H6 & H7). split_and!; [|done|done| |done| |done].
      * intros id0 [->|Hin]; [done|]. destruct (H4 id0 Hin) as [Hv Hs]. split; [tauto|]. intros Hne Hk. apply (Hs Hne). by right.
      * intros (x & Hx & Hin). destruct (H4 x Hin) as [Hv _]. apply Hv. by left.
      * intros [_ (x & Hx & Hin)]. destruct (H4 x Hin) as [_ Hs]. apply Hs; [by rewrite <- Hx|by left].
Qed.

Lemma identities_loop_spec ids vms spiffe n :
  (∃ k, identities_loop ids vms spiffe n = Ok (None, k)) ↔ fresh_for ids vms spiffe.
Proof.
  revert vms spiffe n. induction ids as [|id ids IH]; intros vms spiffe n; cbn [identities_loop].
  { split; [|by eexists]. intros _. split; [by intros ? ?%not_elem_of_nil|]. split_and!; constructor. }
  rewrite fresh_for_cons. destruct (ValidateVMID (id_vm id)); [split; [by intros [? ?]|by intros [? _]]|].
  pose proof (existsb_eqb_false (id_vm id) vms) as Hv.
  destruct (existsb _ vms); [split; [by intros [? ?]|intros (_ & H & _); by apply Hv in H]|].
  destruct (String.eqb (id_spiffe id) ""); [rewrite IH; tauto|].
  pose proof (find_fst_None (id_spiffe id) spiffe) as Hf.
  destruct (List.find _ spiffe) as [[? ?]|]; [split; [by intros [? ?]|intros (_ & _ & H & _); by apply Hf in H]|].
  rewrite IH. tauto.
Qed.

Lemma fresh_for_nothing ids : fresh_for ids [] [] ↔ distinct_identities ids.
Proof.
  split; [by intros [_ ?]|]. intros H. split; [|done]. intros id _. split; [apply not_elem_of_nil|]. intros _. apply not_elem_of_nil.
Qed.

Lemma VerifyDistinctIdentities_spec ids :
  vr_pass (settled "identity-distinctness" (VerifyDistinctIdentities ids)) = true ↔ distinct_identities ids.
Proof.
  rewrite <- fresh_for_nothing, <- (identities_loop_spec ids [] [] 0). unfold VerifyDistinctIdentities.
  destruct (identities_loop ids [] [] 0) as [[[detail|] k]|err]; cbn; (split; [|intros [? ?]]); try done. by eexists.
Qed.

(** * The directory *)

(** A directory proper, whose mode is 0700 without special bits, of root if that is
    asked for. *)
Definition private_dir (requireRoot : bool) (r : result file_info) : Prop :=
  ∃ info, r = Ok info ∧
    Z.testbit (fi_mode info) 31 = true ∧
    (∀ i, i ∈ [27; 23; 22; 20]%Z → Z.testbit (fi_mode info) i = false) ∧
    (fi_mode info mod 512 = 448)%Z ∧
    (requireRoot = true → fi_owner info = Some (0, 0)%Z).

Lemma land_bit_zero (a i : Z) : (0 ≤ i)%Z → (Z.land a (Z.shiftl 1 i) =? 0)%Z = negb (Z.testbit a i).
Proof.
  intros Hi. destruct (Z.testbit a i) eqn:Hb; cbn [negb].
  - apply Z.eqb_neq. intros H. apply (f_equal (λ x, Z.testbit x i)) in H.
    rewrite Z.land_spec, Hb, Z.shiftl_spec, Z.sub_diag, Z.bits_0 in H by done. done.
  - apply Z.eqb_eq, Z.bits_inj'. intros j Hj. rewrite Z.land_spec, Z.bits_0, Z.shiftl_spec by done.
    destruct (Z.eq_dec i j) as [->|Hne]; [by rewrite Hb|]. destruct (Z.lt_ge_cases i j).
    + rewrite (Z.bits_above_log2 1 (j - i)) by (cbn; lia). apply andb_false_r.
    + rewrite (Z.testbit_neg_r 1 (j - i)) by lia. apply andb_false_r.
Qed.

Lemma land_lor_zero (a b c : Z) : (Z.land a (Z.lor b c) =? 0)%Z = (Z.land a b =? 0)%Z && (Z.land a c =? 0)%Z.
Proof.
  rewrite Z.land_lor_distr_r. apply eq_true_iff_eq. rewrite andb_true_iff, !Z.eqb_eq. apply Z.lor_eq_0_iff.
Qed.

Lemma VerifyDirPerms_spec p r requireRoot :
  vr_pass (settled "store-perms" (VerifyDirPerms p r requireRoot)) = true ↔ private_dir requireRoot r.
Proof.
  unfold VerifyDirPerms, private_dir. destruct r as [info|err]; [|split; [done|by intros (? & ? & _)]].
  unfold ModeSymlink, ModeDir, ModeSetuid, ModeSetgid, ModeSticky. cbn zeta.
  rewrite !land_lor_zero, !land_bit_zero by done.
  change 511%Z with (Z.ones 9). rewrite Z.land_ones by done.
  assert (∀ P : Prop, (∃ info', Ok info = Ok info' ∧ P) ↔ P) as _ by (intros P; split; [by intros (? & _ & ?)|by eexists]).
  transitivity (Z.testbit (fi_mode info) 31 = true ∧
    (Z.testbit (fi_mode info) 27 = false ∧ Z.testbit (fi_mode info) 23 = false ∧
     Z.testbit (fi_mode info) 22 = false ∧ Z.testbit (fi_mode info) 20 = false) ∧
    (fi_mode info mod 512 = 448)%Z ∧ (requireRoot = true → fi_owner info = Some (0, 0)%Z)).
  - unfold settled. set (mode := (fi_mode info mod 2 ^ 9)%Z). change (fi_mode info mod 512)%Z with mode.
    destruct (Z.testbit (fi_mode info) 27); [cbn; naive_solver|]. destruct (Z.testbit (fi_mode info) 31); [|cbn; naive_solver].
    destruct (Z.testbit (fi_mode info) 23); [cbn; naive_solver|]. destruct (Z.testbit (fi_mode info) 22); [cbn; naive_solver|].
    destruct (Z.testbit (fi_mode info) 20); [cbn; naive_solver|]. cbn [negb andb].
    unfold RequiredDirMode. destruct (Z.eqb_spec mode 448) as [->|Hm].
    + change (Z.land 448 63 =? 0)%Z with true. cbn [negb].
      destruct requireRoot; [|cbn; naive_solver]. unfold statOwner, requiredRootOwnerFailure, RequiredOwnerUID, RequiredOwnerGID.
      destruct (fi_owner info) as [[uid gid]|]; [|cbn; naive_solver].
      destruct (Z.eqb_spec uid 0) as [->|], (Z.eqb_spec gid 0) as [->|]; cbn; naive_solver.
    + destruct (negb _); cbn; naive_solver.
  - split.
    + intros (H1 & (H2 & H3 & H4 & H5) & H6). exists info. split_and!; [done|done| |apply H6|apply H6].
      intros i. rewrite !elem_of_cons, elem_of_nil. naive_solver.
    + intros (? & [= <-] & H1 & H2 & H3 & H4). split_and!; try done; apply H2; rewrite !elem_of_cons; tauto.
Qed.

(** * The claims *)

(** mounts are accepted exactly when each is an absolute path (or empty) that
    has no NUL and, if it is the credential store, lies below it or above it under
    either of its names, is a file system in memory without a source. *)
Theorem GuardMounts_spec specs : GuardMounts specs = None ↔ Forall admissible specs.
Proof. apply guard_loop_spec. Qed.

(** What a sweep that passes has established. *)
Definition host_isolated (lstat : string → result file_info) (opts : HostCheckOptions) : Prop :=
  (ho_check_dir opts = true → private_dir (ho_require_root opts) (lstat (store_dir opts))) ∧
  Forall admissible (ho_mounts opts) ∧ distinct_identities (ho_identities opts).

Definition something_to_check (opts : HostCheckOptions) : Prop :=
  ho_check_dir opts = true ∨ ho_mounts opts ≠ [] ∨ ho_identities opts ≠ [].

Definition mount_check (mounts : list MountSpec) : VerifyResult :=
  match GuardMounts mounts with
  | Some err => mkVerify "mount-guard" false err
  | None => mkVerify "mount-guard" true
      (Sprintf "%d proposed mounts respect the credential store" [AInt (Z.of_nat (length mounts))])
  end.

(** The checks of real subjects in a sweep. *)
Definition subject_checks (lstat : string → result file_info) (opts : HostCheckOptions) : list VerifyResult :=
  (if ho_check_dir opts then
     [settled "store-perms" (VerifyDirPerms (store_dir opts) (lstat (store_dir opts)) (ho_require_root opts))] else []) ++
  (match ho_mounts opts with [] => [] | mounts => [mount_check mounts] end) ++
  (match ho_identities opts with [] => [] | ids => [settled "identity-distinctness" (VerifyDistinctIdentities ids)] end).

Lemma VerifyHost_checks lstat opts :
  VerifyHost lstat opts = mkReport (policySelfCheck :: subject_checks lstat opts) (Z.of_nat (length (subject_checks lstat opts))).
Proof. unfold VerifyHost, subject_checks. by destruct (ho_check_dir opts), (ho_mounts opts), (ho_identities opts). Qed.

Lemma mount_check_spec mounts : vr_pass (mount_check mounts) = true ↔ Forall admissible mounts.
Proof. rewrite <- guard_loop_spec with (i := 0%Z). fold (GuardMounts mounts). unfold mount_check. by destruct (GuardMounts mounts). Qed.

Lemma forallb_app_iff {A} (f : A → bool) l l' : forallb f (l ++ l') = true ↔ forallb f l = true ∧ forallb f l' = true.
Proof. rewrite forallb_app. apply andb_true_iff. Qed.

Lemma subject_checks_pass lstat opts : forallb vr_pass (subject_checks lstat opts) = true ↔ host_isolated lstat opts.
Proof.
  unfold subject_checks, host_isolated. rewrite !forallb_app_iff, <- VerifyDirPerms_spec with (p := store_dir opts).
  assert (distinct_identities []) as Hnil by (split_and!; constructor).
  assert (forallb vr_pass (match ho_mounts opts with [] => [] | mounts => [mount_check mounts] end) = true
    ↔ Forall admissible (ho_mounts opts)) as ->.
  { rewrite <- mount_check_spec. destruct (ho_mounts opts); [done|]. cbn [forallb]. by rewrite andb_true_r. }
  assert (forallb vr_pass (match ho_identities opts with [] => [] | ids => [settled "identity-distinctness" (VerifyDistinctIdentities ids)] end) = true
    ↔ distinct_identities (ho_identities opts)) as ->.
  { rewrite <- VerifyDistinctIdentities_spec. destruct (ho_identities opts); [done|]. cbn [forallb]. by rewrite andb_true_r. }
  destruct (ho_check_dir opts); cbn [forallb]; rewrite ?andb_true_r; intuition congruence.
Qed.

(** the sweep over a host passes exactly when there was something to check and
    all of it holds: the store is a directory of mode 0700 (of root, if asked), the
    mounts are admissible, and no identifier or SPIFFE id is shared. *)
Theorem VerifyHost_pass lstat opts :
  Pass (VerifyHost lstat opts) = true ↔ something_to_check opts ∧ host_isolated lstat opts.
Proof.
  unfold Pass, allPass. rewrite VerifyHost_checks, <- subject_checks_pass, andb_true_iff. cbn [rp_results rp_subjects forallb].
  change (vr_pass policySelfCheck) with true. cbn [andb]. apply and_iff_compat_r. rewrite Z.ltb_lt.
  unfold subject_checks, something_to_check. destruct (ho_check_dir opts), (ho_mounts opts), (ho_identities opts); cbn;
    (split; [intros H; first [lia|by left|right; by left|right; by right]|intros [?|[?|?]]; try done; lia]).
Qed.

(** ** Examples *)

Example guard_ex :
  GuardMounts [mkSpec "/var/run/secrets/daax/../daax/key" "/host" "bind"; mkSpec "" "" "bind"] ≠ None ∧
  GuardMounts [mkSpec "/var" "/host" "volume"] ≠ None ∧ GuardMounts [mkSpec "/run/secrets" "" "TMPFS"] = None ∧
  GuardMounts [mkSpec "/var/run/secrets/daax2" "/host" "bind"; mkSpec "/srv" "/host" "bind"] = None.
Proof. vm_compute. done. Qed.

(** The guard stands beside the program: what a request may mount is checked by
    [NormalizeAndValidateMounts] alone, which accepts a directory of the host over
    the credential store. *)
Example accepted_mount_over_the_store :
  NormalizeAndValidateMounts [mkMount "/host/leak" GuestSecretsDir "bind" false] = Ok [mkMount "/host/leak" GuestSecretsDir "bind" false] ∧
  GuardMounts [mkSpec GuestSecretsDir "/host/leak" "bind"] ≠ None.
Proof. vm_compute. done. Qed.

(** A cross-VM access is answered by exactly one termination, of the VM that made
    it, between two records; whatever the identifiers are, the answer is an error. *)
Lemma HandleCrossVMAttempt_fails_safe terminate now a :
  omap (λ r, match r with Terminate id => Some id | Audit _ => None end) (fst (HandleCrossVMAttempt (Some terminate) now a))
    = [at_requesting a] ∧
  errors_Is (snd (HandleCrossVMAttempt (Some terminate) now a)) ErrCrossVMAccess = true.
Proof. unfold HandleCrossVMAttempt. cbn zeta. by destruct (terminate (at_requesting a)). Qed.

(** Access is granted to a VM's own store and to no other. *)
Lemma Authorize_spec a b :
  (Authorize a b = None ↔ a = b ∧ ValidateVMID a = None) ∧
  (∀ e, Authorize a b = Some e → errors_Is e ErrCrossVMAccess = true).
Proof.
  unfold Authorize. destruct (ValidateVMID a) eqn:Ha; [split; [split; [done|naive_solver]|by intros ? [= <-]]|].
  destruct (ValidateVMID b) eqn:Hb; [split; [split; [done|intros [-> _]; congruence]|by intros ? [= <-]]|].
  destruct (String.eqb_spec a b); cbn; (split; [|by intros ? [= <-]]); naive_solver.
Qed.
