(* ===== verification/Images.v ===== *)
(** Images and their pull jobs (src/internal/api/image_handlers.go), and the
    handlers of backups, which are stubs (src/internal/api/backup_handlers.go).

    A pull is a job: the request stores it and starts a goroutine that takes it
    through its states.  The reports of progress are written by a second goroutine,
    which has ended before the final state is written. *)

From S2P Require Import Prelude GoStrings Json Types Ipam Storage Server.

(** * Listing *)

(** The key of an image: its digest, or else its first tag. *)
Definition image_key (i : Image) : string :=
  if String.eqb (img_digest i) "" then match img_tags i with t :: _ => t | [] => "" end else img_digest i.

(** [seen]: the keys that are not empty. *)
Fixpoint merge_new (seen : list string) (runtimeImages : list Image) : list Image :=
  match runtimeImages with
  | [] => []
  | i :: l =>
      let key := image_key i in
      if String.eqb key "" then i :: merge_new seen l
      else if existsb (String.eqb key) seen then merge_new seen l
      else i :: merge_new (key :: seen) l
  end.

(* @func internal/api/image_handlers.go mergeRuntimeImages *)
Definition mergeRuntimeImages (dbImages runtimeImages : list Image) : list Image :=
  let seen := List.filter (λ k, negb (String.eqb k "")) (image_key <$> dbImages) in
  dbImages ++ merge_new seen runtimeImages.

Section Images.
Context `{Env}.

Definition method_not_allowed : response := WriteError 405 ErrInvalidRequest (Text "Method not allowed") [].

(** [provider]: what the runtime lists, when it provides images. *)
(* @func internal/api/image_handlers.go handleImages *)
Definition handleImages (is_get : bool) (provider : option (result (list Image))) : M response :=
  if negb is_get then ret method_not_allowed
  else
    let* r := db_rows ListImages in
    ret match r with
    | Err _ => internal_error (Text "Failed to list images")
    | Ok images =>
        writeJSON 200 (BImages match provider with
        | Some (Ok runtimeImages) => mergeRuntimeImages images runtimeImages
        | _ => images
        end)
    end.

(* @func internal/api/image_handlers.go handleGetImage *)
Definition handleGetImage (digest : string) : M response :=
  let* r := db_query (λ f, GetImage f digest) in
  ret match r with
  | Err _ => internal_error (Text "Failed to get image")
  | Ok None => WriteError 404 ErrImageNotFound (Sprintf "Image with digest '%s' not found" [AStr digest]) [("digest", AStr digest)]
  | Ok (Some image) => writeJSON 200 (BImage image)
  end.

(* @func internal/api/image_handlers.go handleGetImageByPath *)
Definition handleGetImageByPath (digest : string) : M response :=
  if String.eqb digest "" then ret (WriteError 400 ErrInvalidRequest (Text "Image digest is required") []) else handleGetImage digest.

(** * Deleting *)

Definition using_vms (digest : string) (vms : list VM) : list VM := List.filter (λ vm, String.eqb (vm_digest vm) digest) vms.

(* @func internal/api/image_handlers.go handleDeleteImage *)
Definition handleDeleteImage (digest : string) : M response :=
  let* r := db_rows (λ q, ListVMs q "") in
  match r with
  | Err _ => ret (internal_error (Text "Failed to check image usage"))
  | Ok vms =>
      let usingVMs := vm_name <$> using_vms digest vms in
      if (0 <? length usingVMs)%nat then
        ret (WriteError 409 ErrResourceInUse (Sprintf "Image is in use by %d VMs" [AInt (Z.of_nat (length usingVMs))])
          [("vms", AStr (join " " usingVMs)); ("count", AInt (Z.of_nat (length usingVMs)))])
      else
        let* e := db_exec (λ f, DeleteImage f digest) in
        ret match e with
        | Some _ => internal_error (Text "Failed to delete image")
        | None => mkResp 204 BNone
        end
  end.

(* @func internal/api/image_handlers.go handleDeleteImageByPath *)
Definition handleDeleteImageByPath (digest : string) : M response :=
  if String.eqb digest "" then ret (WriteError 400 ErrInvalidRequest (Text "Image digest is required") []) else handleDeleteImage digest.

(** * Pulling *)

(** [req]: the decoded body; the id of the job that has been started. *)
(* @func internal/api/image_handlers.go handleImagePull *)
Definition handleImagePull (is_post : bool) (req : option string) : M (response * option string) :=
  if negb is_post then ret (method_not_allowed, None)
  else match req with
  | None => ret (WriteError 400 ErrInvalidRequest (Text "Invalid request body") [], None)
  | Some imageRef =>
      if String.eqb imageRef "" then ret (WriteError 400 ErrInvalidRequest (Text "image_ref is required") [], None)
      else
        let* id := ask env_uuid in
        let jobID := "job-" +:+ id in
        let* t := now in
        let* e := db_exec (λ f, CreatePullJob f (mkJob jobID imageRef PullJobPending None None t None None)) in
        match e with
        | Some _ => ret (internal_error (Text "Failed to create pull job"), None)
        | None =>
            ret (writeJSON 202 (BJson (enc_struct
              [ f_str "job_id" jobID; f_str "image_ref" imageRef; f_str "state" "pending"; f_str "status_url" ("/images/jobs/" +:+ jobID) ])),
              Some jobID)
        end
  end.

Definition with_state (job : ImagePullJob) (s : PullJobState) : ImagePullJob :=
  mkJob (j_id job) (j_ref job) s (j_progress job) (j_error job) (j_created job) (j_completed job) (j_result job).
Definition with_progress (job : ImagePullJob) (p : PullProgress) : ImagePullJob :=
  mkJob (j_id job) (j_ref job) (j_state job) (Some p) (j_error job) (j_created job) (j_completed job) (j_result job).

Definition update_job (job : ImagePullJob) : M (option error) := db_exec (λ f, UpdatePullJob f job).

(** How a goroutine ends: a panic ends the daemon with it. *)
Inductive goroutine_end : Type := Returned | Crashed.

(** The goroutine that writes the progress: a failed write is logged. *)
(* @src internal/api/image_handlers.go:211-226 executePullJob *)
Fixpoint report_progress (job : ImagePullJob) (reports : list PullProgress) : M ImagePullJob :=
  match reports with
  | [] => ret job
  | p :: reports' =>
      let job := with_progress job p in
      update_job job ;;;
      report_progress job reports'
  end.

(* @src internal/api/image_handlers.go:285-296 executePullJob *)
Definition fail_job (job : ImagePullJob) (message : string) : M goroutine_end :=
  let* t := now in
  update_job (mkJob (j_id job) (j_ref job) PullJobFailed (j_progress job) (Some message) (j_created job) (Some t) (j_result job)) ;;;
  ret Returned.

(* @src internal/api/image_handlers.go:315-322 executePullJob *)
Definition complete_job (job : ImagePullJob) (digest : string) : M goroutine_end :=
  let* t := now in
  update_job (mkJob (j_id job) (j_ref job) PullJobCompleted (j_progress job) (j_error job) (j_created job) (Some t) (Some digest)) ;;;
  ret Returned.

(** [error_text]: [err.Error()].  [pull]: the reports and the outcome of the
    registry client, used when the runtime provides no images. *)
Section Pull.
Context (error_text : error → string) (pull : nat → string → list PullProgress * result Image).

(** Save what has been pulled. *)
(* @src internal/api/image_handlers.go:300-313 executePullJob *)
Definition save_image (save : option error → Image → State DB (option error)) (job : ImagePullJob) (r : result Image) : M goroutine_end :=
  match r with
  | Err err => fail_job job (error_text err)
  | Ok image =>
      let* e := db_exec (λ f, save f image) in
      match e with
      | Some err => fail_job job ("Failed to save image: " +:+ error_text err)
      | None => complete_job job (img_digest image)
      end
  end.

(* @func internal/api/image_handlers.go executePullJob *)
Definition executePullJob (jobID imageRef : string) : M goroutine_end :=
  let* r := db_query (λ f, GetPullJob f jobID) in
  match r with
  | Err _ => ret Returned
  | Ok None => ret Crashed                 (* [job] is nil *)
  | Ok (Some job) =>
      let job := with_state job PullJobInProgress in
      let* e := update_job job in
      match e with
      | Some _ => ret Returned
      | None =>
          match env_image_provider with
          | Some resolve =>
              let* r := ask (λ n, resolve n imageRef) in
              match r with
              | Ok None => ret Crashed     (* [image] is nil *)
              | Ok (Some image) => save_image UpsertImage job (Ok image)
              | Err err => save_image UpsertImage job (Err err)
              end
          | None =>
              let* ' (reports, r) := ask (λ n, pull n imageRef) in
              let* job := report_progress job reports in
              save_image CreateImage job r
          end
      end
  end.
End Pull.

(* @func internal/api/image_handlers.go handleImageJobByPath *)
Definition handleImageJobByPath (jobID : string) : M response :=
  if String.eqb jobID "" then ret (WriteError 400 ErrInvalidRequest (Text "Job ID is required") [])
  else
    let* r := db_query (λ f, GetPullJob f jobID) in
    ret match r with
    | Err _ => internal_error (Text "Failed to get pull job")
    | Ok None => WriteError 404 ErrImageNotFound (Sprintf "Pull job '%s' not found" [AStr jobID]) [("job_id", AStr jobID)]
    | Ok (Some job) => writeJSON 200 (BJob job)
    end.

(** * Backups *)

Definition not_implemented (what : string) : response := WriteError 501 ErrInternalError (Text (what +:+ " not yet implemented")) [].

(* @func internal/api/backup_handlers.go handleListBackups *)
Definition handleListBackups (vmID : string) : M response :=
  with_vm vmID (λ _, ret (not_implemented "Backup listing")).

(* @func internal/api/backup_handlers.go handleCreateBackup *)
Definition handleCreateBackup (vmID : string) : M response :=
  with_vm vmID (λ vm,
    if negb (bool_decide (vm_state vm = StateRunning)) && negb (bool_decide (vm_state vm = StatePaused)) then
      ret (invalid_transition "Cannot backup VM in state '%s'" (vm_state vm))
    else ret (not_implemented "Backup creation")).

(* @src internal/api/backup_handlers.go:66-71 handleGetBackup *)
Definition backup_stub (what backupID : string) : M response :=
  by_path "Backup" backupID (ret (not_implemented what)).

(* @func internal/api/backup_handlers.go handleGetBackupByPath *)
Definition handleGetBackupByPath : string → M response := backup_stub "Get backup".
(* @func internal/api/backup_handlers.go handleDeleteBackupByPath *)
Definition handleDeleteBackupByPath : string → M response := backup_stub "Delete backup".
(* @func internal/api/backup_handlers.go handleRestoreBackupByPath *)
Definition handleRestoreBackupByPath : string → M response := backup_stub "Restore backup".
(* @func internal/api/backup_handlers.go handleListBackupsByPath *)
Definition handleListBackupsByPath (vmID : string) : M response := by_path "VM" vmID (handleListBackups vmID).
(* @func internal/api/backup_handlers.go handleCreateBackupByPath *)
Definition handleCreateBackupByPath (vmID : string) : M response := by_path "VM" vmID (handleCreateBackup vmID).
End Images.

(** * What becomes of a job *)

Definition job_row (id : string) (db : DB) : option JobRow := List.find (λ r, String.eqb (jr_id r) id) (t_jobs db).

(** What the columns of a job say in each state. *)
Definition job_state_ok (db : DB) (r : JobRow) : Prop :=
  match jr_state r with
  | PullJobPending | PullJobInProgress => jr_error r = None ∧ jr_completed r = None ∧ jr_result r = None
  | PullJobCompleted =>
      jr_error r = None ∧ is_Some (jr_completed r) ∧ ∃ d, jr_result r = Some d ∧ d ∈ (i_digest <$> t_images db)
  | PullJobFailed => is_Some (jr_error r) ∧ is_Some (jr_completed r) ∧ jr_result r = None
  end.

Definition settled (r : JobRow) : Prop := jr_state r = PullJobCompleted ∨ jr_state r = PullJobFailed.

Definition updated_row (job : ImagePullJob) (r : JobRow) : JobRow :=
  mkJobRow (jr_id r) (jr_ref r) (j_state job) (enc_progress <$> j_progress job) (j_error job) (j_result job) (jr_created r) (j_completed job).

Lemma update_job_row fault job db r :
  job_row (j_id job) db = Some r →
  let '(e, db') := UpdatePullJob fault job db in
  t_images db' = t_images db ∧
  match e with
  | None => job_row (j_id job) db' = Some (updated_row job r)
  | Some _ => db' = db
  end ∧ e = (wrap "failed to update pull job: %w" <$> fault).
Proof.
  unfold UpdatePullJob, job_row. destruct fault as [e|]; [done|]. intros E. cbn. split_and!; [done| |done].
  rewrite find_sql_update by done. rewrite E. cbn. apply find_some_elem in E as [_ ->]. done.
Qed.

Section Jobs.
Context `{Env}.

(** After an update: the row as it was, or as it should be. *)
Lemma dwp_update_job job db r (Q : option error → DB → Prop) :
  job_row (j_id job) db = Some r →
  (∀ db', t_images db' = t_images db → job_row (j_id job) db' = Some (updated_row job r) → Q None db') →
  (∀ e n, env_db n = Some e → Q (Some (wrap "failed to update pull job: %w" e)) db) →
  dwp (update_job job) Q db.
Proof.
  intros E HN HS. apply dwp_db_exec. intros n. pose proof (update_job_row (env_db n) job db r E) as Hu.
  destruct (UpdatePullJob (env_db n) job db) as [e db']. destruct Hu as (Hi & Hr & ->). cbn.
  destruct (env_db n) as [e|] eqn:En; cbn in *; [subst; by eapply HS|by apply HN].
Qed.

Definition no_faults : Prop := ∀ n, env_db n = None.

(** The state of the job [id] when its goroutine has ended. *)
Definition ended (id : string) (good : JobRow → Prop) (db : DB) : Prop :=
  ∃ r, job_row id db = Some r ∧ job_state_ok db r ∧ (no_faults → settled r ∧ good r).

(** A job on the way: what [executePullJob] holds, and its row. *)
Definition under_way (job : ImagePullJob) (db : DB) : Prop :=
  j_error job = None ∧ j_completed job = None ∧ j_result job = None ∧ j_state job = PullJobInProgress ∧
  ∃ r, job_row (j_id job) db = Some r ∧ jr_state r = PullJobInProgress ∧ job_state_ok db r.

Lemma under_way_images job db db' :
  t_jobs db' = t_jobs db → under_way job db → under_way job db'.
Proof.
  intros Hj (H1 & H2 & H3 & H4 & r & Hr & Hs & Ho). split_and!; try done. exists r. unfold job_row in *. rewrite Hj.
  split_and!; [done..|]. unfold job_state_ok in *. rewrite Hs in *. done.
Qed.

Lemma dwp_fail_job job message db (good : JobRow → Prop) :
  under_way job db → (∀ r, jr_state r = PullJobFailed → good r) → dwp (fail_job job message) (λ e db', e = Returned ∧ ended (j_id job) good db') db.
Proof.
  intros (H1 & H2 & H3 & H4 & r & Hr & Hs & Ho) Hd. unfold fail_job. apply pwp_bind, pwp_stable; [apply stable_ask; apply _|].
  intros t. apply pwp_bind. set (job' := mkJob _ _ _ _ _ _ _ _). apply (dwp_update_job job' db r); [done| |].
  - intros db' Hi Hr'. apply pwp_ret. split; [done|]. exists (updated_row job' r). split_and!; [done| |].
    + unfold job_state_ok. cbn. rewrite H3. eauto.
    + intros _. split; [by right|by apply Hd].
  - intros e n En. apply pwp_ret. split; [done|]. exists r. split_and!; [done..|]. intros Hn. by rewrite Hn in En.
Qed.

Lemma dwp_complete_job job digest db (good : JobRow → Prop) :
  under_way job db → digest ∈ (i_digest <$> t_images db) →
  (∀ r, jr_state r = PullJobCompleted → jr_result r = Some digest → good r) →
  dwp (complete_job job digest) (λ e db', e = Returned ∧ ended (j_id job) good db') db.
Proof.
  intros (H1 & H2 & H3 & H4 & r & Hr & Hs & Ho) Hin Hd. unfold complete_job. apply pwp_bind, pwp_stable; [apply stable_ask; apply _|].
  intros t. apply pwp_bind. set (job' := mkJob _ _ _ _ _ _ _ _). apply (dwp_update_job job' db r); [done| |].
  - intros db' Hi Hr'. apply pwp_ret. split; [done|]. exists (updated_row job' r). split_and!; [done| |].
    + unfold job_state_ok. cbn. rewrite H1, Hi. eauto.
    + intros _. split; [by left|by apply Hd].
  - intros e n En. apply pwp_ret. split; [done|]. exists r. split_and!; [done..|]. intros Hn. by rewrite Hn in En.
Qed.

Lemma dwp_report_progress job reports db (Q : ImagePullJob → DB → Prop) :
  under_way job db →
  (∀ job' db', j_id job' = j_id job → t_images db' = t_images db → under_way job' db' → Q job' db') →
  dwp (report_progress job reports) Q db.
Proof.
  revert job db. induction reports as [|p reports IH]; intros job db Hu HQ; cbn [report_progress].
  { apply pwp_ret. by apply HQ. }
  apply pwp_bind. destruct Hu as (H1 & H2 & H3 & H4 & r & Hr & Hs & Ho).
  apply (dwp_update_job (with_progress job p) db r); [done| |].
  - intros db' Hi Hr'. apply IH.
    + split_and!; try done. exists (updated_row (with_progress job p) r). split_and!; [done|done|].
      unfold job_state_ok. cbn. by rewrite H4, H1, H2, H3.
    + intros job' db'' Hid Hi' Hu. apply HQ; [done|congruence|done].
  - intros e n En. apply IH; [|intros; by apply HQ]. split_and!; try done. by exists r.
Qed.
(** What a way to save an image does. *)
Definition saves (save : option error → Image → State DB (option error)) : Prop := ∀ f image db,
  let '(e, db') := save f image db in
  t_jobs db' = t_jobs db ∧ match e with None => img_digest image ∈ (i_digest <$> t_images db') | Some _ => t_images db' = t_images db end.

Lemma saves_Create : saves CreateImage.
Proof.
  intros [e|] image db; cbn; [done|]. destruct (existsb _ _); [done|]. cbn. split; [done|].
  rewrite fmap_app. apply elem_of_app. right. by left.
Qed.

Lemma saves_Upsert : saves UpsertImage.
Proof.
  intros [e|] image db; cbn; [done|]. split; [done|]. unfold sql_upsert. destruct (existsb _ _) eqn:E.
  - apply existsb_exists in E as (r & Hr & Hd). apply list_elem_of_fmap. exists (image_row image). split; [done|].
    unfold sql_update. apply list_elem_of_fmap. exists r. rewrite Hd. split; [done|]. by apply list_elem_of_In.
  - rewrite fmap_app. apply elem_of_app. right. by left.
Qed.

Lemma dwp_save_image error_text save job r db (good : JobRow → Prop) :
  saves save → under_way job db →
  (∀ x, jr_state x = PullJobFailed → good x) →
  (∀ image f x, r = Ok image → fst (save f image db) = None → jr_state x = PullJobCompleted → good x) →
  dwp (save_image error_text save job r) (λ e db', e = Returned ∧ ended (j_id job) good db') db.
Proof.
  intros Hs Hu Hf Hc. destruct r as [image|err]; cbn [save_image]; [|by apply dwp_fail_job].
  apply pwp_bind, dwp_db_exec. intros n. pose proof (Hs (env_db n) image db) as H1.
  specialize (Hc image (env_db n)). destruct (save (env_db n) image db) as [[err|] db1]; cbn in *; destruct H1 as [Hj Hi].
  - apply dwp_fail_job; [|done]. by eapply under_way_images.
  - apply dwp_complete_job; [by eapply under_way_images|done|]. intros x Hx _. by apply Hc.
Qed.

(** The hypotheses on the job: it has just been stored. *)
Record fresh_job (id : string) (r : JobRow) (db : DB) : Prop := {
  fresh_row : job_row id db = Some r;
  fresh_state : jr_state r = PullJobPending;
  fresh_ok : job_state_ok db r;
  fresh_scans : job_scans r }.

(** An image provider never returns nil without an error. *)
Definition provider_ok : Prop :=
  match env_image_provider with Some resolve => ∀ n ref, resolve n ref ≠ Ok None | None => True end.

Lemma dwp_executePullJob error_text pull id ref r db (good : JobRow → Prop) :
  fresh_job id r db → provider_ok →
  (∀ x, jr_state x = PullJobFailed → good x) →
  (∀ n image f x db1, t_images db1 = t_images db → jr_state x = PullJobCompleted →
     match env_image_provider with
     | Some resolve => resolve n ref = Ok (Some image) ∧ fst (UpsertImage f image db1) = None
     | None => snd (pull n ref) = Ok image ∧ fst (CreateImage f image db1) = None
     end → good x) →
  dwp (executePullJob error_text pull id ref) (λ e db', e = Returned ∧ ended id good db') db.
Proof.
  intros [Hr Hst Hok Hsc] Hp Hf Hc. pose proof (proj2 (find_some_elem _ _ _ Hr)) as Hid. apply String.eqb_eq in Hid.
  unfold executePullJob. apply pwp_bind, dwp_db_query. intros n.
  assert (∀ e m, env_db m = Some e → dwp (ret Returned) (λ e db', e = Returned ∧ ended id good db') db) as Hfault.
  { intros e m Em. apply pwp_ret. split; [done|]. exists r. split_and!; [done..|]. intros Hn. by rewrite Hn in Em. }
  destruct (env_db n) as [e|] eqn:En; [by eapply Hfault|]. clear n En.
  assert (∃ p, GetPullJob None id db = Ok (Some (mkJob (jr_id r) (jr_ref r) (jr_state r) p (jr_error r) (jr_created r) (jr_completed r) (jr_result r)))) as [p ->].
  { unfold GetPullJob. fold (job_row id db). rewrite Hr. destruct (jr_progress_json r) as [j|] eqn:Ej; [|by eexists].
    destruct (Hsc j Ej) as [p ->]. by eexists. }
  cbv zeta. set (job := with_state _ _). apply pwp_bind, (dwp_update_job job db r); [by cbn; rewrite Hid| |].
  2:{ intros e m Em. by eapply Hfault. }
  intros db1 Hi Hr1. unfold job_state_ok in Hok. rewrite Hst in Hok. destruct Hok as (Ho1 & Ho2 & Ho3).
  assert (under_way job db1) as Hu.
  { split_and!; try done. exists (updated_row job r). split_and!; [done|done|]. unfold job_state_ok. cbn. by rewrite Ho1, Ho2, Ho3. }
  assert (j_id job = id) as Hjid by (by cbn). rewrite <- Hjid.
  unfold provider_ok in Hp. destruct env_image_provider as [resolve|].
  - apply pwp_bind, pwp_ask; [apply _|]. intros n. specialize (Hp n ref). specialize (Hc n).
    destruct (resolve n ref) as [[image|]|err]; [|done|].
    + apply dwp_save_image; [apply saves_Upsert|done|done|]. intros image' f x [= <-] Hf' Hx. by eapply Hc.
    + apply dwp_save_image; [apply saves_Upsert|done|done|done].
  - apply pwp_bind, pwp_ask; [apply _|]. intros n. specialize (Hc n). destruct (pull n ref) as [reports res].
    apply pwp_bind, dwp_report_progress; [done|]. intros job' db' Hid' Hi' Hu'. rewrite <- Hid'.
    apply dwp_save_image; [apply saves_Create|done|done|]. intros image f x -> Hf' Hx. eapply Hc; [|done|done]. congruence.
Qed.

(** C21: a pull job ends as its columns say, whatever the outside answers: it stays
    pending or in progress without a result, or is failed with an error and a time,
    or is completed with a time and the digest of an image of the database; and when
    the database does not fail it is one of the latter two. *)
Theorem executePullJob_settles error_text pull id ref r w :
  fresh_job id r (w_db w) → provider_ok →
  let '(e, w') := executePullJob error_text pull id ref w in
  e = Returned ∧ ∃ r', job_row id (w_db w') = Some r' ∧ job_state_ok (w_db w') r' ∧ (no_faults → settled r').
Proof.
  intros Hr Hp. pose proof (dwp_executePullJob error_text pull id ref r (w_db w) (λ _, True) Hr Hp
    ltac:(done) ltac:(done) w eq_refl) as Hj. destruct (executePullJob _ _ _ _ w) as [e w'].
  destruct Hj as [He (r' & H1 & H2 & H3)]. split; [done|]. exists r'. split_and!; [done..|]. intros Hn. by apply H3.
Qed.

(** pulling an image that is already there fails: without an image provider the
    job saves with [CreateImage], which refuses a digest it knows, so a job whose
    pull succeeds with such an image ends as failed. *)
Theorem pulling_again_fails error_text pull id ref r w :
  fresh_job id r (w_db w) → env_image_provider = None → no_faults →
  (∀ n, ∃ reports image, pull n ref = (reports, Ok image) ∧ img_digest image ∈ (i_digest <$> t_images (w_db w))) →
  ∃ r', job_row id (w_db (snd (executePullJob error_text pull id ref w))) = Some r' ∧ jr_state r' = PullJobFailed.
Proof.
  intros Hr Hp Hn Hpull.
  pose proof (dwp_executePullJob error_text pull id ref r (w_db w) (λ r', jr_state r' = PullJobFailed) Hr
    ltac:(unfold provider_ok; by rewrite Hp) ltac:(done)) as Hj.
  assert (∀ n image f x db1, t_images db1 = t_images (w_db w) → jr_state x = PullJobCompleted →
     match env_image_provider with
     | Some resolve => resolve n ref = Ok (Some image) ∧ fst (UpsertImage f image db1) = None
     | None => snd (pull n ref) = Ok image ∧ fst (CreateImage f image db1) = None
     end → jr_state x = PullJobFailed) as Hc.
  { rewrite Hp. intros n image f x db1 Hi _ [E Hcr]. exfalso. destruct (Hpull n) as (reports & image' & En & Hin).
    rewrite En in E. injection E as ->. destruct f as [e|]; cbn in Hcr; [done|]. rewrite Hi in Hcr.
    apply list_elem_of_fmap in Hin as (y & Hy & Hin). destruct (existsb _ _) eqn:Ex; [done|].
    assert (existsb (λ r0, String.eqb (i_digest r0) (img_digest image)) (t_images (w_db w)) = true) as Ht; [|congruence].
    apply existsb_exists. exists y. split; [by apply list_elem_of_In|]. rewrite Hy. by apply String.eqb_refl. }
  destruct (Hj Hc w eq_refl) as [_ (r' & H1 & _ & H3)]. exists r'. split; [done|]. by apply H3.
Qed.

(** An image is deleted only when no VM of the list uses it; the answer 204
    means that it is gone, and any other answer that nothing has changed. *)
Theorem handleDeleteImage_spec digest w :
  let '(r, w') := handleDeleteImage digest w in
  (rs_status r = 204%Z →
     (digest ∉ (i_digest <$> t_images (w_db w'))) ∧ t_vms (w_db w') = t_vms (w_db w) ∧
     ∃ q vms, ListVMs q "" (w_db w) = Ok vms ∧ ∀ vm, vm ∈ vms → vm_digest vm ≠ digest) ∧
  (rs_status r ≠ 204%Z → w_db w' = w_db w).
Proof.
  unfold handleDeleteImage, db_rows. rewrite bind_unfold. cbv beta iota.
  destruct (ListVMs (env_query (w_tick w)) "" (w_db w)) as [vms|e] eqn:E; [|split; done].
  destruct (using_vms digest vms) as [|vm l] eqn:Eu; [|split; done]. cbn [length fmap list_fmap Nat.ltb Nat.leb].
  unfold db_exec. rewrite bind_unfold. cbn [w_tick w_db]. unfold DeleteImage. destruct (env_db _) as [e|]; cbn; [split; done|].
  split; [|done]. intros _. split_and!; [|done|].
  - unfold sql_delete. intros (y & -> & [Hy _]%list_elem_of_filter)%list_elem_of_fmap.
    by rewrite String.eqb_refl in Hy.
  - exists (env_query (w_tick w)), vms. split; [done|]. intros vm Hvm <-.
    assert (vm ∈ using_vms (vm_digest vm) vms) as Hin; [|by rewrite Eu in Hin; apply not_elem_of_nil in Hin].
    apply list_elem_of_In, filter_In. split; [by apply list_elem_of_In|]. apply String.eqb_refl.
Qed.
End Jobs.

(** * Concrete jobs *)

Definition pulled (digest : string) (n : nat) (ref : string) : list PullProgress * result Image :=
  ([mkProgress 0 0 0; mkProgress 100 100 100],
   Ok (mkImage digest [ref] "x86_64" 100 "6.1" "/img/rootfs.ext4" "/img/vmlinux" 5)).

Definition job_ex : JobRow := mkJobRow "job-1" "img:latest" PullJobPending None None None 0 None.
Definition world_with_job : World :=
  mkWorld (mkDB [] [] [image_row example_image] [job_ex] []) NewIPAM [] [] 0.

Lemma fresh_job_ex : fresh_job "job-1" job_ex (w_db world_with_job).
Proof. constructor; [reflexivity|reflexivity|by vm_compute|intros j; done]. Qed.

Lemma executePullJob_settles_witness :
  let '(e, w') := executePullJob (H := example_env) (λ _, "error") (pulled "sha256:2") "job-1" "img:2" world_with_job in
  e = Returned ∧ job_row "job-1" (w_db w') =
    Some (mkJobRow "job-1" "img:latest" PullJobCompleted (Some (enc_progress (mkProgress 100 100 100))) None (Some "sha256:2") 0 (Some 6000000000%Z)) ∧
  ∃ r', job_row "job-1" (w_db w') = Some r' ∧ job_state_ok (w_db w') r'.
Proof.
  pose proof (executePullJob_settles (H := example_env) (λ _, "error") (pulled "sha256:2") "job-1" "img:2" job_ex world_with_job fresh_job_ex I) as Hs.
  destruct (executePullJob (H := example_env) (λ _, "error") (pulled "sha256:2") "job-1" "img:2" world_with_job) as [e w'] eqn:E.
  destruct Hs as [He (r' & H1 & H2 & _)]. split; [exact He|]. split; [|exists r'; split; [exact H1|exact H2]].
  apply (f_equal (λ x, job_row "job-1" (w_db (snd x)))) in E. cbn [snd] in E. rewrite <- E. vm_compute. reflexivity.
Defined.

Lemma pulling_again_fails_witness :
  ∃ r', job_row "job-1" (w_db (snd (executePullJob (H := example_env) (λ _, "error") (pulled "sha256:1") "job-1" "img:latest" world_with_job))) = Some r' ∧
    jr_state r' = PullJobFailed.
Proof.
  apply (pulling_again_fails (H := example_env) (λ _, "error") (pulled "sha256:1") "job-1" "img:latest" job_ex world_with_job fresh_job_ex);
    [reflexivity|intros n; reflexivity|].
  intros n. eexists _, _. split; [reflexivity|]. cbn. by left.
Defined.

(** A failed write of the last state leaves the job in progress for good: nothing
    looks at the jobs of an earlier run. *)
Example lists_once :
  image_key <$> mergeRuntimeImages [example_image] [example_image; mkImage "" ["a"] "" 0 "" "" "" 0; mkImage "" ["a"] "" 0 "" "" "" 0; mkImage "" [] "" 0 "" "" "" 0]
  = ["sha256:1"; "a"; ""].
Proof. vm_compute. reflexivity. Qed.
