(* ===== verification/Builder.v ===== *)
(** Pulling an image (src/internal/builder/docker.go, interface.go;
    src/internal/registry/client.go): Docker or Podman pulls and exports it, its kernel
    is found or the shared one is taken, and its files are put on a new root disk.

    What is done to the host is a trace of calls; each call is answered by the
    environment.  The calls to the registry are those of a library.  Logging is left
    out. *)

From S2P Require Import Prelude GoStrings Paths Json Types Storage.

(** * The host *)

Inductive call : Type :=
  | LookPath (name : string)
  | Run (name : string) (args : list string)                       (* run to its end *)
  | Start (name : string) (args : list string)                     (* started in the background *)
  | Abs (path : string) | MkdirAll (path : string) | MkdirTemp (pattern : string) | RemoveAll (path : string) | Remove (path : string)
  | Create (path : string) | Open (path : string) | Stat (path : string) | CopyFile (src dst : string) | Sleep (ns : Z).

(** What a call that succeeds gives: a text (output, path) and, of a file, its size and
    whether it is regular. *)
Record given : Type := mkGiven { gv_text : string; gv_size : Z; gv_regular : bool }.

(** The builder's [runtime], what has happened, and the percentages reported. *)
(* @type internal/builder/docker.go DockerBuilder *)
Record BWorld : Type := mkB { bw_runtime : string; bw_calls : list (call * result given); bw_reports : list Z; bw_tick : nat }.

Class BuilderEnv : Type := {
  be_answer : nat → call → result given;
  be_now : nat → Z;
  be_euid : Z;
  be_Unmarshal : string → option json }.

Definition BM (A : Type) : Type := State BWorld A.

(** * Names *)

(* @src internal/builder/interface.go:74-85 DefaultExtractOptions *)
Definition KernelSearchPaths : list string := ["/boot/vmlinux"; "/boot/vmlinuz"; "/vmlinux"; "/boot/vmlinux-*"].

(** [filepath.Base]. *)
Definition filepath_base (path : string) : string :=
  if String.eqb path "" then "."
  else match List.filter (λ s, negb (String.eqb s "")) (split_on slash path) with
       | [] => "/"
       | els => default "/" (last els)
       end.

(** [filepath.Match] for the patterns of this program: letters, "*" and "?". *)
Fixpoint glob (p s : string) : bool :=
  match p with
  | EmptyString => String.eqb s ""
  | String c p =>
      if Ascii.eqb c "*" then
        (fix star s := glob p s || match s with String a s => negb (Ascii.eqb a slash) && star s | EmptyString => false end) s
      else match s with
           | String a s => (Ascii.eqb c a || (Ascii.eqb c "?" && negb (Ascii.eqb a slash))) && glob p s
           | EmptyString => false
           end
  end.

(* @func internal/builder/docker.go extractVersionFromPath *)
Definition extractVersionFromPath (path : string) : string :=
  let base := filepath_base path in
  if has_prefix "vmlinux-" base then trim_prefix "vmlinux-" base
  else if has_prefix "vmlinuz-" base then trim_prefix "vmlinuz-" base
  else "unknown".

Fixpoint replace_char (a b : ascii) (s : string) : string :=
  match s with EmptyString => "" | String c s => String (if Ascii.eqb c a then b else c) (replace_char a b s) end.

(* @func internal/builder/docker.go sanitizeDigest *)
Definition sanitizeDigest (digest : string) : string := replace_char ":" "-" digest.

(* @type internal/builder/docker.go dockerInspect *)
Record dockerInspect : Type := mkInspect { di_id : string; di_arch : string; di_labels : list (string * string); di_digests : list string }.

Definition dec_inspect (j : json) : option dockerInspect :=
  let label kv := s ← dec_str (snd kv); Some (fst kv, s) in
  let labels j := l ← members j; mapM label l in
  l ← members j;
  id ← getf l "Id" "" dec_str; arch ← getf l "Architecture" "" dec_str;
  labels ← getf l "Config" [] (λ j, l ← members j; getf l "Labels" [] labels);
  digests ← getf l "RepoDigests" [] (dec_list dec_str);
  Some (mkInspect id arch labels digests).

(* @func internal/builder/docker.go extractDigest *)
Definition extractDigest (inspect : dockerInspect) : string :=
  match di_digests inspect with
  | d :: _ => match split_on "@" d with [_; digest] => digest | _ => di_id inspect end
  | [] => di_id inspect
  end.

(* @type internal/builder/interface.go ExtractOptions *)
Record ExtractOptions : Type := mkOpts {
  eo_output_dir : string; eo_rootfs_mb : Z; eo_search : list string; eo_fallback : string }.

(* @type internal/builder/interface.go ExtractResult *)
Record ExtractResult : Type := mkExtract {
  er_kernel : string; er_rootfs : string; er_digest : string; er_arch : string; er_labels : list (string * string);
  er_version : string; er_size : Z }.

Section Builder.
Context `{BE : BuilderEnv}.

(** * Calls *)

Definition do_call (c : call) : BM (result given) := λ w,
  let r := be_answer (bw_tick w) c in (r, mkB (bw_runtime w) (bw_calls w ++ [(c, r)]) (bw_reports w) (S (bw_tick w))).
Definition now : BM Z := λ w, (be_now (bw_tick w), w).
Definition runtime : BM string := λ w, (bw_runtime w, w).
Definition set_runtime (r : string) : BM unit := λ w, (tt, mkB r (bw_calls w) (bw_reports w) (bw_tick w)).
(* @func internal/builder/docker.go progress *)
Definition progress (percent : Z) : BM unit := λ w, (tt, mkB (bw_runtime w) (bw_calls w) (bw_reports w ++ [percent]) (bw_tick w)).

(** A call whose failure is an error of the function. *)
Definition step {A} (c : call) (what : string) (k : given → BM (result A)) : BM (result A) :=
  let* r := do_call c in
  match r with
  | Err err => ret (Err (if String.eqb what "" then err else Errorf what [AWrap err]))
  | Ok g => k g
  end.

(** A call whose outcome does not matter. *)
Definition try_call (c : call) : BM unit := do_call c ;;; ret tt.

(** A call that only may fail. *)
Definition succeeds (c : call) : BM bool := let* r := do_call c in ret (is_Ok r).

(* @func internal/builder/docker.go Available *)
Definition Available : BM (option error) :=
  let usable name :=
    let* found := succeeds (LookPath name) in
    if found : bool then succeeds (Run name ["info"]) else ret false in
  let* docker := usable "docker" in
  if docker : bool then set_runtime "docker" ;;; ret None
  else
    let* podman := usable "podman" in
    if podman : bool then set_runtime "podman" ;;; ret None
    else ret (Some (ErrorsNew "neither docker nor podman available")).

(* @func internal/builder/docker.go validateFallbackKernel *)
Definition validateFallbackKernel (path : string) : BM (option error) :=
  let* r := do_call (Open path) in
  match r with
  | Err err => ret (Some err)
  | Ok g => ret (if gv_regular g then None else Some (Errorf "not a regular file (mode %s)" []))
  end.

(* @func internal/builder/docker.go inspectImage *)
Definition inspectImage (imageRef : string) : BM (result dockerInspect) :=
  let* rt := runtime in
  step (Run rt ["inspect"; imageRef]) "" (λ output,
    ret match j ← be_Unmarshal (gv_text output); dec_list dec_inspect j with
        | None => Err (ErrorsNew "json")
        | Some [] => Err (ErrorsNew "no inspect data returned")
        | Some (i :: _) => Ok i
        end).

(* @func internal/builder/docker.go exportFilesystem *)
Definition exportFilesystem (imageRef tarPath : string) : BM (result unit) :=
  let* rt := runtime in
  let* t := now in
  let containerName := "nanofuse-extract-" +:+ fmt_d t in
  step (Run rt ["create"; "--name"; containerName; imageRef]) "failed to create container: %w" (λ _,
    deferred (try_call (Run rt ["rm"; "-f"; containerName]))
      (step (Create tarPath) "" (λ _,
        step (Run rt ["export"; containerName]) "failed to export container: %w" (λ _, ret (Ok tt))))).

(* @func internal/builder/docker.go extractFileFromTar *)
Definition extractFileFromTar (tarPath srcPath destPath : string) : BM (result unit) :=
  step (MkdirTemp "kernel-extract-") "" (λ dir,
    deferred (try_call (RemoveAll (gv_text dir)))
      (step (Run "tar" ["-xf"; tarPath; "-C"; gv_text dir; srcPath]) "" (λ _,
        let extractedPath := filepath_join [gv_text dir; srcPath] in
        step (Stat extractedPath) "" (λ _, step (CopyFile extractedPath destPath) "" (λ _, ret (Ok tt)))))).

(** The first member of the archive that matches and can be extracted. *)
(* @src internal/builder/docker.go:311-331 extractKernel *)
Fixpoint try_members (tarPath kernelDest dirPattern basePattern : string) (lines : list string) : BM (option (string * string)) :=
  match lines with
  | [] => ret None
  | line :: lines =>
      let line := trim_space line in
      if String.eqb line "" then try_members tarPath kernelDest dirPattern basePattern lines
      else if (String.eqb (filepath_dir line) dirPattern || String.eqb (filepath_dir line) (dirPattern +:+ "/")) && glob basePattern (filepath_base line) then
        let* r := extractFileFromTar tarPath line kernelDest in
        match r with
        | Ok _ => ret (Some (kernelDest, extractVersionFromPath line))
        | Err _ => try_members tarPath kernelDest dirPattern basePattern lines
        end
      else try_members tarPath kernelDest dirPattern basePattern lines
  end.

(* @src internal/builder/docker.go:295-347 extractKernel *)
Fixpoint search_kernel (tarPath kernelDest : string) (paths : list string) : BM (option (string * string)) :=
  match paths with
  | [] => ret None
  | searchPath :: paths =>
      if contains "*" searchPath then
        let pattern := trim_prefix "/" searchPath in
        let* r := do_call (Run "tar" ["-tf"; tarPath]) in
        match r with
        | Err _ => search_kernel tarPath kernelDest paths
        | Ok output =>
            let* r := try_members tarPath kernelDest (filepath_dir pattern) (filepath_base pattern) (split_on "010" (gv_text output)) in
            match r with Some k => ret (Some k) | None => search_kernel tarPath kernelDest paths end
        end
      else
        let* r := extractFileFromTar tarPath (trim_prefix "/" searchPath) kernelDest in
        match r with
        | Ok _ => ret (Some (kernelDest, extractVersionFromPath searchPath))
        | Err _ => search_kernel tarPath kernelDest paths
        end
  end.

(* @func internal/builder/docker.go extractKernel *)
Definition extractKernel (tarPath outputDir : string) (paths : list string) : BM (result (string * string)) :=
  let* r := search_kernel tarPath (filepath_join [outputDir; "vmlinux"]) paths in
  ret match r with Some k => Ok k | None => Err (Errorf "kernel not found in any of: %v" (AStr <$> paths)) end.

(** The blank disk, which both ways begin with. *)
(* @src internal/builder/docker.go:396-406 createRootfsMount *)
Definition blank_disk (rootfsPath : string) (sizeMB : Z) (k : BM (result unit)) : BM (result unit) :=
  step (Run "dd" ["if=/dev/zero"; "of=" +:+ rootfsPath; "bs=1M"; "count=" +:+ fmt_d sizeMB]) "dd failed: %w" (λ _,
    step (Run "mkfs.ext4" ["-F"; rootfsPath]) "mkfs.ext4 failed: %w" (λ _, k)).

(* @func internal/builder/docker.go createRootfsMount *)
Definition createRootfsMount (tarPath rootfsPath : string) (sizeMB : Z) : BM (result unit) :=
  blank_disk rootfsPath sizeMB
    (step (MkdirTemp "rootfs-mount-") "" (λ dir, let mountPoint := gv_text dir in
      deferred (try_call (RemoveAll mountPoint))
        (step (Run "mount" ["-o"; "loop"; rootfsPath; mountPoint]) "mount failed: %w" (λ _,
          deferred (try_call (Run "umount" [mountPoint]))
            (step (Run "tar" ["-xf"; tarPath; "-C"; mountPoint]) "tar extraction failed: %w" (λ _, ret (Ok tt))))))).

(* @func internal/builder/docker.go createRootfsFuse *)
Definition createRootfsFuse (tarPath rootfsPath : string) (sizeMB : Z) : BM (result unit) :=
  blank_disk rootfsPath sizeMB
    (step (MkdirTemp "rootfs-fuse-") "" (λ dir, let mountPoint := gv_text dir in
      deferred (try_call (RemoveAll mountPoint))
        (step (Start "fuse2fs" ["-o"; "rw"; rootfsPath; mountPoint]) "fuse2fs failed: %w" (λ _,
          try_call (Sleep 500000000) ;;;
          deferred (try_call (Run "fusermount" ["-u"; mountPoint]))
            (step (Run "tar" ["-xf"; tarPath; "-C"; mountPoint]) "tar extraction failed: %w" (λ _, ret (Ok tt))))))).

(* @func internal/builder/docker.go createRootfs *)
Definition createRootfs (tarPath rootfsPath : string) (sizeMB : Z) : BM (result unit) :=
  if negb (be_euid =? 0)%Z then
    let* fuse := succeeds (LookPath "fuse2fs") in
    if fuse : bool then createRootfsFuse tarPath rootfsPath sizeMB
    else ret (Err (ErrorsNew "rootfs creation requires root or fuse2fs"))
  else createRootfsMount tarPath rootfsPath sizeMB.

(** The kernel of the image, or the shared one. *)
(* @src internal/builder/docker.go:131-158 Extract *)
Definition find_kernel (tarPath outputDir : string) (opts : ExtractOptions) : BM (result (string * string)) :=
  let* r := extractKernel tarPath outputDir (eo_search opts) in
  match r with
  | Ok k => ret (Ok k)
  | Err err =>
      if String.eqb (eo_fallback opts) "" then ret (Err (Errorf "failed to extract kernel (no fallback configured): %w" [AWrap err]))
      else
        step (Abs (eo_fallback opts)) "resolve fallback kernel %q to an absolute path: %w" (λ g,
          let absFallback := gv_text g in
          let* e := validateFallbackKernel absFallback in
          match e with
          | Some fbErr =>
              ret (Err (Errorf "kernel not found in image (%v) and configured fallback kernel %q is unusable: %w" [AShow err; AStr absFallback; AWrap fbErr]))
          | None => ret (Ok (absFallback, extractVersionFromPath absFallback))
          end)
  end.

Definition size_of (path : string) : BM Z := let* r := do_call (Stat path) in ret (match r with Ok g => gv_size g | Err _ => 0%Z end).

(** From the export on: the archive is removed at the end. *)
(* @src internal/builder/docker.go:122-196 Extract *)
Definition unpack (imageRef outputDir : string) (inspect : dockerInspect) (opts : ExtractOptions) : BM (result ExtractResult) :=
  let tarPath := filepath_join [outputDir; "rootfs.tar"] in
  progress 30 ;;;
  let* r := exportFilesystem imageRef tarPath in
  match r with
  | Err err => ret (Err (Errorf "failed to export filesystem: %w" [AWrap err]))
  | Ok _ =>
      deferred (try_call (Remove tarPath))
        (progress 50 ;;;
         let* r := find_kernel tarPath outputDir opts in
         match r with
         | Err err => ret (Err err)
         | Ok (kernelPath, kernelVersion) =>
             let rootfsPath := filepath_join [outputDir; "rootfs.ext4"] in
             progress 60 ;;;
             let* r := createRootfs tarPath rootfsPath (eo_rootfs_mb opts) in
             match r with
             | Err err => ret (Err (Errorf "failed to create rootfs: %w" [AWrap err]))
             | Ok _ =>
                 progress 90 ;;;
                 let* kernelSize := size_of kernelPath in
                 let* rootfsSize := size_of rootfsPath in
                 progress 100 ;;;
                 ret (Ok (mkExtract kernelPath rootfsPath (extractDigest inspect) (di_arch inspect) (di_labels inspect) kernelVersion
                   (add64 kernelSize rootfsSize)))
             end
         end)
  end.

(** The defaults of what is not given. *)
(* @src internal/builder/docker.go:77-83 Extract *)
Definition with_defaults (opts : ExtractOptions) : ExtractOptions :=
  mkOpts (eo_output_dir opts) (if (eo_rootfs_mb opts =? 0)%Z then 2048 else eo_rootfs_mb opts)
    (match eo_search opts with [] => KernelSearchPaths | l => l end) (eo_fallback opts).

(** [dataDir]: where images go that name no directory. *)
(* @func internal/builder/docker.go Extract *)
Definition Extract (dataDir imageRef : string) (opts : ExtractOptions) : BM (result ExtractResult) :=
  let* rt := runtime in
  let* e := if String.eqb rt "" then Available else ret None in
  match e with
  | Some err => ret (Err err)
  | None =>
      let opts := with_defaults opts in
      let* rt := runtime in
      progress 10 ;;;
      step (Run rt ["pull"; imageRef]) "failed to pull image: %w" (λ _,
        progress 20 ;;;
        let* r := inspectImage imageRef in
        match r with
        | Err err => ret (Err (Errorf "failed to inspect image: %w" [AWrap err]))
        | Ok inspect =>
            let* t := now in
            let digest := extractDigest inspect in
            let digest := if String.eqb digest "" then "local-" +:+ fmt_d t else digest in
            let outputDir := if String.eqb (eo_output_dir opts) "" then filepath_join [dataDir; "images"; sanitizeDigest digest] else eo_output_dir opts in
            step (Abs outputDir) "resolve output directory %q to an absolute path: %w" (λ g, let outputDir := gv_text g in
              step (MkdirAll outputDir) "failed to create output directory: %w" (λ _, unpack imageRef outputDir inspect opts))
        end)
  end.

(** * The registry client *)

(** What the registry's library gives of an image: digest, size, configuration (with
    architecture and labels), and the digests of the layers, each as its text. *)
Record remote_image : Type := mkRemote {
  ri_digest : result string; ri_size : result Z; ri_config : result (option (string * list (string * string))); ri_layers : result (list string) }.

(** The library: a reference is parsed (to itself), authentication is found, and the
    manifest is fetched. *)
Record registry : Type := mkRegistry {
  rg_parse : string → option error; rg_auth : string → option error; rg_image : string → result remote_image }.

(** [int64] multiplication wraps around. *)
Definition mul64 (a b : Z) : Z := ((a * b + 2 ^ 63) mod 2 ^ 64 - 2 ^ 63)%Z.

(** A report of the extraction, as one of the pull. *)
(* @src internal/registry/client.go:198-209 PullImage *)
Definition extraction_report (size percent : Z) : PullProgress :=
  let adjustedPercent := (50 + Z.quot percent 2)%Z in
  mkProgress (Z.quot (mul64 adjustedPercent size) 100) size adjustedPercent.

(** What a pull gives: the reports and the image, or a panic. *)
Inductive pull_result : Type := Pulled (r : result Image) | PullPanic.

(** The client extracts with a builder if there is one. *)
(* @func internal/registry/client.go NewClient *)
Definition NewClient : BM bool := let* e := Available in ret (match e with None => true | Some _ => false end).

(** The log of the layers slices sixteen bytes of each digest. *)
(* @src internal/registry/client.go:172-177 PullImage *)
Definition layers_logged (digests : list string) : bool := forallb (λ d, (16 <=? String.length d)%nat) digests.

(** [Extract], when there is a builder: the reports it made are those since. *)
(* @src internal/registry/client.go:187-232 PullImage *)
Definition extract_or_not (dataDir imageRef imageDir fallback : string) (has_builder : bool) (size : Z) :
    BM (list PullProgress * result (string * string * string)) :=
  if has_builder then
    λ w, let '(r, w') := Extract dataDir imageRef (mkOpts imageDir 2048 [] fallback) w in
         ((extraction_report size <$> drop (length (bw_reports w)) (bw_reports w'),
           match r with
           | Err err => Err (Errorf "failed to extract image layers: %w" [AWrap err])
           | Ok x => Ok (er_rootfs x, er_kernel x, er_version x)
           end), w')
  else ret ([], Ok (filepath_join [imageDir; "rootfs.ext4"], filepath_join [imageDir; "vmlinux"], "5.10.240")).

(* @func internal/registry/client.go PullImage *)
Definition PullImage (rg : registry) (dataDir fallback : string) (has_builder : bool) (imageRef : string) : BM (list PullProgress * pull_result) :=
  let fail reports what err : BM (list PullProgress * pull_result) := ret (reports, Pulled (Err (Errorf what [AWrap err]))) in
  let zero := mkProgress 0 0 0 in
  match rg_parse rg imageRef with
  | Some err => fail [] "failed to parse image reference: %w" err
  | None =>
  match rg_auth rg imageRef with
  | Some err => fail [] "failed to get authentication: %w" err
  | None =>
  match rg_image rg imageRef with
  | Err err => fail [zero] "failed to pull image: %w" err
  | Ok img =>
  match ri_digest img with
  | Err err => fail [zero] "failed to get image digest: %w" err
  | Ok digest =>
  match ri_size img with
  | Err err => fail [zero] "failed to get image size: %w" err
  | Ok size =>
  let begun := [zero; mkProgress 0 size 0] in
  match ri_config img with
  | Err err => fail begun "failed to get image config: %w" err
  | Ok config =>
  let architecture := match config with Some (a, _) => if String.eqb a "" then "unknown" else a | None => "unknown" end in
  match ri_layers img with
  | Err err => fail begun "failed to get image layers: %w" err
  | Ok digests =>
      if negb (layers_logged digests) then ret (begun, PullPanic)
      else
        let imageDir := filepath_join [dataDir; "images"; digest] in
        let* made := do_call (MkdirAll imageDir) in
        match made with
        | Err err => fail begun "failed to create image directory: %w" err
        | Ok _ =>
            let* ' (reports, r) := extract_or_not dataDir imageRef imageDir fallback has_builder size in
            match r with
            | Err err => ret (begun ++ reports, Pulled (Err err))
            | Ok (rootfsPath, kernelPath, kernelVersion) =>
                let* t := now in
                ret (begun ++ reports ++ [mkProgress size size 100],
                  Pulled (Ok (mkImage digest [imageRef] architecture size kernelVersion rootfsPath kernelPath t)))
            end
        end
  end end end end end end end.

End Builder.
