(* ===== verification/BuilderSpec.v ===== *)
(** What pulling an image does to the host: everything that is taken is given back, in
    the opposite order, however the host answers; a build that reports success has done
    all of its steps; and the reports of a pull grow to the end.

    The progress of a pull: what the builder and the registry client report never goes
    back, stays within its bounds whatever the host answers, and ends at the whole. *)

From S2P Require Import Prelude GoStrings Paths Json Types Storage Builder.

(** * A logic of traces *)

Section Trace.
Context `{BE : BuilderEnv}.

Abbreviation trace := (list (call * result given)).

Definition leaves {A} (m : BM A) (Q : A → trace → Prop) : Prop :=
  ∀ w, ∃ new, bw_calls (snd (m w)) = bw_calls w ++ new ∧ Q (fst (m w)) new.

Lemma leaves_ret {A} (a : A) (Q : A → trace → Prop) : Q a [] → leaves (ret a) Q.
Proof. intros HQ w. exists []. by rewrite app_nil_r. Qed.

Lemma leaves_mono {A} (m : BM A) (Q R : A → trace → Prop) : leaves m Q → (∀ a l, Q a l → R a l) → leaves m R.
Proof. intros Hm HQ w. destruct (Hm w) as (l & ? & ?). exists l. auto. Qed.

Lemma leaves_bind {A B} (m : BM A) (k : A → BM B) (Q : B → trace → Prop) :
  leaves m (λ a l, leaves (k a) (λ b l', Q b (l ++ l'))) → leaves (bind m k) Q.
Proof.
  intros Hm w. destruct (Hm w) as (l & Hl & Hk). rewrite bind_unfold. destruct (m w) as [a w1]. cbn [fst snd] in *.
  destruct (Hk w1) as (l' & Hl' & HQ). exists (l ++ l'). split; [by rewrite Hl', Hl, app_assoc|done].
Qed.

Lemma leaves_call c (Q : result given → trace → Prop) : (∀ r, Q r [(c, r)]) → leaves (do_call c) Q.
Proof. intros HQ w. by exists [(c, be_answer (bw_tick w) c)]. Qed.

(** Computations that call nothing. *)
Lemma leaves_now Q : (∀ t, Q t []) → leaves now Q.
Proof. intros HQ w. exists []. by rewrite app_nil_r. Qed.
Lemma leaves_runtime Q : (∀ t, Q t []) → leaves runtime Q.
Proof. intros HQ w. exists []. by rewrite app_nil_r. Qed.
Lemma leaves_set_runtime r (Q : unit → trace → Prop) : Q tt [] → leaves (set_runtime r) Q.
Proof. intros HQ w. exists []. by rewrite app_nil_r. Qed.
Lemma leaves_progress p (Q : unit → trace → Prop) : Q tt [] → leaves (progress p) Q.
Proof. intros HQ w. exists []. by rewrite app_nil_r. Qed.

Lemma leaves_step {A} c what (k : given → BM (result A)) (Q : result A → trace → Prop) :
  (∀ e err, Q (Err e) [(c, Err err)]) → (∀ g, leaves (k g) (λ a l, Q a ((c, Ok g) :: l))) → leaves (step c what k) Q.
Proof. intros He Hk. apply leaves_bind, leaves_call. intros [g|err]; [apply Hk|by apply leaves_ret, He]. Qed.

Lemma leaves_try c (Q : unit → trace → Prop) : (∀ r, Q tt [(c, r)]) → leaves (try_call c) Q.
Proof. intros HQ. apply leaves_bind, leaves_call. intros r. apply leaves_ret, HQ. Qed.

Lemma leaves_succeeds c (Q : bool → trace → Prop) : (∀ r, Q (is_Ok r) [(c, r)]) → leaves (succeeds c) Q.
Proof. intros HQ. apply leaves_bind, leaves_call. intros r. apply leaves_ret, HQ. Qed.

Lemma leaves_deferred {A} c (m : BM A) (Q : A → trace → Prop) :
  leaves m (λ a l, ∀ r, Q a (l ++ [(c, r)])) → leaves (deferred (try_call c) m) Q.
Proof.
  intros Hm. apply leaves_bind. eapply leaves_mono; [exact Hm|]. intros a l Hl. apply leaves_bind, leaves_try. intros r. apply leaves_ret, Hl.
Qed.

(** * What is taken from the host *)

Inductive resource : Type := Container (name : string) | Temporary (path : string) | Mounted (path : string) | Fuse (path : string).

#[local] Instance resource_eq_dec : EqDecision resource.
Proof. solve_decision. Defined.

Definition takes (c : call) (r : result given) : option resource :=
  match r, c with
  | Ok g, MkdirTemp _ => Some (Temporary (gv_text g))
  | Ok _, Run rt args =>
      match args with
      | [verb; _; name; mp] =>
          if String.eqb verb "create" then Some (Container name) else if String.eqb rt "mount" then Some (Mounted mp) else None
      | _ => None
      end
  | Ok _, Start _ [_; _; _; mp] => Some (Fuse mp)
  | _, _ => None
  end.

Definition gives_back (c : call) : option resource :=
  match c with
  | Run rt args =>
      match args with
      | [verb; _; name] => if String.eqb verb "rm" then Some (Container name) else None
      | [verb; mp] => if String.eqb verb "-u" then Some (Fuse mp) else None
      | [mp] => if String.eqb rt "umount" then Some (Mounted mp) else None
      | _ => None
      end
  | RemoveAll path => Some (Temporary path)
  | _ => None
  end.

(** What was taken; of that, what was given back, and what is left behind because
    the call that gives it back failed (the builder goes on as if it had not). *)
Definition taken (l : trace) : list resource := omap (λ cr, takes (fst cr) (snd cr)) l.
Definition returned (l : trace) : list resource := omap (λ cr, if is_Ok (snd cr) then gives_back (fst cr) else None) l.
Definition left_behind (l : trace) : list resource := omap (λ cr, if is_Ok (snd cr) then None else gives_back (fst cr)) l.

(** What has not been asked back after a trace, the latest first, whatever the calls
    that ask for it answer; [None] if something is asked back out of order, or was
    not taken. *)
Fixpoint held (st : list resource) (l : trace) : option (list resource) :=
  match l with
  | [] => Some st
  | (c, r) :: l =>
      match takes c r with
      | Some x => held (x :: st) l
      | None =>
          match gives_back c with
          | Some x => match st with y :: st => if bool_decide (x = y) then held st l else None | [] => None end
          | None => held st l
          end
      end
  end.

Lemma held_app st l l' : held st (l ++ l') = (held st l ≫= λ st, held st l').
Proof.
  revert st. induction l as [|[c r] l IH]; intros st; [done|]. cbn [app held].
  destruct (takes c r); [apply IH|]. destruct (gives_back c); [|apply IH]. destruct st; [done|]. case_bool_decide; [apply IH|done].
Qed.

Lemma takes_not_back c r x : takes c r = Some x → gives_back c = None.
Proof.
  destruct r as [g|e]; [|done]. destruct c as [n|n args|n args|p|p|p|p|p|p|p|p|p q|n]; try done.
  by destruct args as [|a1 [|a2 [|a3 [|a4 [|a5 args]]]]].
Qed.

(** Everything taken is asked back once: it is returned or left behind. *)
Lemma held_accounts l : ∀ st st', held st l = Some st' → st ++ taken l ≡ₚ returned l ++ left_behind l ++ st'.
Proof.
  induction l as [|[c r] l IH]; intros st st'; cbn [held].
  { intros [= ->]. by rewrite app_nil_r. }
  unfold taken, returned, left_behind in *. cbn [omap list_omap fst snd]. destruct (takes c r) as [x|] eqn:Et.
  - rewrite (takes_not_back c r x Et). intros H. assert ((if is_Ok r then None else None) = None (A := resource)) as -> by by destruct (is_Ok r).
    cbn. rewrite <- (IH _ _ H). cbn. by rewrite Permutation_middle.
  - destruct (gives_back c) as [x|].
    + destruct st as [|y st]; [done|]. case_bool_decide as Hxy; [|done]. subst y. intros H%IH. destruct (is_Ok r); cbn; rewrite H; [done|].
      by rewrite Permutation_middle.
    + intros H%IH. destruct (is_Ok r); exact H.
Qed.

(** A trace that leaves what is held as it was; and one that gives back [x]. *)
Definition balanced (l : trace) : Prop := ∀ st, held st l = Some st.
Definition closes (x : resource) (l : trace) : Prop := ∀ st, held (x :: st) l = Some st.

Definition nested {A} (m : BM A) : Prop := leaves m (λ _, balanced).
Definition closing {A} (x : resource) (m : BM A) : Prop := leaves m (λ _, closes x).

Lemma balanced_nil : balanced [].
Proof. done. Qed.
Lemma balanced_app l l' : balanced l → balanced l' → balanced (l ++ l').
Proof. intros Hl Hl' st. rewrite held_app, Hl. apply Hl'. Qed.
Lemma closes_app x l l' : balanced l → closes x l' → closes x (l ++ l').
Proof. intros Hl Hl' st. rewrite held_app, Hl. apply Hl'. Qed.

Lemma nested_ret {A} (a : A) : nested (ret a).
Proof. by apply leaves_ret. Qed.
Lemma nested_bind {A B} (m : BM A) (k : A → BM B) : nested m → (∀ a, nested (k a)) → nested (bind m k).
Proof.
  intros Hm Hk. apply leaves_bind. eapply leaves_mono; [exact Hm|]. intros a l Hl. eapply leaves_mono; [apply Hk|].
  intros b l' Hl'. by apply balanced_app.
Qed.
Lemma nested_now : nested now.
Proof. by apply leaves_now. Qed.
Lemma nested_runtime : nested runtime.
Proof. by apply leaves_runtime. Qed.
Lemma nested_set_runtime r : nested (set_runtime r).
Proof. by apply leaves_set_runtime. Qed.
Lemma nested_progress p : nested (progress p).
Proof. by apply leaves_progress. Qed.

(** A call that takes nothing and gives nothing back. *)
Definition neutral (c : call) : Prop := (∀ r, takes c r = None) ∧ gives_back c = None.

Lemma neutral_balanced c r : neutral c → balanced [(c, r)].
Proof. intros [Ht Hg] st. cbn. by rewrite Ht, Hg. Qed.

Lemma nested_call c : neutral c → nested (do_call c).
Proof. intros Hc. apply leaves_call. intros r. by apply neutral_balanced. Qed.
Lemma nested_try c : neutral c → nested (try_call c).
Proof. intros Hc. apply nested_bind; [by apply nested_call|]. intros r. apply nested_ret. Qed.
Lemma nested_succeeds c : neutral c → nested (succeeds c).
Proof. intros Hc. apply nested_bind; [by apply nested_call|]. intros r. apply nested_ret. Qed.

Lemma nested_step {A} c what (k : given → BM (result A)) : neutral c → (∀ g, nested (k g)) → nested (step c what k).
Proof. intros Hc Hk. apply nested_bind; [by apply nested_call|]. intros [g|err]; [apply Hk|apply nested_ret]. Qed.

(** A call that takes something, if what follows gives it back. *)
Lemma nested_take {A} c what (k : given → BM (result A)) (x : given → resource) :
  (∀ g, takes c (Ok g) = Some (x g)) → gives_back c = None → (∀ g, closing (x g) (k g)) → nested (step c what k).
Proof.
  intros Ht Hg Hk. apply leaves_step.
  - intros e err st. cbn [held]. rewrite Hg. by destruct c.
  - intros g. eapply leaves_mono; [apply Hk|]. intros a l Hl st. cbn [held]. rewrite Ht. apply Hl.
Qed.

Lemma closing_deferred {A} x c (m : BM A) : (∀ r, takes c r = None) → gives_back c = Some x → nested m → closing x (deferred (try_call c) m).
Proof.
  intros Ht Hg Hm. apply leaves_deferred. eapply leaves_mono; [exact Hm|]. intros a l Hl r. apply closes_app; [done|].
  intros st. cbn [held]. rewrite Ht, Hg. by rewrite bool_decide_true.
Qed.

Lemma closing_bind {A B} x (m : BM A) (k : A → BM B) : nested m → (∀ a, closing x (k a)) → closing x (bind m k).
Proof.
  intros Hm Hk. apply leaves_bind. eapply leaves_mono; [exact Hm|]. intros a l Hl. eapply leaves_mono; [apply Hk|].
  intros b l' Hl'. by apply closes_app.
Qed.

Ltac neutral := split; [by intros []|reflexivity].

(** Walk through a body of which every call is neutral or already dealt with. *)
Ltac nest :=
  repeat first
    [ match goal with |- ∀ _, _ => intro end
    | solve [eauto with nested]
    | apply nested_ret | apply nested_now | apply nested_runtime | apply nested_set_runtime | apply nested_progress
    | apply nested_step; [solve [neutral]|] | apply nested_try; solve [neutral] | apply nested_succeeds; solve [neutral]
    | apply nested_call; solve [neutral]
    | match goal with |- nested (bind _ _) => apply nested_bind end
    | match goal with |- nested (match ?x with _ => _ end) => destruct x end ].

Create HintDb nested.

Lemma Available_nested : nested Available.
Proof. unfold Available. nest. Qed.

Lemma inspectImage_nested imageRef : nested (inspectImage imageRef).
Proof. unfold inspectImage. nest. Qed.

Lemma exportFilesystem_nested imageRef tarPath : nested (exportFilesystem imageRef tarPath).
Proof.
  unfold exportFilesystem. apply nested_bind; [nest|]. intros rt. apply nested_bind; [nest|]. intros t.
  apply (nested_take _ _ _ (λ _, Container ("nanofuse-extract-" +:+ fmt_d t))); [done..|]. intros g.
  apply closing_deferred; [by intros []|done|]. nest.
Qed.

Lemma extractFileFromTar_nested tarPath srcPath destPath : nested (extractFileFromTar tarPath srcPath destPath).
Proof.
  unfold extractFileFromTar. apply (nested_take _ _ _ (λ g, Temporary (gv_text g))); [done..|]. intros g.
  apply closing_deferred; [by intros []|done|]. nest.
Qed.
#[local] Hint Resolve Available_nested inspectImage_nested exportFilesystem_nested extractFileFromTar_nested : nested.

Lemma try_members_nested tarPath dest dir base lines : nested (try_members tarPath dest dir base lines).
Proof. induction lines as [|line lines IH]; cbn [try_members]; nest. Qed.
#[local] Hint Resolve try_members_nested : nested.

Lemma search_kernel_nested tarPath dest paths : nested (search_kernel tarPath dest paths).
Proof. induction paths as [|p paths IH]; cbn [search_kernel]; nest. Qed.
#[local] Hint Resolve search_kernel_nested : nested.

Lemma createRootfs_nested tarPath rootfsPath sizeMB : nested (createRootfs tarPath rootfsPath sizeMB).
Proof.
  unfold createRootfs, createRootfsFuse, createRootfsMount, blank_disk. nest.
  - apply (nested_take _ _ _ (λ g, Temporary (gv_text g))); [done..|]. intros dir. apply closing_deferred; [by intros []|done|].
    apply (nested_take _ _ _ (λ _, Fuse (gv_text dir))); [done..|]. intros _. apply closing_bind; [nest|]. intros _.
    apply closing_deferred; [by intros []|done|]. nest.
  - apply (nested_take _ _ _ (λ g, Temporary (gv_text g))); [done..|]. intros dir. apply closing_deferred; [by intros []|done|].
    apply (nested_take _ _ _ (λ _, Mounted (gv_text dir))); [done..|]. intros _.
    apply closing_deferred; [by intros []|done|]. nest.
Qed.
#[local] Hint Resolve createRootfs_nested : nested.

Lemma nested_deferred {A} c (m : BM A) : neutral c → nested m → nested (deferred (try_call c) m).
Proof. intros Hc Hm. apply nested_bind; [done|]. intros a. apply nested_bind; [by apply nested_try|]. intros _. apply nested_ret. Qed.

Lemma unpack_nested imageRef outputDir inspect opts : nested (unpack imageRef outputDir inspect opts).
Proof.
  unfold unpack. nest. apply nested_deferred; [neutral|]. unfold find_kernel, extractKernel, validateFallbackKernel, size_of. nest.
Qed.
#[local] Hint Resolve unpack_nested : nested.

Lemma Extract_nested dataDir imageRef opts : nested (Extract dataDir imageRef opts).
Proof. unfold Extract. nest. Qed.

(** * What a success has done *)

Definition successes (l : trace) : list call := omap (λ cr, if is_Ok (snd cr) then Some (fst cr) else None) l.

Lemma successes_app l l' : successes (l ++ l') = successes l ++ successes l'.
Proof. apply omap_app. Qed.

(** [m] ends well only after the calls [P] have succeeded, in this order. *)
Definition after {A} (m : BM (result A)) (P : A → list call → Prop) : Prop :=
  leaves m (λ r l, ∀ a, r = Ok a → ∃ cs, P a cs ∧ sublist cs (successes l)).

Lemma after_mono {A} (m : BM (result A)) (P R : A → list call → Prop) : after m P → (∀ a cs, P a cs → R a cs) → after m R.
Proof. intros Hm HR. eapply leaves_mono; [exact Hm|]. intros r l H a Ha. destruct (H a Ha) as (cs & ? & ?). eauto. Qed.

Lemma after_ret {A} (r : result A) (P : A → list call → Prop) : (∀ a, r = Ok a → P a []) → after (ret r) P.
Proof. intros HP. apply leaves_ret. intros a Ha. exists []. split; [auto|constructor]. Qed.

Lemma after_step {A} c what (k : given → BM (result A)) (P : A → list call → Prop) :
  (∀ g, after (k g) (λ a cs, P a (c :: cs))) → after (step c what k) P.
Proof.
  intros Hk. apply leaves_step; [done|]. intros g. eapply leaves_mono; [apply Hk|]. intros r l H a Ha. destruct (H a Ha) as (cs & HP & Hs).
  exists (c :: cs). split; [done|]. by constructor.
Qed.

(** A call that need not be told of. *)
Lemma after_quiet {A} c what (k : given → BM (result A)) (P : A → list call → Prop) : (∀ g, after (k g) P) → after (step c what k) P.
Proof.
  intros Hk. apply leaves_step; [done|]. intros g. eapply leaves_mono; [apply Hk|]. intros r l H a Ha. destruct (H a Ha) as (cs & HP & Hs).
  exists cs. split; [done|]. by constructor.
Qed.

Lemma after_skip {A B} (m : BM B) (k : B → BM (result A)) (P : A → list call → Prop) :
  leaves m (λ b _, after (k b) P) → after (bind m k) P.
Proof.
  intros Hm. apply leaves_bind. eapply leaves_mono; [exact Hm|]. intros b l Hk. eapply leaves_mono; [exact Hk|].
  intros r l' H a Ha. destruct (H a Ha) as (cs & HP & Hs). exists cs. split; [done|]. rewrite successes_app. by apply sublist_inserts_l.
Qed.

Lemma after_deferred {A} c (m : BM (result A)) (P : A → list call → Prop) : after m P → after (deferred (try_call c) m) P.
Proof.
  intros Hm. apply leaves_deferred. eapply leaves_mono; [exact Hm|]. intros r l H x a Ha. destruct (H a Ha) as (cs & HP & Hs). exists cs.
  split; [done|]. rewrite successes_app. by apply sublist_inserts_r.
Qed.

(** What another function has done comes first. *)
Lemma after_bind {A B} (m : BM (result B)) (k : result B → BM (result A)) (R : B → list call → Prop) (P : A → list call → Prop) :
  after m R → (∀ b cs, R b cs → after (k (Ok b)) (λ a cs', P a (cs ++ cs'))) → (∀ err, after (k (Err err)) (λ _ _, False)) → after (bind m k) P.
Proof.
  intros Hm Hk He. apply leaves_bind. eapply leaves_mono; [exact Hm|]. intros [b|err] l Hl.
  - destruct (Hl b eq_refl) as (cs & HR & Hs). eapply leaves_mono; [by apply Hk|]. intros r l' H a Ha. destruct (H a Ha) as (cs' & HP & Hs').
    exists (cs ++ cs'). split; [done|]. rewrite successes_app. by apply sublist_app.
  - eapply leaves_mono; [apply He|]. intros r l' H a Ha. by destruct (H a Ha) as (? & [] & _).
Qed.

Lemma leaves_any {A} (m : BM A) (Q : A → Prop) : nested m → (∀ a, Q a) → leaves m (λ a _, Q a).
Proof. intros Hm HQ. eapply leaves_mono; [exact Hm|]. auto. Qed.

(** The disk: made, formatted, mounted, and the archive put on it. *)
Definition disk_calls (tarPath rootfsPath : string) (sizeMB : Z) (_ : unit) (cs : list call) : Prop :=
  ∃ mp mount, mount ∈ [Run "mount" ["-o"; "loop"; rootfsPath; mp]; Start "fuse2fs" ["-o"; "rw"; rootfsPath; mp]] ∧
  cs = [Run "dd" ["if=/dev/zero"; "of=" +:+ rootfsPath; "bs=1M"; "count=" +:+ fmt_d sizeMB]; Run "mkfs.ext4" ["-F"; rootfsPath]; mount;
        Run "tar" ["-xf"; tarPath; "-C"; mp]].

Lemma createRootfs_after tarPath rootfsPath sizeMB : after (createRootfs tarPath rootfsPath sizeMB) (disk_calls tarPath rootfsPath sizeMB).
Proof.
  unfold createRootfs, createRootfsFuse, createRootfsMount, blank_disk. destruct (negb _).
  - apply after_skip, leaves_any; [nest|]. intros [|]; [|by apply after_ret].
    do 2 (apply after_step; intros _). apply after_quiet. intros dir. apply after_deferred, after_step. intros _.
    apply after_skip, leaves_any; [nest|]. intros _. apply after_deferred, after_step. intros _. apply after_ret. intros a [= <-].
    eexists _, _. split; [|reflexivity]. apply elem_of_cons. right. by apply list_elem_of_singleton.
  - do 2 (apply after_step; intros _). apply after_quiet. intros dir. apply after_deferred, after_step. intros _.
    apply after_deferred, after_step. intros _. apply after_ret. intros a [= <-].
    eexists _, _. split; [|reflexivity]. apply elem_of_cons. by left.
Qed.

(** The kernel of the image: a member of the archive, copied to its place. *)
Definition kernel_calls (tarPath dest : string) (kernel : string) (cs : list call) : Prop :=
  kernel = dest ∧ ∃ dir src, cs = [Run "tar" ["-xf"; tarPath; "-C"; dir; src]; CopyFile (filepath_join [dir; src]) dest].

Lemma extractFileFromTar_after tarPath src dest : after (extractFileFromTar tarPath src dest) (λ _, kernel_calls tarPath dest dest).
Proof.
  unfold extractFileFromTar. apply after_quiet. intros dir. apply after_deferred, after_step. intros _. apply after_quiet. intros _.
  apply after_step. intros _. apply after_ret. intros a _. split; [done|]. by eexists _, _.
Qed.

(** A search that finds a kernel has copied it. *)
Definition searches (tarPath dest : string) (m : BM (option (string * string))) : Prop :=
  leaves m (λ o l, ∀ k, o = Some k → ∃ cs, kernel_calls tarPath dest (fst k) cs ∧ sublist cs (successes l)).

Lemma searches_none tarPath dest : searches tarPath dest (ret None).
Proof. by apply leaves_ret. Qed.

Lemma searches_bind {B} tarPath dest (m : BM B) (k : B → BM (option (string * string))) :
  leaves m (λ b _, searches tarPath dest (k b)) → searches tarPath dest (bind m k).
Proof.
  intros Hm. apply leaves_bind. eapply leaves_mono; [exact Hm|]. intros b l Hk. eapply leaves_mono; [exact Hk|].
  intros r l' H a Ha. destruct (H a Ha) as (cs & HP & Hs). exists cs. split; [done|]. rewrite successes_app. by apply sublist_inserts_l.
Qed.

Lemma searches_file tarPath dest src version (k : BM (option (string * string))) : searches tarPath dest k →
  searches tarPath dest (let* r := extractFileFromTar tarPath src dest in match r with Ok _ => ret (Some (dest, version)) | Err _ => k end).
Proof.
  intros Hk. apply leaves_bind. eapply leaves_mono; [apply extractFileFromTar_after|]. intros [u|err] l Hl.
  - apply leaves_ret. intros k' [= <-]. rewrite app_nil_r. by apply (Hl u).
  - eapply leaves_mono; [exact Hk|]. intros r l' H a Ha. destruct (H a Ha) as (cs & HP & Hs). exists cs. split; [done|].
    rewrite successes_app. by apply sublist_inserts_l.
Qed.

Lemma try_members_searches tarPath dest dir base lines : searches tarPath dest (try_members tarPath dest dir base lines).
Proof.
  induction lines as [|line lines IH]; cbn [try_members]; [apply searches_none|]. destruct (String.eqb _ ""); [done|].
  destruct (_ && _); [|done]. by apply searches_file.
Qed.

Lemma search_kernel_searches tarPath dest paths : searches tarPath dest (search_kernel tarPath dest paths).
Proof.
  induction paths as [|p paths IH]; cbn [search_kernel]; [apply searches_none|]. destruct (contains "*" p); [|by apply searches_file].
  apply searches_bind, leaves_any; [nest|]. intros [g|err]; [|done].
  apply leaves_bind. eapply leaves_mono; [apply try_members_searches|]. intros [k|] l Hl.
  - apply leaves_ret. intros k' [= <-]. rewrite app_nil_r. by apply Hl.
  - eapply leaves_mono; [exact IH|]. intros r l' H a Ha. destruct (H a Ha) as (cs & HP & Hs). exists cs. split; [done|].
    rewrite successes_app. by apply sublist_inserts_l.
Qed.

(** The kernel of a root disk: the image's, or the shared one, which has been opened. *)
Definition chosen_kernel (tarPath dest : string) (opts : ExtractOptions) (k : string * string) (cs : list call) : Prop :=
  kernel_calls tarPath dest (fst k) cs ∨ (eo_fallback opts ≠ "" ∧ cs = [Open (fst k)]).

Lemma find_kernel_after tarPath outputDir opts :
  after (find_kernel tarPath outputDir opts) (chosen_kernel tarPath (filepath_join [outputDir; "vmlinux"]) opts).
Proof.
  unfold find_kernel, extractKernel. set (dest := filepath_join [outputDir; "vmlinux"]). apply leaves_bind, leaves_bind.
  eapply leaves_mono; [apply search_kernel_searches|]. intros [k|] l Hl.
  - apply leaves_ret, leaves_ret. intros k' [= <-]. rewrite !app_nil_r. destruct (Hl k eq_refl) as (cs & Hk & Hs). exists cs. split; [by left|done].
  - apply leaves_ret.
    eapply (leaves_mono _ (λ r l', ∀ a, r = Ok a → ∃ cs, chosen_kernel tarPath dest opts a cs ∧ sublist cs (successes l'))).
    2: { intros r l' H a Ha. destruct (H a Ha) as (cs & HP & Hs). exists cs. split; [done|]. rewrite !successes_app. by repeat apply sublist_inserts_l. }
    destruct (String.eqb_spec (eo_fallback opts) ""); [by apply leaves_ret|]. apply after_quiet. intros g. unfold validateFallbackKernel.
    apply leaves_bind, leaves_bind, leaves_call. intros [o|err]; apply leaves_ret; [|by apply leaves_ret].
    destruct (gv_regular o); apply leaves_ret; [|done]. intros a [= <-]. exists [Open (gv_text g)]. split; [right; by split|]. by constructor.
Qed.

Lemma exportFilesystem_after imageRef tarPath : after (exportFilesystem imageRef tarPath) (λ _ cs, ∃ rt rt' name,
  cs = [Run rt ["create"; "--name"; name; imageRef]; Create tarPath; Run rt' ["export"; name]]).
Proof.
  unfold exportFilesystem. apply after_skip, leaves_any; [nest|]. intros rt. apply after_skip, leaves_any; [nest|]. intros t.
  apply after_step. intros _. apply after_deferred. do 2 (apply after_step; intros _). apply after_ret. intros a _. by eexists _, _, _.
Qed.

(** The steps of a build in directory [out], for the image's files [x]. *)
Definition build_calls (imageRef out : string) (opts : ExtractOptions) (x : ExtractResult) (cs : list call) : Prop :=
  let tar := filepath_join [out; "rootfs.tar"] in
  ∃ rt rt' name kernel disk,
  cs = [Run rt ["create"; "--name"; name; imageRef]; Create tar; Run rt' ["export"; name]] ++ kernel ++ disk ∧
  chosen_kernel tar (filepath_join [out; "vmlinux"]) opts (er_kernel x, er_version x) kernel ∧
  disk_calls tar (er_rootfs x) (eo_rootfs_mb opts) tt disk ∧ er_rootfs x = filepath_join [out; "rootfs.ext4"].

Lemma size_of_nested path : nested (size_of path).
Proof. unfold size_of. nest. Qed.
#[local] Hint Resolve size_of_nested : nested.

Lemma unpack_after imageRef out inspect opts : after (unpack imageRef out inspect opts) (build_calls imageRef out opts).
Proof.
  unfold unpack. apply after_skip, leaves_any; [nest|]. intros _. eapply after_bind; [apply exportFilesystem_after| |by intros; apply after_ret].
  intros u cs (rt & rt' & name & ->). apply after_deferred, after_skip, leaves_any; [nest|]. intros _.
  eapply after_bind; [apply find_kernel_after| |by intros; apply after_ret]. intros [kernel version] cs Hk.
  apply after_skip, leaves_any; [nest|]. intros _. eapply after_bind; [apply createRootfs_after| |by intros; apply after_ret]. intros [] cs' Hd.
  apply after_skip, leaves_any; [nest|]. intros _. apply after_skip, leaves_any; [nest|]. intros ks. apply after_skip, leaves_any; [nest|]. intros rs.
  apply after_skip, leaves_any; [nest|]. intros _. apply after_ret. intros x [= <-]. exists rt, rt', name, cs, cs'. rewrite app_nil_r. by split_and!.
Qed.

Lemma inspectImage_after imageRef : after (inspectImage imageRef) (λ _ cs, ∃ rt, cs = [Run rt ["inspect"; imageRef]]).
Proof.
  unfold inspectImage. apply after_skip, leaves_any; [nest|]. intros rt. apply after_step. intros g. apply after_ret. intros a _. by exists rt.
Qed.

Lemma Extract_after dataDir imageRef opts : after (Extract dataDir imageRef opts) (λ x cs, ∃ rt rt' out dir cs',
  cs = [Run rt ["pull"; imageRef]; Run rt' ["inspect"; imageRef]; Abs dir; MkdirAll out] ++ cs' ∧
  build_calls imageRef out (with_defaults opts) x cs').
Proof.
  unfold Extract. apply after_skip, leaves_any; [nest|]. intros rt0. apply after_skip, leaves_any; [nest|]. intros [err|]; [by apply after_ret|].
  apply after_skip, leaves_any; [nest|]. intros rt. apply after_skip, leaves_any; [nest|]. intros _. apply after_step. intros _.
  apply after_skip, leaves_any; [nest|]. intros _. eapply after_bind; [apply inspectImage_after| |by intros; apply after_ret].
  intros i cs (rt' & ->). apply after_skip, leaves_any; [nest|]. intros t. cbv zeta. apply after_step. intros g. apply after_step. intros _.
  eapply after_mono; [apply unpack_after|]. intros x cs Hb. eexists rt, rt', (gv_text g), _, cs. by split.
Qed.

(** C34: Building the disk of an image asks the host for everything back that it
    took.  However the host answers, each temporary container, temporary directory
    and mount is asked back exactly once, in the opposite order of the taking: the
    removal of the directory of a mount comes after the unmount has been asked for.
    What the host answers to these calls is ignored, so what was taken is what was
    returned and what is left behind because the call failed; when none of them
    fails, nothing is left.  A build that reports success has pulled, inspected and
    exported the image, has either copied its kernel out of the archive or opened the
    shared one, has made and formatted the disk, has mounted it -- or, without root,
    started fuse2fs, which may not have mounted it yet -- and has unpacked the archive
    at the mount point, in this order; and its result names that kernel and that
    disk. *)
Theorem Extract_spec dataDir imageRef opts w :
  let '(r, w') := Extract dataDir imageRef opts w in
  ∃ new, bw_calls w' = bw_calls w ++ new ∧ held [] new = Some [] ∧
  taken new ≡ₚ returned new ++ left_behind new ∧
  ((∀ c e, (c, Err e) ∈ new → gives_back c = None) → taken new ≡ₚ returned new) ∧
  ∀ x, r = Ok x → ∃ rt rt' out dir cs,
    sublist ([Run rt ["pull"; imageRef]; Run rt' ["inspect"; imageRef]; Abs dir; MkdirAll out] ++ cs) (successes new) ∧
    build_calls imageRef out (with_defaults opts) x cs.
Proof.
  destruct (Extract_nested dataDir imageRef opts w) as (new & Hn & Hb). destruct (Extract_after dataDir imageRef opts w) as (new' & Hn' & Ha).
  rewrite Hn in Hn'. apply app_inv_head in Hn' as <-. destruct (Extract dataDir imageRef opts w) as [r w']. cbn [fst snd] in *.
  pose proof (held_accounts new [] [] (Hb [])) as Hacc. rewrite app_nil_r in Hacc. cbn [app] in Hacc.
  exists new. split_and!; [done|apply Hb|done| |].
  - intros Hnone. rewrite Hacc. assert (left_behind new = []) as ->; [|by rewrite app_nil_r].
    clear -Hnone. unfold left_behind. induction new as [|[c [g|e]] new IH]; [done|..]; cbn [omap list_omap fst snd is_Ok].
    + apply IH. intros c' e' Hin. apply (Hnone c' e'). by right.
    + rewrite (Hnone c e) by left. apply IH. intros c' e' Hin. apply (Hnone c' e'). by right.
  - intros x Hx. destruct (Ha x Hx) as (cs & (rt & rt' & out & dir & cs' & -> & HB) & Hs). by exists rt, rt', out, dir, cs'.
Qed.

End Trace.

(** A sequence that never falls, from [lo] to [hi]. *)
Fixpoint rising (lo : Z) (l : list Z) (hi : Z) : Prop :=
  match l with [] => (lo ≤ hi)%Z | p :: l => (lo ≤ p)%Z ∧ rising p l hi end.

Lemma rising_le lo l hi : rising lo l hi → (lo ≤ hi)%Z.
Proof. revert lo. induction l as [|p l IH]; intros lo; cbn; [done|]. intros [Hp Hl]. apply IH in Hl. lia. Qed.

Lemma rising_app lo l mid l' hi : rising lo l mid → rising mid l' hi → rising lo (l ++ l') hi.
Proof.
  revert lo. induction l as [|p l IH]; intros lo; cbn.
  - destruct l' as [|q l']; cbn; [lia|]. intros ? [? ?]. split; [lia|done].
  - intros [? ?] ?. split; [done|by apply IH].
Qed.

(** [f] keeps the order, from [lo] on. *)
Lemma rising_fmap (f : Z → Z) lo l hi :
  (∀ x y, lo ≤ x ≤ y → y ≤ hi → f x ≤ f y)%Z → rising lo l hi → rising (f lo) (f <$> l) (f hi).
Proof.
  revert lo. induction l as [|p l IH]; intros lo Hf; cbn.
  - intros ?. apply Hf; lia.
  - intros [Hp Hl]. pose proof (rising_le _ _ _ Hl). split; [apply Hf; lia|]. apply IH; [|done]. intros x y ? ?. apply Hf; lia.
Qed.

Lemma rising_bounds lo l hi : rising lo l hi → Forall (λ p, lo ≤ p ≤ hi)%Z l.
Proof.
  revert lo. induction l as [|p l IH]; intros lo; cbn; [constructor|]. intros [Hp Hl]. pose proof (rising_le _ _ _ Hl).
  constructor; [lia|]. eapply Forall_impl; [by apply IH|]. intros x ?. cbn in *. lia.
Qed.

Section Climb.
Context `{BE : BuilderEnv}.

(** What [m] reports rises from [lo] to at most [hi]. *)
Definition climbs {A} (lo : Z) (m : BM A) (hi : Z) : Prop :=
  ∀ w, ∃ new, bw_reports (snd (m w)) = bw_reports w ++ new ∧ rising lo new hi.

(** What reports nothing. *)
Definition silent {A} (m : BM A) : Prop := ∀ w, bw_reports (snd (m w)) = bw_reports w.

Lemma climbs_silent {A} lo (m : BM A) hi : silent m → (lo ≤ hi)%Z → climbs lo m hi.
Proof. intros Hm Hle w. exists []. by rewrite Hm, app_nil_r. Qed.

Lemma climbs_bind {A B} lo mid hi (m : BM A) (k : A → BM B) : climbs lo m mid → (∀ a, climbs mid (k a) hi) → climbs lo (bind m k) hi.
Proof.
  intros Hm Hk w. rewrite bind_unfold. destruct (Hm w) as (l & Hl & ?). destruct (m w) as [a w1]. destruct (Hk a w1) as (l' & Hl' & ?).
  exists (l ++ l'). cbn [snd] in *. split; [by rewrite Hl', Hl, app_assoc|by eapply rising_app].
Qed.

Lemma climbs_progress lo p hi : (lo ≤ p)%Z → (p ≤ hi)%Z → climbs lo (progress p) hi.
Proof. intros ? ? w. by exists [p]. Qed.

Lemma silent_ret {A} (a : A) : silent (ret a).
Proof. done. Qed.
Lemma silent_bind {A B} (m : BM A) (k : A → BM B) : silent m → (∀ a, silent (k a)) → silent (bind m k).
Proof. intros Hm Hk w. rewrite bind_unfold. specialize (Hm w). destruct (m w) as [a w1]. cbn [snd] in *. by rewrite (Hk a w1). Qed.
Lemma silent_call c : silent (do_call c).
Proof. done. Qed.
Lemma silent_now : silent now.
Proof. done. Qed.
Lemma silent_runtime : silent runtime.
Proof. done. Qed.
Lemma silent_set_runtime r : silent (set_runtime r).
Proof. done. Qed.
Lemma silent_try c : silent (try_call c).
Proof. done. Qed.
Lemma silent_succeeds c : silent (succeeds c).
Proof. done. Qed.
Lemma silent_step {A} c what (k : given → BM (result A)) : (∀ g, silent (k g)) → silent (step c what k).
Proof. intros Hk. apply silent_bind; [apply silent_call|]. intros [g|err]; [apply Hk|apply silent_ret]. Qed.
Lemma silent_deferred {A} c (m : BM A) : silent m → silent (deferred (try_call c) m).
Proof. intros Hm. apply silent_bind; [done|]. intros a. apply silent_bind; [apply silent_try|]. intros _. apply silent_ret. Qed.

Lemma climbs_step {A} lo hi c what (k : given → BM (result A)) : (lo ≤ hi)%Z → (∀ g, climbs lo (k g) hi) → climbs lo (step c what k) hi.
Proof.
  intros Hle Hk. eapply climbs_bind; [by apply climbs_silent; [apply silent_call|reflexivity]|]. intros [g|err]; [apply Hk|by apply climbs_silent].
Qed.

Lemma climbs_deferred {A} lo hi c (m : BM A) : climbs lo m hi → climbs lo (deferred (try_call c) m) hi.
Proof.
  intros Hm. eapply climbs_bind; [exact Hm|]. intros a. apply climbs_silent; [|lia]. apply silent_bind; [apply silent_try|]. intros _. apply silent_ret.
Qed.

Create HintDb silent.

(** Walk through a body that reports nothing. *)
Ltac hush :=
  repeat first
    [ match goal with |- ∀ _, _ => intro end
    | solve [eauto with silent]
    | match goal with |- silent (bind _ _) => apply silent_bind end
    | apply silent_ret | apply silent_now | apply silent_runtime | apply silent_set_runtime | apply silent_call | apply silent_try
    | apply silent_succeeds | apply silent_step | apply silent_deferred
    | match goal with |- silent (match ?x with _ => _ end) => destruct x end ].

Lemma Available_silent : silent Available.
Proof. unfold Available. hush. Qed.
Lemma inspectImage_silent imageRef : silent (inspectImage imageRef).
Proof. unfold inspectImage. hush. Qed.
Lemma exportFilesystem_silent imageRef tarPath : silent (exportFilesystem imageRef tarPath).
Proof. unfold exportFilesystem. hush. Qed.
Lemma extractFileFromTar_silent tarPath src dest : silent (extractFileFromTar tarPath src dest).
Proof. unfold extractFileFromTar. hush. Qed.
#[local] Hint Resolve Available_silent inspectImage_silent exportFilesystem_silent extractFileFromTar_silent : silent.
Lemma try_members_silent tarPath dest dir base lines : silent (try_members tarPath dest dir base lines).
Proof. induction lines as [|line lines IH]; cbn [try_members]; hush. Qed.
#[local] Hint Resolve try_members_silent : silent.
Lemma search_kernel_silent tarPath dest paths : silent (search_kernel tarPath dest paths).
Proof. induction paths as [|p paths IH]; cbn [search_kernel]; hush. Qed.
#[local] Hint Resolve search_kernel_silent : silent.
Lemma find_kernel_silent tarPath outputDir opts : silent (find_kernel tarPath outputDir opts).
Proof. unfold find_kernel, extractKernel, validateFallbackKernel. hush. Qed.
Lemma createRootfs_silent tarPath rootfsPath sizeMB : silent (createRootfs tarPath rootfsPath sizeMB).
Proof. unfold createRootfs, createRootfsFuse, createRootfsMount, blank_disk. hush. Qed.
Lemma size_of_silent path : silent (size_of path).
Proof. unfold size_of. hush. Qed.
#[local] Hint Resolve find_kernel_silent createRootfs_silent size_of_silent : silent.

(** A step of which only the reports after it count. *)
Lemma climbs_after {A B} lo hi (m : BM A) (k : A → BM B) : silent m → (∀ a, climbs lo (k a) hi) → climbs lo (bind m k) hi.
Proof. intros Hm Hk. eapply climbs_bind; [apply climbs_silent; [exact Hm|reflexivity]|exact Hk]. Qed.
Lemma climbs_report {A} lo p hi (k : unit → BM A) : (lo ≤ p)%Z → (∀ a, climbs p (k a) hi) → climbs lo (bind (progress p) k) hi.
Proof. intros Hp Hk. eapply climbs_bind; [by apply climbs_progress|exact Hk]. Qed.

(** Walk through a body from one report to the next. *)
Ltac climb :=
  repeat first
    [ match goal with |- ∀ _, _ => intro end
    | apply climbs_report; [lia|]
    | apply climbs_step; [lia|]
    | apply climbs_deferred
    | apply climbs_after; [solve [hush]|]
    | apply climbs_silent; [solve [hush]|lia]
    | match goal with |- climbs _ (match ?x with _ => _ end) _ => destruct x end ].

Lemma Extract_climbs dataDir imageRef opts : climbs 0 (Extract dataDir imageRef opts) 100.
Proof. unfold Extract, unpack. climb. Qed.

(** * The reports of a pull *)

(** From one report to the next nothing falls: neither the bytes nor the percentage. *)
Fixpoint grows (p : PullProgress) (l : list PullProgress) : Prop :=
  match l with
  | [] => True
  | q :: l => (pp_current p ≤ pp_current q)%Z ∧ (pp_percentage p ≤ pp_percentage q)%Z ∧ grows q l
  end.

Definition within (p : PullProgress) : Prop := (0 ≤ pp_current p ≤ pp_total p)%Z ∧ (0 ≤ pp_percentage p ≤ 100)%Z.

Lemma extraction_within size percent : (0 ≤ size)%Z → (100 * size < 2 ^ 63)%Z → (0 ≤ percent ≤ 100)%Z →
  within (extraction_report size percent) ∧ (pp_percentage (extraction_report size percent) = 50 + percent / 2)%Z ∧
  (pp_current (extraction_report size percent) = (50 + percent / 2) * size / 100)%Z.
Proof.
  intros Hs Hb Hp. unfold extraction_report, within, mul64. cbn [pp_current pp_total pp_percentage].
  rewrite (Z.quot_div_nonneg percent 2) by lia. assert (H2 : (0 ≤ percent / 2 ≤ 50)%Z) by (Z.to_euclidean_division_equations; lia).
  set (a := (50 + percent / 2)%Z). assert (Ha : (0 ≤ a ≤ 100)%Z) by (unfold a; lia). clearbody a.
  rewrite (Z.mod_small (a * size + _)) by nia. replace (a * size + 2 ^ 63 - 2 ^ 63)%Z with (a * size)%Z by lia.
  rewrite Z.quot_div_nonneg by nia. split; [|done]. split; [|lia].
  split; [apply Z.div_pos; nia|]. apply Z.div_le_upper_bound; nia.
Qed.

Lemma grows_last p l q : grows p l → (∀ r, r ∈ p :: l → pp_current r ≤ pp_current q ∧ pp_percentage r ≤ pp_percentage q)%Z → grows p (l ++ [q]).
Proof.
  revert p. induction l as [|r l IH]; intros p; cbn [app grows]; intros Hg Hq.
  - destruct (Hq p) as [? ?]; [by left|]. done.
  - destruct Hg as (? & ? & ?). split_and!; [done..|]. apply IH; [done|]. intros t Ht. apply Hq. by right.
Qed.

Lemma extraction_grows size lo l : (0 ≤ size)%Z → (100 * size < 2 ^ 63)%Z → (0 ≤ lo)%Z → rising lo l 100 →
  grows (extraction_report size lo) (extraction_report size <$> l).
Proof.
  intros Hs Hb. revert lo. induction l as [|p l IH]; intros lo Hlo; cbn [rising fmap list_fmap grows]; [done|]. intros [Hp Hl].
  pose proof (rising_le _ _ _ Hl).
  destruct (extraction_within size lo) as (_ & Ep & Ec); [lia..|]. destruct (extraction_within size p) as (_ & Ep' & Ec'); [lia..|].
  rewrite Ep, Ep', Ec, Ec'. assert (lo / 2 ≤ p / 2)%Z by (apply Z.div_le_mono; lia).
  split_and!; [apply Z.div_le_mono; nia|lia|]. apply IH; [lia|done].
Qed.

(** The reports of the extraction, which begin no earlier than half way. *)
Lemma extract_reports dataDir imageRef dir fallback b size w : (0 ≤ size)%Z → (100 * size < 2 ^ 63)%Z →
  let reports := fst (fst (extract_or_not dataDir imageRef dir fallback b size w)) in
  grows (mkProgress 0 size 0) reports ∧ Forall (λ p, within p ∧ pp_total p = size) reports.
Proof.
  intros Hs Hb. unfold extract_or_not. destruct b; [|done]. set (opts := mkOpts _ _ _ _).
  destruct (Extract_climbs dataDir imageRef opts w) as (new & Hn & Hr). destruct (Extract dataDir imageRef opts w) as [r w'].
  cbn [fst snd] in *. rewrite Hn, drop_app_length. split.
  - destruct new as [|p new]; [done|]. destruct Hr as [Hp Hr]. cbn [fmap list_fmap grows]. pose proof (rising_le _ _ _ Hr).
    destruct (extraction_within size p) as ([? ?] & _); [lia..|]. cbn [pp_current pp_percentage] in *. split_and!; [lia..|]. by apply extraction_grows.
  - apply Forall_fmap. eapply Forall_impl; [exact (rising_bounds _ _ _ Hr)|]. intros p ?. cbn. split; [|done].
    apply (extraction_within size p); [done..|]. done.
Qed.

(** C35: The progress of a pull stays in its bounds.  For an image whose size is not
    negative and can be multiplied by hundred in 64 bits, and however the registry and
    the host answer: every report has a percentage from 0 to 100 and a count of bytes
    from 0 to the total it names, and neither ever falls from one report to the next.
    A pull that succeeds gives an image of the size the registry gave, and its last
    report is of the whole of that size. *)
Theorem PullImage_progress rg dataDir fallback b imageRef w :
  (∀ img size, rg_image rg imageRef = Ok img → ri_size img = Ok size → 0 ≤ size ∧ 100 * size < 2 ^ 63)%Z →
  let '((reports, r), _) := PullImage rg dataDir fallback b imageRef w in
  Forall within reports ∧ grows (mkProgress 0 0 0) reports ∧
  ∀ image, r = Pulled (Ok image) → ∃ img size, rg_image rg imageRef = Ok img ∧ ri_size img = Ok size ∧
    img_size image = size ∧ last reports = Some (mkProgress size size 100).
Proof.
  intros Hsize. assert (Hnil : Forall within [] ∧ grows (mkProgress 0 0 0) []) by done.
  assert (Hz : Forall within [mkProgress 0 0 0] ∧ grows (mkProgress 0 0 0) [mkProgress 0 0 0]) by (unfold within; split; [repeat constructor; cbn; lia|cbn; lia]).
  unfold PullImage. destruct (rg_parse _ _) as [err|]; [cbn; naive_solver|]. destruct (rg_auth _ _) as [err|]; [cbn; naive_solver|].
  destruct (rg_image rg imageRef) as [img|err]; [|cbn; naive_solver]. destruct (ri_digest img) as [digest|err]; [|cbn; naive_solver].
  destruct (ri_size img) as [size|err] eqn:Es; [|cbn; naive_solver]. destruct (Hsize img size eq_refl Es) as [Hs Hb].
  assert (Hbegun : Forall within [mkProgress 0 0 0; mkProgress 0 size 0]) by (unfold within; repeat constructor; cbn; lia).
  destruct (ri_config img) as [config|err]; [|cbn; naive_solver]. destruct (ri_layers img) as [digests|err]; [|cbn; naive_solver].
  destruct (negb _); [cbn; naive_solver|]. rewrite !bind_unfold. cbn [do_call].
  destruct (be_answer _ _) as [g|err]; [|cbn; naive_solver]. rewrite bind_unfold. set (w1 := mkB _ _ _ _).
  set (dir := filepath_join [dataDir; "images"; digest]).
  pose proof (extract_reports dataDir imageRef dir fallback b size w1 Hs Hb) as [Hg Hw].
  destruct (extract_or_not _ _ _ _ _ _ _) as [[reports r] w2]. cbn [fst] in Hg, Hw.
  assert (Hw' : Forall within ([mkProgress 0 0 0; mkProgress 0 size 0] ++ reports)).
  { apply Forall_app_2; [done|]. by eapply Forall_impl; [exact Hw|]; intros p []. }
  destruct r as [[[rootfs kernel] version]|err]; cbn; [|naive_solver]. split_and!; [|done..| |].
  - rewrite !app_comm_cons. apply Forall_app_2; [done|]. unfold within. repeat constructor; cbn; lia.
  - apply grows_last; [done|]. intros p [->|Hp]%elem_of_cons; [cbn; lia|]. rewrite Forall_forall in Hw. destruct (Hw p Hp) as [[? ?] Ht]. cbn. lia.
  - intros image [= <-]. exists img, size. split_and!; [done|done|done|]. cbn. rewrite !app_comm_cons. apply last_snoc.
Qed.

End Climb.

(** * A pull of an image without a kernel *)

(** A host on which Docker works; the image has no file of its own that is a kernel. *)
Definition docker_host : BuilderEnv := {|
  be_answer _ c :=
    match c with
    | Run "tar" args => if bool_decide (last args = Some "boot/vmlinux" ∨ last args = Some "boot/vmlinuz" ∨ last args = Some "vmlinux")
                        then Err (ErrorsNew "not found in archive") else Ok (mkGiven "etc/hosts" 0 false)
    | MkdirTemp _ => Ok (mkGiven "/tmp/mount-1" 0 false)
    | Abs path => Ok (mkGiven path 0 false)
    | Stat _ => Ok (mkGiven "" 1000 true)
    | _ => Ok (mkGiven "" 0 true)
    end;
  be_now _ := 7%Z;
  be_euid := 0%Z;
  be_Unmarshal _ := Some (JArr [JObj [("Id", JStr "sha256:1"); ("Architecture", JStr "amd64")]]) |}.

Definition one_image : registry := mkRegistry (λ _, None) (λ _, None)
  (λ _, Ok (mkRemote (Ok "sha256:0123456789") (Ok 3000%Z) (Ok (Some ("amd64", []))) (Ok ["sha256:0123456789"]))).

Lemma PullImage_progress_witness :
  let '((reports, r), _) := PullImage (BE := docker_host) one_image "/var/lib/nanofuse" "/opt/vmlinux-6.1" true "base" (mkB "docker" [] [] 0) in
  Forall within reports ∧ grows (mkProgress 0 0 0) reports ∧
  (pp_percentage <$> reports) = [0; 0; 55; 60; 65; 75; 80; 95; 100; 100]%Z ∧
  ∃ image, r = Pulled (Ok image) ∧ img_kernel_version image = "6.1" ∧ last reports = Some (mkProgress 3000 3000 100).
Proof.
  pose proof (PullImage_progress (BE := docker_host) one_image "/var/lib/nanofuse" "/opt/vmlinux-6.1" true "base" (mkB "docker" [] [] 0)
    ltac:(intros img size [= <-] [= <-]; lia)) as H.
  destruct (PullImage _ _ _ _ _ _) as [[reports r] w'] eqn:E. vm_compute in E. injection E as <- <- <-. destruct H as (? & ? & ?).
  split_and!; [done|done|reflexivity|]. eexists. split_and!; reflexivity.
Defined.

(** The tag is pulled twice: the digest that is kept is the registry's, the files are
    those of what Docker pulled afterwards, whose digest is dropped. *)
Example digest_of_the_registry :
  match PullImage (BE := docker_host) one_image "/d" "/k" true "base" (mkB "docker" [] [] 0),
        Extract (BE := docker_host) "/d" "base" (mkOpts "/d/images/sha256:0123456789" 2048 [] "/k") (mkB "docker" [] [] 0) with
  | ((_, Pulled (Ok image)), _), (Ok x, _) => img_digest image = "sha256:0123456789" ∧ er_digest x = "sha256:1" ∧ er_rootfs x = img_rootfs image
  | _, _ => False
  end.
Proof. vm_compute. split_and!; reflexivity. Qed.

(** A layer whose digest cannot be had has an empty one, which is sliced. *)
Example layer_without_a_digest :
  fst (PullImage (BE := docker_host)
    (mkRegistry (λ _, None) (λ _, None) (λ _, Ok (mkRemote (Ok "sha256:1") (Ok 1%Z) (Ok None) (Ok [""])))) "/d" "" false "base" (mkB "" [] [] 0)) =
  ([mkProgress 0 0 0; mkProgress 0 1 0], PullPanic).
Proof. vm_compute. reflexivity. Qed.
