(* ===== verification/FcExec.v ===== *)
(** Commands in a Firecracker guest over ssh (src/internal/firecracker/exec.go):
    quoting for the guest's shell, the marker that carries the exit code back, and
    the cap on what a guest can make the daemon keep.

    What running a command in a guest guarantees: the guest's shell gets the
    command word for word, its exit code and output come back exactly, and what is
    kept of the output is bounded however it arrives. *)

From stdpp Require Import pretty.
From S2P Require Import Prelude GoStrings Paths Json Types Server Storage.

Definition nl : string := bytes [10].

(** * The marker *)

Definition exitSentinelPrefix : string := "__NANOFUSE_EXIT_".

(** [hex.EncodeToString]. *)
Definition hex_digit (n : nat) : ascii := ascii_of_nat (if (n <? 10)%nat then n + 48 else n + 87).
Fixpoint hex_encode (b : list nat) : string :=
  match b with
  | [] => ""
  | x :: b' => String (hex_digit (x / 16 mod 16)) (String (hex_digit (x mod 16)) (hex_encode b'))
  end.

(** [random]: the eight bytes of [rand.Read], unless it fails. *)
(* @func internal/firecracker/exec.go newExitMarker *)
Definition newExitMarker (random : option (list nat)) : string :=
  match random with
  | None => exitSentinelPrefix +:+ "x="
  | Some b => exitSentinelPrefix +:+ hex_encode b +:+ "="
  end.

(** [strings.LastIndex] of a non-empty string: what is before and after it. *)
Fixpoint last_split (sub s : string) : option (string * string) :=
  match s with
  | EmptyString => None
  | String a s' =>
      match last_split sub s' with
      | Some (b, r) => Some (String a b, r)
      | None => (λ r, ("", r)) <$> strip_prefix sub s
      end
  end.

Definition is_digit (a : ascii) : bool := (48 <=? nat_of_ascii a)%nat && (nat_of_ascii a <=? 57)%nat.

Fixpoint span_digits (s : string) : string * string :=
  match s with
  | String a s' => if is_digit a then let '(d, r) := span_digits s' in (String a d, r) else ("", s)
  | EmptyString => ("", "")
  end.

(** The exit code and the output without the marker, if it is there. *)
(* @func internal/firecracker/exec.go parseExitSentinel *)
Definition parseExitSentinel (s marker : string) : Z * string * bool :=
  match last_split marker s with
  | None => (0%Z, s, false)
  | Some (before, rest) =>
      let '(digits, tail) := span_digits rest in
      if String.eqb digits "" || negb (String.eqb (trim_space tail) "") then (0%Z, s, false)
      else match atoi digits with
      | None => (0%Z, s, false)
      | Some n => (n, trim_suffix nl before, true)
      end
  end.

(** * Quoting *)

Definition quote : ascii := "'".

(** [strings.ReplaceAll(s, "'", `'\''`)]. *)
Fixpoint escape_quotes (s : string) : string :=
  match s with
  | EmptyString => ""
  | String a s' => if Ascii.eqb a quote then "'\''" +:+ escape_quotes s' else String a (escape_quotes s')
  end.

(* @func internal/firecracker/exec.go shellQuote *)
Definition shellQuote (s : string) : string :=
  if String.eqb s "" then "''" else "'" +:+ escape_quotes s +:+ "'".

(* @func internal/firecracker/exec.go shellJoin *)
Definition shellJoin (args : list string) : string := join " " (shellQuote <$> args).

(** * The capped buffer *)

Definition execOutputCap : Z := 2 ^ 20.
Definition truncationMarker : string := nl +:+ "[output truncated]".

(* @type internal/firecracker/exec.go cappedBuffer *)
Record cappedBuffer : Type := mkBuffer { cb_buf : string; cb_limit : Z; cb_truncated : bool }.

Definition len (s : string) : Z := Z.of_nat (String.length s).
(** [s[:n]]. *)
Definition upto (n : Z) (s : string) : string := String.substring 0 (Z.to_nat n) s.

(* @src internal/firecracker/exec.go:212-224 Write *)
Definition capped_Write (c : cappedBuffer) (p : string) : cappedBuffer :=
  let remaining := (cb_limit c - len (cb_buf c))%Z in
  if (0 <? remaining)%Z then
    if (remaining <? len p)%Z then mkBuffer (cb_buf c +:+ upto remaining p) (cb_limit c) true
    else mkBuffer (cb_buf c +:+ p) (cb_limit c) (cb_truncated c)
  else mkBuffer (cb_buf c) (cb_limit c) (cb_truncated c || (0 <? len p)%Z).

(* @src internal/firecracker/exec.go:226-248 String *)
Definition capped_String (c : cappedBuffer) : string :=
  if negb (cb_truncated c) then cb_buf c
  else
    let keep := Z.max 0 (cb_limit c - len truncationMarker) in
    let s := if (keep <? len (cb_buf c))%Z then upto keep (cb_buf c) else cb_buf c in
    let out := s +:+ truncationMarker in
    if (cb_limit c <? len out)%Z then upto (cb_limit c) out else out.

Definition capture (limit : Z) (writes : list string) : string :=
  capped_String (foldl capped_Write (mkBuffer "" limit false) writes).

(** * Running a command *)

(* @func internal/firecracker/exec.go guestIP *)
Definition guestIP (vm : VM) : string :=
  match vm_runtime vm with
  | Some rt =>
      match rt_network rt with
      | Some n => if negb (String.eqb (nr_guest_ip n) "") then nr_guest_ip n else n_ip (c_network (vm_config vm))
      | None => n_ip (c_network (vm_config vm))
      end
  | None => n_ip (c_network (vm_config vm))
  end.

(* @func internal/firecracker/exec.go firecrackerRuntimeID *)
Definition firecrackerRuntimeID (vm : VM) : string :=
  match vm_runtime vm with
  | Some rt => if negb (String.eqb (trim_space (rt_external_id rt)) "") then rt_external_id rt else vm_id vm
  | None => vm_id vm
  end.

(** The exec settings of the manager. *)
(* @src internal/firecracker/vm.go:43-46 Manager *)
Record exec_config : Type := mkExecConfig { xc_data_dir : string; xc_key : string; xc_user : string; xc_verify : bool }.

(* @func internal/firecracker/exec.go hostKeyOptions *)
Definition hostKeyOptions (m : exec_config) (vmID : string) : list string :=
  if xc_verify m then
    ["-o"; "StrictHostKeyChecking=accept-new"; "-o"; "UserKnownHostsFile=" +:+ filepath_join [xc_data_dir m; "exec_known_hosts"];
     "-o"; "CheckHostIP=no"; "-o"; "HostKeyAlias=nf-" +:+ vmID]
  else ["-o"; "StrictHostKeyChecking=no"; "-o"; "UserKnownHostsFile=/dev/null"].

(** The command line for the guest's shell; a double quote is the byte 34. *)
Definition dq : string := bytes [34].
Definition epilogue (marker : string) : string :=
  "; __nf_rc=$?; printf '\n" +:+ marker +:+ "%d\n' " +:+ dq +:+ "$__nf_rc" +:+ dq +:+ "; exit " +:+ dq +:+ "$__nf_rc" +:+ dq.

Definition remoteCommand (command : list string) (marker : string) : string := shellJoin command +:+ epilogue marker.

(* @src internal/firecracker/exec.go:89-113 Exec *)
Definition ssh_args (m : exec_config) (vm : VM) (ip : string) (command : list string) (marker : string) : list string :=
  let user := if String.eqb (xc_user m) "" then "root" else xc_user m in
  ["-i"; xc_key m; "-o"; "IdentitiesOnly=yes"; "-o"; "BatchMode=yes"; "-o"; "ConnectTimeout=10"; "-o"; "LogLevel=ERROR"]
  ++ hostKeyOptions m (vm_id vm) ++ [user +:+ "@" +:+ ip; remoteCommand command marker].

(** How [cmd.Run] ends: an exit status, or a failure to run with its text. *)
Inductive run_error : Type :=
  | ExitError (code : Z)
  | OtherError (text : string).

Definition maxErrLen : Z := 256.

(* @src internal/firecracker/exec.go:161-178 Exec *)
Definition transport_message (stderr : string) (runErr : run_error) : string :=
  let trimmed := trim_space stderr in
  let msg := if negb (String.eqb trimmed "") then trimmed
    else match runErr with ExitError code => "exit status " +:+ fmt_d code | OtherError text => text end in
  if (maxErrLen <? len msg)%Z then upto maxErrLen msg +:+ bytes [226; 128; 166] +:+ " (truncated; see stderr)" else msg.

(** [ssh]: what the process writes to the two pipes, in pieces, and how it ends;
    [ctx_err]: [ctx.Err()] afterwards. *)
(* @func internal/firecracker/exec.go Exec *)
Definition Exec (m : exec_config) (vm : VM) (command : list string) (random : option (list nat))
    (ssh : list string → list string * list string * option run_error) (ctx_err : option error) :
    option VMExecResult * option error :=
  if String.eqb (xc_key m) "" then
    (None, Some (Errorf "firecracker exec requires firecracker.exec_ssh_key_path: %w" [AWrap (ErrorsNew ErrUnsupportedOperation)]))
  else if match command with [] => true | _ => false end then (None, Some (ErrorsNew "command is required"))
  else
    let ip := guestIP vm in
    if String.eqb ip "" then (None, Some (ErrorsNew "firecracker exec requires a guest IP address; VM is not network-ready"))
    else
      let marker := newExitMarker random in
      let '(out, err, runErr) := ssh (ssh_args m vm ip command marker) in
      let stderr := capture execOutputCap err in
      let '(guestCode, cleanStdout, ranInGuest) := parseExitSentinel (capture execOutputCap out) marker in
      let result code := mkExec command code cleanStdout stderr (firecrackerRuntimeID vm) in
      if ranInGuest then (Some (result guestCode), None)
      else match ctx_err with
      | Some e => (Some (result 0%Z), Some e)
      | None =>
          match runErr with
          | None => (Some (result 0%Z), None)
          | Some (ExitError code) =>
              if negb (code =? 255)%Z then (Some (result code), None)
              else (Some (result 255%Z), Some (Errorf "firecracker exec ssh transport error: %s" [AStr (transport_message stderr (ExitError code))]))
          | Some e => (Some (result 255%Z), Some (Errorf "firecracker exec ssh transport error: %s" [AStr (transport_message stderr e)]))
          end
      end.

Example quote_ex : shellJoin ["echo"; "it's"; ""; "a b"] = "'echo' 'it'\''s' '' 'a b'".
Proof. vm_compute. reflexivity. Qed.

Example parse_ex : let m := newExitMarker (Some [1; 255]%nat) in
  m = "__NANOFUSE_EXIT_01ff=" ∧
  parseExitSentinel ("out" +:+ nl +:+ m +:+ "7" +:+ nl) m = (7%Z, "out", true) ∧
  parseExitSentinel ("out" +:+ nl +:+ m +:+ "7" +:+ nl +:+ "x") m = (0%Z, "out" +:+ nl +:+ m +:+ "7" +:+ nl +:+ "x", false).
Proof. vm_compute. done. Qed.

(** * A shell reads words

    The part of a POSIX shell that matters here: words are separated by blanks,
    single quotes keep everything up to the next one, a backslash keeps the next
    character, and a semicolon ends the command.  Other characters with a meaning
    of their own are not accepted outside quotes.  [word] is the word so far,
    reversed; the rest after the semicolon is returned. *)

Definition plain_char (a : ascii) : bool :=
  let n := nat_of_ascii a in
  ((48 <=? n) && (n <=? 57) || (65 <=? n) && (n <=? 90) || (97 <=? n) && (n <=? 122))%nat
  || existsb (Ascii.eqb a) ["-"; "_"; "."; "/"; ":"; ","; "+"; "@"; "%"]%char.

Definition push (a : ascii) (word : option string) : option string := Some (String a (default "" word)).
Definition finish_word (word : option string) (words : list string) : list string :=
  match word with Some w => string_rev w :: words | None => words end.

Fixpoint sh_words (s : string) (word : option string) (quoted : bool) : option (list string * string) :=
  match s with
  | EmptyString => if quoted then None else Some (finish_word word [], "")
  | String a s' =>
      if quoted then
        if Ascii.eqb a quote then sh_words s' word false else sh_words s' (push a word) true
      else if Ascii.eqb a quote then sh_words s' (Some (default "" word)) true
      else if Ascii.eqb a "\" then
        match s' with
        | String b s'' => sh_words s'' (push b word) false
        | EmptyString => None
        end
      else if Ascii.eqb a " " then (λ '(ws, rest), (finish_word word ws, rest)) <$> sh_words s' None false
      else if Ascii.eqb a ";" then Some (finish_word word [], s')
      else if plain_char a then sh_words s' (push a word) false
      else None
  end.

(** The words of the first command, and what follows it. *)
Definition sh_command (s : string) : option (list string * string) := sh_words s None false.

Lemma sh_words_quoted s word rest :
  sh_words (escape_quotes s +:+ String quote rest) (Some word) true = sh_words rest (Some (string_rev_app s word)) false.
Proof.
  revert word. induction s as [|a s IH]; intros word; [done|]. cbn [escape_quotes string_rev_app].
  destruct (Ascii.eqb_spec a quote) as [->|Hne].
  - rewrite string_app_assoc. cbn. apply IH.
  - rewrite string_app_cons. cbn. apply Ascii.eqb_neq in Hne. rewrite Hne. apply IH.
Qed.

Lemma sh_words_quote s rest :
  sh_words (shellQuote s +:+ rest) None false = sh_words rest (Some (string_rev s)) false.
Proof.
  unfold shellQuote. destruct (String.eqb_spec s "") as [->|_]; [done|].
  rewrite !string_app_assoc. change ("'" +:+ ?x) with (String quote x). cbn [sh_words].
  rewrite Ascii.eqb_refl. change (escape_quotes s +:+ String quote ("" +:+ rest)) with (escape_quotes s +:+ String quote rest).
  apply sh_words_quoted.
Qed.

Lemma sh_words_join args rest :
  args ≠ [] → sh_words (shellJoin args +:+ String ";" rest) None false = Some (args, rest).
Proof.
  unfold shellJoin. induction args as [|a args IH]; [done|]. intros _. destruct args as [|b args].
  - change (join " " (shellQuote <$> [a])) with (shellQuote a). rewrite sh_words_quote. cbn. by rewrite string_rev_involutive.
  - change (join " " (shellQuote <$> a :: b :: args)) with (shellQuote a +:+ (" " +:+ join " " (shellQuote <$> b :: args))).
    rewrite !string_app_assoc, sh_words_quote. change (" " +:+ ?x) with (String " " x). cbn [sh_words].
    rewrite IH by done. cbn. by rewrite string_rev_involutive.
Qed.

(** C25: the guest's shell runs the command that was asked for: it reads from what
    ssh sends exactly the words of the command, whatever bytes are in them, and
    then the epilogue that reports the exit code. *)
Theorem remoteCommand_words command marker :
  command ≠ [] → sh_command (remoteCommand command marker) = Some (command, trim_prefix ";" (epilogue marker)).
Proof.
  intros Hne. unfold sh_command, remoteCommand, epilogue. change ("; __nf_rc" +:+ ?x) with (String ";" (" __nf_rc" +:+ x)).
  by apply sh_words_join.
Qed.

Lemma remoteCommand_words_witness :
  sh_command (remoteCommand ["echo"; "it's; rm -rf /"; ""] (newExitMarker None))
  = Some (["echo"; "it's; rm -rf /"; ""], trim_prefix ";" (epilogue (newExitMarker None))).
Proof. apply remoteCommand_words. discriminate. Defined.

(** * The exit code comes back *)

Definition equals : ascii := "=".

Lemma contains_any_app cs s t : contains_any cs (s +:+ t) = contains_any cs s || contains_any cs t.
Proof. induction s as [|a s IH]; [done|]. rewrite string_app_cons. cbn [contains_any]. by rewrite IH, orb_assoc. Qed.

Lemma last_split_no_char c m s : no_char c s → last_split (m +:+ String c "") s = None.
Proof.
  unfold no_char. induction s as [|a s IH]; intros H; [done|]. cbn in H. apply orb_false_iff in H as [Ha Hs].
  cbn [last_split]. rewrite IH by done. destruct (strip_prefix (m +:+ String c "") (String a s)) as [r|] eqn:E; [|done].
  exfalso. apply strip_prefix_Some in E. assert (contains_any [c] (String a s) = false) as Hc.
  { cbn. by rewrite Ha, Hs. }
  rewrite E, !contains_any_app in Hc. apply orb_false_iff in Hc as [[_ Hc]%orb_false_iff _].
  cbn [contains_any existsb] in Hc. by rewrite Ascii.eqb_refl in Hc.
Qed.

(** A marker that ends in a character it does not have elsewhere does not overlap
    itself. *)
Lemma last_split_overlap c m x r :
  no_char c m → no_char c x → no_char c r → (String.length x < String.length m)%nat →
  last_split (m +:+ String c "") (x +:+ String c r) = None.
Proof.
  intros Hm Hx Hr. revert Hx. induction x as [|a x IH]; intros Hx Hl.
  - change ("" +:+ String c r) with (String c r). cbn [last_split]. rewrite last_split_no_char by done.
    destruct m as [|b m]; [cbn in Hl; lia|]. rewrite string_app_cons. cbn [strip_prefix].
    unfold no_char in Hm. cbn in Hm. apply orb_false_iff in Hm as [[Hb _]%orb_false_iff _]. by rewrite Hb.
  - assert (no_char c x) as Hx' by (unfold no_char in *; cbn in Hx; by apply orb_false_iff in Hx as [_ ?]).
    rewrite string_app_cons. cbn [last_split]. rewrite IH by (done || cbn in Hl; lia).
    destruct (strip_prefix _ _) as [t|] eqn:E; [|done]. exfalso. apply strip_prefix_Some in E.
    rewrite <- string_app_cons, string_app_assoc in E. change (String c "" +:+ t) with (String c t) in E.
    apply (f_equal (split_on c)) in E. rewrite !split_on_app in E by done. injection E as E _. rewrite <- E in Hl. lia.
Qed.

Lemma last_split_end c m b r :
  no_char c m → no_char c r → m ≠ "" →
  last_split (m +:+ String c "") (b +:+ (m +:+ String c "") +:+ r) = Some (b, r).
Proof.
  intros Hm Hr Hne. induction b as [|a b IH].
  - change ("" +:+ ?x) with x. destruct m as [|a m]; [done|].
    assert ((String a m +:+ String c "") +:+ r = String a (m +:+ String c r)) as -> by (by rewrite string_app_assoc, string_app_cons).
    cbn [last_split]. rewrite last_split_overlap; [|done| |done|cbn; lia].
    + assert (strip_prefix (String a m +:+ String c "") (String a (m +:+ String c r)) = Some r) as ->; [|done].
      apply strip_prefix_Some. by rewrite string_app_assoc, string_app_cons.
    + unfold no_char in *. cbn in Hm. by apply orb_false_iff in Hm as [_ ?].
  - rewrite string_app_cons. cbn [last_split]. by rewrite IH.
Qed.

Lemma hex_digit_not_equals n : (n < 16)%nat → Ascii.eqb (hex_digit n) equals = false.
Proof. intros H. do 16 (destruct n as [|n]; [reflexivity|]). lia. Qed.

Lemma no_char_hex b : no_char equals (hex_encode b).
Proof.
  unfold no_char. induction b as [|x b IH]; [done|]. cbn [hex_encode contains_any existsb].
  rewrite !hex_digit_not_equals by (apply Nat.mod_upper_bound; lia). done.
Qed.

Lemma newExitMarker_form random : ∃ m, newExitMarker random = m +:+ String equals "" ∧ no_char equals m ∧ m ≠ "".
Proof.
  destruct random as [b|].
  - exists (exitSentinelPrefix +:+ hex_encode b). cbn [newExitMarker]. rewrite string_app_assoc.
    split_and!; [done| |done]. apply no_char_app; split; [done|apply no_char_hex].
  - by exists (exitSentinelPrefix +:+ "x").
Qed.

(** What [printf '\n<marker>%d\n'] adds to the output. *)
Definition report (marker : string) (code : Z) : string := nl +:+ marker +:+ fmt_d code +:+ nl.

(** The 256 exit codes. *)
Definition code_ok (code : Z) : bool :=
  let '(digits, tail) := span_digits (fmt_d code +:+ nl) in
  negb (String.eqb digits "") && String.eqb (trim_space tail) "" && bool_decide (atoi digits = Some code)
  && negb (contains_any [equals] (fmt_d code +:+ nl)).

Lemma codes_ok code : (0 ≤ code < 256)%Z → code_ok code = true.
Proof.
  intros H. assert (forallb code_ok (seqZ 0 256) = true) as Hall by (vm_compute; reflexivity).
  rewrite forallb_forall in Hall. apply Hall, list_elem_of_In, elem_of_seqZ. lia.
Qed.

Lemma parse_report random out code :
  (0 ≤ code < 256)%Z →
  parseExitSentinel (out +:+ report (newExitMarker random) code) (newExitMarker random) = (code, out, true).
Proof.
  intros Hc. destruct (newExitMarker_form random) as (m & -> & Hm & Hne). apply codes_ok in Hc. unfold code_ok in Hc.
  unfold parseExitSentinel, report. rewrite <- (string_app_assoc out nl).
  destruct (span_digits (fmt_d code +:+ nl)) as [digits tail] eqn:E.
  apply andb_true_iff in Hc as [[[H1 H2]%andb_true_iff H3]%andb_true_iff H4]. apply bool_decide_eq_true in H3.
  apply negb_true_iff in H1, H4. rewrite last_split_end by done. rewrite E, H1, H2, H3. cbn [orb negb]. by rewrite trim_suffix_app.
Qed.

(** * What is kept of the output *)

Fixpoint concat_strings (l : list string) : string :=
  match l with [] => "" | s :: l' => s +:+ concat_strings l' end.

Lemma len_app s t : len (s +:+ t) = (len s + len t)%Z.
Proof. unfold len. rewrite string_app_length. lia. Qed.

Lemma len_nonneg s : (0 ≤ len s)%Z.
Proof. unfold len. lia. Qed.

Lemma substring_app n (s t : string) :
  (String.length s ≤ n)%nat → String.substring 0 n (s +:+ t) = s +:+ String.substring 0 (n - String.length s) t.
Proof.
  revert n. induction s as [|a s IH]; intros n Hn; [by rewrite Nat.sub_0_r|].
  destruct n as [|n]; cbn in Hn; [lia|]. rewrite !string_app_cons. cbn. rewrite IH by lia. done.
Qed.

Lemma substring_short n (s t : string) :
  (n ≤ String.length s)%nat → String.substring 0 n (s +:+ t) = String.substring 0 n s.
Proof.
  revert n. induction s as [|a s IH]; intros [|n] Hn; cbn in Hn; try lia; rewrite ?string_app_cons; [by destruct t|done|].
  cbn. rewrite IH by lia. done.
Qed.

Lemma upto_app n s t : (len s ≤ n)%Z → upto n (s +:+ t) = s +:+ upto (n - len s) t.
Proof. unfold upto, len. intros H. rewrite substring_app by lia. do 2 f_equal. lia. Qed.

Lemma upto_short n s t : (n ≤ len s)%Z → upto n (s +:+ t) = upto n s.
Proof. unfold upto, len. intros H. apply substring_short. lia. Qed.

Lemma upto_prefix n s : (0 ≤ n ≤ len s)%Z → len (upto n s) = n ∧ ∃ r, s = upto n s +:+ r.
Proof.
  unfold upto, len. intros H. destruct (substring_split (Z.to_nat n) s) as [Hl Hr]; [lia|]. split; [lia|exact Hr].
Qed.

Lemma upto_0 s : upto 0 s = "".
Proof. unfold upto. by destruct s. Qed.

Lemma upto_upto m n s : (0 ≤ m ≤ n)%Z → (n ≤ len s)%Z → upto m (upto n s) = upto m s.
Proof.
  intros Hm Hn. destruct (upto_prefix n s ltac:(lia)) as [Hl [r Hr]]. rewrite Hr at 2. symmetry. apply upto_short. lia.
Qed.

Lemma len_upto n s : (0 ≤ n ≤ len s)%Z → len (upto n s) = n.
Proof. intros H. by destruct (upto_prefix n s H). Qed.

(** The state of the buffer says only how much has been written. *)
Definition buffer_of (limit : Z) (total : string) : cappedBuffer :=
  mkBuffer (if (limit <? len total)%Z then upto limit total else total) limit (limit <? len total)%Z.

Lemma capped_Write_spec limit total p :
  (0 ≤ limit)%Z → capped_Write (buffer_of limit total) p = buffer_of limit (total +:+ p).
Proof.
  intros Hl. pose proof (len_nonneg p). unfold capped_Write, buffer_of. cbn [cb_buf cb_limit cb_truncated]. rewrite len_app.
  destruct (Z.ltb_spec limit (len total)).
  - rewrite len_upto by lia. rewrite Z.sub_diag. cbn. rewrite (proj2 (Z.ltb_lt _ _)) by lia. by rewrite upto_short by lia.
  - destruct (Z.ltb_spec 0 (limit - len total)).
    + destruct (Z.ltb_spec (limit - len total) (len p)).
      * rewrite (proj2 (Z.ltb_lt _ _)) by lia. by rewrite upto_app by lia.
      * by rewrite (proj2 (Z.ltb_ge _ _)) by lia.
    + cbn [orb]. destruct (Z.ltb_spec 0 (len p)).
      * rewrite (proj2 (Z.ltb_lt _ _)), upto_app by lia. assert (limit - len total = 0)%Z as -> by lia.
        unfold upto. destruct p; cbn; by rewrite string_app_nil_r.
      * rewrite (proj2 (Z.ltb_ge _ _)) by lia. destruct p; [by rewrite string_app_nil_r|unfold len in *; cbn in *; lia].
Qed.

(** What is returned of an output. *)
Definition capped (limit : Z) (total : string) : string :=
  if (len total <=? limit)%Z then total
  else if (len truncationMarker <=? limit)%Z then upto (limit - len truncationMarker) total +:+ truncationMarker
  else upto limit truncationMarker.

(** What is kept of a guest's output depends only on the bytes, not on how they
    arrive: everything up to the limit, or a prefix with a note -- never more than
    the limit. *)
Theorem capture_spec limit writes :
  (0 ≤ limit)%Z → capture limit writes = capped limit (concat_strings writes) ∧ (len (capture limit writes) ≤ limit)%Z.
Proof.
  intros Hl. assert (foldl capped_Write (mkBuffer "" limit false) writes = buffer_of limit (concat_strings writes)) as E.
  { assert (mkBuffer "" limit false = buffer_of limit "") as ->.
    { unfold buffer_of. change (len "") with 0%Z. by rewrite (proj2 (Z.ltb_ge _ _)). }
    change (concat_strings writes) with ("" +:+ concat_strings writes). generalize "" as t. induction writes as [|p writes IH]; intros t.
    - cbn. by rewrite string_app_nil_r.
    - cbn [foldl concat_strings]. by rewrite capped_Write_spec, IH, string_app_assoc. }
  assert (capture limit writes = capped limit (concat_strings writes)) as Ec.
  { unfold capture. rewrite E. generalize (concat_strings writes) as total. intros total. unfold capped_String, capped, buffer_of.
    cbn [cb_buf cb_limit cb_truncated]. set (mk := truncationMarker). pose proof (len_nonneg mk).
    destruct (Z.ltb_spec limit (len total)); cbn [negb]; [|by rewrite (proj2 (Z.leb_le _ _)) by lia].
    rewrite (proj2 (Z.leb_gt _ _)) by lia. rewrite len_upto by lia. destruct (Z.leb_spec (len mk) limit).
    - rewrite Z.max_r by lia. destruct (Z.ltb_spec (limit - len mk) limit).
      + rewrite upto_upto by lia. rewrite len_app, len_upto by lia. by rewrite (proj2 (Z.ltb_ge _ _)) by lia.
      + assert (len mk = 0)%Z as Hz by lia. discriminate Hz.
    - rewrite Z.max_l by lia. destruct (Z.ltb_spec 0 limit).
      + rewrite upto_0. change ("" +:+ mk) with mk. by rewrite (proj2 (Z.ltb_lt _ _)) by lia.
      + assert (limit = 0)%Z as -> by lia. rewrite !upto_0. change ("" +:+ mk) with mk. by rewrite (proj2 (Z.ltb_lt _ _)) by lia. }
  split; [done|]. rewrite Ec. unfold capped. destruct (Z.leb_spec (len (concat_strings writes)) limit); [done|].
  destruct (Z.leb_spec (len truncationMarker) limit); [|by rewrite len_upto by lia].
  rewrite len_app, len_upto by (pose proof (len_nonneg truncationMarker); lia). lia.
Qed.

Lemma capture_spec_witness : capture 25 ["hello"; " world, this is too long"] = "hello " +:+ truncationMarker.
Proof. rewrite (proj1 (capture_spec 25 ["hello"; " world, this is too long"] ltac:(lia))). vm_compute. reflexivity. Defined.

(** a command that has run in the guest is reported as it ended: if what ssh
    prints is the output and then the report of the shell, within the cap and in
    whatever pieces, the result has exactly that exit code and output and no error,
    whatever ssh's own status is. *)
Theorem Exec_reports_guest m vm command random ssh ctx_err out code err runErr pieces :
  xc_key m ≠ "" → command ≠ [] → guestIP vm ≠ "" → (0 ≤ code < 256)%Z →
  ssh (ssh_args m vm (guestIP vm) command (newExitMarker random)) = (pieces, err, runErr) →
  concat_strings pieces = out +:+ report (newExitMarker random) code → (len (concat_strings pieces) ≤ execOutputCap)%Z →
  Exec m vm command random ssh ctx_err =
    (Some (mkExec command code out (capture execOutputCap err) (firecrackerRuntimeID vm)), None).
Proof.
  intros Hk Hc Hip Hcode Hssh Hout Hcap. unfold Exec. apply String.eqb_neq in Hk, Hip. rewrite Hk, Hip.
  destruct command as [|c0 command]; [done|]. cbn zeta. rewrite Hssh.
  rewrite (proj1 (capture_spec execOutputCap pieces ltac:(done))). unfold capped.
  rewrite (proj2 (Z.leb_le _ _)) by done. rewrite Hout, parse_report by done. done.
Qed.

Definition exec_vm : VM := set_runtime (set_state (example_vm "id1" "web") StateRunning)
  (Some (mkRt 77 "firecracker" "" "/run/vm.sock" "/run/vm.log" (Some (mkNetRt "tap0" "172.16.0.1" "172.16.0.10" "172.16.0.1")))).

Definition ssh_ex (args : list string) : list string * list string * option run_error :=
  (["a"; report (newExitMarker None) 7], ["warning"], Some (ExitError 7)).

Lemma Exec_reports_guest_witness :
  Exec (mkExecConfig "/data" "/data/key" "" false) exec_vm ["true"] None ssh_ex None
  = (Some (mkExec ["true"] 7 "a" (capture execOutputCap ["warning"]) (firecrackerRuntimeID exec_vm)), None).
Proof.
  apply (Exec_reports_guest (mkExecConfig "/data" "/data/key" "" false) exec_vm ["true"] None ssh_ex None "a" 7 ["warning"]
    (Some (ExitError 7)) ["a"; report (newExitMarker None) 7]);
    [discriminate|discriminate|vm_compute; discriminate|lia|reflexivity|vm_compute; reflexivity|vm_compute; discriminate].
Defined.

(** The cap can cut the report off: a command that ran and ended with 255 is then
    taken for a failure of ssh. *)
Example long_output_and_255 :
  let '(result, err) := Exec (mkExecConfig "/data" "/data/key" "" false) exec_vm ["true"] None
    (λ _, (["no report"], [], Some (ExitError 255))) None in
  (x_exit <$> result) = Some 255%Z ∧ err ≠ None.
Proof. vm_compute. done. Qed.
