(* ===== verification/Firecracker.v ===== *)
(** The Firecracker driver (src/internal/firecracker: vm.go, vsock_proxy.go,
    version.go): the process of a VM, its API socket, its boot configuration, the
    proxy of its vsock device and its console.

    The calls are recorded in order, and the environment answers each from its
    number.  Time passes with every call; a sleep takes at least as long as asked.
    The copying of bytes by the proxy's goroutines is not modelled, and a VM handed
    in is not nil. *)

From stdpp Require Import gmap.
From S2P Require Import Prelude GoStrings Paths Json Types FcExec.

Definition millisecond : Z := 1000000.
Definition second : Z := 1000 * millisecond.

(** * The boot configuration *)

(* @type internal/firecracker/vm.go SPIREProxyConfig *)
Record SPIREProxyConfig : Type := mkSPIREProxy {
  sp_enabled : bool; sp_cid : Z; sp_port : Z; sp_agent : string }.

(* @type internal/firecracker/vm.go VsockConfig *)
Record VsockConfig : Type := mkVsock { vk_cid : Z; vk_uds : string }.
(* @type internal/firecracker/vm.go BootSource *)
Record BootSource : Type := mkBoot { bs_kernel : string; bs_args : string }.
(* @type internal/firecracker/vm.go Drive *)
Record Drive : Type := mkDrive { dr_id : string; dr_path : string; dr_read_only : bool; dr_root : bool }.
(* @type internal/firecracker/vm.go MachineConfig *)
Record MachineConfig : Type := mkMachine { mc_vcpus : Z; mc_memory : Z; mc_smt : bool }.
(* @type internal/firecracker/vm.go NetworkInterface *)
Record NetworkInterface : Type := mkIface { ni_id : string; ni_mac : string; ni_dev : string }.
(* @type internal/firecracker/vm.go FirecrackerConfig *)
Record FirecrackerConfig : Type := mkFcConfig {
  fc_boot : BootSource; fc_drives : list Drive; fc_machine : MachineConfig;
  fc_interfaces : list NetworkInterface; fc_vsock : option VsockConfig }.

Definition drive_json (d : Drive) : json := enc_struct
  [f_str "drive_id" (dr_id d); f_str "path_on_host" (dr_path d); f_bool "is_read_only" (dr_read_only d);
   f_bool "is_root_device" (dr_root d)].
Definition interface_json (i : NetworkInterface) : json := enc_struct
  [f_str "iface_id" (ni_id i); f_str "guest_mac" (ni_mac i); f_str "host_dev_name" (ni_dev i)].

(** [json.Marshal] of the configuration. *)
(* @type internal/firecracker/vm.go FirecrackerConfig *)
Definition config_json (c : FirecrackerConfig) : json := enc_struct
  [f_any "boot-source" (enc_struct [f_str "kernel_image_path" (bs_kernel (fc_boot c)); f_str_omit "boot_args" (bs_args (fc_boot c))]);
   f_list drive_json "drives" (fc_drives c);
   f_any "machine-config" (enc_struct [f_int "vcpu_count" (mc_vcpus (fc_machine c)); f_int "mem_size_mib" (mc_memory (fc_machine c));
     f_bool "smt" (mc_smt (fc_machine c))]);
   f_list_omit interface_json "network-interfaces" (fc_interfaces c);
   f_ptr_omit (λ v, enc_struct [f_int "guest_cid" (vk_cid v); f_str "uds_path" (vk_uds v)]) "vsock" (fc_vsock c)].

(* @func internal/firecracker/vm.go addDrivesToConfig *)
Definition addDrivesToConfig (config : FirecrackerConfig) (disks : list DiskConfig) : FirecrackerConfig :=
  mkFcConfig (fc_boot config)
    (fc_drives config ++ ((λ d, mkDrive (d_id d) (d_path d) (d_read_only d) (d_root d)) <$> disks))
    (fc_machine config) (fc_interfaces config) (fc_vsock config).

(* @func internal/firecracker/vm.go addNetworkInterfaceToConfig *)
Definition addNetworkInterfaceToConfig (config : FirecrackerConfig) (network : NetworkConfig) : FirecrackerConfig :=
  if String.eqb (n_mode network) "none" then config
  else mkFcConfig (fc_boot config) (fc_drives config) (fc_machine config)
    (fc_interfaces config ++ [mkIface "eth0" (n_mac network) (n_tap network)]) (fc_vsock config).

(* @func internal/firecracker/vm.go buildKernelArgs *)
Definition buildKernelArgs (vm : VM) : string :=
  let args := c_kernel_args (vm_config vm) in
  if String.eqb (c_ssh_key (vm_config vm)) "" then args else args +:+ " sshkey=" +:+ c_ssh_key (vm_config vm).

(** The proxy of a VM: [vp_running] between its start and its stop. *)
(* @type internal/firecracker/vsock_proxy.go VsockProxy *)
Record VsockProxy : Type := mkProxy { vp_path : string; vp_target : string; vp_port : Z; vp_running : bool }.

(* @type internal/firecracker/vm.go Manager *)
Record Manager : Type := mkManager {
  m_binary : string; m_data_dir : string; m_spire : option SPIREProxyConfig; m_proxies : gmap string VsockProxy }.

(* @func internal/firecracker/vm.go NewManager *)
Definition NewManager (binaryPath dataDir : string) : Manager := mkManager binaryPath dataDir None ∅.

(* @func internal/firecracker/vm.go SetSPIREConfig *)
Definition SetSPIREConfig (m : Manager) (cfg : option SPIREProxyConfig) : Manager * option error :=
  match cfg with
  | Some c =>
      if sp_enabled c && (sp_cid c <? 3)%Z then
        (m, Some (Errorf "VsockCID must be >= 3 (got %d): 0-2 are reserved" [AInt (sp_cid c)]))
      else (mkManager (m_binary m) (m_data_dir m) cfg (m_proxies m), None)
  | None => (mkManager (m_binary m) (m_data_dir m) cfg (m_proxies m), None)
  end.

(** The configuration that enables vsock. *)
Definition spire_enabled (m : Manager) : option SPIREProxyConfig :=
  match m_spire m with
  | Some c => if sp_enabled c && (3 <=? sp_cid c)%Z then Some c else None
  | None => None
  end.

(* @func internal/firecracker/vm.go buildFirecrackerConfig *)
Definition buildFirecrackerConfig (m : Manager) (vm : VM) (image : Image) (vmDir : string) : FirecrackerConfig :=
  let fcConfig := mkFcConfig (mkBoot (img_kernel image) (buildKernelArgs vm)) []
    (mkMachine (c_vcpus (vm_config vm)) (c_memory (vm_config vm)) false) [] None in
  let fcConfig := addDrivesToConfig fcConfig (c_disks (vm_config vm)) in
  let fcConfig := addNetworkInterfaceToConfig fcConfig (c_network (vm_config vm)) in
  match spire_enabled m with
  | Some c => mkFcConfig (fc_boot fcConfig) (fc_drives fcConfig) (fc_machine fcConfig) (fc_interfaces fcConfig)
      (Some (mkVsock (sp_cid c) (filepath_join [vmDir; "vsock.sock"])))
  | None => fcConfig
  end.

(* @func internal/firecracker/vm.go setupVMRuntime *)
Definition setupVMRuntime (vm : VM) (pid : Z) (socketPath consolePath : string) : VM :=
  let n := c_network (vm_config vm) in
  set_runtime vm (Some (mkRt pid "" "" socketPath consolePath
    (if String.eqb (n_mode n) "nat" then Some (mkNetRt (n_tap n) "172.16.0.1" (n_ip n) (n_gateway n)) else None))).

(** * The host *)

Inductive signal : Type := Sig0 | SIGTERM | SIGKILL.
Inductive sig_result : Type := Delivered | ProcessDone | SigFails (e : error).
Inductive http_answer : Type := HttpFails (e : error) | HttpAnswer (status : Z) (body : string).
Inductive http_method : Type := PUT | PATCH.

#[global] Instance signal_eq_dec : EqDecision signal.
Proof. solve_decision. Defined.
#[global] Instance http_method_eq_dec : EqDecision http_method.
Proof. solve_decision. Defined.

(** What is done to the host, in order. *)
Inductive call : Type :=
  | CMkdirAll (path : string) (mode : Z)
  | CChmod (path : string) (mode : Z)
  | CWrite (path text : string)
  | CRemove (path : string)
  | CSpawn (c : command) (pid : Z)             (* a process that was started *)
  | CSignal (pid : Z) (s : signal) (r : sig_result)
  | CReap (pid : Z)                            (* [cmd.Wait] *)
  | CWatch (vmID : string) (pid : Z)           (* the goroutine that waits for the process *)
  | CExit (vmID : string) (code : option Z)    (* the exit handler is called *)
  | CRequest (socket : string) (method : http_method) (endpoint : string) (body : json) (ok : bool)
  | CProxyStart (path : string)
  | CProxyStop (path : string)
  | CCommand (c : command) (ok : bool).

Record FcWorld : Type := mkFc { fw_m : Manager; fw_clock : Z; fw_calls : list call; fw_tick : nat }.

Class FcEnv : Type := {
  fe_fault : nat → option error;                 (* a call of the system *)
  fe_elapsed : nat → N;                          (* how long a call takes, beyond a sleep *)
  fe_regular : nat → string → result bool;       (* [os.Lstat]: is it a regular file? *)
  fe_spawn : nat → command → result Z;
  fe_signal : nat → Z → signal → sig_result;
  fe_wait : nat → Z → option Z * option error;   (* [cmd.Wait]: the exit code, if there is a state, and the error *)
  fe_polls : nat → Z → nat;                      (* ticks of 100 ms that are selected before a timer *)
  fe_dial : nat → option error;
  fe_http : nat → string → http_method → string → json → http_answer;
  fe_read : nat → string → result string;
  fe_random : nat → option Z;                    (* a random byte *)
  fe_command : nat → command → option error * string }.

Definition FM (A : Type) : Type := State FcWorld A.

Definition set_proxies (f : gmap string VsockProxy → gmap string VsockProxy) (w : FcWorld) : FcWorld :=
  let m := fw_m w in
  mkFc (mkManager (m_binary m) (m_data_dir m) (m_spire m) (f (m_proxies m))) (fw_clock w) (fw_calls w) (fw_tick w).

Section Host.
Context `{FE : FcEnv}.

(** A call takes time and one tick. *)
Definition pass (d : Z) (w : FcWorld) : FcWorld :=
  mkFc (fw_m w) (fw_clock w + d + Z.of_N (fe_elapsed (fw_tick w)))%Z (fw_calls w) (S (fw_tick w)).
Definition record (c : call) (w : FcWorld) : FcWorld := mkFc (fw_m w) (fw_clock w) (fw_calls w ++ [c]) (fw_tick w).

Definition ask {A} (f : nat → A) : FM A := λ w, (f (fw_tick w), pass 0 w).
Definition log (c : call) : FM unit := λ w, (tt, record c w).
Definition manager : FM Manager := λ w, (fw_m w, w).
Definition now : FM Z := λ w, (fw_clock w, w).
Definition sleep (d : Z) : FM unit := λ w, (tt, pass d w).

(** A call that can fail, recorded when it succeeds. *)
Definition attempt (c : call) : FM (option error) :=
  let* e := ask fe_fault in
  match e with Some err => ret (Some err) | None => log c ;;; ret None end.

Definition send (pid : Z) (s : signal) : FM sig_result :=
  let* r := ask (λ n, fe_signal n pid s) in log (CSignal pid s r) ;;; ret r.

(** * The process *)

(* @func internal/firecracker/vm.go startFirecrackerProcess *)
Definition startFirecrackerProcess (socketPath configPath consolePath : string) : FM (result Z) :=
  let* e := ask fe_fault in
  match e with
  | Some err => ret (Err (Errorf "failed to create console log: %w" [AWrap err]))
  | None =>
      let* m := manager in
      let args := ["--api-sock"; socketPath] ++ (if String.eqb configPath "" then [] else ["--config-file"; configPath]) in
      let c := Cmd (m_binary m) args in
      let* r := ask (λ n, fe_spawn n c) in
      match r with
      | Err err => ret (Err (Errorf "failed to start Firecracker: %w" [AWrap err]))
      | Ok pid => log (CSpawn c pid) ;;; ret (Ok pid)
      end
  end.

(* @func internal/firecracker/vm.go writeFirecrackerConfig *)
Definition writeFirecrackerConfig (configPath : string) (config : FirecrackerConfig) : FM (option error) :=
  checked (attempt (CWrite configPath (marshal_indent 0 (config_json config))))
    (λ err, Some (Errorf "failed to write config file: %w" [AWrap err])) (ret None).

(** [handler]: whether an exit handler is set. *)
(* @func internal/firecracker/vm.go waitForProcessExit *)
Definition waitForProcessExit (handler : bool) (vmID : string) (pid : Z) : FM unit :=
  let* ' (code, err) := ask (λ n, fe_wait n pid) in
  log (CReap pid) ;;;
  if handler then log (CExit vmID code) else ret tt.

(** * The proxy of the vsock device *)

(* @func internal/firecracker/vsock_proxy.go NewVsockProxy *)
Definition NewVsockProxy (vsockPath targetSocket : string) (port : Z) : result VsockProxy :=
  if String.eqb vsockPath "" then Err (ErrorsNew "vsock path is required")
  else if String.eqb targetSocket "" then Err (ErrorsNew "target socket is required")
  else Ok (mkProxy vsockPath targetSocket port false).

(** [os.Remove], with a file that is not there taken as removed. *)
Definition remove_stale (path : string) : FM (option error) :=
  let* e := ask fe_fault in
  match e with
  | Some err => ret (if os_IsNotExist err then None else Some err)
  | None => log (CRemove path) ;;; ret None
  end.

(* @src internal/firecracker/vsock_proxy.go:59-89 Start *)
Definition proxy_Start (p : VsockProxy) : FM (VsockProxy * option error) :=
  if vp_running p then ret (p, Some (ErrorsNew "proxy already running"))
  else
    checked (remove_stale (vp_path p)) (λ err, (p, Some (Errorf "failed to remove existing socket: %w" [AWrap err]))) (
    checked (attempt (CProxyStart (vp_path p))) (λ err, (p, Some (Errorf "failed to listen on vsock socket: %w" [AWrap err]))) (
    ret (mkProxy (vp_path p) (vp_target p) (vp_port p) true, None))).

(* @src internal/firecracker/vsock_proxy.go:92-125 Stop *)
Definition proxy_Stop (p : VsockProxy) : FM unit :=
  if vp_running p then log (CProxyStop (vp_path p)) ;;; remove_stale (vp_path p) ;;; ret tt else ret tt.

(** The proxy is taken out of the map before it is stopped. *)
(* @func internal/firecracker/vm.go stopVsockProxy *)
Definition stopVsockProxy (vmID : string) : FM bool :=
  let* m := manager in
  match m_proxies m !! vmID with
  | Some proxy => (λ w, (tt, set_proxies (delete vmID) w)) ;;; proxy_Stop proxy ;;; ret true
  | None => ret false
  end.

(* @func internal/firecracker/vm.go startVsockProxyIfConfigured *)
Definition startVsockProxyIfConfigured (vmID vsockPath : string) : FM unit :=
  let* m := manager in
  match spire_enabled m with
  | None => ret tt
  | Some c =>
      stopVsockProxy vmID ;;;
      match NewVsockProxy vsockPath (sp_agent c) (sp_port c) with
      | Err _ => ret tt
      | Ok proxy =>
          let* ' (proxy, e) := proxy_Start proxy in
          match e with
          | Some _ => ret tt
          | None => λ w, (tt, set_proxies <[vmID := proxy]> w)
          end
      end
  end.

(** * Start *)

Definition perm_0750 : Z := 488.
Definition perm_0755 : Z := 493.

(** Directory and mode, as [Start] and [LoadSnapshot] set them up. *)
(* @src internal/firecracker/vm.go:294-299 Start *)
Definition prepare_dir (vmDir : string) : FM (option error) :=
  checked (attempt (CMkdirAll vmDir perm_0750)) (λ err, Some (Errorf "failed to create VM directory: %w" [AWrap err])) (
  checked (attempt (CChmod vmDir perm_0750)) (λ err, Some (Errorf "failed to set VM directory permissions: %w" [AWrap err])) (
  ret None)).

Definition vm_dir (m : Manager) (vm : VM) : string := filepath_join [m_data_dir m; "vms"; vm_id vm].

(* @func internal/firecracker/vm.go Start *)
Definition Start (vm : VM) (image : Image) : FM (VM * option error) :=
  let* m := manager in
  let vmDir := vm_dir m vm in
  checked (prepare_dir vmDir) (λ err, (vm, Some err)) (
  let socketPath := filepath_join [vmDir; "firecracker.sock"] in
  let consolePath := filepath_join [vmDir; "console.log"] in
  let configPath := filepath_join [vmDir; "config.json"] in
  let fcConfig := buildFirecrackerConfig m vm image vmDir in
  checked (writeFirecrackerConfig configPath fcConfig) (λ err, (vm, Some err)) (
  checked_result (startFirecrackerProcess socketPath configPath consolePath) (λ err, (vm, Some err)) (λ pid,
  (match fc_vsock fcConfig with
   | Some v => startVsockProxyIfConfigured (vm_id vm) (vk_uds v)
   | None => ret tt
   end) ;;;
  log (CWatch (vm_id vm) pid) ;;;
  ret (setupVMRuntime vm pid socketPath consolePath, None)))).

(** * Stop and Kill *)

(** [os.FindProcess] does not fail on Unix. *)
(* @func internal/firecracker/vm.go IsRunning *)
Definition IsRunning (pid : Z) : FM bool :=
  let* r := send pid Sig0 in
  ret (match r with Delivered => true | _ => false end).

(** Probe on every tick until the process is gone or the timer fires. *)
Fixpoint poll_gone (n : nat) (pid : Z) : FM bool :=
  match n with
  | O => ret false
  | S n =>
      sleep (100 * millisecond) ;;;
      let* up := IsRunning pid in
      if up : bool then poll_gone n pid else ret true
  end.

(** The timer is selected once it has fired, [timeout] after the start at the
    earliest; how many ticks are selected before is up to the scheduler. *)
(* @src internal/firecracker/vm.go:402-419 Stop *)
Definition wait_gone (timeout pid : Z) : FM bool :=
  let* start := now in
  let* n := ask (λ n, fe_polls n timeout) in
  let* gone := poll_gone n pid in
  if gone : bool then ret true
  else
    let* t := now in
    sleep (Z.max 0 (start + timeout - t)) ;;;
    ret false.

Definition runtime_pid (vm : VM) : option Z :=
  match vm_runtime vm with
  | Some rt => if (rt_pid rt =? 0)%Z then None else Some (rt_pid rt)
  | None => None
  end.

(* @func internal/firecracker/vm.go Stop *)
Definition Stop (vm : VM) (timeoutSeconds : Z) : FM (option error) :=
  match runtime_pid vm with
  | None => ret (Some (Errorf "VM runtime info not available" []))
  | Some pid =>
      stopVsockProxy (vm_id vm) ;;;
      let timeoutSeconds := if (timeoutSeconds <=? 0)%Z then 10%Z else timeoutSeconds in
      let* r := send pid SIGTERM in
      match r with
      | ProcessDone => ret None
      | SigFails err => ret (Some (Errorf "failed to send SIGTERM: %w" [AWrap err]))
      | Delivered =>
          let* gone := wait_gone (timeoutSeconds * second) pid in
          if gone : bool then ret None
          else
            let* r := send pid SIGKILL in
            match r with
            | ProcessDone => ret None
            | SigFails err => ret (Some (Errorf "failed to send SIGKILL: %w" [AWrap err]))
            | Delivered =>
                let* gone := wait_gone (5 * second) pid in
                if gone : bool then ret None
                else ret (Some (Errorf "VM %s (PID %d) did not stop even after SIGKILL" [AStr (vm_id vm); AInt pid]))
            end
      end
  end.

(* @func internal/firecracker/vm.go Kill *)
Definition Kill (vm : VM) : FM (option error) :=
  match runtime_pid vm with
  | None => ret (Some (Errorf "VM runtime info not available" []))
  | Some pid =>
      let* r := send pid SIGKILL in
      ret match r with
      | Delivered => None
      | ProcessDone => Some (Errorf "failed to send SIGKILL: %w" [AWrap (ErrorsNew "os: process already finished")])
      | SigFails err => Some (Errorf "failed to send SIGKILL: %w" [AWrap err])
      end
  end.

(* @func internal/firecracker/vm.go Delete *)
Definition Delete (vm : VM) : FM (option error) := ret None.

(** * Requests to the API socket *)

(** [vm] is nil, or a VM. *)
(* @func internal/firecracker/vm.go vmAPISocket *)
Definition vmAPISocket (vm : option VM) : result string :=
  match vm with
  | None => Err (ErrorsNew "VM is required")
  | Some vm =>
      match vm_runtime vm with
      | Some rt => if String.eqb (rt_socket rt) "" then Err (ErrorsNew "VM runtime socket path not available") else Ok (rt_socket rt)
      | None => Err (ErrorsNew "VM runtime socket path not available")
      end
  end.

(** The payloads are structs of strings and booleans, whose marshalling does not
    fail, and the request built from them is well formed. *)
(* @func internal/firecracker/vm.go firecrackerJSONRequest *)
Definition firecrackerJSONRequest (socketPath : string) (method : http_method) (endpoint : string) (payload : json) :
    FM (option error) :=
  let* answer := ask (λ n, fe_http n socketPath method endpoint payload) in
  let settle ok e := log (CRequest socketPath method endpoint payload ok) ;;; ret e in
  match answer with
  | HttpFails err => settle false (Some (Errorf "firecracker API request %s failed: %w" [AStr endpoint; AWrap err]))
  | HttpAnswer status body =>
      if (status <? 200)%Z || (300 <=? status)%Z then
        let respBody := limited 4096 body in
        settle false (Some (if String.eqb respBody "" then
            Errorf "firecracker API request %s failed with status %d" [AStr endpoint; AInt status]
          else Errorf "firecracker API request %s failed with status %d: %s" [AStr endpoint; AInt status; AStr respBody]))
      else settle true None
  end.

(* @src internal/firecracker/vm.go:523-529 firecrackerPUT *)
Definition firecrackerPUT (socketPath endpoint : string) (payload : json) : FM (option error) :=
  firecrackerJSONRequest socketPath PUT endpoint payload.
Definition firecrackerPATCH (socketPath endpoint : string) (payload : json) : FM (option error) :=
  firecrackerJSONRequest socketPath PATCH endpoint payload.

(* @type internal/firecracker/vm.go vmStateRequest *)
Definition vmStateRequest (state : string) : json := enc_struct [f_str "state" state].
(* @type internal/firecracker/vm.go snapshotCreateRequest *)
Definition snapshotCreateRequest (type snapshotPath memPath : string) : json :=
  enc_struct [f_str "snapshot_type" type; f_str "snapshot_path" snapshotPath; f_str "mem_file_path" memPath].
(* @type internal/firecracker/vm.go memoryBackend *)
Definition memoryBackend (type path : string) : json := enc_struct [f_str "backend_type" type; f_str "backend_path" path].
(* @type internal/firecracker/vm.go snapshotLoadRequest *)
Definition snapshotLoadRequest (snapshotPath : string) (mem : json) (resume : bool) : json :=
  enc_struct [f_str "snapshot_path" snapshotPath; f_any "mem_backend" mem; f_bool "resume_vm" resume].

(** [set_state]: the request to change the state of the machine. *)
Definition patch_state (socketPath state : string) : FM (option error) :=
  firecrackerPATCH socketPath "/vm" (vmStateRequest state).

(* @func internal/firecracker/vm.go Pause *)
Definition Pause (vm : VM) : FM (option error) :=
  match vmAPISocket (Some vm) with
  | Err err => ret (Some err)
  | Ok socketPath =>
      checked (patch_state socketPath "Paused")
        (λ err, Some (Errorf "failed to pause Firecracker VM %s: %w" [AStr (vm_id vm); AWrap err])) (ret None)
  end.

(* @func internal/firecracker/vm.go Resume *)
Definition Resume (vm : VM) : FM (option error) :=
  match vmAPISocket (Some vm) with
  | Err err => ret (Some err)
  | Ok socketPath =>
      checked (patch_state socketPath "Resumed")
        (λ err, Some (Errorf "failed to resume Firecracker VM %s: %w" [AStr (vm_id vm); AWrap err])) (ret None)
  end.

(* @func internal/firecracker/vm.go CreateSnapshot *)
Definition CreateSnapshot (vm : VM) (snapshotPath memPath : string) : FM (option error) :=
  match vmAPISocket (Some vm) with
  | Err err => ret (Some err)
  | Ok socketPath =>
      if String.eqb snapshotPath "" then ret (Some (ErrorsNew "snapshot path is required"))
      else if String.eqb memPath "" then ret (Some (ErrorsNew "snapshot memory path is required"))
      else
        checked (attempt (CMkdirAll (filepath_dir snapshotPath) perm_0755))
          (λ err, Some (Errorf "failed to create snapshot directory: %w" [AWrap err])) (
        checked (attempt (CMkdirAll (filepath_dir memPath) perm_0755))
          (λ err, Some (Errorf "failed to create memory snapshot directory: %w" [AWrap err])) (
        checked (firecrackerPUT socketPath "/snapshot/create" (snapshotCreateRequest "Full" snapshotPath memPath))
          (λ err, Some (Errorf "failed to create Firecracker snapshot for VM %s: %w" [AStr (vm_id vm); AWrap err])) (
        ret None)))
  end.

(** * Loading a snapshot *)

(* @func internal/firecracker/vm.go requireRegularFile *)
Definition requireRegularFile (path : string) : FM (option error) :=
  let* info := ask (λ n, fe_regular n path) in
  ret match info with
  | Err err => Some (Errorf "not accessible: %w" [AWrap err])
  | Ok regular => if regular then None else Some (Errorf "not a regular file (mode %v)" [])
  end.

(* @func internal/firecracker/vm.go sendSnapshotLoad *)
Definition sendSnapshotLoad (socketPath snapshotPath memPath : string) : FM (option error) :=
  checked (firecrackerPUT socketPath "/snapshot/load" (snapshotLoadRequest snapshotPath (memoryBackend "File" memPath) false))
    (λ err, Some (Errorf "firecracker /snapshot/load failed: %w" [AWrap err])) (ret None).

(** Dial until the socket answers or the deadline has passed; [None]: the fuel is
    used up. *)
(* @src internal/firecracker/vm.go:778-793 waitForSocketReady *)
Fixpoint dial_loop (fuel : nat) (socketPath : string) (timeout deadline : Z) : FM (option (option error)) :=
  match fuel with
  | O => ret None
  | S fuel =>
      let* lastErr := ask fe_dial in
      match lastErr with
      | None => ret (Some None)
      | Some err =>
          let* t := now in
          if (deadline <? t)%Z then
            ret (Some (Some (Errorf "timed out after %s waiting for API socket %s: %w" [AInt timeout; AStr socketPath; AWrap err])))
          else sleep (50 * millisecond) ;;; dial_loop fuel socketPath timeout deadline
      end
  end.

(** A round without success lasts 50 ms at least. *)
Definition dial_fuel (timeout : Z) : nat := Z.to_nat (timeout / (50 * millisecond)) + 2.

(* @func internal/firecracker/vm.go waitForSocketReady *)
Definition waitForSocketReady (socketPath : string) (timeout : Z) : FM (option (option error)) :=
  let* t := now in
  dial_loop (dial_fuel timeout) socketPath timeout (t + timeout)%Z.

(** [cmd.Wait] returns once the process has ended: after a [SIGKILL] that was
    delivered it is assumed to, and so it is where [fe_wait] stands for it. *)
(* @func internal/firecracker/vm.go killAndReap *)
Definition killAndReap (pid : Z) : FM unit :=
  send pid SIGKILL ;;; ask (λ n, fe_wait n pid) ;;; log (CReap pid).

(** [None]: the wait for the socket runs out of fuel. *)
(* @func internal/firecracker/vm.go LoadSnapshot *)
Definition LoadSnapshot (vm : VM) (snapshotPath memPath : string) : FM (option (VM * option error)) :=
  let fail err := Some (vm, Some err) in
  if String.eqb snapshotPath "" then ret (fail (ErrorsNew "snapshot path is required"))
  else if String.eqb memPath "" then ret (fail (ErrorsNew "snapshot memory path is required"))
  else
    checked (requireRegularFile snapshotPath) (λ err, fail (Errorf "snapshot state file at %s: %w" [AStr snapshotPath; AWrap err])) (
    checked (requireRegularFile memPath) (λ err, fail (Errorf "snapshot memory file at %s: %w" [AStr memPath; AWrap err])) (
    let* m := manager in
    let vmDir := vm_dir m vm in
    checked (prepare_dir vmDir) fail (
    let socketPath := filepath_join [vmDir; "firecracker.sock"] in
    let consolePath := filepath_join [vmDir; "console.log"] in
    checked (remove_stale socketPath)
      (λ err, fail (Errorf "failed to remove stale API socket %s: %w" [AStr socketPath; AWrap err])) (
    checked_result (startFirecrackerProcess socketPath "" consolePath) fail (λ pid,
    let* ready := waitForSocketReady socketPath (10 * second) in
    match ready with
    | None => ret None
    | Some (Some err) =>
        killAndReap pid ;;; ret (fail (Errorf "firecracker API socket not ready for VM %s: %w" [AStr (vm_id vm); AWrap err]))
    | Some None =>
        let* e := sendSnapshotLoad socketPath snapshotPath memPath in
        match e with
        | Some err => killAndReap pid ;;; ret (fail (Errorf "failed to load snapshot for VM %s: %w" [AStr (vm_id vm); AWrap err]))
        | None =>
            startVsockProxyIfConfigured (vm_id vm) (filepath_join [vmDir; "vsock.sock"]) ;;;
            let* e := patch_state socketPath "Resumed" in
            match e with
            | Some err =>
                stopVsockProxy (vm_id vm) ;;;
                killAndReap pid ;;;
                ret (fail (Errorf "failed to resume loaded snapshot for VM %s: %w" [AStr (vm_id vm); AWrap err]))
            | None =>
                log (CWatch (vm_id vm) pid) ;;;
                ret (Some (setupVMRuntime vm pid socketPath consolePath, None))
            end
        end
    end))))).

(** * Console, network devices and version *)

(** [bytes.Split] at newlines, the last [tailLines] pieces joined again. *)
(* @func internal/firecracker/vm.go GetConsoleLogs *)
Definition tail_of (data : string) (tailLines : Z) : string :=
  if (tailLines <=? 0)%Z then data
  else
    let lines := split_on "010" data in
    if (Z.of_nat (length lines) <=? tailLines)%Z then data
    else join nl (drop (length lines - Z.to_nat tailLines) lines).

(* @func internal/firecracker/vm.go GetConsoleLogs *)
Definition GetConsoleLogs (vm : VM) (tailLines : Z) : FM (result string) :=
  match vm_runtime vm with
  | None => ret (Err (Errorf "VM runtime info not available" []))
  | Some rt =>
      checked_result (ask (λ n, fe_read n (rt_console rt)))
        (λ err, Err (Errorf "failed to read console logs: %w" [AWrap err]))
        (λ data, ret (Ok (tail_of data tailLines)))
  end.

(* @func internal/firecracker/vm.go randomByte *)
Definition randomByte : FM Z := let* b := ask fe_random in ret (default 0%Z b).

(* @func internal/firecracker/vm.go generateMAC *)
Definition generateMAC : FM string :=
  let* b0 := randomByte in
  let* b1 := randomByte in
  let* b2 := randomByte in
  ret ("AA:FC:00:" +:+ join ":" ((λ b, hex_encode [Z.to_nat b]) <$> [b0; b1; b2])).

Definition with_network (vm : VM) (n : NetworkConfig) : VM :=
  mkVM (vm_id vm) (vm_name vm) (vm_state vm) (vm_image vm) (vm_digest vm) (vm_arch vm) (set_network (vm_config vm) n)
    (vm_runtime vm) (vm_created vm) (vm_updated vm) (vm_locked_by vm) (vm_locked_at vm)
    (vm_owner vm) (vm_group vm) (vm_spiffe vm).

(** [None]: the slice of an id of less than eight bytes panics. *)
(* @func internal/firecracker/vm.go SetupNetwork *)
Definition SetupNetwork (vm : VM) : FM (option VM) :=
  let n := c_network (vm_config vm) in
  if String.eqb (n_mode n) "none" then ret (Some vm)
  else if String.eqb (n_tap n) "" && (String.length (vm_id vm) <? 8)%nat then ret None
  else
    let tap := if String.eqb (n_tap n) "" then "tap" +:+ upto 8 (vm_id vm) else n_tap n in
    let* mac := if String.eqb (n_mac n) "" then generateMAC else ret (n_mac n) in
    ret (Some (with_network vm (
      (mkNet (n_mode n) tap mac (n_bridge n) (n_ip n) (n_gateway n) (n_netmask n) (n_forwards n) (n_egress n))))).

Definition run_command (name : string) (args : list string) : FM (option error * string) :=
  let c := Cmd name args in
  let* ' (e, out) := ask (λ n, fe_command n c) in
  log (CCommand c match e with None => true | Some _ => false end) ;;;
  ret (e, out).

(* @func internal/firecracker/vm.go CleanupNetwork *)
Definition CleanupNetwork (vm : VM) : FM (option error) :=
  let n := c_network (vm_config vm) in
  if String.eqb (n_mode n) "none" || String.eqb (n_tap n) "" then ret None
  else
    let* ' (e, _) := run_command "ip" ["link"; "show"; n_tap n] in
    match e with
    | Some _ => ret None
    | None => run_command "ip" ["link"; "delete"; n_tap n] ;;; ret None
    end.

(* @func internal/firecracker/version.go BinaryVersion *)
Definition BinaryVersion (binaryPath : string) : FM (result string) :=
  if String.eqb binaryPath "" then ret (Err (ErrorsNew "firecracker binary path is required"))
  else
    let* ' (e, out) := run_command binaryPath ["--version"] in
    match e with
    | Some err =>
        let detail := trim_space out in
        ret (Err (if String.eqb detail "" then Errorf "query firecracker version: %w" [AWrap err]
          else Errorf "query firecracker version: %w: %s" [AWrap err; AStr detail]))
    | None =>
        let version := trim_space (trim_prefix "Firecracker " (trim_space (default "" (head (split_on "010" out))))) in
        ret (if String.eqb version "" then Err (ErrorsNew "firecracker reported an empty version") else Ok version)
    end.

End Host.
