(* ===== verification/AppleContainer.v ===== *)
(** The Apple container driver (src/internal/applecontainer/manager.go): VMs as
    containers of Apple's command-line tool.

    The tool answers every command with its output and, if it fails, the text of the
    error; the calls are recorded with their answers.  Time passes with every call.
    Decoding the JSON it prints is the library's; the entries are read from the tree.

    What the Apple container driver guarantees, whatever the tool answers: a VM is
    reported started only when the last inspection says it runs, stopped when it says
    that it does not, deleted when the tool accepted it; and no wait is endless. *)

From stdpp Require Import gmap.
From S2P Require Import Prelude GoStrings GoNet Json Types Server DaemonConfig Storage.

(* @src internal/applecontainer/manager.go:21-24 DriverName *)
Definition DriverName : string := "apple_container".
Definition labelVMID : string := "nanofuse.vm_id".

(** What a command of the tool printed, and the error if it failed. *)
Definition answer : Type := string * option string.

Record AWorld : Type := mkAW {
  aw_clock : Z;
  aw_calls : list (list string * answer);
  aw_watching : gset string;
  aw_console : list (string * string);        (* what was appended to which file *)
  aw_exits : list (string * option error);    (* reported to the exit handler *)
  aw_tick : nat }.

(** [exec.Cmd.Run] with separate outputs: the exit code if the process was started,
    the error, and whether it only says that the exit code is not zero. *)
Record exec_outcome : Type := mkOutcome { eo_stdout : string; eo_stderr : string; eo_code : option Z; eo_err : option error; eo_exit_error : bool }.

Class AppleEnv : Type := {
  ap_run : nat → list string → answer;
  ap_exec : nat → list string → exec_outcome;
  ap_ctx : nat → option error;                (* [ctx.Err()] *)
  ap_elapsed : nat → N;
  ap_lookup : nat → option error;             (* exec.LookPath *)
  ap_fault : nat → option error;
  ap_read : nat → string → result string;
  ap_json : string → option json;
  ap_goarch : string;
  ap_home : result string;
  ap_exit_handler : bool }.

Definition AM (A : Type) : Type := State AWorld A.

(* @type internal/applecontainer/manager.go Manager *)
Record Manager : Type := mkManager { m_binary : string; m_data_dir : string; m_auto_start : bool; m_command : string }.

(* @func internal/applecontainer/manager.go NewManager *)
Definition NewManager (cfg : AppleContainerRuntimeConfig) (dataDir : string) : Manager :=
  let binaryPath := if String.eqb (ac_binary cfg) "" then "/usr/local/bin/container" else ac_binary cfg in
  let defaultCommand := if String.eqb (ac_command cfg) "" then "sleep infinity" else ac_command cfg in
  mkManager binaryPath dataDir (ac_auto_start cfg) defaultCommand.

Definition with_runtime (vm : VM) (rt : VMRuntime) : VM :=
  mkVM (vm_id vm) (vm_name vm) (vm_state vm) (vm_image vm) (vm_digest vm) (vm_arch vm) (vm_config vm) (Some rt)
    (vm_created vm) (vm_updated vm) (vm_locked_by vm) (vm_locked_at vm) (vm_owner vm) (vm_group vm) (vm_spiffe vm).

(** * Names *)

(** [strings.NewReplacer("-", "", "_", "", ".", "")]. *)
Fixpoint strip_separators (s : string) : string :=
  match s with
  | EmptyString => ""
  | String a s' => if Ascii.eqb a "-" || Ascii.eqb a "_" || Ascii.eqb a "." then strip_separators s' else String a (strip_separators s')
  end.

(* @func internal/applecontainer/manager.go containerNameForVM *)
Definition containerNameForVM (vmID : string) : string :=
  let cleaned := strip_separators vmID in
  let cleaned := if (24 <? String.length cleaned)%nat then String.substring 0 24 cleaned else cleaned in
  "nf-" +:+ cleaned.

(** The name for an id and the external id of a runtime. *)
Definition name_of (vmID : string) (rt : option VMRuntime) : string :=
  let external := match rt with Some rt => rt_external_id rt | None => "" end in
  if negb (String.eqb external "") then external
  else if negb (String.eqb vmID "") then containerNameForVM vmID else "".

(* @func internal/applecontainer/manager.go runtimeName *)
Definition runtimeName (vm : VM) : string := name_of (vm_id vm) (vm_runtime vm).

(* @func internal/applecontainer/manager.go maxInt *)
Definition maxInt (value min : Z) : Z := if (value <? min)%Z then min else value.

(* @func internal/applecontainer/manager.go imageReference *)
Definition imageReference (image : option Image) (fallback : string) : string :=
  match image with
  | Some image =>
      match List.find (λ tag, negb (String.eqb (trim_space tag) "")) (img_tags image) with
      | Some tag => tag
      | None => fallback
      end
  | None => fallback
  end.

(* @func internal/applecontainer/manager.go runArgs *)
Definition runArgs (m : Manager) (vm : VM) (image : option Image) (containerName : string) : result (list string) :=
  let cfg := vm_config vm in
  let networkMode := trim_space (n_mode (c_network cfg)) in
  let networkMode := if String.eqb networkMode "" then "nat" else networkMode in
  if negb (String.eqb networkMode "nat") then
    Err (Errorf "apple container runtime does not support network mode %q" [AStr networkMode])
  else
    let publish pf :=
      let protocol := if String.eqb (Protocol pf) "" then "tcp" else Protocol pf in
      ["--publish"; "127.0.0.1:" +:+ fmt_d (HostPort pf) +:+ ":" +:+ fmt_d (VMPort pf) +:+ "/" +:+ protocol] in
    Ok (["run"; "-d"; "--name"; containerName; "--cpus"; fmt_d (maxInt (c_vcpus cfg) 1);
         "--memory"; fmt_d (maxInt (c_memory cfg) 128) +:+ "M"; "--label"; labelVMID +:+ "=" +:+ vm_id vm]
        ++ concat (publish <$> n_forwards (c_network cfg)) ++ [imageReference image (vm_image vm)] ++ fields (m_command m)).

(** * What the tool prints *)

(* @type internal/applecontainer/manager.go containerInspectEntry *)
Record inspected : Type := mkInspected { in_status : string; in_networks : list (string * string) (* address, gateway *) }.

(* @type internal/applecontainer/manager.go containerNetwork *)
Definition dec_container_network (j : json) : option (string * string) :=
  l ← members j; address ← getf l "address" "" dec_str; gateway ← getf l "gateway" "" dec_str; Some (address, gateway).

Definition dec_inspected (j : json) : option inspected :=
  l ← members j; status ← getf l "status" "" dec_str; networks ← getf l "networks" [] (dec_list dec_container_network);
  Some (mkInspected status networks).

(* @type internal/applecontainer/manager.go imageDescriptor *)
Definition dec_descriptor (j : json) : option (string * Z) :=
  l ← members j; digest ← getf l "digest" "" dec_str; size ← getf l "size" 0%Z dec_int64; Some (digest, size).

(* @type internal/applecontainer/manager.go imageListEntry *)
Definition dec_list_entry (j : json) : option (string * (string * Z)) :=
  l ← members j; reference ← getf l "reference" "" dec_str; d ← getf l "descriptor" ("", 0%Z) dec_descriptor; Some (reference, d).

(** Size, and the two architectures. *)
Definition dec_arch (j : json) : option string := l ← members j; getf l "architecture" "" dec_str.
(* @type internal/applecontainer/manager.go imageVariant *)
Definition dec_variant (j : json) : option (Z * string * string) :=
  l ← members j; size ← getf l "size" 0%Z dec_int64; platform ← getf l "platform" "" dec_arch; config ← getf l "config" "" dec_arch;
  Some (size, platform, config).

(* @type internal/applecontainer/manager.go imageInspectEntry *)
Definition dec_inspect_entry (j : json) : option (string * (string * Z) * list (Z * string * string)) :=
  l ← members j; name ← getf l "name" "" dec_str; index ← getf l "index" ("", 0%Z) dec_descriptor;
  variants ← getf l "variants" [] (dec_list dec_variant); Some (name, index, variants).

Section Host.
Context `{AE : AppleEnv}.

Definition pass (d : Z) (w : AWorld) : AWorld :=
  mkAW (aw_clock w + d + Z.of_N (ap_elapsed (aw_tick w)))%Z (aw_calls w) (aw_watching w) (aw_console w) (aw_exits w) (S (aw_tick w)).
Definition ask {A} (f : nat → A) : AM A := λ w, (f (aw_tick w), pass 0 w).
Definition sleep (d : Z) : AM unit := λ w, (tt, pass d w).
Definition clock : AM Z := λ w, (aw_clock w, w).
Definition record_call (args : list string) (a : answer) (w : AWorld) : AWorld :=
  mkAW (aw_clock w) (aw_calls w ++ [(args, a)]) (aw_watching w) (aw_console w) (aw_exits w) (aw_tick w).

(** The text of the error of a failed command, and the error. *)
Definition failure_text (args : list string) (out err : string) : string :=
  "container " +:+ join " " args +:+ " failed: " +:+ err +:+ ": " +:+ trim_space out.
Definition failure (args : list string) (out err : string) : error :=
  Errorf "container %s failed: %w: %s" [AStr (join " " args); AWrap (ErrorsNew err); AStr (trim_space out)].

Definition run_tool (args : list string) : AM answer := λ w,
  let a := ap_run (aw_tick w) args in (a, pass 0 (record_call args a w)).

(* @func internal/applecontainer/manager.go execContainer *)
Definition execContainer (args : list string) : AM (string * option error) :=
  let* ' (out, err) := run_tool args in
  ret (out, match err with Some err => Some (failure args out err) | None => None end).

(** [runCommand] for its error only. *)
Definition command (args : list string) : AM (option error) := let* ' (_, err) := execContainer args in ret err.

(* @func internal/applecontainer/manager.go ensureAvailable *)
Definition ensureAvailable (m : Manager) : AM (option error) :=
  let* missing := ask ap_lookup in
  let* absent := match missing with Some _ => ask ap_fault | None => ret None end in
  match missing, absent with
  | Some err, Some _ => ret (Some (Errorf "apple container binary not found at %q: %w" [AStr (m_binary m); AWrap err]))
  | _, _ =>
      let* e := command ["system"; "status"] in
      match e with
      | None => ret None
      | Some err =>
          if negb (m_auto_start m) then ret (Some (Errorf "apple container services are not running: %w" [AWrap err]))
          else
            checked (command ["system"; "start"; "--enable-kernel-install"])
              (λ err, Some (Errorf "failed to start apple container services: %w" [AWrap err])) (
            checked (command ["system"; "status"])
              (λ err, Some (Errorf "apple container services did not become healthy: %w" [AWrap err])) (ret None))
      end
  end.

(** * Images *)

(* @func internal/applecontainer/manager.go defaultKernelPath *)
Definition defaultKernelPath : string :=
  match ap_home with
  | Err _ => ""
  | Ok home => filepath_join [home; "Library"; "Application Support"; "com.apple.container"; "kernels"; "default.kernel-" +:+ ap_goarch]
  end.

(** Labels are not part of the image here. *)
Fixpoint list_entries (now : Z) (entries : list (string * (string * Z))) : list Image :=
  match entries with
  | [] => []
  | (reference, (digest, size)) :: entries =>
      if String.eqb reference "" && String.eqb digest "" then list_entries now entries
      else mkImage digest [reference] ap_goarch size "" "" defaultKernelPath now :: list_entries now entries
  end.

(* @func internal/applecontainer/manager.go ListImages *)
Definition ListImages (m : Manager) : AM (result (list Image)) :=
  checked (ensureAvailable m) Err (
  let* ' (out, err) := execContainer ["images"; "list"; "--format"; "json"] in
  match err with
  | Some err => ret (Err err)
  | None =>
      let* now := clock in
      ret match ap_json out ≫= dec_list dec_list_entry with
      | None => Err (Errorf "failed to parse apple container image list: %w" [])
      | Some entries => Ok (list_entries now entries)
      end
  end).

(** The first variant of the host's architecture gives the size, if it has one. *)
Definition variant_size (variants : list (Z * string * string)) (size : Z) : Z :=
  match List.find (λ '(_, platform, config), String.eqb platform ap_goarch || String.eqb config ap_goarch) variants with
  | Some (s, _, _) => if (0 <? s)%Z then s else size
  | None => size
  end.

(* @func internal/applecontainer/manager.go inspectImage *)
Definition inspectImage (imageRef : string) : AM (result Image) :=
  let* ' (out, err) := execContainer ["images"; "inspect"; imageRef] in
  match err with
  | Some err => ret (Err err)
  | None =>
      let* now := clock in
      ret match ap_json out ≫= dec_list dec_inspect_entry with
      | None => Err (Errorf "failed to parse apple container image inspect: %w" [])
      | Some [] => Err (Errorf "apple container image %q not found" [AStr imageRef])
      | Some ((name, (digest, size), variants) :: _) =>
          Ok (mkImage digest [if String.eqb name "" then imageRef else name] ap_goarch (variant_size variants size) "" "" defaultKernelPath now)
      end
  end.

(* @func internal/applecontainer/manager.go ResolveImage *)
Definition ResolveImage (m : Manager) (imageRef : string) : AM (result Image) :=
  let imageRef := trim_space imageRef in
  if String.eqb imageRef "" then ret (Err (Errorf "image reference is required" []))
  else
    checked (ensureAvailable m) Err (
    let* r := inspectImage imageRef in
    match r with
    | Ok image => ret (Ok image)
    | Err _ =>
        checked (command ["images"; "pull"; "--disable-progress-updates"; imageRef])
          (λ err, Err (Errorf "failed to pull apple container image %q: %w" [AStr imageRef; AWrap err])) (inspectImage imageRef)
    end).

(** * Containers *)

Definition says_missing (text : string) : bool :=
  let msg := to_lower text in contains "not found" msg || contains "no such" msg || contains "does not exist" msg.

(** [Ok None]: there is no such container. *)
Definition inspection (args : list string) (a : answer) : result (option inspected) :=
  match a with
  | (out, Some err) => if says_missing (failure_text args out err) then Ok None else Err (failure args out err)
  | (out, None) =>
      match ap_json out ≫= dec_list dec_inspected with
      | None => Err (Errorf "failed to parse apple container inspect: %w" [])
      | Some [] => Ok None
      | Some (i :: _) => Ok (Some i)
      end
  end.

(* @func internal/applecontainer/manager.go inspectContainer *)
Definition inspectContainer (name : string) : AM (result (option inspected)) :=
  let* a := run_tool ["inspect"; name] in ret (inspection ["inspect"; name] a).

Definition is_running (i : inspected) : bool := String.eqb (in_status i) "running".

(* @func internal/applecontainer/manager.go appendConsole *)
Definition appendConsole (path data : string) : AM unit :=
  if String.eqb (trim_space data) "" then ret tt
  else
    let* mkdir := ask ap_fault in
    let* open := ask ap_fault in
    let* write := ask ap_fault in
    match mkdir, open, write with
    | None, None, None => λ w, (tt, mkAW (aw_clock w) (aw_calls w) (aw_watching w) (aw_console w ++ [(path, data +:+ bytes [10])]) (aw_exits w) (aw_tick w))
    | _, _, _ => ret tt
    end.

(* @func internal/applecontainer/manager.go setRuntime *)
Definition runtime_of (containerName consolePath : string) (inspect : inspected) : VMRuntime :=
  mkRt 0 DriverName containerName "" consolePath
    match in_networks inspect with
    | (address, gateway) :: _ => Some (mkNetRt "" gateway (default "" (head (split_on slash address))) gateway)
    | [] => None
    end.

(** The goroutine is [watch_round]; here only that there is one. *)
(* @src internal/applecontainer/manager.go:439-447 watchContainer *)
Definition watchContainer (vmID : string) : AM unit := λ w,
  (tt, mkAW (aw_clock w) (aw_calls w) ({[ vmID ]} ∪ aw_watching w) (aw_console w) (aw_exits w) (aw_tick w)).

Definition first_start (m : Manager) (vm : VM) (image : option Image) (containerName consolePath : string) : AM (option error) :=
  match runArgs m vm image containerName with
  | Err err => ret (Some err)
  | Ok args =>
      let* ' (out, err) := execContainer args in
      appendConsole consolePath out ;;; ret err
  end.

Definition start_again (containerName consolePath : string) : AM (option error) :=
  let* ' (out, err) := execContainer ["start"; containerName] in
  match err with
  | Some err => appendConsole consolePath out ;;; ret (Some err)
  | None => ret None
  end.

(** The error, and the VM, whose runtime is set on success. *)
(* @func internal/applecontainer/manager.go Start *)
Definition Start (m : Manager) (vm : VM) (image : option Image) : AM (option error * VM) :=
  let fail (err : error) : option error * VM := (Some err, vm) in
  let vmDir := filepath_join [m_data_dir m; "vms"; vm_id vm] in
  let consolePath := filepath_join [vmDir; "console.log"] in
  let containerName := containerNameForVM (vm_id vm) in
  checked (ensureAvailable m) fail (
  checked (ask ap_fault) (λ err, fail (Errorf "failed to create VM directory: %w" [AWrap err])) (
  checked_result (inspectContainer containerName) fail (λ inspect,
  checked (match inspect with
           | Some i => if is_running i then ret None else start_again containerName consolePath
           | None => first_start m vm image containerName consolePath
           end) fail (
  checked_result (inspectContainer containerName) fail (λ inspect,
  match inspect with
  | None => ret (fail (Errorf "apple container %q did not exist after start" [AStr containerName]))
  | Some i =>
      if negb (is_running i) then ret (fail (Errorf "apple container %q is %s after start" [AStr containerName; AStr (in_status i)]))
      else watchContainer (vm_id vm) ;;; ret (None, with_runtime vm (runtime_of containerName consolePath i))
  end))))).

(** * Watching *)

Definition report (vmID : string) (err : option error) (w : AWorld) : AWorld :=
  mkAW (aw_clock w) (aw_calls w) (aw_watching w ∖ {[ vmID ]}) (aw_console w)
    (if ap_exit_handler then aw_exits w ++ [(vmID, err)] else aw_exits w) (aw_tick w).

(** One tick of the goroutine; [true] once it has returned. *)
(* @src internal/applecontainer/manager.go:449-475 watchContainer *)
Definition watch_round (vmID containerName : string) : AM bool :=
  sleep 2000000000 ;;;
  let* r := inspectContainer containerName in
  match r with
  | Err err => λ w, (true, report vmID (Some err) w)
  | Ok (Some i) => if is_running i then ret false else λ w, (true, report vmID None w)
  | Ok None => λ w, (true, report vmID None w)
  end.

(** * Stopping *)

(** Polls until the container is not running, or the deadline has passed; [None] when
    the rounds do not suffice. *)
Fixpoint wait_loop (n : nat) (name : string) (timeout deadline : Z) : AM (option (option error)) :=
  match n with
  | O => ret None
  | S n =>
      let* r := inspectContainer name in
      match r with
      | Err err => ret (Some (Some err))
      | Ok i =>
          if match i with Some i => is_running i | None => false end then
            let* now := clock in
            if (deadline <? now)%Z then ret (Some (Some (Errorf "apple container %q still running after %s" [AStr name; AInt timeout])))
            else sleep 100000000 ;;; wait_loop n name timeout deadline
          else ret (Some None)
      end
  end.

Definition wait_rounds (timeout : Z) : nat := (Z.to_nat (timeout / 100000000) + 2)%nat.

(* @func internal/applecontainer/manager.go waitForContainerStopped *)
Definition waitForContainerStopped (name : string) (timeout : Z) : AM (option (option error)) :=
  let timeout := if (timeout <=? 0)%Z then 1000000000%Z else timeout in
  let* now := clock in
  wait_loop (wait_rounds timeout) name timeout (now + timeout).

Definition no_runtime_id : error := Errorf "apple container runtime id not available" [].

Definition end_with (args : list string) (name : string) (timeout : Z) : AM (option (option error)) :=
  if String.eqb name "" then ret (Some (Some no_runtime_id))
  else checked (command (args ++ [name])) (λ err, Some (Some err)) (waitForContainerStopped name timeout).

(* @func internal/applecontainer/manager.go Stop *)
Definition Stop (vm : VM) (timeoutSeconds : Z) : AM (option (option error)) :=
  let timeoutSeconds := if (timeoutSeconds <=? 0)%Z then 10%Z else timeoutSeconds in
  end_with ["stop"; "--time"; fmt_d timeoutSeconds] (runtimeName vm) (timeoutSeconds * 1000000000).

Definition kill_container (name : string) : AM (option (option error)) := end_with ["kill"] name 5000000000.

(* @func internal/applecontainer/manager.go Kill *)
Definition Kill (vm : VM) : AM (option (option error)) := kill_container (runtimeName vm).

(* @func internal/applecontainer/manager.go Delete *)
Definition Delete (vm : VM) : AM (option (option error)) :=
  let external := match vm_runtime vm with Some rt => rt_external_id rt | None => "" end in
  let name := if negb (String.eqb external "") then external else containerNameForVM (vm_id vm) in
  let delete : AM (option (option error)) := let* e := command ["delete"; name] in ret (Some e) in
  checked_result (inspectContainer name) (λ err, Some (Some err)) (λ inspect,
  match inspect with
  | None => ret (Some None)
  | Some i =>
      if is_running i then
        let* e := kill_container name in
        match e with
        | None => ret None
        | Some (Some err) => ret (Some (Some (Errorf "failed to kill running apple container %q before delete: %w" [AStr name; AWrap err])))
        | Some None => delete
        end
      else delete
  end).

(** * The rest *)

Definition unsupported (what : string) : error := Errorf what [AWrap (ErrorsNew ErrUnsupportedOperation)].

(* @func internal/applecontainer/manager.go Pause *)
Definition Pause : error := unsupported "%w: pause is not supported by the apple container runtime".
(* @func internal/applecontainer/manager.go Resume *)
Definition Resume : error := unsupported "%w: resume is not supported by the apple container runtime".
(* @func internal/applecontainer/manager.go CreateSnapshot *)
Definition CreateSnapshot : error := unsupported "%w: snapshots are not supported by the apple container runtime".
(* @func internal/applecontainer/manager.go LoadSnapshot *)
Definition LoadSnapshot : error := unsupported "%w: snapshot resume is not supported by the apple container runtime".

(* @func internal/applecontainer/manager.go GetConsoleLogs *)
Definition GetConsoleLogs (vm : VM) (tailLines : Z) : AM (string * option error) :=
  let name := runtimeName vm in
  if String.eqb name "" then
    match vm_runtime vm with
    | Some rt =>
        if String.eqb (rt_console rt) "" then ret ("", Some no_runtime_id)
        else let* r := ask (λ n, ap_read n (rt_console rt)) in ret (match r with Ok s => (s, None) | Err err => ("", Some err) end)
    | None => ret ("", Some no_runtime_id)
    end
  else execContainer (["logs"] ++ (if (0 <? tailLines)%Z then ["-n"; fmt_d tailLines] else []) ++ [name]).

(** The outputs, the exit code and the error: an exit code that is not zero is no
    error unless the context is done. *)
(* @func internal/applecontainer/manager.go execContainerCommand *)
Definition execContainerCommand (args : list string) : AM (string * string * Z * option error) :=
  let* o := ask (λ n, ap_exec n args) in
  let exitCode := default 0%Z (eo_code o) in
  match eo_err o with
  | None => ret (eo_stdout o, eo_stderr o, exitCode, None)
  | Some err =>
      let* ctxErr := ask ap_ctx in
      ret (eo_stdout o, eo_stderr o, exitCode,
        match ctxErr with
        | Some ctxErr => Some ctxErr
        | None => if eo_exit_error o then None else Some err
        end)
  end.

(* @func internal/applecontainer/manager.go Exec *)
Definition Exec (vm : VM) (cmd : list string) : AM (option VMExecResult * option error) :=
  let name := runtimeName vm in
  if String.eqb name "" then ret (None, Some no_runtime_id)
  else
    let* r := execContainerCommand (["exec"; name] ++ cmd) in
    match r with (stdout, stderr, exitCode, err) =>
      let result := mkExec cmd exitCode stdout stderr name in
      match err with
      | None => ret (Some result, None)
      | Some err =>
          let* ctxErr := ask ap_ctx in
          ret (match ctxErr with
               | Some ctxErr => (Some result, Some ctxErr)
               | None => (None, Some (Errorf "container exec %s failed: %w" [AStr name; AWrap err]))
               end)
      end
    end.

(* @func internal/applecontainer/manager.go CleanupNetwork *)
Definition CleanupNetwork : AM (option error) := ret None.

End Host.

Section Spec.
Context `{AE : AppleEnv}.

(** Postconditions of the driver's operations. *)
Definition awp {A} (c : AM A) (Q : A → AWorld → Prop) (w : AWorld) : Prop := Q (fst (c w)) (snd (c w)).

Lemma awp_ret {A} (a : A) (Q : A → AWorld → Prop) w : Q a w → awp (ret a) Q w.
Proof. done. Qed.

Lemma awp_bind {A B} (c : AM A) (k : A → AM B) Q w : awp c (λ a w1, awp (k a) Q w1) w → awp (bind c k) Q w.
Proof. unfold awp. rewrite bind_unfold. by destruct (c w). Qed.

Lemma awp_mono {A} (c : AM A) (Q R : A → AWorld → Prop) w : awp c Q w → (∀ a w1, Q a w1 → R a w1) → awp c R w.
Proof. unfold awp. auto. Qed.

Lemma awp_checked {A} (c : AM (option error)) (fail : error → A) k Q w :
  awp c (λ e w1, match e with Some err => Q (fail err) w1 | None => awp k Q w1 end) w → awp (checked c fail k) Q w.
Proof. intros H. apply awp_bind. eapply awp_mono; [exact H|]. by intros [err|]. Qed.

Lemma awp_checked_result {A B} (c : AM (result A)) (fail : error → B) (k : A → AM B) Q w :
  awp c (λ r w1, match r with Err err => Q (fail err) w1 | Ok a => awp (k a) Q w1 end) w → awp (checked_result c fail k) Q w.
Proof. intros H. apply awp_bind. eapply awp_mono; [exact H|]. by intros [a|err]. Qed.

(** What an operation may change: the clock goes on, calls and console are added to;
    who is watched stays. *)
Definition later (w w1 : AWorld) : Prop :=
  (aw_clock w ≤ aw_clock w1)%Z ∧ aw_calls w `prefix_of` aw_calls w1 ∧ aw_watching w1 = aw_watching w ∧ aw_exits w1 = aw_exits w.

Lemma aw_later_refl w : later w w.
Proof. by repeat split. Qed.
Lemma aw_later_trans a b c : later a b → later b c → later a c.
Proof. intros (? & ? & ? & ?) (? & ? & ? & ?). split_and!; [lia|by etrans|congruence|congruence]. Qed.
Lemma aw_later_pass d w : (0 ≤ d)%Z → later w (pass d w).
Proof. intros Hd. split_and!; [cbn; lia|done..]. Qed.

Definition mild {A} (c : AM A) : Prop := ∀ w, later w (snd (c w)).

Lemma awp_mild {A} (c : AM A) (Q : A → AWorld → Prop) w : mild c → (∀ a w1, later w w1 → Q a w1) → awp c Q w.
Proof. intros Hc HQ. apply HQ, Hc. Qed.
Lemma mild_ret {A} (a : A) : mild (ret a).
Proof. intros w. apply aw_later_refl. Qed.
Lemma mild_bind {A B} (c : AM A) (k : A → AM B) : mild c → (∀ a, mild (k a)) → mild (bind c k).
Proof. intros Hc Hk w. rewrite bind_unfold. pose proof (Hc w) as H. destruct (c w) as [a w1]. eapply aw_later_trans; [exact H|apply Hk]. Qed.
Lemma mild_ask {A} (f : nat → A) : mild (ask f).
Proof. intros w. by apply aw_later_pass. Qed.
Lemma mild_clock : mild clock.
Proof. intros w. apply aw_later_refl. Qed.
Lemma mild_sleep d : (0 ≤ d)%Z → mild (sleep d).
Proof. intros Hd w. by apply aw_later_pass. Qed.
Lemma mild_tool args : mild (run_tool args).
Proof. intros w. split_and!; [cbn; lia|by exists [(args, ap_run (aw_tick w) args)]|done|done]. Qed.
Lemma mild_console path data : mild (appendConsole path data).
Proof.
  unfold appendConsole. destruct (String.eqb _ _); [apply mild_ret|]. do 3 (apply mild_bind; [apply mild_ask|]; intros ?).
  repeat case_match; try apply mild_ret. intros w. by repeat split.
Qed.

Create HintDb apple discriminated.
Hint Resolve mild_ret mild_ask mild_clock mild_tool mild_console : apple.

Ltac solve_mild :=
  repeat first [ progress intros | solve [auto with apple nocore] | apply mild_bind
    | match goal with
      | |- mild (match ?x with _ => _ end) => destruct x
      | |- mild (checked _ _ _) => apply mild_bind
      | |- mild (checked_result _ _ _) => apply mild_bind
      end ].

Lemma mild_command args : mild (command args).
Proof. unfold command, execContainer. solve_mild. Qed.
Hint Resolve mild_command : apple.
Lemma mild_available m : mild (ensureAvailable m).
Proof. unfold ensureAvailable. solve_mild. Qed.
Hint Resolve mild_available : apple.
Lemma mild_first_start m vm image name path : mild (first_start m vm image name path).
Proof. unfold first_start, execContainer. solve_mild. Qed.
Lemma mild_start_again name path : mild (start_again name path).
Proof. unfold start_again, execContainer. solve_mild. Qed.
Hint Resolve mild_first_start mild_start_again : apple.

(** * Inspections and commands *)

(** The last thing the tool was asked is the state of the container. *)
Definition last_seen (name : string) (i : option inspected) (w : AWorld) : Prop :=
  ∃ before a, aw_calls w = before ++ [(["inspect"; name], a)] ∧ inspection ["inspect"; name] a = Ok i.

Definition runs (i : option inspected) : bool := match i with Some i => is_running i | None => false end.

(** The tool accepted the command. *)
Definition accepted (args : list string) (w : AWorld) : Prop := ∃ out, (args, (out, None)) ∈ aw_calls w.

Lemma accepted_later args w w1 : later w w1 → accepted args w → accepted args w1.
Proof. intros (_ & [l Hl] & _) [out H]. exists out. rewrite Hl. apply elem_of_app. by left. Qed.

Lemma inspectContainer_spec name w : awp (inspectContainer name) (λ r w1, later w w1 ∧ ∀ i, r = Ok i → last_seen name i w1) w.
Proof.
  unfold inspectContainer. apply awp_bind. unfold awp at 1, run_tool. cbn [fst snd]. apply awp_ret. split.
  - apply (mild_tool ["inspect"; name] w).
  - intros i Hi. by exists (aw_calls w), (ap_run (aw_tick w) ["inspect"; name]).
Qed.

Lemma command_spec args w : awp (command args) (λ e w1, later w w1 ∧ (e = None → accepted args w1 ∧ last (fst <$> aw_calls w1) = Some args)) w.
Proof.
  split; [apply mild_command|]. unfold command, execContainer, run_tool. rewrite !bind_unfold. cbn [fst snd].
  destruct (ap_run (aw_tick w) args) as [out [err|]] eqn:E; [done|]. intros _. unfold ret. cbn [fst snd pass record_call aw_calls]. split.
  - exists out. apply elem_of_app. right. apply elem_of_cons. by left.
  - rewrite fmap_app. exact (last_snoc args (fst <$> aw_calls w)).
Qed.

(** * Waiting *)

(** The answers to an inspection that count as the absence of the container: an
    empty list, and any failure whose text has one of three phrases in it. *)
Definition reads_absent (args : list string) (a : answer) : Prop :=
  match snd a with
  | Some err => ∃ phrase, phrase ∈ ["not found"; "no such"; "does not exist"] ∧
      contains phrase (to_lower (failure_text args (fst a) err)) = true
  | None => ap_json (fst a) ≫= dec_list dec_inspected = Some []
  end.

Lemma last_seen_absent name w : last_seen name None w →
  ∃ before a, aw_calls w = before ++ [(["inspect"; name], a)] ∧ reads_absent ["inspect"; name] a.
Proof.
  intros (before & [out [err|]] & Hc & Hi); exists before; eexists; (split; [exact Hc|]); unfold inspection in Hi; unfold reads_absent; cbn [fst snd].
  - unfold says_missing in Hi. destruct (contains "not found" _) eqn:E1; [exists "not found"; split; [left|exact E1]|].
    destruct (contains "no such" _) eqn:E2; [exists "no such"; split; [right; left|exact E2]|].
    destruct (contains "does not exist" _) eqn:E3; [exists "does not exist"; split; [right; right; left|exact E3]|done].
  - destruct (ap_json out ≫= dec_list dec_inspected) as [[|i l]|] eqn:E; done.
Qed.

(** The last inspection was answered with a state that is not "running", or read
    as absence. *)
Definition seen_stopped (name : string) (w : AWorld) : Prop :=
  (∃ i, last_seen name (Some i) w ∧ in_status i ≠ "running") ∨
  ∃ before a, aw_calls w = before ++ [(["inspect"; name], a)] ∧ reads_absent ["inspect"; name] a.

Lemma last_seen_stopped name i w : last_seen name i w → runs i = false → seen_stopped name w.
Proof.
  intros Hl Hr. destruct i as [i|]; [left; exists i; split; [done|]; by apply String.eqb_neq|].
  right. by apply last_seen_absent.
Qed.

Definition stopped_post (name : string) (w : AWorld) (r : option (option error)) (w1 : AWorld) : Prop :=
  later w w1 ∧ (r = Some None → seen_stopped name w1).

Lemma wait_loop_spec n name timeout deadline : ∀ w, awp (wait_loop n name timeout deadline) (λ r w1, stopped_post name w r w1 ∧
    ((1 ≤ Z.of_nat n)%Z → (deadline - aw_clock w < (Z.of_nat n - 1) * 100000000)%Z → r ≠ None)) w.
Proof.
  induction n as [|n IH]; intros w; [apply awp_ret; split; [by split; [apply aw_later_refl|]|lia]|]. cbn [wait_loop].
  apply awp_bind. eapply awp_mono; [apply inspectContainer_spec|]. cbn beta. intros [i|err] w1 [H1 Hi]; [|by apply awp_ret].
  specialize (Hi i eq_refl). fold (runs i). destruct (runs i) eqn:Hr; [|apply awp_ret; split; [split; [done|]|done]; intros _; by eapply last_seen_stopped].
  apply awp_bind. unfold awp at 1. cbn [clock fst snd]. destruct (Z.ltb_spec deadline (aw_clock w1)) as [Hd|Hd]; [by apply awp_ret|].
  apply awp_bind. unfold awp at 1. cbn [sleep fst snd]. set (w2 := pass 100000000 w1).
  assert (later w w2) as H2 by (eapply aw_later_trans; [exact H1|by apply aw_later_pass]).
  eapply awp_mono; [apply IH|]. cbn beta. intros r w3 [[H3 Hs] Ht]. split; [split; [by eapply aw_later_trans|done]|].
  intros Hn Hlt. assert (aw_clock w + 100000000 ≤ aw_clock w2)%Z as Hc by (destruct H1 as [? _]; cbn; lia). apply Ht; [|lia].
  destruct H1 as [H1 _]. lia.
Qed.

Lemma waitForContainerStopped_spec name timeout w :
  awp (waitForContainerStopped name timeout) (λ r w1, stopped_post name w r w1 ∧ r ≠ None) w.
Proof.
  unfold waitForContainerStopped. apply awp_bind. unfold awp at 1. cbn [clock fst snd].
  set (t := if (timeout <=? 0)%Z then _ else _). assert (0 < t)%Z as Ht by (unfold t; destruct (Z.leb_spec timeout 0); lia).
  eapply awp_mono; [apply wait_loop_spec|]. cbn beta. intros r w1 [Hs Hn]. split; [done|].
  assert (Z.of_nat (wait_rounds t) = t / 100000000 + 2)%Z as E by (unfold wait_rounds; pose proof (Z.div_pos t 100000000); lia).
  apply Hn; rewrite E; [pose proof (Z.div_pos t 100000000); lia|]. pose proof (Z.mul_succ_div_gt t 100000000). lia.
Qed.

Definition ended_post (args : list string) (name : string) (w : AWorld) (r : option (option error)) (w1 : AWorld) : Prop :=
  stopped_post name w r w1 ∧ r ≠ None ∧ (r = Some None → accepted (args ++ [name]) w1).

Lemma end_with_spec args name timeout w : awp (end_with args name timeout) (ended_post args name w) w.
Proof.
  unfold end_with. destruct (String.eqb name ""); [apply awp_ret; split_and!; [by split; [apply aw_later_refl|]|done|done]|].
  apply awp_checked. eapply awp_mono; [apply command_spec|]. cbn beta. intros [err|] w1 [H1 Ha]; [by split_and!|]. destruct (Ha eq_refl) as [Ha' _].
  eapply awp_mono; [apply waitForContainerStopped_spec|]. cbn beta. intros r w2 [[H2 Hs] Hn]. split_and!; [split; [by eapply aw_later_trans|done]|done|].
  intros _. by eapply accepted_later.
Qed.

(** * The operations *)

Definition started (m : Manager) (vm : VM) (w : AWorld) (r : option error * VM) (w1 : AWorld) : Prop :=
  match r with
  | (None, vm') => ∃ i, last_seen (containerNameForVM (vm_id vm)) (Some i) w1 ∧ is_running i = true ∧ vm_id vm ∈ aw_watching w1 ∧
      vm' = with_runtime vm (runtime_of (containerNameForVM (vm_id vm))
        (filepath_join [filepath_join [m_data_dir m; "vms"; vm_id vm]; "console.log"]) i)
  | (Some _, vm') => vm' = vm ∧ aw_watching w1 = aw_watching w
  end.

Lemma Start_spec m vm image w : awp (Start m vm image) (started m vm w) w.
Proof.
  unfold Start. cbn zeta. set (name := containerNameForVM (vm_id vm)). set (path := filepath_join [_; "console.log"]).
  assert (∀ err w1, later w w1 → started m vm w (Some err, vm) w1) as Hfail by (intros err w1 (_ & _ & H & _); by split).
  apply awp_checked, awp_mild; [apply mild_available|]. intros [err|] w1 H1; [by apply Hfail|].
  apply awp_checked, awp_mild; [apply mild_ask|]. intros [err|] w2 H2; [by eapply Hfail, aw_later_trans|].
  apply awp_checked_result. eapply awp_mono; [apply inspectContainer_spec|]. cbn beta. intros [i|err] w3 [H3 _]; [|by eapply Hfail, aw_later_trans, aw_later_trans].
  assert (later w w3) as H03 by (by eapply aw_later_trans, aw_later_trans).
  apply awp_checked, awp_mild; [solve_mild|]. intros [err|] w4 H4; [by eapply Hfail, aw_later_trans|].
  apply awp_checked_result. eapply awp_mono; [apply inspectContainer_spec|]. cbn beta. intros [j|err] w5 [H5 Hj]; [|by eapply Hfail, aw_later_trans, aw_later_trans].
  specialize (Hj j eq_refl). assert (later w w5) as H05 by (by eapply aw_later_trans, aw_later_trans).
  destruct j as [j|]; [|by apply Hfail]. destruct (is_running j) eqn:Hr; [|by apply Hfail]. cbn [negb].
  apply awp_bind. unfold awp at 1, watchContainer. cbn [fst snd]. apply awp_ret. exists j. split_and!; [done|done|cbn; set_solver|done].
Qed.

(** C29: Whatever the tool answers, in whatever time.  A VM is reported started
    only when the tool was last asked for its container and answered that it runs;
    the VM is then watched, and only its runtime has changed.  When starting fails
    the VM and the watches are as before.  Stop, Kill and Delete always return.
    Stop and Kill report success only when the tool took the command and its last
    answer about the container gave a state other than "running", or reads as
    absence: an empty list, or any failure whose text has "not found", "no such" or
    "does not exist" in it (that the tool itself is missing included).  Delete
    reports success only when the last answer about the container reads as absence
    in this sense, or when the deletion was the last command and the tool accepted
    it. *)
Theorem container_life m vm image timeoutSeconds w :
  awp (Start m vm image) (started m vm w) w ∧
  awp (Stop vm timeoutSeconds) (ended_post ["stop"; "--time"; fmt_d (if (timeoutSeconds <=? 0)%Z then 10%Z else timeoutSeconds)] (runtimeName vm) w) w ∧
  awp (Kill vm) (ended_post ["kill"] (runtimeName vm) w) w ∧
  (vm_id vm ≠ "" → awp (Delete vm) (λ r w1, r ≠ None ∧
    (r = Some None →
       (∃ before a, aw_calls w1 = before ++ [(["inspect"; runtimeName vm], a)] ∧ reads_absent ["inspect"; runtimeName vm] a) ∨
       accepted ["delete"; runtimeName vm] w1 ∧ last (fst <$> aw_calls w1) = Some ["delete"; runtimeName vm])) w).
Proof.
  split_and!; [apply Start_spec|apply end_with_spec|apply end_with_spec|]. intros Hid. unfold Delete.
  assert (runtimeName vm = if negb (String.eqb (match vm_runtime vm with Some rt => rt_external_id rt | None => "" end) "")
    then match vm_runtime vm with Some rt => rt_external_id rt | None => "" end else containerNameForVM (vm_id vm)) as <-.
  { unfold runtimeName, name_of. apply String.eqb_neq in Hid. by rewrite Hid. }
  assert (∀ w2, awp (let* e := command ["delete"; runtimeName vm] in ret (Some e)) (λ r w1, r ≠ None ∧
    (r = Some None →
       (∃ before a, aw_calls w1 = before ++ [(["inspect"; runtimeName vm], a)] ∧ reads_absent ["inspect"; runtimeName vm] a) ∨
       accepted ["delete"; runtimeName vm] w1 ∧ last (fst <$> aw_calls w1) = Some ["delete"; runtimeName vm])) w2) as Hdel.
  { intros w2. apply awp_bind. eapply awp_mono; [apply command_spec|]. cbn beta. intros e w3 [_ He]. apply awp_ret. split; [done|].
    intros [= ->]. right. by apply He. }
  apply awp_checked_result. eapply awp_mono; [apply inspectContainer_spec|]. cbn beta. intros [[i|]|err] w1 [H1 Hi]; [|apply awp_ret; split; [done|]; left; by apply last_seen_absent, Hi|by split].
  destruct (is_running i); [|apply Hdel]. apply awp_bind. eapply awp_mono; [apply (end_with_spec ["kill"])|]. cbn beta.
  intros [[err|]|] w2 (_ & Hn & _); [by apply awp_ret|apply Hdel|done].
Qed.

(** What the driver cannot do is answered 501. *)
Lemma unsupported_is_501 :
  Forall (λ err, is_Some (writeRuntimeUnsupportedError "pause" err [])) [Pause; Resume; CreateSnapshot; LoadSnapshot].
Proof. repeat constructor; by eexists. Qed.

End Spec.

(** * Scenarios *)

(** A tool that answers each command with a function of it. *)
Definition apple_env (tool : list string → answer) : AppleEnv := {|
  ap_run _ := tool; ap_exec _ _ := mkOutcome "" "" (Some 3%Z) (Some (ErrorsNew "exit status 3")) true; ap_ctx _ := None; ap_elapsed _ := 0%N;
  ap_lookup _ := None; ap_fault _ := None; ap_read _ _ := Err (ErrorsNew ErrNotExist);
  ap_json s := if String.eqb s "running" then Some (JArr [JObj [("status", JStr "running")]]) else None;
  ap_goarch := "arm64"; ap_home := Ok "/Users/a"; ap_exit_handler := true |}.

Definition apple0 : AWorld := mkAW 0 [] ∅ [] [] 0.

Definition missing_tool (args : list string) : answer := ("", Some "fork/exec /usr/local/bin/container: no such file or directory").

(** The text of any failure is searched for "no such": when the tool itself is gone,
    or its socket, a deletion reports success and a watch reports that the VM has
    exited, while the container may still run. *)
Example missing_tool_looks_like_a_missing_container :
  let E := apple_env missing_tool in
  fst (Delete (AE := E) (example_vm "id1" "web") apple0) = Some None ∧
  aw_exits (snd (watch_round (AE := E) "id1" "nf-id1" apple0)) = [("id1", None)].
Proof. vm_compute. done. Qed.

(** Any other failure of an inspection ends the watch and reports an exit as well. *)
Example failed_inspection_reports_an_exit :
  let E := apple_env (λ _, ("", Some "exit status 1: XPC timeout")) in
  let r := watch_round (AE := E) "id1" "nf-id1" (mkAW 0 [] {[ "id1" ]} [] [] 0) in
  fst r = true ∧ aw_watching (snd r) = ∅ ∧ length (aw_exits (snd r)) = 1%nat.
Proof. vm_compute. done. Qed.

(** A container that never stops is waited for as long as was asked, and an error. *)
Example stubborn_container :
  let E := apple_env (λ _, ("running", None)) in
  let '(r, w) := Stop (AE := E) (example_vm "id1" "web") 2 apple0 in
  (match r with Some (Some _) => true | _ => false end) = true ∧ aw_clock w = 2100000000%Z.
Proof. vm_compute. done. Qed.

(** An exit code of the guest's command is a result, not an error. *)
Example guest_exit_code :
  fst (Exec (AE := apple_env missing_tool) (example_vm "id1" "web") ["false"] apple0) = (Some (mkExec ["false"] 3 "" "" "nf-id1"), None).
Proof. vm_compute. done. Qed.

Example container_names :
  containerNameForVM "0b5f2c1e-91d4-4f6a-8f10-6f2f5a1d9c3b" = "nf-0b5f2c1e91d44f6a8f106f2f" ∧
  containerNameForVM "a-b" = containerNameForVM "ab".
Proof. vm_compute. done. Qed.
