(* ===== verification/Routes.v ===== *)
(** The routes of the API (setupHTTPRouter of src/internal/api/server.go) and how a
    request finds its handler: the patterns of [http.ServeMux] that the program uses,
    a method and segments that are literals or wildcards, and "/" for the rest.

    A path is the list of its unescaped segments, with "/" for a trailing slash. *)

From S2P Require Import Prelude GoStrings GoUrl.

Inductive handler : Type :=
  | handleRoot | handleHealth | handleCapabilities
  | handleListVMs | handleCreateVM | handleGetVMByPath | handleDeleteVMByPath
  | handleVMStartByPath | handleVMStopByPath | handleVMKillByPath | handleVMPauseByPath | handleVMResumeByPath
  | handleVMLogsByPath | handleVMExecByPath
  | handleListSnapshotsByPath | handleCreateSnapshotByPath | handleListBackupsByPath | handleCreateBackupByPath
  | handleImages | handleImagePull | handleImageJobByPath | handleGetImageByPath | handleDeleteImageByPath
  | handleGetSnapshotByPath | handleDeleteSnapshotByPath
  | handleGetBackupByPath | handleDeleteBackupByPath | handleRestoreBackupByPath
  | handleListRecordings | handleGetRecording | handleGetRecordingEvents | handleFinalizeRecording | handleDeleteRecording
  | handleListVMRecordings.

(** A segment of a pattern; [Rest] is a pattern's trailing slash. *)
Inductive seg : Type := Lit (s : string) | Wild (name : string) | Rest.

Record route : Type := mkRoute { rt_method : string; rt_pattern : list seg; rt_handler : handler }.

(* @func internal/api/server.go setupHTTPRouter *)
Definition setupHTTPRouter : list route :=
  let id := Wild "id" in
  [ mkRoute "GET" [Rest] handleRoot;
    mkRoute "GET" [Lit "health"] handleHealth;
    mkRoute "GET" [Lit "capabilities"] handleCapabilities;
    mkRoute "GET" [Lit "vms"] handleListVMs;
    mkRoute "POST" [Lit "vms"] handleCreateVM;
    mkRoute "GET" [Lit "vms"; id] handleGetVMByPath;
    mkRoute "DELETE" [Lit "vms"; id] handleDeleteVMByPath;
    mkRoute "POST" [Lit "vms"; id; Lit "start"] handleVMStartByPath;
    mkRoute "POST" [Lit "vms"; id; Lit "stop"] handleVMStopByPath;
    mkRoute "POST" [Lit "vms"; id; Lit "kill"] handleVMKillByPath;
    mkRoute "POST" [Lit "vms"; id; Lit "pause"] handleVMPauseByPath;
    mkRoute "POST" [Lit "vms"; id; Lit "resume"] handleVMResumeByPath;
    mkRoute "GET" [Lit "vms"; id; Lit "logs"] handleVMLogsByPath;
    mkRoute "POST" [Lit "vms"; id; Lit "exec"] handleVMExecByPath;
    mkRoute "GET" [Lit "vms"; id; Lit "snapshots"] handleListSnapshotsByPath;
    mkRoute "POST" [Lit "vms"; id; Lit "snapshots"] handleCreateSnapshotByPath;
    mkRoute "GET" [Lit "vms"; id; Lit "backups"] handleListBackupsByPath;
    mkRoute "POST" [Lit "vms"; id; Lit "backups"] handleCreateBackupByPath;
    mkRoute "GET" [Lit "images"] handleImages;
    mkRoute "POST" [Lit "images"; Lit "pull"] handleImagePull;
    mkRoute "GET" [Lit "images"; Lit "jobs"; id] handleImageJobByPath;
    mkRoute "GET" [Lit "images"; Wild "digest"] handleGetImageByPath;
    mkRoute "DELETE" [Lit "images"; Wild "digest"] handleDeleteImageByPath;
    mkRoute "GET" [Lit "snapshots"; id] handleGetSnapshotByPath;
    mkRoute "DELETE" [Lit "snapshots"; id] handleDeleteSnapshotByPath;
    mkRoute "GET" [Lit "backups"; id] handleGetBackupByPath;
    mkRoute "DELETE" [Lit "backups"; id] handleDeleteBackupByPath;
    mkRoute "POST" [Lit "backups"; id; Lit "restore"] handleRestoreBackupByPath;
    mkRoute "GET" [Lit "recordings"] handleListRecordings;
    mkRoute "GET" [Lit "recordings"; id] handleGetRecording;
    mkRoute "GET" [Lit "recordings"; id; Lit "events"] handleGetRecordingEvents;
    mkRoute "POST" [Lit "recordings"; id; Lit "finalize"] handleFinalizeRecording;
    mkRoute "DELETE" [Lit "recordings"; id] handleDeleteRecording;
    mkRoute "GET" [Lit "vms"; id; Lit "recordings"] handleListVMRecordings ].

(** * The multiplexer of the standard library *)

(** One step of the tree of patterns: those that go on after a literal, those that
    go on after a wildcard. *)
Definition after_lit (s : string) (ps : list (list seg * handler)) : list (list seg * handler) :=
  omap (λ '(p, h), match p with Lit l :: p' => if String.eqb l s then Some (p', h) else None | _ => None end) ps.

Definition after_wild (ps : list (list seg * handler)) : list (list seg * handler) :=
  omap (λ '(p, h), match p with Wild _ :: p' => Some (p', h) | _ => None end) ps.

Definition ended (ps : list (list seg * handler)) : option handler :=
  head (omap (λ '(p, h), match p with [] => Some h | _ => None end) ps).
Definition resting (ps : list (list seg * handler)) : option handler :=
  head (omap (λ '(p, h), match p with Rest :: _ => Some h | _ => None end) ps).

(** [routingNode.matchPath]: a literal before a wildcard before the rest; a wildcard
    does not take a trailing slash. *)
Fixpoint match_path (ps : list (list seg * handler)) (path : list string) : option (handler * list string) :=
  match path with
  | [] => (λ h, (h, [])) <$> ended ps
  | s :: path =>
      match match_path (after_lit s ps) path with
      | Some r => Some r
      | None =>
          match (if String.eqb s "/" then None else prod_map id (cons s) <$> match_path (after_wild ps) path) with
          | Some r => Some r
          | None => (λ h, (h, [])) <$> resting ps
          end
      end
  end.

Definition patterns_of (method : string) (rs : list route) : list (list seg * handler) :=
  (λ r, (rt_pattern r, rt_handler r)) <$> List.filter (λ r, String.eqb (rt_method r) method) rs.

Inductive dispatched : Type :=
  | Handled (h : handler) (values : list string)
  | MethodNotAllowed (allow : list string)
  | NotFound.

(** A HEAD request may be served by a GET pattern. *)
Definition match_method (rs : list route) (method : string) (path : list string) : option (handler * list string) :=
  match match_path (patterns_of method rs) path with
  | Some r => Some r
  | None => if String.eqb method "HEAD" then match_path (patterns_of "GET" rs) path else None
  end.

Definition dispatch (rs : list route) (method : string) (path : list string) : dispatched :=
  match match_method rs method path with
  | Some (h, values) => Handled h values
  | None =>
      let allowed := List.filter (λ m, bool_decide (is_Some (match_path (patterns_of m rs) path))) ["DELETE"; "GET"; "POST"] in
      if bool_decide (allowed = []) then NotFound else MethodNotAllowed allowed
  end.

(** [firstSegment]: the segments of a cleaned, escaped path. *)
Definition path_segments (path : string) : list string :=
  let ss := tail (split_on slash path) in
  match last ss with
  | Some "" => (λ s, default s (unescape s)) <$> removelast ss ++ ["/"]
  | _ => (λ s, default s (unescape s)) <$> ss
  end.

Example dispatch_ex :
  (dispatch setupHTTPRouter "GET" ∘ path_segments <$>
    ["/"; "/images/jobs"; "/images/jobs/7"; "/images/sha256%3Aab"; "/vms/"; "/vms/%2F"; "/recordings/..%2Fstore"])
  = [Handled handleRoot []; Handled handleGetImageByPath ["jobs"]; Handled handleImageJobByPath ["7"];
     Handled handleGetImageByPath ["sha256:ab"]; Handled handleRoot []; Handled handleRoot []; Handled handleGetRecording ["../store"]] ∧
  dispatch setupHTTPRouter "PUT" ["vms"] = MethodNotAllowed ["GET"; "POST"] ∧
  dispatch setupHTTPRouter "POST" ["no"; "such"] = MethodNotAllowed ["GET"] ∧
  dispatch setupHTTPRouter "HEAD" ["vms"; "a"] = Handled handleGetVMByPath ["a"].
Proof. vm_compute. done. Qed.

(** * What a pattern matches *)

Fixpoint seg_match (p : list seg) (path : list string) : option (list string) :=
  match p, path with
  | [], [] => Some []
  | Rest :: _, _ :: _ => Some []
  | Lit l :: p, s :: path => if String.eqb l s then seg_match p path else None
  | Wild _ :: p, s :: path => if String.eqb s "/" then None else cons s <$> seg_match p path
  | _, _ => None
  end.

(** Of two patterns that match one path, the one with the more specific segment where
    they first differ. *)
Fixpoint at_least (p q : list seg) : bool :=
  match p, q with
  | [], _ => true
  | Lit _ :: p, Lit _ :: q => at_least p q
  | Wild _ :: p, Wild _ :: q => at_least p q
  | Lit _ :: _, _ | Wild _ :: _, Rest :: _ | Rest :: _, Rest :: _ => true
  | _, _ => false
  end.

Lemma elem_of_after_lit s ps p h : (p, h) ∈ after_lit s ps ↔ (Lit s :: p, h) ∈ ps.
Proof.
  unfold after_lit. rewrite list_elem_of_omap. split.
  - intros ([[|[l|n|] q] h'] & Hin & Heq); try done. destruct (String.eqb_spec l s); [|done]. by injection Heq as -> ->; subst.
  - intros Hin. exists (Lit s :: p, h). split; [done|]. by rewrite String.eqb_refl.
Qed.

Lemma elem_of_after_wild ps p h : (p, h) ∈ after_wild ps ↔ ∃ n, (Wild n :: p, h) ∈ ps.
Proof.
  unfold after_wild. rewrite list_elem_of_omap. split.
  - intros ([[|[l|n|] q] h'] & Hin & Heq); try done. injection Heq as -> ->. by exists n.
  - intros [n Hin]. by exists (Wild n :: p, h).
Qed.

Lemma head_omap_spec {A B} (f : A → option B) l b : head (omap f l) = Some b → ∃ a, a ∈ l ∧ f a = Some b.
Proof. intros H. destruct (omap f l) as [|b' l'] eqn:E; [done|]. injection H as ->. apply list_elem_of_omap. rewrite E. apply elem_of_cons. by left. Qed.

Lemma head_omap_none {A B} (f : A → option B) l : head (omap f l) = None → ∀ a, a ∈ l → f a = None.
Proof.
  intros H a Ha. destruct (f a) as [b|] eqn:E; [|done]. destruct (omap f l) as [|b' l'] eqn:El; [|done].
  assert (b ∈ omap f l) as Hb by (apply list_elem_of_omap; by exists a). rewrite El in Hb. by apply elem_of_nil in Hb.
Qed.

(** [None]: nothing matches; otherwise the best match, with the values of its
    wildcards. *)
Lemma match_path_spec path : ∀ ps,
  match match_path ps path with
  | Some (h, values) => ∃ p, (p, h) ∈ ps ∧ seg_match p path = Some values ∧
      ∀ q h', (q, h') ∈ ps → is_Some (seg_match q path) → at_least p q = true
  | None => ∀ q h', (q, h') ∈ ps → seg_match q path = None
  end.
Proof.
  induction path as [|s path IH]; intros ps.
  { cbn [match_path]. unfold ended. destruct (head _) as [h|] eqn:E; cbn [fmap option_fmap option_map].
    - apply head_omap_spec in E as ([[|] h'] & Hin & [= ->]). by exists [].
    - intros q h' Hq. apply (head_omap_none _ _ E) in Hq. by destruct q as [|[]]. }
  cbn [match_path]. pose proof (IH (after_lit s ps)) as Hl. destruct (match_path (after_lit s ps) path) as [[h values]|].
  { destruct Hl as (p & Hp & Hm & Hbest). apply elem_of_after_lit in Hp. exists (Lit s :: p). split; [done|]. cbn [seg_match].
    rewrite String.eqb_refl. split; [done|]. intros [|[l|n|] q] h' Hq Hmq; [by destruct Hmq| |done|done].
    cbn [seg_match] in Hmq. cbn [at_least]. destruct (String.eqb_spec l s) as [->|]; [|by destruct Hmq].
    eapply Hbest; [by apply elem_of_after_lit|done]. }
  assert (∀ l q h', (Lit l :: q, h') ∈ ps → seg_match (Lit l :: q) (s :: path) = None) as Hnl.
  { intros l q h' Hq. cbn [seg_match]. destruct (String.eqb_spec l s) as [->|]; [|done]. eapply Hl, elem_of_after_lit, Hq. }
  pose proof (IH (after_wild ps)) as Hw. destruct (String.eqb_spec s "/") as [Hs|Hs].
  2: destruct (match_path (after_wild ps) path) as [[h values]|]; cbn [fmap option_fmap option_map].
  2: { destruct Hw as (p & Hp & Hm & Hbest). apply elem_of_after_wild in Hp as [n Hp]. exists (Wild n :: p). split; [done|].
    cbn [seg_match prod_map fst snd id]. apply String.eqb_neq in Hs. rewrite Hs, Hm. split; [done|].
    intros [|[l|n'|] q] h' Hq Hmq; [by destruct Hmq|rewrite (Hnl _ _ _ Hq) in Hmq; by destruct Hmq| |done].
    cbn [seg_match] in Hmq. rewrite Hs in Hmq. cbn [at_least]. eapply Hbest; [apply elem_of_after_wild; by exists n'|].
    destruct (seg_match q path); [done|by destruct Hmq]. }
  all: assert (∀ n q h', (Wild n :: q, h') ∈ ps → seg_match (Wild n :: q) (s :: path) = None) as Hnw.
  1: { intros n q h' _. cbn [seg_match]. apply String.eqb_eq in Hs. by rewrite Hs. }
  2: { intros n q h' Hq. cbn [seg_match]. destruct (String.eqb s "/"); [done|].
       rewrite (Hw q h'); [done|]. apply elem_of_after_wild. by exists n. }
  all: unfold resting; destruct (head _) as [h|] eqn:E; cbn [fmap option_fmap option_map].
  1, 3: apply head_omap_spec in E as ([[|[l|n|] p] h'] & Hin & E); try done; injection E as ->;
    exists (Rest :: p); split; [done|]; split; [done|]; intros [|[l|n|] q] h' Hq Hmq;
    [by destruct Hmq|rewrite (Hnl _ _ _ Hq) in Hmq; by destruct Hmq|rewrite (Hnw _ _ _ Hq) in Hmq; by destruct Hmq|done].
  all: intros [|[l|n|] q] h' Hq; [done|by eapply Hnl|by eapply Hnw|]; by apply (head_omap_none _ _ E) in Hq.
Qed.

(** * The table *)

Definition method_ok (method : string) (r : route) : Prop :=
  rt_method r = method ∨ (method = "HEAD" ∧ rt_method r = "GET").

Lemma elem_of_patterns method rs p h : (p, h) ∈ patterns_of method rs ↔ ∃ r, r ∈ rs ∧ rt_method r = method ∧ rt_pattern r = p ∧ rt_handler r = h.
Proof.
  unfold patterns_of. rewrite list_elem_of_fmap. split.
  - intros (r & Heq & Hr). injection Heq as -> ->. apply list_elem_of_In, List.filter_In in Hr as [Hr%list_elem_of_In Hm].
    apply String.eqb_eq in Hm. by exists r.
  - intros (r & Hr & Hm & <- & <-). exists r. split; [done|]. apply list_elem_of_In, List.filter_In. split; [by apply list_elem_of_In|].
    by apply String.eqb_eq.
Qed.

Lemma match_method_get path : match_method setupHTTPRouter "HEAD" path = match_path (patterns_of "GET" setupHTTPRouter) path.
Proof. unfold match_method. by assert (match_path (patterns_of "HEAD" setupHTTPRouter) path = None) as -> by
  (pose proof (match_path_spec path []) as H; change (patterns_of "HEAD" setupHTTPRouter) with (@nil (list seg * handler));
   destruct (match_path [] path) as [[h v]|]; [destruct H as (p & Hp & _); by apply elem_of_nil in Hp|done]). Qed.

(** Every request is dispatched to the handler of the most specific route that takes
    it, with the values of its wildcards. *)
Lemma dispatch_handled method path h values :
  dispatch setupHTTPRouter method path = Handled h values →
  ∃ r, r ∈ setupHTTPRouter ∧ method_ok method r ∧ rt_handler r = h ∧ seg_match (rt_pattern r) path = Some values ∧
    ∀ r', r' ∈ setupHTTPRouter → rt_method r' = rt_method r → is_Some (seg_match (rt_pattern r') path) → at_least (rt_pattern r) (rt_pattern r') = true.
Proof.
  unfold dispatch. destruct (match_method _ _ _) as [[h' v']|] eqn:E; [|by case_bool_decide]. intros [= -> ->].
  assert (∀ m, match_path (patterns_of m setupHTTPRouter) path = Some (h, values) → ∃ r, r ∈ setupHTTPRouter ∧ rt_method r = m ∧ rt_handler r = h ∧
    seg_match (rt_pattern r) path = Some values ∧ ∀ r', r' ∈ setupHTTPRouter → rt_method r' = m → is_Some (seg_match (rt_pattern r') path) →
    at_least (rt_pattern r) (rt_pattern r') = true) as Hm.
  { intros m Em. pose proof (match_path_spec path (patterns_of m setupHTTPRouter)) as H. rewrite Em in H.
    destruct H as (p & Hp & Hs & Hbest). apply elem_of_patterns in Hp as (r & Hr & Hmr & <- & Hh). exists r. split_and!; [done..|].
    intros r' Hr' Hmr'. apply (Hbest _ (rt_handler r')), elem_of_patterns. by exists r'. }
  unfold match_method in E. destruct (match_path (patterns_of method setupHTTPRouter) path) as [r0|] eqn:E0.
  - injection E as ->. destruct (Hm method E0) as (r & Hr & <- & Hh & Hs & Hb). exists r. split_and!; [done|by left|done..].
  - destruct (String.eqb_spec method "HEAD") as [->|]; [|done].
    destruct (Hm "GET" E) as (r & Hr & Hg & Hh & Hs & Hb). exists r. rewrite Hg. split_and!; [done|by right|done..].
Qed.

(** The path of a pattern with values for its wildcards. *)
Fixpoint instantiate (p : list seg) (values : list string) : list string :=
  match p, values with
  | Lit l :: p, _ => l :: instantiate p values
  | Wild _ :: p, v :: values => v :: instantiate p values
  | Rest :: _, _ => ["/"]
  | _, _ => []
  end.

Definition wildcards (p : list seg) : nat := length (List.filter (λ s, match s with Wild _ => true | _ => false end) p).

(** [p] may match a path of [q]. *)
Fixpoint may_match (p q : list seg) : bool :=
  match p, q with
  | [], [] => true
  | Rest :: _, _ :: _ => true
  | Lit a :: p, Lit b :: q => String.eqb a b && may_match p q
  | Lit _ :: p, Wild _ :: q | Wild _ :: p, Lit _ :: q | Wild _ :: p, Wild _ :: q => may_match p q
  | Lit a :: p, Rest :: _ => String.eqb a "/"
  | _, _ => false
  end.

Lemma seg_match_may p : ∀ q values, length values = wildcards q → is_Some (seg_match p (instantiate q values)) → may_match p q = true.
Proof.
  induction p as [|[a|n|] p IH]; intros [|[b|m|] q] values Hlen Hm; try done; try (by destruct Hm).
  - by destruct values; [|destruct Hm].
  - cbn in *. destruct (String.eqb a b); [|by destruct Hm]. by eapply IH.
  - destruct values as [|v values]; [done|]. cbn in Hm. destruct (String.eqb a v); [|by destruct Hm]. apply (IH q values); [by injection Hlen|done].
  - cbn in *. by destruct (String.eqb a "/"); [|destruct Hm].
  - cbn in *. destruct (String.eqb b "/"); [by destruct Hm|]. apply (IH q values); [done|]. destruct (seg_match _ _); [done|by destruct Hm].
  - destruct values as [|v values]; [done|]. cbn in Hm. destruct (String.eqb v "/"); [by destruct Hm|]. apply (IH q values); [by injection Hlen|].
    destruct (seg_match _ _); [done|by destruct Hm].
Qed.

(** A pattern matches its paths, with their values; [Rest] can only be last. *)
Lemma seg_match_self p : ∀ values, length values = wildcards p → Forall (λ v, v ≠ "/") values → (Rest ∈ p → last p = Some Rest ∧ values = []) →
  seg_match p (instantiate p values) = Some values.
Proof.
  induction p as [|[a|n|] p IH]; intros values Hlen Hv Hr.
  - by destruct values.
  - cbn. rewrite String.eqb_refl. apply IH; [done|done|]. intros H. destruct Hr as [Hl Hn]; [by apply elem_of_cons; right|].
    split; [|done]. by destruct p.
  - destruct values as [|v values]; [done|]. apply Forall_cons in Hv as [Hv Hvs]. cbn. apply String.eqb_neq in Hv. rewrite Hv.
    rewrite IH; [done|by injection Hlen|done|]. intros H. destruct Hr as [_ ?]; [by apply elem_of_cons; right|done].
  - cbn. destruct Hr as [_ ->]; [by apply elem_of_cons; left|done].
Qed.

#[global] Instance handler_eq_dec : EqDecision handler. Proof. solve_decision. Defined.
#[global] Instance seg_eq_dec : EqDecision seg. Proof. solve_decision. Defined.
#[global] Instance route_eq_dec : EqDecision route. Proof. solve_decision. Defined.

(** No path of a route is taken from it by another one of its method. *)
Definition unambiguous (rs : list route) : bool :=
  forallb (λ r, forallb (λ r', negb (String.eqb (rt_method r') (rt_method r) && may_match (rt_pattern r') (rt_pattern r) &&
    at_least (rt_pattern r') (rt_pattern r)) || bool_decide (r' = r)) rs) rs.

Lemma router_unambiguous r r' : r ∈ setupHTTPRouter → r' ∈ setupHTTPRouter → rt_method r' = rt_method r →
  may_match (rt_pattern r') (rt_pattern r) = true → at_least (rt_pattern r') (rt_pattern r) = true → r' = r.
Proof.
  intros Hr Hr' Hm Hmay Hal. assert (unambiguous setupHTTPRouter = true) as H by (by vm_compute).
  unfold unambiguous in H. rewrite forallb_forall in H. specialize (H r (proj1 (list_elem_of_In _ _) Hr)).
  rewrite forallb_forall in H. specialize (H r' (proj1 (list_elem_of_In _ _) Hr')). apply String.eqb_eq in Hm.
  rewrite Hm, Hmay, Hal in H. by apply bool_decide_eq_true in H.
Qed.

Definition rest_last (p : list seg) : bool :=
  negb (bool_decide (Rest ∈ p)) || (bool_decide (last p = Some Rest) && (wildcards p =? 0)%nat).

Lemma router_rest_last r : r ∈ setupHTTPRouter → rest_last (rt_pattern r) = true.
Proof.
  intros Hr. assert (forallb (λ r, rest_last (rt_pattern r)) setupHTTPRouter = true) as H by (by vm_compute).
  rewrite forallb_forall in H. by apply H, list_elem_of_In.
Qed.

(** every route is reached: whatever values its wildcards are given, but a bare
    slash, a request for its path has its handler called with these values; and a
    request goes to no handler but that of the most specific route for its method and
    path. *)
Theorem routes_reached :
  (∀ r values, r ∈ setupHTTPRouter → length values = wildcards (rt_pattern r) → Forall (λ v, v ≠ "/") values →
     dispatch setupHTTPRouter (rt_method r) (instantiate (rt_pattern r) values) = Handled (rt_handler r) values) ∧
  (∀ method path h values, dispatch setupHTTPRouter method path = Handled h values →
     ∃ r, r ∈ setupHTTPRouter ∧ method_ok method r ∧ rt_handler r = h ∧ seg_match (rt_pattern r) path = Some values ∧
       ∀ r', r' ∈ setupHTTPRouter → rt_method r' = rt_method r → is_Some (seg_match (rt_pattern r') path) →
         at_least (rt_pattern r) (rt_pattern r') = true).
Proof.
  split; [|apply dispatch_handled]. intros r values Hr Hlen Hv.
  assert (seg_match (rt_pattern r) (instantiate (rt_pattern r) values) = Some values) as Hself.
  { apply seg_match_self; [done..|]. intros Hrest. pose proof (router_rest_last r Hr) as H. unfold rest_last in H.
    rewrite bool_decide_true in H by done. apply andb_true_iff in H as [H1%bool_decide_eq_true H2%Nat.eqb_eq].
    split; [done|]. rewrite H2 in Hlen. by destruct values. }
  pose proof (match_path_spec (instantiate (rt_pattern r) values) (patterns_of (rt_method r) setupHTTPRouter)) as H.
  assert ((rt_pattern r, rt_handler r) ∈ patterns_of (rt_method r) setupHTTPRouter) as Hin by (apply elem_of_patterns; by exists r).
  unfold dispatch, match_method. destruct (match_path _ _) as [[h vs]|]; [|by rewrite (H _ _ Hin) in Hself].
  destruct H as (p & Hp & Hm & Hbest). apply elem_of_patterns in Hp as (r' & Hr' & Hmeth & <- & <-).
  assert (r' = r) as ->; [|congruence]. apply router_unambiguous; [done..| |by apply (Hbest _ _ Hin); rewrite Hself].
  eapply seg_match_may; [done|by rewrite Hm].
Qed.
