(* ===== verification/Daemon.v ===== *)
(** The start of the daemon (src/internal/api/server.go, and the opening of the
    database in src/internal/storage/db.go): what is opened in which order, what a
    server is made of, the listeners and who stands before each.

    A call on the outside is an event of the log with its outcome, which comes from
    the environment.  Logging has no effect here but for the log file that is opened. *)

From stdpp Require Import gmap.
From S2P Require Import Prelude GoStrings Types HostNet Ipam Storage Spire Server DaemonConfig Auth.
From S2P Require Firecracker.

Inductive boot_op : Type :=
  | OpenLogFile (path : string)
  | MkdirAll (path : string)
  | OpenDB (path : string)
  | DBExec (statement : string)
  | CloseConn
  | ProbeFirecracker (path : string)
  | OpenRecordings (path : string)
  | NetworkSetup
  | LoadKeyPair (cert key : string)
  | LoadClientCA (path : string)
  | StatSocket (path : string)
  | RemoveSocket (path : string)
  | Listen (network addr : string)
  | ChmodSocket (path : string) (mode : Z)
  | Serve (network addr : string)
  | CloseDB
  | CloseLog.

(** The runtime behind [vmm.Manager]. *)
Inductive RuntimeManager : Type :=
  | RmFirecracker (m : Firecracker.Manager) (sshKey sshUser : string) (verify : bool)
  | RmAppleContainer (cfg : AppleContainerRuntimeConfig) (dataDir : string).

(** What [registry.NewClient] is given. *)
Record RegistryOptions : Type := mkRegOpts { ro_data_dir : string; ro_pull : Z; ro_layer : Z; ro_kernel : string }.

(** [None] where the snapshot tier is disabled; the root and the parallelism of the
    store, and the versions pinned in manifests. *)
Record SnapshotTier : Type := mkTier { ti_root : string; ti_parallelism : Z; ti_nanofuse : string; ti_firecracker : string }.

(* @src internal/api/server.go:47-74 Server *)
Record ApiServer : Type := mkApiServer {
  sv_config : Config; sv_db : DB; sv_runtime : RuntimeManager; sv_registry : RegistryOptions; sv_ipam : IPAM;
  sv_recording : bool; sv_spire : SPIREConfig; sv_tier : option SnapshotTier }.

(** A server at work: its listener, the certificates TLS is configured with, and
    whether the identity middleware stands before the handlers. *)
Record served : Type := mkServed {
  sd_network : string; sd_addr : string; sd_tls : option (string * string * string); sd_identity : bool; sd_server : ApiServer }.

Record boot_event : Type := BEv { be_op : boot_op; be_outcome : option error; be_commands : list cmd_event; be_served : option served }.

Record Boot : Type := mkBoot { bo_tick : nat; bo_cmds : list cmd_event; bo_log : list boot_event }.

Class BootEnv : Type := {
  bt_goos : string;
  bt_host :: Host;
  bt_fault : nat → boot_op → option error;
  bt_cwd : nat → result string;
  bt_stored : DB;                            (* the database on disk *)
  bt_has_column : nat → result bool;         (* whether vms has the architecture column *)
  bt_version : nat → result string;          (* firecracker.BinaryVersion *)
  bt_query : nat → query_outcome;
  bt_read : string → result string;
  bt_yaml : string → Config → result Config;
  bt_ca_parses : bool }.                     (* AppendCertsFromPEM *)

Definition BM (A : Type) : Type := State Boot A.

Inductive boot_outcome : Type := Panicked | Returned (err : error).

Section Boot.
Context `{BE : BootEnv}.

Definition log_event (e : boot_event) (w : Boot) : Boot := mkBoot (S (bo_tick w)) (bo_cmds w) (bo_log w ++ [e]).

Definition call (op : boot_op) : BM (option error) := λ w,
  let r := bt_fault (bo_tick w) op in (r, log_event (BEv op r [] None) w).

Definition ask_boot {A} (f : nat → A) : BM A := λ w, (f (bo_tick w), mkBoot (S (bo_tick w)) (bo_cmds w) (bo_log w)).

Definition commands {A} (m : State (list cmd_event) A) : BM A := λ w,
  let '(a, tr) := m (bo_cmds w) in (a, mkBoot (bo_tick w) tr (bo_log w)).

(** * The database *)

(* @func internal/storage/db.go runMigrations *)
Definition runMigrations : BM (option error) :=
  let* r := ask_boot bt_has_column in
  match r with
  | Err err => ret (Some (Errorf "failed to check for architecture column: %w" [AWrap err]))
  | Ok true => ret None
  | Ok false =>
      checked (call (DBExec "ALTER TABLE vms ADD COLUMN architecture TEXT NOT NULL DEFAULT 'x86_64'"))
        (λ err, Some (Errorf "failed to add architecture column: %w" [AWrap err])) (ret None)
  end.

(** [IF NOT EXISTS]: the schema leaves what is stored. *)
(* @func internal/storage/db.go New *)
Definition storage_New (path : string) : BM (result DB) :=
  let closing (what : string) (err : error) : BM (result DB) := call CloseConn ;;; ret (Err (Errorf what [AWrap err])) in
  checked (call (MkdirAll (filepath_dir path))) (λ err, Err (Errorf "failed to create database directory: %w" [AWrap err])) (
  checked (call (OpenDB path)) (λ err, Err (Errorf "failed to open database: %w" [AWrap err])) (
  let* e := call (DBExec "PRAGMA foreign_keys = ON") in
  match e with
  | Some err => closing "failed to enable foreign keys: %w" err
  | None =>
      let* e := call (DBExec "schema") in
      match e with
      | Some err => closing "failed to initialize schema: %w" err
      | None =>
          let* e := runMigrations in
          match e with
          | Some err => closing "failed to run migrations: %w" err
          | None => ret (Ok bt_stored)
          end
      end
  end)).

(** * Addresses of the VMs of an earlier run *)

Definition vm_address (vm : VM) : string := n_ip (c_network (vm_config vm)).

(** [None] is a panic: the id is cut at eight bytes for the log. *)
Fixpoint build_allocations (vms : list VM) (allocations : gmap string string) : option (gmap string string) :=
  match vms with
  | [] => Some allocations
  | vm :: vms =>
      if negb (String.eqb (vm_address vm) "") then
        if (String.length (vm_id vm) <? 8)%nat then None
        else build_allocations vms (<[vm_id vm := vm_address vm]> allocations)
      else build_allocations vms allocations
  end.

(** [None] is a panic, [Some (Some err)] an error. *)
(* @func internal/api/server.go loadExistingAllocations *)
Definition loadExistingAllocations (q : query_outcome) (db : DB) : State IPAM (option (option error)) :=
  match ListVMs q "" db with
  | Err err => ret (Some (Some (Errorf "failed to list VMs: %w" [AWrap err])))
  | Ok [] => ret (Some None)
  | Ok vms =>
      match build_allocations vms ∅ with
      | None => ret None
      | Some allocations => (if bool_decide (allocations = ∅) then ret tt else LoadAllocations allocations) ;;; ret (Some None)
      end
  end.

(** * Infrastructure *)

(** The part of the configuration the handlers look at. *)
Definition handler_config (cfg : Config) : Server.Config :=
  let lim := c_limits cfg in
  mkCfg (rc_driver (c_runtime cfg)) (String.eqb bt_goos "darwin") (st_data_dir (c_storage cfg)) (c_network_setup cfg)
    (VmConfig.mkLimits (lm_vms lim) (lm_vcpus lim) (lm_memory lim)) (sc_enabled (c_spire cfg)) (sc_required (c_spire cfg)).

Definition driver_of (cfg : Config) : string := selectedRuntimeDriver (handler_config cfg).

(* @func internal/api/server.go newRuntimeManager *)
Definition newRuntimeManager (cfg : Config) : result RuntimeManager :=
  let driver := driver_of cfg in
  let fc := c_firecracker cfg in
  if String.eqb driver "firecracker" then
    Ok (RmFirecracker (Firecracker.NewManager (fc_binary fc) (st_data_dir (c_storage cfg))) (fc_ssh_key fc) (fc_ssh_user fc) (fc_ssh_verify fc))
  else if String.eqb driver "apple_container" then Ok (RmAppleContainer (rc_apple (c_runtime cfg)) (st_data_dir (c_storage cfg)))
  else Err (Errorf "unsupported runtime driver %q" [AStr driver]).

(** [filepath.Abs]. *)
Definition filepath_abs (path : string) : BM (result string) :=
  if is_rooted path then ret (Ok (path_clean path))
  else
    let* r := ask_boot bt_cwd in
    ret (match r with Ok cwd => Ok (filepath_join [cwd; path]) | Err err => Err err end).

(** The vsock proxy of the identity agent, where the runtime has one. *)
(* @src internal/api/server.go:131-147 initializeInfrastructure *)
Definition configure_vsock (cfg : Config) (rm : RuntimeManager) : result RuntimeManager :=
  let s := c_spire cfg in
  if sc_enabled s && (3 <=? sc_cid s)%Z then
    match rm with
    | RmFirecracker m key user verify =>
        let '(m, e) := Firecracker.SetSPIREConfig m (Some (Firecracker.mkSPIREProxy true (sc_cid s) (sc_port s) (sc_agent s))) in
        match e with
        | Some err => Err (Errorf "invalid SPIRE config: %w" [AWrap err])
        | None => Ok (RmFirecracker m key user verify)
        end
    | _ => Ok rm
    end
  else Ok rm.

(* @func internal/api/server.go initializeInfrastructure *)
Definition initializeInfrastructure (cfg : Config) : BM (result (DB * RuntimeManager * RegistryOptions)) :=
  let data_dir := st_data_dir (c_storage cfg) in
  checked (call (MkdirAll data_dir)) Err (
  checked_result (storage_New (st_database (c_storage cfg))) Err (λ db,
  match (let? rm := newRuntimeManager cfg in configure_vsock cfg rm) with
  | Err err => ret (Err err)
  | Ok rm =>
      let kernel := fc_kernel (c_firecracker cfg) in
      let kernel := if String.eqb kernel "" then filepath_join [data_dir; "images"; "vmlinux"] else kernel in
      checked_result (filepath_abs kernel)
        (λ err, Err (Errorf "resolve fallback kernel path %q to absolute: %w" [AStr kernel; AWrap err])) (λ kernel,
      ret (Ok (db, rm, mkRegOpts data_dir (rg_pull (c_registry cfg) * 1000000000) (rg_layer (c_registry cfg) * 1000000000) kernel)))
  end)).

Definition apiVersion : string := "0.1.0".

(* @func internal/api/server.go initSnapshotStore *)
Definition initSnapshotStore (cfg : Config) : BM (option SnapshotTier) :=
  let s := c_snapshot_store cfg in
  if String.eqb (ss_backend s) SnapshotBackendDisabled then ret None
  else if negb (String.eqb (ss_backend s) SnapshotBackendFilesystem) then ret None
  else if String.eqb (ss_path s) "" then ret None
  else
    let* r := filepath_abs (ss_path s) in
    match r with
    | Err _ => ret None
    | Ok root =>
        let* e := call (MkdirAll root) in
        match e with
        | Some _ => ret None
        | None =>
            let parallelism := if (ss_parallelism s <=? 0)%Z then 4%Z else ss_parallelism s in
            if String.eqb (driver_of cfg) "firecracker" && negb (String.eqb (fc_binary (c_firecracker cfg)) "") then
              call (ProbeFirecracker (fc_binary (c_firecracker cfg))) ;;;
              let* v := ask_boot bt_version in
              ret (Some (mkTier root parallelism apiVersion (match v with Ok v => v | Err _ => "" end)))
            else ret (Some (mkTier root parallelism apiVersion ""))
        end
    end.

(** The commands it ran are those of the event. *)
(* @func internal/api/server.go setupNetworkInfrastructure *)
Definition setupNetworkInfrastructure : BM (option error) := λ w,
  let '(e, tr) :=
    (let* e := SetupBridge in
     match e with
     | Some err => ret (Some err)
     | None =>
         let* iface := GetPrimaryInterface in
         SetupNAT (match iface with Ok i => i | Err _ => "eth0" end)
     end) [] in
  (e, mkBoot (bo_tick w) (bo_cmds w ++ tr) (bo_log w ++ [BEv NetworkSetup e tr None])).

(* @func internal/api/auth_middleware.go loadClientCAPool *)
Definition loadClientCAPool (path : string) : BM (option error) :=
  checked (call (LoadClientCA path)) (λ err, Some (Errorf "failed to read API client CA file %q: %w" [AStr path; AWrap err]))
    (ret (if negb bt_ca_parses then Some (Errorf "failed to parse API client CA file %q" [AStr path]) else None)).

(** The certificate, the key and the authority a client certificate is required and
    verified with. *)
(* @func internal/api/auth_middleware.go BuildAuthTLSConfig *)
Definition BuildAuthTLSConfig (cfg : AuthConfig) : BM (result (string * string * string)) :=
  checked (call (LoadKeyPair (au_cert cfg) (au_key cfg))) (λ err, Err (Errorf "failed to load API TLS key pair: %w" [AWrap err])) (
  checked (loadClientCAPool (au_client_ca cfg)) Err (ret (Ok (au_cert cfg, au_key cfg, au_client_ca cfg)))).

(** * Listeners *)

Definition unix_listener (socketPath : string) : BM (result (string * string)) :=
  let* exists_ := call (StatSocket socketPath) in
  let listening : BM (result (string * string)) :=
    checked (call (Listen "unix" socketPath)) (λ err, Err (Errorf "failed to create unix socket: %w" [AWrap err])) (
    call (ChmodSocket socketPath 438) ;;; ret (Ok ("unix", socketPath))) in
  match exists_ with
  | None => checked (call (RemoveSocket socketPath)) (λ err, Err (Errorf "failed to remove existing socket: %w" [AWrap err])) listening
  | Some _ => listening
  end.

Definition tcp_listener (addr : string) : BM (result (string * string)) :=
  checked (call (Listen "tcp" addr)) (λ err, Err (Errorf "failed to create TCP listener: %w" [AWrap err])) (ret (Ok ("tcp", addr))).

(** A listener if it is configured. *)
Definition listener_if (configured : bool) (m : BM (result (string * string))) (k : list (string * string) → BM (result (list (string * string)))) :
    BM (result (list (string * string))) :=
  if configured then checked_result m Err (λ l, k [l]) else k [].

(* @func internal/api/server.go setupListeners *)
Definition setupListeners (cfg : Config) : BM (result (list (string * string))) :=
  let api := c_api cfg in
  listener_if (negb (String.eqb (api_socket api) "")) (unix_listener (api_socket api)) (λ unix,
  listener_if (negb (String.eqb (api_tcp api) "")) (tcp_listener (api_tcp api)) (λ tcp,
  let listeners := unix ++ tcp in
  ret (if bool_decide (listeners = []) then Err (Errorf "no listeners configured: set api.socket or api.tcp_bind in config" [])
       else Ok listeners))).

Definition serve (s : served) : BM (option error) := λ w,
  let op := Serve (sd_network s) (sd_addr s) in
  let r := bt_fault (bo_tick w) op in (r, log_event (BEv op r [] (Some s)) w).

(** The middleware stands before the handlers of a TCP listener only. *)
Definition serve_on (cfg : Config) (tls : option (string * string * string)) (srv : ApiServer) (l : string * string) : served :=
  if au_enabled (c_auth cfg) && String.eqb (fst l) "tcp" then mkServed (fst l) (snd l) tls true srv
  else mkServed (fst l) (snd l) None false srv.

(** All listeners are served, the last one in the main goroutine: it is its error
    that is returned.  [Serve] always returns an error. *)
(* @src internal/api/server.go:553-585 startServer *)
Fixpoint serve_all (cfg : Config) (tls : option (string * string * string)) (srv : ApiServer) (ls : list (string * string)) : BM error :=
  match ls with
  | [] => ret (ErrorsNew "no error is ever received")
  | [l] =>
      let* e := serve (serve_on cfg tls srv l) in
      ret (match e with Some err => err | None => ErrorsNew "http: Server closed" end)
  | l :: ls => serve (serve_on cfg tls srv l) ;;; serve_all cfg tls srv ls
  end.

(** * The daemon *)

(* @src internal/api/server.go:537-551 startServer *)
Definition start_listening (cfg : Config) (srv : ApiServer) : BM boot_outcome :=
  let go (tls : option (string * string * string)) : BM boot_outcome :=
    checked_result (setupListeners cfg) Returned (λ ls, let* err := serve_all cfg tls srv ls in ret (Returned err)) in
  if au_enabled (c_auth cfg) && negb (String.eqb (api_tcp (c_api cfg)) "") then
    checked_result (BuildAuthTLSConfig (c_auth cfg)) Returned (λ tls, go (Some tls))
  else go None.

(** Addresses, recordings, snapshot tier, and the server. *)
(* @src internal/api/server.go:476-536 startServer *)
Definition build_server (cfg : Config) (db : DB) (rm : RuntimeManager) (reg : RegistryOptions) : BM boot_outcome :=
  let* q := ask_boot bt_query in
  let '(loaded, ipam) := loadExistingAllocations q db NewIPAM in
  match loaded with
  | None => ret Panicked
  | Some _ =>
      let* recordings := call (OpenRecordings (filepath_join [st_data_dir (c_storage cfg); "recordings"])) in
      let* tier := initSnapshotStore cfg in
      start_listening cfg (mkApiServer cfg db rm reg ipam (bool_decide (recordings = None)) (c_spire cfg) tier)
  end.

(* @func internal/api/server.go startServer *)
Definition startServer (cfg : Config) : BM boot_outcome :=
  checked (if String.eqb (lg_file (c_logging cfg)) "" then ret None else call (OpenLogFile (lg_file (c_logging cfg))))
    (λ err, Returned (Errorf "failed to initialize logger: %w" [AWrap err])) (
  deferred (call CloseLog ;;; ret tt) (
  checked_result (initializeInfrastructure cfg) Returned (λ '(db, rm, reg),
  deferred (call CloseDB ;;; ret tt) (
  checked (if c_network_setup cfg && String.eqb (driver_of cfg) "firecracker" then setupNetworkInfrastructure else ret None) Returned (
  build_server cfg db rm reg))))).

Definition override (cfg : Config) (tcpBind unixSocket : string) : Config :=
  let api := c_api cfg in
  let api := mkApi (if String.eqb unixSocket "" then api_socket api else unixSocket) (api_mode api) (api_group api)
    (if String.eqb tcpBind "" then api_tcp api else tcpBind) in
  mkConfig api (c_storage cfg) (c_runtime cfg) (c_firecracker cfg) (c_limits cfg) (c_registry cfg) (c_logging cfg)
    (c_network_setup cfg) (c_spire cfg) (c_auth cfg) (c_snapshot_store cfg).

(* @func internal/api/server.go StartWithOverrides *)
Definition StartWithOverrides (configPath tcpBind unixSocket : string) : BM boot_outcome :=
  match Load bt_read bt_yaml configPath with
  | Err err => ret (Returned err)
  | Ok cfg =>
      let '(e, cfg) := Validate bt_goos (override cfg tcpBind unixSocket) in
      match e with Some err => ret (Returned err) | None => startServer cfg end
  end.

(* @func internal/api/server.go Start *)
Definition Start (configPath : string) : BM boot_outcome :=
  match Load bt_read bt_yaml configPath with
  | Err err => ret (Returned err)
  | Ok cfg =>
      let '(e, cfg) := Validate bt_goos cfg in
      match e with Some err => ret (Returned err) | None => startServer cfg end
  end.

(* @func cmd/nanofused/main.go main *)
Definition main (configPath tcpBind unixSocket : string) : BM boot_outcome :=
  if negb (String.eqb tcpBind "") || negb (String.eqb unixSocket "") then StartWithOverrides configPath tcpBind unixSocket
  else Start configPath.

End Boot.
