(* ===== verification/DaemonSpec.v ===== *)
(** What the start of the daemon guarantees: a configuration that is accepted, the
    addresses of an earlier run kept, and no listener served before everything a
    request needs is there -- over TCP, with authentication, the certificates and the
    middleware. *)

From stdpp Require Import gmap sorting.
From S2P Require Import Prelude GoStrings Types Ipam Storage Spire Server DaemonConfig Auth Daemon.

(** * Accepted configurations *)

Record accepted (goos : string) (c : Config) : Prop := mkAccepted {
  acc_dirs : st_data_dir (c_storage c) ≠ "" ∧ st_database (c_storage c) ≠ "";
  acc_limits : (0 < lm_vms (c_limits c))%Z ∧ (0 < lm_total_memory (c_limits c))%Z;
  acc_driver : ∃ driver, runtimeDriverForHost (rc_driver (c_runtime c)) goos = Ok driver ∧
    (driver = "firecracker" → fc_binary (c_firecracker c) ≠ "") ∧
    (driver = "apple_container" → ac_binary (rc_apple (c_runtime c)) ≠ "" ∧ ac_command (rc_apple (c_runtime c)) ≠ "");
  acc_spire : sc_required (c_spire c) = true → sc_enabled (c_spire c) = true;
  acc_store : let s := c_snapshot_store c in ss_backend s ≠ "" →
    ss_backend s = "filesystem" ∧ ss_path s ≠ "" ∧ (ss_compression s = "" ∨ ss_compression s = "zstd");
  acc_auth : let a := c_auth c in au_enabled a = true → api_tcp (c_api c) ≠ "" → au_cert a ≠ "" ∧ au_key a ≠ "" ∧ au_client_ca a ≠ "" }.

Lemma validateRuntime_accepts goos c c' : validateRuntime goos c = (None, c') →
  c' = set_runtime c (c_runtime c') ∧ ∃ driver, runtimeDriverForHost (rc_driver (c_runtime c')) goos = Ok driver ∧
    (driver = "firecracker" → fc_binary (c_firecracker c') ≠ "") ∧
    (driver = "apple_container" → ac_binary (rc_apple (c_runtime c')) ≠ "" ∧ ac_command (rc_apple (c_runtime c')) ≠ "").
Proof.
  unfold validateRuntime. cbn [rc_driver set_runtime c_firecracker rc_apple].
  destruct (runtimeDriverForHost _ _) as [driver|] eqn:Ed; [|done].
  destruct (String.eqb_spec driver "firecracker") as [->|Hd]; cbn [andb].
  - destruct (String.eqb_spec (fc_binary (c_firecracker c)) ""); [done|]. cbn [String.eqb Ascii.eqb Bool.eqb].
    intros [= <-]. split; [done|]. by exists "firecracker".
  - destruct (String.eqb_spec driver "apple_container") as [->|Ha]; intros [= <-]; (split; [done|]).
    + exists "apple_container". split; [done|]. split; [done|]. intros _. cbn [c_runtime set_runtime rc_apple ac_binary ac_command].
      by split; [destruct (String.eqb_spec (ac_binary (rc_apple (c_runtime c))) "")|destruct (String.eqb_spec (ac_command (rc_apple (c_runtime c))) "")].
    + by exists driver.
Qed.

Lemma Validate_accepts goos c c' : Validate goos c = (None, c') → accepted goos c'.
Proof.
  unfold Validate. destruct (String.eqb_spec (st_data_dir (c_storage c)) ""); [done|]. destruct (String.eqb_spec (st_database (c_storage c)) ""); [done|].
  destruct (validateRuntime goos c) as [[err|] c1] eqn:Er; [done|]. apply validateRuntime_accepts in Er as (Hc & Hd).
  destruct (Z.leb_spec (lm_vms (c_limits c1)) 0); [done|]. destruct (Z.leb_spec (lm_total_memory (c_limits c1)) 0); [done|].
  unfold validateSPIRE. destruct (sc_required (c_spire c1)) eqn:Hreq; cbn [andb]; [destruct (sc_enabled (c_spire c1)) eqn:Hen; [cbn [negb]|done]|].
  all: destruct (validateSnapshotStore c1) eqn:Hs; [done|]; intros [= Ha <-]; split; [by rewrite Hc|done|done| | |].
  1, 4: intros; congruence.
  1, 3: cbn zeta; revert Hs; unfold validateSnapshotStore; intros Hs Hne; apply String.eqb_neq in Hne;
    change SnapshotBackendDisabled with "" in Hs; rewrite Hne in Hs; change SnapshotBackendFilesystem with "filesystem" in Hs;
    destruct (String.eqb_spec (ss_backend (c_snapshot_store c1)) "filesystem"); [|done];
    destruct (String.eqb_spec (ss_path (c_snapshot_store c1)) ""); [done|]; split; [done|]; split; [done|];
    destruct (String.eqb_spec (ss_compression (c_snapshot_store c1)) ""); [by left|];
    destruct (String.eqb_spec (ss_compression (c_snapshot_store c1)) "zstd"); [by right|done].
  all: cbn zeta; revert Ha; unfold validateAuth; intros Ha Hen' Htcp; apply String.eqb_neq in Htcp; rewrite Hen', Htcp in Ha; cbn [negb orb] in Ha;
    destruct (String.eqb_spec (au_cert (c_auth c1)) ""); [done|]; destruct (String.eqb_spec (au_key (c_auth c1)) ""); [done|];
    by destruct (String.eqb_spec (au_client_ca (c_auth c1)) "").
Qed.

(** The driver the configuration was checked for is the one that is built. *)
Lemma accepted_driver `{BE : BootEnv} c : accepted bt_goos c → runtimeDriverForHost (rc_driver (c_runtime c)) bt_goos = Ok (driver_of c).
Proof.
  intros [_ _ (driver & Hd & _) _ _ _]. rewrite Hd. f_equal. unfold driver_of, selectedRuntimeDriver, handler_config. cbn [cfg_driver cfg_darwin].
  revert Hd. unfold runtimeDriverForHost.
  destruct (String.eqb_spec (rc_driver (c_runtime c)) "") as [->|]; cbn [orb String.eqb Ascii.eqb Bool.eqb].
  - destruct (String.eqb bt_goos "darwin"); [by intros [= <-]|]. by destruct (String.eqb bt_goos "linux"); [intros [= <-]|].
  - rewrite orb_false_r. destruct (String.eqb_spec (rc_driver (c_runtime c)) "auto").
    + destruct (String.eqb bt_goos "darwin"); [by intros [= <-]|]. by destruct (String.eqb bt_goos "linux"); [intros [= <-]|].
    + destruct (String.eqb_spec (rc_driver (c_runtime c)) "firecracker") as [->|]; [by destruct (negb _); [|intros [= <-]]|].
      destruct (String.eqb_spec (rc_driver (c_runtime c)) "apple_container") as [->|]; [|done]. by destruct (negb _); [|intros [= <-]].
Qed.

Lemma accepted_runtime `{BE : BootEnv} c : accepted bt_goos c → ∃ rm, newRuntimeManager c = Ok rm.
Proof.
  intros H. pose proof (accepted_driver c H) as Hd. unfold newRuntimeManager. clear H. revert Hd. unfold runtimeDriverForHost.
  generalize (driver_of c). intros d. repeat case_match; intros Hd; simplify_eq; try (by eexists); done.
Qed.

(** The proxy of the identity agent is configured only with a number the driver
    accepts. *)
Lemma configure_vsock_ok cfg rm : ∃ rm', configure_vsock cfg rm = Ok rm'.
Proof.
  unfold configure_vsock. destruct (sc_enabled (c_spire cfg)); cbn [andb]; [|by eexists].
  destruct (Z.leb_spec 3 (sc_cid (c_spire cfg))) as [H|]; [|by eexists]. destruct rm; [|by eexists].
  unfold Firecracker.SetSPIREConfig. cbn [Firecracker.sp_enabled Firecracker.sp_cid andb].
  destruct (Z.ltb_spec (sc_cid (c_spire cfg)) 3); [lia|]. by eexists.
Qed.

(** * Addresses of an earlier run *)

Lemma build_allocations_other vms : ∀ m m' id, build_allocations vms m = Some m' → id ∉ vm_id <$> vms → m' !! id = m !! id.
Proof.
  induction vms as [|vm vms IH]; intros m m' id Hb Hid; [by injection Hb as ->|].
  cbn [build_allocations] in Hb. rewrite fmap_cons, elem_of_cons in Hid.
  destruct (String.eqb (vm_address vm) ""); cbn [negb] in Hb; [by eapply IH; [|tauto]|]. destruct (_ <? 8)%nat; [done|].
  rewrite (IH _ _ _ Hb) by tauto. apply lookup_insert_ne. intros <-. tauto.
Qed.

Lemma build_allocations_own vms : ∀ m m', build_allocations vms m = Some m' → NoDup (vm_id <$> vms) →
  ∀ vm, vm ∈ vms → vm_address vm ≠ "" → m' !! vm_id vm = Some (vm_address vm).
Proof.
  induction vms as [|vm0 vms IH]; intros m m' Hb Hnd vm Hvm Ha; [by apply elem_of_nil in Hvm|]. apply NoDup_cons in Hnd as [Hn Hnd]. cbn [build_allocations] in Hb.
  apply elem_of_cons in Hvm as [->|Hvm].
  - apply String.eqb_neq in Ha. rewrite Ha in Hb. cbn [negb] in Hb. destruct (_ <? 8)%nat; [done|].
    rewrite (build_allocations_other _ _ _ _ Hb Hn). apply lookup_insert_eq.
  - destruct (negb _); [|by eapply IH]. destruct (_ <? 8)%nat; [done|]. by eapply IH.
Qed.

Lemma build_allocations_total vms : ∀ m, Forall (λ vm, (8 <= String.length (vm_id vm))%nat) vms → ∃ m', build_allocations vms m = Some m'.
Proof.
  induction vms as [|vm vms IH]; intros m H; [by eexists|]. apply Forall_cons in H as [H Hs]. cbn [build_allocations].
  destruct (negb _); [|by apply IH]. destruct (Nat.ltb_spec (String.length (vm_id vm)) 8); [lia|]. by apply IH.
Qed.

Lemma pool_nonempty ip : ip ∈ ip_pool → ip ≠ "".
Proof. unfold ip_pool. intros (i & -> & _)%list_elem_of_fmap. done. Qed.

(** What may be handed out, and to whom, after the loading. *)
Definition respects (vms : list VM) (ipam : IPAM) : Prop :=
  (∀ vm, vm ∈ vms → vm_address vm ≠ "" → fst (AllocateIP (vm_id vm) ipam) = Ok (vm_address vm)) ∧
  (∀ id ip, id ∉ vm_id <$> vms → fst (AllocateIP id ipam) = Ok ip → ∀ vm, vm ∈ vms → vm_address vm ≠ ip).

Lemma load_respects vms m : vms ≠ [] → NoDup (vm_id <$> vms) → build_allocations vms ∅ = Some m →
  respects vms (snd ((if bool_decide (m = ∅) then ret tt else LoadAllocations m) NewIPAM)).
Proof.
  intros Hne Hnd Hb.
  assert (allocated (snd ((if bool_decide (m = ∅) then ret tt else LoadAllocations m) NewIPAM)) = m) as Hal by (by case_bool_decide; subst).
  assert (∀ ip, ip ∈ available (snd ((if bool_decide (m = ∅) then ret tt else LoadAllocations m) NewIPAM)) → ip ∈ ip_pool ∧ ip ∉ held m) as Hav.
  { case_bool_decide as Hm; cbn; intros ip Hip; [|by apply list_elem_of_filter in Hip as [? ?]]. split; [done|]. rewrite Hm.
    assert (held (∅ : gmap string string) = []) as -> by (by vm_compute). apply not_elem_of_nil. }
  generalize dependent (snd ((if bool_decide (m = ∅) then ret tt else LoadAllocations m) NewIPAM)). intros ipam Hal Hav. subst m.
  pose proof (build_allocations_own vms ∅ _ Hb Hnd) as Hown. split.
  - intros vm Hvm Ha. unfold AllocateIP. by rewrite (Hown vm Hvm Ha).
  - intros id ip Hid. unfold AllocateIP. rewrite (build_allocations_other _ _ _ _ Hb Hid), lookup_empty.
    destruct (available ipam) as [|ip' rest] eqn:Ea; [done|]. cbn. intros [= ->] vm Hvm Heq.
    destruct (Hav ip) as [Hp Hh]; [apply elem_of_cons; by left|]. destruct Hh. apply (elem_of_held _ (vm_id vm)).
    rewrite <- Heq. apply Hown; [done|]. rewrite Heq. by apply pool_nonempty.
Qed.

(** The rows delivered have different ids, also when the query breaks off. *)
Lemma collect_ids rows : ∀ vms, collect scan_vm rows = Ok vms → vm_id <$> vms = r_id <$> rows.
Proof.
  induction rows as [|r rows IH]; intros vms; [by intros [= <-]|]. cbn [collect].
  destruct (scan_vm r) as [vm|] eqn:Es; [|done]. cbn [result_bind]. destruct (collect scan_vm rows) as [vms'|] eqn:Ec; [|done].
  intros [= <-]. rewrite !fmap_cons, (IH vms' eq_refl). by apply scan_vm_fields in Es as [-> _].
Qed.

Lemma ListVMs_distinct q db vms : db_wf db → ListVMs q "" db = Ok vms → NoDup (vm_id <$> vms).
Proof.
  intros Hwf. unfold ListVMs. cbn [String.eqb negb].
  assert (NoDup (r_id <$> merge_sort newest_first (t_vms db))) as Hnd by (rewrite merge_sort_Permutation; apply Hwf).
  destruct q as [|e|n]; cbn [delivered]; [|done|]; intros H%collect_ids; rewrite H; [done|].
  rewrite <- (take_drop n (merge_sort _ _)), fmap_app in Hnd. by apply NoDup_app in Hnd as [? _].
Qed.

(** What the loading leaves, whatever the query does. *)
Lemma loaded_addresses q db : fst (loadExistingAllocations q db NewIPAM) ≠ None →
  match ListVMs q "" db with
  | Err _ => snd (loadExistingAllocations q db NewIPAM) = NewIPAM
  | Ok vms => db_wf db → respects vms (snd (loadExistingAllocations q db NewIPAM))
  end.
Proof.
  unfold loadExistingAllocations. destruct (ListVMs q "" db) as [[|vm vms]|err] eqn:El; intros Hne; [|intros Hwf|done].
  - intros _. split; [by intros ? ?%elem_of_nil|]. by intros ? ? _ _ ? ?%elem_of_nil.
  - destruct (build_allocations (vm :: vms) ∅) as [m|] eqn:Hb; [|done].
    pose proof (load_respects (vm :: vms) m ltac:(done) (ListVMs_distinct _ _ _ Hwf El) Hb) as H.
    rewrite bind_unfold. by destruct ((if bool_decide (m = ∅) then ret tt else LoadAllocations m) NewIPAM).
Qed.

(** after a restart every stored VM is given its address again, and no address a
    stored VM has is ever given to another one. *)
Theorem loadExistingAllocations_spec db vms
    (Hwf : db_wf db) (Hl : ListVMs QueryOk "" db = Ok vms) (Hid : Forall (λ vm, (8 <= String.length (vm_id vm))%nat) vms) :
  ∃ ipam, loadExistingAllocations QueryOk db NewIPAM = (Some None, ipam) ∧ respects vms ipam.
Proof.
  assert (NoDup (vm_id <$> vms)) as Hnd.
  { destruct (ListVMs_ok "" db Hwf) as (vms' & Hl' & Hperm & _). rewrite Hl in Hl'. injection Hl' as <-. rewrite Hperm.
    assert (rows_of "" db = t_vms db) as -> by (unfold rows_of; induction (t_vms db) as [|r rs IH]; [done|exact (f_equal (cons r) IH)]). apply Hwf. }
  unfold loadExistingAllocations. rewrite Hl. destruct vms as [|vm vms]; [|].
  - eexists. split; [done|]. split; [by intros ? ?%elem_of_nil|]. by intros ? ? _ _ ? ?%elem_of_nil.
  - destruct (build_allocations_total (vm :: vms) ∅ Hid) as [m Hm]. rewrite Hm.
    exists (snd ((if bool_decide (m = ∅) then ret tt else LoadAllocations m) NewIPAM)). split; [|by apply load_respects].
    rewrite bind_unfold. by destruct ((if bool_decide (m = ∅) then ret tt else LoadAllocations m) NewIPAM).
Qed.


(** A VM that holds the first address of the pool. *)
Definition addressed_vm : VM :=
  mkVM "id1-0000" "web" StateCreated "img:latest" "sha256:1" "x86_64"
    (Types.mkConfig 2 512 "console=ttyS0" "" (mkNet "bridge" "tap0" "" None "172.16.0.10" "" "" [] None) [] [] []) None 10 10 None None "" "" "".

Lemma loadExistingAllocations_spec_witness :
  let db := snd (CreateVM None addressed_vm empty_db) in
  ∃ ipam, loadExistingAllocations QueryOk db NewIPAM = (Some None, ipam) ∧ respects [persisted addressed_vm None None] ipam.
Proof.
  apply (loadExistingAllocations_spec (snd (CreateVM None addressed_vm empty_db)) [persisted addressed_vm None None]).
  - apply (run_ops_wf [(None, OpCreateVM addressed_vm)] empty_db empty_db_wf).
  - vm_compute. reflexivity.
  - repeat constructor.
Defined.

(** * The log of a start *)

(** Partial correctness over the log: whatever the outside answers. *)
Definition bwp `{BE : BootEnv} {A} (m : BM A) (Q : A → list boot_event → Prop) (log : list boot_event) : Prop :=
  ∀ w, bo_log w = log → Q (fst (m w)) (bo_log (snd (m w))).

(** More events, none of them a server at work. *)
Definition extends (log log' : list boot_event) : Prop := ∃ new, log' = log ++ new ∧ Forall (λ e, be_served e = None) new.

Definition succeeded (op : boot_op) (log : list boot_event) : Prop := ∃ e, e ∈ log ∧ be_op e = op ∧ be_outcome e = None.

Lemma extends_refl log : extends log log.
Proof. exists []. by rewrite app_nil_r. Qed.

Lemma extends_trans a b c : extends a b → extends b c → extends a c.
Proof. intros (n1 & -> & H1) (n2 & -> & H2). exists (n1 ++ n2). rewrite app_assoc. split; [done|]. by apply Forall_app. Qed.

Lemma extends_snoc a b e : extends a b → be_served e = None → extends a (b ++ [e]).
Proof. intros H He. eapply extends_trans; [exact H|]. exists [e]. by split; [|apply Forall_singleton]. Qed.

Lemma succeeded_app op a b : succeeded op a → succeeded op (a ++ b).
Proof. intros (e & H & He). exists e. split; [|done]. apply elem_of_app. by left. Qed.

Lemma succeeded_extends op a b : extends a b → succeeded op a → succeeded op b.
Proof. intros (n & -> & _). apply succeeded_app. Qed.

Lemma succeeded_snoc op a cmds s : succeeded op (a ++ [BEv op None cmds s]).
Proof. eexists. split; [apply elem_of_app; right; apply elem_of_cons; by left|done]. Qed.

Create HintDb boot discriminated.
#[export] Hint Resolve extends_refl extends_snoc succeeded_snoc succeeded_app : boot.
#[export] Hint Extern 1 (be_served _ = None) => reflexivity : boot.
#[export] Hint Extern 1 (True) => exact I : boot.

Section Log.
Context `{BE : BootEnv}.

Lemma bwp_ret {A} (a : A) Q log : Q a log → bwp (ret a) Q log.
Proof. by intros HQ w <-. Qed.

Lemma bwp_bind {A B} (m : BM A) (k : A → BM B) Q log : bwp m (λ a log', bwp (k a) Q log') log → bwp (bind m k) Q log.
Proof. intros H w Hw. specialize (H w Hw). unfold bind. destruct (m w) as [a w']. by apply (H w'). Qed.

Lemma bwp_mono {A} (m : BM A) (Q R : A → list boot_event → Prop) log : bwp m Q log → (∀ a log', Q a log' → R a log') → bwp m R log.
Proof. intros H HR w Hw. by apply HR, H. Qed.

Lemma bwp_call op Q log : (∀ r, Q r (log ++ [BEv op r [] None])) → bwp (call op) Q log.
Proof. intros HQ w <-. apply HQ. Qed.

Lemma bwp_ask {A} (f : nat → A) Q log : (∀ a, Q a log) → bwp (ask_boot f) Q log.
Proof. intros HQ w <-. apply HQ. Qed.

Lemma bwp_checked {A} (m : BM (option error)) (fail : error → A) k Q log :
  bwp m (λ e log', match e with Some err => Q (fail err) log' | None => bwp k Q log' end) log → bwp (checked m fail k) Q log.
Proof. intros H. apply bwp_bind. eapply bwp_mono; [exact H|]. intros [err|] log' Hl; [by apply bwp_ret|exact Hl]. Qed.

Lemma bwp_checked_result {A B} (m : BM (result A)) (fail : error → B) (k : A → BM B) Q log :
  bwp m (λ r log', match r with Err err => Q (fail err) log' | Ok a => bwp (k a) Q log' end) log → bwp (checked_result m fail k) Q log.
Proof. intros H. apply bwp_bind. eapply bwp_mono; [exact H|]. intros [a|err] log' Hl; [exact Hl|by apply bwp_ret]. Qed.

(** One step of a body built from calls. *)
Ltac bstep :=
  match goal with
  | |- bwp (ret _) _ _ => apply bwp_ret
  | |- bwp (checked _ _ _) _ _ => apply bwp_checked
  | |- bwp (checked_result _ _ _) _ _ => apply bwp_checked_result
  | |- bwp (bind _ _) _ _ => apply bwp_bind
  | |- bwp (call _) _ _ => apply bwp_call; intros [?|]
  | |- bwp (ask_boot _) _ _ => apply bwp_ask; intros
  | |- bwp (match ?x with _ => _ end) _ _ => destruct x
  end.

(** A body that adds no server, and what is known of its success. *)
Definition opens {A} (m : BM (result A)) (R : A → list boot_event → Prop) : Prop :=
  ∀ log, bwp m (λ r log', extends log log' ∧ match r with Ok a => R a log' | Err _ => True end) log.

Lemma storage_New_spec path : opens (storage_New path) (λ db log, db = bt_stored ∧ succeeded (OpenDB path) log).
Proof. intros log. unfold storage_New, runMigrations. repeat bstep; split; auto 12 with boot. Qed.

Lemma filepath_abs_spec path : opens (filepath_abs path) (λ _ _, True).
Proof. intros log. unfold filepath_abs. repeat bstep; split; auto with boot; by destruct a. Qed.

Lemma initializeInfrastructure_spec cfg : opens (initializeInfrastructure cfg) (λ '(db, rm, reg) log,
  db = bt_stored ∧ (let? rm := newRuntimeManager cfg in configure_vsock cfg rm) = Ok rm ∧
  succeeded (MkdirAll (st_data_dir (c_storage cfg))) log ∧ succeeded (OpenDB (st_database (c_storage cfg))) log).
Proof.
  intros log. unfold initializeInfrastructure. bstep. bstep; [split; auto with boot|]. bstep.
  eapply bwp_mono; [apply storage_New_spec|]. cbn beta. intros [db|err] log1 [H1 Hr]; [|split; [|done]; eapply extends_trans; [|exact H1]; auto with boot].
  destruct Hr as [-> Hdb]. assert (extends log log1) as H01 by (eapply extends_trans; [|exact H1]; auto with boot).
  assert (succeeded (MkdirAll (st_data_dir (c_storage cfg))) log1) as Hmk by (eapply succeeded_extends; [exact H1|]; auto with boot).
  destruct (let? rm := _ in _) as [rm|err] eqn:Erm; [|by apply bwp_ret]. apply bwp_checked_result.
  eapply bwp_mono; [apply filepath_abs_spec|]. cbn beta. intros [kernel|err] log2 [H2 _]; [|by split; [eapply extends_trans|]].
  apply bwp_ret. split; [by eapply extends_trans|]. split_and!; [done|done|by eapply succeeded_extends..].
Qed.

Lemma initSnapshotStore_spec cfg log : bwp (initSnapshotStore cfg) (λ _ log', extends log log') log.
Proof.
  unfold initSnapshotStore. repeat (match goal with |- bwp (bind (filepath_abs _) _) _ _ => fail 1 | _ => bstep end); auto with boot.
  apply bwp_bind. eapply bwp_mono; [apply filepath_abs_spec|]. cbn beta. intros r log1 [H1 _]. destruct r; [|by bstep].
  repeat bstep; (eapply extends_trans; [exact H1|]); auto with boot.
Qed.

Lemma BuildAuthTLSConfig_spec a : opens (BuildAuthTLSConfig a) (λ tls log,
  tls = (au_cert a, au_key a, au_client_ca a) ∧ succeeded (LoadKeyPair (au_cert a) (au_key a)) log ∧ succeeded (LoadClientCA (au_client_ca a)) log).
Proof. intros log. unfold BuildAuthTLSConfig, loadClientCAPool. destruct (@bt_ca_parses BE); repeat first [bstep | progress cbn [negb]]; split; auto 8 with boot. Qed.

Lemma setupNetworkInfrastructure_spec log : bwp setupNetworkInfrastructure (λ e log',
  extends log log' ∧ (e = None → succeeded NetworkSetup log')) log.
Proof.
  intros w <-. unfold setupNetworkInfrastructure. destruct (bind _ _ _) as [e tr]. cbn. split; [auto with boot|]. intros ->. auto with boot.
Qed.

(** * A listener is served when all is ready *)

(** A listener that was asked for, and that is open. *)
Definition listening (cfg : Config) (log : list boot_event) (l : string * string) : Prop :=
  succeeded (Listen (fst l) (snd l)) log ∧ snd l ≠ "" ∧
  (fst l = "unix" ∧ snd l = api_socket (c_api cfg) ∨ fst l = "tcp" ∧ snd l = api_tcp (c_api cfg)).

(** What a server is made of. *)
Record based (cfg : Config) (log : list boot_event) (srv : ApiServer) : Prop := mkBased {
  bs_config : sv_config srv = cfg;
  bs_database : sv_db srv = bt_stored ∧ succeeded (MkdirAll (st_data_dir (c_storage cfg))) log ∧
    succeeded (OpenDB (st_database (c_storage cfg))) log;
  bs_network : c_network_setup cfg = true → driver_of cfg = "firecracker" → succeeded NetworkSetup log;
  bs_addresses : ∃ q, match ListVMs q "" bt_stored with
    | Err _ => sv_ipam srv = NewIPAM
    | Ok vms => db_wf bt_stored → respects vms (sv_ipam srv)
    end;
  bs_runtime : (let? rm := newRuntimeManager cfg in configure_vsock cfg rm) = Ok (sv_runtime srv) }.

(** The material of the TLS configuration. *)
Definition secured (cfg : Config) (log : list boot_event) (tls : option (string * string * string)) : Prop :=
  let a := c_auth cfg in
  tls = Some (au_cert a, au_key a, au_client_ca a) ∧ succeeded (LoadKeyPair (au_cert a) (au_key a)) log ∧
  succeeded (LoadClientCA (au_client_ca a)) log.

Record ready (cfg : Config) (log : list boot_event) (s : served) : Prop := mkReady {
  rd_server : based cfg log (sd_server s);
  rd_listening : listening cfg log (sd_network s, sd_addr s);
  rd_auth : au_enabled (c_auth cfg) = true → sd_network s = "tcp" → sd_identity s = true ∧ secured cfg log (sd_tls s) }.

(** Every server was started when the log before it made it ready. *)
Definition ordered (cfg : Config) (log : list boot_event) : Prop :=
  ∀ pre e post s, log = pre ++ e :: post → be_served e = Some s → ready cfg pre s.

Lemma extends_app_l a b : extends a b → ∃ new, b = a ++ new.
Proof. intros (n & -> & _). by exists n. Qed.

Lemma listening_app cfg a b l : listening cfg a l → listening cfg (a ++ b) l.
Proof. intros (H & ?). split; [by apply succeeded_app|done]. Qed.

Lemma based_app cfg a b srv : based cfg a srv → based cfg (a ++ b) srv.
Proof. intros [? (? & ? & ?) ? ? ?]. split; try done; [split_and!; [done|by apply succeeded_app..]|]. intros. apply succeeded_app. auto. Qed.

Lemma secured_app cfg a b tls : secured cfg a tls → secured cfg (a ++ b) tls.
Proof. intros (? & ? & ?). split_and!; [done|by apply succeeded_app..]. Qed.

Lemma ordered_nil cfg : ordered cfg [].
Proof. intros pre e post s H. by apply app_cons_not_nil in H. Qed.

Lemma ordered_snoc cfg log e : ordered cfg log → (∀ s, be_served e = Some s → ready cfg log s) → ordered cfg (log ++ [e]).
Proof.
  intros Ho He pre e' post s Heq Hs. destruct post as [|x post] using rev_ind.
  - apply app_inj_tail in Heq as [-> ->]. by apply He.
  - clear IHpost. rewrite app_comm_cons, app_assoc in Heq. apply app_inj_tail in Heq as [Heq _]. by eapply Ho.
Qed.

Lemma ordered_extends cfg a b : extends a b → ordered cfg a → ordered cfg b.
Proof.
  intros (new & -> & Hn). revert a. induction Hn as [|e new He Hn IH]; intros a Ha; [by rewrite app_nil_r|].
  rewrite cons_middle, app_assoc. apply IH, ordered_snoc; [done|]. intros s. by rewrite He.
Qed.

Lemma unix_listener_spec path : opens (unix_listener path) (λ l log, l = ("unix", path) ∧ succeeded (Listen "unix" path) log).
Proof. intros log. unfold unix_listener. repeat bstep; split; auto 12 with boot. Qed.

Lemma tcp_listener_spec addr : opens (tcp_listener addr) (λ l log, l = ("tcp", addr) ∧ succeeded (Listen "tcp" addr) log).
Proof. intros log. unfold tcp_listener. repeat bstep; split; auto 12 with boot. Qed.

Lemma listener_if_spec (configured : bool) m (P : string * string → list boot_event → Prop) k (R : list (string * string) → list boot_event → Prop) :
  opens m P →
  (∀ ls log, (configured = false → ls = []) → match ls with [] => True | l :: _ => configured = true ∧ P l log end → length ls ≤ 1 →
     bwp (k ls) (λ r log', extends log log' ∧ match r with Ok a => R a log' | Err _ => True end) log) →
  opens (listener_if configured m k) R.
Proof.
  intros Hm Hk log. unfold listener_if. destruct configured; [|by apply Hk; [..|cbn; lia]]. apply bwp_checked_result.
  eapply bwp_mono; [apply Hm|]. cbn beta. intros [l|err] log1 [H1 Hl]; [|done]. eapply bwp_mono; [apply (Hk [l]); [done|done|cbn; lia]|].
  cbn beta. intros r log2 [H2 Hr]. split; [by eapply extends_trans|done].
Qed.

Lemma setupListeners_spec cfg : opens (setupListeners cfg) (λ ls log, Forall (listening cfg log) ls).
Proof.
  unfold setupListeners. apply (listener_if_spec _ _ _ _ _ (unix_listener_spec _)). intros unix log Hu0 Hu Hulen.
  revert log Hu. intros log Hu.
  assert (∀ log', extends log log' → Forall (listening cfg log') unix) as Hunix.
  { intros log' (new & -> & _). destruct unix as [|l [|]]; [done| |cbn in Hulen; lia]. apply Forall_singleton. destruct Hu as (Hc & -> & Hs).
    apply negb_true_iff, String.eqb_neq in Hc. split; [by apply succeeded_app|]. split; [done|by left]. }
  assert (opens (listener_if (negb (String.eqb (api_tcp (c_api cfg)) "")) (tcp_listener (api_tcp (c_api cfg))) (λ tcp,
    ret (if bool_decide (unix ++ tcp = []) then Err (Errorf "no listeners configured: set api.socket or api.tcp_bind in config" []) else Ok (unix ++ tcp))))
    (λ ls log', ∃ tcp, ls = unix ++ tcp ∧ Forall (listening cfg log') tcp)) as H.
  { apply (listener_if_spec _ _ _ _ _ (tcp_listener_spec _)). intros tcp log1 _ Ht Hlen. apply bwp_ret. split; [apply extends_refl|].
    destruct (bool_decide _); [done|]. exists tcp. split; [done|]. destruct tcp as [|l [|]]; [done| |cbn in Hlen; lia].
    apply Forall_singleton. destruct Ht as (Hc & -> & Hs). apply negb_true_iff, String.eqb_neq in Hc. split; [done|]. split; [done|by right]. }
  eapply bwp_mono; [apply H|]. cbn beta. intros [ls|err] log1 [H1 Hr]; [|done]. split; [done|]. destruct Hr as (tcp & -> & Ht).
  apply Forall_app. split; [by apply Hunix|done].
Qed.

Lemma bwp_serve s Q log : (∀ r, Q r (log ++ [BEv (Serve (sd_network s) (sd_addr s)) r [] (Some s)])) → bwp (serve s) Q log.
Proof. intros HQ w <-. apply HQ. Qed.

Lemma serve_on_ready cfg tls srv l log :
  based cfg log srv → listening cfg log l → (au_enabled (c_auth cfg) = true → api_tcp (c_api cfg) ≠ "" → secured cfg log tls) →
  ready cfg log (serve_on cfg tls srv l).
Proof.
  intros Hb Hl Ht. unfold serve_on. destruct l as [net addr]. cbn [fst snd].
  destruct (au_enabled (c_auth cfg)) eqn:Ha; cbn [andb]; [|by split; [..|intros; congruence]].
  destruct (String.eqb_spec net "tcp") as [->|Hn]; [|by split; [..|intros]]. split; [done|done|]. intros _ _. split; [done|]. apply Ht; [done|].
  destruct Hl as (_ & Hne & [[? _]|[_ Heq]]); [done|]. cbn in Hne, Heq. by rewrite <- Heq.
Qed.

Lemma serve_all_spec cfg tls srv ls : ∀ log,
  ordered cfg log → based cfg log srv → Forall (listening cfg log) ls →
  (au_enabled (c_auth cfg) = true → api_tcp (c_api cfg) ≠ "" → secured cfg log tls) →
  bwp (serve_all cfg tls srv ls) (λ _ log', ordered cfg log') log.
Proof.
  induction ls as [|l ls IH]; intros log Ho Hb Hls Ht; [by apply bwp_ret|]. apply Forall_cons in Hls as [Hl Hls].
  assert (∀ r, ordered cfg (log ++ [BEv (Serve (sd_network (serve_on cfg tls srv l)) (sd_addr (serve_on cfg tls srv l))) r [] (Some (serve_on cfg tls srv l))])) as Hnext.
  { intros r. apply ordered_snoc; [done|]. intros s [= <-]. by apply serve_on_ready. }
  destruct ls as [|l' ls].
  - apply bwp_bind, bwp_serve. intros r. by apply bwp_ret.
  - change (serve_all cfg tls srv (l :: l' :: ls)) with (serve (serve_on cfg tls srv l) ;;; serve_all cfg tls srv (l' :: ls)).
    apply bwp_bind, bwp_serve. intros r. apply IH; [done|by apply based_app| |intros; by apply secured_app, Ht].
    eapply Forall_impl; [exact Hls|]. intros x. apply listening_app.
Qed.

Lemma based_extends cfg a b srv : extends a b → based cfg a srv → based cfg b srv.
Proof. intros (new & -> & _). apply based_app. Qed.

Lemma start_listening_spec cfg srv log : ordered cfg log → based cfg log srv →
  bwp (start_listening cfg srv) (λ _ log', ordered cfg log') log.
Proof.
  intros Ho Hb. unfold start_listening. cbn zeta.
  assert (∀ tls log1, extends log log1 → (au_enabled (c_auth cfg) = true → api_tcp (c_api cfg) ≠ "" → secured cfg log1 tls) →
    bwp (checked_result (setupListeners cfg) Returned (λ ls, let* err := serve_all cfg tls srv ls in ret (Returned err)))
      (λ _ log', ordered cfg log') log1) as Hgo.
  { intros tls log1 H1 Ht. apply bwp_checked_result. eapply bwp_mono; [apply setupListeners_spec|]. cbn beta. intros [ls|err] log2 [H2 Hls].
    2: { by eapply ordered_extends, ordered_extends. }
    apply bwp_bind. eapply bwp_mono; [apply serve_all_spec; [by eapply ordered_extends, ordered_extends|by eapply based_extends, based_extends|done|]|].
    - intros Ha Htcp. destruct H2 as (new & -> & _). by apply secured_app, Ht.
    - intros err log3 H3. by apply bwp_ret. }
  destruct (au_enabled (c_auth cfg)) eqn:Ha; cbn [andb]; [|by apply Hgo; [apply extends_refl|]].
  destruct (String.eqb_spec (api_tcp (c_api cfg)) "") as [He|Hn]; cbn [negb]; [by apply Hgo; [apply extends_refl|]|].
  apply bwp_checked_result. eapply bwp_mono; [apply BuildAuthTLSConfig_spec|]. cbn beta. intros [tls|err] log1 [H1 Hr]; [|by eapply ordered_extends].
  apply Hgo; [done|]. intros _ _. destruct Hr as (-> & ? & ?). done.
Qed.

Lemma build_server_spec cfg db rm reg log : ordered cfg log → db = bt_stored →
  (∀ ipam rec tier q, ipam = snd (loadExistingAllocations q db NewIPAM) → fst (loadExistingAllocations q db NewIPAM) ≠ None →
     based cfg log (mkApiServer cfg db rm reg ipam rec (c_spire cfg) tier)) →
  bwp (build_server cfg db rm reg) (λ _ log', ordered cfg log') log.
Proof.
  intros Ho -> Hb. unfold build_server. apply bwp_bind, bwp_ask. intros q.
  destruct (loadExistingAllocations q bt_stored NewIPAM) as [loaded ipam] eqn:El. destruct loaded as [e|]; [|by apply bwp_ret].
  apply bwp_bind, bwp_call. intros rec. set (log1 := log ++ _). assert (extends log log1) as H1 by (unfold log1; auto with boot).
  apply bwp_bind. eapply bwp_mono; [apply initSnapshotStore_spec|]. cbn beta. intros tier log2 H2.
  apply start_listening_spec; [by eapply ordered_extends, ordered_extends|]. eapply based_extends; [exact H2|]. eapply based_extends; [exact H1|].
  apply (Hb _ _ _ q); by rewrite El.
Qed.

Lemma bwp_deferred {A} (op : boot_op) (m : BM A) cfg log :
  bwp m (λ _ log', ordered cfg log') log → bwp (deferred (call op ;;; ret tt) m) (λ _ log', ordered cfg log') log.
Proof.
  intros H. unfold deferred. apply bwp_bind. eapply bwp_mono; [exact H|]. cbn beta. intros a log1 H1. apply bwp_bind, bwp_bind, bwp_call. intros r.
  apply bwp_ret, bwp_ret. eapply ordered_extends; [|exact H1]. auto with boot.
Qed.

Lemma startServer_spec cfg log : ordered cfg log → bwp (startServer cfg) (λ _ log', ordered cfg log') log.
Proof.
  intros Ho. unfold startServer. apply bwp_checked.
  assert (∀ log1, extends log log1 → bwp (deferred (call CloseLog ;;; ret tt) (
    checked_result (initializeInfrastructure cfg) Returned (λ '(db, rm, reg),
    deferred (call CloseDB ;;; ret tt) (
    checked (if c_network_setup cfg && String.eqb (driver_of cfg) "firecracker" then setupNetworkInfrastructure else ret None) Returned (
    build_server cfg db rm reg))))) (λ _ log', ordered cfg log') log1) as Hgo.
  { intros log1 H1. apply bwp_deferred, bwp_checked_result. eapply bwp_mono; [apply initializeInfrastructure_spec|]. cbn beta.
    intros [[[db rm] reg]|err] log2 [H2 Hr]; [|by eapply ordered_extends, ordered_extends]. destruct Hr as (-> & Hrm & Hmk & Hdb).
    apply bwp_deferred, bwp_checked.
    assert (∀ log3, extends log2 log3 → (c_network_setup cfg = true → driver_of cfg = "firecracker" → succeeded NetworkSetup log3) →
      bwp (build_server cfg bt_stored rm reg) (λ _ log', ordered cfg log') log3) as Hbuild.
    { intros log3 H3 Hnet. apply build_server_spec; [by do 3 (eapply ordered_extends; [done|])|done|]. intros ipam rec tier q -> Hne.
      split; cbn; [done|split_and!; [done|by eapply succeeded_extends..]|done|exists q; by apply loaded_addresses|done]. }
    destruct (c_network_setup cfg) eqn:Hn; cbn [andb]; [destruct (String.eqb_spec (driver_of cfg) "firecracker") as [Hd|Hd]|].
    - eapply bwp_mono; [apply setupNetworkInfrastructure_spec|]. cbn beta. intros [err|] log3 [H3 He]; [by do 3 (eapply ordered_extends; [done|])|].
      apply Hbuild; [done|auto].
    - apply bwp_ret, Hbuild; [apply extends_refl|done].
    - apply bwp_ret, Hbuild; [apply extends_refl|done]. }
  destruct (String.eqb _ ""); [by apply bwp_ret, Hgo, extends_refl|]. apply bwp_call. intros [err|]; [|by apply Hgo; auto with boot].
  eapply ordered_extends; [|exact Ho]. auto with boot.
Qed.

(** C28: whatever its command line and files say, the daemon serves a listener only
    when an accepted configuration asked for it and it is open, the database is open,
    the network of the host is set up if that is its task, and the addresses of
    the VMs the query for them delivered are loaded: each of these VMs is given its
    own address again, if it has one, and a VM that is not among them is given none of
    these.  The start carries on when that
    query fails (then no address is loaded) or breaks off (then only those of the
    rows before).  With authentication, a TCP listener is served with the
    certificates of the configuration, and a request whose client has no verified
    identity is answered 401 whatever the handlers would do. *)
Theorem daemon_serves_when_ready configPath tcpBind unixSocket w (Hw : bo_log w = []) pre e post s
    (Hlog : bo_log (snd (main configPath tcpBind unixSocket w)) = pre ++ e :: post) (Hs : be_served e = Some s) :
  let cfg := sv_config (sd_server s) in
  accepted bt_goos cfg ∧ ready cfg pre s ∧
  (au_enabled (c_auth cfg) = true → sd_network s = "tcp" →
   ∀ (S : Type) ip_literal (mux : option Credential → State S response) tls, (¬ ∃ c, lets_in ip_literal tls c) →
     (if sd_identity s then MTLSIdentityMiddleware ip_literal mux tls else mux None) = ret writeMTLSUnauthorized).
Proof.
  assert (∀ cfg, bwp (let '(e, cfg) := Validate bt_goos cfg in match e with Some err => ret (Returned err) | None => startServer cfg end)
    (λ _ log', log' = [] ∨ ∃ cfg', accepted bt_goos cfg' ∧ ordered cfg' log') []) as Hrun.
  { intros cfg. destruct (Validate bt_goos cfg) as [[err|] cfg'] eqn:Hv; [by apply bwp_ret; left|].
    eapply bwp_mono; [apply startServer_spec, ordered_nil|]. intros o log' H. right. exists cfg'. split; [by eapply Validate_accepts|done]. }
  assert (bwp (main configPath tcpBind unixSocket) (λ _ log', log' = [] ∨ ∃ cfg', accepted bt_goos cfg' ∧ ordered cfg' log') []) as Hmain.
  { unfold main, StartWithOverrides, Start. destruct (_ || _); (destruct (Load _ _ _) as [cfg|err]; [apply Hrun|by apply bwp_ret; left]). }
  specialize (Hmain w Hw). destruct Hmain as [H|(cfg' & Hacc & Ho)]; [rewrite H in Hlog; by apply app_cons_not_nil in Hlog|].
  pose proof (Ho pre e post s Hlog Hs) as Hr. destruct Hr as [Hb Hl Ha]. rewrite (bs_config _ _ _ Hb). cbn zeta. split_and!; [done|by split|].
  intros Hen Htcp S ip_literal mux tls Hno. destruct (Ha Hen Htcp) as [-> _]. by apply MTLSIdentityMiddleware_denies.
Qed.

End Log.

(** A daemon on Linux with authentication, over a socket and TCP. *)
Definition secure_config (c : Config) : Config :=
  DaemonConfig.mkConfig (c_api c) (c_storage c) (c_runtime c) (c_firecracker c) (c_limits c) (c_registry c) (c_logging c) (c_network_setup c)
    (c_spire c) (mkAuth true "/etc/cert.pem" "/etc/key.pem" "/etc/ca.pem") (c_snapshot_store c).

Definition boot_env (fault : boot_op → option error) : BootEnv := {|
  bt_goos := "linux"; bt_host := scripted_host [] "default via 10.0.0.1 dev eth0"; bt_fault _ := fault; bt_cwd _ := Ok "/";
  bt_stored := snd (CreateVM None addressed_vm empty_db); bt_has_column _ := Ok true; bt_version _ := Ok "1.7.0"; bt_query _ := QueryOk;
  bt_read _ := Ok "auth:"; bt_yaml _ c := Ok (secure_config c); bt_ca_parses := true |}.

Definition boot0 : Boot := mkBoot 0 [] [].

Definition served_by (log : list boot_event) : list (string * string * bool) :=
  omap (λ e, (λ s, (sd_network s, sd_addr s, sd_identity s)) <$> be_served e) log.

(** Both listeners are served, the TCP one behind the middleware; the first address
    of the pool stays with the VM that has it. *)
Example secure_daemon :
  let w := snd (main (BE := boot_env (λ _, None)) "/etc/nanofuse/nanofused.yaml" ":8080" "" boot0) in
  served_by (bo_log w) = [("unix", "/var/run/nanofused.sock", false); ("tcp", ":8080", true)] ∧
  (λ s, fst (AllocateIP "id2-0000" (sv_ipam (sd_server s)))) <$> omap be_served (bo_log w) = [Ok "172.16.0.11"; Ok "172.16.0.11"].
Proof. vm_compute. done. Qed.

Lemma daemon_serves_when_ready_witness :
  ∃ pre s, sd_network s = "tcp" ∧ ready (BE := boot_env (λ _, None)) (sv_config (sd_server s)) pre s.
Proof.
  assert (∃ e s, bo_log (snd (main (BE := boot_env (λ _, None)) "/etc/nanofuse/nanofused.yaml" ":8080" "" boot0)) !! 16%nat = Some e ∧
    be_served e = Some s ∧ sd_network s = "tcp") as (e & s & He & Hs & Hn) by (do 2 eexists; split; [vm_compute; reflexivity|done]).
  apply take_drop_middle in He. eexists _, s. split; [done|].
  apply (daemon_serves_when_ready (BE := boot_env (λ _, None)) "/etc/nanofuse/nanofused.yaml" ":8080" "" boot0 eq_refl _ e _ s (eq_sym He) Hs).
Defined.

(** The socket of the default configuration is given mode 0666, whatever
    [api.socket_mode] and [api.socket_group] say. *)
Example socket_open_to_all :
  existsb (λ e, match be_op e with ChmodSocket _ 438 => true | _ => false end)
    (bo_log (snd (main (BE := boot_env (λ _, None)) "" "" "" boot0))) = true ∧ api_mode (c_api DefaultConfig) = "0660".
Proof. vm_compute. done. Qed.

(** An error of a listener
    that is not the last is not looked at. *)
Example earlier_errors_are_lost :
  let fault op := match op with Serve "unix" _ => Some (ErrorsNew "accept: too many open files") | _ => None end in
  fst (main (BE := boot_env fault) "x" ":8080" "" boot0) = Returned (ErrorsNew "http: Server closed").
Proof. vm_compute. done. Qed.
