(* ===== verification/Client.v ===== *)
(** The client of the API (src/internal/client: client.go, the error types of
    types.go), and the HTTP between it and the daemon's routes.

    A request is one exchange of the standard library's client: the URL is parsed, a
    redirect is followed, and the multiplexer of Routes.v cleans the path and finds
    the handler.  What a handler answers is a parameter, and so is the reading and
    writing of JSON texts. *)

From S2P Require Import Prelude GoStrings GoUrl Json Routes.

(** * Wire *)

Record request : Type := mkRequest { rq_method : string; rq_path : string; rq_query : string; rq_body : option string }.
Record reply : Type := mkReply { rp_status : Z; rp_location : option (string * string); rp_body : result string }.

(** [URL.EscapedPath]: the path as it was written if it is a valid encoding, the path
    escaped anew otherwise. *)
Definition path_char (a : ascii) : bool := is_alnum a || one_of "-_.~$&+,/:;=@" a.
Definition valid_encoded (s : string) : bool := all_ascii (λ a, path_char a || one_of "!'()*[]%" a) s.

Definition hex_upper (n : nat) : ascii := ascii_of_nat (if (n <? 10)%nat then n + 48 else n + 55).
Fixpoint escape_path (s : string) : string :=
  match s with
  | EmptyString => ""
  | String a s' =>
      if path_char a then String a (escape_path s')
      else let n := nat_of_ascii a in String "%" (String (hex_upper (n / 16)) (String (hex_upper (n mod 16)) (escape_path s')))
  end.

Definition escaped_path (u : URL) : string := if valid_encoded (u_raw_path u) then u_raw_path u else escape_path (u_path u).

(** [cleanPath] of net/http. *)
Definition clean_path (p : string) : string :=
  let p := if has_prefix "/" p then p else String "/" p in
  let np := path_clean p in
  if has_suffix "/" p && negb (String.eqb np "/") then np +:+ "/" else np.

Inductive outcome : Type := Routed (h : handler) (values : list string) | Redirect (path : string) | Refused (status : Z).

(** [ServeMux.findHandler]: a path that is not clean is redirected. *)
Definition serve_mux (r : request) : outcome :=
  let path := if String.eqb (rq_path r) "" then "/" else rq_path r in
  if negb (String.eqb (clean_path path) path) then Redirect (clean_path path)
  else
    match dispatch setupHTTPRouter (rq_method r) (path_segments path) with
    | Handled h values => Routed h values
    | MethodNotAllowed _ => Refused 405
    | NotFound => Refused 404
    end.

Class ClientEnv : Type := {
  ce_base : string;                                              (* scheme and host *)
  ce_ip_literal : string → bool;
  ce_text : error → string;                                      (* [err.Error()] *)
  ce_Marshal : json → string;
  ce_Unmarshal : string → option json;                           (* the whole text *)
  ce_Decode : string → option json;                              (* the first value of a text *)
  ce_connect : option error;                                     (* dialling the daemon *)
  ce_handle : handler → list string → request → reply }.         (* the handlers *)

(** * What a call fails with *)

(* @type internal/client/client.go ClientError *)
Record ClientError : Type := mkClientError {
  cl_status : Z; cl_code : string; cl_message : string; cl_details : option (list (string * json)) }.

(** What a call of the client fails with. *)
Inductive failure : Type := FClient (e : ClientError) | FOther (e : error).

Inductive answer (A : Type) : Type := Answer (a : A) | Failed (f : failure).
Arguments Answer {A} a.
Arguments Failed {A} f.

Section Client.
Context `{CE : ClientEnv}.

Definition http_text (status : Z) : string := if (status =? 405)%Z then "Method Not Allowed" else "404 page not found".

(** One request on the wire. *)
Definition round_trip (r : request) : result reply :=
  match ce_connect with
  | Some e => Err e
  | None =>
      Ok match serve_mux r with
         | Routed h values => ce_handle h values r
         | Redirect path => mkReply 301 (Some (path, rq_query r)) (Ok "Moved Permanently")
         | Refused status => mkReply status None (Ok (http_text status))
         end
  end.

(** [Client.Do] follows at most ten redirects; after 301 the method is GET and there is
    no body. *)
Fixpoint http_Do (n : nat) (r : request) : result reply :=
  match round_trip r with
  | Err e => Err e
  | Ok rp =>
      match rp_location rp with
      | Some (path, query) =>
          if (rp_status rp =? 301)%Z then
            match n with
            | O => Err (ErrorsNew "stopped after 10 redirects")
            | S n => http_Do n (mkRequest (if String.eqb (rq_method r) "HEAD" then "HEAD" else "GET") path query None)
            end
          else Ok rp
      | None => Ok rp
      end
  end.

(** [http.NewRequestWithContext] and [Do]. *)
Definition send (method path : string) (body : option string) : result reply :=
  match url_parse ce_ip_literal (ce_base +:+ path) with
  | None => Err (Errorf "create request: %w" [AWrap (ErrorsNew "parse")])
  | Some u =>
      match http_Do 10 (mkRequest method (escaped_path u) (u_query u) body) with
      | Err e => Err (Errorf "request failed: %w" [AWrap (ErrStruct "url.Error" [AStr method; AStr (ce_base +:+ path); AWrap e])])
      | Ok rp => Ok rp
      end
  end.

(** * Errors *)

(* @src internal/client/types.go:212-222 APIError *)
Definition dec_details (j : json) : option (option (list (string * json))) :=
  match j with JObj l => Some (Some l) | JNull => Some None | _ => None end.
Definition dec_api_error (j : json) : option (string * string * option (list (string * json))) :=
  let detail j :=
    l ← members j; code ← getf l "code" "" dec_str; msg ← getf l "message" "" dec_str; details ← getf l "details" None dec_details;
    Some (code, msg, details) in
  l ← members j; getf l "error" ("", "", None) detail.

(* @func internal/client/client.go handleError *)
Definition handleError (rp : reply) : failure :=
  match rp_body rp with
  | Err _ => FOther (Errorf "HTTP %d (failed to read error body)" [AInt (rp_status rp)])
  | Ok body =>
      match j ← ce_Unmarshal body; dec_api_error j with
      | None => FOther (Errorf "HTTP %d: %s" [AInt (rp_status rp); AStr body])
      | Some (code, msg, details) => FClient (mkClientError (rp_status rp) code msg details)
      end
  end.

(* @func internal/client/client.go ExitCode *)
Definition ExitCode (e : ClientError) : Z :=
  let s := cl_status e in
  if (s =? 400)%Z || (s =? 422)%Z then 2 else if (s =? 404)%Z then 4 else if (s =? 409)%Z then 5 else if (s =? 503)%Z then 3 else 1.

(** * Requests *)

Definition decode {A} (dec : json → option A) (rp : reply) : answer A :=
  match rp_body rp with
  | Ok body =>
      match j ← ce_Decode body; dec j with
      | Some a => Answer a
      | None => Failed (FOther (Errorf "decode response: %w" [AWrap (ErrorsNew "json")]))
      end
  | Err e => Failed (FOther (Errorf "decode response: %w" [AWrap e]))
  end.

(* @func internal/client/client.go get *)
Definition get {A} (dec : json → option A) (path : string) : answer A :=
  match send "GET" path None with
  | Err e => Failed (FOther e)
  | Ok rp => if negb (rp_status rp =? 200)%Z then Failed (handleError rp) else decode dec rp
  end.

(* @func internal/client/client.go postWithStatus *)
Definition postWithStatus {A} (dec : json → option A) (path : string) (body : option json) (expected : Z) : answer A :=
  match send "POST" path (ce_Marshal <$> body) with
  | Err e => Failed (FOther e)
  | Ok rp =>
      if negb (rp_status rp =? expected)%Z && negb (rp_status rp =? 201)%Z then Failed (handleError rp) else decode dec rp
  end.

(* @func internal/client/client.go post *)
Definition post {A} (dec : json → option A) (path : string) (body : option json) : answer A := postWithStatus dec path body 200.

(* @func internal/client/client.go delete *)
Definition delete (path : string) : answer unit :=
  match send "DELETE" path None with
  | Err e => Failed (FOther e)
  | Ok rp => if negb (rp_status rp =? 204)%Z && negb (rp_status rp =? 200)%Z then Failed (handleError rp) else Answer tt
  end.

(** * Operations *)

(** An operation: its method, its path, its body. *)
Inductive operation : Type :=
  | Health | Capabilities
  | CreateVM (req : json) | ListVMs (state : string) | GetVM (id : string) | DeleteVM (id : string)
  | StartVM (id : string) | StopVM (id : string) (timeoutSeconds : Z) | KillVM (id : string) | PauseVM (id : string)
  | ResumeVM (id snapshotID : string) | GetVMLogs (id : string) (tail : Z) | ExecVM (id : string) (req : json)
  | CreateSnapshot (vmID : string) (req : json) | ListSnapshots (vmID : string) | GetSnapshot (id : string) | DeleteSnapshot (id : string)
  | ListImages | GetImage (digest : string) | DeleteImage (digest : string) | PullImage (imageRef : string) | GetPullJob (jobID : string).

(* @src internal/client/client.go:51-278 Client *)
Definition op_method (o : operation) : string :=
  match o with
  | CreateVM _ | StartVM _ | StopVM _ _ | KillVM _ | PauseVM _ | ResumeVM _ _ | ExecVM _ _ | CreateSnapshot _ _ | PullImage _ => "POST"
  | DeleteVM _ | DeleteSnapshot _ | DeleteImage _ => "DELETE"
  | _ => "GET"
  end.

(* @src internal/client/client.go:51-278 Client *)
Definition op_path (o : operation) : string :=
  match o with
  | Health => "/health"
  | Capabilities => "/capabilities"
  | CreateVM _ => "/vms"
  | ListVMs state => "/vms" +:+ (if String.eqb state "" then "" else "?state=" +:+ state)
  | GetVM id | DeleteVM id => "/vms/" +:+ id
  | StartVM id => "/vms/" +:+ id +:+ "/start"
  | StopVM id _ => "/vms/" +:+ id +:+ "/stop"
  | KillVM id => "/vms/" +:+ id +:+ "/kill"
  | PauseVM id => "/vms/" +:+ id +:+ "/pause"
  | ResumeVM id _ => "/vms/" +:+ id +:+ "/resume"
  | GetVMLogs id tail => "/vms/" +:+ id +:+ "/logs" +:+ (if (0 <? tail)%Z then "?tail=" +:+ fmt_d tail else "")
  | ExecVM id _ => "/vms/" +:+ id +:+ "/exec"
  | CreateSnapshot id _ | ListSnapshots id => "/vms/" +:+ id +:+ "/snapshots"
  | GetSnapshot id | DeleteSnapshot id => "/snapshots/" +:+ id
  | ListImages => "/images"
  | GetImage digest | DeleteImage digest => "/images/" +:+ digest
  | PullImage _ => "/images/pull"
  | GetPullJob id => "/images/jobs/" +:+ id
  end.

(* @src internal/client/types.go:236-244 ResumeRequest *)
Definition op_body (o : operation) : option json :=
  match o with
  | CreateVM req | ExecVM _ req | CreateSnapshot _ req => Some req
  | StopVM _ n => Some (enc_struct [("timeout_seconds", if (n =? 0)%Z then None else Some (JNum n))])
  | ResumeVM _ snapshotID => Some (enc_struct [f_str_omit "snapshot_id" snapshotID])
  | PullImage imageRef => Some (enc_struct [f_str "image_ref" imageRef])
  | _ => None
  end.

(** The console is read as text. *)
(* @func internal/client/client.go GetVMLogs *)
Definition getVMLogs (id : string) (tail : Z) : answer string :=
  match send "GET" (op_path (GetVMLogs id tail)) None with
  | Err e => Failed (FOther e)
  | Ok rp =>
      if negb (rp_status rp =? 200)%Z then Failed (handleError rp)
      else match rp_body rp with
           | Ok body => Answer body
           | Err e => Failed (FOther (Errorf "read response: %w" [AWrap e]))
           end
  end.

(** An operation with a document as its result. *)
Definition call {A} (dec : json → option A) (o : operation) : answer A :=
  match op_method o with
  | "POST" => postWithStatus dec (op_path o) (op_body o) (match o with PullImage _ => 202 | _ => 200 end)
  | _ => get dec (op_path o)
  end.

End Client.
