(* ===== verification/Api.v ===== *)
(** The answers of the daemon: what each operation of the client finds at the other
    end of its route, and the types of the answers: an operation that succeeds answers
    with the status and the document the client expects of it, and one that is refused
    with an error whose status belongs to its code. *)

From S2P Require Import Prelude GoStrings Json Types Storage Server VmConfig VmResources VmCreate VmLifecycle Snapshots Images Routes Client.

(** * The route of an operation *)

Definition op_segments (o : operation) : list string :=
  match o with
  | Health => ["health"]
  | Capabilities => ["capabilities"]
  | CreateVM _ | ListVMs _ => ["vms"]
  | GetVM id | DeleteVM id => ["vms"; id]
  | StartVM id => ["vms"; id; "start"]
  | StopVM id _ => ["vms"; id; "stop"]
  | KillVM id => ["vms"; id; "kill"]
  | PauseVM id => ["vms"; id; "pause"]
  | ResumeVM id _ => ["vms"; id; "resume"]
  | GetVMLogs id _ => ["vms"; id; "logs"]
  | ExecVM id _ => ["vms"; id; "exec"]
  | CreateSnapshot id _ | ListSnapshots id => ["vms"; id; "snapshots"]
  | GetSnapshot id | DeleteSnapshot id => ["snapshots"; id]
  | ListImages => ["images"]
  | GetImage digest | DeleteImage digest => ["images"; digest]
  | PullImage _ => ["images"; "pull"]
  | GetPullJob id => ["images"; "jobs"; id]
  end.

Definition op_query (o : operation) : string :=
  match o with
  | ListVMs state => if String.eqb state "" then "" else "state=" +:+ state
  | GetVMLogs _ tail => if (0 <? tail)%Z then "tail=" +:+ fmt_d tail else ""
  | _ => ""
  end.

(** The handler the operation is meant for, and the values of the wildcards. *)
Definition op_handler (o : operation) : handler * list string :=
  match o with
  | Health => (handleHealth, [])
  | Capabilities => (handleCapabilities, [])
  | CreateVM _ => (handleCreateVM, [])
  | ListVMs _ => (handleListVMs, [])
  | GetVM id => (handleGetVMByPath, [id])
  | DeleteVM id => (handleDeleteVMByPath, [id])
  | StartVM id => (handleVMStartByPath, [id])
  | StopVM id _ => (handleVMStopByPath, [id])
  | KillVM id => (handleVMKillByPath, [id])
  | PauseVM id => (handleVMPauseByPath, [id])
  | ResumeVM id _ => (handleVMResumeByPath, [id])
  | GetVMLogs id _ => (handleVMLogsByPath, [id])
  | ExecVM id _ => (handleVMExecByPath, [id])
  | CreateSnapshot id _ => (handleCreateSnapshotByPath, [id])
  | ListSnapshots id => (handleListSnapshotsByPath, [id])
  | GetSnapshot id => (handleGetSnapshotByPath, [id])
  | DeleteSnapshot id => (handleDeleteSnapshotByPath, [id])
  | ListImages => (handleImages, [])
  | GetImage digest => (handleGetImageByPath, [digest])
  | DeleteImage digest => (handleDeleteImageByPath, [digest])
  | PullImage _ => (handleImagePull, [])
  | GetPullJob id => (handleImageJobByPath, [id])
  end.

(** * The computation of an operation *)

Section Serve.
Context `{Env}.

(** How the bodies decode, and what the runtime lists. *)
Context (dec_create : json → option CreateVMRequest) (dec_exec : json → option (list string * option Z))
  (dec_snapshot : json → optional_body string) (provider : option (result (list Image))) (health capabilities : json).

Definition atoi_result (s : string) : result Z := match atoi s with Some z => Ok z | None => Err (ErrorsNew "invalid syntax") end.

(** What the handler of an operation answers when the request reaches it with the
    identifiers of the operation.  The syntax of URLs and the mux are those of
    Client.v and Routes.v; that identifiers made of safe characters get through them
    is [ClientSpec.request_reaches_its_handler], while "./id1", or an image reference
    with a slash in it, does not reach this handler. *)
Definition serve (o : operation) : M response :=
  match o with
  | Health => ret (writeJSON 200 (BJson health))
  | Capabilities => ret (writeJSON 200 (BJson capabilities))
  | CreateVM req => VmCreate.handleCreateVM (dec_create req)
  | ListVMs state => VmLifecycle.handleListVMs state
  | GetVM id => VmLifecycle.handleGetVMByPath id
  | DeleteVM id => VmLifecycle.handleDeleteVMByPath id
  | StartVM id => VmLifecycle.handleVMStartByPath id
  | StopVM id n => VmLifecycle.handleVMStopByPath id (Body (if (n =? 0)%Z then None else Some n))
  | KillVM id => VmLifecycle.handleVMKillByPath id
  | PauseVM id => VmLifecycle.handleVMPauseByPath id
  | ResumeVM id snapshotID => VmLifecycle.handleVMResumeByPath id (Body (if String.eqb snapshotID "" then None else Some snapshotID))
  | GetVMLogs id tail => VmLifecycle.handleVMLogsByPath atoi_result id (if (0 <? tail)%Z then fmt_d tail else "")
  | ExecVM id req => VmLifecycle.handleVMExecByPath id (dec_exec req)
  | CreateSnapshot id req => Snapshots.handleCreateSnapshotByPath id (dec_snapshot req)
  | ListSnapshots id => Snapshots.handleListSnapshotsByPath id
  | GetSnapshot id => Snapshots.handleGetSnapshotByPath id
  | DeleteSnapshot id => Snapshots.handleDeleteSnapshotByPath id
  | ListImages => Images.handleImages true provider
  | GetImage digest => Images.handleGetImageByPath digest
  | DeleteImage digest => Images.handleDeleteImageByPath digest
  | PullImage imageRef => let* ' (r, _) := Images.handleImagePull true (Some imageRef) in ret r
  | GetPullJob id => Images.handleImageJobByPath id
  end.

(** * Types *)

(** The document of a successful answer, and its status. *)
Definition success (o : operation) (r : response) : bool :=
  match o, rs_body r with
  | CreateVM _, BVM _ => existsb (Z.eqb (rs_status r)) [200; 201]%Z
  | (GetVM _ | StartVM _ | StopVM _ _ | KillVM _ | PauseVM _ | ResumeVM _ _), BVM _
  | ListVMs _, BVMs _ | GetVMLogs _ _, BText _ | ExecVM _ _, BExec _ | ListSnapshots _, BSnapshots _ | GetSnapshot _, BSnapshot _
  | GetImage _, BImage _ | ListImages, BImages _ | GetPullJob _, BJob _ | (Health | Capabilities), BJson _ => (rs_status r =? 200)%Z
  | CreateSnapshot _ _, BSnapshot _ => (rs_status r =? 201)%Z
  | PullImage _, BJson _ => (rs_status r =? 202)%Z
  | (DeleteVM _ | DeleteSnapshot _ | DeleteImage _), BNone => (rs_status r =? 204)%Z
  | _, _ => false
  end.

(** The statuses that go with a code. *)
Definition statuses (code : ErrorCode) : list Z :=
  match code with
  | ErrInvalidRequest | ErrInvalidConfig => [400]
  | ErrVMNotFound | ErrImageNotFound | ErrSnapshotNotFound => [404]
  | ErrInvalidStateTransition | ErrVMLocked | ErrResourceInUse => [409]
  | ErrResourceLimitExceeded => [422]
  | ErrInternalError => [500]
  | ErrServiceUnavailable => [503; 504]
  | ErrUnsupportedOperation' => [501]
  | _ => []
  end%Z.

Definition well_typed (o : operation) (r : response) : bool :=
  match rs_body r with BError code _ _ => existsb (Z.eqb (rs_status r)) (statuses code) | _ => success o r end.

(** * What a computation may answer *)

Definition gives {A} (m : M A) (P : A → Prop) : Prop := ∀ w, P (fst (m w)).

Lemma gives_ret {A} (a : A) (P : A → Prop) : P a → gives (ret a) P.
Proof. by intros HP w. Qed.

Lemma gives_bind {A B} (m : M A) (k : A → M B) (P : B → Prop) : (∀ a, gives (k a) P) → gives (bind m k) P.
Proof. intros Hk w. unfold bind. destruct (m w) as [a w']. apply Hk. Qed.

Lemma gives_bind_with {A B} (Q : A → Prop) (m : M A) (k : A → M B) (P : B → Prop) :
  gives m Q → (∀ a, Q a → gives (k a) P) → gives (bind m k) P.
Proof. intros Hm Hk w. unfold bind. specialize (Hm w). destruct (m w) as [a w']. by apply Hk. Qed.

(** An answer that is an error belongs to every operation. *)
Definition refusal (r : response) : Prop :=
  match rs_body r with BError code _ _ => existsb (Z.eqb (rs_status r)) (statuses code) = true | _ => False end.

Lemma refusal_typed o r : refusal r → well_typed o r = true.
Proof. unfold refusal, well_typed. by destruct (rs_body r). Qed.

Lemma gives_with_lock id op (k : M response) P : (∀ r, refusal r → P r) → gives k P → gives (with_lock id op k) P.
Proof.
  intros HP Hk. apply gives_bind. intros [e|]; [by apply gives_ret, HP|]. eapply gives_bind_with; [exact Hk|].
  intros r Hr. apply gives_bind. intros _. by apply gives_ret.
Qed.

Lemma gives_with_vm id (k : VM → M response) P : (∀ r, refusal r → P r) → (∀ vm, gives (k vm) P) → gives (with_vm id k) P.
Proof. intros HP Hk. apply gives_bind. intros [[vm|]|]; [apply Hk|by apply gives_ret, HP..]. Qed.

Lemma gives_by_path what id (k : M response) P : (∀ r, refusal r → P r) → gives k P → gives (by_path what id k) P.
Proof. intros HP Hk. unfold by_path. destruct (String.eqb id ""); [by apply gives_ret, HP|done]. Qed.

Lemma unsupported_refusal what err details r : writeRuntimeUnsupportedError what err details = Some r → refusal r.
Proof. unfold writeRuntimeUnsupportedError. destruct (negb _); [done|]. by intros [= <-]. Qed.

Lemma network_refusal err mode r : writeNetworkSetupError err mode = Some r → refusal r.
Proof. unfold writeNetworkSetupError. repeat split_match; by intros [= <-]. Qed.

Lemma spire_early req r : rejectInvalidSPIRECreateInputs req = Some r → refusal r.
Proof. unfold rejectInvalidSPIRECreateInputs. repeat split_match; by intros [= <-]. Qed.

Create HintDb early.

(** Walk through a body: only the ends matter. *)
Ltac answer :=
  repeat first
    [ progress intros
    | match goal with
      | |- gives (ret _) _ => apply gives_ret
      | |- gives (with_vm _ _) _ => apply gives_with_vm; [by apply refusal_typed|]
      | |- gives (with_lock _ _ _) _ => apply gives_with_lock; [by apply refusal_typed|]
      | |- gives (by_path _ _ _) _ => apply gives_by_path; [by apply refusal_typed|]
      | |- gives (bind _ _) _ => first [eapply gives_bind_with; [solve [eauto with early nocore]|] | apply gives_bind]
      | |- gives (match writeRuntimeUnsupportedError ?w ?e ?d with _ => _ end) _ =>
          generalize (unsupported_refusal w e d); destruct (writeRuntimeUnsupportedError w e d)
      | |- gives (match writeNetworkSetupError ?e ?m with _ => _ end) _ =>
          generalize (network_refusal e m); destruct (writeNetworkSetupError e m)
      | |- gives (match rejectInvalidSPIRECreateInputs ?r with _ => _ end) _ =>
          generalize (spire_early r); destruct (rejectInvalidSPIRECreateInputs r)
      | |- gives (match ?x with _ => _ end) _ => destruct x
      | |- gives (let '(_, _) := ?x in _) _ => destruct x
      | |- well_typed _ (match ?x with _ => _ end) = true => destruct x
      end
    | by apply refusal_typed | by apply refusal_typed; eauto with early | done | solve [cbn; eauto with early] ].

Definition types (o : operation) (m : M response) : Prop := gives m (λ r, well_typed o r = true).

Lemma start_types id : types (StartVM id) (VmLifecycle.handleVMStartByPath id).
Proof. unfold types, VmLifecycle.handleVMStartByPath, start_vm, start_locked. answer. Qed.

Lemma stop_types id n b : types (StopVM id n) (VmLifecycle.handleVMStopByPath id b).
Proof. unfold types, VmLifecycle.handleVMStopByPath, stop_vm, stop_locked. answer. Qed.

Lemma kill_types id : types (KillVM id) (VmLifecycle.handleVMKillByPath id).
Proof. unfold types, VmLifecycle.handleVMKillByPath, kill_vm. answer. Qed.

Lemma pause_types id : types (PauseVM id) (VmLifecycle.handleVMPauseByPath id).
Proof. unfold types, VmLifecycle.handleVMPauseByPath, pause_vm, transition_vm. answer. Qed.

Lemma delete_types id : types (DeleteVM id) (VmLifecycle.handleDeleteVMByPath id).
Proof. unfold types, VmLifecycle.handleDeleteVMByPath, handleDeleteVM, delete_locked. answer. Qed.

(** An early answer is a refusal. *)
Definition early {A} (r : sum response A) : Prop := match r with inl r => refusal r | inr _ => True end.
Definition early_option (r : option response) : Prop := match r with Some r => refusal r | None => True end.

Lemma check_file_early id kind path : gives (checkSnapshotFilePresent id kind path) early_option.
Proof. unfold checkSnapshotFilePresent. answer. Qed.
#[local] Hint Resolve check_file_early : early.

Lemma resumable_early vm id : gives (resolveResumableSnapshot vm id) early.
Proof. unfold resolveResumableSnapshot. answer. Qed.
#[local] Hint Resolve resumable_early : early.

Lemma resume_types id snapshotID b : types (ResumeVM id snapshotID) (VmLifecycle.handleVMResumeByPath id b).
Proof.
  unfold types, VmLifecycle.handleVMResumeByPath, resume_in_place, transition_vm, resumeVMFromSnapshot, load_snapshot. answer.
Qed.

Lemma logs_types atoi id tail n : types (GetVMLogs id n) (VmLifecycle.handleVMLogsByPath atoi id tail).
Proof. unfold types, VmLifecycle.handleVMLogsByPath. answer. Qed.

Lemma exec_failed_refusal vm n result err : refusal (exec_failed vm n result err).
Proof.
  unfold exec_failed. case_match; [done|]. generalize (unsupported_refusal "VM exec" err [("vm_id", AStr (vm_id vm))]).
  destruct (writeRuntimeUnsupportedError _ _ _); [by eauto|done].
Qed.
#[local] Hint Resolve exec_failed_refusal : early.

Lemma exec_types id req b : types (ExecVM id req) (VmLifecycle.handleVMExecByPath id b).
Proof. unfold types, VmLifecycle.handleVMExecByPath. answer. Qed.

Lemma snapshot_types id req b : types (CreateSnapshot id req) (Snapshots.handleCreateSnapshotByPath id b).
Proof. unfold types, Snapshots.handleCreateSnapshotByPath, handleCreateSnapshot, create_snapshot, create_snapshot_locked. answer. Qed.

Lemma image_config_early image req : gives (prepareCreateVMConfig image req) early.
Proof. unfold prepareCreateVMConfig, writePortForwardPreparationError. answer; by destruct (errors_As _ _). Qed.
#[local] Hint Resolve image_config_early : early.

Lemma image_early ref : gives (resolveImageForCreate ref) early.
Proof. unfold resolveImageForCreate. answer. Qed.
#[local] Hint Resolve image_early : early.

Lemma register_early id req config : gives (registerSPIREForCreate id req config) early.
Proof. unfold registerSPIREForCreate. answer. Qed.
#[local] Hint Resolve register_early : early.

Lemma provision_types req0 req image id name config : types (CreateVM req0) (provision_vm req image id name config).
Proof. unfold types, provision_vm, insert_vm. answer. Qed.

Lemma create_types req0 b : types (CreateVM req0) (VmCreate.handleCreateVM b).
Proof. unfold types, VmCreate.handleCreateVM, create_new_vm. answer; apply provision_types. Qed.

Lemma pull_types imageRef req : gives (Images.handleImagePull true req) (λ p, well_typed (PullImage imageRef) (fst p) = true).
Proof. unfold Images.handleImagePull; cbn [negb]. answer. Qed.
#[local] Hint Resolve pull_types : early.

Lemma serve_types o : types o (serve o).
Proof.
  destruct o; cbn [serve].
  all: first [apply create_types | apply start_types | apply stop_types | apply kill_types | apply pause_types | apply resume_types
    | apply delete_types | apply logs_types | apply exec_types | apply snapshot_types | idtac].
  all: unfold types, VmLifecycle.handleGetVMByPath, handleGetVM, VmLifecycle.handleListVMs, Snapshots.handleListSnapshotsByPath,
    handleListSnapshots, Snapshots.handleGetSnapshotByPath, handleGetSnapshot, Snapshots.handleDeleteSnapshotByPath, handleDeleteSnapshot, with_snapshot,

    Images.handleImages, Images.handleGetImageByPath, handleGetImage, Images.handleDeleteImageByPath, handleDeleteImage,
    Images.handleImageJobByPath; cbn [negb]; answer.
Qed.

(** C33: every operation of the client is answered with what the client expects of it
    on success (status and kind of document), or with an error whose code and status
    belong together, whatever the database, the runtime and the host answer. *)
Theorem serve_typed o w : well_typed o (fst (serve o w)) = true.
Proof. exact (serve_types o w). Qed.

End Serve.
