(* ===== verification/CliErrors.v ===== *)
(** What the command line tells its user of an error (src/internal/clierrors:
    errors.go, and handleAPIErrorWithResource of src/cmd/nanofuse/main.go): an error of
    the client becomes a message, a suggestion, a context and an exit code.

    The details of an error are a JSON object, as the client decodes them; so the
    []string of extractRequiredStates does not occur. *)

From S2P Require Import Prelude GoStrings Json Client.

(* @src internal/clierrors/errors.go:41-51 ErrorContext *)
Record ErrorContext : Type := mkContext { ec_operation : string; ec_resource : string; ec_reason : string }.

(* @src internal/clierrors/errors.go:20-39 CLIError *)
Record CLIError : Type := mkCLIError {
  Message : string; Suggestion : string; Context' : option ErrorContext; DocRef : string; ExitCode' : Z; wrapped : option failure }.

(** * Output *)

Inductive colour : Type := FgRed | FgYellow | FgCyan.

(** What is written to stderr: stretches of text, coloured or not. *)
Definition output : Type := list (option colour * string).

Definition nl : string := String "010" "".
Definition line (text : string) : output := [(None, text +:+ nl)].

(* @func internal/clierrors/errors.go Format *)
Definition Format (useColor : bool) (e : CLIError) : output :=
  let painted c text := [(if useColor then Some c else None, text)] in
  let unless_empty s (o : output) := if String.eqb s "" then [] else o in
  painted FgRed ("Error: " +:+ Message e +:+ nl) ++
  match Context' e with
  | None => []
  | Some c =>
      line "" ++
      unless_empty (ec_operation c) (line ("  Operation: " +:+ ec_operation c)) ++
      unless_empty (ec_resource c) (line ("  Resource:  " +:+ ec_resource c)) ++
      unless_empty (ec_reason c) (line ("  Reason:    " +:+ ec_reason c))
  end ++
  unless_empty (Suggestion e) (line "" ++ painted FgYellow ("Suggestion: " +:+ Suggestion e +:+ nl)) ++
  unless_empty (DocRef e)
    (line "" ++
     (if useColor then [(None, "See: "); (Some FgCyan, DocRef e); (None, nl)] else line ("See: " +:+ DocRef e))).

(** * The errors *)

(* @src internal/clierrors/errors.go:115-126 CodeVMNotFound *)
Definition CodeVMNotFound : string := "VM_NOT_FOUND".
(* @src internal/clierrors/errors.go:115-126 CodeImageNotFound *)
Definition CodeImageNotFound : string := "IMAGE_NOT_FOUND".
(* @src internal/clierrors/errors.go:115-126 CodeSnapshotNotFound *)
Definition CodeSnapshotNotFound : string := "SNAPSHOT_NOT_FOUND".
(* @src internal/clierrors/errors.go:115-126 CodeDaemonNotRunning *)
Definition CodeDaemonNotRunning : string := "API_UNREACHABLE".
(* @src internal/clierrors/errors.go:115-126 CodeInvalidStateTransition *)
Definition CodeInvalidStateTransition : string := "INVALID_STATE_TRANSITION".
(* @src internal/clierrors/errors.go:115-126 CodeVMLocked *)
Definition CodeVMLocked : string := "VM_LOCKED".
(* @src internal/clierrors/errors.go:115-126 CodeAuthFailed *)
Definition CodeAuthFailed : string := "REGISTRY_AUTH_FAILED".
(* @src internal/clierrors/errors.go:115-126 CodeValidationError *)
Definition CodeValidationError : string := "VALIDATION_ERROR".

(* @func internal/clierrors/errors.go WrapVMNotFound *)
Definition WrapVMNotFound (vmID operation : string) : CLIError :=
  mkCLIError ("VM '" +:+ vmID +:+ "' not found") "Run 'nanofuse vm list' to see available VMs"
    (Some (mkContext operation vmID "The specified VM does not exist or has been deleted")) "nanofuse vm list --help" 4 None.

(* @func internal/clierrors/errors.go WrapImageNotFound *)
Definition WrapImageNotFound (imageRef operation : string) : CLIError :=
  mkCLIError ("Image '" +:+ imageRef +:+ "' not found in local cache") ("Pull the image first: nanofuse image pull " +:+ imageRef)
    (Some (mkContext operation imageRef "The image is not cached locally and needs to be pulled from the registry"))
    "nanofuse image pull --help" 4 None.

(* @func internal/clierrors/errors.go WrapSnapshotNotFound *)
Definition WrapSnapshotNotFound (snapshotID operation : string) : CLIError :=
  mkCLIError ("Snapshot '" +:+ snapshotID +:+ "' not found") "Run 'nanofuse vm snapshot list <vm-id>' to see available snapshots"
    (Some (mkContext operation snapshotID "The specified snapshot does not exist or has been deleted"))
    "nanofuse vm snapshot list --help" 4 None.

(* @func internal/clierrors/errors.go isHTTPAPIEndpoint *)
Definition isHTTPAPIEndpoint (endpoint : string) : bool := has_prefix "http://" endpoint || has_prefix "https://" endpoint.

(* @func internal/clierrors/errors.go WrapDaemonNotRunning *)
Definition WrapDaemonNotRunning (endpoint : string) : CLIError :=
  let '(suggestion, reason, docRef) :=
    if isHTTPAPIEndpoint endpoint
    then ("Verify the API URL, SSH tunnel, or remote nanofused daemon", "The nanofused API endpoint is not reachable",
          "nanofuse --api-url " +:+ endpoint +:+ " health")
    else ("Start the nanofused service: sudo systemctl start nanofused",
          "The nanofused daemon is not running or the socket is inaccessible", "sudo systemctl status nanofused") in
  mkCLIError "Cannot connect to nanofused API" suggestion (Some (mkContext "connect to API" endpoint reason)) docRef 3 None.

(* @func internal/clierrors/errors.go WrapInvalidImageRef *)
Definition WrapInvalidImageRef (imageRef reason : string) : CLIError :=
  mkCLIError ("Invalid image reference: " +:+ imageRef)
    "Use format: registry/repository:tag (e.g., ghcr.io/daax-dev/nanofuse/base:latest)"
    (Some (mkContext "parse image reference" imageRef reason)) "nanofuse image pull --help" 2 None.

(* @func internal/clierrors/errors.go WrapMissingArgument *)
Definition WrapMissingArgument (argName command example : string) : CLIError :=
  mkCLIError ("Missing required argument: " +:+ argName) ("Example: " +:+ example)
    (Some (mkContext command "" ("The '" +:+ argName +:+ "' argument is required but was not provided")))
    ("nanofuse " +:+ command +:+ " --help") 2 None.

(* @func internal/clierrors/errors.go WrapInvalidStateTransition *)
Definition WrapInvalidStateTransition (vmID operation currentState : string) (requiredStates : list string) : CLIError :=
  let suggestion :=
    match requiredStates with
    | [] => "This operation is not allowed in the current state. Check status: nanofuse vm status " +:+ vmID
    | _ => "VM must be in '" +:+ join "' or '" requiredStates +:+ "' state. Check status: nanofuse vm status " +:+ vmID
    end in
  mkCLIError ("Cannot " +:+ operation +:+ " VM in '" +:+ currentState +:+ "' state") suggestion
    (Some (mkContext operation vmID ("Current state '" +:+ currentState +:+ "' does not allow this operation")))
    "nanofuse vm status --help" 5 None.

(* @func internal/clierrors/errors.go WrapVMLocked *)
Definition WrapVMLocked (vmID operation : string) : CLIError :=
  mkCLIError ("VM '" +:+ vmID +:+ "' is locked by another operation") "Wait for the current operation to complete and try again"
    (Some (mkContext operation vmID "Another operation is currently in progress on this VM")) ("nanofuse vm status " +:+ vmID) 5 None.

(* @func internal/clierrors/errors.go WrapAuthFailed *)
Definition WrapAuthFailed (registry : string) : CLIError :=
  mkCLIError ("Authentication failed for registry: " +:+ registry) ("Run 'docker login " +:+ registry +:+ "' to authenticate")
    (Some (mkContext "authenticate" registry "Invalid or missing credentials for the container registry")) "docker login --help" 2 None.

(* @func internal/clierrors/errors.go WrapValidationError *)
Definition WrapValidationError (field reason : string) : CLIError :=
  mkCLIError ("Invalid value for '" +:+ field +:+ "': " +:+ reason) "Check the command help for valid values"
    (Some (mkContext "validate input" "" reason)) "" 2 None.

(** * From an error of the client *)

Definition member (k : string) (details : option (list (string * json))) : option json :=
  details ≫= jlookup k.

(* @func internal/clierrors/errors.go extractRequiredStates *)
Definition extractRequiredStates (details : option (list (string * json))) : list string :=
  let fallbackStates := ["running"; "stopped"] in
  match member "required_states" details with
  | None | Some JNull => fallbackStates
  | Some (JArr v) => omap (λ item, match item with JStr s => Some s | _ => None end) v
  | Some (JStr v) =>
      if String.eqb v "" then []
      else List.filter (λ p, negb (String.eqb p "")) (trim_space <$> split_on "," v)
  | Some _ => fallbackStates
  end.

(* @func internal/clierrors/errors.go FromClientError *)
Definition FromClientError (err : ClientError) (operation resource : string) : CLIError :=
  let code := cl_code err in
  if String.eqb code CodeVMNotFound then WrapVMNotFound resource operation
  else if String.eqb code CodeImageNotFound then WrapImageNotFound resource operation
  else if String.eqb code CodeSnapshotNotFound then WrapSnapshotNotFound resource operation
  else if String.eqb code CodeDaemonNotRunning then WrapDaemonNotRunning resource
  else if String.eqb code CodeInvalidStateTransition then
    let currentState := match member "current_state" (cl_details err) with Some (JStr s) => s | _ => "unknown" end in
    WrapInvalidStateTransition resource operation currentState (extractRequiredStates (cl_details err))
  else if String.eqb code CodeVMLocked then WrapVMLocked resource operation
  else if String.eqb code CodeAuthFailed then WrapAuthFailed resource
  else if String.eqb code CodeValidationError then
    mkCLIError (cl_message err) "Check the command help for valid input format" (Some (mkContext operation resource "")) "" 2
      (Some (FClient err))
  else
    mkCLIError (cl_message err) "" (Some (mkContext operation resource "")) "" (ExitCode err) (Some (FClient err)).

(* @func internal/clierrors/errors.go IsConnectionError *)
Definition IsConnectionError (errMsg : string) : bool :=
  let lower := to_lower errMsg in
  contains "connection refused" lower || contains "dial unix" lower || contains "dial tcp" lower ||
  contains "connect: no such file" lower || contains "connect: connection refused" lower.

(* @func internal/clierrors/errors.go IsAuthError *)
Definition IsAuthError (errMsg : string) : bool :=
  let lower := to_lower errMsg in
  contains "authentication" lower || contains "unauthorized" lower || contains "forbidden" lower || contains "401" lower ||
  contains "403" lower.

(* @func internal/clierrors/errors.go IsNotFoundError *)
Definition IsNotFoundError (errMsg : string) : bool :=
  let lower := to_lower errMsg in
  contains "not found" lower || contains "404" lower || contains "does not exist" lower.

(** A byte that is not ASCII belongs to a rune that is not a digit either. *)
Fixpoint port_loop (s : string) (port : Z) : option Z :=
  match s with
  | EmptyString => Some port
  | String c s =>
      let n := Z.of_nat (nat_of_ascii c) in
      if (n <? 48)%Z || (57 <? n)%Z then None
      else let port := (port * 10 + (n - 48))%Z in if (65535 <? port)%Z then None else port_loop s port
  end.

(* @func internal/clierrors/errors.go isValidPort *)
Definition isValidPort (s : string) : bool :=
  if String.eqb s "" then false else match port_loop s 0 with Some port => (1 <=? port)%Z | None => false end.

(* @func internal/clierrors/errors.go extractRegistry *)
Definition extractRegistry (imageRef : string) : string :=
  if String.eqb imageRef "" then "container registry"
  else
    match split_on "/" imageRef with
    | first :: _ :: _ =>
        if contains "." first then first
        else if contains ":" first then
          match split_on ":" first with
          | [_; port] => if isValidPort port then first else "docker.io"
          | _ => "docker.io"
          end
        else "docker.io"
    | _ => "docker.io"
    end.

Section FromError.
Context `{CE : ClientEnv}.

(* @src internal/client/client.go:419-421 Error *)
Definition failure_text (f : failure) : string :=
  match f with FClient e => cl_code e +:+ ": " +:+ cl_message e | FOther e => ce_text e end.

(* @func internal/clierrors/errors.go FromError *)
Definition FromError (err : failure) (operation resource : string) : CLIError :=
  match err with
  | FClient cerr => FromClientError cerr operation resource
  | FOther _ =>
      let errMsg := failure_text err in
      if IsConnectionError errMsg then WrapDaemonNotRunning (if String.eqb resource "" then "/run/nanofused.sock" else resource)
      else if IsAuthError errMsg then WrapAuthFailed (extractRegistry resource)
      else mkCLIError errMsg "" (Some (mkContext operation resource "")) "" 1 (Some err)
  end.

(* @func internal/clierrors/errors.go HandleError *)
Definition HandleError (err : failure) (operation resource : string) (useColor : bool) : Z * output :=
  let cliErr := FromError err operation resource in (ExitCode' cliErr, Format useColor cliErr).

(** The flags --api-url and --api-socket. *)
Context (apiURL apiSocket DefaultAPISocketPath : string).

(* @func cmd/nanofuse/main.go handleAPIErrorWithResource *)
Definition handleAPIErrorWithResource (err : failure) (operation resource : string) : CLIError :=
  let resourceOrSocket :=
    if IsConnectionError (failure_text err) then
      let r := if negb (String.eqb apiURL "") then apiURL else apiSocket in
      if String.eqb r "" then DefaultAPISocketPath else r
    else resource in
  FromError err operation resourceOrSocket.

(* @func cmd/nanofuse/main.go handleAPIError *)
Definition handleAPIError (err : failure) (operation : string) : CLIError := handleAPIErrorWithResource err operation "".

End FromError.
