(* ===== verification/CliMain.v ===== *)
(** Commands of the command line (src/cmd/nanofuse/main.go): where the daemon is found,
    the references and port forwards of its arguments, the ports that are shown, the loop
    that waits for a pull and the one that follows the console of a VM.  A loop that
    polls the daemon is a function of the answers it gets.

    The declarations of commands and flags (cobra), the printing of confirmations and the
    tables of the output are not modelled. *)

From S2P Require Import Prelude GoStrings Paths GoUrl Json Types Client CliErrors.

(** * Where the daemon is *)

Definition DefaultAPIURL : string := "http://127.0.0.1:18080".
Definition DefaultAPISocketPath : string := "/var/run/nanofused.sock".

(** The global flags; times in nanoseconds. *)
(* @src cmd/nanofuse/main.go:28-46 cfgFile *)
Record globals : Type := mkGlobals {
  cfgFile : string; apiURL : string; apiSocket : string; timeout : Z; debug : bool; jsonOutput : bool; noColor : bool }.

(* @func cmd/nanofuse/main.go defaultClientEndpoint *)
Definition defaultClientEndpoint (goos : string) : string * string :=
  if String.eqb goos "windows" then (DefaultAPIURL, "") else ("", DefaultAPISocketPath).

(* @func cmd/nanofuse/main.go envTruthy *)
Definition envTruthy (value : string) : bool := bool_decide (to_lower (trim_space value) ∈ ["1"; "true"; "yes"; "on"]).

Section Environment.
Context (Getenv : string → string) (ParseDuration : string → result Z) (goos : string) (isTerminal : bool).

Definition or_env (v name : string) : string := if String.eqb v "" then Getenv name else v.

(* @func cmd/nanofuse/main.go applyClientEnvironment *)
Definition applyClientEnvironment (g : globals) : result globals :=
  let cfg := or_env (cfgFile g) "NANOFUSE_CONFIG" in
  let url := or_env (apiURL g) "NANOFUSE_API_URL" in
  let socket := or_env (apiSocket g) "NANOFUSE_API_SOCKET" in
  let value := Getenv "NANOFUSE_TIMEOUT" in
  let duration :=
    if (timeout g =? 30 * 1000000000)%Z && negb (String.eqb value "") then
      match ParseDuration value with Ok d => Ok d | Err err => Err (Errorf "parse NANOFUSE_TIMEOUT: %w" [AWrap err]) end
    else Ok (timeout g) in
  match duration with
  | Err err => Err err
  | Ok duration =>
      let '(url, socket) := if String.eqb url "" && String.eqb socket "" then defaultClientEndpoint goos else (url, socket) in
      Ok (mkGlobals cfg url socket duration (debug g || envTruthy (Getenv "NANOFUSE_DEBUG"))
        (jsonOutput g || String.eqb (to_lower (Getenv "NANOFUSE_OUTPUT")) "json") (noColor g || envTruthy (Getenv "NANOFUSE_NO_COLOR")))
  end.

(* @func cmd/nanofuse/main.go cliUseColor *)
Definition cliUseColor (g : globals) : bool :=
  if negb (String.eqb (Getenv "NO_COLOR") "") || envTruthy (Getenv "NANOFUSE_NO_COLOR") then false else negb (noColor g) && isTerminal.

(** The client of a command: its URL, or the socket it dials. *)
(* @src cmd/nanofuse/main.go:123-131 rootCmd *)
Definition endpoint_of (g : globals) : string + string :=
  if negb (String.eqb (apiURL g) "") then inl (apiURL g)
  else inr (if String.eqb (apiSocket g) "" then snd (defaultClientEndpoint goos) else apiSocket g).
End Environment.

(** * Arguments *)

Definition default_image (tag : string) : string := "ghcr.io/daax-dev/nanofuse" +:+ "/" +:+ "base" +:+ ":" +:+ tag.

(* @func cmd/nanofuse/main.go resolveImageRef *)
Definition resolveImageRef (imageRef : string) : string :=
  if bool_decide (imageRef ∈ ["default"; "base"]) then default_image "latest"
  else if bool_decide (imageRef ∈ ["default:latest"; "base:latest"]) then default_image "latest"
  else if has_prefix "default:" imageRef then default_image (trim_prefix "default:" imageRef)
  else if has_prefix "base:" imageRef then default_image (trim_prefix "base:" imageRef)
  else imageRef.

(** [fmt.Sscanf(s, "%d", &n)]: white space, a sign, and the digits that follow; what
    comes after them is not looked at. *)
Fixpoint scan_digits (s : string) (acc : option Z) : option Z :=
  match s with
  | EmptyString => acc
  | String a s => if is_num a then scan_digits s (Some (10 * default 0%Z acc + (Z.of_nat (nat_of_ascii a) - 48))%Z) else acc
  end.

Definition scan_space : list string := List.filter (λ s, negb (String.eqb s (String "010" ""))) space_runes.

Definition Sscanf_d (s : string) : result Z :=
  let s := trim_left scan_space s in
  let value := match s with
    | String a s' => if Ascii.eqb a "-" then Z.opp <$> scan_digits s' None else if Ascii.eqb a "+" then scan_digits s' None else scan_digits s None
    | EmptyString => None
    end in
  match value with
  | Some z => if (-2 ^ 63 <=? z)%Z && (z <? 2 ^ 63)%Z then Ok z else Err (ErrorsNew "integer overflow on token")
  | None => Err (ErrorsNew "expected integer")
  end.

Definition port_ok (z : Z) : bool := negb ((z <? 1)%Z || (65535 <? z)%Z).

(* @src cmd/nanofuse/main.go:1857-1891 parsePortForwards *)
Definition parsePortForward (spec : string) : result PortForward :=
  let parts := split_on "/" spec in
  let portSpec := default "" (head parts) in
  let protocol := match parts with _ :: p :: _ => p | _ => "tcp" end in
  if negb (String.eqb protocol "tcp") && negb (String.eqb protocol "udp") then
    Err (Errorf "invalid protocol in %q: must be tcp or udp" [AStr spec])
  else
    match split_on ":" portSpec with
    | [host; vm] =>
        match Sscanf_d host with
        | Err err => Err (Errorf "invalid host port in %q: %w" [AStr spec; AWrap err])
        | Ok hostPort =>
            match Sscanf_d vm with
            | Err err => Err (Errorf "invalid VM port in %q: %w" [AStr spec; AWrap err])
            | Ok vmPort =>
                if negb (port_ok hostPort) then Err (Errorf "invalid host port %d in %q: must be 1-65535" [AInt hostPort; AStr spec])
                else if negb (port_ok vmPort) then Err (Errorf "invalid VM port %d in %q: must be 1-65535" [AInt vmPort; AStr spec])
                else Ok (mkPF hostPort vmPort protocol)
            end
        end
    | _ => Err (Errorf "invalid port forward format %q: expected hostPort:vmPort[/protocol]" [AStr spec])
    end.

(* @func cmd/nanofuse/main.go parsePortForwards *)
Fixpoint parsePortForwards (specs : list string) : result (list PortForward) :=
  match specs with
  | [] => Ok []
  | spec :: specs =>
      match parsePortForward spec with
      | Err err => Err err
      | Ok pf => match parsePortForwards specs with Ok pfs => Ok (pf :: pfs) | Err err => Err err end
      end
  end.

(** [data]: the content of the key file; [base64]: the standard encoding. *)
(* @func cmd/nanofuse/main.go readSSHPublicKey *)
Definition readSSHPublicKey (base64 : string → string) (data : result string) : result string :=
  match data with
  | Err err => Err (Errorf "failed to read SSH key file: %w" [AWrap err])
  | Ok data =>
      let key := trim_space data in
      if String.eqb key "" then Err (ErrorsNew "SSH key file is empty")
      else if negb (has_prefix "ssh-" key) && negb (has_prefix "ecdsa-" key) then
        Err (ErrorsNew "invalid SSH public key format: must start with 'ssh-' or 'ecdsa-'")
      else Ok (base64 key)
  end.

(** * Ports *)

Definition protocol_of (pf : PortForward) : string := if String.eqb (Protocol pf) "" then "tcp" else Protocol pf.

(* @func cmd/nanofuse/main.go sshHostPort *)
Definition sshHostPort (portForwards : list PortForward) : option Z :=
  HostPort <$> List.find (λ pf, (VMPort pf =? 22)%Z && String.eqb (protocol_of pf) "tcp") portForwards.

(* @func cmd/nanofuse/main.go displayVMLabel *)
Definition displayVMLabel (id name : string) : string :=
  if negb (String.eqb name "") then name
  else if (8 <? String.length id)%nat then String.substring 0 8 id
  else if negb (String.eqb id "") then id
  else "unnamed".

(* @type cmd/nanofuse/main.go vmPortForwardStatus *)
Record vmPortForwardStatus : Type := mkPortStatus {
  pt_host : string; pt_host_port : Z; pt_vm_port : Z; pt_protocol : string; pt_reachable : option bool; pt_check : string }.

(** [reachable]: whether a connection to the host and port is accepted. *)
(* @func cmd/nanofuse/main.go vmPortsForOutput *)
Definition vmPortsForOutput (reachable : string → Z → bool) (portForwards : list PortForward) : list vmPortForwardStatus :=
  (λ pf,
    let protocol := protocol_of pf in
    if String.eqb protocol "tcp" then
      mkPortStatus "127.0.0.1" (HostPort pf) (VMPort pf) protocol (Some (reachable "127.0.0.1" (HostPort pf))) "tcp-connect"
    else mkPortStatus "127.0.0.1" (HostPort pf) (VMPort pf) protocol None "configured") <$> portForwards.

(* @src cmd/nanofuse/main.go:1651-1675 printVMPorts *)
Definition port_line (id name state : string) (port : vmPortForwardStatus) : string :=
  let status := match pt_reachable port with Some true => "reachable" | Some false => "not reachable" | None => pt_check port end in
  displayVMLabel id name +:+ " [" +:+ state +:+ "] " +:+ pt_host port +:+ ":" +:+ fmt_d (pt_host_port port) +:+ " -> vm:" +:+
  fmt_d (pt_vm_port port) +:+ "/" +:+ pt_protocol port +:+ " (" +:+ status +:+ ")".

(* @src cmd/nanofuse/main.go:1651-1675 printVMPorts *)
Definition ports_lines (id name state : string) (ports : list vmPortForwardStatus) : list string :=
  match ports with
  | [] => [displayVMLabel id name +:+ " [" +:+ state +:+ "]: no port forwards configured"]
  | _ => port_line id name state <$> ports
  end.

(** * Waiting for a pull *)

(** The part of a job the command looks at. *)
Record pull_job : Type := mkPull { pl_state : string; pl_error : option string; pl_digest : option string }.

Inductive pull_end : Type :=
  | Pulled (digest : string)
  | PullFailed (message : string)
  | PullLost (f : failure)
  | PullPanics                                                   (* the digest of a completed job is nil *)
  | StillPulling.

(** One poll every half second, without end: [polls] are those that happen. *)
(* @src cmd/nanofuse/main.go:317-351 imagePullCmd *)
Fixpoint wait_for_pull (polls : list (answer pull_job)) : pull_end :=
  match polls with
  | [] => StillPulling
  | Failed f :: _ => PullLost f
  | Answer job :: polls =>
      if String.eqb (pl_state job) "completed" then match pl_digest job with Some d => Pulled d | None => PullPanics end
      else if String.eqb (pl_state job) "failed" then PullFailed (default "Pull failed" (pl_error job))
      else wait_for_pull polls
  end.

(** * Following the console of a VM *)

Definition newline : ascii := "010".

(** [strings.TrimRight(s, "\n")]. *)
Definition trim_newlines (s : string) : string := string_rev (trim_left [String newline ""] (string_rev s)).

(* @src cmd/nanofuse/main.go:1221-1236 streamVMLogs *)
Definition initial_output (initialTail : Z) (logs : string) : string :=
  if (0 <? initialTail)%Z && negb (String.eqb logs "") then
    let trimmed := trim_newlines logs in
    if String.eqb trimmed "" then ""
    else
      let lines := split_on newline trimmed in
      if (initialTail <? Z.of_nat (length lines))%Z
      then join (String newline "") (drop (length lines - Z.to_nat initialTail) lines) +:+ String newline ""
      else logs
  else logs.

Definition drop_bytes (n : nat) (s : string) : string := String.substring n (String.length s - n) s.

(** What is printed from the polls on, when [lastSize] bytes have been seen; the loop
    ends with its context, after the last poll, or when the VM is gone. *)
(* @src cmd/nanofuse/main.go:1238-1280 streamVMLogs *)
Fixpoint follow (lastSize : nat) (polls : list (answer string)) : string :=
  match polls with
  | [] => ""
  | Failed (FClient cerr) :: polls => if String.eqb (cl_code cerr) "VM_NOT_FOUND" then "" else follow lastSize polls
  | Failed (FOther _) :: polls => follow lastSize polls
  | Answer currentLogs :: polls =>
      let currentSize := String.length currentLogs in
      if (currentSize <? lastSize)%nat then currentLogs +:+ follow currentSize polls
      else if (lastSize <? currentSize)%nat then drop_bytes lastSize currentLogs +:+ follow currentSize polls
      else follow lastSize polls
  end.

(* @func cmd/nanofuse/main.go streamVMLogs *)
Definition streamVMLogs (initialTail : Z) (first : answer string) (polls : list (answer string)) : failure + string :=
  match first with
  | Failed f => inl f
  | Answer logs => inr (initial_output initialTail logs +:+ follow (String.length logs) polls)
  end.

(** * What following prints *)

(** The contents that are read until the VM is gone. *)
Fixpoint contents (polls : list (answer string)) : list string :=
  match polls with
  | [] => []
  | Failed (FClient cerr) :: polls => if String.eqb (cl_code cerr) "VM_NOT_FOUND" then [] else contents polls
  | Failed (FOther _) :: polls => contents polls
  | Answer s :: polls => s :: contents polls
  end.

(** From one reading to the next, a console has been added to or has been started anew
    and is shorter. *)
Definition step_ok (s t : string) : Prop := (∃ more, t = s +:+ more) ∨ (String.length t < String.length s)%nat.
Fixpoint console (s : string) (readings : list string) : Prop :=
  match readings with [] => True | t :: readings => step_ok s t ∧ console t readings end.

(** The whole text of the console: each content before it was started anew, and the
    last one. *)
Fixpoint whole_text (s : string) (readings : list string) : string :=
  match readings with
  | [] => s
  | t :: readings => if (String.length t <? String.length s)%nat then s +:+ whole_text t readings else whole_text t readings
  end.

Lemma drop_bytes_app s t : drop_bytes (String.length s) (s +:+ t) = t.
Proof.
  unfold drop_bytes. induction s as [|a s IH].
  - change ("" +:+ t) with t. cbn [String.length]. rewrite Nat.sub_0_r. induction t as [|a t IH]; [done|]. cbn. by rewrite IH.
  - rewrite string_app_cons. exact IH.
Qed.

(** following a console prints all of its text, each byte once and in order, however
    the polls fall and whichever of them fail: what has been added since the last reading
    is printed, and a console that was started anew is printed from its beginning. *)
Theorem following_prints_the_console initialTail logs polls :
  (initialTail ≤ 0)%Z → console logs (contents polls) →
  streamVMLogs initialTail (Answer logs) polls = inr (whole_text logs (contents polls)).
Proof.
  intros Ht Hc. unfold streamVMLogs, initial_output. assert ((0 <? initialTail)%Z = false) as -> by lia. cbn [andb]. f_equal.
  revert logs Hc. induction polls as [|[t|[cerr|err]] polls IH]; intros logs Hc; cbn [follow contents] in *.
  - apply string_app_nil_r.
  - destruct Hc as [Hstep Hc]. cbn [whole_text]. destruct (Nat.ltb_spec (String.length t) (String.length logs)) as [Hlt|Hge]; [by rewrite IH|].
    destruct Hstep as [[more ->]|]; [|lia]. destruct (Nat.ltb_spec (String.length logs) (String.length (logs +:+ more))) as [Hlt|Hle].
    + rewrite drop_bytes_app, <- string_app_assoc. by apply IH.
    + rewrite string_app_length in Hle. destruct more; [|cbn in Hle; lia]. rewrite string_app_nil_r in *. by apply IH.
  - destruct (String.eqb _ _); [apply string_app_nil_r|by apply IH].
  - by apply IH.
Qed.

Definition gone : answer string := Failed (FClient (mkClientError 404 "VM_NOT_FOUND" "" None)).

Lemma following_prints_the_console_witness :
  streamVMLogs 0 (Answer "boot") [Answer "boot."; Failed (FOther (ErrorsNew "timeout")); Answer "boot. login"; Answer "new"; gone; Answer "x"]
  = inr "boot. loginnew".
Proof.
  apply (following_prints_the_console 0 "boot"); [done|]. repeat split; first [left; by eexists | right; vm_compute; lia].
Defined.

(** The last lines are printed with a newline that the console may not have written, and
    a console that was started anew and has grown past what was read is taken for the
    old one. *)
Example following_ex :
  streamVMLogs 1 (Answer ("a" +:+ String newline "b")) [Answer ("a" +:+ String newline "bc")] = inr ("b" +:+ String newline "c") ∧
  streamVMLogs 0 (Answer "old") [Answer "fresh"] = inr "oldsh".
Proof. by vm_compute. Qed.

(** What follows the digits of a port is not looked at, nor a second protocol. *)
Example loose_port_forward :
  parsePortForward "8080abc:80/tcp/udp" = Ok (mkPF 8080 80 "tcp") ∧ parsePortForward "-1:80" = Err (Errorf "invalid host port %d in %q: must be 1-65535" [AInt (-1); AStr "-1:80"]).
Proof. by vm_compute. Qed.

(** The URL of the environment wins over a socket given as a flag. *)
Example environment_over_flag :
  let getenv name := if String.eqb name "NANOFUSE_API_URL" then "http://10.0.0.1:18080" else "" in
  (endpoint_of "linux" <$> (match applyClientEnvironment getenv (λ _, Err (ErrorsNew "")) "linux"
     (mkGlobals "" "" "/tmp/test.sock" (30 * 1000000000) false false false) with Ok g => Some g | Err _ => None end))
  = Some (inl "http://10.0.0.1:18080").
Proof. by vm_compute. Qed.
