(* ===== verification/ClientSpec.v ===== *)
(** The client and the daemon together: a request finds the handler it is meant for,
    and what the daemon answers is what the user is told. *)

From S2P Require Import Prelude GoStrings Paths GoUrl Json Spire Types Storage Server VmConfig VmLifecycle Routes Client Api CliErrors.

(** * Identifiers that stand for themselves in a URL *)

Definition safe_char (a : ascii) : bool := is_alnum a || one_of "-_.:" a.
Definition safe (id : string) : Prop := all_ascii safe_char id = true ∧ id ≠ "" ∧ id ≠ "." ∧ id ≠ "..".
Definition query_char (a : ascii) : bool := safe_char a || Ascii.eqb a "=".
Definition path_ok (a : ascii) : bool := safe_char a || Ascii.eqb a slash.

(** The operation names its objects safely. *)
Definition op_safe (o : operation) : Prop := Forall safe (op_segments o) ∧ all_ascii query_char (op_query o) = true.

Lemma safe_plain id : safe id → plain id.
Proof. intros (Hc & ?&?&?). split_and!; try done. by apply (all_ascii_no_char safe_char). Qed.

Lemma path_ok_plain a : path_ok a = true → negb (is_ctl a) = true.
Proof. by class_cases a. Qed.
Lemma query_char_plain a : query_char a = true → negb (is_ctl a) = true.
Proof. by class_cases a. Qed.
Lemma path_ok_url a : path_ok a = true → path_char a || one_of "!'()*[]%" a = true.
Proof. by class_cases a. Qed.

Lemma render_ok segs : Forall safe segs → all_ascii path_ok (path_render true segs) = true.
Proof.
  intros Hs. unfold path_render. change ("/" +:+ ?x) with (String slash x). cbn [all_ascii]. rewrite andb_true_iff. split; [done|].
  apply (all_ascii_join _ slash); [done|]. eapply Forall_impl; [exact Hs|]. intros s [Hc _].
  eapply all_ascii_impl; [|exact Hc]. intros a Ha. unfold path_ok. by rewrite Ha.
Qed.

Definition query_part (query : string) : string := if String.eqb query "" then "" else "?" +:+ query.

Lemma op_path_eq o : op_path o = path_render true (op_segments o) +:+ query_part (op_query o).
Proof.
  unfold query_part. destruct o; cbn [op_path op_segments op_query]; try (rewrite ?string_app_nil_r; reflexivity).
  - destruct (String.eqb state ""); [by rewrite string_app_nil_r|done].
  - destruct (0 <? tail)%Z; [|by rewrite !string_app_nil_r].
    change (path_render true ["vms"; id; "logs"]) with ("/vms/" +:+ id +:+ "/logs"). by rewrite !string_app_assoc.
Qed.

(** * The URL of a request *)

Lemma url_of_path ip segs query : Forall safe segs → all_ascii query_char query = true →
  url_parse ip ("http://unix" +:+ path_render true segs +:+ query_part query)
  = Some (mkURL "http" "" None "unix" (path_render true segs) (path_render true segs) query "").
Proof.
  intros Hs Hq. pose proof (render_ok segs Hs) as Hp. set (p := path_render true segs) in *.
  assert (no_char "#" (p +:+ query_part query) ∧ all_ascii (λ a, negb (is_ctl a)) (p +:+ query_part query) = true) as [Hh Hc].
  { assert (no_char "#" (query_part query) ∧ all_ascii (λ a, negb (is_ctl a)) (query_part query) = true) as [??].
    { unfold query_part. destruct (String.eqb query ""); [done|]. change ("?" +:+ query) with (String "?" query).
      rewrite no_char_cons. split; [split; [done|by apply (all_ascii_no_char query_char)]|]. cbn [all_ascii]. rewrite andb_true_iff. split; [done|].
      by eapply all_ascii_impl; [apply query_char_plain|]. }
    rewrite no_char_app, all_ascii_app, andb_true_iff. split_and!; try done; [by apply (all_ascii_no_char path_ok)|].
    by eapply all_ascii_impl; [apply path_ok_plain|]. }
  unfold url_parse. rewrite cut_no_char by (apply no_char_app; by split). cbn [default unescape].
  unfold parse_no_fragment. rewrite all_ascii_app, Hc. change (negb (all_ascii _ "http://unix" && true)) with false. cbn iota.
  change (String.eqb ("http://unix" +:+ _) "*") with false. cbn iota.
  change (scheme_loop true ("http://unix" +:+ ?x)) with (Scheme "http" ("//unix" +:+ x)). cbn iota. change (to_lower "http") with "http".
  assert (cut_query ("//unix" +:+ p +:+ query_part query) = ("//unix" +:+ p, query)) as ->.
  { unfold cut_query, query_part. assert (no_char "?" ("//unix" +:+ p)) as Hn by (apply no_char_app; split; [done|by apply (all_ascii_no_char path_ok)]).
    destruct (String.eqb_spec query "") as [->|]; [by rewrite string_app_nil_r, cut_no_char|].
    change ("?" +:+ query) with (String "?" query). by rewrite <- string_app_assoc, cut_at. }
  change (has_prefix "/" ("//unix" +:+ p)) with true. change (has_prefix "//" ("//unix" +:+ p)) with true. cbn [negb andb orb String.eqb Ascii.eqb Bool.eqb].
  change (trim_prefix "//" ("//unix" +:+ p)) with ("unix" +:+ p). unfold p, path_render at 1. change ("/" +:+ ?x) with (String slash x).
  rewrite (cut_at slash "unix") by done. change (parse_authority ip "unix") with (Some (None : option string, "unix")). cbn iota.
  unfold with_path. cbn [u_scheme u_opaque u_user u_host u_query u_fragment].
  change (String slash (join "/" segs)) with p. change (String "/" (join "/" segs)) with p. rewrite unescape_plain; [done|]. by apply (all_ascii_no_char path_ok).
Qed.

(** * The path on the other side *)

Lemma has_suffix_last p t : t ≠ "" → has_suffix "/" (p +:+ t) = has_suffix "/" t.
Proof.
  intros Ht. unfold has_suffix. rewrite string_rev_app_distr. destruct (string_rev t) as [|a s] eqn:E.
  { apply (f_equal string_rev) in E. by rewrite string_rev_involutive in E. }
  rewrite string_app_cons. change (string_rev "/") with "/". unfold has_prefix. cbn [String.prefix].
  by destruct (ascii_dec "/" a), s, (string_rev p).
Qed.

Lemma no_slash_suffix t : no_char slash t → t ≠ "" → has_suffix "/" t = false.
Proof.
  intros Hc Ht. destruct (has_suffix "/" t) eqn:E; [|done]. unfold has_suffix in E. apply has_prefix_iff in E as [r Hr].
  apply (f_equal string_rev) in Hr. rewrite string_rev_involutive, string_rev_app_distr in Hr. subst t.
  apply no_char_app in Hc as [_ Hc]. discriminate Hc.
Qed.

Lemma render_suffix segs : Forall plain segs → segs ≠ [] → has_suffix "/" (path_render true segs) = false.
Proof.
  intros Hs Hne. destruct segs as [|x segs _] using rev_ind; [done|]. apply Forall_app in Hs as [_ Hx].
  apply Forall_singleton in Hx as (Hne' & _ & _ & Hc). unfold path_render.
  assert (∃ a, "/" +:+ join "/" (segs ++ [x]) = a +:+ x) as [a ->]; [|rewrite has_suffix_last by done; by apply no_slash_suffix].
  destruct segs as [|y segs]; [by exists "/"|]. rewrite join_append by done. change (join "/" [x]) with x.
  exists ("/" +:+ join "/" (y :: segs) +:+ "/"). by rewrite !string_app_assoc.
Qed.

Lemma clean_path_render segs : Forall plain segs → segs ≠ [] → clean_path (path_render true segs) = path_render true segs.
Proof.
  intros Hs Hne. unfold clean_path. pose proof (is_rooted_render segs) as Hr. unfold is_rooted in Hr. rewrite Hr, render_suffix by done.
  cbn [andb]. unfold path_clean. by rewrite is_rooted_render, path_elements_render.
Qed.

Lemma path_segments_render segs : Forall safe segs → segs ≠ [] → path_segments (path_render true segs) = segs.
Proof.
  intros Hs Hne. assert (Forall plain segs) as Hp by (eapply Forall_impl; [exact Hs|apply safe_plain]).
  unfold path_segments. rewrite split_on_render by done. cbn [tail].
  assert ((λ s, default s (unescape s)) <$> segs = segs) as Hu.
  { clear Hne Hp. induction Hs as [|s segs [Hc _] _ IH]; [done|]. rewrite fmap_cons, IH, unescape_plain; [done|]. by apply (all_ascii_no_char safe_char). }
  destruct (last segs) as [l|] eqn:El; [|done]. apply last_Some in El as [segs' ->]. apply Forall_app in Hp as [_ Hl].
  apply Forall_singleton in Hl as [Hl _]. by destruct l.
Qed.

(** One step of the multiplexer, by a literal or by a wildcard. *)
Lemma by_literal ps s path r : match_path (after_lit s ps) path = Some r → match_path ps (s :: path) = Some r.
Proof. intros H. cbn [match_path]. by rewrite H. Qed.

Lemma by_wildcard ps s path h values : no_char slash s → match_path (after_lit s ps) path = None →
  match_path (after_wild ps) path = Some (h, values) → match_path ps (s :: path) = Some (h, s :: values).
Proof.
  intros Hs Hl Hw. cbn [match_path]. rewrite Hl, Hw. destruct (String.eqb_spec s "/") as [->|]; [discriminate Hs|done].
Qed.

Lemma dispatch_of_match rs method path h values : match_path (patterns_of method rs) path = Some (h, values) →
  dispatch rs method path = Handled h values.
Proof. intros H. unfold dispatch, match_method. by rewrite H. Qed.

(** The handler of the route, whatever the identifiers are. *)
Lemma op_dispatch o : Forall plain (op_segments o) →
  dispatch setupHTTPRouter (op_method o) (op_segments o) = Handled (fst (op_handler o)) (snd (op_handler o)).
Proof.
  intros Hs. apply dispatch_of_match.
  assert (Forall (no_char slash) (op_segments o)) as Hc by (eapply Forall_impl; [exact Hs|]; by intros ? (?&?&?&?)). clear Hs.
  destruct o; cbn [op_segments op_handler op_method fst snd] in *; try reflexivity;
    apply Forall_cons in Hc as [_ [Hc Hc']%Forall_cons]; apply by_literal.
  all: try (apply by_wildcard; [exact Hc|reflexivity|reflexivity]).
  - apply by_wildcard; [exact Hc| |reflexivity].
    let x := eval vm_compute in (after_lit "images" (patterns_of "GET" setupHTTPRouter)) in change (after_lit "images" _) with x.
    cbn [after_lit omap list_omap]. by destruct (String.eqb "jobs" digest).
  - apply by_literal, by_wildcard; [by apply Forall_cons in Hc' as [? _]|reflexivity|reflexivity].
Qed.

Lemma op_segments_nonempty o : op_segments o ≠ [].
Proof. by destruct o. Qed.

Lemma op_served o query body : op_safe o →
  serve_mux (mkRequest (op_method o) (path_render true (op_segments o)) query body) = Routed (fst (op_handler o)) (snd (op_handler o)).
Proof.
  intros [Hs _]. assert (Forall plain (op_segments o)) as Hp by (eapply Forall_impl; [exact Hs|apply safe_plain]).
  pose proof (op_segments_nonempty o) as Hne. unfold serve_mux. cbn [rq_path rq_method].
  assert (String.eqb (path_render true (op_segments o)) "" = false) as -> by done.
  rewrite clean_path_render, String.eqb_refl, path_segments_render, op_dispatch by done. done.
Qed.

(** * The answers on the wire *)

(* @src internal/types/errors.go:9-31 ErrorCode *)
Definition wire_code (code : ErrorCode) : string :=
  match code with
  | ErrInvalidRequest => "INVALID_REQUEST" | ErrUnauthorized => "UNAUTHORIZED" | ErrInvalidConfig => "INVALID_CONFIG"
  | ErrRegistryAuthFailed => "REGISTRY_AUTH_FAILED" | ErrVMNotFound => "VM_NOT_FOUND" | ErrImageNotFound => "IMAGE_NOT_FOUND"
  | ErrSnapshotNotFound => "SNAPSHOT_NOT_FOUND" | ErrRecordingNotFound => "RECORDING_NOT_FOUND"
  | ErrInvalidStateTransition => "INVALID_STATE_TRANSITION" | ErrVMLocked => "VM_LOCKED" | ErrResourceInUse => "RESOURCE_IN_USE"
  | ErrValidationError => "VALIDATION_ERROR" | ErrResourceLimitExceeded => "RESOURCE_LIMIT_EXCEEDED"
  | ErrSnapshotIncompatible => "SNAPSHOT_INCOMPATIBLE" | ErrInternalError => "INTERNAL_ERROR"
  | ErrServiceUnavailable => "SERVICE_UNAVAILABLE" | ErrUnsupportedOperation' => "UNSUPPORTED_OPERATION"
  | ErrInsufficientStorage => "INSUFFICIENT_STORAGE" | ErrNotFound => "NOT_FOUND"
  end.

Section Wire.
Context `{CE : ClientEnv} (enc : body → json).

Definition arg_json (a : arg) : json :=
  match a with AStr s => JStr s | AInt z => JNum z | ABool b => JBool b | AShow e | AWrap e => JStr (ce_text e) end.

(* @func internal/types/errors.go NewAPIError *)
Definition error_json (code : ErrorCode) (msg : message) (details : list (string * arg)) : json :=
  enc_struct [f_any "error" (enc_struct
    [ f_str "code" (wire_code code); f_str "message" (ce_text msg);
      ("details", match details with [] => None | _ => Some (JObj (prod_map id arg_json <$> details)) end) ])].

(** The JSON document of a body. *)
Definition body_json (b : body) : option json :=
  match b with BNone | BText _ => None | BError code msg details => Some (error_json code msg details) | _ => Some (enc b) end.

Definition wire (r : response) : reply :=
  mkReply (rs_status r) None
    (Ok match rs_body r with
        | BText s => s
        | b => match body_json b with Some j => ce_Marshal j | None => "" end
        end).

(** What is lost of an operation that is performed. *)
Definition failed {A} (a : answer A) : option failure := match a with Answer _ => None | Failed f => Some f end.

Definition perform (o : operation) : option failure :=
  match o with
  | DeleteVM _ | DeleteSnapshot _ | DeleteImage _ => failed (delete (op_path o))
  | GetVMLogs id tail => failed (getVMLogs id tail)
  | _ => failed (call (λ _, Some tt) o)
  end.

(** The statuses that the client takes for a success. *)
Definition accepted (o : operation) (status : Z) : bool :=
  match o with
  | PullImage _ => existsb (Z.eqb status) [202; 201]%Z
  | _ => match op_method o with
         | "POST" => existsb (Z.eqb status) [200; 201]%Z
         | "DELETE" => existsb (Z.eqb status) [204; 200]%Z
         | _ => (status =? 200)%Z
         end
  end.

(** What the daemon receives of an operation. *)
Definition request_of (o : operation) : request :=
  mkRequest (op_method o) (path_render true (op_segments o)) (op_query o) (ce_Marshal <$> op_body o).

Definition handled (o : operation) : reply := ce_handle (fst (op_handler o)) (snd (op_handler o)) (request_of o).

Lemma send_op o : ce_base = "http://unix" → ce_connect = None → op_safe o → rp_location (handled o) = None →
  send (op_method o) (op_path o) (ce_Marshal <$> op_body o) = Ok (handled o).
Proof.
  intros Hb Hc Ho Hl. pose proof Ho as [Hs Hq]. unfold send. rewrite Hb, op_path_eq, url_of_path by done.
  unfold escaped_path, valid_encoded. cbn [u_raw_path u_query].
  rewrite (all_ascii_impl path_ok) by (apply path_ok_url || by apply render_ok).
  cbn [http_Do]. unfold round_trip. rewrite Hc, op_served by done. unfold handled, request_of in Hl. by rewrite Hl.
Qed.

Definition reads_json (o : operation) : bool :=
  match o with DeleteVM _ | DeleteSnapshot _ | DeleteImage _ | GetVMLogs _ _ => false | _ => true end.

Lemma perform_refused o rp : send (op_method o) (op_path o) (ce_Marshal <$> op_body o) = Ok rp →
  accepted o (rp_status rp) = false → perform o = Some (handleError rp).
Proof.
  intros Hs Ha. destruct o; cbn [op_method op_body fmap option_fmap option_map] in Hs; unfold accepted in Ha; cbn [op_method existsb] in Ha;
    unfold perform, delete, getVMLogs, call, get; cbn [op_method op_body]; unfold postWithStatus; cbn [fmap option_fmap option_map];
    rewrite Hs; rewrite ?orb_false_r, ?orb_false_iff in Ha; 
    match type of Ha with _ ∧ _ => destruct Ha as [Ha1 Ha2]; rewrite Ha1, Ha2 | _ => rewrite Ha end; reflexivity.
Qed.

Lemma perform_accepted o rp text : send (op_method o) (op_path o) (ce_Marshal <$> op_body o) = Ok rp →
  accepted o (rp_status rp) = true → rp_body rp = Ok text → (reads_json o = true → is_Some (ce_Decode text)) → perform o = None.
Proof.
  intros Hs Ha Hb Hj. destruct o; cbn [op_method op_body fmap option_fmap option_map] in Hs; unfold accepted in Ha; cbn [op_method existsb] in Ha;
    unfold perform, delete, getVMLogs, call, get; cbn [op_method op_body]; unfold postWithStatus; cbn [fmap option_fmap option_map];
    rewrite Hs; rewrite ?orb_false_r in Ha; rewrite <- ?negb_orb, ?Ha; cbn [negb]; unfold decode; rewrite ?Hb;
    try reflexivity; destruct (Hj eq_refl) as [j ->]; reflexivity.
Qed.
Lemma success_accepted o r : success o r = true →
  accepted o (rs_status r) = true ∧ (reads_json o = true → is_Some (body_json (rs_body r))).
Proof.
  intros Hs. unfold success in Hs. unfold accepted.
  destruct o, (rs_body r); try discriminate Hs; cbn [op_method existsb body_json reads_json] in *;
    rewrite ?orb_false_r, ?orb_true_iff in *; rewrite ?Hs; split; try done; eauto; try tauto.
Qed.

Lemma refused_not_accepted o code status : existsb (Z.eqb status) (statuses code) = true → accepted o status = false.
Proof.
  intros Hs. assert (400 ≤ status)%Z as Hin.
  { apply existsb_exists in Hs as (s & Hs & ->%Z.eqb_eq). destruct code; cbn [statuses In] in Hs; lia. }
  unfold accepted. destruct o; cbn [op_method existsb]; lia.
Qed.

Lemma error_json_read code msg details : dec_api_error (error_json code msg details)
  = Some (wire_code code, ce_text msg, match details with [] => None | _ => Some (prod_map id arg_json <$> details) end).
Proof. unfold error_json. by destruct details. Qed.

(** The exit code goes by the status, also where the code is looked at. *)
Lemma exit_code_of_status code msg details status operation resource :
  existsb (Z.eqb status) (statuses code) = true →
  ExitCode' (FromClientError (mkClientError status (wire_code code) msg details) operation resource)
  = ExitCode (mkClientError status (wire_code code) msg details).
Proof. intros Hs. destruct code; try discriminate Hs; cbn in Hs; rewrite ?orb_false_r in Hs; try (apply Z.eqb_eq in Hs as ->); reflexivity. Qed.

(** Over the daemon's socket, an operation whose identifiers are letters, digits and
    "-_.:" reaches the handler it is meant for, with these identifiers and its query and
    body: the path is neither changed by the URL's syntax nor cleaned into another one,
    and no other route takes it. *)
Theorem request_reaches_its_handler o : ce_base = "http://unix" → ce_connect = None → op_safe o →
  rp_location (handled o) = None →
  send (op_method o) (op_path o) (ce_Marshal <$> op_body o)
  = Ok (ce_handle (fst (op_handler o)) (snd (op_handler o))
      (mkRequest (op_method o) (path_render true (op_segments o)) (op_query o) (ce_Marshal <$> op_body o))).
Proof. exact (send_op o). Qed.

(** C32: What the daemon answers is what the user is told, of an operation over the
    daemon's socket that connects, names its objects safely ([op_safe]: every
    identifier is made of letters, digits and "-_.:" and is not empty, "." or "..",
    and the query is made of these characters and "="; an identifier such as "./id1"
    need not reach its handler), and whose handler writes the answer of [serve] in
    the state [w] of the daemon.  A refusal then reaches the command line as an error
    with the daemon's status, code, text and details, and the exit code of the
    command is the one of the status, whichever of the suggestions is shown; any
    other answer is taken for a success.  Of the JSON library it is assumed that the
    document of this answer is read back as it was written. *)
Theorem user_is_told `{E : Env} dec_create dec_exec dec_snapshot provider health capabilities o w :
  let r := fst (serve dec_create dec_exec dec_snapshot provider health capabilities o w) in
  ce_base = "http://unix" → ce_connect = None → op_safe o → handled o = wire r →
  (∀ j, body_json (rs_body r) = Some j → ce_Unmarshal (ce_Marshal j) = Some j ∧ ce_Decode (ce_Marshal j) = Some j) →
  match rs_body r with
  | BError code msg details =>
      let e := mkClientError (rs_status r) (wire_code code) (ce_text msg)
        (match details with [] => None | _ => Some (prod_map id arg_json <$> details) end) in
      perform o = Some (FClient e) ∧
      ∀ apiURL apiSocket socket operation resource,
        ExitCode' (handleAPIErrorWithResource apiURL apiSocket socket (FClient e) operation resource) = ExitCode e
  | _ => perform o = None
  end.
Proof.
  intros r Hb Hc Ho Hw Hj. pose proof (serve_types dec_create dec_exec dec_snapshot provider health capabilities o w) as Ht.
  cbn beta in Ht. fold r in Ht. clearbody r. pose proof (send_op o Hb Hc Ho) as Hs. rewrite Hw in Hs. specialize (Hs eq_refl).
  destruct (match rs_body r with BError _ _ _ => true | _ => false end) eqn:Eb.
  - unfold well_typed in Ht. unfold wire in Hs. destruct (rs_body r) as [| | | | | | | | | | |code msg details]; try discriminate Eb.
    split; [|intros; by apply exit_code_of_status]. rewrite (perform_refused _ _ Hs) by by eapply refused_not_accepted.
    unfold handleError. cbn [rp_body body_json rp_status]. destruct (Hj _ eq_refl) as [-> _]. cbn [mbind option_bind].
    by rewrite error_json_read.
  - enough (perform o = None) by (by destruct (rs_body r)).
    assert (success o r = true) as [Ha Hr]%success_accepted by (unfold well_typed in Ht; by destruct (rs_body r)).
    eapply perform_accepted; [exact Hs|done|reflexivity|]. intros [j Ej]%Hr.
    destruct (Hj j Ej) as [_ Hd]. exists j. rewrite <- Hd. f_equal. revert Ej. destruct (rs_body r); by intros [= <-].
Qed.

End Wire.

(** * Concrete exchanges *)

Definition first_text (e : error) : string := match e with ErrorsNew m => m | Errorf f _ => f | ErrStruct n _ => n end.

(** A daemon whose documents are all [doc]. *)
Definition client_of (doc : json) (handle : handler → list string → request → reply) : ClientEnv := {|
  ce_base := "http://unix"; ce_ip_literal _ := false; ce_text := first_text; ce_Marshal _ := "doc"; ce_Unmarshal _ := Some doc;
  ce_Decode _ := Some doc; ce_connect := None; ce_handle := handle |}.

Definition refused_start : json := JObj [("error", JObj
  [("code", JStr "INVALID_STATE_TRANSITION"); ("message", JStr "Cannot start VM in state '%s'");
   ("details", JObj [("current_state", JStr "paused")])])].

Definition refusing_client : ClientEnv := client_of refused_start (λ _ _ _, mkReply 409 None (Ok "doc")).

Lemma request_reaches_its_handler_witness :
  send (CE := refusing_client) "POST" "/vms/id-1/stop" (Some "doc")
  = Ok (ce_handle (ClientEnv := refusing_client) handleVMStopByPath ["id-1"] (mkRequest "POST" "/vms/id-1/stop" "" (Some "doc"))).
Proof.
  apply (request_reaches_its_handler (CE := refusing_client) (StopVM "id-1" 5)); try reflexivity.
  split; [|reflexivity]. repeat constructor; discriminate.
Defined.

(** A start that is refused: the user reads the state of the VM, and the command exits
    with 5. *)
Lemma user_is_told_witness :
  perform (CE := refusing_client) (StartVM "id1")
  = Some (FClient (mkClientError 409 "INVALID_STATE_TRANSITION" "Cannot start VM in state '%s'" (Some [("current_state", JStr "paused")]))) ∧
  ExitCode' (handleAPIErrorWithResource (CE := refusing_client) "" "" "/run/nanofused.sock"
    (FClient (mkClientError 409 "INVALID_STATE_TRANSITION" "Cannot start VM in state '%s'" (Some [("current_state", JStr "paused")])))
    "start VM" "id1") = 5%Z.
Proof.
  destruct (user_is_told (CE := refusing_client) (λ _, JNull) (E := example_env) (λ _, None) (λ _, None) (λ _, NoBody) None JNull JNull
    (StartVM "id1") (example_world StatePaused)) as [Hp He]; try reflexivity.
  - split; [|reflexivity]. repeat constructor; discriminate.
  - intros j [= <-]. split; reflexivity.
  - split; [exact Hp|apply He].
Defined.

(** A handler that answers GET with a VM and would delete it on DELETE. *)
Definition finding_client : ClientEnv :=
  client_of (JObj []) (λ h _ _, match h with handleGetVMByPath => mkReply 200 None (Ok "doc") | _ => mkReply 500 None (Ok "doc") end).

(** Identifiers are not escaped: with one that is not clean the DELETE is redirected,
    arrives as a GET and counts as a success, and nothing has been deleted. *)
Example unclean_id_is_not_deleted :
  delete (CE := finding_client) (op_path (DeleteVM "./id1")) = Answer tt ∧
  perform (CE := finding_client) (DeleteVM "id1") ≠ None.
Proof. by split; vm_compute. Qed.

(** An image reference with a slash, which the command line takes, finds no handler of
    images. *)
Example image_reference_is_not_routed :
  let path := path_segments (op_path (GetImage "ghcr.io/daax-dev/nanofuse/base:latest")) in
  dispatch setupHTTPRouter "GET" path = Handled handleRoot [] ∧ dispatch setupHTTPRouter "DELETE" path = MethodNotAllowed ["GET"].
Proof. vm_compute. done. Qed.

(** The states that a request needs are not among the details that the daemon sends:
    the user of a stopped VM that cannot be paused is told that it must be stopped. *)
Example suggestion_of_the_state_it_has :
  Suggestion (FromClientError (mkClientError 409 "INVALID_STATE_TRANSITION" "" (Some [("current_state", JStr "stopped")])) "pause VM" "id1")
  = "VM must be in 'running' or 'stopped' state. Check status: nanofuse vm status id1".
Proof. reflexivity. Qed.

(** Digits in a name count as a status of HTTP. *)
Example timeout_is_not_authentication :
  let e := FOther (ErrorsNew "request failed: Post http://unix/vms/build-401/stop: context deadline exceeded") in
  (Message (FromError (CE := finding_client) e "stop VM" "build-401"), ExitCode' (FromError (CE := finding_client) e "stop VM" "build-401"))
  = ("Authentication failed for registry: docker.io", 2%Z).
Proof. vm_compute. done. Qed.

(** The registry of the error is the whole reference of the image. *)
Example login_to_an_image :
  Suggestion (FromClientError (mkClientError 401 CodeAuthFailed "" None) "pull image" "ghcr.io/daax-dev/nanofuse/base:latest")
  = "Run 'docker login ghcr.io/daax-dev/nanofuse/base:latest' to authenticate" ∧
  extractRegistry "ghcr.io/daax-dev/nanofuse/base:latest" = "ghcr.io".
Proof. vm_compute. done. Qed.
