(* ===== verification/TrayApp.v ===== *)
(** The tray application (src/internal/trayapp/app.go, src/cmd/nanofuse-tray:
    tray_desktop.go and the prompts): a menu of the daemon's VMs and images, whose items
    start, stop, kill and delete them.

    First what it does with the API, as a state monad over the calls that were made; then
    the menu, whose goroutines share one lock.  A region under the lock is one step; a
    goroutine that waits, for the API, for the prompt or for a timer, is a task.  The
    systray library, the signal handling and the icon are left out, and so is the end of
    the program, which ends every goroutine. *)

From S2P Require Import Prelude GoStrings GoNet Json Types Client.

(** * The API *)

(* @type internal/client/types.go VM *)
Record ClientVM : Type := mkClientVM {
  cv_id : string; cv_name : string; cv_state : string; cv_image : string; cv_digest : string; cv_arch : string;
  cv_config : VMConfig; cv_runtime : option VMRuntime }.

(** Of the other documents what is shown: of the health the status, of the capabilities
    those of the runtime. *)
Record RuntimeCapabilities : Type := mkCaps { NativeRuntime : bool; Message : string }.
Record ClientImage : Type := mkClientImage { ci_digest : string; ci_tags : list string }.

(** What an operation gives; a nil pointer where the code expects one is [None]. *)
Definition response (o : operation) : Type :=
  match o with
  | Health => string
  | Capabilities => RuntimeCapabilities
  | ListVMs _ => option (list ClientVM)
  | ListImages => option (list ClientImage)
  | CreateVM _ | StartVM _ | StopVM _ _ | KillVM _ => option ClientVM
  | PullImage _ => option string
  | _ => unit
  end.

Record TWorld : Type := mkTWorld { tw_calls : list operation; tw_tick : nat }.
Definition TM (A : Type) : Type := State TWorld A.

Class TrayEnv : Type := {
  te_answer : nat → ∀ o, result (response o);
  te_text : error → string;                       (* [err.Error()] *)
  te_random : nat → result (list Z);              (* three random bytes *)
  te_stamp : nat → string;                        (* the clock to the base of 36 *)
  te_clock : nat → Z;
  te_goos : string }.

(** * Configuration *)

Definition DefaultAPIURL : string := "http://127.0.0.1:18080".
Definition DefaultAPISocketPath : string := "/var/run/nanofused.sock".
Definition DefaultStopTimeoutSeconds : Z := 30.
Definition DefaultTimeout : Z := ((DefaultStopTimeoutSeconds + 15) * 1000000000)%Z.

(* @type internal/trayapp/app.go Config *)
Record Config : Type := mkTrayConfig { APIURL : string; APISocket : string; Timeout : Z; Debug : bool }.

(* @func internal/trayapp/app.go firstNonEmpty *)
Fixpoint firstNonEmpty (values : list string) : string :=
  match values with
  | [] => ""
  | value :: values => if String.eqb (trim_space value) "" then firstNonEmpty values else trim_space value
  end.

(* @func internal/trayapp/app.go truthy *)
Definition truthy (value : string) : bool := bool_decide (to_lower (trim_space value) ∈ ["1"; "true"; "yes"; "on"]).

(* @func internal/trayapp/app.go defaultEndpointForOS *)
Definition defaultEndpointForOS (goos : string) : string * string :=
  if String.eqb goos "windows" then (DefaultAPIURL, "") else ("", DefaultAPISocketPath).

(* @func internal/trayapp/app.go Normalize *)
Definition Normalize (goos : string) (c : Config) : Config :=
  let timeout := if (Timeout c <=? 0)%Z then DefaultTimeout else Timeout c in
  let '(url, socket) := if String.eqb (APIURL c) "" && String.eqb (APISocket c) "" then defaultEndpointForOS goos else (APIURL c, APISocket c) in
  mkTrayConfig url socket timeout (Debug c).

(* @func internal/trayapp/app.go ConfigFromEnv *)
Definition ConfigFromEnv (Getenv : string → string) (ParseDuration : string → result Z) (goos : string) : Config :=
  let value := firstNonEmpty [Getenv "NANOFUSE_TRAY_TIMEOUT"; Getenv "NANOFUSE_TIMEOUT"] in
  let timeout := if String.eqb value "" then DefaultTimeout else match ParseDuration value with Ok d => d | Err _ => DefaultTimeout end in
  Normalize goos (mkTrayConfig
    (firstNonEmpty [Getenv "NANOFUSE_TRAY_API_URL"; Getenv "NANOFUSE_API_URL"])
    (firstNonEmpty [Getenv "NANOFUSE_TRAY_API_SOCKET"; Getenv "NANOFUSE_API_SOCKET"]) timeout
    (truthy (firstNonEmpty [Getenv "NANOFUSE_TRAY_DEBUG"; Getenv "NANOFUSE_DEBUG"]))).

(* @func internal/trayapp/app.go Endpoint *)
Definition Endpoint (goos : string) (c : Config) : string :=
  let cfg := Normalize goos c in if String.eqb (APIURL cfg) "" then "unix://" +:+ APISocket cfg else APIURL cfg.

(** The URL the client is for, or the socket. *)
(* @func internal/trayapp/app.go NewClient *)
Definition NewClient (goos : string) (c : Config) : string + string :=
  let cfg := Normalize goos c in if String.eqb (APIURL cfg) "" then inr (APISocket cfg) else inl (APIURL cfg).

(** * Names *)

(** [strings.Trim(s, "-")]. *)
Definition trim_dashes (s : string) : string := string_rev (trim_left ["-"] (string_rev (trim_left ["-"] s))).

(* @func internal/trayapp/app.go limitName *)
Definition limitName (value : string) (maxLen : nat) : string :=
  if (String.length value <=? maxLen)%nat then value else trim_dashes (String.substring 0 maxLen value).

(** What comes before the last [c], and what comes after it. *)
Definition before_last (c : ascii) (s : string) : string :=
  match split_on c s with [_] => s | parts => join (String c "") (removelast parts) end.
Definition after_last (c : ascii) (s : string) : string := default s (last (split_on c s)).

Definition is_base (a : ascii) : bool :=
  let n := nat_of_ascii a in ((97 <=? n)%nat && (n <=? 122)%nat) || ((48 <=? n)%nat && (n <=? 57)%nat).

(** Each run of other characters becomes one dash; bytes stand for runes, since every
    byte of a longer rune is another character. *)
(* @src internal/trayapp/app.go:255-268 sanitizeImageName *)
Fixpoint dashed (lastDash : bool) (s : string) : string :=
  match s with
  | EmptyString => ""
  | String a s => if is_base a then String a (dashed false s) else if lastDash then dashed true s else String "-" (dashed true s)
  end.

(* @func internal/trayapp/app.go sanitizeImageName *)
Definition sanitizeImageName (imageRef : string) : string :=
  let imageRef := trim_space (to_lower imageRef) in
  if String.eqb imageRef "" then "image"
  else
    let base := trim_dashes (dashed false (after_last slash (before_last "@" imageRef))) in
    limitName (if String.eqb base "" then "image" else base) 26.

(* @type internal/trayapp/app.go Status *)
Record Status : Type := mkStatus {
  s_endpoint : string; s_checked : Z; s_health : option string; s_caps : option RuntimeCapabilities;
  s_vms : list ClientVM; s_images : list ClientImage; s_error : string }.

(* @type internal/trayapp/app.go VMAction *)
Inductive VMAction : Type := VMActionStart | VMActionStop | VMActionKill | VMActionDelete.
#[export] Instance VMAction_eq_dec : EqDecision VMAction.
Proof. solve_decision. Defined.

Definition action_text (a : VMAction) : string :=
  match a with VMActionStart => "start" | VMActionStop => "stop" | VMActionKill => "kill" | VMActionDelete => "delete" end.

Section Calls.
Context `{TE : TrayEnv}.

Definition api (o : operation) : TM (result (response o)) := λ w,
  (te_answer (tw_tick w) o, mkTWorld (tw_calls w ++ [o]) (S (tw_tick w))).
Definition tick {A} (f : nat → A) : TM A := λ w, (f (tw_tick w), mkTWorld (tw_calls w) (S (tw_tick w))).

(* @func internal/trayapp/app.go randomNameSuffix *)
Definition randomNameSuffix : TM string :=
  let* r := tick te_random in match r with Ok data => ret (hex_encode data) | Err _ => tick te_stamp end.

(* @func internal/trayapp/app.go GenerateVMName *)
Definition GenerateVMName (imageRef : string) : TM string :=
  let* suffix := randomNameSuffix in ret (limitName ("nf" +:+ "-" +:+ sanitizeImageName imageRef +:+ "-" +:+ suffix) 48).

(* @func internal/trayapp/app.go defaultLaunchPortForwards *)
Definition defaultLaunchPortForwards : list PortForward := [mkPF 0 8080 "tcp"].

(** The request of a launch, as its JSON: what is empty is left out. *)
(* @src internal/trayapp/app.go:186-197 LaunchVMFromImage *)
Definition launch_request (name imageRef : string) : json := enc_struct
  [ f_str_omit "name" name; f_str "image" imageRef;
    f_any "config" (enc_struct
      [ f_int "vcpus" 2; f_int "memory_mib" 512;
        f_any "network" (enc_struct [f_str "mode" "nat"; f_any "port_forwards" (JArr (enc_forward <$> defaultLaunchPortForwards))]) ]) ].

(* @func internal/trayapp/app.go LaunchVMFromImage *)
Definition LaunchVMFromImage (imageRef : string) : TM (result (option ClientVM)) :=
  let imageRef := trim_space imageRef in
  if String.eqb imageRef "" then ret (Err (ErrorsNew "image reference is required"))
  else
    let* name := GenerateVMName imageRef in
    let* r := api (CreateVM (launch_request name imageRef)) in
    match r with
    | Err err => ret (Err (Errorf "create VM from image %q: %w" [AStr imageRef; AWrap err]))
    | Ok None => ret (Err (Errorf "create VM from image %q returned no VM id" [AStr imageRef]))
    | Ok (Some vm) =>
        if String.eqb (trim_space (cv_id vm)) "" then ret (Err (Errorf "create VM from image %q returned no VM id" [AStr imageRef]))
        else
          let* r := api (StartVM (cv_id vm)) in
          match r with
          | Err err => ret (Err (Errorf "start VM %q: %w" [AStr (cv_id vm); AWrap err]))
          | Ok started => ret (Ok started)
          end
    end.

(* @func internal/trayapp/app.go AddImage *)
Definition AddImage (imageRef : string) : TM (result string) :=
  let imageRef := trim_space imageRef in
  if String.eqb imageRef "" then ret (Err (ErrorsNew "image reference is required"))
  else
    let* r := api (PullImage imageRef) in
    match r with
    | Err err => ret (Err (Errorf "add image %q: %w" [AStr imageRef; AWrap err]))
    | Ok None => ret (Err (Errorf "add image %q returned no pull job id" [AStr imageRef]))
    | Ok (Some id) =>
        if String.eqb (trim_space id) "" then ret (Err (Errorf "add image %q returned no pull job id" [AStr imageRef])) else ret (Ok id)
    end.

(* @func internal/trayapp/app.go ExecuteVMAction *)
Definition ExecuteVMAction (action : VMAction) (vmID : string) : TM (option error) :=
  let fails {A} (r : result A) := match r with Ok _ => None | Err err => Some err end in
  if String.eqb (trim_space vmID) "" then ret (Some (ErrorsNew "vm id is required"))
  else
    match action with
    | VMActionStart => let* r := api (StartVM vmID) in ret (fails r)
    | VMActionStop => let* r := api (StopVM vmID DefaultStopTimeoutSeconds) in ret (fails r)
    | VMActionKill => let* r := api (KillVM vmID) in ret (fails r)
    | VMActionDelete => let* r := api (DeleteVM vmID) in ret (fails r)
    end.

(** What was learnt before a failure is kept. *)
(* @func internal/trayapp/app.go CollectStatus *)
Definition CollectStatus (endpoint : string) : TM (Status * option error) :=
  let* now := tick te_clock in
  let failed health caps vms what err :=
    ret (mkStatus endpoint now health caps vms [] (what +:+ ": " +:+ te_text err), Some (Errorf (what +:+ ": %w") [AWrap err])) in
  let* r := api Health in
  match r with
  | Err err => failed None None [] "health" err
  | Ok health =>
      let* r := api Capabilities in
      match r with
      | Err err => failed (Some health) None [] "capabilities" err
      | Ok caps =>
          let* r := api (ListVMs "") in
          match r with
          | Err err => failed (Some health) (Some caps) [] "list VMs" err
          | Ok vms =>
              let vms := default [] vms in
              let* r := api ListImages in
              match r with
              | Err err => failed (Some health) (Some caps) vms "list images" err
              | Ok images => ret (mkStatus endpoint now (Some health) (Some caps) vms (default [] images) "", None)
              end
          end
      end
  end.

End Calls.

(** * What the status allows *)

(* @func internal/trayapp/app.go RuntimeSummary *)
Definition RuntimeSummary (status : option Status) : string :=
  match status with
  | None => "unknown"
  | Some s =>
      if negb (String.eqb (s_error s) "") then "error: " +:+ s_error s
      else match s_caps s with
           | None => "capabilities unavailable"
           | Some c => if NativeRuntime c then "runtime ready" else if String.eqb (Message c) "" then "runtime unavailable" else Message c
           end
  end.

(* @func internal/trayapp/app.go VMActionReady *)
Definition VMActionReady (status : option Status) : bool :=
  match status with
  | Some s => String.eqb (s_error s) "" && match s_caps s with Some c => NativeRuntime c | None => false end
  | None => false
  end.

(* @func internal/trayapp/app.go vmHasRuntimeHandle *)
Definition vmHasRuntimeHandle (vm : ClientVM) : bool :=
  match cv_runtime vm with
  | Some rt => negb (rt_pid rt =? 0)%Z || negb (String.eqb (trim_space (rt_external_id rt)) "") || negb (String.eqb (trim_space (rt_socket rt)) "")
  | None => false
  end.

(* @func internal/trayapp/app.go VMActionAllowed *)
Definition VMActionAllowed (vm : option ClientVM) (action : VMAction) : bool :=
  match vm with
  | None => false
  | Some vm =>
      if String.eqb (trim_space (cv_id vm)) "" then false
      else
        let state := to_lower (trim_space (cv_state vm)) in
        match action with
        | VMActionStart => bool_decide (state ∈ ["created"; "stopped"])
        | VMActionStop => bool_decide (state ∈ ["running"; "paused"])
        | VMActionKill => vmHasRuntimeHandle vm && bool_decide (state ∈ ["running"; "starting"; "stopping"; "pausing"; "paused"; "resuming"])
        | VMActionDelete => true
        end
  end.
