(* ===== verification/Tray.v ===== *)
(** The menu of the tray application (src/cmd/nanofuse-tray: tray_desktop.go): its items,
    the handlers of its clicks and the goroutines they start.

    The fields of the user interface and its items are one state; a region under the
    lock is one function on it.  A goroutine is a task until its next such region; the
    titles it sets without the lock are set together with the region that follows them. *)

From S2P Require Import Prelude GoStrings Json Types Client TrayApp.

(** * Texts *)

Fixpoint one_line (s : string) : string :=
  match s with EmptyString => "" | String a s => String (if Ascii.eqb a "010" then " "%char else a) (one_line s) end.

(* @func cmd/nanofuse-tray/tray_desktop.go limitTitle *)
Definition limitTitle (value : string) : string :=
  let value := one_line value in
  if (String.length value <=? 72)%nat then value else String.substring 0 69 value +:+ "...".

(* @func cmd/nanofuse-tray/tray_desktop.go shortID *)
Definition shortID (id : string) : string :=
  let id := trim_space id in if (String.length id <=? 12)%nat then id else String.substring 0 12 id.

(* @func cmd/nanofuse-tray/tray_desktop.go displayVMName *)
Definition displayVMName (vm : ClientVM) : string :=
  if negb (String.eqb (cv_name vm) "") then cv_name vm
  else if negb (String.eqb (cv_id vm) "") then "vm-" +:+ shortID (cv_id vm) else "unnamed".

(* @func cmd/nanofuse-tray/tray_desktop.go displayImageRefShort *)
Definition displayImageRefShort (imageRef : string) : string :=
  let imageRef := trim_space imageRef in
  if String.eqb imageRef "" then "" else after_last slash (before_last "@" imageRef).

(* @func cmd/nanofuse-tray/tray_desktop.go portSummary *)
Definition portSummary (portForwards : list PortForward) : string :=
  join "," ((λ pf, ":" +:+ (if (HostPort pf =? 0)%Z then "auto" else fmt_d (HostPort pf)) +:+ "->" +:+ fmt_d (VMPort pf) +:+ "/" +:+
              (if String.eqb (Protocol pf) "" then "tcp" else Protocol pf)) <$> portForwards).

Definition vm_ports (vm : ClientVM) : string := portSummary (n_forwards (c_network (cv_config vm))).

(* @func cmd/nanofuse-tray/tray_desktop.go displayVMRow *)
Definition displayVMRow (vm : ClientVM) : string :=
  let label := displayVMName vm +:+ " [" +:+ cv_state vm +:+ "]" in
  let image := displayImageRefShort (cv_image vm) in
  let label := if String.eqb image "" then label else label +:+ " " +:+ image in
  if String.eqb (vm_ports vm) "" then label else label +:+ " " +:+ vm_ports vm.

(* @func cmd/nanofuse-tray/tray_desktop.go displayVMTooltip *)
Definition displayVMTooltip (vm : ClientVM) : string :=
  let part name v := if String.eqb v "" then [] else [name +:+ "=" +:+ v] in
  let parts := part "id" (cv_id vm) ++ part "image" (cv_image vm) ++
    part "runtime" (match cv_runtime vm with Some rt => rt_external_id rt | None => "" end) ++ part "ports" (vm_ports vm) in
  match parts with [] => "VM" | _ => join " " parts end.

(* @func cmd/nanofuse-tray/tray_desktop.go selectedVMState *)
Definition selectedVMState (vm : ClientVM) : string := if String.eqb (trim_space (cv_state vm)) "" then "unknown" else cv_state vm.

(* @func cmd/nanofuse-tray/tray_desktop.go displayImageName *)
Definition displayImageName (image : ClientImage) : string :=
  match ci_tags image with
  | [] => if String.eqb (ci_digest image) "" then "untagged image" else ci_digest image
  | tags => join "," tags
  end.

(* @func cmd/nanofuse-tray/tray_desktop.go imageReference *)
Definition imageReference (image : ClientImage) : string := match ci_tags image with tag :: _ => tag | [] => ci_digest image end.

(** * The state *)

Record item : Type := mkItem { it_title : string; it_tip : string; it_shown : bool; it_enabled : bool }.
Definition SetTitle (t : string) (i : item) : item := mkItem t (it_tip i) (it_shown i) (it_enabled i).
Definition SetTooltip (t : string) (i : item) : item := mkItem (it_title i) t (it_shown i) (it_enabled i).
Definition Show (i : item) : item := mkItem (it_title i) (it_tip i) true (it_enabled i).
Definition Hide (i : item) : item := mkItem (it_title i) (it_tip i) false (it_enabled i).
Definition Enable (i : item) : item := mkItem (it_title i) (it_tip i) (it_shown i) true.
Definition Disable (i : item) : item := mkItem (it_title i) (it_tip i) (it_shown i) false.

(* @func cmd/nanofuse-tray/tray_desktop.go setMenuEnabled *)
Definition setMenuEnabled (enabled : bool) (i : item) : item := if enabled then Enable i else Disable i.

(* @type cmd/nanofuse-tray/tray_desktop.go vmMenuItems *)
Record vmMenuItems : Type := mkRow { r_root : item; r_detail : item; r_start : item; r_stop : item; r_kill : item; r_delete : item }.

Definition on_row (f : item → item) (r : vmMenuItems) : vmMenuItems :=
  mkRow (f (r_root r)) (f (r_detail r)) (f (r_start r)) (f (r_stop r)) (f (r_kill r)) (f (r_delete r)).
(* @func cmd/nanofuse-tray/tray_desktop.go hideVMMenu *)
Definition hideVMMenu : vmMenuItems → vmMenuItems := on_row Hide.
(* @func cmd/nanofuse-tray/tray_desktop.go showVMMenu *)
Definition showVMMenu : vmMenuItems → vmMenuItems := on_row Show.

(** What awaits its confirmation: the action, the VM and the time of the click. *)
Definition pending : Type := option (VMAction * string * Z).

(* @type cmd/nanofuse-tray/tray_desktop.go trayUI *)
Record trayUI : Type := mkUI {
  u_status : option Status; u_selected : string; u_imageRef : string; u_pending : pending; u_refreshID : nat;
  u_statusItem : item; u_runtimeItem : item; u_selectedItem : item; u_imageItem : item;
  u_promptLaunchItem : item; u_createItem : item; u_addImageItem : item;
  u_vmItems : list vmMenuItems; u_imageItems : list item }.

Definition with_pending (p : pending) (ui : trayUI) : trayUI :=
  mkUI (u_status ui) (u_selected ui) (u_imageRef ui) p (u_refreshID ui) (u_statusItem ui) (u_runtimeItem ui) (u_selectedItem ui)
    (u_imageItem ui) (u_promptLaunchItem ui) (u_createItem ui) (u_addImageItem ui) (u_vmItems ui) (u_imageItems ui).
Definition with_status (s : option Status) (ui : trayUI) : trayUI :=
  mkUI s (u_selected ui) (u_imageRef ui) (u_pending ui) (u_refreshID ui) (u_statusItem ui) (u_runtimeItem ui) (u_selectedItem ui)
    (u_imageItem ui) (u_promptLaunchItem ui) (u_createItem ui) (u_addImageItem ui) (u_vmItems ui) (u_imageItems ui).
Definition with_refreshID (n : nat) (ui : trayUI) : trayUI :=
  mkUI (u_status ui) (u_selected ui) (u_imageRef ui) (u_pending ui) n (u_statusItem ui) (u_runtimeItem ui) (u_selectedItem ui)
    (u_imageItem ui) (u_promptLaunchItem ui) (u_createItem ui) (u_addImageItem ui) (u_vmItems ui) (u_imageItems ui).
Definition with_selected (id : string) (title : string) (ui : trayUI) : trayUI :=
  mkUI (u_status ui) id (u_imageRef ui) (u_pending ui) (u_refreshID ui) (u_statusItem ui) (u_runtimeItem ui) (SetTitle title (u_selectedItem ui))
    (u_imageItem ui) (u_promptLaunchItem ui) (u_createItem ui) (u_addImageItem ui) (u_vmItems ui) (u_imageItems ui).
Definition with_image (ref : string) (title : string) (ui : trayUI) : trayUI :=
  mkUI (u_status ui) (u_selected ui) ref (u_pending ui) (u_refreshID ui) (u_statusItem ui) (u_runtimeItem ui) (u_selectedItem ui)
    (SetTitle title (u_imageItem ui)) (u_promptLaunchItem ui) (u_createItem ui) (u_addImageItem ui) (u_vmItems ui) (u_imageItems ui).
Definition status_title (t : string) (ui : trayUI) : trayUI :=
  mkUI (u_status ui) (u_selected ui) (u_imageRef ui) (u_pending ui) (u_refreshID ui) (SetTitle t (u_statusItem ui)) (u_runtimeItem ui)
    (u_selectedItem ui) (u_imageItem ui) (u_promptLaunchItem ui) (u_createItem ui) (u_addImageItem ui) (u_vmItems ui) (u_imageItems ui).
Definition runtime_title (t : string) (ui : trayUI) : trayUI :=
  mkUI (u_status ui) (u_selected ui) (u_imageRef ui) (u_pending ui) (u_refreshID ui) (u_statusItem ui) (SetTitle t (u_runtimeItem ui))
    (u_selectedItem ui) (u_imageItem ui) (u_promptLaunchItem ui) (u_createItem ui) (u_addImageItem ui) (u_vmItems ui) (u_imageItems ui).
(** The three items that launch a VM or pull an image. *)
Definition on_items (prompt create add : item → item) (ui : trayUI) : trayUI :=
  mkUI (u_status ui) (u_selected ui) (u_imageRef ui) (u_pending ui) (u_refreshID ui) (u_statusItem ui) (u_runtimeItem ui)
    (u_selectedItem ui) (u_imageItem ui) (prompt (u_promptLaunchItem ui)) (create (u_createItem ui)) (add (u_addImageItem ui))
    (u_vmItems ui) (u_imageItems ui).
Definition with_rows (rows : list vmMenuItems) (images : list item) (ui : trayUI) : trayUI :=
  mkUI (u_status ui) (u_selected ui) (u_imageRef ui) (u_pending ui) (u_refreshID ui) (u_statusItem ui) (u_runtimeItem ui)
    (u_selectedItem ui) (u_imageItem ui) (u_promptLaunchItem ui) (u_createItem ui) (u_addImageItem ui) rows images.

(** * The menu *)

(* @func cmd/nanofuse-tray/tray_desktop.go actionTitle *)
Definition actionTitle (p : pending) (vmID : string) (action : VMAction) (normal confirm : string) : string :=
  match p with
  | Some (a, id, _) => if bool_decide (a = action) && String.eqb id vmID then confirm else normal
  | None => normal
  end.

(** The row of a VM. *)
(* @src cmd/nanofuse-tray/tray_desktop.go:253-267 updateVMItems *)
Definition vm_row (ready : bool) (p : pending) (vm : ClientVM) (r : vmMenuItems) : vmMenuItems :=
  let allowed a := setMenuEnabled (ready && VMActionAllowed (Some vm) a) in
  let r := mkRow
    (SetTooltip (displayVMTooltip vm) (SetTitle (limitTitle (displayVMRow vm)) (r_root r)))
    (SetTooltip (displayVMTooltip vm) (SetTitle (limitTitle ("Details: " +:+ displayVMTooltip vm)) (r_detail r)))
    (SetTitle "Start" (r_start r)) (SetTitle "Stop" (r_stop r))
    (SetTitle (actionTitle p (cv_id vm) VMActionKill "Kill" "Confirm Kill") (r_kill r))
    (SetTitle (actionTitle p (cv_id vm) VMActionDelete "Delete" "Confirm Delete") (r_delete r)) in
  let r := showVMMenu r in
  mkRow (Enable (r_root r)) (r_detail r) (allowed VMActionStart (r_start r)) (allowed VMActionStop (r_stop r))
    (allowed VMActionKill (r_kill r)) (allowed VMActionDelete (r_delete r)).

(* @func cmd/nanofuse-tray/tray_desktop.go updateVMItems *)
Definition updateVMItems (vms : list ClientVM) (ui : trayUI) : trayUI :=
  let ready := VMActionReady (u_status ui) in
  let row idx r := match vms !! idx with None => hideVMMenu r | Some vm => vm_row ready (u_pending ui) vm r end in
  with_rows (imap row (u_vmItems ui)) (u_imageItems ui) ui.

(* @func cmd/nanofuse-tray/tray_desktop.go updateImageItems *)
Definition updateImageItems (images : list ClientImage) (ui : trayUI) : trayUI :=
  let row idx i :=
    match images !! idx with
    | None => Hide i
    | Some image => Enable (Show (SetTooltip (ci_digest image) (SetTitle (limitTitle (displayImageName image)) i)))
    end in
  with_rows (u_vmItems ui) (imap row (u_imageItems ui)) ui.

(* @func cmd/nanofuse-tray/tray_desktop.go selectedVMLocked *)
Definition selectedVMLocked (ui : trayUI) : option ClientVM :=
  match u_status ui with
  | None => None
  | Some s => if String.eqb (u_selected ui) "" then None else List.find (λ vm, String.eqb (cv_id vm) (u_selected ui)) (s_vms s)
  end.

Definition update_rows (ui : trayUI) : trayUI := match u_status ui with Some s => updateVMItems (s_vms s) ui | None => ui end.

(* @func cmd/nanofuse-tray/tray_desktop.go updateActionStateLocked *)
Definition updateActionStateLocked (ui : trayUI) : trayUI :=
  let ready := VMActionReady (u_status ui) in
  let ui := on_items (λ i, setMenuEnabled ready (SetTitle "New MicroVM From Container..." i))
    (λ i, setMenuEnabled (negb (String.eqb (u_imageRef ui) "" || negb ready)) (SetTitle "Launch Selected Cached Image" i))
    (λ i, setMenuEnabled ready (SetTitle "Add Image to List..." i)) ui in
  match selectedVMLocked ui with
  | None => update_rows (with_selected "" "Selected VM: none" ui)
  | Some vm =>
      if ready then update_rows (with_selected (u_selected ui) (limitTitle ("Selected VM: " +:+ displayVMRow vm)) ui) else update_rows ui
  end.

(** * Handlers *)

Inductive task : Type :=
  | Refreshing (id : nat)
  | PromptLaunch | PromptAdd                                   (* the prompt is open *)
  | Requested (imageRef : string)                              (* launchImageRef is to run *)
  | Launching (imageRef : string) | Launched (vm : option ClientVM)
  | Adding (imageRef : string)
  | Acting (action : VMAction) (vm : ClientVM)
  | Expiring (action : VMAction) (vmID : string) (pendingAt : Z).

Definition confirmationWindow : Z := (10 * 1000000000)%Z.

(* @func cmd/nanofuse-tray/tray_desktop.go needsConfirmation *)
Definition needsConfirmation (action : VMAction) : bool := bool_decide (action = VMActionKill) || bool_decide (action = VMActionDelete).

(** The refused beginning of a handler that needs the runtime. *)
(* @src cmd/nanofuse-tray/tray_desktop.go:331-337 promptAndLaunchImage *)
Definition unavailable (ui : trayUI) : trayUI :=
  updateActionStateLocked (runtime_title (limitTitle ("Runtime: " +:+ RuntimeSummary (u_status ui))) (status_title "Status: runtime unavailable" ui)).

(** The part of [refresh] before its goroutine. *)
(* @src cmd/nanofuse-tray/tray_desktop.go:208-214 refresh *)
Definition refresh (ui : trayUI) : trayUI * list task :=
  let id := S (u_refreshID ui) in (with_refreshID id ui, [Refreshing id]).

(** Its goroutine, once the API has answered. *)
(* @src cmd/nanofuse-tray/tray_desktop.go:219-242 refresh *)
Definition refreshed (status : Status) (err : option error) (ui : trayUI) : trayUI :=
  let ui := with_pending None (with_status (Some status) ui) in
  let runtime := limitTitle ("Runtime: " +:+ RuntimeSummary (Some status)) in
  match err with
  | Some _ => updateActionStateLocked (updateImageItems [] (updateVMItems [] (runtime_title runtime (status_title "Status: error" ui))))
  | None =>
      updateActionStateLocked (updateImageItems (s_images status) (updateVMItems (s_vms status)
        (runtime_title runtime (status_title (limitTitle ("Status: " +:+ default "" (s_health status))) ui))))
  end.

(* @func cmd/nanofuse-tray/tray_desktop.go selectVM *)
Definition selectVM (index : nat) (ui : trayUI) : option trayUI :=
  s ← u_status ui; vm ← s_vms s !! index;
  Some (updateActionStateLocked (with_selected (cv_id vm) (limitTitle ("Selected VM: " +:+ displayVMRow vm)) (with_pending None ui))).

(* @func cmd/nanofuse-tray/tray_desktop.go selectImage *)
Definition selectImage (index : nat) (ui : trayUI) : option trayUI :=
  s ← u_status ui; image ← s_images s !! index;
  Some (updateActionStateLocked (with_pending None
    (with_image (imageReference image) (limitTitle ("Selected Image: " +:+ displayImageName image)) ui))).

(* @func cmd/nanofuse-tray/tray_desktop.go launchSelectedImage *)
Definition launchSelectedImage (ui : trayUI) : trayUI * list task :=
  if String.eqb (u_imageRef ui) "" then (status_title "Status: select an image first" ui, []) else (ui, [Requested (u_imageRef ui)]).

(* @func cmd/nanofuse-tray/tray_desktop.go promptAndLaunchImage *)
Definition promptAndLaunchImage (ui : trayUI) : trayUI * list task :=
  if negb (VMActionReady (u_status ui)) then (unavailable ui, [])
  else (status_title "Status: waiting for image reference" (on_items Disable id id ui), [PromptLaunch]).

(* @func cmd/nanofuse-tray/tray_desktop.go promptAndAddImage *)
Definition promptAndAddImage (ui : trayUI) : trayUI * list task :=
  if negb (VMActionReady (u_status ui)) then (unavailable ui, [])
  else (status_title "Status: waiting for image reference" (on_items id id Disable ui), [PromptAdd]).

(* @func cmd/nanofuse-tray/tray_desktop.go launchImageRef *)
Definition launchImageRef (imageRef : string) (ui : trayUI) : trayUI * list task :=
  if negb (VMActionReady (u_status ui)) then (unavailable ui, [])
  else (status_title "Status: launching VM" (on_items Disable Disable id ui), [Launching imageRef]).

(** What becomes of a click on an action. *)
Inductive outcome : Type := Rejected | Asked | Sent.

(* @func cmd/nanofuse-tray/tray_desktop.go confirmActionLocked *)
Definition confirmActionLocked (now : Z) (action : VMAction) (vmID : string) (ui : trayUI) : trayUI * bool :=
  match u_pending ui with
  | Some (a, id, at') =>
      if bool_decide (a = action) && String.eqb id vmID && (now - at' <=? confirmationWindow)%Z then (ui, true)
      else (with_pending (Some (action, vmID, now)) ui, false)
  | None => (with_pending (Some (action, vmID, now)) ui, false)
  end.

(* @func cmd/nanofuse-tray/tray_desktop.go runActionForIndex *)
Definition runActionForIndex (now : Z) (index : nat) (action : VMAction) (ui : trayUI) : trayUI * list task * option ClientVM * outcome :=
  match s ← u_status ui; s_vms s !! index with
  | None => (status_title "Status: VM row unavailable" ui, [], None, Rejected)
  | Some vm =>
      let ui := with_selected (cv_id vm) (limitTitle ("Selected VM: " +:+ displayVMRow vm)) ui in
      if negb (VMActionReady (u_status ui)) then (unavailable ui, [], Some vm, Rejected)
      else if negb (VMActionAllowed (Some vm) action) then
        (updateActionStateLocked (status_title
           (limitTitle ("Status: " +:+ action_text action +:+ " unavailable for VM state " +:+ selectedVMState vm)) ui), [], Some vm, Rejected)
      else
        let '(ui, confirmed) := if needsConfirmation action then confirmActionLocked now action (cv_id vm) ui else (ui, true) in
        if confirmed then (updateActionStateLocked (with_pending None ui), [Acting action vm], Some vm, Sent)
        else (updateActionStateLocked ui, [Expiring action (cv_id vm) now], Some vm, Asked)
  end.

(** The goroutine of [expirePending], when its timer has fired. *)
(* @src cmd/nanofuse-tray/tray_desktop.go:511-519 expirePending *)
Definition expire (action : VMAction) (vmID : string) (pendingAt : Z) (ui : trayUI) : option trayUI :=
  match u_pending ui with
  | Some (a, id, at') =>
      if bool_decide (a = action) && String.eqb id vmID && (at' =? pendingAt)%Z then
        Some (updateActionStateLocked (status_title "Status: confirmation expired" (with_pending None ui)))
      else None
  | None => None
  end.

Section Tasks.
Context `{TE : TrayEnv}.

Definition failed_title (title : string) (err : error) (ui : trayUI) : trayUI :=
  runtime_title (limitTitle (te_text err)) (status_title title ui).

(** The goroutine of a prompt, once it is closed: with an error, without a reference, or
    with one. *)
(* @src cmd/nanofuse-tray/tray_desktop.go:342-356 promptAndLaunchImage *)
Definition prompted_launch (r : result (option string)) (ui : trayUI) : trayUI * list task :=
  match r with
  | Err err => (updateActionStateLocked (failed_title "Status: image prompt failed" err ui), [])
  | Ok None => (updateActionStateLocked (status_title "Status: launch canceled" ui), [])
  | Ok (Some imageRef) => launchImageRef imageRef ui
  end.

(* @src cmd/nanofuse-tray/tray_desktop.go:372-384 promptAndAddImage *)
Definition prompted_add (r : result (option string)) (ui : trayUI) : trayUI * list task :=
  match r with
  | Err err => (updateActionStateLocked (failed_title "Status: image prompt failed" err ui), [])
  | Ok None => (updateActionStateLocked (status_title "Status: add image canceled" ui), [])
  | Ok (Some imageRef) => (ui, [Adding imageRef])
  end.

(* @src cmd/nanofuse-tray/tray_desktop.go:387-395 promptAndAddImage *)
Definition added (r : result string) (ui : trayUI) : trayUI * list task :=
  match r with
  | Err err => (updateActionStateLocked (failed_title "Status: add image failed" err ui), [])
  | Ok job => refresh (status_title (limitTitle ("Status: image pull started " +:+ job)) ui)
  end.

(** A launch: the region that selects the VM, and the refresh after it. *)
(* @src cmd/nanofuse-tray/tray_desktop.go:412-431 launchImageRef *)
Definition launched (r : result (option ClientVM)) (ui : trayUI) : trayUI * list task :=
  match r with
  | Err err => (updateActionStateLocked (failed_title "Status: launch failed" err ui), [])
  | Ok vm =>
      (match vm with
       | Some vm => if String.eqb (cv_id vm) "" then ui else with_selected (cv_id vm) (limitTitle ("Selected VM: " +:+ displayVMRow vm)) ui
       | None => ui
       end, [Launched vm])
  end.

(* @src cmd/nanofuse-tray/tray_desktop.go:471-482 runActionForIndex *)
Definition acted (action : VMAction) (vm : ClientVM) (err : option error) (ui : trayUI) : trayUI * list task :=
  match err with
  | Some err => (failed_title (limitTitle ("Status: " +:+ action_text action +:+ " failed")) err ui, [])
  | None => refresh (status_title (limitTitle ("Status: " +:+ action_text action +:+ " sent for " +:+ displayVMName vm)) ui)
  end.

(** [strings.Contains(text, "User canceled")] aside, both prompts read the output of a
    command. *)
(* @func cmd/nanofuse-tray/prompt_darwin.go promptImageReference *)
Definition prompt_darwin (output : string) (err : option error) : result (option string) :=
  let text := trim_space output in
  match err with
  | Some err => if contains "User canceled" text then Ok None else Err (Errorf "run image prompt: %w: %s" [AWrap err; AStr text])
  | None => Ok (if String.eqb text "" then None else Some text)
  end.

(* @func cmd/nanofuse-tray/prompt_windows.go promptImageReference *)
Definition prompt_windows (output : string) (err : option error) : result (option string) :=
  let text := trim_space output in
  match err with
  | Some err => Err (Errorf "run image prompt: %w: %s" [AWrap err; AStr text])
  | None => Ok (if String.eqb text "" then None else Some text)
  end.

(** * The application as it runs *)

Record tray : Type := mkTray { t_ui : trayUI; t_tasks : list task; t_world : TWorld; t_now : Z }.

(** What happens: time, the clicks, and the steps of the goroutines. *)
Inductive label : Type :=
  | LTime (elapsed : Z)
  | LRefresh                                                              (* the ticker, or the click *)
  | LSelect (hit : bool)
  | LAction (at' : Z) (action : VMAction) (vm : option ClientVM) (o : outcome)
  | LLaunchSelected | LPromptLaunch | LPromptAdd
  | LShown (id : nat) (status : Status) | LStale (id : nat)
  | LExpired (hit : bool)
  | LPrompted | LLaunch | LActed (action : VMAction) (vm : ClientVM).

Context (endpoint : string).

(** A goroutine's region, from the state [ui] and the calls [w] so far: what it leaves,
    the goroutines it starts and the label of the step.  The answers of the prompts are
    [answer]. *)
Definition run_task (t : task) (answer : result (option string)) (ui : trayUI) (w : TWorld) : trayUI * list task * TWorld * label :=
  match t with
  | Refreshing id =>
      let '((status, err), w) := CollectStatus endpoint w in
      if (id =? u_refreshID ui)%nat then (refreshed status err ui, [], w, LShown id status) else (ui, [], w, LStale id)
  | PromptLaunch => (prompted_launch answer ui, w, LPrompted)
  | PromptAdd => (prompted_add answer ui, w, LPrompted)
  | Requested imageRef => (launchImageRef imageRef ui, w, LLaunch)
  | Launching imageRef => let '(r, w) := LaunchVMFromImage imageRef w in (launched r ui, w, LLaunch)
  | Launched _ => (refresh (status_title "Status: VM launched" ui), w, LRefresh)
  | Adding imageRef => let '(r, w) := AddImage imageRef w in (added r ui, w, LLaunch)
  | Acting action vm => let '(err, w) := ExecuteVMAction action (cv_id vm) w in (acted action vm err ui, w, LActed action vm)
  | Expiring action vmID at' =>
      match expire action vmID at' ui with Some ui => (ui, [], w, LExpired true) | None => (ui, [], w, LExpired false) end
  end.

(** A timer fires when its time has come. *)
Definition task_due (now : Z) (t : task) : Prop := match t with Expiring _ _ at' => (at' + confirmationWindow ≤ now)%Z | _ => True end.

(* @src cmd/nanofuse-tray/tray_desktop.go:141-206 listen *)
Inductive tray_step : tray → label → tray → Prop :=
  | step_time ui ts w now d : (0 ≤ d)%Z → tray_step (mkTray ui ts w now) (LTime d) (mkTray ui ts w (now + d))
  | step_refresh ui ts w now : tray_step (mkTray ui ts w now) LRefresh (mkTray (fst (refresh ui)) (snd (refresh ui) ++ ts) w now)
  | step_select_vm ui ts w now index :
      tray_step (mkTray ui ts w now) (LSelect (bool_decide (is_Some (selectVM index ui)))) (mkTray (default ui (selectVM index ui)) ts w now)
  | step_select_image ui ts w now index :
      tray_step (mkTray ui ts w now) (LSelect (bool_decide (is_Some (selectImage index ui)))) (mkTray (default ui (selectImage index ui)) ts w now)
  | step_action ui ts w now index action ui' new vm o : runActionForIndex now index action ui = (ui', new, vm, o) →
      tray_step (mkTray ui ts w now) (LAction now action vm o) (mkTray ui' (new ++ ts) w now)
  | step_launch_selected ui ts w now :
      tray_step (mkTray ui ts w now) LLaunchSelected (mkTray (fst (launchSelectedImage ui)) (snd (launchSelectedImage ui) ++ ts) w now)
  | step_prompt_launch ui ts w now :
      tray_step (mkTray ui ts w now) LPromptLaunch (mkTray (fst (promptAndLaunchImage ui)) (snd (promptAndLaunchImage ui) ++ ts) w now)
  | step_prompt_add ui ts w now :
      tray_step (mkTray ui ts w now) LPromptAdd (mkTray (fst (promptAndAddImage ui)) (snd (promptAndAddImage ui) ++ ts) w now)
  | step_task ui ts t ts' w now answer ui' new w' l : task_due now t → run_task t answer ui w = (ui', new, w', l) →
      tray_step (mkTray ui (ts ++ t :: ts') w now) l (mkTray ui' (new ++ ts ++ ts') w' now).

(** The items before anything is known. *)
Definition plain (title tip : string) : item := mkItem title tip true true.
Definition empty_row (i : nat) : vmMenuItems :=
  let row := mkRow (plain ("VM slot " +:+ fmt_d (Z.of_nat i + 1)) "VM") (plain "Details" "VM details") (plain "Start" "Start this VM through the API")
    (plain "Stop" "Stop this VM through the API") (plain "Kill" "Confirm, then force kill this VM through the API")
    (plain "Delete" "Confirm, then delete this VM through the API") in
  hideVMMenu (mkRow (r_root row) (Disable (r_detail row)) (r_start row) (r_stop row) (r_kill row) (r_delete row)).

Definition maxMenuRows : nat := 25.

(* @func cmd/nanofuse-tray/tray_desktop.go onReady *)
Definition onReady : trayUI * list task :=
  let ui := mkUI None "" "" None 0 (Disable (plain "Status: checking" "Daemon health")) (Disable (plain "Runtime: checking" "Runtime capabilities"))
    (Disable (plain "Selected VM: none" "Currently selected VM")) (Disable (plain "Selected Image: none" "Image used for new VM launches"))
    (plain "New MicroVM From Container..." "Enter an OCI image reference and launch it through the API")
    (plain "Launch Selected Cached Image" "Create and start a new VM from the selected cached image through the API")
    (plain "Add Image to List..." "Pull or resolve an OCI image reference through the API")
    (empty_row <$> seq 0 maxMenuRows)
    ((λ i, Disable (Hide (plain ("Image slot " +:+ fmt_d (Z.of_nat i + 1)) "Cached image"))) <$> seq 0 maxMenuRows) in
  refresh (updateActionStateLocked ui).

Inductive runs : list label → tray → Prop :=
  | runs_start now : runs [] (mkTray (fst onReady) (snd onReady) (mkTWorld [] 0) now)
  | runs_step tr s l s' : runs tr s → tray_step s l s' → runs (tr ++ [l]) s'.

End Tasks.
