(* ===== verification/TraySpec.v ===== *)
(** What the menu of the tray guarantees, in every interleaving of clicks and goroutines:
    it shows the newest status, and it destroys nothing without a confirmation. *)

From S2P Require Import Prelude GoStrings Json Types LifecycleSpec LifecycleOutcome Client TrayApp Tray.
From S2P Require VmLifecycle.

(** * The menu shows the state *)

Lemma with_rows_core (ui : trayUI) rows images :
  u_status (with_rows rows images ui) = u_status ui ∧ u_pending (with_rows rows images ui) = u_pending ui ∧
  u_refreshID (with_rows rows images ui) = u_refreshID ui.
Proof. done. Qed.

Lemma update_core (ui : trayUI) :
  u_status (updateActionStateLocked ui) = u_status ui ∧ u_pending (updateActionStateLocked ui) = u_pending ui ∧
  u_refreshID (updateActionStateLocked ui) = u_refreshID ui.
Proof. unfold updateActionStateLocked, update_rows. repeat case_match; done. Qed.

Lemma update_status ui : u_status (updateActionStateLocked ui) = u_status ui.
Proof. apply update_core. Qed.
Lemma update_pending ui : u_pending (updateActionStateLocked ui) = u_pending ui.
Proof. apply update_core. Qed.
Lemma update_refreshID ui : u_refreshID (updateActionStateLocked ui) = u_refreshID ui.
Proof. apply update_core. Qed.

Definition row_hidden (r : vmMenuItems) : Prop :=
  Forall (λ i, it_shown i = false) [r_root r; r_detail r; r_start r; r_stop r; r_kill r; r_delete r].

(** A row shows its VM: an action can be clicked exactly when the status allows it, and
    asks for its confirmation exactly when it is the one that waits for it. *)
Definition row_shows (status : option Status) (p : pending) (vm : ClientVM) (r : vmMenuItems) : Prop :=
  Forall (λ i, it_shown i = true) [r_root r; r_detail r; r_start r; r_stop r; r_kill r; r_delete r] ∧
  it_title (r_root r) = limitTitle (displayVMRow vm) ∧
  (∀ a i, (a, i) ∈ [(VMActionStart, r_start r); (VMActionStop, r_stop r); (VMActionKill, r_kill r); (VMActionDelete, r_delete r)] →
     it_enabled i = VMActionReady status && VMActionAllowed (Some vm) a) ∧
  (it_title (r_kill r) = "Confirm Kill" ↔ ∃ at', p = Some (VMActionKill, cv_id vm, at')) ∧
  (it_title (r_delete r) = "Confirm Delete" ↔ ∃ at', p = Some (VMActionDelete, cv_id vm, at')).

Definition listed (status : option Status) : list ClientVM := match status with Some s => s_vms s | None => [] end.

Definition rows_show (status : option Status) (p : pending) (rows : list vmMenuItems) : Prop :=
  length rows = maxMenuRows ∧
  ∀ i r, rows !! i = Some r → match listed status !! i with Some vm => row_shows status p vm r | None => row_hidden r end.

Definition menu_shows (ui : trayUI) : Prop := rows_show (u_status ui) (u_pending ui) (u_vmItems ui).

Lemma actionTitle_confirm p id action normal confirm : normal ≠ confirm →
  actionTitle p id action normal confirm = confirm ↔ ∃ at', p = Some (action, id, at').
Proof.
  intros Hn. unfold actionTitle. destruct p as [[[a i] t]|]; [|naive_solver]. case_bool_decide; cbn; [|naive_solver].
  destruct (String.eqb_spec i id) as [->|]; naive_solver.
Qed.

Lemma vm_row_shows status p vm r : row_shows status p vm (vm_row (VMActionReady status) p vm r).
Proof.
  unfold vm_row, row_shows. set (ready := VMActionReady status).
  assert (He : ∀ b i, it_enabled (setMenuEnabled b i) = b) by by intros [] ?.
  assert (Hs : ∀ b i, it_shown (setMenuEnabled b i) = it_shown i) by by intros [] ?.
  assert (Ht : ∀ b i, it_title (setMenuEnabled b i) = it_title i) by by intros [] ?.
  split_and!; cbn [r_root r_detail r_start r_stop r_kill r_delete].
  - by repeat (apply Forall_cons; split; [by rewrite ?Hs|]).
  - done.
  - intros a i Hi. rewrite !elem_of_cons, elem_of_nil in Hi. destruct_or! Hi; simplify_eq; apply He.
  - rewrite Ht. by apply actionTitle_confirm.
  - rewrite Ht. by apply actionTitle_confirm.
Qed.

Lemma hidden_row r : row_hidden (hideVMMenu r).
Proof. by repeat (apply Forall_cons; split; [done|]). Qed.

Lemma updateVMItems_shows vms ui : length (u_vmItems ui) = maxMenuRows → vms = listed (u_status ui) → menu_shows (updateVMItems vms ui).
Proof.
  intros Hl ->. unfold menu_shows, rows_show, updateVMItems. cbn. split; [by rewrite length_imap|]. intros i r Hr.
  rewrite list_lookup_imap in Hr. destruct (u_vmItems ui !! i) as [r0|]; [|done]. cbn in Hr. injection Hr as <-.
  destruct (listed (u_status ui) !! i); [apply vm_row_shows|apply hidden_row].
Qed.

(** Before there is a status the rows are hidden. *)
Definition rows_ready (ui : trayUI) : Prop := length (u_vmItems ui) = maxMenuRows ∧ (u_status ui = None → Forall row_hidden (u_vmItems ui)).

Lemma update_shows ui : rows_ready ui → menu_shows (updateActionStateLocked ui).
Proof.
  intros [Hl Hn]. unfold updateActionStateLocked. match goal with |- context [on_items ?f ?g ?h ui] => set (ui1 := on_items f g h ui) end.
  assert (Hl1 : length (u_vmItems ui1) = maxMenuRows) by done. assert (Hn1 : u_status ui1 = None → Forall row_hidden (u_vmItems ui1)) by done.
  clearbody ui1. clear Hl Hn.
  assert (H : ∀ ui2, u_status ui2 = u_status ui1 → u_vmItems ui2 = u_vmItems ui1 → menu_shows (update_rows ui2)).
  { intros ui2 Hs Hi. unfold update_rows. destruct (u_status ui2) as [s|] eqn:E; [apply updateVMItems_shows; [by rewrite Hi|by rewrite E]|].
    unfold menu_shows, rows_show. rewrite E, Hi. cbn. split; [done|]. intros i r Hr.
    apply (Forall_lookup_1 _ _ _ _ (Hn1 ltac:(congruence)) Hr). }
  destruct (selectedVMLocked ui1); [|by apply H]. destruct (VMActionReady _); by apply H.
Qed.

Lemma shows_ready ui : menu_shows ui → rows_ready ui.
Proof.
  intros [Hl Hr]. split; [done|]. intros Hs. apply Forall_lookup. intros i r Hi. specialize (Hr i r Hi). by rewrite Hs in Hr.
Qed.

Lemma unavailable_shows ui : menu_shows ui → menu_shows (unavailable ui).
Proof. intros H. by apply update_shows, shows_ready. Qed.

Lemma refreshed_shows status err ui : menu_shows ui → menu_shows (refreshed status err ui).
Proof.
  intros [Hl _]. unfold refreshed. destruct err; apply update_shows; (split; [cbn; by rewrite length_imap|done]).
Qed.

Lemma launchImageRef_shows ref ui : menu_shows ui → menu_shows (fst (launchImageRef ref ui)).
Proof. intros H. unfold launchImageRef. destruct (negb _); [by apply unavailable_shows|done]. Qed.

Lemma select_shows ui ui' : menu_shows ui → (∃ index, selectVM index ui = Some ui' ∨ selectImage index ui = Some ui') → menu_shows ui'.
Proof.
  intros H (index & [Hs|Hs]).
  - unfold selectVM in Hs. apply bind_Some in Hs as (s & E & Hs). apply bind_Some in Hs as (vm & _ & [= <-]).
    apply update_shows. split; [apply H|]. cbn. congruence.
  - unfold selectImage in Hs. apply bind_Some in Hs as (s & E & Hs). apply bind_Some in Hs as (image & _ & [= <-]).
    apply update_shows. split; [apply H|]. cbn. congruence.
Qed.

Lemma runAction_shows now index action ui : menu_shows ui → menu_shows (runActionForIndex now index action ui).1.1.1.
Proof.
  intros H. unfold runActionForIndex. destruct (s ← u_status ui; s_vms s !! index) as [vm|]; [|done]. cbv zeta.
  set (ui1 := with_selected _ _ ui). assert (H1 : menu_shows ui1) by exact H. assert (Hr : rows_ready ui1) by by apply shows_ready.
  clearbody ui1. clear H. destruct (negb _); [by apply unavailable_shows|]. destruct (negb _); [by apply update_shows|].
  destruct (if needsConfirmation action then _ else _) as [ui2 b] eqn:E. assert (H2 : rows_ready ui2).
  { destruct (needsConfirmation action); [|by injection E as <- <-]. unfold confirmActionLocked in E. by repeat case_match; simplify_eq. }
  destruct b; by apply update_shows.
Qed.

Section Reachable.
Context `{TE : TrayEnv} (endpoint : string).

Lemma run_task_shows t answer ui w : menu_shows ui → menu_shows (run_task endpoint t answer ui w).1.1.1.
Proof.
  intros H. assert (Hr : rows_ready ui) by by apply shows_ready. destruct t; cbn [run_task].
  - destruct (CollectStatus _ _) as [[status err] w']. destruct (_ =? _)%nat; [by apply refreshed_shows|done].
  - destruct answer as [[ref|]|err]; [by apply launchImageRef_shows|by apply update_shows..].
  - destruct answer as [[ref|]|err]; [done|by apply update_shows..].
  - pose proof (launchImageRef_shows imageRef ui H) as Hl. by destruct (launchImageRef imageRef ui).
  - destruct (LaunchVMFromImage _ _) as [[vm|err] w']; cbn [launched]; [|by apply update_shows]. destruct vm; [|done]. by destruct (String.eqb _ _).
  - done.
  - destruct (AddImage _ _) as [[job|err] w']; cbn [added]; [done|by apply update_shows].
  - destruct (ExecuteVMAction _ _ _) as [[err|] w']; done.
  - unfold expire. repeat case_match; simplify_eq; try done. by apply update_shows.
Qed.

Lemma step_shows s l s' : tray_step endpoint s l s' → menu_shows (t_ui s) → menu_shows (t_ui s').
Proof.
  intros Hs H. destruct Hs; cbn [t_ui] in *; try done.
  - destruct (selectVM index ui) eqn:E; [|done]. eapply select_shows; eauto.
  - destruct (selectImage index ui) eqn:E; [|done]. eapply select_shows; eauto.
  - pose proof (runAction_shows now index action ui H) as Hr. by rewrite H0 in Hr.
  - unfold launchSelectedImage. by destruct (String.eqb _ _).
  - unfold promptAndLaunchImage. destruct (negb _); [by apply unavailable_shows|done].
  - unfold promptAndAddImage. destruct (negb _); [by apply unavailable_shows|done].
  - pose proof (run_task_shows t answer ui w H) as Hr. by rewrite H1 in Hr.
Qed.

Lemma onReady_shows : menu_shows (fst onReady).
Proof. vm_compute. split; [reflexivity|]. intros i r. by do 25 (destruct i as [|i]; [intros [= <-]; repeat constructor|]). Qed.

Lemma reachable_shows tr s : runs endpoint tr s → menu_shows (t_ui s).
Proof. induction 1; [apply onReady_shows|by eapply step_shows]. Qed.

(** * What a step does to the status, the refreshes and the confirmation *)

Definition core (ui : trayUI) : option Status * pending * nat := (u_status ui, u_pending ui, u_refreshID ui).

Lemma core_update ui : core (updateActionStateLocked ui) = core ui.
Proof. unfold core. by rewrite update_status, update_pending, update_refreshID. Qed.

Lemma core_unavailable ui : core (unavailable ui) = core ui.
Proof. unfold unavailable. by rewrite core_update. Qed.

Lemma core_launch ref ui : core (fst (launchImageRef ref ui)) = core ui ∧ Forall (λ t, ∃ ref, t = Launching ref) (snd (launchImageRef ref ui)).
Proof. unfold launchImageRef. destruct (negb _); cbn; [by rewrite core_unavailable|]. split; [done|]. repeat constructor. eauto. Qed.

Lemma core_refreshed status err ui : core (refreshed status err ui) = (Some status, None, u_refreshID ui).
Proof. unfold refreshed. by destruct err; rewrite core_update. Qed.

Lemma core_select ui ui' index : selectVM index ui = Some ui' ∨ selectImage index ui = Some ui' → core ui' = (u_status ui, None, u_refreshID ui).
Proof.
  intros [H|H]; [unfold selectVM in H|unfold selectImage in H]; apply bind_Some in H as (s & _ & H); apply bind_Some in H as (x & _ & [= <-]);
    by rewrite core_update.
Qed.

Lemma core_expire a id t ui ui' : expire a id t ui = Some ui' → core ui' = (u_status ui, None, u_refreshID ui).
Proof. unfold expire. repeat case_match; intros; simplify_eq. by rewrite core_update. Qed.

(** The labels in between which a question stays: nothing else was asked or sent, no
    row was selected, no refresh shown, and it has not expired. *)
Definition stays (l : label) : Prop :=
  match l with LSelect true | LAction _ _ _ Asked | LAction _ _ _ Sent | LShown _ _ | LExpired true => False | _ => True end.

(** A goroutine that neither shows a refresh nor withdraws a question keeps all three,
    or starts a refresh. *)
Definition keeps_core (ui ui' : trayUI) (new : list task) : Prop :=
  core ui' = core ui ∨
  (u_status ui' = u_status ui ∧ u_pending ui' = u_pending ui ∧ new = [Refreshing (u_refreshID ui')]).

Lemma run_task_core t answer ui w ui' new w' l : run_task endpoint t answer ui w = (ui', new, w', l) →
  (keeps_core ui ui' new ∧ stays l ∧ t ≠ Refreshing (u_refreshID ui)) ∨
  (∃ status, t = Refreshing (u_refreshID ui) ∧ l = LShown (u_refreshID ui) status ∧ core ui' = (Some status, None, u_refreshID ui)) ∨
  (new = [] ∧ t ≠ Refreshing (u_refreshID ui) ∧ core ui' = (u_status ui, None, u_refreshID ui)).
Proof.
  unfold keeps_core. destruct t; cbn [run_task].
  - destruct (CollectStatus _ _) as [[status err] w1]. destruct (Nat.eqb_spec id (u_refreshID ui)) as [->|]; intros [= <- <- <- <-].
    + right; left. exists status. by rewrite core_refreshed.
    + left. split_and!; [by left|done|congruence].
  - intros [= H <- <-]. left. split_and!; [left|done..]. destruct answer as [[ref|]|err]; cbn [prompted_launch] in H.
    + destruct (core_launch ref ui) as [Hc _]. by rewrite H in Hc.
    + injection H as <- <-. by rewrite core_update.
    + injection H as <- <-. by rewrite core_update.
  - intros [= H <- <-]. left. split_and!; [left|done..].
    destruct answer as [[ref|]|err]; cbn [prompted_add] in H; injection H as <- <-; [done|by rewrite core_update..].
  - intros [= H <- <-]. left. split_and!; [left|done..]. destruct (core_launch imageRef ui) as [Hc _]. by rewrite H in Hc.
  - destruct (LaunchVMFromImage _ _) as [[vm|err] w1]; cbn [launched]; intros [= <- <- <- <-]; left; (split_and!; [left|done..]);
      [|by rewrite core_update]. destruct vm; [|done]. by destruct (String.eqb _ _).
  - intros [= <- <- <- <-]. left. split_and!; [by right|done..].
  - destruct (AddImage _ _) as [[job|err] w1]; cbn [added]; intros [= <- <- <- <-]; left; (split_and!; [|done..]); [by right|left; by rewrite core_update].
  - destruct (ExecuteVMAction _ _ _) as [[err|] w1]; intros [= <- <- <- <-]; left; (split_and!; [|done..]); [by left|by right].
  - destruct (expire _ _ _ _) eqn:E; intros [= <- <- <- <-]; [|left; split_and!; [by left|done..]].
    right; right. split_and!; [done..|]. by eapply core_expire.
Qed.

Lemma runAction_core now index action ui ui' new vm o : runActionForIndex now index action ui = (ui', new, vm, o) →
  u_status ui' = u_status ui ∧ u_refreshID ui' = u_refreshID ui ∧
  match o with
  | Rejected => u_pending ui' = u_pending ui ∧ new = []
  | Asked => ∃ v, vm = Some v ∧ VMActionAllowed vm action = true ∧ u_pending ui' = Some (action, cv_id v, now) ∧ new = [Expiring action (cv_id v) now]
  | Sent => ∃ v, vm = Some v ∧ VMActionAllowed vm action = true ∧ u_pending ui' = None ∧ new = [Acting action v] ∧
      (needsConfirmation action = true → ∃ at', u_pending ui = Some (action, cv_id v, at') ∧ (now - at' ≤ confirmationWindow)%Z)
  end.
Proof.
  unfold runActionForIndex. destruct (s ← u_status ui; s_vms s !! index) as [v|]; [|by intros [= <- <- <- <-]]. cbv zeta.
  set (ui1 := with_selected _ _ ui). change (u_status ui) with (u_status ui1). change (u_refreshID ui) with (u_refreshID ui1).
  change (u_pending ui) with (u_pending ui1). clearbody ui1.
  destruct (negb (VMActionReady _)).
  { intros [= <- <- <- <-]. unfold unavailable. by rewrite update_status, update_pending, update_refreshID. }
  destruct (VMActionAllowed (Some v) action) eqn:Ha; cbn [negb]; [|intros [= <- <- <- <-]; by rewrite update_status, update_pending, update_refreshID].
  destruct (needsConfirmation action) eqn:Hn.
  - unfold confirmActionLocked. destruct (u_pending ui1) as [[[a i] t]|] eqn:Ep;
      [destruct (bool_decide (a = action) && String.eqb i (cv_id v) && (now - t <=? confirmationWindow)%Z) eqn:Ec|];
      intros [= <- <- <- <-]; rewrite update_status, update_pending, update_refreshID; split_and!; [done..| |done|done|eauto|done|done|eauto].
    apply andb_prop in Ec as [[Ea%bool_decide_eq_true Ei%String.eqb_eq]%andb_prop Et%Z.leb_le]. subst a i.
    exists v. split_and!; eauto.
  - intros [= <- <- <- <-]; rewrite update_status, update_pending, update_refreshID; split_and!; [done..|]. exists v. by split_and!.
Qed.

(** * The calls of a goroutine *)

Definition destroys (o : operation) : option (VMAction * string) :=
  match o with KillVM id => Some (VMActionKill, id) | DeleteVM id => Some (VMActionDelete, id) | _ => None end.

Definition harmless {A} (m : TM A) : Prop :=
  ∀ w, ∃ new, tw_calls (snd (m w)) = tw_calls w ++ new ∧ Forall (λ o, destroys o = None) new.

Lemma harmless_ret {A} (a : A) : harmless (ret a).
Proof. intros w. exists []. by rewrite app_nil_r. Qed.
Lemma harmless_bind {A B} (m : TM A) (k : A → TM B) : harmless m → (∀ a, harmless (k a)) → harmless (bind m k).
Proof.
  intros Hm Hk w. rewrite bind_unfold. destruct (Hm w) as (l & Hl & ?). destruct (m w) as [a w1]. destruct (Hk a w1) as (l' & Hl' & ?).
  exists (l ++ l'). cbn [snd] in *. split; [by rewrite Hl', Hl, app_assoc|by apply Forall_app].
Qed.
Lemma harmless_tick {A} (f : nat → A) : harmless (tick f).
Proof. intros w. exists []. by rewrite app_nil_r. Qed.
Lemma harmless_api o : destroys o = None → harmless (api o).
Proof. intros Ho w. exists [o]. split; [done|by repeat constructor]. Qed.

Ltac harmless :=
  repeat first
    [ match goal with |- ∀ _, _ => intro end
    | match goal with |- harmless (bind _ _) => apply harmless_bind end
    | apply harmless_ret | apply harmless_tick | apply harmless_api; reflexivity
    | match goal with |- harmless (match ?x with _ => _ end) => destruct x end ].

Lemma CollectStatus_harmless : harmless (CollectStatus endpoint).
Proof. unfold CollectStatus. harmless. Qed.
Lemma LaunchVMFromImage_harmless ref : harmless (LaunchVMFromImage ref).
Proof. unfold LaunchVMFromImage, GenerateVMName, randomNameSuffix. harmless. Qed.
Lemma AddImage_harmless ref : harmless (AddImage ref).
Proof. unfold AddImage. harmless. Qed.

Lemma ExecuteVMAction_calls a vmID w :
  ∃ new, tw_calls (snd (ExecuteVMAction a vmID w)) = tw_calls w ++ new ∧
  (length new ≤ 1)%nat ∧ Forall (λ o, destroys o = None ∨ (needsConfirmation a = true ∧ destroys o = Some (a, vmID))) new.
Proof.
  unfold ExecuteVMAction. destruct (String.eqb _ ""); [exists []; rewrite app_nil_r; repeat constructor|].
  destruct a; eexists [_]; (split; [reflexivity|]); (split; [done|]); apply Forall_singleton; cbn; auto.
Qed.

Lemma run_task_calls t answer ui w ui' new w' l : run_task endpoint t answer ui w = (ui', new, w', l) →
  ∃ calls, tw_calls w' = tw_calls w ++ calls ∧
  (Forall (λ o, destroys o = None) calls ∨
   ∃ a vm, t = Acting a vm ∧ (length calls ≤ 1)%nat ∧ Forall (λ o, destroys o = None ∨ (needsConfirmation a = true ∧ destroys o = Some (a, cv_id vm))) calls).
Proof.
  assert (Hnil : ∃ calls, tw_calls w = tw_calls w ++ calls ∧
    (Forall (λ o, destroys o = None) calls ∨ ∃ a vm, t = Acting a vm ∧ (length calls ≤ 1)%nat ∧
       Forall (λ o, destroys o = None ∨ (needsConfirmation a = true ∧ destroys o = Some (a, cv_id vm))) calls)).
  { exists []. rewrite app_nil_r. split; [done|left; constructor]. }
  destruct t; cbn [run_task].
  - destruct (CollectStatus_harmless w) as (c & Hc & Hf). destruct (CollectStatus _ _) as [[status err] w1]. cbn [snd] in Hc.
    destruct (_ =? _)%nat; intros [= <- <- <- <-]; eauto.
  - intros [= _ <- _]. done.
  - intros [= _ <- _]. done.
  - intros [= _ <- _]. done.
  - destruct (LaunchVMFromImage_harmless imageRef w) as (c & Hc & Hf). destruct (LaunchVMFromImage _ _) as [r w1]. intros [= _ <- _]. eauto.
  - intros [= _ _ <- _]. done.
  - destruct (AddImage_harmless imageRef w) as (c & Hc & Hf). destruct (AddImage _ _) as [r w1]. intros [= _ <- _]. eauto.
  - destruct (ExecuteVMAction_calls action (cv_id vm) w) as (c & Hc & Hl & Hf). destruct (ExecuteVMAction _ _ _) as [r w1]. intros [= _ <- _].
    exists c. split; [done|]. right. eauto 10.
  - destruct (expire _ _ _ _); intros [= <- <- <- <-]; done.
Qed.

(** The goroutines that are started act only for a click. *)
Definition acts (a : VMAction) (id : string) (t : task) : bool :=
  match t with Acting a' vm => bool_decide (a' = a) && String.eqb (cv_id vm) id | _ => false end.

Lemma run_task_new t answer ui w ui' new w' l a id : run_task endpoint t answer ui w = (ui', new, w', l) → existsb (acts a id) new = false.
Proof.
  destruct t; cbn [run_task].
  - destruct (CollectStatus _ _) as [[status err] w1]. by destruct (_ =? _)%nat; intros [= <- <- <- <-].
  - intros [= H _ _]. destruct answer as [[ref|]|err]; cbn [prompted_launch] in H; [|by injection H as <- <-..].
    unfold launchImageRef in H. by destruct (negb _); injection H as <- <-.
  - intros [= H _ _]. by destruct answer as [[ref|]|err]; injection H as <- <-.
  - intros [= H _ _]. unfold launchImageRef in H. by destruct (negb _); injection H as <- <-.
  - destruct (LaunchVMFromImage _ _) as [[vm|err] w1]; by intros [= <- <- <- <-].
  - by intros [= <- <- <- <-].
  - destruct (AddImage _ _) as [[job|err] w1]; by intros [= <- <- <- <-].
  - destruct (ExecuteVMAction _ _ _) as [[err|] w1]; by intros [= <- <- <- <-].
  - by destruct (expire _ _ _ _); intros [= <- <- <- <-].
Qed.

(** * Histories *)

Definition count {A} (p : A → bool) (l : list A) : nat := length (List.filter p l).

Lemma count_app {A} (p : A → bool) l l' : count p (l ++ l') = count p l + count p l'.
Proof. unfold count. by rewrite List.filter_app, length_app. Qed.

Lemma count_cons {A} (p : A → bool) x l : count p (x :: l) = (if p x then 1 else 0) + count p l.
Proof. unfold count. cbn. by destruct (p x). Qed.

Lemma count_none {A} (p : A → bool) l : existsb p l = false → count p l = 0.
Proof. unfold count. induction l as [|x l IH]; cbn; [done|]. intros [-> ?]%orb_false_iff. auto. Qed.

Lemma count_le {A} (p : A → bool) l : count p l ≤ length l.
Proof. unfold count. induction l as [|x l IH]; cbn; [done|]. destruct (p x); cbn; lia. Qed.

Definition destroyed (a : VMAction) (id : string) (o : operation) : bool := bool_decide (destroys o = Some (a, id)).
Definition sends (a : VMAction) (id : string) (l : label) : bool :=
  match l with LAction _ a' (Some vm) Sent => bool_decide (a' = a) && String.eqb (cv_id vm) id | _ => false end.

(** After [tr], the action [a] on VM [id] has been asked for at time [at']. *)
Definition asked (tr : list label) (a : VMAction) (id : string) (at' : Z) : Prop :=
  ∃ before vm since, tr = before ++ LAction at' a (Some vm) Asked :: since ∧ cv_id vm = id ∧
  VMActionAllowed (Some vm) a = true ∧ Forall stays since.

(** Every action sent that destroys something was asked for before. *)
Definition confirmed (tr : list label) : Prop :=
  ∀ before at' a vm after, tr = before ++ LAction at' a (Some vm) Sent :: after → needsConfirmation a = true →
    VMActionAllowed (Some vm) a = true ∧
    ∃ first, asked before a (cv_id vm) first ∧ (first ≤ at' ≤ first + confirmationWindow)%Z.

Lemma asked_snoc tr a id at' l : asked tr a id at' → stays l → asked (tr ++ [l]) a id at'.
Proof.
  intros (b & vm & since & -> & ? & ? & ?) Hl. exists b, vm, (since ++ [l]). split_and!; [by rewrite <- app_assoc|done..|].
  apply Forall_app. split; [done|by constructor].
Qed.

Lemma confirmed_snoc tr l : confirmed tr →
  (∀ at' a vm, l = LAction at' a (Some vm) Sent → needsConfirmation a = true → VMActionAllowed (Some vm) a = true ∧
    ∃ first, asked tr a (cv_id vm) first ∧ (first ≤ at' ≤ first + confirmationWindow)%Z) →
  confirmed (tr ++ [l]).
Proof.
  intros Ht Hl before at' a vm after He Ha. destruct after as [|x after _] using rev_ind.
  - apply app_inj_tail in He as [<- ->]. by apply Hl.
  - rewrite app_comm_cons, app_assoc in He. apply app_inj_tail in He as [He _]. by eapply Ht.
Qed.

(** What holds after the history [tr]: a question that waits was asked; every action
    sent was confirmed; the goroutines that will act and the calls made are not more
    than the actions sent; and the newest refresh is on its way or shown. *)
Record history (tr : list label) (s : tray) : Prop := mkHistory {
  h_pending : ∀ a id at', u_pending (t_ui s) = Some (a, id, at') → asked tr a id at' ∧ (at' ≤ t_now s)%Z;
  h_confirmed : confirmed tr;
  h_calls : ∀ a id, needsConfirmation a = true →
    count (destroyed a id) (tw_calls (t_world s)) + count (acts a id) (t_tasks s) ≤ count (sends a id) tr;
  h_newest : Refreshing (u_refreshID (t_ui s)) ∈ t_tasks s ∨
    ∃ before status after, tr = before ++ LShown (u_refreshID (t_ui s)) status :: after ∧ u_status (t_ui s) = Some status }.

(** Steps of a user or the clock that neither ask nor send. *)
Definition idle (l : label) : Prop := match l with LAction _ _ _ Asked | LAction _ _ _ Sent => False | _ => True end.

Lemma idle_not_sent l a id : idle l → sends a id l = false.
Proof. destruct l as [| | |? ? [vm|] []| | | | | | | | |]; done. Qed.

Lemma idle_confirmed tr l : confirmed tr → idle l → confirmed (tr ++ [l]).
Proof. intros Ht Hl. apply confirmed_snoc; [done|]. by intros at' a vm ->. Qed.

Lemma calls_none w c a id : Forall (λ o, destroys o = None) c → count (destroyed a id) (tw_calls w ++ c) = count (destroyed a id) (tw_calls w).
Proof.
  intros Hc. rewrite count_app, (count_none _ c); [lia|]. induction Hc as [|o c Ho _ IH]; cbn; [done|].
  unfold destroyed at 1. rewrite Ho. by rewrite bool_decide_false.
Qed.

Lemma newest_snoc tr l n status' (ts ts' : list task) status :
  (Refreshing n ∈ ts ∨ ∃ b st af, tr = b ++ LShown n st :: af ∧ status = Some st) →
  (Refreshing n ∈ ts → Refreshing n ∈ ts') → status' = status →
  Refreshing n ∈ ts' ∨ ∃ b st af, tr ++ [l] = b ++ LShown n st :: af ∧ status' = Some st.
Proof.
  intros [H|(b & st & af & -> & Hs)] Ht ->; [left; auto|]. right. exists b, st, (af ++ [l]). by rewrite <- app_assoc.
Qed.

(** A step that leaves status, question and goroutines as they are, or starts some that
    do not act. *)
Lemma idle_step tr ui ui' ts ts' w now now' l :
  history tr (mkTray ui ts w now) → idle l → stays l → (now ≤ now')%Z →
  u_status ui' = u_status ui → u_pending ui' = u_pending ui →
  (∀ a id, count (acts a id) ts' = count (acts a id) ts) →
  (u_refreshID ui' = u_refreshID ui ∧ (Refreshing (u_refreshID ui) ∈ ts → Refreshing (u_refreshID ui) ∈ ts') ∨ Refreshing (u_refreshID ui') ∈ ts') →
  history (tr ++ [l]) (mkTray ui' ts' w now').
Proof.
  intros [Hp Hc Hn Hr] Hi Hst Hnow Es Ep Ec Hf. cbn [t_ui t_tasks t_world t_now] in *. split; cbn [t_ui t_tasks t_world t_now].
  - intros a id at'. rewrite Ep. intros H. destruct (Hp a id at' H). split; [by apply asked_snoc|lia].
  - by apply idle_confirmed.
  - intros a id Ha. rewrite Ec, (count_app _ tr). specialize (Hn a id Ha). lia.
  - destruct Hf as [[-> Hk]|Hk]; [|by left]. by eapply newest_snoc.
Qed.

(** A step that withdraws the question. *)
Lemma cleared_step tr ui ui' ts w now l : history tr (mkTray ui ts w now) → idle l →
  core ui' = (u_status ui, None, u_refreshID ui) → history (tr ++ [l]) (mkTray ui' ts w now).
Proof.
  intros [Hp Hc Hn Hr] Hi [= Es Ep Ei]. cbn [t_ui t_tasks t_world t_now] in *. split; cbn [t_ui t_tasks t_world t_now].
  - intros a id at'. by rewrite Ep.
  - by apply idle_confirmed.
  - intros a id Ha. rewrite (count_app _ tr). specialize (Hn a id Ha). lia.
  - rewrite Ei. by eapply newest_snoc.
Qed.

Lemma action_step tr ui ts w now index action ui' new vm o : history tr (mkTray ui ts w now) →
  runActionForIndex now index action ui = (ui', new, vm, o) →
  history (tr ++ [LAction now action vm o]) (mkTray ui' (new ++ ts) w now).
Proof.
  intros H Hr. apply runAction_core in Hr as (Es & Ei & Ho). destruct o.
  - destruct Ho as [Ep ->]. eapply idle_step; eauto; [done..|]. by destruct vm.
  - destruct Ho as (v & -> & Ha & Ep & ->). destruct H as [Hp Hc Hn Hw]. cbn [t_ui t_tasks t_world t_now] in *.
    split; cbn [t_ui t_tasks t_world t_now].
    + intros a id at'. rewrite Ep. intros [= <- <- <-]. split; [|lia]. exists tr, v, []. by split_and!.
    + apply confirmed_snoc; [done|]. intros ???. congruence.
    + intros a id Hd. rewrite (count_app _ tr). specialize (Hn a id Hd). cbn [app]. rewrite !count_cons. cbn [acts]. lia.
    + rewrite Ei. eapply newest_snoc; [exact Hw| |done]. intros ?. by right.
  - destruct Ho as (v & -> & Ha & Ep & -> & Hconf). destruct H as [Hp Hc Hn Hw]. cbn [t_ui t_tasks t_world t_now] in *.
    split; cbn [t_ui t_tasks t_world t_now].
    + intros a id at'. by rewrite Ep.
    + apply confirmed_snoc; [done|]. intros at' a vm [= <- <- <-] Hd. split; [done|]. destruct (Hconf Hd) as (first & Hf & Hle).
      exists first. destruct (Hp _ _ _ Hf). split; [done|lia].
    + intros a id Hd. rewrite (count_app _ tr). specialize (Hn a id Hd). cbn [app]. rewrite !count_cons. cbn [acts sends].
      destruct (_ && _); lia.
    + rewrite Ei. eapply newest_snoc; [exact Hw| |done]. intros ?. by right.
Qed.

Lemma task_step tr ui ts t ts' w now answer ui' new w' l : history tr (mkTray ui (ts ++ t :: ts') w now) →
  run_task endpoint t answer ui w = (ui', new, w', l) → history (tr ++ [l]) (mkTray ui' (new ++ ts ++ ts') w' now).
Proof.
  intros H Hr.
  assert (Hcalls : ∀ a id, needsConfirmation a = true →
    count (destroyed a id) (tw_calls w') + count (acts a id) (new ++ ts ++ ts') ≤ count (destroyed a id) (tw_calls w) + count (acts a id) (ts ++ t :: ts')).
  { intros a id Hd. rewrite !count_app, (count_none _ new) by by eapply run_task_new. rewrite count_cons.
    destruct (run_task_calls _ _ _ _ _ _ _ _ Hr) as (c & -> & [Hc|(a' & vm & -> & Hl & Hc)]); [rewrite calls_none by done; lia|].
    rewrite count_app. cbn [acts]. destruct (bool_decide (a' = a) && String.eqb (cv_id vm) id) eqn:E.
    - pose proof (count_le (destroyed a id) c). lia.
    - rewrite (count_none _ c); [lia|]. clear -E Hc. induction Hc as [|o c Ho _ IH]; cbn; [done|]. rewrite IH, orb_false_r.
      apply bool_decide_eq_false. destruct Ho as [->|[_ ->]]; [done|]. intros [= <- <-]. rewrite String.eqb_refl, (bool_decide_true _ eq_refl) in E. done. }
  assert (Hidle : idle l).
  { clear -Hr. destruct t; cbn [run_task] in Hr; [|by simplify_eq..| |by simplify_eq| | |].
    - destruct (CollectStatus _ _) as [[status err] w1]. destruct (_ =? _)%nat; by simplify_eq.
    - destruct (LaunchVMFromImage _ _). by simplify_eq.
    - destruct (AddImage _ _). by simplify_eq.
    - destruct (ExecuteVMAction _ _ _). by simplify_eq.
    - destruct (expire _ _ _ _); by simplify_eq. }
  destruct H as [Hp Hc Hn Hw]. cbn [t_ui t_tasks t_world t_now] in *. split; cbn [t_ui t_tasks t_world t_now].
  - intros a id at' E. apply run_task_core in Hr as [([Hk|(_ & Hk & _)] & Hst & _)|[(? & _ & _ & [= _ Hk _])|(_ & _ & [= _ Hk _])]].
    + injection Hk as _ Hk _. rewrite Hk in E. destruct (Hp _ _ _ E). split; [by apply asked_snoc|done].
    + rewrite Hk in E. destruct (Hp _ _ _ E). split; [by apply asked_snoc|done].
    + congruence.
    + congruence.
  - by apply idle_confirmed.
  - intros a id Hd. rewrite (count_app _ tr). specialize (Hn a id Hd). specialize (Hcalls a id Hd). lia.
  - assert (Hkeep : t ≠ Refreshing (u_refreshID ui) → Refreshing (u_refreshID ui) ∈ ts ++ t :: ts' → Refreshing (u_refreshID ui) ∈ new ++ ts ++ ts').
    { intros Ht Hin. rewrite !elem_of_app. rewrite elem_of_app, elem_of_cons in Hin. naive_solver. }
    apply run_task_core in Hr as [([Hk|(_ & _ & ->)] & _ & Ht)|[(status & -> & -> & [= Hs _ Hi])|(_ & Ht & [= Hs _ Hi])]].
    + injection Hk as Hs _ Hi. rewrite Hi. eapply newest_snoc; [exact Hw|auto|done].
    + left. by left.
    + right. rewrite Hi. by exists tr, status, [].
    + rewrite Hi. eapply newest_snoc; [exact Hw|auto|done].
Qed.

Ltac idling H := eapply idle_step; [exact H|exact I|exact I|lia|done|done|done|].

Lemma history_step tr s l s' : history tr s → tray_step endpoint s l s' → history (tr ++ [l]) s'.
Proof.
  intros H Hs. destruct Hs as [ui ts w now d Hd|ui ts w now|ui ts w now index|ui ts w now index|ui ts w now index action ui' new vm o Hr
    |ui ts w now|ui ts w now|ui ts w now|ui ts t ts' w now answer ui' new w' l Hdue Hr].
  - idling H. by left.
  - idling H. right. by left.
  - destruct (selectVM index ui) as [ui'|] eqn:E; cbn [default].
    + apply (cleared_step tr ui); [done|done|]. apply (core_select ui ui' index). by left.
    + rewrite bool_decide_false by by intros []. idling H. by left.
  - destruct (selectImage index ui) as [ui'|] eqn:E; cbn [default].
    + apply (cleared_step tr ui); [done|done|]. apply (core_select ui ui' index). by right.
    + rewrite bool_decide_false by by intros []. idling H. by left.
  - by eapply action_step.
  - unfold launchSelectedImage. destruct (String.eqb _ _); cbn [fst snd app]; (idling H; left; split; [done|]); [done|by right].
  - unfold promptAndLaunchImage. pose proof (core_unavailable ui) as [= Hs Hp Hi].
    destruct (negb _); cbn [fst snd app]; (idling H; left; split; [done|]); [done|by right].
  - unfold promptAndAddImage. pose proof (core_unavailable ui) as [= Hs Hp Hi].
    destruct (negb _); cbn [fst snd app]; (idling H; left; split; [done|]); [done|by right].
  - by eapply task_step.
Qed.

Lemma reachable_history tr s : runs endpoint tr s → history tr s.
Proof.
  induction 1 as [now|]; [|by eapply history_step]. split; cbn [t_ui t_tasks t_world t_now].
  - intros a id at' E. unfold onReady, refresh in E. cbn [fst u_pending with_refreshID] in E. by rewrite update_pending in E.
  - by intros [].
  - intros a id _. reflexivity.
  - left. unfold onReady, refresh. cbn [fst snd u_refreshID with_refreshID]. by left.
Qed.

(** * Running it *)

(** An event: time, a click on a row, or the end of a wait of the first goroutine. *)
Inductive event : Type := ETime (elapsed : nat) | EAction (index : nat) (action : VMAction) | ETask (answer : result (option string)).

Definition perform (e : event) (s : tray) : option (label * tray) :=
  let '(mkTray ui ts w now) := s in
  match e with
  | ETime d => Some (LTime (Z.of_nat d * 1000000000), mkTray ui ts w (now + Z.of_nat d * 1000000000))
  | EAction index action =>
      let '(ui', new, vm, o) := runActionForIndex now index action ui in Some (LAction now action vm o, mkTray ui' (new ++ ts) w now)
  | ETask answer =>
      match ts with
      | [] | Expiring _ _ _ :: _ => None
      | t :: ts => let '(ui', new, w', l) := run_task endpoint t answer ui w in Some (l, mkTray ui' (new ++ ts) w' now)
      end
  end.

Lemma perform_step e s l s' : perform e s = Some (l, s') → tray_step endpoint s l s'.
Proof.
  destruct s as [ui ts w now]. destruct e as [d|index action|answer]; cbn [perform].
  - intros [= <- <-]. constructor. lia.
  - destruct (runActionForIndex _ _ _ _) as [[[ui' new] vm] o] eqn:E. intros [= <- <-]. by econstructor.
  - destruct ts as [|t ts]; [done|]. destruct (run_task endpoint t answer ui w) as [[[ui' new] w'] l'] eqn:E.
    intros H. assert ((l, s') = (l', mkTray ui' (new ++ ts) w' now) ∧ task_due now t) as [[= -> ->] Hd] by (destruct t; simplify_eq; done).
    by apply (step_task endpoint ui [] t ts w now answer).
Qed.

Definition perform_all (es : list event) (start : list label * tray) : option (list label * tray) :=
  foldl (λ acc e, trs ← acc; lt ← perform e (snd trs); Some (fst trs ++ [fst lt], snd lt)) (Some start) es.

Lemma perform_all_runs es tr s tr' s' : runs endpoint tr s → perform_all es (tr, s) = Some (tr', s') → runs endpoint tr' s'.
Proof.
  unfold perform_all. revert tr s. induction es as [|e es IH]; intros tr s H; cbn [foldl]; [by intros [= <- <-]|].
  change (Some (tr, s) ≫= ?f) with (f (tr, s)). cbn beta. cbn [fst snd]. destruct (perform e s) as [[l s1]|] eqn:E; cbn [mbind option_bind fst snd].
  - apply IH. econstructor; [exact H|]. by eapply perform_step.
  - clear. intros H. exfalso. revert H. induction es; cbn [foldl]; [done|]. exact IHes.
Qed.

End Reachable.

Definition tray_start (now : Z) : tray := mkTray (fst onReady) (snd onReady) (mkTWorld [] 0) now.

(** C38: the tray destroys nothing by a slip.  In every run, whatever the API and the
    prompts answer and however the goroutines interleave: each kill or delete it sends
    comes from two clicks on that action for the same VM, the second at most ten seconds
    after the first, while the status allowed the action, and with nothing else asked
    for, sent, selected or refreshed in between; and of each VM no more kills or deletes
    are requested from the API than were sent in this way. *)
Theorem destructive_actions_confirmed `{TE : TrayEnv} endpoint tr s : runs endpoint tr s →
  confirmed tr ∧
  ∀ a id, needsConfirmation a = true → count (destroyed a id) (tw_calls (t_world s)) ≤ count (sends a id) tr.
Proof.
  intros H. apply reachable_history in H. split; [apply H|]. intros a id Ha. pose proof (h_calls _ _ H a id Ha). lia.
Qed.

(** The menu shows what the daemon said last.  In every run the rows are exactly the
    first twenty-five VMs of the last status shown, an action can be clicked exactly when
    this status allows it, and asks for its confirmation exactly while one is awaited;
    and an older refresh that answers late never replaces a newer one: the newest one is
    on its way, or the status shown is the one it brought. *)
Theorem menu_is_current `{TE : TrayEnv} endpoint tr s : runs endpoint tr s →
  menu_shows (t_ui s) ∧
  (Refreshing (u_refreshID (t_ui s)) ∈ t_tasks s ∨
   ∃ before status after, tr = before ++ LShown (u_refreshID (t_ui s)) status :: after ∧ u_status (t_ui s) = Some status).
Proof. intros H. split; [by eapply reachable_shows|]. by eapply h_newest, reachable_history. Qed.

(** * A daemon with one running VM *)

Definition tray_vm (state : string) : ClientVM :=
  mkClientVM "vm-1" "web" state "alpine" "" "" (mkConfig 1 128 "" "" (mkNet "nat" "" "" None "" "" "" [] None) [] [] [])
    (Some (mkRt 7 "" "" "" "" None)).

Definition one_vm : TrayEnv := {|
  te_answer _ o :=
    match o with
    | Health => Ok "ok"
    | Capabilities => Ok (mkCaps true "")
    | ListVMs _ => Ok (Some [tray_vm "running"])
    | ListImages => Ok (Some [])
    | CreateVM _ | StartVM _ | StopVM _ _ | KillVM _ => Ok (Some (tray_vm "stopped"))
    | PullImage _ => Ok (Some "job-1")
    | _ => Ok tt
    end;
  te_text _ := "error"; te_random _ := Ok [1; 2; 3]%Z; te_stamp _ := "0"; te_clock n := Z.of_nat n; te_goos := "darwin" |}.

Definition tray_run (es : list event) : option (list label * tray) := perform_all (TE := one_vm) "unix:" es ([], tray_start 0).

(** Two clicks within five seconds kill the VM, once. *)
Definition two_clicks : list event := [ETask (Ok None); EAction 0 VMActionKill; ETime 5; EAction 0 VMActionKill; ETask (Ok None)].

Lemma tray_run_runs es tr s : tray_run es = Some (tr, s) → runs (TE := one_vm) "unix:" tr s.
Proof. apply perform_all_runs. apply (runs_start "unix:" 0). Qed.

Lemma two_clicks_run :
  match tray_run two_clicks with
  | Some (tr, s) =>
      tw_calls (t_world s) = [Health; Capabilities; ListVMs ""; ListImages; KillVM "vm-1"] ∧ count (sends VMActionKill "vm-1") tr = 1
  | None => False
  end.
Proof. vm_compute. split; reflexivity. Qed.

Lemma one_click_run :
  match tray_run (take 2 two_clicks) with
  | Some (tr, s) => (it_title ∘ r_kill <$> u_vmItems (t_ui s) !! 0) = Some "Confirm Kill" ∧ t_tasks s = [Expiring VMActionKill "vm-1" 0]
  | None => False
  end.
Proof. vm_compute. split; reflexivity. Qed.

Lemma destructive_actions_confirmed_witness :
  match tray_run two_clicks with
  | Some (tr, s) =>
      confirmed tr ∧ count (destroyed VMActionKill "vm-1") (tw_calls (t_world s)) ≤ count (sends VMActionKill "vm-1") tr ∧
      tw_calls (t_world s) = [Health; Capabilities; ListVMs ""; ListImages; KillVM "vm-1"] ∧ count (sends VMActionKill "vm-1") tr = 1
  | None => False
  end.
Proof.
  pose proof two_clicks_run as Hrun. destruct (tray_run two_clicks) as [[tr s]|] eqn:E; [|done].
  destruct (destructive_actions_confirmed (TE := one_vm) "unix:" tr s (tray_run_runs two_clicks tr s E)) as [Hc Hn].
  split; [exact Hc|]. split; [by apply Hn|exact Hrun].
Defined.

Lemma menu_is_current_witness :
  match tray_run (take 2 two_clicks) with
  | Some (tr, s) => menu_shows (t_ui s) ∧ (it_title ∘ r_kill <$> u_vmItems (t_ui s) !! 0) = Some "Confirm Kill"
  | None => False
  end.
Proof.
  pose proof one_click_run as Hrun. destruct (tray_run (take 2 two_clicks)) as [[tr s]|] eqn:E; [|done].
  destruct (menu_is_current (TE := one_vm) "unix:" tr s (tray_run_runs (take 2 two_clicks) tr s E)) as [Hm _].
  split; [exact Hm|apply Hrun].
Defined.

(** * The menu and the daemon *)

Definition action_request (a : VMAction) : option LifecycleSpec.request :=
  match a with
  | VMActionStart => Some ReqStart
  | VMActionStop => Some (ReqStop (VmLifecycle.Body (Some DefaultStopTimeoutSeconds)))
  | VMActionKill => Some ReqKill
  | VMActionDelete => None
  end.

(** What the menu enables for the state of a VM is never refused for this state by a
    daemon in which the VM still has it; and a start or a stop that the menu disables
    would be refused, or change nothing. *)
Lemma menu_agrees_with_daemon vm a req s : String.eqb (trim_space (cv_id vm)) "" = false →
  cv_state vm = state_string s → action_request a = Some req →
  if VMActionAllowed (Some vm) a then Forall (λ o, fst o ≠ 409%Z) (outcomes req s)
  else a = VMActionKill ∨ outcomes req s = [(409%Z, s)] ∨ outcomes req s = [(200%Z, s)].
Proof.
  intros Hid Hst Ha. unfold VMActionAllowed. rewrite Hid, Hst. destruct a; cbn in Ha; try discriminate Ha; injection Ha as <-.
  - destruct s; vm_compute; auto; repeat constructor; discriminate.
  - destruct s; vm_compute; auto; repeat constructor; discriminate.
  - destruct (vmHasRuntimeHandle vm), s; vm_compute; auto; repeat constructor; discriminate.
Qed.

(** * Names of launched VMs *)

Definition name_char (a : ascii) : bool := is_base a || Ascii.eqb a "-".

Lemma limitTitle_length s : String.length (limitTitle s) ≤ 72.
Proof.
  unfold limitTitle. destruct (Nat.leb_spec (String.length (one_line s)) 72); [done|]. rewrite string_app_length. cbn.
  assert (∀ n t, String.length (String.substring 0 n t) ≤ n) as Hs; [|pose proof (Hs 69 (one_line s)); lia].
  intros n t. revert n. induction t as [|c t IH]; intros [|n]; cbn; [lia..|]. specialize (IH n). lia.
Qed.

Example names :
  sanitizeImageName "Docker.io/Library/Alpine:3.20@sha256:ab" = "alpine-3-20" ∧ sanitizeImageName " @" = "image" ∧
  fst (GenerateVMName (TE := one_vm) "ghcr.io/x/an-image-with-a-very-long-name:v1" (mkTWorld [] 0)) = "nf-an-image-with-a-very-long-010203".
Proof. vm_compute. split_and!; reflexivity. Qed.

(** A refresh that ends while a VM is launched enables the item again: a second launch
    can be sent before the first has ended. *)
Definition native : Status := mkStatus "unix:" 0 (Some "ok") (Some (mkCaps true "")) [] [mkClientImage "sha256:1" ["alpine"]] "".

Example launch_twice :
  let ui := refreshed native None (fst onReady) in
  match selectImage 0 ui with
  | Some ui =>
      let launching := fst (launchImageRef "alpine" ui) in
      it_enabled (u_createItem launching) = false ∧ it_enabled (u_createItem (refreshed native None launching)) = true
  | None => False
  end.
Proof. vm_compute. split; reflexivity. Qed.

(** When the images cannot be listed the VMs that were listed stay in the menu, although
    the refresh means to hide them. *)
Example partial_status_is_shown :
  let status := mkStatus "unix:" 0 (Some "ok") (Some (mkCaps true "")) [tray_vm "running"] [] "list images: error" in
  let ui := refreshed status (Some (ErrorsNew "list images")) (fst onReady) in
  (λ r, (it_shown (r_root r), it_enabled (r_stop r))) <$> u_vmItems ui !! 0 = Some (true, false).
Proof. vm_compute. reflexivity. Qed.

(** A launch whose start fails leaves the VM that was created. *)
Definition failing_start : TrayEnv := {|
  te_answer n o := match o with StartVM _ => Err (ErrorsNew "busy") | _ => te_answer (TrayEnv := one_vm) n o end;
  te_text _ := "error"; te_random _ := Ok [1; 2; 3]%Z; te_stamp _ := "0"; te_clock n := Z.of_nat n; te_goos := "darwin" |}.

Example failed_launch_leaves_the_vm :
  let '(r, w) := LaunchVMFromImage (TE := failing_start) "alpine" (mkTWorld [] 0) in
  is_Ok r = false ∧ (op_method <$> tw_calls w) = ["POST"; "POST"] ∧ (op_path <$> tw_calls w) = ["/vms"; "/vms/vm-1/start"].
Proof. vm_compute. split_and!; reflexivity. Qed.
