(* ===== verification/RootPage.v ===== *)
(** The daemon about itself (src/internal/api/handlers.go): its health, the capabilities
    of the host, and the page of the root, whose texts come from the database and the
    host and are escaped.  What a browser makes of the page is a reading of it: the
    markup, and the text that is shown.

    The page of the root as a browser reads it: no text adds markup, and each text is
    shown as it is stored; and what the capabilities say of the host. *)

From S2P Require Import Prelude GoStrings Types Ipam Storage DaemonConfig Images.
From S2P Require Server.

(** * Capabilities *)

(* @type internal/types/errors.go HealthResponse *)
Record HealthResponse : Type := mkHealth { hr_status : string; hr_version : string; hr_uptime : Z }.

(* @type internal/types/errors.go HostCapabilities *)
Record HostCapabilities : Type := mkHostCap {
  hc_os : string; hc_arch : string; hc_kvm_device : string; hc_kvm_exists : bool; hc_kvm_rw : bool; hc_kvm_error : string }.

(* @type internal/types/errors.go RuntimeCapabilities *)
Record RuntimeCapabilities : Type := mkRtCap {
  rt_native : bool; rt_driver : string; rt_firecracker : string; rt_firecracker_available : bool; rt_apple : string;
  rt_apple_available : bool; rt_apple_running : bool; rt_virtualization : bool; rt_root : bool; rt_network : bool; rt_message : string }.

(* @type internal/types/errors.go CapabilitiesResponse *)
Record CapabilitiesResponse : Type := mkCap {
  cp_status : string; cp_version : string; cp_host : HostCapabilities; cp_runtime : RuntimeCapabilities;
  cp_socket : string; cp_tcp : string }.

(** What the host answers: the operating system, files, and commands. *)
Class Probe : Type := {
  pr_goos : string; pr_goarch : string;
  pr_stat : string → result (bool * Z);                          (* a directory? the mode *)
  pr_open_rw : string → option error;
  pr_command : string → list string → string * option error;     (* what it prints *)
  pr_text : error → string }.

(* @src internal/api/server.go:75-79 apiVersion *)
Definition apiVersion : string := "0.1.0".

Section Root.
Context `{Probe}.

(** [uptime]: nanoseconds since the start. *)
(* @func internal/api/handlers.go handleHealth *)
Definition handleHealth (uptime : Z) : HealthResponse := mkHealth "healthy" apiVersion (Z.quot uptime 1000000000).

(* @func internal/api/handlers.go executableAvailable *)
Definition executableAvailable (path : string) : bool :=
  if String.eqb path "" then false
  else match pr_stat path with
       | Err _ => false
       | Ok (is_dir, mode) => negb is_dir && negb (Z.land mode 73 =? 0)%Z
       end.

(* @func internal/api/handlers.go inspectKVMDevice *)
Definition inspectKVMDevice (path : string) : bool * bool * string :=
  match pr_stat path with
  | Err err => if os_IsNotExist err then (false, false, "not found") else (false, false, pr_text err)
  | Ok _ => match pr_open_rw path with Some err => (true, false, pr_text err) | None => (true, true, "") end
  end.

(* @func internal/api/handlers.go appleContainerSystemRunning *)
Definition appleContainerSystemRunning (path : string) : bool :=
  match pr_command path ["system"; "status"] with
  | (out, None) => contains "apiserver is running" out
  | (_, Some _) => false
  end.

(* @func internal/api/handlers.go appleVirtualizationFrameworkSupported *)
Definition appleVirtualizationFrameworkSupported (goos : string) : bool :=
  if negb (String.eqb goos "darwin") then false
  else match pr_command "sysctl" ["-n"; "kern.hv_support"] with
       | (out, None) => String.eqb (trim_space out) "1"
       | (_, Some _) => false
       end.

(* @func internal/api/handlers.go appleContainerNativeReady *)
Definition appleContainerNativeReady (goos : string) (available virtualizationSupported running autoStart : bool) : bool :=
  String.eqb goos "darwin" && available && virtualizationSupported && (running || autoStart).

Definition message_linux : string := "Linux KVM and Firecracker are available for local microVM execution".
Definition message_apple : string := "Apple container and Virtualization.framework are available for local macOS Linux microVM execution".
Definition message_on_demand : string := "Apple container is installed for local macOS Linux microVM execution; service will be started on demand".
Definition message_required : string :=
  "Nanofuse microVM execution requires Linux/KVM with Firecracker or macOS with Apple container and Virtualization.framework".
Definition message_stopped : string := "Apple container is installed but services are stopped and runtime.apple_container.auto_start is false".

(** The configuration is present; [driver]: the runtime it selects. *)
(* @func internal/api/handlers.go capabilitiesResponse *)
Definition capabilitiesResponse (cfg : Config) (driver : string) : CapabilitiesResponse :=
  let firecrackerBinary := fc_binary (c_firecracker cfg) in
  let apple := rc_apple (c_runtime cfg) in
  let '(kvmExists, kvmReadWrite, kvmErr) := inspectKVMDevice "/dev/kvm" in
  let firecrackerAvailable := executableAvailable firecrackerBinary in
  let appleContainerAvailable := executableAvailable (ac_binary apple) in
  let is_apple := String.eqb driver "apple_container" in
  let appleContainerRunning := is_apple && appleContainerAvailable && appleContainerSystemRunning (ac_binary apple) in
  let virtualizationSupported := appleVirtualizationFrameworkSupported pr_goos in
  let appleContainerReady := is_apple &&
    appleContainerNativeReady pr_goos appleContainerAvailable virtualizationSupported appleContainerRunning (ac_auto_start apple) in
  let nativeRuntime :=
    (String.eqb driver "firecracker" && String.eqb pr_goos "linux" && kvmReadWrite && firecrackerAvailable) || appleContainerReady in
  let message :=
    if is_apple && appleContainerReady then (if negb appleContainerRunning then message_on_demand else message_apple) else message_linux in
  let message :=
    if negb nativeRuntime then
      if is_apple && String.eqb pr_goos "darwin" && appleContainerAvailable && negb appleContainerRunning && negb (ac_auto_start apple)
      then message_stopped else message_required
    else message in
  mkCap "ok" apiVersion
    (mkHostCap pr_goos pr_goarch "/dev/kvm" kvmExists kvmReadWrite kvmErr)
    (mkRtCap nativeRuntime driver firecrackerBinary firecrackerAvailable (ac_binary apple) appleContainerAvailable appleContainerRunning
      virtualizationSupported (String.eqb driver "firecracker") (String.eqb driver "firecracker") message)
    (api_socket (c_api cfg)) (api_tcp (c_api cfg)).

(** * Inventory *)

(** [dbImages]: the answer of the database; [provider]: of the runtime, when it provides
    images. *)
(* @func internal/api/handlers.go rootImages *)
Definition rootImages (dbImages : result (list Image)) (provider : option (result (list Image))) : list Image * option error :=
  match dbImages with
  | Err err => ([], Some err)
  | Ok images =>
      match provider with
      | None => (images, None)
      | Some (Err err) => (images, Some err)
      | Some (Ok runtimeImages) => (mergeRuntimeImages images runtimeImages, None)
      end
  end.

(* @func internal/api/handlers.go rootVMName *)
Definition rootVMName (vm : VM) : string := if negb (String.eqb (trim_space (vm_name vm)) "") then vm_name vm else vm_id vm.

(* @func internal/api/handlers.go rootImageName *)
Definition rootImageName (image : Image) : string :=
  match img_tags image with
  | _ :: _ => join ", " (img_tags image)
  | [] => if negb (String.eqb (img_digest image) "") then img_digest image else "untagged image"
  end.

(* @func internal/api/handlers.go rootPortSummary *)
Definition rootPortSummary (portForwards : list PortForward) : string :=
  match portForwards with
  | [] => "none exposed"
  | _ => join ", " ((λ pf, "127.0.0.1:" +:+ fmt_d (HostPort pf) +:+ " -> vm:" +:+ fmt_d (VMPort pf) +:+ "/" +:+
                       (if String.eqb (Protocol pf) "" then "tcp" else Protocol pf)) <$> portForwards)
  end.

(** * The page *)

(** A quotation mark is written as a tilde in the texts below. *)
Fixpoint dq (s : string) : string :=
  match s with
  | EmptyString => ""
  | String a s => String (if Ascii.eqb a "~" then "034" else a) (dq s)
  end.

Definition lf : string := String "010" "".

(** [html.EscapeString]. *)
Definition escape_char (a : ascii) : string :=
  if Ascii.eqb a "&" then "&amp;" else if Ascii.eqb a "'" then "&#39;" else if Ascii.eqb a "<" then "&lt;"
  else if Ascii.eqb a ">" then "&gt;" else if Ascii.eqb a "034" then "&#34;" else String a "".
Fixpoint EscapeString (s : string) : string :=
  match s with EmptyString => "" | String a s => escape_char a +:+ EscapeString s end.

Definition fmt_t (b : bool) : string := if b then "true" else "false".

(** A page is written piece by piece: markup of the program, texts from elsewhere, which
    are escaped, and truth values, which need not be. *)
Inductive piece : Type := Html (s : string) | Escaped (s : string) | Plain (b : bool).

Definition write_piece (p : piece) : string :=
  match p with Html s => s | Escaped s => EscapeString s | Plain b => fmt_t b end.

Definition write (ps : list piece) : string := foldr (λ p s, write_piece p +:+ s) "" ps.

(* @src internal/api/handlers.go:83-116 renderRootPage *)
Definition page_head : string := (dq "<!doctype html>
<html lang=~en~>
<head>
<meta charset=~utf-8~>
<meta name=~viewport~ content=~width=device-width, initial-scale=1~>
<title>Nanofuse</title>
<style>
:root { color-scheme: light dark; font-family: ui-sans-serif, system-ui, -apple-system, BlinkMacSystemFont, ~Segoe UI~, sans-serif; }
body { margin: 0; padding: 32px; background: Canvas; color: CanvasText; }
main { max-width: 1120px; margin: 0 auto; }
h1 { margin: 0 0 8px; font-size: 32px; }
h2 { margin-top: 32px; font-size: 20px; }
a { color: LinkText; }
code, pre { font-family: ui-monospace, SFMono-Regular, Menlo, Consolas, monospace; }
pre { overflow: auto; padding: 16px; border: 1px solid color-mix(in srgb, CanvasText 20%, Canvas); border-radius: 6px; }
table { width: 100%; border-collapse: collapse; margin-top: 12px; }
th, td { text-align: left; padding: 10px 12px; border-bottom: 1px solid color-mix(in srgb, CanvasText 16%, Canvas); vertical-align: top; }
th { font-size: 12px; text-transform: uppercase; letter-spacing: 0; }
.muted { color: color-mix(in srgb, CanvasText 62%, Canvas); }
.grid { display: grid; grid-template-columns: repeat(auto-fit, minmax(220px, 1fr)); gap: 12px; margin-top: 20px; }
.panel { border: 1px solid color-mix(in srgb, CanvasText 18%, Canvas); border-radius: 6px; padding: 14px; }
.label { display: block; font-size: 12px; text-transform: uppercase; letter-spacing: 0; color: color-mix(in srgb, CanvasText 62%, Canvas); }
.value { display: block; margin-top: 4px; overflow-wrap: anywhere; }
</style>
</head>
<body>
<main>
<h1>Nanofuse</h1>
<p class=~muted~>Local microVM API daemon status and launch inventory.</p>
<p><a href=~/health~>Health</a> | <a href=~/capabilities~>Capabilities</a> | <a href=~/vms~>VMs JSON</a> | <a href=~/images~>Images JSON</a></p>
").

(* @func internal/api/handlers.go writeRootRuntime *)
Definition writeRootRuntime (c : CapabilitiesResponse) : list piece :=
  let r := cp_runtime c in
  [ Html (dq "<h2>Runtime</h2>
<div class=~grid~>
<div class=~panel~><span class=~label~>Driver</span><span class=~value~>"); Escaped (rt_driver r);
    Html (dq "</span></div>
<div class=~panel~><span class=~label~>Native Runtime</span><span class=~value~>"); Plain (rt_native r);
    Html (dq "</span></div>
<div class=~panel~><span class=~label~>Apple Container</span><span class=~value~>installed="); Plain (rt_apple_available r);
    Html " running="; Plain (rt_apple_running r); Html " virtualization="; Plain (rt_virtualization r);
    Html (dq "</span></div>
<div class=~panel~><span class=~label~>Firecracker</span><span class=~value~>installed="); Plain (rt_firecracker_available r);
    Html " kvm="; Plain (hc_kvm_rw (cp_host c));
    Html (dq "</span></div>
</div>
<p class=~muted~>"); Escaped (rt_message r); Html ("</p>" +:+ lf) ].

Definition vm_line (vm : VM) : list piece :=
  [ Html "<tr><td>"; Escaped (rootVMName vm); Html "</td><td><code>"; Escaped (vm_id vm); Html "</code></td><td>";
    Escaped (state_string (vm_state vm)); Html "</td><td>"; Escaped (vm_image vm); Html "</td><td>";
    Escaped (rootPortSummary (n_forwards (c_network (vm_config vm)))); Html ("</td></tr>" +:+ lf) ].

(* @func internal/api/handlers.go writeRootVMs *)
Definition writeRootVMs (vms : list VM) (vmErr : option error) : list piece :=
  Html ("<h2>VMs</h2>" +:+ lf) ::
  match vmErr with
  | Some err => [Html "<p>VM inventory unavailable: "; Escaped (pr_text err); Html ("</p>" +:+ lf)]
  | None =>
      match vms with
      | [] => [Html ("<p>No VMs.</p>" +:+ lf)]
      | _ =>
          Html "<table>
<thead><tr><th>Name</th><th>ID</th><th>State</th><th>Image</th><th>Ports</th></tr></thead>
<tbody>
" :: (vms ≫= vm_line) ++ [Html "</tbody>
</table>
"]
      end
  end.

Definition image_line (image : Image) : list piece :=
  [ Html "<tr><td>"; Escaped (rootImageName image); Html "</td><td><code>"; Escaped (img_digest image); Html "</code></td><td>";
    Escaped (img_arch image); Html ("</td></tr>" +:+ lf) ].

(* @func internal/api/handlers.go writeRootImages *)
Definition writeRootImages (images : list Image) (imageErr : option error) : list piece :=
  let table :=
    match images with
    | [] => [Html ("<p>No cached or runtime images.</p>" +:+ lf)]
    | _ =>
        Html "<table>
<thead><tr><th>Reference</th><th>Digest</th><th>Architecture</th></tr></thead>
<tbody>
" :: (images ≫= image_line) ++ [Html "</tbody>
</table>
"]
    end in
  Html ("<h2>Images</h2>" +:+ lf) ::
  match imageErr with
  | Some err =>
      [Html "<p>Runtime image inventory partially unavailable: "; Escaped (pr_text err); Html ("</p>" +:+ lf)] ++
      match images with [] => [] | _ => table end
  | None => table
  end.

(* @func internal/api/handlers.go writeRootCommands *)
Definition writeRootCommands : list piece :=
  [ Html "<h2>CLI</h2>
<pre>export NANOFUSE_API_URL=http://127.0.0.1:18080
bin/nanofuse vm list
bin/nanofuse vm ports
bin/nanofuse vm exec &lt;vm-id&gt; -- sh -lc 'cat /etc/os-release'</pre>
" ].

Definition root_pieces (c : CapabilitiesResponse) (vms : list VM) (vmErr : option error) (images : list Image) (imageErr : option error) :
    list piece :=
  Html page_head :: writeRootRuntime c ++ writeRootVMs vms vmErr ++ writeRootImages images imageErr ++ writeRootCommands ++
  [Html "</main>
</body>
</html>
"].

(* @func internal/api/handlers.go renderRootPage *)
Definition renderRootPage (c : CapabilitiesResponse) (vms : list VM) (vmErr : option error) (images : list Image) (imageErr : option error) :
    string := write (root_pieces c vms vmErr images imageErr).

(** [None]: the path is not the root. *)
(* @func internal/api/handlers.go handleRoot *)
Definition handleRoot (path : string) (cfg : Config) (driver : string) (vms : result (list VM)) (dbImages : result (list Image))
    (provider : option (result (list Image))) : option string :=
  if negb (String.eqb path "/") then None
  else
    let '(vms, vmErr) := match vms with Ok l => (l, None) | Err err => ([], Some err) end in
    let '(images, imageErr) := rootImages dbImages provider in
    Some (renderRootPage (capabilitiesResponse cfg driver) vms vmErr images imageErr).

End Root.

(** * Reading a page *)

(** A character of the markup, or one that is shown. *)
Inductive token : Type := Markup (a : ascii) | Shown (a : ascii).
Inductive reading : Type := InText | InTag | InEntity (name : string).

Definition entities : list (string * ascii) := [("amp", "&"%char); ("#39", "'"%char); ("lt", "<"%char); ("gt", ">"%char); ("#34", "034"%char)].

Fixpoint lookup_entity (name : string) (l : list (string * ascii)) : option ascii :=
  match l with [] => None | (n, a) :: l => if String.eqb n name then Some a else lookup_entity name l end.

Fixpoint lex (st : reading) (s : string) : list token * reading :=
  match s with
  | EmptyString => ([], st)
  | String a s =>
      match st with
      | InTag => let '(ts, st') := lex (if Ascii.eqb a ">" then InText else InTag) s in (Markup a :: ts, st')
      | InText =>
          if Ascii.eqb a "<" then let '(ts, st') := lex InTag s in (Markup a :: ts, st')
          else if Ascii.eqb a "&" then lex (InEntity "") s
          else let '(ts, st') := lex InText s in (Shown a :: ts, st')
      | InEntity name =>
          if Ascii.eqb a ";" then
            let '(ts, st') := lex InText s in
            (match lookup_entity name entities with Some c => Shown c :: ts | None => Markup "&" :: ts end, st')
          else lex (InEntity (name +:+ String a "")) s
      end
  end.

Definition markup (ts : list token) : list ascii := omap (λ t, match t with Markup a => Some a | Shown _ => None end) ts.

Fixpoint shown (s : string) : list token := match s with EmptyString => [] | String a s => Shown a :: shown s end.

Lemma lex_app st s t :
  lex st (s +:+ t) = (fst (lex st s) ++ fst (lex (snd (lex st s)) t), snd (lex (snd (lex st s)) t)).
Proof.
  revert st. induction s as [|a s IH]; intros st.
  { change ("" +:+ t) with t. cbn [lex fst snd app]. by destruct (lex st t). }
  rewrite string_app_cons. cbn [lex]. destruct st as [| |name].
  - destruct (Ascii.eqb a "<"); [|destruct (Ascii.eqb a "&"); [apply IH|]]; rewrite IH.
    + by destruct (lex InTag s) as [ts st'].
    + by destruct (lex InText s) as [ts st'].
  - rewrite IH. by destruct (lex _ s) as [ts st'].
  - destruct (Ascii.eqb a ";"); [|apply IH]. rewrite IH. destruct (lex InText s) as [ts st']. cbn [fst snd].
    by destruct (lookup_entity name entities).
Qed.

(** A text that has been escaped is shown as it was. *)
Lemma lex_escaped s : lex InText (EscapeString s) = (shown s, InText).
Proof.
  induction s as [|a s IH]; [done|]. cbn [EscapeString shown]. rewrite lex_app.
  assert (lex InText (escape_char a) = ([Shown a], InText)) as ->; [|cbn [fst snd]; by rewrite IH].
  unfold escape_char. repeat (case_match; [match goal with E : Ascii.eqb a _ = true |- _ => apply Ascii.eqb_eq in E as ->; reflexivity end|]).
  cbn [lex]. repeat match goal with E : Ascii.eqb a _ = false |- _ => rewrite E; clear E end. done.
Qed.

Lemma markup_app ts ts' : markup (ts ++ ts') = markup ts ++ markup ts'.
Proof. apply omap_app. Qed.

Lemma markup_shown s : markup (shown s) = [].
Proof. induction s as [|a s IH]; [done|exact IH]. Qed.

(** * Pieces *)

Definition tokens_of (p : piece) : list token :=
  match p with Html s => fst (lex InText s) | Escaped s => shown s | Plain b => shown (fmt_t b) end.

(** Markup of the program that begins and ends in text. *)
Definition closed (p : piece) : Prop := match p with Html s => snd (lex InText s) = InText | _ => True end.

Lemma lex_piece p : closed p → lex InText (write_piece p) = (tokens_of p, InText).
Proof.
  destruct p as [s|s|b]; intros Hc; cbn [write_piece tokens_of closed] in *; [|apply lex_escaped|by destruct b].
  destruct (lex InText s) as [ts st]. cbn [fst snd] in *. by subst.
Qed.

Lemma lex_write ps : Forall closed ps → lex InText (write ps) = (ps ≫= tokens_of, InText).
Proof.
  induction 1 as [|p ps Hp Hps IH]; [done|]. change (write (p :: ps)) with (write_piece p +:+ write ps).
  rewrite lex_app, lex_piece by done. cbn [fst snd]. by rewrite IH.
Qed.

(** The markup of a page is that of the program's pieces. *)
Definition frame (p : piece) : list ascii := match p with Html s => markup (fst (lex InText s)) | _ => [] end.

Lemma markup_pieces ps : markup (ps ≫= tokens_of) = ps ≫= frame.
Proof.
  induction ps as [|p ps IH]; [done|]. rewrite !bind_cons, markup_app, IH. f_equal.
  destruct p as [s|s|b]; [done|apply markup_shown|apply markup_shown].
Qed.

Section Page.
Context `{Probe}.

Ltac pieces := repeat first [apply Forall_nil; exact I | apply Forall_cons; split; [first [exact I | vm_compute; reflexivity]|]].

Lemma vm_line_closed vm : Forall closed (vm_line vm).
Proof. unfold vm_line. pieces. Qed.
Lemma image_line_closed i : Forall closed (image_line i).
Proof. unfold image_line. pieces. Qed.

Lemma closed_bind {A} (f : A → list piece) l : (∀ a, Forall closed (f a)) → Forall closed (l ≫= f).
Proof. intros Hf. induction l as [|a l IH]; [by apply Forall_nil|]. rewrite bind_cons. by apply Forall_app. Qed.

Lemma root_pieces_closed c vms ve images ie : Forall closed (root_pieces c vms ve images ie).
Proof.
  unfold root_pieces, writeRootRuntime, writeRootVMs, writeRootImages, writeRootCommands.
  apply Forall_cons; split; [vm_compute; reflexivity|]. rewrite !Forall_app. split_and!; [pieces| |..].
  - apply Forall_cons; split; [vm_compute; reflexivity|]. destruct ve; [pieces|]. destruct vms; [pieces|].
    apply Forall_cons; split; [vm_compute; reflexivity|]. apply Forall_app. split; [apply closed_bind, vm_line_closed|pieces].
  - apply Forall_cons; split; [vm_compute; reflexivity|].
    assert (∀ i l, Forall closed ((i :: l) ≫= image_line)) as Hl by (intros; apply closed_bind, image_line_closed).
    destruct ie, images; rewrite ?Forall_app, ?Forall_cons, ?Forall_app; split_and!; try apply Hl; pieces; vm_compute; reflexivity.
  - pieces.
  - pieces.
Qed.

Lemma frame_rows {A B} (f : A → list piece) (g : B → list piece) k l l' :
  (∀ a, f a ≫= frame = k) → (∀ b, g b ≫= frame = k) → length l = length l' → (l ≫= f) ≫= frame = (l' ≫= g) ≫= frame.
Proof.
  intros Hf Hg. revert l'. induction l as [|a l IH]; intros [|b l']; cbn [length]; try done. intros [= Hl].
  rewrite !bind_cons, !bind_app, Hf, Hg. f_equal. by apply IH.
Qed.

Lemma read_page c vms ve images ie :
  lex InText (renderRootPage c vms ve images ie) = (root_pieces c vms ve images ie ≫= tokens_of, InText).
Proof. apply lex_write, root_pieces_closed. Qed.

Lemma vms_frame vms vms' ve ve' : length vms = length vms' → (ve = None ↔ ve' = None) →
  writeRootVMs vms ve ≫= frame = writeRootVMs vms' ve' ≫= frame.
Proof.
  intros Hl He. unfold writeRootVMs. rewrite !bind_cons. f_equal.
  destruct ve, ve'; [done|by destruct He as [_ He]; specialize (He eq_refl)|by destruct He as [He _]; specialize (He eq_refl)|].
  destruct vms as [|vm vms], vms' as [|vm' vms']; try done.
  assert (((vm :: vms) ≫= vm_line) ≫= frame = ((vm' :: vms') ≫= vm_line) ≫= frame) as Hr
    by by apply (frame_rows vm_line vm_line (vm_line vm ≫= frame)).
  revert Hr. generalize ((vm :: vms) ≫= vm_line), ((vm' :: vms') ≫= vm_line). intros r r' Hr. by rewrite !bind_cons, !bind_app, Hr.
Qed.

Lemma images_frame images images' ie ie' : length images = length images' → (ie = None ↔ ie' = None) →
  writeRootImages images ie ≫= frame = writeRootImages images' ie' ≫= frame.
Proof.
  intros Hl He. unfold writeRootImages. rewrite !bind_cons. f_equal.
  assert (∀ i l i' l', length (i :: l) = length (i' :: l') → ((i :: l) ≫= image_line) ≫= frame = ((i' :: l') ≫= image_line) ≫= frame) as Hr
    by (intros i l i' l' Hl'; by apply (frame_rows image_line image_line (image_line i ≫= frame))).
  destruct ie, ie'; [|by destruct He as [_ He]; specialize (He eq_refl)|by destruct He as [He _]; specialize (He eq_refl)|].
  all: destruct images as [|i images], images' as [|i' images']; try done; specialize (Hr i images i' images' Hl); revert Hr;
    generalize ((i :: images) ≫= image_line), ((i' :: images') ≫= image_line); intros r r' Hr;
    by rewrite ?bind_app, ?bind_cons, ?bind_app, ?Hr.
Qed.

(** C36: nothing that the database, the runtime or the host says gets into the markup of
    the daemon's page: two pages with as many VMs and images and the same inventories
    available have the same markup, and the page ends in text. *)
Theorem root_page_is_inert c c' vms vms' ve ve' images images' ie ie' :
  length vms = length vms' → length images = length images' → (ve = None ↔ ve' = None) → (ie = None ↔ ie' = None) →
  markup (fst (lex InText (renderRootPage c vms ve images ie))) = markup (fst (lex InText (renderRootPage c' vms' ve' images' ie'))) ∧
  snd (lex InText (renderRootPage c vms ve images ie)) = InText.
Proof.
  intros Hv Hi Hve Hie. rewrite !read_page. split; [|done]. cbn [fst]. rewrite !markup_pieces. unfold root_pieces.
  rewrite !bind_cons, !bind_app. f_equal. f_equal. f_equal; [by apply vms_frame|]. f_equal. by apply images_frame.
Qed.

(** The row of a VM, as it is shown. *)
Definition shown_row (vm : VM) : list token :=
  let m s := fst (lex InText s) in
  m "<tr><td>" ++ shown (rootVMName vm) ++ m "</td><td><code>" ++ shown (vm_id vm) ++ m "</code></td><td>" ++
  shown (state_string (vm_state vm)) ++ m "</td><td>" ++ shown (vm_image vm) ++ m "</td><td>" ++
  shown (rootPortSummary (n_forwards (c_network (vm_config vm)))) ++ m ("</td></tr>" +:+ lf).

Lemma bind_split {A B} (f : A → list B) l a : a ∈ l → ∃ before after, l ≫= f = before ++ f a ++ after.
Proof. intros (l1 & l2 & ->)%list_elem_of_split. exists (l1 ≫= f), (l2 ≫= f). by rewrite bind_app, bind_cons. Qed.

Lemma row_tokens vm : vm_line vm ≫= tokens_of = shown_row vm.
Proof. unfold vm_line, shown_row. rewrite !bind_cons. change (@nil piece ≫= tokens_of) with (@nil token). by rewrite app_nil_r. Qed.

Lemma vms_in_page c vms images ie : vms ≠ [] →
  ∃ pre post, root_pieces c vms None images ie = pre ++ (vms ≫= vm_line) ++ post.
Proof.
  intros Hne. unfold root_pieces, writeRootVMs. destruct vms as [|vm vms]; [done|]. generalize ((vm :: vms) ≫= vm_line). intros rows.
  eexists (Html page_head :: writeRootRuntime c ++ [_; _]), _. cbn [app]. rewrite <- !app_assoc. cbn [app]. reflexivity.
Qed.

(** Every VM has its row on the page, with its name, id, state, image and ports as they
    are stored. *)
Lemma root_page_shows_vms c vms images ie vm : vm ∈ vms →
  ∃ before after, fst (lex InText (renderRootPage c vms None images ie)) = before ++ shown_row vm ++ after.
Proof.
  intros Hvm. rewrite read_page. cbn [fst]. destruct (bind_split vm_line vms vm Hvm) as (b & a & Hb).
  destruct (vms_in_page c vms images ie) as (pre & post & ->); [intros ->; by apply elem_of_nil in Hvm|].
  exists ((pre ≫= tokens_of) ++ (b ≫= tokens_of)), ((a ≫= tokens_of) ++ (post ≫= tokens_of)).
  rewrite Hb, !bind_app, row_tokens. by rewrite <- !app_assoc.
Qed.

(** * Capabilities *)

(** A host is called able to run microVMs by itself exactly when the message says how. *)
Lemma native_message cfg driver :
  let r := cp_runtime (capabilitiesResponse cfg driver) in
  rt_native r = true ↔ rt_message r ∈ [message_linux; message_apple; message_on_demand].
Proof.
  unfold capabilitiesResponse. destruct (inspectKVMDevice "/dev/kvm") as [[exists_ rw] err]. cbn [cp_runtime rt_native rt_message].
  match goal with |- ?b = true ↔ _ => destruct b end; cbn [negb].
  - split; [intros _|done]. repeat case_match; apply (bool_decide_unpack _); exact I.
  - split; [done|]. intros Hin. exfalso. revert Hin. case_match; apply (bool_decide_unpack (_ ∉ _)); exact I.
Qed.

End Page.

(** * A page with hostile names *)

Definition linux_probe : Probe := {|
  pr_goos := "linux"; pr_goarch := "amd64"; pr_stat _ := Ok (false, 493%Z); pr_open_rw _ := None;
  pr_command _ _ := ("", Some (ErrorsNew "exit status 1")); pr_text _ := "error" |}.

Definition hostile_vm : VM := set_state (example_vm "id1" "<script>alert('1')</script>&amp;") StateRunning.
Definition named_vm : VM := example_vm "id2" "web".

Lemma root_page_is_inert_witness :
  let c := capabilitiesResponse (H := linux_probe) DefaultConfig "firecracker" in
  markup (fst (lex InText (renderRootPage (H := linux_probe) c [hostile_vm] None [] None)))
  = markup (fst (lex InText (renderRootPage (H := linux_probe) c [named_vm] None [] None))) ∧
  snd (lex InText (renderRootPage (H := linux_probe) c [hostile_vm] None [] None)) = InText.
Proof. intros c. by apply (root_page_is_inert (H := linux_probe) c c [hostile_vm] [named_vm] None None [] [] None None). Defined.
