(* ===== verification/FirecrackerSpec.v ===== *)
(** What the Firecracker driver guarantees: no process it starts is left behind,
    a snapshot is resumed only once it is loaded and its proxy listens, a stop goes
    through the graceful signal first and reports only what it saw, the wait for
    the socket ends, and every proxy that runs is the tracked one of its VM. *)

From stdpp Require Import gmap.
From S2P Require Import Prelude GoStrings Paths Json Types Storage FcExec Firecracker.

(** * A logic of results and calls

    [issues m R]: whatever the environment answers, [m] appends calls [l] to the
    record and returns [a] with [R a l]. *)

Definition issues {A} (m : FM A) (R : A → list call → Prop) : Prop :=
  ∀ w, ∃ l, fw_calls (snd (m w)) = fw_calls w ++ l ∧ R (fst (m w)) l.

Section Emits.
Context `{FE : FcEnv}.

Lemma issues_weaken {A} (m : FM A) (R R' : A → list call → Prop) :
  issues m R → (∀ a l, R a l → R' a l) → issues m R'.
Proof. intros Hm HR w. destruct (Hm w) as (l & ? & ?). exists l. auto. Qed.

Lemma issues_ret {A} (a : A) (R : A → list call → Prop) : R a [] → issues (ret a) R.
Proof. intros HR w. exists []. by rewrite app_nil_r. Qed.

Lemma issues_bind {A B} (m : FM A) (k : A → FM B) (R : B → list call → Prop) :
  issues m (λ a l, issues (k a) (λ b l', R b (l ++ l'))) → issues (bind m k) R.
Proof.
  intros Hm w. destruct (Hm w) as (l & Hl & Hk). rewrite bind_unfold. destruct (m w) as [a w1]. cbn in *.
  destruct (Hk w1) as (l' & Hl' & HR). exists (l ++ l'). by rewrite Hl', Hl, app_assoc.
Qed.

Lemma issues_ask {A} (f : nat → A) (R : A → list call → Prop) : (∀ n, R (f n) []) → issues (ask f) R.
Proof. intros HR w. exists []. cbn. by rewrite app_nil_r. Qed.

Lemma issues_log c (R : unit → list call → Prop) : R tt [c] → issues (log c) R.
Proof. intros HR w. exists [c]. done. Qed.

Lemma issues_manager (R : Manager → list call → Prop) : (∀ m, R m []) → issues manager R.
Proof. intros HR w. exists []. cbn. by rewrite app_nil_r. Qed.

Lemma issues_now (R : Z → list call → Prop) : (∀ t, R t []) → issues now R.
Proof. intros HR w. exists []. cbn. by rewrite app_nil_r. Qed.

Lemma issues_sleep d (R : unit → list call → Prop) : R tt [] → issues (sleep d) R.
Proof. intros HR w. exists []. cbn. by rewrite app_nil_r. Qed.

Lemma issues_attempt c (R : option error → list call → Prop) :
  (∀ e, R (Some e) []) → R None [c] → issues (attempt c) R.
Proof.
  intros He Hc. apply issues_bind, issues_ask. intros n. destruct (fe_fault n).
  - by apply issues_ret.
  - apply issues_bind, issues_log, issues_ret. done.
Qed.

Lemma issues_send pid s (R : sig_result → list call → Prop) :
  (∀ r, R r [CSignal pid s r]) → issues (send pid s) R.
Proof. intros HR. apply issues_bind, issues_ask. intros n. apply issues_bind, issues_log, issues_ret. apply HR. Qed.

Lemma issues_checked {A} (m : FM (option error)) (fail : error → A) (k : FM A) (R : A → list call → Prop) :
  issues m (λ e l, match e with Some err => R (fail err) l | None => issues k (λ a l', R a (l ++ l')) end) →
  issues (checked m fail k) R.
Proof.
  intros Hm. apply issues_bind. eapply issues_weaken; [exact Hm|]. intros [err|] l H; [|done].
  apply issues_ret. by rewrite app_nil_r.
Qed.

Lemma issues_checked_result {A B} (m : FM (result A)) (fail : error → B) (k : A → FM B) (R : B → list call → Prop) :
  issues m (λ r l, match r with Err err => R (fail err) l | Ok a => issues (k a) (λ b l', R b (l ++ l')) end) →
  issues (checked_result m fail k) R.
Proof.
  intros Hm. apply issues_bind. eapply issues_weaken; [exact Hm|]. intros [a|err] l H; [done|].
  apply issues_ret. by rewrite app_nil_r.
Qed.

(** ** The routines that send nothing and start no process *)

(** Directories, files, and the proxy. *)
Definition quiet (c : call) : bool :=
  match c with
  | CMkdirAll _ _ | CChmod _ _ | CWrite _ _ | CRemove _ | CProxyStart _ | CProxyStop _ => true
  | _ => false
  end.

Definition quietly (l : list call) : Prop := forallb quiet l = true.

(** Directories and files only. *)
Definition on_files (c : call) : bool :=
  match c with CMkdirAll _ _ | CChmod _ _ | CWrite _ _ | CRemove _ => true | _ => false end.
Definition files_only (l : list call) : Prop := forallb on_files l = true.

Lemma quietly_app l l' : quietly (l ++ l') ↔ quietly l ∧ quietly l'.
Proof. unfold quietly. rewrite forallb_app. apply andb_true_iff. Qed.

Lemma files_only_app l l' : files_only (l ++ l') ↔ files_only l ∧ files_only l'.
Proof. unfold files_only. rewrite forallb_app. apply andb_true_iff. Qed.

Lemma files_only_quietly l : files_only l → quietly l.
Proof. unfold files_only, quietly. rewrite !forallb_forall. intros H c Hc. specialize (H c Hc). by destruct c. Qed.

Lemma issues_remove_stale path : issues (remove_stale path) (λ _ l, l = [] ∨ l = [CRemove path]).
Proof.
  apply issues_bind, issues_ask. intros n. destruct (fe_fault n) as [err|].
  - apply issues_ret. by left.
  - apply issues_bind, issues_log, issues_ret. by right.
Qed.

Lemma issues_prepare_dir dir : issues (prepare_dir dir) (λ _ l, files_only l).
Proof. repeat (apply issues_checked, issues_attempt; [intros err; done|]). by apply issues_ret. Qed.

Lemma issues_write path config : issues (writeFirecrackerConfig path config) (λ _ l, files_only l).
Proof. apply issues_checked, issues_attempt; [intros err; done|]. by apply issues_ret. Qed.

Lemma issues_set f (R : unit → list call → Prop) : R tt [] → issues (λ w, (tt, set_proxies f w)) R.
Proof. intros HR w. exists []. cbn. by rewrite app_nil_r. Qed.

Lemma issues_proxy_Stop p : issues (proxy_Stop p) (λ _ l, quietly l).
Proof.
  unfold proxy_Stop. destruct (vp_running p); [|by apply issues_ret]. apply issues_bind, issues_log, issues_bind.
  eapply issues_weaken; [apply issues_remove_stale|]. intros e l Hl. apply issues_ret. by destruct Hl as [->| ->].
Qed.

Lemma issues_proxy_Start p : issues (proxy_Start p) (λ _ l, quietly l).
Proof.
  unfold proxy_Start. destruct (vp_running p); [by apply issues_ret|]. apply issues_checked.
  eapply issues_weaken; [apply issues_remove_stale|]. intros e l Hl.
  assert (quietly l) as Hq by (destruct Hl as [->| ->]; done). destruct e; [done|].
  apply issues_checked, issues_attempt; [intros err|apply issues_ret]; apply quietly_app; done.
Qed.

Lemma issues_stopVsockProxy id : issues (stopVsockProxy id) (λ _ l, quietly l).
Proof.
  apply issues_bind, issues_manager. intros m. destruct (_ !! _) as [p|]; [|by apply issues_ret].
  apply issues_bind, issues_set, issues_bind. eapply issues_weaken; [apply issues_proxy_Stop|].
  intros [] l Hl. apply issues_ret. by rewrite app_nil_r.
Qed.

Lemma issues_startVsockProxy id path : issues (startVsockProxyIfConfigured id path) (λ _ l, quietly l).
Proof.
  apply issues_bind, issues_manager. intros m. destruct (spire_enabled m) as [c|]; [|by apply issues_ret].
  apply issues_bind. eapply issues_weaken; [apply issues_stopVsockProxy|]. intros stopped l Hl.
  destruct (NewVsockProxy _ _ _) as [p|]; [|apply issues_ret; by rewrite app_nil_r].
  apply issues_bind. eapply issues_weaken; [apply issues_proxy_Start|]. intros [p' [e|]] l' Hl'.
  - apply issues_ret. rewrite app_nil_r. by apply (quietly_app l l').
  - apply issues_set. rewrite app_nil_r. by apply (quietly_app l l').
Qed.

Lemma issues_spawn socket config console :
  issues (startFirecrackerProcess socket config console) (λ r l,
    match r with Ok pid => ∃ c, l = [CSpawn c pid] | Err _ => l = [] end).
Proof.
  apply issues_bind, issues_ask. intros n. destruct (fe_fault n); [by apply issues_ret|].
  apply issues_bind, issues_manager. intros m. apply issues_bind, issues_ask. intros n'.
  destruct (fe_spawn n' _) as [pid|]; [|by apply issues_ret].
  apply issues_bind, issues_log, issues_ret. eauto.
Qed.

Lemma issues_request socket method endpoint payload :
  issues (firecrackerJSONRequest socket method endpoint payload) (λ e l,
    l = [CRequest socket method endpoint payload (match e with None => true | Some _ => false end)]).
Proof.
  apply issues_bind, issues_ask. intros n. destruct (fe_http _ _ _ _ _) as [err|status body].
  - apply issues_bind, issues_log, issues_ret. done.
  - destruct (_ || _); apply issues_bind, issues_log, issues_ret; done.
Qed.

Lemma issues_sendSnapshotLoad socket snapshotPath memPath :
  issues (sendSnapshotLoad socket snapshotPath memPath) (λ e l,
    l = [CRequest socket PUT "/snapshot/load" (snapshotLoadRequest snapshotPath (memoryBackend "File" memPath) false)
          (match e with None => true | Some _ => false end)]).
Proof. apply issues_checked. eapply issues_weaken; [apply issues_request|]. intros [e|] l ->; [done|]. by apply issues_ret. Qed.

Lemma issues_killAndReap pid : issues (killAndReap pid) (λ _ l, ∃ r, l = [CSignal pid SIGKILL r; CReap pid]).
Proof.
  apply issues_bind, issues_send. intros r. apply issues_bind, issues_ask. intros n. apply issues_log. by exists r.
Qed.

Lemma issues_requireRegularFile path : issues (requireRegularFile path) (λ _ l, l = []).
Proof. apply issues_bind, issues_ask. intros n. by apply issues_ret. Qed.

(** ** The wait for the socket *)

Lemma issues_dial_loop fuel socket timeout deadline :
  issues (dial_loop fuel socket timeout deadline) (λ _ l, l = []).
Proof.
  induction fuel as [|fuel IH]; [by apply issues_ret|]. apply issues_bind, issues_ask. intros n.
  destruct (fe_dial n) as [err|]; [|by apply issues_ret].
  intros w. exists []. unfold bind, now. cbn. destruct (deadline <? fw_clock w)%Z; cbn; [by rewrite app_nil_r|].
  destruct (IH (pass (50 * millisecond) w)) as (l & Hl & ->). done.
Qed.

Lemma dial_loop_ends fuel socket timeout deadline w :
  (1 ≤ fuel)%nat → (deadline - fw_clock w < 50 * millisecond * (Z.of_nat fuel - 1))%Z →
  fst (dial_loop fuel socket timeout deadline w) ≠ None.
Proof.
  revert w. induction fuel as [|fuel IH]; intros w Hpos Hf; [lia|]. cbn [dial_loop].
  unfold bind, ask, now, sleep. cbn [fst snd]. destruct (fe_dial _); [|done].
  set (w1 := pass 0 w). assert (fw_clock w ≤ fw_clock w1)%Z as Hw1 by (cbn; lia).
  destruct (Z.ltb_spec deadline (fw_clock w1)) as [?|Hd]; [done|].
  set (w2 := pass _ w1). assert (fw_clock w1 + 50 * millisecond ≤ fw_clock w2)%Z as Hw2 by (cbn; lia).
  unfold millisecond in *. apply IH; lia.
Qed.

Lemma waitForSocketReady_ends socket timeout w : fst (waitForSocketReady socket timeout w) ≠ None.
Proof.
  unfold waitForSocketReady, bind, now. apply dial_loop_ends; unfold dial_fuel, millisecond; [lia|].
  pose proof (Z.div_mod timeout (50 * 1000000)). pose proof (Z.mod_pos_bound timeout (50 * 1000000)).
  destruct (Z.leb_spec 0 (timeout / (50 * 1000000))); [|rewrite Z2Nat.nonpos by lia]; lia.
Qed.

Lemma issues_waitForSocketReady socket timeout (R : option (option error) → list call → Prop) :
  (∀ r, R (Some r) []) → issues (waitForSocketReady socket timeout) R.
Proof.
  intros HR w. pose proof (waitForSocketReady_ends socket timeout w) as Hend. exists [].
  unfold waitForSocketReady, bind, now in *.
  destruct (issues_dial_loop (dial_fuel timeout) socket timeout (fw_clock w + timeout)%Z w) as (l & -> & ->).
  split; [done|]. destruct (fst _); [apply HR|done].
Qed.

(** * Starting a process *)

Definition runtime_of (vm vm' : VM) (pid : Z) : Prop := ∃ socket console, vm' = setupVMRuntime vm pid socket console.

(** A start: files, the process, the proxy, the goroutine that waits. *)
Definition start_trace (vm : VM) (out : VM * option error) (l : list call) : Prop :=
  match snd out with
  | Some _ => fst out = vm ∧ files_only l
  | None => ∃ c pid l0 l1, runtime_of vm (fst out) pid ∧ files_only l0 ∧ quietly l1 ∧
      l = l0 ++ [CSpawn c pid] ++ l1 ++ [CWatch (vm_id vm) pid]
  end.

Lemma issues_Start vm image : issues (Start vm image) (start_trace vm).
Proof.
  apply issues_bind, issues_manager. intros m. cbn zeta. apply issues_checked.
  eapply issues_weaken; [apply issues_prepare_dir|]. intros [e|] l0 H0; [done|].
  apply issues_checked. eapply issues_weaken; [apply issues_write|].
  intros [e|] l1 H1; [split; [done|]; by apply (files_only_app l0 l1)|].
  apply issues_checked_result. eapply issues_weaken; [apply issues_spawn|].
  intros [pid|e] l2 H2; [|subst l2; split; [done|]; rewrite app_nil_r; by apply (files_only_app l0 l1)].
  destruct H2 as (c & ->).
  assert (∀ R : unit → list call → Prop, (∀ l, quietly l → R tt l) →
    issues (match fc_vsock (buildFirecrackerConfig m vm image (vm_dir m vm)) with
           | Some v => startVsockProxyIfConfigured (vm_id vm) (vk_uds v) | None => ret tt end) R) as Hproxy.
  { intros R HR. destruct (fc_vsock _); [|by apply issues_ret, HR].
    eapply issues_weaken; [apply issues_startVsockProxy|]. intros [] l Hl. by apply HR. }
  apply issues_bind, Hproxy. intros l3 H3. apply issues_bind, issues_log, issues_ret.
  exists c, pid, (l0 ++ l1), l3. split_and!; [by do 2 eexists|by apply files_only_app|done|].
  by rewrite <- !app_assoc.
Qed.

(** * Loading a snapshot *)

Abbreviation load_request socket s m ok :=
  (CRequest socket PUT "/snapshot/load" (snapshotLoadRequest s (memoryBackend "File" m) false) ok).
Abbreviation resume_request socket ok := (CRequest socket PATCH "/vm" (vmStateRequest "Resumed") ok).

(** After the process has been started, before it is killed. *)
Definition failed_load (socket s m : string) (l : list call) : Prop :=
  l = [] ∨ l = [load_request socket s m false] ∨
  ∃ l1 l2, quietly l1 ∧ quietly l2 ∧ l = load_request socket s m true :: l1 ++ resume_request socket false :: l2.

Definition load_trace (vm : VM) (s m : string) (out : option (VM * option error)) (l : list call) : Prop :=
  match out with
  | None => False
  | Some (vm', Some _) => vm' = vm ∧
      (files_only l ∨ ∃ c pid socket r l0 l1, files_only l0 ∧ failed_load socket s m l1 ∧
         l = l0 ++ [CSpawn c pid] ++ l1 ++ [CSignal pid SIGKILL r; CReap pid])
  | Some (vm', None) => ∃ c pid socket console l0 l1, vm' = setupVMRuntime vm pid socket console ∧ files_only l0 ∧ quietly l1 ∧
      l = l0 ++ [CSpawn c pid; load_request socket s m true] ++ l1 ++ [resume_request socket true; CWatch (vm_id vm) pid]
  end.

Lemma issues_LoadSnapshot vm s m : issues (LoadSnapshot vm s m) (load_trace vm s m).
Proof.
  unfold LoadSnapshot. cbn zeta. destruct (String.eqb s ""); [apply issues_ret; split; [done|by left]|].
  destruct (String.eqb m ""); [apply issues_ret; split; [done|by left]|].
  do 2 (apply issues_checked; eapply issues_weaken; [apply issues_requireRegularFile|];
    intros [?|] ? ->; [split; [done|by left]|]).
  apply issues_bind, issues_manager. intros mgr. apply issues_checked.
  eapply issues_weaken; [apply issues_prepare_dir|]. intros [e|] l0 H0; [split; [done|by left]|].
  apply issues_checked. eapply issues_weaken; [apply issues_remove_stale|]. intros e l1 Hl1.
  assert (files_only l1) as H1 by (destruct Hl1 as [->| ->]; done). clear Hl1.
  assert (files_only (l0 ++ l1)) as H01 by by apply files_only_app.
  destruct e as [e|]; [split; [done|by left]|].
  apply issues_checked_result. eapply issues_weaken; [apply issues_spawn|].
  intros [pid|e] l2 H2; [|subst l2; split; [done|]; left; by rewrite app_nil_r].
  destruct H2 as (c & ->). set (socket := filepath_join [vm_dir mgr vm; "firecracker.sock"]).
  apply issues_bind, issues_waitForSocketReady. intros [e|].
  { apply issues_bind. eapply issues_weaken; [apply issues_killAndReap|]. intros [] l (r & ->). apply issues_ret. split; [done|].
    right. exists c, pid, socket, r, (l0 ++ l1), []. split_and!; [done|by left|by rewrite <- app_assoc]. }
  apply issues_bind. eapply issues_weaken; [apply issues_sendSnapshotLoad|]. intros [e|] l ->; fold socket.
  { apply issues_bind. eapply issues_weaken; [apply issues_killAndReap|]. intros [] l (r & ->). apply issues_ret. split; [done|].
    right. exists c, pid, socket, r, (l0 ++ l1), [load_request socket s m false].
    split_and!; [done|right; by left|by rewrite <- app_assoc]. }
  apply issues_bind. eapply issues_weaken; [apply issues_startVsockProxy|]. intros [] l3 H3.
  apply issues_bind. eapply issues_weaken; [apply issues_request|]. intros [e|] l ->; fold socket.
  - apply issues_bind. eapply issues_weaken; [apply issues_stopVsockProxy|]. intros stopped l4 H4.
    apply issues_bind. eapply issues_weaken; [apply issues_killAndReap|]. intros [] l (r & ->). apply issues_ret. split; [done|].
    right. exists c, pid, socket, r, (l0 ++ l1), (load_request socket s m true :: l3 ++ resume_request socket false :: l4).
    split_and!; [done|right; right; by exists l3, l4|]. cbn. by rewrite <- !app_assoc.
  - apply issues_bind, issues_log, issues_ret. exists c, pid, socket. eexists _, (l0 ++ l1), l3.
    split_and!; [done|done|done|]. by rewrite <- !app_assoc.
Qed.

(** ** No process is left behind *)

Inductive launch_op : Type := LStart (image : Image) | LLoad (snapshotPath memPath : string).

Definition launch (op : launch_op) (vm : VM) : FM (option (VM * option error)) :=
  match op with
  | LStart image => let* r := Start vm image in ret (Some r)
  | LLoad s m => LoadSnapshot vm s m
  end.

(** The processes that were started and that nobody looks after: a process is
    attended to when a goroutine waits for its exit, or when it has been waited
    for after a [SIGKILL] was sent to it.  A wait without that signal does not count: it would
    not return.  [killed]: the processes that have been sent one. *)
Fixpoint unattended (l : list call) (pids killed : list Z) : list Z :=
  match l with
  | [] => pids
  | CSpawn _ pid :: l => unattended l (pid :: pids) (List.filter (λ q, negb (q =? pid)%Z) killed)
  | CWatch _ pid :: l => unattended l (List.filter (λ q, negb (q =? pid)%Z) pids) killed
  | CSignal pid SIGKILL _ :: l => unattended l pids (pid :: killed)
  | CReap pid :: l =>
      unattended l (if bool_decide (pid ∈ killed) then List.filter (λ q, negb (q =? pid)%Z) pids else pids) killed
  | _ :: l => unattended l pids killed
  end.

(** The processes that the exit of a VM will be reported for. *)
Definition watched (l : list call) : list (string * Z) :=
  omap (λ c, match c with CWatch id pid => Some (id, pid) | _ => None end) l.

Lemma unattended_quiet l l' ps ks : quietly l → unattended (l ++ l') ps ks = unattended l' ps ks.
Proof. induction l as [|c l IH]; [done|]. intros [Hc Hl]%andb_true_iff. destruct c; try done; cbn; by apply IH. Qed.

Lemma watched_quiet l l' : quietly l → watched (l ++ l') = watched l'.
Proof. induction l as [|c l IH]; [done|]. intros [Hc Hl]%andb_true_iff. destruct c; try done; cbn; by apply IH. Qed.

Lemma failed_load_quiet socket s m l l' ps ks :
  failed_load socket s m l → unattended (l ++ l') ps ks = unattended l' ps ks ∧ watched (l ++ l') = watched l'.
Proof.
  intros [->|[->|(l1 & l2 & H1 & H2 & ->)]]; [done|done|].
  rewrite <- app_comm_cons, <- app_assoc, <- app_comm_cons. split.
  - cbn. rewrite unattended_quiet by done. cbn. by rewrite unattended_quiet.
  - cbn [watched omap list_omap]. fold (watched (l1 ++ resume_request socket false :: l2 ++ l')).
    rewrite watched_quiet by done. cbn. by apply watched_quiet.
Qed.

Definition attended (vm : VM) (out : option (VM * option error)) (l : list call) : Prop :=
  match out with
  | None => False
  | Some (vm', e) => unattended l [] [] = [] ∧
      match e with
      | Some _ => vm' = vm ∧ watched l = []
      | None => ∃ pid, rt_pid <$> vm_runtime vm' = Some pid ∧ watched l = [(vm_id vm, pid)]
      end
  end.

Lemma files_attended l : files_only l → unattended l [] [] = [] ∧ watched l = [].
Proof.
  intros Hq%files_only_quietly. pose proof (unattended_quiet l [] [] [] Hq). pose proof (watched_quiet l [] Hq).
  by rewrite app_nil_r in *.
Qed.

(** C22: Starting a VM and loading it from a snapshot never leave a process
    unattended: on success exactly the new process of the VM is waited for, its
    number is in the VM, and no other process is left; on any error every process
    that was started has been sent [SIGKILL] and then waited for (the code does so
    whatever the signal call answers), and the VM is unchanged.  Both always return,
    the wait for the socket included, provided that waiting for a process that was
    sent [SIGKILL] does. *)
Theorem launch_attends op vm : issues (launch op vm) (attended vm).
Proof.
  assert (∀ l0 l1 c pid, files_only l0 → quietly l1 → let l := l0 ++ [CSpawn c pid] ++ l1 ++ [CWatch (vm_id vm) pid] in
    unattended l [] [] = [] ∧ watched l = [(vm_id vm, pid)]) as Hgood.
  { intros l0 l1 c pid H0%files_only_quietly H1. cbn zeta. rewrite unattended_quiet, watched_quiet by done. cbn.
    rewrite unattended_quiet by done. cbn. rewrite Z.eqb_refl. split; [done|]. exact (watched_quiet l1 _ H1). }
  destruct op as [image|s m]; cbn [launch].
  - apply issues_bind. eapply issues_weaken; [apply issues_Start|]. intros [vm' [e|]] l Hl; apply issues_ret; rewrite app_nil_r.
    + destruct Hl as [<- Hf]. destruct (files_attended l Hf). done.
    + destruct Hl as (c & pid & l0 & l1 & (socket & console & Heq) & H0 & H1 & ->). cbn in Heq. subst vm'.
      destruct (Hgood l0 l1 c pid H0 H1) as [Hu Hw]. split; [exact Hu|]. by exists pid.
  - eapply issues_weaken; [apply issues_LoadSnapshot|]. intros [[vm' [e|]]|] l Hl; [| |done].
    + destruct Hl as [-> [Hf|(c & pid & socket & r & l0 & l1 & H0 & H1 & ->)]].
      * destruct (files_attended l Hf). done.
      * apply files_only_quietly in H0. split; [|split; [done|]].
        -- rewrite unattended_quiet by done. cbn. destruct (failed_load_quiet _ _ _ _ [CSignal pid SIGKILL r; CReap pid] [pid] [] H1) as [-> _].
           cbn [unattended List.filter]. rewrite bool_decide_true by left. by rewrite Z.eqb_refl.
        -- rewrite watched_quiet by done. exact (proj2 (failed_load_quiet _ _ _ _ [CSignal pid SIGKILL r; CReap pid] [pid] [] H1)).
    + destruct Hl as (c & pid & socket & console & l0 & l1 & -> & H0 & H1 & ->).
      apply files_only_quietly in H0. split.
      * rewrite unattended_quiet by done. cbn. rewrite unattended_quiet by done. cbn. by rewrite Z.eqb_refl.
      * exists pid. split; [done|]. rewrite watched_quiet by done. exact (watched_quiet l1 _ H1).
Qed.

(** ** The guest runs last *)

Definition accepted_resume (c : call) : bool :=
  match c with CRequest _ _ endpoint _ ok => ok && String.eqb endpoint "/vm" | _ => false end.

Lemma quiet_not_resumed l : quietly l → existsb accepted_resume l = false.
Proof. induction l as [|c l IH]; [done|]. intros [Hc Hl]%andb_true_iff. destruct c; try done; by apply IH. Qed.

Lemma load_regular vm s m w vm' :
  fst (LoadSnapshot vm s m w) = Some (vm', None) →
  fe_regular (fw_tick w) s = Ok true ∧ fe_regular (S (fw_tick w)) m = Ok true.
Proof.
  unfold LoadSnapshot. cbn zeta. destruct (String.eqb s ""); [done|]. destruct (String.eqb m ""); [done|].
  unfold checked at 1. rewrite bind_unfold. unfold requireRegularFile at 1. rewrite bind_unfold. unfold ask at 1, ret at 1.
  destruct (fe_regular (fw_tick w) s) as [[]|]; [|done|done].
  unfold checked at 1. rewrite bind_unfold. unfold requireRegularFile at 1. rewrite bind_unfold. unfold ask at 1, ret at 1.
  cbn [fw_tick pass]. by destruct (fe_regular (S (fw_tick w)) m) as [[]|].
Qed.

(** a snapshot is loaded from two regular files into a new process, paused, and
    the guest is resumed after that with one request, the last thing before the
    process is watched; the proxy is started in between.  If anything fails no
    request to resume was accepted: the guest has never run. *)
Theorem LoadSnapshot_resumes_last vm s m w : ∃ l,
  fw_calls (snd (LoadSnapshot vm s m w)) = fw_calls w ++ l ∧
  match fst (LoadSnapshot vm s m w) with
  | None => False
  | Some (_, Some _) => existsb accepted_resume l = false
  | Some (vm', None) =>
      fe_regular (fw_tick w) s = Ok true ∧ fe_regular (S (fw_tick w)) m = Ok true ∧
      ∃ c pid socket console l0 l1, vm' = setupVMRuntime vm pid socket console ∧ files_only l0 ∧ quietly l1 ∧
        l = l0 ++ [CSpawn c pid; load_request socket s m true] ++ l1 ++ [resume_request socket true; CWatch (vm_id vm) pid]
  end.
Proof.
  destruct (issues_LoadSnapshot vm s m w) as (l & Hl & Ht). exists l. split; [done|].
  pose proof (load_regular vm s m w) as Hr. destruct (fst _) as [[vm' [e|]]|]; [| |done].
  - destruct Ht as [-> [Hf|(c & pid & socket & r & l0 & l1 & H0 & H1 & ->)]].
    + by apply quiet_not_resumed, files_only_quietly.
    + apply files_only_quietly, quiet_not_resumed in H0. rewrite existsb_app, H0. cbn. rewrite existsb_app. cbn.
      rewrite orb_false_r. destruct H1 as [->|[->|(l2 & l3 & H2 & H3 & ->)]]; [done|done|]. cbn.
      rewrite existsb_app. cbn. by rewrite !quiet_not_resumed.
  - destruct (Hr vm' eq_refl). done.
Qed.

(** * Stop *)

(** The signals that are sent to a process, with what came of them. *)
Definition signals (l : list call) : list (Z * signal * sig_result) :=
  omap (λ c, match c with CSignal pid s r => Some (pid, s, r) | _ => None end) l.

(** Probes of a process that all find it running, and then one that does not, if
    [gone]. *)
Inductive probes (pid : Z) : bool → list (Z * signal * sig_result) → Prop :=
  | probes_nil : probes pid false []
  | probes_gone r : r ≠ Delivered → probes pid true [(pid, Sig0, r)]
  | probes_up gone l : probes pid gone l → probes pid gone ((pid, Sig0, Delivered) :: l).

(** What [Stop] promises, as an abstract protocol: the index is whether it reports
    the process as stopped. *)
Inductive stop_protocol (pid : Z) : bool → list (Z * signal * sig_result) → Prop :=
  | stop_already : stop_protocol pid true [(pid, SIGTERM, ProcessDone)]
  | stop_refused e : stop_protocol pid false [(pid, SIGTERM, SigFails e)]
  | stop_graceful l : probes pid true l → stop_protocol pid true ((pid, SIGTERM, Delivered) :: l)
  | stop_exited l : probes pid false l →
      stop_protocol pid true ((pid, SIGTERM, Delivered) :: l ++ [(pid, SIGKILL, ProcessDone)])
  | stop_kill_refused l e : probes pid false l →
      stop_protocol pid false ((pid, SIGTERM, Delivered) :: l ++ [(pid, SIGKILL, SigFails e)])
  | stop_killed l l' gone : probes pid false l → probes pid gone l' →
      stop_protocol pid gone ((pid, SIGTERM, Delivered) :: l ++ (pid, SIGKILL, Delivered) :: l').

Lemma signals_app l l' : signals (l ++ l') = signals l ++ signals l'.
Proof. apply omap_app. Qed.

Lemma quiet_signals l : quietly l → signals l = [].
Proof. induction l as [|c l IH]; [done|]. intros [Hc Hl]%andb_true_iff. destruct c; try done; by apply IH. Qed.

Lemma issues_poll_gone n pid : issues (poll_gone n pid) (λ gone l, probes pid gone (signals l)).
Proof.
  induction n as [|n IH]; [apply issues_ret; constructor|]. apply issues_bind, issues_sleep.
  apply issues_bind, issues_bind, issues_send. intros r. apply issues_ret. destruct r.
  - eapply issues_weaken; [exact IH|]. intros gone l Hl. by apply (probes_up pid gone (signals l)).
  - apply issues_ret. by apply probes_gone.
  - apply issues_ret. by apply probes_gone.
Qed.

Lemma issues_wait_gone timeout pid : issues (wait_gone timeout pid) (λ gone l, probes pid gone (signals l)).
Proof.
  apply issues_bind, issues_now. intros t. apply issues_bind, issues_ask. intros n. apply issues_bind.
  eapply issues_weaken; [apply issues_poll_gone|]. intros [] l Hl; [apply issues_ret; by rewrite app_nil_r|].
  apply issues_bind, issues_now. intros t'. apply issues_bind, issues_sleep, issues_ret. by rewrite app_nil_r.
Qed.

(** The grace period: a process that is given up on has had all of it. *)
Lemma wait_gone_grace timeout pid w :
  fst (wait_gone timeout pid w) = false → (fw_clock w + timeout ≤ fw_clock (snd (wait_gone timeout pid w)))%Z.
Proof.
  unfold wait_gone. rewrite bind_unfold. cbn [now]. rewrite bind_unfold. cbn [ask]. rewrite bind_unfold.
  destruct (poll_gone _ pid _) as [[] w1]; [done|]. intros _. rewrite bind_unfold. cbn [now]. rewrite bind_unfold.
  cbn [sleep ret fst snd fw_clock pass]. lia.
Qed.

Definition is_nil (e : option error) : bool := match e with None => true | Some _ => false end.

(** C23: stopping a VM follows the protocol: the graceful signal first; the kill
    only after every probe up to the time-out found the process running; and
    success is reported exactly when the process was seen gone. *)
Theorem Stop_follows_protocol vm timeout pid (Hpid : runtime_pid vm = Some pid) :
  issues (Stop vm timeout) (λ e l, stop_protocol pid (is_nil e) (signals l)).
Proof.
  unfold Stop. rewrite Hpid. apply issues_bind. eapply issues_weaken; [apply issues_stopVsockProxy|].
  intros stopped l0 H0%quiet_signals. cbn zeta. apply issues_bind, issues_send. intros [| |e].
  - apply issues_bind. eapply issues_weaken; [apply issues_wait_gone|]. intros [] l1 H1.
    + apply issues_ret. rewrite app_nil_r, !signals_app, H0. by apply stop_graceful.
    + apply issues_bind, issues_send. intros [| |e].
      * apply issues_bind. eapply issues_weaken; [apply issues_wait_gone|].
        intros gone l2 H2. destruct gone; apply issues_ret; rewrite !signals_app, H0, app_nil_r; by apply stop_killed.
      * apply issues_ret. rewrite !signals_app, H0. by apply stop_exited.
      * apply issues_ret. rewrite !signals_app, H0. by apply stop_kill_refused.
  - apply issues_ret. rewrite app_nil_r, signals_app, H0. apply stop_already.
  - apply issues_ret. rewrite app_nil_r, signals_app, H0. apply stop_refused.
Qed.

End Emits.

(** * Proxies *)

Definition starts (l : list call) : list string := omap (λ c, match c with CProxyStart p => Some p | _ => None end) l.
Definition stops (l : list call) : list string := omap (λ c, match c with CProxyStop p => Some p | _ => None end) l.

Definition proxy_paths (ps : gmap string VsockProxy) : list string := (λ kv, vp_path kv.2) <$> map_to_list ps.

(** The proxies that were started and not stopped are those of the map. *)
Definition balanced (l : list call) (ps : gmap string VsockProxy) : Prop :=
  starts l ≡ₚ stops l ++ proxy_paths ps ∧ map_Forall (λ _ p, vp_running p = true) ps.

Definition tracked (w : FcWorld) : Prop := balanced (fw_calls w) (m_proxies (fw_m w)).

Definition tracks {A} (m : FM A) : Prop := ∀ w, tracked w → tracked (snd (m w)).

Definition about_proxies (c : call) : bool := match c with CProxyStart _ | CProxyStop _ => true | _ => false end.

Lemma balanced_other l c ps : about_proxies c = false → balanced l ps → balanced (l ++ [c]) ps.
Proof. intros Hc [Hp Hr]. split; [|done]. unfold starts, stops in *. rewrite !omap_app. destruct c; try done; cbn; by rewrite !app_nil_r. Qed.

Lemma balanced_start l id p ps :
  ps !! id = None → vp_running p = true → balanced l ps → balanced (l ++ [CProxyStart (vp_path p)]) (<[id := p]> ps).
Proof.
  intros Hn Hp [Hb Hr]. split; [|by apply map_Forall_insert_2].
  unfold starts, stops, proxy_paths in *. rewrite !omap_app. cbn. rewrite app_nil_r, map_to_list_insert by done.
  rewrite Hb. cbn. by rewrite <- app_assoc, (Permutation_app_comm (_ <$> _)).
Qed.

Lemma balanced_stop l id p ps :
  ps !! id = Some p → balanced l ps → balanced (l ++ [CProxyStop (vp_path p)]) (delete id ps).
Proof.
  intros Hs [Hb Hr]. split; [|by apply map_Forall_delete].
  unfold starts, stops, proxy_paths in *. rewrite !omap_app. cbn. rewrite app_nil_r, Hb.
  rewrite <- (map_to_list_delete ps id p) by done. cbn. by rewrite <- app_assoc.
Qed.

Section Keeps.
Context `{FE : FcEnv}.

Lemma tracks_ret {A} (a : A) : tracks (ret a).
Proof. by intros w. Qed.
Lemma tracks_bind {A B} (m : FM A) (k : A → FM B) : tracks m → (∀ a, tracks (k a)) → tracks (bind m k).
Proof. intros Hm Hk w Hw. rewrite bind_unfold. specialize (Hm w Hw). destruct (m w) as [a w1]. by apply Hk. Qed.
Lemma tracks_ask {A} (f : nat → A) : tracks (ask f).
Proof. by intros w. Qed.
Lemma tracks_manager : tracks manager.
Proof. by intros w. Qed.
Lemma tracks_now : tracks now.
Proof. by intros w. Qed.
Lemma tracks_sleep d : tracks (sleep d).
Proof. by intros w. Qed.
Lemma tracks_log c : about_proxies c = false → tracks (log c).
Proof. intros Hc w Hw. by apply balanced_other. Qed.

Lemma tracks_stopVsockProxy id w :
  tracked w → let w' := snd (stopVsockProxy id w) in tracked w' ∧ m_proxies (fw_m w') = delete id (m_proxies (fw_m w)).
Proof.
  intros Hw. unfold stopVsockProxy, bind, manager. destruct (m_proxies (fw_m w) !! id) as [p|] eqn:Hp.
  - unfold proxy_Stop. assert (vp_running p = true) as -> by exact (proj2 Hw id p Hp).
    unfold bind, log, remove_stale, ask, ret. cbn.
    assert (tracked (record (CProxyStop (vp_path p)) (set_proxies (delete id) w))) as H' by by apply balanced_stop.
    destruct (fe_fault _); cbn; (split; [|done]); [done|]. by apply balanced_other.
  - cbn. split; [done|]. by rewrite delete_id.
Qed.

(** Calls that concern no proxy. *)
Definition aside {A} (m : FM A) : Prop := ∀ w,
  m_proxies (fw_m (snd (m w))) = m_proxies (fw_m w) ∧
  ∀ ps, balanced (fw_calls w) ps → balanced (fw_calls (snd (m w))) ps.

Lemma aside_remove_stale path : aside (remove_stale path).
Proof.
  intros w. unfold remove_stale, bind, ask, log, ret. cbn. destruct (fe_fault _); cbn; [done|].
  split; [done|]. intros ps Hb. by apply balanced_other.
Qed.

Lemma proxy_Start_spec p w : vp_running p = false →
  let out := proxy_Start p w in
  m_proxies (fw_m (snd out)) = m_proxies (fw_m w) ∧
  match fst out with
  | (_, Some _) => ∀ ps, balanced (fw_calls w) ps → balanced (fw_calls (snd out)) ps
  | (p', None) => ∀ id ps, ps !! id = None → balanced (fw_calls w) ps → balanced (fw_calls (snd out)) (<[id := p']> ps)
  end.
Proof.
  intros Hr. cbn zeta. destruct (proxy_Start p w) as [[p' e] w'] eqn:E. cbn [fst snd].
  unfold proxy_Start, checked, attempt in E. rewrite Hr, bind_unfold in E.
  destruct (aside_remove_stale (vp_path p) w) as [Hm Hb]. destruct (remove_stale _ w) as [[err|] w1]; cbn [fst snd] in *.
  { injection E as <- <- <-. done. }
  unfold bind, ask, log, ret in E. cbn in E. destruct (fe_fault _); injection E as <- <- <-; [done|]. split; [done|].
  intros id ps Hn H. by apply (balanced_start _ id (mkProxy (vp_path p) (vp_target p) (vp_port p) true)), Hb.
Qed.

Lemma tracks_startVsockProxy id path : tracks (startVsockProxyIfConfigured id path).
Proof.
  intros w Hw. unfold startVsockProxyIfConfigured. rewrite bind_unfold. unfold manager at 1. cbn [fst snd].
  destruct (spire_enabled (fw_m w)) as [c|]; [|done]. rewrite bind_unfold.
  pose proof (tracks_stopVsockProxy id w Hw) as Hstop. destruct (stopVsockProxy id w) as [stopped w1].
  destruct Hstop as [H1 Hm]. cbn [snd] in H1, Hm. unfold NewVsockProxy.
  destruct (String.eqb path ""); [done|]. destruct (String.eqb (sp_agent c) ""); [done|].
  rewrite bind_unfold. destruct (proxy_Start_spec (mkProxy path (sp_agent c) (sp_port c) false) w1 eq_refl) as [Hm2 H2].
  destruct (proxy_Start _ w1) as [[p' [e|]] w2]; cbn [fst snd] in *; unfold tracked in *; cbn; rewrite Hm2; [by apply H2|].
  apply H2; [|done]. by rewrite Hm, lookup_delete_eq.
Qed.

Lemma tracks_attempt c : about_proxies c = false → tracks (attempt c).
Proof. intros Hc. apply tracks_bind; [apply tracks_ask|]. intros [err|]; [apply tracks_ret|]. apply tracks_bind; [by apply tracks_log|]. intros []. apply tracks_ret. Qed.
Lemma tracks_send pid s : tracks (send pid s).
Proof. apply tracks_bind; [apply tracks_ask|]. intros r. apply tracks_bind; [by apply tracks_log|]. intros []. apply tracks_ret. Qed.
Lemma tracks_checked {A} (m : FM (option error)) (fail : error → A) k : tracks m → tracks k → tracks (checked m fail k).
Proof. intros Hm Hk. apply tracks_bind; [done|]. intros [err|]; [apply tracks_ret|done]. Qed.
Lemma tracks_checked_result {A B} (m : FM (result A)) (fail : error → B) (k : A → FM B) :
  tracks m → (∀ a, tracks (k a)) → tracks (checked_result m fail k).
Proof. intros Hm Hk. apply tracks_bind; [done|]. intros [a|err]; [apply Hk|apply tracks_ret]. Qed.
Lemma tracks_remove_stale path : tracks (remove_stale path).
Proof. intros w Hw. destruct (aside_remove_stale path w) as [Hm Hb]. unfold tracked. rewrite Hm. by apply Hb. Qed.
Lemma tracks_stop id : tracks (stopVsockProxy id).
Proof. intros w Hw. by apply tracks_stopVsockProxy. Qed.
End Keeps.

Create HintDb fc.
#[export] Hint Extern 1 (about_proxies _ = false) => reflexivity : fc.
#[export] Hint Resolve tracks_ret tracks_ask tracks_manager tracks_now tracks_sleep tracks_log tracks_attempt tracks_send
  tracks_remove_stale tracks_stop tracks_startVsockProxy : fc.

(** Prove [tracks] for a body built from these. *)
Ltac solve_keeps :=
  repeat first
    [ progress intros
    | solve [auto with fc nocore]
    | apply tracks_checked_result
    | apply tracks_checked
    | apply tracks_bind
    | match goal with |- tracks (match ?x with _ => _ end) => destruct x end ].

Section Driver.
Context `{FE : FcEnv}.

Lemma tracks_poll_gone n pid : tracks (poll_gone n pid).
Proof. induction n as [|n IH]; cbn [poll_gone]; [apply tracks_ret|]. unfold IsRunning. solve_keeps. Qed.
Lemma tracks_dial_loop fuel socket timeout deadline : tracks (dial_loop fuel socket timeout deadline).
Proof. induction fuel as [|fuel IH]; cbn [dial_loop]; solve_keeps. Qed.
Lemma tracks_request socket method endpoint payload : tracks (firecrackerJSONRequest socket method endpoint payload).
Proof. unfold firecrackerJSONRequest. cbn zeta. solve_keeps. Qed.
Lemma tracks_process socket config console : tracks (startFirecrackerProcess socket config console).
Proof. unfold startFirecrackerProcess. cbn zeta. solve_keeps. Qed.

Hint Resolve tracks_poll_gone tracks_dial_loop tracks_request tracks_process : fc.

(** The calls of the driver. *)
Inductive driver_op : Type :=
  | OLaunch (op : launch_op) (vm : VM)
  | OStop (vm : VM) (timeoutSeconds : Z)
  | OKill (vm : VM)
  | OPause (vm : VM)
  | OResume (vm : VM)
  | OSnapshot (vm : VM) (snapshotPath memPath : string)
  | OExited (handler : bool) (vmID : string) (pid : Z)
  | OLogs (vm : VM) (tailLines : Z)
  | OCleanup (vm : VM).

Definition drive (op : driver_op) : FM unit :=
  match op with
  | OLaunch op vm => launch op vm ;;; ret tt
  | OStop vm t => Stop vm t ;;; ret tt
  | OKill vm => Kill vm ;;; ret tt
  | OPause vm => Pause vm ;;; ret tt
  | OResume vm => Resume vm ;;; ret tt
  | OSnapshot vm s m => CreateSnapshot vm s m ;;; ret tt
  | OExited handler id pid => waitForProcessExit handler id pid
  | OLogs vm n => GetConsoleLogs vm n ;;; ret tt
  | OCleanup vm => CleanupNetwork vm ;;; ret tt
  end.

Lemma tracks_drive op : tracks (drive op).
Proof.
  destruct op as [[image|s m] vm|vm t|vm|vm|vm|vm s m|handler id pid|vm n|vm]; cbn [drive launch];
    unfold Start, LoadSnapshot, Stop, Kill, Pause, Resume, CreateSnapshot, waitForProcessExit, GetConsoleLogs, CleanupNetwork,
      run_command, prepare_dir, writeFirecrackerConfig, requireRegularFile, waitForSocketReady, sendSnapshotLoad, killAndReap,
      wait_gone, patch_state, firecrackerPATCH, firecrackerPUT; cbn zeta; solve_keeps.
Qed.

Lemma tracks_history ops w : tracked w → tracked (foldl (λ w op, snd (drive op w)) w ops).
Proof. revert w. induction ops as [|op ops IH]; intros w Hw; [done|]. by apply IH, tracks_drive. Qed.

(** Signals leave the manager alone. *)
Definition same_manager {A} (m : FM A) : Prop := ∀ w, fw_m (snd (m w)) = fw_m w.

Lemma same_manager_bind {A B} (m : FM A) (k : A → FM B) : same_manager m → (∀ a, same_manager (k a)) → same_manager (bind m k).
Proof. intros Hm Hk w. rewrite bind_unfold. specialize (Hm w). destruct (m w) as [a w1]. by rewrite Hk. Qed.

Lemma same_manager_send pid s : same_manager (send pid s).
Proof. by intros w. Qed.

Lemma same_manager_wait_gone timeout pid : same_manager (wait_gone timeout pid).
Proof.
  apply same_manager_bind; [done|]. intros t. apply same_manager_bind; [done|]. intros n. apply same_manager_bind.
  - induction n as [|n IH]; [done|]. apply same_manager_bind; [done|]. intros [].
    apply same_manager_bind; [apply same_manager_bind; [apply same_manager_send|done]|]. by intros [].
  - intros []; [done|]. apply same_manager_bind; [done|]. intros t'. by apply same_manager_bind.
Qed.

(** C24: whatever the driver does and whatever fails, the proxies that listen are
    exactly those of its map: each was started once and not stopped since, none is
    lost, and after a stop there is none for the VM. *)
Theorem proxies_tracked binary data spire ops :
  let w := foldl (λ w op, snd (drive op w)) (mkFc (mkManager binary data spire ∅) 0 [] 0) ops in
  starts (fw_calls w) ≡ₚ stops (fw_calls w) ++ proxy_paths (m_proxies (fw_m w)) ∧
  ∀ vm t pid, runtime_pid vm = Some pid → m_proxies (fw_m (snd (Stop vm t w))) !! vm_id vm = None.
Proof.
  intros w. split.
  - by apply tracks_history; split; [|apply map_Forall_empty].
  - intros vm t pid Hpid. unfold Stop. rewrite Hpid, bind_unfold. assert (tracked w) as Hw by (by apply tracks_history; split; [|apply map_Forall_empty]).
    pose proof (tracks_stopVsockProxy (vm_id vm) w Hw) as [_ Hm]. destruct (stopVsockProxy (vm_id vm) w) as [stopped w1].
    cbn [snd] in Hm. cbn zeta.
    match goal with |- m_proxies (fw_m (snd (?m w1))) !! _ = None => assert (same_manager m) as ->; [|by rewrite Hm, lookup_delete_eq] end.
    apply same_manager_bind; [apply same_manager_send|]. intros [| |e]; [|done|done].
    apply same_manager_bind; [apply same_manager_wait_gone|]. intros []; [done|].
    apply same_manager_bind; [apply same_manager_send|]. intros [| |e]; [|done|done].
    apply same_manager_bind; [apply same_manager_wait_gone|]. by intros [].
Qed.

End Driver.

(** * The end of the console *)

Definition newline_char : ascii := "010".

Fixpoint count_newlines (s : string) : nat :=
  match s with
  | EmptyString => 0
  | String a s => (if Ascii.eqb a newline_char then 1 else 0) + count_newlines s
  end.

Lemma count_newlines_app s t : count_newlines (s +:+ t) = (count_newlines s + count_newlines t)%nat.
Proof. induction s as [|a s IH]; [done|]. rewrite string_app_cons. cbn. rewrite IH. lia. Qed.

Lemma count_newlines_none s : no_char newline_char s → count_newlines s = 0%nat.
Proof.
  unfold no_char. induction s as [|a s IH]; [done|]. cbn [count_newlines contains_any existsb].
  rewrite orb_false_r, orb_false_iff. intros [-> Hs]. by apply IH.
Qed.

Lemma join_nl_split s : join nl (split_on newline_char s) = s.
Proof.
  induction s as [|a s IH]; [done|]. cbn [split_on]. destruct (Ascii.eqb_spec a newline_char) as [->|Hne].
  - pose proof (split_on_nonempty newline_char s). destruct (split_on newline_char s) as [|x xs]; [done|].
    rewrite (join_cons_cons nl), IH. done.
  - pose proof (split_on_nonempty newline_char s). destruct (split_on newline_char s) as [|x [|y xs]]; [done| |].
    + unfold join in *. cbn in *. by subst.
    + rewrite (join_cons_cons nl) in *. rewrite string_app_cons. by rewrite IH.
Qed.

Lemma count_join_nl l : Forall (no_char newline_char) l → count_newlines (join nl l) = pred (length l).
Proof.
  induction 1 as [|x [|y l] Hx Hl IH]; [done| |].
  - by apply count_newlines_none.
  - rewrite (join_cons_cons nl), !count_newlines_app, IH, count_newlines_none by done. done.
Qed.

(** The tail of a console is the whole of it when there are fewer newlines than
    lines asked for, and otherwise what follows a newline and holds one newline
    less than asked for.  (A log that ends with a newline therefore shows one line
    less: the empty piece after it counts.) *)
Theorem tail_of_spec data n (Hn : (0 < n)%Z) :
  ((Z.of_nat (count_newlines data) < n)%Z ∧ tail_of data n = data) ∨
  ∃ before, data = before +:+ nl +:+ tail_of data n ∧ Z.of_nat (count_newlines (tail_of data n)) = (n - 1)%Z.
Proof.
  pose proof (join_nl_split data) as Hj. pose proof (split_on_no_char newline_char data) as Hc.
  assert (count_newlines data = pred (length (split_on newline_char data))) as Hcount by by rewrite <- Hj at 1; apply count_join_nl.
  pose proof (split_on_nonempty newline_char data) as Hne. unfold tail_of. fold newline_char.
  rewrite (proj2 (Z.leb_gt _ _)) by lia. set (lines := split_on newline_char data) in *.
  assert (0 < length lines)%nat as Hpos by (by destruct lines; [|cbn; lia]).
  destruct (Z.leb_spec (Z.of_nat (length lines)) n) as [Hle|Hgt]; [left; split; [lia|done]|right].
  set (k := (length lines - Z.to_nat n)%nat). exists (join nl (take k lines)). split.
  - rewrite <- (join_append nl), take_drop; [done| |].
    + intros H%(f_equal length). rewrite length_take in H. cbn in H. lia.
    + intros H%(f_equal length). rewrite length_drop in H. cbn in H. lia.
  - rewrite count_join_nl by (by apply Forall_drop). rewrite length_drop. lia.
Qed.

Lemma tail_of_spec_witness :
  let data := "a" +:+ nl +:+ "b" +:+ nl in
  ((Z.of_nat (count_newlines data) < 1)%Z ∧ tail_of data 1 = data) ∨
  ∃ before, data = before +:+ nl +:+ tail_of data 1 ∧ Z.of_nat (count_newlines (tail_of data 1)) = (1 - 1)%Z.
Proof. apply (tail_of_spec ("a" +:+ nl +:+ "b" +:+ nl) 1). lia. Defined.

Example tail_one_of_a_terminated_log : tail_of ("a" +:+ nl +:+ "b" +:+ nl) 1 = "".
Proof. vm_compute. reflexivity. Qed.

(** * A host where everything works *)

Definition calm_fc (running : nat) : FcEnv := {|
  fe_fault _ := None; fe_elapsed _ := 1%N; fe_regular _ _ := Ok true; fe_spawn _ _ := Ok 4242%Z;
  fe_signal n _ s := match s with Sig0 => if (n <? running)%nat then Delivered else ProcessDone | _ => Delivered end;
  fe_wait _ _ := (Some 0%Z, None); fe_polls _ t := Z.to_nat (t / (100 * millisecond));
  fe_dial n := if (n <? running)%nat then Some (ErrorsNew "refused") else None;
  fe_http _ _ _ _ _ := HttpAnswer 204 ""; fe_read _ _ := Ok ""; fe_random _ := Some 7%Z; fe_command _ _ := (None, "") |}.

Definition fc_world : FcWorld :=
  mkFc (mkManager "/usr/bin/firecracker" "/data" (Some (mkSPIREProxy true 3 8307 "/run/agent.sock")) ∅) 0 [] 0.
Definition fc_vm : VM := set_runtime (example_vm "id1" "web") (Some (mkRt 4242 "" "" "/s" "/c" None)).

Lemma Stop_follows_protocol_witness : let FE := calm_fc 5 in
  issues (Stop fc_vm 3) (λ e l, stop_protocol 4242 (is_nil e) (signals l)).
Proof. apply (@Stop_follows_protocol (calm_fc 5) fc_vm 3 4242). reflexivity. Defined.

(** A snapshot is loaded after some rounds of waiting, and then the VM is stopped. *)
Example load_then_stop : let FE := calm_fc 8 in
  match LoadSnapshot fc_vm "/s/state" "/s/mem" fc_world with
  | (Some (vm', None), w) =>
      rt_pid <$> vm_runtime vm' = Some 4242%Z ∧ watched (fw_calls w) = [("id1", 4242%Z)] ∧
      starts (fw_calls w) = ["/data/vms/id1/vsock.sock"] ∧
      fst (Stop vm' 1 w) = None ∧ stops (fw_calls (snd (Stop vm' 1 w))) = ["/data/vms/id1/vsock.sock"]
  | _ => False
  end.
Proof. vm_compute. done. Qed.

(** Kill, unlike Stop, takes a process that is gone for an error, and it leaves the
    proxy of the VM behind. *)
Example kill_leaves_the_proxy : let FE := calm_fc 8 in
  let w := snd (LoadSnapshot fc_vm "/s/state" "/s/mem" fc_world) in
  is_Some (m_proxies (fw_m (snd (Kill fc_vm w))) !! "id1").
Proof. vm_compute. by eexists. Qed.
