(* ===== verification/LayerTypes.v ===== *)
(** The data of the layer build system and its validation
    (src/internal/layerbuild/types.go): image manifests, layer references, layer
    packages, and the errors that validation collects.

    The JSON of a layer package (struct tags of
    src/internal/layerbuild/types.go), as the cache stores it and reads it back. *)

From stdpp Require Import gmap sorting.
From S2P Require Import Prelude GoStrings GoNet Json.

(* @src internal/layerbuild/types.go:16-16 ErrNotFound *)
Definition ErrNotFound : string := "layer not found".

(** * Validation errors *)

(* @type internal/layerbuild/types.go ValidationError *)
Record ValidationError : Type := mkVE { ve_field : string; ve_message : string; ve_line : Z }.

(* @func internal/layerbuild/types.go ValidationError.Error *)
Definition ve_Error (e : ValidationError) : string :=
  if (0 <? ve_line e)%Z
  then "line " +:+ fmt_d (ve_line e) +:+ ": " +:+ ve_field e +:+ ": " +:+ ve_message e
  else ve_field e +:+ ": " +:+ ve_message e.

(* @src internal/layerbuild/types.go:32-33 ValidationErrors *)
Definition ValidationErrors : Type := list ValidationError.

(* @func internal/layerbuild/types.go Add *)
Definition ves_Add (v : ValidationErrors) (field message : string) : ValidationErrors :=
  v ++ [mkVE field message 0].

(* @func internal/layerbuild/types.go AddWithLine *)
Definition ves_AddWithLine (v : ValidationErrors) (field message : string) (line : Z) : ValidationErrors :=
  v ++ [mkVE field message line].

(* @func internal/layerbuild/types.go HasErrors *)
Definition ves_HasErrors (v : ValidationErrors) : bool := (0 <? length v)%nat.

Definition newline : string := bytes [10].

(* @func internal/layerbuild/types.go ValidationErrors.Error *)
Definition ves_Error (v : ValidationErrors) : string :=
  match v with
  | [] => "no validation errors"
  | [e] => ve_Error e
  | _ =>
      fmt_d (Z.of_nat (length v)) +:+ " validation errors:" +:+ newline +:+
      join "" ((λ e, "  - " +:+ ve_Error e +:+ newline) <$> v)
  end.

(** * Layer and source types *)

(* @src internal/layerbuild/types.go:68-72 validOutputFormats *)
Definition validOutputFormats : list string := ["ext4"; "squashfs"; "tar"].

(* @src internal/layerbuild/types.go:75-79 CompressionNone *)
Definition CompressionNone : string := "none".

(** A named string type: a YAML file can hold any string. *)
(* @src internal/layerbuild/types.go:82-82 LayerType *)
Definition LayerType : Type := string.

(* @src internal/layerbuild/types.go:84-96 LayerTypeBase *)
Definition LayerTypeBase : LayerType := "base".
Definition LayerTypeRuntime : LayerType := "runtime".
Definition LayerTypeFeature : LayerType := "feature".
Definition LayerTypeApplication : LayerType := "application".

(* @func internal/layerbuild/types.go IsValid *)
Definition IsValid (lt : LayerType) : bool :=
  existsb (String.eqb lt) [LayerTypeBase; LayerTypeRuntime; LayerTypeFeature; LayerTypeApplication].

(* @func internal/layerbuild/types.go LayerType.Valid *)
Definition Valid (lt : LayerType) : bool := IsValid lt.

(* @src internal/layerbuild/types.go:119-133 SourceType *)
Inductive SourceType : Type :=
  | SourceTypeLocal
  | SourceTypeDocker
  | SourceTypeRegistry
  | SourceTypeURL
  | SourceTypeNone.   (* the zero value *)

#[global] Instance SourceType_eq_dec : EqDecision SourceType.
Proof. solve_decision. Defined.

(* @func internal/layerbuild/types.go SourceType.String *)
Definition SourceType_String (st : SourceType) : string :=
  match st with
  | SourceTypeLocal => "local"
  | SourceTypeDocker => "docker"
  | SourceTypeRegistry => "registry"
  | SourceTypeURL => "url"
  | SourceTypeNone => ""
  end.

(* @func internal/layerbuild/types.go LayerType.Validate *)
Definition LayerType_Validate (lt : LayerType) : option error :=
  if IsValid lt then None
  else Some (Errorf "invalid layer type: %q (must be one of: base, runtime, feature, application)" [AStr lt]).

(** [hex.DecodeString]: the first byte that is no digit, else an odd length. *)
Fixpoint first_non_hex (s : string) : option ascii :=
  match s with
  | EmptyString => None
  | String a s' => if is_hex a then first_non_hex s' else Some a
  end.

Definition hex_DecodeString (s : string) : option error :=
  match first_non_hex s with
  | Some a => Some (ErrStruct "hex.InvalidByteError" [AInt (Z.of_nat (nat_of_ascii a))])
  | None => if Nat.odd (String.length s) then Some (ErrorsNew "encoding/hex: odd length hex string") else None
  end.

(* @func internal/layerbuild/types.go validateSHA256 *)
Definition validateSHA256 (sha256 : string) (required : bool) : option error :=
  if String.eqb sha256 "" then
    if required then Some (ErrorsNew "SHA256 checksum is required") else None
  else if negb (String.length sha256 =? 64)%nat then
    Some (Errorf "SHA256 must be 64 characters (got %d)" [AInt (Z.of_nat (String.length sha256))])
  else match hex_DecodeString sha256 with
  | Some err => Some (Errorf "SHA256 must be valid hexadecimal: %w" [AWrap err])
  | None => None
  end.

(** * Manifests *)

(* @type internal/layerbuild/types.go KernelConfig *)
Record KernelConfig : Type := mkKernel {
  kc_version : string; kc_source : string; kc_sha256 : string; kc_cmdline : string }.

(* @type internal/layerbuild/types.go OutputConfig *)
Record OutputConfig : Type := mkOutput {
  oc_path : string; oc_format : string; oc_size_mb : Z; oc_compression : string }.

(** The values of [Config] are YAML trees, which no code reads. *)
(* @type internal/layerbuild/types.go LayerReference *)
Record LayerReference : Type := mkLayerRef {
  lr_name : string; lr_type : LayerType; lr_source : string; lr_sha256 : string;
  lr_condition : string; lr_required : bool; lr_dependencies : list string;
  lr_config : list (string * json) }.

(* @type internal/layerbuild/types.go ImageManifest *)
Record ImageManifest : Type := mkImageManifest {
  im_version : string; im_name : string; im_description : string; im_kernel : KernelConfig;
  im_layers : list LayerReference; im_output : OutputConfig }.

(* @type internal/layerbuild/types.go FileEntry *)
Record FileEntry : Type := mkFileEntry {
  fe_path : string; fe_mode : string; fe_owner : string; fe_group : string }.

(* @type internal/layerbuild/types.go SystemdConfig *)
Record SystemdConfig : Type := mkSystemd { sd_enable : list string; sd_mask : list string }.

(* @type internal/layerbuild/types.go ConfigOption *)
Record ConfigOption : Type := mkConfigOption {
  co_type : string; co_default : json; co_description : string; co_required : bool }.

(* @type internal/layerbuild/types.go LayerPackage *)
Record LayerPackage : Type := mkPackage {
  lp_name : string; lp_version : string; lp_description : string; lp_type : LayerType; lp_size : Z;
  lp_sha256 : string; lp_rootfs : string; lp_dependencies : list string; lp_provides : list string;
  lp_files : list FileEntry; lp_systemd : option SystemdConfig;
  lp_config_schema : gmap string ConfigOption; lp_metadata : gmap string string }.

(* @type internal/layerbuild/types.go CachedLayer *)
Record CachedLayer : Type := mkCached {
  cl_digest : string; cl_name : string; cl_version : string; cl_type : LayerType; cl_source_url : string;
  cl_local_path : string; cl_size : Z; cl_fetched_at : Z; cl_last_used : Z;
  cl_metadata : option LayerPackage; cl_files : list FileEntry }.

(* @type internal/layerbuild/types.go CacheStats *)
Record CacheStats : Type := mkStats { cs_layers : Z; cs_bytes : Z; cs_oldest : Z }.

(* @func internal/layerbuild/types.go DefaultOutputConfig *)
Definition DefaultOutputConfig : OutputConfig := mkOutput "./build" "ext4" 2048 CompressionNone.

(** The first failure of a sequence of checks. *)
Fixpoint first_failure (checks : list (option error)) : option error :=
  match checks with
  | [] => None
  | Some e :: _ => Some e
  | None :: checks' => first_failure checks'
  end.

Definition required (s what : string) : option error :=
  if String.eqb s "" then Some (Errorf what []) else None.

Definition wrapping (format : string) (args : list arg) (e : option error) : option error :=
  (λ err, Errorf format (args ++ [AWrap err])) <$> e.

(* @func internal/layerbuild/types.go KernelConfig.Validate *)
Definition KernelConfig_Validate (kc : KernelConfig) : option error :=
  first_failure
    [ required (kc_version kc) "kernel version is required";
      required (kc_source kc) "kernel source is required";
      wrapping "invalid kernel SHA256: %w" [] (validateSHA256 (kc_sha256 kc) true) ].

(* @func internal/layerbuild/types.go OutputConfig.Validate *)
Definition OutputConfig_Validate (oc : OutputConfig) : option error :=
  first_failure
    [ required (oc_path oc) "output path is required";
      required (oc_format oc) "output format is required";
      if existsb (String.eqb (to_lower (oc_format oc))) validOutputFormats then None
      else Some (Errorf "unsupported output format: %q (must be one of: ext4, squashfs, tar)" [AStr (oc_format oc)]) ].

(* @func internal/layerbuild/types.go LayerReference.Validate *)
Definition LayerReference_Validate (lr : LayerReference) : option error :=
  first_failure
    [ required (lr_name lr) "layer name is required";
      wrapping "layer type validation failed: %w" [] (LayerType_Validate (lr_type lr));
      required (lr_source lr) "layer source is required";
      wrapping "invalid layer SHA256: %w" [] (validateSHA256 (lr_sha256 lr) false) ].

(* @func internal/layerbuild/types.go ImageManifest.Validate *)
Definition ImageManifest_Validate (im : ImageManifest) : option error :=
  first_failure
    ([ required (im_version im) "manifest version is required";
       required (im_name im) "manifest name is required";
       wrapping "kernel config validation failed: %w" [] (KernelConfig_Validate (im_kernel im));
       match im_layers im with [] => Some (Errorf "at least one layer is required" []) | _ => None end ] ++
     imap (λ i layer, wrapping "layer %d validation failed: %w" [AInt (Z.of_nat i)] (LayerReference_Validate layer)) (im_layers im) ++
     [ wrapping "output config validation failed: %w" [] (OutputConfig_Validate (im_output im)) ]).

(* @func internal/layerbuild/types.go LayerPackage.Validate *)
Definition LayerPackage_Validate (lp : LayerPackage) : option error :=
  first_failure
    [ required (lp_name lp) "layer package name is required";
      required (lp_version lp) "layer package version is required";
      wrapping "layer package type validation failed: %w" [] (LayerType_Validate (lp_type lp));
      if (lp_size lp <=? 0)%Z then Some (Errorf "layer package size must be positive (got %d)" [AInt (lp_size lp)]) else None;
      wrapping "invalid layer package SHA256: %w" [] (validateSHA256 (lp_sha256 lp) true);
      required (lp_rootfs lp) "layer package rootfs path is required" ].

(** * Lemmas *)

(** A checksum as [sha256_hex] writes it, in either case of letters. *)
Definition sha256_shape (s : string) : Prop :=
  String.length s = 64%nat ∧ first_non_hex s = None.

Lemma validateSHA256_None s b :
  validateSHA256 s b = None ↔ (s = "" ∧ b = false) ∨ sha256_shape s.
Proof.
  unfold validateSHA256, sha256_shape, hex_DecodeString.
  destruct (String.eqb_spec s "") as [->|Hne]; [destruct b; naive_solver|].
  destruct (Nat.eqb_spec (String.length s) 64) as [E|E]; simpl; [|naive_solver].
  rewrite E. destruct (first_non_hex s); naive_solver.
Qed.

Lemma IsValid_iff lt :
  IsValid lt = true ↔ lt ∈ [LayerTypeBase; LayerTypeRuntime; LayerTypeFeature; LayerTypeApplication].
Proof.
  unfold IsValid. rewrite existsb_exists. setoid_rewrite <- list_elem_of_In.
  split; [intros (x & Hx & ->%String.eqb_eq); done|]. intros H. exists lt. by rewrite String.eqb_refl.
Qed.

Lemma first_failure_None checks : first_failure checks = None ↔ Forall (λ c, c = None) checks.
Proof.
  induction checks as [|[e|] checks IH]; simpl.
  - split; [constructor|done].
  - split; [done|]. by intros [? _]%Forall_cons.
  - rewrite IH. split; [by constructor|]. by intros [_ ?]%Forall_cons.
Qed.

Lemma required_None s what : required s what = None ↔ s ≠ "".
Proof. unfold required. destruct (String.eqb_spec s ""); naive_solver. Qed.

Lemma wrapping_None f l e : wrapping f l e = None ↔ e = None.
Proof. unfold wrapping. by rewrite fmap_None. Qed.

(** * Maps with string keys: an object with sorted keys, [null] for a nil map *)

Definition key_le {A} (a b : string * A) : Prop := String.le (fst a) (fst b).
#[global] Instance key_le_dec {A} (a b : string * A) : Decision (key_le a b) := decide (String.le (fst a) (fst b)).

Definition enc_map {A} (enc : A → json) (m : gmap string A) : json :=
  JObj (prod_map id enc <$> merge_sort key_le (map_to_list m)).

Definition f_map_omit {A} (enc : A → json) (k : string) (m : gmap string A) : field :=
  (k, if bool_decide (m = ∅) then None else Some (enc_map enc m)).

Definition dec_member {A} (dec : json → option A) (kv : string * json) : option (string * A) :=
  a ← dec (snd kv); Some (fst kv, a).

(** A later member with the same key replaces an earlier one. *)
Definition dec_map {A} (dec : json → option A) (j : json) : option (gmap string A) :=
  l ← members j;
  kvs ← mapM (dec_member dec) l;
  Some (foldl (λ m kv, <[fst kv := snd kv]> m) ∅ kvs).

(** * The structs *)

(** Without tags the keys are the names of the Go fields. *)
(* @src internal/layerbuild/types.go:514-526 FileEntry *)
Definition enc_file (f : FileEntry) : json := enc_struct
  [ f_str "Path" (fe_path f); f_str "Mode" (fe_mode f); f_str "Owner" (fe_owner f); f_str "Group" (fe_group f) ].

Definition dec_file (j : json) : option FileEntry :=
  l ← members j;
  p ← getf l "Path" "" dec_str; m ← getf l "Mode" "" dec_str;
  o ← getf l "Owner" "" dec_str; g ← getf l "Group" "" dec_str;
  Some (mkFileEntry p m o g).

Definition enc_systemd (s : SystemdConfig) : json := enc_struct
  [ f_list_omit JStr "enable" (sd_enable s); f_list_omit JStr "mask" (sd_mask s) ].

Definition dec_systemd (j : json) : option SystemdConfig :=
  l ← members j;
  e ← getf l "enable" [] (dec_list dec_str); m ← getf l "mask" [] (dec_list dec_str);
  Some (mkSystemd e m).

(** A value of type [any]: a nil one is omitted.  The code reads numbers back as
    [float64], which keeps the integers of [any_exact] values. *)
Definition enc_option (o : ConfigOption) : json := enc_struct
  [ f_str "type" (co_type o);
    ("default", match co_default o with JNull => None | j => Some j end);
    f_str_omit "description" (co_description o); f_bool_omit "required" (co_required o) ].

Definition dec_option (j : json) : option ConfigOption :=
  l ← members j;
  t ← getf l "type" "" dec_str; d ← getf l "default" JNull Some;
  s ← getf l "description" "" dec_str; r ← getf l "required" false dec_bool;
  Some (mkConfigOption t d s r).

Fixpoint any_exact (j : json) : bool :=
  match j with
  | JNum z => (Z.abs z <=? 2 ^ 53)%Z
  | JArr l => forallb any_exact l
  | JObj l => forallb (λ kv, any_exact (snd kv)) l
  | _ => true
  end.

Definition enc_package (p : LayerPackage) : json := enc_struct
  [ f_str "name" (lp_name p); f_str "version" (lp_version p); f_str_omit "description" (lp_description p);
    f_str "type" (lp_type p); f_int "size" (lp_size p); f_str "sha256" (lp_sha256 p); f_str "rootfs" (lp_rootfs p);
    f_list_omit JStr "dependencies" (lp_dependencies p); f_list_omit JStr "provides" (lp_provides p);
    f_list_omit enc_file "files" (lp_files p); f_ptr_omit enc_systemd "systemd" (lp_systemd p);
    f_map_omit enc_option "config_schema" (lp_config_schema p); f_map_omit JStr "metadata" (lp_metadata p) ].

Definition dec_package (j : json) : option LayerPackage :=
  l ← members j;
  n ← getf l "name" "" dec_str; v ← getf l "version" "" dec_str; d ← getf l "description" "" dec_str;
  t ← getf l "type" "" dec_str; s ← getf l "size" 0%Z dec_int64; h ← getf l "sha256" "" dec_str;
  r ← getf l "rootfs" "" dec_str; de ← getf l "dependencies" [] (dec_list dec_str);
  pr ← getf l "provides" [] (dec_list dec_str); fi ← getf l "files" [] (dec_list dec_file);
  sy ← getf l "systemd" None (dec_ptr dec_systemd);
  cs ← getf l "config_schema" ∅ (dec_map dec_option); me ← getf l "metadata" ∅ (dec_map dec_str);
  Some (mkPackage n v d t s h r de pr fi sy cs me).

(** * Round trip *)

Lemma insert_all_app {A} (l : list (string * A)) (m : gmap string A) :
  NoDup (l.*1) →
  foldl (λ m kv, <[fst kv := snd kv]> m) m l = list_to_map l ∪ m.
Proof.
  revert m. induction l as [|[k a] l IH]; intros m Hn; simpl; [by rewrite (left_id ∅ (∪))|].
  apply NoDup_cons in Hn as [Hk Hn]. rewrite IH by done.
  rewrite <- insert_union_r by (by apply not_elem_of_list_to_map_1).
  by rewrite insert_union_l.
Qed.

Lemma dec_members {A} (enc : A → json) dec (l : list (string * A)) :
  (∀ a, a ∈ l.*2 → dec (enc a) = Some a) → mapM (dec_member dec) (prod_map id enc <$> l) = Some l.
Proof.
  induction l as [|[k a] l IH]; intros H; [done|]. cbn [fmap list_fmap mapM].
  assert (dec_member dec (prod_map id enc (k, a)) = Some (k, a)) as -> by (unfold dec_member; simpl; by rewrite H by left).
  cbn [mbind option_bind].
  rewrite IH by (intros; apply H; by right). done.
Qed.

Lemma dec_enc_map {A} (enc : A → json) dec (m : gmap string A) :
  (∀ k a, m !! k = Some a → dec (enc a) = Some a) → dec_map dec (enc_map enc m) = Some m.
Proof.
  intros H. unfold dec_map, enc_map. cbn [members mbind option_bind].
  set (l := merge_sort key_le (map_to_list m)).
  assert (Hp : l ≡ₚ map_to_list m) by apply merge_sort_Permutation.
  rewrite dec_members.
  - cbn [mbind option_bind]. f_equal. rewrite insert_all_app by (rewrite Hp; apply NoDup_fst_map_to_list).
    rewrite (right_id_L ∅ (∪)). rewrite (list_to_map_proper l (map_to_list m)); [apply list_to_map_to_list| |done].
    rewrite Hp. apply NoDup_fst_map_to_list.
  - intros a Ha. rewrite Hp in Ha. apply list_elem_of_fmap in Ha as ([k a'] & -> & Hin).
    apply elem_of_map_to_list in Hin. by eapply H.
Qed.

Lemma getf_map_omit {A} (enc : A → json) dec (m : gmap string A) :
  (∀ k a, m !! k = Some a → dec (enc a) = Some a) →
  match (if bool_decide (m = ∅) then None else Some (enc_map enc m)) with
  | None => Some ∅ | Some j => dec_map dec j end = Some m.
Proof. intros H. case_bool_decide as E; [by rewrite E|]. by apply dec_enc_map. Qed.

Lemma dec_enc_file f : dec_file (enc_file f) = Some f.
Proof. unfold dec_file, enc_file. solve_codec. Qed.

Lemma dec_enc_str s : dec_str (JStr s) = Some s.
Proof. done. Qed.

#[local] Hint Resolve dec_enc_file dec_enc_str : go.

Lemma dec_enc_systemd s : dec_systemd (enc_systemd s) = Some s.
Proof. unfold dec_systemd, enc_systemd. solve_codec. Qed.

Lemma dec_enc_option o : dec_option (enc_option o) = Some o.
Proof.
  destruct o as [t d s r]. unfold dec_option, enc_option.
  cbn [enc_struct members mbind option_bind co_type co_default co_description co_required].
  unfold getf. rewrite !jlookup_present by reflexivity. codec_cbn. cbn [dec_str mbind option_bind].
  destruct d; cbn [mbind option_bind]; rewrite getf_str_omit; cbn [mbind option_bind]; by rewrite getf_bool_omit.
Qed.

Lemma enc_systemd_not_null s : enc_systemd s ≠ JNull.
Proof. done. Qed.

(** What a package is stored as is read back as the same package. *)
Lemma dec_enc_package p : int64_range (lp_size p) → dec_package (enc_package p) = Some p.
Proof.
  intros Hs. destruct p as [n v d t s h r de pr fi sy cs me]. unfold dec_package, enc_package.
  cbn [enc_struct members mbind option_bind lp_name lp_version lp_description lp_type lp_size lp_sha256 lp_rootfs
    lp_dependencies lp_provides lp_files lp_systemd lp_config_schema lp_metadata].
  unfold getf. rewrite !jlookup_present by reflexivity. unfold f_map_omit. codec_cbn.
  cbn [dec_str mbind option_bind]. rewrite getf_str_omit. cbn [mbind option_bind].
  rewrite dec_int64_num by done. cbn [mbind option_bind].
  rewrite !getf_list_omit by auto with go. cbn [mbind option_bind].
  rewrite getf_ptr_omit by (apply dec_enc_systemd || done). cbn [mbind option_bind].
  rewrite (getf_map_omit enc_option dec_option cs) by (intros; apply dec_enc_option). cbn [mbind option_bind].
  rewrite getf_map_omit by done. done.
Qed.
