(* ===== verification/LayerManifest.v ===== *)
(** Parsing and validation of image manifests, the conditions of layers, and the
    order of dependencies (src/internal/layerbuild/manifest.go).  The theorems
    on the order are in LayerResolve.v. *)

From stdpp Require Import gmap.
From S2P Require Import Prelude GoStrings Json LayerTypes.

(** * The two patterns *)

Definition in_range (a lo hi : ascii) : bool :=
  ((nat_of_ascii lo <=? nat_of_ascii a) && (nat_of_ascii a <=? nat_of_ascii hi))%nat.

Fixpoint string_forallb (f : ascii → bool) (s : string) : bool :=
  match s with EmptyString => true | String a s' => f a && string_forallb f s' end.

Definition first_char (f : ascii → bool) (s : string) : bool :=
  match s with EmptyString => false | String a _ => f a end.

Definition lower_alnum (a : ascii) : bool := in_range a "a" "z" || in_range a "0" "9".

(** [^[a-z0-9]([a-z0-9-]*[a-z0-9])?$]: the first and the last byte are letters or
    digits, those in between may be hyphens. *)
(* @src internal/layerbuild/manifest.go:14-14 namePattern *)
Definition namePattern (s : string) : bool :=
  first_char lower_alnum s && first_char lower_alnum (string_rev s) &&
  string_forallb (λ a, lower_alnum a || Ascii.eqb a "-") s.

Definition var_start (a : ascii) : bool := in_range a "A" "Z" || Ascii.eqb a "_".
Definition var_char (a : ascii) : bool := var_start a || in_range a "0" "9".

(** The longest prefix whose bytes satisfy [f], and the rest. *)
Fixpoint span (f : ascii → bool) (s : string) : string * string :=
  match s with
  | EmptyString => ("", "")
  | String a s' => if f a then let '(x, r) := span f s' in (String a x, r) else ("", s)
  end.

Definition no_brace (a : ascii) : bool := negb (Ascii.eqb a "}").

(** A match at the start of [s]: the name is maximal, since neither [:] nor [}]
    is a name byte, and so is the default, since it holds no [}]. *)
Definition match_here (s : string) : option (string * string) :=
  match strip_prefix "${" s with
  | None => None
  | Some r =>
      let '(name, rest) := span var_char r in
      if first_char var_start name then
        match strip_prefix ":-" rest with
        | Some d => let '(def, rest') := span no_brace d in if has_prefix "}" rest' then Some (name, def) else None
        | None => if has_prefix "}" rest then Some (name, "") else None
        end
      else None
  end.

(** The leftmost match: the submatches 1 and 2. *)
(* @src internal/layerbuild/manifest.go:17-17 conditionPattern *)
Fixpoint conditionPattern (s : string) : option (string * string) :=
  match match_here s with
  | Some m => Some m
  | None => match s with EmptyString => None | String _ s' => conditionPattern s' end
  end.

(** * Parsing *)

(** [yaml.Unmarshal] into a manifest. *)
Class Yaml : Type := {
  yaml_manifest : string → result ImageManifest;
  yaml_package : string → result LayerPackage }.

Definition or_default (s d : string) : string := if String.eqb s "" then d else s.

(* @src internal/layerbuild/manifest.go:32-44 ParseManifest *)
Definition fill_output (oc : OutputConfig) : OutputConfig :=
  let d := DefaultOutputConfig in
  mkOutput (or_default (oc_path oc) (oc_path d)) (or_default (oc_format oc) (oc_format d))
    (if (oc_size_mb oc =? 0)%Z then oc_size_mb d else oc_size_mb oc)
    (or_default (oc_compression oc) (oc_compression d)).

(** [contents]: what [os.ReadFile] returns. *)
(* @func internal/layerbuild/manifest.go ParseManifest *)
Definition ParseManifest `{Yaml} (path : string) (contents : result string) : result ImageManifest :=
  match contents with
  | Err err => Err (Errorf "failed to read manifest %s: %w" [AStr path; AWrap err])
  | Ok data =>
      match yaml_manifest data with
      | Err err => Err (Errorf "failed to parse manifest %s: %w" [AStr path; AWrap err])
      | Ok m => Ok (mkImageManifest (im_version m) (im_name m) (im_description m) (im_kernel m) (im_layers m) (fill_output (im_output m)))
      end
  end.

(** * Validation *)

Definition schemes : list (string * SourceType) :=
  [("docker://", SourceTypeDocker); ("registry://", SourceTypeRegistry);
   ("local://", SourceTypeLocal); ("url://", SourceTypeURL)].

(** The schemes are ranged over in an unspecified order; at most one matches
    ([one_scheme]). *)
(* @func internal/layerbuild/manifest.go ParseSourceType *)
Definition ParseSourceType (source : string) : SourceType * bool :=
  if String.eqb source "" then (SourceTypeNone, false)
  else match List.find (λ p, has_prefix (fst p) source) schemes with
  | Some (_, st) => (st, true)
  | None => (SourceTypeNone, false)
  end.

(* @func internal/layerbuild/manifest.go isRemoteSource *)
Definition isRemoteSource (st : SourceType) : bool :=
  bool_decide (st = SourceTypeRegistry) || bool_decide (st = SourceTypeURL).

Definition required_field (field value : string) (errs : ValidationErrors) : ValidationErrors :=
  if String.eqb value "" then ves_Add errs field "is required" else errs.

(* @func internal/layerbuild/manifest.go validateKernel *)
Definition validateKernel (errs : ValidationErrors) (k : KernelConfig) : ValidationErrors :=
  let errs := required_field "kernel.version" (kc_version k) errs in
  let errs := required_field "kernel.source" (kc_source k) errs in
  required_field "kernel.cmdline" (kc_cmdline k) errs.

(* @func internal/layerbuild/manifest.go validateLayer *)
Definition validateLayer (errs : ValidationErrors) (l : LayerReference) (idx : nat) : ValidationErrors :=
  let prefix := "layers[" +:+ fmt_d (Z.of_nat idx) +:+ "]" in
  let errs := required_field (prefix +:+ ".name") (lr_name l) errs in
  let errs :=
    if String.eqb (lr_type l) "" then ves_Add errs (prefix +:+ ".type") "is required"
    else if negb (Valid (lr_type l)) then
      ves_Add errs (prefix +:+ ".type")
        ("invalid type '" +:+ lr_type l +:+ "', must be one of: base, runtime, feature, application")
    else errs in
  if String.eqb (lr_source l) "" then ves_Add errs (prefix +:+ ".source") "is required"
  else
    let '(sourceType, ok) := ParseSourceType (lr_source l) in
    if negb ok then ves_Add errs (prefix +:+ ".source") "must start with docker://, registry://, local://, or url://"
    else if isRemoteSource sourceType && String.eqb (lr_sha256 l) "" then
      ves_Add errs (prefix +:+ ".sha256") "is required for remote sources (registry://, url://)"
    else errs.

Fixpoint validateLayers (errs : ValidationErrors) (idx : nat) (layers : list LayerReference) : ValidationErrors :=
  match layers with
  | [] => errs
  | l :: layers' => validateLayers (validateLayer errs l idx) (S idx) layers'
  end.

(** All problems found, in order; the code returns them as one error, or nil
    when there is none. *)
(* @func internal/layerbuild/manifest.go ValidateManifest *)
Definition ValidateManifest (m : ImageManifest) : option ValidationErrors :=
  let errs : ValidationErrors := [] in
  let errs :=
    if String.eqb (im_version m) "" then ves_Add errs "version" "is required"
    else if negb (String.eqb (im_version m) "1.0") then
      ves_Add errs "version" ("must be '1.0', got '" +:+ im_version m +:+ "'")
    else errs in
  let errs :=
    if String.eqb (im_name m) "" then ves_Add errs "name" "is required"
    else if negb (namePattern (im_name m)) then
      ves_Add errs "name" "must be lowercase alphanumeric with hyphens, cannot start/end with hyphen"
    else errs in
  let errs := validateKernel errs (im_kernel m) in
  let errs := if (length (im_layers m) =? 0)%nat then ves_Add errs "layers" "at least one layer is required" else errs in
  let errs := validateLayers errs 0 (im_layers m) in
  if ves_HasErrors errs then Some errs else None.

(** * Conditions *)

(* @func internal/layerbuild/manifest.go isTruthy *)
Definition isTruthy (value : string) : bool :=
  existsb (String.eqb (to_lower (trim_space value))) ["true"; "1"; "yes"; "on"].

(* @func internal/layerbuild/manifest.go evaluateCondition *)
Definition evaluateCondition (condition : string) (env : gmap string string) : string :=
  match conditionPattern condition with
  | None => condition
  | Some (varName, defaultValue) => default defaultValue (env !! varName)
  end.

(* @func internal/layerbuild/manifest.go shouldIncludeLayer *)
Definition shouldIncludeLayer (layer : LayerReference) (env : gmap string string) : bool :=
  if lr_required layer then true
  else if String.eqb (lr_condition layer) "" then true
  else isTruthy (evaluateCondition (lr_condition layer) env).

(** A nil map reads as an empty one. *)
(* @func internal/layerbuild/manifest.go EvaluateConditions *)
Definition EvaluateConditions (m : ImageManifest) (env : gmap string string) : list LayerReference :=
  List.filter (λ layer, shouldIncludeLayer layer env) (im_layers m).

(** * Dependencies *)

(** The names, with the last layer of each name. *)
Definition layer_map (layers : list LayerReference) : gmap string LayerReference :=
  foldl (λ m l, <[lr_name l := l]> m) ∅ layers.

Fixpoint check_deps (known : gmap string LayerReference) (layer : LayerReference) (deps : list string) : option error :=
  match deps with
  | [] => None
  | dep :: deps' =>
      if String.eqb dep (lr_name layer) then
        Some (Errorf "layer '%s' has circular dependency (depends on itself)" [AStr (lr_name layer)])
      else if bool_decide (known !! dep = None) then
        Some (Errorf "layer '%s' depends on '%s' which is not in the layer list" [AStr (lr_name layer); AStr dep])
      else check_deps known layer deps'
  end.

(* @src internal/layerbuild/manifest.go:240-249 ResolveDependencies *)
Definition check_dependencies (layers : list LayerReference) : option error :=
  first_failure ((λ l, check_deps (layer_map layers) l (lr_dependencies l)) <$> layers).

(** A Go map of counters: an absent key reads as zero. *)
Definition count (m : gmap string Z) (k : string) : Z := default 0%Z (m !! k).

(* @src internal/layerbuild/manifest.go:253-264 ResolveDependencies *)
Definition count_edges (layers : list LayerReference) : gmap string Z * gmap string (list string) :=
  foldl (λ acc layer,
    let '(deg, deps) := acc in
    let deg := match deg !! lr_name layer with None => <[lr_name layer := 0%Z]> deg | Some _ => deg end in
    foldl (λ acc dep,
      let '(deg, deps) := acc in
      (<[lr_name layer := (count deg (lr_name layer) + 1)%Z]> deg,
       <[dep := default [] (deps !! dep) ++ [lr_name layer]]> deps)) (deg, deps) (lr_dependencies layer))
    (∅, ∅) layers.

(* @src internal/layerbuild/manifest.go:283-288 ResolveDependencies *)
Definition release (acc : gmap string Z * list string) (dependent : string) : gmap string Z * list string :=
  let '(deg, queue) := acc in
  let n := (count deg dependent - 1)%Z in
  (<[dependent := n]> deg, if (n =? 0)%Z then queue ++ [dependent] else queue).

(** [None]: the fuel ran out, which it does not ([ResolveDependencies_terminates]).
    The layer map is total on the names of the queue; the code would panic on a
    missing one, and the model skips it. *)
(* @src internal/layerbuild/manifest.go:275-289 ResolveDependencies *)
Fixpoint kahn (fuel : nat) (known : gmap string LayerReference) (dependents : gmap string (list string))
    (deg : gmap string Z) (queue : list string) (sorted : list LayerReference) : option (list LayerReference) :=
  match queue with
  | [] => Some sorted
  | name :: queue' =>
      match fuel with
      | 0%nat => None
      | S fuel' =>
          let '(deg', queue'') := foldl release (deg, queue') (default [] (dependents !! name)) in
          kahn fuel' known dependents deg' queue'' (sorted ++ option_list (known !! name))
      end
  end.

(** A name enters the queue for each of its layers at the start, or once when its
    counter reaches zero. *)
Definition resolve_fuel (layers : list LayerReference) : nat := length layers.

(* @func internal/layerbuild/manifest.go ResolveDependencies *)
Definition ResolveDependencies (layers : list LayerReference) : option (result (list LayerReference)) :=
  match layers with
  | [] => Some (Ok [])
  | _ =>
      match check_dependencies layers with
      | Some e => Some (Err e)
      | None =>
          let '(deg, dependents) := count_edges layers in
          let queue := lr_name <$> List.filter (λ l, (count deg (lr_name l) =? 0)%Z) layers in
          match kahn (resolve_fuel layers) (layer_map layers) dependents deg queue [] with
          | None => None
          | Some sorted =>
              if negb (length sorted =? length layers)%nat then Some (Err (Errorf "circular dependency detected in layers" []))
              else Some (Ok sorted)
          end
      end
  end.

(** * Lemmas *)

(** No two schemes are prefixes of one source. *)
Lemma one_scheme source p q :
  p ∈ schemes → q ∈ schemes → has_prefix (fst p) source = true → has_prefix (fst q) source = true → p = q.
Proof.
  intros Hp Hq [r1 ->]%has_prefix_iff [r2 E]%has_prefix_iff.
  unfold schemes in *. set_unfold in Hp. set_unfold in Hq.
  destruct_or!; subst; try done; cbn in E; congruence.
Qed.

Example conditionPattern_ex :
  conditionPattern "${ENABLE_X:-true}" = Some ("ENABLE_X", "true") ∧
  conditionPattern "a ${b} ${C}" = Some ("C", "") ∧ conditionPattern "${C:-" = None ∧
  conditionPattern "${X:-${Y}}" = Some ("X", "${Y").
Proof. by vm_compute. Qed.

Example namePattern_ex :
  namePattern "a-b" = true ∧ namePattern "-a" = false ∧ namePattern "a-" = false ∧ namePattern "" = false ∧ namePattern "z" = true.
Proof. by vm_compute. Qed.

(** * What a manifest is checked for *)

Lemma required_field_nil f v errs : required_field f v errs = [] ↔ v ≠ "" ∧ errs = [].
Proof.
  unfold required_field, ves_Add. destruct (String.eqb_spec v ""); [|naive_solver].
  split; [by intros []%app_nil|naive_solver].
Qed.

Lemma ves_Add_nil errs f m : ves_Add errs f m ≠ [].
Proof. by intros []%app_nil. Qed.

(** A source the build knows how to read, with a checksum if it is remote. *)
Definition source_ok (l : LayerReference) : Prop :=
  ∃ scheme st, (scheme, st) ∈ schemes ∧ has_prefix scheme (lr_source l) = true ∧
    (st ∈ [SourceTypeRegistry; SourceTypeURL] → lr_sha256 l ≠ "").

Definition layer_ok (l : LayerReference) : Prop :=
  lr_name l ≠ "" ∧ IsValid (lr_type l) = true ∧ source_ok l.

Definition manifest_ok (m : ImageManifest) : Prop :=
  im_version m = "1.0" ∧ namePattern (im_name m) = true ∧
  kc_version (im_kernel m) ≠ "" ∧ kc_source (im_kernel m) ≠ "" ∧ kc_cmdline (im_kernel m) ≠ "" ∧
  im_layers m ≠ [] ∧ Forall layer_ok (im_layers m).

Lemma ParseSourceType_true source st :
  ParseSourceType source = (st, true) ↔ ∃ scheme, (scheme, st) ∈ schemes ∧ has_prefix scheme source = true.
Proof.
  unfold ParseSourceType. destruct (String.eqb_spec source "") as [->|Hne].
  - split; [done|]. intros (scheme & Hs & Hp). exfalso. unfold schemes in Hs. set_unfold in Hs.
    destruct_or!; simplify_eq; done.
  - destruct (List.find _ schemes) as [[scheme st']|] eqn:E.
    + apply find_some in E as [Hin Hp]. apply list_elem_of_In in Hin. simpl in Hp. split.
      * intros [= <-]. eauto.
      * intros (scheme' & Hs & Hp'). assert ((scheme, st') = (scheme', st)) as [= _ ->] by (by eapply one_scheme). done.
    + split; [done|]. intros (scheme & Hs & Hp). eapply find_none in E; [|by apply list_elem_of_In]. simpl in E. congruence.
Qed.

Lemma ParseSourceType_false source st :
  ParseSourceType source = (st, false) → ¬ ∃ scheme st', (scheme, st') ∈ schemes ∧ has_prefix scheme source = true.
Proof.
  intros E (scheme & st' & H). assert (ParseSourceType source = (st', true)) by (apply ParseSourceType_true; eauto). congruence.
Qed.

Lemma validateLayer_nil errs l i : validateLayer errs l i = [] ↔ layer_ok l ∧ errs = [].
Proof.
  unfold validateLayer, layer_ok, source_ok, isRemoteSource, Valid.
  set (p := "layers[" +:+ _). set (e1 := required_field _ _ errs).
  assert (He1 : e1 = [] ↔ lr_name l ≠ "" ∧ errs = []) by apply required_field_nil. clearbody e1.
  set (e2 := if String.eqb (lr_type l) "" then _ else _).
  assert (He2 : e2 = [] ↔ IsValid (lr_type l) = true ∧ e1 = []).
  { unfold e2. destruct (String.eqb_spec (lr_type l) "") as [->|].
    - split; [intros []%ves_Add_nil|by intros []].
    - destruct (IsValid (lr_type l)); simpl; [naive_solver|]. split; [intros []%ves_Add_nil|by intros []]. }
  clearbody e2. destruct (String.eqb_spec (lr_source l) "") as [E|_].
  { split; [intros []%ves_Add_nil|]. intros ((_ & _ & scheme & st & Hs & Hp & _) & _).
    exfalso. rewrite E in Hp. unfold schemes in Hs. set_unfold in Hs. destruct_or!; simplify_eq; done. }
  destruct (ParseSourceType (lr_source l)) as [st [|]] eqn:Es; simpl.
  - apply ParseSourceType_true in Es as (scheme & Hs & Hp).
    assert (Huniq : ∀ scheme' st', (scheme', st') ∈ schemes → has_prefix scheme' (lr_source l) = true → st' = st).
    { intros scheme' st' Hs' Hp'. assert ((scheme', st') = (scheme, st)) as [= _ ->] by (by eapply one_scheme). done. }
    destruct (bool_decide (st = SourceTypeRegistry) || bool_decide (st = SourceTypeURL)) eqn:Er; simpl.
    + assert (st ∈ [SourceTypeRegistry; SourceTypeURL]) by (apply orb_true_iff in Er as [?%bool_decide_eq_true|?%bool_decide_eq_true]; set_solver).
      destruct (String.eqb_spec (lr_sha256 l) "").
      * split; [intros []%ves_Add_nil|]. intros ((_ & _ & scheme' & st' & Hs' & Hp' & Hsha) & _).
        rewrite (Huniq _ _ Hs' Hp') in Hsha. naive_solver.
      * rewrite He2, He1. split; [|tauto]. intros (? & ? & ?). split_and!; try done. exists scheme, st. auto.
    + rewrite He2, He1. split; [|tauto]. intros (? & ? & ?). split_and!; try done. exists scheme, st. split_and!; [done..|].
      intros Hin. apply orb_false_iff in Er as [?%bool_decide_eq_false ?%bool_decide_eq_false]. set_solver.
  - apply ParseSourceType_false in Es. split; [intros []%ves_Add_nil|]. intros ((_ & _ & scheme & st' & ? & ? & _) & _).
    exfalso. naive_solver.
Qed.

Lemma validateLayers_nil errs i ls : validateLayers errs i ls = [] ↔ Forall layer_ok ls ∧ errs = [].
Proof.
  revert errs i. induction ls as [|l ls IH]; intros errs i; simpl; [naive_solver|].
  rewrite IH, validateLayer_nil, Forall_cons. tauto.
Qed.

(** ValidateManifest accepts exactly the manifests of version 1.0 whose name is
    lower-case letters, digits and inner hyphens, whose kernel is complete, and that
    have at least one layer, each with a name, a known type and a source of a known
    scheme, with a checksum where the source is remote. *)
Theorem ValidateManifest_spec (m : ImageManifest) : ValidateManifest m = None ↔ manifest_ok m.
Proof.
  unfold ValidateManifest, manifest_ok, validateKernel.
  set (e1 := if String.eqb (im_version m) "" then _ else _).
  assert (H1 : e1 = [] ↔ im_version m = "1.0").
  { unfold e1. destruct (String.eqb_spec (im_version m) "") as [->|]; [by split; [intros []%ves_Add_nil|]|].
    destruct (String.eqb_spec (im_version m) "1.0"); simpl; [naive_solver|].
    by split; [intros []%ves_Add_nil|]. }
  clearbody e1. set (e2 := if String.eqb (im_name m) "" then _ else _).
  assert (H2 : e2 = [] ↔ namePattern (im_name m) = true ∧ e1 = []).
  { unfold e2. destruct (String.eqb_spec (im_name m) "") as [->|]; [split; [intros []%ves_Add_nil|by intros []]|].
    destruct (namePattern (im_name m)); simpl; [naive_solver|]. split; [intros []%ves_Add_nil|by intros []]. }
  clearbody e2. set (e3 := required_field "kernel.cmdline" _ _).
  assert (H3 : e3 = [] ↔ kc_cmdline (im_kernel m) ≠ "" ∧ kc_source (im_kernel m) ≠ "" ∧ kc_version (im_kernel m) ≠ "" ∧ e2 = [])
    by (unfold e3; rewrite !required_field_nil; tauto).
  clearbody e3. set (e4 := if (length (im_layers m) =? 0)%nat then _ else e3).
  assert (H4 : e4 = [] ↔ im_layers m ≠ [] ∧ e3 = []).
  { unfold e4. destruct (im_layers m); simpl; [|naive_solver]. split; [intros []%ves_Add_nil|by intros []]. }
  clearbody e4. pose proof (validateLayers_nil e4 0 (im_layers m)) as H5.
  destruct (validateLayers e4 0 (im_layers m)) as [|e es]; simpl.
  - split; [|done]. intros _. tauto.
  - split; [done|]. intros H. exfalso. assert (e :: es = []); [|done]. apply H5. tauto.
Qed.

(** * Conditions *)

Lemma span_app f s r :
  string_forallb f s = true → first_char f r = false → span f (s +:+ r) = (s, r).
Proof.
  intros Hs Hr. induction s as [|a s IH].
  - destruct r as [|b r]; [done|]. simpl in Hr. change ("" +:+ String b r) with (String b r). simpl. by rewrite Hr.
  - simpl in Hs. apply andb_true_iff in Hs as [Ha Hs]. rewrite string_app_cons. simpl. by rewrite Ha, IH.
Qed.

(** A variable name of a condition. *)
Definition var_name (s : string) : Prop := first_char var_start s = true ∧ string_forallb var_char s = true.

Lemma has_prefix_app p s : has_prefix p (p +:+ s) = true.
Proof. apply has_prefix_iff. by eexists. Qed.

Lemma match_here_default name def rest :
  var_name name → string_forallb no_brace def = true →
  match_here ("${" +:+ name +:+ ":-" +:+ def +:+ "}" +:+ rest) = Some (name, def).
Proof.
  intros [Hn1 Hn2] Hd. unfold match_here.
  assert (strip_prefix "${" ("${" +:+ name +:+ ":-" +:+ def +:+ "}" +:+ rest) = Some (name +:+ ":-" +:+ def +:+ "}" +:+ rest)) as ->
    by (by apply strip_prefix_Some).
  rewrite span_app by done. rewrite Hn1.
  assert (strip_prefix ":-" (":-" +:+ def +:+ "}" +:+ rest) = Some (def +:+ "}" +:+ rest)) as -> by (by apply strip_prefix_Some).
  rewrite span_app by done. by rewrite has_prefix_app.
Qed.

Lemma match_here_plain name rest : var_name name → match_here ("${" +:+ name +:+ "}" +:+ rest) = Some (name, "").
Proof.
  intros [Hn1 Hn2]. unfold match_here.
  assert (strip_prefix "${" ("${" +:+ name +:+ "}" +:+ rest) = Some (name +:+ "}" +:+ rest)) as -> by (by apply strip_prefix_Some).
  rewrite span_app by done. rewrite Hn1. cbn [strip_prefix]. by rewrite has_prefix_app.
Qed.

Lemma conditionPattern_here s m : match_here s = Some m → conditionPattern s = Some m.
Proof. intros H. destruct s; cbn [conditionPattern]; by rewrite H. Qed.

(** The first layer of a manifest. *)
Definition layer_0 (m : ImageManifest) : LayerReference :=
  default (mkLayerRef "" "" "" "" "" false [] []) (head (im_layers m)).

(** A layer of the manifest is built exactly if it is required, has no
    condition, or its condition holds; and a condition "${NAME:-default}" (or
    "${NAME}", with an empty default) holds exactly if the value of NAME in the
    environment, or the default when it is not set, reads true, 1, yes or on. *)
Theorem EvaluateConditions_spec (m : ImageManifest) (env : gmap string string) (l : LayerReference) :
  (l ∈ EvaluateConditions m env ↔
    l ∈ im_layers m ∧
    (lr_required l = true ∨ lr_condition l = "" ∨ isTruthy (evaluateCondition (lr_condition l) env) = true)) ∧
  ∀ name, var_name name →
    (∀ def, string_forallb no_brace def = true →
       evaluateCondition ("${" +:+ name +:+ ":-" +:+ def +:+ "}") env = default def (env !! name)) ∧
    evaluateCondition ("${" +:+ name +:+ "}") env = default "" (env !! name).
Proof.
  split.
  - unfold EvaluateConditions, shouldIncludeLayer. rewrite list_elem_of_In, filter_In, <- list_elem_of_In.
    destruct (lr_required l); [naive_solver|]. destruct (String.eqb_spec (lr_condition l) ""); naive_solver.
  - intros name Hn. unfold evaluateCondition. split; [intros def Hd|].
    + pose proof (match_here_default name def "" Hn Hd) as H. rewrite string_app_nil_r in H.
      by rewrite (conditionPattern_here _ _ H).
    + pose proof (match_here_plain name "" Hn) as H. rewrite string_app_nil_r in H.
      by rewrite (conditionPattern_here _ _ H).
Qed.

Lemma EvaluateConditions_spec_witness :
  let m := mkImageManifest "1.0" "img" "" (mkKernel "" "" "" "")
    [mkLayerRef "debug" "feature" "local:///d" "" "${DEBUG:-no}" false [] []] DefaultOutputConfig in
  var_name "DEBUG" ∧ string_forallb no_brace "no" = true ∧
  evaluateCondition ("${" +:+ "DEBUG" +:+ ":-" +:+ "no" +:+ "}") {["DEBUG" := "1"]} = "1" ∧
  EvaluateConditions m {["DEBUG" := "1"]} = im_layers m ∧ EvaluateConditions m ∅ = [].
Proof.
  intros m. assert (Hn : var_name "DEBUG") by (split; reflexivity). split; [exact Hn|]. split; [reflexivity|].
  split; [|split; reflexivity].
  destruct (EvaluateConditions_spec m {["DEBUG" := "1"]} (layer_0 m)) as [_ H].
  exact (proj1 (H "DEBUG" Hn) "no" eq_refl).
Defined.
