(* ===== verification/LayerResolve.v ===== *)
(** The order of dependencies (ResolveDependencies of
    src/internal/layerbuild/manifest.go): it terminates on every input, and on
    layers with distinct names it succeeds exactly when an order exists in which
    every layer comes after those it depends on, and returns such an order. *)

From stdpp Require Import gmap.
From S2P Require Import Prelude GoStrings LayerTypes LayerManifest.

(** Every dependency of a layer is the name of an earlier one. *)
Definition dep_order (order : list LayerReference) : Prop :=
  ∀ i l d, order !! i = Some l → d ∈ lr_dependencies l → d ∈ lr_name <$> take i order.

(** * Counting *)

Definition occ {A} `{EqDecision A} (k : A) (l : list A) : Z := Z.of_nat (length (filter (λ x, x = k) l)).

Lemma occ_cons {A} `{EqDecision A} (k x : A) l :
  occ k (x :: l) = ((if decide (x = k) then 1 else 0) + occ k l)%Z.
Proof. unfold occ. rewrite filter_cons. destruct (decide (x = k)); simpl; lia. Qed.

Lemma occ_nonneg {A} `{EqDecision A} (k : A) l : (0 ≤ occ k l)%Z.
Proof. unfold occ. lia. Qed.

Lemma count_insert m k v k' : count (<[k := v]> m) k' = if decide (k = k') then v else count m k'.
Proof. unfold count. destruct (decide (k = k')) as [->|]; by simplify_map_eq. Qed.

(** The dependencies as edges from the dependency to the dependent. *)
Definition edges (layers : list LayerReference) : list (string * string) :=
  layers ≫= λ l, (λ d, (d, lr_name l)) <$> lr_dependencies l.

Definition edges_to (k : string) (es : list (string * string)) : Z := occ k (es.*2).
Definition edges_from (d : string) (es : list (string * string)) : list string := (filter (λ e, e.1 = d) es).*2.

Lemma edges_from_app d es1 es2 : edges_from d (es1 ++ es2) = edges_from d es1 ++ edges_from d es2.
Proof. unfold edges_from. by rewrite filter_app, fmap_app. Qed.

(** What the two maps hold after some edges. *)
Definition counted (deg : gmap string Z) (deps : gmap string (list string)) (es : list (string * string)) : Prop :=
  (∀ k, count deg k = edges_to k es) ∧ (∀ d, default [] (deps !! d) = edges_from d es).

Lemma edges_to_snoc k es d x : edges_to k (es ++ [(d, x)]) = (edges_to k es + if decide (x = k) then 1 else 0)%Z.
Proof.
  unfold edges_to, occ. rewrite fmap_app, filter_app, length_app. simpl. rewrite filter_cons.
  destruct (decide (x = k)); simpl; lia.
Qed.

Lemma counted_edge deg deps es name dep :
  counted deg deps es →
  counted (<[name := (count deg name + 1)%Z]> deg) (<[dep := default [] (deps !! dep) ++ [name]]> deps) (es ++ [(dep, name)]).
Proof.
  intros [Hd He]. split.
  - intros k. rewrite count_insert, edges_to_snoc, !Hd. destruct (decide (name = k)) as [->|]; lia.
  - intros d. unfold edges_from. rewrite filter_app, fmap_app.
    destruct (decide (dep = d)) as [->|Hne].
    + rewrite lookup_insert_eq, filter_cons_True by done. simpl. rewrite He. done.
    + rewrite lookup_insert_ne, filter_cons_False by done. simpl. rewrite He. by rewrite app_nil_r.
Qed.

Definition edge_step (name : string) (acc : gmap string Z * gmap string (list string)) (dep : string) :
    gmap string Z * gmap string (list string) :=
  let '(deg, deps) := acc in
  (<[name := (count deg name + 1)%Z]> deg, <[dep := default [] (deps !! dep) ++ [name]]> deps).

Lemma counted_edges name ds acc es :
  counted acc.1 acc.2 es →
  let acc' := foldl (edge_step name) acc ds in
  counted acc'.1 acc'.2 (es ++ ((λ d, (d, name)) <$> ds)) ∧ dom acc'.1 ⊆ {[name]} ∪ dom acc.1.
Proof.
  revert acc es. induction ds as [|d ds IH]; intros [deg deps] es Hc; simpl in *.
  - rewrite app_nil_r. split; [done|set_solver].
  - destruct (IH (edge_step name (deg, deps) d) (es ++ [(d, name)])) as [H1 H2]; [by apply counted_edge|].
    rewrite <- app_assoc in H1. split; [done|]. cbn in H2. rewrite dom_insert in H2. cbn. set_solver.
Qed.

Definition ensure_zero (name : string) (deg : gmap string Z) : gmap string Z :=
  match deg !! name with None => <[name := 0%Z]> deg | Some _ => deg end.

Definition layer_step (acc : gmap string Z * gmap string (list string)) (layer : LayerReference) :
    gmap string Z * gmap string (list string) :=
  let '(deg, deps) := acc in
  foldl (edge_step (lr_name layer)) (ensure_zero (lr_name layer) deg, deps) (lr_dependencies layer).

Lemma counted_layers layers acc es :
  counted acc.1 acc.2 es →
  let acc' := foldl layer_step acc layers in
  counted acc'.1 acc'.2 (es ++ edges layers) ∧ dom acc'.1 ⊆ list_to_set (lr_name <$> layers) ∪ dom acc.1.
Proof.
  revert acc es. induction layers as [|l layers IH]; intros [deg deps] es Hc; simpl in *.
  - rewrite app_nil_r. split; [done|set_solver].
  - set (deg0 := ensure_zero (lr_name l) deg).
    assert (counted deg0 deps es ∧ dom deg0 ⊆ {[lr_name l]} ∪ dom deg) as [Hc0 Hd0].
    { unfold deg0, ensure_zero. destruct (deg !! lr_name l) as [n|] eqn:E; [split; [done|set_solver]|].
      split; [|rewrite dom_insert; set_solver]. destruct Hc as [Hd He]. split; [|done].
      intros k. rewrite count_insert. destruct (decide (lr_name l = k)) as [<-|]; [|done].
      rewrite <- Hd. unfold count. by rewrite E. }
    destruct (counted_edges (lr_name l) (lr_dependencies l) (deg0, deps) es Hc0) as [H1 H2].
    destruct (IH _ _ H1) as [H3 H4]. cbn in H2. split.
    + unfold edges. simpl. rewrite app_assoc. exact H3.
    + etrans; [exact H4|]. set_solver.
Qed.

(** The counters are the numbers of dependencies; the dependents of a name are
    the layers that name it, once for each mention. *)
Lemma count_edges_counted layers :
  let acc := count_edges layers in
  counted acc.1 acc.2 (edges layers) ∧ dom acc.1 ⊆ list_to_set (lr_name <$> layers).
Proof.
  destruct (counted_layers layers (∅, ∅) []) as [H1 H2]; [by split|].
  simpl in H1, H2. split; [exact H1|]. etrans; [exact H2|]. set_solver.
Qed.

(** * Releasing the dependents of a name *)

Lemma foldl_release ds deg q :
  ∃ deg' p, foldl release (deg, q) ds = (deg', q ++ p) ∧
    (∀ k, count deg' k = count deg k - occ k ds)%Z ∧ NoDup p ∧
    (∀ k, k ∈ p ↔ (0 < count deg k ≤ occ k ds)%Z).
Proof.
  revert deg q. induction ds as [|d ds IH]; intros deg q.
  - exists deg, []. rewrite app_nil_r. split_and!; [done| |constructor|].
    + intros k. unfold occ. simpl. lia.
    + intros k. unfold occ. simpl. split; [set_solver|lia].
  - cbn [foldl release]. set (n := (count deg d - 1)%Z).
    edestruct IH as (deg' & p & E & Hc & Hn & Hp). rewrite E. clear E IH.
    setoid_rewrite count_insert in Hc. setoid_rewrite count_insert in Hp.
    exists deg', ((if (n =? 0)%Z then [d] else []) ++ p).
    split_and!.
    + f_equal. destruct (n =? 0)%Z; [by rewrite <- app_assoc|done].
    + intros k. rewrite Hc, occ_cons. destruct (decide (d = k)) as [->|]; lia.
    + destruct (Z.eqb_spec n 0); [|done]. simpl. constructor; [|done].
      rewrite Hp. rewrite decide_True by done. lia.
    + intros k. rewrite elem_of_app, Hp, occ_cons. pose proof (occ_nonneg k ds).
      assert (k ∈ (if (n =? 0)%Z then [d] else []) ↔ k = d ∧ n = 0%Z) as ->
        by (destruct (Z.eqb_spec n 0); set_solver).
      destruct (decide (d = k)) as [->|Hne].
      * split; [intros [[_ ?]|?]; lia|]. intros ?. destruct (Z.eq_dec n 0%Z); [by left|right; lia].
      * split; [intros [[-> _]|?]; [done|lia]|right; lia].
Qed.

(** * Termination *)

(** The names whose counter has not reached zero. *)
Definition waiting (deg : gmap string Z) : gset string := filter (λ k, (0 < count deg k)%Z) (dom deg).

Lemma elem_waiting deg k : k ∈ waiting deg ↔ (0 < count deg k)%Z.
Proof.
  unfold waiting. rewrite elem_of_filter, elem_of_dom. split; [by intros [? _]|].
  intros H. split; [done|]. unfold count in H. destruct (deg !! k); [eauto|simpl in H; lia].
Qed.

Lemma size_names (l : list string) : (size (list_to_set (C:=gset string) l) ≤ length l)%nat.
Proof.
  induction l as [|x l IH]; [done|]. cbn [list_to_set length].
  pose proof (size_union_alt ({[x]} : gset string) (list_to_set l)) as E. rewrite size_singleton in E.
  assert (size (list_to_set l ∖ {[x]} : gset string) ≤ size (list_to_set l : gset string))%nat
    by (apply subseteq_size; set_solver). lia.
Qed.

(** Each release moves at most the waiting names to the queue. *)
Lemma release_measure ds deg q :
  let acc := foldl release (deg, q) ds in
  (length acc.2 + size (waiting acc.1) ≤ length q + size (waiting deg))%nat.
Proof.
  destruct (foldl_release ds deg q) as (deg' & p & -> & Hc & Hn & Hp). cbn.
  rewrite length_app, <- Nat.add_assoc. apply Nat.add_le_mono_l.
  rewrite <- (size_list_to_set (C:=gset string) p) by done.
  rewrite <- size_union.
  - apply subseteq_size. intros k. rewrite elem_of_union, elem_of_list_to_set, !elem_waiting, Hp, Hc.
    pose proof (occ_nonneg k ds). intros [?|?]; lia.
  - intros k. rewrite elem_of_list_to_set, elem_waiting, Hp, Hc. lia.
Qed.

Lemma kahn_terminates fuel known dependents deg queue sorted :
  (length queue + size (waiting deg) ≤ fuel)%nat →
  ∃ r, kahn fuel known dependents deg queue sorted = Some r.
Proof.
  revert deg queue sorted. induction fuel as [|fuel IH]; intros deg [|name queue] sorted Hm;
    cbn [kahn]; [by eexists|cbn in Hm; lia|by eexists|].
  pose proof (release_measure (default [] (dependents !! name)) deg queue) as Hr.
  destruct (foldl release _ _) as [deg' queue']. apply IH. cbn in Hr, Hm. lia.
Qed.

Definition start_queue (deg : gmap string Z) (layers : list LayerReference) : list string :=
  lr_name <$> List.filter (λ l, (count deg (lr_name l) =? 0)%Z) layers.

Lemma start_measure deg layers :
  dom deg ⊆ list_to_set (C := gset string) (lr_name <$> layers) →
  (length (start_queue deg layers) + size (waiting deg) ≤ length layers)%nat.
Proof.
  intros Hd. unfold start_queue. rewrite length_fmap.
  assert (size (waiting deg) ≤ length (List.filter (λ l, negb (count deg (lr_name l) =? 0)%Z) layers))%nat as Hw.
  { rewrite <- (length_fmap lr_name). etrans; [|apply size_names].
    apply subseteq_size. intros k Hk. apply elem_of_list_to_set, list_elem_of_fmap.
    assert (k ∈ dom deg) as Hkd%Hd by (apply elem_of_filter in Hk; tauto).
    apply elem_waiting in Hk. apply elem_of_list_to_set, list_elem_of_fmap in Hkd as (l & -> & Hl).
    exists l. split; [done|]. apply list_elem_of_In, filter_In. rewrite <- list_elem_of_In. split; [done|].
    apply negb_true_iff, Z.eqb_neq. lia. }
  pose proof (filter_length (λ l, (count deg (lr_name l) =? 0)%Z) layers). lia.
Qed.

(** C14: ResolveDependencies terminates on every list of layers, also one with
    duplicate names, missing or cyclic dependencies: the loop over the queue takes
    at most as many rounds as there are layers. *)
Theorem ResolveDependencies_terminates (layers : list LayerReference) :
  ∃ r, ResolveDependencies layers = Some r.
Proof.
  unfold ResolveDependencies. destruct layers as [|l0 layers]; [by eexists|].
  set (ls := l0 :: layers). destruct (check_dependencies ls); [by eexists|].
  pose proof (count_edges_counted ls) as [_ Hd]. destruct (count_edges ls) as [deg dependents].
  cbn [fst] in Hd. pose proof (start_measure deg ls Hd) as Hm.
  edestruct (kahn_terminates (resolve_fuel ls)) as [sorted Hk]; [exact Hm|]. unfold start_queue in Hk.
  rewrite Hk. destruct (negb _); by eexists.
Qed.

(** * Correctness *)

(** The mentions of names that are not done yet. *)
Definition pending (fin : list string) (es : list (string * string)) (k : string) : Z :=
  Z.of_nat (length (filter (λ e, e.2 = k ∧ e.1 ∉ fin) es)).

Lemma pending_nil es k : pending [] es k = edges_to k es.
Proof.
  unfold pending, edges_to, occ. induction es as [|e es IH]; [done|]. cbn [fmap list_fmap].
  rewrite !filter_cons. destruct (decide (e.2 = k)).
  - rewrite decide_True by set_solver. cbn [length]. lia.
  - rewrite decide_False by tauto. done.
Qed.

Lemma pending_snoc fin name es k :
  name ∉ fin → pending (fin ++ [name]) es k = (pending fin es k - occ k (edges_from name es))%Z.
Proof.
  intros Hn. unfold pending, edges_from. induction es as [|[d x] es IH]; [done|].
  rewrite !filter_cons. cbn [fst snd]. destruct (decide (d = name)) as [->|Hd].
  - cbn [fmap list_fmap snd]. rewrite occ_cons. rewrite (decide_False (P := x = k ∧ name ∉ fin ++ [name])) by set_solver.
    destruct (decide (x = k)).
    + rewrite decide_True by done. cbn [length]. lia.
    + rewrite decide_False by tauto. lia.
  - destruct (decide (x = k ∧ d ∉ fin)).
    + rewrite decide_True by set_solver. cbn [length]. lia.
    + rewrite decide_False by set_solver. done.
Qed.

Lemma pending_positive fin es k : (0 < pending fin es k)%Z ↔ ∃ d, (d, k) ∈ es ∧ d ∉ fin.
Proof.
  unfold pending. split.
  - intros H. destruct (filter _ es) as [|[d x] l] eqn:E; [cbn in H; lia|].
    assert ((d, x) ∈ filter (λ e, e.2 = k ∧ e.1 ∉ fin) es) as Hin by (rewrite E; left).
    apply list_elem_of_filter in Hin as [[? ?] ?]. simpl in *. subst. eauto.
  - intros (d & Hd & Hf). assert ((d, k) ∈ filter (λ e, e.2 = k ∧ e.1 ∉ fin) es) as Hin by (by apply list_elem_of_filter).
    destruct (filter _ es); [by apply not_elem_of_nil in Hin|]. cbn. lia.
Qed.

Lemma elem_edges layers d k :
  (d, k) ∈ edges layers ↔ ∃ l, l ∈ layers ∧ lr_name l = k ∧ d ∈ lr_dependencies l.
Proof. unfold edges. set_unfold. naive_solver. Qed.

Lemma dep_order_snoc order l :
  dep_order order → (∀ d, d ∈ lr_dependencies l → d ∈ lr_name <$> order) → dep_order (order ++ [l]).
Proof.
  intros Ho Hl i l' d Hi Hd. destruct (decide (i < length order)%nat) as [Hlt|Hge].
  - rewrite lookup_app_l in Hi by done. rewrite take_app_le by lia. by eapply Ho.
  - rewrite lookup_app_r in Hi by lia. apply list_lookup_singleton_Some in Hi as [Hi ->].
    assert (i = length order) as -> by lia. rewrite take_app_length. by apply Hl.
Qed.

Section Correct.
Context (layers : list LayerReference) (Hnd : NoDup (lr_name <$> layers)).

Lemma same_name l l' : l ∈ layers → l' ∈ layers → lr_name l = lr_name l' → l = l'.
Proof. intros Hl Hl' E. by apply (NoDup_fmap_inj_on lr_name layers). Qed.

Lemma layer_map_spec k l : layer_map layers !! k = Some l ↔ l ∈ layers ∧ lr_name l = k.
Proof.
  unfold layer_map. assert (∀ ls (m : gmap string LayerReference), NoDup (lr_name <$> ls) →
    foldl (λ m l, <[lr_name l := l]> m) m ls !! k = Some l ↔
      (l ∈ ls ∧ lr_name l = k) ∨ (m !! k = Some l ∧ k ∉ lr_name <$> ls)) as H.
  { induction ls as [|x ls IH]; intros m Hn; simpl; [set_solver|].
    apply NoDup_cons in Hn as [Hx Hn]. rewrite IH by done. rewrite lookup_insert_Some.
    rewrite not_elem_of_cons, elem_of_cons. split.
    - intros [[? ?]|[[[<- <-]|[? ?]] ?]]; [auto|auto|right; auto].
    - intros [[[->|?] <-]|[? [? ?]]]; [right; by split; [left|]|auto|right; auto]. }
  rewrite H by done. rewrite lookup_empty. naive_solver.
Qed.

(** The loop's state: the names done or in the queue are those whose
    dependencies are all done, and what is sorted is in order. *)
Record kahn_inv (deg : gmap string Z) (queue : list string) (sorted : list LayerReference) : Prop := {
  ki_nodup : NoDup ((lr_name <$> sorted) ++ queue);
  ki_count : ∀ k, count deg k = pending (lr_name <$> sorted) (edges layers) k;
  ki_ready : ∀ k, k ∈ (lr_name <$> sorted) ++ queue ↔ k ∈ lr_name <$> layers ∧ count deg k = 0%Z;
  ki_sub : ∀ l, l ∈ sorted → l ∈ layers;
  ki_order : dep_order sorted }.

Lemma kahn_inv_step deg name queue sorted :
  kahn_inv deg (name :: queue) sorted →
  ∃ l, layer_map layers !! name = Some l ∧
    let acc := foldl release (deg, queue) (edges_from name (edges layers)) in
    kahn_inv acc.1 acc.2 (sorted ++ [l]).
Proof.
  intros [Hn Hc Hr Hs Ho].
  assert (name ∈ (lr_name <$> sorted) ++ name :: queue) as Hready by set_solver.
  apply Hr in Hready as [Hname Hzero]. apply list_elem_of_fmap in Hname as (l & -> & Hl).
  exists l. split; [by apply layer_map_spec|].
  destruct (foldl_release (edges_from (lr_name l) (edges layers)) deg queue) as (deg' & p & -> & Hd & Hp & Hpp).
  assert (lr_name l ∉ lr_name <$> sorted) as Hfresh by (apply NoDup_app in Hn as (_ & Hx & _); intros Hin; apply (Hx _ Hin); left).
  cbn. assert (∀ k, count deg' k = pending (lr_name <$> sorted ++ [l]) (edges layers) k) as Hc'.
  { intros k. rewrite Hd, Hc, fmap_app. cbn [fmap list_fmap]. by rewrite pending_snoc. }
  split; [| exact Hc' | | |].
  - rewrite fmap_app. cbn [fmap list_fmap]. rewrite <- app_assoc. cbn [app].
    rewrite app_comm_cons, app_assoc. apply NoDup_app. split_and!; [done| |done].
    intros k Hk Hkp. apply Hr in Hk as [_ Hk]. apply Hpp in Hkp. lia.
  - intros k. rewrite fmap_app. cbn [fmap list_fmap]. rewrite <- app_assoc. cbn [app].
    rewrite app_comm_cons, app_assoc, elem_of_app, Hr, Hpp, Hd.
    assert (0 ≤ count deg k - occ k (edges_from (lr_name l) (edges layers)))%Z as Hpos
      by (rewrite <- Hd, Hc'; unfold pending; lia).
    split; [intros [[? E]|?]|].
    + split; [done|]. pose proof (occ_nonneg k (edges_from (lr_name l) (edges layers))). lia.
    + split; [|lia]. assert (0 < pending (lr_name <$> sorted) (edges layers) k)%Z as (d & He & _)%pending_positive by (rewrite <- Hc; lia).
      apply elem_edges in He as (x & Hx & <- & _). by apply list_elem_of_fmap_2.
    + intros [? ?]. pose proof (occ_nonneg k (edges_from (lr_name l) (edges layers))).
      destruct (Z.eq_dec (count deg k) 0%Z); [by left|right; lia].
  - intros l'. rewrite elem_of_app, list_elem_of_singleton. intros [?| ->]; auto.
  - apply dep_order_snoc; [done|]. intros d Hdl. destruct (decide (d ∈ lr_name <$> sorted)) as [|Hnot]; [done|].
    exfalso. assert (0 < pending (lr_name <$> sorted) (edges layers) (lr_name l))%Z; [|rewrite Hc in Hzero; lia].
    apply pending_positive. exists d. split; [|done]. apply elem_edges. eauto.
Qed.

Lemma kahn_inv_run dependents fuel deg queue sorted r :
  (∀ d, default [] (dependents !! d) = edges_from d (edges layers)) →
  kahn_inv deg queue sorted →
  kahn fuel (layer_map layers) dependents deg queue sorted = Some r →
  ∃ deg', kahn_inv deg' [] r.
Proof.
  intros He. revert deg queue sorted. induction fuel as [|fuel IH]; intros deg [|name queue] sorted Hinv;
    cbn [kahn]; try (intros [= <-]; by eexists).
  destruct (kahn_inv_step _ _ _ _ Hinv) as (l & -> & Hstep). rewrite He.
  destruct (foldl release _ _) as [deg' queue']. by apply IH.
Qed.

Lemma kahn_inv_start deg :
  (∀ k, count deg k = edges_to k (edges layers)) → kahn_inv deg (start_queue deg layers) [].
Proof.
  intros Hc. unfold start_queue. split; cbn [fmap list_fmap app].
  - refine (sublist_NoDup _ _ Hnd _). apply fmap_sublist. clear. induction layers as [|x ls IH]; simpl; [done|].
    destruct (_ =? _)%Z; by constructor.
  - intros k. by rewrite pending_nil.
  - intros k. rewrite !list_elem_of_fmap. setoid_rewrite list_elem_of_In. setoid_rewrite filter_In.
    setoid_rewrite Z.eqb_eq. naive_solver.
  - set_solver.
  - intros i l d Hi. by rewrite lookup_nil in Hi.
Qed.

(** When the queue is empty, an order exists only if everything is sorted. *)
Lemma kahn_inv_complete deg sorted order l :
  kahn_inv deg [] sorted → order ≡ₚ layers → dep_order order → l ∈ layers → l ∈ sorted.
Proof.
  intros [Hn Hc Hr Hs Ho] Hperm Hord Hl.
  assert (∀ i, Forall (λ k, k ∈ lr_name <$> sorted) (lr_name <$> take i order)) as Hall.
  { induction i as [|i IH]; [rewrite take_0; constructor|].
    destruct (order !! i) as [x|] eqn:Ei; [|rewrite take_ge in IH |- * by (apply lookup_ge_None in Ei; lia); done].
    rewrite (take_S_r _ _ x) by done. rewrite fmap_app. apply Forall_app. split; [done|]. apply Forall_singleton.
    assert (x ∈ layers) as Hx by (rewrite <- Hperm; by eapply list_elem_of_lookup_2).
    rewrite <- (app_nil_r (lr_name <$> sorted)). apply Hr. split; [by apply list_elem_of_fmap_2|].
    assert (¬ (0 < count deg (lr_name x))%Z); [|rewrite Hc in *; unfold pending in *; lia].
    rewrite Hc, pending_positive. intros (d & He & Hd). apply elem_edges in He as (y & Hy & Exy & Hdy).
    assert (y = x) as -> by (by apply same_name). specialize (Hord _ _ _ Ei Hdy).
    rewrite Forall_forall in IH. by apply Hd, IH. }
  assert (l ∈ order) as [i Hi]%list_elem_of_lookup by (by rewrite Hperm).
  specialize (Hall (S i)). rewrite (take_S_r _ _ l), fmap_app in Hall by done.
  apply Forall_app in Hall as [_ [(l' & E & Hl')%list_elem_of_fmap _]%Forall_cons].
  assert (l = l') as ->; [|done]. apply same_name; auto.
Qed.

Lemma sorted_all deg sorted :
  kahn_inv deg [] sorted → length sorted = length layers → sorted ≡ₚ layers.
Proof.
  intros [Hn _ _ Hs _] Hlen. apply submseteq_length_Permutation; [|lia].
  rewrite app_nil_r in Hn. apply NoDup_submseteq; [by eapply NoDup_fmap_1|done].
Qed.

Lemma sorted_not_all deg sorted order :
  kahn_inv deg [] sorted → order ≡ₚ layers → dep_order order → length sorted = length layers.
Proof.
  intros Hinv Hp Ho. pose proof (kahn_inv_complete deg sorted order) as Hc.
  pose proof Hinv as [Hn _ _ Hs _]. rewrite app_nil_r in Hn.
  apply Nat.le_antisymm; apply submseteq_length, NoDup_submseteq.
  - by eapply NoDup_fmap_1.
  - done.
  - by eapply NoDup_fmap_1.
  - intros l Hl. by eapply Hc.
Qed.

(** Self-dependencies and missing dependencies. *)
Lemma check_deps_Some known l deps e :
  check_deps known l deps = Some e → ∃ d, d ∈ deps ∧ (d = lr_name l ∨ known !! d = None).
Proof.
  induction deps as [|d deps IH]; simpl; [done|].
  destruct (String.eqb_spec d (lr_name l)); [intros; exists d; split; [left|by left]|].
  case_bool_decide; [intros; exists d; split; [left|by right]|].
  intros (d' & ? & ?)%IH. exists d'. split; [by right|done].
Qed.

Lemma first_failure_Some checks e : first_failure checks = Some e → Some e ∈ checks.
Proof. induction checks as [|[x|] checks IH]; simpl; [done|intros [= ->]; left|intros ?; right; auto]. Qed.

Lemma no_order_when_refused e order :
  check_dependencies layers = Some e → order ≡ₚ layers → ¬ dep_order order.
Proof.
  intros He Hp Ho. apply first_failure_Some, list_elem_of_fmap in He as (l & He & Hl).
  symmetry in He. apply check_deps_Some in He as (d & Hd & Hbad).
  assert (l ∈ order) as [i Hi]%list_elem_of_lookup by (by rewrite Hp).
  specialize (Ho _ _ _ Hi Hd). destruct Hbad as [->|Hnone].
  - assert (NoDup (lr_name <$> order)) as Hno by (by rewrite Hp).
    apply list_elem_of_fmap in Ho as (l' & E & Hl'). apply list_elem_of_lookup in Hl' as [j Hj].
    apply lookup_take_Some in Hj as [Hj Hlt].
    assert (i = j); [|lia]. eapply (NoDup_lookup _ i j); [exact Hno| |].
    + by rewrite list_lookup_fmap, Hi.
    + rewrite list_lookup_fmap, Hj. simpl. by rewrite <- E.
  - apply list_elem_of_fmap in Ho as (l' & -> & Hl').
    assert (layer_map layers !! lr_name l' = Some l') as E; [|congruence].
    apply layer_map_spec. split; [|done]. rewrite <- Hp. apply list_elem_of_lookup in Hl' as [j Hj].
    apply lookup_take_Some in Hj as [Hj _]. by eapply list_elem_of_lookup_2.
Qed.
End Correct.

(** What a result says about the layers. *)
Definition resolved (layers : list LayerReference) (r : option (result (list LayerReference))) : Prop :=
  match r with
  | Some (Ok sorted) => sorted ≡ₚ layers ∧ dep_order sorted
  | Some (Err _) => ¬ ∃ order, order ≡ₚ layers ∧ dep_order order
  | None => False
  end.

Lemma resolve_correct (layers : list LayerReference) :
  NoDup (lr_name <$> layers) → resolved layers (ResolveDependencies layers).
Proof.
  intros Hnd. unfold ResolveDependencies. destruct layers as [|l0 ls']; [split; [done|intros i l d Hi; by rewrite lookup_nil in Hi]|].
  set (ls := l0 :: ls') in *. destruct (check_dependencies ls) eqn:Ec.
  { intros (order & Hp & Ho). by eapply no_order_when_refused. }
  pose proof (count_edges_counted ls) as [[Hd He] Hdom]. destruct (count_edges ls) as [deg dependents].
  cbn [fst snd] in *. pose proof (start_measure deg ls Hdom) as Hm.
  destruct (kahn_terminates (resolve_fuel ls) (layer_map ls) dependents deg _ [] Hm) as [sorted Hk].
  unfold start_queue in Hk. rewrite Hk. apply (kahn_inv_run ls Hnd) in Hk as [deg' Hinv]; [|done|by apply kahn_inv_start].
  destruct (Nat.eqb_spec (length sorted) (length ls)) as [E|E]; simpl.
  - split; [by eapply sorted_all|apply Hinv].
  - intros (order & Hp & Ho). apply E. by eapply sorted_not_all.
Qed.

(** C13: on layers with distinct names, ResolveDependencies returns the same layers
    in an order in which every dependency of a layer comes before it, whenever such
    an order exists; and it reports an error (missing, self or circular dependency)
    exactly when none exists. *)
Theorem ResolveDependencies_spec (layers : list LayerReference) (Hnd : NoDup (lr_name <$> layers)) :
  match ResolveDependencies layers with
  | Some (Ok sorted) => sorted ≡ₚ layers ∧ dep_order sorted
  | Some (Err _) => ¬ ∃ order, order ≡ₚ layers ∧ dep_order order
  | None => False
  end.
Proof. exact (resolve_correct layers Hnd). Qed.

Definition layer_ex (name : string) (deps : list string) : LayerReference :=
  mkLayerRef name "base" ("local:///" +:+ name) "" "" false deps [].

(** An application above a runtime above a base, listed in the opposite order. *)
Lemma ResolveDependencies_spec_witness :
  let ls := [layer_ex "app" ["python"; "base"]; layer_ex "python" ["base"]; layer_ex "base" []] in
  NoDup (lr_name <$> ls) ∧
  ResolveDependencies ls = Some (Ok [layer_ex "base" []; layer_ex "python" ["base"]; layer_ex "app" ["python"; "base"]]) ∧
  match ResolveDependencies ls with
  | Some (Ok sorted) => sorted ≡ₚ ls ∧ dep_order sorted
  | Some (Err _) => ¬ ∃ order, order ≡ₚ ls ∧ dep_order order
  | None => False
  end.
Proof.
  intros ls. assert (H : NoDup (lr_name <$> ls)) by (apply (bool_decide_unpack _); vm_compute; exact I).
  split; [exact H|]. split; [vm_compute; reflexivity|]. exact (ResolveDependencies_spec ls H).
Defined.

(** A manifest that lists a name twice is accepted; the build then applies the
    later layer twice instead of both, or reports a cycle where there is none. *)
Example duplicate_names_misresolved :
  let kernel := mkKernel "6.1" "local:///vmlinux" "" "console=ttyS0" in
  let manifest ls := mkImageManifest "1.0" "img" "" kernel ls DefaultOutputConfig in
  let tool v := mkLayerRef "tool" "feature" ("local:///" +:+ v) "" "" false [] [] in
  let twice := [tool "v1"; tool "v2"] in
  let no_cycle := [layer_ex "tool" []; layer_ex "tool" ["base"]; layer_ex "base" []] in
  ValidateManifest (manifest twice) = None ∧
  ResolveDependencies twice = Some (Ok [tool "v2"; tool "v2"]) ∧
  ValidateManifest (manifest no_cycle) = None ∧
  ResolveDependencies no_cycle = Some (Err (Errorf "circular dependency detected in layers" [])).
Proof. by vm_compute. Qed.
