(* ===== verification/LayerEnv.v ===== *)
(** What the layer build system (src/internal/layerbuild) works on: the files of
    the host, the database of the cache, the commands it runs, and an interface to
    everything that decides their outcome.

    A file is known by its cleaned path; links are not followed.  Every call takes
    one tick, and the environment answers it from that number, so that a theorem
    over all environments covers every sequence of answers and failures.  What a
    command does to the files is the environment's as well. *)

From stdpp Require Import gmap sorting.
From S2P Require Import Prelude GoStrings Paths Json Storage LayerTypes LayerManifest.

Inductive node : Type :=
  | File (content : string) (mode : Z)
  | Dir (mode : Z).

#[global] Instance node_eq_dec : EqDecision node.
Proof. solve_decision. Defined.

Abbreviation files := (gmap string node) (only parsing).

(** The calls that change the host, in the order they are made. *)
Inductive call : Type :=
  | CRun (c : command) (succeeded : bool)
  | CMkdirAll (path : string)
  | CWrite (path : string)
  | CChmod (path : string) (mode : Z)
  | CRemove (path : string)
  | CRemoveAll (path : string)
  | CSleep (duration : Z)
  | CPull (ref : string).

(** [w_touches]: the goroutines that [Get] starts and that have not run yet. *)
Record LWorld : Type := mkWorld {
  w_db : DB; w_files : files; w_touches : list string; w_calls : list call; w_tick : nat }.

(** Entries of a tar archive: the reader fails while it reads the data of one
    with [te_broken]. *)
Inductive tar_type : Type := TypeDir | TypeReg | TypeOther.
Record tar_entry : Type := mkTar {
  te_name : string; te_type : tar_type; te_mode : Z; te_data : string; te_broken : option error }.

#[global] Instance tar_type_eq_dec : EqDecision tar_type.
Proof. solve_decision. Defined.

(** What a walk meets: [we_size] is the size of the header written for it, which
    is zero for anything but a regular file; [we_open] what opening and reading it
    gives. *)
Record walk_entry : Type := mkWalk {
  we_path : string; we_dir : bool; we_type : tar_type; we_mode : Z; we_size : Z; we_open : result string }.

(** Images of a registry, as the client library gives them. *)
Record image_ref : Type := mkRef { ref_text : string; ref_repository : string; ref_identifier : string }.
Record image : Type := mkImage {
  image_digest : result string;
  image_layers : result (list (result (list tar_entry * option error))) }.
Record transport_error : Type := mkTransport { tr_status : Z; tr_codes : list string }.

(** How a hook script ends. *)
Inductive hook_outcome : Type :=
  | HookOk
  | HookPipeFails (which : string) (e : error)
  | HookStartFails (e : error)
  | HookTimesOut
  | HookCancelled (e : error)
  | HookExits (status : Z)
  | HookWaitFails (e : error).

Class LEnv : Type := {
  le_fault : nat → option error;            (* a call of the system or the driver *)
  le_remove : nat → option error;           (* a removal *)
  le_query : nat → query_outcome;           (* a query over rows *)
  le_partial : nat → string;                (* what a broken copy leaves *)
  le_command : nat → command → files → option error * string * files;
  le_hook : nat → command → list string → files → hook_outcome * files;   (* [chroot] with an environment *)
  le_now : nat → Z;
  le_time : Z → string;                     (* RFC 3339 *)
  le_uuid : nat → string;
  le_geteuid : nat → Z;
  le_done : nat → option error;             (* [ctx.Err()] *)
  le_untar : bool → string → result (list tar_entry * option error);   (* reading an archive; gzip or not *)
  le_pack : list tar_entry → string;                                  (* writing a gzipped one *)
  le_walk : nat → string → files → list walk_entry * option error;    (* [filepath.Walk] *)
  le_ref : string → result image_ref;                                 (* [name.ParseReference] *)
  le_image : nat → image_ref → result image;                          (* [remote.Image] *)
  le_transport : error → option transport_error;                      (* [errors.As] to [*transport.Error] *)
  le_text : error → string;                                           (* [err.Error()] *)
  json_Marshal : json → string;
  json_Unmarshal : string → option json;
  le_yaml :: Yaml }.

Definition LM (A : Type) : Type := State LWorld A.

Definition set_w_db (w : LWorld) (db : DB) : LWorld := mkWorld db (w_files w) (w_touches w) (w_calls w) (w_tick w).
Definition set_w_files (w : LWorld) (fs : files) : LWorld := mkWorld (w_db w) fs (w_touches w) (w_calls w) (w_tick w).
Definition tick (w : LWorld) : LWorld := mkWorld (w_db w) (w_files w) (w_touches w) (w_calls w) (S (w_tick w)).
Definition log_call (c : call) (w : LWorld) : LWorld :=
  mkWorld (w_db w) (w_files w) (w_touches w) (w_calls w ++ [c]) (w_tick w).

Definition perm_0755 : Z := 493.
Definition perm_0644 : Z := 420.
Definition perm_0666 : Z := 438.

(** A path and the directories above it, outermost first. *)
Definition path_chain (p : string) : list string :=
  (λ i, path_render (is_rooted p) (take (S i) (path_elements p))) <$> seq 0 (length (path_elements p)).

Definition add_dir (mode : Z) (fs : files) (p : string) : files :=
  match fs !! p with None => <[p := Dir mode]> fs | Some _ => fs end.

Definition is_file (n : option node) : bool := match n with Some (File _ _) => true | _ => false end.

Definition mkdir_all (p : string) (mode : Z) (fs : files) : result files :=
  if existsb (λ q, is_file (fs !! q)) (path_chain p) then Err (ErrorsNew "not a directory")
  else Ok (foldl (add_dir mode) fs (path_chain p)).

Definition below (dir p : string) : Prop := path_elements dir `prefix_of` path_elements p.
#[export] Instance below_dec dir p : Decision (below dir p).
Proof. unfold below. apply _. Defined.

(** [os.ReadDir]: the entries of a directory, by name. *)
Definition name_le (x y : string * bool) : Prop := String.leb (fst x) (fst y) = true.
#[global] Instance name_le_dec : RelDecision name_le.
Proof. intros x y. unfold name_le. apply _. Defined.

Definition entry_of (base : string) (kv : string * node) : option (string * bool) :=
  match last (path_elements (fst kv)) with
  | Some name =>
      if bool_decide (path_elements (fst kv) = path_elements base ++ [name])
      then Some (name, negb (is_file (Some (snd kv)))) else None
  | None => None
  end.

Section Calls.
Context `{LEnv}.

Definition fresh {A} (f : nat → A) : LM A := λ w, (f (w_tick w), tick w).

(** [os.Stat]: a directory or not, its mode and size. *)
Definition os_Stat (p : string) : LM (result node) := λ w,
  (match le_fault (w_tick w) with
   | Some e => Err e
   | None => match w_files w !! path_clean p with Some n => Ok n | None => Err (ErrorsNew ErrNotExist) end
   end, tick w).

(** [os.Open]: what the file descriptor gives. *)
Definition os_Open : string → LM (result node) := os_Stat.

(** Open a file and read it to its end. *)
Definition os_ReadFile (p : string) : LM (result string) := λ w,
  (match le_fault (w_tick w) with
   | Some e => Err e
   | None =>
       match w_files w !! path_clean p with
       | Some (File content _) => Ok content
       | Some (Dir _) => Err (ErrorsNew "is a directory")
       | None => Err (ErrorsNew ErrNotExist)
       end
   end, tick w).

Definition os_MkdirAll (p : string) (mode : Z) : LM (option error) := λ w,
  let w' := log_call (CMkdirAll p) (tick w) in
  match le_fault (w_tick w) with
  | Some e => (Some e, w')
  | None =>
      match mkdir_all p mode (w_files w) with
      | Err e => (Some e, w')
      | Ok fs => (None, set_w_files w' fs)
      end
  end.

(** The mode of a file that exists is kept. *)
Definition node_mode (n : option node) (mode : Z) : Z :=
  match n with Some (File _ m) => m | _ => mode end.

(** [os.Create] or [os.OpenFile] with truncation: the file is empty. *)
Definition os_Create (p : string) (mode : Z) : LM (option error) := λ w,
  let w' := log_call (CWrite p) (tick w) in
  match le_fault (w_tick w) with
  | Some e => (Some e, w')
  | None =>
      match w_files w !! path_clean p with
      | Some (Dir _) => (Some (ErrorsNew "is a directory"), w')
      | n => (None, set_w_files w' (<[path_clean p := File "" (node_mode n mode)]> (w_files w)))
      end
  end.

(** Write to the file just created. *)
Definition os_Fill (p content : string) : LM (option error) := λ w,
  let mode := node_mode (w_files w !! path_clean p) perm_0666 in
  match le_fault (w_tick w) with
  | Some e => (Some e, set_w_files (tick w) (<[path_clean p := File (le_partial (w_tick w)) mode]> (w_files w)))
  | None => (None, set_w_files (tick w) (<[path_clean p := File content mode]> (w_files w)))
  end.

Definition os_WriteFile (p content : string) (mode : Z) : LM (option error) :=
  let* e := os_Create p mode in
  match e with
  | Some e => ret (Some e)
  | None => os_Fill p content
  end.

Definition os_Chmod (p : string) (mode : Z) : LM (option error) := λ w,
  let w' := log_call (CChmod p mode) (tick w) in
  match le_fault (w_tick w) with
  | Some e => (Some e, w')
  | None =>
      match w_files w !! path_clean p with
      | Some (File c _) => (None, set_w_files w' (<[path_clean p := File c mode]> (w_files w)))
      | Some (Dir _) => (None, set_w_files w' (<[path_clean p := Dir mode]> (w_files w)))
      | None => (Some (ErrorsNew ErrNotExist), w')
      end
  end.

Definition os_Remove (p : string) : LM (option error) := λ w,
  let w' := log_call (CRemove p) (tick w) in
  match le_remove (w_tick w) with
  | Some e => (Some e, w')
  | None =>
      match w_files w !! path_clean p with
      | None => (Some (ErrorsNew ErrNotExist), w')
      | Some _ => (None, set_w_files w' (delete (path_clean p) (w_files w)))
      end
  end.

Definition os_RemoveAll (p : string) : LM unit := λ w,
  let w' := log_call (CRemoveAll p) (tick w) in
  (tt, match le_remove (w_tick w) with
       | Some _ => w'
       | None => set_w_files w' (filter (λ kv, ¬ below p (fst kv)) (w_files w))
       end).

(** [exec.Command(...).CombinedOutput()]. *)
Definition run_command (name : string) (args : list string) : LM (string * option error) := λ w,
  let c := Cmd name args in
  let '(e, out, fs) := le_command (w_tick w) c (w_files w) in
  ((out, e), set_w_files (log_call (CRun c (bool_decide (e = None))) (tick w)) fs).

Definition os_ReadDir (p : string) : LM (result (list (string * bool))) := λ w,
  (match le_fault (w_tick w) with
   | Some e => Err e
   | None =>
       match w_files w !! path_clean p with
       | Some (Dir _) => Ok (merge_sort name_le (omap (entry_of p) (map_to_list (w_files w))))
       | Some (File _ _) => Err (ErrorsNew "not a directory")
       | None => Err (ErrorsNew ErrNotExist)
       end
   end, tick w).

(** A method of the database. *)
Definition db_read {A} (f : option error → DB → A) : LM A := λ w, (f (le_fault (w_tick w)) (w_db w), tick w).
Definition db_rows {A} (f : query_outcome → DB → A) : LM A := λ w, (f (le_query (w_tick w)) (w_db w), tick w).
Definition db_exec {A} (f : option error → State DB A) : LM A := λ w,
  let '(a, db) := f (le_fault (w_tick w)) (w_db w) in (a, set_w_db (tick w) db).
End Calls.

(** A concrete environment: the calls of [faults] fail, commands succeed without
    touching a file, and the JSON library knows one document. *)
Definition scripted_env_with (faults : list nat) (document : json)
    (untar : bool → string → result (list tar_entry * option error))
    (pull : nat → image_ref → result image) (transport : error → option transport_error)
    (package : string → result LayerPackage) : LEnv := {|
  le_fault n := if bool_decide (n ∈ faults) then Some (ErrorsNew "input/output error") else None;
  le_remove _ := None;
  le_query _ := QueryOk;
  le_partial _ := "";
  le_command _ _ fs := (None, "", fs);
  le_hook _ _ _ fs := (HookOk, fs);
  le_time _ := "2025-01-01T00:00:00Z";
  le_now n := Z.of_nat n;
  le_uuid n := "uuid-" +:+ fmt_d (Z.of_nat n);
  le_geteuid _ := 0%Z;
  le_done _ := None;
  json_Marshal _ := "{}";
  json_Unmarshal _ := Some document;
  le_untar := untar;
  le_pack _ := "";
  le_walk _ _ _ := ([], None);
  le_ref _ := Err (ErrorsNew "could not parse reference");
  le_image := pull;
  le_transport := transport;
  le_text _ := "";
  le_yaml := {| yaml_manifest _ := Err (ErrorsNew "yaml"); yaml_package := package |}
|}.

Definition scripted_env (faults : list nat) (document : json) : LEnv :=
  scripted_env_with faults document (λ _ _, Err (ErrorsNew "gzip: invalid header")) (λ _ _, Err (ErrorsNew "no such host"))
    (λ _, None) (λ _, Err (ErrorsNew "yaml")).

Definition world_of (db : DB) (fs : files) : LWorld := mkWorld db fs [] [] 0.
