(* ===== verification/LayerCache.v ===== *)
(** The cache of layers (src/internal/layerbuild/cache.go): metadata in the
    database, tarballs in a directory.  Every method runs under the lock of the
    cache and is one step; the touch that [Get] starts runs later.

    What the cache of layers guarantees: what is put is what is got, eviction in
    the order of last use, and the bound on the size. *)

From stdpp Require Import gmap sorting.
From S2P Require Import Prelude GoStrings Paths Json Storage LayerTypes LayerManifest LayerEnv.

(* @src internal/layerbuild/cache.go:15-19 DefaultCacheDir *)
Definition DefaultCacheDir : string := "/var/lib/nanofuse/layer-cache".
Definition DefaultCacheSizeLimit : Z := 10 * 1024 * 1024 * 1024.

(* @type internal/layerbuild/cache.go layerCache *)
Record layerCache : Type := mkCache { lc_dir : string; lc_limit : Z }.

Section Cache.
Context `{HL : LEnv}.

(* @src internal/layerbuild/cache.go:37-54 NewLayerCache *)
Definition NewLayerCache (cacheDir : string) (open_db : option error) (sizeLimit : Z) : LM (result layerCache) :=
  checked (os_MkdirAll cacheDir perm_0755) (λ err, Err (Errorf "failed to create cache directory: %w" [AWrap err])) (
  ret match open_db with
  | Some err => Err (Errorf "failed to open cache database: %w" [AWrap err])
  | None => Ok (mkCache cacheDir sizeLimit)
  end).

Definition start_touch (digest : string) : LM unit := λ w,
  (tt, mkWorld (w_db w) (w_files w) (w_touches w ++ [digest]) (w_calls w) (w_tick w)).

(** A goroutine of [Get], whenever it runs. *)
(* @src internal/layerbuild/cache.go:86-95 Get *)
Definition run_touch : LM unit := λ w,
  match w_touches w with
  | [] => (tt, w)
  | d :: ds =>
      (bind (fresh le_now) (λ now, bind (db_exec (λ e, TouchCachedLayer e d now)) (λ _, ret tt)))
        (mkWorld (w_db w) (w_files w) ds (w_calls w) (w_tick w))
  end.

(* @src internal/layerbuild/cache.go:71-109 Get *)
Definition cached_of_row (r : LayerRow) : result CachedLayer :=
  if negb (Valid (l_type r)) then Err (Errorf "invalid layer type in cache: %s" [AStr (l_type r)])
  else
    let layer metadata := mkCached (l_digest r) (l_name r) (l_version r) (l_type r) (l_source_url r)
      (l_local_path r) (l_size r) (l_fetched_at r) (l_last_used r) metadata [] in
    if String.eqb (l_metadata r) "" then Ok (layer None)
    else match (j ← json_Unmarshal (l_metadata r); dec_package j) with
    | None => Err (Errorf "failed to unmarshal metadata: %w" [AWrap (ErrorsNew "json: cannot unmarshal")])
    | Some p => Ok (layer (Some p))
    end.

(** [Ok None]: the layer is not cached. *)
(* @func internal/layerbuild/cache.go Get *)
Definition Get (digest : string) : LM (result (option CachedLayer)) :=
  let* r := db_read (λ e, GetCachedLayer e digest) in
  match r with
  | Err err => ret (Err (Errorf "failed to get cached layer: %w" [AWrap err]))
  | Ok None => ret (Ok None)
  | Ok (Some row) =>
      match cached_of_row row with
      | Err err => ret (Err err)
      | Ok layer => start_touch digest ;;; ret (Ok (Some layer))
      end
  end.

Definition cached_path (c : layerCache) (digest : string) : string :=
  filepath_join [lc_dir c; digest +:+ ".tar.gz"].

(** Copy the tarball: the number of bytes.  When the two paths name one file, it
    has been truncated before it is read. *)
(* @src internal/layerbuild/cache.go:135-158 Put *)
Definition copy_tarball (from to : string) : LM (result Z) :=
  let broken err := os_Remove to ;;; ret (Err (Errorf "failed to copy tarball to cache: %w" [AWrap err])) in
  checked_result (os_Open from) (λ err, Err (Errorf "failed to open source tarball: %w" [AWrap err])) (λ src,
  checked (os_Create to perm_0666) (λ err, Err (Errorf "failed to create cached tarball: %w" [AWrap err])) (
  match src with
  | Dir _ => broken (ErrorsNew "is a directory")
  | File content _ =>
      let content := if String.eqb (path_clean from) (path_clean to) then "" else content in
      let* e := os_Fill to content in
      match e with
      | Some err => broken err
      | None => ret (Ok (Z.of_nat (String.length content)))
      end
  end)).

Definition row_of_layer (layer : CachedLayer) (path : string) (size : Z) : LayerRow :=
  mkLayer (cl_digest layer) (cl_name layer) (cl_version layer) (cl_type layer) (cl_source_url layer) path size
    (cl_fetched_at layer) (cl_last_used layer)
    (match cl_metadata layer with None => "" | Some p => json_Marshal (enc_package p) end).

(* @func internal/layerbuild/cache.go Put *)
Definition Put (c : layerCache) (layer : CachedLayer) : LM (option error) :=
  if negb (Valid (cl_type layer)) then ret (Some (Errorf "invalid layer type: %s" [AStr (cl_type layer)]))
  else
    let cachedPath := cached_path c (cl_digest layer) in
    let* size :=
      if String.eqb (cl_local_path layer) cachedPath then ret (Ok (cl_size layer))
      else
        let* copied := copy_tarball (cl_local_path layer) cachedPath in
        ret (let? n := copied in Ok (if (cl_size layer =? 0)%Z then n else cl_size layer)) in
    match size with
    | Err err => ret (Some err)
    | Ok size =>
        let* e := db_exec (λ e, PutCachedLayer e (row_of_layer layer cachedPath size)) in
        match e with
        | Some err =>
            os_Remove cachedPath ;;;
            ret (Some (Errorf "failed to store layer metadata: %w" [AWrap err]))
        | None => ret None
        end
    end.

(* @func internal/layerbuild/cache.go Exists *)
Definition Exists (digest : string) : LM (result bool) :=
  let* r := db_read (λ e, CachedLayerExists e digest) in
  ret match r with
  | Err err => Err (Errorf "failed to check layer existence: %w" [AWrap err])
  | Ok exists_ => Ok exists_
  end.

(* @func internal/layerbuild/cache.go Touch *)
Definition Touch (digest : string) : LM (option error) :=
  let* now := fresh le_now in
  let* e := db_exec (λ e, TouchCachedLayer e digest now) in
  ret ((λ err, Errorf "failed to touch layer: %w" [AWrap err]) <$> e).

(** The loop of [Evict]: [freed] so far. *)
(* @src internal/layerbuild/cache.go:221-240 Evict *)
Fixpoint evict_loop (target freed : Z) (layers : list (string * string * Z)) : LM (Z * option error) :=
  match layers with
  | [] => ret (freed, None)
  | (digest, local_path, size) :: layers' =>
      if (target <=? freed)%Z then ret (freed, None)
      else
        let* e := db_exec (λ e, DeleteCachedLayer e digest) in
        match e with
        | Some err => ret (freed, Some (Errorf "failed to delete layer from database: %w" [AWrap err]))
        | None =>
            os_Remove local_path ;;;
            evict_loop target (add64 freed size) layers'
        end
  end.

(* @func internal/layerbuild/cache.go Evict *)
Definition Evict (targetBytes : Z) : LM (Z * option error) :=
  let* r := db_rows (λ q, GetOldestCachedLayers q 0) in
  match r with
  | Err err => ret (0%Z, Some (Errorf "failed to get layers for eviction: %w" [AWrap err]))
  | Ok layers => evict_loop targetBytes 0 layers
  end.

(* @func internal/layerbuild/cache.go Stats *)
Definition Stats : LM (result CacheStats) :=
  let* now := fresh le_now in
  let* r := db_read (λ e, GetCachedLayerStats e now) in
  ret match r with
  | Err err => Err (Errorf "failed to get cache stats: %w" [AWrap err])
  | Ok (n, total, oldest) => Ok (mkStats n total oldest)
  end.

(* @func internal/layerbuild/cache.go CheckAndEvict *)
Definition CheckAndEvict (c : layerCache) : LM (Z * option error) :=
  let* r := Stats in
  match r with
  | Err err => ret (0%Z, Some (Errorf "failed to get cache stats: %w" [AWrap err]))
  | Ok stats =>
      if (lc_limit c <? cs_bytes stats)%Z then Evict (add64 (cs_bytes stats) (- lc_limit c)) else ret (0%Z, None)
  end.
End Cache.

Definition total_size (l : list LayerRow) : Z := foldr Z.add 0%Z (l_size <$> l).

Lemma total_size_app l1 l2 : total_size (l1 ++ l2) = (total_size l1 + total_size l2)%Z.
Proof. unfold total_size. induction l1 as [|r l1 IH]; [done|]. cbn in *. lia. Qed.

Lemma total_size_perm l1 l2 : l1 ≡ₚ l2 → total_size l1 = total_size l2.
Proof. unfold total_size. induction 1; cbn in *; lia. Qed.

Lemma total_size_nonneg l : Forall (λ r, (0 ≤ l_size r)%Z) l → (0 ≤ total_size l)%Z.
Proof. unfold total_size. induction 1; cbn in *; lia. Qed.

Lemma add64_small a b : (-2 ^ 63 ≤ a + b < 2 ^ 63)%Z → add64 a b = (a + b)%Z.
Proof. intros H. unfold add64. rewrite Z.mod_small; lia. Qed.

(** The rows that are not of the given digests. *)
Definition without (ds : list string) (l : list LayerRow) : list LayerRow := filter (λ r, l_digest r ∉ ds) l.

Lemma without_perm l gone kept :
  NoDup (l_digest <$> l) → gone ++ kept ≡ₚ l → without (l_digest <$> gone) l ≡ₚ kept.
Proof.
  intros Hn Hp. unfold without. rewrite <- Hp, filter_app. rewrite <- Hp, fmap_app in Hn.
  apply NoDup_app in Hn as (_ & Hd & _).
  assert (filter (λ r, l_digest r ∉ l_digest <$> gone) gone = []) as ->.
  { apply filter_none, Forall_forall. intros r Hr Hnot. by apply Hnot, list_elem_of_fmap_2. }
  assert (filter (λ r, l_digest r ∉ l_digest <$> gone) kept = kept) as ->; [|done].
  apply filter_all, Forall_forall. intros r Hr Hin. eapply Hd; [exact Hin|]. by apply list_elem_of_fmap_2.
Qed.

Lemma without_cons d ds l : without (d :: ds) l = without ds (sql_delete (λ r, String.eqb (l_digest r) d) l).
Proof.
  unfold without, sql_delete. rewrite list_filter_filter. apply list_filter_iff. intros r.
  rewrite String.eqb_neq, not_elem_of_cons. tauto.
Qed.

Section Spec.
Context `{HL : LEnv}.
Context (Hf : ∀ n, le_fault n = None) (Hr : ∀ n, le_remove n = None) (Hq : ∀ n, le_query n = QueryOk).

Lemma os_Remove_gone p w :
  w_files (snd (os_Remove p w)) !! path_clean p = None ∧ w_db (snd (os_Remove p w)) = w_db w ∧
  (∀ q, w_files w !! q = None → w_files (snd (os_Remove p w)) !! q = None).
Proof.
  unfold os_Remove. rewrite Hr. destruct (w_files w !! path_clean p) as [n|] eqn:E; cbn; [|done].
  split_and!; [by apply lookup_delete_eq|done|]. intros q Hqn. by apply lookup_delete_None; right.
Qed.

Lemma evict_loop_spec (target : Z) (rows : list LayerRow) (freed : Z) (w : LWorld) :
  (0 ≤ freed)%Z → (freed + total_size rows < 2 ^ 63)%Z → Forall (λ r, (0 ≤ l_size r)%Z) rows →
  ∃ gone kept, rows = gone ++ kept ∧
    let '(res, w') := evict_loop target freed ((λ r, (l_digest r, l_local_path r, l_size r)) <$> rows) w in
    res = (freed + total_size gone, None)%Z ∧
    t_layers (w_db w') = without (l_digest <$> gone) (t_layers (w_db w)) ∧
    ((target ≤ freed + total_size gone)%Z ∨ kept = []) ∧
    (∀ before r, gone = before ++ [r] → (freed + total_size before < target)%Z) ∧
    (∀ r, r ∈ gone → w_files w' !! path_clean (l_local_path r) = None) ∧
    (∀ q, w_files w !! q = None → w_files w' !! q = None).
Proof.
  revert freed w. induction rows as [|r rows IH]; intros freed w H0 Hsum Hpos.
  - exists [], []. cbn. split_and!; try done.
    + f_equal. lia.
    + symmetry. apply filter_all, Forall_forall. intros; apply not_elem_of_nil.
    + by right.
    + intros [|? ?] ? ?; done.
    + intros ? []%elem_of_nil.
  - apply Forall_cons in Hpos as [Hr0 Hpos]. pose proof (total_size_nonneg rows Hpos).
    cbn [fmap list_fmap evict_loop]. destruct (Z.leb_spec target freed) as [Hle|Hlt].
    + exists [], (r :: rows). cbn. split_and!; try done.
      * f_equal. lia.
      * symmetry. apply filter_all, Forall_forall. intros; apply not_elem_of_nil.
      * left. lia.
      * intros [|? ?] ? ?; done.
      * intros ? []%elem_of_nil.
    + unfold bind at 1, db_exec, DeleteCachedLayer. rewrite Hf.
      set (w1 := set_w_db (tick w) _). unfold bind at 1.
      destruct (os_Remove (l_local_path r) w1) as [e w2] eqn:E2.
      pose proof (os_Remove_gone (l_local_path r) w1) as (Hg & Hdb & Hmono). rewrite E2 in Hg, Hdb, Hmono. cbn [snd] in *.
      assert (Hts : (total_size (r :: rows) = l_size r + total_size rows)%Z) by done.
      rewrite Hts in Hsum. rewrite add64_small by lia.
      destruct (IH (freed + l_size r)%Z w2) as (gone & kept & -> & Hloop); [lia|lia|done|].
      exists (r :: gone), kept. split; [done|]. destruct (evict_loop _ _ _ w2) as [res w3].
      destruct Hloop as (-> & Hl & Hd & Hmin & Hfiles & Hm3).
      assert (Hts' : (total_size (r :: gone) = l_size r + total_size gone)%Z) by done.
      split_and!.
      * rewrite Hts'. f_equal. lia.
      * rewrite Hl, Hdb. cbn [fmap list_fmap]. by rewrite without_cons.
      * rewrite Hts'. destruct Hd as [Hd|Hd]; [left; lia|by right].
      * intros [|b before] x E; cbn in E; injection E as <- Eb.
        -- cbn. lia.
        -- assert (total_size (r :: before) = l_size r + total_size before)%Z as -> by done.
           specialize (Hmin _ _ Eb). lia.
      * intros x [->|Hx]%elem_of_cons; [|by apply Hfiles]. by apply Hm3.
      * intros q Hqn. apply Hm3, Hmono. exact Hqn.
Qed.

(** The rows in the order of eviction. *)
Definition lru (l : list LayerRow) : list LayerRow := merge_sort older_first l.

Lemma lru_sorted l before after a b :
  lru l = before ++ after → a ∈ before → b ∈ after → (l_last_used a ≤ l_last_used b)%Z.
Proof.
  intros E Ha Hb. assert (StronglySorted older_first (lru l)) as Hs.
  { apply StronglySorted_merge_sort.
    - intros x y z H1 H2. unfold older_first in *. lia.
    - intros x y. unfold older_first. lia. }
  rewrite E in Hs. apply StronglySorted_app in Hs as (H & _ & _). by apply (H a b).
Qed.

Lemma Evict_spec (target : Z) (w : LWorld) :
  Forall (λ r, (0 ≤ l_size r)%Z) (t_layers (w_db w)) → (total_size (t_layers (w_db w)) < 2 ^ 63)%Z →
  NoDup (l_digest <$> t_layers (w_db w)) →
  ∃ gone kept, lru (t_layers (w_db w)) = gone ++ kept ∧
    let '(res, w') := Evict target w in
    res = (total_size gone, None) ∧ t_layers (w_db w') ≡ₚ kept ∧
    ((target ≤ total_size gone)%Z ∨ kept = []) ∧
    (∀ before r, gone = before ++ [r] → (total_size before < target)%Z) ∧
    (∀ r, r ∈ gone → w_files w' !! path_clean (l_local_path r) = None).
Proof.
  intros Hpos Hsum Hn. set (l := t_layers (w_db w)) in *.
  assert (Hp : lru l ≡ₚ l) by apply merge_sort_Permutation.
  unfold Evict, bind at 1, db_rows. rewrite Hq. cbn [GetOldestCachedLayers delivered].
  change (t_layers (w_db w)) with l. fold (lru l). unfold GetOldestCachedLayers. cbn [delivered Z.ltb Z.compare].
  destruct (evict_loop_spec target (lru l) 0 (tick w)) as (gone & kept & Hlru & Hloop);
    [lia|rewrite (total_size_perm _ _ Hp); lia|by rewrite Hp|].
  exists gone, kept. split; [done|]. fold l. fold (lru l).
  destruct (evict_loop _ _ _ _) as [res w']. destruct Hloop as (-> & Hl & Hd & Hmin & Hfiles & _).
  split_and!; try done.
  - rewrite Hl. cbn. fold l. apply without_perm; [done|]. by rewrite <- Hlru.
Qed.
End Spec.

Section Claims.
Context `{HL : LEnv}.

(** Eviction removes layers in the order of their last use, no more than
    needed to free the requested bytes, and stops short of them only when the cache
    is empty; what is removed has neither a row nor a file, and the reported number
    of bytes is the sum of the removed sizes. *)
Theorem Evict_lru (target : Z) (w : LWorld)
    (Hf : ∀ n, le_fault n = None) (Hr : ∀ n, le_remove n = None) (Hq : ∀ n, le_query n = QueryOk)
    (Hpos : Forall (λ r, (0 ≤ l_size r)%Z) (t_layers (w_db w)))
    (Hsum : (total_size (t_layers (w_db w)) < 2 ^ 63)%Z) (Hn : NoDup (l_digest <$> t_layers (w_db w))) :
  ∃ gone kept, gone ++ kept ≡ₚ t_layers (w_db w) ∧
    (∀ a b, a ∈ gone → b ∈ kept → (l_last_used a ≤ l_last_used b)%Z) ∧
    let '(res, w') := Evict target w in
    res = (total_size gone, None) ∧ t_layers (w_db w') ≡ₚ kept ∧
    ((target ≤ total_size gone)%Z ∨ kept = []) ∧
    (∀ before r, gone = before ++ [r] → (total_size before < target)%Z) ∧
    (∀ r, r ∈ gone → w_files w' !! path_clean (l_local_path r) = None).
Proof.
  destruct (Evict_spec Hf Hr Hq target w Hpos Hsum Hn) as (gone & kept & E & H).
  exists gone, kept. split; [|split; [|exact H]].
  - rewrite <- E. apply merge_sort_Permutation.
  - intros a b. by apply (lru_sorted _ _ _ _ _ E).
Qed.

(** after CheckAndEvict the sizes of the cached layers add up to no more than
    the limit of the cache (to nothing when the limit is negative). *)
Theorem CheckAndEvict_bound (c : layerCache) (w : LWorld)
    (Hf : ∀ n, le_fault n = None) (Hr : ∀ n, le_remove n = None) (Hq : ∀ n, le_query n = QueryOk)
    (Hpos : Forall (λ r, (0 ≤ l_size r)%Z) (t_layers (w_db w)))
    (Hsum : (total_size (t_layers (w_db w)) < 2 ^ 62)%Z) (Hn : NoDup (l_digest <$> t_layers (w_db w)))
    (Hlim : (- 2 ^ 62 ≤ lc_limit c)%Z) :
  let '((freed, err), w') := CheckAndEvict c w in
  err = None ∧ (total_size (t_layers (w_db w')) ≤ Z.max 0 (lc_limit c))%Z ∧
  (freed + total_size (t_layers (w_db w')) = total_size (t_layers (w_db w)))%Z.
Proof.
  pose proof (total_size_nonneg _ Hpos) as H0.
  unfold CheckAndEvict, Stats, fresh, db_read. unfold bind at 1 2 3. cbv beta iota zeta.
  rewrite Hf. unfold GetCachedLayerStats. fold (total_size (t_layers (w_db (tick w)))).
  change (t_layers (w_db (tick w))) with (t_layers (w_db w)).
  destruct (Z.ltb_spec (total_size (t_layers (w_db w))) (- 2 ^ 63)); [lia|].
  destruct (Z.ltb_spec (2 ^ 63 - 1) (total_size (t_layers (w_db w)))); [lia|].
  cbn [orb ret cs_bytes].
  destruct (Z.ltb_spec (lc_limit c) (total_size (t_layers (w_db w)))) as [Hover|Hunder]; cbn [ret].
  - rewrite add64_small by lia.
    destruct (Evict_spec Hf Hr Hq (total_size (t_layers (w_db w)) + - lc_limit c) (tick (tick w)) Hpos (Z.lt_trans _ _ (2 ^ 63)%Z Hsum ltac:(lia)) Hn)
      as (gone & kept & E & H').
    destruct (Evict _ _) as [[freed err] w']. destruct H' as ([= -> ->] & Hk & Hd & _).
    assert (Ht : (total_size gone + total_size kept = total_size (t_layers (w_db w)))%Z).
    { rewrite <- total_size_app, <- E. apply total_size_perm. unfold lru. apply merge_sort_Permutation. }
    rewrite (total_size_perm _ _ Hk). split_and!; [done| |lia].
    destruct Hd as [Hd| ->]; [lia|cbn; lia].
  - split_and!; [done| |cbn; lia]. cbn. lia.
Qed.

(** The layer as the cache keeps it. *)
Definition as_cached (c : layerCache) (layer : CachedLayer) (content : string) : CachedLayer :=
  mkCached (cl_digest layer) (cl_name layer) (cl_version layer) (cl_type layer) (cl_source_url layer)
    (cached_path c (cl_digest layer)) (if (cl_size layer =? 0)%Z then Z.of_nat (String.length content) else cl_size layer)
    (cl_fetched_at layer) (cl_last_used layer) (cl_metadata layer) [].

(** [encoding/json] reads back the metadata it wrote (it does when its strings are
    UTF-8 and its numbers exact), and no document is empty. *)
Definition metadata_faithful (layer : CachedLayer) : Prop :=
  match cl_metadata layer with
  | None => True
  | Some p => json_Marshal (enc_package p) ≠ "" ∧
      json_Unmarshal (json_Marshal (enc_package p)) = Some (enc_package p) ∧ int64_range (lp_size p)
  end.

Lemma cached_of_row_of_layer layer path size :
  Valid (cl_type layer) = true → metadata_faithful layer →
  cached_of_row (row_of_layer layer path size) =
    Ok (mkCached (cl_digest layer) (cl_name layer) (cl_version layer) (cl_type layer) (cl_source_url layer)
          path size (cl_fetched_at layer) (cl_last_used layer) (cl_metadata layer) []).
Proof.
  intros Hv Hm. unfold cached_of_row, row_of_layer, metadata_faithful in *.
  cbn [l_type l_metadata l_digest l_name l_version l_source_url l_local_path l_size l_fetched_at l_last_used].
  rewrite Hv. cbn [negb].
  destruct (cl_metadata layer) as [p|]; [|done]. destruct Hm as (Hne & Hj & Hs).
  destruct (String.eqb_spec (json_Marshal (enc_package p)) ""); [done|].
  rewrite Hj. cbn [mbind option_bind]. by rewrite dec_enc_package.
Qed.

Lemma copy_tarball_ok (Hf : ∀ n, le_fault n = None) (from to content : string) (mode : Z) (w : LWorld) :
  w_files w !! path_clean from = Some (File content mode) → path_clean from ≠ path_clean to →
  (∀ m, w_files w !! path_clean to ≠ Some (Dir m)) →
  copy_tarball from to w =
    (Ok (Z.of_nat (String.length content)),
     set_w_files (log_call (CWrite to) (tick (tick (tick w))))
       (<[path_clean to := File content (node_mode (w_files w !! path_clean to) perm_0666)]> (w_files w))).
Proof.
  intros Hsrc Hdiff Hdst. unfold copy_tarball, checked_result, checked, os_Open, os_Stat.
  rewrite bind_unfold, Hf, Hsrc. rewrite bind_unfold. unfold os_Create. rewrite Hf. cbn [w_files tick].
  destruct (w_files w !! path_clean to) as [[c0 m0|m0]|] eqn:Et; [|by destruct (Hdst m0)|].
  all: destruct (String.eqb_spec (path_clean from) (path_clean to)) as [E|_]; [done|].
  all: rewrite bind_unfold; unfold os_Fill; rewrite Hf; cbn [ret w_files set_w_files log_call tick node_mode w_tick].
  all: rewrite lookup_insert_eq, insert_insert_eq; done.
Qed.

(** what is put into the cache is what [Get] returns: the same layer with the
    path of its copy and, when it came without one, the size of the copy; the copy
    holds the bytes of the source, and the other digests are unaffected. *)
Theorem Put_then_Get (c : layerCache) (layer : CachedLayer) (content : string) (mode : Z) (w : LWorld)
    (Hf : ∀ n, le_fault n = None) (Hv : Valid (cl_type layer) = true) (Hm : metadata_faithful layer)
    (Hsrc : w_files w !! path_clean (cl_local_path layer) = Some (File content mode))
    (Hdiff : path_clean (cl_local_path layer) ≠ path_clean (cached_path c (cl_digest layer)))
    (Hdst : ∀ m, w_files w !! path_clean (cached_path c (cl_digest layer)) ≠ Some (Dir m)) :
  let '(err, w') := Put c layer w in
  err = None ∧
  fst (Get (cl_digest layer) w') = Ok (Some (as_cached c layer content)) ∧
  (∃ m, w_files w' !! path_clean (cached_path c (cl_digest layer)) = Some (File content m)) ∧
  (∀ d, d ≠ cl_digest layer → fst (Get d w') = fst (Get d w)).
Proof.
  unfold Put. rewrite Hv. cbn [negb].
  destruct (String.eqb_spec (cl_local_path layer) (cached_path c (cl_digest layer))) as [E|_]; [by rewrite E in Hdiff|].
  rewrite bind_unfold, bind_unfold. rewrite (copy_tarball_ok Hf _ _ content mode w Hsrc Hdiff Hdst). cbn [ret result_bind].
  rewrite bind_unfold. unfold db_exec, PutCachedLayer. rewrite Hf. cbn [ret].
  set (size := if (cl_size layer =? 0)%Z then _ else _). set (row := row_of_layer layer _ size).
  split; [done|]. split; [|split].
  - unfold Get. rewrite bind_unfold. unfold db_read, GetCachedLayer. rewrite Hf. cbn [w_db set_w_db tick t_layers with_layers].
    change (cl_digest layer) with (l_digest row) at 1 2.
    rewrite (find_upsert_same (λ r, String.eqb (l_digest r) (l_digest row))) by apply String.eqb_refl.
    cbv beta iota. unfold row. by rewrite cached_of_row_of_layer.
  - cbn [w_files set_w_db tick]. eexists. apply lookup_insert_eq.
  - intros d Hd. unfold Get. rewrite !bind_unfold. unfold db_read, GetCachedLayer. rewrite !Hf.
    cbn [w_db set_w_db tick t_layers with_layers].
    rewrite (find_upsert_other (λ r, String.eqb (l_digest r) (l_digest row)) (λ r, String.eqb (l_digest r) d)).
    + cbn [w_db set_w_files log_call tick]. destruct (List.find _ (t_layers (w_db w))) as [r|]; [|done]. by destruct (cached_of_row r).
    + intros r Hr%String.eqb_eq. apply String.eqb_neq. cbn in Hr. congruence.
    + apply String.eqb_neq. cbn. congruence.
Qed.
End Claims.

(** * Concrete runs *)

Definition package_ex : LayerPackage :=
  mkPackage "python" "3.12" "" "runtime" 4 "" "rootfs" ["base"] [] [mkFileEntry "usr/bin/python" "0755" "" ""] None ∅ {["k" := "v"]}.

Definition layer_cached_ex (path : string) : CachedLayer :=
  mkCached "d1" "python" "3.12" "runtime" "local:///src" path 0 5 5 (Some package_ex) [].

Definition row_ex (digest : string) (size used : Z) : LayerRow :=
  mkLayer digest digest "1" "base" "" ("/cache/" +:+ digest +:+ ".tar.gz") size 0 used "".

Definition cache_ex : layerCache := mkCache "/cache" 100.

Definition full_world : LWorld :=
  world_of (with_layers empty_db [row_ex "a" 60 3; row_ex "b" 50 1; row_ex "c" 70 2])
    (list_to_map ((λ d, ("/cache/" +:+ d +:+ ".tar.gz", File d perm_0644)) <$> ["a"; "b"; "c"])).

Lemma Put_then_Get_witness :
  let env := scripted_env [] (enc_package package_ex) in
  let w := world_of empty_db {["/tmp/l.tar.gz" := File "data" perm_0644]} in
  let layer := layer_cached_ex "/tmp/l.tar.gz" in
  let '(err, w') := @Put env cache_ex layer w in
  err = None ∧
  fst (@Get env "d1" w') = Ok (Some (as_cached cache_ex layer "data")) ∧
  (∃ m, w_files w' !! path_clean (cached_path cache_ex "d1") = Some (File "data" m)) ∧
  (∀ d, d ≠ "d1" → fst (@Get env d w') = fst (@Get env d w)).
Proof.
  intros env w layer.
  refine (@Put_then_Get env cache_ex layer "data" perm_0644 w _ _ _ _ _ _).
  - intros n. reflexivity.
  - reflexivity.
  - split; [discriminate|]. split; [reflexivity|]. split; vm_compute; congruence.
  - vm_compute. reflexivity.
  - vm_compute. discriminate.
  - intros m. vm_compute. discriminate.
Defined.

Lemma Evict_lru_witness :
  let env := scripted_env [] JNull in
  ∃ gone kept, gone ++ kept ≡ₚ t_layers (w_db full_world) ∧
    (∀ a b, a ∈ gone → b ∈ kept → (l_last_used a ≤ l_last_used b)%Z) ∧
    let '(res, w') := @Evict env 80 full_world in
    res = (total_size gone, None) ∧ t_layers (w_db w') ≡ₚ kept ∧
    ((80 ≤ total_size gone)%Z ∨ kept = []) ∧
    (∀ before r, gone = before ++ [r] → (total_size before < 80)%Z) ∧
    (∀ r, r ∈ gone → w_files w' !! path_clean (l_local_path r) = None).
Proof.
  intros env. refine (@Evict_lru env 80 full_world _ _ _ _ _ _).
  - intros n. reflexivity.
  - intros n. reflexivity.
  - intros n. reflexivity.
  - repeat constructor; vm_compute; discriminate.
  - vm_compute. reflexivity.
  - apply (bool_decide_unpack _). vm_compute. exact I.
Defined.

Lemma CheckAndEvict_bound_witness :
  let env := scripted_env [] JNull in
  let '((freed, err), w') := @CheckAndEvict env cache_ex full_world in
  err = None ∧ (total_size (t_layers (w_db w')) ≤ Z.max 0 (lc_limit cache_ex))%Z ∧
  (freed + total_size (t_layers (w_db w')) = total_size (t_layers (w_db full_world)))%Z.
Proof.
  intros env. refine (@CheckAndEvict_bound env cache_ex full_world _ _ _ _ _ _ _).
  - intros n. reflexivity.
  - intros n. reflexivity.
  - intros n. reflexivity.
  - repeat constructor; vm_compute; discriminate.
  - vm_compute. reflexivity.
  - apply (bool_decide_unpack _). vm_compute. exact I.
  - vm_compute. discriminate.
Defined.

(** Putting a layer that is cached already removes its file when the statement
    fails, although the old row stays: [Get] goes on to report the layer. *)
Example failed_Put_loses_layer :
  let env := scripted_env [0%nat] (enc_package package_ex) in
  let w := world_of (with_layers empty_db [row_ex "d1" 4 1]) {["/cache/d1.tar.gz" := File "data" perm_0644]} in
  let '(err, w') := @Put env cache_ex (layer_cached_ex "/cache/d1.tar.gz") w in
  is_Some err ∧ w_files w' !! "/cache/d1.tar.gz" = None ∧
  ∃ layer, fst (@Get env "d1" w') = Ok (Some layer) ∧ cl_local_path layer = "/cache/d1.tar.gz".
Proof. vm_compute. split; [by eexists|]. split; [done|]. by eexists. Qed.
