(* ===== verification/LayerFetch.v ===== *)
(** The fetchers of layers (src/internal/layerbuild/fetcher.go): local
    directories and tarballs, Docker images, and images of a registry; extraction
    of archives with its guards, and retries.

    Archives are read and written by Go's archive/tar and compress/gzip, of which
    only the sequence of entries matters; a broken archive is a sequence that ends
    in an error.  Progress reports are not modelled. *)

From stdpp Require Import gmap.
From S2P Require Import Prelude GoStrings Paths GoNet Json LayerTypes LayerManifest LayerEnv.

(* @type internal/layerbuild/fetcher.go FetchResult *)
Record FetchResult : Type := mkFetch {
  fr_path : string; fr_digest : string; fr_metadata : LayerPackage; fr_size : Z }.

(* @func internal/layerbuild/fetcher.go isTarball *)
Definition isTarball (path : string) : bool :=
  let ext := filepath_ext path in
  String.eqb ext ".tar" || String.eqb ext ".gz" && has_suffix ".tar.gz" path.

Section Fetch.
Context `{HL : LEnv}.

(** A call whose outcome is all that matters. *)
Definition os_call : LM (option error) := fresh le_fault.

(* @func internal/layerbuild/fetcher.go readLayerMetadata *)
Definition readLayerMetadata (path : string) : LM (result LayerPackage) :=
  checked_result (os_ReadFile path) (λ err, Err (Errorf "failed to read layer.yaml: %w" [AWrap err])) (λ data,
  ret match yaml_package data with
  | Err err => Err (Errorf "failed to parse layer.yaml: %w" [AWrap err])
  | Ok metadata => Ok metadata
  end).

(* @func internal/layerbuild/fetcher.go calculateDigest *)
Definition calculateDigest (path : string) : LM (result (string * Z)) :=
  checked_result (os_ReadFile path) Err (λ content, ret (Ok (sha256_hex content, Z.of_nat (String.length content)))).

(* @func internal/layerbuild/fetcher.go verifyDigest *)
Definition verifyDigest (path expectedDigest : string) : LM (option error) :=
  if String.eqb expectedDigest "" then ret None
  else
    checked_result (calculateDigest path) (λ err, Some (Errorf "failed to calculate digest: %w" [AWrap err])) (λ d,
    ret (if negb (String.eqb (fst d) expectedDigest)
         then Some (Errorf "digest mismatch: expected %s, got %s" [AStr expectedDigest; AStr (fst d)])
         else None)).

(** * Extraction *)

Definition max_entry_size : Z := 10 * 1024 * 1024 * 1024.

(** The target of an entry; [Ok None]: the entry is skipped. *)
(* @src internal/layerbuild/fetcher.go:781-798 extractTarball *)
Definition entry_target (destDir name : string) : result (option string) :=
  let cleanName := path_clean name in
  if String.eqb cleanName "." then Ok None
  else if is_rooted cleanName || String.eqb cleanName ".." || has_prefix "../" cleanName then
    Err (Errorf "invalid tar entry: %s (absolute or parent-directory path)" [AStr name])
  else
    let target := filepath_join [destDir; cleanName] in
    if negb (has_prefix (path_clean destDir +:+ "/") target) && negb (String.eqb target (path_clean destDir)) then
      Err (Errorf "invalid tar entry: %s (potential directory traversal)" [AStr name])
    else Ok (Some target).

(** What an entry does: links and devices are skipped. *)
(* @src internal/layerbuild/fetcher.go:802-836 extractTarball *)
Definition extract_entry (target : string) (hdr : tar_entry) : LM (option error) :=
  let fileMode := Z.land (te_mode hdr) 511 in
  match te_type hdr with
  | TypeDir =>
      checked (os_MkdirAll target fileMode) (λ err, Some (Errorf "failed to create directory %s: %w" [AStr target; AWrap err]))
        (ret None)
  | TypeReg =>
      checked (os_MkdirAll (filepath_dir target) perm_0755)
        (λ err, Some (Errorf "failed to create parent directory for %s: %w" [AStr target; AWrap err])) (
      checked (os_Create target fileMode) (λ err, Some (Errorf "failed to create file %s: %w" [AStr target; AWrap err])) (
      let '(data, broken) := copy_limited max_entry_size (te_data hdr, te_broken hdr) in
      let* e := os_Fill target data in
      match (match broken with Some err => Some err | None => e end) with
      | Some err =>
          let* cerr := os_call in
          ret (Some match cerr with
               | Some cerr => Errorf "failed to write file %s: %v (also failed to close: %w)" [AStr target; AShow err; AWrap cerr]
               | None => Errorf "failed to write file %s: %w" [AStr target; AWrap err]
               end)
      | None =>
          checked os_call (λ err, Some (Errorf "failed to close file %s: %w" [AStr target; AWrap err])) (ret None)
      end))
  | TypeOther => ret None
  end.

Fixpoint extract_entries (destDir : string) (entries : list tar_entry) (final : option error) : LM (option error) :=
  match entries with
  | [] => ret ((λ err, Errorf "failed to read tar entry: %w" [AWrap err]) <$> final)
  | hdr :: entries' =>
      match entry_target destDir (te_name hdr) with
      | Err err => ret (Some err)
      | Ok None => extract_entries destDir entries' final
      | Ok (Some target) =>
          let* e := extract_entry target hdr in
          match e with
          | Some err => ret (Some err)
          | None => extract_entries destDir entries' final
          end
      end
  end.

(** Broken data ends the reading of an archive: what follows is not reached. *)
(* @func internal/layerbuild/fetcher.go extractTarball *)
Definition extractTarball (tarballPath destDir : string) : LM (option error) :=
  checked_result (os_ReadFile tarballPath) (λ err, Some (Errorf "failed to open tarball: %w" [AWrap err])) (λ data,
  match le_untar (has_suffix ".gz" tarballPath) data with
  | Err err => ret (Some (Errorf "failed to create gzip reader: %w" [AWrap err]))
  | Ok (entries, final) => extract_entries destDir entries final
  end).

(** * Packing a directory *)

(* @src internal/layerbuild/fetcher.go:206-260 createTarball *)
Fixpoint pack_entries (l : list walk_entry) (walk_error : option error) (acc : list tar_entry) : LM (result (list tar_entry)) :=
  match l with
  | [] => ret match walk_error with Some err => Err err | None => Ok acc end
  | e :: l' =>
      if String.eqb (we_path e) "." then pack_entries l' walk_error acc
      else
        checked os_call Err (
        if we_dir e then pack_entries l' walk_error (acc ++ [mkTar (we_path e) TypeDir (we_mode e) "" None])
        else match we_open e with
        | Err err => ret (Err err)
        | Ok content =>
            if (we_size e <? Z.of_nat (String.length content))%Z then ret (Err (ErrorsNew "archive/tar: write too long"))
            else checked os_call Err (pack_entries l' walk_error (acc ++ [mkTar (we_path e) (we_type e) (we_mode e) content None]))
        end)
  end.

(** The writers are closed by deferred calls, whose errors are dropped. *)
(* @func internal/layerbuild/fetcher.go createTarball *)
Definition createTarball (srcDir destPath : string) : LM (option error) :=
  checked (os_Create destPath perm_0666) (λ err, Some (Errorf "failed to create output file: %w" [AWrap err])) (
  let* walked := (λ w, (le_walk (w_tick w) srcDir (w_files w), tick w)) in
  let* packed := pack_entries (fst walked) (snd walked) [] in
  match packed with
  | Err err => ret (Some (Errorf "failed to create tarball: %w" [AWrap err]))
  | Ok entries => os_Fill destPath (le_pack entries) ;;; ret None
  end).

(** * The fetchers *)

(* @func internal/layerbuild/fetcher.go ToCachedLayer *)
Definition ToCachedLayer (fr : FetchResult) (sourceURL : string) : LM CachedLayer :=
  let* fetched := fresh le_now in
  let* used := fresh le_now in
  ret (mkCached (fr_digest fr) (lp_name (fr_metadata fr)) (lp_version (fr_metadata fr)) (lp_type (fr_metadata fr))
    sourceURL (fr_path fr) (fr_size fr) fetched used (Some (fr_metadata fr)) []).

(** Extract to a fresh directory, which is removed at the end. *)
Definition in_temp_dir {A} (workDir : string) (k : string → LM (result A)) : LM (result A) :=
  let* id := fresh le_uuid in
  let tempDir := filepath_join [workDir; "extract-" +:+ id] in
  checked (os_MkdirAll tempDir perm_0755) (λ err, Err (Errorf "failed to create temp directory: %w" [AWrap err])) (
  deferred (os_RemoveAll tempDir) (k tempDir)).

Definition digest_of (path : string) : LM (result (string * Z)) :=
  checked_result (calculateDigest path) (λ err, Err (Errorf "failed to calculate digest: %w" [AWrap err])) (λ d, ret (Ok d)).

(** Read the metadata and the digest of a tarball. *)
(* @src internal/layerbuild/fetcher.go:145-168 fetchFromTarball *)
Definition inspect_tarball (tarballPath tempDir : string) : LM (result FetchResult) :=
  checked (extractTarball tarballPath tempDir) (λ err, Err (Errorf "failed to extract tarball: %w" [AWrap err])) (
  checked_result (readLayerMetadata (filepath_join [tempDir; "layer.yaml"]))
    (λ err, Err (Errorf "failed to read layer metadata: %w" [AWrap err])) (λ metadata,
  checked_result (digest_of tarballPath) Err (λ d,
  ret (Ok (mkFetch tarballPath (fst d) metadata (snd d)))))).

(* @func internal/layerbuild/fetcher.go fetchFromTarball *)
Definition fetchFromTarball (workDir tarballPath : string) : LM (result FetchResult) :=
  in_temp_dir workDir (inspect_tarball tarballPath).

(* @func internal/layerbuild/fetcher.go fetchFromDirectory *)
Definition fetchFromDirectory (workDir dirPath : string) : LM (result FetchResult) :=
  let layerYAMLPath := filepath_join [dirPath; "layer.yaml"] in
  checked_result (readLayerMetadata layerYAMLPath)
    (λ err, Err (Errorf "failed to read layer metadata from %s: %w" [AStr layerYAMLPath; AWrap err])) (λ metadata,
  let tarballPath := filepath_join [workDir; lp_name metadata +:+ "-" +:+ lp_version metadata +:+ ".tar.gz"] in
  checked (createTarball dirPath tarballPath) (λ err, Err (Errorf "failed to create tarball: %w" [AWrap err])) (
  checked_result (digest_of tarballPath) Err (λ d,
  ret (Ok (mkFetch tarballPath (fst d) metadata (snd d)))))).

Definition fetched (source : string) (m : LM (result FetchResult)) : LM (result CachedLayer) :=
  checked_result m Err (λ fr, let* layer := ToCachedLayer fr source in ret (Ok layer)).

(* @func internal/layerbuild/fetcher.go LocalFetcher.Fetch *)
Definition LocalFetcher_Fetch (workDir source : string) : LM (result CachedLayer) :=
  if negb (has_prefix "local://" source) then
    ret (Err (Errorf "invalid local source URL: %s (must start with local://)" [AStr source]))
  else
    let localPath := trim_prefix "local://" source in
    if String.eqb localPath "" then ret (Err (Errorf "empty local path in source: %s" [AStr source]))
    else
      checked_result (os_Stat localPath) (λ err, Err (Errorf "failed to access local path %s: %w" [AStr localPath; AWrap err])) (λ info,
      match info with
      | Dir _ => fetched source (fetchFromDirectory workDir localPath)
      | File _ _ =>
          if isTarball localPath then fetched source (fetchFromTarball workDir localPath)
          else ret (Err (Errorf "local path %s is not a directory or tarball (.tar.gz)" [AStr localPath]))
      end).

(* @func internal/layerbuild/fetcher.go DockerFetcher.Fetch *)
Definition DockerFetcher_Fetch (workDir source : string) : LM (result CachedLayer) :=
  if negb (has_prefix "docker://" source) then
    ret (Err (Errorf "invalid docker source URL: %s (must start with docker://)" [AStr source]))
  else
    let imageName := trim_prefix "docker://" source in
    if String.eqb imageName "" then ret (Err (Errorf "empty image name in source: %s" [AStr source]))
    else
      let* id := fresh le_uuid in
      let containerName := "nanofuse-layer-" +:+ id in
      let* ' (output, e) := run_command "docker" ["create"; "--name"; containerName; imageName] in
      match e with
      | Some err => ret (Err (Errorf "failed to create container from %s: %w (output: %s)" [AStr imageName; AWrap err; AStr output]))
      | None =>
          deferred (run_command "docker" ["rm"; containerName] ;;; ret tt) (
          let tarballPath := filepath_join [workDir; containerName +:+ ".tar"] in
          let* ' (output, e) := run_command "docker" ["export"; containerName; "-o"; tarballPath] in
          match e with
          | Some err => ret (Err (Errorf "failed to export container %s: %w (output: %s)" [AStr containerName; AWrap err; AStr output]))
          | None => in_temp_dir workDir (λ tempDir, fetched source (inspect_tarball tarballPath tempDir))
          end)
      end.

(** * Registries *)

(** [maxRetries] and [baseBackoff] of a fetcher. *)
(* @type internal/layerbuild/fetcher.go RegistryFetcher *)
Record RegistryFetcher : Type := mkRegistry { rf_dir : string; rf_retries : Z; rf_backoff : Z }.

Definition second : Z := 1000000000.

(** Without options. *)
(* @func internal/layerbuild/fetcher.go NewRegistryFetcher *)
Definition NewRegistryFetcher (workDir : string) : RegistryFetcher := mkRegistry workDir 3 second.

Definition StatusTooManyRequests : Z := 429.
Definition TooManyRequestsErrorCode : string := "TOOMANYREQUESTS".

(* @func internal/layerbuild/fetcher.go isRateLimitError *)
Definition isRateLimitError (err : error) : bool :=
  match le_transport err with
  | Some t => existsb (String.eqb TooManyRequestsErrorCode) (tr_codes t) || (tr_status t =? StatusTooManyRequests)%Z
  | None => false
  end.

(* @func internal/layerbuild/fetcher.go wrapRegistryError *)
Definition wrapRegistryError (err : error) (imageRef : string) : error :=
  let say format := Errorf format [AStr imageRef; AWrap err] in
  match le_transport err with
  | Some t =>
      match tr_status t with
      | 401%Z => say "authentication required for %s: configure docker credentials in ~/.docker/config.json or use 'docker login': %w"
      | 403%Z => say "access denied for %s: check your permissions or ensure the image exists: %w"
      | 404%Z => say "image not found: %s: verify the image name and tag are correct: %w"
      | 429%Z => say "rate limit exceeded for %s: wait and retry later or authenticate to increase limits: %w"
      | 500%Z | 502%Z | 503%Z => say "registry server error for %s: the registry may be experiencing issues, try again later: %w"
      | n => Errorf "registry error for %s (HTTP %d): %w" [AStr imageRef; AInt n; AWrap err]
      end
  | None =>
      let text := le_text err in
      if contains "no such host" text then say "registry not found: %s: verify the registry hostname is correct: %w"
      else if contains "connection refused" text then say "cannot connect to registry for %s: check network connectivity: %w"
      else if contains "timeout" text || contains "deadline exceeded" text then
        say "timeout connecting to registry for %s: check network connectivity or try again: %w"
      else say "failed to fetch from registry %s: %w"
  end.

Definition record_call (c : call) : LM unit := λ w, (tt, log_call c w).

Definition wait (d : option Z) : LM unit :=
  match d with Some d => record_call (CSleep d) | None => ret tt end.

(** [n]: the attempts left; [backoff]: the wait before the next one, [None] before
    the first. *)
(* @src internal/layerbuild/fetcher.go:599-629 fetchWithRetry *)
Fixpoint attempts (n : nat) (ref : image_ref) (max : Z) (sleep : option Z) (backoff : Z) (lastErr : option error) : LM (result image) :=
  match n with
  | O =>
      ret (Err (Errorf "failed to fetch image %s after %d retries: %w"
        ([AStr (ref_text ref); AInt max] ++ match lastErr with Some e => [AWrap e] | None => [] end)))
  | S n' =>
      wait sleep ;;;
      record_call (CPull (ref_text ref)) ;;;
      let* r := (λ w, (le_image (w_tick w) ref, tick w)) in
      match r with
      | Ok img => ret (Ok img)
      | Err err =>
          if isRateLimitError err then attempts n' ref max (Some backoff) (add64 backoff backoff) (Some err)
          else ret (Err (wrapRegistryError err (ref_text ref)))
      end
  end.

(* @func internal/layerbuild/fetcher.go fetchWithRetry *)
Definition fetchWithRetry (f : RegistryFetcher) (ref : image_ref) : LM (result image) :=
  attempts (Z.to_nat (rf_retries f + 1)) ref (rf_retries f) None (rf_backoff f) None.

(** Copy the entries of one layer: headers of every type, data of regular files. *)
(* @src internal/layerbuild/fetcher.go:487-523 RegistryFetcher.Fetch *)
Fixpoint copy_entries (i : nat) (entries : list tar_entry) (final : option error) (acc : list tar_entry) : LM (result (list tar_entry)) :=
  match entries with
  | [] =>
      ret match final with
      | Some err => Err (Errorf "failed to read layer %d entry: %w" [AInt (Z.of_nat i); AWrap err])
      | None => Ok acc
      end
  | e :: entries' =>
      checked os_call (λ err, Err (Errorf "failed to write header for %s: %w" [AStr (te_name e); AWrap err])) (
      if bool_decide (te_type e = TypeReg) then
        let* werr := os_call in
        match (match te_broken e with Some err => Some err | None => werr end) with
        | Some err => ret (Err (Errorf "failed to write content for %s: %w" [AStr (te_name e); AWrap err]))
        | None => copy_entries i entries' final (acc ++ [mkTar (te_name e) TypeReg (te_mode e) (te_data e) None])
        end
      else copy_entries i entries' final (acc ++ [mkTar (te_name e) (te_type e) (te_mode e) "" None]))
  end.

(* @src internal/layerbuild/fetcher.go:475-525 RegistryFetcher.Fetch *)
Fixpoint copy_layers (i : nat) (layers : list (result (list tar_entry * option error))) (acc : list tar_entry) : LM (result (list tar_entry)) :=
  match layers with
  | [] => ret (Ok acc)
  | Err err :: _ => ret (Err (Errorf "failed to get layer %d content: %w" [AInt (Z.of_nat i); AWrap err]))
  | Ok (entries, final) :: layers' =>
      checked_result (copy_entries i entries final acc) Err (copy_layers (S i) layers')
  end.

(** The tarball of all layers, written to [path]. *)
(* @src internal/layerbuild/fetcher.go:460-542 RegistryFetcher.Fetch *)
Definition write_tarball (img : image) (path : string) : LM (option error) :=
  match image_layers img with
  | Err err => ret (Some (Errorf "failed to get image layers: %w" [AWrap err]))
  | Ok layers =>
      checked_result (copy_layers 0 layers []) Some (λ entries,
      checked os_call (λ err, Some (Errorf "failed to close tar writer: %w" [AWrap err])) (
      checked os_call (λ err, Some (Errorf "failed to close gzip writer: %w" [AWrap err])) (
      checked (os_Fill path (le_pack entries)) (λ err, Some (Errorf "failed to close output file: %w" [AWrap err])) (
      ret None))))
  end.

Definition with_oci_digest (digest : string) (p : LayerPackage) : LayerPackage :=
  mkPackage (lp_name p) (lp_version p) (lp_description p) (lp_type p) (lp_size p) (lp_sha256 p) (lp_rootfs p)
    (lp_dependencies p) (lp_provides p) (lp_files p) (lp_systemd p) (lp_config_schema p)
    (<["oci-digest" := digest]> (lp_metadata p)).

(** The metadata of an image that holds none. *)
Definition synthetic_package (ref : image_ref) (imageRef : string) : LayerPackage :=
  mkPackage (ref_repository ref) (ref_identifier ref) ("Layer from OCI registry: " +:+ imageRef) LayerTypeBase 0 "" ""
    [] [] [] None ∅ ∅.

(* @src internal/layerbuild/fetcher.go:553-590 RegistryFetcher.Fetch *)
Definition inspect_image (ref : image_ref) (imageRef digest tarballPath tempDir : string) : LM (result FetchResult) :=
  let fail err := os_Remove tarballPath ;;; ret (Err err) in
  let* e := extractTarball tarballPath tempDir in
  match e with
  | Some err => fail (Errorf "failed to extract tarball: %w" [AWrap err])
  | None =>
      let* m := readLayerMetadata (filepath_join [tempDir; "layer.yaml"]) in
      let metadata := match m with Ok metadata => metadata | Err _ => synthetic_package ref imageRef end in
      let* d := calculateDigest tarballPath in
      match d with
      | Err err => fail (Errorf "failed to calculate digest: %w" [AWrap err])
      | Ok d => ret (Ok (mkFetch tarballPath (fst d) (with_oci_digest digest metadata) (snd d)))
      end
  end.

(* @func internal/layerbuild/fetcher.go RegistryFetcher.Fetch *)
Definition RegistryFetcher_Fetch (f : RegistryFetcher) (source : string) : LM (result CachedLayer) :=
  if negb (has_prefix "registry://" source) then
    ret (Err (Errorf "invalid registry source URL: %s (must start with registry://)" [AStr source]))
  else
    let imageRef := trim_prefix "registry://" source in
    if String.eqb imageRef "" then ret (Err (Errorf "empty image reference in source: %s" [AStr source]))
    else match le_ref imageRef with
    | Err err => ret (Err (Errorf "failed to parse image reference %q: %w" [AStr imageRef; AWrap err]))
    | Ok ref =>
        checked_result (fetchWithRetry f ref) Err (λ img,
        match image_digest img with
        | Err err => ret (Err (Errorf "failed to get image digest: %w" [AWrap err]))
        | Ok digest =>
            let* id := fresh le_uuid in
            let tarballPath := filepath_join [rf_dir f; "registry-" +:+ id +:+ ".tar.gz"] in
            checked (os_Create tarballPath perm_0666) (λ err, Err (Errorf "failed to create output file: %w" [AWrap err])) (
            let* e := write_tarball img tarballPath in
            match e with
            | Some err => os_Remove tarballPath ;;; ret (Err err)
            | None =>
                let* id := fresh le_uuid in
                let tempDir := filepath_join [rf_dir f; "extract-" +:+ id] in
                let* e := os_MkdirAll tempDir perm_0755 in
                match e with
                | Some err => os_Remove tarballPath ;;; ret (Err (Errorf "failed to create temp directory: %w" [AWrap err]))
                | None =>
                    deferred (os_RemoveAll tempDir) (fetched source (inspect_image ref imageRef digest tarballPath tempDir))
                end
            end)
        end)
    end.

(** The fetchers of a build, each for one kind of source. *)
Inductive fetcher : Type :=
  | LocalFetcher (workDir : string)
  | DockerFetcher (workDir : string)
  | Registry (f : RegistryFetcher).

(* @type internal/layerbuild/types.go LayerFetcher *)
Definition Supports (f : fetcher) (st : SourceType) : bool :=
  match f with
  | LocalFetcher _ => bool_decide (st = SourceTypeLocal)
  | DockerFetcher _ => bool_decide (st = SourceTypeDocker)
  | Registry _ => bool_decide (st = SourceTypeRegistry)
  end.

Definition Fetch (f : fetcher) (source : string) : LM (result CachedLayer) :=
  match f with
  | LocalFetcher d => LocalFetcher_Fetch d source
  | DockerFetcher d => DockerFetcher_Fetch d source
  | Registry r => RegistryFetcher_Fetch r source
  end.
End Fetch.
