(* ===== verification/LayerFetchSpec.v ===== *)
(** What the fetchers guarantee: extraction stays inside its directory, and the
    retries of a registry are bounded. *)

From stdpp Require Import gmap.
From S2P Require Import Prelude GoStrings Paths Json Storage LayerTypes LayerManifest LayerEnv LayerFetch.

(** * Cleaned relative paths *)

(** The elements kept so far, last first: plain names above [..]s. *)
Definition rel_acc (acc : list string) : Prop :=
  ∃ ps n, acc = ps ++ replicate n ".." ∧ Forall plain ps.

Lemma clean_step_rel acc seg : rel_acc acc → no_char slash seg → rel_acc (clean_step false acc seg).
Proof.
  intros (ps & n & -> & Hp) Hs. unfold clean_step.
  destruct (bool_decide_reflect (seg = "")) as [|H1]; [by exists ps, n|].
  destruct (bool_decide_reflect (seg = ".")) as [|H2]; [by exists ps, n|]. cbn [orb].
  destruct (bool_decide_reflect (seg = "..")) as [|H3].
  - destruct ps as [|p ps]; cbn [app].
    + destruct n as [|n]; cbn [replicate]; [by exists [], 1%nat|]. by exists [], (S (S n)).
    + apply Forall_cons in Hp as [(?&?&?&?) Hp]. rewrite bool_decide_false by done. by exists ps, n.
  - exists (seg :: ps), n. split; [done|]. constructor; [|done]. done.
Qed.

Lemma foldl_clean_rel acc segs :
  rel_acc acc → Forall (no_char slash) segs → rel_acc (foldl (clean_step false) acc segs).
Proof.
  revert acc. induction segs as [|s segs IH]; intros acc Ha Hs; simpl; [done|].
  apply Forall_cons in Hs as [Hs Hss]. apply IH; [|done]. by apply clean_step_rel.
Qed.

Lemma path_elements_rel p :
  is_rooted p = false → ∃ n ps, path_elements p = replicate n ".." ++ ps ∧ Forall plain ps.
Proof.
  intros Hr. unfold path_elements, clean_segments. rewrite Hr.
  destruct (foldl_clean_rel [] (split_on slash p)) as (ps & n & -> & Hp);
    [by exists [], 0%nat|apply split_on_no_char|].
  exists n, (rev ps). rewrite rev_app_distr. split; [|by apply Forall_rev].
  f_equal. clear. induction n as [|n IH]; [done|]. cbn [replicate rev]. rewrite IH.
  change [".."] with (replicate 1 ".."). by rewrite <- replicate_add, Nat.add_comm.
Qed.

Lemma clean_relative name :
  path_clean name ≠ "." → is_rooted (path_clean name) = false → path_clean name ≠ ".." →
  has_prefix "../" (path_clean name) = false →
  ∃ els, els ≠ [] ∧ Forall plain els ∧ path_clean name = join "/" els.
Proof.
  unfold path_clean. destruct (is_rooted name) eqn:Er; [by rewrite is_rooted_render|].
  destruct (path_elements_rel name Er) as (n & ps & -> & Hp). intros H1 _ H2 H3.
  destruct n as [|n]; cbn [replicate app] in *.
  - destruct ps as [|p ps]; [done|]. exists (p :: ps). done.
  - exfalso. cbn [path_render] in *. destruct (replicate n ".." ++ ps) as [|x l]; [by apply H2|].
    rewrite join_cons2 in H3. assert (has_prefix "../" (".." +:+ String slash (join "/" (x :: l))) = true); [|congruence].
    apply has_prefix_iff. by eexists.
Qed.

(** * The target of an archive entry *)

Lemma entry_target_spec destDir name target :
  is_rooted destDir = true → entry_target destDir name = Ok (Some target) →
  ∃ els, els ≠ [] ∧ Forall plain els ∧ target = path_render true (path_elements destDir ++ els).
Proof.
  intros Hr. unfold entry_target. destruct (String.eqb_spec (path_clean name) ".") as [|H1]; [done|].
  destruct (is_rooted (path_clean name)) eqn:H2; [done|].
  destruct (String.eqb_spec (path_clean name) "..") as [|H3]; [done|].
  destruct (has_prefix "../" (path_clean name)) eqn:H4; [done|]. cbn [orb].
  destruct (clean_relative name H1 H2 H3 H4) as (els & Hne & Hp & ->).
  destruct (_ && _); [done|]. intros [= <-]. exists els. split_and!; [done..|]. by apply filepath_join_below.
Qed.

(** * The directories above a path *)

Lemma path_chain_rooted p q :
  is_rooted p = true → q ∈ path_chain p → ∃ i, q = path_render true (take i (path_elements p)).
Proof.
  intros Hr Hq. unfold path_chain in Hq. rewrite Hr in Hq. apply list_elem_of_fmap in Hq as (i & -> & _). eauto.
Qed.

Lemma drop_last_element_snoc l x : l ≠ [] → drop_last_element (l ++ [x]) = l ++ [""].
Proof.
  induction l as [|y l IH]; [done|]. intros _. destruct l as [|z l]; [done|].
  cbn [app drop_last_element] in *. rewrite IH by done. by destruct l.
Qed.

Lemma filepath_dir_render els x :
  Forall plain (els ++ [x]) → filepath_dir (path_render true (els ++ [x])) = path_render true els.
Proof.
  intros Hp. pose proof Hp as [He _]%Forall_app. unfold filepath_dir.
  rewrite split_on_render by (try done; by destruct els).
  rewrite app_comm_cons, drop_last_element_snoc by done.
  assert (Hs : ∀ l : list string, Forall (no_char slash) l → l ≠ [] → path_elements (join "/" l) = clean_segments (is_rooted (join "/" l)) l).
  { intros l Hl Hne. unfold path_elements. by rewrite split_on_join. }
  assert (Hroot : is_rooted (join "/" (("" :: els) ++ [""])) = true).
  { apply has_prefix_iff. destruct els as [|e els]; [by exists ""|]. by eexists. }
  unfold path_clean. rewrite Hs.
  - rewrite Hroot. f_equal. unfold clean_segments.
    change (foldl (clean_step true) [] (("" :: els) ++ [""])) with (foldl (clean_step true) [] (els ++ [""])).
    rewrite foldl_app, (foldl_clean_id [] els) by done. cbn. rewrite app_nil_r. apply rev_involutive.
  - constructor; [done|]. apply Forall_app. split; [|by repeat constructor].
    eapply Forall_impl; [exact He|]. by intros ? (?&?&?&?).
  - done.
Qed.

(** * Extraction *)

(** Between two sets of files only the places below a directory differ, except
    that directories above it may have been made. *)
Definition only_below (dir : string) (fs fs' : gmap string node) : Prop :=
  ∀ q, fs' !! q ≠ fs !! q →
    (∃ els, Forall plain els ∧ q = path_render true (path_elements dir ++ els)) ∨
    (fs !! q = None ∧ ∃ m i, fs' !! q = Some (Dir m) ∧ q = path_render true (take i (path_elements dir))).

Lemma only_below_refl dir fs : only_below dir fs fs.
Proof. intros q []. done. Qed.

Lemma only_below_trans dir fs1 fs2 fs3 : only_below dir fs1 fs2 → only_below dir fs2 fs3 → only_below dir fs1 fs3.
Proof.
  intros H12 H23 q Hq. destruct (decide (fs3 !! q = fs2 !! q)) as [E|E].
  - rewrite E in Hq |- *. by apply H12.
  - destruct (H23 q E) as [?|(Hn & m & i & Hd & Hi)]; [by left|].
    destruct (decide (fs2 !! q = fs1 !! q)) as [E'|E'].
    + right. rewrite <- E'. eauto.
    + destruct (H12 q E') as [?|(_ & m' & _ & Hd' & _)]; [by left|]. congruence.
Qed.

Lemma only_below_insert dir fs p n :
  (∃ els, Forall plain els ∧ p = path_render true (path_elements dir ++ els)) → only_below dir fs (<[p := n]> fs).
Proof.
  intros Hp q Hq. destruct (decide (p = q)) as [->|Hne]; [by left|]. by rewrite lookup_insert_ne in Hq.
Qed.

Lemma only_below_add_dir dir mode fs p i els :
  Forall plain els → p = path_render true (take i (path_elements dir ++ els)) → only_below dir fs (add_dir mode fs p).
Proof.
  intros He Hp q Hq. unfold add_dir in *. destruct (fs !! p) eqn:E; [done|].
  destruct (decide (p = q)) as [->|Hne]; [|by rewrite lookup_insert_ne in Hq].
  destruct (decide (i ≤ length (path_elements dir))%nat) as [Hle|Hgt].
  - right. split; [done|]. exists mode, i. rewrite lookup_insert_eq. split; [done|]. by rewrite take_app_le in Hp.
  - left. exists (take (i - length (path_elements dir)) els). split; [by apply Forall_take|].
    by rewrite take_app_ge in Hp by lia.
Qed.

Lemma only_below_mkdir dir mode fs fs' p els :
  is_rooted dir = true → Forall plain els → is_rooted p = true → path_elements p = path_elements dir ++ els →
  mkdir_all p mode fs = Ok fs' → only_below dir fs fs'.
Proof.
  intros Hr He Hp Hels. unfold mkdir_all. destruct (existsb _ _); [done|]. intros [= <-].
  assert (Forall (λ q, ∃ i, q = path_render true (take i (path_elements dir ++ els))) (path_chain p)) as Hc.
  { apply Forall_forall. intros q Hq. rewrite <- Hels. by apply path_chain_rooted. }
  revert fs. induction Hc as [|q l [i Hi] _ IH]; intros fs; cbn [foldl]; [apply only_below_refl|].
  eapply only_below_trans; [|apply IH]. by eapply only_below_add_dir.
Qed.

Section Spec.
Context `{HL : LEnv}.

(** A computation that changes files only below [dir]. *)
Definition confined {A} (dir : string) (m : LM A) : Prop := ∀ w, only_below dir (w_files w) (w_files (snd (m w))).

Lemma confined_ret {A} dir (a : A) : confined dir (ret a).
Proof. intros w. apply only_below_refl. Qed.

Lemma confined_bind {A B} dir (m : LM A) (k : A → LM B) :
  confined dir m → (∀ a, confined dir (k a)) → confined dir (bind m k).
Proof.
  intros Hm Hk w. unfold bind. pose proof (Hm w) as H1. destruct (m w) as [a w1].
  eapply only_below_trans; [exact H1|]. apply Hk.
Qed.

Lemma confined_checked {A} dir (m : LM (option error)) (f : error → A) k :
  confined dir m → confined dir k → confined dir (checked m f k).
Proof. intros Hm Hk. apply confined_bind; [done|]. intros [e|]; [apply confined_ret|done]. Qed.

Lemma confined_checked_result {A B} dir (m : LM (result A)) (f : error → B) k :
  confined dir m → (∀ a, confined dir (k a)) → confined dir (checked_result m f k).
Proof. intros Hm Hk. apply confined_bind; [done|]. intros [a|e]; [done|apply confined_ret]. Qed.

Lemma confined_fresh {A} dir (f : nat → A) : confined dir (fresh f).
Proof. intros w. apply only_below_refl. Qed.

Lemma confined_read dir p : confined dir (os_ReadFile p).
Proof. intros w. apply only_below_refl. Qed.

(** The path lies below [dir], in its cleaned form. *)
Definition inside (dir p : string) : Prop :=
  ∃ els, Forall plain els ∧ p = path_render true (path_elements dir ++ els).

Lemma inside_clean dir p : is_rooted dir = true → inside dir p → path_clean p = p ∧ is_rooted p = true.
Proof.
  intros Hr (els & He & ->). split; [|apply is_rooted_render].
  unfold path_clean. rewrite is_rooted_render, path_elements_render; [done|].
  apply Forall_app. split; [by apply path_elements_plain|done].
Qed.

Lemma confined_mkdir dir p mode : is_rooted dir = true → inside dir p → confined dir (os_MkdirAll p mode).
Proof.
  intros Hr (els & He & ->) w. unfold os_MkdirAll. destruct (le_fault _); [apply only_below_refl|].
  destruct (mkdir_all _ _ _) as [fs|] eqn:E; cbn; [|apply only_below_refl].
  eapply (only_below_mkdir dir mode _ _ _ els); [done|done|apply is_rooted_render| |exact E].
  apply path_elements_render, Forall_app. split; [by apply path_elements_plain|done].
Qed.

Lemma confined_create dir p mode : is_rooted dir = true → inside dir p → confined dir (os_Create p mode).
Proof.
  intros Hr Hi w. destruct (inside_clean dir p Hr Hi) as [Hc _]. unfold os_Create. rewrite Hc.
  destruct (le_fault _); [apply only_below_refl|].
  destruct (w_files w !! p) as [[]|]; cbn; first [apply only_below_refl|by apply only_below_insert].
Qed.

Lemma confined_fill dir p content : is_rooted dir = true → inside dir p → confined dir (os_Fill p content).
Proof.
  intros Hr Hi w. destruct (inside_clean dir p Hr Hi) as [Hc _]. unfold os_Fill. rewrite Hc.
  destruct (le_fault _); by apply only_below_insert.
Qed.

Lemma confined_entry dir els hdr :
  is_rooted dir = true → Forall plain els → els ≠ [] →
  confined dir (extract_entry (path_render true (path_elements dir ++ els)) hdr).
Proof.
  intros Hr He Hne. assert (Hin : inside dir (path_render true (path_elements dir ++ els))) by (by exists els).
  assert (Hpar : inside dir (filepath_dir (path_render true (path_elements dir ++ els)))).
  { destruct els as [|x els' _] using rev_ind; [done|].
    rewrite app_assoc, filepath_dir_render.
    - exists els'. split; [|done]. by apply Forall_app in He as [? _].
    - rewrite <- app_assoc. apply Forall_app. split; [by apply path_elements_plain|done]. }
  unfold extract_entry. destruct (te_type hdr).
  - apply confined_checked; [by apply confined_mkdir|apply confined_ret].
  - apply confined_checked; [by apply confined_mkdir|].
    apply confined_checked; [by apply confined_create|]. destruct (copy_limited _ _) as [data broken].
    apply confined_bind; [by apply confined_fill|]. intros e.
    destruct broken; [|destruct e]; repeat first [apply confined_ret|apply confined_fresh|apply confined_checked|apply confined_bind|intros ?].
  - apply confined_ret.
Qed.

Lemma confined_entries dir entries final :
  is_rooted dir = true → confined dir (extract_entries dir entries final).
Proof.
  intros Hr. induction entries as [|hdr entries IH]; cbn [extract_entries]; [apply confined_ret|].
  destruct (entry_target dir (te_name hdr)) as [[target|]|] eqn:E; [|done|apply confined_ret].
  apply entry_target_spec in E as (els & Hne & He & ->); [|done].
  apply confined_bind; [by apply confined_entry|]. intros [e|]; [apply confined_ret|done].
Qed.

(** C17: whatever an archive holds, extracting it changes no file outside the
    destination: every path that is written or made lies below it, apart from
    missing directories above it. *)
Theorem extractTarball_confined (tarballPath destDir : string) (w : LWorld) (Hr : is_rooted destDir = true) :
  only_below destDir (w_files w) (w_files (snd (extractTarball tarballPath destDir w))).
Proof.
  assert (H : confined destDir (extractTarball tarballPath destDir)); [|apply H].
  apply confined_checked_result; [apply confined_read|]. intros data.
  destruct (le_untar _ data) as [[entries final]|]; [by apply confined_entries|apply confined_ret].
Qed.
End Spec.

(** * Retries *)

(** Attempt [i]: a wait that doubles from one attempt to the next, and a pull. *)
Definition attempt_calls (base : Z) (ref : string) (i : nat) : list call :=
  match i with
  | O => [CPull ref]
  | S j => [CSleep (base * 2 ^ Z.of_nat j)%Z; CPull ref]
  end.

Section Retries.
Context `{HL : LEnv}.

Definition rate_limited (n : nat) (ref : image_ref) : Prop :=
  ∃ e, le_image n ref = Err e ∧ isRateLimitError e = true.

(** [k] attempts from attempt [j] on, of at most [n]. *)
Definition retry_outcome (base : Z) (ref : image_ref) (j n : nat) (w : LWorld) (r : result image) (w' : LWorld) (k : nat) : Prop :=
  (k ≤ n)%nat ∧ w_calls w' = w_calls w ++ concat (attempt_calls base (ref_text ref) <$> seq j k) ∧
  w_files w' = w_files w ∧ (∀ i, (S i < k)%nat → rate_limited (w_tick w + i) ref) ∧
  match r with
  | Ok img => (0 < k)%nat ∧ le_image (w_tick w + (k - 1)) ref = Ok img
  | Err _ =>
      ((0 < k)%nat ∧ ∃ e, le_image (w_tick w + (k - 1)) ref = Err e ∧ isRateLimitError e = false) ∨
      (k = n ∧ ∀ i, (i < k)%nat → rate_limited (w_tick w + i) ref)
  end.

Definition wait_before (base : Z) (j : nat) : option Z :=
  match j with O => None | S i => Some (base * 2 ^ Z.of_nat i)%Z end.

Lemma attempts_spec (base max : Z) (ref : image_ref) (n j : nat) (last : option error) (w : LWorld) :
  (0 ≤ base)%Z → (base * 2 ^ Z.of_nat (j + n - 1) < 2 ^ 63)%Z →
  ∃ k, let '(r, w') := attempts n ref max (wait_before base j) (base * 2 ^ Z.of_nat j) last w in
    retry_outcome base ref j n w r w' k.
Proof.
  revert j last w. induction n as [|n IH]; intros j last w H0 Hb.
  - exists 0%nat. cbn. unfold retry_outcome. cbn. rewrite app_nil_r. split_and!; try done; [lia|].
    right. split; [done|lia].
  - cbn [attempts]. rewrite bind_unfold.
    destruct (wait (wait_before base j) w) as [[] w1] eqn:Ew.
    assert (Hw1 : w_calls w1 ++ [CPull (ref_text ref)] = w_calls w ++ attempt_calls base (ref_text ref) j ∧
                  w_files w1 = w_files w ∧ w_tick w1 = w_tick w).
    { destruct j; cbn in Ew; injection Ew as <-; cbn; [done|]. by rewrite <- app_assoc. }
    destruct Hw1 as (Hc & Hfi & Ht). rewrite bind_unfold. cbn [record_call]. rewrite bind_unfold. cbn [w_tick log_call].
    rewrite Ht. destruct (le_image (w_tick w) ref) as [img|err] eqn:Ei.
    + exists 1%nat. unfold retry_outcome. cbn [ret w_calls w_files tick log_call fmap list_fmap seq concat]. rewrite app_nil_r, Hc, Hfi.
      split_and!; [lia|done|done|lia|lia|]. by rewrite Nat.add_0_r.
    + destruct (isRateLimitError err) eqn:Er.
      * assert (Hdouble : add64 (base * 2 ^ Z.of_nat j) (base * 2 ^ Z.of_nat j) = (base * 2 ^ Z.of_nat (S j))%Z ∨ n = 0%nat).
        { destruct n as [|n]; [by right|left]. unfold add64.
          assert (base * 2 ^ Z.of_nat (S j) ≤ base * 2 ^ Z.of_nat (j + S (S n) - 1))%Z
            by (apply Z.mul_le_mono_nonneg_l; [done|]; apply Z.pow_le_mono_r; lia).
          rewrite Nat2Z.inj_succ, Z.pow_succ_r in * by lia. assert (0 ≤ base * 2 ^ Z.of_nat j)%Z by (apply Z.mul_nonneg_nonneg; lia).
          rewrite Z.mod_small by lia. lia. }
        set (w2 := tick _). assert (Hlim : rate_limited (w_tick w) ref) by (by exists err).
        assert (Hnext : ∃ k, let '(r, w') := attempts n ref max (Some (base * 2 ^ Z.of_nat j)%Z)
             (add64 (base * 2 ^ Z.of_nat j) (base * 2 ^ Z.of_nat j)) (Some err) w2 in retry_outcome base ref (S j) n w2 r w' k).
        { destruct Hdouble as [->| ->].
          - apply (IH (S j)); [done|]. by replace (S j + n - 1)%nat with (j + S n - 1)%nat by lia.
          - exists 0%nat. cbn. unfold retry_outcome. cbn. rewrite app_nil_r. split_and!; try done; [lia|]. right. split; [done|lia]. }
        destruct Hnext as [k Hk]. exists (S k). destruct (attempts n _ _ _ _ _ w2) as [r w'].
        destruct Hk as (Hle & Hcalls & Hfiles & Hbefore & Hr).
        assert (Ht2 : w_tick w2 = S (w_tick w)) by (unfold w2; cbn; by rewrite Ht).
        rewrite Ht2 in *. unfold retry_outcome. split_and!.
        -- lia.
        -- rewrite Hcalls. unfold w2. cbn [w_calls tick log_call seq fmap list_fmap concat]. by rewrite Hc, <- app_assoc.
        -- rewrite Hfiles. unfold w2. done.
        -- intros [|i] Hi; [by rewrite Nat.add_0_r|]. rewrite Nat.add_succ_r. apply (Hbefore i). lia.
        -- destruct r as [img|e].
           ++ destruct Hr as [? Hr]. split; [lia|]. by replace (w_tick w + (S k - 1))%nat with (S (w_tick w) + (k - 1))%nat by lia.
           ++ destruct Hr as [[? Hr]|[-> Hr]]; [left; split; [lia|]|right; split; [done|]].
              ** by replace (w_tick w + (S k - 1))%nat with (S (w_tick w) + (k - 1))%nat by lia.
              ** intros [|i] Hi; [by rewrite Nat.add_0_r|]. rewrite Nat.add_succ_r. apply (Hr i). lia.
      * exists 1%nat. unfold retry_outcome. cbn [ret w_calls w_files tick log_call fmap list_fmap seq concat]. rewrite app_nil_r, Hc, Hfi.
        split_and!; [lia|done|done|lia|]. left. split; [lia|]. exists err. by rewrite Nat.add_0_r.
Qed.

(** a fetch from a registry pulls the image at most [maxRetries + 1] times; it
    tries again only after an answer that says the rate limit was hit, after waits
    that start at the base backoff and double; the image of the first successful
    pull is the result, and an error means that the last pull failed otherwise or
    that every allowed attempt hit the limit. *)
Theorem fetchWithRetry_bounds (f : RegistryFetcher) (ref : image_ref) (w : LWorld)
    (H0 : (0 ≤ rf_backoff f)%Z) (Hret : (0 ≤ rf_retries f)%Z)
    (Hb : (rf_backoff f * 2 ^ rf_retries f < 2 ^ 63)%Z) :
  let '(r, w') := fetchWithRetry f ref w in
  ∃ k, (1 ≤ k)%nat ∧ (Z.of_nat k ≤ rf_retries f + 1)%Z ∧
    w_calls w' = w_calls w ++ concat (attempt_calls (rf_backoff f) (ref_text ref) <$> seq 0 k) ∧
    (∀ i, (S i < k)%nat → rate_limited (w_tick w + i) ref) ∧
    match r with
    | Ok img => le_image (w_tick w + (k - 1)) ref = Ok img
    | Err _ => ∃ e, le_image (w_tick w + (k - 1)) ref = Err e ∧ (isRateLimitError e = false ∨ Z.of_nat k = (rf_retries f + 1)%Z)
    end.
Proof.
  unfold fetchWithRetry. destruct (attempts_spec (rf_backoff f) (rf_retries f) ref (Z.to_nat (rf_retries f + 1)) 0 None w)
    as [k Hk]; [done| |].
  { replace (Z.of_nat (0 + Z.to_nat (rf_retries f + 1) - 1)) with (rf_retries f) by lia. done. }
  cbn [wait_before] in Hk. change (2 ^ Z.of_nat 0)%Z with 1%Z in Hk. rewrite Z.mul_1_r in Hk.
  destruct (attempts _ _ _ _ _ _ w) as [r w']. destruct Hk as (Hle & Hc & _ & Hlim & Hr).
  destruct r as [img|e].
  - destruct Hr as [Hk Hr]. exists k. split_and!; try done; lia.
  - destruct Hr as [(Hk & e' & He & Hn)|[-> Hall]].
    + exists k. split_and!; [lia|lia|done|done|]. exists e'. auto.
    + exists (Z.to_nat (rf_retries f + 1)). split_and!; [lia|lia|done|done|]. destruct (Hall (Z.to_nat (rf_retries f + 1) - 1)%nat) as (e' & He & _); [lia|].
      exists e'. split; [done|]. right. lia.
Qed.
End Retries.

(** * Concrete runs *)

Definition archive_ex : list tar_entry :=
  [mkTar "./" TypeDir 493 "" None; mkTar "rootfs/bin/sh" TypeReg 3565 "#!" None; mkTar "link" TypeOther 0 "" None;
   mkTar "a/../../etc/passwd" TypeReg 420 "root" None].

Definition archive_env : LEnv :=
  scripted_env_with [] JNull (λ _ _, Ok (archive_ex, None)) (λ _ _, Err (ErrorsNew "no such host")) (λ _, None)
    (λ _, Err (ErrorsNew "yaml")).

(** The regular entry lands below the directory, the one that leaves it ends the
    extraction. *)
Lemma extractTarball_confined_witness :
  let w := world_of Storage.empty_db {["/tmp/l.tar.gz" := File "x" 420]} in
  let '(e, w') := @extractTarball archive_env "/tmp/l.tar.gz" "/work/x" w in
  e = Some (Errorf "invalid tar entry: %s (absolute or parent-directory path)" [AStr "a/../../etc/passwd"]) ∧
  w_files w' !! "/work/x/rootfs/bin/sh" = Some (File "#!" 493) ∧
  only_below "/work/x" (w_files w) (w_files (snd (@extractTarball archive_env "/tmp/l.tar.gz" "/work/x" w))).
Proof.
  intros w. split; [vm_compute; reflexivity|]. split; [vm_compute; reflexivity|].
  exact (@extractTarball_confined archive_env "/tmp/l.tar.gz" "/work/x" w eq_refl).
Defined.

(** A registry that answers 429 twice before it gives the image. *)
Definition limited_registry : LEnv :=
  scripted_env_with [] JNull (λ _ _, Err (ErrorsNew "gzip: invalid header"))
    (λ n _, if (n <? 2)%nat then Err (ErrorsNew "slow down") else Ok (mkImage (Ok "sha256:1") (Ok [])))
    (λ _, Some (mkTransport 429 [])) (λ _, Err (ErrorsNew "yaml")).

Lemma fetchWithRetry_bounds_witness :
  let f := NewRegistryFetcher "/work" in
  let ref := mkRef "ghcr.io/x/y:1" "x/y" "1" in
  let w := world_of Storage.empty_db ∅ in
  let '(r, w') := @fetchWithRetry limited_registry f ref w in
  w_calls w' = [CPull "ghcr.io/x/y:1"; CSleep second; CPull "ghcr.io/x/y:1"; CSleep (2 * second); CPull "ghcr.io/x/y:1"] ∧
  ∃ k, (1 ≤ k)%nat ∧ (Z.of_nat k ≤ rf_retries f + 1)%Z ∧
    w_calls w' = w_calls w ++ concat (attempt_calls (rf_backoff f) (ref_text ref) <$> seq 0 k) ∧
    (∀ i, (S i < k)%nat → @rate_limited limited_registry (w_tick w + i) ref) ∧
    match r with
    | Ok img => @le_image limited_registry (w_tick w + (k - 1)) ref = Ok img
    | Err _ => ∃ e, @le_image limited_registry (w_tick w + (k - 1)) ref = Err e ∧
        (@isRateLimitError limited_registry e = false ∨ Z.of_nat k = (rf_retries f + 1)%Z)
    end.
Proof.
  intros f ref w.
  assert (Hb : (0 ≤ rf_backoff f)%Z ∧ (0 ≤ rf_retries f)%Z ∧ (rf_backoff f * 2 ^ rf_retries f < 2 ^ 63)%Z)
    by (vm_compute; repeat split; discriminate).
  destruct Hb as (H1 & H2 & H3).
  pose proof (@fetchWithRetry_bounds limited_registry f ref w H1 H2 H3) as H.
  assert (Hc : w_calls (snd (@fetchWithRetry limited_registry f ref w)) =
    [CPull "ghcr.io/x/y:1"; CSleep second; CPull "ghcr.io/x/y:1"; CSleep (2 * second); CPull "ghcr.io/x/y:1"]) by (vm_compute; reflexivity).
  destruct (@fetchWithRetry limited_registry f ref w) as [r w']. exact (conj Hc H).
Defined.
