(* ===== verification/LayerCompose.v ===== *)
(** Building an image from layers (src/internal/layerbuild/composer.go) and the
    hooks of its layers (hooks.go): the order of the host calls, the branches on
    their outcomes, and the unmounting on every way out.  Progress reports and
    verbose output are not modelled. *)

From stdpp Require Import gmap.
From S2P Require Import Prelude GoStrings Paths Json LayerTypes LayerManifest LayerEnv LayerCache LayerFetch.

(** * Hooks *)

(* @src internal/layerbuild/hooks.go:15-18 PreInstallHook *)
Definition PreInstallHook : string := "pre-install.sh".
Definition PostInstallHook : string := "post-install.sh".

(* @src internal/layerbuild/hooks.go:21-33 errRequiresRoot *)
Definition defaultHookTimeout : Z := 5 * 60 * second.
Definition errRequiresRoot : string := "root privileges required for chroot operations".
Definition errHookTimeout : string := "hook execution timeout".
Definition errHookFailed : string := "hook execution failed".

(* @type internal/layerbuild/hooks.go HookExecutor *)
Record HookExecutor : Type := mkHook { he_root : string; he_dry : bool; he_timeout : Z }.

(* @func internal/layerbuild/hooks.go NewHookExecutor *)
Definition NewHookExecutor (rootfsPath : string) (dryRun : bool) : HookExecutor := mkHook rootfsPath dryRun 0.

(** The custom variables come in no particular order. *)
(* @func internal/layerbuild/hooks.go buildHookEnv *)
Definition buildHookEnv (env : gmap string string) : list string :=
  ["PATH=/usr/local/sbin:/usr/local/bin:/usr/sbin:/usr/bin:/sbin:/bin"; "HOME=/root"; "TERM=xterm"] ++
  ((λ kv, fst kv +:+ "=" +:+ snd kv) <$> map_to_list env).

(** The first line of a [bufio.Scanner], which gives up on 64 KiB without a
    newline. *)
Fixpoint take_line (s : string) : string :=
  match s with
  | EmptyString => EmptyString
  | String a s' => if (nat_of_ascii a =? 10)%nat then EmptyString else String a (take_line s')
  end.

Definition scan_line (content : string) : option string :=
  if String.eqb content "" then None
  else let line := take_line content in
       if (65536 <=? Z.of_nat (String.length line))%Z then None else Some line.

Section Hooks.
Context `{HL : LEnv}.

(* @func internal/layerbuild/hooks.go validateHookScript *)
Definition validateHookScript (path : string) : LM (option error) :=
  checked_result (os_Stat path) Some (λ info,
  if (Z.land (match info with File _ m | Dir m => m end) 73 =? 0)%Z then ret (Some (Errorf "script is not executable" []))
  else
    checked_result (os_Open path) Some (λ file,
    ret match (match file with File c _ => scan_line c | Dir _ => None end) with
    | None => Some (Errorf "empty script file" [])
    | Some firstLine => if has_prefix "#!" firstLine then None else Some (Errorf "script missing shebang (#!) line" [])
    end)).

(* @func internal/layerbuild/hooks.go findHookScript *)
Definition findHookScript (layerPath hookName : string) : LM (result string) :=
  let inner := filepath_join [layerPath; "hooks"; hookName] in
  let outer := filepath_join [layerPath; hookName] in
  let* r := os_Stat inner in
  match r with
  | Ok _ => ret (Ok inner)
  | Err _ =>
      let* r := os_Stat outer in
      match r with
      | Ok _ => ret (Ok outer)
      | Err _ => ret (Err (Errorf "hook %s not found in layer %s" [AStr hookName; AStr layerPath]))
      end
  end.

(* @func internal/layerbuild/hooks.go copyFile *)
Definition copyFile (src dst : string) : LM (option error) :=
  checked_result (os_Open src) Some (λ file,
  checked (os_Create dst perm_0666) Some (
  checked (match file with
           | File content _ => os_Fill dst (if String.eqb (path_clean src) (path_clean dst) then "" else content)
           | Dir _ => ret (Some (ErrorsNew "is a directory"))
           end) Some (
  checked_result (os_Stat src) Some (λ info,
  checked (os_Chmod dst (match info with File _ m | Dir m => m end)) Some (ret None))))).

Definition run_hook (root scriptPath : string) (env : list string) : LM hook_outcome := λ w,
  let c := Cmd "chroot" [root; scriptPath] in
  let '(o, fs) := le_hook (w_tick w) c env (w_files w) in
  (o, set_w_files (log_call (CRun c (match o with HookOk => true | _ => false end)) (tick w)) fs).

(** The outcome of a hook, in the order in which it is examined. *)
(* @src internal/layerbuild/hooks.go:104-146 Execute *)
Definition hook_error (scriptPath : string) (timeout : Z) (o : hook_outcome) : option error :=
  match o with
  | HookOk => None
  | HookPipeFails which e => Some (Errorf "failed to create %s pipe: %w" [AStr which; AWrap e])
  | HookStartFails e => Some (Errorf "failed to start hook: %w" [AWrap e])
  | HookTimesOut => Some (Errorf "%w: %s exceeded %v" [AWrap (ErrorsNew errHookTimeout); AStr scriptPath; AInt timeout])
  | HookCancelled e => Some e
  | HookExits status => Some (Errorf "%w: %s exited with status %d" [AWrap (ErrorsNew errHookFailed); AStr scriptPath; AInt status])
  | HookWaitFails e => Some (Errorf "hook execution error: %w" [AWrap e])
  end.

(** A hook that does not exist is no error. *)
(* @func internal/layerbuild/hooks.go Execute *)
Definition Execute (he : HookExecutor) (scriptPath : string) (env : gmap string string) : LM (option error) :=
  let fullPath := filepath_join [he_root he; scriptPath] in
  let* info := os_Stat fullPath in
  if (match info with Err err => os_IsNotExist err | Ok _ => false end) then ret None
  else
    checked (validateHookScript fullPath) (λ err, Some (Errorf "invalid hook script %s: %w" [AStr scriptPath; AWrap err])) (
    if he_dry he then ret None
    else
      let* euid := fresh le_geteuid in
      if negb (euid =? 0)%Z then ret (Some (ErrorsNew errRequiresRoot))
      else
        let timeout := if (0 <? he_timeout he)%Z then (he_timeout he * second)%Z else defaultHookTimeout in
        let* o := run_hook (he_root he) scriptPath (buildHookEnv env) in
        ret (hook_error scriptPath timeout o)).

(* @func internal/layerbuild/hooks.go ExecuteLayerHooks *)
Definition ExecuteLayerHooks (he : HookExecutor) (layerPath layerName : string) (env : gmap string string) (phase : string) :
    LM (option error) :=
  match (if String.eqb phase "pre-install" then Some PreInstallHook
         else if String.eqb phase "post-install" then Some PostInstallHook else None) with
  | None => ret (Some (Errorf "invalid hook phase: %s" [AStr phase]))
  | Some hookName =>
      let* found := findHookScript layerPath hookName in
      match found with
      | Err _ => ret None
      | Ok hookPath =>
          let rootfsHookPath := filepath_join ["/hooks"; layerName; hookName] in
          let full := filepath_join [he_root he; rootfsHookPath] in
          checked (os_MkdirAll (filepath_dir full) perm_0755) (λ err, Some (Errorf "failed to create hooks directory: %w" [AWrap err])) (
          checked (if he_dry he then ret None
                   else
                     checked (copyFile hookPath full) (λ err, Some (Errorf "failed to copy hook to rootfs: %w" [AWrap err])) (
                     checked (os_Chmod full perm_0755) (λ err, Some (Errorf "failed to set hook permissions: %w" [AWrap err]))
                       (ret None))) Some
            (Execute he rootfsHookPath env))
      end
  end.
End Hooks.

(** * Image composition *)

(* @type internal/layerbuild/composer.go Composer *)
Record Composer : Type := mkComposer {
  c_work : string; c_output : string; c_cache : layerCache; c_fetchers : list fetcher }.

(* @type internal/layerbuild/composer.go ComposeOptions *)
Record ComposeOptions : Type := mkOptions {
  o_manifest : option ImageManifest; o_env : gmap string string; o_dry : bool }.

(* @type internal/layerbuild/composer.go ComposeResult *)
Record ComposeResult : Type := mkComposed {
  cr_rootfs : string; cr_kernel : string; cr_manifest : string; cr_layers : list string; cr_size : Z; cr_duration : Z }.

(* @type internal/layerbuild/composer.go BuildManifestLayer *)
Record BuildManifestLayer : Type := mkBuilt {
  bl_name : string; bl_version : string; bl_digest : string; bl_type : string; bl_applied : Z }.

(* @type internal/layerbuild/composer.go BuildManifestKernel *)
Record BuildManifestKernel : Type := mkBuiltKernel { bk_version : string; bk_cmdline : string }.

(* @type internal/layerbuild/composer.go BuildManifest *)
Record BuildManifest : Type := mkBuildManifest {
  bm_version : string; bm_name : string; bm_built : Z; bm_layers : list BuildManifestLayer; bm_kernel : BuildManifestKernel }.

Section Compose.
Context `{HL : LEnv}.

Definition enc_built (l : BuildManifestLayer) : json := enc_struct
  [ f_str "name" (bl_name l); f_str "version" (bl_version l); f_str "digest" (bl_digest l);
    f_str "type" (bl_type l); f_str "applied_at" (le_time (bl_applied l)) ].

Definition enc_build (m : BuildManifest) : json := enc_struct
  [ f_str "version" (bm_version m); f_str "name" (bm_name m); f_str "built_at" (le_time (bm_built m));
    f_any "layers" (JArr (enc_built <$> bm_layers m));
    f_any "kernel" (enc_struct [ f_str "version" (bk_version (bm_kernel m)); f_str "cmdline" (bk_cmdline (bm_kernel m)) ]) ].

(* @func internal/layerbuild/composer.go validateComposeOptions *)
Definition validateComposeOptions (opts : option ComposeOptions) : result (ComposeOptions * ImageManifest) :=
  match opts with
  | None => Err (Errorf "options cannot be nil" [])
  | Some o => match o_manifest o with None => Err (Errorf "manifest cannot be nil" []) | Some m => Ok (o, m) end
  end.

Definition command_error (format : string) (args : list arg) (name : string) (argv : list string) : LM (option error) :=
  let* ' (output, e) := run_command name argv in
  ret ((λ err, Errorf format (args ++ [AWrap err; AStr output])) <$> e).

(* @func internal/layerbuild/composer.go createExt4Filesystem *)
Definition createExt4Filesystem (path : string) (sizeMB : Z) : LM (option error) :=
  checked (command_error "dd failed: %w: %s" [] "dd" ["if=/dev/zero"; "of=" +:+ path; "bs=1M"; "count=" +:+ fmt_d sizeMB]) Some (
  command_error "mkfs.ext4 failed: %w: %s" [] "mkfs.ext4" ["-F"; path]).

(* @func internal/layerbuild/composer.go mountFilesystem *)
Definition mountFilesystem (workDir imagePath : string) : LM (result string) :=
  let* euid := fresh le_geteuid in
  if negb (euid =? 0)%Z then ret (Err (ErrorsNew errRequiresRoot))
  else
    let mountPoint := filepath_join [workDir; "mnt"] in
    checked (os_MkdirAll mountPoint perm_0755) (λ err, Err (Errorf "failed to create mount point: %w" [AWrap err])) (
    checked (command_error "mount failed: %w: %s" [] "mount" ["-o"; "loop"; imagePath; mountPoint]) Err (
    ret (Ok mountPoint))).

(** The clean-up that [mountFilesystem] returns. *)
(* @src internal/layerbuild/composer.go:305-314 mountFilesystem *)
Definition unmount (mountPoint : string) : LM unit := run_command "umount" [mountPoint] ;;; ret tt.

(* @func internal/layerbuild/composer.go extractLayer *)
Definition extractLayer (tarPath destDir : string) : LM (option error) :=
  command_error "tar extraction failed: %w: %s" [] "tar" ["-xzf"; tarPath; "-C"; destDir].

(* @func internal/layerbuild/composer.go copyLayerFiles *)
Definition copyLayerFiles (srcDir dstDir : string) : LM (option error) :=
  let* info := os_Stat srcDir in
  if (match info with Err err => os_IsNotExist err | Ok _ => false end) then ret None
  else
    let* ' (output, e) := run_command "cp" ["-a"; srcDir +:+ "/."; dstDir +:+ "/"] in
    ret match e with
    | Some err => if contains "overwrite" output then None else Some (Errorf "cp failed: %w: %s" [AWrap err; AStr output])
    | None => None
    end.

(** [fmt.Sscanf(s, "%o", &mode)]: leading blanks, the longest run of octal digits,
    32 bits; what follows is ignored. *)
Definition octal_digit (a : ascii) : bool := in_range a "0" "7".

Fixpoint octal_value (acc : Z) (s : string) : Z :=
  match s with
  | EmptyString => acc
  | String a s' => octal_value (acc * 8 + Z.of_nat (nat_of_ascii a - 48)) s'
  end.

Fixpoint skip_blanks (s : string) : string :=
  match s with
  | String a s' => if Ascii.eqb a " " || (nat_of_ascii a =? 9)%nat then skip_blanks s' else s
  | EmptyString => s
  end.

Definition scan_octal (s : string) : result Z :=
  let '(digits, _) := span octal_digit (skip_blanks s) in
  if String.eqb digits "" then Err (ErrorsNew "expected integer")
  else let v := octal_value 0 digits in
       if (2 ^ 32 <=? v)%Z then Err (ErrorsNew "unsigned integer overflow on token") else Ok v.

(** What [os.Chmod] passes on of an [os.FileMode]: the nine permission bits, and
    the set-id and sticky bits from their places at the top. *)
Definition syscall_mode (m : Z) : Z :=
  Z.lor (Z.land m 511)
    (Z.lor (if Z.testbit m 23 then 2048 else 0) (Z.lor (if Z.testbit m 22 then 1024 else 0) (if Z.testbit m 20 then 512 else 0))).

(** [None]: go on with the next file. *)
(* @src internal/layerbuild/composer.go:502-537 applyFilePermissions *)
Definition apply_file (mountPoint : string) (file : FileEntry) : LM (option error) :=
  let fullPath := filepath_join [mountPoint; fe_path file] in
  let* info := os_Stat fullPath in
  if (match info with Err err => os_IsNotExist err | Ok _ => false end) then ret None
  else
    checked (if String.eqb (fe_mode file) "" then ret None
             else match scan_octal (fe_mode file) with
             | Err err => ret (Some (Errorf "invalid mode %s for %s: %w" [AStr (fe_mode file); AStr (fe_path file); AWrap err]))
             | Ok mode =>
                 checked (os_Chmod fullPath (syscall_mode mode))
                   (λ err, Some (Errorf "failed to chmod %s: %w" [AStr (fe_path file); AWrap err])) (ret None)
             end) Some (
    if String.eqb (fe_owner file) "" then ret None
    else
      let* euid := fresh le_geteuid in
      if (euid =? 0)%Z && (length (split_on ":" (fe_owner file)) =? 2)%nat then
        command_error "failed to chown %s: %w: %s" [AStr (fe_path file)] "chown" [fe_owner file; fullPath]
      else ret None).

(* @func internal/layerbuild/composer.go applyFilePermissions *)
Definition applyFilePermissions (mountPoint : string) (files : list FileEntry) : LM (option error) :=
  for_each_err files (apply_file mountPoint).

(** A document in its directory, which is made if needed. *)
Definition write_document (path : string) (v : json) : LM (option error) :=
  checked (os_MkdirAll (filepath_dir path) perm_0755) Some (os_WriteFile path (marshal_indent 0 v) perm_0644).

(* @func internal/layerbuild/composer.go recordLayer *)
Definition recordLayer (path : string) (layer : CachedLayer) : LM (option error) :=
  write_document path (match cl_metadata layer with Some p => enc_package p | None => JNull end).

(* @func internal/layerbuild/composer.go writeBuildManifest *)
Definition writeBuildManifest (manifest : BuildManifest) (mountPoint : string) : LM (option error) :=
  write_document (filepath_join [mountPoint; "etc"; "nanofuse"; "build-manifest.json"]) (enc_build manifest).

(* @func internal/layerbuild/composer.go exportBuildManifest *)
Definition exportBuildManifest (manifest : BuildManifest) (path : string) : LM (option error) :=
  write_document path (enc_build manifest).

(* @func internal/layerbuild/composer.go copyKernel *)
Definition copyKernel (source dest : string) : LM (option error) :=
  let '(sourceType, ok) := ParseSourceType source in
  if negb ok then ret (Some (Errorf "invalid kernel source: %s" [AStr source]))
  else if bool_decide (sourceType = SourceTypeLocal) then
    command_error "failed to copy kernel: %w: %s" [] "cp" [trim_prefix "local://" source; dest]
  else ret (Some (Errorf "unsupported kernel source type: %s" [AStr (SourceType_String sourceType)])).

(** ** One layer *)

(* @src internal/layerbuild/composer.go:331-371 applyLayer *)
Definition obtain_layer (c : Composer) (layer : LayerReference) (digest : string) : LM (result CachedLayer) :=
  checked_result (Get digest) (λ err, Err (Errorf "failed to get layer from cache: %w" [AWrap err])) (λ cached,
  match cached with
  | Some cachedLayer => ret (Ok cachedLayer)
  | None =>
      let sourceType := fst (ParseSourceType (lr_source layer)) in
      match List.find (λ f, Supports f sourceType) (c_fetchers c) with
      | None => ret (Err (Errorf "no fetcher available for source type: %s" [AStr (SourceType_String sourceType)]))
      | Some f =>
          checked_result (Fetch f (lr_source layer)) (λ err, Err (Errorf "failed to fetch layer: %w" [AWrap err])) (λ cachedLayer,
          checked (Put (c_cache c) cachedLayer) (λ err, Err (Errorf "failed to cache layer: %w" [AWrap err])) (
          ret (Ok cachedLayer)))
      end
  end).

(** The key of a layer without a checksum is its name. *)
Definition cache_key (layer : LayerReference) : string :=
  if String.eqb (lr_sha256 layer) "" then lr_name layer else lr_sha256 layer.

Definition unless_dry (dry : bool) (m : LM (option error)) : LM (option error) := if dry then ret None else m.

(** The entry it adds to the build manifest. *)
(* @func internal/layerbuild/composer.go applyLayer *)
Definition applyLayer (c : Composer) (layer : LayerReference) (mountPoint : string) (he : HookExecutor)
    (opts : ComposeOptions) : LM (result BuildManifestLayer) :=
  let digest := cache_key layer in
  checked_result (obtain_layer c layer digest) Err (λ cachedLayer,
  Touch digest ;;;
  let layerExtractDir := filepath_join [c_work c; "extract"; lr_name layer] in
  checked (unless_dry (o_dry opts) (
    checked (os_MkdirAll layerExtractDir perm_0755) (λ err, Some (Errorf "failed to create extract directory: %w" [AWrap err])) (
    checked (extractLayer (cl_local_path cachedLayer) layerExtractDir)
      (λ err, Some (Errorf "failed to extract layer: %w" [AWrap err])) (ret None)))) Err (
  checked (ExecuteLayerHooks he layerExtractDir (lr_name layer) (o_env opts) "pre-install")
    (λ err, Err (Errorf "pre-install hook failed: %w" [AWrap err])) (
  checked (unless_dry (o_dry opts) (copyLayerFiles (filepath_join [layerExtractDir; "rootfs"]) mountPoint))
    (λ err, Err (Errorf "failed to copy layer files: %w" [AWrap err])) (
  checked (match cl_metadata cachedLayer with
           | Some p =>
               if negb (length (lp_files p) =? 0)%nat && negb (o_dry opts) then applyFilePermissions mountPoint (lp_files p)
               else ret None
           | None => ret None
           end) (λ err, Err (Errorf "failed to apply file permissions: %w" [AWrap err])) (
  checked (ExecuteLayerHooks he layerExtractDir (lr_name layer) (o_env opts) "post-install")
    (λ err, Err (Errorf "post-install hook failed: %w" [AWrap err])) (
  checked (unless_dry (o_dry opts)
             (recordLayer (filepath_join [mountPoint; "etc"; "nanofuse"; "layers"; lr_name layer +:+ ".json"]) cachedLayer))
    (λ err, Err (Errorf "failed to record layer: %w" [AWrap err])) (
  let* now := fresh le_now in
  ret (Ok (mkBuilt (lr_name layer) (cl_version cachedLayer) (cl_digest cachedLayer) (lr_type layer) now))))))))).

(** ** The build *)

(** The layers one after the other; a cancelled context stops between them. *)
(* @src internal/layerbuild/composer.go:179-191 Compose *)
Fixpoint apply_layers (c : Composer) (layers : list LayerReference) (mountPoint : string) (he : HookExecutor)
    (opts : ComposeOptions) (built : list BuildManifestLayer) : LM (result (list BuildManifestLayer)) :=
  match layers with
  | [] => ret (Ok built)
  | layer :: layers' =>
      checked (fresh le_done) Err (
      checked_result (applyLayer c layer mountPoint he opts)
        (λ err, Err (Errorf "failed to apply layer %s: %w" [AStr (lr_name layer); AWrap err])) (λ b,
      apply_layers c layers' mountPoint he opts (built ++ [b])))
  end.

(** What is built: validation, conditions, dependencies. *)
(* @src internal/layerbuild/composer.go:94-121 Compose *)
Definition plan_layers (m : ImageManifest) (env : gmap string string) : result (list LayerReference) :=
  match ValidateManifest m with
  | Some errs => Err (Errorf "invalid manifest: %w" [AWrap (ErrStruct "ValidationErrors" [AStr (ves_Error errs)])])
  | None =>
      match EvaluateConditions m env with
      | [] => Err (Errorf "no active layers after condition evaluation" [])
      | active =>
          match ResolveDependencies active with
          | Some (Ok layers) => Ok layers
          | Some (Err err) => Err (Errorf "failed to resolve dependencies: %w" [AWrap err])
          | None => Err (ErrorsNew "unreachable")
          end
      end
  end.

(** What is done while the image is mounted at [mountPoint]. *)
(* @src internal/layerbuild/composer.go:166-255 Compose *)
Definition build_mounted (c : Composer) (m : ImageManifest) (opts : ComposeOptions) (layers : list LayerReference)
    (startTime : Z) (rootfsPath mountPoint : string) : LM (result ComposeResult) :=
  let he := NewHookExecutor mountPoint (o_dry opts) in
  let* builtAt := fresh le_now in
  checked_result (apply_layers c layers mountPoint he opts []) Err (λ built,
  let manifest := mkBuildManifest "1.0" (im_name m) builtAt built
    (mkBuiltKernel (kc_version (im_kernel m)) (kc_cmdline (im_kernel m))) in
  let manifestPath := filepath_join [c_output c; im_name m +:+ "-build-manifest.json"] in
  checked (unless_dry (o_dry opts) (writeBuildManifest manifest mountPoint))
    (λ err, Err (Errorf "failed to write build manifest: %w" [AWrap err])) (
  checked (unless_dry (o_dry opts) (exportBuildManifest manifest manifestPath))
    (λ err, Err (Errorf "failed to export build manifest: %w" [AWrap err])) (
  let kernelPath := filepath_join [c_output c; "vmlinux"] in
  checked (unless_dry (o_dry opts) (copyKernel (kc_source (im_kernel m)) kernelPath))
    (λ err, Err (Errorf "failed to copy kernel: %w" [AWrap err])) (
  let* size := if o_dry opts then ret 0%Z else
    let* info := os_Stat rootfsPath in
    ret match info with Ok (File content _) => Z.of_nat (String.length content) | _ => 0%Z end in
  let* now := fresh le_now in
  ret (Ok (mkComposed rootfsPath kernelPath manifestPath (lr_name <$> layers) size (now - startTime))))))).

(* @func internal/layerbuild/composer.go Compose *)
Definition Compose (c : Composer) (opts : option ComposeOptions) : LM (result ComposeResult) :=
  let* startTime := fresh le_now in
  match validateComposeOptions opts with
  | Err err => ret (Err (Errorf "invalid compose options: %w" [AWrap err]))
  | Ok (opts, m) =>
      match plan_layers m (o_env opts) with
      | Err err => ret (Err err)
      | Ok layers =>
          let rootfsPath := filepath_join [c_output c; im_name m +:+ "-rootfs.ext4"] in
          checked (unless_dry (o_dry opts) (createExt4Filesystem rootfsPath (oc_size_mb (im_output m))))
            (λ err, Err (Errorf "failed to create ext4 filesystem: %w" [AWrap err])) (
          if o_dry opts then build_mounted c m opts layers startTime rootfsPath (filepath_join [c_work c; "mnt"])
          else
            checked_result (mountFilesystem (c_work c) rootfsPath) (λ err, Err (Errorf "failed to mount filesystem: %w" [AWrap err])) (λ mountPoint,
            deferred (unmount mountPoint) (build_mounted c m opts layers startTime rootfsPath mountPoint)))
      end
  end.
End Compose.
