(* ===== verification/LayerComposeSpec.v ===== *)
(** What a build guarantees: the image is unmounted on every way out, a finished
    build has applied the planned layers in order, a dry run starts no command but
    Docker's, and what it does not check. *)

From stdpp Require Import gmap.
From S2P Require Import Prelude GoStrings Paths GoNet Json Storage LayerTypes LayerManifest LayerResolve LayerEnv LayerCache LayerFetch LayerCompose.

(** * The calls a computation makes *)

Section Emits.
Context (P : call → Prop).

Definition emits {A} (m : LM A) : Prop :=
  ∀ w, ∃ new, w_calls (snd (m w)) = w_calls w ++ new ∧ Forall P new.

Lemma emits_none {A} (m : LM A) : (∀ w, w_calls (snd (m w)) = w_calls w) → emits m.
Proof. intros H w. exists []. by rewrite H, app_nil_r. Qed.

Lemma emits_ret {A} (a : A) : emits (ret a).
Proof. by apply emits_none. Qed.

Lemma emits_fresh {A} (f : nat → A) : emits (fresh f).
Proof. by apply emits_none. Qed.

Lemma emits_bind {A B} (m : LM A) (k : A → LM B) : emits m → (∀ a, emits (k a)) → emits (bind m k).
Proof.
  intros Hm Hk w. destruct (Hm w) as (n1 & E1 & H1). unfold bind. destruct (m w) as [a w1]. cbn in E1.
  destruct (Hk a w1) as (n2 & E2 & H2). exists (n1 ++ n2). rewrite E2, E1, app_assoc. split; [done|by apply Forall_app].
Qed.

Lemma emits_checked {A} (m : LM (option error)) (f : error → A) k : emits m → emits k → emits (checked m f k).
Proof. intros Hm Hk. apply emits_bind; [done|]. intros [e|]; [apply emits_ret|done]. Qed.

Lemma emits_checked_result {A B} (m : LM (result A)) (f : error → B) k :
  emits m → (∀ a, emits (k a)) → emits (checked_result m f k).
Proof. intros Hm Hk. apply emits_bind; [done|]. intros [a|e]; [done|apply emits_ret]. Qed.

Lemma emits_for_each_err {A} (l : list A) (body : A → LM (option error)) : (∀ a, emits (body a)) → emits (for_each_err l body).
Proof.
  intros Hb. induction l as [|a l IH]; cbn [for_each_err]; [apply emits_ret|].
  apply emits_bind; [done|]. intros [e|]; [apply emits_ret|done].
Qed.
End Emits.

Lemma emits_weaken (P Q : call → Prop) {A} (m : LM A) : (∀ c, P c → Q c) → emits P m → emits Q m.
Proof. intros HPQ Hm w. destruct (Hm w) as (n & E & H). exists n. split; [done|]. by eapply Forall_impl. Qed.

(** Commands of the given names, and calls of the file system. *)
Definition runs (names : list string) (c : call) : Prop :=
  match c with CRun cmd _ => cmd_name cmd ∈ names | _ => True end.

Lemma runs_weaken names names' : names ⊆ names' → ∀ c, runs names c → runs names' c.
Proof. intros Hs [] Hr; try done. by apply Hs. Qed.

Section Env.
Context `{HL : LEnv}.

Lemma emits_stat names p : emits (runs names) (os_Stat p).
Proof. by apply emits_none. Qed.
Lemma emits_read names p : emits (runs names) (os_ReadFile p).
Proof. by apply emits_none. Qed.
Lemma emits_fill names p c : emits (runs names) (os_Fill p c).
Proof. apply emits_none. intros w. unfold os_Fill. by destruct (le_fault _). Qed.
Lemma emits_db_read {A} names (f : option error → DB → A) : emits (runs names) (db_read f).
Proof. by apply emits_none. Qed.
Lemma emits_db_exec {A} names (f : option error → State DB A) : emits (runs names) (db_exec f).
Proof. apply emits_none. intros w. unfold db_exec. by destruct (f _ _). Qed.

Lemma emits_os_call names : emits (runs names) os_call.
Proof. by apply emits_none. Qed.

Lemma emits_mkdir names p mode : emits (runs names) (os_MkdirAll p mode).
Proof. intros w. exists [CMkdirAll p]. split; [|by repeat constructor]. unfold os_MkdirAll. repeat split_match; done. Qed.
Lemma emits_create names p mode : emits (runs names) (os_Create p mode).
Proof. intros w. exists [CWrite p]. split; [|by repeat constructor]. unfold os_Create. repeat split_match; done. Qed.
Lemma emits_chmod names p mode : emits (runs names) (os_Chmod p mode).
Proof. intros w. exists [CChmod p mode]. split; [|by repeat constructor]. unfold os_Chmod. repeat split_match; done. Qed.
Lemma emits_remove names p : emits (runs names) (os_Remove p).
Proof. intros w. exists [CRemove p]. split; [|by repeat constructor]. unfold os_Remove. repeat split_match; done. Qed.
Lemma emits_remove_all names p : emits (runs names) (os_RemoveAll p).
Proof. intros w. exists [CRemoveAll p]. split; [|by repeat constructor]. unfold os_RemoveAll. cbn. repeat split_match; done. Qed.
Lemma emits_sleep names d : emits (runs names) (record_call (CSleep d)).
Proof. intros w. exists [CSleep d]. split; [done|by repeat constructor]. Qed.
Lemma emits_pull names r : emits (runs names) (record_call (CPull r)).
Proof. intros w. exists [CPull r]. split; [done|by repeat constructor]. Qed.

Lemma emits_run names name args : name ∈ names → emits (runs names) (run_command name args).
Proof.
  intros Hn w. unfold run_command. destruct (le_command _ _ _) as [[e out] fs]. eexists. split; [done|].
  by repeat constructor.
Qed.

Lemma emits_command_error names f args name argv : name ∈ names → emits (runs names) (command_error f args name argv).
Proof. intros Hn. apply emits_bind; [by apply emits_run|]. intros []. apply emits_ret. Qed.

Lemma emits_run_hook names root script env : "chroot" ∈ names → emits (runs names) (run_hook root script env).
Proof. intros Hn w. unfold run_hook. destruct (le_hook _ _ _ _) as [o fs]. eexists. split; [done|]. by repeat constructor. Qed.

Lemma emits_start_touch names d : emits (runs names) (start_touch d).
Proof. by apply emits_none. Qed.
End Env.

#[local] Hint Resolve emits_ret emits_fresh emits_stat emits_read emits_fill emits_db_read emits_db_exec emits_mkdir
  emits_create emits_chmod emits_remove emits_remove_all emits_sleep emits_pull emits_start_touch emits_os_call : go.

Create HintDb emits.

Ltac list_member := apply (bool_decide_unpack _); vm_compute; exact I.

(** Follow the structure of a computation. *)
Ltac solve_emits :=
  repeat first
    [ solve [auto with go]
    | solve [apply emits_run; list_member] | solve [apply emits_command_error; list_member]
    | solve [apply emits_run_hook; list_member]
    | solve [eauto with emits]
    | apply emits_checked | apply emits_checked_result | apply emits_for_each_err | apply emits_bind
    | match goal with
      | |- ∀ _, _ => intros ?
      | |- emits _ (match ?x with _ => _ end) => destruct x
      | |- emits _ (let '(_, _) := ?x in _) => destruct x
      end ].


(** ** The cache and the fetchers *)

Section Parts.
Context `{HL : LEnv}.

Lemma emits_Get names d : emits (runs names) (Get d).
Proof. unfold Get. solve_emits. Qed.

Lemma emits_Touch names d : emits (runs names) (Touch d).
Proof. unfold Touch. solve_emits. Qed.

Lemma emits_Put names c l : emits (runs names) (Put c l).
Proof. unfold Put, copy_tarball, os_Open. solve_emits. Qed.

Lemma emits_extract_entries names d es f : emits (runs names) (extract_entries d es f).
Proof.
  induction es as [|e es IH]; cbn [extract_entries]; [apply emits_ret|].
  destruct (entry_target _ _) as [[t|]|]; [|done|apply emits_ret].
  apply emits_bind; [|intros []; [apply emits_ret|done]]. unfold extract_entry. solve_emits.
Qed.

Lemma emits_extract names p d : emits (runs names) (extractTarball p d).
Proof.
  unfold extractTarball. apply emits_checked_result; [auto with go|]. intros data.
  destruct (le_untar _ _) as [[es f]|]; [apply emits_extract_entries|apply emits_ret].
Qed.

Lemma emits_digest names p : emits (runs names) (calculateDigest p).
Proof. unfold calculateDigest. solve_emits. Qed.

Lemma emits_metadata names p : emits (runs names) (readLayerMetadata p).
Proof. unfold readLayerMetadata. solve_emits. Qed.

Hint Resolve emits_extract emits_digest emits_metadata : emits.

Lemma emits_inspect_tarball names p d : emits (runs names) (inspect_tarball p d).
Proof. unfold inspect_tarball, digest_of. solve_emits. Qed.

Hint Resolve emits_inspect_tarball : emits.

Lemma emits_pack names l e acc : emits (runs names) (pack_entries l e acc).
Proof.
  revert acc. induction l as [|x l IH]; intros acc; cbn [pack_entries]; [apply emits_ret|].
  destruct (String.eqb _ _); [done|]. apply emits_checked; [auto with go|]. destruct (we_dir x); [done|].
  destruct (we_open x); [|apply emits_ret]. destruct (_ <? _)%Z; [apply emits_ret|]. apply emits_checked; [auto with go|done].
Qed.

Hint Resolve emits_pack : emits.

Lemma emits_walk names (f : nat → list walk_entry * option error) : emits (runs names) (fresh f).
Proof. apply emits_fresh. Qed.

Lemma emits_createTarball names s d : emits (runs names) (createTarball s d).
Proof.
  unfold createTarball. apply emits_checked; [auto with go|]. apply emits_bind; [by apply emits_none|]. intros a.
  apply emits_bind; [apply emits_pack|]. solve_emits.
Qed.

Hint Resolve emits_createTarball : emits.

Lemma emits_ToCachedLayer names fr s : emits (runs names) (ToCachedLayer fr s).
Proof. unfold ToCachedLayer. solve_emits. Qed.

Hint Resolve emits_ToCachedLayer : emits.

Lemma emits_attempts names n ref max s b e : emits (runs names) (attempts n ref max s b e).
Proof.
  revert s b e. induction n as [|n IH]; intros s b e; cbn [attempts]; [apply emits_ret|].
  apply emits_bind; [unfold wait; destruct s; auto with go|]. intros _. apply emits_bind; [auto with go|]. intros _.
  apply emits_bind; [by apply emits_none|]. intros [img|err]; [apply emits_ret|].
  destruct (isRateLimitError err); [done|apply emits_ret].
Qed.

Lemma emits_copy_entries names i es f acc : emits (runs names) (copy_entries i es f acc).
Proof. revert acc. induction es as [|e es IH]; intros acc; cbn [copy_entries]; solve_emits; apply IH. Qed.

Lemma emits_copy_layers names i ls acc : emits (runs names) (copy_layers i ls acc).
Proof.
  revert i acc. induction ls as [|[[es f]|] ls IH]; intros i acc; cbn [copy_layers]; [apply emits_ret| |apply emits_ret].
  apply emits_checked_result; [apply emits_copy_entries|]. intros a. apply IH.
Qed.

Hint Resolve emits_attempts emits_copy_layers : emits.

Lemma emits_Fetch f s : emits (runs ["docker"]) (Fetch f s).
Proof.
  destruct f as [d|d|r]; cbn [Fetch].
  - unfold LocalFetcher_Fetch, fetched, fetchFromDirectory, fetchFromTarball, in_temp_dir, deferred, digest_of. solve_emits.
  - unfold DockerFetcher_Fetch, fetched, in_temp_dir, deferred. solve_emits.
  - unfold RegistryFetcher_Fetch, fetched, deferred, fetchWithRetry, write_tarball, inspect_image. solve_emits.
Qed.

Lemma emits_obtain c l d : emits (runs ["docker"]) (obtain_layer c l d).
Proof.
  unfold obtain_layer. apply emits_checked_result; [apply emits_Get|]. intros [x|]; [apply emits_ret|].
  destruct (List.find _ _) as [f|]; [|apply emits_ret].
  apply emits_checked_result; [apply emits_Fetch|]. intros x. apply emits_checked; [apply emits_Put|apply emits_ret].
Qed.

(** ** Hooks and layers *)

Lemma emits_hooks_dry names root t lp ln env ph : emits (runs names) (ExecuteLayerHooks (mkHook root true t) lp ln env ph).
Proof.
  unfold ExecuteLayerHooks, findHookScript, Execute, validateHookScript, os_Open. cbn [he_root he_dry he_timeout]. solve_emits.
Qed.

Lemma emits_hooks he lp ln env ph : emits (runs ["chroot"]) (ExecuteLayerHooks he lp ln env ph).
Proof.
  unfold ExecuteLayerHooks, findHookScript, Execute, validateHookScript, copyFile, os_Open. solve_emits.
Qed.

Lemma emits_permissions mp fs : emits (runs ["chown"]) (applyFilePermissions mp fs).
Proof. unfold applyFilePermissions, apply_file. solve_emits. Qed.

Lemma emits_document names p v : emits (runs names) (write_document p v).
Proof. unfold write_document, os_WriteFile. solve_emits. Qed.
End Parts.

(** * Mounting *)

Definition build_commands : list string := ["docker"; "tar"; "cp"; "chroot"; "chown"].

Definition mount_free (c : call) : Prop :=
  match c with CRun cmd _ => cmd_name cmd ≠ "mount" ∧ cmd_name cmd ≠ "umount" | _ => True end.

(** No mount succeeded, and nothing was unmounted. *)
Definition not_mounted (c : call) : Prop :=
  match c with CRun cmd ok => (cmd_name cmd = "mount" → ok = false) ∧ cmd_name cmd ≠ "umount" | _ => True end.

Lemma build_mount_free c : runs build_commands c → mount_free c.
Proof.
  destruct c; try done. cbn. intros Hin. split; intros E; rewrite E in Hin; revert Hin; apply (bool_decide_unpack _); vm_compute; exact I.
Qed.

Lemma mount_free_not_mounted c : mount_free c → not_mounted c.
Proof. destruct c; try done. cbn. naive_solver. Qed.

Section Build.
Context `{HL : LEnv}.

Lemma emits_sub {A} names names' (m : LM A) :
  bool_decide (names ⊆ names') = true → emits (runs names) m → emits (runs names') m.
Proof. intros Hs. apply emits_weaken, runs_weaken. by apply bool_decide_eq_true in Hs. Qed.

Ltac part L := eapply emits_sub; [|apply L]; vm_compute; reflexivity.

(** After the layer is obtained: what touches the image. *)
Lemma emits_applyLayer c l mp he o : emits (runs build_commands) (applyLayer c l mp he o).
Proof.
  unfold applyLayer. apply emits_checked_result; [part emits_obtain|]. intros x.
  apply emits_bind; [apply emits_Touch|]. intros _.
  apply emits_checked; [unfold unless_dry, extractLayer; solve_emits|].
  apply emits_checked; [part emits_hooks|].
  apply emits_checked; [unfold unless_dry, copyLayerFiles; solve_emits|].
  apply emits_checked; [destruct (cl_metadata x); [|apply emits_ret]; destruct (_ && _); [part emits_permissions|apply emits_ret]|].
  apply emits_checked; [part emits_hooks|].
  apply emits_checked; [unfold unless_dry, recordLayer; destruct (o_dry o); [apply emits_ret|apply emits_document]|].
  solve_emits.
Qed.

Lemma emits_apply_layers c ls mp he o built : emits (runs build_commands) (apply_layers c ls mp he o built).
Proof.
  revert built. induction ls as [|l ls IH]; intros built; cbn [apply_layers]; [apply emits_ret|].
  apply emits_checked; [auto with go|]. apply emits_checked_result; [apply emits_applyLayer|]. intros b. apply IH.
Qed.

Lemma emits_build_mounted c m o ls t r mp : emits (runs build_commands) (build_mounted c m o ls t r mp).
Proof.
  unfold build_mounted. apply emits_bind; [auto with go|]. intros now.
  apply emits_checked_result; [apply emits_apply_layers|]. intros built.
  apply emits_checked; [unfold unless_dry; destruct (o_dry o); [apply emits_ret|apply emits_document]|].
  apply emits_checked; [unfold unless_dry; destruct (o_dry o); [apply emits_ret|apply emits_document]|].
  apply emits_checked; [unfold unless_dry, copyKernel; solve_emits|]. solve_emits.
Qed.

(** The mount succeeded as the last call, or no mount did. *)
Lemma mountFilesystem_calls work img w :
  let '(r, w') := mountFilesystem work img w in
  ∃ new, w_calls w' = w_calls w ++ new ∧
    match r with
    | Ok mp => mp = filepath_join [work; "mnt"] ∧ ∃ pre, new = pre ++ [CRun (Cmd "mount" ["-o"; "loop"; img; mp]) true] ∧ Forall mount_free pre
    | Err _ => Forall not_mounted new
    end.
Proof.
  unfold mountFilesystem. rewrite bind_unfold. cbn [fresh]. destruct (negb _).
  { exists []. cbn. rewrite app_nil_r. split; [done|constructor]. }
  set (mp := filepath_join [work; "mnt"]). unfold checked at 1. rewrite bind_unfold.
  destruct (os_MkdirAll mp perm_0755 (tick w)) as [e w1] eqn:E1.
  destruct (emits_mkdir [] mp perm_0755 (tick w)) as (n1 & H1 & F1). rewrite E1 in H1. cbn in H1.
  assert (Forall mount_free n1) as Fm by (eapply Forall_impl; [exact F1|]; intros [] Hr; try done; by apply elem_of_nil in Hr).
  destruct e as [e|].
  { exists n1. split; [done|]. eapply Forall_impl; [exact Fm|]. apply mount_free_not_mounted. }
  unfold checked, command_error. rewrite !bind_unfold. unfold run_command.
  destruct (le_command _ _ _) as [[e out] fs]. cbn. destruct e as [e|]; cbn.
  - eexists. rewrite H1, <- app_assoc. split; [done|]. apply Forall_app. split.
    + eapply Forall_impl; [exact Fm|]. apply mount_free_not_mounted.
    + by repeat constructor.
  - eexists. rewrite H1, <- app_assoc. split; [done|]. split; [done|]. by exists n1.
Qed.

Lemma emits_ext4 path mb : emits mount_free (createExt4Filesystem path mb).
Proof.
  eapply (emits_weaken (runs ["dd"; "mkfs.ext4"])).
  - intros [] Hr; try done. cbn in *. split; intros E; rewrite E in Hr; revert Hr; apply (bool_decide_unpack _); vm_compute; exact I.
  - unfold createExt4Filesystem. solve_emits.
Qed.

(** At most one mount succeeds, and what is mounted is unmounted in the end. *)
Definition mount_protocol (mnt : string) (new : list call) : Prop :=
  Forall not_mounted new ∨
  ∃ pre img mid ok,
    new = pre ++ [CRun (Cmd "mount" ["-o"; "loop"; img; mnt]) true] ++ mid ++ [CRun (Cmd "umount" [mnt]) ok] ∧
    Forall mount_free pre ∧ Forall mount_free mid.

Lemma protocol_free mnt new : Forall mount_free new → mount_protocol mnt new.
Proof. intros H. left. eapply Forall_impl; [exact H|]. apply mount_free_not_mounted. Qed.

Lemma emits_build_free c m o ls t r mp : emits mount_free (build_mounted c m o ls t r mp).
Proof. eapply emits_weaken; [apply build_mount_free|apply emits_build_mounted]. Qed.

Lemma mounted_protocol c m o ls t r w :
  ∃ new, w_calls (snd (checked_result (mountFilesystem (c_work c) r) (λ err, Err (Errorf "failed to mount filesystem: %w" [AWrap err]))
      (λ mp, deferred (unmount mp) (build_mounted c m o ls t r mp)) w)) = w_calls w ++ new ∧
    mount_protocol (filepath_join [c_work c; "mnt"]) new.
Proof.
  unfold checked_result. rewrite bind_unfold. pose proof (mountFilesystem_calls (c_work c) r w) as H.
  destruct (mountFilesystem _ _ _) as [[mp|err] w1]; destruct H as (n1 & E1 & H).
  - destruct H as (-> & pre & -> & Hpre). set (mp := filepath_join _) in *. unfold deferred. rewrite bind_unfold.
    destruct (emits_build_free c m o ls t r mp w1) as (mid & E2 & Hmid). destruct (build_mounted _ _ _ _ _ _ _ w1) as [a w2].
    cbn in E2. rewrite bind_unfold. unfold unmount. rewrite bind_unfold. unfold run_command.
    destruct (le_command _ _ _) as [[e out] fs]. cbn. eexists. rewrite E2, E1, <- !app_assoc. split; [done|].
    right. exists pre, r, mid, (bool_decide (e = None)). split_and!; [|done|done]. by rewrite <- ?app_assoc.
  - exists n1. split; [done|]. by left.
Qed.

(** C15: a build that mounted its image unmounts it, as its last act, whatever
    happens in between; a build in which no mount succeeded unmounts nothing; and
    nothing else is mounted or unmounted. *)
Theorem Compose_unmounts (c : Composer) (opts : option ComposeOptions) (w : LWorld) :
  ∃ new, w_calls (snd (Compose c opts w)) = w_calls w ++ new ∧ mount_protocol (filepath_join [c_work c; "mnt"]) new.
Proof.
  assert (Hnone : ∀ w', w_calls w' = w_calls w → ∃ new, w_calls w' = w_calls w ++ new ∧ mount_protocol (filepath_join [c_work c; "mnt"]) new)
    by (intros w' E; exists []; rewrite app_nil_r; split; [done|by left]).
  unfold Compose. rewrite bind_unfold. cbn [fresh].
  destruct (validateComposeOptions opts) as [[o m]|e]; [|by apply Hnone].
  destruct (plan_layers m (o_env o)) as [ls|e]; [|by apply Hnone].
  set (r := filepath_join _). set (mp := filepath_join _). unfold checked. rewrite bind_unfold.
  assert (emits mount_free (unless_dry (o_dry o) (createExt4Filesystem r (oc_size_mb (im_output m))))) as Hext
    by (unfold unless_dry; destruct (o_dry o); [apply emits_ret|apply emits_ext4]).
  destruct (Hext (tick w)) as (n1 & E1 & H1). destruct (unless_dry _ _ _) as [[e|] w1]; cbn in E1.
  { exists n1. split; [done|by apply protocol_free]. }
  destruct (o_dry o).
  - destruct (emits_build_free c m o ls (le_now (w_tick w)) r mp w1) as (n2 & E2 & H2). exists (n1 ++ n2).
    rewrite E2, E1, app_assoc. split; [done|]. apply protocol_free, Forall_app. done.
  - destruct (mounted_protocol c m o ls (le_now (w_tick w)) r w1) as (n2 & E2 & H2). exists (n1 ++ n2).
    rewrite E2, E1, app_assoc. split; [done|]. destruct H2 as [H2|(pre & img & mid & ok & -> & Hp & Hm)].
    + left. apply Forall_app. split; [|done]. eapply Forall_impl; [exact H1|]. apply mount_free_not_mounted.
    + right. exists (n1 ++ pre), img, mid, ok. rewrite <- app_assoc. split; [done|]. split; [by apply Forall_app|done].
Qed.

(** * What is applied *)

(** The archive a call extracts, and the directory it extracts it to. *)
Definition extracted (c : call) : option (string * string) :=
  match c with
  | CRun cmd true =>
      if String.eqb (cmd_name cmd) "tar" then
        match cmd_args cmd with ["-xzf"; archive; "-C"; dir] => Some (archive, dir) | _ => None end
      else None
  | _ => None
  end.

Lemma omap_extracted_none names new :
  bool_decide ("tar" ∈ names) = false → Forall (runs names) new → omap extracted new = [].
Proof.
  intros Hn%bool_decide_eq_false. induction 1 as [|x l Hx _ IH]; [done|]. cbn [omap list_omap].
  assert (extracted x = None) as ->; [|done]. destruct x as [cmd ok| | | | | | |]; try done. cbn in *.
  destruct ok; [|done]. destruct (String.eqb_spec (cmd_name cmd) "tar") as [E|]; [|done]. by rewrite E in Hx.
Qed.

(** A computation that extracts nothing. *)
Lemma emits_extracts_none {A} names (m : LM A) w :
  bool_decide ("tar" ∈ names) = false → emits (runs names) m →
  ∃ new, w_calls (snd (m w)) = w_calls w ++ new ∧ omap extracted new = [].
Proof. intros Hn Hm. destruct (Hm w) as (new & E & H). exists new. split; [done|]. by eapply omap_extracted_none. Qed.

Definition layer_dir (c : Composer) (l : LayerReference) : string := filepath_join [c_work c; "extract"; lr_name l].

(** Where a build that looks for the layer [l] in the world [w] finds it: in the
    cache under the layer's key, or else at its source, through the first fetcher
    for sources of that kind. *)
Definition found_layer (c : Composer) (l : LayerReference) (w : LWorld) (x : CachedLayer) : Prop :=
  let '(cached, w1) := Get (cache_key l) w in
  cached = Ok (Some x) ∨
  cached = Ok None ∧ ∃ f, List.find (λ f, Supports f (fst (ParseSourceType (lr_source l)))) (c_fetchers c) = Some f ∧
    fst (Fetch f (lr_source l) w1) = Ok x.

(** The extraction of the layer [l], looked for in the world [wl]: to its
    directory, from the archive found. *)
Definition extraction_of (c : Composer) (lw : LayerReference * LWorld) (e : string * string) : Prop :=
  snd e = layer_dir c (fst lw) ∧ ∃ x, found_layer c (fst lw) (snd lw) x ∧ fst e = cl_local_path x.

Definition no_error {A} (r : result A) : Prop := ∃ a, r = Ok a.

(** [m], started in [w], succeeds only by extracting the items [xs w], in order;
    [rel] says what the extraction of an item is. *)
Section Extracts.
Context {X : Type} (rel : X → string * string → Prop).

Definition extracts {A} (ok : A → Prop) (xs : LWorld → list X) (m : LM A) : Prop :=
  ∀ w, let '(a, w') := m w in
    ok a → ∃ new, w_calls w' = w_calls w ++ new ∧ Forall2 rel (xs w) (omap extracted new).

Lemma extracts_quiet {A} ok names (m : LM A) :
  bool_decide ("tar" ∈ names) = false → emits (runs names) m → extracts ok (λ _, []) m.
Proof.
  intros Hn Hm w. destruct (emits_extracts_none names m w Hn Hm) as (new & E & H). destruct (m w). intros _.
  exists new. split; [done|]. rewrite H. constructor.
Qed.

Lemma extracts_bind {A B} ok1 (ok2 : B → Prop) x1 x2 (m : LM A) k :
  extracts ok1 x1 m → (∀ a, ok1 a → extracts ok2 x2 (k a)) → (∀ a w, ¬ ok1 a → ¬ ok2 (fst (k a w))) → (∀ a, ok1 a ∨ ¬ ok1 a) →
  extracts ok2 (λ w, x1 w ++ x2 (snd (m w))) (bind m k).
Proof.
  intros Hm Hk Hbad Hdec w. unfold bind. specialize (Hm w). destruct (m w) as [a w1].
  destruct (Hdec a) as [Ha|Ha].
  - specialize (Hm Ha) as (n1 & E1 & H1). specialize (Hk a Ha w1). destruct (k a w1) as [b w2]. intros Hb.
    destruct (Hk Hb) as (n2 & E2 & H2). exists (n1 ++ n2). rewrite E2, E1, app_assoc. split; [done|].
    rewrite omap_app. by apply Forall2_app.
  - specialize (Hbad a w1 Ha). destruct (k a w1) as [b w2]. intros Hb. by destruct Hbad.
Qed.

Lemma extracts_checked {A} x1 x2 (m : LM (option error)) f (k : LM (result A)) :
  extracts (λ e, e = None) x1 m → extracts no_error x2 k → (∀ e, ¬ no_error (f e)) →
  extracts no_error (λ w, x1 w ++ x2 (snd (m w))) (checked m f k).
Proof.
  intros Hm Hk Hf. apply (extracts_bind (λ e, e = None)); [done| | |].
  - by intros ? ->.
  - intros [e|] w; [|by intros []]. intros _. apply Hf.
  - intros [e|]; [by right|by left].
Qed.

Lemma extracts_checked_result {A B} x1 x2 (m : LM (result A)) f (k : A → LM (result B)) :
  extracts no_error x1 m → (∀ a, extracts no_error x2 (k a)) → (∀ e, ¬ no_error (f e)) →
  extracts no_error (λ w, x1 w ++ x2 (snd (m w))) (checked_result m f k).
Proof.
  intros Hm Hk Hf. apply (extracts_bind no_error); [done| | |].
  - by intros ? [a ->].
  - intros [a|e] w; [intros []; by exists a|]. intros _. apply Hf.
  - intros [a|e]; [left; by exists a|right; by intros []].
Qed.
End Extracts.

(** The archive and the directory themselves. *)
Definition exactly (x e : string * string) : Prop := e = x.

Lemma no_error_Err {A} (e : error) : ¬ no_error (A := A) (Err e).
Proof. by intros []. Qed.

Hint Resolve no_error_Err : go.

Ltac quiet names L := eapply (extracts_quiet _ _ names); [vm_compute; reflexivity|L].

(** The layer obtained is the one found. *)
Lemma obtain_found c l w x :
  fst (obtain_layer c l (cache_key l) w) = Ok x → found_layer c l w x.
Proof.
  unfold obtain_layer, found_layer, checked_result. rewrite bind_unfold.
  destruct (Get (cache_key l) w) as [[[y|]|e] w1]; [intros [= <-]; by left| |done].
  destruct (List.find _ _) as [f|] eqn:Ef; [|done].
  rewrite bind_unfold. destruct (Fetch f (lr_source l) w1) as [[y|e] w2] eqn:E; [|done].
  unfold checked. rewrite bind_unfold. destruct (Put (c_cache c) y w2) as [[e|] w3]; [done|]. intros [= <-].
  right. split; [done|]. exists f. by rewrite E.
Qed.

Ltac step names L := apply (extracts_checked exactly (λ _, []) (λ _, [])); [quiet names L| |auto with go].

Lemma extracts_tar archive dir w :
  fst (extractLayer archive dir w) = None →
  ∃ new, w_calls (snd (extractLayer archive dir w)) = w_calls w ++ new ∧ omap extracted new = [(archive, dir)].
Proof.
  unfold extractLayer, command_error. rewrite bind_unfold. unfold run_command.
  destruct (le_command _ _ _) as [[[e|] out] fs]; [done|]. intros _. eexists. by split.
Qed.

Lemma extracts_unpack archive dir (f g : error → option error) :
  (∀ e, is_Some (f e)) → (∀ e, is_Some (g e)) →
  extracts exactly (λ e, e = None) (λ _, [(archive, dir)])
    (checked (os_MkdirAll dir perm_0755) f (checked (extractLayer archive dir) g (ret None))).
Proof.
  intros Hf Hg w. unfold checked at 1. rewrite bind_unfold. destruct (os_MkdirAll dir perm_0755 w) as [e w1] eqn:E1.
  destruct (emits_extracts_none [] (os_MkdirAll dir perm_0755) w eq_refl (emits_mkdir _ _ _)) as (n1 & H1 & F1).
  rewrite E1 in H1. cbn [snd] in H1. destruct e as [e|]; [intros H; by destruct (Hf e) as [? E]; cbn in H; rewrite E in H|].
  unfold checked. rewrite bind_unfold. pose proof (extracts_tar archive dir w1) as Ht.
  destruct (extractLayer archive dir w1) as [[e|] w2]; cbn [fst snd ret] in *.
  - intros H. by destruct (Hg e) as [? E]; rewrite E in H.
  - intros _. destruct (Ht eq_refl) as (n2 & H2 & F2). exists (n1 ++ n2). rewrite H2, H1, app_assoc. split; [done|].
    rewrite omap_app, F1, F2. by repeat constructor.
Qed.

Lemma extracts_applyLayer c l mp he o :
  o_dry o = false → extracts (extraction_of c) no_error (λ w, [(l, w)]) (applyLayer c l mp he o).
Proof.
  intros Hdry. unfold applyLayer, unless_dry. rewrite Hdry. fold (layer_dir c l).
  match goal with |- extracts _ _ _ (checked_result _ _ ?k) => set (rest := k) end.
  assert (Hrest : ∀ x, extracts exactly no_error (λ _, [(cl_local_path x, layer_dir c l)]) (rest x)).
  { intros x. unfold rest. apply (extracts_bind exactly (λ _, True) _ (λ _, []) (λ _, [_]));
      [quiet (@nil string) ltac:(apply emits_Touch)| |naive_solver|by left]. intros _ _.
    apply (extracts_checked exactly (λ _, [_]) (λ _, [])); [by apply extracts_unpack; eauto| |auto with go].
    step ["chroot"] ltac:(apply emits_hooks). step ["cp"] ltac:(unfold copyLayerFiles; solve_emits).
    step ["chown"] ltac:(destruct (cl_metadata x); [destruct (_ && _); [apply emits_permissions|apply emits_ret]|apply emits_ret]).
    step ["chroot"] ltac:(apply emits_hooks). step (@nil string) ltac:(apply emits_document).
    quiet (@nil string) ltac:(solve_emits). }
  clearbody rest. intros w. unfold checked_result. rewrite bind_unfold. pose proof (obtain_found c l w) as Hfound.
  pose proof (emits_obtain c l (cache_key l) w) as (n1 & E1 & F1).
  apply (omap_extracted_none ["docker"]) in F1; [|vm_compute; reflexivity].
  destruct (obtain_layer c l (cache_key l) w) as [[x|e] w1]; cbn [fst snd] in *; [|by intros []].
  specialize (Hfound x eq_refl). specialize (Hrest x w1). destruct (rest x w1) as [r w2]. intros Hr.
  destruct (Hrest Hr) as (n2 & E2 & H2). exists (n1 ++ n2). rewrite E2, E1, app_assoc. split; [done|].
  rewrite omap_app, F1. apply Forall2_cons_inv_l in H2 as (e & l' & He & Hl' & E). apply Forall2_nil_inv_l in Hl' as ->.
  rewrite E. constructor; [|constructor]. unfold exactly in He. subst e. split; [done|]. by exists x.
Qed.

(** Each layer with the world in which its turn comes. *)
Fixpoint layer_starts (c : Composer) (mp : string) (he : HookExecutor) (o : ComposeOptions) (ls : list LayerReference) (w : LWorld) :
    list (LayerReference * LWorld) :=
  match ls with
  | [] => []
  | l :: ls =>
      let w1 := snd (fresh le_done w) in
      (l, w1) :: layer_starts c mp he o ls (snd (applyLayer c l mp he o w1))
  end.

Lemma extracts_apply_layers c ls mp he o built :
  o_dry o = false → extracts (extraction_of c) no_error (layer_starts c mp he o ls) (apply_layers c ls mp he o built).
Proof.
  intros Hdry. revert built. induction ls as [|l ls IH]; intros built; cbn [apply_layers].
  - quiet (@nil string) ltac:(apply emits_ret).
  - apply (extracts_checked _ (λ _, []) (λ w1, (l, w1) :: layer_starts c mp he o ls (snd (applyLayer c l mp he o w1))));
      [quiet (@nil string) ltac:(apply emits_fresh)| |auto with go].
    apply (extracts_checked_result _ (λ w1, [(l, w1)]) (layer_starts c mp he o ls)); [by apply extracts_applyLayer| |auto with go].
    intros b. apply IH.
Qed.

Lemma extracts_build_mounted c m o ls t r mp :
  o_dry o = false → extracts (extraction_of c) no_error
    (λ w, layer_starts c mp (NewHookExecutor mp false) o ls (snd (fresh le_now w))) (build_mounted c m o ls t r mp).
Proof.
  intros Hdry. unfold build_mounted, unless_dry. rewrite Hdry. set (he := NewHookExecutor mp false).
  apply (extracts_bind _ (λ _ : Z, True) _ (λ _, []) (layer_starts c mp he o ls));
    [quiet (@nil string) ltac:(apply emits_fresh)| |naive_solver|by left].
  intros now _. intros w. rewrite <- (app_nil_r (layer_starts c mp he o ls w)). revert w.
  apply (extracts_checked_result _ (layer_starts c mp he o ls) (λ _, [])); [by apply extracts_apply_layers| |auto with go]. intros built.
  quiet ["cp"] ltac:(unfold writeBuildManifest, exportBuildManifest, write_document, os_WriteFile, copyKernel; solve_emits).
Qed.

Lemma checked_Ok {A} (m : LM (option error)) f (k : LM (result A)) w a :
  (∀ e, ¬ no_error (f e)) → fst (checked m f k w) = Ok a → ∃ w', fst (k w') = Ok a.
Proof.
  intros Hf. unfold checked. rewrite bind_unfold. destruct (m w) as [[e|] w1]; [|by eauto].
  cbn. intros E. destruct (Hf e). by exists a.
Qed.

Lemma checked_result_Ok {A B} (m : LM (result A)) f (k : A → LM (result B)) w b :
  (∀ e, ¬ no_error (f e)) → fst (checked_result m f k w) = Ok b → ∃ a w', fst (k a w') = Ok b.
Proof.
  intros Hf. unfold checked_result. rewrite bind_unfold. destruct (m w) as [[a|e] w1]; [by eauto|].
  cbn. intros E. destruct (Hf e). by exists b.
Qed.

Lemma build_mounted_layers c m o ls t r mp w res :
  fst (build_mounted c m o ls t r mp w) = Ok res → cr_layers res = lr_name <$> ls.
Proof.
  unfold build_mounted. rewrite bind_unfold. cbn [fresh]. intros H.
  apply checked_result_Ok in H as (built & w1 & H); [|auto with go].
  do 3 (apply checked_Ok in H as [? H]; [|auto with go]).
  rewrite bind_unfold in H. destruct (o_dry o); [|rewrite bind_unfold in H; destruct (os_Stat r _)];
    cbn in H; by injection H as <-.
Qed.

Lemma plan_layers_order m env ls :
  NoDup (lr_name <$> EvaluateConditions m env) → plan_layers m env = Ok ls →
  ls ≡ₚ EvaluateConditions m env ∧ dep_order ls.
Proof.
  intros Hn. unfold plan_layers. destruct (ValidateManifest m); [done|].
  pose proof (resolve_correct _ Hn) as Hr. destruct (EvaluateConditions m env) as [|l active]; [done|].
  destruct (ResolveDependencies _) as [[sorted|]|]; [|done..]. intros [= <-]. exact Hr.
Qed.

Lemma deferred_result {A} cleanup (m : LM A) w : fst (deferred cleanup m w) = fst (m w).
Proof. unfold deferred. rewrite bind_unfold. destruct (m w) as [a w1]. rewrite bind_unfold. by destruct (cleanup w1). Qed.

Lemma extracts_deferred {A} c names xs cleanup (m : LM (result A)) :
  bool_decide ("tar" ∈ names) = false → emits (runs names) cleanup → extracts (extraction_of c) no_error xs m →
  extracts (extraction_of c) no_error xs (deferred cleanup m).
Proof.
  intros Hn Hc Hm. unfold deferred. intros w. rewrite <- (app_nil_r (xs w)). revert w.
  apply (extracts_bind _ no_error _ xs (λ _, [])); [done| | |].
  - intros a Ha. apply (extracts_bind _ (λ _ : unit, True) _ (λ _, []) (λ _, []));
      [by apply (extracts_quiet _ _ names)| |naive_solver|by left].
    intros _ _. quiet (@nil string) ltac:(apply emits_ret).
  - intros a w Ha. rewrite bind_unfold. by destruct (cleanup w).
  - intros [a|e]; [left; by exists a|right; by intros []].
Qed.

Lemma emits_mount work img : emits (runs ["mount"]) (mountFilesystem work img).
Proof. unfold mountFilesystem. solve_emits. Qed.

Lemma emits_mkimage path size : emits (runs ["dd"; "mkfs.ext4"]) (createExt4Filesystem path size).
Proof. unfold createExt4Filesystem. solve_emits. Qed.

(** What a build does before it comes to the layers, when nothing of it fails: the
    clock is read, the image is made, and it is mounted. *)
Definition make_image (c : Composer) (m : ImageManifest) : LM (result string) :=
  let rootfsPath := filepath_join [c_output c; im_name m +:+ "-rootfs.ext4"] in
  fresh le_now ;;; createExt4Filesystem rootfsPath (oc_size_mb (im_output m)) ;;; mountFilesystem (c_work c) rootfsPath.

(** A build whose layers are planned. *)
Lemma compose_success c o m ls w res :
  o_manifest o = Some m → o_dry o = false → plan_layers m (o_env o) = Ok ls → fst (Compose c (Some o) w) = Ok res →
  cr_layers res = lr_name <$> ls ∧
  ∃ mp w0 new, make_image c m w = (Ok mp, w0) ∧ w_calls (snd (Compose c (Some o) w)) = w_calls w ++ new ∧
    Forall2 (extraction_of c) (layer_starts c mp (NewHookExecutor mp false) o ls (snd (fresh le_now w0))) (omap extracted new).
Proof.
  intros Hm Hdry Hp. unfold Compose, make_image. cbn [validateComposeOptions]. rewrite Hm, Hp, Hdry. cbn [unless_dry].
  set (img := filepath_join [c_output c; _]). rewrite !bind_unfold. destruct (fresh le_now w) as [t w1] eqn:Ef.
  assert (Ew : w_calls w1 = w_calls w) by (by injection Ef as _ <-). rewrite bind_unfold.
  unfold checked, checked_result. rewrite !bind_unfold.
  pose proof (emits_mkimage img (oc_size_mb (im_output m)) w1) as (n1 & E1 & F1).
  destruct (createExt4Filesystem img (oc_size_mb (im_output m)) w1) as [[e|] w2]; [done|]. cbn [snd] in E1.
  rewrite !bind_unfold.
  destruct (emits_mount (c_work c) img w2) as (n2 & E2 & F2). destruct (mountFilesystem (c_work c) img w2) as [[mp|e] w3]; [|done]. cbn [snd] in E2.
  intros Hok. split.
  { rewrite deferred_result in Hok. by eapply build_mounted_layers. }
  pose proof (extracts_deferred c ["umount"] _ (unmount mp) _ eq_refl ltac:(unfold unmount; solve_emits)
    (extracts_build_mounted c m o ls t img mp Hdry) w3) as Hx.
  destruct (deferred _ _ w3) as [r w4]. cbn [fst snd] in *. destruct (Hx (ex_intro _ res Hok)) as (n3 & E3 & H3).
  exists mp, w3, (n1 ++ n2 ++ n3). split; [done|]. split; [by rewrite E3, E2, E1, Ew, <- !app_assoc|].
  apply (omap_extracted_none ["dd"; "mkfs.ext4"]) in F1; [|vm_compute; reflexivity].
  apply (omap_extracted_none ["mount"]) in F2; [|vm_compute; reflexivity].
  by rewrite !omap_app, F1, F2.
Qed.

(** C16: A build that is not a dry run and reports success has extracted the
    planned layers and nothing else, each once, in the planned order, and reports
    their names.  Each is extracted to its own directory from the archive found for it
    when its turn came, in the state the build had reached ([layer_starts], after the
    image was made and mounted): the cached one under the layer's checksum (its name
    when it has none) or, when none is cached, the one the fetcher for its source gave.
    The plan is what [plan_layers] gives; when the names of the layers whose
    conditions hold are distinct, it is exactly those layers, each after the layers it
    depends on. *)
Theorem Compose_applies_plan (c : Composer) (o : ComposeOptions) (w : LWorld) (res : ComposeResult)
    (Hdry : o_dry o = false) (Hok : fst (Compose c (Some o) w) = Ok res) :
  ∃ m ls mp w0 new, o_manifest o = Some m ∧ plan_layers m (o_env o) = Ok ls ∧
    cr_layers res = lr_name <$> ls ∧
    make_image c m w = (Ok mp, w0) ∧ w_calls (snd (Compose c (Some o) w)) = w_calls w ++ new ∧
    Forall2 (extraction_of c) (layer_starts c mp (NewHookExecutor mp false) o ls (snd (fresh le_now w0))) (omap extracted new) ∧
    (NoDup (lr_name <$> EvaluateConditions m (o_env o)) → ls ≡ₚ EvaluateConditions m (o_env o) ∧ dep_order ls).
Proof.
  assert (∃ m ls, o_manifest o = Some m ∧ plan_layers m (o_env o) = Ok ls) as (m & ls & Hm & Hp).
  { unfold Compose in Hok. rewrite bind_unfold in Hok. cbn [fresh validateComposeOptions] in Hok.
    destruct (o_manifest o) as [m|]; [|done]. destruct (plan_layers m (o_env o)) as [ls|] eqn:E; [by eexists _, _|done]. }
  destruct (compose_success c o m ls w res Hm Hdry Hp Hok) as (Hl & mp & w0 & new & Hi & Hc & Hx).
  exists m, ls, mp, w0, new. split_and!; try done. intros Hn. by apply plan_layers_order.
Qed.

(** A dry run starts no command on the host except Docker's (to fetch layers
    that are not cached). *)
Theorem Compose_dry_run (c : Composer) (o : ComposeOptions) (w : LWorld) (Hdry : o_dry o = true) :
  ∃ new, w_calls (snd (Compose c (Some o) w)) = w_calls w ++ new ∧ Forall (runs ["docker"]) new.
Proof.
  assert (H : emits (runs ["docker"]) (Compose c (Some o))); [|apply H].
  unfold Compose, unless_dry. apply emits_bind; [auto with go|]. intros t. cbn [validateComposeOptions].
  destruct (o_manifest o) as [m|]; [|apply emits_ret]. destruct (plan_layers m (o_env o)) as [ls|]; [|apply emits_ret].
  rewrite Hdry. apply emits_checked; [apply emits_ret|]. unfold build_mounted. apply emits_bind; [auto with go|]. intros now.
  apply emits_checked_result.
  - generalize (@nil BuildManifestLayer) as built. induction ls as [|l ls IH]; intros built; cbn [apply_layers]; [apply emits_ret|].
    apply emits_checked; [auto with go|]. apply emits_checked_result; [|intros b; apply IH].
    unfold applyLayer, unless_dry. rewrite Hdry. apply emits_checked_result; [apply emits_obtain|]. intros x.
    apply emits_bind; [apply emits_Touch|]. intros _. apply emits_checked; [apply emits_ret|].
    unfold NewHookExecutor. apply emits_checked; [apply emits_hooks_dry|]. apply emits_checked; [apply emits_ret|].
    apply emits_checked; [destruct (cl_metadata x); [cbn [negb]; rewrite andb_false_r|]; apply emits_ret|].
    apply emits_checked; [apply emits_hooks_dry|]. apply emits_checked; [apply emits_ret|]. solve_emits.
  - intros built. unfold unless_dry. rewrite Hdry. solve_emits.
Qed.
End Build.

(** * Concrete runs *)

(** Every tarball holds a layer.yaml whose text is the name of its package. *)
Definition build_env (files : list FileEntry) : LEnv :=
  scripted_env_with [] JNull (λ _ data, Ok ([mkTar "layer.yaml" TypeReg 420 data None], None))
    (λ _ _, Err (ErrorsNew "no such host")) (λ _, None)
    (λ name, Ok (mkPackage name "1.0" "" "base" 1 "" "rootfs" [] [] files None ∅ ∅)).

Definition build_files : gmap string node :=
  list_to_map [("/l/base.tar.gz", File "base" 420); ("/l/app.tar.gz", File "app" 420); ("/etc/shadow", File "root:*" 416)].

Definition build_manifest (layers : list LayerReference) : ImageManifest :=
  mkImageManifest "1.0" "img" "" (mkKernel "6.1" "local:///k" "" "console=ttyS0") layers DefaultOutputConfig.

Definition app_layers : list LayerReference :=
  [mkLayerRef "app" "application" "local:///l/app.tar.gz" "" "" false ["base"] [];
   mkLayerRef "base" "base" "local:///l/base.tar.gz" "" "" false [] []].

Definition composer_ex : Composer := mkComposer "/work" "/out" (mkCache "/cache" 100) [DockerFetcher "/work"; LocalFetcher "/work"].
Definition options_ex (dry : bool) : ComposeOptions := mkOptions (Some (build_manifest app_layers)) ∅ dry.

Definition composed (r : result ComposeResult) : ComposeResult :=
  match r with Ok res => res | Err _ => mkComposed "" "" "" [] 0 0 end.

Lemma Compose_applies_plan_witness :
  let w := world_of empty_db build_files in
  let run := @Compose (build_env []) composer_ex (Some (options_ex false)) w in
  cr_layers (composed (fst run)) = ["base"; "app"] ∧
  ∃ m ls mp w0 new, o_manifest (options_ex false) = Some m ∧ plan_layers m ∅ = Ok ls ∧
    cr_layers (composed (fst run)) = lr_name <$> ls ∧
    @make_image (build_env []) composer_ex m w = (Ok mp, w0) ∧ w_calls (snd run) = w_calls w ++ new ∧
    Forall2 (@extraction_of (build_env []) composer_ex)
      (@layer_starts (build_env []) composer_ex mp (NewHookExecutor mp false) (options_ex false) ls (snd (@fresh Z (@le_now (build_env [])) w0)))
      (omap extracted new) ∧
    (NoDup (lr_name <$> EvaluateConditions m ∅) → ls ≡ₚ EvaluateConditions m ∅ ∧ dep_order ls).
Proof.
  intros w run. split; [vm_compute; reflexivity|].
  refine (@Compose_applies_plan (build_env []) composer_ex (options_ex false) w (composed (fst run)) eq_refl _).
  vm_compute. reflexivity.
Defined.

Lemma Compose_dry_run_witness :
  let w := world_of empty_db build_files in
  ∃ new, w_calls (snd (@Compose (build_env []) composer_ex (Some (options_ex true)) w)) = w_calls w ++ new ∧ Forall (runs ["docker"]) new.
Proof. intros w. exact (@Compose_dry_run (build_env []) composer_ex (options_ex true) w eq_refl). Defined.

(** The paths and modes in the metadata of a layer are not confined to the image:
    a layer makes a file of the host writable for everyone. *)
Example layer_permissions_escape_image :
  let w := world_of empty_db build_files in
  let evil := [mkFileEntry "../../etc/shadow" "0777" "" ""] in
  let run := @Compose (build_env evil) composer_ex (Some (options_ex false)) w in
  is_Ok (fst run) = true ∧ w_files (snd run) !! "/etc/shadow" = Some (File "root:*" 511).
Proof. vm_compute. done. Qed.

(** The checksum of the manifest is only a key of the cache: what is fetched is
    applied whatever its digest is. *)
Example checksum_not_verified :
  let env := build_env [] in
  let sha := sha256_hex "something else" in
  let layer := mkLayerRef "base" "base" "local:///l/base.tar.gz" sha "" false [] [] in
  let w := world_of empty_db build_files in
  let '(r, w') := @applyLayer env composer_ex layer "/work/mnt" (NewHookExecutor "/work/mnt" false) (options_ex false) w in
  match r with
  | Ok b => bl_digest b = sha256_hex "base" ∧ bl_digest b ≠ lr_sha256 layer
  | Err _ => False
  end.
Proof. vm_compute. split; [reflexivity|discriminate]. Qed.

(** A layer without a checksum is stored under its digest but looked up under its
    name, so it is fetched again by every build. *)
Example layer_without_checksum_never_cached :
  let env := build_env [] in
  let layer := mkLayerRef "base" "base" "local:///l/base.tar.gz" "" "" false [] [] in
  let w := world_of empty_db build_files in
  let w' := snd (@applyLayer env composer_ex layer "/work/mnt" (NewHookExecutor "/work/mnt" false) (options_ex false) w) in
  length (t_layers (w_db w')) = 1%nat ∧ fst (@Get env (cache_key layer) w') = Ok None.
Proof. vm_compute. done. Qed.
