(* ===== verification/Recording.v ===== *)
(** Recording events and their wire format (src/internal/recording/events.go).

    A stream is what a reader delivers: pieces of bytes, as the network cuts them,
    and failed reads such as timeouts; its end is the end of the stream.  A
    writer may fail at any of the writes an event takes.

    What the wire format of recordings guarantees: what is written is read back,
    however the bytes are cut into pieces; what is read is bounded; and where
    reader and writer disagree. *)

From stdpp Require Import gmap.
From S2P Require Import Prelude GoStrings Json.

(** * Events *)

(** A byte that names the type. *)
(* @src internal/recording/events.go:10-23 EventType *)
Definition EventType : Type := Z.
Definition EventSessionStart : EventType := 0%Z.
Definition EventSessionEnd : EventType := 1%Z.
Definition EventTerminalInput : EventType := 2%Z.
Definition EventTerminalOutput : EventType := 3%Z.
Definition EventFileRead : EventType := 4%Z.
Definition EventFileWrite : EventType := 5%Z.
Definition EventNetworkRequest : EventType := 6%Z.
Definition EventNetworkResponse : EventType := 7%Z.
Definition EventCheckpoint : EventType := 8%Z.

(* @func internal/recording/events.go String *)
Definition EventType_String (e : EventType) : string :=
  match e with
  | 0%Z => "SESSION_START" | 1%Z => "SESSION_END" | 2%Z => "TERMINAL_INPUT" | 3%Z => "TERMINAL_OUTPUT"
  | 4%Z => "FILE_READ" | 5%Z => "FILE_WRITE" | 6%Z => "NETWORK_REQUEST" | 7%Z => "NETWORK_RESPONSE"
  | 8%Z => "CHECKPOINT"
  | _ => "UNKNOWN(" +:+ fmt_d e +:+ ")"
  end.

(** The time is in nanoseconds since 1970, as an [int64]. *)
(* @type internal/recording/events.go Event *)
Record Event : Type := mkEvent {
  e_vm : string; e_session : string; e_time : Z; e_type : EventType; e_payload : string;
  e_metadata : gmap string string }.

(* @src internal/recording/events.go:75-89 UUIDFieldSize *)
Definition UUIDFieldSize : nat := 36.
Definition HeaderSize : Z := 89.
Definition MaxPayloadSize : Z := 16 * 1024 * 1024.
Definition MaxMetadataEntries : Z := 100.
Definition MaxMetadataKeySize : Z := 256.
Definition MaxMetadataValueSize : Z := 4096.

(** * Reading *)

Inductive piece : Type :=
  | Bytes (s : string)
  | Fails (e : error).

Definition stream : Type := list piece.

Definition EOF : string := "EOF".
Definition ErrUnexpectedEOF : string := "unexpected EOF".

(** [io.ReadFull] of [n] bytes after [acc]: an error of the reader is passed on,
    and what was read before it is lost. *)
Fixpoint read_full (acc : string) (n : nat) (st : stream) : result string * stream :=
  match n with
  | O => (Ok acc, st)
  | _ =>
      match st with
      | [] => (Err (ErrorsNew (if String.eqb acc "" then EOF else ErrUnexpectedEOF)), [])
      | Fails e :: st' => (Err e, st')
      | Bytes s :: st' =>
          if (String.length s <=? n)%nat then read_full (acc +:+ s) (n - String.length s) st'
          else (Ok (acc +:+ String.substring 0 n s), Bytes (String.substring n (String.length s - n) s) :: st')
      end
  end.

Definition SM (A : Type) : Type := State stream A.

Definition readFull (n : nat) : SM (result string) := read_full "" n.

(** Little-endian integers. *)
Fixpoint le_value (s : string) : Z :=
  match s with
  | EmptyString => 0%Z
  | String a s' => (Z.of_nat (nat_of_ascii a) + 256 * le_value s')%Z
  end.

Fixpoint le_bytes (n : nat) (z : Z) : string :=
  match n with
  | O => EmptyString
  | S n' => String (ascii_of_nat (Z.to_nat (z mod 256))) (le_bytes n' (z / 256))
  end.

(** [binary.Read] of an unsigned integer of [n] bytes. *)
Definition read_uint (n : nat) : SM (result Z) :=
  let* r := readFull n in
  ret (let? s := r in Ok (le_value s)).

(** Without the null bytes at the end. *)
Definition is_null (a : ascii) : bool := (nat_of_ascii a =? 0)%nat.

Fixpoint drop_nulls (s : string) : string :=
  match s with
  | EmptyString => EmptyString
  | String a s' => if is_null a then drop_nulls s' else s
  end.

(* @func internal/recording/events.go trimNullPadding *)
Definition trimNullPadding (b : string) : string := string_rev (drop_nulls (string_rev b)).

Definition wrapping_read {A} (format : string) (m : SM (result A)) {B} (k : A → SM (result B)) : SM (result B) :=
  checked_result m (λ err, Err (Errorf format [AWrap err])) k.

(* @func internal/recording/events.go readLengthPrefixedString *)
Definition readLengthPrefixedString (maxLen : Z) : SM (result string) :=
  checked_result (read_uint 2) Err (λ length,
  if (maxLen <? length)%Z then ret (Err (Errorf "string too long: %d > %d" [AInt length; AInt maxLen]))
  else readFull (Z.to_nat length)).

(* @src internal/recording/events.go:159-171 ReadEvent *)
Fixpoint read_metadata (n : nat) (m : gmap string string) : SM (result (gmap string string)) :=
  match n with
  | O => ret (Ok m)
  | S n' =>
      wrapping_read "failed to read metadata key: %w" (readLengthPrefixedString MaxMetadataKeySize) (λ key,
      wrapping_read "failed to read metadata value: %w" (readLengthPrefixedString MaxMetadataValueSize) (λ value,
      read_metadata n' (<[key := value]> m)))
  end.

(** [int64] of a [uint64]. *)
Definition to_int64 (z : Z) : Z := if (z <? 2 ^ 63)%Z then z else (z - 2 ^ 64)%Z.

(* @func internal/recording/events.go ReadEvent *)
Definition ReadEvent : SM (result Event) :=
  checked_result (read_uint 4) Err (λ totalLen,
  if (totalLen <? HeaderSize - 4)%Z || (MaxPayloadSize + HeaderSize <? totalLen)%Z then
    ret (Err (Errorf "invalid event length: %d" [AInt totalLen]))
  else
    wrapping_read "failed to read VM ID: %w" (readFull UUIDFieldSize) (λ vmIDBytes,
    wrapping_read "failed to read session ID: %w" (readFull UUIDFieldSize) (λ sessionIDBytes,
    wrapping_read "failed to read timestamp: %w" (read_uint 8) (λ timestampNs,
    wrapping_read "failed to read event type: %w" (read_uint 1) (λ eventType,
    wrapping_read "failed to read payload length: %w" (read_uint 4) (λ payloadLen,
    if (MaxPayloadSize <? payloadLen)%Z then ret (Err (Errorf "payload too large: %d bytes" [AInt payloadLen]))
    else
      wrapping_read "failed to read payload: %w" (readFull (Z.to_nat payloadLen)) (λ payload,
      wrapping_read "failed to read metadata count: %w" (read_uint 4) (λ metadataCount,
      if (MaxMetadataEntries <? metadataCount)%Z then ret (Err (Errorf "too many metadata entries: %d" [AInt metadataCount]))
      else
        checked_result (read_metadata (Z.to_nat metadataCount) ∅) Err (λ metadata,
        ret (Ok (mkEvent (trimNullPadding vmIDBytes) (trimNullPadding sessionIDBytes) (to_int64 timestampNs)
          eventType payload metadata))))))))))).

(** * Writing *)

(** A writer: what it has accepted, and the number of the next write. *)
Record sink : Type := mkSink { sk_data : string; sk_tick : nat }.

Definition WM (A : Type) : Type := State sink A.

Section Write.
Context (fault : nat → option error).

Definition write (s : string) : WM (option error) := λ w,
  match fault (sk_tick w) with
  | Some e => (Some e, mkSink (sk_data w) (S (sk_tick w)))
  | None => (None, mkSink (sk_data w +:+ s) (S (sk_tick w)))
  end.

Definition step (format : string) (m k : WM (option error)) : WM (option error) :=
  checked m (λ err, Some (Errorf format [AWrap err])) k.

(* @func internal/recording/events.go writeLengthPrefixedString *)
Definition writeLengthPrefixedString (s : string) : WM (option error) :=
  let strLen := Z.of_nat (String.length s) in
  if (65535 <? strLen)%Z then ret (Some (Errorf "string too long: %d > 65535" [AInt strLen]))
  else
    checked (write (le_bytes 2 strLen)) Some (
    if (0 <? strLen)%Z then write s else ret None).

Fixpoint write_metadata (l : list (string * string)) : WM (option error) :=
  match l with
  | [] => ret None
  | (key, value) :: l' =>
      step "failed to write metadata key: %w" (writeLengthPrefixedString key) (
      step "failed to write metadata value: %w" (writeLengthPrefixedString value) (
      write_metadata l'))
  end.

(* @func internal/recording/events.go calculateMetadataSize *)
Definition calculateMetadataSize (metadata : list (string * string)) : Z :=
  foldr (λ kv size, (size + (2 + Z.of_nat (String.length (fst kv)) + 2 + Z.of_nat (String.length (snd kv))))%Z) 0%Z metadata.

(** Cut or padded with null bytes to the size of the field. *)
Definition id_field (s : string) : string :=
  String.substring 0 UUIDFieldSize (s +:+ bytes (replicate UUIDFieldSize 0%nat)).

(** [order]: the entries of the metadata in the order the map is ranged over. *)
(* @func internal/recording/events.go WriteEvent *)
Definition WriteEvent (e : Event) (order : list (string * string)) : WM (option error) :=
  let payloadLen := Z.of_nat (String.length (e_payload e)) in
  if (MaxPayloadSize <? payloadLen)%Z then
    ret (Some (Errorf "payload too large: %d bytes (max %d)" [AInt payloadLen; AInt MaxPayloadSize]))
  else
    let totalLen := (36 + 36 + 8 + 1 + 4 + payloadLen + 4 + calculateMetadataSize order)%Z in
    step "failed to write length: %w" (write (le_bytes 4 totalLen)) (
    step "failed to write VM ID: %w" (write (id_field (e_vm e))) (
    step "failed to write session ID: %w" (write (id_field (e_session e))) (
    step "failed to write timestamp: %w" (write (le_bytes 8 (e_time e))) (
    step "failed to write event type: %w" (write (le_bytes 1 (e_type e))) (
    step "failed to write payload length: %w" (write (le_bytes 4 payloadLen)) (
    step "failed to write payload: %w" (if (0 <? payloadLen)%Z then write (e_payload e) else ret None) (
    step "failed to write metadata count: %w" (write (le_bytes 4 (Z.of_nat (length order)))) (
    write_metadata order)))))))).
End Write.

Definition event_ex : Event := mkEvent "vm-1" "s-1" 1700000000000000000 EventTerminalOutput "hello" {["k" := "v"]}.

Example write_read_ex :
  let '(err, w) := WriteEvent (λ _, None) event_ex [("k", "v")] (mkSink "" 0) in
  err = None ∧ String.length (sk_data w) = 104%nat ∧ ReadEvent [Bytes (sk_data w)] = (Ok event_ex, []).
Proof. vm_compute. done. Qed.

(** * Streams without failures *)

Fixpoint content (st : stream) : string :=
  match st with
  | [] => ""
  | Bytes s :: st' => s +:+ content st'
  | Fails _ :: st' => content st'
  end.

Definition plain_piece (p : piece) : Prop := match p with Bytes _ => True | Fails _ => False end.
Abbreviation plain_stream := (Forall plain_piece).

Lemma app_length_split (a b c d : string) :
  a +:+ b = c +:+ d → String.length a = String.length c → a = c ∧ b = d.
Proof.
  revert c. induction a as [|x a IH]; intros [|y c] H Hl; simpl in Hl; try lia.
  - done.
  - rewrite !string_app_cons in H. injection H as -> H. apply IH in H as [-> ->]; [done|lia].
Qed.

Lemma substring_at n (s : string) :
  (n ≤ String.length s)%nat → s = String.substring 0 n s +:+ String.substring n (String.length s - n) s.
Proof.
  revert s. induction n as [|n IH]; intros s Hn.
  - rewrite Nat.sub_0_r. destruct (substring_split (String.length s) s) as (Hl & r & Hr); [lia|].
    assert (r = "") as -> by (destruct r; [done|]; apply (f_equal String.length) in Hr; rewrite string_app_length in Hr; simpl in Hr; lia).
    rewrite string_app_nil_r in Hr. rewrite <- Hr. by destruct s.
  - destruct s as [|c s]; simpl in *; [lia|]. rewrite string_app_cons. f_equal. apply IH. lia.
Qed.

Lemma substring_length n (s : string) : (n ≤ String.length s)%nat → String.length (String.substring 0 n s) = n.
Proof. intros H. by destruct (substring_split n s H). Qed.

(** Reading [n] bytes takes the first [n] bytes, wherever they are cut. *)
Lemma read_full_spec n acc x rest st :
  plain_stream st → content st = x +:+ rest → String.length x = n →
  ∃ st', read_full acc n st = (Ok (acc +:+ x), st') ∧ plain_stream st' ∧ content st' = rest.
Proof.
  intros Hst. revert n acc x. induction Hst as [|[s|e] st Hp Hst IH]; intros n acc x Hc Hl; [| |done].
  - destruct x as [|a x]; [|done]. cbn in Hl, Hc. subst. exists []. cbn. by rewrite string_app_nil_r.
  - cbn in Hc. destruct n as [|n].
    { destruct x; [|by cbn in Hl]. exists (Bytes s :: st). cbn. rewrite string_app_nil_r. split_and!; [done|by constructor|done]. }
    cbn [read_full]. destruct (Nat.leb_spec (String.length s) (S n)) as [Hle|Hgt].
    + assert (∃ y, x = s +:+ y) as [y ->].
      { pose proof (substring_at (String.length s) x ltac:(lia)) as Hx. rewrite Hx, string_app_assoc in Hc.
        apply app_length_split in Hc as [E _]; [|by rewrite substring_length by lia].
        rewrite <- E in Hx at 1. by eexists. }
      rewrite string_app_assoc in Hc. apply app_length_split in Hc as [_ Hc]; [|done].
      rewrite string_app_length in Hl. destruct (IH (S n - String.length s)%nat (acc +:+ s) y Hc) as (st' & E & H1 & H2); [lia|].
      exists st'. rewrite E, string_app_assoc. done.
    + rewrite (substring_at (S n) s), string_app_assoc in Hc by lia.
      apply app_length_split in Hc as [Hx Hc]; [|by rewrite substring_length by lia].
      eexists. rewrite Hx. split_and!; [done|by constructor|done].
Qed.

(** * Reading and writing pieces *)

(** [m] takes the bytes [x] from the front of any stream without failures, and
    returns [a]. *)
Definition reads {A} (m : SM A) (x : string) (a : A) : Prop := ∀ st rest,
  plain_stream st → content st = x +:+ rest →
  ∃ st', m st = (a, st') ∧ plain_stream st' ∧ content st' = rest.

Lemma reads_ret {A} (a : A) : reads (ret a) "" a.
Proof. intros st rest Hp Hc. by exists st. Qed.

Lemma reads_checked {A B} (m : SM (result A)) (f : error → B) (k : A → SM B) x y a b :
  reads m x (Ok a) → reads (k a) y b → reads (checked_result m f k) (x +:+ y) b.
Proof.
  intros Hm Hk st rest Hp Hc. rewrite string_app_assoc in Hc.
  destruct (Hm st _ Hp Hc) as (st1 & E1 & Hp1 & Hc1). destruct (Hk st1 _ Hp1 Hc1) as (st2 & E2 & Hst).
  exists st2. unfold checked_result. rewrite bind_unfold, E1. by rewrite E2.
Qed.

Lemma reads_wrapping {A B} f (m : SM (result A)) (k : A → SM (result B)) x y a b :
  reads m x (Ok a) → reads (k a) y b → reads (wrapping_read f m k) (x +:+ y) b.
Proof. apply reads_checked. Qed.

Lemma reads_full n x : String.length x = n → reads (readFull n) x (Ok x).
Proof. intros Hl st rest Hp Hc. exact (read_full_spec n "" x rest st Hp Hc Hl). Qed.

Lemma le_bytes_length n z : String.length (le_bytes n z) = n.
Proof. revert z. induction n as [|n IH]; intros z; [done|]. cbn. by rewrite IH. Qed.

Lemma le_value_bytes n z : le_value (le_bytes n z) = (z mod 256 ^ Z.of_nat n)%Z.
Proof.
  revert z. induction n as [|n IH]; intros z; cbn [le_bytes le_value].
  - by rewrite Z.mod_1_r.
  - pose proof (Z.mod_pos_bound z 256 ltac:(lia)). rewrite nat_ascii_embedding by lia.
    rewrite IH, Z2Nat.id, Nat2Z.inj_succ, Z.pow_succ_r by lia.
    rewrite Z.rem_mul_r by lia. done.
Qed.

Lemma reads_uint n z : reads (read_uint n) (le_bytes n z) (Ok (z mod 256 ^ Z.of_nat n)%Z).
Proof.
  intros st rest Hp Hc. destruct (reads_full n _ (le_bytes_length n z) st rest Hp Hc) as (st' & E & Hst).
  exists st'. unfold read_uint. rewrite bind_unfold, E. cbn. by rewrite le_value_bytes.
Qed.

Lemma reads_uint_small n z : (0 ≤ z < 256 ^ Z.of_nat n)%Z → reads (read_uint n) (le_bytes n z) (Ok z).
Proof. intros H. pose proof (reads_uint n z) as Hr. by rewrite Z.mod_small in Hr by done. Qed.

Lemma reads_string maxLen s :
  (Z.of_nat (String.length s) ≤ maxLen)%Z → (maxLen ≤ 65535)%Z →
  reads (readLengthPrefixedString maxLen) (le_bytes 2 (Z.of_nat (String.length s)) +:+ s) (Ok s).
Proof.
  intros H1 H2. apply (reads_checked _ _ _ _ _ (Z.of_nat (String.length s))).
  - apply reads_uint_small. change (256 ^ Z.of_nat 2)%Z with 65536%Z. lia.
  - rewrite (proj2 (Z.ltb_ge _ _)) by done. apply reads_full. lia.
Qed.

(** [m] writes [x] unless it returns an error, which takes a write that fails. *)
Definition writes (fault : nat → option error) (m : WM (option error)) (x : string) : Prop := ∀ w,
  ((∀ n, fault n = None) → fst (m w) = None) ∧
  (fst (m w) = None → sk_data (snd (m w)) = sk_data w +:+ x).

Abbreviation no_fault := (λ _ : nat, @None error).

Section Writes.
Context (fault : nat → option error).

Lemma writes_write x : writes fault (write fault x) x.
Proof. intros w. unfold write. destruct (fault (sk_tick w)) eqn:E; [|done]. split; [intros H; by rewrite H in E|done]. Qed.

Lemma writes_ret : writes fault (ret None) "".
Proof. intros w. cbn. by rewrite string_app_nil_r. Qed.

Lemma writes_checked m f k x y : writes fault m x → writes fault k y → writes fault (checked m (λ e, Some (f e)) k) (x +:+ y).
Proof.
  intros Hm Hk w. unfold checked. rewrite bind_unfold. destruct (Hm w) as [E Hd]. destruct (m w) as [[e|] w1]; cbn in *.
  - split; [intros H; by discriminate (E H)|done].
  - destruct (Hk w1) as [E1 Hd1]. split; [done|]. intros H. rewrite Hd1, Hd by done. by rewrite string_app_assoc.
Qed.

Lemma writes_step f m k x y : writes fault m x → writes fault k y → writes fault (step f m k) (x +:+ y).
Proof. apply writes_checked. Qed.

Lemma writes_nonempty s : writes fault (if (0 <? Z.of_nat (String.length s))%Z then write fault s else ret None) s.
Proof. destruct s; [apply writes_ret|apply writes_write]. Qed.

Lemma writes_string s :
  (Z.of_nat (String.length s) ≤ 65535)%Z →
  writes fault (writeLengthPrefixedString fault s) (le_bytes 2 (Z.of_nat (String.length s)) +:+ s).
Proof.
  intros H. unfold writeLengthPrefixedString. rewrite (proj2 (Z.ltb_ge _ _)) by done.
  apply (writes_checked _ id); [apply writes_write|apply writes_nonempty].
Qed.
End Writes.

(** * What is written is read back *)

(** The wire form of the metadata, and of an event. *)
Definition encode_string (s : string) : string := le_bytes 2 (Z.of_nat (String.length s)) +:+ s.

Fixpoint encode_metadata (l : list (string * string)) : string :=
  match l with
  | [] => ""
  | (key, value) :: l' => encode_string key +:+ (encode_string value +:+ encode_metadata l')
  end.

Definition encode (e : Event) (order : list (string * string)) : string :=
  let payloadLen := Z.of_nat (String.length (e_payload e)) in
  le_bytes 4 (36 + 36 + 8 + 1 + 4 + payloadLen + 4 + calculateMetadataSize order) +:+
  (id_field (e_vm e) +:+ (id_field (e_session e) +:+ (le_bytes 8 (e_time e) +:+ (le_bytes 1 (e_type e) +:+
  (le_bytes 4 payloadLen +:+ (e_payload e +:+ (le_bytes 4 (Z.of_nat (length order)) +:+
  encode_metadata order))))))).

(** What a reader accepts of an event: the fields fit, an id does not end in a
    null byte, and the limits hold. *)
Definition id_ok (s : string) : Prop :=
  (String.length s ≤ UUIDFieldSize)%nat ∧
  match string_rev s with String a _ => is_null a = false | EmptyString => True end.

Definition entry_ok (kv : string * string) : Prop :=
  (Z.of_nat (String.length (fst kv)) ≤ MaxMetadataKeySize)%Z ∧
  (Z.of_nat (String.length (snd kv)) ≤ MaxMetadataValueSize)%Z.

Record wire_ok (e : Event) (order : list (string * string)) : Prop := {
  wire_vm : id_ok (e_vm e);
  wire_session : id_ok (e_session e);
  wire_time : int64_range (e_time e);
  wire_type : (0 ≤ e_type e < 256)%Z;
  wire_payload : (Z.of_nat (String.length (e_payload e)) ≤ MaxPayloadSize)%Z;
  wire_total : (Z.of_nat (String.length (e_payload e)) + calculateMetadataSize order ≤ MaxPayloadSize)%Z;
  wire_count : (Z.of_nat (length order) ≤ MaxMetadataEntries)%Z;
  wire_entries : Forall entry_ok order;
  wire_order : order ≡ₚ map_to_list (e_metadata e) }.

Lemma writes_metadata fault l : Forall entry_ok l → writes fault (write_metadata fault l) (encode_metadata l).
Proof.
  unfold entry_ok, MaxMetadataKeySize, MaxMetadataValueSize.
  induction 1 as [|[key value] l [Hk Hv] Hl IH]; [apply writes_ret|]. cbn in Hk, Hv.
  apply writes_step; [apply writes_string; lia|]. apply writes_step; [apply writes_string; lia|done].
Qed.

Lemma writes_event fault e order : wire_ok e order → writes fault (WriteEvent fault e order) (encode e order).
Proof.
  intros [_ _ _ _ Hpay _ _ Hent _]. unfold WriteEvent. rewrite (proj2 (Z.ltb_ge _ _)) by done.
  repeat (apply writes_step; [apply writes_write || apply writes_nonempty|]). by apply writes_metadata.
Qed.

Lemma reads_metadata l m :
  Forall entry_ok l → reads (read_metadata (length l) m) (encode_metadata l) (Ok (foldl (λ m kv, <[fst kv := snd kv]> m) m l)).
Proof.
  intros H. revert m. induction H as [|[key value] l [Hk Hv] Hl IH]; intros m; [apply reads_ret|]. cbn in Hk, Hv.
  eapply reads_wrapping; [by apply reads_string|]. eapply reads_wrapping; [by apply reads_string|]. apply IH.
Qed.

(** Inserting the entries of a map in any order builds the map. *)
Lemma insert_all (l : list (string * string)) (m : gmap string string) :
  NoDup l.*1 → (∀ kv, kv ∈ l → m !! fst kv = None) →
  foldl (λ m kv, <[fst kv := snd kv]> m) m l = list_to_map l ∪ m.
Proof.
  revert m. induction l as [|[k v] l IH]; intros m Hnd Hm; cbn [foldl].
  - by rewrite left_id_L by apply _.
  - cbn in Hnd. apply NoDup_cons in Hnd as [Hk Hnd]. rewrite IH.
    + cbn. rewrite <- insert_union_l. rewrite insert_union_r; [done|]. by apply not_elem_of_list_to_map_1.
    + done.
    + intros [k' v'] Hin. cbn. rewrite lookup_insert_ne; [by apply (Hm (k', v')), list_elem_of_further|].
      intros ->. apply Hk, list_elem_of_fmap. by exists (k', v').
Qed.

Lemma insert_order (l : list (string * string)) (m : gmap string string) :
  l ≡ₚ map_to_list m → foldl (λ m kv, <[fst kv := snd kv]> m) ∅ l = m.
Proof.
  intros H. assert (NoDup l.*1) as Hnd by (rewrite H; apply NoDup_fst_map_to_list).
  rewrite insert_all by (done || intros; apply lookup_empty).
  rewrite right_id_L by apply _. rewrite <- (list_to_map_to_list m). by apply list_to_map_proper.
Qed.

Lemma id_field_length s : String.length (id_field s) = UUIDFieldSize.
Proof. unfold id_field. apply substring_length. rewrite string_app_length. cbn. unfold UUIDFieldSize. lia. Qed.

Definition nulls (n : nat) : string := bytes (replicate n 0%nat).

Lemma nulls_add m n : nulls (m + n) = nulls m +:+ nulls n.
Proof. unfold nulls. induction m as [|m IH]; [done|]. cbn. rewrite IH. done. Qed.

Lemma nulls_length n : String.length (nulls n) = n.
Proof. unfold nulls. induction n as [|n IH]; [done|]. cbn. by rewrite IH. Qed.

Lemma id_field_short s : (String.length s ≤ UUIDFieldSize)%nat → id_field s = s +:+ nulls (UUIDFieldSize - String.length s).
Proof.
  intros H. assert (s +:+ nulls UUIDFieldSize = id_field s +:+ String.substring UUIDFieldSize (String.length (s +:+ nulls UUIDFieldSize) - UUIDFieldSize) (s +:+ nulls UUIDFieldSize)) as E.
  { apply substring_at. rewrite string_app_length, nulls_length. lia. }
  rewrite <- (Nat.sub_add _ _ H) in E at 1. rewrite nulls_add, <- string_app_assoc in E.
  apply app_length_split in E as [E _]; [done|].
  rewrite string_app_length, nulls_length, id_field_length. lia.
Qed.

Lemma drop_nulls_app n s : drop_nulls (nulls n +:+ s) = drop_nulls s.
Proof. induction n as [|n IH]; [done|]. cbn. apply IH. Qed.

Lemma string_rev_nulls n : string_rev (nulls n) = nulls n.
Proof.
  induction n as [|n IH]; [done|]. change (nulls (S n)) with (String (ascii_of_nat 0) (nulls n)) at 1.
  rewrite string_rev_cons, IH. change (String _ "") with (nulls 1). by rewrite <- nulls_add, Nat.add_comm.
Qed.

Lemma trimNullPadding_id_field s : id_ok s → trimNullPadding (id_field s) = s.
Proof.
  intros [Hl Hs]. rewrite id_field_short by done. unfold trimNullPadding.
  rewrite string_rev_app_distr, string_rev_nulls, drop_nulls_app.
  rewrite <- (string_rev_involutive s) at 2. destruct (string_rev s) as [|a r]; [done|]. cbn. by rewrite Hs.
Qed.

Lemma to_int64_mod t : int64_range t → to_int64 (t mod 256 ^ Z.of_nat 8) = t.
Proof.
  unfold int64_range, to_int64. change (256 ^ Z.of_nat 8)%Z with (2 ^ 64)%Z. intros H.
  destruct (Z.leb_spec 0 t).
  - rewrite Z.mod_small by lia. by rewrite (proj2 (Z.ltb_lt _ _)) by lia.
  - assert (t mod 2 ^ 64 = t + 2 ^ 64)%Z as -> by (symmetry; apply (Z.mod_unique_pos _ _ (-1)); lia).
    rewrite (proj2 (Z.ltb_ge _ _)) by lia. lia.
Qed.

Lemma calculateMetadataSize_nonneg l : (0 ≤ calculateMetadataSize l)%Z.
Proof. unfold calculateMetadataSize. induction l as [|kv l IH]; cbn; lia. Qed.

Lemma reads_event e order : wire_ok e order → reads ReadEvent (encode e order) (Ok e).
Proof.
  intros [Hvm Hs Ht Hty Hpay Htot Hcnt Hent Hord]. pose proof (calculateMetadataSize_nonneg order).
  unfold MaxPayloadSize, MaxMetadataEntries in *.
  eapply reads_checked. { apply reads_uint_small. change (256 ^ Z.of_nat 4)%Z with 4294967296%Z. lia. }
  unfold HeaderSize, MaxPayloadSize.
  rewrite (proj2 (Z.ltb_ge _ _)), (proj2 (Z.ltb_ge _ _)) by lia. cbn [orb].
  eapply reads_wrapping; [apply reads_full, id_field_length|].
  eapply reads_wrapping; [apply reads_full, id_field_length|].
  eapply reads_wrapping; [apply reads_uint|].
  eapply reads_wrapping; [by apply reads_uint_small|].
  eapply reads_wrapping. { apply reads_uint_small. change (256 ^ Z.of_nat 4)%Z with 4294967296%Z. lia. }
  rewrite (proj2 (Z.ltb_ge _ _)) by lia.
  eapply reads_wrapping; [apply reads_full; lia|].
  eapply reads_wrapping. { apply reads_uint_small. change (256 ^ Z.of_nat 4)%Z with 4294967296%Z. lia. }
  unfold MaxMetadataEntries. rewrite (proj2 (Z.ltb_ge _ _)), Nat2Z.id by lia.
  rewrite <- (string_app_nil_r (encode_metadata order)).
  eapply reads_checked; [by apply reads_metadata|].
  rewrite !trimNullPadding_id_field, to_int64_mod, (insert_order _ _ Hord) by done. destruct e. apply reads_ret.
Qed.

(** * A recording: events one after the other *)

(** Writing a list of events, each with the order its metadata is written in. *)
Fixpoint write_events (l : list (Event * list (string * string))) : WM (option error) :=
  match l with
  | [] => ret None
  | (e, order) :: l' => step "%w" (WriteEvent no_fault e order) (write_events l')
  end.

(** The bytes of a recording. *)
Fixpoint recording (l : list (Event * list (string * string))) : string :=
  match l with [] => "" | (e, order) :: l' => encode e order +:+ recording l' end.

Lemma recording_app l l' : recording (l ++ l') = recording l +:+ recording l'.
Proof. induction l as [|[e order] l IH]; [done|]. cbn. by rewrite IH, string_app_assoc. Qed.

(** Reading until the end of the stream or an error. *)
Fixpoint read_events (fuel : nat) (st : stream) : list Event * error :=
  match fuel with
  | O => ([], ErrorsNew EOF)
  | S fuel' =>
      match ReadEvent st with
      | (Ok e, st') => prod_map (e ::.) id (read_events fuel' st')
      | (Err err, _) => ([], err)
      end
  end.

Lemma writes_events l : Forall (λ eo, wire_ok (fst eo) (snd eo)) l →
  writes no_fault (write_events l) (recording l).
Proof.
  induction 1 as [|[e order] l He Hl IH]; [apply writes_ret|].
  apply writes_step; [by apply writes_event|done].
Qed.

Lemma content_nil_read st : plain_stream st → content st = "" → fst (ReadEvent st) = Err (ErrorsNew EOF).
Proof.
  intros Hp Hc. assert (readFull 4 st = (Err (ErrorsNew EOF), [])) as E.
  { unfold readFull. induction Hp as [|[s|e] st Hs Hst IH]; [done| |done].
    cbn in Hc. destruct s; [|done]. cbn. by apply IH. }
  unfold ReadEvent, checked_result, read_uint. by rewrite !bind_unfold, E.
Qed.

Lemma read_events_Ok n st e st' :
  ReadEvent st = (Ok e, st') → read_events (S n) st = prod_map (e ::.) id (read_events n st').
Proof. intros E. cbn. by rewrite E. Qed.

(** C18: what a writer has written, a reader reads back: the same events in the
    same order, then a clean end of the stream -- however the network cuts the
    bytes, whatever order the metadata maps are ranged over, and as long as the
    events are within the limits the reader enforces. *)
Theorem WriteEvent_ReadEvent l st :
  Forall (λ eo, wire_ok (fst eo) (snd eo)) l →
  plain_stream st → content st = sk_data (snd (write_events l (mkSink "" 0))) →
  fst (write_events l (mkSink "" 0)) = None ∧
  read_events (S (length l)) st = (fst <$> l, ErrorsNew EOF).
Proof.
  intros Hl Hp Hc. destruct (writes_events l Hl (mkSink "" 0)) as [E Ed]. split; [by apply E|].
  rewrite Ed in Hc by (by apply E). change ("" +:+ ?x) with x in Hc. cbn [sk_data] in Hc. clear E Ed. revert st Hp Hc.
  induction Hl as [|[e order] l He Hl IH]; intros st Hp Hc.
  - pose proof (content_nil_read st Hp Hc) as E. cbn. destruct (ReadEvent st) as [[?|?] ?]; simplify_eq/=. done.
  - destruct (reads_event e order He st _ Hp Hc) as (st' & E & Hp' & Hc').
    cbn [length]. by rewrite (read_events_Ok _ _ _ _ E), (IH st' Hp' Hc').
Qed.

Definition wire_event_ex : Event :=
  mkEvent "vm-1" "s-1" 1700000000000000000 EventTerminalOutput "hello" {["k" := "v"; "l" := ""]}.

Lemma wire_ok_ex : wire_ok wire_event_ex [("l", ""); ("k", "v")].
Proof.
  constructor; try (vm_compute; done).
  - split; [vm_compute; lia|vm_compute; done].
  - split; [vm_compute; lia|vm_compute; done].
  - repeat constructor; vm_compute; done.
  - assert (map_to_list (e_metadata wire_event_ex) = [("k", "v"); ("l", "")]) as -> by (vm_compute; reflexivity).
    apply Permutation_swap.
Qed.

(** The stream cuts a length, and an id, in two. *)
Lemma WriteEvent_ReadEvent_witness :
  let l := [(wire_event_ex, [("l", ""); ("k", "v")]); (wire_event_ex, [("l", ""); ("k", "v")])] in
  let d := sk_data (snd (write_events l (mkSink "" 0))) in
  read_events 3 [Bytes (String.substring 0 2 d); Bytes (String.substring 2 20 d); Bytes (String.substring 22 1000 d)]
  = ([wire_event_ex; wire_event_ex], ErrorsNew EOF).
Proof.
  cbv zeta. apply (WriteEvent_ReadEvent [(wire_event_ex, [("l", ""); ("k", "v")]); (wire_event_ex, [("l", ""); ("k", "v")])]).
  - repeat constructor; apply wire_ok_ex.
  - repeat constructor.
  - vm_compute. reflexivity.
Defined.

(** * Whatever the stream *)

Lemma checked_result_inv {S A B} (m : State S (result A)) f (k : A → State S (result B)) (w : S) b w' :
  checked_result m (λ e, Err (f e)) k w = (Ok b, w') → ∃ a w1, m w = (Ok a, w1) ∧ k a w1 = (Ok b, w').
Proof. unfold checked_result. rewrite bind_unfold. destruct (m w) as [[a|e] w1]; [eauto|done]. Qed.

Lemma readFull_length acc n st x st' :
  read_full acc n st = (Ok x, st') → String.length x = (String.length acc + n)%nat.
Proof.
  revert acc n. induction st as [|[s|e] st IH]; intros acc [|n] E; cbn in E; simplify_eq; try lia.
  destruct (Nat.leb_spec (String.length s) (S n)).
  - apply IH in E. rewrite string_app_length in E. lia.
  - injection E as <- <-. rewrite string_app_length, substring_length by lia. done.
Qed.

Lemma le_value_bound s : (0 ≤ le_value s < 256 ^ Z.of_nat (String.length s))%Z.
Proof.
  induction s as [|a s IH]; [done|]. cbn [le_value String.length].
  rewrite Nat2Z.inj_succ, Z.pow_succ_r by lia. pose proof (nat_ascii_bounded a). lia.
Qed.

Lemma read_uint_bound n st z st' : read_uint n st = (Ok z, st') → (0 ≤ z < 256 ^ Z.of_nat n)%Z.
Proof.
  unfold read_uint. rewrite bind_unfold. destruct (readFull n st) as [[s|e] st1] eqn:E; [|done].
  intros [= <- _]. apply readFull_length in E. cbn in E. subst n. apply le_value_bound.
Qed.

Lemma readLengthPrefixedString_bound maxLen st s st' :
  readLengthPrefixedString maxLen st = (Ok s, st') → (Z.of_nat (String.length s) ≤ maxLen)%Z.
Proof.
  intros E. apply checked_result_inv in E as (len & st1 & E1 & E). apply read_uint_bound in E1.
  destruct (Z.ltb_spec maxLen len); [done|]. apply readFull_length in E. cbn in E. lia.
Qed.

Definition metadata_ok (m : gmap string string) : Prop := map_Forall (λ k v, entry_ok (k, v)) m.

Lemma read_metadata_bound n m st m' st' :
  read_metadata n m st = (Ok m', st') → metadata_ok m → metadata_ok m' ∧ (size m' ≤ size m + n)%nat.
Proof.
  revert m st. induction n as [|n IH]; intros m st E Hm; [injection E as -> ->; split; [done|lia]|].
  apply checked_result_inv in E as (key & st1 & E1 & E). apply checked_result_inv in E as (value & st2 & E2 & E).
  apply readLengthPrefixedString_bound in E1, E2. apply IH in E as [H1 H2].
  - split; [done|]. destruct (m !! key) eqn:Hk; rewrite map_size_insert, Hk in H2; cbn in H2; lia.
  - by apply map_Forall_insert_2.
Qed.

Lemma drop_nulls_length s : (String.length (drop_nulls s) ≤ String.length s)%nat.
Proof. induction s as [|a s IH]; cbn; [lia|]. destruct (is_null a); cbn; lia. Qed.

Lemma string_rev_length s : String.length (string_rev s) = String.length s.
Proof. induction s as [|a s IH]; [done|]. rewrite string_rev_cons, string_app_length, IH. cbn. lia. Qed.

Lemma trimNullPadding_length s : (String.length (trimNullPadding s) ≤ String.length s)%nat.
Proof. unfold trimNullPadding. rewrite string_rev_length, <- (string_rev_length s). apply drop_nulls_length. Qed.

(** whatever the guest sends, an event that is read is within the limits: the
    ids fit their fields, the time is an int64, the payload is at most 16 MiB, and
    there are at most a hundred metadata entries with bounded keys and values. *)
Theorem ReadEvent_bounded st e st' :
  ReadEvent st = (Ok e, st') →
  (String.length (e_vm e) ≤ UUIDFieldSize)%nat ∧ (String.length (e_session e) ≤ UUIDFieldSize)%nat ∧
  int64_range (e_time e) ∧ (0 ≤ e_type e < 256)%Z ∧
  (Z.of_nat (String.length (e_payload e)) ≤ MaxPayloadSize)%Z ∧
  (Z.of_nat (size (e_metadata e)) ≤ MaxMetadataEntries)%Z ∧ metadata_ok (e_metadata e).
Proof.
  intros E. apply checked_result_inv in E as (tl & st0 & E0 & E).
  destruct (_ || _) in E; [done|].
  apply checked_result_inv in E as (vm & st1 & E1 & E). apply checked_result_inv in E as (sess & st2 & E2 & E).
  apply checked_result_inv in E as (ts & st3 & E3 & E). apply checked_result_inv in E as (ty & st4 & E4 & E).
  apply checked_result_inv in E as (pl & st5 & E5 & E). destruct (Z.ltb_spec MaxPayloadSize pl); [done|].
  apply checked_result_inv in E as (pay & st6 & E6 & E). apply checked_result_inv in E as (cnt & st7 & E7 & E).
  destruct (Z.ltb_spec MaxMetadataEntries cnt); [done|].
  apply checked_result_inv in E as (meta & st8 & E8 & E). injection E as <- _. cbn.
  apply readFull_length in E1, E2, E6. cbn in E1, E2, E6. apply read_uint_bound in E3, E4, E5, E7.
  apply read_metadata_bound in E8 as [Hm Hs]; [|by intros ? ?].
  pose proof (trimNullPadding_length vm). pose proof (trimNullPadding_length sess).
  change (size (∅ : gmap string string)) with 0%nat in Hs. change (256 ^ Z.of_nat 8)%Z with (2 ^ 64)%Z in E3.
  split_and!; try lia; try done.
  - unfold int64_range, to_int64. destruct (Z.ltb_spec ts (2 ^ 63)); lia.
Qed.

Lemma ReadEvent_bounded_witness :
  let d := encode wire_event_ex [("k", "v")] in
  (∃ e st', ReadEvent [Bytes d] = (Ok e, st')) ∧ (Z.of_nat (String.length (e_payload wire_event_ex)) ≤ MaxPayloadSize)%Z.
Proof.
  cbv zeta. destruct (ReadEvent [Bytes (encode wire_event_ex [("l", ""); ("k", "v")])]) as [[e|e] st'] eqn:E.
  - assert (e = wire_event_ex) as -> by (vm_compute in E; vm_compute; congruence).
    destruct (ReadEvent_bounded _ _ _ E) as (_ & _ & _ & _ & H & _). split; [|exact H].
    vm_compute. eauto.
  - vm_compute in E. discriminate.
Defined.

(** * Where writer and reader disagree *)

(** A metadata key of 300 bytes is written without an error, and is not read. *)
Example long_key_is_written_not_read :
  let key := bytes (replicate 300 107%nat) in
  let e := mkEvent "vm-1" "s-1" 0 EventCheckpoint "" {[key := "v"]} in
  let '(err, w) := WriteEvent no_fault e [(key, "v")] (mkSink "" 0) in
  err = None ∧
  fst (ReadEvent [Bytes (sk_data w)]) =
    Err (Errorf "failed to read metadata key: %w" [AWrap (Errorf "string too long: %d > %d" [AInt 300; AInt 256])]).
Proof. vm_compute. done. Qed.

(** A read that times out after two bytes of the length loses them: the next read
    starts in the middle of the event. *)
Example timeout_in_the_length_loses_bytes :
  let d := encode wire_event_ex [("l", ""); ("k", "v")] in
  let st := [Bytes (String.substring 0 2 d); Fails (ErrorsNew "timeout"); Bytes (String.substring 2 1000 d)] in
  let '(r1, st1) := ReadEvent st in
  let '(r2, _) := ReadEvent st1 in
  r1 = Err (ErrorsNew "timeout") ∧ r2 = Err (Errorf "invalid event length: %d" [AInt 1836449792]).
Proof. vm_compute. done. Qed.
