(* ===== verification/RecordingStore.v ===== *)
(** The local storage of recordings (src/internal/recording/local.go): the
    sessions that are open, their directories, and the life of a session from its
    start to its removal.

    Every method is one step under the lock, but for two.  [Finalize] gives the
    lock up while it compresses: its three phases are three definitions.  [Write]
    gives it up around [StartSession] for a session that is not open; it is one
    step here, so what another goroutine does to that session in between (starting
    it, which makes the batch fail, or removing it, which leaves [Write] with a nil
    session) is not modelled.  An open
    file is known by its path. *)

From stdpp Require Import gmap sorting.
From S2P Require Import Prelude GoStrings Paths Json Storage LayerTypes LayerEnv Recording.

(** What the storage needs besides the host: the calendar, the text of times in
    JSON, and the compressed form of a file. *)
Class REnv : Type := {
  re_host :: LEnv;
  re_time_text : Z → string;              (* RFC 3339 with nanoseconds *)
  re_text_time : string → option Z;
  re_days_before : Z → Z → Z;             (* [t.AddDate(0, 0, -days)] *)
  re_zstd : string → string }.

(** * Sessions *)

(** The zero [time.Time]. *)
Definition zero_time : Z := (-62135596800 * 1000000000)%Z.

(* @type internal/recording/local.go SessionMetadata *)
Record SessionMetadata : Type := mkMeta {
  sm_id : string; sm_vm : string; sm_started : Z; sm_ended : Z; sm_events : Z; sm_size : Z;
  sm_status : string; sm_compressed : bool }.

(** [ls_open]: the file is not nil. *)
(* @type internal/recording/local.go localSession *)
Record localSession : Type := mkSession { ls_metadata : SessionMetadata; ls_open : bool; ls_path : string }.

(* @type internal/recording/local.go LocalStorage *)
Record LocalStorage : Type := mkStore {
  st_base : string; st_retention : Z; st_sessions : gmap string localSession; st_host : LWorld }.

Definition RM (A : Type) : Type := State LocalStorage A.

Definition set_sessions (st : LocalStorage) (m : gmap string localSession) : LocalStorage :=
  mkStore (st_base st) (st_retention st) m (st_host st).
Definition set_host (st : LocalStorage) (w : LWorld) : LocalStorage :=
  mkStore (st_base st) (st_retention st) (st_sessions st) w.

(** A call of the host. *)
Definition host {A} (m : LM A) : RM A := λ st, let '(a, w) := m (st_host st) in (a, set_host st w).

Definition update_sessions (f : gmap string localSession → gmap string localSession) : RM unit := λ st,
  (tt, set_sessions st (f (st_sessions st))).

Section Store.
Context `{HR : REnv}.

(** * Metadata on disk *)

Definition enc_time (t : Z) : json := JStr (re_time_text t).
Definition dec_time (j : json) : option Z :=
  match j with JNull => Some zero_time | JStr s => re_text_time s | _ => None end.

(* @src internal/recording/local.go:37-47 SessionMetadata *)
Definition enc_metadata (m : SessionMetadata) : json := enc_struct
  [ f_str "id" (sm_id m); f_str "vm_id" (sm_vm m); f_any "started_at" (enc_time (sm_started m));
    f_any "ended_at" (enc_time (sm_ended m)); f_int "event_count" (sm_events m); f_int "size_bytes" (sm_size m);
    f_str "status" (sm_status m); f_bool "compressed" (sm_compressed m) ].

Definition dec_metadata (j : json) : option SessionMetadata :=
  l ← members j;
  i ← getf l "id" "" dec_str; v ← getf l "vm_id" "" dec_str;
  s ← getf l "started_at" zero_time dec_time; e ← getf l "ended_at" zero_time dec_time;
  n ← getf l "event_count" 0%Z dec_int64; z ← getf l "size_bytes" 0%Z dec_int64;
  t ← getf l "status" "" dec_str; c ← getf l "compressed" false dec_bool;
  Some (mkMeta i v s e n z t c).

Definition metadata_path (sessionPath : string) : string := filepath_join [sessionPath; "metadata.json"].
Definition events_path (sessionPath : string) : string := filepath_join [sessionPath; "events.bin"].
Definition compressed_path (sessionPath : string) : string := filepath_join [sessionPath; "events.bin.zst"].

Definition perm_0600 : Z := 384.

(* @func internal/recording/local.go writeMetadata *)
Definition writeMetadata (sessionPath : string) (m : SessionMetadata) : LM (option error) :=
  os_WriteFile (metadata_path sessionPath) (json_Marshal (enc_metadata m)) perm_0600.

(* @func internal/recording/local.go readMetadata *)
Definition readMetadata (sessionPath : string) : LM (result SessionMetadata) :=
  checked_result (os_ReadFile (metadata_path sessionPath)) Err (λ data,
  ret match (j ← json_Unmarshal data; dec_metadata j) with
  | None => Err (ErrorsNew "json: cannot unmarshal")
  | Some m => Ok m
  end).

(** * Files *)

(** [os.OpenFile] with [O_CREATE|O_WRONLY|O_APPEND]. *)
Definition os_OpenAppend (p : string) (mode : Z) : LM (option error) := λ w,
  let w' := log_call (CWrite p) (tick w) in
  match le_fault (w_tick w) with
  | Some e => (Some e, w')
  | None =>
      match w_files w !! path_clean p with
      | Some (Dir _) => (Some (ErrorsNew "is a directory"), w')
      | Some (File _ _) => (None, w')
      | None => (None, set_w_files w' (<[path_clean p := File "" mode]> (w_files w)))
      end
  end.

(** Bytes added to a file that is open: lost when it has been unlinked. *)
Definition append_to (p s : string) (fs : gmap string node) : gmap string node :=
  alter (λ n, match n with File c m => File (c +:+ s) m | Dir m => Dir m end) (path_clean p) fs.

(** An event written to an open file, one call of the system for every write. *)
Definition write_event_to (p : string) (e : Event) (order : list (string * string)) : LM (option error) := λ w,
  let '(err, s) := WriteEvent le_fault e order (mkSink "" (w_tick w)) in
  (err, mkWorld (w_db w) (append_to p (sk_data s) (w_files w)) (w_touches w) (w_calls w) (sk_tick s)).

(** [os.RemoveAll] and its error. *)
Definition os_RemoveAll_err (p : string) : LM (option error) := λ w,
  (le_remove (w_tick w), snd (os_RemoveAll p w)).

(** * Starting and writing *)

Definition session_path (st : LocalStorage) (sessionID : string) : string := filepath_join [st_base st; sessionID].

(* @func internal/recording/local.go NewLocalStorage *)
Definition NewLocalStorage (basePath : string) (retentionDays : Z) (open_encoder : option error) (w : LWorld) :
    result LocalStorage * LWorld :=
  let '(e, w1) := os_MkdirAll basePath perm_0755 w in
  match e with
  | Some err => (Err (Errorf "failed to create recording directory: %w" [AWrap err]), w1)
  | None =>
      match open_encoder with
      | Some err => (Err (Errorf "failed to create zstd encoder: %w" [AWrap err]), w1)
      | None => (Ok (mkStore basePath retentionDays ∅ w1), w1)
      end
  end.

(* @func internal/recording/local.go StartSession *)
Definition StartSession (vmID sessionID : string) : RM (option error) := λ st,
  match st_sessions st !! sessionID with
  | Some _ => (Some (Errorf "session %s already exists" [AStr sessionID]), st)
  | None =>
      let sessionPath := session_path st sessionID in
      checked (host (os_MkdirAll sessionPath perm_0755)) (λ err, Some (Errorf "failed to create session directory: %w" [AWrap err])) (
      checked (host (os_OpenAppend (events_path sessionPath) perm_0600)) (λ err, Some (Errorf "failed to create events file: %w" [AWrap err])) (
      let* now := host (fresh le_now) in
      let metadata := mkMeta sessionID vmID now zero_time 0 0 "active" false in
      checked (host (writeMetadata sessionPath metadata)) (λ err, Some (Errorf "failed to write metadata: %w" [AWrap err])) (
      update_sessions (<[sessionID := mkSession metadata true sessionPath]>) ;;;
      ret None))) st
  end.

(** [session.metadata.EventCount++] and [SizeBytes += ...]. *)
Definition count_event (e : Event) (s : localSession) : localSession :=
  let m := ls_metadata s in
  mkSession (mkMeta (sm_id m) (sm_vm m) (sm_started m) (sm_ended m) (add64 (sm_events m) 1)
      (add64 (sm_size m) (Z.of_nat (String.length (e_payload e)) + HeaderSize)) (sm_status m) (sm_compressed m))
    (ls_open s) (ls_path s).

(** The file of a session that is being finalized is nil: the first write fails. *)
Definition nil_file_error : error := Errorf "failed to write length: %w" [AWrap (ErrorsNew "invalid argument")].
Definition oversized (e : Event) : bool := (MaxPayloadSize <? Z.of_nat (String.length (e_payload e)))%Z.

(* @src internal/recording/local.go:169-176 Write *)
Definition write_one (sessionID : string) (order : Event → list (string * string)) (e : Event) : RM (option error) := λ st,
  match st_sessions st !! sessionID with
  | None => (None, st)
  | Some s =>
      checked (if ls_open s || oversized e then host (write_event_to (events_path (ls_path s)) e (order e)) else ret (Some nil_file_error))
        (λ err, Some (Errorf "failed to write event: %w" [AWrap err])) (
      update_sessions (alter (count_event e) sessionID) ;;;
      ret None) st
  end.

(* @src internal/recording/local.go:155-177 Write *)
Definition write_session (order : Event → list (string * string)) (events : list Event) (sessionID : string) : RM (option error) := λ st,
  let sessionEvents := filter (λ e, e_session e = sessionID) events in
  (checked
    (match st_sessions st !! sessionID, sessionEvents with
     | None, e :: _ =>
         let* err := StartSession (e_vm e) sessionID in
         ret ((λ err, Errorf "failed to auto-create session %s: %w" [AStr sessionID; AWrap err]) <$> err)
     | _, _ => ret None
     end) Some
    (for_each_err sessionEvents (write_one sessionID order))) st.

(** [sessions]: the ids of the batch in the order the map is ranged over. *)
(* @func internal/recording/local.go Write *)
Definition Write (sessions : list string) (order : Event → list (string * string)) (events : list Event) : RM (option error) :=
  match events with
  | [] => ret None
  | _ => for_each_err sessions (write_session order events)
  end.

(** * Finalizing *)

(* @func internal/recording/local.go compressFile *)
Definition compressFile (src dst : string) : LM (option error) :=
  checked_result (os_Open src) (λ err, Some (Errorf "failed to open source file: %w" [AWrap err])) (λ _,
  checked (os_Create dst perm_0666) (λ err, Some (Errorf "failed to create destination file: %w" [AWrap err])) (
  checked (fresh le_fault) (λ err, Some (Errorf "failed to create encoder: %w" [AWrap err])) (
  let* flushed := fresh le_partial in
  checked_result (os_ReadFile src) (λ err, Some (Errorf "failed to compress: %w" [AWrap err])) (λ content,
  checked (os_Fill dst flushed) (λ err, Some (Errorf "failed to compress: %w" [AWrap err])) (
  checked (os_Fill dst (re_zstd content)) (λ err, Some (Errorf "failed to finalize compression: %w" [AWrap err])) (
  ret None)))))).

Definition close_file (s : localSession) : localSession := mkSession (ls_metadata s) false (ls_path s).
Definition set_status (m : SessionMetadata) (status : string) : SessionMetadata :=
  mkMeta (sm_id m) (sm_vm m) (sm_started m) (sm_ended m) (sm_events m) (sm_size m) status (sm_compressed m).
(** The metadata is shared with the session, if that is still tracked. *)
Definition share (m : SessionMetadata) (s : localSession) : localSession :=
  if ls_open s then s else mkSession m false (ls_path s).

(** Under the lock: the session, its file closed. *)
(* @src internal/recording/local.go:184-200 Finalize *)
Definition Finalize_begin (sessionID : string) : RM (result localSession) := λ st,
  match st_sessions st !! sessionID with
  | None => (Err (Errorf "session %s not found" [AStr sessionID]), st)
  | Some s => (Ok (close_file s), set_sessions st (<[sessionID := close_file s]> (st_sessions st)))
  end.

(** Under the lock, after a failed compression. *)
(* @src internal/recording/local.go:207-213 Finalize *)
Definition Finalize_failed (sessionID : string) (s : localSession) (err : error) : RM (option error) :=
  host (writeMetadata (ls_path s) (set_status (ls_metadata s) "failed")) ;;;
  update_sessions (delete sessionID) ;;;
  ret (Some (Errorf "failed to compress session: %w" [AWrap err])).

(** Under the lock, after a successful one. *)
(* @src internal/recording/local.go:219-239 Finalize *)
Definition Finalize_end (sessionID : string) (s : localSession) : RM (option error) :=
  let* now := host (fresh le_now) in
  let* info := host (os_Stat (compressed_path (ls_path s))) in
  let m := ls_metadata s in
  let size := match info with
    | Ok (File c _) => Z.of_nat (String.length c) | Ok (Dir _) => sm_size m | Err _ => sm_size m end in
  let metadata := mkMeta (sm_id m) (sm_vm m) (sm_started m) now (sm_events m) size "completed" true in
  update_sessions (alter (share metadata) sessionID) ;;;
  checked (host (writeMetadata (ls_path s) metadata)) (λ err, Some (Errorf "failed to update metadata: %w" [AWrap err])) (
  update_sessions (delete sessionID) ;;;
  ret None).

(* @func internal/recording/local.go Finalize *)
Definition Finalize (sessionID : string) : RM (option error) :=
  checked_result (Finalize_begin sessionID) Some (λ s,
  let* e := host (compressFile (events_path (ls_path s)) (compressed_path (ls_path s))) in
  match e with
  | Some err => Finalize_failed sessionID s err
  | None =>
      host (os_Remove (events_path (ls_path s))) ;;;
      Finalize_end sessionID s
  end).

(** * Looking up, listing and removing *)

(* @func internal/recording/local.go GetSession *)
Definition GetSession (sessionID : string) : RM (result SessionMetadata) := λ st,
  match st_sessions st !! sessionID with
  | Some s => (Ok (ls_metadata s), st)
  | None => host (readMetadata (session_path st sessionID)) st
  end.

(* @src internal/recording/local.go:273-290 ListSessions *)
Fixpoint list_sessions (base vmID : string) (entries : list (string * bool)) : LM (list SessionMetadata) :=
  match entries with
  | [] => ret []
  | (_, false) :: entries' => list_sessions base vmID entries'
  | (name, true) :: entries' =>
      let* r := readMetadata (filepath_join [base; name]) in
      let* rest := list_sessions base vmID entries' in
      ret match r with
      | Err _ => rest
      | Ok m => if negb (String.eqb vmID "") && negb (String.eqb (sm_vm m) vmID) then rest else m :: rest
      end
  end.

(** [os.ReadDir] and what a failure of it means. *)
Definition read_base {A} (none : A) (k : list (string * bool) → LM A) : RM (result A) := λ st,
  host (let* r := os_ReadDir (st_base st) in
        match r with
        | Err err => ret (if os_IsNotExist err then Ok none else Err (Errorf "failed to read recordings directory: %w" [AWrap err]))
        | Ok entries => let* a := k entries in ret (Ok a)
        end) st.

(* @func internal/recording/local.go ListSessions *)
Definition ListSessions (vmID : string) : RM (result (list SessionMetadata)) := λ st,
  read_base [] (list_sessions (st_base st) vmID) st.

(* @func internal/recording/local.go DeleteSession *)
Definition DeleteSession (sessionID : string) : RM (option error) := λ st,
  (update_sessions (delete sessionID) ;;;
   checked (host (os_RemoveAll_err (session_path st sessionID))) (λ err, Some (Errorf "failed to delete session: %w" [AWrap err])) (
   ret None)) st.

(* @func internal/recording/local.go GetPlaybackURL *)
Definition GetPlaybackURL (sessionID : string) : RM (result string) := λ st,
  let sessionPath := session_path st sessionID in
  (let* r := host (os_Stat sessionPath) in
   if match r with Err err => os_IsNotExist err | Ok _ => false end then
     ret (Err (Errorf "session %s not found" [AStr sessionID]))
   else
     let* c := host (os_Stat (compressed_path sessionPath)) in
     ret (Ok ("file://" +:+ (if is_Ok c then compressed_path sessionPath else events_path sessionPath)))) st.

(** The number of sessions removed, and [ctx.Err()]. *)
(* @src internal/recording/local.go:355-385 CleanupExpired *)
Fixpoint cleanup_loop (base : string) (cutoff : Z) (entries : list (string * bool)) (deleted : Z) : LM (Z * option error) :=
  match entries with
  | [] => ret (deleted, None)
  | (_, false) :: entries' => cleanup_loop base cutoff entries' deleted
  | (name, true) :: entries' =>
      let* cancelled := fresh le_done in
      match cancelled with
      | Some err => ret (deleted, Some err)
      | None =>
          let sessionPath := filepath_join [base; name] in
          let* r := readMetadata sessionPath in
          match r with
          | Err _ => cleanup_loop base cutoff entries' deleted
          | Ok m =>
              if negb (String.eqb (sm_status m) "completed") then cleanup_loop base cutoff entries' deleted
              else if (sm_ended m <? cutoff)%Z then
                let* e := os_RemoveAll_err sessionPath in
                cleanup_loop base cutoff entries' (match e with Some _ => deleted | None => deleted + 1 end)
              else cleanup_loop base cutoff entries' deleted
          end
      end
  end.

(* @func internal/recording/local.go CleanupExpired *)
Definition CleanupExpired : RM (Z * option error) := λ st,
  if (st_retention st <=? 0)%Z then (0%Z, None, st)
  else
    (let* now := host (fresh le_now) in
     let* r := read_base (0%Z, None) (λ entries, cleanup_loop (st_base st) (re_days_before now (st_retention st)) entries 0) in
     ret match r with Ok a => a | Err err => (0%Z, Some err) end) st.

(* @func internal/recording/local.go Close *)
Definition Close : RM (option error) :=
  update_sessions (λ _, ∅) ;;;
  ret None.
End Store.
