(* ===== verification/RecordingStoreSpec.v ===== *)
(** What the storage of recordings guarantees: a session stays in its directory,
    what is written to it is in its file in order, and what can go wrong. *)

From stdpp Require Import gmap sorting.
From S2P Require Import Prelude GoStrings Paths Json Storage LayerTypes LayerEnv Recording RecordingStore.

Definition content_of (n : option node) : option string :=
  match n with Some (File c _) => Some c | _ => None end.

Definition file_content (p : string) (w : LWorld) : option string := content_of (w_files w !! path_clean p).

(** * Steps that change only some files *)

Section Within.
Context `{HR : REnv}.

(** No file with a (cleaned) path outside [Q] changes. *)
Definition kept (Q : string → Prop) (w w' : LWorld) : Prop :=
  ∀ q, ¬ Q q → content_of (w_files w' !! q) = content_of (w_files w !! q).

#[local] Instance kept_preorder Q : PreOrder (kept Q).
Proof.
  split; [by intros w q|]. intros w1 w2 w3 H1 H2 q Hq. by rewrite H2, H1.
Qed.

Definition within (Q : string → Prop) {A} (m : LM A) : Prop := ∀ w, kept Q w (snd (m w)).

Lemma within_weaken (Q Q' : string → Prop) {A} (m : LM A) : (∀ q, Q q → Q' q) → within Q m → within Q' m.
Proof. intros H Hm w q Hq. apply Hm. eauto. Qed.

Lemma within_ret Q {A} (a : A) : within Q (ret a).
Proof. by intros w. Qed.

Lemma within_bind Q {A B} (m : LM A) (k : A → LM B) : within Q m → (∀ a, within Q (k a)) → within Q (bind m k).
Proof.
  intros Hm Hk w. rewrite bind_unfold. specialize (Hm w). destruct (m w) as [a w1].
  etrans; [exact Hm|]. apply Hk.
Qed.

Lemma within_checked Q {A} (m : LM (option error)) (f : error → A) k :
  within Q m → within Q k → within Q (checked m f k).
Proof. intros Hm Hk. apply within_bind; [done|]. intros [e|]; [apply within_ret|done]. Qed.

Lemma within_checked_result Q {A B} (m : LM (result A)) (f : error → B) k :
  within Q m → (∀ a, within Q (k a)) → within Q (checked_result m f k).
Proof. intros Hm Hk. apply within_bind; [done|]. intros [a|e]; [done|apply within_ret]. Qed.

(** The calls that change one file. *)
Abbreviation at_path p := (eq (path_clean p)).

Lemma within_Create p mode : within (at_path p) (os_Create p mode).
Proof.
  intros w q Hq. unfold os_Create.
  destruct (le_fault _); [done|]. destruct (w_files w !! path_clean p) as [[]|] eqn:E; cbn; [|done|];
    by rewrite lookup_insert_ne.
Qed.

Lemma within_Fill p s : within (at_path p) (os_Fill p s).
Proof. intros w q Hq. unfold os_Fill. destruct (le_fault _); cbn; by rewrite lookup_insert_ne. Qed.

Lemma within_WriteFile p s mode : within (at_path p) (os_WriteFile p s mode).
Proof. apply within_bind; [apply within_Create|]. intros [e|]; [apply within_ret|apply within_Fill]. Qed.

Lemma within_OpenAppend p mode : within (at_path p) (os_OpenAppend p mode).
Proof.
  intros w q Hq. unfold os_OpenAppend.
  destruct (le_fault _); [done|]. destruct (w_files w !! path_clean p) as [[]|]; cbn; [done..|]. by rewrite lookup_insert_ne.
Qed.

Lemma within_write_event_to p e order : within (at_path p) (write_event_to p e order).
Proof.
  intros w q Hq. unfold write_event_to.
  destruct (WriteEvent _ _ _ _) as [err s]. cbn. unfold append_to. by rewrite lookup_alter_ne.
Qed.

Lemma within_Remove p : within (at_path p) (os_Remove p).
Proof.
  intros w q Hq. unfold os_Remove.
  destruct (le_remove _); [done|]. destruct (w_files w !! path_clean p); [|done]. cbn. by rewrite lookup_delete_ne.
Qed.

Lemma within_RemoveAll d : within (below d) (os_RemoveAll_err d).
Proof.
  intros w q Hn. unfold os_RemoveAll_err, os_RemoveAll. cbn.
  destruct (le_remove _); [done|]. cbn. rewrite map_lookup_filter.
  destruct (w_files w !! q) eqn:E; [|done]. cbn. by rewrite option_guard_True.
Qed.

Lemma add_dir_content mode fs p q : content_of (add_dir mode fs p !! q) = content_of (fs !! q).
Proof.
  unfold add_dir. destruct (fs !! p) eqn:E; [done|]. destruct (decide (p = q)) as [->|Hne].
  - by rewrite lookup_insert_eq, E.
  - by rewrite lookup_insert_ne.
Qed.

(** Making directories changes no file. *)
Lemma within_MkdirAll Q p mode : within Q (os_MkdirAll p mode).
Proof.
  intros w q _. unfold os_MkdirAll. destruct (le_fault _); [done|]. unfold mkdir_all.
  destruct (existsb _ _); [done|]. cbn. revert w. generalize (path_chain p) as l. intros l w.
  generalize (w_files w) as fs. induction l as [|x l IH]; intros fs; [done|]. cbn. by rewrite IH, add_dir_content.
Qed.

(** * The directory of a session *)

Definition session_dir (base id : string) : string := filepath_join [base; id].

Lemma session_dir_elements base id :
  is_rooted base = true → plain id →
  is_rooted (session_dir base id) = true ∧ path_elements (session_dir base id) = path_elements base ++ [id].
Proof.
  intros Hr Hp. unfold session_dir. change id with (join "/" [id]) at 1 2. rewrite filepath_join_below by (done || by constructor).
  split; [apply is_rooted_render|]. apply path_elements_render, Forall_app. split; [by apply path_elements_plain|by constructor].
Qed.

(** A file in it. *)
Lemma session_file base id name :
  is_rooted base = true → plain id → plain name →
  let p := filepath_join [session_dir base id; name] in
  is_rooted p = true ∧ path_elements p = path_elements base ++ [id; name] ∧ below (session_dir base id) p.
Proof.
  intros Hr Hp Hn p. destruct (session_dir_elements base id Hr Hp) as [Hd Hel].
  destruct (session_dir_elements _ name Hd Hn) as [H1 H2]. change (session_dir (session_dir base id) name) with p in *.
  rewrite Hel, <- app_assoc in H2. split_and!; [done|done|]. unfold below. rewrite Hel, H2.
  change (path_elements base ++ [id; name]) with (path_elements base ++ [id] ++ [name]). rewrite app_assoc. by eexists.
Qed.

Lemma below_session_inj base id p :
  is_rooted base = true → plain id → below (session_dir base id) p → path_elements p !! length (path_elements base) = Some id.
Proof.
  intros Hr Hp [rest E]. destruct (session_dir_elements base id Hr Hp) as [_ Hel].
  rewrite E, Hel, <- app_assoc. cbn [app]. by apply list_lookup_middle.
Qed.

Lemma plain_dec s : bool_decide (s = "") || bool_decide (s = ".") || bool_decide (s = "..") || contains_any [slash] s = false → plain s.
Proof.
  intros [[[H1 H2]%orb_false_iff H3]%orb_false_iff H4]%orb_false_iff.
  split_and!; [by apply bool_decide_eq_false_1 in H1|by apply bool_decide_eq_false_1 in H2|by apply bool_decide_eq_false_1 in H3|done].
Qed.

Lemma plain_events : plain "events.bin".
Proof. by apply plain_dec. Qed.
Lemma plain_metadata : plain "metadata.json".
Proof. by apply plain_dec. Qed.
Lemma plain_compressed : plain "events.bin.zst".
Proof. by apply plain_dec. Qed.

(** What is recorded of a session: the content of its file of events. *)
Definition recorded (st : LocalStorage) (id : string) : option string :=
  file_content (events_path (session_path st id)) (st_host st).

(** A session keeps its path, unless it is new. *)
Definition moved (dir : string) (o o' : option localSession) : Prop :=
  ∀ s', o' = Some s' → ls_path s' = dir ∨ ∃ s, o = Some s ∧ ls_path s' = ls_path s.

(** What a method on the session [id] leaves alone: everything outside its
    directory, and the other sessions. *)
Definition confined (id : string) (st st' : LocalStorage) : Prop :=
  st_base st' = st_base st ∧ st_retention st' = st_retention st ∧
  kept (below (session_dir (st_base st) id)) (st_host st) (st_host st') ∧
  (∀ id', id' ≠ id → st_sessions st' !! id' = st_sessions st !! id') ∧
  moved (session_dir (st_base st) id) (st_sessions st !! id) (st_sessions st' !! id).

#[local] Instance confined_preorder id : PreOrder (confined id).
Proof.
  split; [intros st; split_and!; try done; intros s' E; right; by exists s'|].
  intros a b c (B1 & R1 & K1 & S1 & M1) (B2 & R2 & K2 & S2 & M2). split_and!.
  - congruence.
  - congruence.
  - etrans; [exact K1|]. by rewrite <- B1.
  - intros id' Hn. by rewrite S2, S1.
  - rewrite B1 in M2. intros s' E. destruct (M2 s' E) as [H|(s & Es & H)]; [by left|].
    rewrite H. destruct (M1 s Es) as [H'|(s0 & Es0 & H')]; [left|right; exists s0]; rewrite <- H'; done.
Qed.

Definition in_session (id : string) {A} (m : RM A) (st : LocalStorage) : Prop := confined id st (snd (m st)).

Lemma in_session_ret id {A} (a : A) st : in_session id (ret a) st.
Proof. unfold in_session. reflexivity. Qed.
#[local] Hint Resolve in_session_ret : core.

Lemma in_session_host id {A} (m : LM A) st :
  within (below (session_dir (st_base st) id)) m → in_session id (host m) st.
Proof.
  intros H. unfold in_session, host. specialize (H (st_host st)). destruct (m (st_host st)).
  split_and!; try done. intros s' E. right. by exists s'.
Qed.

Lemma in_session_bind id {A B} (m : RM A) (k : A → RM B) st :
  in_session id m st → (∀ a st', st_base st' = st_base st → in_session id (k a) st') → in_session id (bind m k) st.
Proof.
  unfold in_session. intros Hm Hk. rewrite bind_unfold. destruct (m st) as [a st1]. cbn in Hm.
  etrans; [exact Hm|]. apply Hk. apply Hm.
Qed.

Lemma in_session_checked id {A} (m : RM (option error)) (f : error → A) k st :
  in_session id m st → (∀ st', st_base st' = st_base st → in_session id k st') → in_session id (checked m f k) st.
Proof. intros Hm Hk. apply in_session_bind; [done|]. intros [e|] st' Hb; [done|by apply Hk]. Qed.

Lemma in_session_checked_result id {A B} (m : RM (result A)) (f : error → B) k st :
  in_session id m st → (∀ a st', st_base st' = st_base st → in_session id (k a) st') → in_session id (checked_result m f k) st.
Proof. intros Hm Hk. apply in_session_bind; [done|]. intros [a|e] st' Hb; [by apply Hk|done]. Qed.

Lemma in_session_update id f st :
  (∀ m id', id' ≠ id → (f m : gmap string localSession) !! id' = m !! id') →
  moved (session_dir (st_base st) id) (st_sessions st !! id) (f (st_sessions st) !! id) → in_session id (update_sessions f) st.
Proof. intros H Hm. split_and!; try done. intros id' Hn. by apply H. Qed.

Lemma in_session_delete id st : in_session id (update_sessions (delete id)) st.
Proof.
  apply in_session_update; [intros m id' Hn; by apply lookup_delete_ne|]. intros s'. by rewrite lookup_delete_eq.
Qed.

Lemma in_session_alter id f st : (∀ s, ls_path (f s) = ls_path s) → in_session id (update_sessions (alter f id)) st.
Proof.
  intros H. apply in_session_update; [intros m id' Hn; by apply lookup_alter_ne|]. intros s'. rewrite lookup_alter_eq.
  destruct (st_sessions st !! id) as [s|]; intros [= <-]. right. by exists s.
Qed.

(** * Every method stays in its session *)

Section Methods.
Context (base id : string) (Hr : is_rooted base = true) (Hid : plain id).

Lemma within_file {A} name (m : LM A) :
  plain name → within (at_path (filepath_join [session_dir base id; name])) m → within (below (session_dir base id)) m.
Proof using Hr Hid.
  intros Hn. destruct (session_file base id name Hr Hid Hn) as (H1 & _ & H2). apply within_weaken.
  intros q <-. unfold below in *. by rewrite path_elements_clean.
Qed.

Lemma within_writeMetadata m : within (below (session_dir base id)) (writeMetadata (session_dir base id) m).
Proof using Hr Hid. apply (within_file _ _ plain_metadata), within_WriteFile. Qed.

Lemma within_readMetadata d p : within d (readMetadata p).
Proof using. apply within_checked_result; [by intros w q|]. intros a. apply within_ret. Qed.

Lemma within_compressFile :
  within (at_path (compressed_path (session_dir base id))) (compressFile (events_path (session_dir base id)) (compressed_path (session_dir base id))).
Proof using.
  apply within_checked_result; [by intros w q|]. intros _.
  apply within_checked; [apply within_Create|]. apply within_checked; [by intros w q|].
  apply within_bind; [by intros w q|]. intros flushed. apply within_checked_result; [by intros w q|]. intros c.
  apply within_checked; [apply within_Fill|]. apply within_checked; [apply within_Fill|]. apply within_ret.
Qed.

Lemma StartSession_confined vm st : st_base st = base → in_session id (StartSession vm id) st.
Proof using Hr Hid.
  intros Hb. unfold in_session, StartSession. destruct (st_sessions st !! id) eqn:E; [done|].
  change (in_session id (let sessionPath := session_path st id in
    checked (host (os_MkdirAll sessionPath perm_0755)) (λ err, Some (Errorf "failed to create session directory: %w" [AWrap err])) (
    checked (host (os_OpenAppend (events_path sessionPath) perm_0600)) (λ err, Some (Errorf "failed to create events file: %w" [AWrap err])) (
    let* now := host (fresh le_now) in
    let metadata := mkMeta id vm now zero_time 0 0 "active" false in
    checked (host (writeMetadata sessionPath metadata)) (λ err, Some (Errorf "failed to write metadata: %w" [AWrap err])) (
    update_sessions (<[id := mkSession metadata true sessionPath]>) ;;; ret None)))) st).
  unfold session_path. rewrite Hb. fold (session_dir base id). cbv zeta.
  apply in_session_checked. { apply in_session_host, within_MkdirAll. }
  intros st1 H1. apply in_session_checked.
  { apply in_session_host. rewrite H1, Hb. apply (within_file _ _ plain_events), within_OpenAppend. }
  intros st2 H2. apply in_session_bind. { apply in_session_host. by intros w q. }
  intros now st3 H3. apply in_session_checked.
  { apply in_session_host. rewrite H3, H2, H1, Hb. apply within_writeMetadata. }
  intros st4 H4. apply in_session_bind; [|by intros].
  apply in_session_update; [intros m id' Hn; by apply lookup_insert_ne|].
  intros s'. rewrite lookup_insert_eq. intros [= <-]. left. by rewrite H4, H3, H2, H1, Hb.
Qed.

Definition tracked_here (st : LocalStorage) : Prop :=
  ∀ s, st_sessions st !! id = Some s → ls_path s = session_dir base id.

Lemma write_one_confined order e st : st_base st = base → tracked_here st → in_session id (write_one id order e) st.
Proof using Hr Hid.
  intros Hb Ht. unfold in_session, write_one. destruct (st_sessions st !! id) as [s|] eqn:E; [|done].
  rewrite (Ht s E). apply in_session_checked.
  - destruct (_ || _); [|done]. apply in_session_host. rewrite Hb.
    apply (within_file _ _ plain_events), within_write_event_to.
  - intros st1 H1. apply in_session_bind; [|by intros].
    by apply in_session_alter.
Qed.

Lemma Finalize_confined st : st_base st = base → tracked_here st → in_session id (Finalize id) st.
Proof using Hr Hid.
  intros Hb Ht. unfold in_session, Finalize, checked_result. rewrite bind_unfold. unfold Finalize_begin.
  destruct (st_sessions st !! id) as [s|] eqn:E; [|done]. unfold ls_path, close_file. cbn [ls_metadata ls_open].
  set (s' := mkSession _ _ _). set (st1 := set_sessions st _). fold (ls_path s). rewrite (Ht s E).
  assert (ls_path s' = session_dir base id) as Hs' by exact (Ht s E). clearbody s'.
  assert (confined id st st1) as H1. { split_and!; try done; [intros id' Hn; by apply lookup_insert_ne|].
    unfold st1. intros s''. cbn. rewrite lookup_insert_eq. intros [= <-]. left. cbn [st_base]. by rewrite Hs', Hb. }
  etrans; [exact H1|]. change (st_base st1) with (st_base st) in *. clear H1.
  assert (st_base st1 = base) as Hb1 by done. clearbody st1.
  apply in_session_bind. { apply in_session_host. rewrite Hb1. apply (within_file _ _ plain_compressed), within_compressFile. }
  intros [err|] st2 H2.
  - unfold Finalize_failed. rewrite Hs'. apply in_session_bind. { apply in_session_host. rewrite H2, Hb1. apply within_writeMetadata. }
    intros _ st3 H3. apply in_session_bind; [|by intros]. apply in_session_delete.
  - apply in_session_bind.
    { apply in_session_host. rewrite H2, Hb1. apply (within_file _ _ plain_events), within_Remove. }
    intros _ st3 H3. unfold Finalize_end. rewrite Hs'. apply in_session_bind. { apply in_session_host. by intros w q. }
    intros now st4 H4. apply in_session_bind. { apply in_session_host. by intros w q. }
    intros info st5 H5. cbv zeta. apply in_session_bind. { apply in_session_alter. intros s0. unfold share. by destruct (ls_open s0). }
    intros _ st6 H6. apply in_session_checked. { apply in_session_host. rewrite H6, H5, H4, H3, H2, Hb1. apply within_writeMetadata. }
    intros st7 H7. apply in_session_bind; [|by intros]. apply in_session_delete.
Qed.

Lemma DeleteSession_confined st : st_base st = base → in_session id (DeleteSession id) st.
Proof using.
  intros Hb. unfold in_session, DeleteSession. unfold session_path. rewrite Hb. fold (session_dir base id).
  apply in_session_bind. { apply in_session_delete. }
  intros _ st1 H1. apply in_session_checked; [|by intros]. apply in_session_host. rewrite H1, Hb.
  apply within_RemoveAll.
Qed.
End Methods.

(** * The sessions of the storage *)

(** Ids are names, and a session lies in the directory of its id. *)
Definition paths_ok (st : LocalStorage) : Prop :=
  is_rooted (st_base st) = true ∧
  ∀ id s, st_sessions st !! id = Some s → plain id ∧ ls_path s = session_dir (st_base st) id.

Lemma confined_paths_ok id st st' : paths_ok st → plain id → confined id st st' → paths_ok st'.
Proof.
  intros [Hr H] Hid (B & _ & _ & S & M). rewrite <- B in Hr. split; [done|]. intros id' s E.
  destruct (decide (id' = id)) as [->|Hn].
  - split; [done|]. rewrite B. destruct (M s E) as [?|(s0 & E0 & ->)]; [done|]. by apply H.
  - rewrite B. apply H. by rewrite <- S.
Qed.

Lemma confined_recorded id st st' id' :
  is_rooted (st_base st) = true → plain id → plain id' → id' ≠ id → confined id st st' →
  recorded st' id' = recorded st id'.
Proof.
  intros Hr Hid Hid' Hn (B & _ & K & _). unfold recorded, session_path. rewrite B. fold (session_dir (st_base st) id').
  apply K. destruct (session_file _ id' _ Hr Hid' plain_events) as (H1 & H2 & _). intros Hb.
  apply below_session_inj in Hb; [|done..]. unfold events_path in Hb. rewrite path_elements_clean in Hb by done.
  rewrite H2, list_lookup_middle in Hb by done. congruence.
Qed.

Inductive method : Type :=
  | MStart (vm : string)
  | MWrite (order : Event → list (string * string)) (events : list Event)
  | MFinalize
  | MDelete.

Definition invoke (id : string) (m : method) : RM (option error) :=
  match m with
  | MStart vm => StartSession vm id
  | MWrite order events => write_session order events id
  | MFinalize => Finalize id
  | MDelete => DeleteSession id
  end.

Lemma confined_for_each id (st : LocalStorage) l (body : Event → RM (option error)) :
  paths_ok st → plain id →
  (∀ e st', st_base st' = st_base st → paths_ok st' → in_session id (body e) st') → in_session id (for_each_err l body) st.
Proof.
  intros Hok Hid. revert st Hok. induction l as [|e l IH]; intros st Hok Hb; cbn [for_each_err]; [done|].
  unfold in_session. rewrite bind_unfold. pose proof (Hb e st eq_refl Hok) as H. unfold in_session in H.
  destruct (body e st) as [[err|] st1]; [done|]. cbn in H. etrans; [exact H|].
  pose proof (confined_paths_ok _ _ _ Hok Hid H) as Hok1. apply IH; [done|]. intros e' st' E' Hok'. apply Hb; [|done].
  rewrite E'. apply H.
Qed.

Lemma tracked_of_paths st id : paths_ok st → tracked_here (st_base st) id st.
Proof. intros [_ H] s E. by apply H. Qed.

Lemma invoke_confined id m st : paths_ok st → plain id → in_session id (invoke id m) st.
Proof.
  intros Hok Hid. pose proof (proj1 Hok) as Hr. destruct m as [vm|order events| |]; cbn.
  - by apply (StartSession_confined (st_base st)).
  - unfold in_session, write_session, checked. rewrite bind_unfold.
    set (es := filter _ _). set (start := match _ with Some _ => _ | None => _ end).
    assert (confined id st (snd (start st))) as H1.
    { unfold start. destruct (st_sessions st !! id), es as [|e es]; try reflexivity.
      pose proof (StartSession_confined (st_base st) id Hr Hid (e_vm e) st eq_refl) as H. unfold in_session in H.
      rewrite bind_unfold. by destruct (StartSession (e_vm e) id st). }
    destruct (start st) as [[err|] st1]; [done|]. cbn in H1. etrans; [exact H1|].
    pose proof (confined_paths_ok _ _ _ Hok Hid H1) as Hok1. apply confined_for_each; [done..|].
    intros e st' E' Hok'. apply (write_one_confined (st_base st')); [apply Hok'|done|done|]. by apply tracked_of_paths.
  - apply (Finalize_confined (st_base st)); [done..|]. by apply tracked_of_paths.
  - by apply (DeleteSession_confined (st_base st)).
Qed.

(** sessions are isolated: whatever the host answers, starting, writing,
    finalizing or deleting the session [id] -- a plain name -- changes no file
    outside the directory of [id], no other session and nothing of what is recorded
    of another one; and sessions stay in their directories. *)
Theorem sessions_isolated id m st st' err :
  paths_ok st → plain id → invoke id m st = (err, st') →
  paths_ok st' ∧
  (∀ q, ¬ below (session_dir (st_base st) id) q →
     content_of (w_files (st_host st') !! q) = content_of (w_files (st_host st) !! q)) ∧
  ∀ id', plain id' → id' ≠ id →
    st_sessions st' !! id' = st_sessions st !! id' ∧ recorded st' id' = recorded st id'.
Proof.
  intros Hok Hid E. pose proof (invoke_confined id m st Hok Hid) as H. unfold in_session in H. rewrite E in H.
  cbn in H. split_and!.
  - by eapply confined_paths_ok.
  - apply H.
  - intros id' Hid' Hn. split; [by apply H|]. apply (confined_recorded id); [apply Hok|done..].
Qed.


(** * What a write records *)

(** The file of an open session is there. *)
Definition files_ok (st : LocalStorage) : Prop :=
  paths_ok st ∧ ∀ id s, st_sessions st !! id = Some s → ls_open s = true → is_Some (recorded st id).

Lemma write_event_to_content p e order w w' c :
  wire_ok e order → write_event_to p e order w = (None, w') → file_content p w = Some c →
  file_content p w' = Some (c +:+ encode e order).
Proof.
  intros Hw. unfold write_event_to. destruct (writes_event le_fault e order Hw (mkSink "" (w_tick w))) as [_ Hd].
  destruct (WriteEvent _ _ _ _) as [err s]. cbn in Hd. intros [= -> <-] Hc. unfold file_content in *. cbn.
  unfold append_to. rewrite lookup_alter_eq. destruct (w_files w !! path_clean p) as [[x m|]|]; [|done..].
  cbn in *. injection Hc as ->. by rewrite Hd.
Qed.

Lemma host_eq {A} (m : LM A) st : host m st = (fst (m (st_host st)), set_host st (snd (m (st_host st)))).
Proof. unfold host. by destruct (m (st_host st)). Qed.

Lemma write_one_records id order e st st' s c :
  paths_ok st → st_sessions st !! id = Some s → recorded st id = Some c → wire_ok e (order e) →
  write_one id order e st = (None, st') →
  st_base st' = st_base st ∧ st_sessions st' !! id = Some (count_event e s) ∧
  recorded st' id = Some (c +:+ encode e (order e)).
Proof.
  intros [_ Hok] E Hc Hw. unfold write_one. rewrite E. unfold checked. rewrite bind_unfold.
  destruct (ls_open s || oversized e); [|done]. rewrite host_eq.
  destruct (write_event_to _ e (order e) (st_host st)) as [[err|] w1] eqn:Ew; cbn; [done|]. intros [= <-]. cbn.
  rewrite lookup_alter_eq, E. split_and!; [done..|]. rewrite (proj2 (Hok id s E)) in Ew.
  by eapply write_event_to_content.
Qed.

(** The counters of a session after some events. *)
Definition count_events (l : list Event) (s : localSession) : localSession := foldl (λ s e, count_event e s) s l.

Lemma write_all_records id order l st st' s c :
  paths_ok st → plain id → st_sessions st !! id = Some s → recorded st id = Some c → Forall (λ e, wire_ok e (order e)) l →
  for_each_err l (write_one id order) st = (None, st') →
  recorded st' id = Some (c +:+ recording ((λ e, (e, order e)) <$> l)) ∧
  st_sessions st' !! id = Some (count_events l s).
Proof.
  intros Hok Hid E Hc Hl. revert st s c Hok E Hc. induction Hl as [|e l He Hl IH]; intros st s c Hok E Hc; cbn [for_each_err].
  - intros [= <-]. cbn. by rewrite string_app_nil_r.
  - rewrite bind_unfold. pose proof (write_one_confined (st_base st) id (proj1 Hok) Hid order e st eq_refl (tracked_of_paths _ _ Hok)) as Hcf.
    unfold in_session in Hcf. destruct (write_one id order e st) as [[err|] st1] eqn:E1; [done|]. cbn in Hcf.
    destruct (write_one_records id order e st st1 s c Hok E Hc He E1) as (Hb & E' & Hc').
    intros H. destruct (IH st1 _ _ (confined_paths_ok _ _ _ Hok Hid Hcf) E' Hc' H) as [H1 H2]. rewrite H1, H2.
    cbn. by rewrite string_app_assoc.
Qed.

(** Files of different names are different files. *)
Lemma session_files_differ base id x y :
  is_rooted base = true → plain id → plain x → plain y → x ≠ y →
  path_clean (filepath_join [session_dir base id; x]) ≠ path_clean (filepath_join [session_dir base id; y]).
Proof.
  intros Hr Hid Hx Hy Hn E. apply (f_equal path_elements) in E.
  destruct (session_file base id x Hr Hid Hx) as (H1 & H2 & _).
  destruct (session_file base id y Hr Hid Hy) as (H3 & H4 & _).
  rewrite !path_elements_clean, H2, H4 in E by done. apply app_inv_head in E. congruence.
Qed.

Lemma OpenAppend_content p mode w w' :
  os_OpenAppend p mode w = (None, w') → file_content p w' = Some (default "" (file_content p w)).
Proof.
  unfold os_OpenAppend, file_content. destruct (le_fault _); [done|].
  destruct (w_files w !! path_clean p) as [[]|] eqn:E; intros [= <-]; cbn; [by rewrite E|by rewrite lookup_insert_eq].
Qed.

(** Starting a session keeps what an earlier one of the same id has recorded. *)
Lemma StartSession_records vm id st st' :
  paths_ok st → plain id → StartSession vm id st = (None, st') →
  recorded st' id = Some (default "" (recorded st id)) ∧
  ∃ now, st_sessions st' !! id = Some (mkSession (mkMeta id vm now zero_time 0 0 "active" false) true (session_dir (st_base st) id)).
Proof.
  intros [Hr Hok] Hid. unfold StartSession. destruct (st_sessions st !! id) eqn:E; [done|].
  unfold session_path. fold (session_dir (st_base st) id). set (d := session_dir (st_base st) id). cbv zeta.
  unfold checked at 1. rewrite bind_unfold, host_eq.
  pose proof (within_MkdirAll (λ _, False) d perm_0755 (st_host st)) as Hk1.
  destruct (os_MkdirAll d perm_0755 (st_host st)) as [[err|] w1]; cbn in Hk1 |- *; [done|].
  unfold checked at 1. rewrite bind_unfold, host_eq. cbn [st_host set_host].
  destruct (os_OpenAppend (events_path d) perm_0600 w1) as [[err|] w2] eqn:E2; cbn [fst snd]; [done|].
  rewrite bind_unfold, host_eq. cbn [st_host set_host].
  destruct (fresh le_now w2) as [now w3] eqn:E3. cbn [fst snd]. unfold checked. rewrite bind_unfold, host_eq. cbn [st_host set_host].
  pose proof (within_WriteFile (metadata_path d) (json_Marshal (enc_metadata (mkMeta id vm now zero_time 0 0 "active" false))) perm_0600 w3) as Hk4.
  unfold writeMetadata. destruct (os_WriteFile (metadata_path d) _ perm_0600 w3) as [[err|] w4]; [done|]. cbn in Hk4.
  intros [= <-]. unfold recorded, session_path. cbn. fold (session_dir (st_base st) id). fold d. split.
  - unfold file_content at 1. rewrite Hk4 by (apply session_files_differ; auto using plain_metadata, plain_events).
    injection E3 as _ <-. change (file_content (events_path d) w2 = Some (default "" (file_content (events_path d) (st_host st)))).
    rewrite (OpenAppend_content _ _ _ _ E2). do 2 f_equal. apply Hk1. tauto.
  - exists now. by rewrite lookup_insert_eq.
Qed.

Definition events_of (id : string) (events : list Event) : list Event := filter (λ e, e_session e = id) events.
Definition with_order (order : Event → list (string * string)) (l : list Event) : list (Event * list (string * string)) :=
  (λ e, (e, order e)) <$> l.

(** The session the events of a batch are counted in: the one that is open, or a
    new one, of the VM the first of the events names. *)
Definition session_for (st : LocalStorage) (id : string) (events : list Event) (s : localSession) : Prop :=
  ls_open s = true ∧
  match st_sessions st !! id with
  | Some s' => s = s'
  | None => ∃ now path vm,
      (e_vm <$> head (events_of id events)) = Some vm ∧
      s = mkSession (mkMeta id vm now zero_time 0 0 "active" false) true path
  end.

Lemma write_session_records id order events st st' :
  files_ok st → plain id → events_of id events ≠ [] → Forall (λ e, wire_ok e (order e)) events →
  write_session order events id st = (None, st') →
  files_ok st' ∧ (∀ id', plain id' → id' ≠ id → recorded st' id' = recorded st id') ∧
  recorded st' id = Some (default "" (recorded st id) +:+ recording (with_order order (events_of id events))) ∧
  (∀ id', id' ≠ id → st_sessions st' !! id' = st_sessions st !! id') ∧
  ∃ s, session_for st id events s ∧ st_sessions st' !! id = Some (count_events (events_of id events) s).
Proof.
  intros [Hok Hf] Hid Hne Hw E.
  assert (recorded st' id = Some (default "" (recorded st id) +:+ recording (with_order order (events_of id events))) ∧
    ∃ s, session_for st id events s ∧ st_sessions st' !! id = Some (count_events (events_of id events) s)) as [Hrec Hses].
  { unfold session_for. unfold write_session in E. fold (events_of id events) in E.
    assert (Forall (λ e, wire_ok e (order e)) (events_of id events)) as Hw' by (apply Forall_forall; intros e' [_ He']%list_elem_of_filter; by eapply Forall_forall in Hw).
    destruct (events_of id events) as [|e l]; [done|]. unfold checked in E. rewrite bind_unfold in E.
    destruct (st_sessions st !! id) as [s|] eqn:Es.
    - cbn in E. destruct (ls_open s) eqn:Hop.
      + destruct (Hf id s Es Hop) as [c Hc]. rewrite Hc.
        destruct (write_all_records id order (e :: l) st st' s c Hok Hid Es Hc Hw' E) as [H1 H2]. split; [exact H1|]. by exists s.
      + exfalso. cbn [for_each_err] in E. rewrite bind_unfold in E. unfold write_one at 1 in E. rewrite Es, Hop in E.
        unfold oversized in E. rewrite (proj2 (Z.ltb_ge _ _)) in E; [done|]. apply Forall_cons in Hw' as [Hw' _]. apply Hw'.
    - rewrite bind_unfold in E. pose proof (StartSession_confined (st_base st) id (proj1 Hok) Hid (e_vm e) st eq_refl) as Hc.
      unfold in_session in Hc. destruct (StartSession (e_vm e) id st) as [[err|] st1] eqn:E1; [done|]. cbn in Hc, E.
      destruct (StartSession_records _ _ _ _ Hok Hid E1) as (Hr1 & now & Hs1).
      destruct (write_all_records id order (e :: l) st1 st' _ _ (confined_paths_ok _ _ _ Hok Hid Hc) Hid Hs1 Hr1 Hw' E) as [H1 H2].
      split; [exact H1|]. eexists. split; [|exact H2]. split; [done|]. by eexists _, _, _. }
  pose proof (invoke_confined id (MWrite order events) st Hok Hid) as H. unfold in_session in H. cbn in H. rewrite E in H. cbn in H.
  pose proof (confined_paths_ok _ _ _ Hok Hid H) as Hok'.
  assert (∀ id', plain id' → id' ≠ id → recorded st' id' = recorded st id') as Ho.
  { intros id' Hid' Hn. apply (confined_recorded id); [apply Hok|done..]. }
  assert (∀ id', id' ≠ id → st_sessions st' !! id' = st_sessions st !! id') as Hs by (intros id' Hn; by apply H).
  split_and!; [split; [done|]|done|done|done|done].
  intros id' s Es Hop. destruct (decide (id' = id)) as [->|Hn]; [by rewrite Hrec|].
  rewrite (Ho id' (proj1 (proj2 Hok' id' s Es)) Hn). apply (Hf id' s); [|done]. rewrite <- Es. symmetry. by apply H.
Qed.

(** C19: A batch that is written without an error is recorded, whatever the host
    answered, when the ids of its sessions are plain names (the code accepts
    others), its events are within the limits of the wire format, and the file of
    every open session is there.  For every session of the batch the file of events
    grows by exactly the events of that session, encoded in the order of the batch
    (what an earlier session of the same id had recorded stays in front), and the
    session is open with these events counted: one that was not open has been
    started, for the VM of its first event.  The recordings of sessions with other
    plain ids, and all other sessions, are as they were. *)
Theorem Write_records sessions order events st st' :
  files_ok st → Forall plain sessions → NoDup sessions →
  (∀ id, id ∈ sessions ↔ events_of id events ≠ []) → Forall (λ e, wire_ok e (order e)) events →
  Write sessions order events st = (None, st') →
  files_ok st' ∧
  (∀ id, id ∈ sessions →
     recorded st' id = Some (default "" (recorded st id) +:+ recording (with_order order (events_of id events))) ∧
     ∃ s, session_for st id events s ∧ st_sessions st' !! id = Some (count_events (events_of id events) s)) ∧
  (∀ id, id ∉ sessions → (plain id → recorded st' id = recorded st id) ∧ st_sessions st' !! id = st_sessions st !! id).
Proof.
  intros Hok Hp Hnd Hs Hw E. unfold Write in E.
  assert (∀ id, id ∈ sessions → events_of id events ≠ []) as Hs' by (intros; by apply Hs).
  assert (for_each_err sessions (write_session order events) st = (None, st')) as E'.
  { destruct events; [|done]. destruct sessions as [|id sessions]; [done|]. by destruct (Hs' id); [left|]. }
  clear E Hs. revert st Hok E'. induction Hnd as [|id sessions Hn Hnd IH]; intros st Hok E; cbn [for_each_err] in E.
  - injection E as <-. split_and!; [done| |done]. by intros id Hin%elem_of_nil.
  - apply Forall_cons in Hp as [Hid Hp]. rewrite bind_unfold in E.
    destruct (write_session order events id st) as [[err|] st1] eqn:E1; [done|].
    destruct (write_session_records id order events st st1 Hok Hid (Hs' id ltac:(left)) Hw E1) as (Hok1 & Ho & Hr & Hses & Hopen).
    destruct (IH Hp (λ id' Hin, Hs' id' (list_elem_of_further _ _ _ Hin)) st1 Hok1 E) as (Hok' & Hin' & Hout'). split_and!; [done| |].
    + intros id' [->|Hin]%elem_of_cons.
      * destruct (Hout' id Hn) as [H1 H2]. rewrite H1, H2 by done. done.
      * assert (id' ≠ id) as Hne by congruence. destruct (Hin' id' Hin) as (H1 & s & H2 & H3).
        rewrite Ho in H1 by (done || by eapply Forall_forall in Hp). split; [done|]. exists s. unfold session_for in *.
        by rewrite <- (Hses id' Hne).
    + intros id' [Hne Hout]%not_elem_of_cons. destruct (Hout' id' Hout) as [H1 H2].
      split; [intros Hid'; rewrite H1 by done; by apply Ho|]. rewrite H2. by apply Hses.
Qed.

(** * What finalizing leaves *)

Lemma ReadFile_content p w c w' : os_ReadFile p w = (Ok c, w') → file_content p w = Some c ∧ w' = tick w.
Proof.
  unfold os_ReadFile, file_content. destruct (le_fault _); [done|].
  destruct (w_files w !! path_clean p) as [[x m|m]|]; [|done..]. by intros [= <- <-].
Qed.

Lemma Fill_content p s w w' : os_Fill p s w = (None, w') → file_content p w' = Some s.
Proof.
  unfold os_Fill, file_content. destruct (le_fault _); [done|]. intros [= <-]. cbn. by rewrite lookup_insert_eq.
Qed.

Lemma WriteFile_content p s mode w w' : os_WriteFile p s mode w = (None, w') → file_content p w' = Some s.
Proof.
  unfold os_WriteFile. rewrite bind_unfold. destruct (os_Create p mode w) as [[e|] w1]; [done|]. apply Fill_content.
Qed.

Lemma checked_None_inv {S} (m : State S (option error)) (f : error → error) k (w w' : S) :
  checked m (λ e, Some (f e)) k w = (None, w') → ∃ w1, m w = (None, w1) ∧ k w1 = (None, w').
Proof. unfold checked. rewrite bind_unfold. destruct (m w) as [[e|] w1]; [done|eauto]. Qed.

Lemma checked_result_None_inv {S A} (m : State S (result A)) (f : error → error) k (w w' : S) :
  checked_result m (λ e, Some (f e)) k w = (None, w') → ∃ a w1, m w = (Ok a, w1) ∧ k a w1 = (None, w').
Proof. unfold checked_result. rewrite bind_unfold. destruct (m w) as [[a|e] w1]; [eauto|done]. Qed.

(** A compression that succeeds. *)
Lemma compressFile_content src dst w w' :
  path_clean dst ≠ path_clean src → compressFile src dst w = (None, w') →
  ∃ c, file_content src w = Some c ∧ file_content dst w' = Some (re_zstd c).
Proof.
  intros Hn E. apply checked_result_None_inv in E as (n & w1 & E1 & E).
  apply checked_None_inv in E as (w2 & E2 & E). pose proof (within_Create dst perm_0666 w1) as K2. rewrite E2 in K2.
  apply checked_None_inv in E as (w3 & E3 & E). rewrite bind_unfold in E.
  destruct (fresh le_partial w3) as [flushed w4] eqn:E4. apply checked_result_None_inv in E as (c & w5 & E5 & E).
  apply checked_None_inv in E as (w6 & E6 & E). apply checked_None_inv in E as (w7 & E7 & E). injection E as <-.
  apply ReadFile_content in E5 as [Hc _]. injection E4 as _ <-. injection E3 as _ <-. injection E1 as _ <-.
  exists c. split; [|by eapply Fill_content]. rewrite <- Hc. symmetry. by apply (K2 (path_clean src)).
Qed.

(** a session that is finalized without an error had been started and is not
    open any more; its compressed file holds the compressed form of exactly what
    was recorded, and the metadata on disk says it is completed, with the number of
    events that were written to it. *)
Theorem Finalize_spec id st st' :
  paths_ok st → Finalize id st = (None, st') →
  ∃ s c ended size,
    st_sessions st !! id = Some s ∧ recorded st id = Some c ∧ st_sessions st' !! id = None ∧
    file_content (compressed_path (session_path st id)) (st_host st') = Some (re_zstd c) ∧
    file_content (metadata_path (session_path st id)) (st_host st') =
      Some (json_Marshal (enc_metadata (mkMeta (sm_id (ls_metadata s)) (sm_vm (ls_metadata s)) (sm_started (ls_metadata s)) ended
        (sm_events (ls_metadata s)) size "completed" true))).
Proof.
  intros [Hr Hok] E. unfold Finalize in E. apply (checked_result_None_inv _ (λ e, e)) in E as (s' & st1 & E1 & E).
  unfold Finalize_begin in E1. destruct (st_sessions st !! id) as [s|] eqn:Es; [|done]. injection E1 as <- <-.
  destruct (Hok id s Es) as [Hid Hpath]. cbn [ls_path close_file] in E. rewrite Hpath in E.
  unfold recorded, session_path. fold (session_dir (st_base st) id). set (d := session_dir (st_base st) id) in *.
  rewrite bind_unfold, host_eq in E. cbn [st_host set_sessions] in E.
  destruct (compressFile _ _ _) as [[err|] w1] eqn:Ec; cbn [fst snd] in E.
  { unfold Finalize_failed in E. repeat (rewrite bind_unfold in E; destruct (host _ _)). done. }
  apply compressFile_content in Ec as (c & Hc & Hz); [|apply session_files_differ; auto using plain_compressed, plain_events].
  rewrite bind_unfold, host_eq in E. cbn [st_host set_host] in E.
  pose proof (within_Remove (events_path d) w1) as K2. destruct (os_Remove (events_path d) w1) as [r w2]. cbn [fst snd] in *.
  unfold Finalize_end in E. cbn [ls_path close_file ls_metadata] in E. rewrite Hpath in E. fold d in E.
  rewrite bind_unfold, host_eq in E. cbn [st_host set_host] in E.
  destruct (fresh le_now w2) as [now w3] eqn:E3. cbn [fst snd] in E. rewrite bind_unfold, host_eq in E. cbn [st_host set_host] in E.
  destruct (os_Stat _ w3) as [info w4] eqn:E4. cbn [fst snd] in E. rewrite bind_unfold in E. cbn [update_sessions] in E.
  apply checked_None_inv in E as (st5 & E5 & E). rewrite host_eq in E5. cbn [st_host set_host set_sessions] in E5.
  set (m := mkMeta _ _ _ _ _ _ _ _) in E5. pose proof (within_WriteFile (metadata_path d) (json_Marshal (enc_metadata m)) perm_0600 w4) as K5.
  unfold writeMetadata in E5. destruct (os_WriteFile (metadata_path d) _ _ w4) as [[err|] w5] eqn:E6; [done|].
  cbn [fst snd] in *. injection E5 as <-. injection E as <-. exists s, c, now, (sm_size m). cbn.
  split_and!; [done|done|by rewrite lookup_delete_eq| |].
  - unfold file_content at 1. rewrite K5 by (apply session_files_differ; auto using plain_compressed, plain_metadata).
    injection E4 as _ <-. injection E3 as _ <-. cbn. rewrite K2 by (apply session_files_differ; auto using plain_compressed, plain_events).
    exact Hz.
  - by apply WriteFile_content in E6.
Qed.
End Within.

(** * A concrete storage *)

Definition recording_env (faults : list nat) : REnv := {|
  re_host := scripted_env faults (JObj []);
  re_time_text _ := "2025-01-01T00:00:00Z";
  re_text_time _ := Some 0%Z;
  re_days_before now days := (now - days * 86400 * 1000000000)%Z;
  re_zstd s := "zstd:" +:+ s |}.

Definition store_ex : LocalStorage :=
  mkStore "/data/recordings" 30 ∅ (world_of empty_db {["/data/recordings" := Dir perm_0755]}).

Lemma plain_s1 : plain "s-1".
Proof. by apply plain_dec. Qed.

Lemma paths_ok_ex : paths_ok store_ex.
Proof. split; [done|]. intros id s E. cbn in E. by rewrite lookup_empty in E. Qed.

Lemma sessions_isolated_witness :
  let r := invoke (HR := recording_env []) "s-1" (MStart "vm-1") store_ex in
  paths_ok (snd r) ∧ fst r = None ∧ recorded (snd r) "s-2" = recorded store_ex "s-2".
Proof.
  cbv zeta. destruct (invoke (HR := recording_env []) "s-1" (MStart "vm-1") store_ex) as [err st'] eqn:E.
  destruct (sessions_isolated (HR := recording_env []) "s-1" (MStart "vm-1") store_ex st' err paths_ok_ex plain_s1 E) as (H1 & _ & H2).
  split_and!; [exact H1| |apply H2; [by apply plain_dec|done]].
  cbn [fst snd]. apply (f_equal fst) in E. cbn [fst] in E. rewrite <- E. vm_compute. reflexivity.
Defined.

Definition order_ex (e : Event) : list (string * string) := [("l", ""); ("k", "v")].

Lemma Write_records_witness :
  let r := Write (HR := recording_env []) ["s-1"] order_ex [wire_event_ex; wire_event_ex] store_ex in
  fst r = None ∧ recorded (snd r) "s-1" = Some (recording [(wire_event_ex, [("l", ""); ("k", "v")]); (wire_event_ex, [("l", ""); ("k", "v")])]) ∧
  is_Some (st_sessions (snd r) !! "s-1").
Proof.
  cbv zeta. destruct (Write (HR := recording_env []) ["s-1"] order_ex [wire_event_ex; wire_event_ex] store_ex) as [err st'] eqn:E.
  assert (err = None) as ->. { apply (f_equal fst) in E. cbn [fst] in E. rewrite <- E. vm_compute. reflexivity. }
  cbn [fst snd]. split; [done|].
  destruct (Write_records (HR := recording_env []) ["s-1"] order_ex [wire_event_ex; wire_event_ex] store_ex st') as (_ & H & _).
  - split; [exact paths_ok_ex|]. intros id s Es. cbn in Es. by rewrite lookup_empty in Es.
  - constructor; [exact plain_s1|constructor].
  - apply NoDup_singleton.
  - intros id. unfold events_of. rewrite list_elem_of_singleton, !filter_cons, filter_nil.
    change (e_session wire_event_ex) with "s-1". destruct (decide ("s-1" = id)) as [<-|Hn].
    + split; [intros _; discriminate|reflexivity].
    + split; [intros ->; by destruct Hn|intros H; by destruct H].
  - constructor; [exact wire_ok_ex|constructor; [exact wire_ok_ex|constructor]].
  - exact E.
  - destruct (H "s-1" ltac:(left)) as (H1 & s & _ & H2). split; [|by eexists].
    rewrite H1. vm_compute. reflexivity.
Defined.

Definition finalized_ex : LocalStorage :=
  snd ((Write (HR := recording_env []) ["s-1"] order_ex [wire_event_ex] ;;; Finalize (HR := recording_env []) "s-1") store_ex).

Lemma Finalize_spec_witness :
  let st := snd (Write (HR := recording_env []) ["s-1"] order_ex [wire_event_ex] store_ex) in
  fst (Finalize (HR := recording_env []) "s-1" st) = None ∧ st_sessions (snd (Finalize (HR := recording_env []) "s-1" st)) !! "s-1" = None.
Proof.
  cbv zeta. destruct (Write (HR := recording_env []) ["s-1"] order_ex [wire_event_ex] store_ex) as [err st] eqn:E.
  assert (paths_ok st) as Hok.
  { pose proof (invoke_confined (HR := recording_env []) "s-1" (MWrite order_ex [wire_event_ex]) store_ex paths_ok_ex plain_s1) as H.
    assert (snd (invoke (HR := recording_env []) "s-1" (MWrite order_ex [wire_event_ex]) store_ex) = st) as E'.
    { apply (f_equal snd) in E. cbn [snd] in E. rewrite <- E. vm_compute. reflexivity. }
    unfold in_session in H. rewrite E' in H. exact (confined_paths_ok "s-1" store_ex st paths_ok_ex plain_s1 H). }
  cbn [snd]. destruct (Finalize (HR := recording_env []) "s-1" st) as [err' st'] eqn:E2. cbn [fst snd].
  assert (err' = None) as ->.
  { apply (f_equal snd) in E. cbn [snd] in E. apply (f_equal fst) in E2. cbn [fst] in E2. rewrite <- E2, <- E. vm_compute. reflexivity. }
  split; [done|]. destruct (Finalize_spec (HR := recording_env []) "s-1" st st' Hok E2) as (s & c & t & z & _ & _ & H & _). exact H.
Defined.

(** * What goes wrong *)

(** A session id is whatever the guest sends: its directory can be anywhere. *)
Example session_id_escapes :
  let '(err, st) := Write (HR := recording_env []) ["../images/x"] (λ _, [])
    [mkEvent "vm-1" "../images/x" 0 EventTerminalOutput "hello" ∅] store_ex in
  err = None ∧ is_file (w_files (st_host st) !! "/data/images/x/events.bin") = true.
Proof. vm_compute. done. Qed.

(** An event that arrives after the session has been finalized starts it again:
    the metadata says so, and finalizing once more replaces the recording by the
    late event. *)
Example late_event_replaces_the_recording :
  let late := mkEvent "vm-1" "s-1" 0 EventSessionEnd "" ∅ in
  let '(err, st) := Write (HR := recording_env []) ["s-1"] (λ _, []) [late] finalized_ex in
  let '(err', st') := Finalize (HR := recording_env []) "s-1" st in
  file_content "/data/recordings/s-1/events.bin.zst" (st_host finalized_ex) = Some ("zstd:" +:+ encode wire_event_ex [("l", ""); ("k", "v")]) ∧
  err = None ∧ err' = None ∧
  file_content "/data/recordings/s-1/events.bin.zst" (st_host st') = Some ("zstd:" +:+ encode late []).
Proof. vm_compute. done. Qed.

(** An unknown session is an error, not the absence of one. *)
Example GetSession_unknown :
  fst (GetSession (HR := recording_env []) "s-9" store_ex) = Err (ErrorsNew ErrNotExist).
Proof. vm_compute. done. Qed.
