(* ===== verification/Inspect.v ===== *)
(** The inspection of an image (src/internal/inspect/inspector.go): the build manifest
    that the composer left in it is read, through a read-only mount or with debugfs, and
    reported.  The host is that of LayerEnv.v, on which the composer works as well; the
    manifest is the composer's, of which the inspector has its own copy. *)

From stdpp Require Import gmap.
From S2P Require Import Prelude GoStrings Paths Json Storage LayerTypes LayerManifest LayerEnv LayerCompose.
From S2P Require Builder.

(** * Data *)

(* @type internal/inspect/inspector.go LayerInfo *)
Record LayerInfo : Type := mkLayerInfo { li_name : string; li_version : string; li_digest : string; li_type : string; li_size : Z; li_applied : Z }.

(* @type internal/inspect/inspector.go KernelInfo *)
Record KernelInfo : Type := mkKernelInfo { ki_version : string; ki_cmdline : string }.

(* @type internal/inspect/inspector.go InspectResult *)
Record InspectResult : Type := mkInspected {
  ir_name : string; ir_built : Z; ir_kernel : KernelInfo; ir_layers : list LayerInfo; ir_size : Z; ir_metadata : bool; ir_path : string }.

(** Beside the host: the zero time and the reading of a time, absolute paths, the time a
    file was changed, and the text of a number with one decimal. *)
Class InspectEnv : Type := {
  ie_zero_time : Z;
  ie_parse_time : string → option Z;
  ie_abs : string → result string;
  ie_modtime : nat → string → Z;
  ie_fixed1 : Z → Z → string;                       (* [fmt.Sprintf("%.1f", a/b)] *)
  ie_format : Z → string }.                         (* a time in the layout of the report *)

Section Inspect.
Context `{HL : LEnv} `{HI : InspectEnv}.

Definition dec_time (j : json) : option Z := match j with JNull => Some ie_zero_time | JStr s => ie_parse_time s | _ => None end.

(* @src internal/inspect/inspector.go:53-71 BuildManifest *)
Definition dec_build (j : json) : option BuildManifest :=
  let layer j :=
    l ← members j;
    name ← getf l "name" "" dec_str; version ← getf l "version" "" dec_str; digest ← getf l "digest" "" dec_str;
    type ← getf l "type" "" dec_str; applied ← getf l "applied_at" ie_zero_time dec_time;
    Some (mkBuilt name version digest type applied) in
  let kernel j := l ← members j; version ← getf l "version" "" dec_str; cmdline ← getf l "cmdline" "" dec_str; Some (mkBuiltKernel version cmdline) in
  l ← members j;
  version ← getf l "version" "" dec_str; name ← getf l "name" "" dec_str; built ← getf l "built_at" ie_zero_time dec_time;
  layers ← getf l "layers" [] (dec_list layer); kernel ← getf l "kernel" (mkBuiltKernel "" "") kernel;
  Some (mkBuildManifest version name built layers kernel).

Definition parse_manifest (data : string) : result BuildManifest :=
  match j ← json_Unmarshal data; dec_build j with
  | Some m => Ok m
  | None => Err (Errorf "failed to parse manifest: %w" [AWrap (ErrorsNew "json")])
  end.

(** * Reading the manifest *)

(* @func internal/inspect/inspector.go readManifestFile *)
Definition readManifestFile (path : string) : LM (result BuildManifest) :=
  let* r := os_ReadFile path in
  ret match r with
      | Err err =>
          if os_IsNotExist err then Err (Errorf "manifest file not found: %s" [AStr path])
          else Err (Errorf "failed to read manifest: %w" [AWrap err])
      | Ok data => parse_manifest data
      end.

(* @func internal/inspect/inspector.go readManifestWithDebugfs *)
Definition readManifestWithDebugfs (imagePath : string) : LM (result BuildManifest) :=
  let* ' (output, e) := run_command "debugfs" ["-R"; "cat /etc/nanofuse/build-manifest.json"; imagePath] in
  ret match e with
      | Some err =>
          if contains "executable file not found" (le_text err) then
            Err (ErrorsNew "debugfs not found (install e2fsprogs); alternatively run as root to mount the image")
          else Err (Errorf "failed to read manifest with debugfs: %w" [AWrap err])
      | None => if String.eqb output "" then Err (ErrorsNew "manifest file not found in image") else parse_manifest output
      end.

(* @func internal/inspect/inspector.go readManifestFromImage *)
Definition readManifestFromImage (workDir imagePath : string) : LM (result BuildManifest) :=
  let* euid := fresh le_geteuid in
  if negb (euid =? 0)%Z then readManifestWithDebugfs imagePath
  else
    let mountPoint := filepath_join [workDir; "mnt"] in
    checked (os_MkdirAll mountPoint perm_0755) (λ err, Err (Errorf "failed to create mount point: %w" [AWrap err]))
      (deferred (os_RemoveAll mountPoint)
        (let* ' (output, e) := run_command "mount" ["-o"; "loop,ro"; imagePath; mountPoint] in
         match e with
         | Some err => ret (Err (Errorf "failed to mount image: %w: %s" [AWrap err; AStr output]))
         | None =>
             deferred (run_command "umount" [mountPoint] ;;; ret tt)
               (readManifestFile (filepath_join [mountPoint; "etc"; "nanofuse"; "build-manifest.json"]))
         end)).

(** * The report *)

(* @src internal/inspect/inspector.go:127-150 InspectImage *)
Definition report (manifest : BuildManifest) (size : Z) : InspectResult :=
  mkInspected (bm_name manifest) (bm_built manifest) (mkKernelInfo (bk_version (bm_kernel manifest)) (bk_cmdline (bm_kernel manifest)))
    ((λ l, mkLayerInfo (bl_name l) (bl_version l) (bl_digest l) (bl_type l) 0 (bl_applied l)) <$> bm_layers manifest)
    size true "/etc/nanofuse/build-manifest.json".

(** What is known of an image without a manifest. *)
(* @src internal/inspect/inspector.go:116-123 InspectImage *)
Definition bare_report (path : string) (modified size : Z) : InspectResult :=
  mkInspected (Builder.filepath_base path) modified (mkKernelInfo "" "") [] size false "".

(* @func internal/inspect/inspector.go InspectImage *)
Definition InspectImage (workDir imagePath : string) : LM (result InspectResult) :=
  match ie_abs imagePath with
  | Err err => ret (Err (Errorf "failed to resolve image path: %w" [AWrap err]))
  | Ok absPath =>
      let* r := os_Stat absPath in
      match r with
      | Err err =>
          ret (Err (if os_IsNotExist err then Errorf "image file not found: %s" [AStr absPath] else Errorf "failed to stat image file: %w" [AWrap err]))
      | Ok (Dir _) => ret (Err (Errorf "path is a directory, not an image file: %s" [AStr absPath]))
      | Ok (File content _) =>
          let* modified := fresh (λ n, ie_modtime n absPath) in
          let size := Z.of_nat (String.length content) in
          let* r := readManifestFromImage workDir absPath in
          ret (Ok match r with Ok manifest => report manifest size | Err _ => bare_report absPath modified size end)
      end
  end.

(** * Its text *)

(** The loop of [formatBytes]: the divisor and the number of the unit, for at most
    [fuel] rounds. *)
(* @src internal/inspect/inspector.go:324-328 formatBytes *)
Fixpoint unit_loop (fuel : nat) (n div : Z) (exp : nat) : Z * nat :=
  match fuel with
  | O => (div, exp)
  | S fuel => if (1024 <=? n)%Z then unit_loop fuel (n / 1024) (div * 1024) (S exp) else (div, exp)
  end.

(** [None] is the panic of an index out of range. *)
(* @func internal/inspect/inspector.go formatBytes *)
Definition formatBytes (bytes : Z) : option string :=
  if (bytes <? 1024)%Z then Some (fmt_d bytes +:+ " B")
  else
    let '(div, exp) := unit_loop 64 (bytes / 1024) 1024 0 in
    match String.get exp "KMGTPE" with
    | Some c => Some (ie_fixed1 bytes div +:+ " " +:+ String c "B")
    | None => None
    end.

Definition cut (limit : nat) (s : string) : string :=
  if (limit <? String.length s)%nat then String.substring 0 (limit - 3) s +:+ "..." else s.

(** The lines of a layer; the sizes are never known. *)
(* @src internal/inspect/inspector.go:283-299 FormatText *)
Definition layer_lines (i : nat) (l : LayerInfo) : list string :=
  ["  " +:+ fmt_d (Z.of_nat i + 1) +:+ ". " +:+ li_name l; "     Version: " +:+ li_version l] ++
  (if String.eqb (li_type l) "" then [] else ["     Type:    " +:+ li_type l]) ++
  (if String.eqb (li_digest l) "" then [] else ["     Digest:  " +:+ cut 20 (li_digest l)]) ++
  (if (0 <? li_size l)%Z then ["     Size:    " +:+ default "" (formatBytes (li_size l))] else []).

(* @func internal/inspect/inspector.go FormatText *)
Definition FormatText (r : InspectResult) (showLayers : bool) : list string :=
  ["Image:         " +:+ ir_name r; "Built:         " +:+ ie_format (ir_built r);
   "Total Size:    " +:+ default "" (formatBytes (ir_size r)); "Has Metadata:  " +:+ (if ir_metadata r then "true" else "false")] ++
  if negb (ir_metadata r) then
    [""; "Note: This image does not contain NanoFuse layer metadata."; "      It may be a legacy image or was built without the layer system."]
  else
    [""; "Kernel:"; "  Version:     " +:+ ki_version (ir_kernel r)] ++
    (if String.eqb (ki_cmdline (ir_kernel r)) "" then [] else ["  Cmdline:     " +:+ cut 60 (ki_cmdline (ir_kernel r))]) ++
    [""; "Layers:        " +:+ fmt_d (Z.of_nat (length (ir_layers r)))] ++
    (if showLayers && negb (bool_decide (ir_layers r = [])) then [""; "Layer Details:"] ++ concat (imap layer_lines (ir_layers r)) else []).

End Inspect.

(** * What the inspection guarantees *)

Section Guarantees.
Context `{HL : LEnv} `{HI : InspectEnv}.

(** The unit of a size is its power of 1024, and the loop ends well within its fuel. *)
Lemma unit_loop_spec fuel bytes n exp : (1 ≤ n)%Z → n = (bytes / 1024 ^ Z.of_nat (S exp))%Z → (n < 1024 ^ Z.of_nat fuel)%Z →
  let '(div, e) := unit_loop fuel n (1024 ^ Z.of_nat (S exp)) exp in
  div = (1024 ^ Z.of_nat (S e))%Z ∧ (div ≤ bytes < div * 1024)%Z.
Proof.
  revert n exp. induction fuel as [|fuel IH]; intros n exp Hn1 Hn Hf; cbn [unit_loop]; [change (1024 ^ Z.of_nat 0)%Z with 1%Z in Hf; lia|].
  assert (Hp : (0 < 1024 ^ Z.of_nat (S exp))%Z) by (apply Z.pow_pos_nonneg; lia).
  destruct (Z.leb_spec 1024 n).
  - assert (E : (1024 ^ Z.of_nat (S (S exp)) = 1024 ^ Z.of_nat (S exp) * 1024)%Z) by (rewrite (Nat2Z.inj_succ (S exp)), Z.pow_succ_r by lia; lia).
    rewrite <- E. apply IH.
    + Z.to_euclidean_division_equations; lia.
    + rewrite E, <- Z.div_div by lia. by rewrite <- Hn.
    + rewrite (Nat2Z.inj_succ fuel), Z.pow_succ_r in Hf by lia. apply Z.div_lt_upper_bound; lia.
  - split; [done|]. subst n. split.
    + pose proof (Z.mul_div_le bytes (1024 ^ Z.of_nat (S exp)) Hp). nia.
    + pose proof (Z.mul_succ_div_gt bytes (1024 ^ Z.of_nat (S exp)) Hp). nia.
Qed.

(** A size of 64 bits always has a unit: there is no panic. *)
Lemma formatBytes_total bytes : (bytes < 2 ^ 63)%Z → ∃ s, formatBytes bytes = Some s.
Proof.
  intros Hb. unfold formatBytes. destruct (Z.ltb_spec bytes 1024); [eauto|].
  pose proof (unit_loop_spec 64 bytes (bytes / 1024) 0) as Hl. change (1024 ^ Z.of_nat 1)%Z with 1024%Z in Hl.
  destruct (unit_loop 64 (bytes / 1024) 1024 0) as [div e].
  destruct Hl as [-> Hd]; [Z.to_euclidean_division_equations; lia|done|apply Z.div_lt_upper_bound; lia|].
  assert (He : (e ≤ 5)%nat).
  { destruct (decide (e ≤ 5)%nat); [done|exfalso]. assert ((1024 ^ 7 ≤ 1024 ^ Z.of_nat (S e))%Z) by (apply Z.pow_le_mono_r; lia). lia. }
  do 6 (destruct e as [|e]; [cbn; eauto|]). lia.
Qed.

(** What an inspection does to the host. *)
Definition inspection_calls (workDir path : string) (new : list call) : Prop :=
  let mp := filepath_join [workDir; "mnt"] in
  let mount b := CRun (Cmd "mount" ["-o"; "loop,ro"; path; mp]) b in
  new = [] ∨ (∃ b, new = [CRun (Cmd "debugfs" ["-R"; "cat /etc/nanofuse/build-manifest.json"; path]) b]) ∨
  new = [CMkdirAll mp] ∨ new = [CMkdirAll mp; mount false; CRemoveAll mp] ∨
  ∃ b, new = [CMkdirAll mp; mount true; CRun (Cmd "umount" [mp]) b; CRemoveAll mp].

Lemma readManifestFile_calls path w : w_calls (snd (readManifestFile path w)) = w_calls w.
Proof. done. Qed.

Lemma MkdirAll_calls p mode w : w_calls (snd (os_MkdirAll p mode w)) = w_calls w ++ [CMkdirAll p].
Proof. unfold os_MkdirAll. destruct (le_fault _); [done|]. by destruct (mkdir_all p mode (w_files w)). Qed.

Lemma RemoveAll_calls p w : w_calls (snd (os_RemoveAll p w)) = w_calls w ++ [CRemoveAll p].
Proof. unfold os_RemoveAll. by destruct (le_remove _). Qed.

Lemma run_command_calls name args w :
  w_calls (snd (run_command name args w)) = w_calls w ++ [CRun (Cmd name args) (bool_decide (snd (fst (run_command name args w)) = None))].
Proof. unfold run_command. by destruct (le_command _ _ _) as [[e out] fs]. Qed.

Lemma readManifestFromImage_calls workDir path w :
  ∃ new, w_calls (snd (readManifestFromImage workDir path w)) = w_calls w ++ new ∧ inspection_calls workDir path new.
Proof.
  unfold readManifestFromImage, inspection_calls. set (mp := filepath_join [workDir; "mnt"]). rewrite bind_unfold. cbn [fresh].
  destruct (negb _).
  - unfold readManifestWithDebugfs. rewrite bind_unfold. pose proof (run_command_calls "debugfs" ["-R"; "cat /etc/nanofuse/build-manifest.json"; path] (tick w)) as Hc.
    destruct (run_command _ _ _) as [[out e] w1]. cbn [snd ret] in *. rewrite Hc. eexists. split; [reflexivity|]. right; left. eauto.
  - unfold checked. rewrite bind_unfold. pose proof (MkdirAll_calls mp perm_0755 (tick w)) as Hm.
    destruct (os_MkdirAll mp perm_0755 (tick w)) as [[err|] w1]; cbn [snd] in Hm.
    + exists [CMkdirAll mp]. split; [exact Hm|]. auto.
    + unfold deferred. rewrite !bind_unfold. pose proof (run_command_calls "mount" ["-o"; "loop,ro"; path; mp] w1) as Hc.
      destruct (run_command _ _ w1) as [[out e] w2]. cbn [snd fst] in Hc. destruct e as [err|].
      * cbn [ret]. rewrite bind_unfold. pose proof (RemoveAll_calls mp w2) as Hr. destruct (os_RemoveAll mp w2) as [[] w3]. cbn [snd ret] in *.
        rewrite Hr, Hc, Hm, <- !app_assoc. eexists. split; [reflexivity|]. auto.
      * rewrite bind_unfold. pose proof (readManifestFile_calls (filepath_join [mp; "etc"; "nanofuse"; "build-manifest.json"]) w2) as Hf.
        destruct (readManifestFile _ w2) as [r w3]. cbn [snd] in Hf. rewrite !bind_unfold. pose proof (run_command_calls "umount" [mp] w3) as Hu.
        destruct (run_command _ _ w3) as [[out' e'] w4]. cbn [snd fst ret] in *. rewrite bind_unfold. pose proof (RemoveAll_calls mp w4) as Hr.
        destruct (os_RemoveAll mp w4) as [[] w5]. cbn [snd ret] in *.
        rewrite Hr, Hu, Hf, Hc, Hm, <- !app_assoc. eexists. split; [reflexivity|]. right; right; right; right. eauto.
Qed.

(** An inspection of a file always has a report, with the size of the file; it mounts
    the image at most once, read-only, and what is mounted is unmounted before its
    directory is removed; and without a file nothing is done. *)
Lemma InspectImage_calls workDir imagePath w :
  ∃ path new, w_calls (snd (InspectImage workDir imagePath w)) = w_calls w ++ new ∧ inspection_calls workDir path new ∧
  match fst (InspectImage workDir imagePath w) with
  | Ok i => ∃ content mode, w_files w !! path_clean path = Some (File content mode) ∧ ir_size i = Z.of_nat (String.length content)
  | Err _ => new = []
  end.
Proof.
  assert (Hnil : ∀ path, inspection_calls workDir path []) by by left.
  unfold InspectImage. destruct (ie_abs imagePath) as [path|err]; [|exists "", []; by rewrite app_nil_r].
  exists path. rewrite bind_unfold. unfold os_Stat. destruct (le_fault _); [exists []; by rewrite app_nil_r|].
  destruct (w_files w !! path_clean path) as [[content mode|mode]|] eqn:E; [|exists []; by rewrite app_nil_r..].
  rewrite bind_unfold. cbn [fresh]. rewrite bind_unfold. destruct (readManifestFromImage_calls workDir path (tick (tick w))) as (new & Hn & Hc).
  destruct (readManifestFromImage _ _ _) as [r w1]. cbn [snd fst ret] in *. exists new. split_and!; [exact Hn|exact Hc|].
  exists content, mode. split; [done|]. by destruct r.
Qed.

(** ** The manifest comes back *)

(** The times of a manifest can be read back. *)
Definition times_ok (m : BuildManifest) : Prop :=
  ie_parse_time (le_time (bm_built m)) = Some (bm_built m) ∧
  Forall (λ l, ie_parse_time (le_time (bl_applied l)) = Some (bl_applied l)) (bm_layers m).

Lemma dec_enc_build m : times_ok m → dec_build (enc_build m) = Some m.
Proof.
  destruct m as [version name built layers [kv kc]]. intros [Hb Hl]. cbn [bm_built bm_layers] in *.
  unfold dec_build, enc_build. cbn [enc_struct members mbind option_bind]. unfold getf. rewrite !jlookup_present by reflexivity.
  cbn. rewrite Hb. cbn.
  match goal with |- context [mapM ?f (enc_built <$> layers)] => assert (mapM f (enc_built <$> layers) = Some layers) as -> end; [|done].
  clear Hb. induction Hl as [|l layers Ht _ IH]; [done|]. destruct l as [n v d t a]. cbn in Ht |- *. rewrite Ht. cbn in IH |- *. by rewrite IH.
Qed.

Lemma WriteFile_file p text mode w w' : os_WriteFile p text mode w = (None, w') → ∃ mode', w_files w' !! path_clean p = Some (File text mode').
Proof.
  unfold os_WriteFile. rewrite bind_unfold. destruct (os_Create p mode w) as [[e|] w1]; [done|]. unfold os_Fill.
  destruct (le_fault _); [done|]. intros [= <-]. eexists. cbn. by rewrite lookup_insert_eq.
Qed.

Lemma written_manifest m mountPoint w w' : writeBuildManifest m mountPoint w = (None, w') →
  ∃ mode, w_files w' !! path_clean (filepath_join [mountPoint; "etc"; "nanofuse"; "build-manifest.json"]) = Some (File (marshal_indent 0 (enc_build m)) mode).
Proof.
  unfold writeBuildManifest, write_document, checked. rewrite bind_unfold. destruct (os_MkdirAll _ _ w) as [[e|] w1]; [done|]. apply WriteFile_file.
Qed.

(** Reading through the mount gives what the mounted file holds. *)
Lemma read_through_mount workDir path w m mode :
  let mp := filepath_join [workDir; "mnt"] in
  le_geteuid (w_tick w) = 0%Z → (∀ n, le_fault n = None) → existsb (λ q, is_file (w_files w !! q)) (path_chain mp) = false →
  (∀ n fs, ∃ out fs', le_command n (Cmd "mount" ["-o"; "loop,ro"; path; mp]) fs = (None, out, fs') ∧
     fs' !! path_clean (filepath_join [mp; "etc"; "nanofuse"; "build-manifest.json"]) = Some (File (marshal_indent 0 (enc_build m)) mode)) →
  json_Unmarshal (marshal_indent 0 (enc_build m)) = Some (enc_build m) → times_ok m →
  fst (readManifestFromImage workDir path w) = Ok m.
Proof.
  intros mp Hu Hf Hd Hm Hj Ht. unfold readManifestFromImage. fold mp. rewrite bind_unfold. cbn [fresh]. rewrite Hu. cbn [negb Z.eqb].
  unfold checked. rewrite bind_unfold. unfold os_MkdirAll at 1. rewrite Hf. unfold mkdir_all. cbn [w_files tick]. rewrite Hd.
  unfold deferred at 1. rewrite !bind_unfold. unfold run_command at 1.
  match goal with |- context [le_command ?n ?c ?fs] => destruct (Hm n fs) as (out & fs' & -> & Hfile) end.
  unfold deferred. rewrite !bind_unfold. unfold readManifestFile. rewrite bind_unfold. unfold os_ReadFile at 1. rewrite Hf. cbn [w_files set_w_files].
  rewrite Hfile. cbn [ret]. unfold parse_manifest. rewrite Hj. cbn [mbind option_bind]. rewrite dec_enc_build by done. rewrite !bind_unfold.
  destruct (run_command "umount" [mp] _) as [[out' e'] w2]. cbn [ret]. rewrite bind_unfold. by destruct (os_RemoveAll mp w2).
Qed.
End Guarantees.

(** C39: what the composer records is what an inspection reports.  If the build manifest
    [m] was written into an image that is mounted, and the image file is inspected by
    root on a host whose mount shows the image's files, then the report has the name, the
    time, the kernel and every layer of [m] in order, and the size of the file.  The
    assumptions on the libraries are that the JSON text and the times of [m] are read
    back as they were written. *)
Theorem inspection_reports_the_build `{HL : LEnv} `{HI : InspectEnv} m composed workDir imagePath path image mode w w' v :
  let mp := filepath_join [workDir; "mnt"] in
  let manifest mount := path_clean (filepath_join [mount; "etc"; "nanofuse"; "build-manifest.json"]) in
  writeBuildManifest m composed w = (None, w') →
  ie_abs imagePath = Ok path → w_files v !! path_clean path = Some (File image mode) →
  le_geteuid (S (S (w_tick v))) = 0%Z → (∀ n, le_fault n = None) → existsb (λ q, is_file (w_files v !! q)) (path_chain mp) = false →
  (∀ n fs, ∃ out fs', le_command n (Cmd "mount" ["-o"; "loop,ro"; path; mp]) fs = (None, out, fs') ∧
     fs' !! manifest mp = w_files w' !! manifest composed) →
  json_Unmarshal (marshal_indent 0 (enc_build m)) = Some (enc_build m) → times_ok m →
  ∃ i, fst (InspectImage workDir imagePath v) = Ok i ∧ ir_metadata i = true ∧ ir_name i = bm_name m ∧ ir_built i = bm_built m ∧
    ki_version (ir_kernel i) = bk_version (bm_kernel m) ∧ ki_cmdline (ir_kernel i) = bk_cmdline (bm_kernel m) ∧
    ((λ l, mkBuilt (li_name l) (li_version l) (li_digest l) (li_type l) (li_applied l)) <$> ir_layers i) = bm_layers m ∧
    ir_size i = Z.of_nat (String.length image).
Proof.
  intros mp manifest Hw Ha Hi Hu Hf Hd Hm Hj Ht. apply written_manifest in Hw as (fm & Hw). fold (manifest composed) in Hw. rewrite Hw in Hm.
  unfold InspectImage. rewrite Ha, bind_unfold. unfold os_Stat. rewrite Hf, Hi, bind_unfold. cbn [fresh]. rewrite bind_unfold.
  pose proof (read_through_mount workDir path (tick (tick v)) m fm Hu Hf Hd Hm Hj Ht) as Hr.
  destruct (readManifestFromImage _ _ _) as [r w1]. cbn [fst] in Hr. rewrite Hr. eexists. split; [reflexivity|]. split_and!; try done.
  cbn. rewrite <- list_fmap_compose. induction (bm_layers m) as [|[] l IH]; cbn; [done|]. by f_equal.
Qed.

(** * A build and its inspection *)

Definition built_manifest : BuildManifest :=
  mkBuildManifest "1.0" "web" 5 [mkBuilt "base" "1.0.0" "sha256:1" "base" 5; mkBuilt "app" "2.1.0" "sha256:2" "app" 5] (mkBuiltKernel "6.1" "console=ttyS0").

(** A host whose mount shows the image that was composed at "/build/mnt". *)
Definition inspection_host : LEnv :=
  let host := scripted_env [] (JObj [
    ("version", JStr "1.0"); ("name", JStr "web"); ("built_at", JStr "2025-01-01T00:00:00Z");
    ("layers", JArr [
      JObj [("name", JStr "base"); ("version", JStr "1.0.0"); ("digest", JStr "sha256:1"); ("type", JStr "base"); ("applied_at", JStr "2025-01-01T00:00:00Z")];
      JObj [("name", JStr "app"); ("version", JStr "2.1.0"); ("digest", JStr "sha256:2"); ("type", JStr "app"); ("applied_at", JStr "2025-01-01T00:00:00Z")]]);
    ("kernel", JObj [("version", JStr "6.1"); ("cmdline", JStr "console=ttyS0")])]) in
  {| le_fault _ := None; le_remove _ := None; le_query := @le_query host; le_partial := @le_partial host;
     le_command _ c fs := (None, "", match c with
       | Cmd "mount" _ => <["/inspect/mnt/etc/nanofuse/build-manifest.json" := File (marshal_indent 0 (@enc_build host built_manifest)) perm_0644]> fs
       | _ => fs end);
     le_hook := @le_hook host; le_now := @le_now host; le_time := @le_time host; le_uuid := @le_uuid host; le_geteuid _ := 0%Z; le_done := @le_done host;
     le_untar := @le_untar host; le_pack := @le_pack host; le_walk := @le_walk host; le_ref := @le_ref host; le_image := @le_image host;
     le_transport := @le_transport host; le_text := @le_text host; json_Marshal := @json_Marshal host; json_Unmarshal := @json_Unmarshal host;
     le_yaml := @le_yaml host |}.

Definition inspection_library : InspectEnv := {|
  ie_zero_time := 0; ie_parse_time _ := Some 5%Z; ie_abs := Ok; ie_modtime _ _ := 9%Z; ie_fixed1 a b := fmt_d (a / b); ie_format := fmt_d |}.

Definition image_on_disk : LWorld := world_of empty_db {["/images/web.ext4" := File "an image" perm_0644]}.

Lemma manifest_is_built :
  match writeBuildManifest (HL := inspection_host) built_manifest "/build/mnt" (world_of empty_db ∅) with
  | (None, w') =>
      w_files w' !! "/build/mnt/etc/nanofuse/build-manifest.json"
      = Some (File (marshal_indent 0 (enc_build (HL := inspection_host) built_manifest)) perm_0644)
  | (Some _, _) => False
  end.
Proof. vm_compute. reflexivity. Qed.

Lemma inspection_reports_the_build_witness :
  ∃ i, fst (InspectImage (HL := inspection_host) (HI := inspection_library) "/inspect" "/images/web.ext4" image_on_disk) = Ok i ∧
    ir_metadata i = true ∧ ir_name i = "web" ∧ ir_built i = 5%Z ∧ ki_version (ir_kernel i) = "6.1" ∧ ki_cmdline (ir_kernel i) = "console=ttyS0" ∧
    ((λ l, mkBuilt (li_name l) (li_version l) (li_digest l) (li_type l) (li_applied l)) <$> ir_layers i) = bm_layers built_manifest ∧ ir_size i = 8%Z.
Proof.
  pose proof manifest_is_built as Hf.
  destruct (writeBuildManifest (HL := inspection_host) built_manifest "/build/mnt" (world_of empty_db ∅)) as [[e|] w'] eqn:E; [done|].
  apply (inspection_reports_the_build (HL := inspection_host) (HI := inspection_library) built_manifest "/build/mnt" "/inspect" "/images/web.ext4"
    "/images/web.ext4" "an image" perm_0644 (world_of empty_db ∅) w' image_on_disk).
  - exact E.
  - reflexivity.
  - vm_compute. reflexivity.
  - reflexivity.
  - reflexivity.
  - vm_compute. reflexivity.
  - intros n fs. eexists _, _. split; [reflexivity|]. etransitivity; [|symmetry; exact Hf].
    apply (lookup_insert_eq fs "/inspect/mnt/etc/nanofuse/build-manifest.json").
  - vm_compute. reflexivity.
  - split; [reflexivity|repeat constructor].
Defined.
