(* ===== verification/LayerPackage.v ===== *)
(** Layer packages on disk (src/internal/layer): the directory of a layer that
    [ScaffoldLayer] writes (scaffold.go) and [ValidateLayer] checks (validate.go).

    The files are those of LayerEnv.v.  Reading YAML is the library's ([yaml]), and so
    is the capital letter of a default description ([title]). *)

From stdpp Require Import gmap sorting.
From S2P Require Import Prelude GoStrings Paths GoNet LayerTypes LayerEnv.

(** * Layer types and names *)

(* @src internal/layer/scaffold.go:21-38 ValidLayerTypes *)
Definition LayerTypeBase : string := "base".
Definition LayerTypeRuntime : string := "runtime".
Definition LayerTypeFeature : string := "feature".
Definition LayerTypeApplication : string := "application".
Definition ValidLayerTypes : list string := [LayerTypeBase; LayerTypeRuntime; LayerTypeFeature; LayerTypeApplication].

(* @func internal/layer/scaffold.go IsValidLayerType *)
Definition IsValidLayerType (t : string) : bool := existsb (String.eqb t) ValidLayerTypes.

(* @func internal/layer/scaffold.go DefaultDependencies *)
Definition DefaultDependencies (t : string) : list string :=
  if existsb (String.eqb t) [LayerTypeRuntime; LayerTypeFeature; LayerTypeApplication] then ["base-os>=1.0.0"] else [].

(* @func internal/layer/scaffold.go DefaultProvides *)
Definition DefaultProvides (t name : string) : list string :=
  if String.eqb t LayerTypeBase then ["init"; "systemd"; "networking"]
  else if String.eqb t LayerTypeRuntime then [trim_suffix "-runtime" name]
  else [name].

Definition name_char (a : ascii) : bool :=
  let n := nat_of_ascii a in ((97 <=? n) && (n <=? 122))%nat || ((48 <=? n) && (n <=? 57))%nat || Ascii.eqb a "-".

Fixpoint first_bad_char (s : string) : option ascii :=
  match s with EmptyString => None | String a s' => if name_char a then first_bad_char s' else Some a end.

(** A capital outside ASCII is reported as an invalid character instead. *)
(* @func internal/layer/scaffold.go validateLayerName *)
Definition validateLayerName (name : string) : option error :=
  if String.eqb name "" then Some (Errorf "layer name cannot be empty" [])
  else if negb (String.eqb (to_lower name) name) then Some (Errorf "layer name %q must be lowercase" [AStr name])
  else if contains "_" name then Some (Errorf "layer name %q must use hyphens, not underscores" [AStr name])
  else if has_prefix "-" name || has_suffix "-" name then
    Some (Errorf "layer name %q must not start or end with hyphen" [AStr name])
  else match first_bad_char name with
  | Some c => Some (Errorf "layer name %q contains invalid character %q: only lowercase letters, numbers, and hyphens allowed"
      [AStr name; AStr (String c "")])
  | None => None
  end.

(** * Scaffolding *)

(** [None] for a list that is nil. *)
(* @type internal/layer/scaffold.go ScaffoldOptions *)
Record ScaffoldOptions : Type := mkScaffold {
  so_name : string; so_type : string; so_output : string; so_description : string; so_version : string;
  so_dependencies : option (list string); so_provides : option (list string); so_force : bool }.

(* @type internal/layer/scaffold.go ScaffoldResult *)
Record ScaffoldResult : Type := mkScaffolded { sr_dir : string; sr_files : list string; sr_dirs : list string }.

Definition nl : string := bytes [10].
Definition quoted (s : string) : string := bytes [34] +:+ s +:+ bytes [34].
Definition lines (l : list string) : string := join nl l.

(** The items of a list of the template, or an empty list. *)
Definition yaml_items (l : list string) : string :=
  match l with [] => nl +:+ "  []" | _ => String.concat "" ((λ s, nl +:+ "  - " +:+ quoted s) <$> l) end +:+ nl.

(** The template of layer.yaml, executed. *)
(* @src internal/layer/scaffold.go:229-273 layerYAMLTemplate *)
Definition layerYAMLTemplate (name type description version : string) (dependencies provides : list string) : string :=
  lines ["# " +:+ name +:+ " Layer"; "# " +:+ description; "#"; "# Type: " +:+ type; "# Version: " +:+ version; "";
    "name: " +:+ quoted name; "version: " +:+ quoted version; "sha256: " +:+ quoted ""; "size_mb: 0";
    "description: " +:+ quoted description; "type: " +:+ quoted type; "";
    "dependencies:" +:+ yaml_items dependencies;
    "provides:" +:+ yaml_items provides; "";
    "# List key files provided by this layer"; "# Example:"; "# - path: " +:+ quoted "/usr/bin/example"; "#   mode: " +:+ quoted "0755";
    "files: []"; ""; "systemd:"; "  enable: []"; "  mask: []"; ""; "config_schema:";
    "  # Define configuration options for this layer"; "  # example_option:"; "  #   type: string";
    "  #   default: " +:+ quoted "value"; "  #   description: " +:+ quoted "Example configuration option"; ""].

(* @src internal/layer/scaffold.go:312-330 postInstallHookTemplate *)
Definition postInstallHookTemplate (name : string) : string :=
  lines ["#!/bin/bash"; "# " +:+ name +:+ " Layer - Post-Install Hook";
    "# This script runs after the layer rootfs is extracted to the target image."; "#";
    "# Environment variables available:"; "#   LAYER_NAME - Name of this layer"; "#   LAYER_VERSION - Version of this layer";
    "#   ROOTFS_PATH - Path to the mounted rootfs"; "#   CONFIG_* - Layer config values from manifest"; "";
    "set -euo pipefail"; ""; "echo " +:+ quoted ("[" +:+ name +:+ "] Running post-install hook..."); "";
    "# Add your post-install steps here"; "# Example: Create symlinks, set permissions, generate configs"; "";
    "echo " +:+ quoted ("[" +:+ name +:+ "] Post-install completed successfully"); ""].

(** The checked fields of layer.yaml. *)
(* @type internal/layer/validate.go LayerSpec *)
Record LayerSpec : Type := mkSpec {
  ls_name : string; ls_version : string; ls_sha256 : string; ls_description : string; ls_type : string;
  ls_dependencies : list string; ls_provides : list string }.

(* @src internal/layer/validate.go:14-24 ValidationSeverity *)
Inductive ValidationSeverity : Type := SeverityError | SeverityWarning | SeverityInfo.
#[global] Instance severity_eq_dec : EqDecision ValidationSeverity.
Proof. solve_decision. Defined.

(* @type internal/layer/validate.go ValidationIssue *)
Record ValidationIssue : Type := mkIssue { vi_severity : ValidationSeverity; vi_field : string; vi_message : message; vi_suggestion : string }.

(* @type internal/layer/validate.go ValidationResult *)
Record ValidationResult : Type := mkVResult { vl_path : string; vl_valid : bool; vl_issues : list ValidationIssue; vl_spec : option LayerSpec }.

Definition of_severity (s : ValidationSeverity) (r : ValidationResult) : list ValidationIssue :=
  List.filter (λ i, bool_decide (vi_severity i = s)) (vl_issues r).
(* @func internal/layer/validate.go Errors *)
Definition Errors : ValidationResult → list ValidationIssue := of_severity SeverityError.
(* @func internal/layer/validate.go Warnings *)
Definition Warnings : ValidationResult → list ValidationIssue := of_severity SeverityWarning.
(* @func internal/layer/validate.go Info *)
Definition Info : ValidationResult → list ValidationIssue := of_severity SeverityInfo.

Definition one (b : bool) (i : ValidationIssue) : list ValidationIssue := if b then [i] else [].

(** [filepath.Base]. *)
Fixpoint drop_slashes (s : string) : string := match s with String a s' => if Ascii.eqb a slash then drop_slashes s' else s | EmptyString => "" end.
Definition filepath_base (p : string) : string :=
  if String.eqb p "" then "."
  else
    let stripped := string_rev (drop_slashes (string_rev p)) in
    if String.eqb stripped "" then "/" else default "" (last (split_on slash stripped)).

(* @func internal/layer/validate.go validateSpecRequiredFields *)
Definition validateSpecRequiredFields (spec : LayerSpec) (layerPath : string) : list ValidationIssue :=
  (if String.eqb (ls_name spec) "" then
     [mkIssue SeverityError "name" (Text "Layer name is required") "Add 'name: 'your-layer-name'' to layer.yaml"]
   else
     match validateLayerName (ls_name spec) with
     | Some err => [mkIssue SeverityError "name" (Sprintf "%v" [AShow err]) "Use lowercase letters, numbers, and hyphens only"]
     | None => []
     end ++
     one (negb (String.eqb (ls_name spec) (filepath_base layerPath)))
       (mkIssue SeverityWarning "name" (Sprintf "Layer name %q does not match directory name %q" [AStr (ls_name spec); AStr (filepath_base layerPath)])
          "Rename directory to match layer name or update layer.yaml")) ++
  one (String.eqb (ls_version spec) "")
    (mkIssue SeverityError "version" (Text "Layer version is required") "Add 'version: '1.0.0'' to layer.yaml") ++
  (if String.eqb (ls_type spec) "" then
     [mkIssue SeverityError "type" (Text "Layer type is required") "Add 'type: '<type>'' where type is one of: [base runtime feature application]"]
   else one (negb (IsValidLayerType (ls_type spec)))
     (mkIssue SeverityError "type" (Sprintf "Invalid layer type %q" [AStr (ls_type spec)]) "Use one of: [base runtime feature application]")).

(** An issue for every empty entry of a list, with its index. *)
Definition empty_entries (field message suggestion : string) (l : list string) : list ValidationIssue :=
  concat (imap (λ i s, one (String.eqb s "")
    (mkIssue SeverityError (field +:+ "[" +:+ fmt_d (Z.of_nat i) +:+ "]") (Text message) suggestion)) l).

(* @func internal/layer/validate.go validateSpecDependencies *)
Definition validateSpecDependencies (spec : LayerSpec) : list ValidationIssue :=
  empty_entries "dependencies" "Empty dependency string" "Remove empty dependency or provide a valid layer name" (ls_dependencies spec).

(* @func internal/layer/validate.go validateSpecProvides *)
Definition validateSpecProvides (spec : LayerSpec) : list ValidationIssue :=
  match ls_provides spec with
  | [] => [mkIssue SeverityWarning "provides" (Text "Layer provides no capabilities")
             "Add capabilities this layer provides (e.g., 'python', 'nodejs')"]
  | l => empty_entries "provides" "Empty provides string" "Remove empty provides entry or provide a valid capability name" l
  end.

Section Package.
Context `{LE : LEnv} (yaml : string → result LayerSpec) (title : string → string) (getwd : result string).

(** A file that is written by a template: created, filled, closed, and removed again
    when that fails. *)
Definition close_file : LM (option error) := fresh le_fault.

(* @func internal/layer/scaffold.go createLayerYAML *)
Definition create_from_template (path content : string) (mode : Z) : LM (option error) :=
  checked (os_Create path mode) (λ err, Some (Errorf "create file %s: %w" [AStr path; AWrap err])) (
  let* e := os_Fill path content in
  match e with
  | Some err =>
      let* cerr := close_file in
      let* rerr := os_Remove path in
      ret (Some match cerr, rerr with
        | Some cerr, Some rerr => Errorf "execute template for %s: %v; close error: %v; cleanup error: %w" [AStr path; AShow err; AShow cerr; AWrap rerr]
        | Some cerr, None => Errorf "execute template for %s: %v; close error: %w" [AStr path; AShow err; AWrap cerr]
        | None, Some rerr => Errorf "execute template for %s: %v; cleanup error: %w" [AStr path; AShow err; AWrap rerr]
        | None, None => Errorf "execute template for %s: %w" [AStr path; AWrap err]
        end)
  | None =>
      let* e := close_file in
      match e with
      | None => ret None
      | Some err =>
          let* rerr := os_Remove path in
          ret (Some match rerr with
            | Some rerr => Errorf "close file %s: %v; cleanup error: %w" [AStr path; AShow err; AWrap rerr]
            | None => Errorf "close file %s: %w" [AStr path; AWrap err]
            end)
      end
  end).

(* @func internal/layer/scaffold.go createPostInstallHook *)
Definition createPostInstallHook (path name : string) : LM (option error) := create_from_template path (postInstallHookTemplate name) 493.

Fixpoint make_dirs (dirs : list string) : LM (option error) :=
  match dirs with
  | [] => ret None
  | dir :: dirs => checked (os_MkdirAll dir 493) (λ err, Some (Errorf "create directory %s: %w" [AStr dir; AWrap err])) (make_dirs dirs)
  end.

(** The options with what is left open filled in: version, dependencies, provides,
    description. *)
(* @src internal/layer/scaffold.go:128-141 ScaffoldLayer *)
Definition filled (o : ScaffoldOptions) : string * string * list string * list string :=
  (if String.eqb (so_version o) "" then "0.1.0" else so_version o,
   if String.eqb (so_description o) "" then title (so_type o) +:+ " layer for NanoFuse microVMs" else so_description o,
   default (DefaultDependencies (so_type o)) (so_dependencies o),
   default (DefaultProvides (so_type o) (so_name o)) (so_provides o)).

Definition layer_yaml (o : ScaffoldOptions) : string :=
  let '(version, description, dependencies, provides) := filled o in
  layerYAMLTemplate (so_name o) (so_type o) description version dependencies provides.

(* @src internal/layer/scaffold.go:153-204 ScaffoldLayer *)
Definition scaffold_in (o : ScaffoldOptions) (outputDir : string) : LM (result ScaffoldResult) :=
  let layerDir := filepath_join [outputDir; so_name o] in
  let* st := os_Stat layerDir in
  if is_Ok st && negb (so_force o) then ret (Err (Errorf "layer directory already exists: %s (use --force to overwrite)" [AStr layerDir]))
  else
    let dirs := [layerDir; filepath_join [layerDir; "rootfs"]; filepath_join [layerDir; "hooks"]; filepath_join [layerDir; "tests"]] in
    let yamlPath := filepath_join [layerDir; "layer.yaml"] in
    let hookPath := filepath_join [layerDir; "hooks"; "post-install.sh"] in
    let keep dir := filepath_join [layerDir; dir; ".gitkeep"] in
    let keep_file dir k := checked (os_WriteFile (keep dir) "" 420) (λ err, Err (Errorf "create .gitkeep in %s: %w" [AStr dir; AWrap err])) k in
    checked (make_dirs dirs) Err (
    checked (create_from_template yamlPath (layer_yaml o) 438) (λ err, Err (Errorf "create layer.yaml: %w" [AWrap err])) (
    checked (createPostInstallHook hookPath (so_name o)) (λ err, Err (Errorf "create post-install hook: %w" [AWrap err])) (
    keep_file "rootfs" (keep_file "tests" (
    ret (Ok (mkScaffolded layerDir [yamlPath; hookPath; keep "rootfs"; keep "tests"] dirs))))))).

(* @func internal/layer/scaffold.go ScaffoldLayer *)
Definition ScaffoldLayer (o : ScaffoldOptions) : LM (result ScaffoldResult) :=
  if String.eqb (so_name o) "" then ret (Err (Errorf "layer name is required" []))
  else match validateLayerName (so_name o) with
  | Some err => ret (Err err)
  | None =>
      if String.eqb (so_type o) "" then ret (Err (Errorf "layer type is required" []))
      else if negb (IsValidLayerType (so_type o)) then
        ret (Err (Errorf "invalid layer type %q: must be one of %v" [AStr (so_type o)]))
      else if String.eqb (so_output o) "" then
        match getwd with
        | Err err => ret (Err (Errorf "get working directory: %w" [AWrap err]))
        | Ok cwd => scaffold_in o cwd
        end
      else scaffold_in o (so_output o)
  end.

(** * Validation *)

(* @func internal/layer/validate.go parseLayerYAML *)
Definition parseLayerYAML (path : string) : LM (LayerSpec + ValidationIssue) :=
  let* r := os_ReadFile path in
  ret match r with
  | Err err =>
      inr (if os_IsNotExist err then
             mkIssue SeverityError "layer.yaml" (Text "layer.yaml not found") "Create a layer.yaml file with 'nanofuse layer create' or manually"
           else mkIssue SeverityError "layer.yaml" (Sprintf "Cannot read layer.yaml: %v" [AShow err]) "Check file permissions")
  | Ok data =>
      match yaml data with
      | Err err => inr (mkIssue SeverityError "layer.yaml" (Sprintf "Invalid YAML syntax: %v" [AShow err])
          "Check YAML syntax - common issues: incorrect indentation, missing quotes")
      | Ok spec => inl spec
      end
  end.

(* @func internal/layer/validate.go validateSpecSHA256 *)
Definition validateSpecSHA256 (spec : LayerSpec) (layerPath : string) : LM (list ValidationIssue) :=
  let* st := os_Stat (filepath_join [layerPath; ls_name spec +:+ ".tar.gz"]) in
  ret match st with
  | Err _ => []
  | Ok _ =>
      let n := String.length (ls_sha256 spec) in
      if String.eqb (ls_sha256 spec) "" then
        [mkIssue SeverityWarning "sha256" (Text "Built layer missing SHA256 hash") "Rebuild the layer to generate SHA256 hash"]
      else if negb (n =? 64)%nat then
        [mkIssue SeverityError "sha256" (Sprintf "Invalid SHA256 hash length: %d (expected 64)" [AInt (Z.of_nat n)]) "Rebuild the layer to generate valid SHA256 hash"]
      else one (negb (all_chars is_hex (ls_sha256 spec)))
        (mkIssue SeverityError "sha256" (Text "Invalid SHA256 hash: contains non-hexadecimal characters") "Rebuild the layer to generate valid SHA256 hash")
  end.

(* @func internal/layer/validate.go validateSpecStrictMode *)
Definition validateSpecStrictMode (spec : LayerSpec) (layerPath : string) : LM (list ValidationIssue) :=
  let* sha := validateSpecSHA256 spec layerPath in
  ret (one (String.eqb (ls_description spec) "")
         (mkIssue SeverityWarning "description" (Text "Layer description is empty") "Add a description to help users understand this layer's purpose")
       ++ validateSpecProvides spec ++ sha).

(* @func internal/layer/validate.go validateLayerYAML *)
Definition validateLayerYAML (path layerPath : string) (strict : bool) : LM (option LayerSpec * list ValidationIssue) :=
  let* r := parseLayerYAML path in
  match r with
  | inr issue => ret (None, [issue])
  | inl spec =>
      let* more := if strict then validateSpecStrictMode spec layerPath else ret [] in
      ret (Some spec, validateSpecRequiredFields spec layerPath ++ validateSpecDependencies spec ++ more)
  end.

(* @func internal/layer/validate.go validateRootfs *)
Definition validateRootfs (path : string) (strict : bool) : LM (list ValidationIssue) :=
  let* st := os_Stat path in
  match st with
  | Err err =>
      ret [if os_IsNotExist err then
             mkIssue SeverityError "rootfs/" (Text "rootfs/ directory not found") "Create a rootfs/ directory containing the layer's filesystem contents"
           else mkIssue SeverityError "rootfs/" (Sprintf "Cannot access rootfs/: %v" [AShow err]) "Check directory permissions"]
  | Ok (File _ _) =>
      ret [mkIssue SeverityError "rootfs" (Text "rootfs is not a directory") "Remove rootfs file and create rootfs/ directory"]
  | Ok (Dir _) =>
      let* entries := os_ReadDir path in
      ret match entries with
      | Err err => [mkIssue SeverityWarning "rootfs/" (Sprintf "Cannot read rootfs/ contents: %v" [AShow err]) "Check directory permissions"]
      | Ok entries =>
          one (forallb (λ e, String.eqb (fst e) ".gitkeep") entries && strict)
            (mkIssue SeverityWarning "rootfs/" (Text "rootfs/ directory is empty") "Add filesystem contents or build the layer")
      end
  end.

Definition node_perm (n : node) : Z := match n with File _ m => m | Dir m => m end.

Definition validate_hook (path : string) (strict : bool) (entry : string * bool) : LM (list ValidationIssue) :=
  let name := fst entry in
  if snd entry || negb (has_suffix ".sh" name) then ret []
  else
    let hookPath := filepath_join [path; name] in
    let* st := os_Stat hookPath in
    match st with
    | Err _ => ret []
    | Ok n =>
        let not_executable := one (Z.land (node_perm n) 73 =? 0)%Z
          (mkIssue SeverityError ("hooks/" +:+ name) (Sprintf "Hook %s is not executable" [AStr name]) ("Run: chmod +x " +:+ hookPath)) in
        if strict then
          let* data := os_ReadFile hookPath in
          ret (not_executable ++ match data with
            | Ok content => one (negb (has_prefix "#!/" content))
                (mkIssue SeverityWarning ("hooks/" +:+ name) (Sprintf "Hook %s missing shebang" [AStr name])
                   "Add '#!/bin/bash' or '#!/bin/sh' at the start of the file")
            | Err _ => []
            end)
        else ret not_executable
    end.

Fixpoint validate_hooks (path : string) (strict : bool) (entries : list (string * bool)) : LM (list ValidationIssue) :=
  match entries with
  | [] => ret []
  | e :: entries =>
      let* issues := validate_hook path strict e in
      let* more := validate_hooks path strict entries in
      ret (issues ++ more)
  end.

(* @func internal/layer/validate.go validateHooks *)
Definition validateHooks (path : string) (strict : bool) : LM (list ValidationIssue) :=
  let* st := os_Stat path in
  match st with
  | Err err =>
      ret (one (os_IsNotExist err && strict)
        (mkIssue SeverityInfo "hooks/" (Text "No hooks/ directory found") "Consider adding hooks for post-install customization"))
  | Ok (File _ _) => ret [mkIssue SeverityError "hooks" (Text "hooks is not a directory") "Remove hooks file and create hooks/ directory"]
  | Ok (Dir _) =>
      let* entries := os_ReadDir path in
      match entries with
      | Err _ => ret []
      | Ok entries => validate_hooks path strict entries
      end
  end.

Definition is_error (i : ValidationIssue) : bool := bool_decide (vi_severity i = SeverityError).

(* @func internal/layer/validate.go ValidateLayer *)
Definition ValidateLayer (layerPath : string) (strict : bool) : LM ValidationResult :=
  let failed (message suggestion : string) : ValidationResult :=
    mkVResult layerPath false [mkIssue SeverityError "" (Text (message +:+ layerPath)) suggestion] None in
  let* st := os_Stat layerPath in
  match st with
  | Err _ => ret (failed "Layer directory does not exist: " "Create the layer directory or check the path")
  | Ok (File _ _) => ret (failed "Path is not a directory: " "Provide a directory path, not a file")
  | Ok (Dir _) =>
      let* ' (spec, specIssues) := validateLayerYAML (filepath_join [layerPath; "layer.yaml"]) layerPath strict in
      let* rootfsIssues := validateRootfs (filepath_join [layerPath; "rootfs"]) strict in
      let* hooksIssues := validateHooks (filepath_join [layerPath; "hooks"]) strict in
      let issues := specIssues ++ rootfsIssues ++ hooksIssues in
      ret (mkVResult layerPath (negb (existsb is_error issues)) issues spec)
  end.

End Package.
