(* ===== verification/LayerPackageSpec.v ===== *)
(** Layer packages: what is scaffolded is valid, and what is valid has the parts the
    layer build asks for. *)

From stdpp Require Import gmap sorting.
From S2P Require Import Prelude GoStrings Paths GoNet Json LayerTypes LayerEnv LayerPackage.
From S2P Require Storage.

(** * Paths below a directory *)

Abbreviation R := (path_render true).

Lemma path_clean_render l : Forall plain l → path_clean (R l) = R l.
Proof. intros H. unfold path_clean. by rewrite is_rooted_render, path_elements_render. Qed.

Lemma render_inj l l' : Forall plain l → Forall plain l' → R l = R l' → l = l'.
Proof. intros H H' Heq. apply (f_equal path_elements) in Heq. by rewrite !path_elements_render in Heq. Qed.

Lemma join_one l x : Forall plain l → plain x → filepath_join [R l; x] = R (l ++ [x]).
Proof.
  intros Hl Hx. change x with (join "/" [x]) at 1. rewrite filepath_join_below; [|apply is_rooted_render|by apply Forall_singleton].
  by rewrite path_elements_render.
Qed.

Lemma join_two l x y : Forall plain l → plain x → plain y → filepath_join [R l; x; y] = R (l ++ [x; y]).
Proof.
  intros Hl Hx Hy. assert (filepath_join [R l; x; y] = filepath_join [R l; join "/" [x; y]]) as ->.
  { unfold filepath_join. rewrite !filter_cons, !filter_nil. rewrite (decide_True (P := x ≠ "")) by apply Hx.
    rewrite (decide_True (P := y ≠ "")) by apply Hy. rewrite (decide_True (P := join "/" [x; y] ≠ "")); [done|].
    rewrite join_cons_cons. destruct Hx as [Hx _]. by destruct x. }
  rewrite filepath_join_below; [|apply is_rooted_render|by apply Forall_cons; split; [|apply Forall_singleton]]. by rewrite path_elements_render.
Qed.

Lemma prefix_of_app {A} (e : list A) : ∀ l s, l `prefix_of` e ++ s → l `prefix_of` e ∨ ∃ t, t `prefix_of` s ∧ l = e ++ t.
Proof.
  induction e as [|x e IH]; intros l s H; [right; by exists l|]. destruct l as [|y l]; [left; apply prefix_nil|].
  destruct H as [k Hk]. cbn in Hk. injection Hk as <- Hk. destruct (IH l s) as [[k' ->]|(t & Ht & ->)]; [by exists k|left; by exists k'|].
  right. by exists t.
Qed.

Lemma elem_of_path_chain l l' : Forall plain l → Forall plain l' → R l ∈ path_chain (R l') ↔ l `prefix_of` l' ∧ l ≠ [].
Proof.
  intros Hl Hl'. unfold path_chain. rewrite is_rooted_render, path_elements_render, list_elem_of_fmap by done. split.
  - intros (i & Heq & Hi). apply elem_of_seq in Hi. apply render_inj in Heq; [|done|by apply Forall_take]. subst l. split; [apply prefix_take|].
    destruct l'; [cbn in Hi; lia|done].
  - intros [[k ->] Hne]. exists (length l - 1)%nat. destruct l as [|x l]; [done|]. cbn [length]. rewrite Nat.sub_1_r. cbn [Nat.pred]. split.
    + rewrite firstn_app, Nat.sub_diag, firstn_all2 by (cbn; lia). cbn [firstn]. by rewrite app_nil_r.
    + apply elem_of_seq. rewrite length_app. cbn. lia.
Qed.

Lemma add_dir_lookup m ps : ∀ fs q, foldl (add_dir m) fs ps !! q =
  match fs !! q with Some n => Some n | None => if bool_decide (q ∈ ps) then Some (Dir m) else None end.
Proof.
  induction ps as [|p ps IH]; intros fs q; cbn [foldl].
  { rewrite bool_decide_false by apply not_elem_of_nil. by destruct (fs !! q). }
  rewrite IH. unfold add_dir. destruct (decide (q = p)) as [->|Hne].
  - destruct (fs !! p) eqn:E; [by rewrite E|]. rewrite lookup_insert_eq. by rewrite bool_decide_true by (apply elem_of_cons; by left).
  - assert (match fs !! p with None => <[p := Dir m]> fs | Some _ => fs end !! q = fs !! q) as ->
      by (destruct (fs !! p); [done|by apply lookup_insert_ne]).
    destruct (fs !! q); [done|]. by rewrite (bool_decide_ext (q ∈ ps) (q ∈ p :: ps)) by (rewrite elem_of_cons; tauto).
Qed.

(** * The tree of a package *)

Section Tree.
Variable E : list string.
Hypothesis HE : Forall plain E.

Lemma plain_below s : Forall plain s → Forall plain (E ++ s).
Proof. intros H. by apply Forall_app. Qed.

(** The files below the directory are those of the tree [L], by their path in it. *)
Record holds (L : gmap (list string) node) (fs : files) : Prop := mkHolds {
  h_lookup : ∀ s, Forall plain s → fs !! R (E ++ s) = L !! s;
  h_below : ∀ k n, fs !! k = Some n → below (R E) k → ∃ s, Forall plain s ∧ k = R (E ++ s);
  h_above : ∀ l, l `prefix_of` E → l ≠ E → is_file (fs !! R l) = false }.

Lemma above_other l s : l `prefix_of` E → l ≠ E → Forall plain s → R l ≠ R (E ++ s).
Proof.
  intros Hl Hne Hs Heq. apply render_inj in Heq; [|by destruct Hl as [k ->]; apply Forall_app in HE as [? _]|by apply plain_below].
  destruct Hl as [k Hk]. apply Hne. rewrite Heq in Hk. apply (f_equal length) in Hk. rewrite !length_app in Hk.
  destruct s; [|cbn in Hk; lia]. by rewrite app_nil_r in Heq.
Qed.

Lemma holds_insert L fs s n : Forall plain s → holds L fs → holds (<[s := n]> L) (<[R (E ++ s) := n]> fs).
Proof.
  intros Hs [Hl Hb Ha]. split.
  - intros t Ht. destruct (decide (t = s)) as [->|Hne]; [by rewrite !lookup_insert_eq|]. rewrite !lookup_insert_ne; [by apply Hl|done|].
    intros Heq. apply render_inj in Heq; [|by apply plain_below..]. by apply app_inv_head in Heq.
  - intros k n' Hk Hbe. destruct (decide (k = R (E ++ s))) as [->|Hne]; [by exists s|]. rewrite lookup_insert_ne in Hk by done. by eapply Hb.
  - intros l Hp Hne. rewrite lookup_insert_ne by (symmetry; by apply above_other). by apply Ha.
Qed.

(** A directory is made when those above it in the tree are there. *)
Lemma holds_mkdir L fs s m : Forall plain s → holds L fs → L !! s = None → E ≠ [] →
  (∀ t, t `prefix_of` s → t ≠ s → ∃ m', L !! t = Some (Dir m')) →
  ∃ fs', mkdir_all (R (E ++ s)) m fs = Ok fs' ∧ holds (<[s := Dir m]> L) fs'.
Proof.
  intros Hs H Hnone HE0 Hup. pose proof (plain_below s Hs) as Hes. unfold mkdir_all.
  assert (existsb (λ q, is_file (fs !! q)) (path_chain (R (E ++ s))) = false) as ->.
  { apply not_true_iff_false. rewrite existsb_exists. intros (q & Hq & Hf). apply list_elem_of_In in Hq.
    assert (∃ l, q = R l ∧ l `prefix_of` E ++ s) as (l & -> & Hp).
    { unfold path_chain in Hq. rewrite is_rooted_render, path_elements_render in Hq by done.
      apply list_elem_of_fmap in Hq as (i & -> & _). eexists. split; [done|apply prefix_take]. }
    destruct (decide (l `prefix_of` E ∧ l ≠ E)) as [[Hle Hne]|Hn]; [by rewrite (h_above _ _ H l Hle Hne) in Hf|].
    assert (∃ t, l = E ++ t ∧ t `prefix_of` s) as (t & -> & Ht).
    { apply prefix_of_app in Hp as [Hle|(t & Ht & Hl)]; [|by exists t].
      destruct (decide (l = E)) as [->|]; [|by destruct Hn]. exists []. split; [by rewrite app_nil_r|apply prefix_nil]. }
    assert (Forall plain t) as Hpt by (destruct Ht as [k ->]; by apply Forall_app in Hs as [? _]).
    rewrite (h_lookup _ _ H) in Hf by done. destruct (decide (t = s)) as [->|Hts]; [by rewrite Hnone in Hf|].
    destruct (Hup t Ht Hts) as [m' Hm']. by rewrite Hm' in Hf. }
  eexists. split; [done|]. split.
  - intros t Ht. rewrite add_dir_lookup, (h_lookup _ _ H) by done. destruct (decide (t = s)) as [->|Hne].
    + rewrite Hnone, lookup_insert_eq, bool_decide_true; [done|]. apply elem_of_path_chain; [done..|]. split; [done|]. by destruct E.
    + rewrite lookup_insert_ne by done. destruct (L !! t) eqn:Et; [done|]. rewrite bool_decide_false; [done|].
      rewrite elem_of_path_chain by (done || by apply plain_below). intros [Hp _]. apply prefix_app_inv in Hp.
      destruct (Hup t Hp Hne) as [m' Hm']. congruence.
  - intros k n Hk Hbe. rewrite add_dir_lookup in Hk. destruct (fs !! k) as [n'|] eqn:Ek; [by eapply (h_below _ _ H)|].
    case_bool_decide as Hin; [|done]. unfold path_chain in Hin. rewrite is_rooted_render, path_elements_render in Hin by done.
    apply list_elem_of_fmap in Hin as (i & -> & _). unfold below in Hbe.
    rewrite !path_elements_render in Hbe by (done || by apply Forall_take). destruct Hbe as [t Ht]. exists t. rewrite Ht. split; [|done].
    assert (Forall plain (take (S i) (E ++ s))) as Hpt by (by apply Forall_take). rewrite Ht in Hpt. by apply Forall_app in Hpt as [_ ?].
  - intros l Hp Hne. rewrite add_dir_lookup. pose proof (h_above _ _ H l Hp Hne). destruct (fs !! R l); [done|]. by case_bool_decide.
Qed.
End Tree.

(** * What is scaffolded is valid *)

Lemma name_char_class a : name_char a = true → Ascii.eqb a slash = false ∧ Ascii.eqb a "." = false.
Proof. by destruct a as [[] [] [] [] [] [] [] []]. Qed.

Lemma valid_name_plain name : validateLayerName name = None → plain name.
Proof.
  unfold validateLayerName. destruct (String.eqb_spec name "") as [|Hne]; [done|]. destruct (negb _); [done|]. destruct (contains _ _); [done|].
  destruct (_ || _); [done|]. destruct (first_bad_char name) eqn:Hb; [done|]. intros _.
  assert (∀ s, first_bad_char s = None → no_char slash s ∧ no_char "." s) as Hs.
  { unfold no_char. induction s as [|a s IH]; [done|]. cbn [first_bad_char contains_any existsb]. destruct (name_char a) eqn:Ha; [|done].
    intros H. destruct (name_char_class a Ha) as [-> ->], (IH H). done. }
  destruct (Hs name Hb) as [H1 H2]. split_and!; [done|by intros ->|by intros ->|done].
Qed.

Section Calm.
Context `{LE : LEnv} (Hcalm : ∀ n, le_fault n = None).

(** What a computation does to the files, when no call fails. *)
Definition fwp {A} (c : LM A) (Q : A → files → Prop) (fs : files) : Prop := ∀ w, w_files w = fs → Q (fst (c w)) (w_files (snd (c w))).

Lemma fwp_ret {A} (a : A) (Q : A → files → Prop) fs : Q a fs → fwp (ret a) Q fs.
Proof. by intros HQ w <-. Qed.

Lemma fwp_bind {A B} (c : LM A) (k : A → LM B) Q fs : fwp c (λ a fs', fwp (k a) Q fs') fs → fwp (bind c k) Q fs.
Proof. intros H w Hw. specialize (H w Hw). unfold bind. destruct (c w) as [a w']. by apply (H w'). Qed.

Lemma fwp_mono {A} (c : LM A) (Q Q' : A → files → Prop) fs : fwp c Q fs → (∀ a fs', Q a fs' → Q' a fs') → fwp c Q' fs.
Proof. intros H HQ w Hw. by apply HQ, H. Qed.

Lemma fwp_checked {A} (c : LM (option error)) (fail : error → A) k Q fs :
  fwp c (λ e fs', e = None ∧ fwp k Q fs') fs → fwp (checked c fail k) Q fs.
Proof. intros H. apply fwp_bind. eapply fwp_mono; [exact H|]. by intros e fs' [-> ?]. Qed.

Lemma fwp_stat p (Q : result node → files → Prop) fs :
  Q (match fs !! path_clean p with Some n => Ok n | None => Err (ErrorsNew ErrNotExist) end) fs → fwp (os_Stat p) Q fs.
Proof. intros HQ w <-. unfold os_Stat. by rewrite Hcalm. Qed.

Lemma fwp_read p (Q : result string → files → Prop) fs :
  Q (match fs !! path_clean p with
     | Some (File content _) => Ok content
     | Some (Dir _) => Err (ErrorsNew "is a directory")
     | None => Err (ErrorsNew ErrNotExist)
     end) fs → fwp (os_ReadFile p) Q fs.
Proof. intros HQ w <-. unfold os_ReadFile. by rewrite Hcalm. Qed.

Lemma fwp_readdir p (Q : result (list (string * bool)) → files → Prop) fs m : fs !! path_clean p = Some (Dir m) →
  Q (Ok (merge_sort name_le (omap (entry_of p) (map_to_list fs)))) fs → fwp (os_ReadDir p) Q fs.
Proof. intros Hd HQ w <-. unfold os_ReadDir. by rewrite Hcalm, Hd. Qed.

Lemma fwp_fresh (Q : option error → files → Prop) fs : Q None fs → fwp (fresh le_fault) Q fs.
Proof. intros HQ w <-. unfold fresh. by rewrite Hcalm. Qed.

Section At.
Variable E : list string.
Hypothesis HE : Forall plain E.
Hypothesis Hne : E ≠ [].

Lemma fwp_stat_at L p s (Q : result node → files → Prop) fs : holds E L fs → Forall plain s → p = R (E ++ s) →
  Q (match L !! s with Some n => Ok n | None => Err (ErrorsNew ErrNotExist) end) fs → fwp (os_Stat p) Q fs.
Proof.
  intros H Hs -> HQ. apply fwp_stat. rewrite path_clean_render by (by apply plain_below). by rewrite (h_lookup _ _ _ H).
Qed.

Lemma fwp_mkdir L p s (Q : option error → files → Prop) fs : holds E L fs → Forall plain s → p = R (E ++ s) → L !! s = None →
  (∀ t, t `prefix_of` s → t ≠ s → ∃ m', L !! t = Some (Dir m')) →
  (∀ fs', holds E (<[s := Dir 493]> L) fs' → Q None fs') → fwp (os_MkdirAll p 493) Q fs.
Proof.
  intros H Hs -> Hn Hup HQ w <-. destruct (holds_mkdir E HE L (w_files w) s 493 Hs H Hn Hne Hup) as (fs' & Hmk & Hh).
  unfold os_MkdirAll. rewrite Hcalm, Hmk. by apply HQ.
Qed.

Lemma fwp_write L p s content mode (Q : option error → files → Prop) fs : holds E L fs → Forall plain s → p = R (E ++ s) → L !! s = None →
  (∀ fs', holds E (<[s := File content mode]> L) fs' → Q None fs') → fwp (os_WriteFile p content mode) Q fs.
Proof.
  intros H Hs -> Hn HQ w <-. unfold os_WriteFile, os_Create, os_Fill. rewrite bind_unfold, Hcalm.
  rewrite path_clean_render by (by apply plain_below). rewrite (h_lookup _ _ _ H), Hn by done. cbn [node_mode w_files set_w_files log_call tick w_tick].
  rewrite Hcalm. cbn [fst snd w_files set_w_files]. rewrite lookup_insert_eq. cbn [node_mode]. rewrite insert_insert_eq.
  by apply HQ, holds_insert.
Qed.

Lemma fwp_template L p s content mode (Q : option error → files → Prop) fs : holds E L fs → Forall plain s → p = R (E ++ s) → L !! s = None →
  (∀ fs', holds E (<[s := File content mode]> L) fs' → Q None fs') → fwp (create_from_template p content mode) Q fs.
Proof.
  intros H Hs Hp Hn HQ.
  assert (fwp (os_WriteFile p content mode) (λ e fs', e = None ∧ Q None fs') fs) as Hw'.
  { apply (fwp_write L p s); [done..|]. intros fs' Hfs'. split; [done|by apply HQ]. }
  intros w Hw. specialize (Hw' w Hw). revert Hw'. unfold create_from_template, os_WriteFile, checked, close_file, fresh.
  rewrite !bind_unfold. destruct (os_Create p mode w) as [[err|] w1]; cbn [fst snd ret]; [by intros [? _]|].
  rewrite bind_unfold. destruct (os_Fill p content w1) as [[err|] w2]; cbn [fst snd]; [by intros [? _]|]. intros [_ HQ2].
  rewrite bind_unfold. by rewrite Hcalm.
Qed.

(** ** Scaffolding *)

Variable yaml : string → result LayerSpec.
Variable title : string → string.

Definition package_tree (document hook : string) : gmap (list string) node :=
  <[["tests"; ".gitkeep"] := File "" 420]> (<[["rootfs"; ".gitkeep"] := File "" 420]> (
  <[["hooks"; "post-install.sh"] := File hook 493]> (<[["layer.yaml"] := File document 438]> (
  <[["tests"] := Dir 493]> (<[["hooks"] := Dir 493]> (<[["rootfs"] := Dir 493]> (<[[] := Dir 493]> ∅))))))).

Ltac solve_plain := first [by apply Forall_nil | apply Forall_cons; split; [split_and!; done|solve_plain]].

Lemma prefix_single {A} (x : A) t : t `prefix_of` [x] → t ≠ [x] → t = [].
Proof. intros [k Hk] Hx. destruct t as [|y t]; [done|]. injection Hk as <- Hk. by destruct t, k. Qed.

Lemma fwp_make_dirs fs (Q : option error → files → Prop) : holds E ∅ fs →
  (∀ fs', holds E (<[["tests"] := Dir 493]> (<[["hooks"] := Dir 493]> (<[["rootfs"] := Dir 493]> (<[[] := Dir 493]> ∅)))) fs' → Q None fs') →
  fwp (make_dirs [R E; R (E ++ ["rootfs"]); R (E ++ ["hooks"]); R (E ++ ["tests"])]) Q fs.
Proof.
  intros H0 HQ. assert (∀ x (L : gmap (list string) node) p (k : LM (option error)) fs0, x ∈ ["rootfs"; "hooks"; "tests"] → holds E L fs0 → p = R (E ++ [x]) →
    L !! [x] = None → L !! [] = Some (Dir 493) → (∀ fs', holds E (<[[x] := Dir 493]> L) fs' → fwp k Q fs') →
    fwp (checked (os_MkdirAll p 493) (λ err, Some (Errorf "create directory %s: %w" [AStr p; AWrap err])) k) Q fs0) as Hstep.
  { intros x L p k fs0 Hx HL Hp Hn Hroot Hk. apply fwp_checked. eapply (fwp_mkdir L p [x]); [done| |done|done| |].
    - apply elem_of_cons in Hx as [->|[->|[->|Hx%elem_of_nil]%elem_of_cons]%elem_of_cons]; [solve_plain..|done].
    - intros t Ht Htx. rewrite (prefix_single x t Ht Htx). by eexists.
    - intros fs' Hfs'. split; [done|by apply Hk]. }
  cbn [make_dirs]. apply fwp_checked. eapply (fwp_mkdir ∅ _ []); [done|solve_plain|by rewrite app_nil_r|done| |].
  { intros t Ht Htx. by apply prefix_nil_inv in Ht. }
  intros fs1 H1. split; [done|].
  eapply Hstep; [by do 1 constructor|exact H1|done|done|done|]. intros fs2 H2.
  eapply Hstep; [by do 2 constructor|exact H2|done|done|done|]. intros fs3 H3.
  eapply Hstep; [by do 3 constructor|exact H3|done|done|done|]. intros fs4 H4. apply fwp_ret, HQ, H4.
Qed.

Lemma scaffold_in_spec o out fs : is_rooted out = true → plain (so_name o) → E = path_elements out ++ [so_name o] → holds E ∅ fs →
  fwp (scaffold_in title o out) (λ r fs', (∃ files dirs, r = Ok (mkScaffolded (R E) files dirs)) ∧ holds E (package_tree (layer_yaml title o) (postInstallHookTemplate (so_name o))) fs') fs.
Proof.
  intros Hr Hname HEq H0. unfold scaffold_in.
  assert (filepath_join [out; so_name o] = R E) as ->.
  { rewrite HEq. change (so_name o) with (join "/" [so_name o]) at 1. apply filepath_join_below; [done|by apply Forall_singleton]. }
  rewrite !(join_one E) by (done || by split_and!). rewrite !(join_two E) by (done || by split_and!).
  apply fwp_bind. eapply (fwp_stat_at ∅ _ []); [done|solve_plain|by rewrite app_nil_r|]. cbn [is_Ok andb].
  apply fwp_checked, fwp_make_dirs; [done|]. intros fs1 H1. split; [done|].
  apply fwp_checked. eapply (fwp_template _ _ ["layer.yaml"]); [exact H1|solve_plain|done|done|]. intros fs2 H2. split; [done|].
  apply fwp_checked. eapply (fwp_template _ _ ["hooks"; "post-install.sh"]); [exact H2|solve_plain|done|done|]. intros fs3 H3. split; [done|].
  apply fwp_checked. eapply (fwp_write _ _ ["rootfs"; ".gitkeep"]); [exact H3|solve_plain|done|done|]. intros fs4 H4. split; [done|].
  apply fwp_checked. eapply (fwp_write _ _ ["tests"; ".gitkeep"]); [exact H4|solve_plain|done|done|]. intros fs5 H5. split; [done|].
  apply fwp_ret. split; [by do 2 eexists|done].
Qed.

(** ** Validation *)

Definition harmless (issues : list ValidationIssue) : Prop := existsb is_error issues = false.

Lemma harmless_app a b : harmless a → harmless b → harmless (a ++ b).
Proof. unfold harmless. intros Ha Hb. by rewrite existsb_app, Ha, Hb. Qed.

Lemma harmless_one b i : b = false ∨ is_error i = false → harmless (one b i).
Proof. unfold harmless. intros [-> | H]; [done|]. destruct b; [|done]. cbn. by rewrite H. Qed.

Lemma harmless_entries field msg sug l : Forall (λ s, s ≠ "") l → harmless (empty_entries field msg sug l).
Proof.
  intros H. unfold harmless, empty_entries. apply not_true_iff_false. rewrite existsb_exists. intros (i & Hi & _).
  apply in_concat in Hi as (ll & Hll & Hi). apply list_elem_of_In, elem_of_lookup_imap in Hll as (k & s & -> & Hs).
  rewrite Forall_lookup in H. apply H, String.eqb_neq in Hs. by rewrite Hs in Hi.
Qed.

Lemma hooks_entries document hook fs e : holds E (package_tree document hook) fs →
  e ∈ merge_sort name_le (omap (entry_of (R (E ++ ["hooks"]))) (map_to_list fs)) → e = ("post-install.sh", false).
Proof.
  intros H He. rewrite merge_sort_Permutation in He. apply list_elem_of_omap in He as ([k n] & Hk & He). apply elem_of_map_to_list in Hk.
  unfold entry_of in He. cbn [fst snd] in He. destruct (last (path_elements k)) as [name|]; [|done]. case_bool_decide as Hp; [|done].
  injection He as <-. rewrite path_elements_render in Hp by (apply plain_below; [done|solve_plain]).
  destruct (h_below _ _ _ H k n Hk) as (s & Hs & ->).
  { unfold below. rewrite path_elements_render by done. rewrite Hp, <- app_assoc. by eexists. }
  rewrite path_elements_render in Hp by (by apply plain_below). rewrite <- app_assoc in Hp. apply app_inv_head in Hp as ->.
  rewrite (h_lookup _ _ _ H) in Hk by done. unfold package_tree in Hk. cbn [app] in Hk. rewrite !lookup_insert_Some in Hk.
  by repeat match goal with Hx : _ ∨ _ |- _ => destruct Hx | Hx : _ ∧ _ |- _ => destruct Hx end; simplify_eq.
Qed.

Lemma validate_hooks_spec document hook strict entries fs : holds E (package_tree document hook) fs → has_prefix "#!/" hook = true →
  Forall (λ e, e = ("post-install.sh", false)) entries →
  fwp (validate_hooks (R (E ++ ["hooks"])) strict entries) (λ issues fs', harmless issues ∧ fs' = fs) fs.
Proof.
  intros H Hsh. induction 1 as [|e entries -> Hes IH]; [by apply fwp_ret|]. cbn [validate_hooks]. apply fwp_bind.
  assert (fwp (validate_hook (R (E ++ ["hooks"])) strict ("post-install.sh", false)) (λ issues fs', harmless issues ∧ fs' = fs) fs) as Hone.
  { unfold validate_hook. cbn [fst snd orb]. change (negb (has_suffix ".sh" "post-install.sh")) with false. cbn iota.
    assert (filepath_join [R (E ++ ["hooks"]); "post-install.sh"] = R (E ++ ["hooks"; "post-install.sh"])) as Hj.
    { rewrite (join_one (E ++ ["hooks"])); [by rewrite <- app_assoc|apply plain_below; [done|solve_plain]|by split_and!]. }
    apply fwp_bind. eapply (fwp_stat_at _ _ ["hooks"; "post-install.sh"]); [exact H|solve_plain|exact Hj|].
    change (package_tree document hook !! ["hooks"; "post-install.sh"]) with (Some (File hook 493)). cbn [node_perm].
    change (Z.land 493 73 =? 0)%Z with false. cbn [one app]. destruct strict; [|by apply fwp_ret].
    apply fwp_bind, fwp_read. rewrite Hj, path_clean_render by (apply plain_below; [done|solve_plain]). rewrite (h_lookup _ _ _ H) by solve_plain.
    change (package_tree document hook !! ["hooks"; "post-install.sh"]) with (Some (File hook 493)). apply fwp_ret. by rewrite Hsh. }
  eapply fwp_mono; [exact Hone|]. cbn beta. intros issues fs' [Hi ->]. apply fwp_bind. eapply fwp_mono; [exact IH|]. cbn beta.
  intros more fs' [Hm ->]. apply fwp_ret. split; [by apply harmless_app|done].
Qed.

(** A specification with nothing to complain about. *)
Definition good_spec (spec : LayerSpec) : Prop :=
  validateLayerName (ls_name spec) = None ∧ ls_version spec ≠ "" ∧ IsValidLayerType (ls_type spec) = true ∧
  Forall (λ s, s ≠ "") (ls_dependencies spec) ∧ Forall (λ s, s ≠ "") (ls_provides spec).

Lemma required_harmless spec path : good_spec spec → harmless (validateSpecRequiredFields spec path).
Proof.
  intros (Hn & Hv & Ht & _). unfold validateSpecRequiredFields.
  assert (ls_name spec ≠ "") as Hnn by (by intros Heq; rewrite Heq in Hn). apply String.eqb_neq in Hnn. rewrite Hnn, Hn, Ht.
  apply String.eqb_neq in Hv. rewrite Hv. destruct (String.eqb_spec (ls_type spec) "") as [Hty|_]; [by rewrite Hty in Ht|].
  cbn [one app negb]. apply harmless_app; [by apply harmless_one; right|done].
Qed.

Lemma ValidateLayer_spec document hook strict spec fs : holds E (package_tree document hook) fs → yaml document = Ok spec →
  good_spec spec → has_prefix "#!/" hook = true → Forall plain [ls_name spec +:+ ".tar.gz"] →
  fwp (ValidateLayer yaml (R E) strict) (λ r _, vl_valid r = true ∧ vl_spec r = Some spec) fs.
Proof.
  intros H Hy Hgood Hsh Htar. unfold ValidateLayer. cbn zeta. rewrite !(join_one E) by (done || by split_and!).
  apply fwp_bind. eapply (fwp_stat_at _ _ []); [exact H|solve_plain|by rewrite app_nil_r|].
  change (package_tree document hook !! []) with (Some (Dir 493)). cbn iota.
  assert (fwp (validateLayerYAML yaml (R (E ++ ["layer.yaml"])) (R E) strict) (λ r fs', fst r = Some spec ∧ harmless (snd r) ∧ fs' = fs) fs) as Hyaml.
  { unfold validateLayerYAML, parseLayerYAML. apply fwp_bind, fwp_bind, fwp_read.
    rewrite path_clean_render by (apply plain_below; [done|solve_plain]). rewrite (h_lookup _ _ _ H) by solve_plain.
    change (package_tree document hook !! ["layer.yaml"]) with (Some (File document 438)). cbn iota. rewrite Hy. apply fwp_ret.
    destruct Hgood as (Hn & Hv & Ht & Hd & Hp). apply fwp_bind.
    assert (fwp (if strict then validateSpecStrictMode spec (R E) else ret []) (λ more fs', harmless more ∧ fs' = fs) fs) as Hmore.
    { destruct strict; [|by apply fwp_ret]. unfold validateSpecStrictMode, validateSpecSHA256. apply fwp_bind, fwp_bind.
      rewrite (join_one E) by (done || by apply Forall_cons in Htar as [? _]).
      eapply (fwp_stat_at _ _ [ls_name spec +:+ ".tar.gz"]); [exact H|exact Htar|done|].
      assert (package_tree document hook !! [ls_name spec +:+ ".tar.gz"] = None) as ->.
      { unfold package_tree. rewrite !lookup_insert_ne; [done|..]; try done; intros Heq; injection Heq as Heq;
          apply (f_equal string_rev) in Heq; rewrite string_rev_app_distr in Heq; done. }
      apply fwp_ret, fwp_ret. split; [|done]. rewrite app_nil_r. apply harmless_app; [by apply harmless_one; right|]. unfold validateSpecProvides.
      destruct (ls_provides spec); [done|by apply harmless_entries]. }
    eapply fwp_mono; [exact Hmore|]. cbn beta. intros more fs' [Hm ->]. apply fwp_ret. split; [done|]. split; [|done].
    apply harmless_app; [by apply required_harmless|]. apply harmless_app; [by apply harmless_entries|done]. }
  apply fwp_bind. eapply fwp_mono; [exact Hyaml|]. cbn beta. intros [spec' issues] fs' (Hs & Hi & ->). cbn [fst snd] in Hs, Hi. subst spec'.
  assert (fwp (validateRootfs (R (E ++ ["rootfs"])) strict) (λ more fs', harmless more ∧ fs' = fs) fs) as Hroot.
  { unfold validateRootfs. apply fwp_bind. eapply (fwp_stat_at _ _ ["rootfs"]); [exact H|solve_plain|done|].
    change (package_tree document hook !! ["rootfs"]) with (Some (Dir 493)). cbn iota. apply fwp_bind. eapply (fwp_readdir _ _ _ 493).
    - rewrite path_clean_render by (apply plain_below; [done|solve_plain]). by rewrite (h_lookup _ _ _ H) by solve_plain.
    - apply fwp_ret. split; [by apply harmless_one; right|done]. }
  apply fwp_bind. eapply fwp_mono; [exact Hroot|]. cbn beta. intros more fs' [Hm ->].
  assert (fwp (validateHooks (R (E ++ ["hooks"])) strict) (λ more fs', harmless more ∧ fs' = fs) fs) as Hhooks.
  { unfold validateHooks. apply fwp_bind. eapply (fwp_stat_at _ _ ["hooks"]); [exact H|solve_plain|done|].
    change (package_tree document hook !! ["hooks"]) with (Some (Dir 493)). cbn iota. apply fwp_bind. eapply (fwp_readdir _ _ _ 493).
    - rewrite path_clean_render by (apply plain_below; [done|solve_plain]). by rewrite (h_lookup _ _ _ H) by solve_plain.
    - eapply validate_hooks_spec; [exact H|done|]. apply Forall_forall. intros e. by apply hooks_entries with document hook. }
  apply fwp_bind. eapply fwp_mono; [exact Hhooks|]. cbn beta. intros hooks fs' [Hh ->]. apply fwp_ret. cbn [vl_valid vl_spec]. split; [|done].
  assert (harmless (issues ++ more ++ hooks)) as -> by (by apply harmless_app, harmless_app). done.
Qed.

End At.

End Calm.

(** What reading the written document is expected to give. *)
Definition spec_of (title : string → string) (o : ScaffoldOptions) : LayerSpec :=
  let '(version, description, dependencies, provides) := filled title o in
  mkSpec (so_name o) version "" description (so_type o) dependencies provides.

Lemma tarball_plain name : plain name → plain (name +:+ ".tar.gz").
Proof.
  intros (Hn & _ & _ & Hs). split_and!; [by destruct name|..].
  1, 2: intros Heq; apply (f_equal string_rev) in Heq; by rewrite string_rev_app_distr in Heq.
  apply no_char_app. by split.
Qed.

(** The names of the directory of the layer. *)
Definition layer_elements (o : ScaffoldOptions) : list string := path_elements (so_output o) ++ [so_name o].

(** where no call of the system fails, a layer that is scaffolded in a place that
    is free has its directory and passes validation, strict or not, if reading its
    layer.yaml gives back what was written: with a proper name and type, and no empty
    dependency or capability. *)
Theorem scaffolded_layer_is_valid `{LE : LEnv} yaml title cwd o w strict
    (Hcalm : ∀ n, le_fault n = None)
    (Hname : validateLayerName (so_name o) = None) (Htype : IsValidLayerType (so_type o) = true) (Hout : is_rooted (so_output o) = true)
    (Hfree : ∀ k, below (R (layer_elements o)) k → w_files w !! k = None)
    (Hdirs : ∀ l, l `prefix_of` layer_elements o → l ≠ layer_elements o → is_file (w_files w !! R l) = false)
    (Hyaml : yaml (layer_yaml title o) = Ok (spec_of title o))
    (Hitems : Forall (λ s, s ≠ "") (ls_dependencies (spec_of title o) ++ ls_provides (spec_of title o))) :
  ∃ s, fst (ScaffoldLayer title cwd o w) = Ok s ∧ sr_dir s = R (layer_elements o) ∧
    vl_valid (fst (ValidateLayer yaml (sr_dir s) strict (snd (ScaffoldLayer title cwd o w)))) = true.
Proof.
  pose proof (valid_name_plain _ Hname) as Hplain.
  assert (Forall plain (layer_elements o)) as HE by (apply Forall_app; split; [by apply path_elements_plain|by apply Forall_singleton]).
  assert (layer_elements o ≠ []) as Hne by (unfold layer_elements; by destruct (path_elements (so_output o))).
  assert (holds (layer_elements o) ∅ (w_files w)) as H0.
  { split; [|intros k n Hk Hb; by rewrite (Hfree k Hb) in Hk|exact Hdirs]. intros s Hs. rewrite lookup_empty. apply Hfree. unfold below.
    rewrite !path_elements_render; [by eexists|by apply Forall_app|done]. }
  assert (good_spec (spec_of title o)) as Hgood.
  { unfold good_spec, spec_of in *. destruct (filled title o) as [[[version description] dependencies] provides] eqn:Ef. cbn in *.
    apply Forall_app in Hitems as [Hd Hp]. split_and!; [done| |done|done|done]. unfold filled in Ef. injection Ef as <- _ _ _.
    by destruct (String.eqb_spec (so_version o) ""). }
  assert (ls_name (spec_of title o) = so_name o) as Hsn by (unfold spec_of; by destruct (filled title o) as [[[? ?] ?] ?]).
  assert (ScaffoldLayer title cwd o = scaffold_in title o (so_output o)) as ->.
  { unfold ScaffoldLayer. destruct (String.eqb_spec (so_name o) "") as [Heq|_]; [by rewrite Heq in Hname|]. rewrite Hname, Htype.
    destruct (String.eqb_spec (so_type o) "") as [Heq|_]; [by rewrite Heq in Htype|]. cbn [negb].
    destruct (String.eqb_spec (so_output o) "") as [Heq|_]; [by rewrite Heq in Hout|done]. }
  pose proof (scaffold_in_spec Hcalm (layer_elements o) HE Hne title o (so_output o) _ Hout Hplain eq_refl H0 w eq_refl) as [(files & dirs & Hr) Hh].
  exists (mkScaffolded (R (layer_elements o)) files dirs). split; [done|]. split; [done|].
  refine (proj1 (ValidateLayer_spec Hcalm (layer_elements o) HE Hne yaml _ _ strict _ _ Hh Hyaml Hgood eq_refl _ _ eq_refl)).
  rewrite Hsn. by apply Forall_singleton, tarball_plain.
Qed.

Definition python_layer : ScaffoldOptions := mkScaffold "python-runtime" "runtime" "/srv/layers" "" "" None None false.

Definition read_back (s : string) : result LayerSpec :=
  if String.eqb s (layer_yaml id python_layer) then Ok (spec_of id python_layer) else Err (ErrorsNew "yaml").

Lemma scaffolded_layer_is_valid_witness :
  let w := world_of Storage.empty_db ∅ in
  let run := ScaffoldLayer (LE := scripted_env [] JNull) id (Ok "/") python_layer w in
  ∃ s, fst run = Ok s ∧ sr_dir s = "/srv/layers/python-runtime" ∧
    vl_valid (fst (ValidateLayer (LE := scripted_env [] JNull) read_back (sr_dir s) true (snd run))) = true.
Proof.
  apply (scaffolded_layer_is_valid (LE := scripted_env [] JNull) read_back id (Ok "/") python_layer (world_of Storage.empty_db ∅) true);
    [intros n; reflexivity|vm_compute; reflexivity|reflexivity|reflexivity|reflexivity|reflexivity|vm_compute; reflexivity|].
  by repeat constructor.
Defined.

(** Overwriting with force keeps the mode of a hook that is there: a hook that was not
    executable stays so, and the scaffolded layer is not valid. *)
Example forced_scaffold_may_be_invalid :
  let files := <["/srv/layers/python-runtime/hooks/post-install.sh" := File "" 420]> (<["/srv/layers/python-runtime/hooks" := Dir 493]>
    (<["/srv/layers/python-runtime" := Dir 493]> (<["/srv/layers" := Dir 493]> (<["/srv" := Dir 493]> ∅)))) in
  let o := mkScaffold "python-runtime" "runtime" "/srv/layers" "" "" None None true in
  let '(r, w) := ScaffoldLayer (LE := scripted_env [] JNull) id (Ok "/") o (world_of Storage.empty_db files) in
  match r with
  | Ok s => vi_message <$> Errors (fst (ValidateLayer (LE := scripted_env [] JNull) read_back (sr_dir s) false w))
  | Err _ => []
  end = [Errorf "Hook %s is not executable" [AStr "post-install.sh"]].
Proof. vm_compute. reflexivity. Qed.

(** A hooks directory that cannot be looked at is no issue at all. *)
Example unreadable_hooks_pass :
  fst (validateHooks (LE := scripted_env [0%nat] JNull) "/l/hooks" true (world_of Storage.empty_db ∅)) = [].
Proof. vm_compute. reflexivity. Qed.
