(* ===== verification/RecordingRx.v ===== *)
(** The receiver of recording events (src/internal/recording/receiver.go): guests
    connect over vsock, and for every connection a reader puts events in a channel
    and a processor writes them to the storage in batches.

    The goroutines are a step relation: at any point one of them makes a step.  A
    read that blocks is a step that is not made.  What a connection has read,
    accepted and given to the storage is kept as its history.

    The channel of a connection is a queue with room for at least one event (the
    default is a thousand): the hand-over of an unbuffered channel, which a buffer
    size of zero asks for, is not modelled. *)

From stdpp Require Import gmap.
From S2P Require Import Prelude GoStrings Json Recording.

(** * Data *)

(* @src internal/recording/receiver.go:16-17 DefaultVsockPort *)
Definition DefaultVsockPort : Z := 52.

(* @src internal/recording/receiver.go:62-69 SessionState *)
Inductive SessionState : Type :=
  | SessionStateActive
  | SessionStateCompleted
  | SessionStateFailed.

(* @type internal/recording/receiver.go Session *)
Record Session : Type := mkSess {
  se_id : string; se_vm : string; se_cid : Z; se_start : Z; se_end : Z; se_events : Z; se_bytes : Z;
  se_state : SessionState }.

Definition zero_end : Z := (-62135596800 * 1000000000)%Z.

(** A connection with its goroutines.  [cn_session]: the [sessionID] of the
    [vmConnection]; [cn_batch]: the processor's; [cn_closed]: the channel is
    closed; [cn_finished]: [handleConnection] has returned. *)
(* @type internal/recording/receiver.go vmConnection *)
Record Conn : Type := mkConn {
  cn_cid : Z; cn_session : string; cn_stream : stream; cn_reading : bool; cn_processing : bool;
  cn_chan : list Event; cn_closed : bool; cn_batch : list Event; cn_finished : bool;
  (* history *)
  cn_read : list Event; cn_accepted : list Event; cn_written : list (list Event); cn_taken : list Event }.

(** [rx_cancelled]: the context has been cancelled.  [rx_registered]: the map
    [connections], to the number of the connection. *)
(* @type internal/recording/receiver.go Receiver *)
Record Receiver : Type := mkRx {
  rx_buffer : nat; rx_handler : bool; rx_cancelled : bool; rx_registered : gmap Z nat;
  rx_sessions : gmap string Session; rx_conns : gmap nat Conn }.

(* @func internal/recording/receiver.go NewReceiver *)
Definition NewReceiver (bufferSize : nat) (handler : bool) : Receiver := mkRx bufferSize handler false ∅ ∅ ∅.

(** * The reader *)

(** [err.(net.Error)] and its [Timeout()]: a wrapped error is not one. *)
Definition net_timeout (timeout : error → bool) (err : error) : bool :=
  match err with Errorf _ _ => false | _ => timeout err end.

Definition start_session (cid : Z) (e : Event) (m : gmap string Session) : gmap string Session :=
  if (e_type e =? EventSessionStart)%Z
  then <[e_session e := mkSess (e_session e) (e_vm e) cid (e_time e) zero_end 0 0 SessionStateActive]> m
  else m.

Definition count (e : Event) (s : Session) : Session :=
  mkSess (se_id s) (se_vm s) (se_cid s) (se_start s) (se_end s) (add64 (se_events s) 1)
    (add64 (se_bytes s) (Z.of_nat (String.length (e_payload e)))) (se_state s).

Definition end_session (e : Event) (m : gmap string Session) : gmap string Session :=
  if (e_type e =? EventSessionEnd)%Z
  then alter (λ s, mkSess (se_id s) (se_vm s) (se_cid s) (se_start s) (e_time e) (se_events s) (se_bytes s) SessionStateCompleted) (e_session e) m
  else m.

Definition stop_reading (st : stream) (c : Conn) : Conn :=
  mkConn (cn_cid c) (cn_session c) st false (cn_processing c) (cn_chan c) (cn_closed c) (cn_batch c) (cn_finished c)
    (cn_read c) (cn_accepted c) (cn_written c) (cn_taken c).

Definition read_on (st : stream) (c : Conn) : Conn :=
  mkConn (cn_cid c) (cn_session c) st (cn_reading c) (cn_processing c) (cn_chan c) (cn_closed c) (cn_batch c) (cn_finished c)
    (cn_read c) (cn_accepted c) (cn_written c) (cn_taken c).

(** An event that has been read: it is put in the channel if there is room. *)
(* @src internal/recording/receiver.go:315-342 readEvents *)
Definition receive (buffer : nat) (st : stream) (e : Event) (c : Conn) : Conn :=
  let room := (length (cn_chan c) <? buffer)%nat in
  mkConn (cn_cid c) (if (e_type e =? EventSessionStart)%Z then e_session e else cn_session c) st (cn_reading c) (cn_processing c)
    (if room then cn_chan c ++ [e] else cn_chan c) (cn_closed c) (cn_batch c) (cn_finished c)
    (cn_read c ++ [e]) (if room then cn_accepted c ++ [e] else cn_accepted c) (cn_written c) (cn_taken c).

Definition track (buffer : nat) (e : Event) (c : Conn) (m : gmap string Session) : gmap string Session :=
  let m := start_session (cn_cid c) e m in
  let m := if (length (cn_chan c) <? buffer)%nat then alter (count e) (e_session e) m else m in
  end_session e m.

(** One turn of the loop of [readEvents]. *)
(* @func internal/recording/receiver.go readEvents *)
Definition readEvents (timeout : error → bool) (buffer : nat) (cancelled : bool) (c : Conn) (m : gmap string Session) :
    Conn * gmap string Session :=
  if cancelled then (stop_reading (cn_stream c) c, m)
  else
    match ReadEvent (cn_stream c) with
    | (Err err, st) =>
        if errors_Is err EOF then (stop_reading st c, m)
        else if net_timeout timeout err then (read_on st c, m)
        else (stop_reading st c, m)
    | (Ok e, st) => (receive buffer st e c, track buffer e c m)
    end.

(** * The processor *)

Definition batch_size : nat := 100.

(* @src internal/recording/receiver.go:363-373 processEvents *)
Definition flush (c : Conn) : Conn :=
  match cn_batch c with
  | [] => c
  | b => mkConn (cn_cid c) (cn_session c) (cn_stream c) (cn_reading c) (cn_processing c) (cn_chan c) (cn_closed c) [] (cn_finished c)
      (cn_read c) (cn_accepted c) (cn_written c ++ [b]) (cn_taken c)
  end.

Definition stop_processing (c : Conn) : Conn :=
  mkConn (cn_cid c) (cn_session c) (cn_stream c) (cn_reading c) false (cn_chan c) (cn_closed c) (cn_batch c) (cn_finished c)
    (cn_read c) (cn_accepted c) (cn_written c) (cn_taken c).

Definition take_event (e : Event) (rest : list Event) (c : Conn) : Conn :=
  mkConn (cn_cid c) (cn_session c) (cn_stream c) (cn_reading c) (cn_processing c) rest (cn_closed c) (cn_batch c ++ [e]) (cn_finished c)
    (cn_read c) (cn_accepted c) (cn_written c) (cn_taken c).

(** The cases of the [select]. *)
Inductive choice : Type := ChooseDone | ChooseTick | ChooseEvent.

(** One turn of the loop: [None] when the case chosen is not ready. *)
(* @func internal/recording/receiver.go processEvents *)
Definition processEvents (cancelled : bool) (ch : choice) (c : Conn) : option Conn :=
  match ch with
  | ChooseDone => if cancelled then Some (stop_processing (flush c)) else None
  | ChooseTick => Some (flush c)
  | ChooseEvent =>
      match cn_chan c with
      | e :: rest =>
          let c' := take_event e rest c in
          Some (if (batch_size <=? length (cn_batch c'))%nat then flush c' else c')
      | [] => if cn_closed c then Some (stop_processing (flush c)) else None
      end
  end.

(** * Connections *)

Definition new_conn (cid : Z) (st : stream) : Conn :=
  mkConn cid "" st true true [] false [] false [] [] [] [].

Definition set_conn (r : Receiver) (i : nat) (c : Conn) : Receiver :=
  mkRx (rx_buffer r) (rx_handler r) (rx_cancelled r) (rx_registered r) (rx_sessions r) (<[i := c]> (rx_conns r)).

(** [handleConnection] up to the reader. *)
(* @src internal/recording/receiver.go:237-273 handleConnection *)
Definition accept (r : Receiver) (i : nat) (cid : Z) (st : stream) : Receiver :=
  mkRx (rx_buffer r) (rx_handler r) (rx_cancelled r) (<[cid := i]> (rx_registered r)) (rx_sessions r)
    (<[i := new_conn cid st]> (rx_conns r)).

(** The deferred calls, once reader and processor have returned: the channel is
    closed and the CID is not registered any more. *)
(* @src internal/recording/receiver.go:251-260 handleConnection *)
Definition finish (r : Receiver) (i : nat) (c : Conn) : Receiver :=
  mkRx (rx_buffer r) (rx_handler r) (rx_cancelled r) (delete (cn_cid c) (rx_registered r)) (rx_sessions r)
    (<[i := mkConn (cn_cid c) (cn_session c) (cn_stream c) (cn_reading c) (cn_processing c) (cn_chan c) true (cn_batch c) true
        (cn_read c) (cn_accepted c) (cn_written c) (cn_taken c)]> (rx_conns r)).

(** The context is cancelled; the connections in the map are closed. *)
Definition close_conn (c : Conn) : Conn := read_on [Fails (ErrorsNew "use of closed network connection")] c.

(* @func internal/recording/receiver.go Stop *)
Definition Stop (r : Receiver) : Receiver :=
  mkRx (rx_buffer r) (rx_handler r) true (rx_registered r) (rx_sessions r)
    (foldr (λ i, alter close_conn i) (rx_conns r) ((map_to_list (rx_registered r)).*2)).

(* @func internal/recording/receiver.go GetSession *)
Definition Rx_GetSession (r : Receiver) (id : string) : option Session := rx_sessions r !! id.

(* @func internal/recording/receiver.go GetActiveConnections *)
Definition GetActiveConnections (r : Receiver) : nat := size (rx_registered r).

(** A handler takes an event from the channel the processor reads. *)
Definition hand_over (e : Event) (rest : list Event) (c : Conn) : Conn :=
  mkConn (cn_cid c) (cn_session c) (cn_stream c) (cn_reading c) (cn_processing c) rest (cn_closed c) (cn_batch c) (cn_finished c)
    (cn_read c) (cn_accepted c) (cn_written c) (cn_taken c ++ [e]).

Section Steps.
Context (timeout : error → bool).

(* @src internal/recording/receiver.go:199-282 acceptLoop *)
Inductive rx_step : Receiver → Receiver → Prop :=
  | step_accept r i cid st :
      rx_conns r !! i = None → rx_step r (accept r i cid st)
  | step_read r i c c' m :
      rx_conns r !! i = Some c → cn_reading c = true →
      readEvents timeout (rx_buffer r) (rx_cancelled r) c (rx_sessions r) = (c', m) →
      rx_step r (set_conn (mkRx (rx_buffer r) (rx_handler r) (rx_cancelled r) (rx_registered r) m (rx_conns r)) i c')
  | step_process r i c ch c' :
      rx_conns r !! i = Some c → cn_processing c = true →
      processEvents (rx_cancelled r) ch c = Some c' →
      rx_step r (set_conn r i c')
  | step_handler r i c e rest :
      rx_conns r !! i = Some c → rx_handler r = true → cn_chan c = e :: rest →
      rx_step r (set_conn r i (hand_over e rest c))
  | step_finish r i c :
      rx_conns r !! i = Some c → cn_reading c = false → cn_processing c = false → cn_finished c = false →
      rx_step r (finish r i c)
  | step_stop r : rx_step r (Stop r).

Definition reachable (buffer : nat) (handler : bool) (r : Receiver) : Prop := rtc rx_step (NewReceiver buffer handler) r.

(** * Properties *)

(** What holds of a connection. *)
Record conn_ok (buffer : nat) (handler cancelled : bool) (c : Conn) : Prop := {
  ok_room : (length (cn_chan c) ≤ buffer)%nat;
  ok_batch : (length (cn_batch c) < batch_size)%nat;
  ok_written : Forall (λ b, b ≠ [] ∧ length b ≤ batch_size)%nat (cn_written c);
  ok_accepted : cn_accepted c `sublist_of` cn_read c;
  ok_taken : handler = false → cn_taken c = [];
  ok_order : handler = false → concat (cn_written c) ++ cn_batch c ++ cn_chan c = cn_accepted c;
  ok_running : cancelled = false → cn_processing c = true ∧ cn_closed c = false ∧ cn_finished c = false }.

Definition rx_ok (r : Receiver) : Prop :=
  map_Forall (λ _, conn_ok (rx_buffer r) (rx_handler r) (rx_cancelled r)) (rx_conns r).

Lemma conn_ok_flush b h k c : conn_ok b h k c → conn_ok b h k (flush c).
Proof.
  intros []. unfold flush. destruct (cn_batch c) as [|e l] eqn:E; [by constructor; rewrite ?E|].
  rewrite ?E in *. constructor; cbn; try done.
  - unfold batch_size. lia.
  - apply Forall_app. split; [done|]. constructor; [|constructor]. split; [done|]. cbn in *. lia.
  - intros Hh. rewrite concat_app, <- app_assoc. cbn. rewrite app_nil_r. auto.
Qed.

Lemma conn_ok_receive b h k st e c : conn_ok b h k c → conn_ok b h k (receive b st e c).
Proof.
  intros []. unfold receive. destruct (Nat.ltb_spec (length (cn_chan c)) b).
  - constructor; cbn; try done.
    + rewrite length_app. cbn. lia.
    + by apply sublist_app.
    + intros Hh. rewrite <- (ok_order0 Hh), !app_assoc. done.
  - constructor; cbn; try done. by apply sublist_inserts_r.
Qed.

(** The batch is never full between two turns. *)
Lemma conn_ok_process b h k ch c c' :
  conn_ok b h k c → processEvents k ch c = Some c' → conn_ok b h k c'.
Proof.
  intros Hok. destruct ch; cbn [processEvents].
  - destruct k; [|done]. intros [= <-]. destruct (conn_ok_flush _ _ _ _ Hok). by constructor.
  - intros [= <-]. by apply conn_ok_flush.
  - destruct (cn_chan c) as [|e rest] eqn:E.
    + destruct (cn_closed c) eqn:Ec; [|done]. intros [= <-]. destruct (conn_ok_flush _ _ _ _ Hok).
      constructor; try done. intros Hk. destruct Hok as [_ _ _ _ _ _ H]. destruct (H Hk) as (_ & H' & _). congruence.
    + cbv zeta. intros <-%(inj Some). destruct Hok. rewrite E in *. cbn in ok_room0.
      assert (h = false → concat (cn_written c) ++ (cn_batch c ++ [e]) ++ rest = cn_accepted c) as Hord.
      { intros Hh. rewrite <- (ok_order0 Hh), <- app_assoc. done. }
      assert (length (cn_batch (take_event e rest c)) = length (cn_batch c) + 1)%nat as Hlen by apply length_app.
      destruct (Nat.leb_spec batch_size (length (cn_batch (take_event e rest c)))) as [Hge|Hlt].
      * unfold flush. destruct (cn_batch (take_event e rest c)) as [|x l] eqn:El; [by destruct (cn_batch c)|].
        constructor; cbn [take_event cn_chan cn_batch cn_written cn_accepted cn_read cn_taken cn_processing cn_closed cn_finished]; try done.
        { lia. }
        { unfold batch_size. cbn. lia. }
        { apply Forall_app. split; [done|]. constructor; [|constructor]. split; [done|lia]. }
        { intros Hh. cbn in El. rewrite concat_app, <- app_assoc, <- El. cbn. rewrite app_nil_r. by apply Hord. }
      * constructor; try done. cbn [take_event cn_chan]. lia.
Qed.

Lemma conn_ok_read b h k c m c' m' :
  conn_ok b h k c → readEvents timeout b k c m = (c', m') → conn_ok b h k c'.
Proof.
  intros Hok. unfold readEvents. destruct k. { intros [= <- _]. destruct Hok. by constructor. }
  destruct (ReadEvent (cn_stream c)) as [[e|err] st].
  - intros [= <- _]. by apply conn_ok_receive.
  - destruct (errors_Is err EOF); [|destruct (net_timeout timeout err)]; intros [= <- _]; destruct Hok; by constructor.
Qed.

Lemma rx_ok_step r r' : rx_ok r → rx_step r r' → rx_ok r'.
Proof.
  unfold rx_ok. intros Hok. inversion 1 as [? i cid st E|? i c c' m E Er Hr|? i c ch c' E Ep Hp|? i c e rest E Eh Ec|? i c E Er Ep Ef|?]; subst; cbn.
  - apply map_Forall_insert_2; [|done]. constructor; try done; cbn [new_conn cn_chan cn_batch length]; unfold batch_size; lia.
  - apply map_Forall_insert_2; [|done]. eapply conn_ok_read; [by apply (Hok i)|done].
  - apply map_Forall_insert_2; [|done]. eapply conn_ok_process; [by apply (Hok i)|done].
  - apply map_Forall_insert_2; [|done]. destruct (Hok i c E). rewrite Eh in *. rewrite Ec in *. cbn in *.
    constructor; cbn; try done; lia.
  - apply map_Forall_insert_2; [|done]. destruct (Hok i c E). constructor; cbn; try done.
    intros Hk. destruct (ok_running0 Hk) as [? _]. congruence.
  - generalize (map_to_list (rx_registered r)).*2. intros l. induction l as [|i l IH]; cbn.
    + intros i c E. destruct (Hok i c E). by constructor.
    + intros j c. rewrite lookup_alter_Some. intros [(-> & c0 & E & ->)|[_ E]]; [|by apply (IH j)].
      destruct (IH j c0 E). by constructor.
Qed.

Lemma reachable_ok b h r : reachable b h r → rx_ok r ∧ rx_buffer r = b ∧ rx_handler r = h.
Proof.
  intros H. unfold reachable in H. remember (NewReceiver b h) as r0 eqn:E0.
  assert (rx_ok r0 ∧ rx_buffer r0 = b ∧ rx_handler r0 = h) as H0.
  { subst. split_and!; [|done|done]. intros i c E. cbn in E. by rewrite lookup_empty in E. }
  clear E0. induction H as [r|r r' r'' Hs _ IH]; [done|]. apply IH. destruct H0 as (H1 & H2 & H3).
  split; [by eapply rx_ok_step|]. destruct Hs; cbn; done.
Qed.

(** What one step does to the events of a connection: it reads none, or one,
    which is accepted exactly if the channel had room. *)
Definition accounted (buffer : nat) (c c' : Conn) : Prop :=
  cn_read c' = cn_read c ∧ cn_accepted c' = cn_accepted c ∨
  ∃ e, cn_read c' = cn_read c ++ [e] ∧
    (length (cn_chan c) < buffer ∧ cn_accepted c' = cn_accepted c ++ [e] ∨
     length (cn_chan c) = buffer ∧ cn_accepted c' = cn_accepted c)%nat.

Lemma accounted_refl b c : accounted b c c.
Proof. by left. Qed.

Lemma accounted_flush b c c' : accounted b c c' → accounted b c (flush c').
Proof. unfold flush. by destruct (cn_batch c'). Qed.

Lemma accounted_process b k ch c c' : processEvents k ch c = Some c' → accounted b c c'.
Proof.
  destruct ch; cbn [processEvents].
  - destruct k; [|done]. intros [= <-]. exact (accounted_flush b c c (accounted_refl b c)).
  - intros [= <-]. exact (accounted_flush b c c (accounted_refl b c)).
  - destruct (cn_chan c) as [|e rest].
    + destruct (cn_closed c); [|done]. intros [= <-]. exact (accounted_flush b c c (accounted_refl b c)).
    + intros <-%(inj Some). destruct (_ <=? _)%nat; [apply accounted_flush|]; by left.
Qed.

Lemma accounted_read b k c m c' m' :
  (length (cn_chan c) ≤ b)%nat → readEvents timeout b k c m = (c', m') → accounted b c c'.
Proof.
  intros Hroom. unfold readEvents. destruct k. { intros [= <- _]. by left. }
  destruct (ReadEvent (cn_stream c)) as [[e|err] st].
  - intros [= <- _]. right. exists e. split; [done|]. cbn [receive cn_accepted].
    destruct (Nat.ltb_spec (length (cn_chan c)) b); [by left|right; split; [lia|done]].
  - destruct (errors_Is err EOF); [|destruct (net_timeout timeout err)]; intros [= <- _]; by left.
Qed.

(** What a step does to the connection [i]. *)
Definition step_accounts (r r' : Receiver) (i : nat) : Prop :=
  match rx_conns r !! i, rx_conns r' !! i with
  | Some c, Some c' => accounted (rx_buffer r) c c'
  | None, Some c' => cn_read c' = [] ∧ cn_accepted c' = []
  | Some _, None => False
  | None, None => True
  end.

(** A step that changes the connection [j] only. *)
Lemma step_accounts_insert r r' j c c' i :
  rx_conns r !! j = Some c → accounted (rx_buffer r) c c' → rx_conns r' = <[j := c']> (rx_conns r) → step_accounts r r' i.
Proof.
  intros E Ha Er. unfold step_accounts. rewrite Er. destruct (decide (i = j)) as [->|Hn].
  - by rewrite E, lookup_insert_eq.
  - rewrite lookup_insert_ne by congruence. destruct (rx_conns r !! i); [by left|done].
Qed.

Lemma rx_step_accounts r r' i : rx_ok r → rx_step r r' → step_accounts r r' i.
Proof.
  intros Hok. inversion 1 as [? j cid st E|? j c c' m E Er Hr|? j c ch c' E Ep Hp|? j c e rest E Eh Ec|? j c E Er Ep Ef|?]; subst.
  - unfold step_accounts, accept. cbn [rx_conns]. destruct (decide (i = j)) as [->|Hn].
    + by rewrite E, lookup_insert_eq.
    + rewrite lookup_insert_ne by congruence. destruct (rx_conns r !! i); [by left|done].
  - eapply (step_accounts_insert _ _ j c c'); [done| |done]. eapply accounted_read; [|done]. by destruct (Hok j c E).
  - eapply (step_accounts_insert _ _ j c c'); [done| |done]. by eapply accounted_process.
  - eapply (step_accounts_insert _ _ j c); [done| |done]. by left.
  - eapply (step_accounts_insert _ _ j c); [done| |done]. by left.
  - unfold step_accounts, Stop. cbn [rx_conns]. generalize (map_to_list (rx_registered r)).*2. intros l.
    induction l as [|j l IH]; cbn [foldr]; [destruct (rx_conns r !! i); [by left|done]|].
    destruct (decide (i = j)) as [->|Hn]; [rewrite lookup_alter_eq|by rewrite lookup_alter_ne by congruence].
    destruct (rx_conns r !! j) as [c|]; destruct (foldr _ _ _ !! j) as [c'|]; done.
Qed.

(** C20: No event is lost or reordered between the reader and the storage, for a
    receiver without a custom handler whose channels have room for at least one
    event.  Of every connection at every moment: what has been given to the
    storage, then the batch, then the channel is what the reader accepted, in
    order; the channel holds at most the configured number; batches given to the
    storage are never empty and have at most a hundred events.  And of every step
    of any goroutine: a connection starts with nothing read, and an event that is
    read is accepted when the channel has room and left out only when the channel
    is full. *)
Theorem receiver_accounts b r
    (Hb : (0 < b)%nat) (Hreach : reachable b false r) :
  (∀ i c, rx_conns r !! i = Some c →
    concat (cn_written c) ++ cn_batch c ++ cn_chan c = cn_accepted c ∧
    cn_accepted c `sublist_of` cn_read c ∧ (length (cn_chan c) ≤ b)%nat ∧
    Forall (λ l, l ≠ [] ∧ length l ≤ batch_size)%nat (cn_written c)) ∧
  ∀ r' i, rx_step r r' →
    match rx_conns r !! i, rx_conns r' !! i with
    | Some c, Some c' => accounted b c c'
    | None, Some c' => cn_read c' = [] ∧ cn_accepted c' = []
    | Some _, None => False
    | None, None => True
    end.
Proof.
  destruct (reachable_ok b false r Hreach) as (Hok & Hbuf & Hh). split.
  - intros i c E. destruct (Hok i c E). rewrite Hbuf, Hh in *. auto.
  - intros r' i Hs. rewrite <- Hbuf. exact (rx_step_accounts r r' i Hok Hs).
Qed.

(** until the receiver is stopped no connection ends: whatever its guest does,
    its processor runs, its channel is open, and [handleConnection] has not
    returned, since it waits for the processor before the deferred [close(events)]
    and [connCancel]. *)
Theorem receiver_keeps_connections b h r i c :
  reachable b h r → rx_cancelled r = false → rx_conns r !! i = Some c →
  cn_processing c = true ∧ cn_closed c = false ∧ cn_finished c = false.
Proof.
  intros H Hk E. destruct (reachable_ok b h r H) as (Hok & _). by apply (Hok i c E).
Qed.

Lemma process_event k c e rest :
  cn_chan c = e :: rest →
  ∃ c1, processEvents k ChooseEvent c = Some c1 ∧ cn_chan c1 = rest ∧ cn_processing c1 = cn_processing c ∧ cn_accepted c1 = cn_accepted c.
Proof.
  intros E. cbn [processEvents]. rewrite E. eexists. split; [reflexivity|].
  destruct (batch_size <=? _)%nat; [|done]. unfold flush. by destruct (cn_batch _).
Qed.

(** Draining: the processor alone brings everything accepted to the storage. *)
Lemma drain n r i c :
  length (cn_chan c) = n → rx_conns r !! i = Some c → cn_processing c = true →
  ∃ r' c', rtc rx_step r r' ∧ rx_conns r' !! i = Some c' ∧ cn_chan c' = [] ∧ cn_processing c' = true ∧
    cn_accepted c' = cn_accepted c ∧ rx_cancelled r' = rx_cancelled r.
Proof.
  revert r c. induction n as [|n IH]; intros r c Hl E Hp.
  { destruct (cn_chan c) eqn:Ec; [|done]. exists r, c. split_and!; [constructor|done..]. }
  destruct (cn_chan c) as [|e rest] eqn:Ec; [done|]. injection Hl as Hl.
  destruct (process_event (rx_cancelled r) c e rest Ec) as (c1 & E1 & H1 & H2 & H3).
  destruct (IH (set_conn r i c1) c1) as (r' & c' & Hs & Hr); [congruence|by cbn; rewrite lookup_insert_eq|congruence|].
  exists r', c'. rewrite <- H3. split; [|done].
  apply (rtc_l _ _ (set_conn r i c1)); [by eapply (step_process r i c ChooseEvent c1)|done].
Qed.

(** From any point at which the processor runs, it can go on -- whatever the
    reader does or does not do -- until everything accepted has been given to the
    storage. *)
Theorem receiver_drains b r i c :
  reachable b false r → rx_conns r !! i = Some c → cn_processing c = true →
  ∃ r' c', rtc rx_step r r' ∧ rx_conns r' !! i = Some c' ∧ concat (cn_written c') = cn_accepted c.
Proof.
  intros H E Hp. destruct (drain _ r i c eq_refl E Hp) as (r1 & c1 & Hs & E1 & Hc & Hp1 & Ha & _).
  exists (set_conn r1 i (flush c1)), (flush c1). split_and!.
  - eapply rtc_r; [exact Hs|]. by apply (step_process r1 i c1 ChooseTick).
  - cbn. by rewrite lookup_insert_eq.
  - assert (reachable b false r1) as H1 by (unfold reachable; by etrans).
    destruct (reachable_ok _ _ _ H1) as (Hok & _ & Hh). destruct (Hok i c1 E1). rewrite <- Ha, <- (ok_order0 Hh), Hc.
    unfold flush. destruct (cn_batch c1); cbn; [by rewrite app_nil_r|]. rewrite concat_app. cbn. by rewrite !app_nil_r.
Qed.
End Steps.

(** * A connection *)

Definition timeouts (err : error) : bool := match err with ErrorsNew s => String.eqb s "i/o timeout" | _ => false end.

(** A guest connects, sends one event and hangs up. *)
Definition rx_sent : Receiver := accept (NewReceiver 10 false) 0 3 [Bytes (encode wire_event_ex [("l", ""); ("k", "v")])].

Definition read_once (r : Receiver) : Receiver :=
  match rx_conns r !! 0%nat with
  | None => r
  | Some c =>
      let '(c', m) := readEvents timeouts (rx_buffer r) (rx_cancelled r) c (rx_sessions r) in
      set_conn (mkRx (rx_buffer r) (rx_handler r) (rx_cancelled r) (rx_registered r) m (rx_conns r)) 0 c'
  end.

Definition conn_of (r : Receiver) : Conn := default (new_conn 0 []) (rx_conns r !! 0%nat).

Lemma reachable_read_once r :
  reachable timeouts 10 false r → is_Some (rx_conns r !! 0%nat) → cn_reading (conn_of r) = true → reachable timeouts 10 false (read_once r).
Proof.
  intros H [c E] Hr. unfold conn_of in Hr. rewrite E in Hr. eapply rtc_r; [exact H|]. unfold read_once. rewrite E.
  destruct (readEvents _ _ _ _ _) as [c' m] eqn:Er. by eapply step_read.
Qed.

Lemma reachable_sent : reachable timeouts 10 false rx_sent.
Proof. apply rtc_once, (step_accept _ (NewReceiver 10 false) 0 3). apply lookup_empty. Qed.

Lemma reachable_hung_up : reachable timeouts 10 false (read_once (read_once rx_sent)).
Proof.
  apply reachable_read_once; [apply reachable_read_once; [exact reachable_sent|by eexists|done]|eexists; vm_compute; reflexivity|vm_compute; reflexivity].
Qed.

Lemma receiver_accounts_witness :
  let c := conn_of (read_once (read_once rx_sent)) in
  cn_accepted c = [wire_event_ex] ∧ concat (cn_written c) ++ cn_batch c ++ cn_chan c = cn_accepted c.
Proof.
  cbv zeta. split; [vm_compute; reflexivity|].
  refine (proj1 (proj1 (receiver_accounts timeouts 10 (read_once (read_once rx_sent)) _ reachable_hung_up) 0%nat (conn_of (read_once (read_once rx_sent))) _)).
  - lia.
  - vm_compute. reflexivity.
Defined.

(** The reader has returned, and the connection is there. *)
Lemma receiver_keeps_connections_witness :
  let c := conn_of (read_once (read_once rx_sent)) in
  cn_reading c = false ∧ GetActiveConnections (read_once (read_once rx_sent)) = 1%nat ∧
  cn_processing c = true ∧ cn_closed c = false ∧ cn_finished c = false.
Proof.
  cbv zeta. split; [vm_compute; reflexivity|]. split; [vm_compute; reflexivity|].
  refine (receiver_keeps_connections timeouts 10 false (read_once (read_once rx_sent)) 0 (conn_of (read_once (read_once rx_sent))) reachable_hung_up _ _);
    vm_compute; reflexivity.
Defined.

Lemma receiver_drains_witness :
  ∃ r' c', rtc (rx_step timeouts) (read_once (read_once rx_sent)) r' ∧ rx_conns r' !! 0%nat = Some c' ∧
    concat (cn_written c') = [wire_event_ex].
Proof.
  refine (receiver_drains timeouts 10 (read_once (read_once rx_sent)) 0 (conn_of (read_once (read_once rx_sent))) reachable_hung_up _ _);
    vm_compute; reflexivity.
Defined.

(** * What goes wrong *)

(** Stopping drops what is in the channel: the processor flushes its batch only. *)
Example stop_drops_the_channel :
  let r := Stop (read_once rx_sent) in
  match processEvents (rx_cancelled r) ChooseDone (conn_of r) with
  | Some c => cn_processing c = false ∧ cn_chan c = [wire_event_ex] ∧ cn_written c = []
  | None => False
  end.
Proof. vm_compute. done. Qed.

(** A time-out inside an event is not recognised as one: the connection is given
    up.  The end of the stream between two fields counts as a clean close. *)
Example timeout_inside_an_event :
  let d := encode wire_event_ex [("l", ""); ("k", "v")] in
  let c := new_conn 3 [Bytes (String.substring 0 4 d); Fails (ErrorsNew "i/o timeout"); Bytes (String.substring 4 1000 d)] in
  cn_reading (fst (readEvents timeouts 10 false c ∅)) = false.
Proof. vm_compute. done. Qed.

(** The connection a CID has replaced takes the registration with it. *)
Example reconnect_loses_registration :
  let r := accept (accept (NewReceiver 10 false) 0 3 []) 1 3 [] in
  GetActiveConnections r = 1%nat ∧ GetActiveConnections (finish r 0 (conn_of r)) = 0%nat.
Proof. vm_compute. done. Qed.
