(* ===== verification/RecordingApi.v ===== *)
(** The handlers of recordings (src/internal/api/recording_handlers.go).

    The field [recordingStorage] of the server is an interface: it can be nil, hold
    a storage, or hold a nil pointer -- which the handlers do not take for nil, and
    whose methods panic. *)

From stdpp Require Import gmap sorting.
From S2P Require Import Prelude GoStrings Paths Json Types Storage Server Snapshots LayerTypes LayerEnv Recording RecordingStore RecordingStoreSpec.

(** [NilPointer]: with the host, which is the storage's otherwise. *)
(* @src internal/api/recording_handlers.go:368-375 RecordingStorageInterface *)
Inductive recording_storage : Type :=
  | NilInterface (w : LWorld)
  | NilPointer (w : LWorld)
  | Backed (st : LocalStorage).

Inductive outcome : Type :=
  | Answers (r : response)
  | Panics.

Definition Handler : Type := State recording_storage outcome.

Definition answer (r : response) : Handler := ret (Answers r).

(** What the server has after [NewLocalStorage]: the variable is a pointer, and a
    pointer that is nil makes an interface that is not. *)
(* @src internal/api/server.go:491-502 startServer *)
Definition storage_of (r : result LocalStorage * LWorld) : recording_storage :=
  match r with
  | (Ok st, _) => Backed st
  | (Err _, w) => NilPointer w
  end.

(** A method of the storage. *)
Definition call {A} (m : RM A) (k : A → Handler) : Handler := λ s,
  match s with
  | Backed st => let '(a, st') := m st in k a (Backed st')
  | _ => (Panics, s)
  end.

(** A query of the database of the server. *)
Definition world_of_storage (s : recording_storage) : LWorld :=
  match s with NilInterface w => w | NilPointer w => w | Backed st => st_host st end.
Definition with_world (w : LWorld) (s : recording_storage) : recording_storage :=
  match s with NilInterface _ => NilInterface w | NilPointer _ => NilPointer w | Backed st => Backed (set_host st w) end.
Definition on_host {A} (m : LM A) (k : A → Handler) : Handler := λ s,
  let '(a, w) := m (world_of_storage s) in k a (with_world w s).

(** [s.recordingStorage == nil]. *)
Definition configured (k : Handler) : Handler := λ s,
  match s with
  | NilInterface _ => answer (WriteError 503 ErrInternalError (Text "Recording storage not configured") []) s
  | _ => k s
  end.

Section Handlers.
Context `{HR : REnv} (zone : Z → Z).

(** [t.Format("2006-01-02T15:04:05Z")]: the Z is a letter, and the time local. *)
Definition format_time (t : Z) : string :=
  let secs := (t / 1000000000 + zone t)%Z in
  let '(y, m, d) := civil (secs / 86400) in
  let r := (secs mod 86400)%Z in
  pad 4 y +:+ "-" +:+ pad 2 m +:+ "-" +:+ pad 2 d +:+ "T" +:+ pad 2 (r / 3600) +:+ ":" +:+ pad 2 (r / 60 mod 60) +:+ ":" +:+ pad 2 (r mod 60) +:+ "Z".

(* @src internal/api/recording_handlers.go:50-66 RecordingSessionResponse *)
Definition session_response (m : SessionMetadata) : json := enc_struct
  [ f_str "id" (sm_id m); f_str "vm_id" (sm_vm m); f_str "started_at" (format_time (sm_started m));
    f_str_omit "ended_at" (if (sm_ended m =? zero_time)%Z then "" else format_time (sm_ended m));
    f_int "event_count" (sm_events m); f_int "size_bytes" (sm_size m); f_str "status" (sm_status m);
    f_bool "compressed" (sm_compressed m) ].

(* @src internal/api/recording_handlers.go:24-28 ListRecordingsResponse *)
Definition list_response (l : list SessionMetadata) : json := enc_struct
  [ f_any "recordings" (JArr (session_response <$> l)); f_int "total" (Z.of_nat (length l)) ].

Definition failed (what : string) : response := internal_error (Text what).

(* @func internal/api/recording_handlers.go handleListRecordings *)
Definition handleListRecordings (vmID : string) : Handler :=
  configured (call (ListSessions vmID) (λ r,
    answer match r with
    | Err _ => failed "Failed to list recordings"
    | Ok sessions => writeJSON 200 (BJson (list_response sessions))
    end)).

Definition session_id_given (id : string) (k : Handler) : Handler :=
  if String.eqb id "" then answer (WriteError 400 ErrInvalidRequest (Text "Session ID is required") []) else k.

(** The session: [GetSession] returns nil only with an error. *)
(* @src internal/api/recording_handlers.go:75-100 handleGetRecording *)
Definition with_session (id : string) (k : SessionMetadata → Handler) : Handler :=
  configured (session_id_given id (call (GetSession id) (λ r,
    match r with
    | Err _ => answer (failed "Failed to get recording")
    | Ok session => k session
    end))).

(* @func internal/api/recording_handlers.go handleGetRecording *)
Definition handleGetRecording (id : string) : Handler :=
  with_session id (λ session, answer (writeJSON 200 (BJson (session_response session)))).

(** A parameter of the query, unless it is empty, not a number or out of range. *)
(* @src internal/api/recording_handlers.go:149-163 handleGetRecordingEvents *)
Definition page_parameter (s : string) (ok : Z → bool) (def : Z) : Z :=
  match atoi s with Some z => if ok z then z else def | None => def end.

(* @func internal/api/recording_handlers.go handleGetRecordingEvents *)
Definition handleGetRecordingEvents (id offset limit : string) : Handler :=
  with_session id (λ session,
    answer (writeJSON 200 (BJson (enc_struct
      [ f_any "events" (JArr []); f_int "offset" (page_parameter offset (λ z, 0 <=? z)%Z 0);
        f_int "limit" (page_parameter limit (λ z, (0 <? z)%Z && (z <=? 1000)%Z) 100); f_int "total" (sm_events session) ])))).

(* @func internal/api/recording_handlers.go handleFinalizeRecording *)
Definition handleFinalizeRecording (id : string) : Handler :=
  with_session id (λ session,
    if negb (String.eqb (sm_status session) "active") then
      answer (WriteError 409 ErrInvalidRequest (Text "Recording is already finalized") [])
    else call (Finalize id) (λ e,
      match e with
      | Some _ => answer (failed "Failed to finalize recording")
      | None =>
          call (GetSession id) (λ r,
            match r with
            | Ok session => answer (writeJSON 200 (BJson (session_response session)))
            | Err _ => ret Panics       (* [session] is nil *)
            end)
      end)).

(* @func internal/api/recording_handlers.go handleDeleteRecording *)
Definition handleDeleteRecording (id : string) : Handler :=
  with_session id (λ _,
    call (DeleteSession id) (λ e,
      answer match e with
      | Some _ => failed "Failed to delete recording"
      | None => mkResp 204 BNone
      end)).

(* @func internal/api/recording_handlers.go handleListVMRecordings *)
Definition handleListVMRecordings (vmID : string) : Handler :=
  configured (
    if String.eqb vmID "" then answer (WriteError 400 ErrInvalidRequest (Text "VM ID is required") [])
    else on_host (db_read (λ fault db, GetVM fault vmID db)) (λ r,
      match r with
      | Err _ => answer (failed "Failed to get VM")
      | Ok None => answer (WriteError 404 ErrVMNotFound (Text "VM not found") [])
      | Ok (Some vm) =>
          call (ListSessions (vm_id vm)) (λ r,
            answer match r with
            | Err _ => failed "Failed to list recordings"
            | Ok sessions => writeJSON 200 (BJson (list_response sessions))
            end)
      end)).

(** * Properties *)

Inductive request : Type :=
  | ReqList (vmID : string) | ReqGet (id : string) | ReqEvents (id offset limit : string)
  | ReqFinalize (id : string) | ReqDelete (id : string).

Definition handle (r : request) : Handler :=
  match r with
  | ReqList vmID => handleListRecordings vmID
  | ReqGet id => handleGetRecording id
  | ReqEvents id offset limit => handleGetRecordingEvents id offset limit
  | ReqFinalize id => handleFinalizeRecording id
  | ReqDelete id => handleDeleteRecording id
  end.

Definition request_id (r : request) : string :=
  match r with
  | ReqList _ => "*" | ReqGet id => id | ReqEvents id _ _ => id | ReqFinalize id => id | ReqDelete id => id
  end.

(** when the storage could not be made at start-up, every request about
    recordings that names a session panics; the answer 503 is for an interface that
    is nil, which the server never has. *)
Theorem failed_storage_panics base days enc w r :
  is_Ok (fst (NewLocalStorage base days enc w)) = false → request_id r ≠ "" →
  fst (handle r (storage_of (NewLocalStorage base days enc w))) = Panics.
Proof.
  intros Hf Hid. assert (∃ w', storage_of (NewLocalStorage base days enc w) = NilPointer w') as [w' ->].
  { destruct (NewLocalStorage base days enc w) as [[st|e] w']; [done|by exists w']. }
  apply String.eqb_neq in Hid. destruct r; cbn in *; try done;
    unfold handleGetRecording, handleGetRecordingEvents, handleFinalizeRecording, handleDeleteRecording,
      with_session, configured, session_id_given; by rewrite Hid.
Qed.

(** no handler of a recording answers 404: a session that is not there is
    indistinguishable from a storage that fails, and gives 500. *)
Theorem unknown_recording_is_500 r st :
  match fst (handle r (Backed st)) with
  | Answers resp => rs_status resp ∈ [200; 204; 400; 409; 500]%Z
  | Panics => ∃ id, r = ReqFinalize id
  end ∧
  (request_id r ≠ "" → st_sessions st !! request_id r = None →
   file_content (metadata_path (session_path st (request_id r))) (st_host st) = None →
   match r with ReqList _ => True | _ => ∃ code msg det, fst (handle r (Backed st)) = Answers (mkResp 500 (BError code msg det)) end).
Proof.
  split.
  - destruct r; cbn; unfold handleListRecordings, handleGetRecording, handleGetRecordingEvents, handleFinalizeRecording,
      handleDeleteRecording, with_session, configured, session_id_given, call.
    + destruct (ListSessions _ _) as [[?|?] ?]; cbn; set_solver.
    + destruct (String.eqb _ _); [cbn; set_solver|]. destruct (GetSession _ _) as [[?|?] ?]; cbn; set_solver.
    + destruct (String.eqb _ _); [cbn; set_solver|]. destruct (GetSession _ _) as [[?|?] ?]; cbn; set_solver.
    + destruct (String.eqb _ _); [cbn; set_solver|]. destruct (GetSession _ _) as [[?|?] ?]; [|cbn; set_solver].
      destruct (negb _); [cbn; set_solver|]. destruct (Finalize _ _) as [[?|] ?]; [cbn; set_solver|].
      destruct (GetSession _ _) as [[?|?] ?]; cbn; [set_solver|eauto].
    + destruct (String.eqb _ _); [cbn; set_solver|]. destruct (GetSession _ _) as [[?|?] ?]; [|cbn; set_solver].
      destruct (DeleteSession _ _) as [[?|] ?]; cbn; set_solver.
  - intros Hid Hs Hf. destruct r as [vm|id|id o l|id|id]; [done|..]; cbn [request_id] in *;
      apply String.eqb_neq in Hid;
      (assert (∃ e w, GetSession id st = (Err e, w)) as (e & w & E);
       [unfold GetSession; rewrite Hs, host_eq; unfold readMetadata, checked_result; rewrite bind_unfold;
        unfold os_ReadFile; unfold file_content in Hf;
        destruct (le_fault _); [by eauto|]; destruct (w_files (st_host st) !! _) as [[]|]; [done|by eauto|by eauto]|];
       cbn [handle]; unfold handleGetRecording, handleGetRecordingEvents, handleFinalizeRecording, handleDeleteRecording,
         with_session, configured, session_id_given, call; rewrite Hid, E; by eauto 6).
Qed.

(** A session that is being recorded is served as it is: 200, with its counts
    and its status, whatever the host does. *)
Theorem handleGetRecording_active st id s :
  id ≠ "" → st_sessions st !! id = Some s →
  handleGetRecording id (Backed st) = (Answers (mkResp 200 (BJson (session_response (ls_metadata s)))), Backed st).
Proof.
  intros Hid E. apply String.eqb_neq in Hid. unfold handleGetRecording, with_session, configured, session_id_given, call, GetSession.
  by rewrite Hid, E.
Qed.
End Handlers.

(** * Concrete requests *)

Definition utc (_ : Z) : Z := 0%Z.

Lemma failed_storage_panics_witness :
  let r := NewLocalStorage (HR := recording_env [0%nat]) "/data/recordings" 30 None (world_of empty_db ∅) in
  is_Ok (fst r) = false ∧ fst (handle (HR := recording_env [0%nat]) utc (ReqGet "s-1") (storage_of r)) = Panics.
Proof.
  cbv zeta. split; [vm_compute; reflexivity|].
  apply (failed_storage_panics (HR := recording_env [0%nat]) utc "/data/recordings" 30 None (world_of empty_db ∅) (ReqGet "s-1"));
    [vm_compute; reflexivity|discriminate].
Defined.

Lemma unknown_recording_is_500_witness :
  st_sessions store_ex !! "s-9" = None ∧
  ∃ code msg det, fst (handle (HR := recording_env []) utc (ReqGet "s-9") (Backed store_ex)) = Answers (mkResp 500 (BError code msg det)).
Proof.
  split; [vm_compute; reflexivity|].
  refine (proj2 (unknown_recording_is_500 (HR := recording_env []) utc (ReqGet "s-9") store_ex) _ _ _);
    [discriminate|vm_compute; reflexivity|vm_compute; reflexivity].
Defined.

Definition started_ex : LocalStorage := snd (StartSession (HR := recording_env []) "vm-1" "s-1" store_ex).

Lemma handleGetRecording_active_witness :
  ∃ s, st_sessions started_ex !! "s-1" = Some s ∧
    fst (handleGetRecording (HR := recording_env []) utc "s-1" (Backed started_ex)) =
      Answers (mkResp 200 (BJson (session_response utc (ls_metadata s)))).
Proof.
  destruct (st_sessions started_ex !! "s-1") as [s|] eqn:E; [|vm_compute in E; discriminate].
  exists s. split; [reflexivity|]. rewrite (handleGetRecording_active (HR := recording_env []) utc started_ex "s-1" s); [reflexivity|discriminate|exact E].
Defined.

Example response_ex :
  session_response utc (mkMeta "s-1" "vm-1" 1700000000000000000 zero_time 3 120 "active" false) =
  JObj [("id", JStr "s-1"); ("vm_id", JStr "vm-1"); ("started_at", JStr "2023-11-14T22:13:20Z"); ("event_count", JNum 3);
        ("size_bytes", JNum 120); ("status", JStr "active"); ("compressed", JBool false)].
Proof. vm_compute. reflexivity. Qed.

(** The Z of a time is literal: in a zone east of UTC the answer is off. *)
Example local_time_with_a_Z : format_time (λ _, 3600%Z) 1700000000000000000 = "2023-11-14T23:13:20Z".
Proof. vm_compute. reflexivity. Qed.

(** A path value is decoded, so an id can climb: what is deleted need not be a
    recording, as long as it holds a JSON file called metadata. *)
Example delete_escapes :
  let fs := {["/data/recordings" := Dir perm_0755; "/data/store/metadata.json" := File "{}" perm_0600; "/data/store/image" := File "x" perm_0600]} in
  let st := mkStore "/data/recordings" 30 ∅ (world_of empty_db fs) in
  let '(r, s) := handleDeleteRecording (HR := recording_env []) "../store" (Backed st) in
  r = Answers (mkResp 204 BNone) ∧ w_files (world_of_storage s) !! "/data/store/image" = None.
Proof. vm_compute. done. Qed.

(** The session is read once more after it has been finalized; when that fails the
    handler dereferences nil. *)
Example finalize_can_panic :
  let t := w_tick (st_host (snd (Finalize (HR := recording_env []) "s-1" started_ex))) in
  fst (handleFinalizeRecording (HR := recording_env [t]) utc "s-1" (Backed started_ex)) = Panics.
Proof. vm_compute. done. Qed.
